(* ===== verification/_CoqProject ===== *)
-Q . S2P
Prelude.v
Chunk.v
Alloc.v
Ealloc.v
SsuSem.v
SsufsDisk.v
SsufsOps.v
SsufsSpec.v
Ssufs.v
KString.v
Kernel.v
Proc.v
ProcSpec.v
Sched.v
Forking.v
Machine.v
Xv6Proc.v
Pipe.v
Bio.v
Log.v
Fs.v
FsSpec.v
LogDev.v
FsFile.v
FsDir.v
Syscall.v
File.v
FsTx.v
FileSpec.v
Kalloc.v
Vm.v
VmSpec.v
VmOps.v
ProcVm.v
SysProc.v
Exec.v
ExecSpec.v
Ide.v
Mkfs.v
MkfsSpec.v
Grep.v
Sh.v
ShGrammar.v
ShRun.v
ShRunSpec.v
SsuShell.v
Console.v
Printf.v
Ulib.v
Umalloc.v
Kbd.v
Uart.v
Mp.v
Apic.v
Progs.v
Boot.v
MasterWorker.v
RwLock.v
