(* ===== verification/Prelude.v ===== *)
(** * A verification of the os20 course projects

    ** The program

    The repository holds a series of operating-system projects.  The largest is
    project3/xv6-modified, the xv6 kernel with a priority scheduler and some new
    system calls, its user library and programs.  The others are programs of
    their own: a shell (project2), three exercises in synchronisation (project4:
    producers and consumers, reader-writer locks, a semaphore), two page-based
    memory allocators (project5) and a small file system in a file (project6).

    The parts of the kernel and how they meet:

    - processes (proc.c) run system calls (syscall.c, sysproc.c, sysfile.c); the
      scheduler and the handlers of interrupts (trap.c) switch between them;
    - the process code gets and frees memory through kalloc.c and vm.c;
    - the file calls go through the table of open files (file.c) to pipes
      (pipe.c), to devices (console.c) or to the file system (fs.c), which works
      on blocks; a block is cached by bio.c, and a group of block writes is made
      atomic by the write-ahead log (log.c); the disk is memide.c, or the driver
      ide.c with its interrupts;
    - user programs reach the kernel through ulib.c, printf.c and umalloc.c; the
      shell sh.c and grep.c are modelled among them.

    ** The model

    A C function over a state [S] is a Rocq function in the monad [M S] below,
    with its early returns and error paths; panics and undefined accesses are
    [Stop], a call that would sleep is [Block].  Machine integers are [Z] with
    their wrap-around written out ([u32], [s32], ...).  Pointers are indices or
    addresses into an explicit memory wherever aliasing or overlap matters.
    Concurrent code is a step relation whose steps are the statements (or the
    stretches that a lock makes atomic) of any number of threads.

    - Prelude: the monad and its rules, integers, byte encodings, lists.
    - Chunk, Alloc, Ealloc: project5/alloc.c and ealloc.c over an array of chunk
      descriptors; refinement of first fit on the list of blocks.
    - SsuSem, MasterWorker, RwLock: project4/3, /1 and /2; safety in every
      interleaving, progress, and the runs in which the code fails.
    - SsufsDisk, SsufsOps, SsufsSpec, Ssufs: project6, byte-exact on the disk
      image; refinement to files as byte strings.
    - KString, Ulib: string.c and ulib.c over a flat byte memory.
    - Kernel, Proc, ProcSpec, Sched, Forking, Machine, Xv6Proc: spinlock.c and
      proc.c; the process table and lock invariant of the machine (Machine) that
      interleaves the processes, the interrupts and the scheduler, with fork one
      statement at a time (Forking), since the clock may interrupt it; that its
      calls return, and the behaviour of fork, wait, exit and the scheduler.
    - SysProc: sysproc.c and trap.c; every trap, and the rest of a handler after
      the process gave up the CPU in it, is a path of that machine.
    - Pipe: pipe.c for any number of processes; FIFO refinement and wakeups.
    - Bio, Log: bio.c, sleeplock.c, memide.c and log.c; the cache refines the
      disk, a transaction is atomic under a crash at any disk write.
    - Ide: ide.c over the ports of the controller; a queue of requests served in
      order, in every interleaving of calls, interrupts and disk errors.
    - Fs, FsSpec, LogDev, FsFile, FsDir: fs.c over the class [BlockDev]; FsSpec
      states as [BlockDevOk] what fs.c relies on, LogDev discharges it with the
      cache and the log; file contents and directories.
    - Mkfs, MkfsSpec: mkfs.c; on the image it builds fs.c reads every file back
      exactly as it was given.
    - Syscall, File, FsTx, FileSpec: syscall.c, file.c, sysfile.c; argument
      checks, crash safety of file writes, reference counts of descriptors.
    - Kalloc, Vm, VmSpec, VmOps, ProcVm: kalloc.c and vm.c over physical memory;
      who owns each page; address spaces are isolated; fork and wait over the
      real memory layer, which implements the class [KernelEnv] of Proc.
    - Exec, ExecSpec: exec.c; loading a program refines a function of the bytes
      of its file and the arguments, and a failure restores every page.
    - Grep, Sh, ShGrammar: grep.c and the parser of sh.c against regular
      patterns and a grammar.
    - ShRun, ShRunSpec: runcmd and main of sh.c as trees of system calls over a
      machine of processes, descriptors and pipes; the programs that are started,
      no deadlock, waiting for the commands in the foreground.
    - SsuShell: project2/ssu_shell.c; a script runs as the pipelines its lines
      spell, with the descriptors each command gets, where every bar is a word of
      its own; a bar glued to a word is not read as one.
    - Console, Printf: console.c and printf.c; the console is a line editor, the
      two formatted outputs print the same text.
    - Kbd, Uart: kbd.c with its tables and uart.c; what is typed or received
      reaches the console as the line editor's input.
    - Mp, Apic: mp.c, lapic.c, ioapic.c and picirq.c; the processors that the BIOS
      tables list, the routing of interrupts, the reading of the clock.
    - Progs: cat.c, wc.c and echo.c, over descriptors that deliver bytes in pieces.
    - Boot: bootmain.c; the kernel's segments are in memory when it is entered.
    - Umalloc: umalloc.c, the circular free list of user programs.

    ** Bounds and fuel

    A loop whose recursion is not structural takes a fuel argument.  The fuel is
    always computed from the state (the size of a memory, the number of entries
    or blocks, twice the length of a line) and the theorems state that the
    function returns, so the fuel is enough; [OutOfFuel] is never an accepted
    result.  Fixed sizes are those of the source (NPROC, NBUF, LOGSIZE,
    PIPESIZE, INPUT_BUF and so on).  The kernel has one CPU, as param.h
    configures it.

    ** Not modelled

    - The boot, entry and trap assembly, the loading of segment and
      page-table registers, main.c, which starts the devices in order.
    - User programs that only make system calls or print (ls, ln, rm, kill, init,
      the test programs and usertests.c), project1 and the monitors pps and ttop
      of project2, which format the files of /proc. *)

From Stdlib Require Import ZArith Lia List.
From stdpp Require Import base numbers strings option list relations.

(** ** Outcomes of C code

    A C function that reads or changes state [S] and returns an [A] is a
    function of type [M S A].  [Ret] is a normal return.  [Stop] is the end of
    the program or of the machine: [panic], [exit], a failed [assert], or an
    access the C standard leaves undefined (null or out-of-range pointer).
    [Block] is a call that would sleep, with the state in which it sleeps.
    [OutOfFuel] is only produced by loops whose recursion is bounded by a fuel
    argument. *)
Inductive outcome (S A : Type) : Type :=
| Ret (a : A) (s : S)
| Stop (msg : string)
| Block (chan : string) (s : S)
| OutOfFuel.
Arguments Ret {S A} a s.
Arguments Stop {S A} msg.
Arguments Block {S A} chan s.
Arguments OutOfFuel {S A}.

Definition M (S A : Type) : Type := S -> outcome S A.

#[export] Instance M_ret (S : Type) : MRet (M S) := fun A a s => Ret a s.

#[export] Instance M_bind (S : Type) : MBind (M S) := fun A B k m s =>
  match m s with
  | Ret a s' => k a s'
  | Stop msg => Stop msg
  | Block c s' => Block c s'
  | OutOfFuel => OutOfFuel
  end.

Definition get {S : Type} : M S S := fun s => Ret s s.
Definition gets {S A : Type} (f : S -> A) : M S A := fun s => Ret (f s) s.
Definition put {S : Type} (s : S) : M S unit := fun _ => Ret tt s.
Definition modify {S : Type} (f : S -> S) : M S unit := fun s => Ret tt (f s).
Definition stop {S A : Type} (msg : string) : M S A := fun _ => Stop msg.
Definition block {S A : Type} (c : string) : M S A := fun s => Block c s.
Definition out_of_fuel {S A : Type} : M S A := fun _ => OutOfFuel.
Definition skip {S : Type} : M S unit := mret tt.
Definition from_option {S A : Type} (msg : string) (o : option A) : M S A :=
  match o with Some a => mret a | None => stop msg end.
Definition assertb {S : Type} (msg : string) (b : bool) : M S unit :=
  if b then skip else stop msg.
Definition when {S : Type} (b : bool) (m : M S unit) : M S unit :=
  if b then m else skip.

(** Total correctness: the call returns, and its result and final state
    satisfy [Q]. *)
Definition wp {S A : Type} (m : M S A) (s : S) (Q : A -> S -> Prop) : Prop :=
  match m s with Ret a s' => Q a s' | _ => False end.

Section wp_rules.
Context {S A B : Type}.
Implicit Types (m : M S A) (k : A -> M S B) (s : S).

Lemma wp_intro m s a s' (Q : A -> S -> Prop) : m s = Ret a s' -> Q a s' -> wp m s Q.
Proof. unfold wp. by intros ->. Qed.

Lemma wp_elim m s (Q : A -> S -> Prop) :
  wp m s Q -> exists a s', m s = Ret a s' /\ Q a s'.
Proof. unfold wp. destruct (m s); naive_solver. Qed.

Lemma wp_mono m s (P Q : A -> S -> Prop) :
  wp m s P -> (forall a s', P a s' -> Q a s') -> wp m s Q.
Proof. unfold wp. destruct (m s); naive_solver. Qed.

Lemma wp_bind m k s (Q : B -> S -> Prop) :
  wp m s (fun a s' => wp (k a) s' Q) -> wp (m ≫= k) s Q.
Proof. unfold wp, mbind, M_bind. destruct (m s); naive_solver. Qed.

Lemma bind_ret m k s a s' : m s = Ret a s' -> (m ≫= k) s = k a s'.
Proof. unfold mbind, M_bind. by intros ->. Qed.

Lemma bind_stop m k s msg : m s = Stop msg -> (m ≫= k) s = Stop msg.
Proof. unfold mbind, M_bind. by intros ->. Qed.

Lemma bind_seq {C : Type} m k (k2 : B -> M S C) s b s2 :
  (m ≫= k) s = Ret b s2 -> (m ≫= fun a => k a ≫= k2) s = k2 b s2.
Proof. unfold mbind, M_bind. destruct (m s); [| done..]. by intros ->. Qed.

Lemma bind_inv m k s b s2 :
  (m ≫= k) s = Ret b s2 -> exists a s1, m s = Ret a s1 /\ k a s1 = Ret b s2.
Proof. unfold mbind, M_bind. destruct (m s); naive_solver. Qed.
End wp_rules.

(** [mstep] runs the first command of a bind whose result is known by
    computation; [mrun] repeats it. *)
Ltac mstep :=
  match goal with
  | |- context [(mbind ?k ?m) ?s] =>
      erewrite (bind_ret m k s) by (first [reflexivity | eassumption])
  end; cbv beta iota.
Ltac mrun := repeat mstep.

(** Case split on the boolean comparisons that guard a goal, with the
    arithmetic facts they stand for. *)
Ltac bool_cases :=
  repeat match goal with
  | |- context [if (?a =? ?b)%Z then _ else _] => destruct (Z.eqb_spec a b)
  | |- context [if (?a <? ?b)%Z then _ else _] => destruct (Z.ltb_spec a b)
  | |- context [if (?a <=? ?b)%Z then _ else _] => destruct (Z.leb_spec a b)
  | |- context [if (?a >? ?b)%Z then _ else _] => rewrite (Z.gtb_ltb a b)
  | |- context [if negb ?b then _ else _] => destruct b eqn:?; cbn [negb]
  end.

(** ** Machine integers *)
Open Scope Z_scope.

Definition u8 (z : Z) : Z := z mod 2 ^ 8.
Definition u16 (z : Z) : Z := z mod 2 ^ 16.
Definition u32 (z : Z) : Z := z mod 2 ^ 32.
Definition u64 (z : Z) : Z := z mod 2 ^ 64.
Definition s32 (z : Z) : Z := (z + 2 ^ 31) mod 2 ^ 32 - 2 ^ 31.

Definition is_u32 (z : Z) : Prop := 0 <= z < 2 ^ 32.
Definition is_s32 (z : Z) : Prop := - 2 ^ 31 <= z < 2 ^ 31.

Lemma u32_range z : 0 <= u32 z < 2 ^ 32.
Proof. apply Z.mod_pos_bound. lia. Qed.

Lemma u64_small z : 0 <= z < 2 ^ 64 -> u64 z = z.
Proof. apply Z.mod_small. Qed.

Lemma u32_small z : 0 <= z < 2 ^ 32 -> u32 z = z.
Proof. apply Z.mod_small. Qed.

Lemma s32_small z : - 2 ^ 31 <= z < 2 ^ 31 -> s32 z = z.
Proof. unfold s32. intros. rewrite Z.mod_small; lia. Qed.

Lemma s32_range z : - 2 ^ 31 <= s32 z < 2 ^ 31.
Proof. unfold s32. pose proof (Z.mod_pos_bound (z + 2 ^ 31) (2 ^ 32)). lia. Qed.

Lemma u32_u32 z : u32 (u32 z) = u32 z.
Proof. unfold u32. apply Zmod_mod. Qed.

Lemma u32_add_l a b : u32 (u32 a + b) = u32 (a + b).
Proof. unfold u32. apply Zplus_mod_idemp_l. Qed.

Lemma u32_add_r a b : u32 (a + u32 b) = u32 (a + b).
Proof. unfold u32. apply Zplus_mod_idemp_r. Qed.

Lemma u32_sub_l a b : u32 (u32 a - b) = u32 (a - b).
Proof. unfold u32. apply Zminus_mod_idemp_l. Qed.

Lemma u32_sub_r a b : u32 (a - u32 b) = u32 (a - b).
Proof. unfold u32. apply Zminus_mod_idemp_r. Qed.

Lemma s32_u32 z : s32 (u32 z) = s32 z.
Proof. unfold s32, u32. by rewrite Zplus_mod_idemp_l. Qed.

Lemma u32_s32 z : u32 (s32 z) = u32 z.
Proof.
  unfold s32, u32. rewrite Zminus_mod_idemp_l. f_equal. lia.
Qed.

(** ** Little-endian byte encodings: the memory image of an [int] or [uint] *)
Fixpoint le_bytes (n : nat) (z : Z) : list Z :=
  match n with
  | O => []
  | S n' => z mod 256 :: le_bytes n' (z / 256)
  end.

Fixpoint le_val (bs : list Z) : Z :=
  match bs with
  | [] => 0
  | b :: bs' => b mod 256 + 256 * le_val bs'
  end.

Lemma length_le_bytes n z : length (le_bytes n z) = n.
Proof. revert z. induction n; intros z; simpl; [done | by rewrite IHn]. Qed.

Lemma le_val_bytes n z : le_val (le_bytes n z) = z mod 256 ^ Z.of_nat n.
Proof.
  revert z. induction n as [| n IH]; intros z.
  - by rewrite Z.mod_1_r.
  - cbn [le_bytes le_val]. rewrite IH, Zmod_mod.
    rewrite Nat2Z.inj_succ, Z.pow_succ_r by lia.
    rewrite Z.rem_mul_r by (try apply Z.pow_pos_nonneg; lia). lia.
Qed.

Definition int32_bytes (z : Z) : list Z := le_bytes 4 z.
Definition int32_val (bs : list Z) : Z := s32 (le_val bs).
Definition uint32_val (bs : list Z) : Z := le_val bs.

Lemma le_val_range (bs : list Z) : 0 <= le_val bs < 256 ^ Z.of_nat (length bs).
Proof.
  induction bs as [| b bs IH]; cbn [le_val length]; [lia |].
  rewrite Nat2Z.inj_succ, Z.pow_succ_r by lia. pose proof (Z.mod_pos_bound b 256). lia.
Qed.

Lemma int32_roundtrip z : is_s32 z -> int32_val (int32_bytes z) = z.
Proof.
  intros H. unfold int32_val, int32_bytes. rewrite le_val_bytes.
  change (256 ^ Z.of_nat 4) with (2 ^ 32). fold (u32 z). rewrite s32_u32.
  by apply s32_small.
Qed.

Lemma uint32_roundtrip z : is_u32 z -> uint32_val (le_bytes 4 z) = z.
Proof.
  intros H. unfold uint32_val. rewrite le_val_bytes. by apply u32_small.
Qed.

(** ** Lists used as arrays *)
Section arrays.
Context {A : Type}.
Implicit Types (l : list A) (x : A).

(** [a[i] = x] for an index known to be in range is stdpp's insert; a slice is
    [take n (drop i l)]; [splice i xs l] overwrites [length xs] cells from [i]. *)
Definition slice (i n : nat) l : list A := take n (drop i l).
Definition splice (i : nat) (xs : list A) l : list A :=
  take i l ++ xs ++ drop (i + length xs) l.

Lemma length_slice i n l : (i + n <= length l)%nat -> length (slice i n l) = n.
Proof. intros. unfold slice. rewrite length_take, length_drop. lia. Qed.

Lemma length_splice i xs l :
  (i + length xs <= length l)%nat -> length (splice i xs l) = length l.
Proof.
  intros. unfold splice. rewrite !length_app, length_take, length_drop. lia.
Qed.

Lemma slice_splice i xs l :
  (i + length xs <= length l)%nat -> slice i (length xs) (splice i xs l) = xs.
Proof.
  intros. unfold slice, splice. rewrite drop_app_ge; rewrite length_take; [| lia].
  replace (i - i `min` length l)%nat with 0%nat by lia. rewrite drop_0.
  by rewrite take_app_length.
Qed.

Lemma slice_splice_before i n j xs l :
  (i + n <= j)%nat -> (j + length xs <= length l)%nat ->
  slice i n (splice j xs l) = slice i n l.
Proof.
  intros. unfold slice, splice. rewrite drop_app_le by (rewrite length_take; lia).
  rewrite skipn_firstn_comm, take_app_le by (rewrite length_take, length_drop; lia).
  rewrite take_take. f_equal. lia.
Qed.

Lemma slice_splice_after i n j xs l :
  (j + length xs <= i)%nat -> (j + length xs <= length l)%nat ->
  slice i n (splice j xs l) = slice i n l.
Proof.
  intros. unfold slice, splice.
  rewrite drop_app_ge by (rewrite length_take; lia).
  rewrite drop_app_ge by (rewrite length_take; lia).
  rewrite drop_drop, length_take. do 2 f_equal. lia.
Qed.

Lemma splice_lookup_lt i j xs l :
  (j < i)%nat -> (i <= length l)%nat -> splice i xs l !! j = l !! j.
Proof.
  intros. unfold splice. rewrite lookup_app_l by (rewrite length_take; lia).
  by rewrite lookup_take_lt.
Qed.

Lemma splice_lookup_mid i j xs l :
  (i <= j < i + length xs)%nat -> (i <= length l)%nat ->
  splice i xs l !! j = xs !! (j - i)%nat.
Proof.
  intros. unfold splice. rewrite lookup_app_r by (rewrite length_take; lia).
  rewrite lookup_app_l by (rewrite length_take; lia).
  rewrite length_take. f_equal. lia.
Qed.

Lemma splice_lookup_ge i j xs l :
  (i + length xs <= j)%nat -> (i + length xs <= length l)%nat ->
  splice i xs l !! j = l !! j.
Proof.
  intros. unfold splice. rewrite lookup_app_r by (rewrite length_take; lia).
  rewrite lookup_app_r by (rewrite length_take; lia).
  rewrite lookup_drop, length_take. f_equal. lia.
Qed.
End arrays.

(** A slice of a concatenation skips or takes whole parts. *)
Lemma slice_skip {A : Type} (i n : nat) (x y : list A) :
  (length x <= i)%nat -> slice i n (x ++ y) = slice (i - length x) n y.
Proof. intros. unfold slice. by rewrite drop_app_ge. Qed.

Lemma slice_head {A : Type} (n : nat) (x y : list A) :
  length x = n -> slice 0 n (x ++ y) = x.
Proof. intros <-. unfold slice. rewrite drop_0. apply take_app_length. Qed.

Lemma slice_all {A : Type} (n : nat) (x : list A) : length x = n -> slice 0 n x = x.
Proof. intros <-. unfold slice. rewrite drop_0. apply firstn_all. Qed.

Lemma slice_app_l {A : Type} (i n : nat) (x y : list A) :
  (i + n <= length x)%nat -> slice i n (x ++ y) = slice i n x.
Proof.
  intros. unfold slice. rewrite drop_app_le by lia. rewrite take_app_le; [done |].
  rewrite length_drop. lia.
Qed.

(** ** Splicing a byte string made of blocks *)
Section splicing.
Context {A : Type}.
Implicit Types (l xs ys : list A).

Lemma splice_app (a b c : list A) i xs :
  (i + length xs <= length b)%nat ->
  splice (length a + i) xs (a ++ b ++ c) = a ++ splice i xs b ++ c.
Proof.
  intros. unfold splice.
  rewrite take_app_add'  by done. rewrite take_app_le by lia.
  rewrite <- Nat.add_assoc, drop_app_add' by done. rewrite drop_app_le by lia.
  by rewrite <- !(assoc_L (++)).
Qed.

Lemma splice_concat (k n i : nat) xs (bs : list (list A)) (b : list A) :
  Forall (fun x => length x = n) bs -> bs !! k = Some b -> (i + length xs <= n)%nat ->
  splice (k * n + i) xs (concat bs) = concat (<[k := splice i xs b]> bs).
Proof.
  intros Hl Hk Hi. pose proof (lookup_lt_Some _ _ _ Hk) as Hlt.
  rewrite insert_take_drop by done.
  rewrite <- (take_drop_middle bs k b Hk) at 1. rewrite !concat_app. cbn [concat].
  assert (Hb : length b = n) by by eapply (Forall_lookup_1 _ _ _ _ Hl Hk).
  assert (Ht : length (concat (take k bs)) = (k * n)%nat).
  { clear Hk Hi Hb. revert k Hlt.
    induction Hl as [| x l Hx Hl IH]; intros [| k] Hlt; cbn in *; [lia.. |].
    rewrite length_app, IH by lia. lia. }
  rewrite <- Ht. apply splice_app. lia.
Qed.

Lemma splice_splice i xs ys l :
  (i + length xs + length ys <= length l)%nat ->
  splice (i + length xs) ys (splice i xs l) = splice i (xs ++ ys) l.
Proof.
  intros Hl. pose proof (length_splice i xs l ltac:(lia)) as Hs.
  apply list_eq. intros j. destruct (decide (j < i)%nat).
  { rewrite !splice_lookup_lt; [done | lia..]. }
  destruct (decide (j < i + length xs)%nat).
  { rewrite splice_lookup_lt, !splice_lookup_mid by (rewrite ?length_app; lia).
    by rewrite lookup_app_l by lia. }
  destruct (decide (j < i + length xs + length ys)%nat).
  { rewrite !splice_lookup_mid by (rewrite ?length_app; lia).
    rewrite lookup_app_r by lia. f_equal. lia. }
  by rewrite !splice_lookup_ge by (rewrite ?length_app; lia).
Qed.

Lemma slice_split (i n m : nat) l :
  (n <= m)%nat -> slice i n l ++ slice (i + n) (m - n) l = slice i m l.
Proof.
  intros. unfold slice. rewrite <- drop_drop.
  rewrite take_take_drop. f_equal. lia.
Qed.

Lemma splice_nil i l : splice i [] l = l.
Proof. unfold splice. cbn. rewrite Nat.add_0_r. apply take_drop. Qed.
End splicing.

Lemma slice_concat {A : Type} (k n i j : nat) (bs : list (list A)) (b : list A) :
  Forall (fun x => length x = n) bs -> bs !! k = Some b -> (i + j <= n)%nat ->
  slice (k * n + i) j (concat bs) = slice i j b.
Proof.
  intros Hl Hk Hi. pose proof (Forall_lookup_1 _ _ _ _ Hl Hk) as Hb. cbn in Hb.
  revert k Hk. induction Hl as [| x l Hx Hl IH]; intros [| k] Hk; cbn in *; simplify_eq.
  - apply slice_app_l. lia.
  - rewrite slice_skip by lia. rewrite <- (IH k Hk). f_equal. lia.
Qed.

Lemma slice_splice_in {A : Type} (i k m : nat) (xs l : list A) :
  (k + m <= length xs)%nat -> (i + length xs <= length l)%nat -> slice (i + k) m (splice i xs l) = slice k m xs.
Proof.
  intros Hk Hi. unfold splice. rewrite slice_skip by (rewrite length_take; lia).
  rewrite length_take, Nat.min_l by lia. replace (i + k - i)%nat with k by lia. by apply slice_app_l.
Qed.

Lemma splice_one {A : Type} (i : nat) (x : A) (l : list A) :
  (i < length l)%nat -> splice i [x] l = <[i := x]> l.
Proof. intros. unfold splice. cbn. rewrite insert_take_drop by done. do 3 f_equal. lia. Qed.

Lemma splice_cons {A : Type} (i : nat) (x : A) xs (l : list A) :
  (i + S (length xs) <= length l)%nat -> splice i (x :: xs) l = splice (S i) xs (<[i := x]> l).
Proof.
  intros. rewrite <- splice_one by lia. replace (S i) with (i + length [x])%nat by (cbn; lia).
  by rewrite splice_splice by (cbn; lia).
Qed.

Lemma splice_snoc {A : Type} (i : nat) (x : A) xs (l : list A) :
  (i + S (length xs) <= length l)%nat ->
  splice i (xs ++ [x]) l = splice i xs (<[(i + length xs)%nat := x]> l).
Proof.
  intros. apply list_eq. intros j.
  assert (L : length (<[(i + length xs)%nat:=x]> l) = length l) by apply length_insert.
  destruct (decide (j < i)%nat).
  { rewrite !splice_lookup_lt by (rewrite ?L; lia). by rewrite list_lookup_insert_ne by lia. }
  destruct (decide (j < i + length xs)%nat).
  { rewrite !splice_lookup_mid by (rewrite ?length_app; cbn; lia). by rewrite lookup_app_l by lia. }
  destruct (decide (j = i + length xs)%nat) as [-> |].
  { rewrite splice_lookup_mid by (rewrite ?length_app; cbn; lia).
    rewrite splice_lookup_ge by (rewrite ?L; lia). rewrite list_lookup_insert_eq by lia.
    rewrite lookup_app_r by lia. by replace (i + length xs - i - length xs)%nat with 0%nat by lia. }
  rewrite !splice_lookup_ge by (rewrite ?length_app, ?L; cbn; lia).
  by rewrite list_lookup_insert_ne by lia.
Qed.

(** The first index of a table that satisfies a test: the shape of every
    free-slot scan of the sources. *)
Section find_index.
Context {A : Type} (p : A -> bool).

Fixpoint find_index (l : list A) : option nat :=
  match l with
  | [] => None
  | x :: l' => if p x then Some 0%nat else S <$> find_index l'
  end.

Lemma find_index_Some l i :
  find_index l = Some i ->
  (exists x, l !! i = Some x /\ p x = true) /\
  forall j y, (j < i)%nat -> l !! j = Some y -> p y = false.
Proof.
  revert i. induction l as [| x l IH]; intros i; simpl; [done |].
  destruct (p x) eqn:Hx.
  - intros [= <-]. split; [eauto |]. intros; lia.
  - destruct (find_index l) as [k |] eqn:E; simpl; [| done]. intros [= <-].
    destruct (IH k eq_refl) as [(y & ? & ?) Hmin]. split; [by exists y |].
    intros [| j] z Hlt Hz; simpl in Hz; [congruence |]. eapply Hmin; [| done]. lia.
Qed.

Lemma find_index_None l : find_index l = None <-> forall x, x ∈ l -> p x = false.
Proof.
  induction l as [| x l IH]; simpl; [split; [intros _ y Hy; by apply elem_of_nil in Hy | done] |].
  destruct (p x) eqn:Hx; split; intros H.
  - done.
  - rewrite (H x) in Hx by apply list_elem_of_here. done.
  - destruct (find_index l) eqn:E; [done |]. intros y [-> | Hy]%elem_of_cons; [done |].
    by apply IH.
  - replace (find_index l) with (@None nat); [done |]. symmetry. apply IH.
    intros y Hy. apply H. by apply list_elem_of_further.
Qed.

Lemma find_index_lt l i : find_index l = Some i -> (i < length l)%nat.
Proof.
  intros H. apply find_index_Some in H as [(x & Hx & _) _].
  by eapply lookup_lt_Some.
Qed.

Lemma find_index_first l i x : l !! i = Some x -> p x = true ->
  (forall j y, (j < i)%nat -> l !! j = Some y -> p y = false) -> find_index l = Some i.
Proof.
  intros Hx Hp Hj. destruct (find_index l) as [k |] eqn:E.
  - apply find_index_Some in E as [(y & Hy & Hpy) Hk]. destruct (decide (k = i)) as [-> | Hne]; [done |].
    destruct (decide (k < i)%nat); [rewrite (Hj k y) in Hpy by done; done |].
    rewrite (Hk i x) in Hp by (done || lia). done.
  - rewrite find_index_None in E. rewrite (E x) in Hp; [done |]. by eapply list_elem_of_lookup_2.
Qed.

(** A list that differs at index [j] only, where the old element, if any, does not satisfy [p]. *)
Lemma find_index_change l l' j e : l' !! j = Some e -> (forall k, k <> j -> l' !! k = l !! k) ->
  (forall x, l !! j = Some x -> p x = false) ->
  (p e = false -> find_index l' = find_index l) /\ (p e = true -> find_index l = None -> find_index l' = Some j).
Proof.
  intros He Hne Hj. split.
  - intros Hpe. destruct (find_index l) as [k |] eqn:E.
    + apply find_index_Some in E as [(y & Hy & Hpy) Hk].
      assert (k <> j) by (intros ->; rewrite (Hj y Hy) in Hpy; done).
      apply (find_index_first l' k y); [by rewrite Hne | done |]. intros i z Hi Hz. destruct (decide (i = j)) as [-> |].
      * by assert (z = e) as -> by congruence.
      * rewrite Hne in Hz by done. by eapply Hk.
    + apply find_index_None. rewrite find_index_None in E. intros x [i Hi]%list_elem_of_lookup. destruct (decide (i = j)) as [-> |].
      * by assert (x = e) as -> by congruence.
      * rewrite Hne in Hi by done. apply E. by eapply list_elem_of_lookup_2.
  - intros Hpe E. rewrite find_index_None in E. apply (find_index_first l' j e); [done | done |].
    intros i z Hi Hz. rewrite Hne in Hz by lia. apply E. by eapply list_elem_of_lookup_2.
Qed.
End find_index.

(** ** Hint databases of the development *)
Create HintDb os20.
#[export] Hint Resolve u32_range s32_range u32_small s32_small : os20.

(** ** Runs of a step function *)
Lemma foldl_steps {E S : Type} (exec : E -> S -> option S) (es : list E) (s s' : S) :
  foldl (fun o e => o ≫= exec e) (Some s) es = Some s' -> rtc (fun a b => exists e, exec e a = Some b) s s'.
Proof.
  revert s. induction es as [|e es IH]; intros s; simpl; [by intros [= ->]; constructor|].
  destruct (exec e s) as [s1|] eqn:He; simpl.
  - intros Hr. eapply rtc_l; [by exists e|]. by apply IH.
  - clear IH He. induction es; [done|]. by simpl.
Qed.
