(* ===== verification/Chunk.v ===== *)
(** * Chunk: the chunk list shared by project5/alloc.c and project5/ealloc.c

    Both allocators manage one 4096-byte page with a static array of chunk
    descriptors, one per [MINALLOC] bytes, linked in address order through
    [next] and [prev].  The two sources contain the same code, ealloc.c once
    per manager of its array [cmans], so the code is modelled here once, for
    any [MINALLOC], and instantiated in Alloc.v and Ealloc.v.  A [chunk_t *]
    is an index of the array, [NULL] is [None]. *)

From Stdlib Require Import ZArith Lia Sorted.
From stdpp Require Import base numbers strings option list.
From S2P Require Import Prelude.

Record chunk_t := mk_chunk {
  next : option nat;
  prev : option nat;
  sz : Z;
  offset : Z;
  assigned : bool
}.

Record chunkman_t := mk_chunkman {
  addr : Z;
  chunk_list : option nat;
  chunks : list chunk_t
}.

Definition PAGESIZE : Z := 4096.
Definition MAP_FAILED : Z := -1.

(** The zero-initialised element of the static array. *)
Definition chunk_zero : chunk_t := mk_chunk None None 0 0 false.

(** Field assignments through a pointer. *)
Definition with_next (n : option nat) (c : chunk_t) : chunk_t :=
  mk_chunk n (prev c) (sz c) (offset c) (assigned c).
Definition with_prev (p : option nat) (c : chunk_t) : chunk_t :=
  mk_chunk (next c) p (sz c) (offset c) (assigned c).
Definition with_sz (z : Z) (c : chunk_t) : chunk_t :=
  mk_chunk (next c) (prev c) z (offset c) (assigned c).
Definition with_offset (o : Z) (c : chunk_t) : chunk_t :=
  mk_chunk (next c) (prev c) (sz c) o (assigned c).
Definition with_assigned (b : bool) (c : chunk_t) : chunk_t :=
  mk_chunk (next c) (prev c) (sz c) (offset c) b.
Definition with_chunks (cs : list chunk_t) (m : chunkman_t) : chunkman_t :=
  mk_chunkman (addr m) (chunk_list m) cs.

Definition load (i : nat) : M chunkman_t chunk_t := fun m =>
  match chunks m !! i with
  | Some c => Ret c m
  | None => Stop "chunk access out of bounds"
  end.
Definition store (i : nat) (c : chunk_t) : M chunkman_t unit := fun m =>
  match chunks m !! i with
  | Some _ => Ret tt (with_chunks (<[i := c]> (chunks m)) m)
  | None => Stop "chunk access out of bounds"
  end.
Definition upd (i : nat) (f : chunk_t -> chunk_t) : M chunkman_t unit :=
  c ← load i; store i (f c).

Section code.
Variable MINALLOC : Z.

Definition CHUNK_BUF_SIZE : Z := PAGESIZE / MINALLOC.

(** [chunk_new]: the compound literal leaves [offset] zero. *)
Definition chunk_new (off s : Z) : M chunkman_t nat :=
  let chunk_idx := Z.to_nat (off / MINALLOC) in
  if negb (Z.rem s MINALLOC =? 0) then stop "chunk_new sizeerror: exit(-1)"
  else
    store chunk_idx (mk_chunk None None s 0 false);;
    mret chunk_idx.

(** The body of [init_alloc] and [small_init_alloc]; [mmap_ret] is what [mmap]
    returned.  The result is 0 or -1. *)
Definition init_page (mmap_ret : Z) : M chunkman_t Z :=
  modify (fun m => mk_chunkman mmap_ret (chunk_list m) (chunks m));;
  if mmap_ret =? MAP_FAILED then mret (-1)
  else
    chunk ← chunk_new 0 PAGESIZE;
    upd chunk (with_offset 0);;
    modify (fun m => mk_chunkman (addr m) (Some chunk) (chunks m));;
    mret 0.

(** The body of the search loop of [alloc]/[small_alloc] once a fitting free
    chunk [iter] is found. *)
Definition take_chunk (size : Z) (iter : nat) : M chunkman_t (option Z) :=
  c ← load iter;
  (if negb (sz c =? size) then
     let nxt := next c in
     n ← chunk_new (offset c + size) (sz c - size);
     upd iter (with_next (Some n));;
     match nxt with
     | Some x => upd n (with_next (Some x))
     | None => skip
     end
   else skip);;
  c1 ← load iter;
  (match next c1 with
   | Some n => upd n (with_offset (offset c1 + size));; upd n (with_prev (Some iter))
   | None => skip
   end);;
  upd iter (with_assigned true);;
  upd iter (with_sz size);;
  c2 ← load iter;
  a ← gets addr;
  mret (Some (a + offset c2)).

Fixpoint alloc_loop (fuel : nat) (size : Z) (iter : option nat) : M chunkman_t (option Z) :=
  match iter with
  | None => mret None
  | Some i =>
      match fuel with
      | O => out_of_fuel
      | S fuel' =>
          c ← load i;
          if assigned c then alloc_loop fuel' size (next c)
          else if size >? sz c then alloc_loop fuel' size (next c)
          else take_chunk size i
      end
  end.

(** One more than the number of descriptors: no list is longer. *)
Definition loop_fuel : nat := S (Z.to_nat CHUNK_BUF_SIZE).

Definition page_alloc (size : Z) : M chunkman_t (option Z) :=
  iter ← gets chunk_list;
  if negb (Z.rem size MINALLOC =? 0) then mret None
  else if size <? MINALLOC then mret None
  else alloc_loop loop_fuel size iter.

(** [if (y->next) y->next->prev = x; x->next = y->next; x->sz += y->sz;] *)
Definition absorb (x y : nat) : M chunkman_t unit :=
  yc ← load y;
  (match next yc with
   | Some n => upd n (with_prev (Some x))
   | None => skip
   end);;
  yc' ← load y;
  upd x (with_next (next yc'));;
  upd x (fun c => with_sz (sz c + sz yc') c).

Definition page_dealloc (ptr : Z) : M chunkman_t unit :=
  a ← gets addr;
  let off := u64 (ptr - a) in
  assertb "chunk access out of bounds" (off / MINALLOC <? CHUNK_BUF_SIZE);;
  let piv := Z.to_nat (off / MINALLOC) in
  victim ← load piv;
  let r_seeker := next victim in
  let l_seeker := prev victim in
  (match r_seeker with
   | Some r => rc ← load r; if negb (assigned rc) then absorb piv r else skip
   | None => skip
   end);;
  upd piv (with_assigned false);;
  match l_seeker with
  | None => skip
  | Some l => lc ← load l; if assigned lc then skip else absorb l piv
  end.
End code.

(** ** Abstract view: the page as a sequence of blocks

    A block is a size and an assigned flag; the blocks tile the page in
    address order. *)
Abbreviation block_t := (Z * bool)%type.

Fixpoint total (bs : list block_t) : Z :=
  match bs with
  | [] => 0
  | (s, _) :: bs' => s + total bs'
  end.

(** What [alloc] promises: the first free block that is large enough is taken,
    and its remainder becomes a free block. *)
Fixpoint first_fit (size off : Z) (bs : list block_t) : option (Z * list block_t) :=
  match bs with
  | [] => None
  | (s, a) :: bs' =>
      if a || (s <? size) then
        match first_fit size (off + s) bs' with
        | Some (o, bs'') => Some (o, (s, a) :: bs'')
        | None => None
        end
      else if s =? size then Some (off, (size, true) :: bs')
      else Some (off, (size, true) :: (s - size, false) :: bs')
  end.

(** What [dealloc] promises for the block of size [s] between [pre] and [suf]:
    it becomes free and is joined with a free right and a free left
    neighbour. *)
Definition merge_right (s : Z) (suf : list block_t) : Z * list block_t :=
  match suf with
  | (s2, false) :: suf' => (s + s2, suf')
  | _ => (s, suf)
  end.
Definition merge_left (pre : list block_t) (s : Z) (suf : list block_t) : list block_t :=
  match list.last pre with
  | Some (s0, false) => removelast pre ++ (s0 + s, false) :: suf
  | _ => pre ++ (s, false) :: suf
  end.
Definition free_block (pre : list block_t) (s : Z) (suf : list block_t) : list block_t :=
  let '(s', suf') := merge_right s suf in merge_left pre s' suf'.

(** The live allocations of a page, as (offset, size). *)
Fixpoint live (off : Z) (bs : list block_t) : list (Z * Z) :=
  match bs with
  | [] => []
  | (s, a) :: bs' => (if a then [(off, s)] else []) ++ live (off + s) bs'
  end.

(** ** The representation of a block sequence by linked descriptors *)
Section rep.
Variable MINALLOC : Z.
Hypothesis min_pos : 0 < MINALLOC.

Definition idx (off : Z) : nat := Z.to_nat (off / MINALLOC).

(** [seg cs p off bs q]: from pointer [p], the [next] links visit the
    descriptors of the blocks [bs], the first one at offset [off], and end at
    [q].  [prev] is not constrained. *)
Fixpoint seg (cs : list chunk_t) (p : option nat) (off : Z) (bs : list block_t)
    (q : option nat) : Prop :=
  match bs with
  | [] => p = q
  | (s, a) :: bs' =>
      p = Some (idx off) /\ 0 < s /\ (MINALLOC | s) /\
      exists c, cs !! idx off = Some c /\ sz c = s /\ offset c = off /\
        assigned c = a /\ seg cs (next c) (off + s) bs' q
  end.

(** [prevs cs pp off bs]: the [prev] field of every descriptor is its
    predecessor in the list ([pp] for the first). *)
Fixpoint prevs (cs : list chunk_t) (pp : option nat) (off : Z) (bs : list block_t) : Prop :=
  match bs with
  | [] => True
  | (s, _) :: bs' =>
      (exists c, cs !! idx off = Some c /\ prev c = pp) /\
      prevs cs (Some (idx off)) (off + s) bs'
  end.

(** What the client of a page relies on: the descriptor array has its size and
    the list tiles the page. *)
Record page_inv (m : chunkman_t) (bs : list block_t) : Prop := {
  inv_len : Z.of_nat (length (chunks m)) * MINALLOC = PAGESIZE;
  inv_seg : seg (chunks m) (chunk_list m) 0 bs None;
  inv_total : total bs = PAGESIZE
}.

Lemma idx_mono o1 o2 : 0 <= o1 -> (MINALLOC | o1) -> (MINALLOC | o2) -> o1 < o2 ->
  (idx o1 < idx o2)%nat.
Proof.
  intros H0 [k1 ->] [k2 ->] Hlt. unfold idx. rewrite !Z.div_mul by lia. nia.
Qed.

Lemma idx_bound (cs : list chunk_t) o :
  Z.of_nat (length cs) * MINALLOC = PAGESIZE -> 0 <= o < PAGESIZE -> (MINALLOC | o) ->
  (idx o < length cs)%nat.
Proof.
  intros Hl Ho [k ->]. unfold idx. rewrite Z.div_mul by lia. nia.
Qed.

Lemma seg_total_nonneg cs p off bs q : seg cs p off bs q -> 0 <= total bs.
Proof.
  revert p off. induction bs as [| [s a] bs IH]; intros p off; simpl; [lia |].
  intros (_ & Hs & _ & c & _ & _ & _ & _ & H). apply IH in H. lia.
Qed.

Lemma seg_total_div cs p off bs q : seg cs p off bs q -> (MINALLOC | total bs).
Proof.
  revert p off. induction bs as [| [s a] bs IH]; intros p off; simpl.
  - intros _. apply Z.divide_0_r.
  - intros (_ & _ & Hd & c & _ & _ & _ & _ & H). apply Z.divide_add_r; eauto.
Qed.

Lemma seg_app cs p off b1 b2 q :
  seg cs p off (b1 ++ b2) q <->
  exists r, seg cs p off b1 r /\ seg cs r (off + total b1) b2 q.
Proof.
  revert p off. induction b1 as [| [s a] b1 IH]; intros p off; simpl.
  - rewrite Z.add_0_r. split; [by eauto | by intros (r & -> & ?)].
  - setoid_rewrite IH. rewrite Z.add_assoc. split.
    + intros (? & ? & ? & c & ? & ? & ? & ? & r & ? & ?). exists r. eauto 12.
    + intros (r & (? & ? & ? & c & ? & ? & ? & ? & ?) & ?). eauto 12.
Qed.

Lemma prevs_app cs pp off b1 b2 :
  prevs cs pp off (b1 ++ b2) <->
  prevs cs pp off b1 /\
  prevs cs (match list.last b1 with Some (s, _) => Some (idx (off + total b1 - s)) | None => pp end)
    (off + total b1) b2.
Proof.
  revert pp off. induction b1 as [| [s a] b1 IH]; intros pp off.
  - simpl. rewrite Z.add_0_r. tauto.
  - cbn [app prevs total]. rewrite IH, !(Z.add_assoc off s).
    destruct b1 as [| [s1 a1] b1].
    + simpl. replace (off + s + 0 - s) with off by lia. tauto.
    + rewrite last_cons_cons.
      destruct (list.last ((s1, a1) :: b1)) as [[] |] eqn:E; [tauto |].
      by apply last_None in E.
Qed.

(** A change outside the descriptors of the segment, or of a [prev] field
    only, keeps the segment. *)
Definition same_links (c c' : chunk_t) : Prop :=
  next c = next c' /\ sz c = sz c' /\ offset c = offset c' /\ assigned c = assigned c'.

Lemma seg_frame cs cs' p off bs q :
  0 <= off -> (MINALLOC | off) ->
  (forall o c, off <= o < off + total bs -> (MINALLOC | o) -> cs !! idx o = Some c ->
     exists c', cs' !! idx o = Some c' /\ same_links c c') ->
  seg cs p off bs q -> seg cs' p off bs q.
Proof.
  revert p off. induction bs as [| [s a] bs IH]; intros p off H0 Hd Hf; simpl; [done |].
  intros (-> & Hs & Hds & c & Hc & Hsz & Ho & Ha & Hseg).
  pose proof (seg_total_nonneg _ _ _ _ _ Hseg) as Ht. simpl in Hf.
  destruct (Hf off c) as (c' & Hc' & Hn' & Hs' & Ho' & Ha'); [lia | done | done |].
  split_and!; [done | done | done |]. exists c'. split_and!; try congruence.
  rewrite <- Hn'. apply IH; [lia | by apply Z.divide_add_r | | done].
  intros o d Hrange. apply Hf. lia.
Qed.

Lemma prevs_frame cs cs' pp off bs :
  0 <= off -> (MINALLOC | off) -> Forall (fun b => 0 < b.1 /\ (MINALLOC | b.1)) bs ->
  (forall o c, off <= o < off + total bs -> (MINALLOC | o) -> cs !! idx o = Some c ->
     exists c', cs' !! idx o = Some c' /\ prev c = prev c') ->
  prevs cs pp off bs -> prevs cs' pp off bs.
Proof.
  intros H0 Hd HF. revert pp off H0 Hd.
  induction HF as [| [s a] bs [Hs Hds] HF IH]; intros pp off H0 Hd Hf; [done |].
  cbn [prevs total] in *. simpl in Hs, Hds.
  assert (0 <= total bs) as Ht.
  { clear -HF. induction HF as [| [s' a'] bs [Hs _]]; simpl in *; lia. }
  intros [(c & Hc & Hp) Hr]. split.
  - destruct (Hf off c) as (c' & ? & ?); [lia | done | done |]. exists c'. split; congruence.
  - apply IH; [lia | by apply Z.divide_add_r | | done]. intros o d Hrange. apply Hf. lia.
Qed.

Lemma seg_sizes cs p off bs q :
  seg cs p off bs q -> Forall (fun b => 0 < b.1 /\ (MINALLOC | b.1)) bs.
Proof.
  revert p off. induction bs as [| [s a] bs IH]; intros p off; simpl; [constructor |].
  intros (_ & ? & ? & c & _ & _ & _ & _ & H). constructor; [done | eauto].
Qed.
End rep.

(** ** Symbolic execution of descriptor accesses *)
Lemma load_ok m i c : chunks m !! i = Some c -> load i m = Ret c m.
Proof. unfold load. by intros ->. Qed.

Lemma store_ok m i c c' :
  chunks m !! i = Some c -> store i c' m = Ret tt (with_chunks (<[i := c']> (chunks m)) m).
Proof. unfold store. by intros ->. Qed.

Lemma upd_ok m i c f :
  chunks m !! i = Some c -> upd i f m = Ret tt (with_chunks (<[i := f c]> (chunks m)) m).
Proof. intros H. unfold upd. rewrite (bind_ret _ _ _ _ _ (load_ok _ _ _ H)). by eapply store_ok. Qed.

(** [lk] reads a descriptor array after a few stores. *)
Ltac lk :=
  cbn [chunks with_chunks];
  repeat first
    [ rewrite list_lookup_insert_eq
        by (rewrite ?length_insert; first [done | lia | eapply lookup_lt_Some; eassumption])
    | rewrite list_lookup_insert_ne by first [done | congruence | lia] ];
  first [eassumption | reflexivity].
Ltac run_load := erewrite bind_ret by (apply load_ok; lk); cbv beta.
Ltac run_upd := erewrite bind_ret by (eapply upd_ok; lk); cbv beta.

Section alloc_proofs.
Variable MINALLOC : Z.
Hypothesis min_pos : 0 < MINALLOC.
Abbreviation idx := (idx MINALLOC).
Abbreviation seg := (seg MINALLOC).
Abbreviation prevs := (prevs MINALLOC).

Lemma chunk_new_ok m off s c :
  (MINALLOC | s) -> chunks m !! idx off = Some c ->
  chunk_new MINALLOC off s m =
  Ret (idx off) (with_chunks (<[idx off := mk_chunk None None s 0 false]> (chunks m)) m).
Proof.
  intros Hd Hc. unfold chunk_new. rewrite (proj2 (Z.rem_divide s MINALLOC ltac:(lia)) Hd).
  cbn [Z.eqb negb]. by rewrite (bind_ret _ _ _ _ _ (store_ok _ _ _ _ Hc)).
Qed.

(** Taking a free chunk of exactly the requested size. *)
Lemma take_exact m i c :
  chunks m !! i = Some c -> (forall n, next c = Some n -> n <> i /\ is_Some (chunks m !! n)) ->
  exists cs', take_chunk MINALLOC (sz c) i m = Ret (Some (addr m + offset c)) (with_chunks cs' m) /\
    length cs' = length (chunks m) /\
    cs' !! i = Some (with_assigned true c) /\
    (forall j, j <> i -> next c <> Some j -> cs' !! j = chunks m !! j) /\
    (forall n cn, next c = Some n -> chunks m !! n = Some cn ->
       cs' !! n = Some (with_prev (Some i) (with_offset (offset c + sz c) cn))).
Proof.
  intros Hc Hn. unfold take_chunk. run_load. rewrite Z.eqb_refl. cbn [negb].
  erewrite bind_ret by reflexivity. cbv beta. run_load.
  destruct (next c) as [n |] eqn:En.
  - destruct (Hn n eq_refl) as [Hne [cn Hcn]].
    erewrite bind_ret; [| run_upd; eapply upd_ok; lk]. cbv beta.
    run_upd. run_upd. run_load. eexists. split; [reflexivity |].
    cbn [chunks with_chunks]. rewrite !length_insert. split_and!; [done | lk | |].
    + intros j Hj1 Hj2. rewrite !list_lookup_insert_ne by congruence. done.
    + intros n' cn' [= <-] Hcn'. rewrite Hcn in Hcn'. injection Hcn' as <-. lk.
  - erewrite bind_ret by reflexivity. cbv beta. run_upd. run_upd. run_load. eexists.
    split; [reflexivity |]. cbn [chunks with_chunks]. rewrite !length_insert. split_and!; [done | lk | | done].
    intros j Hj1 Hj2. by rewrite !list_lookup_insert_ne by congruence.
Qed.

(** Splitting a larger free chunk. *)
Lemma take_split m off size c d :
  chunks m !! idx off = Some c -> offset c = off -> sz c <> size ->
  (MINALLOC | sz c - size) -> idx (off + size) <> idx off ->
  chunks m !! idx (off + size) = Some d ->
  exists cs', take_chunk MINALLOC size (idx off) m = Ret (Some (addr m + off)) (with_chunks cs' m) /\
    length cs' = length (chunks m) /\
    cs' !! idx off = Some (mk_chunk (Some (idx (off + size))) (prev c) size off true) /\
    cs' !! idx (off + size) =
      Some (mk_chunk (next c) (Some (idx off)) (sz c - size) (off + size) false) /\
    (forall j, j <> idx off -> j <> idx (off + size) -> cs' !! j = chunks m !! j).
Proof.
  intros Hc <- Hsz Hd Hne Hdn. set (off := offset c) in *. unfold take_chunk. run_load.
  rewrite (proj2 (Z.eqb_neq _ _) Hsz). cbn [negb]. fold off.
  erewrite bind_ret; [| erewrite bind_ret by (by eapply chunk_new_ok); cbv beta; run_upd;
    instantiate (2 := tt); instantiate (1 := with_chunks (<[idx (off + size) :=
      mk_chunk (next c) None (sz c - size) 0 false]> (<[idx off := with_next (Some (idx (off + size))) c]>
      (<[idx (off + size) := mk_chunk None None (sz c - size) 0 false]> (chunks m)))) m);
    destruct (next c) as [x |] eqn:En].
  - cbv beta. run_load. cbn [next with_next]. erewrite bind_ret; [| run_upd; eapply upd_ok; lk].
    cbv beta. run_upd. run_upd. run_load. cbn [offset with_sz with_assigned with_next].
    eexists. split; [reflexivity |]. cbn [chunks with_chunks]. rewrite !length_insert.
    split_and!; [done | lk | lk |].
    intros j Hj1 Hj2. by rewrite !list_lookup_insert_ne by congruence.
  - by erewrite upd_ok by lk.
  - unfold skip, mret, M_ret. f_equal. unfold with_chunks. f_equal. cbn [chunks].
    rewrite list_insert_insert_ne, list_insert_insert_eq by congruence. done.
Qed.

Lemma idx_ne o1 o2 : 0 <= o1 -> (MINALLOC | o1) -> (MINALLOC | o2) -> o1 < o2 ->
  idx o1 <> idx o2.
Proof. intros H1 H2 H3 H4. pose proof (idx_mono MINALLOC min_pos o1 o2 H1 H2 H3 H4). lia. Qed.

Lemma idx_inj o1 o2 : 0 <= o1 -> 0 <= o2 -> (MINALLOC | o1) -> (MINALLOC | o2) ->
  idx o1 = idx o2 -> o1 = o2.
Proof.
  intros H1 H2 Hd1 Hd2 He. destruct (Z.lt_trichotomy o1 o2) as [H | [H | H]]; [| done |].
  - exfalso. by apply (idx_ne o1 o2).
  - exfalso. by apply (idx_ne o2 o1).
Qed.

Lemma seg_head_next cs c off s a bs :
  cs !! idx off = Some c -> seg cs (Some (idx off)) off ((s, a) :: bs) None ->
  next c = match bs with [] => None | _ => Some (idx (off + s)) end /\
  (bs <> [] -> exists cn, cs !! idx (off + s) = Some cn /\ offset cn = off + s).
Proof.
  intros Hc (_ & _ & _ & c' & Hc' & _ & _ & _ & Hs). rewrite Hc in Hc'. injection Hc' as <-.
  destruct bs as [| [s2 a2] bs]; [done |].
  destruct Hs as (-> & _ & _ & cn & Hcn & _ & Ho & _). naive_solver.
Qed.

(** Whether taking a block keeps every [prev] link exact: the block fits
    exactly, or it is the last one of the page. *)
Fixpoint keeps_prevs (size : Z) (bs : list block_t) : bool :=
  match bs with
  | [] => true
  | (s, a) :: bs' =>
      if a || (s <? size) then keeps_prevs size bs'
      else (s =? size) || match bs' with [] => true | _ => false end
  end.

Section take.
Variables (m : chunkman_t) (size off s : Z) (bs : list block_t).
Hypothesis Hlen : Z.of_nat (length (chunks m)) * MINALLOC = PAGESIZE.
Hypothesis Hoff : 0 <= off.
Hypothesis Hdiv : (MINALLOC | off).
Hypothesis Hfit : off + (s + total bs) <= PAGESIZE.
Hypothesis Hsize : 0 < size.
Hypothesis Hdsize : (MINALLOC | size).
Hypothesis Hle : size <= s.
Hypothesis Hseg : seg (chunks m) (Some (idx off)) off ((s, false) :: bs) None.

Definition taken : list block_t :=
  if s =? size then (size, true) :: bs else (size, true) :: (s - size, false) :: bs.

Lemma take_chunk_seg_exact : s = size ->
  exists cs', take_chunk MINALLOC size (idx off) m = Ret (Some (addr m + off)) (with_chunks cs' m) /\
    length cs' = length (chunks m) /\
    seg cs' (Some (idx off)) off ((size, true) :: bs) None /\
    (forall j, (j < idx off)%nat -> cs' !! j = chunks m !! j) /\
    (forall pp, prevs (chunks m) pp off ((s, false) :: bs) -> prevs cs' pp off ((s, true) :: bs)).
Proof.
  intros ->. pose proof Hseg as (_ & _ & Hds & c & Hc & Hsz & Ho & Ha & Hrest).
  destruct (seg_head_next _ _ _ _ _ _ Hc Hseg) as [Hn Hnn].
  destruct (take_exact m (idx off) c Hc) as (cs' & Hrun & Hl & Hi & Hother & Hnext).
  { intros n En. rewrite En in Hn. destruct bs as [| b bs']; [done |].
    injection Hn as ->. destruct Hnn as (cn & Hcn & _); [done |]. split; [| by eauto].
    apply not_eq_sym, idx_ne; try done; [by apply Z.divide_add_r | lia]. }
  rewrite Hsz, Ho in *. exists cs'.
  assert (forall o d, off + size <= o < off + size + total bs -> (MINALLOC | o) ->
            chunks m !! idx o = Some d -> exists d', cs' !! idx o = Some d' /\ same_links d d' /\
              (o <> off + size -> prev d = prev d')) as Hframe.
  { intros o d Ho' Hdo Hd. assert (idx o <> idx off) by (apply not_eq_sym, idx_ne; try done; lia).
    destruct (decide (o = off + size)) as [-> | Hneo].
    - destruct bs as [| b bs']; [simpl in Ho'; lia |]. destruct Hnn as (cn & Hcn & Hcno); [done |].
      rewrite Hd in Hcn. injection Hcn as <-. eexists. split; [by apply Hnext |].
      by split; [repeat split |].
    - exists d. split; [| by repeat split]. rewrite Hother; [done | done |].
      rewrite Hn. destruct bs; [done |]. intros [= He]. apply idx_inj in He; try lia; try done.
      by apply Z.divide_add_r. }
  split_and!; [done | done | | |].
  - split_and!; [done | done | done |]. exists (with_assigned true c).
    split_and!; [done | done | done | done |]. cbn [next with_assigned].
    eapply seg_frame; [lia | by apply Z.divide_add_r | | done].
    intros o d H1 H2 H3. destruct (Hframe o d H1 H2 H3) as (d' & ? & ? & _). eauto.
  - intros j Hj. apply Hother; [lia |]. rewrite Hn. destruct bs; [done |]. intros [= He].
    pose proof (idx_mono MINALLOC min_pos off (off + size) Hoff Hdiv
      (Z.divide_add_r _ _ _ Hdiv Hdsize) ltac:(lia)). lia.
  - intros pp [(c0 & Hc0 & Hp) Hps]. rewrite Hc in Hc0. injection Hc0 as <-. split.
    { by exists (with_assigned true c). }
    clear -Hps Hframe Hnext Hn Hnn Hrest Hoff Hdiv Hdsize Hsize min_pos.
    destruct bs as [| [s2 a2] bs']; [done |]. destruct Hnn as (cn & Hcn & _); [done |].
    destruct Hrest as (_ & Hs2 & Hd2 & c2 & Hc2 & _ & _ & _ & Hseg2). split.
    { eexists. split; [by apply Hnext |]. done. }
    destruct Hps as [_ Hps]. cbn [total] in Hframe.
    eapply prevs_frame; [lia | | by eapply seg_sizes | | done].
    { by apply Z.divide_add_r; [apply Z.divide_add_r |]. }
    intros o d H1 H2 H3. destruct (Hframe o d) as (d' & ? & _ & Hpd); [lia | done | done |].
    exists d'. split; [done |]. apply Hpd. lia.
Qed.

Lemma take_chunk_seg_split : s <> size ->
  exists cs', take_chunk MINALLOC size (idx off) m = Ret (Some (addr m + off)) (with_chunks cs' m) /\
    length cs' = length (chunks m) /\
    seg cs' (Some (idx off)) off ((size, true) :: (s - size, false) :: bs) None /\
    (forall j, (j < idx off)%nat -> cs' !! j = chunks m !! j) /\
    (forall pp, prevs (chunks m) pp off ((s, false) :: bs) -> bs = [] ->
       prevs cs' pp off ((size, true) :: (s - size, false) :: bs)).
Proof.
  intros Hne. pose proof Hseg as (_ & Hs & Hds & c & Hc & Hsz & Ho & Ha & Hrest).
  pose proof (seg_total_nonneg _ _ _ _ _ _ Hrest) as Ht.
  assert (MINALLOC | off + size) as Hdn by by apply Z.divide_add_r.
  assert (idx (off + size) <> idx off) as Hni by (apply not_eq_sym, idx_ne; try done; lia).
  destruct (lookup_lt_is_Some_2 (chunks m) (idx (off + size))) as [d Hd].
  { apply idx_bound; try done. lia. }
  assert (MINALLOC | s - size) as Hdr by by apply Z.divide_sub_r.
  destruct (take_split m off size c d) as (cs' & Hrun & Hl & Hi & Hn & Hother); try congruence.
  rewrite Hsz in *. exists cs'.
  assert (forall o e, off + s <= o < off + s + total bs -> (MINALLOC | o) ->
            chunks m !! idx o = Some e -> cs' !! idx o = Some e) as Hframe.
  { intros o e H1 H2 H3. rewrite Hother; [done | |]; apply not_eq_sym, idx_ne; try done; lia. }
  split_and!; [done | done | | |].
  - split_and!; [done | done | done |]. eexists. split_and!; [exact Hi | done | done | done |].
    cbn [next]. split_and!; [done | lia | done |]. eexists. split_and!; [exact Hn | done | done | done |].
    cbn [next]. replace (off + size + (s - size)) with (off + s) by lia.
    eapply seg_frame; [lia | by apply Z.divide_add_r | | done].
    intros o e H1 H2 H3. exists e. split; [by apply Hframe | by repeat split].
  - intros j Hj. apply Hother; [lia |].
    pose proof (idx_mono MINALLOC min_pos off (off + size) Hoff Hdiv Hdn ltac:(lia)). lia.
  - intros pp [(c0 & Hc0 & Hp) _] ->. rewrite Hc in Hc0. injection Hc0 as <-. simpl.
    split_and!; [eexists; split; [exact Hi | done] | eexists; split; [exact Hn | done] | done].
Qed.
End take.

Lemma alloc_loop_ok size bs : 0 < size -> (MINALLOC | size) ->
  forall fuel off m p,
  Z.of_nat (length (chunks m)) * MINALLOC = PAGESIZE -> 0 <= off -> (MINALLOC | off) ->
  off + total bs <= PAGESIZE -> (length bs <= fuel)%nat ->
  seg (chunks m) p off bs None ->
  match first_fit size off bs with
  | None => alloc_loop MINALLOC fuel size p m = Ret None m
  | Some (o, bs') =>
      exists cs', alloc_loop MINALLOC fuel size p m = Ret (Some (addr m + o)) (with_chunks cs' m) /\
        length cs' = length (chunks m) /\ seg cs' p off bs' None /\
        (forall j, (j < idx off)%nat -> cs' !! j = chunks m !! j) /\
        (forall pp, prevs (chunks m) pp off bs -> keeps_prevs size bs = true -> prevs cs' pp off bs')
  end.
Proof.
  intros Hsize Hdsize. induction bs as [| [s a] bs IH]; intros fuel off m p Hlen Hoff Hdiv Hfit Hf Hseg.
  { simpl in Hseg. subst p. by destruct fuel. }
  destruct fuel as [| fuel]; [simpl in Hf; lia |].
  pose proof Hseg as (-> & Hs & Hds & c & Hc & Hsz & Ho & Ha & Hrest).
  cbn [alloc_loop first_fit keeps_prevs total length] in *.
  rewrite (bind_ret _ _ _ _ _ (load_ok _ _ _ Hc)). rewrite Ha, Hsz, Z.gtb_ltb.
  destruct (a || (s <? size)) eqn:Hskip.
  - assert (forall k, (if a then k else if s <? size then k else take_chunk MINALLOC size (idx off)) m = k m)
      as -> by (intros k; destruct a; simpl in Hskip; [done | by rewrite Hskip]).
    specialize (IH fuel (off + s) m (next c) Hlen ltac:(lia) (Z.divide_add_r _ _ _ Hdiv Hds)
      ltac:(lia) ltac:(lia) Hrest).
    destruct (first_fit size (off + s) bs) as [[o bs'] |]; [| done].
    destruct IH as (cs' & Hrun & Hl & Hsg & Hlow & Hpv). exists cs'.
    pose proof (idx_mono MINALLOC min_pos off (off + s) Hoff Hdiv
      (Z.divide_add_r _ _ _ Hdiv Hds) ltac:(lia)) as Hlt.
    assert (cs' !! idx off = Some c) as Hc' by (by rewrite Hlow).
    split_and!; [done | done | | |].
    + split_and!; [done | done | done |]. exists c. done.
    + intros j Hj. apply Hlow. lia.
    + intros pp [(c0 & Hc0 & Hp) Hps] Hk. split; [| by apply Hpv].
      rewrite Hc in Hc0. injection Hc0 as <-. by exists c.
  - apply orb_false_iff in Hskip as [-> Hlt]. rewrite Hlt. apply Z.ltb_ge in Hlt.
    destruct (Z.eqb_spec s size) as [-> | Hne].
    + destruct (take_chunk_seg_exact m size off size bs) as (cs' & H1 & H2 & H3 & H4 & H5); try done.
      exists cs'. split_and!; eauto.
    + destruct (take_chunk_seg_split m size off s bs) as (cs' & H1 & H2 & H3 & H4 & H5); try done.
      exists cs'. split_and!; eauto. intros pp Hp Hk. apply H5; [done |].
      by destruct bs.
Qed.

(** Joining a block with its right neighbour. *)
Lemma absorb_ok m off s a s2 b suf :
  0 <= off -> (MINALLOC | off) ->
  seg (chunks m) (Some (idx off)) off ((s, a) :: (s2, b) :: suf) None ->
  exists cs', absorb (idx off) (idx (off + s)) m = Ret tt (with_chunks cs' m) /\
    length cs' = length (chunks m) /\
    seg cs' (Some (idx off)) off ((s + s2, a) :: suf) None /\
    (forall j, (j < idx off)%nat -> cs' !! j = chunks m !! j) /\
    (forall c, chunks m !! idx off = Some c -> exists c', cs' !! idx off = Some c' /\ prev c' = prev c) /\
    (forall pp, prevs (chunks m) pp off ((s, a) :: (s2, b) :: suf) ->
       prevs cs' pp off ((s + s2, a) :: suf)).
Proof.
  intros Hoff Hdiv (_ & Hs & Hds & c & Hc & Hsz & Ho & Ha & Hrest).
  pose proof Hrest as (Hnc & Hs2 & Hds2 & y & Hy & Hysz & Hyo & Hya & Hsuf).
  assert (MINALLOC | off + s) as Hd1 by by apply Z.divide_add_r.
  assert (MINALLOC | off + s + s2) as Hd2 by by apply Z.divide_add_r.
  assert (idx off < idx (off + s))%nat as Hlt1 by (apply idx_mono; try done; lia).
  assert (idx (off + s) < idx (off + s + s2))%nat as Hlt2 by (apply idx_mono; try done; lia).
  assert (exists cs1, (match next y with
      | Some n => upd n (with_prev (Some (idx off))) | None => skip end) m = Ret tt (with_chunks cs1 m) /\
      length cs1 = length (chunks m) /\
      (forall j, (j < idx (off + s + s2))%nat -> cs1 !! j = chunks m !! j) /\
      seg cs1 (next y) (off + s + s2) suf None /\
      (forall q, prevs (chunks m) q (off + s + s2) suf -> prevs cs1 (Some (idx off)) (off + s + s2) suf))
    as (cs1 & Hrun & Hl1 & Hlow & Hsuf1 & Hpv1).
  { destruct suf as [| [s3 b3] suf].
    - simpl in Hsuf. rewrite Hsuf. exists (chunks m). split_and!; try done. by destruct m.
    - pose proof Hsuf as (Hny & Hs3 & Hds3 & n & Hn & Hnsz & Hno & Hna & Hr3).
      rewrite Hny. eexists. split; [by eapply upd_ok |]. rewrite length_insert.
      split_and!; [done | | |].
      + intros j Hj. by rewrite list_lookup_insert_ne by lia.
      + rewrite <- Hny. eapply seg_frame; [lia | done | | exact Hsuf]. intros o e H1 H2 H3.
        destruct (decide (idx (off + s + s2) = idx o)) as [He | He].
        * rewrite <- He in *. rewrite Hn in H3. injection H3 as <-.
          rewrite list_lookup_insert_eq by (by eapply lookup_lt_Some). eexists. split; [done | by repeat split].
        * rewrite list_lookup_insert_ne by done. exists e. split; [done | by repeat split].
      + intros q [_ Hps]. cbn [prevs]. split.
        { rewrite list_lookup_insert_eq by (by eapply lookup_lt_Some). by eexists. }
        eapply prevs_frame; [lia | by apply Z.divide_add_r | by eapply seg_sizes | | done].
        intros o e H1 H2 H3. rewrite list_lookup_insert_ne by (apply idx_ne; try done; lia). by exists e. }
  assert (cs1 !! idx (off + s) = Some y) as Hy1 by (by rewrite Hlow).
  assert (cs1 !! idx off = Some c) as Hc1 by (rewrite Hlow; [done | lia]).
  unfold absorb. run_load. rewrite (bind_ret _ _ _ _ _ Hrun). cbv beta. run_load. run_upd.
  erewrite upd_ok by lk. eexists. split; [reflexivity |]. cbn [chunks with_chunks].
  rewrite !length_insert.
  set (c' := with_sz _ _).
  assert (forall cs, <[idx off := c']> (<[idx off := with_next (next y) c]> cs) = <[idx off := c']> cs) as ->
    by (intros; apply list_insert_insert_eq).
  assert (idx off < length cs1)%nat as Hi by (by eapply lookup_lt_Some).
  split_and!; [done | | | |].
  - split_and!; [done | lia | by apply Z.divide_add_r |]. exists c'.
    rewrite list_lookup_insert_eq by done. split_and!; [done | simpl; lia | done | done |].
    cbn [next with_sz with_next c']. rewrite Z.add_assoc.
    eapply seg_frame; [lia | done | | exact Hsuf1]. intros o e H1 H2 H3.
    rewrite list_lookup_insert_ne by (apply idx_ne; try done; lia). exists e. by split; [| repeat split].
  - intros j Hj. rewrite list_lookup_insert_ne by lia. apply Hlow. lia.
  - intros c0 Hc0. rewrite Hc in Hc0. injection Hc0 as <-. exists c'.
    by rewrite list_lookup_insert_eq by done.
  - intros pp [(c0 & Hc0 & Hp) [_ Hps]]. rewrite Hc in Hc0. injection Hc0 as <-. cbn [prevs].
    rewrite list_lookup_insert_eq by done. split; [by exists c' |]. rewrite Z.add_assoc.
    eapply prevs_frame; [lia | done | by eapply seg_sizes | | by eapply Hpv1].
    intros o e H1 H2 H3. rewrite list_lookup_insert_ne by (apply idx_ne; try done; lia). by exists e.
Qed.

Lemma length_total cs p off bs q :
  seg cs p off bs q -> Z.of_nat (length bs) * MINALLOC <= total bs.
Proof.
  revert p off. induction bs as [| [s a] bs IH]; intros p off; cbn [total length]; [lia |].
  intros (_ & Hs & [k ->] & c & _ & _ & _ & _ & H). apply IH in H.
  assert (1 <= k) by nia. assert (MINALLOC <= k * MINALLOC) by nia. lia.
Qed.

Lemma first_fit_total size off bs o bs' :
  first_fit size off bs = Some (o, bs') -> total bs' = total bs.
Proof.
  revert off bs'. induction bs as [| [s a] bs IH]; intros off bs'; simpl; [done |].
  destruct (a || (s <? size)).
  - destruct (first_fit size (off + s) bs) as [[o1 b1] |] eqn:E; [| done].
    intros [= -> <-]. simpl. apply IH in E. lia.
  - destruct (Z.eqb_spec s size); intros [= <- <-]; simpl; lia.
Qed.

(** [alloc] refines [first_fit] on every state that satisfies the page
    invariant, for every argument. *)
Lemma page_alloc_ok m bs size :
  page_inv MINALLOC m bs ->
  match (if negb (Z.rem size MINALLOC =? 0) || (size <? MINALLOC) then None
         else first_fit size 0 bs) with
  | None => page_alloc MINALLOC size m = Ret None m
  | Some (o, bs') =>
      exists m', page_alloc MINALLOC size m = Ret (Some (addr m + o)) m' /\
        addr m' = addr m /\ chunk_list m' = chunk_list m /\ page_inv MINALLOC m' bs' /\
        (prevs (chunks m) None 0 bs -> keeps_prevs size bs = true -> prevs (chunks m') None 0 bs')
  end.
Proof.
  intros [Hlen Hseg Ht]. unfold page_alloc.
  erewrite bind_ret by reflexivity. cbv beta.
  destruct (Z.eqb_spec (Z.rem size MINALLOC) 0) as [Hr |]; cbn [negb orb]; [| done].
  destruct (Z.ltb_spec size MINALLOC); [done |].
  apply Z.rem_divide in Hr; [| lia].
  pose proof (length_total _ _ _ _ _ Hseg) as Hlt.
  assert (length bs <= loop_fuel MINALLOC)%nat as Hfuel.
  { unfold loop_fuel, CHUNK_BUF_SIZE. rewrite Ht, <- Hlen in Hlt.
    rewrite <- Hlen, Z.div_mul by lia. apply Z.mul_le_mono_pos_r in Hlt; lia. }
  pose proof (alloc_loop_ok size bs ltac:(lia) Hr (loop_fuel MINALLOC) 0 m (chunk_list m) Hlen
    ltac:(lia) (Z.divide_0_r _) ltac:(lia) Hfuel Hseg) as Hloop.
  destruct (first_fit size 0 bs) as [[o bs'] |] eqn:Eff; [| done].
  destruct Hloop as (cs' & Hrun & Hl & Hsg & _ & Hpv). exists (with_chunks cs' m).
  split_and!; [done | done | done | | by apply Hpv].
  split; cbn [chunks chunk_list with_chunks]; [by rewrite Hl | done |].
  apply first_fit_total in Eff. lia.
Qed.

(** Flag change of one descriptor. *)
Lemma seg_set_assigned cs off s a suf c :
  0 <= off -> (MINALLOC | off) -> cs !! idx off = Some c ->
  seg cs (Some (idx off)) off ((s, a) :: suf) None ->
  seg (<[idx off := with_assigned false c]> cs) (Some (idx off)) off ((s, false) :: suf) None.
Proof.
  intros H0 Hd Hc (_ & Hs & Hds & c0 & Hc0 & Hsz & Ho & Ha & Hr).
  rewrite Hc in Hc0. injection Hc0 as <-.
  split_and!; [done | done | done |]. exists (with_assigned false c).
  rewrite list_lookup_insert_eq by (by eapply lookup_lt_Some).
  split_and!; [done | done | done | done |]. cbn [next with_assigned].
  eapply seg_frame; [lia | by apply Z.divide_add_r | | done]. intros o e H1 H2 H3.
  rewrite list_lookup_insert_ne by (apply idx_ne; try done; lia). exists e. by split; [| repeat split].
Qed.

Lemma prevs_set_assigned cs pp off bs i c f :
  cs !! i = Some c -> prev (f c) = prev c -> prevs cs pp off bs -> prevs (<[i := f c]> cs) pp off bs.
Proof.
  intros Hc Hf. revert pp off. induction bs as [| [s a] bs IH]; intros pp off; [done |].
  cbn [prevs]. intros [(d & Hd & Hp) Hr]. split; [| by apply IH].
  destruct (decide (i = idx off)) as [-> | Hne].
  - rewrite list_lookup_insert_eq by (by eapply lookup_lt_Some). exists (f c).
    split; [done |]. rewrite Hf. congruence.
  - rewrite list_lookup_insert_ne by done. by exists d.
Qed.

Lemma prevs_flags cs pp off s a b suf :
  prevs cs pp off ((s, a) :: suf) <-> prevs cs pp off ((s, b) :: suf).
Proof. done. Qed.

(** The first two phases of [dealloc]: join with a free right neighbour, then
    clear the flag. *)
Lemma dealloc_right_ok m off s a suf c :
  0 <= off -> (MINALLOC | off) -> chunks m !! idx off = Some c ->
  seg (chunks m) (Some (idx off)) off ((s, a) :: suf) None ->
  exists cs',
    ((match next c with
      | Some r => rc ← load r; if negb (assigned rc) then absorb (idx off) r else skip
      | None => skip
      end);; upd (idx off) (with_assigned false)) m = Ret tt (with_chunks cs' m) /\
    length cs' = length (chunks m) /\
    seg cs' (Some (idx off)) off (((merge_right s suf).1, false) :: (merge_right s suf).2) None /\
    (forall j, (j < idx off)%nat -> cs' !! j = chunks m !! j) /\
    (exists c', cs' !! idx off = Some c' /\ prev c' = prev c) /\
    (forall pp, prevs (chunks m) pp off ((s, a) :: suf) ->
       prevs cs' pp off (((merge_right s suf).1, false) :: (merge_right s suf).2)).
Proof.
  intros H0 Hd Hc Hseg.
  assert (exists m1 c1, (match next c with
      | Some r => rc ← load r; if negb (assigned rc) then absorb (idx off) r else skip
      | None => skip end) m = Ret tt m1 /\ m1 = with_chunks (chunks m1) m /\
      length (chunks m1) = length (chunks m) /\
      seg (chunks m1) (Some (idx off)) off (((merge_right s suf).1, a) :: (merge_right s suf).2) None /\
      (forall j, (j < idx off)%nat -> chunks m1 !! j = chunks m !! j) /\
      chunks m1 !! idx off = Some c1 /\ prev c1 = prev c /\
      (forall pp, prevs (chunks m) pp off ((s, a) :: suf) ->
       prevs (chunks m1) pp off (((merge_right s suf).1, a) :: (merge_right s suf).2)))
    as (m1 & c1 & Hrun & Hm1 & Hl & Hsg & Hlow & Hc1 & Hp1 & Hpv).
  { destruct (seg_head_next _ _ _ _ _ _ Hc Hseg) as [Hn _]. destruct suf as [| [s2 b] suf].
    { rewrite Hn. exists m, c. by destruct m. }
    rewrite Hn. pose proof Hseg as (_ & _ & _ & c0 & _ & _ & _ & _ & Hr).
    destruct Hr as (_ & _ & _ & r & Hr & _ & _ & Hra & _).
    rewrite (bind_ret _ _ _ _ _ (load_ok _ _ _ Hr)), Hra. destruct b; cbn [negb].
    { exists m, c. by destruct m. }
    destruct (absorb_ok m off s a s2 false suf H0 Hd Hseg) as (cs' & Hrun & Hl & Hsg & Hlow & Hpc & Hpv).
    destruct (Hpc c Hc) as (c' & Hc' & Hp'). exists (with_chunks cs' m), c'. done. }
  exists (<[idx off := with_assigned false c1]> (chunks m1)).
  rewrite (bind_ret _ _ _ _ _ Hrun). erewrite upd_ok by done. rewrite length_insert.
  split_and!.
  - f_equal. rewrite Hm1. done.
  - done.
  - by eapply seg_set_assigned.
  - intros j Hj. rewrite list_lookup_insert_ne by lia. by apply Hlow.
  - eexists. rewrite list_lookup_insert_eq by (by eapply lookup_lt_Some). done.
  - intros pp Hp. apply prevs_set_assigned; [done | done |]. by apply Hpv.
Qed.

Lemma total_app b1 b2 : total (b1 ++ b2) = total b1 + total b2.
Proof. induction b1 as [| [s a] b1 IH]; simpl; lia. Qed.

Lemma total_merge_right s suf : (merge_right s suf).1 + total (merge_right s suf).2 = s + total suf.
Proof. destruct suf as [| [s2 []] suf]; simpl; lia. Qed.

Lemma total_free_block pre s a suf : total (free_block pre s suf) = total (pre ++ (s, a) :: suf).
Proof.
  unfold free_block. pose proof (total_merge_right s suf) as H.
  destruct (merge_right s suf) as [s' suf']. simpl in H. unfold merge_left.
  destruct pre as [| [s0 b0] pre _] using rev_ind; [simpl; lia |].
  rewrite last_snoc, removelast_last. destruct b0; rewrite !total_app; simpl; lia.
Qed.

(** A segment is kept by changes at its right. *)
Lemma seg_keep_left cs cs' p off bs q :
  0 <= off -> (MINALLOC | off) -> (MINALLOC | off + total bs) ->
  (forall j, (j < idx (off + total bs))%nat -> cs' !! j = cs !! j) ->
  seg cs p off bs q -> seg cs' p off bs q.
Proof.
  intros H0 Hd Hde Hlow Hseg. eapply seg_frame; [done | done | | done]. intros o e H1 H2 H3.
  exists e. rewrite Hlow by (apply idx_mono; try done; lia). by split; [| repeat split].
Qed.

Lemma prevs_keep_left cs cs' pp off bs :
  0 <= off -> (MINALLOC | off) -> (MINALLOC | off + total bs) ->
  Forall (fun b => 0 < b.1 /\ (MINALLOC | b.1)) bs ->
  (forall j, (j < idx (off + total bs))%nat -> cs' !! j = cs !! j) ->
  prevs cs pp off bs -> prevs cs' pp off bs.
Proof.
  intros H0 Hd Hde HF Hlow Hp. eapply prevs_frame; [done | done | done | | done].
  intros o e H1 H2 H3. exists e. by rewrite Hlow by (apply idx_mono; try done; lia).
Qed.

(** The predecessor's descriptor of the block that follows [pre]. *)
Definition pred_of (pre : list block_t) : option nat :=
  match list.last pre with Some (s0, _) => Some (idx (total pre - s0)) | None => None end.

Lemma dealloc_left_ok m p pre s suf :
  Z.of_nat (length (chunks m)) * MINALLOC = PAGESIZE ->
  seg (chunks m) p 0 (pre ++ (s, false) :: suf) None ->
  exists cs',
    (match pred_of pre with
     | None => skip
     | Some l => lc ← load l; if assigned lc then skip else absorb l (idx (total pre))
     end) m = Ret tt (with_chunks cs' m) /\
    length cs' = length (chunks m) /\
    seg cs' p 0 (merge_left pre s suf) None /\
    (prevs (chunks m) None 0 (pre ++ (s, false) :: suf) -> prevs cs' None 0 (merge_left pre s suf)).
Proof.
  intros Hlen Hseg. unfold pred_of, merge_left.
  destruct pre as [| [s0 b0] pre _] using rev_ind.
  { simpl. exists (chunks m). by destruct m. }
  rewrite last_snoc, removelast_last. rewrite <- app_assoc in *. cbn [app] in *.
  pose proof Hseg as Hseg'. apply seg_app in Hseg' as (r & Hpre & Hx). simpl in Hpre, Hx.
  pose proof (seg_total_nonneg _ _ _ _ _ _ Hpre) as Htp.
  pose proof (seg_total_div _ _ _ _ _ _ Hpre) as Hdp.
  pose proof Hx as (-> & Hs0 & Hds0 & l & Hl & _ & _ & Hla & _).
  rewrite total_app. cbn [total]. replace (total pre + (s0 + 0) - s0) with (total pre) by lia.
  rewrite (bind_ret _ _ _ _ _ (load_ok _ _ _ Hl)), Hla. destruct b0.
  { exists (chunks m). by destruct m. }
  destruct (absorb_ok m (total pre) s0 false s false suf Htp Hdp Hx)
    as (cs' & Hrun & Hle & Hsg & Hlow & _ & Hpv).
  replace (total pre + (s0 + 0)) with (total pre + s0) by lia. exists cs'.
  split_and!; [done | done | |].
  - apply seg_app. eexists. split; [| exact Hsg]. eapply seg_keep_left; [| | | | exact Hpre]; try done; try lia.
    apply Z.divide_0_r.
  - rewrite !prevs_app. intros [H1 H2]. split; [| by apply Hpv].
    eapply prevs_keep_left; [| | | | | exact H1]; try done; try lia; [apply Z.divide_0_r | by eapply seg_sizes].
Qed.

(** [dealloc] of the block after [pre], when its [prev] field is its true
    predecessor, frees and coalesces it. *)
Lemma page_dealloc_ok m pre s a suf :
  page_inv MINALLOC m (pre ++ (s, a) :: suf) ->
  (forall c, chunks m !! idx (total pre) = Some c -> prev c = pred_of pre) ->
  exists m', page_dealloc MINALLOC (addr m + total pre) m = Ret tt m' /\
    addr m' = addr m /\ chunk_list m' = chunk_list m /\
    page_inv MINALLOC m' (free_block pre s suf) /\
    (prevs (chunks m) None 0 (pre ++ (s, a) :: suf) -> prevs (chunks m') None 0 (free_block pre s suf)).
Proof.
  intros [Hlen Hseg Ht] Hprev. pose proof Hseg as Hseg'. apply seg_app in Hseg' as (r & Hpre & Hx).
  pose proof (seg_total_nonneg _ _ _ _ _ _ Hpre) as Htp.
  pose proof (seg_total_div _ _ _ _ _ _ Hpre) as Hdp. cbn [Z.add] in Hx.
  pose proof Hx as (-> & Hs & _ & c & Hc & _ & _ & _ & Hr).
  pose proof (seg_total_nonneg _ _ _ _ _ _ Hr) as Htr.
  rewrite total_app in Ht. cbn [total] in Ht.
  unfold page_dealloc. erewrite bind_ret by reflexivity. cbv beta zeta.
  replace (addr m + total pre - addr m) with (total pre) by lia.
  rewrite u64_small by (unfold PAGESIZE in *; lia).
  erewrite bind_ret; [| unfold assertb, CHUNK_BUF_SIZE; rewrite (proj2 (Z.ltb_lt _ _)); [reflexivity |]].
  2: { rewrite <- Hlen, Z.div_mul by lia. apply Z.div_lt_upper_bound; lia. }
  cbv beta. fold (idx (total pre)). rewrite (bind_ret _ _ _ _ _ (load_ok _ _ _ Hc)).
  destruct (dealloc_right_ok m (total pre) s a suf c Htp Hdp Hc Hx)
    as (cs1 & Hrun1 & Hl1 & Hsg1 & Hlow1 & _ & Hpv1).
  rewrite (bind_seq _ _ _ _ _ _ Hrun1). cbv beta. rewrite (Hprev c Hc).
  set (s' := (merge_right s suf).1) in *. set (suf' := (merge_right s suf).2) in *.
  assert (seg cs1 (chunk_list m) 0 (pre ++ (s', false) :: suf') None) as Hsg1'.
  { apply seg_app. eexists. split; [| exact Hsg1].
    eapply seg_keep_left; [| | | | exact Hpre]; try done. apply Z.divide_0_r. }
  destruct (dealloc_left_ok (with_chunks cs1 m) (chunk_list m) pre s' suf') as (cs2 & Hrun2 & Hl2 & Hsg2 & Hpv2);
    [by rewrite <- Hlen, <- Hl1 | done |].
  exists (with_chunks cs2 m). assert (free_block pre s suf = merge_left pre s' suf') as Hfb.
  { unfold free_block, s', suf'. by destruct (merge_right s suf). }
  split_and!; [done | done | done | |].
  - split; cbn [chunks chunk_list with_chunks]; [by rewrite Hl2; simpl; rewrite Hl1 | by rewrite Hfb |].
    rewrite (total_free_block pre s a suf), total_app. cbn [total]. lia.
  - rewrite Hfb. intros Hp. apply Hpv2. rewrite prevs_app in Hp |- *. destruct Hp as [H1 H2].
    split; [| by apply Hpv1].
    eapply prevs_keep_left; [| | | | | exact H1]; try done; [apply Z.divide_0_r | by eapply seg_sizes].
Qed.
End alloc_proofs.

(** ** Consequences for the client: live allocations *)
Section live_facts.
Variable MINALLOC : Z.
Hypothesis min_pos : 0 < MINALLOC.

Lemma live_app off b1 b2 : live off (b1 ++ b2) = live off b1 ++ live (off + total b1) b2.
Proof.
  revert off. induction b1 as [| [s a] b1 IH]; intros off; simpl; [by rewrite Z.add_0_r |].
  by rewrite IH, <- app_assoc, Z.add_assoc.
Qed.

Lemma live_bounds off bs : Forall (fun b => 0 < b.1 /\ (MINALLOC | b.1)) bs ->
  Forall (fun r => off <= r.1 /\ 0 < r.2 /\ r.1 + r.2 <= off + total bs) (live off bs).
Proof.
  intros HF. revert off. induction HF as [| [s a] bs [Hs _] HF IH]; intros off; [constructor |].
  cbn [live total]. simpl in Hs. assert (0 <= total bs) as Ht.
  { clear -HF. induction HF as [| [s' a'] bs [Hs _]]; simpl in *; lia. }
  apply Forall_app. split.
  - destruct a; constructor; [simpl; lia | constructor].
  - eapply Forall_impl; [apply (IH (off + s)) |]. simpl. intros [o n]; simpl. lia.
Qed.

(** The live allocations are pairwise disjoint, in address order. *)
Lemma live_sorted off bs : Forall (fun b => 0 < b.1 /\ (MINALLOC | b.1)) bs ->
  StronglySorted (fun x y => x.1 + x.2 <= y.1) (live off bs).
Proof.
  intros HF. revert off. induction HF as [| [s a] bs Hs HF IH]; intros off; [constructor |].
  cbn [live]. destruct a; cbn [app]; [| apply IH]. constructor; [apply IH |].
  eapply Forall_impl; [by apply (live_bounds (off + s)) |]. simpl. intros [o n]; simpl. lia.
Qed.

Lemma first_fit_live size off bs o bs' :
  first_fit size off bs = Some (o, bs') -> live off bs' ≡ₚ (o, size) :: live off bs.
Proof.
  revert off bs'. induction bs as [| [s a] bs IH]; intros off bs'; simpl; [done |].
  destruct (a || (s <? size)) eqn:E.
  - destruct (first_fit size (off + s) bs) as [[o1 b1] |] eqn:E1; [| done].
    intros [= -> <-]. simpl. rewrite (IH _ _ E1). by rewrite Permutation_middle.
  - apply orb_false_iff in E as [-> _].
    destruct (Z.eqb_spec s size) as [-> |]; intros [= <- <-]; simpl; [done |].
    by replace (off + size + (s - size)) with (off + s) by lia.
Qed.

Lemma free_block_live pre s suf :
  (total pre, s) :: live 0 (free_block pre s suf) ≡ₚ live 0 (pre ++ (s, true) :: suf).
Proof.
  assert (forall off, live (off + (merge_right s suf).1) (merge_right s suf).2 = live (off + s) suf) as Hr.
  { intros off. destruct suf as [| [s2 []] suf]; simpl; try done. by rewrite Z.add_assoc. }
  unfold free_block. destruct (merge_right s suf) as [s' suf']. simpl in Hr.
  rewrite live_app. simpl. rewrite <- Hr, <- Permutation_middle. unfold merge_left.
  destruct pre as [| [s0 b0] pre _] using rev_ind; [done |].
  rewrite last_snoc, removelast_last. destruct b0; rewrite !live_app, ?total_app; simpl; [done |].
  rewrite app_nil_r, !Z.add_0_l, !Z.add_0_r. by rewrite Z.add_assoc.
Qed.

(** The blocks of a page read off its descriptors. *)
Fixpoint walk (fuel : nat) (cs : list chunk_t) (p : option nat) : list block_t :=
  match fuel, p with
  | S f, Some i =>
      match cs !! i with
      | Some c => (sz c, assigned c) :: walk f cs (next c)
      | None => []
      end
  | _, _ => []
  end.
Definition page_blocks (m : chunkman_t) : list block_t :=
  walk (length (chunks m)) (chunks m) (chunk_list m).

Lemma walk_seg fuel cs p off bs :
  (length bs <= fuel)%nat -> seg MINALLOC cs p off bs None -> walk fuel cs p = bs.
Proof.
  revert fuel p off. induction bs as [| [s a] bs IH]; intros fuel p off Hf.
  - simpl. intros ->. by destruct fuel.
  - intros (-> & _ & _ & c & Hc & <- & _ & <- & Hr). destruct fuel as [| fuel]; simpl in Hf; [lia |].
    simpl. rewrite Hc. f_equal. eapply IH; [lia | done].
Qed.

Lemma page_blocks_inv m bs : page_inv MINALLOC m bs -> page_blocks m = bs.
Proof.
  intros [Hl Hs Ht]. eapply walk_seg; [| done].
  pose proof (length_total MINALLOC min_pos _ _ _ _ _ Hs) as H. rewrite Ht, <- Hl in H.
  apply Z.mul_le_mono_pos_r in H; lia.
Qed.

(** A page just initialised is one free block. *)
Lemma init_page_ok m r :
  Z.of_nat (length (chunks m)) * MINALLOC = PAGESIZE -> (MINALLOC | PAGESIZE) -> r <> MAP_FAILED ->
  exists m', init_page MINALLOC r m = Ret 0 m' /\ addr m' = r /\
    page_inv MINALLOC m' [(PAGESIZE, false)] /\
    prevs MINALLOC (chunks m') None 0 [(PAGESIZE, false)].
Proof.
  intros Hl Hd Hr. unfold init_page. erewrite bind_ret by reflexivity. cbv beta.
  rewrite (proj2 (Z.eqb_neq _ _) Hr).
  destruct (lookup_lt_is_Some_2 (chunks m) (idx MINALLOC 0)) as [d Hdd].
  { apply idx_bound; [done | done | unfold PAGESIZE; lia | apply Z.divide_0_r]. }
  erewrite bind_ret by (by eapply chunk_new_ok). cbv beta. run_upd.
  erewrite bind_ret by reflexivity. eexists. split; [reflexivity |].
  cbn [addr chunks chunk_list with_chunks].
  set (cs := <[_ := _]> _). assert (cs !! idx MINALLOC 0 = Some (mk_chunk None None PAGESIZE 0 false)) as Hcs.
  { unfold cs. lk. }
  split_and!; [done | split; cbn [addr chunks chunk_list] |].
  - unfold cs. by rewrite !length_insert.
  - cbn [seg]. split_and!; [done | unfold PAGESIZE; lia | done |]. by eexists.
  - simpl. lia.
  - cbn [prevs]. split; [by eexists | done].
Qed.
End live_facts.
