(* ===== verification/Alloc.v ===== *)
(** * Alloc: project5/alloc.c, the page allocator with 8-byte granularity

    One page, described by the static [mman].  The operations are those of
    Chunk.v at [MINALLOC] = 8; this file states what they guarantee to a
    client, and where the code breaks that guarantee. *)

From Stdlib Require Import ZArith Lia Sorted.
From stdpp Require Import base numbers strings option list.
From S2P Require Import Prelude Chunk.

Definition MINALLOC : Z := 8.

(** [static mman_t mman], zero-initialised. *)
Definition mman_t : Type := chunkman_t.
Definition mman_zero : mman_t :=
  mk_chunkman 0 None (replicate (Z.to_nat (CHUNK_BUF_SIZE MINALLOC)) chunk_zero).

Definition init_alloc (mmap_ret : Z) : M mman_t Z := init_page MINALLOC mmap_ret.
Definition cleanup (munmap_ret : Z) : M mman_t Z := mret munmap_ret.
Definition alloc (size : Z) : M mman_t (option Z) := page_alloc MINALLOC size.
Definition dealloc (ptr : Z) : M mman_t unit := page_dealloc MINALLOC ptr.

Definition alloc_inv (m : mman_t) (bs : list block_t) : Prop := page_inv MINALLOC m bs.

Lemma min_pos : 0 < MINALLOC.
Proof. done. Qed.

(** The states a client reaches by initialising the allocator, allocating, and
    freeing live pointers, when no allocation splits a chunk that has a right
    neighbour. *)
Inductive reach : mman_t -> Prop :=
| reach_init m r m' :
    length (chunks m) = 512%nat -> r <> MAP_FAILED -> init_alloc r m = Ret 0 m' -> reach m'
| reach_alloc m size r m' :
    reach m -> keeps_prevs size (page_blocks m) = true -> alloc size m = Ret r m' -> reach m'
| reach_dealloc m o n m' :
    reach m -> (o, n) ∈ live 0 (page_blocks m) -> dealloc (addr m + o) m = Ret tt m' -> reach m'.

Lemma live_split off bs o n :
  (o, n) ∈ live off bs -> exists pre suf, bs = pre ++ (n, true) :: suf /\ o = off + total pre.
Proof.
  revert off. induction bs as [| [s a] bs IH]; intros off; simpl.
  { intros H. by apply elem_of_nil in H. }
  intros [Hh | Ht]%elem_of_app.
  - destruct a; [| by apply elem_of_nil in Hh]. apply list_elem_of_singleton in Hh as [= -> ->].
    exists [], bs. simpl. split; [done | lia].
  - destruct (IH _ Ht) as (pre & suf & -> & ->). exists ((s, a) :: pre), suf. simpl.
    split; [done | lia].
Qed.

Lemma prevs_head MIN cs pp off pre s a suf c :
  prevs MIN cs pp off (pre ++ (s, a) :: suf) -> cs !! idx MIN (off + total pre) = Some c ->
  prev c = match list.last pre with Some (s0, _) => Some (idx MIN (off + total pre - s0)) | None => pp end.
Proof. rewrite prevs_app. intros [_ [(c' & Hc' & Hp) _]] Hc. congruence. Qed.

Lemma dealloc_live m o n :
  alloc_inv m (page_blocks m) -> prevs MINALLOC (chunks m) None 0 (page_blocks m) ->
  (o, n) ∈ live 0 (page_blocks m) ->
  exists m', dealloc (addr m + o) m = Ret tt m' /\ addr m' = addr m /\
    alloc_inv m' (page_blocks m') /\ prevs MINALLOC (chunks m') None 0 (page_blocks m') /\
    live 0 (page_blocks m) ≡ₚ (o, n) :: live 0 (page_blocks m').
Proof.
  intros Hinv Hpv Hl. destruct (live_split _ _ _ _ Hl) as (pre & suf & Hbs & ->).
  rewrite Hbs in *. cbn [Z.add].
  destruct (page_dealloc_ok MINALLOC min_pos m pre n true suf Hinv) as (m' & Hrun & Ha & _ & Hi & Hp).
  { intros c Hc. apply (prevs_head _ _ _ 0 _ _ _ _ _ Hpv Hc). }
  exists m'. rewrite (page_blocks_inv MINALLOC min_pos _ _ Hi).
  split_and!; [done | done | done | by apply Hp | symmetry; apply free_block_live].
Qed.

(** [reach] states satisfy the page invariant with exact back links. *)
Lemma reach_ok m : reach m ->
  alloc_inv m (page_blocks m) /\ prevs MINALLOC (chunks m) None 0 (page_blocks m).
Proof.
  induction 1 as [m r m' Hl Hr Hrun | m size r m' _ [Hi Hp] Hk Hrun | m o n m' _ [Hi Hp] Hin Hrun].
  - destruct (init_page_ok MINALLOC min_pos m r) as (m1 & Hrun1 & _ & Hi & Hp); [by rewrite Hl | by exists 512 | done |].
    unfold init_alloc in Hrun. rewrite Hrun1 in Hrun. injection Hrun as <-.
    by rewrite (page_blocks_inv MINALLOC min_pos _ _ Hi).
  - pose proof (page_alloc_ok MINALLOC min_pos m _ size Hi) as Ha. unfold alloc in Hrun.
    match type of Ha with match ?x with _ => _ end => destruct x as [[o bs'] |] end.
    + destruct Ha as (m1 & Hrun1 & _ & _ & Hi1 & Hp1). rewrite Hrun1 in Hrun. injection Hrun as _ <-.
      rewrite (page_blocks_inv MINALLOC min_pos _ _ Hi1). by split; [| apply Hp1].
    + rewrite Ha in Hrun. by injection Hrun as _ <-.
  - destruct (dealloc_live m o n Hi Hp Hin) as (m1 & Hrun1 & _ & Hi1 & Hp1 & _).
    rewrite Hrun1 in Hrun. by injection Hrun as <-.
Qed.

(** C20. For every argument and every state that satisfies the page invariant,
    [alloc] returns: a size that is not a positive multiple of [MINALLOC]
    gives [NULL]; otherwise it takes the first free chunk that is large enough,
    returns its address, splits off the remainder, and keeps the invariant, or
    returns [NULL] with the state unchanged when no chunk fits. *)
Theorem alloc_refines_first_fit (m : mman_t) (bs : list block_t) (size : Z)
    (Hinv : alloc_inv m bs) :
  match (if negb (Z.rem size MINALLOC =? 0) || (size <? MINALLOC) then None
         else first_fit size 0 bs) with
  | None => alloc size m = Ret None m
  | Some (o, bs') =>
      exists m', alloc size m = Ret (Some (addr m + o)) m' /\
        addr m' = addr m /\ alloc_inv m' bs'
  end.
Proof.
  pose proof (page_alloc_ok MINALLOC min_pos m bs size Hinv) as H.
  destruct (if negb _ || _ then None else first_fit size 0 bs) as [[o bs'] |]; [| done].
  destruct H as (m' & ? & ? & _ & ? & _). by exists m'.
Qed.

(** The state an operation leaves. *)
Definition state_of {A : Type} (o : outcome mman_t A) : mman_t :=
  match o with Ret _ m => m | _ => mman_zero end.

(** A page with two live chunks and a free tail. *)
Definition demo0 : mman_t := Eval vm_compute in state_of (init_alloc 65536 mman_zero).
Definition demo1 : mman_t := Eval vm_compute in state_of (alloc 8 demo0).
Definition demo_page : mman_t := Eval vm_compute in state_of (alloc 24 demo1).

Lemma demo_reach : reach demo_page.
Proof.
  assert (reach demo0) as H0 by (by apply (reach_init mman_zero 65536)).
  assert (reach demo1) as H1 by (by apply (reach_alloc demo0 8 (Some 65536))).
  by apply (reach_alloc demo1 24 (Some 65544)).
Qed.

Lemma demo_inv : alloc_inv demo_page [(8, true); (24, true); (4064, false)].
Proof.
  pose proof (proj1 (reach_ok _ demo_reach)) as H. vm_compute page_blocks in H. exact H.
Qed.

Lemma alloc_refines_first_fit_witness :
  exists m', alloc 16 demo_page = Ret (Some 65568) m' /\ addr m' = 65536 /\
    alloc_inv m' [(8, true); (24, true); (16, true); (4048, false)].
Proof. exact (alloc_refines_first_fit demo_page _ 16 demo_inv). Defined.

(** In every state a client reaches without splitting a chunk that has a
    right neighbour, freeing a live pointer returns, the pointer's range is
    the only one that leaves the live set, the freed chunk is joined with its
    free neighbours, and the invariant with exact back links holds again. *)
Theorem dealloc_frees_exactly_one (m : mman_t) (o n : Z)
    (Hreach : reach m) (Hlive : (o, n) ∈ live 0 (page_blocks m)) :
  exists m', dealloc (addr m + o) m = Ret tt m' /\ reach m' /\
    live 0 (page_blocks m) ≡ₚ (o, n) :: live 0 (page_blocks m') /\
    (exists pre suf, page_blocks m = pre ++ (n, true) :: suf /\ total pre = o /\
       page_blocks m' = free_block pre n suf).
Proof.
  destruct (reach_ok m Hreach) as [Hi Hp].
  destruct (dealloc_live m o n Hi Hp Hlive) as (m' & Hrun & _ & _ & _ & Hl).
  exists m'. split_and!; [done | by eapply reach_dealloc | done |].
  destruct (live_split _ _ _ _ Hlive) as (pre & suf & Hbs & ->). exists pre, suf.
  split_and!; [done | done |]. rewrite Hbs in *.
  destruct (page_dealloc_ok MINALLOC min_pos m pre n true suf Hi) as (m1 & Hrun1 & _ & _ & Hi1 & _).
  { intros c Hc. apply (prevs_head _ _ _ 0 _ _ _ _ _ Hp Hc). }
  unfold dealloc in Hrun. rewrite Z.add_0_l, Hrun1 in Hrun. injection Hrun as <-.
  by apply page_blocks_inv with MINALLOC.
Qed.

Lemma dealloc_frees_exactly_one_witness :
  exists m', dealloc 65536 demo_page = Ret tt m' /\ reach m' /\
    live 0 (page_blocks demo_page) ≡ₚ (0, 8) :: live 0 (page_blocks m') /\
    (exists pre suf, page_blocks demo_page = pre ++ (8, true) :: suf /\ total pre = 0 /\
       page_blocks m' = free_block pre 8 suf).
Proof.
  apply (dealloc_frees_exactly_one demo_page 0 8 demo_reach).
  vm_compute. apply list_elem_of_here.
Defined.

(** Memory safety of [alloc]: under the page invariant alone (whatever the
    back links), a successful call returns a chunk of exactly the requested
    size inside the page, every earlier live chunk stays live, and all live
    chunks, the new one included, are pairwise disjoint. *)
Theorem alloc_disjoint (m m' : mman_t) (bs : list block_t) (size a : Z)
    (Hinv : alloc_inv m bs) (Hrun : alloc size m = Ret (Some a) m') :
  let o := a - addr m in
  0 <= o /\ o + size <= PAGESIZE /\
  live 0 (page_blocks m') ≡ₚ (o, size) :: live 0 bs /\
  StronglySorted (fun x y => x.1 + x.2 <= y.1) (live 0 (page_blocks m')).
Proof.
  pose proof (page_alloc_ok MINALLOC min_pos m bs size Hinv) as H.
  destruct (negb _ || _); [unfold alloc in Hrun; congruence |].
  destruct (first_fit size 0 bs) as [[o bs'] |] eqn:Eff; [| unfold alloc in Hrun; congruence].
  destruct H as (m1 & Hrun1 & _ & _ & Hi & _). unfold alloc in Hrun. rewrite Hrun1 in Hrun.
  injection Hrun as <- <-. replace (addr m + o - addr m) with o by lia.
  rewrite (page_blocks_inv MINALLOC min_pos _ _ Hi). cbv zeta.
  pose proof (seg_sizes _ _ _ _ _ _ (inv_seg _ _ _ Hi)) as HF.
  pose proof (first_fit_live _ _ _ _ _ Eff) as Hl.
  pose proof (live_bounds MINALLOC 0 bs' HF) as Hb. rewrite Forall_forall in Hb.
  destruct (Hb (o, size)) as (H1 & H2 & H3); [rewrite Hl; apply list_elem_of_here |].
  rewrite (inv_total _ _ _ Hi) in H3. simpl in *.
  split_and!; [lia | lia | done | by eapply live_sorted].
Qed.

Definition demo2 : mman_t := Eval vm_compute in state_of (alloc 16 demo_page).

Lemma alloc_disjoint_witness :
  let o := 65568 - addr demo_page in
  0 <= o /\ o + 16 <= PAGESIZE /\
  live 0 (page_blocks demo2) ≡ₚ (o, 16) :: live 0 [(8, true); (24, true); (4064, false)] /\
  StronglySorted (fun x y => x.1 + x.2 <= y.1) (live 0 (page_blocks demo2)).
Proof. by apply (alloc_disjoint demo_page demo2 _ 16 65568 demo_inv). Defined.

(** The client sequence of the next theorem. *)
Definition overlap_run : M mman_t (option Z * option Z) :=
  init_alloc 65536;;
  a ← alloc 8;
  x ← alloc 24;
  b ← alloc 8;
  dealloc (default 0 x);;
  x' ← alloc 8;
  n ← alloc 8;
  dealloc (default 0 x');;
  dealloc (default 0 b);;
  y ← alloc 16;
  mret (n, y).

(** Splitting a chunk leaves the right neighbour's [prev] stale (it should
    become the new remainder), and [dealloc] then merges across live chunks:
    in this client run of valid calls only, the chunk [n] of 8 bytes at 65552
    is never freed, and the last [alloc] returns 16 bytes at 65544, which
    overlap it. *)
Theorem stale_prev_overlap :
  exists m', overlap_run mman_zero = Ret (Some 65552, Some 65544) m'.
Proof. eexists. vm_compute. reflexivity. Qed.
