(* ===== verification/Ealloc.v ===== *)
(** * Ealloc: project5/ealloc.c, the expanding allocator

    Up to sixteen pages of 4096 bytes with 256-byte granularity.  [mman] holds
    an array of page managers and the number in use; [alloc] tries the pages
    in order and maps a new one when none fits.  The code of one page is
    Chunk.v at [MINALLOC] = 256. *)

From Stdlib Require Import ZArith Lia Sorted.
From stdpp Require Import base numbers strings option list.
From S2P Require Import Prelude Chunk.

Definition MINALLOC : Z := 256.
Definition NCMANS : Z := 16.

Record mman_t := mk_mman { cmans : list chunkman_t; msz : Z }.

Definition cman_zero : chunkman_t :=
  mk_chunkman 0 None (replicate (Z.to_nat (CHUNK_BUF_SIZE MINALLOC)) chunk_zero).
Definition mman_zero : mman_t := mk_mman (replicate (Z.to_nat NCMANS) cman_zero) 0.

(** Run page code on [mman.cmans[cmi]]. *)
Definition in_cman {A : Type} (cmi : Z) (op : M chunkman_t A) : M mman_t A := fun s =>
  if (0 <=? cmi) && (cmi <? NCMANS) then
    match cmans s !! Z.to_nat cmi with
    | Some c =>
        match op c with
        | Ret a c' => Ret a (mk_mman (<[Z.to_nat cmi := c']> (cmans s)) (msz s))
        | Stop msg => Stop msg
        | Block ch c' => Block ch (mk_mman (<[Z.to_nat cmi := c']> (cmans s)) (msz s))
        | OutOfFuel => OutOfFuel
        end
    | None => Stop "cmans out of bounds"
    end
  else Stop "cmans out of bounds".

Definition small_init_alloc (mmap_ret cmi : Z) : M mman_t unit :=
  in_cman cmi (init_page MINALLOC mmap_ret);; skip.
Definition init_alloc : M mman_t unit := modify (fun s => mk_mman (cmans s) 0).
Definition cleanup : M mman_t unit := modify (fun s => mk_mman (cmans s) 0).
Definition small_alloc (cmi size : Z) : M mman_t (option Z) := in_cman cmi (page_alloc MINALLOC size).
Definition small_dealloc (cmi ptr : Z) : M mman_t unit := in_cman cmi (page_dealloc MINALLOC ptr).

(** [for (cmi = 0; cmi < mman.sz; cmi++)]; [n] counts the iterations left. *)
Fixpoint alloc_try (n : nat) (cmi size : Z) : M mman_t (option Z) :=
  match n with
  | O => mret None
  | S n' =>
      res ← small_alloc cmi size;
      match res with
      | Some p => mret (Some p)
      | None => alloc_try n' (cmi + 1) size
      end
  end.

(** [mmap_ret] is what [mmap] returns if it is called. *)
Definition alloc (mmap_ret size : Z) : M mman_t (option Z) :=
  n ← gets msz;
  res ← alloc_try (Z.to_nat n) 0 size;
  match res with
  | Some p => mret (Some p)
  | None =>
      small_init_alloc mmap_ret n;;
      res' ← small_alloc n size;
      modify (fun s => mk_mman (cmans s) (msz s + 1));;
      mret res'
  end.

Fixpoint dealloc_try (n : nat) (cmi ptr : Z) : M mman_t unit :=
  match n with
  | O => skip
  | S n' =>
      l_addr ← in_cman cmi (gets addr);
      let r_addr := l_addr + PAGESIZE in
      if (l_addr <=? ptr) && (ptr <? r_addr) then small_dealloc cmi ptr
      else dealloc_try n' (cmi + 1) ptr
  end.
Definition dealloc (ptr : Z) : M mman_t unit :=
  n ← gets msz; dealloc_try (Z.to_nat n) 0 ptr.

Lemma emin_pos : 0 < MINALLOC.
Proof. done. Qed.

(** ** Invariant: every page in use tiles, and pages do not overlap *)
Record ealloc_inv (s : mman_t) (bss : list (list block_t)) : Prop := {
  einv_len : length (cmans s) = 16%nat;
  einv_sz : msz s = Z.of_nat (length bss);
  einv_max : (length bss <= 16)%nat;
  einv_arrays : Forall (fun c => length (chunks c) = 16%nat) (cmans s);
  einv_pages : forall i c bs, cmans s !! i = Some c -> bss !! i = Some bs -> page_inv MINALLOC c bs;
  einv_apart : forall i j c d, (i < j < length bss)%nat -> cmans s !! i = Some c ->
    cmans s !! j = Some d -> addr c + PAGESIZE <= addr d \/ addr d + PAGESIZE <= addr c
}.

(** The page [alloc] chooses, with the offset and the blocks it leaves. *)
Fixpoint first_page (size : Z) (bss : list (list block_t)) : option (nat * Z * list block_t) :=
  match bss with
  | [] => None
  | bs :: bss' =>
      match first_fit size 0 bs with
      | Some (o, bs') => Some (O, o, bs')
      | None => match first_page size bss' with
                | Some (k, o, bs') => Some (S k, o, bs')
                | None => None
                end
      end
  end.

Definition valid_size (size : Z) : Prop := 0 < size <= PAGESIZE /\ (MINALLOC | size).

Lemma in_cman_ret {A} cmi (op : M chunkman_t A) s c a c' :
  (cmi < 16)%nat -> cmans s !! cmi = Some c -> op c = Ret a c' ->
  in_cman (Z.of_nat cmi) op s = Ret a (mk_mman (<[cmi := c']> (cmans s)) (msz s)).
Proof.
  intros Hlt Hc Hop. unfold in_cman, NCMANS.
  rewrite (proj2 (Z.leb_le _ _)), (proj2 (Z.ltb_lt _ _)) by lia. cbn [andb].
  by rewrite Nat2Z.id, Hc, Hop.
Qed.

Lemma mman_insert_id s i c : cmans s !! i = Some c -> mk_mman (<[i := c]> (cmans s)) (msz s) = s.
Proof. intros H. rewrite list_insert_id by done. by destruct s. Qed.

Lemma small_alloc_ok s i c bs size :
  (i < 16)%nat -> cmans s !! i = Some c -> page_inv MINALLOC c bs -> valid_size size ->
  match first_fit size 0 bs with
  | None => small_alloc (Z.of_nat i) size s = Ret None s
  | Some (o, bs') => exists c', small_alloc (Z.of_nat i) size s =
        Ret (Some (addr c + o)) (mk_mman (<[i := c']> (cmans s)) (msz s)) /\
      addr c' = addr c /\ page_inv MINALLOC c' bs'
  end.
Proof.
  intros Hi Hc Hp [Hs Hd]. pose proof (page_alloc_ok MINALLOC emin_pos c bs size Hp) as H.
  rewrite (proj2 (Z.rem_divide size MINALLOC ltac:(done)) Hd) in H.
  assert (MINALLOC <= size) as Hge by (apply Z.divide_pos_le; [lia | done]).
  rewrite (proj2 (Z.ltb_ge _ _) Hge) in H. cbn [Z.eqb negb orb] in H.
  destruct (first_fit size 0 bs) as [[o bs'] |].
  - destruct H as (c' & Hrun & Ha & _ & Hp' & _). exists c'. split; [| done].
    by apply in_cman_ret with c.
  - unfold small_alloc. rewrite (in_cman_ret i _ s c None c) by done. by rewrite mman_insert_id.
Qed.

Lemma alloc_try_ok s bss size : ealloc_inv s bss -> valid_size size ->
  forall n k, (k + n = length bss)%nat ->
  match first_page size (drop k bss) with
  | None => alloc_try n (Z.of_nat k) size s = Ret None s
  | Some (i, o, bs') => exists c c', cmans s !! (k + i)%nat = Some c /\
      alloc_try n (Z.of_nat k) size s =
        Ret (Some (addr c + o)) (mk_mman (<[(k + i)%nat := c']> (cmans s)) (msz s)) /\
      addr c' = addr c /\ page_inv MINALLOC c' bs'
  end.
Proof.
  intros Hinv Hv n. induction n as [| n IH]; intros k Hk.
  { rewrite drop_ge by lia. done. }
  destruct (lookup_lt_is_Some_2 bss k) as [bs Hbs]; [lia |].
  destruct (lookup_lt_is_Some_2 (cmans s) k) as [c Hc].
  { rewrite (einv_len _ _ Hinv). pose proof (einv_max _ _ Hinv). lia. }
  rewrite (drop_S _ _ _ Hbs). cbn [first_page alloc_try].
  pose proof (small_alloc_ok s k c bs size) as Hsm.
  specialize (Hsm ltac:(pose proof (einv_max _ _ Hinv); lia) Hc (einv_pages _ _ Hinv _ _ _ Hc Hbs) Hv).
  destruct (first_fit size 0 bs) as [[o bs'] |].
  - destruct Hsm as (c' & Hrun & Ha & Hp). exists c, c'. rewrite Nat.add_0_r.
    rewrite (bind_ret _ _ _ _ _ Hrun). done.
  - rewrite (bind_ret _ _ _ _ _ Hsm). specialize (IH (S k) ltac:(lia)).
    replace (Z.of_nat k + 1) with (Z.of_nat (S k)) by lia.
    destruct (first_page size (drop (S k) bss)) as [[[i o] bs'] |]; [| done].
    by replace (k + S i)%nat with (S k + i)%nat by lia.
Qed.

Lemma inv_update s bss i c c' bs' :
  ealloc_inv s bss -> cmans s !! i = Some c -> (i < length bss)%nat ->
  addr c' = addr c -> page_inv MINALLOC c' bs' ->
  ealloc_inv (mk_mman (<[i := c']> (cmans s)) (msz s)) (<[i := bs']> bss).
Proof.
  intros [Hl Hs Hm Ha Hp Hap] Hc Hi Hadr Hp'.
  assert (forall j d, <[i := c']> (cmans s) !! j = Some d ->
            exists d0, cmans s !! j = Some d0 /\ addr d = addr d0) as Haddr.
  { intros j d Hd. destruct (decide (i = j)) as [<- | Hne].
    - rewrite list_lookup_insert_eq in Hd by (by eapply lookup_lt_Some). injection Hd as <-. eauto.
    - rewrite list_lookup_insert_ne in Hd by done. eauto. }
  split; cbn [cmans msz]; rewrite ?length_insert; try done.
  - apply Forall_insert; [done |]. pose proof (inv_len _ _ _ Hp') as H.
    unfold MINALLOC, PAGESIZE in H. lia.
  - intros j d bs Hd Hb. destruct (decide (i = j)) as [<- | Hne].
    + rewrite list_lookup_insert_eq in Hd by (by eapply lookup_lt_Some).
      rewrite list_lookup_insert_eq in Hb by done. congruence.
    + rewrite list_lookup_insert_ne in Hd by done.
      rewrite list_lookup_insert_ne in Hb by done. by eapply Hp.
  - intros j k d e Hjk Hd He. destruct (Haddr _ _ Hd) as (d0 & Hd0 & ->).
    destruct (Haddr _ _ He) as (e0 & He0 & ->). by apply (Hap j k).
Qed.

Lemma first_page_bound size bss i o bs' :
  first_page size bss = Some (i, o, bs') -> (i < length bss)%nat.
Proof.
  revert i. induction bss as [| bs bss IH]; intros i; simpl; [done |].
  destruct (first_fit size 0 bs) as [[]|]; [intros [= <- <- <-]; lia |].
  destruct (first_page size bss) as [[[k ?] ?] |]; [| done]. intros [= <- <- <-].
  specialize (IH k eq_refl). lia.
Qed.

(** The blocks of a new page after its first allocation. *)
Definition fresh_page (size : Z) : list block_t :=
  if PAGESIZE =? size then [(size, true)] else [(size, true); (PAGESIZE - size, false)].

Lemma inv_new_page s bss c bs :
  ealloc_inv s bss -> (length bss < 16)%nat -> page_inv MINALLOC c bs ->
  (forall i d, (i < length bss)%nat -> cmans s !! i = Some d ->
     addr c + PAGESIZE <= addr d \/ addr d + PAGESIZE <= addr c) ->
  ealloc_inv (mk_mman (<[length bss := c]> (cmans s)) (msz s + 1)) (bss ++ [bs]).
Proof.
  intros [Hl Hs Hm Ha Hp Hap] Hlt Hpc Hdis.
  split; cbn [cmans msz]; rewrite ?length_insert, ?length_app; simpl; try done; try lia.
  - apply Forall_insert; [done |]. pose proof (inv_len _ _ _ Hpc) as H.
    unfold MINALLOC, PAGESIZE in H. lia.
  - intros j d b Hd Hb. destruct (decide (length bss = j)) as [<- | Hne].
    + rewrite list_lookup_insert_eq in Hd by lia.
      rewrite list_lookup_middle in Hb by done. congruence.
    + rewrite list_lookup_insert_ne in Hd by done.
      rewrite lookup_app_l in Hb; [by eapply Hp |].
      apply lookup_lt_Some in Hb. rewrite length_app in Hb. simpl in Hb. lia.
  - intros j k d e Hjk Hd He. rewrite list_lookup_insert_ne in Hd by lia.
    destruct (decide (length bss = k)) as [<- | Hne].
    + rewrite list_lookup_insert_eq in He by lia. injection He as <-.
      destruct (Hdis j d) as [|]; [lia | done | by right | by left].
    + rewrite list_lookup_insert_ne in He by done. apply (Hap j k); [lia | done | done].
Qed.

Lemma alloc_new_page s bss size r :
  ealloc_inv s bss -> valid_size size -> first_page size bss = None ->
  (length bss < 16)%nat -> r <> MAP_FAILED ->
  (forall i d, (i < length bss)%nat -> cmans s !! i = Some d ->
     r + PAGESIZE <= addr d \/ addr d + PAGESIZE <= r) ->
  exists s', alloc r size s = Ret (Some r) s' /\ ealloc_inv s' (bss ++ [fresh_page size]).
Proof.
  intros Hinv Hv Hnone Hlt Hr Hdis. unfold alloc. erewrite bind_ret by reflexivity. cbv beta.
  pose proof (alloc_try_ok s bss size Hinv Hv (length bss) 0 eq_refl) as Htry.
  rewrite drop_0, Hnone in Htry. rewrite (einv_sz _ _ Hinv), Nat2Z.id.
  rewrite (bind_ret _ _ _ _ _ Htry). cbv beta.
  destruct (lookup_lt_is_Some_2 (cmans s) (length bss)) as [c Hc]; [rewrite (einv_len _ _ Hinv); lia |].
  pose proof (proj1 (Forall_lookup _ _) (einv_arrays _ _ Hinv) _ _ Hc) as Hlen.
  destruct (init_page_ok MINALLOC emin_pos c r) as (c1 & Hrun & Ha & Hp & _);
    [by rewrite Hlen | by exists 16 | done |].
  erewrite bind_ret; [| unfold small_init_alloc; erewrite bind_ret by (by eapply in_cman_ret); reflexivity].
  cbv beta. set (s1 := mk_mman _ _).
  assert (cmans s1 !! length bss = Some c1) as Hc1
    by (apply list_lookup_insert_eq; rewrite (einv_len _ _ Hinv); lia).
  pose proof (small_alloc_ok s1 (length bss) c1 _ size Hlt Hc1 Hp Hv) as Hsm.
  cbn [first_fit orb] in Hsm. destruct Hv as [Hs Hd]. rewrite (proj2 (Z.ltb_ge _ _)) in Hsm by lia.
  assert (exists c', small_alloc (Z.of_nat (length bss)) size s1 =
    Ret (Some r) (mk_mman (<[length bss := c']> (cmans s1)) (msz s1)) /\ addr c' = r /\
    page_inv MINALLOC c' (fresh_page size)) as (c' & Hrun' & Ha' & Hp').
  { unfold fresh_page. destruct (PAGESIZE =? size); destruct Hsm as (c' & H1 & H2 & H3);
      rewrite Ha, Z.add_0_r in H1; exists c'; rewrite H2; done. }
  rewrite (bind_ret _ _ _ _ _ Hrun'). cbv beta. erewrite bind_ret by reflexivity.
  eexists. split; [reflexivity |]. cbn [cmans msz s1]. rewrite list_insert_insert_eq.
  apply inv_new_page; [done | done | done | by rewrite Ha'].
Qed.

(** On every state satisfying the invariant and every size that one page can
    serve, [alloc] takes the first page in order that has a fitting chunk and
    returns that chunk's address, changing no other page; when none fits and
    fewer than sixteen pages are in use, the mapping that [mmap] returns
    becomes the next page and its first bytes are returned.  [mmap] is assumed
    to succeed with a range that overlaps no mapped page. *)
Theorem ealloc_alloc_refines (s : mman_t) (bss : list (list block_t)) (size r : Z)
    (Hinv : ealloc_inv s bss) (Hv : valid_size size) :
  match first_page size bss with
  | Some (i, o, bs') => exists c s', cmans s !! i = Some c /\
      alloc r size s = Ret (Some (addr c + o)) s' /\ ealloc_inv s' (<[i := bs']> bss)
  | None =>
      (length bss < 16)%nat -> r <> MAP_FAILED ->
      (forall i d, (i < length bss)%nat -> cmans s !! i = Some d ->
         r + PAGESIZE <= addr d \/ addr d + PAGESIZE <= r) ->
      exists s', alloc r size s = Ret (Some r) s' /\ ealloc_inv s' (bss ++ [fresh_page size])
  end.
Proof.
  pose proof (alloc_try_ok s bss size Hinv Hv (length bss) 0 eq_refl) as Htry. rewrite drop_0 in Htry.
  destruct (first_page size bss) as [[[i o] bs'] |] eqn:E; [| by apply alloc_new_page].
  destruct Htry as (c & c' & Hc & Hrun & Ha & Hp). rewrite Nat.add_0_l in *.
  exists c. eexists. split; [done |]. unfold alloc. erewrite bind_ret by reflexivity. cbv beta.
  rewrite (einv_sz _ _ Hinv), Nat2Z.id. rewrite (bind_ret _ _ _ _ _ Hrun). split; [reflexivity |].
  eapply inv_update; try done. by eapply first_page_bound.
Qed.

Lemma zero_inv : ealloc_inv mman_zero [].
Proof. split; simpl; try done; try lia. by repeat constructor. Qed.

Lemma ealloc_alloc_refines_witness :
  exists s', alloc 65536 512 mman_zero = Ret (Some 65536) s' /\
    ealloc_inv s' [[(512, true); (3584, false)]].
Proof.
  apply (ealloc_alloc_refines mman_zero [] 512 65536 zero_inv); [| simpl; lia | done | simpl; lia].
  split; [done | by exists 2].
Defined.

Lemma dealloc_try_ok s bss k c pre n a suf :
  ealloc_inv s bss -> cmans s !! k = Some c -> bss !! k = Some (pre ++ (n, a) :: suf) ->
  (forall ch, chunks c !! idx MINALLOC (total pre) = Some ch -> prev ch = pred_of MINALLOC pre) ->
  exists s', ealloc_inv s' (<[k := free_block pre n suf]> bss) /\
    forall i, (i <= k)%nat -> forall m, (m + i = length bss)%nat ->
    dealloc_try m (Z.of_nat i) (addr c + total pre) s = Ret tt s'.
Proof.
  intros Hinv Hc Hb Hprev. pose proof (einv_pages _ _ Hinv _ _ _ Hc Hb) as Hp.
  destruct (page_dealloc_ok MINALLOC emin_pos c pre n a suf Hp Hprev) as (c' & Hrun & Ha & _ & Hp' & _).
  assert (k < length bss)%nat as Hk by by eapply lookup_lt_Some.
  assert (0 <= total pre < PAGESIZE) as Hr.
  { pose proof (inv_seg _ _ _ Hp) as Hs. pose proof (inv_total _ _ _ Hp) as Ht.
    apply seg_app in Hs as (q & H1 & H2). apply seg_total_nonneg in H1.
    destruct H2 as (_ & ? & _ & ? & _ & _ & _ & _ & H2). apply seg_total_nonneg in H2.
    rewrite total_app in Ht. cbn [total] in Ht. lia. }
  exists (mk_mman (<[k := c']> (cmans s)) (msz s)). split; [by eapply inv_update |].
  pose proof (einv_max _ _ Hinv) as Hmax. pose proof (einv_len _ _ Hinv) as Hlen.
  intros i Hi m Hm. remember (k - i)%nat as d eqn:Hd. revert i m Hi Hm Hd.
  induction d as [| d IH]; intros i m Hi Hm Hd; destruct m as [| m]; try lia; cbn [dealloc_try].
  - assert (i = k) as -> by lia.
    erewrite bind_ret; [| eapply in_cman_ret; [lia | exact Hc | reflexivity]]. cbv beta zeta.
    rewrite mman_insert_id by done.
    rewrite (proj2 (Z.leb_le _ _)), (proj2 (Z.ltb_lt _ _)) by lia. cbn [andb].
    apply in_cman_ret with c; [lia | done | done].
  - destruct (lookup_lt_is_Some_2 (cmans s) i) as [e He]; [lia |].
    erewrite bind_ret; [| eapply in_cman_ret; [lia | exact He | reflexivity]]. cbv beta zeta.
    rewrite mman_insert_id by done.
    assert ((addr e <=? addr c + total pre) && (addr c + total pre <? addr e + PAGESIZE) = false) as ->.
    { pose proof (einv_apart _ _ Hinv i k e c ltac:(lia) He Hc). lia. }
    replace (Z.of_nat i + 1) with (Z.of_nat (S i)) by lia. apply IH; lia.
Qed.

(** [dealloc] of a pointer into page [k] finds that page among the mapped
    ones, frees exactly that chunk, joins it with its free neighbours and
    leaves every other page unchanged, provided the chunk's [prev] link is its
    true predecessor. *)
Theorem ealloc_dealloc_refines (s : mman_t) (bss : list (list block_t)) (k : nat)
    (c : chunkman_t) (pre : list block_t) (n : Z) (a : bool) (suf : list block_t)
    (Hinv : ealloc_inv s bss) (Hc : cmans s !! k = Some c)
    (Hb : bss !! k = Some (pre ++ (n, a) :: suf))
    (Hprev : forall ch, chunks c !! idx MINALLOC (total pre) = Some ch -> prev ch = pred_of MINALLOC pre) :
  exists s', dealloc (addr c + total pre) s = Ret tt s' /\
    ealloc_inv s' (<[k := free_block pre n suf]> bss).
Proof.
  destruct (dealloc_try_ok s bss k c pre n a suf Hinv Hc Hb Hprev) as (s' & Hi & Hrun).
  exists s'. split; [| done]. unfold dealloc. erewrite bind_ret by reflexivity. cbv beta.
  rewrite (einv_sz _ _ Hinv), Nat2Z.id. apply (Hrun 0%nat); lia.
Qed.

Definition demo : mman_t := Eval vm_compute in
  match alloc 65536 512 mman_zero with Ret _ s => s | _ => mman_zero end.
Definition demo_cman : chunkman_t := Eval vm_compute in default cman_zero (head (cmans demo)).

Lemma ealloc_dealloc_refines_witness :
  exists s', dealloc 65536 demo = Ret tt s' /\ ealloc_inv s' [[(4096, false)]].
Proof.
  assert (ealloc_inv demo [[(512, true); (3584, false)]]) as Hi.
  { destruct (alloc_new_page mman_zero [] 512 65536 zero_inv) as (s' & Hrun & Hi');
      [split; [done | by exists 2] | done | simpl; lia | done | simpl; lia |].
    vm_compute in Hrun. injection Hrun as <-. exact Hi'. }
  apply (ealloc_dealloc_refines demo _ 0 demo_cman [] 512 true [(3584, false)] Hi); [done | done |].
  intros ch Hch. vm_compute in Hch. by injection Hch as <-.
Defined.

(** Repeat an allocation request [k] times; the mappings returned are spaced. *)
Fixpoint alloc_repeat (k : nat) (size : Z) : M mman_t unit :=
  match k with
  | O => skip
  | S k' => alloc (65536 * Z.of_nat (S k')) size;; alloc_repeat k' size
  end.

(** A request that no page can serve is answered with [NULL] but still uses
    up a page manager: after sixteen requests for 0 bytes the manager table is
    full, and the seventeenth call accesses [mman.cmans[16]], past its end. *)
Theorem failed_alloc_exhausts :
  (exists s, alloc_repeat 16 0 mman_zero = Ret tt s /\ msz s = 16) /\
  alloc_repeat 17 0 mman_zero = Stop "cmans out of bounds".
Proof. split; [eexists; split; vm_compute; reflexivity | vm_compute; reflexivity]. Qed.
