(* ===== verification/SsuSem.v ===== *)
(** * SsuSem: project4/3/SSU_Sem.c, a counting semaphore on pthreads

    Threads run [SSU_Sem_down] and [SSU_Sem_up] on one semaphore; every
    statement that touches shared state is one step.  The pthread operations
    have their POSIX meaning: [pthread_mutex_lock] is enabled when the mutex is
    free, [pthread_cond_wait] releases its mutex and sleeps, a broadcast makes
    every sleeper contend for the mutex again, and a sleeper may also wake up
    spuriously.  [usleep] only delays.  Arithmetic that would overflow an [int]
    has no step. *)

From Stdlib Require Import ZArith Lia.
From stdpp Require Import base numbers strings option relations list.
From S2P Require Import Prelude.

(** The program counter of a thread: the statement it executes next. *)
Inductive pc :=
| Idle            (* outside the semaphore *)
| D_lock_down     (* pthread_mutex_lock(&s->mutex_down) *)
| D_lock_counter  (* pthread_mutex_lock(&s->mutex_counter) *)
| D_dec           (* s->counter -- *)
| D_test          (* while (s->counter < 0) *)
| D_asleep        (* inside pthread_cond_wait, not signalled *)
| D_relock        (* inside pthread_cond_wait, reacquiring mutex_counter *)
| D_unlock_counter
| D_unlock_down
| U_lock_up       (* pthread_mutex_lock(&s->mutex_up) *)
| U_lock_counter
| U_inc           (* s->counter ++ *)
| U_broadcast
| U_unlock_counter
| U_unlock_up.

#[export] Instance pc_eq_dec : EqDecision pc.
Proof. solve_decision. Defined.

(** The semaphore, the threads, and three ghost counters: increments done,
    decrements done, and [down] calls that got past their wait loop. *)
Record SSU_Sem := mk_sem {
  counter : Z;
  mutex_counter : option nat;
  mutex_up : option nat;
  mutex_down : option nat;
  pcs : nat -> pc;
  n_up : Z;
  n_dec : Z;
  n_down : Z
}.

Definition SSU_Sem_init (value : Z) : SSU_Sem :=
  mk_sem value None None None (fun _ => Idle) 0 0 0.

Definition set_pc (t : nat) (p : pc) (f : nat -> pc) : nat -> pc :=
  fun t' => if decide (t' = t) then p else f t'.
Definition goto (t : nat) (p : pc) (s : SSU_Sem) : SSU_Sem :=
  mk_sem (counter s) (mutex_counter s) (mutex_up s) (mutex_down s) (set_pc t p (pcs s))
    (n_up s) (n_dec s) (n_down s).
Definition set_counter (c : Z) (s : SSU_Sem) : SSU_Sem :=
  mk_sem c (mutex_counter s) (mutex_up s) (mutex_down s) (pcs s) (n_up s) (n_dec s) (n_down s).
Definition set_mutex_counter (o : option nat) (s : SSU_Sem) : SSU_Sem :=
  mk_sem (counter s) o (mutex_up s) (mutex_down s) (pcs s) (n_up s) (n_dec s) (n_down s).
Definition set_mutex_up (o : option nat) (s : SSU_Sem) : SSU_Sem :=
  mk_sem (counter s) (mutex_counter s) o (mutex_down s) (pcs s) (n_up s) (n_dec s) (n_down s).
Definition set_mutex_down (o : option nat) (s : SSU_Sem) : SSU_Sem :=
  mk_sem (counter s) (mutex_counter s) (mutex_up s) o (pcs s) (n_up s) (n_dec s) (n_down s).
Definition count (u d w : Z) (s : SSU_Sem) : SSU_Sem :=
  mk_sem (counter s) (mutex_counter s) (mutex_up s) (mutex_down s) (pcs s)
    (n_up s + u) (n_dec s + d) (n_down s + w).
(** [pthread_cond_broadcast(&s->signal)] *)
Definition wake_all (s : SSU_Sem) : SSU_Sem :=
  mk_sem (counter s) (mutex_counter s) (mutex_up s) (mutex_down s)
    (fun t => if decide (pcs s t = D_asleep) then D_relock else pcs s t)
    (n_up s) (n_dec s) (n_down s).

(** One step of thread [t] inside [SSU_Sem_down]. *)
Inductive SSU_Sem_down (t : nat) : SSU_Sem -> SSU_Sem -> Prop :=
| down_call s : pcs s t = Idle -> SSU_Sem_down t s (goto t D_lock_down s)
| down_lock_down s :
    pcs s t = D_lock_down -> mutex_down s = None ->
    SSU_Sem_down t s (goto t D_lock_counter (set_mutex_down (Some t) s))
| down_lock_counter s :
    pcs s t = D_lock_counter -> mutex_counter s = None ->
    SSU_Sem_down t s (goto t D_dec (set_mutex_counter (Some t) s))
| down_dec s :
    pcs s t = D_dec -> is_s32 (counter s - 1) ->
    SSU_Sem_down t s (goto t D_test (count 0 1 0 (set_counter (counter s - 1) s)))
| down_wait s :
    pcs s t = D_test -> counter s < 0 ->
    SSU_Sem_down t s (goto t D_asleep (set_mutex_counter None s))
| down_spurious s :
    pcs s t = D_asleep -> SSU_Sem_down t s (goto t D_relock s)
| down_relock s :
    pcs s t = D_relock -> mutex_counter s = None ->
    SSU_Sem_down t s (goto t D_test (set_mutex_counter (Some t) s))
| down_pass s :
    pcs s t = D_test -> 0 <= counter s ->
    SSU_Sem_down t s (goto t D_unlock_counter (count 0 0 1 s))
| down_unlock_counter s :
    pcs s t = D_unlock_counter ->
    SSU_Sem_down t s (goto t D_unlock_down (set_mutex_counter None s))
| down_unlock_down s :
    pcs s t = D_unlock_down -> SSU_Sem_down t s (goto t Idle (set_mutex_down None s)).

(** One step of thread [t] inside [SSU_Sem_up]. *)
Inductive SSU_Sem_up (t : nat) : SSU_Sem -> SSU_Sem -> Prop :=
| up_call s : pcs s t = Idle -> SSU_Sem_up t s (goto t U_lock_up s)
| up_lock_up s :
    pcs s t = U_lock_up -> mutex_up s = None ->
    SSU_Sem_up t s (goto t U_lock_counter (set_mutex_up (Some t) s))
| up_lock_counter s :
    pcs s t = U_lock_counter -> mutex_counter s = None ->
    SSU_Sem_up t s (goto t U_inc (set_mutex_counter (Some t) s))
| up_inc s :
    pcs s t = U_inc -> is_s32 (counter s + 1) ->
    SSU_Sem_up t s (goto t U_broadcast (count 1 0 0 (set_counter (counter s + 1) s)))
| up_broadcast s :
    pcs s t = U_broadcast -> SSU_Sem_up t s (goto t U_unlock_counter (wake_all s))
| up_unlock_counter s :
    pcs s t = U_unlock_counter ->
    SSU_Sem_up t s (goto t U_unlock_up (set_mutex_counter None s))
| up_unlock_up s :
    pcs s t = U_unlock_up -> SSU_Sem_up t s (goto t Idle (set_mutex_up None s)).

Definition step (s s' : SSU_Sem) : Prop := exists t, SSU_Sem_down t s s' \/ SSU_Sem_up t s s'.

(** ** The invariant *)
Definition in_counter (p : pc) : bool :=
  match p with D_dec | D_test | D_unlock_counter | U_inc | U_broadcast | U_unlock_counter => true | _ => false end.
Definition in_down (p : pc) : bool :=
  match p with
  | D_lock_counter | D_dec | D_test | D_asleep | D_relock | D_unlock_counter | D_unlock_down => true
  | _ => false
  end.
Definition in_up (p : pc) : bool :=
  match p with U_lock_counter | U_inc | U_broadcast | U_unlock_counter | U_unlock_up => true | _ => false end.
(** Decremented and not yet past the wait loop. *)
Definition pending (p : pc) : bool :=
  match p with D_test | D_asleep | D_relock => true | _ => false end.

(** The mutex [m] is held exactly by the thread inside the region [b]. *)
Definition owns (b : pc -> bool) (m : option nat) (f : nat -> pc) : Prop :=
  forall t, b (f t) = true <-> m = Some t.

Record sem_inv (v : Z) (s : SSU_Sem) : Prop := {
  i_counter : owns in_counter (mutex_counter s) (pcs s);
  i_up : owns in_up (mutex_up s) (pcs s);
  i_down : owns in_down (mutex_down s) (pcs s);
  i_value : counter s = v + n_up s - n_dec s;
  i_nonneg : 0 <= n_up s /\ 0 <= n_down s;
  i_pending : n_dec s - n_down s =
    match mutex_down s with Some t => if pending (pcs s t) then 1 else 0 | None => 0 end;
  i_bound : n_down s <= v + n_up s \/ n_down s = 0;
  i_asleep : forall t, pcs s t = D_asleep -> counter s < 0 \/ exists u, pcs s u = U_broadcast
}.

Section owns_rules.
Variable b : pc -> bool.

Lemma owns_keep m f t p : owns b m f -> b p = b (f t) -> owns b m (set_pc t p f).
Proof. intros H Hb t'. unfold set_pc. case_decide as E; [subst; rewrite Hb |]; apply H. Qed.

Lemma owns_take f t p : owns b None f -> b p = true -> owns b (Some t) (set_pc t p f).
Proof.
  intros H Hb t'. unfold set_pc. case_decide as E; [by subst |].
  rewrite (H t'). split; congruence.
Qed.

Lemma owns_drop m f t p : owns b m f -> b (f t) = true -> b p = false -> owns b None (set_pc t p f).
Proof.
  intros H Hf Hp t'. apply H in Hf. unfold set_pc.
  case_decide as E; [by rewrite Hp |]. rewrite (H t'). split; congruence.
Qed.

Lemma owns_map m f g : owns b m f -> (forall t, b (g t) = b (f t)) -> owns b m g.
Proof. intros H Hg t. rewrite Hg. apply H. Qed.
End owns_rules.

Lemma set_pc_eq t p f : set_pc t p f t = p.
Proof. unfold set_pc. by rewrite decide_True. Qed.
Lemma set_pc_ne t t' p f : t' <> t -> set_pc t p f t' = f t'.
Proof. intros. unfold set_pc. by rewrite decide_False. Qed.

Lemma init_inv v : sem_inv v (SSU_Sem_init v).
Proof. split; simpl; try done; try lia. Qed.

(** A sleeper after a step that puts no thread to sleep and, unless it raises
    the counter and is about to broadcast, neither raises the counter nor
    broadcasts. *)
Lemma asleep_goto s t p c :
  (forall u, pcs s u = D_asleep -> counter s < 0 \/ exists w, pcs s w = U_broadcast) ->
  p <> D_asleep -> (p = U_broadcast \/ (c <= counter s /\ pcs s t <> U_broadcast)) ->
  forall u, set_pc t p (pcs s) u = D_asleep -> c < 0 \/ exists w, set_pc t p (pcs s) w = U_broadcast.
Proof.
  intros H Hp Hc u. unfold set_pc at 1. case_decide as E; [done |]. intros Hu.
  destruct Hc as [-> | [Hc Ht]]; [right; exists t; apply set_pc_eq |].
  destruct (H u Hu) as [| [w Hw]]; [left; lia |]. right. exists w.
  rewrite set_pc_ne; [done | congruence].
Qed.

(** [solve_owns]: the mutex bookkeeping of one step. *)
Ltac solve_owns :=
  first [ by apply owns_keep; [| match goal with H : pcs _ _ = _ |- _ => rewrite H end]
        | by apply owns_take; [assumption |]
        | by eapply owns_drop; [| match goal with H : pcs _ _ = _ |- _ => rewrite H end |] ].

Lemma down_inv v t s s' : sem_inv v s -> SSU_Sem_down t s s' -> sem_inv v s'.
Proof.
  intros [Hc Hu Hd Hval Hnn Hpend Hb Hsl] Hst.
  assert (in_down (pcs s t) = true -> mutex_down s = Some t) as Hmine by apply Hd.
  inversion Hst as
    [? Hpc | ? Hpc Hm | ? Hpc Hm | ? Hpc Hr | ? Hpc Hlt | ? Hpc | ? Hpc Hm | ? Hpc Hge | ? Hpc | ? Hpc]; subst;
    rewrite Hpc in Hmine; cbn [in_down] in Hmine;
    (split; cbn [counter mutex_counter mutex_up mutex_down pcs n_up n_dec n_down goto set_counter
               set_mutex_counter set_mutex_up set_mutex_down count]);
    try rewrite Hm in *; try solve_owns; try lia; try done;
    try (rewrite (Hmine eq_refl) in *; rewrite set_pc_eq, Hpc in *; cbn [pending] in *; lia);
    try (apply asleep_goto; [done | done | right; rewrite Hpc; split; [lia | done]]).
  - destruct (mutex_down s) as [o |] eqn:Eo; [| done]. rewrite set_pc_ne; [done |].
    intros ->. destruct (Hd t) as [_ H]. rewrite Hpc in H. specialize (H eq_refl). done.
  - by rewrite set_pc_eq.
  - left. rewrite (Hmine eq_refl), Hpc in Hpend. cbn [pending] in Hpend. lia.
  - rewrite (Hmine eq_refl), Hpc in Hpend. done.
Qed.

Lemma up_inv v t s s' : sem_inv v s -> SSU_Sem_up t s s' -> sem_inv v s'.
Proof.
  intros [Hc Hu Hd Hval Hnn Hpend Hb Hsl] Hst.
  assert (pending (pcs s t) = false -> forall p, pending p = false ->
    n_dec s - n_down s = match mutex_down s with
      | Some o => if pending (set_pc t p (pcs s) o) then 1 else 0 | None => 0 end) as Hpend'.
  { intros Ht p Hp. rewrite Hpend. destruct (mutex_down s) as [o |]; [| done].
    destruct (decide (o = t)) as [-> |]; [by rewrite set_pc_eq, Ht, Hp | by rewrite set_pc_ne]. }
  inversion Hst as [? Hpc | ? Hpc Hm | ? Hpc Hm | ? Hpc Hr | ? Hpc | ? Hpc | ? Hpc]; subst;
    rewrite Hpc in Hpend'; specialize (Hpend' eq_refl);
    (split; cbn [counter mutex_counter mutex_up mutex_down pcs n_up n_dec n_down goto set_counter
               set_mutex_counter set_mutex_up set_mutex_down count wake_all]);
    rewrite ?Z.add_0_r;
    try rewrite Hm in *; try solve_owns; try lia; try (by apply Hpend');
    try (by apply asleep_goto; [done | done | right; rewrite Hpc; split; [lia | done]]);
    try (by apply asleep_goto; [done | done | by left]).
  all: try (apply owns_keep; [eapply owns_map; [eassumption |]; intros u; by case_decide as E; [rewrite E |] |
              rewrite decide_False by congruence; by rewrite Hpc]).
  - rewrite Hpend. destruct (mutex_down s) as [o |]; [| done].
    destruct (decide (o = t)) as [-> |].
    + by rewrite set_pc_eq, Hpc.
    + rewrite set_pc_ne by done. by case_decide as E; [rewrite E |].
  - intros u. unfold set_pc at 1. case_decide as E; [done |]. by case_decide.
Qed.

Lemma reachable_inv v s : rtc step (SSU_Sem_init v) s -> sem_inv v s.
Proof.
  intros H. eapply (rtc_ind_r (sem_inv v)); [apply init_inv | | exact H].
  intros y z _ [t [Hst | Hst]] Hy; [by eapply down_inv | by eapply up_inv].
Qed.

(** C21. Safety of the semaphore under every interleaving of any number of
    threads: with a non-negative initial value, the number of [down] calls
    that got past their wait loop never exceeds the initial value plus the
    number of increments done by [up]; and the counter is exactly the initial
    value plus increments minus decrements. *)
Theorem semaphore_safety (v : Z) (s : SSU_Sem) (Hv : 0 <= v)
    (Hr : rtc step (SSU_Sem_init v) s) :
  n_down s <= v + n_up s /\ counter s = v + n_up s - n_dec s.
Proof.
  apply reachable_inv in Hr as [_ _ _ Hval Hnn _ Hb _]. split; [lia | done].
Qed.

(** A run in which thread 0 gets through [down] on a semaphore of value 1. *)
Lemma one_down : exists s, rtc step (SSU_Sem_init 1) s /\ n_down s = 1.
Proof.
  eexists. split; [| shelve].
  repeat (eapply rtc_l; [exists 0%nat; left; first
    [ apply down_call; reflexivity | apply down_lock_down; reflexivity
    | apply down_lock_counter; reflexivity | apply down_dec; [reflexivity | split; simpl; lia]
    | apply down_pass; [reflexivity | simpl; lia]] |]).
  apply rtc_refl. Unshelve. reflexivity.
Qed.

Lemma semaphore_safety_witness :
  exists s, rtc step (SSU_Sem_init 1) s /\ n_down s = 1 /\
    n_down s <= 1 + n_up s /\ counter s = 1 + n_up s - n_dec s.
Proof.
  destruct one_down as (s & Hr & Hn). exists s. split; [done |]. split; [done |].
  apply (semaphore_safety 1 s); [lia | done].
Defined.

Lemma holder_progress v s u :
  sem_inv v s -> is_s32 (counter s - 1) -> is_s32 (counter s + 1) ->
  in_counter (pcs s u) = true -> exists s', SSU_Sem_down u s s' \/ SSU_Sem_up u s s'.
Proof.
  intros _ H1 H2 Hin. destruct (pcs s u) eqn:E; try done.
  - eexists. left. by apply down_dec.
  - destruct (Z.lt_ge_cases (counter s) 0); eexists; left; [by apply down_wait | by apply down_pass].
  - eexists. left. by apply down_unlock_counter.
  - eexists. right. by apply up_inc.
  - eexists. right. by apply up_broadcast.
  - eexists. right. by apply up_unlock_counter.
Qed.

Lemma down_holder_progress v s u :
  sem_inv v s -> 0 <= counter s -> mutex_counter s = None -> in_down (pcs s u) = true ->
  pcs s u <> D_asleep /\ exists s', SSU_Sem_down u s s'.
Proof.
  intros Hi Hc Hm Hin.
  assert (in_counter (pcs s u) = false) as Hnc.
  { destruct (in_counter (pcs s u)) eqn:E; [| done]. apply (i_counter _ _ Hi) in E. congruence. }
  destruct (pcs s u) eqn:E; try done.
  - split; [done |]. eexists. by apply down_lock_counter.
  - destruct (i_asleep _ _ Hi u E) as [| [w Hw]]; [lia |].
    assert (mutex_counter s = Some w) by (apply (i_counter _ _ Hi); by rewrite Hw). congruence.
  - split; [done |]. eexists. by apply down_relock.
  - split; [done |]. eexists. by apply down_unlock_down.
Qed.

(** In a reachable state with a counter that is not negative some thread that
    is inside the semaphore and not asleep has a step. *)
Lemma some_thread_steps v s t :
  sem_inv v s -> 0 <= counter s -> is_s32 (counter s + 1) -> pcs s t <> Idle ->
  exists u s', pcs s u <> Idle /\ pcs s u <> D_asleep /\ (SSU_Sem_down u s s' \/ SSU_Sem_up u s s').
Proof.
  intros Hi Hc Hover Ht.
  assert (is_s32 (counter s - 1)) as H1 by (unfold is_s32 in *; lia).
  destruct (mutex_counter s) as [u |] eqn:Em.
  { apply (i_counter _ _ Hi) in Em as Hin. destruct (holder_progress v s u Hi H1 Hover Hin) as [s' Hs'].
    exists u, s'. destruct (pcs s u); done. }
  destruct (mutex_down s) as [u |] eqn:Ed.
  { apply (i_down _ _ Hi) in Ed as Hin.
    destruct (down_holder_progress v s u Hi Hc Em Hin) as [Hns [s' Hs']]. exists u, s'.
    split_and!; [by destruct (pcs s u) | done | by left]. }
  destruct (mutex_up s) as [u |] eqn:Eu.
  { apply (i_up _ _ Hi) in Eu as Hin. exists u.
    assert (in_counter (pcs s u) = false) as Hnc.
    { destruct (in_counter (pcs s u)) eqn:E; [| done]. apply (i_counter _ _ Hi) in E. congruence. }
    destruct (pcs s u) eqn:E; try done; eexists; (split_and!; [done | done | right]);
      [by apply up_lock_counter | by apply up_unlock_up]. }
  exists t. pose proof (i_counter _ _ Hi t) as Hct. pose proof (i_down _ _ Hi t) as Hdt.
  pose proof (i_up _ _ Hi t) as Hut. rewrite Em in Hct. rewrite Ed in Hdt. rewrite Eu in Hut.
  destruct (pcs s t) eqn:E; try done; cbn [in_counter in_down in_up] in *;
    try (by destruct Hct as [Hct _]; specialize (Hct eq_refl));
    try (by destruct Hdt as [Hdt _]; specialize (Hdt eq_refl));
    try (by destruct Hut as [Hut _]; specialize (Hut eq_refl)).
  - eexists. split_and!; [done | done | left; by apply down_lock_down].
  - eexists. split_and!; [done | done | right; by apply up_lock_up].
Qed.

(** *** The thread that waits *)

(** A step of a thread that is not asleep: every step but a spurious wakeup. *)
Definition awake_step (s s' : SSU_Sem) : Prop :=
  exists u, pcs s u <> D_asleep /\ (SSU_Sem_down u s s' \/ SSU_Sem_up u s s').

(** The [down] of thread [t] can return, without spurious wakeups. *)
Definition can_return (t : nat) (s : SSU_Sem) : Prop :=
  exists s', rtc awake_step s s' /\ pcs s' t = Idle /\ n_down s' = n_down s + 1.

Lemma can_return_l t u s s1 :
  pcs s u <> D_asleep -> SSU_Sem_down u s s1 \/ SSU_Sem_up u s s1 -> n_down s1 = n_down s ->
  can_return t s1 -> can_return t s.
Proof.
  intros Hu Hs Hn (s' & Hr & Ht & Hd). exists s'. split_and!; [| done | by rewrite Hd, Hn].
  eapply rtc_l; [| exact Hr]. by exists u.
Qed.

(** [waits_step u R]: the next statement of thread [u], the rule [R], on the way. *)
Ltac waits_step u R :=
  eapply (can_return_l _ u); [congruence | R; solve [done | simpl; lia] | simpl; try lia; done |].

Lemma test_returns t s : pcs s t = D_test -> 0 <= counter s -> can_return t s.
Proof.
  intros Ht Hc.
  set (s1 := goto t D_unlock_counter (count 0 0 1 s)).
  set (s2 := goto t D_unlock_down (set_mutex_counter None s1)).
  exists (goto t Idle (set_mutex_down None s2)). split_and!; [| apply set_pc_eq | done].
  eapply rtc_l; [exists t; split; [congruence | left; by apply down_pass] |]. fold s1.
  assert (pcs s1 t = D_unlock_counter) as H1 by apply set_pc_eq.
  assert (pcs s2 t = D_unlock_down) as H2 by apply set_pc_eq.
  eapply rtc_l; [exists t; split; [congruence | left; by apply down_unlock_counter] |]. fold s2.
  apply rtc_once. exists t. split; [congruence | left; by apply down_unlock_down].
Qed.

Lemma relock_returns t s : pcs s t = D_relock -> mutex_counter s = None -> 0 <= counter s -> can_return t s.
Proof.
  intros Ht Hm Hc. waits_step t ltac:(left; apply down_relock). apply test_returns; [apply set_pc_eq | done].
Qed.

Lemma unlock_returns t u s :
  pcs s t = D_relock -> pcs s u = U_unlock_counter -> 0 <= counter s -> can_return t s.
Proof.
  intros Ht Hu Hc. waits_step u ltac:(right; apply up_unlock_counter).
  apply relock_returns; [| done | done]. simpl. rewrite set_pc_ne; [done | congruence].
Qed.

Lemma broadcast_returns t u s :
  pcs s t = D_relock \/ pcs s t = D_asleep -> pcs s u = U_broadcast -> 0 <= counter s -> can_return t s.
Proof.
  intros Ht Hu Hc. assert (t <> u) by (intros ->; destruct Ht; congruence).
  waits_step u ltac:(right; apply up_broadcast).
  apply (unlock_returns t u); [| apply set_pc_eq | done]. simpl. rewrite set_pc_ne by done.
  case_decide; [done |]. by destruct Ht.
Qed.

Lemma waiter_returns v s t :
  sem_inv v s -> 0 <= counter s -> is_s32 (counter s + 1) -> pending (pcs s t) = true -> can_return t s.
Proof.
  intros Hi Hc Hover Ht.
  assert (mutex_down s = Some t) as Hd by (apply (i_down _ _ Hi); by destruct (pcs s t)).
  destruct (decide (pcs s t = D_test)) as [| Hnt]; [by apply test_returns |].
  assert (pcs s t = D_relock \/ pcs s t = D_asleep) as Hw by (destruct (pcs s t); auto; done).
  assert (Hsl : pcs s t = D_asleep -> exists u, pcs s u = U_broadcast).
  { intros E. destruct (i_asleep _ _ Hi t E) as [| H]; [lia | done]. }
  destruct (mutex_counter s) as [u |] eqn:Em.
  - apply (i_counter _ _ Hi) in Em as Hin.
    assert (in_down (pcs s u) = true -> u = t) as Hud by (intros E; apply (i_down _ _ Hi) in E; congruence).
    assert (u <> t) by (intros ->; destruct Hw as [E | E]; by rewrite E in Hin).
    destruct (pcs s u) eqn:E; try done; try (by destruct (Hud eq_refl)).
    + destruct Hw as [Hw | Hw].
      * waits_step u ltac:(right; apply up_inc).
        apply (broadcast_returns t u); simpl; [rewrite set_pc_ne by done; by left | apply set_pc_eq | lia].
      * destruct (Hsl Hw) as [w Hb]. assert (mutex_counter s = Some w) by (apply (i_counter _ _ Hi); by rewrite Hb).
        congruence.
    + by apply (broadcast_returns t u).
    + destruct Hw as [Hw | Hw]; [by apply (unlock_returns t u) |].
      destruct (Hsl Hw) as [w Hb]. assert (mutex_counter s = Some w) by (apply (i_counter _ _ Hi); by rewrite Hb).
      congruence.
  - destruct Hw as [Hw | Hw]; [by apply relock_returns |].
    destruct (Hsl Hw) as [w Hb]. assert (mutex_counter s = Some w) by (apply (i_counter _ _ Hi); by rewrite Hb).
    congruence.
Qed.

(** While [t] waits no other thread decrements the counter, and only a
    broadcast touches the program counter of [t]. *)
Lemma waiter_stays v s s' t u :
  sem_inv v s -> pending (pcs s t) = true -> u <> t -> SSU_Sem_down u s s' \/ SSU_Sem_up u s s' ->
  pending (pcs s' t) = true /\ counter s <= counter s'.
Proof.
  intros Hi Ht Hu Hst.
  assert (mutex_down s = Some t) as Hd by (apply (i_down _ _ Hi); by destruct (pcs s t)).
  assert (in_down (pcs s u) = true -> u = t) as Hud by (intros E; apply (i_down _ _ Hi) in E; congruence).
  destruct Hst as [Hst | Hst]; inversion Hst; subst; simpl; rewrite set_pc_ne by done;
    try (match goal with H : pcs s u = _ |- _ => rewrite H in Hud; by destruct Hu; apply Hud end);
    try (split; [done | lia]).
  case_decide; split; done || lia.
Qed.

(** C22. No deadlock and no lost wakeup.  In every reachable state whose counter
    is not negative (and not at the ends of the [int] range): if some thread is
    inside [down] or [up], then one that is and is not asleep can take its next
    step; and for the thread [t] that waits in [down] for the counter,
    - there is a run, in which no sleeper wakes up by itself, after which its
      [down] has passed the wait loop and returned;
    - no step of another thread can take that away: [t] still waits and the
      counter is not lower;
    - if [t] is asleep in [pthread_cond_wait], a thread in [up] is just before its
      broadcast. *)
Theorem semaphore_progress (v : Z) (s : SSU_Sem) (t : nat)
    (Hr : rtc step (SSU_Sem_init v) s) (Hc : 0 <= counter s) (Hover : is_s32 (counter s + 1)) :
  (pcs s t <> Idle -> exists u s', pcs s u <> Idle /\ pcs s u <> D_asleep /\
     (SSU_Sem_down u s s' \/ SSU_Sem_up u s s')) /\
  (pending (pcs s t) = true ->
     (exists s', rtc awake_step s s' /\ pcs s' t = Idle /\ n_down s' = n_down s + 1) /\
     (forall u s', u <> t -> SSU_Sem_down u s s' \/ SSU_Sem_up u s s' ->
        pending (pcs s' t) = true /\ counter s <= counter s') /\
     (pcs s t = D_asleep -> exists u, pcs s u = U_broadcast)).
Proof.
  pose proof (reachable_inv _ _ Hr) as Hi. split; [by apply (some_thread_steps v) |]. intros Ht. split_and!.
  - by apply (waiter_returns v).
  - intros u s' Hu Hst. by apply (waiter_stays v s s' t u).
  - intros E. destruct (i_asleep _ _ Hi t E) as [| H]; [lia | done].
Qed.

(** Thread 0 waits for a semaphore of value 0 and sleeps; thread 1 has raised the
    counter in [up]. *)
Lemma sleeper_and_up : exists s, rtc step (SSU_Sem_init 0) s /\
  pcs s 0 = D_asleep /\ pcs s 1 = U_broadcast /\ counter s = 0 /\ n_down s = 0.
Proof.
  eexists. split; [| shelve].
  do 5 (eapply rtc_l; [exists 0%nat; left; first
    [ apply down_call; reflexivity | apply down_lock_down; reflexivity
    | apply down_lock_counter; reflexivity | apply down_dec; [reflexivity | split; simpl; lia]
    | apply down_wait; [reflexivity | simpl; lia]] |]).
  do 4 (eapply rtc_l; [exists 1%nat; right; first
    [ apply up_call; reflexivity | apply up_lock_up; reflexivity
    | apply up_lock_counter; reflexivity | apply up_inc; [reflexivity | split; simpl; lia]] |]).
  apply rtc_refl. Unshelve. repeat split.
Qed.

Lemma semaphore_progress_witness : exists s,
  pcs s 0 = D_asleep /\ (exists s', rtc awake_step s s' /\ pcs s' 0 = Idle /\ n_down s' = 1).
Proof.
  destruct sleeper_and_up as (s & Hr & Ht & _ & Hc & Hn). exists s. split; [done |].
  destruct (semaphore_progress 0 s 0 Hr) as [_ Hw]; [lia | rewrite Hc; split; lia |].
  destruct Hw as ((s' & Hr' & Hi & Hd) & _); [by rewrite Ht |]. exists s'. by rewrite Hd, Hn.
Defined.
