(* ===== verification/SsufsDisk.v ===== *)
(** * SsufsDisk: project6/ssufs-disk.c and ssufs-disk.h, the disk layer of ssufs

    The disk is a regular file accessed with [lseek], [read] and [write]: a
    list of bytes.  Block 0 holds the superblock, blocks 1 to 4 the eight
    inodes, blocks 5 to 34 the data.  Structures are stored as their memory
    image, little-endian, so reading a structure back is a decoding of bytes.
    Bytes the C code never initialises are a parameter ([Garbage]): every
    theorem holds whatever they are. *)

From Stdlib Require Import ZArith Lia.
From stdpp Require Import base numbers strings option list.
From S2P Require Import Prelude.

Definition BLOCKSIZE : Z := 64.
Definition NUM_DATA_BLOCKS : Z := 30.
Definition NUM_INODE_BLOCKS : Z := 4.
Definition NUM_INODES : Z := 8.
Definition MAX_FILE_SIZE : Z := 4.
Definition MAX_OPEN_FILES : Z := 20.
Definition MAX_NAME_STRLEN : Z := 8.
Definition INODE_FREE : Z := 120.      (* 'x' *)
Definition INODE_IN_USE : Z := 49.     (* '1' *)
Definition DATA_BLOCK_FREE : Z := 120.
Definition DATA_BLOCK_USED : Z := 49.
Definition SIZEOF_INODE : Z := 32.

Record superblock_t := mk_sb {
  sb_name : list Z;
  inode_freelist : list Z;
  datablock_freelist : list Z
}.

Record inode_t := mk_inode {
  status : Z;
  name : list Z;
  file_size : Z;
  direct_blocks : list Z
}.

Record filehandle_t := mk_fh { offset : Z; inode_number : Z }.

(** The disk file and the global [file_handle_array]. *)
Record fs_t := mk_fs { disk : list Z; file_handle_array : list filehandle_t }.

(** Bytes that the code copies without having written them: the rest of the
    stack buffer of [ssufs_writeSuperBlock], the two bytes behind the string
    literal that [ssufs_formatDisk] copies with length 8, and the name bytes
    of its freshly allocated inode. *)
Class Garbage := {
  stack_tail : list Z;
  literal_tail : list Z;
  heap_name : list Z;
  stack_tail_len : length stack_tail = 18%nat;
  literal_tail_len : length literal_tail = 2%nat;
  heap_name_len : length heap_name = 7%nat
}.

Definition zero_garbage : Garbage.
Proof. exists (replicate 18 0) (replicate 2 0) (replicate 7 0); done. Defined.

(** ** Memory images *)
Definition encode_sb (sb : superblock_t) : list Z :=
  sb_name sb ++ inode_freelist sb ++ datablock_freelist sb.
Definition decode_sb (bs : list Z) : superblock_t :=
  mk_sb (slice 0 8 bs) (slice 8 8 bs) (slice 16 30 bs).
Definition encode_inode (i : inode_t) : list Z :=
  int32_bytes (status i) ++ name i ++ int32_bytes (file_size i) ++
  concat (map int32_bytes (direct_blocks i)).
Definition decode_inode (bs : list Z) : inode_t :=
  mk_inode (int32_val (slice 0 4 bs)) (slice 4 8 bs) (int32_val (slice 12 4 bs))
    [int32_val (slice 16 4 bs); int32_val (slice 20 4 bs);
     int32_val (slice 24 4 bs); int32_val (slice 28 4 bs)].

(** ** The file: [lseek] then [read] or [write] *)
Definition file_write (off : nat) (bs : list Z) (d : list Z) : list Z :=
  splice off bs (d ++ replicate (off + length bs - length d) 0).
Definition pread (off : Z) (n : nat) : M fs_t (list Z) := fun s =>
  if off <? 0 then Stop "lseek to a negative offset" else
  let bs := slice (Z.to_nat off) n (disk s) in
  if (length bs =? n)%nat then Ret bs s else Stop "assert: short read".
Definition pwrite (off : Z) (bs : list Z) : M fs_t unit := fun s =>
  if off <? 0 then Stop "lseek to a negative offset" else
  Ret tt (mk_fs (file_write (Z.to_nat off) bs (disk s)) (file_handle_array s)).

(** [a[i]] of a C array held as a list. *)
Definition nthZ {A : Type} (l : list A) (i : Z) : option A :=
  if i <? 0 then None else l !! Z.to_nat i.
Definition setZ {A : Type} (l : list A) (i : Z) (x : A) : option (list A) :=
  if (0 <=? i) && (i <? Z.of_nat (length l)) then Some (<[Z.to_nat i := x]> l) else None.

Section disk_ops.
Context {G : Garbage}.

Definition ssufs_readSuperBlock : M fs_t superblock_t :=
  tempBuf ← pread 0 64; mret (decode_sb tempBuf).

Definition ssufs_writeSuperBlock (sb : superblock_t) : M fs_t unit :=
  pwrite 0 (encode_sb sb ++ stack_tail).

Definition ssufs_readInode (inodenum : Z) : M fs_t inode_t :=
  assertb "assert: inodenum" (inodenum <? NUM_INODES);;
  tempBuf ← pread (BLOCKSIZE + inodenum * SIZEOF_INODE) 32;
  mret (decode_inode tempBuf).

Definition ssufs_writeInode (inodenum : Z) (inode : inode_t) : M fs_t unit :=
  assertb "assert: inodenum" (inodenum <? NUM_INODES);;
  pwrite (BLOCKSIZE + inodenum * SIZEOF_INODE) (encode_inode inode).

Definition ssufs_readDataBlock (blocknum : Z) : M fs_t (list Z) :=
  assertb "assert: blocknum" (blocknum <? NUM_DATA_BLOCKS);;
  pread (BLOCKSIZE * (5 + blocknum)) 64.

Definition ssufs_writeDataBlock (blocknum : Z) (buf : list Z) : M fs_t unit :=
  assertb "assert: blocknum" (blocknum <? NUM_DATA_BLOCKS);;
  pwrite (BLOCKSIZE * (5 + blocknum)) buf.

Fixpoint write_inodes (k : nat) (i : Z) (inode : inode_t) : M fs_t unit :=
  match k with
  | O => skip
  | S k' => ssufs_writeInode i inode;; write_inodes k' (i + 1) inode
  end.

Definition ssufs_formatDisk : M fs_t unit :=
  modify (fun s => mk_fs [] (file_handle_array s));;
  ssufs_writeSuperBlock
    (mk_sb ([115; 115; 117; 102; 115; 0] ++ literal_tail)
       (replicate (Z.to_nat NUM_INODES) INODE_FREE)
       (replicate (Z.to_nat NUM_DATA_BLOCKS) DATA_BLOCK_FREE));;
  write_inodes 8 0
    (mk_inode INODE_FREE (0 :: heap_name) 0 (replicate (Z.to_nat MAX_FILE_SIZE) (-1)));;
  modify (fun s => mk_fs (disk s) (replicate (Z.to_nat MAX_OPEN_FILES) (mk_fh 0 (-1)))).

(** [strcmp(p, filename) == 0] where [p] points into memory [mem] and
    [filename] is a C string without its terminator. *)
Fixpoint strcmp_eq (mem filename : list Z) : bool :=
  match mem, filename with
  | m :: _, [] => m =? 0
  | m :: mem', c :: filename' => if m =? c then strcmp_eq mem' filename' else false
  | [], _ => false
  end.

(** The memory from [tmp->name] on: the name is not terminated when it has
    eight characters, and [strcmp] then goes on into [file_size]. *)
Definition name_memory (i : inode_t) : list Z :=
  name i ++ int32_bytes (file_size i) ++ concat (map int32_bytes (direct_blocks i)).

Fixpoint namei_loop (k : nat) (i : Z) (sb : superblock_t) (filename : list Z) : M fs_t Z :=
  match k with
  | O => mret (-1)
  | S k' =>
      f ← from_option "freelist out of bounds" (nthZ (inode_freelist sb) i);
      if f =? INODE_IN_USE then
        tmp ← ssufs_readInode i;
        if strcmp_eq (name_memory tmp) filename then mret i
        else namei_loop k' (i + 1) sb filename
      else namei_loop k' (i + 1) sb filename
  end.

Definition open_namei (filename : list Z) : M fs_t Z :=
  if Z.of_nat (length filename) >? MAX_NAME_STRLEN then mret (-1)
  else
    sb ← ssufs_readSuperBlock;
    namei_loop 8 0 sb filename.

Definition ssufs_allocInode : M fs_t Z :=
  sb ← ssufs_readSuperBlock;
  match find_index (fun f => f =? INODE_FREE) (inode_freelist sb) with
  | Some i =>
      ssufs_writeSuperBlock
        (mk_sb (sb_name sb) (<[i := INODE_IN_USE]> (inode_freelist sb)) (datablock_freelist sb));;
      mret (Z.of_nat i)
  | None => mret (-1)
  end.

Definition ssufs_allocDataBlock : M fs_t Z :=
  sb ← ssufs_readSuperBlock;
  match find_index (fun f => f =? DATA_BLOCK_FREE) (datablock_freelist sb) with
  | Some i =>
      ssufs_writeSuperBlock
        (mk_sb (sb_name sb) (inode_freelist sb) (<[i := DATA_BLOCK_USED]> (datablock_freelist sb)));;
      mret (Z.of_nat i)
  | None => mret (-1)
  end.

Definition ssufs_freeDataBlock (blocknum : Z) : M fs_t unit :=
  sb ← ssufs_readSuperBlock;
  f ← from_option "freelist out of bounds" (nthZ (datablock_freelist sb) blocknum);
  assertb "assert: DATA_BLOCK_USED" (f =? DATA_BLOCK_USED);;
  dfl ← from_option "freelist out of bounds" (setZ (datablock_freelist sb) blocknum DATA_BLOCK_FREE);
  ssufs_writeSuperBlock (mk_sb (sb_name sb) (inode_freelist sb) dfl).

(** The loop of [ssufs_freeInode] over [direct_blocks]; the superblock is
    written out and read again around each [ssufs_freeDataBlock]. *)
Fixpoint free_blocks_loop (sb : superblock_t) (bl : list Z) : M fs_t superblock_t :=
  match bl with
  | [] => mret sb
  | b :: bl' =>
      if negb (b =? -1) then
        ssufs_writeSuperBlock sb;;
        ssufs_freeDataBlock b;;
        sb' ← ssufs_readSuperBlock;
        free_blocks_loop sb' bl'
      else free_blocks_loop sb bl'
  end.

Definition ssufs_freeInode (inodenum : Z) : M fs_t unit :=
  assertb "assert: inodenum" (inodenum <? NUM_INODES);;
  sb ← ssufs_readSuperBlock;
  inode ← ssufs_readInode inodenum;
  f ← from_option "freelist out of bounds" (nthZ (inode_freelist sb) inodenum);
  assertb "assert: INODE_IN_USE" (f =? INODE_IN_USE);;
  ifl ← from_option "freelist out of bounds" (setZ (inode_freelist sb) inodenum INODE_FREE);
  sb' ← free_blocks_loop (mk_sb (sb_name sb) ifl (datablock_freelist sb)) (direct_blocks inode);
  ssufs_writeSuperBlock sb';;
  ssufs_writeInode inodenum
    (mk_inode INODE_FREE (name inode) 0 (replicate (Z.to_nat MAX_FILE_SIZE) (-1))).
End disk_ops.

(** ** The regions of the disk

    Superblock, inode [i] and data block [b], as stored in the bytes [d]. *)
Definition disk_sb (d : list Z) : superblock_t := decode_sb (slice 0 64 d).
Definition inode_off (i : nat) : nat := 64 + i * 32.
Definition block_off (b : nat) : nat := 320 + b * 64.
Definition disk_inode (d : list Z) (i : nat) : inode_t := decode_inode (slice (inode_off i) 32 d).
Definition disk_block (d : list Z) (b : nat) : list Z := slice (block_off b) 64 d.
#[global] Arguments inode_off : simpl never.
#[global] Arguments block_off : simpl never.
#[global] Arguments disk_sb : simpl never.
#[global] Arguments disk_inode : simpl never.
#[global] Arguments disk_block : simpl never.

Definition sb_wf (sb : superblock_t) : Prop :=
  length (sb_name sb) = 8%nat /\ length (inode_freelist sb) = 8%nat /\
  length (datablock_freelist sb) = 30%nat.
Definition inode_wf (i : inode_t) : Prop :=
  is_s32 (status i) /\ length (name i) = 8%nat /\ is_s32 (file_size i) /\
  length (direct_blocks i) = 4%nat /\ Forall is_s32 (direct_blocks i).

Lemma length_encode_sb sb : sb_wf sb -> length (encode_sb sb) = 46%nat.
Proof. intros (H1 & H2 & H3). unfold encode_sb. rewrite !length_app. lia. Qed.

Lemma length_concat_int32 l : length (concat (map int32_bytes l)) = (4 * length l)%nat.
Proof. induction l; simpl; [done |]. rewrite IHl. lia. Qed.

Lemma length_encode_inode i : inode_wf i -> length (encode_inode i) = 32%nat.
Proof.
  intros (_ & H2 & _ & H4 & _). unfold encode_inode.
  rewrite !length_app, length_concat_int32. cbn. lia.
Qed.

Lemma decode_encode_sb sb tl : sb_wf sb -> decode_sb (encode_sb sb ++ tl) = sb.
Proof.
  intros (H1 & H2 & H3). unfold decode_sb, encode_sb. rewrite <- !(assoc_L (++)).
  rewrite slice_head by done.
  rewrite slice_skip by lia. rewrite H1, slice_head by done.
  rewrite !slice_skip by lia. rewrite H1, H2, slice_head by done.
  by destruct sb.
Qed.

Lemma decode_encode_inode i : inode_wf i -> decode_inode (encode_inode i) = i.
Proof.
  intros (H1 & H2 & H3 & H4 & H5).
  destruct i as [st nm fs bl]; cbn [status name file_size direct_blocks] in *.
  destruct bl as [| b0 [| b1 [| b2 [| b3 [|]]]]]; try done.
  rewrite !Forall_cons in H5. destruct H5 as (? & ? & ? & ? & _).
  unfold decode_inode, encode_inode. cbn [status name file_size direct_blocks map concat].
  assert (L : forall z, length (int32_bytes z) = 4%nat) by done.
  rewrite app_nil_r.
  repeat (first [rewrite slice_head by done | rewrite slice_all by done
                | erewrite (slice_skip _ _ (int32_bytes _)) by (rewrite L; lia); rewrite L
                | rewrite (slice_skip _ _ nm) by lia; rewrite H2]; cbn [Nat.sub]).
  by rewrite !int32_roundtrip by done.
Qed.

(** A write changes the bytes it covers and no other; the file never shrinks. *)
Lemma length_file_write off bs d : length (file_write off bs d) = (length d `max` (off + length bs))%nat.
Proof.
  unfold file_write. rewrite length_splice; rewrite length_app, length_replicate; lia.
Qed.

Lemma slice_file_write off bs d : slice off (length bs) (file_write off bs d) = bs.
Proof. unfold file_write. apply slice_splice. rewrite length_app, length_replicate. lia. Qed.

Lemma slice_file_write_other off bs d i n :
  (i + n <= length d)%nat -> (i + n <= off \/ off + length bs <= i)%nat ->
  slice i n (file_write off bs d) = slice i n d.
Proof.
  intros Hn Hd. unfold file_write.
  assert (off + length bs <= length (d ++ replicate (off + length bs - length d) 0%Z))%nat
    by (rewrite length_app, length_replicate; lia).
  destruct Hd; [rewrite slice_splice_before by done | rewrite slice_splice_after by done];
    by apply slice_app_l.
Qed.

Section regions.
Context {G : Garbage}.
Implicit Types (d : list Z) (s : fs_t).

Definition put_sb (sb : superblock_t) d : list Z := file_write 0 (encode_sb sb ++ stack_tail) d.
Definition put_inode (i : nat) (ino : inode_t) d : list Z :=
  file_write (inode_off i) (encode_inode ino) d.
Definition put_block (b : nat) (bs : list Z) d : list Z := file_write (block_off b) bs d.
Definition with_disk s d : fs_t := mk_fs d (file_handle_array s).

Lemma length_sb_image sb : sb_wf sb -> length (encode_sb sb ++ stack_tail) = 64%nat.
Proof. intros. rewrite length_app, length_encode_sb, stack_tail_len by done. done. Qed.

Lemma length_put_sb sb d : sb_wf sb -> (64 <= length d)%nat -> length (put_sb sb d) = length d.
Proof. intros. unfold put_sb. rewrite length_file_write, length_sb_image by done. lia. Qed.

Lemma length_put_inode i ino d :
  inode_wf ino -> (inode_off i + 32 <= length d)%nat -> length (put_inode i ino d) = length d.
Proof. intros. unfold put_inode. rewrite length_file_write, length_encode_inode by done. lia. Qed.

Lemma length_put_block b bs d :
  length bs = 64%nat -> length (put_block b bs d) = (length d `max` (block_off b + 64))%nat.
Proof. intros H. unfold put_block. by rewrite length_file_write, H. Qed.

Lemma disk_sb_put_sb sb d : sb_wf sb -> disk_sb (put_sb sb d) = sb.
Proof.
  intros H. unfold disk_sb, put_sb.
  rewrite <- (length_sb_image sb), slice_file_write by done. by apply decode_encode_sb.
Qed.

Lemma disk_inode_put_inode i ino d : inode_wf ino -> disk_inode (put_inode i ino d) i = ino.
Proof.
  intros H. unfold disk_inode, put_inode.
  rewrite <- (length_encode_inode ino), slice_file_write by done. by apply decode_encode_inode.
Qed.

Lemma disk_block_put_block b bs d : length bs = 64%nat -> disk_block (put_block b bs d) b = bs.
Proof. intros H. unfold disk_block, put_block. rewrite <- H. apply slice_file_write. Qed.

Lemma disk_inode_put_sb sb i d :
  sb_wf sb -> (inode_off i + 32 <= length d)%nat -> disk_inode (put_sb sb d) i = disk_inode d i.
Proof.
  intros. unfold disk_inode, put_sb. rewrite slice_file_write_other; [done.. |].
  rewrite length_sb_image by done. unfold inode_off. lia.
Qed.

Lemma disk_block_put_sb sb b d :
  sb_wf sb -> (block_off b + 64 <= length d)%nat -> disk_block (put_sb sb d) b = disk_block d b.
Proof.
  intros. unfold disk_block, put_sb. rewrite slice_file_write_other; [done.. |].
  rewrite length_sb_image by done. unfold block_off. lia.
Qed.

Lemma disk_sb_put_inode i ino d :
  (64 <= length d)%nat -> disk_sb (put_inode i ino d) = disk_sb d.
Proof.
  intros. unfold disk_sb, put_inode. rewrite slice_file_write_other; [done.. |].
  unfold inode_off. lia.
Qed.

Lemma disk_inode_put_inode_ne i j ino d :
  inode_wf ino -> i <> j -> (inode_off j + 32 <= length d)%nat ->
  disk_inode (put_inode i ino d) j = disk_inode d j.
Proof.
  intros. unfold disk_inode, put_inode. rewrite slice_file_write_other; [done.. |].
  rewrite length_encode_inode by done. unfold inode_off. lia.
Qed.

Lemma disk_block_put_inode i b ino d :
  inode_wf ino -> (i < 8)%nat -> (block_off b + 64 <= length d)%nat ->
  disk_block (put_inode i ino d) b = disk_block d b.
Proof.
  intros. unfold disk_block, put_inode. rewrite slice_file_write_other; [done.. |].
  rewrite length_encode_inode by done. unfold block_off, inode_off. lia.
Qed.

Lemma disk_sb_put_block b bs d : (64 <= length d)%nat -> disk_sb (put_block b bs d) = disk_sb d.
Proof.
  intros. unfold disk_sb, put_block. rewrite slice_file_write_other; [done.. |].
  unfold block_off. lia.
Qed.

Lemma disk_inode_put_block i b bs d :
  (i < 8)%nat -> (320 <= length d)%nat -> disk_inode (put_block b bs d) i = disk_inode d i.
Proof.
  intros. unfold disk_inode, put_block. rewrite slice_file_write_other; [done |..];
    unfold block_off, inode_off; lia.
Qed.

Lemma disk_block_put_block_ne b c bs d :
  length bs = 64%nat -> b <> c -> (block_off c + 64 <= length d)%nat ->
  disk_block (put_block b bs d) c = disk_block d c.
Proof.
  intros. unfold disk_block, put_block. rewrite slice_file_write_other; [done.. |].
  unfold block_off. lia.
Qed.

(** *** The operations in terms of the regions *)
Lemma pread_eq s (off : nat) n :
  (off + n <= length (disk s))%nat ->
  pread (Z.of_nat off) n s = Ret (slice off n (disk s)) s.
Proof.
  intros. unfold pread. rewrite (proj2 (Z.ltb_ge _ _)) by lia.
  by rewrite Nat2Z.id, length_slice, Nat.eqb_refl by done.
Qed.

Lemma pwrite_eq s (off : nat) bs :
  pwrite (Z.of_nat off) bs s = Ret tt (with_disk s (file_write off bs (disk s))).
Proof. unfold pwrite. rewrite (proj2 (Z.ltb_ge _ _)) by lia. by rewrite Nat2Z.id. Qed.

Lemma readSuperBlock_eq s :
  (64 <= length (disk s))%nat -> ssufs_readSuperBlock s = Ret (disk_sb (disk s)) s.
Proof.
  intros. unfold ssufs_readSuperBlock.
  erewrite bind_ret by (apply (pread_eq s 0); lia). done.
Qed.

Lemma writeSuperBlock_eq s sb :
  ssufs_writeSuperBlock sb s = Ret tt (with_disk s (put_sb sb (disk s))).
Proof. apply (pwrite_eq s 0). Qed.

Lemma readInode_eq s (i : nat) :
  (i < 8)%nat -> (320 <= length (disk s))%nat ->
  ssufs_readInode (Z.of_nat i) s = Ret (disk_inode (disk s) i) s.
Proof.
  intros. unfold ssufs_readInode, assertb.
  rewrite (proj2 (Z.ltb_lt _ _)) by (unfold NUM_INODES; lia). mrun.
  replace (BLOCKSIZE + _) with (Z.of_nat (inode_off i))
    by (unfold inode_off, BLOCKSIZE, SIZEOF_INODE; lia).
  erewrite bind_ret by (apply pread_eq; unfold inode_off; lia). done.
Qed.

Lemma writeInode_eq s (i : nat) ino :
  (i < 8)%nat ->
  ssufs_writeInode (Z.of_nat i) ino s = Ret tt (with_disk s (put_inode i ino (disk s))).
Proof.
  intros. unfold ssufs_writeInode, assertb.
  rewrite (proj2 (Z.ltb_lt _ _)) by (unfold NUM_INODES; lia). mrun.
  replace (BLOCKSIZE + _) with (Z.of_nat (inode_off i))
    by (unfold inode_off, BLOCKSIZE, SIZEOF_INODE; lia).
  apply pwrite_eq.
Qed.

Lemma readDataBlock_eq s (b : nat) :
  (b < 30)%nat -> (block_off b + 64 <= length (disk s))%nat ->
  ssufs_readDataBlock (Z.of_nat b) s = Ret (disk_block (disk s) b) s.
Proof.
  intros. unfold ssufs_readDataBlock, assertb.
  rewrite (proj2 (Z.ltb_lt _ _)) by (unfold NUM_DATA_BLOCKS; lia). mrun.
  replace (BLOCKSIZE * _) with (Z.of_nat (block_off b))
    by (unfold block_off, BLOCKSIZE; lia).
  by apply pread_eq.
Qed.

Lemma writeDataBlock_eq s (b : nat) bs :
  (b < 30)%nat ->
  ssufs_writeDataBlock (Z.of_nat b) bs s = Ret tt (with_disk s (put_block b bs (disk s))).
Proof.
  intros. unfold ssufs_writeDataBlock, assertb.
  rewrite (proj2 (Z.ltb_lt _ _)) by (unfold NUM_DATA_BLOCKS; lia). mrun.
  replace (BLOCKSIZE * _) with (Z.of_nat (block_off b))
    by (unfold block_off, BLOCKSIZE; lia).
  apply pwrite_eq.
Qed.

Lemma disk_sb_wf d : (64 <= length d)%nat -> sb_wf (disk_sb d).
Proof.
  intros. unfold disk_sb, decode_sb.
  split_and!; cbn; apply length_slice; rewrite ?length_slice; lia.
Qed.
End regions.
