(* ===== verification/SsufsOps.v ===== *)
(** * SsufsOps: project6/ssufs-ops.c, the file operations of ssufs

    The operations work on the disk layer of [SsufsDisk] and on the global
    table of open files.  A C buffer argument is a list of bytes; a buffer the
    function fills is returned as the list of the bytes stored in it. *)

From Stdlib Require Import ZArith Lia.
From stdpp Require Import base numbers strings option list.
From S2P Require Import Prelude SsufsDisk.

Section ops.
Context {G : Garbage}.

Definition get_handle (h : Z) : M fs_t filehandle_t :=
  tbl ← gets file_handle_array;
  from_option "file_handle_array out of bounds" (nthZ tbl h).

Definition set_handle (h : Z) (fh : filehandle_t) : M fs_t unit :=
  tbl ← gets file_handle_array;
  tbl' ← from_option "file_handle_array out of bounds" (setZ tbl h fh);
  modify (fun s => mk_fs (disk s) tbl').

Definition ssufs_allocFileHandle : M fs_t Z :=
  tbl ← gets file_handle_array;
  match find_index (fun fh => inode_number fh =? -1) tbl with
  | Some i => set_handle (Z.of_nat i) (mk_fh 0 (Z.of_nat i));; mret (Z.of_nat i)
  | None => mret (-1)
  end.

(** [strncpy(dst, filename, 8)]. *)
Definition strncpy8 (filename : list Z) : list Z := take 8 (filename ++ replicate 8 0).

Definition ssufs_create (filename : list Z) : M fs_t Z :=
  inode_idx ← ssufs_allocInode;
  if inode_idx =? -1 then mret (-1) else
  inode ← ssufs_readInode inode_idx;
  ssufs_writeInode inode_idx
    (mk_inode INODE_IN_USE (strncpy8 filename) (file_size inode) (direct_blocks inode));;
  mret inode_idx.

Definition ssufs_delete (filename : list Z) : M fs_t unit :=
  inode_idx ← open_namei filename;
  if inode_idx =? -1 then skip else ssufs_freeInode inode_idx.

Definition ssufs_open (filename : list Z) : M fs_t Z :=
  inode_idx ← open_namei filename;
  if inode_idx =? -1 then mret (-1) else ssufs_allocFileHandle.

Definition ssufs_close (file_handle : Z) : M fs_t unit :=
  set_handle file_handle (mk_fh 0 (-1)).

Definition ssufs_lseek (file_handle nseek : Z) : M fs_t Z :=
  fh ← get_handle file_handle;
  tmp ← ssufs_readInode (inode_number fh);
  let fsize := file_size tmp in
  let off := s32 (offset fh + nseek) in
  if (fsize =? -1) || (off <? 0) || (off >? fsize) then mret (-1)
  else set_handle file_handle (mk_fh off (inode_number fh));; mret 0.

(** The [for] loop of [ssufs_read]: [read] bytes are already in the buffer,
    [acc] holds them. *)
Fixpoint read_loop (fuel : nat) (h : Z) (inode : inode_t) (nbytes read : Z) (acc : list Z)
  : M fs_t (Z * list Z) :=
  if read <? nbytes then
    match fuel with
    | O => out_of_fuel
    | S fuel' =>
        fh ← get_handle h;
        let block := offset fh / BLOCKSIZE in
        let off := offset fh mod BLOCKSIZE in
        let jump := BLOCKSIZE - off in
        blocknum ← from_option "direct_blocks out of bounds" (nthZ (direct_blocks inode) block);
        tmp ← ssufs_readDataBlock blocknum;
        let jump := if jump >? nbytes - read then nbytes - read else jump in
        let acc := acc ++ slice (Z.to_nat off) (Z.to_nat jump) tmp in
        r ← ssufs_lseek h jump;
        if r <? 0 then mret (-1, acc)
        else read_loop fuel' h inode nbytes (read + jump) acc
    end
  else mret (0, acc).

Definition nblock_in_use (inode : inode_t) : Z :=
  Z.of_nat (length (filter (fun b => b <> -1) (direct_blocks inode))).

Definition ssufs_read (file_handle nbytes : Z) : M fs_t (Z * list Z) :=
  fh ← get_handle file_handle;
  if inode_number fh =? -1 then mret (-1, []) else
  inode ← ssufs_readInode (inode_number fh);
  if file_size inode <? nbytes then mret (-1, []) else
  if BLOCKSIZE * nblock_in_use inode - offset fh <? nbytes then mret (-1, []) else
  read_loop (Z.to_nat nbytes) file_handle inode nbytes 0 [].

Definition clean_block : list Z := replicate (Z.to_nat BLOCKSIZE) 0.

(** The block of the file at [block], allocated and cleared when the inode has
    none; [None] when the disk is full. *)
Definition get_block (inode : inode_t) (block : Z) : M fs_t (option (Z * inode_t)) :=
  blocknum ← from_option "direct_blocks out of bounds" (nthZ (direct_blocks inode) block);
  if blocknum =? -1 then
    b ← ssufs_allocDataBlock;
    if b =? -1 then mret None else
    bl ← from_option "direct_blocks out of bounds" (setZ (direct_blocks inode) block b);
    ssufs_writeDataBlock b clean_block;;
    mret (Some (b, mk_inode (status inode) (name inode) (file_size inode + BLOCKSIZE) bl))
  else mret (Some (blocknum, inode)).

(** The [for] loop of [ssufs_write]; [None] is the early [return -1]. *)
Fixpoint write_loop (fuel : nat) (h : Z) (inode : inode_t) (buf : list Z) (nbytes write : Z)
  : M fs_t (option inode_t) :=
  if write <? nbytes then
    match fuel with
    | O => out_of_fuel
    | S fuel' =>
        fh ← get_handle h;
        let block := offset fh / BLOCKSIZE in
        let off := offset fh mod BLOCKSIZE in
        let jump := BLOCKSIZE - off in
        r ← get_block inode block;
        match r with
        | None => mret None
        | Some (blocknum, inode) =>
            tmp ← ssufs_readDataBlock blocknum;
            let jump := if jump >? nbytes - write then nbytes - write else jump in
            assertb "buf out of bounds" (write + jump <=? Z.of_nat (length buf));;
            ssufs_writeDataBlock blocknum
              (splice (Z.to_nat off) (slice (Z.to_nat write) (Z.to_nat jump) buf) tmp);;
            set_handle h (mk_fh (offset fh + jump) (inode_number fh));;
            write_loop fuel' h inode buf nbytes (write + jump)
        end
    end
  else mret (Some inode).

Definition ssufs_write (file_handle : Z) (buf : list Z) (nbytes : Z) : M fs_t Z :=
  fh ← get_handle file_handle;
  if inode_number fh =? -1 then mret (-1) else
  inode ← ssufs_readInode (inode_number fh);
  if BLOCKSIZE * 4 - offset fh <? nbytes then mret (-1) else
  r ← write_loop (Z.to_nat nbytes) file_handle inode buf nbytes 0;
  match r with
  | None => mret (-1)
  | Some inode => ssufs_writeInode (inode_number fh) inode;; mret 0
  end.
End ops.
