(* ===== verification/SsufsSpec.v ===== *)
(** * SsufsSpec: what ssufs promises, and that ssufs-ops.c implements it

    The invariant [alloc_ok] ties an inode table to the free list of the disk:
    every block a file uses is in range, marked used and used once.  The
    abstract content of a file is the 256-byte string [data]: the bytes of its
    blocks, zeros where no block is allocated.  [ssufs_write] is then a
    [splice] of that string and [ssufs_read] a [slice] of it. *)

From Stdlib Require Import ZArith Lia.
From stdpp Require Import base numbers strings option list.
From S2P Require Import Prelude SsufsDisk SsufsOps.

(** ** Generic lemmas on tables of lists *)
Section tables.
Context {A B : Type}.

Lemma NoDup_concat_unique (g : A -> list B) (T : list A) i j x y b :
  NoDup (concat (map g T)) -> T !! i = Some x -> T !! j = Some y ->
  b ∈ g x -> b ∈ g y -> i = j.
Proof.
  revert i j. induction T as [| t T IH]; intros i j Hnd Hi Hj Hx Hy; [done |].
  cbn in Hnd. apply NoDup_app in Hnd as (_ & Hdis & Hnd).
  assert (Hin : forall k z, T !! k = Some z -> b ∈ g z -> b ∈ concat (map g T)).
  { intros k z Hk Hz. apply list_elem_of_In, in_concat. exists (g z).
    rewrite <- !list_elem_of_In. split; [| done].
    apply list_elem_of_fmap_2. by eapply list_elem_of_lookup_2. }
  destruct i, j; simpl in *; simplify_eq.
  - done.
  - by destruct (Hdis b Hx); eauto.
  - by destruct (Hdis b Hy); eauto.
  - f_equal. by eapply IH.
Qed.

Lemma NoDup_filter_unique `{EqDecision A} (P : A -> Prop) `{forall x, Decision (P x)}
    (l : list A) i j x :
  NoDup (filter P l) -> P x -> l !! i = Some x -> l !! j = Some x -> i = j.
Proof.
  revert i j. induction l as [| a l IH]; intros i j Hnd HP Hi Hj; [done |].
  assert (Hin : forall k, l !! k = Some x -> x ∈ filter P l).
  { intros k Hk. apply list_elem_of_filter. split; [done |]. by eapply list_elem_of_lookup_2. }
  rewrite filter_cons in Hnd.
  destruct i, j; simpl in *; simplify_eq; try done.
  - rewrite decide_True in Hnd by done. apply NoDup_cons in Hnd as [[] _]; eauto.
  - rewrite decide_True in Hnd by done. apply NoDup_cons in Hnd as [[] _]; eauto.
  - f_equal. eapply IH; [| done..]. destruct (decide (P a)); [| done].
    by apply NoDup_cons in Hnd as [_ ?].
Qed.

Lemma filter_insert_fresh (P : A -> Prop) `{forall x, Decision (P x)} (l : list A) i x y :
  l !! i = Some x -> ~ P x -> P y -> filter P (<[i := y]> l) ≡ₚ y :: filter P l.
Proof.
  intros Hi Hx Hy. rewrite <- (take_drop_middle l i x Hi) at 2.
  rewrite insert_take_drop by by eapply lookup_lt_Some.
  rewrite !filter_app, !filter_cons, decide_True, decide_False by done.
  apply Permutation_sym, Permutation_middle.
Qed.

Lemma concat_map_insert (g : A -> list B) (T : list A) n x x' bs :
  T !! n = Some x -> g x' ≡ₚ bs ++ g x ->
  concat (map g (<[n := x']> T)) ≡ₚ bs ++ concat (map g T).
Proof.
  intros Hn Hp. rewrite <- (take_drop_middle T n x Hn) at 2.
  rewrite insert_take_drop by by eapply lookup_lt_Some.
  rewrite !map_app, !concat_app. cbn [map concat]. rewrite Hp. solve_Permutation.
Qed.
End tables.

(** ** The allocation invariant *)
Definition blocks_of (ino : inode_t) : list Z := filter (fun b => b <> -1) (direct_blocks ino).
Definition blocks (T : list inode_t) : list Z := concat (map blocks_of T).

Definition block_ok (d : list Z) (b : Z) : Prop :=
  0 <= b < 30 /\ datablock_freelist (disk_sb d) !! Z.to_nat b = Some DATA_BLOCK_USED /\
  (block_off (Z.to_nat b) + 64 <= length d)%nat.

Record alloc_ok (T : list inode_t) (d : list Z) : Prop := {
  ao_len : (320 <= length d)%nat;
  ao_table : length T = 8%nat;
  ao_wf : Forall inode_wf T;
  ao_size : Forall (fun ino => file_size ino = BLOCKSIZE * nblock_in_use ino) T;
  ao_nodup : NoDup (blocks T);
  ao_blocks : Forall (block_ok d) (blocks T)
}.

(** The inode table as the disk holds it. *)
Definition table (d : list Z) : list inode_t := map (disk_inode d) (seq 0 8).
Definition fs_inv (s : fs_t) : Prop := alloc_ok (table (disk s)) (disk s).

(** No data block is free. *)
Definition disk_full (d : list Z) : Prop :=
  forall f, f ∈ datablock_freelist (disk_sb d) -> f <> DATA_BLOCK_FREE.

(** The number of free data blocks. *)
Definition nfree (d : list Z) : nat :=
  length (filter (fun f => f = DATA_BLOCK_FREE) (datablock_freelist (disk_sb d))).

(** The content of a file: four blocks, zeros where none is allocated. *)
Definition block_data (d : list Z) (b : Z) : list Z :=
  if b =? -1 then clean_block else disk_block d (Z.to_nat b).
Definition data (d : list Z) (ino : inode_t) : list Z :=
  concat (map (block_data d) (direct_blocks ino)).

Lemma table_lookup d i : (i < 8)%nat -> table d !! i = Some (disk_inode d i).
Proof. intros. unfold table. rewrite list_lookup_fmap, lookup_seq_lt by lia. done. Qed.

Lemma blocks_elem T i ino b :
  T !! i = Some ino -> b ∈ blocks_of ino -> b ∈ blocks T.
Proof.
  intros Hi Hb. apply list_elem_of_In, in_concat. exists (blocks_of ino).
  rewrite <- !list_elem_of_In. split; [| done].
  apply list_elem_of_fmap_2. by eapply list_elem_of_lookup_2.
Qed.

Section alloc_ok_lemmas.
Context (T : list inode_t) (d : list Z) (H : alloc_ok T d).

Lemma alloc_ok_inode n ino : T !! n = Some ino -> inode_wf ino.
Proof. intros Hn. by eapply (Forall_lookup_1 _ _ _ _ (ao_wf _ _ H)). Qed.

Lemma alloc_ok_block n ino k b :
  T !! n = Some ino -> direct_blocks ino !! k = Some b -> b <> -1 ->
  b ∈ blocks_of ino /\ block_ok d b.
Proof.
  intros Hn Hk Hb.
  assert (Hin : b ∈ blocks_of ino)
    by (apply list_elem_of_filter; split; [done |]; by eapply list_elem_of_lookup_2).
  split; [done |].
  eapply Forall_forall; [apply (ao_blocks _ _ H) |]. by eapply blocks_elem.
Qed.

Lemma alloc_ok_unique n ino k m ino' k' b :
  T !! n = Some ino -> direct_blocks ino !! k = Some b ->
  T !! m = Some ino' -> direct_blocks ino' !! k' = Some b -> b <> -1 -> n = m /\ k = k'.
Proof.
  intros Hn Hk Hm Hk' Hb.
  destruct (alloc_ok_block n ino k b) as [Hi _]; [done.. |].
  destruct (alloc_ok_block m ino' k' b) as [Hi' _]; [done.. |].
  assert (n = m) as <- by by eapply (NoDup_concat_unique blocks_of T n m); first apply (ao_nodup _ _ H).
  simplify_eq. split; [done |].
  eapply (NoDup_filter_unique (fun z => z <> -1) (direct_blocks ino)); [| exact Hb | done | done].
  pose proof (ao_nodup _ _ H) as Hnd. unfold blocks in Hnd.
  rewrite <- (take_drop_middle T n ino Hn) in Hnd.
  rewrite map_app, concat_app in Hnd. cbn [map concat] in Hnd.
  apply NoDup_app in Hnd as (_ & _ & Hnd). by apply NoDup_app in Hnd as (Hnd & _ & _).
Qed.
End alloc_ok_lemmas.

(** A disk that keeps every used block used and does not shrink keeps the
    invariant. *)
Lemma alloc_ok_mono T d d' :
  (length d <= length d')%nat ->
  (forall i, datablock_freelist (disk_sb d) !! i = Some DATA_BLOCK_USED ->
             datablock_freelist (disk_sb d') !! i = Some DATA_BLOCK_USED) ->
  alloc_ok T d -> alloc_ok T d'.
Proof.
  intros Hl Hf [H1 H2 H3 H4 H5 H6]. split; [lia | done.. |].
  eapply Forall_impl; [exact H6 |]. intros b (Hb & Hu & Ho).
  split_and!; [lia.. | by apply Hf | lia].
Qed.

Lemma data_ext d d' ino :
  (forall b, b ∈ direct_blocks ino -> b <> -1 ->
     disk_block d' (Z.to_nat b) = disk_block d (Z.to_nat b)) ->
  data d' ino = data d ino.
Proof.
  intros Hb. unfold data. f_equal. apply map_ext_in. intros b Hin.
  unfold block_data. bool_cases; [done |]. apply Hb; [by apply list_elem_of_In | done].
Qed.

Lemma block_data_length T d n ino :
  alloc_ok T d -> T !! n = Some ino ->
  Forall (fun x => length x = 64%nat) (map (block_data d) (direct_blocks ino)).
Proof.
  intros H Hn. apply Forall_fmap, Forall_forall. intros b Hb. unfold block_data; cbn.
  bool_cases; [done |]. apply list_elem_of_lookup in Hb as [k Hk].
  destruct (alloc_ok_block T d H n ino k b) as [_ (_ & _ & Ho)]; [done.. |].
  by apply length_slice.
Qed.

(** Writing one block of file [n] changes that file only, in place. *)
Lemma put_block_data T d n ino k b (off : nat) xs :
  alloc_ok T d -> T !! n = Some ino -> direct_blocks ino !! k = Some b -> b <> -1 ->
  (off + length xs <= 64)%nat ->
  let d' := put_block (Z.to_nat b) (splice off xs (disk_block d (Z.to_nat b))) d in
  length d' = length d /\
  data d' ino = splice (k * 64 + off) xs (data d ino) /\
  forall m ino', m <> n -> T !! m = Some ino' -> data d' ino' = data d ino'.
Proof.
  intros H Hn Hk Hb Hx d'.
  destruct (alloc_ok_block T d H n ino k b) as [_ (Hr & Hu & Ho)]; [done.. |].
  assert (Hl : length (splice off xs (disk_block d (Z.to_nat b))) = 64%nat)
    by (unfold disk_block; rewrite length_splice; rewrite length_slice by done; lia).
  assert (Hother : forall m ino' k' b', (m <> n \/ k' <> k) -> T !! m = Some ino' ->
    direct_blocks ino' !! k' = Some b' -> b' <> -1 ->
    disk_block d' (Z.to_nat b') = disk_block d (Z.to_nat b')).
  { intros m ino' k' b' Hne Hm Hk' Hb'.
    destruct (alloc_ok_block T d H m ino' k' b') as [_ (Hr' & _ & Ho')]; [done.. |].
    apply disk_block_put_block_ne; [done | | done].
    intros E. apply Z2Nat.inj in E as <-; [| lia..].
    destruct (alloc_ok_unique T d H n ino k m ino' k' b) as [-> ->]; [done.. |].
    by destruct Hne. }
  split_and!.
  - unfold d'. rewrite length_put_block by done. lia.
  - unfold data at 2. rewrite (splice_concat k 64 off xs _ (disk_block d (Z.to_nat b)));
      [| by eapply block_data_length | | done].
    2:{ rewrite list_lookup_fmap, Hk. cbn. unfold block_data. by bool_cases. }
    unfold data. f_equal. apply list_eq. intros j. destruct (decide (j = k)) as [-> |].
    + rewrite list_lookup_insert_eq by (rewrite length_map; by eapply lookup_lt_Some).
      rewrite list_lookup_fmap, Hk. cbn. unfold block_data. bool_cases; [done |].
      unfold d'. by rewrite disk_block_put_block.
    + rewrite list_lookup_insert_ne by done. rewrite !list_lookup_fmap.
      destruct (direct_blocks ino !! j) as [c |] eqn:Hj; cbn; [| done]. f_equal.
      unfold block_data. bool_cases; [done |]. by eapply (Hother n ino j); auto.
  - intros m ino' Hm Hi. apply data_ext. intros c Hc Hc1.
    apply list_elem_of_lookup in Hc as [j Hj]. by eapply (Hother m ino' j); auto.
Qed.

Lemma put_block_sb b bs d : (320 <= length d)%nat -> disk_sb (put_block b bs d) = disk_sb d.
Proof. intros. apply disk_sb_put_block. lia. Qed.

(** Index [k] of the file has a block; index [k] holds a byte of the range
    of [len] bytes from [o]. *)
Definition has_block (ino : inode_t) (k : nat) : Prop :=
  exists b, direct_blocks ino !! k = Some b /\ b <> -1.
Definition touches (o len k : nat) : Prop := exists p, (o <= p < o + len)%nat /\ (p / 64)%nat = k.

(** The blocks of the file are where they were. *)
Definition keeps_blocks (ino ino' : inode_t) : Prop :=
  forall k b, direct_blocks ino !! k = Some b -> b <> -1 -> direct_blocks ino' !! k = Some b.

Lemma disk_full_nfree d : disk_full d -> nfree d = 0%nat.
Proof.
  unfold disk_full, nfree. generalize (datablock_freelist (disk_sb d)). intros l H. induction l as [| f l IH]; [done |].
  rewrite filter_cons, decide_False by (apply H; left). apply IH. intros g Hg. apply H. by right.
Qed.

Section alloc.
Context {G : Garbage}.

(** Marking block [b] of the free list. *)
Definition mark (b : nat) (f : Z) (sb : superblock_t) : superblock_t :=
  mk_sb (sb_name sb) (inode_freelist sb) (<[b := f]> (datablock_freelist sb)).

Lemma mark_wf b f sb : sb_wf sb -> sb_wf (mark b f sb).
Proof. intros (? & ? & ?). split_and!; cbn; [done.. |]. by rewrite length_insert. Qed.

Lemma allocDataBlock_ok s :
  (64 <= length (disk s))%nat ->
  (ssufs_allocDataBlock s = Ret (-1) s /\ disk_full (disk s)) \/
  exists b, (b < 30)%nat /\ datablock_freelist (disk_sb (disk s)) !! b = Some DATA_BLOCK_FREE /\
    ssufs_allocDataBlock s =
      Ret (Z.of_nat b) (with_disk s (put_sb (mark b DATA_BLOCK_USED (disk_sb (disk s))) (disk s))).
Proof.
  intros Hl. unfold ssufs_allocDataBlock.
  erewrite bind_ret by (by apply readSuperBlock_eq).
  destruct (find_index _ _) as [b |] eqn:E.
  - right. exists b. pose proof (find_index_lt _ _ _ E) as Hlt.
    destruct (disk_sb_wf _ Hl) as (_ & _ & H30). rewrite H30 in Hlt.
    apply find_index_Some in E as [(x & Hx & Hp) _]. apply Z.eqb_eq in Hp as ->.
    split_and!; [done.. |]. erewrite bind_ret by apply writeSuperBlock_eq. done.
  - left. split; [done |]. intros f Hf ->. rewrite find_index_None in E.
    by specialize (E _ Hf).
Qed.

Definition used_mono (d d' : list Z) : Prop :=
  (length d <= length d')%nat /\
  forall i, datablock_freelist (disk_sb d) !! i = Some DATA_BLOCK_USED ->
            datablock_freelist (disk_sb d') !! i = Some DATA_BLOCK_USED.

Lemma nthZ_nat {A : Type} (l : list A) (i : nat) : nthZ l (Z.of_nat i) = l !! i.
Proof. unfold nthZ. rewrite (proj2 (Z.ltb_ge _ _)) by lia. by rewrite Nat2Z.id. Qed.

Lemma setZ_nat {A : Type} (l : list A) (i : nat) x :
  (i < length l)%nat -> setZ l (Z.of_nat i) x = Some (<[i := x]> l).
Proof.
  intros. unfold setZ. rewrite (proj2 (Z.leb_le _ _)), (proj2 (Z.ltb_lt _ _)) by lia.
  by rewrite Nat2Z.id.
Qed.

(** The inode after block [b] is entered at index [k]. *)
Definition add_block (ino : inode_t) (k b : nat) : inode_t :=
  mk_inode (status ino) (name ino) (file_size ino + BLOCKSIZE)
    (<[k := Z.of_nat b]> (direct_blocks ino)).

(** The disk after a free block [b] is marked used and cleared. *)
Definition claim_block (b : nat) (d : list Z) : list Z :=
  put_block b clean_block (put_sb (mark b DATA_BLOCK_USED (disk_sb d)) d).

Section claim.
Context (d : list Z) (b : nat).
Context (Hd : (320 <= length d)%nat) (Hb : (b < 30)%nat).
Context (Hfree : datablock_freelist (disk_sb d) !! b = Some DATA_BLOCK_FREE).

Lemma claim_sb_wf : sb_wf (mark b DATA_BLOCK_USED (disk_sb d)).
Proof. apply mark_wf, disk_sb_wf. lia. Qed.

Lemma claim_length : length (claim_block b d) = (length d `max` (block_off b + 64))%nat.
Proof.
  unfold claim_block. rewrite length_put_block by done.
  by rewrite length_put_sb by (try apply claim_sb_wf; lia).
Qed.

Lemma claim_sb : disk_sb (claim_block b d) = mark b DATA_BLOCK_USED (disk_sb d).
Proof.
  pose proof claim_sb_wf. unfold claim_block. rewrite disk_sb_put_block.
  - by apply disk_sb_put_sb.
  - rewrite length_put_sb by (done || lia). lia.
Qed.

Lemma claim_inode i : (i < 8)%nat -> disk_inode (claim_block b d) i = disk_inode d i.
Proof.
  intros. pose proof claim_sb_wf. unfold claim_block.
  rewrite disk_inode_put_block by (try rewrite length_put_sb by (done || lia); lia).
  apply disk_inode_put_sb; [done |]. unfold inode_off. lia.
Qed.

Lemma claim_new : disk_block (claim_block b d) b = clean_block.
Proof. by apply disk_block_put_block. Qed.

Lemma claim_old c :
  c <> b -> (block_off c + 64 <= length d)%nat ->
  disk_block (claim_block b d) c = disk_block d c.
Proof.
  intros. pose proof claim_sb_wf. unfold claim_block.
  rewrite disk_block_put_block_ne by (try rewrite length_put_sb by (done || lia); done || lia).
  by apply disk_block_put_sb.
Qed.

Lemma claim_mono : used_mono d (claim_block b d).
Proof.
  split; [rewrite claim_length; lia |]. intros i Hi. rewrite claim_sb. cbn.
  destruct (decide (i = b)) as [-> |]; [| by rewrite list_lookup_insert_ne].
  apply list_lookup_insert_eq. by eapply lookup_lt_Some.
Qed.

Lemma claim_nfree : nfree d = S (nfree (claim_block b d)).
Proof.
  unfold nfree. rewrite claim_sb. cbn [mark datablock_freelist].
  rewrite <- (take_drop_middle _ b _ Hfree) at 1. rewrite insert_take_drop by by eapply lookup_lt_Some.
  rewrite !filter_app, !filter_cons, decide_True, decide_False by done. rewrite !length_app. cbn. lia.
Qed.
End claim.

Lemma nblock_in_use_le T d n ino :
  alloc_ok T d -> T !! n = Some ino -> nblock_in_use ino <= 4.
Proof.
  intros H Hn. destruct (alloc_ok_inode T d H n ino Hn) as (_ & _ & _ & H4 & _).
  unfold nblock_in_use. pose proof (length_filter (fun z => z <> -1) (direct_blocks ino)). lia.
Qed.

Section claim_file.
Context (T : list inode_t) (d : list Z) (n : nat) (ino : inode_t) (k b : nat).
Context (H : alloc_ok T d) (Hn : T !! n = Some ino).
Context (Hk : direct_blocks ino !! k = Some (-1)) (Hb : (b < 30)%nat).
Context (Hfree : datablock_freelist (disk_sb d) !! b = Some DATA_BLOCK_FREE).

Lemma claim_not_used : Z.of_nat b ∉ blocks T.
Proof.
  intros Hin. destruct (proj1 (Forall_forall _ _) (ao_blocks _ _ H) _ Hin) as (_ & Hu & _).
  rewrite Nat2Z.id, Hfree in Hu. done.
Qed.

Lemma add_block_blocks : blocks_of (add_block ino k b) ≡ₚ [Z.of_nat b] ++ blocks_of ino.
Proof. apply (filter_insert_fresh _ _ _ (-1)); [done | lia..]. Qed.

Lemma add_block_count : nblock_in_use (add_block ino k b) = nblock_in_use ino + 1.
Proof.
  unfold nblock_in_use. fold (blocks_of ino) (blocks_of (add_block ino k b)).
  rewrite (Permutation_length add_block_blocks), length_app. cbn. lia.
Qed.

Lemma add_block_wf : inode_wf (add_block ino k b).
Proof.
  pose proof (nblock_in_use_le _ _ _ _ H Hn) as Hle.
  pose proof (Forall_lookup_1 _ _ _ _ (ao_size _ _ H) Hn) as Hsz. cbn in Hsz.
  destruct (alloc_ok_inode T d H n ino Hn) as (H1 & H2 & H3 & H4 & H5).
  split_and!; cbn; [done.. | | by rewrite length_insert |].
  - unfold is_s32, nblock_in_use, BLOCKSIZE in *. lia.
  - apply Forall_insert; [done |]. unfold is_s32. lia.
Qed.

Lemma claim_alloc_ok : alloc_ok (<[n := add_block ino k b]> T) (claim_block b d).
Proof.
  pose proof (ao_len _ _ H) as Hl. pose proof (claim_mono d b Hl Hb) as [Hm1 Hm2].
  assert (Hp : blocks (<[n := add_block ino k b]> T) ≡ₚ [Z.of_nat b] ++ blocks T)
    by (apply concat_map_insert with ino; [done | apply add_block_blocks]).
  destruct (alloc_ok_mono _ _ _ Hm1 Hm2 H) as [A1 A2 A3 A4 A5 A6].
  split; [done | by rewrite length_insert | | | |].
  - apply Forall_insert; [done | apply add_block_wf].
  - apply Forall_insert; [done |]. rewrite add_block_count. cbn.
    rewrite (Forall_lookup_1 _ _ _ _ A4 Hn). unfold BLOCKSIZE. lia.
  - rewrite Hp. apply NoDup_cons. split; [apply claim_not_used | done].
  - rewrite Hp. apply Forall_cons. split; [| done].
    unfold block_ok. rewrite Nat2Z.id, claim_sb, claim_length by done. cbn.
    split_and!; [lia.. | | lia]. apply list_lookup_insert_eq. by eapply lookup_lt_Some.
Qed.

Lemma claim_data_old ino' m : T !! m = Some ino' -> data (claim_block b d) ino' = data d ino'.
Proof.
  intros Hm. apply data_ext. intros c Hc Hc1. apply list_elem_of_lookup in Hc as [j Hj].
  destruct (alloc_ok_block T d H m ino' j c) as [Hi (Hr & _ & Ho)]; [done.. |].
  apply claim_old; [apply (ao_len _ _ H) | done | | done].
  intros E. apply claim_not_used. rewrite <- E, Z2Nat.id by lia. by eapply blocks_elem.
Qed.

Lemma claim_data_new : data (claim_block b d) (add_block ino k b) = data d ino.
Proof.
  rewrite <- (claim_data_old ino n Hn). unfold data. f_equal. cbn.
  apply list_eq. intros j. rewrite !list_lookup_fmap.
  destruct (decide (j = k)) as [-> |].
  - rewrite list_lookup_insert_eq by by eapply lookup_lt_Some. rewrite Hk. cbn.
    unfold block_data. bool_cases; [lia |]. by rewrite Nat2Z.id, claim_new.
  - by rewrite list_lookup_insert_ne.
Qed.
End claim_file.

(** [get_block] finds or allocates the block at index [k]; the content of
    every file stays as it was. *)
Lemma get_block_ok T s n ino (k : nat) :
  alloc_ok T (disk s) -> T !! n = Some ino -> (k < 4)%nat ->
  (get_block ino (Z.of_nat k) s = Ret None s /\ disk_full (disk s) /\ ~ has_block ino k) \/
  exists b ino' d', get_block ino (Z.of_nat k) s = Ret (Some (b, ino')) (with_disk s d') /\
    Z.of_nat (nfree (disk s)) + nblock_in_use ino = Z.of_nat (nfree d') + nblock_in_use ino' /\
    keeps_blocks ino ino' /\
    alloc_ok (<[n := ino']> T) d' /\ direct_blocks ino' !! k = Some b /\ b <> -1 /\
    data d' ino' = data (disk s) ino /\
    (forall m x, T !! m = Some x -> data d' x = data (disk s) x) /\
    used_mono (disk s) d' /\ (forall i, (i < 8)%nat -> disk_inode d' i = disk_inode (disk s) i) /\
    (forall j, has_block ino' j <-> has_block ino j \/ j = k).
Proof.
  intros H Hn Hk. destruct (alloc_ok_inode _ _ H n ino Hn) as (_ & _ & _ & H4 & _).
  destruct (lookup_lt_is_Some_2 (direct_blocks ino) k) as [b Hb]; [lia |].
  unfold get_block. rewrite nthZ_nat, Hb. cbn [from_option]. mrun.
  destruct (Z.eqb_spec b (-1)) as [-> | Hne].
  2:{ right. exists b, ino, (disk s). rewrite list_insert_id by done.
      split_and!; try done; [by destruct s | by intros ? |]. intros j. split; [by left |].
      intros [? | ->]; [done | by exists b]. }
  pose proof (ao_len _ _ H) as Hl.
  destruct (allocDataBlock_ok s ltac:(lia)) as [[E Hfull] | (b & Hb30 & Hfree & E)].
  { left. mrun. split_and!; [done.. |]. intros (x & Hx & Hxn). by simplify_eq. }
  right. exists (Z.of_nat b), (add_block ino k b), (claim_block b (disk s)).
  split_and!.
  - mrun. rewrite (proj2 (Z.eqb_neq _ _)) by lia. rewrite setZ_nat by lia. cbn [from_option]. mrun.
    erewrite bind_ret by by apply writeDataBlock_eq. done.
  - rewrite (claim_nfree (disk s) b), add_block_count by done. lia.
  - intros j c Hj Hc. cbn. rewrite list_lookup_insert_ne; [done |]. intros ->. by simplify_eq.
  - by eapply claim_alloc_ok.
  - apply list_lookup_insert_eq. lia.
  - lia.
  - by eapply claim_data_new.
  - intros. by eapply claim_data_old.
  - by apply claim_mono.
  - intros. by apply claim_inode.
  - intros j. unfold has_block. cbn [add_block direct_blocks].
    destruct (decide (j = k)) as [-> | Hjk].
    2:{ rewrite list_lookup_insert_ne by done. split; [by left | by intros [? | ->]]. }
    rewrite list_lookup_insert_eq by lia. split; [by right |]. intros _. eexists. split; [done | lia].
Qed.
End alloc.

(** ** [ssufs_write] *)
Definition with_handle (s : fs_t) (h : nat) (fh : filehandle_t) : fs_t :=
  mk_fs (disk s) (<[h := fh]> (file_handle_array s)).

Lemma get_handle_eq s (h : nat) fh :
  file_handle_array s !! h = Some fh -> get_handle (Z.of_nat h) s = Ret fh s.
Proof. intros E. unfold get_handle. mrun. by rewrite nthZ_nat, E. Qed.

Lemma set_handle_eq s (h : nat) fh :
  (h < length (file_handle_array s))%nat ->
  set_handle (Z.of_nat h) fh s = Ret tt (with_handle s h fh).
Proof. intros E. unfold set_handle. mrun. rewrite setZ_nat by done. done. Qed.

Lemma with_handle_twice s h fh1 fh2 :
  with_handle (with_handle s h fh1) h fh2 = with_handle s h fh2.
Proof. unfold with_handle. cbn. by rewrite list_insert_insert_eq. Qed.

Lemma used_mono_trans d1 d2 d3 : used_mono d1 d2 -> used_mono d2 d3 -> used_mono d1 d3.
Proof. intros [? ?] [? ?]. split; [lia | auto]. Qed.

Lemma alloc_ok_used_mono T d d' : used_mono d d' -> alloc_ok T d -> alloc_ok T d'.
Proof. intros [? ?]. by apply alloc_ok_mono. Qed.

Section write.
Context {G : Garbage}.

(** What a write of [xs] at [o] through handle [h] leaves: only file [n] and
    the handle change. *)
Record wrote (T : list inode_t) (n : nat) (o : nat) (xs : list Z) (s s' : fs_t)
    (ino ino' : inode_t) : Prop := {
  w_ok : alloc_ok (<[n := ino']> T) (disk s');
  w_data : data (disk s') ino' = splice o xs (data (disk s) ino);
  w_other : forall m x, m <> n -> T !! m = Some x -> data (disk s') x = data (disk s) x;
  w_mono : used_mono (disk s) (disk s');
  w_inodes : forall i, (i < 8)%nat -> disk_inode (disk s') i = disk_inode (disk s) i;
  w_blocks : forall k, has_block ino' k <-> has_block ino k \/ touches o (length xs) k;
  w_free : Z.of_nat (nfree (disk s)) + nblock_in_use ino = Z.of_nat (nfree (disk s')) + nblock_in_use ino';
  w_keep : keeps_blocks ino ino'
}.

Lemma data_length T d n ino : alloc_ok T d -> T !! n = Some ino -> length (data d ino) = 256%nat.
Proof.
  intros H Hn. destruct (alloc_ok_inode _ _ H n ino Hn) as (_ & _ & _ & H4 & _).
  pose proof (block_data_length T d n ino H Hn) as Hf. unfold data.
  destruct (direct_blocks ino) as [| b0 [| b1 [| b2 [| b3 [|]]]]]; try done.
  cbn [map] in *. rewrite !Forall_cons in Hf. destruct Hf as (? & ? & ? & ? & _).
  cbn [concat]. rewrite !length_app. cbn. lia.
Qed.

(** Overwriting part of an allocated block. *)
Lemma put_block_wrote T s n ino (k : nat) b (off : nat) xs :
  alloc_ok T (disk s) -> T !! n = Some ino -> direct_blocks ino !! k = Some b -> b <> -1 ->
  (off + length xs <= 64)%nat ->
  wrote T n (k * 64 + off) xs s
    (with_disk s (put_block (Z.to_nat b) (splice off xs (disk_block (disk s) (Z.to_nat b))) (disk s)))
    ino ino.
Proof.
  intros H Hn Hk Hb Hx.
  destruct (put_block_data T (disk s) n ino k b off xs) as (Hlen & Hd & Ho); [done.. |].
  pose proof (ao_len _ _ H) as Hl.
  assert (Hm : used_mono (disk s)
    (put_block (Z.to_nat b) (splice off xs (disk_block (disk s) (Z.to_nat b))) (disk s))).
  { split; [lia |]. intros i. by rewrite put_block_sb. }
  split; cbn; [| done.. | | | | by intros ?].
  - rewrite list_insert_id by done. by eapply alloc_ok_used_mono.
  - intros. by apply disk_inode_put_block.
  - intros j. split; [by left |]. intros [? | (p & Hp & <-)]; [done |]. exists b.
    replace (p / 64)%nat with k; [done |]. apply Nat.div_unique with (p - k * 64)%nat; lia.
  - unfold nfree. by rewrite put_block_sb.
Qed.

Lemma wrote_trans T n o xs ys s1 s2 s3 i1 i2 i3 :
  alloc_ok T (disk s1) -> T !! n = Some i1 -> (o + length xs + length ys <= 256)%nat ->
  wrote T n o xs s1 s2 i1 i2 ->
  wrote (<[n := i2]> T) n (o + length xs) ys s2 s3 i2 i3 ->
  wrote T n o (xs ++ ys) s1 s3 i1 i3.
Proof.
  intros H Hn Hlen [A1 A2 A3 A4 A5 A6 A7 A8] [B1 B2 B3 B4 B5 B6 B7 B8]. split.
  - by rewrite list_insert_insert_eq in B1.
  - rewrite B2, A2. apply splice_splice. rewrite (data_length T _ n) by done. lia.
  - intros m x Hm Hx. rewrite <- (A3 m x) by done. apply (B3 m); [done |].
    by rewrite list_lookup_insert_ne.
  - by eapply used_mono_trans.
  - intros. rewrite <- A5 by done. auto.
  - intros k. rewrite B6, A6, length_app. unfold touches. split.
    + intros [[? | (p & ? & ?)] | (p & ? & ?)]; [by left | |]; right; exists p; (split; [lia | done]).
    + intros [? | (p & ? & ?)]; [by left; left |].
      destruct (decide (p < o + length xs)%nat); [left |]; right; exists p; (split; [lia | done]).
  - by rewrite A7.
  - intros k b Hk Hb. by apply B8, Hb; first apply A8.
Qed.

Lemma wrote_refl T n o s ino :
  alloc_ok T (disk s) -> T !! n = Some ino -> wrote T n o [] s s ino ino.
Proof.
  intros. split; [by rewrite list_insert_id | by rewrite splice_nil | done | by split | done | | done | by intros ?].
  intros k. split; [by left |]. intros [? | (p & Hp & _)]; [done |]. cbn in Hp. lia.
Qed.

(** The block found or allocated by [get_block], then overwritten in part. *)
Lemma get_block_wrote T s n ino (o : nat) xs :
  alloc_ok T (disk s) -> T !! n = Some ino -> (o < 256)%nat ->
  (0 < length xs)%nat -> (o mod 64 + length xs <= 64)%nat ->
  let k := (o / 64)%nat in
  (get_block ino (Z.of_nat k) s = Ret None s /\ disk_full (disk s) /\ ~ has_block ino k) \/
  exists b ino' d', get_block ino (Z.of_nat k) s = Ret (Some (b, ino')) (with_disk s d') /\
    block_ok d' b /\
    wrote T n o xs s
      (with_disk s (put_block (Z.to_nat b) (splice (o mod 64) xs (disk_block d' (Z.to_nat b))) d'))
      ino ino'.
Proof.
  intros H Hn Ho Hpos Hx k. pose proof (Nat.div_mod o 64 ltac:(lia)) as Hdm. fold k in Hdm.
  destruct (get_block_ok T s n ino k) as [? | Hg]; [done.. | lia | by left |].
  destruct Hg as (b & ino' & d' & E & Hfr & Hkp & Hok & Hb & Hne & Hd & Hoth & Hm & Hi & Hblk).
  assert (Hn1 : <[n := ino']> T !! n = Some ino')
    by (apply list_lookup_insert_eq; by eapply lookup_lt_Some).
  right. exists b, ino', d'. split; [done |]. split.
  { by apply (alloc_ok_block _ _ Hok n ino' k b). }
  destruct (put_block_wrote _ (with_disk s d') n ino' k b (o mod 64) xs Hok Hn1 Hb Hne Hx)
    as [B1 B2 B3 B4 B5 B6 B7 _]. cbn [disk with_disk] in B2, B3, B4, B5, B7.
  replace (k * 64 + o mod 64)%nat with o in B2, B6 by lia.
  split; cbn [disk with_disk].
  - by rewrite list_insert_insert_eq in B1.
  - by rewrite B2, Hd.
  - intros m x Hne' Hx'. rewrite (B3 m) by (done || by rewrite list_lookup_insert_ne). eauto.
  - by eapply used_mono_trans.
  - intros. rewrite B5 by done. auto.
  - intros j. rewrite B6, Hblk. split; [| tauto].
    intros [[? | ->] | ?]; [by left | right | by right]. exists o. split; [lia | done].
  - lia.
  - done.
Qed.

Definition handles_set (s s' : fs_t) (h : nat) (off ino : Z) : Prop :=
  file_handle_array s' = <[h := mk_fh off ino]> (file_handle_array s).

Lemma jump_min (off nb w : nat) :
  (off <= 64)%nat -> (w <= nb)%nat ->
  (if Z.of_nat 64 - Z.of_nat off >? Z.of_nat nb - Z.of_nat w
   then Z.of_nat nb - Z.of_nat w else Z.of_nat 64 - Z.of_nat off) =
  Z.of_nat (Nat.min (64 - off) (nb - w)).
Proof. intros. rewrite Z.gtb_ltb. bool_cases; lia. Qed.

(** One iteration: it stops on a full disk, or it writes [jump] bytes and
    moves the offset past them. *)
Lemma write_step fuel T s n ino (h o nb w : nat) inum buf :
  alloc_ok T (disk s) -> T !! n = Some ino ->
  file_handle_array s !! h = Some (mk_fh (Z.of_nat o) inum) ->
  (w < nb)%nat -> (o + (nb - w) <= 256)%nat -> (nb <= length buf)%nat ->
  (write_loop (S fuel) (Z.of_nat h) ino buf (Z.of_nat nb) (Z.of_nat w) s = Ret None s /\
   disk_full (disk s) /\ ~ has_block ino (o / 64)) \/
  exists jump ino' s', (0 < jump <= nb - w)%nat /\
    wrote T n o (slice w jump buf) s s' ino ino' /\
    handles_set s s' h (Z.of_nat (o + jump)) inum /\
    write_loop (S fuel) (Z.of_nat h) ino buf (Z.of_nat nb) (Z.of_nat w) s =
    write_loop fuel (Z.of_nat h) ino' buf (Z.of_nat nb) (Z.of_nat (w + jump)) s'.
Proof.
  intros H Hn Hh Hw Ho Hbuf.
  pose proof (Nat.mod_upper_bound o 64 ltac:(lia)) as Hmod.
  set (jump := Nat.min (64 - o mod 64) (nb - w)).
  assert (Hls : length (slice w jump buf) = jump) by (apply length_slice; lia).
  cbn [write_loop]. rewrite (proj2 (Z.ltb_lt _ _)) by lia.
  erewrite bind_ret by by apply get_handle_eq. cbn [offset inode_number].
  change BLOCKSIZE with (Z.of_nat 64). rewrite <- Nat2Z.inj_div, <- Nat2Z.inj_mod.
  destruct (get_block_wrote T s n ino o (slice w jump buf)) as [[E Hf] | Hg]; [done.. | lia | lia | lia | |].
  { left. mrun. done. }
  destruct Hg as (b & ino' & d' & E & (Hr & _ & Hoff) & Hwr). right.
  set (s2 := with_disk s _) in Hwr.
  exists jump, ino', (with_handle s2 h (mk_fh (Z.of_nat (o + jump)) inum)).
  split_and!; [lia.. | by destruct Hwr | done |].
  mrun. rewrite <- (Z2Nat.id b) by lia.
  erewrite bind_ret by (apply readDataBlock_eq; [lia | done]).
  cbv beta zeta. rewrite (jump_min (o mod 64) nb w), !Nat2Z.id by lia. fold jump.
  erewrite bind_ret.
  2:{ unfold assertb. rewrite (proj2 (Z.leb_le _ _)) by lia. done. }
  erewrite bind_ret by (apply writeDataBlock_eq; lia).
  rewrite <- Nat2Z.inj_add. erewrite bind_ret.
  2:{ apply set_handle_eq. by eapply lookup_lt_Some. }
  by rewrite <- Nat2Z.inj_add.
Qed.

(** The loop writes the whole range, or stops on a full disk after a prefix. *)
Lemma write_loop_ok fuel T s n ino (h o nb w : nat) inum buf :
  alloc_ok T (disk s) -> T !! n = Some ino ->
  file_handle_array s !! h = Some (mk_fh (Z.of_nat o) inum) ->
  (w <= nb)%nat -> (nb - w <= fuel)%nat -> (o + (nb - w) <= 256)%nat -> (nb <= length buf)%nat ->
  exists r s' ino' j, write_loop fuel (Z.of_nat h) ino buf (Z.of_nat nb) (Z.of_nat w) s = Ret r s' /\
    (j <= nb - w)%nat /\ wrote T n o (slice w j buf) s s' ino ino' /\
    handles_set s s' h (Z.of_nat (o + j)) inum /\
    (r = Some ino' /\ j = (nb - w)%nat \/
     r = None /\ disk_full (disk s') /\ (j < nb - w)%nat /\ ~ has_block ino' ((o + j) / 64)).
Proof.
  revert T s ino o w. induction fuel as [| fuel IH]; intros T s ino o w H Hn Hh Hw Hf Ho Hb.
  all: destruct (decide (w = nb)) as [-> |].
  1,3: exists (Some ino), s, ino, 0%nat; cbn [write_loop];
    rewrite Z.ltb_irrefl, Nat.add_0_r, Nat.sub_diag; split_and!; try done;
    [by apply wrote_refl | by apply eq_sym, list_insert_id | by left].
  { lia. }
  destruct (write_step fuel T s n ino h o nb w inum buf) as [[E Hfull] | Hs]; [done.. | lia | done | done | |].
  { exists None, s, ino, 0%nat. rewrite Nat.add_0_r. destruct Hfull as [Hfull Hnb].
    split_and!; try done; [lia | by apply wrote_refl | by apply eq_sym, list_insert_id |].
    right. split_and!; [done.. | lia | done]. }
  destruct Hs as (jump & ino1 & s1 & Hj & Hwr & Hh1 & E). rewrite E.
  destruct (IH (<[n := ino1]> T) s1 ino1 (o + jump)%nat (w + jump)%nat)
    as (r & s' & ino' & j & E' & Hj' & Hwr' & Hh' & Hr); [| | | lia.. | done |].
  - apply (w_ok _ _ _ _ _ _ _ _ Hwr).
  - apply list_lookup_insert_eq. by eapply lookup_lt_Some.
  - rewrite Hh1. apply list_lookup_insert_eq. by eapply lookup_lt_Some.
  - exists r, s', ino', (jump + j)%nat.
    assert (Hls : length (slice w jump buf) = jump) by (apply length_slice; lia).
    assert (Hls' : length (slice (w + jump) j buf) = j) by (apply length_slice; lia).
    rewrite <- (slice_split w jump (jump + j)) by lia.
    replace (jump + j - jump)%nat with j by lia.
    split_and!; [done | lia | | | ].
    + eapply wrote_trans; [done.. | lia | exact Hwr |]. by rewrite Hls.
    + unfold handles_set in *. rewrite Hh', Hh1, list_insert_insert_eq. do 3 f_equal. lia.
    + destruct Hr as [[-> ->] | (-> & Hfull & Hlt & Hnb)]; [left | right].
      * split; [done | lia].
      * split_and!; [done.. | lia |]. by rewrite Nat.add_assoc.
Qed.
End write.

(** ** The operations on the invariant *)
Definition content (s : fs_t) (i : nat) : list Z := data (disk s) (disk_inode (disk s) i).

Section file_ops.
Context {G : Garbage}.

Lemma fs_inv_inode s i :
  fs_inv s -> (i < 8)%nat ->
  inode_wf (disk_inode (disk s) i) /\
  file_size (disk_inode (disk s) i) = BLOCKSIZE * nblock_in_use (disk_inode (disk s) i) /\
  0 <= file_size (disk_inode (disk s) i) <= 256.
Proof.
  intros H Hi. pose proof (table_lookup (disk s) i Hi) as Ht.
  pose proof (alloc_ok_inode _ _ H _ _ Ht) as Hw.
  pose proof (Forall_lookup_1 _ _ _ _ (ao_size _ _ H) Ht) as Hs. cbn in Hs.
  pose proof (nblock_in_use_le _ _ _ _ H Ht) as Hle.
  split_and!; [done.. | |]; rewrite Hs; unfold BLOCKSIZE, nblock_in_use in *; lia.
Qed.

Lemma table_put_inode d n ino :
  (n < 8)%nat -> (320 <= length d)%nat -> inode_wf ino ->
  table (put_inode n ino d) = <[n := ino]> (table d).
Proof.
  intros Hn Hl Hw. apply list_eq. intros i.
  destruct (decide (i < 8)%nat) as [Hi |].
  2:{ rewrite !lookup_ge_None_2; [done | rewrite length_insert |]; unfold table;
      rewrite length_map, length_seq; lia. }
  rewrite table_lookup by done. destruct (decide (i = n)) as [-> |].
  - rewrite list_lookup_insert_eq by (unfold table; rewrite length_map, length_seq; lia).
    by rewrite disk_inode_put_inode.
  - rewrite list_lookup_insert_ne by done.
    rewrite disk_inode_put_inode_ne by (done || unfold inode_off; lia).
    by rewrite table_lookup.
Qed.

Lemma put_inode_used_mono d n ino :
  (n < 8)%nat -> (320 <= length d)%nat -> inode_wf ino ->
  used_mono d (put_inode n ino d).
Proof.
  intros Hn Hl Hw.
  assert (E : length (put_inode n ino d) = length d)
    by (apply length_put_inode; [done |]; unfold inode_off; lia).
  split; [lia |]. intros i. by rewrite disk_sb_put_inode by lia.
Qed.

Lemma data_put_inode T d n ino x m :
  alloc_ok T d -> (n < 8)%nat -> inode_wf ino -> T !! m = Some x ->
  data (put_inode n ino d) x = data d x.
Proof.
  intros H Hn Hw Hm. apply data_ext. intros b Hb Hne.
  apply list_elem_of_lookup in Hb as [k Hk].
  destruct (alloc_ok_block T d H m x k b) as [_ (_ & _ & Ho)]; [done.. |].
  by apply disk_block_put_inode.
Qed.

Lemma table_ext d d' :
  (forall i, (i < 8)%nat -> disk_inode d' i = disk_inode d i) -> table d' = table d.
Proof.
  intros H. unfold table. apply map_ext_in. intros i Hi%in_seq. apply H. lia.
Qed.

(** *** The blocks a write needs *)
Definition has_blockb (ino : inode_t) (k : nat) : bool :=
  match direct_blocks ino !! k with Some b => negb (b =? -1) | None => false end.
Definition touchesb (o len k : nat) : bool := (0 <? len)%nat && (k * 64 <? o + len)%nat && (o <? k * 64 + 64)%nat.

Lemma has_blockb_ok ino k : has_blockb ino k = true <-> has_block ino k.
Proof.
  unfold has_blockb, has_block. destruct (direct_blocks ino !! k) as [b |].
  - rewrite negb_true_iff, Z.eqb_neq. split; [by exists b |]. intros (? & [= <-] & ?). done.
  - split; [done |]. by intros (? & ? & _).
Qed.

Lemma touchesb_ok o len k : touchesb o len k = true <-> touches o len k.
Proof.
  unfold touchesb, touches. rewrite !andb_true_iff, !Nat.ltb_lt. split.
  - intros [[? ?] ?]. exists (Nat.max o (k * 64)). split; [lia |]. symmetry.
    apply Nat.div_unique with (Nat.max o (k * 64) - k * 64)%nat; lia.
  - intros (p & Hp & <-). pose proof (Nat.div_mod p 64 ltac:(lia)). pose proof (Nat.mod_upper_bound p 64 ltac:(lia)). lia.
Qed.

(** How many blocks the file lacks to hold the [len] bytes at [o]. *)
Definition needed (ino : inode_t) (o len : nat) : nat :=
  sum_list ((fun k => if touchesb o len k && negb (has_blockb ino k) then 1 else 0)%nat <$> seq 0 4).

Lemma nblock_sum ino : length (direct_blocks ino) = 4%nat ->
  nblock_in_use ino = Z.of_nat (sum_list ((fun k => if has_blockb ino k then 1 else 0)%nat <$> seq 0 4)).
Proof.
  intros H4. unfold nblock_in_use, has_blockb.
  destruct (direct_blocks ino) as [| b0 [| b1 [| b2 [| b3 [|]]]]]; try done. f_equal.
  rewrite !filter_cons. cbn [lookup list_lookup fmap list_fmap seq sum_list foldr]. bool_cases; repeat case_decide; done || lia.
Qed.

Lemma needed_count ino ino' o len :
  length (direct_blocks ino) = 4%nat -> length (direct_blocks ino') = 4%nat ->
  (forall k, has_block ino' k <-> has_block ino k \/ touches o len k) ->
  nblock_in_use ino' = nblock_in_use ino + Z.of_nat (needed ino o len).
Proof.
  intros H4 H4' Hb. rewrite !nblock_sum by done. unfold needed.
  assert (Hk : forall k, has_blockb ino' k = has_blockb ino k || touchesb o len k).
  { intros k. apply eq_true_iff_eq. by rewrite orb_true_iff, !has_blockb_ok, touchesb_ok. }
  cbn. rewrite !Hk.
  destruct (has_blockb ino 0), (has_blockb ino 1), (has_blockb ino 2), (has_blockb ino 3),
    (touchesb o len 0), (touchesb o len 1), (touchesb o len 2), (touchesb o len 3); cbn; lia.
Qed.

Lemma needed_mono ino o len len' : (len <= len')%nat -> (needed ino o len <= needed ino o len')%nat.
Proof.
  intros Hl. assert (Hk : forall k, touchesb o len k = true -> touchesb o len' k = true).
  { intros k. rewrite !touchesb_ok. intros (p & ? & ?). exists p. split; [lia | done]. }
  unfold needed. set (f := fun k => _) at 1. set (g := fun k => _).
  assert (Hfg : forall k, (f k <= g k)%nat).
  { intros k. unfold f, g. specialize (Hk k). destruct (touchesb o len k); [rewrite Hk by done |]; cbn; [lia |].
    destruct (_ && _); lia. }
  clearbody f g. cbn. pose proof (Hfg 0%nat). pose proof (Hfg 1%nat). pose proof (Hfg 2%nat). pose proof (Hfg 3%nat). lia.
Qed.

(** One byte more, in a block the file lacks and the bytes before do not reach. *)
Lemma needed_next ino o len : (o + len < 256)%nat ->
  ~ has_block ino ((o + len) / 64) -> ~ touches o len ((o + len) / 64) ->
  needed ino o (S len) = S (needed ino o len).
Proof.
  intros Ho Hb Ht. set (k0 := ((o + len) / 64)%nat) in *.
  assert (Hk0 : (k0 < 4)%nat) by (apply Nat.Div0.div_lt_upper_bound; lia).
  assert (Hk : forall k, touchesb o (S len) k = touchesb o len k || (k =? k0)%nat).
  { intros k. apply eq_true_iff_eq. rewrite orb_true_iff, !touchesb_ok, Nat.eqb_eq. unfold touches. split.
    - intros (p & Hp & <-). destruct (decide (p < o + len)%nat); [left; exists p; split; [lia | done] |].
      right. unfold k0. f_equal. lia.
    - intros [(p & ? & ?) | ->]; [exists p; split; [lia | done] |]. exists (o + len)%nat. split; [lia | done]. }
  rewrite <- has_blockb_ok, not_true_iff_false in Hb. rewrite <- touchesb_ok, not_true_iff_false in Ht.
  unfold needed. cbn [fmap list_fmap seq sum_list]. rewrite !Hk. clearbody k0.
  destruct k0 as [| [| [| [| k0]]]]; [.. | lia]; cbn [Nat.eqb]; rewrite Hb, Ht, ?orb_false_r, ?orb_true_r; cbn; lia.
Qed.

Lemma data_slice T d n ino (k off j : nat) b :
  alloc_ok T d -> T !! n = Some ino -> direct_blocks ino !! k = Some b -> b <> -1 ->
  (off + j <= 64)%nat ->
  slice off j (disk_block d (Z.to_nat b)) = slice (k * 64 + off) j (data d ino).
Proof.
  intros H Hn Hk Hb Hj. symmetry. apply slice_concat; [by eapply block_data_length | | done].
  rewrite list_lookup_fmap, Hk. cbn. unfold block_data. by bool_cases.
Qed.

(** The common part of the two results of [ssufs_write]. *)
Lemma ssufs_write_ok s (h n o nb : nat) buf :
  fs_inv s -> (n < 8)%nat -> (o + nb <= 256)%nat -> (nb <= length buf)%nat ->
  file_handle_array s !! h = Some (mk_fh (Z.of_nat o) (Z.of_nat n)) ->
  exists r s' j, ssufs_write (Z.of_nat h) buf (Z.of_nat nb) s = Ret r s' /\ fs_inv s' /\
    (j <= nb)%nat /\ handles_set s s' h (Z.of_nat (o + j)) (Z.of_nat n) /\
    (forall m, (m < 8)%nat -> m <> n ->
       disk_inode (disk s') m = disk_inode (disk s) m /\ content s' m = content s m) /\
    (r = 0 /\ j = nb /\ content s' n = splice o (take nb buf) (content s n) /\
     (forall k, has_block (disk_inode (disk s') n) k <->
                has_block (disk_inode (disk s) n) k \/ touches o nb k) /\
     nfree (disk s) = (nfree (disk s') + needed (disk_inode (disk s) n) o nb)%nat \/
     r = -1 /\ (j < nb)%nat /\ disk_full (disk s') /\ disk_inode (disk s') n = disk_inode (disk s) n /\
     needed (disk_inode (disk s) n) o j = nfree (disk s) /\
     needed (disk_inode (disk s) n) o (S j) = S (nfree (disk s)) /\
     (forall k, has_block (disk_inode (disk s) n) k ->
        slice (k * 64) 64 (content s' n) = slice (k * 64) 64 (splice o (take j buf) (content s n)))).
Proof.
  intros H Hn Ho Hb Hh. pose proof (table_lookup (disk s) n Hn) as Ht.
  pose proof (ao_len _ _ H) as Hl.
  destruct (write_loop_ok nb (table (disk s)) s n _ h o nb 0 (Z.of_nat n) buf H Ht Hh)
    as (r & s' & ino' & j & E & Hj & Hwr & Hhs & Hr); [lia.. |].
  destruct Hwr as [W1 W2 W3 W4 W5 W6 W7 W8]. pose proof (ao_len _ _ W1) as Hl'.
  assert (Hn' : <[n := ino']> (table (disk s)) !! n = Some ino')
    by (apply list_lookup_insert_eq; rewrite (ao_table _ _ H); lia).
  rewrite length_slice in W6 by lia.
  assert (Hneed : nblock_in_use ino' = nblock_in_use (disk_inode (disk s) n) +
                  Z.of_nat (needed (disk_inode (disk s) n) o j)).
  { apply needed_count; [apply (alloc_ok_inode _ _ H n _ Ht) | apply (alloc_ok_inode _ _ W1 n _ Hn') | done]. }
  assert (Hinv : alloc_ok (table (disk s)) (disk s')) by by eapply alloc_ok_used_mono.
  unfold ssufs_write.
  erewrite bind_ret by by apply get_handle_eq. cbn [offset inode_number].
  rewrite (proj2 (Z.eqb_neq _ _)) by lia.
  erewrite bind_ret by by apply readInode_eq.
  rewrite (proj2 (Z.ltb_ge _ _)) by (unfold BLOCKSIZE; lia).
  rewrite Nat2Z.id. change 0 with (Z.of_nat 0) at 1. erewrite bind_ret by exact E.
  destruct Hr as [[-> ->] | (-> & Hfull & Hlt & Hmiss)].
  - assert (Hw : inode_wf ino').
    { by apply (alloc_ok_inode _ _ W1 n). }
    assert (Htab : table (disk s') = table (disk s)) by by apply table_ext.
    erewrite bind_ret by by apply writeInode_eq.
    do 2 eexists. exists nb. split; [done |]. rewrite Nat.sub_0_r in *. cbn [disk with_disk].
    split_and!.
    + unfold fs_inv. cbn [disk with_disk]. rewrite table_put_inode, Htab by done.
      eapply alloc_ok_used_mono; [by apply put_inode_used_mono | done].
    + lia.
    + done.
    + intros m Hm Hne.
      assert (Em : disk_inode (put_inode n ino' (disk s')) m = disk_inode (disk s) m).
      { rewrite disk_inode_put_inode_ne by (done || unfold inode_off; lia). by apply W5. }
      unfold content. cbn [disk with_disk]. rewrite Em. split; [done |].
      pose proof (table_lookup (disk s) m Hm) as Hmt.
      rewrite (data_put_inode _ _ _ _ _ m Hinv) by done. by apply (W3 m).
    + left. unfold content. cbn [disk with_disk]. rewrite disk_inode_put_inode by done.
      split_and!; [done.. | | done |].
      * rewrite (data_put_inode _ _ _ _ _ n W1) by done. done.
      * unfold nfree in *. rewrite disk_sb_put_inode by lia. lia.
  - do 2 eexists. exists j. split; [done |]. split_and!.
    + unfold fs_inv. by rewrite (table_ext (disk s) (disk s')).
    + lia.
    + done.
    + intros m Hm Hne. rewrite W5 by done. split; [done |]. unfold content. rewrite W5 by done.
      apply (W3 m); [done |]. by apply table_lookup.
    + right. apply disk_full_nfree in Hfull as Hz. rewrite W6 in Hmiss.
      assert (needed (disk_inode (disk s) n) o j = nfree (disk s)) as Hj' by lia.
      split_and!; [done | lia | done | by apply W5 | done | |].
      * rewrite needed_next, Hj' by (tauto || lia). done.
      * intros k (b & Hk & Hne). unfold content. rewrite W5 by done. change (take j buf) with (slice 0 j buf). rewrite <- W2.
        pose proof (data_slice _ _ n _ k 0 64 b Hinv Ht Hk Hne ltac:(lia)) as E1.
        pose proof (data_slice _ _ n _ k 0 64 b W1 Hn' (W8 k b Hk Hne) Hne ltac:(lia)) as E2.
        rewrite Nat.add_0_r in E1, E2. by rewrite <- E1, <- E2.
Qed.

(** [ssufs_lseek] moves the offset within the file, or changes nothing. *)
Lemma ssufs_lseek_ok s (h n : nat) (o j : Z) :
  fs_inv s -> (n < 8)%nat -> file_handle_array s !! h = Some (mk_fh o (Z.of_nat n)) ->
  is_s32 (o + j) ->
  ssufs_lseek (Z.of_nat h) j s =
  if (0 <=? o + j) && (o + j <=? file_size (disk_inode (disk s) n))
  then Ret 0 (with_handle s h (mk_fh (o + j) (Z.of_nat n))) else Ret (-1) s.
Proof.
  intros H Hn Hh Hs. destruct (fs_inv_inode s n H Hn) as (_ & _ & Hsz).
  unfold ssufs_lseek. erewrite bind_ret by by apply get_handle_eq. cbn [offset inode_number].
  erewrite bind_ret by (apply readInode_eq; [done | apply (ao_len _ _ H)]).
  cbv zeta. rewrite s32_small, Z.gtb_ltb by done. rewrite (proj2 (Z.eqb_neq _ (-1))) by lia.
  destruct (Z.ltb_spec (o + j) 0), (Z.leb_spec 0 (o + j)); try lia; cbn [orb andb]; [done |].
  destruct (Z.ltb_spec (file_size (disk_inode (disk s) n)) (o + j)),
    (Z.leb_spec (o + j) (file_size (disk_inode (disk s) n))); try lia; [done |].
  erewrite bind_ret by (apply set_handle_eq; by eapply lookup_lt_Some). done.
Qed.

(** The allocated blocks are those below the file size. *)
Definition contiguous (ino : inode_t) : Prop :=
  forall k, has_block ino k <-> Z.of_nat k * BLOCKSIZE < file_size ino.

(** The loop of [ssufs_read] delivers the bytes of the content in order. *)
Lemma read_loop_ok fuel s (h n o nb r : nat) acc :
  fs_inv s -> (n < 8)%nat ->
  contiguous (disk_inode (disk s) n) ->
  file_handle_array s !! h = Some (mk_fh (Z.of_nat o) (Z.of_nat n)) ->
  (r <= nb)%nat -> (nb - r <= fuel)%nat ->
  Z.of_nat (o + (nb - r)) <= file_size (disk_inode (disk s) n) ->
  read_loop fuel (Z.of_nat h) (disk_inode (disk s) n) (Z.of_nat nb) (Z.of_nat r) acc s =
  Ret (0, acc ++ slice o (nb - r) (content s n))
    (with_handle s h (mk_fh (Z.of_nat (o + (nb - r))) (Z.of_nat n))).
Proof.
  intros H Hn. revert s H o r acc.
  induction fuel as [| fuel IH]; intros s H o r acc Hc Hh Hr Hf Ho;
    pose proof (table_lookup (disk s) n Hn) as Ht;
    destruct (fs_inv_inode s n H Hn) as (_ & _ & Hsz).
  all: destruct (decide (r = nb)) as [-> |].
  1,3: cbn [read_loop]; rewrite Z.ltb_irrefl, Nat.sub_diag, Nat.add_0_r;
    unfold with_handle; rewrite list_insert_id, app_nil_r by done; by destruct s.
  { lia. }
  pose proof (Nat.div_mod o 64 ltac:(lia)) as Hdm.
  pose proof (Nat.mod_upper_bound o 64 ltac:(lia)) as Hmod.
  cbn [read_loop]. rewrite (proj2 (Z.ltb_lt _ _)) by lia.
  erewrite bind_ret by by apply get_handle_eq. cbn [offset inode_number].
  change BLOCKSIZE with (Z.of_nat 64). rewrite <- Nat2Z.inj_div, <- Nat2Z.inj_mod.
  destruct (proj2 (Hc (o / 64)%nat)) as (b & Hb & Hne); [unfold BLOCKSIZE; lia |].
  rewrite nthZ_nat, Hb. cbn [from_option]. mrun.
  destruct (alloc_ok_block _ _ H n _ (o / 64)%nat b Ht Hb Hne) as [_ (Hr30 & _ & Hoff)].
  rewrite <- (Z2Nat.id b) by lia.
  erewrite bind_ret by (apply readDataBlock_eq; [lia | done]).
  cbv zeta. rewrite (jump_min (o mod 64) nb r), !Nat2Z.id by lia.
  set (jump := Nat.min (64 - o mod 64) (nb - r)).
  erewrite bind_ret.
  2:{ rewrite (ssufs_lseek_ok s h n (Z.of_nat o)) by (done || unfold is_s32; lia).
      rewrite (proj2 (Z.leb_le _ _)), (proj2 (Z.leb_le _ _)) by lia. done. }
  cbn [Z.ltb Z.compare]. rewrite <- !Nat2Z.inj_add.
  set (s' := with_handle s h _). change (disk s) with (disk s') at 1.
  rewrite (IH s' H (o + jump)%nat); [| done | | lia | lia |].
  2:{ apply list_lookup_insert_eq. by eapply lookup_lt_Some. }
  2:{ change (disk s') with (disk s). lia. }
  unfold s'. rewrite with_handle_twice.
  replace (o + jump + (nb - (r + jump)))%nat with (o + (nb - r))%nat by lia.
  f_equal. f_equal. rewrite <- (assoc_L (++)). f_equal.
  rewrite (data_slice _ _ n _ _ _ _ b H Ht Hb Hne) by lia.
  replace (o / 64 * 64 + o mod 64)%nat with o by lia.
  change (data (disk s) (disk_inode (disk s) n)) with (content s n).
  change (content (with_handle s h _) n) with (content s n).
  replace (nb - (r + jump))%nat with (nb - r - jump)%nat by lia.
  apply slice_split. lia.
Qed.

(** A file whose allocated blocks are its first [c] has size [64 * c]. *)
Lemma count_prefix ino c :
  length (direct_blocks ino) = 4%nat -> (forall k, has_block ino k <-> (k < c)%nat) ->
  nblock_in_use ino = Z.of_nat c.
Proof.
  intros H4 Hk. unfold nblock_in_use, has_block in *.
  assert (Hd : forall k b, direct_blocks ino !! k = Some b -> (b <> -1 <-> (k < c)%nat)).
  { intros k b Hb. rewrite <- Hk. split; [by exists b |]. intros (b' & ? & ?). by simplify_eq. }
  assert (Hc : (c <= 4)%nat).
  { destruct (decide (c <= 4)%nat); [done |]. destruct (proj2 (Hk 4%nat)) as (b & Hb & _); [lia |].
    apply lookup_lt_Some in Hb. lia. }
  destruct (direct_blocks ino) as [| b0 [| b1 [| b2 [| b3 [|]]]]]; try done.
  pose proof (Hd 0%nat _ eq_refl). pose proof (Hd 1%nat _ eq_refl).
  pose proof (Hd 2%nat _ eq_refl). pose proof (Hd 3%nat _ eq_refl).
  rewrite !filter_cons. repeat case_decide; cbn; lia.
Qed.

(** Writing at an offset within a contiguous file keeps it contiguous and
    makes it long enough. *)
Lemma write_contiguous ino ino' o nb :
  length (direct_blocks ino) = 4%nat -> length (direct_blocks ino') = 4%nat ->
  file_size ino = BLOCKSIZE * nblock_in_use ino ->
  file_size ino' = BLOCKSIZE * nblock_in_use ino' ->
  contiguous ino -> Z.of_nat o <= file_size ino ->
  (forall k, has_block ino' k <-> has_block ino k \/ touches o nb k) ->
  contiguous ino' /\ Z.of_nat (o + nb) <= file_size ino'.
Proof.
  intros H4 H4' Hs Hs' Hc Ho Hk. unfold contiguous, BLOCKSIZE in *.
  set (c := Z.to_nat (nblock_in_use ino)). assert (Ec : nblock_in_use ino = Z.of_nat c)
    by (unfold c, nblock_in_use; lia).
  set (c' := if decide (nb = 0)%nat then c else Nat.max c ((o + nb - 1) / 64 + 1)).
  pose proof (Nat.div_mod (o + nb - 1) 64 ltac:(lia)) as Hdm.
  pose proof (Nat.mod_upper_bound (o + nb - 1) 64 ltac:(lia)) as Hmod.
  assert (Hi : forall k, has_block ino' k <-> (k < c')%nat).
  { intros k. rewrite Hk, Hc, Hs, Ec. unfold touches, c'. split.
    - intros [? | (p & ? & <-)]; case_decide; [lia.. |].
      pose proof (Nat.Div0.div_le_mono p (o + nb - 1) 64 ltac:(lia)). lia.
    - intros Hlt. case_decide; [left; lia |]. destruct (decide (k < c)%nat); [left; lia |]. right.
      exists (Nat.max o (k * 64)). split; [lia |].
      symmetry. apply Nat.div_unique with (Nat.max o (k * 64) - k * 64)%nat; lia. }
  rewrite Hs', (count_prefix ino' c' H4' Hi). split.
  - intros k. rewrite Hi. lia.
  - unfold c'. case_decide; lia.
Qed.

Lemma read_file s (h n o nb : nat) :
  fs_inv s -> (n < 8)%nat -> contiguous (disk_inode (disk s) n) ->
  file_handle_array s !! h = Some (mk_fh (Z.of_nat o) (Z.of_nat n)) ->
  ssufs_read (Z.of_nat h) (Z.of_nat nb) s =
  if decide (Z.of_nat (o + nb) <= file_size (disk_inode (disk s) n))
  then Ret (0, slice o nb (content s n)) (with_handle s h (mk_fh (Z.of_nat (o + nb)) (Z.of_nat n)))
  else Ret (-1, []) s.
Proof.
  intros Hinv Hn Hc Hh.
  destruct (fs_inv_inode s n Hinv Hn) as (_ & Hsz & Hr).
  unfold ssufs_read. erewrite bind_ret by by apply get_handle_eq. cbn [offset inode_number].
  rewrite (proj2 (Z.eqb_neq _ _)) by lia.
  erewrite bind_ret by (apply readInode_eq; [done | apply (ao_len _ _ Hinv)]).
  rewrite <- Hsz. case_decide.
  - rewrite (proj2 (Z.ltb_ge _ _)), (proj2 (Z.ltb_ge _ _)), Nat2Z.id by lia.
    pose proof (read_loop_ok nb s h n o nb 0 []) as E. rewrite Nat.sub_0_r in E.
    apply E; [done.. | lia | lia | done].
  - destruct (Z.ltb_spec (file_size (disk_inode (disk s) n)) (Z.of_nat nb)); [done |].
    by rewrite (proj2 (Z.ltb_lt _ _)) by lia.
Qed.
End file_ops.
