(* ===== verification/Ssufs.v ===== *)
(** * Ssufs: the theorems of the ssufs file system

    Reading, writing and seeking refine operations on byte strings; creation
    is found by name lookup; every operation keeps the allocation invariant.
    The last section shows where ssufs-ops.c departs from what its callers
    expect. *)

From Stdlib Require Import ZArith Lia.
From stdpp Require Import base numbers strings option list.
From S2P Require Import Prelude SsufsDisk SsufsOps SsufsSpec.

(** ** A concrete disk for the witnesses: one open file *)
#[local] Existing Instance zero_garbage.

Definition demo_name : list Z := [97; 98].
Definition state_of {A : Type} (o : outcome fs_t A) : fs_t :=
  match o with Ret _ s => s | _ => mk_fs [] [] end.
Definition demo_format : fs_t := Eval vm_compute in state_of (ssufs_formatDisk (mk_fs [] [])).
Definition demo_create : fs_t := Eval vm_compute in state_of (ssufs_create demo_name demo_format).
Definition demo : fs_t := Eval vm_compute in state_of (ssufs_open demo_name demo_create).

Definition block_okb (d : list Z) (b : Z) : bool :=
  bool_decide (0 <= b < 30) &&
  bool_decide (datablock_freelist (disk_sb d) !! Z.to_nat b = Some DATA_BLOCK_USED) &&
  bool_decide (block_off (Z.to_nat b) + 64 <= length d)%nat.
Definition inode_wfb (i : inode_t) : bool :=
  bool_decide (- 2 ^ 31 <= status i < 2 ^ 31) && bool_decide (length (name i) = 8%nat) &&
  bool_decide (- 2 ^ 31 <= file_size i < 2 ^ 31) && bool_decide (length (direct_blocks i) = 4%nat) &&
  forallb (fun b => bool_decide (- 2 ^ 31 <= b < 2 ^ 31)) (direct_blocks i).
(** The invariant as an executable test. *)
Definition fs_invb (s : fs_t) : bool :=
  bool_decide (320 <= length (disk s))%nat &&
  forallb inode_wfb (table (disk s)) &&
  forallb (fun ino => file_size ino =? BLOCKSIZE * nblock_in_use ino) (table (disk s)) &&
  bool_decide (NoDup (blocks (table (disk s)))) &&
  forallb (block_okb (disk s)) (blocks (table (disk s))).

Lemma forallb_Forall {A : Type} (f : A -> bool) (P : A -> Prop) l :
  (forall x, f x = true -> P x) -> forallb f l = true -> Forall P l.
Proof. intros H. rewrite forallb_forall, Forall_forall. setoid_rewrite list_elem_of_In. auto. Qed.

Lemma fs_invb_ok s : fs_invb s = true -> fs_inv s.
Proof.
  unfold fs_invb. rewrite !andb_true_iff, !bool_decide_eq_true. intros [[[[H1 H2] H3] H4] H5].
  split; [done | done | | | done |].
  - eapply forallb_Forall; [| exact H2]. intros i. unfold inode_wfb.
    rewrite !andb_true_iff, !bool_decide_eq_true. intros [[[[? ?] ?] ?] Hf].
    split_and!; [done.. |]. eapply forallb_Forall; [| exact Hf]. intros b Hb%bool_decide_eq_true. exact Hb.
  - eapply forallb_Forall; [| exact H3]. intros i. by apply Z.eqb_eq.
  - eapply forallb_Forall; [| exact H5]. intros b. unfold block_okb.
    rewrite !andb_true_iff, !bool_decide_eq_true. intros [[? ?] ?].
    split; [done | by split].
Qed.

Definition contiguousb (ino : inode_t) : bool :=
  forallb (fun k => Bool.eqb (has_blockb ino k) (Z.of_nat k * BLOCKSIZE <? file_size ino)) (seq 0 4) &&
  (file_size ino <=? 256) && (length (direct_blocks ino) =? 4)%nat.

Lemma contiguousb_ok ino : contiguousb ino = true -> contiguous ino.
Proof.
  unfold contiguousb. rewrite !andb_true_iff, forallb_forall, Z.leb_le, Nat.eqb_eq.
  intros [[Hk Hs] Hl] k. rewrite <- has_blockb_ok. destruct (decide (k < 4)%nat).
  - specialize (Hk k). rewrite eqb_true_iff in Hk. rewrite Hk, Z.ltb_lt; [done |].
    apply in_seq. lia.
  - unfold has_blockb. rewrite lookup_ge_None_2 by lia. split; [done |].
    unfold BLOCKSIZE. lia.
Qed.

(** Handle [h] is open on inode [n] and stands at offset [o]. *)
Definition open_at (s : fs_t) (h n o : nat) : Prop :=
  file_handle_array s !! h = Some (mk_fh (Z.of_nat o) (Z.of_nat n)).

(** C23. [ssufs_write] of [nb] bytes at offset [o], on a disk that satisfies the
    allocation invariant, always returns.  With less than [nb] bytes of room in
    the 256-byte file it returns -1 and changes nothing.  Otherwise the
    invariant still holds and no other file changes, and
    - when the disk has the blocks the file lacks for these bytes, it returns 0, the
      file's content is the old content with the bytes spliced in at [o], the
      handle stands at [o + nb], and exactly the lacking blocks are taken;
    - when it has not, it returns -1 with the inode as it was, but not without a
      trace: for the largest [j] whose bytes the free blocks could hold, the first
      [j] bytes have been written over the blocks the file had, the handle stands
      at [o + j] and every free block has been taken, for no file. *)
Theorem ssufs_write_refines `{Garbage} (s : fs_t) (h n o nb : nat) (buf : list Z)
  (Hinv : fs_inv s) (Hn : (n < 8)%nat) (Ho : (o <= 256)%nat) (Hbuf : (nb <= length buf)%nat)
  (Hh : open_at s h n o) :
  let ino := disk_inode (disk s) n in
  if decide (256 < o + nb)%nat
  then ssufs_write (Z.of_nat h) buf (Z.of_nat nb) s = Ret (-1) s
  else exists r s' j, ssufs_write (Z.of_nat h) buf (Z.of_nat nb) s = Ret r s' /\ fs_inv s' /\
    (forall m, (m < 8)%nat -> m <> n ->
       disk_inode (disk s') m = disk_inode (disk s) m /\ content s' m = content s m) /\
    handles_set s s' h (Z.of_nat (o + j)) (Z.of_nat n) /\
    if decide (needed ino o nb <= nfree (disk s))%nat
    then r = 0 /\ j = nb /\ content s' n = splice o (take nb buf) (content s n) /\
      nfree (disk s') = (nfree (disk s) - needed ino o nb)%nat
    else r = -1 /\ (j < nb)%nat /\ (needed ino o j <= nfree (disk s) < needed ino o (S j))%nat /\
      disk_inode (disk s') n = ino /\ nfree (disk s') = 0%nat /\
      (forall k, has_block ino k ->
         slice (k * 64) 64 (content s' n) = slice (k * 64) 64 (splice o (take j buf) (content s n))).
Proof.
  intros ino. case_decide as Hfit.
  - unfold ssufs_write. erewrite bind_ret by by apply get_handle_eq. cbn [offset inode_number].
    rewrite (proj2 (Z.eqb_neq _ _)) by lia.
    erewrite bind_ret by (apply readInode_eq; [done | apply (ao_len _ _ Hinv)]).
    rewrite (proj2 (Z.ltb_lt _ _)) by (unfold BLOCKSIZE; lia). done.
  - destruct (ssufs_write_ok s h n o nb buf) as (r & s' & j & E & Hi & _ & Hhs & Hoth & Hr); [done.. | lia | done | done |].
    exists r, s', j. split_and!; [done.. |]. fold ino in Hr.
    destruct Hr as [(-> & -> & Hc & _ & Hf) | (-> & Hj & Hfull & Hino & H1 & H2 & Hc)].
    + rewrite decide_True by lia. split_and!; [done.. | lia].
    + pose proof (needed_mono ino o (S j) nb ltac:(lia)). rewrite decide_False by lia.
      split_and!; [done | lia.. | done | by apply disk_full_nfree | done].
Qed.

Lemma ssufs_write_refines_witness :
  exists s', ssufs_write 0 (replicate 100 7) (Z.of_nat 100) demo = Ret 0 s' /\
    content s' 0 = splice 0 (take 100 (replicate 100 7)) (content demo 0) /\
    handles_set demo s' 0 100 0 /\ nfree (disk s') = 28%nat.
Proof.
  destruct (ssufs_write_refines demo 0 0 0 100 (replicate 100 7)) as (r & s' & j & E & _ & _ & Hh & Hr).
  - apply fs_invb_ok. vm_compute. reflexivity.
  - lia.
  - lia.
  - rewrite length_replicate. lia.
  - vm_compute. reflexivity.
  - rewrite decide_True in Hr by (apply Nat.leb_le; vm_compute; reflexivity).
    destruct Hr as (-> & -> & Hc & Hf). exists s'. split_and!; [exact E | exact Hc | exact Hh |].
    rewrite Hf. vm_compute. reflexivity.
Defined.

(** [ssufs_read] of [nb] bytes through an open handle on a file whose
    allocated blocks are contiguous returns 0 and the [nb] bytes of the content
    at the offset, and advances the offset, when they lie within the file size;
    otherwise it returns -1 and changes nothing. *)
Theorem ssufs_read_refines `{Garbage} (s : fs_t) (h n o nb : nat)
  (Hinv : fs_inv s) (Hn : (n < 8)%nat) (Hc : contiguous (disk_inode (disk s) n))
  (Hh : open_at s h n o) :
  ssufs_read (Z.of_nat h) (Z.of_nat nb) s =
  if decide (Z.of_nat (o + nb) <= file_size (disk_inode (disk s) n))
  then Ret (0, slice o nb (content s n)) (with_handle s h (mk_fh (Z.of_nat (o + nb)) (Z.of_nat n)))
  else Ret (-1, []) s.
Proof.
  by apply read_file.
Qed.

(** The first write of the demonstration file. *)
Definition demo1 : fs_t := Eval vm_compute in
  state_of (ssufs_write 0 (replicate 100 7) 100 demo).


Lemma ssufs_read_refines_witness :
  ssufs_read 0 (Z.of_nat 20) (with_handle demo1 0 (mk_fh 90 0)) =
  Ret (0, replicate 10 7 ++ replicate 10 0) (with_handle demo1 0 (mk_fh 110 0)).
Proof.
  refine (eq_trans (ssufs_read_refines (with_handle demo1 0 (mk_fh 90 0)) 0 0 90 20 _ _ _ _) _).
  - apply fs_invb_ok. vm_compute. reflexivity.
  - lia.
  - apply contiguousb_ok. vm_compute. reflexivity.
  - vm_compute. reflexivity.
  - vm_compute. reflexivity.
Defined.

(** Round trip: what [ssufs_write] stores, [ssufs_lseek] back by the same
    amount and [ssufs_read] return, through the same handle, from any position
    within a contiguous file. *)
Theorem write_seek_read `{Garbage} (s s1 : fs_t) (h n o nb : nat) (buf : list Z)
  (Hinv : fs_inv s) (Hn : (n < 8)%nat) (Hfit : (o + nb <= 256)%nat) (Hbuf : (nb <= length buf)%nat)
  (Hc : contiguous (disk_inode (disk s) n))
  (Ho : Z.of_nat o <= file_size (disk_inode (disk s) n))
  (Hh : open_at s h n o)
  (Hw : ssufs_write (Z.of_nat h) buf (Z.of_nat nb) s = Ret 0 s1) :
  (ssufs_lseek (Z.of_nat h) (- Z.of_nat nb);; ssufs_read (Z.of_nat h) (Z.of_nat nb)) s1 =
  Ret (0, take nb buf) s1.
Proof.
  destruct (ssufs_write_ok s h n o nb buf) as (r & s' & j & E & Hi & _ & Hhs & _ & Hr); [done.. |].
  rewrite Hw in E. simplify_eq. destruct Hr as [(_ & -> & Hct & Hblk & _) | (? & _)]; [| done].
  destruct (fs_inv_inode s n Hinv Hn) as ((_ & _ & _ & H4 & _) & Hsz & _).
  destruct (fs_inv_inode s' n Hi Hn) as ((_ & _ & _ & H4' & _) & Hsz' & Hr').
  destruct (write_contiguous _ _ o nb H4 H4' Hsz Hsz' Hc Ho Hblk) as [Hc' Hlen].
  assert (Hlt : (h < length (file_handle_array s))%nat) by by eapply lookup_lt_Some.
  assert (Hh' : file_handle_array s' !! h = Some (mk_fh (Z.of_nat (o + nb)) (Z.of_nat n)))
    by by rewrite Hhs, list_lookup_insert_eq.
  erewrite bind_ret.
  2:{ rewrite (ssufs_lseek_ok s' h n (Z.of_nat (o + nb))) by (done || unfold is_s32; lia).
      rewrite (proj2 (Z.leb_le _ _)), (proj2 (Z.leb_le _ _)) by lia. done. }
  replace (Z.of_nat (o + nb) + - Z.of_nat nb) with (Z.of_nat o) by lia.
  set (s2 := with_handle s' h (mk_fh (Z.of_nat o) (Z.of_nat n))).
  rewrite (read_file s2 h n o nb); try done.
  - rewrite decide_True by done.
    assert (Ec : content s2 n = splice o (take nb buf) (content s n)) by done.
    rewrite Ec. assert (Ht : length (take nb buf) = nb) by (rewrite length_take; lia).
    rewrite <- Ht at 1. rewrite slice_splice.
    2:{ rewrite Ht. unfold content. rewrite (data_length (table (disk s)) _ n); [lia | done |].
        by apply table_lookup. }
    f_equal. unfold s2. rewrite with_handle_twice. unfold with_handle.
    rewrite list_insert_id by done. by destruct s'.
  - unfold s2. cbn. apply list_lookup_insert_eq. by eapply lookup_lt_Some.
Qed.

Definition demo2 : fs_t := Eval vm_compute in
  state_of (ssufs_write 0 [1; 2; 3; 4; 5] 5 demo1).

Lemma write_seek_read_witness :
  (ssufs_lseek 0 (-5);; ssufs_read 0 5) demo2 = Ret (0, [1; 2; 3; 4; 5]) demo2.
Proof.
  refine (write_seek_read demo1 demo2 0 0 100 5 [1; 2; 3; 4; 5] _ _ _ _ _ _ _ _).
  - apply fs_invb_ok. vm_compute. reflexivity.
  - lia.
  - lia.
  - cbn. lia.
  - apply contiguousb_ok. vm_compute. reflexivity.
  - vm_compute. discriminate.
  - vm_compute. reflexivity.
  - vm_compute. reflexivity.
Defined.

(** ** Name lookup *)
Definition in_use (d : list Z) (i : nat) : bool :=
  match inode_freelist (disk_sb d) !! i with Some f => f =? INODE_IN_USE | None => false end.
Definition name_matches (d : list Z) (fn : list Z) (i : nat) : bool :=
  in_use d i && strcmp_eq (name_memory (disk_inode d i)) fn.

Section lookup.
Context {G : Garbage}.

Lemma namei_loop_ok s fn k i :
  (320 <= length (disk s))%nat -> (i + k = 8)%nat ->
  namei_loop k (Z.of_nat i) (disk_sb (disk s)) fn s =
  Ret (match find_index (name_matches (disk s) fn) (seq i k) with
       | Some j => Z.of_nat (i + j) | None => -1 end) s.
Proof.
  intros Hl. revert i. induction k as [| k IH]; intros i Hik; [done |].
  cbn [namei_loop seq find_index]. rewrite nthZ_nat.
  destruct (disk_sb_wf (disk s)) as (_ & H8 & _); [lia |].
  destruct (lookup_lt_is_Some_2 (inode_freelist (disk_sb (disk s))) i) as [f Hf]; [lia |].
  unfold name_matches at 1, in_use at 1. rewrite Hf. cbn [from_option]. mrun.
  replace (Z.of_nat i + 1) with (Z.of_nat (S i)) by lia.
  assert (Hrec : namei_loop k (Z.of_nat (S i)) (disk_sb (disk s)) fn s =
    Ret (match S <$> find_index (name_matches (disk s) fn) (seq (S i) k) with
         | Some j => Z.of_nat (i + j) | None => -1 end) s).
  { rewrite IH by lia. destruct (find_index _ _); cbn [fmap option_fmap option_map]; [| done].
    do 2 f_equal. lia. }
  destruct (f =? INODE_IN_USE); cbn [andb]; [| done].
  erewrite bind_ret by (apply readInode_eq; [lia | done]).
  destruct (strcmp_eq _ _); [| done]. by rewrite Nat.add_0_r.
Qed.

Lemma open_namei_ok s fn :
  (320 <= length (disk s))%nat -> (length fn <= 8)%nat ->
  open_namei fn s =
  Ret (match find_index (name_matches (disk s) fn) (seq 0 8) with
       | Some j => Z.of_nat j | None => -1 end) s.
Proof.
  intros Hl Hn. unfold open_namei. rewrite Z.gtb_ltb, (proj2 (Z.ltb_ge _ _)).
  2:{ unfold MAX_NAME_STRLEN. lia. }
  erewrite bind_ret by (apply readSuperBlock_eq; lia).
  apply (namei_loop_ok s fn 8 0); [done | lia].
Qed.

(** [ssufs_allocInode] takes the lowest free inode. *)
Definition mark_inode (i : nat) (f : Z) (sb : superblock_t) : superblock_t :=
  mk_sb (sb_name sb) (<[i := f]> (inode_freelist sb)) (datablock_freelist sb).

Lemma mark_inode_wf i f sb : sb_wf sb -> sb_wf (mark_inode i f sb).
Proof. intros (? & ? & ?). split_and!; cbn; [done | by rewrite length_insert | done]. Qed.

(** The disk after [ssufs_create] used inode [i] for [fn]. *)
Definition created (i : nat) (fn : list Z) (d : list Z) : list Z :=
  put_inode i (mk_inode INODE_IN_USE (strncpy8 fn) (file_size (disk_inode d i))
                 (direct_blocks (disk_inode d i)))
    (put_sb (mark_inode i INODE_IN_USE (disk_sb d)) d).

Lemma ssufs_create_ok s fn i :
  (320 <= length (disk s))%nat ->
  find_index (fun f => f =? INODE_FREE) (inode_freelist (disk_sb (disk s))) = Some i ->
  ssufs_create fn s = Ret (Z.of_nat i) (with_disk s (created i fn (disk s))) /\ (i < 8)%nat.
Proof.
  intros Hl Hi. destruct (disk_sb_wf (disk s)) as (? & H8 & ?); [lia |].
  assert (Hlt : (i < 8)%nat) by (rewrite <- H8; by eapply find_index_lt). split; [| done].
  assert (Hwf : sb_wf (mark_inode i INODE_IN_USE (disk_sb (disk s)))) by by apply mark_inode_wf.
  unfold ssufs_create. erewrite bind_ret.
  2:{ unfold ssufs_allocInode. erewrite bind_ret by (apply readSuperBlock_eq; lia).
      rewrite Hi. erewrite bind_ret by apply writeSuperBlock_eq. done. }
  rewrite (proj2 (Z.eqb_neq _ _)) by lia.
  fold (mark_inode i INODE_IN_USE (disk_sb (disk s))).
  erewrite bind_ret.
  2:{ apply readInode_eq; [done |]. cbn. rewrite length_put_sb by (done || lia). done. }
  erewrite bind_ret by by apply writeInode_eq. cbn [disk with_disk].
  rewrite disk_inode_put_sb by (done || unfold inode_off; lia). done.
Qed.

Lemma length_strncpy8 fn : length (strncpy8 fn) = 8%nat.
Proof. unfold strncpy8. rewrite length_take, length_app, length_replicate. lia. Qed.

Lemma strcmp_prefix fn rest :
  strcmp_eq (fn ++ 0 :: rest) fn = true.
Proof. induction fn; cbn; [done |]. by rewrite Z.eqb_refl. Qed.

Lemma strncpy8_short fn :
  (length fn <= 7)%nat -> strncpy8 fn = fn ++ 0 :: replicate (7 - length fn) 0.
Proof.
  intros. unfold strncpy8. rewrite take_app_ge by lia. f_equal.
  rewrite take_replicate. replace (8 - length fn)%nat with (S (7 - length fn)) by lia.
  replace (_ `min` 8)%nat with (S (7 - length fn)) by lia. done.
Qed.

Section created_facts.
Context (s : fs_t) (i : nat) (fn : list Z).
Context (Hinv : fs_inv s) (Hi : (i < 8)%nat).
Let d := disk s.
Let ino := mk_inode INODE_IN_USE (strncpy8 fn) (file_size (disk_inode d i)) (direct_blocks (disk_inode d i)).
Let d1 := put_sb (mark_inode i INODE_IN_USE (disk_sb d)) d.

Lemma created_wf : inode_wf ino.
Proof.
  destruct (fs_inv_inode s i Hinv Hi) as ((? & ? & ? & ? & ?) & _).
  split_and!; cbn; [done.. | | done | done | done]. apply length_strncpy8.
Qed.

Lemma created_sb_wf : sb_wf (mark_inode i INODE_IN_USE (disk_sb d)).
Proof. apply mark_inode_wf, disk_sb_wf. pose proof (ao_len _ _ Hinv). unfold d. lia. Qed.

Lemma created_length : length (created i fn d) = length d /\ length d1 = length d.
Proof.
  pose proof (ao_len _ _ Hinv) as Hl. fold d in Hl. pose proof created_sb_wf.
  assert (E : length d1 = length d) by (unfold d1; apply length_put_sb; [done | lia]).
  split; [| done]. unfold created. fold d1. fold ino.
  rewrite length_put_inode; [done | apply created_wf |]. unfold inode_off. lia.
Qed.

Lemma created_sb : disk_sb (created i fn d) = mark_inode i INODE_IN_USE (disk_sb d).
Proof.
  pose proof (ao_len _ _ Hinv) as Hl. fold d in Hl. destruct created_length as [_ E1].
  unfold created. fold d1. rewrite disk_sb_put_inode by lia.
  apply disk_sb_put_sb, created_sb_wf.
Qed.

Lemma created_table : table (created i fn d) = <[i := ino]> (table d).
Proof.
  pose proof (ao_len _ _ Hinv) as Hl. fold d in Hl. destruct created_length as [_ E1].
  unfold created. fold d1 ino. rewrite table_put_inode by (apply created_wf || lia).
  f_equal. apply table_ext. intros j Hj. apply disk_inode_put_sb; [apply created_sb_wf |].
  unfold inode_off. lia.
Qed.

Lemma created_blocks : blocks (<[i := ino]> (table d)) ≡ₚ blocks (table d).
Proof.
  apply (concat_map_insert blocks_of (table d) i (disk_inode d i) ino []); [| done].
  by apply table_lookup.
Qed.

Lemma created_inv : fs_inv (with_disk s (created i fn d)).
Proof.
  unfold fs_inv. cbn [disk with_disk]. rewrite created_table.
  destruct created_length as [E _]. destruct (fs_inv_inode s i Hinv Hi) as (_ & Hsz & _).
  destruct Hinv as [A1 A2 A3 A4 A5 A6]. fold d in A1, A2, A3, A4, A5, A6.
  split; [lia | by rewrite length_insert | apply Forall_insert; [done | apply created_wf] | | |].
  - apply Forall_insert; [done |]. apply Hsz.
  - by rewrite created_blocks.
  - rewrite created_blocks. eapply Forall_impl; [exact A6 |]. intros b (? & ? & ?).
    unfold block_ok. rewrite created_sb. cbn. split_and!; [lia.. | done | lia].
Qed.

Lemma created_content j : (j < 8)%nat -> content (with_disk s (created i fn d)) j = content s j.
Proof.
  intros Hj. pose proof (ao_len _ _ Hinv) as Hl. fold d in Hl.
  destruct created_length as [E E1]. pose proof created_sb_wf as Hsb.
  assert (Hdb : direct_blocks (disk_inode (created i fn d) j) = direct_blocks (disk_inode d j)).
  { pose proof (table_lookup (created i fn d) j Hj) as Ht. rewrite created_table in Ht.
    destruct (decide (j = i)) as [-> |].
    - pose proof (ao_table _ _ Hinv) as H8. fold d in H8.
      rewrite list_lookup_insert_eq in Ht by lia. apply (inj Some) in Ht. by rewrite <- Ht.
    - rewrite list_lookup_insert_ne, table_lookup in Ht by done. apply (inj Some) in Ht. by rewrite <- Ht. }
  unfold content. cbn [disk with_disk]. unfold data at 1. rewrite Hdb.
  fold (data (created i fn d) (disk_inode d j)). apply data_ext. intros b Hb Hne.
  apply list_elem_of_lookup in Hb as [k Hk].
  destruct (alloc_ok_block _ _ Hinv j _ k b (table_lookup _ _ Hj) Hk Hne) as [_ (_ & _ & Ho)].
  unfold created. fold d1 ino. rewrite disk_block_put_inode by (apply created_wf || fold d in Ho; lia).
  by apply disk_block_put_sb.
Qed.
End created_facts.
End lookup.

(** [ssufs_create] of a name of at most seven characters that no file in
    use has, on a disk with a free inode, returns the lowest free inode;
    [open_namei] then finds it; the content of every file is unchanged and the
    allocation invariant holds. *)
Theorem create_then_lookup `{Garbage} (s : fs_t) (i : nat) (fn : list Z)
  (Hinv : fs_inv s) (Hlen : (length fn <= 7)%nat)
  (Hfree : find_index (fun f => f =? INODE_FREE) (inode_freelist (disk_sb (disk s))) = Some i)
  (Hnew : find_index (name_matches (disk s) fn) (seq 0 8) = None) :
  exists s', ssufs_create fn s = Ret (Z.of_nat i) s' /\ open_namei fn s' = Ret (Z.of_nat i) s' /\
    fs_inv s' /\ forall j, (j < 8)%nat -> content s' j = content s j.
Proof.
  destruct (ssufs_create_ok s fn i (ao_len _ _ Hinv) Hfree) as [E Hi].
  pose proof (created_inv s i fn Hinv Hi) as Hinv'.
  eexists. split; [exact E |]. split; [| split; [done | intros; by apply created_content]].
  rewrite open_namei_ok by (apply (ao_len _ _ Hinv') || lia). cbn [disk with_disk].
  pose proof (created_table s i fn Hinv Hi) as Ht.
  assert (Hm : forall j, (j < 8)%nat -> name_matches (created i fn (disk s)) fn j = bool_decide (j = i)).
  { intros j Hj. unfold name_matches, in_use. rewrite created_sb by done. cbn [mark_inode inode_freelist].
    pose proof (table_lookup (created i fn (disk s)) j Hj) as Hlk. rewrite Ht in Hlk.
    pose proof (find_index_lt _ _ _ Hfree) as Hlt.
    destruct (decide (j = i)) as [-> | Hne].
    - rewrite list_lookup_insert_eq in Hlk by (rewrite (ao_table _ _ Hinv); lia). apply (inj Some) in Hlk. rewrite <- Hlk.
      rewrite list_lookup_insert_eq by done. rewrite bool_decide_true by done.
      unfold name_memory. cbn [name]. rewrite strncpy8_short by done. rewrite <- !(assoc_L (++)).
      apply strcmp_prefix.
    - rewrite list_lookup_insert_ne, table_lookup in Hlk by done. apply (inj Some) in Hlk. rewrite <- Hlk.
      rewrite list_lookup_insert_ne by done. rewrite bool_decide_false by done.
      rewrite find_index_None in Hnew. apply (Hnew j). apply elem_of_seq. lia. }
  assert (Hf : find_index (name_matches (created i fn (disk s)) fn) (seq 0 8) = Some i).
  { destruct (find_index (name_matches (created i fn (disk s)) fn) (seq 0 8)) as [k |] eqn:Ef.
    - apply find_index_Some in Ef as [(x & Hx & Hp) _]. apply lookup_seq in Hx as [-> Hk].
      rewrite Hm in Hp by lia. apply bool_decide_eq_true in Hp. by subst.
    - rewrite find_index_None in Ef. specialize (Ef i).
      rewrite Hm, bool_decide_true in Ef by done. discriminate Ef. apply elem_of_seq. lia. }
  by rewrite Hf.
Qed.

Lemma create_then_lookup_witness :
  exists s', ssufs_create [99] demo1 = Ret 1 s' /\ open_namei [99] s' = Ret 1 s' /\
    fs_inv s' /\ forall j, (j < 8)%nat -> content s' j = content demo1 j.
Proof.
  apply (create_then_lookup demo1 1 [99]).
  - apply fs_invb_ok. vm_compute. reflexivity.
  - cbn. lia.
  - vm_compute. reflexivity.
  - vm_compute. reflexivity.
Defined.

(** ** Deletion *)
Section delete.
Context {G : Garbage}.

(** The free list after the blocks [bl] are released. *)
Fixpoint released (bl : list Z) (sb : superblock_t) : superblock_t :=
  match bl with
  | [] => sb
  | b :: bl' => released bl' (if b =? -1 then sb else mark (Z.to_nat b) DATA_BLOCK_FREE sb)
  end.

Lemma released_wf bl sb : sb_wf sb -> sb_wf (released bl sb).
Proof.
  revert sb. induction bl as [| b bl IH]; intros sb H; cbn; [done |]. apply IH.
  destruct (b =? -1); [done | by apply mark_wf].
Qed.

Lemma released_inodes bl sb : inode_freelist (released bl sb) = inode_freelist sb.
Proof.
  revert sb. induction bl as [| b bl IH]; intros sb; cbn; [done |]. rewrite IH. by destruct (b =? -1).
Qed.

Lemma released_other bl sb (c : nat) :
  (forall b, b ∈ bl -> b <> -1 -> Z.to_nat b <> c) ->
  datablock_freelist (released bl sb) !! c = datablock_freelist sb !! c.
Proof.
  revert sb. induction bl as [| b bl IH]; intros sb Hc; cbn; [done |]. rewrite IH.
  2:{ intros x Hx. apply Hc. by apply list_elem_of_further. }
  destruct (Z.eqb_spec b (-1)); [done |]. cbn. apply list_lookup_insert_ne.
  apply Hc; [apply list_elem_of_here | done].
Qed.

Lemma released_free bl sb (c : nat) :
  (c < length (datablock_freelist sb))%nat ->
  datablock_freelist sb !! c = Some DATA_BLOCK_FREE \/
  (exists b, b ∈ bl /\ b <> -1 /\ Z.to_nat b = c) ->
  datablock_freelist (released bl sb) !! c = Some DATA_BLOCK_FREE.
Proof.
  revert sb. induction bl as [| x bl IH]; intros sb Hlt Hor; cbn.
  { destruct Hor as [? | (b & Hb & _)]; [done | by apply elem_of_nil in Hb]. }
  apply IH.
  - destruct (x =? -1); [done |]. cbn. by rewrite length_insert.
  - destruct (Z.eqb_spec x (-1)).
    + destruct Hor as [? | (b & [-> | Hb]%elem_of_cons & ? & ?)]; [by left | done | right; eauto].
    + cbn. destruct (decide (Z.to_nat x = c)) as [<- | Hne]; [left; by apply list_lookup_insert_eq |].
      destruct Hor as [? | (b & [-> | Hb]%elem_of_cons & ? & ?)]; [left | done | right; eauto].
      by rewrite list_lookup_insert_ne.
Qed.

(** Everything but the superblock is as before. *)
Definition same_files (d d' : list Z) : Prop :=
  length d' = length d /\ (forall i, (i < 8)%nat -> disk_inode d' i = disk_inode d i) /\
  forall b, (block_off b + 64 <= length d)%nat -> disk_block d' b = disk_block d b.

Lemma same_files_put_sb sb d : sb_wf sb -> (320 <= length d)%nat -> same_files d (put_sb sb d).
Proof.
  intros. split_and!; [apply length_put_sb; [done | lia] | |].
  - intros. apply disk_inode_put_sb; [done |]. unfold inode_off. lia.
  - intros. by apply disk_block_put_sb.
Qed.

Lemma same_files_trans d1 d2 d3 : same_files d1 d2 -> same_files d2 d3 -> same_files d1 d3.
Proof.
  intros (E1 & I1 & B1) (E2 & I2 & B2). split_and!; [congruence | |].
  - intros. by rewrite I2, I1.
  - intros. by rewrite B2, B1 by lia.
Qed.

Lemma freeDataBlock_ok s (b : nat) :
  (320 <= length (disk s))%nat -> (b < 30)%nat ->
  datablock_freelist (disk_sb (disk s)) !! b = Some DATA_BLOCK_USED ->
  ssufs_freeDataBlock (Z.of_nat b) s =
  Ret tt (with_disk s (put_sb (mark b DATA_BLOCK_FREE (disk_sb (disk s))) (disk s))).
Proof.
  intros Hl Hb Hu. unfold ssufs_freeDataBlock.
  erewrite bind_ret by (apply readSuperBlock_eq; lia). rewrite nthZ_nat, Hu. cbn [from_option]. mrun.
  rewrite setZ_nat by by eapply lookup_lt_Some. cbn [from_option]. mrun. apply writeSuperBlock_eq.
Qed.

Lemma free_blocks_loop_ok bl sb s :
  (320 <= length (disk s))%nat -> sb_wf sb -> NoDup (filter (fun b => b <> -1) bl) ->
  (forall b, b ∈ bl -> b <> -1 -> 0 <= b < 30 /\
     datablock_freelist sb !! Z.to_nat b = Some DATA_BLOCK_USED) ->
  exists d', free_blocks_loop sb bl s = Ret (released bl sb) (with_disk s d') /\
    same_files (disk s) d'.
Proof.
  revert sb s. induction bl as [| b bl IH]; intros sb s Hl Hwf Hnd Hu; cbn [free_blocks_loop released].
  { exists (disk s). split; [by destruct s | by split_and!]. }
  rewrite filter_cons in Hnd.
  assert (Hu' : forall x, x ∈ bl -> x <> -1 -> 0 <= x < 30 /\
     datablock_freelist sb !! Z.to_nat x = Some DATA_BLOCK_USED)
    by (intros x Hx; apply Hu; by apply list_elem_of_further).
  destruct (Z.eqb_spec b (-1)) as [-> | Hb]; cbn [negb].
  { rewrite decide_False in Hnd by lia. by apply IH. }
  rewrite decide_True in Hnd by done. apply NoDup_cons in Hnd as [Hnin Hnd].
  destruct (Hu b) as [Hr Hub]; [apply list_elem_of_here | done |].
  set (d1 := put_sb sb (disk s)). set (d2 := put_sb (mark (Z.to_nat b) DATA_BLOCK_FREE sb) d1).
  assert (S1 : same_files (disk s) d1) by by apply same_files_put_sb.
  assert (L1 : length d1 = length (disk s)) by apply S1.
  assert (Hwf' : sb_wf (mark (Z.to_nat b) DATA_BLOCK_FREE sb)) by by apply mark_wf.
  assert (S2 : same_files (disk s) d2)
    by (eapply same_files_trans; [exact S1 |]; apply same_files_put_sb; [done | lia]).
  assert (L2 : length d2 = length (disk s)) by apply S2.
  destruct (IH (mark (Z.to_nat b) DATA_BLOCK_FREE sb) (with_disk s d2)) as (d' & E & S').
  - cbn. lia.
  - done.
  - done.
  - intros x Hx Hx1. destruct (Hu' x Hx Hx1) as [Hxr Hxu]. split; [done |]. cbn.
    rewrite list_lookup_insert_ne; [done |]. intros Ex. apply Z2Nat.inj in Ex as <-; [| lia..].
    apply Hnin. by apply list_elem_of_filter.
  - exists d'. split; [| eapply same_files_trans; [exact S2 | exact S']].
    erewrite bind_ret by apply writeSuperBlock_eq. fold d1.
    assert (Esb : disk_sb d1 = sb) by by apply disk_sb_put_sb.
    assert (Ef := freeDataBlock_ok (with_disk s d1) (Z.to_nat b)). rewrite Z2Nat.id in Ef by lia.
    cbn [disk with_disk] in Ef. rewrite Esb in Ef.
    erewrite bind_ret by (apply Ef; [lia | lia | done]).
    fold d2. erewrite bind_ret.
    2:{ apply readSuperBlock_eq. cbn. lia. }
    cbn [disk with_disk]. unfold d2 at 1. rewrite disk_sb_put_sb by done. fold d2. exact E.
Qed.

Definition freed_inode (ino : inode_t) : inode_t :=
  mk_inode INODE_FREE (name ino) 0 (replicate (Z.to_nat MAX_FILE_SIZE) (-1)).

Lemma freed_inode_wf ino : inode_wf ino -> inode_wf (freed_inode ino).
Proof. intros (_ & H8 & _). split_and!; cbn; try done. by repeat constructor. Qed.

Lemma alloc_ok_file_nodup T d n ino :
  alloc_ok T d -> T !! n = Some ino ->
  blocks T ≡ₚ blocks_of ino ++ blocks (<[n := freed_inode ino]> T) /\ NoDup (blocks_of ino) /\
  NoDup (blocks (<[n := freed_inode ino]> T)) /\
  forall b, b ∈ blocks_of ino -> b ∉ blocks (<[n := freed_inode ino]> T).
Proof.
  intros H Hn.
  assert (Hp : blocks T ≡ₚ blocks_of ino ++ blocks (<[n := freed_inode ino]> T)).
  { pose proof (concat_map_insert blocks_of (<[n := freed_inode ino]> T) n (freed_inode ino) ino
      (blocks_of ino)) as Hc.
    rewrite list_insert_insert_eq, (list_insert_id T n ino Hn) in Hc. apply Hc.
    - apply list_lookup_insert_eq. by eapply lookup_lt_Some.
    - by rewrite app_nil_r. }
  split; [done |]. pose proof (ao_nodup _ _ H) as Hnd. rewrite Hp in Hnd.
  apply NoDup_app in Hnd as (? & Hdis & ?). by split_and!.
Qed.

(** The disk after [ssufs_freeInode n]. *)
Lemma ssufs_freeInode_disk s n :
  fs_inv s -> (n < 8)%nat -> in_use (disk s) n = true ->
  let ino := disk_inode (disk s) n in
  exists d3, ssufs_freeInode (Z.of_nat n) s = Ret tt (with_disk s d3) /\ length d3 = length (disk s) /\
    disk_sb d3 = released (direct_blocks ino) (mark_inode n INODE_FREE (disk_sb (disk s))) /\
    table d3 = <[n := freed_inode ino]> (table (disk s)) /\ inode_wf (freed_inode ino) /\
    (forall m, (m < 8)%nat -> m <> n -> disk_inode d3 m = disk_inode (disk s) m) /\
    (forall b, (block_off b + 64 <= length (disk s))%nat -> disk_block d3 b = disk_block (disk s) b).
Proof.
  intros H Hn Huse ino. pose proof (ao_len _ _ H) as Hl.
  pose proof (table_lookup (disk s) n Hn) as Ht. fold ino in Ht.
  destruct (alloc_ok_file_nodup _ _ _ _ H Ht) as (Hp & Hnd & Hnd' & Hdis).
  destruct (disk_sb_wf (disk s)) as (? & H8 & H30); [lia |].
  unfold in_use in Huse. destruct (inode_freelist (disk_sb (disk s)) !! n) as [f |] eqn:Hf; [| done].
  set (sb0 := mark_inode n INODE_FREE (disk_sb (disk s))).
  assert (W0 : sb_wf sb0) by by apply mark_inode_wf.
  assert (Hblk : forall b, b ∈ blocks_of ino -> block_ok (disk s) b).
  { intros b Hb. eapply Forall_forall; [apply (ao_blocks _ _ H) |]. by eapply blocks_elem. }
  destruct (free_blocks_loop_ok (direct_blocks ino) sb0 s) as (d1 & E1 & S1); [done.. | |].
  { intros b Hb Hb1. destruct (Hblk b) as (? & ? & _); [by apply list_elem_of_filter | done]. }
  set (sb1 := released (direct_blocks ino) sb0) in *.
  assert (W1 : sb_wf sb1) by by apply released_wf.
  assert (Wf : inode_wf (freed_inode ino)) by (apply freed_inode_wf; by apply (fs_inv_inode s n)).
  assert (L1 : length d1 = length (disk s)) by apply S1.
  set (d2 := put_sb sb1 d1). set (d3 := put_inode n (freed_inode ino) d2).
  assert (S2 : same_files (disk s) d2)
    by (eapply same_files_trans; [exact S1 |]; apply same_files_put_sb; [done | lia]).
  destruct S2 as (L2 & I2 & B2).
  assert (Esb : disk_sb d3 = sb1)
    by (unfold d3; rewrite disk_sb_put_inode by lia; by apply disk_sb_put_sb).
  assert (L3 : length d3 = length (disk s))
    by (unfold d3; rewrite length_put_inode; [done | done | unfold inode_off; lia]).
  assert (Etab : table d3 = <[n := freed_inode ino]> (table (disk s)))
    by (unfold d3; rewrite table_put_inode, (table_ext (disk s) d2) by (done || lia); done).
  exists d3. split_and!; try done.
  - unfold ssufs_freeInode. erewrite bind_ret.
    2:{ unfold assertb. by rewrite (proj2 (Z.ltb_lt _ _)) by (unfold NUM_INODES; lia). }
    erewrite bind_ret by (apply readSuperBlock_eq; lia).
    erewrite bind_ret by by apply readInode_eq.
    rewrite nthZ_nat, Hf. cbn [from_option]. mrun. rewrite Huse. cbn [assertb]. mrun.
    rewrite setZ_nat by lia. cbn [from_option]. mrun. fold ino. fold sb0.
    rewrite writeInode_eq by done. done.
  - intros m Hm Hne. unfold d3. rewrite disk_inode_put_inode_ne by (done || unfold inode_off; lia). by apply I2.
  - intros b Hb. unfold d3. rewrite disk_block_put_inode by (done || lia). by apply B2.
Qed.

Lemma ssufs_freeInode_ok s n :
  fs_inv s -> (n < 8)%nat -> in_use (disk s) n = true ->
  let ino := disk_inode (disk s) n in
  exists s', ssufs_freeInode (Z.of_nat n) s = Ret tt s' /\ fs_inv s' /\
    file_handle_array s' = file_handle_array s /\ in_use (disk s') n = false /\
    (forall b, b ∈ blocks_of ino ->
       datablock_freelist (disk_sb (disk s')) !! Z.to_nat b = Some DATA_BLOCK_FREE) /\
    (forall m, (m < 8)%nat -> m <> n ->
       disk_inode (disk s') m = disk_inode (disk s) m /\ content s' m = content s m /\
       in_use (disk s') m = in_use (disk s) m).
Proof.
  intros H Hn Huse ino. destruct (ssufs_freeInode_disk s n H Hn Huse) as (d3 & Erun & L3 & Esb & Etab & Wf & I3 & B3). fold ino in Esb, Etab, Wf.
  pose proof (table_lookup (disk s) n Hn) as Ht. fold ino in Ht.
  destruct (alloc_ok_file_nodup _ _ _ _ H Ht) as (Hp & Hnd & Hnd' & Hdis).
  pose proof (ao_len _ _ H) as Hl. destruct (disk_sb_wf (disk s)) as (? & H8 & H30); [lia |].
  set (sb1 := released _ _) in Esb.
  assert (Hblk : forall b, b ∈ blocks_of ino -> block_ok (disk s) b).
  { intros b Hb. eapply Forall_forall; [apply (ao_blocks _ _ H) |]. by eapply blocks_elem. }
  exists (with_disk s d3). split_and!; [exact Erun | ..].
  - unfold fs_inv. cbn [disk with_disk]. rewrite Etab. destruct H as [A1 A2 A3 A4 A5 A6].
    split; [lia | by rewrite length_insert | by apply Forall_insert | | done |].
    { apply Forall_insert; [done |]. done. }
    apply Forall_forall. intros b Hb. rewrite Hp in A6. apply Forall_app in A6 as [_ A6].
    destruct (proj1 (Forall_forall _ _) A6 b Hb) as (? & ? & ?).
    unfold block_ok. rewrite Esb. split; [done |]. split; [| lia].
    unfold sb1. rewrite released_other; [done |]. intros c Hc Hc1 Ec.
    assert (Hcin : c ∈ blocks_of ino) by by apply list_elem_of_filter.
    destruct (Hblk c Hcin) as (? & _). apply Z2Nat.inj in Ec as ->; [| lia..]. by destruct (Hdis b).
  - done.
  - unfold in_use. cbn [disk with_disk]. rewrite Esb. unfold sb1. rewrite released_inodes. cbn.
    by rewrite list_lookup_insert_eq by lia.
  - intros b [Hb1 Hb]%list_elem_of_filter. cbn [disk with_disk]. rewrite Esb.
    destruct (Hblk b) as (? & _); [by apply list_elem_of_filter |].
    apply released_free; [cbn; lia | right; eauto].
  - intros m Hm Hne. cbn [disk with_disk].
    pose proof (I3 m Hm Hne) as Em.
    split_and!; [done | |].
    + unfold content. cbn [disk with_disk]. rewrite Em. apply data_ext. intros b Hb Hb1.
      apply list_elem_of_lookup in Hb as [k Hk].
      destruct (alloc_ok_block _ _ H m _ k b (table_lookup _ _ Hm) Hk Hb1) as [_ (_ & _ & Ho)].
      by apply B3.
    + unfold in_use. rewrite Esb. unfold sb1. rewrite released_inodes. cbn.
      by rewrite list_lookup_insert_ne.
Qed.
End delete.

(** [ssufs_delete] of a name that [open_namei] finds at inode [n] returns;
    it frees the inode and every data block of the file, leaves every other
    file, its inode and its content as they were, and keeps the allocation
    invariant; of a name that is not found it changes nothing. *)
Theorem ssufs_delete_spec `{Garbage} (s : fs_t) (fn : list Z)
  (Hinv : fs_inv s) (Hlen : (length fn <= 8)%nat) :
  match find_index (name_matches (disk s) fn) (seq 0 8) with
  | None => ssufs_delete fn s = Ret tt s
  | Some n => exists s', ssufs_delete fn s = Ret tt s' /\ fs_inv s' /\
      in_use (disk s') n = false /\
      (forall b, b ∈ blocks_of (disk_inode (disk s) n) ->
         datablock_freelist (disk_sb (disk s')) !! Z.to_nat b = Some DATA_BLOCK_FREE) /\
      (forall m, (m < 8)%nat -> m <> n ->
         disk_inode (disk s') m = disk_inode (disk s) m /\ content s' m = content s m /\
         in_use (disk s') m = in_use (disk s) m)
  end.
Proof.
  pose proof (open_namei_ok s fn (ao_len _ _ Hinv) Hlen) as E. unfold ssufs_delete.
  destruct (find_index (name_matches (disk s) fn) (seq 0 8)) as [n |] eqn:Ef.
  - erewrite bind_ret by exact E. rewrite (proj2 (Z.eqb_neq _ _)) by lia.
    apply find_index_Some in Ef as [(x & Hx & Hm) _]. apply lookup_seq in Hx as [-> Hn].
    unfold name_matches in Hm. apply andb_true_iff in Hm as [Hu _].
    destruct (ssufs_freeInode_ok s n) as (s' & ? & ? & _ & ? & ? & ?); [done.. |]. by exists s'.
  - erewrite bind_ret by exact E. done.
Qed.

Lemma ssufs_delete_spec_witness :
  exists s', ssufs_delete demo_name demo1 = Ret tt s' /\ fs_inv s' /\ in_use (disk s') 0 = false.
Proof.
  destruct (ssufs_delete_spec demo1 demo_name) as (s' & E & Hi & Hu & _).
  - apply fs_invb_ok. vm_compute. reflexivity.
  - cbn. lia.
  - exists s'. split; [exact E | split; [exact Hi | exact Hu]].
Defined.

(** ** Reachable states *)
Section reachable.
Context {G : Garbage}.

(** The calls of a client; a buffer holds at least the bytes to write. *)
Inductive call : Type :=
| c_format | c_create (fn : list Z) | c_delete (fn : list Z) | c_open (fn : list Z)
| c_close (h : Z) | c_lseek (h nseek : Z) | c_read (h nbytes : Z)
| c_write (h : Z) (buf : list Z) (nbytes : Z).

Definition run (c : call) (s : fs_t) : option fs_t :=
  let st {A} (o : outcome fs_t A) := match o with Ret _ s' => Some s' | _ => None end in
  match c with
  | c_format => st (ssufs_formatDisk s)
  | c_create fn => st (ssufs_create fn s)
  | c_delete fn => st (ssufs_delete fn s)
  | c_open fn => st (ssufs_open fn s)
  | c_close h => st (ssufs_close h s)
  | c_lseek h n => st (ssufs_lseek h n s)
  | c_read h n => st (ssufs_read h n s)
  | c_write h buf n => st (ssufs_write h buf n s)
  end.
Definition call_ok (c : call) : Prop :=
  match c with c_write _ buf n => n <= Z.of_nat (length buf) | _ => True end.

Inductive reachable : fs_t -> Prop :=
| r_format s s' : run c_format s = Some s' -> reachable s'
| r_step s c s' : reachable s -> call_ok c -> run c s = Some s' -> reachable s'.

(** An open handle has an offset within the largest file. *)
Definition handles_ok (s : fs_t) : Prop :=
  forall h fh, file_handle_array s !! h = Some fh ->
  inode_number fh = -1 \/ 0 <= inode_number fh /\ 0 <= offset fh <= 256.
Definition inv (s : fs_t) : Prop := fs_inv s /\ handles_ok s.

Lemma write_inodes_ok k i ino s :
  inode_wf ino -> (i + k = 8)%nat -> length (disk s) = inode_off i ->
  exists d', write_inodes k (Z.of_nat i) ino s = Ret tt (with_disk s d') /\
    length d' = inode_off 8 /\ disk_sb d' = disk_sb (disk s) /\
    forall j, (j < 8)%nat -> disk_inode d' j = if decide (j < i)%nat then disk_inode (disk s) j else ino.
Proof.
  intros Hw. revert i s. induction k as [| k IH]; intros i s Hik Hl; cbn [write_inodes].
  { exists (disk s). replace i with 8%nat in * by lia. split_and!; [by destruct s | done.. |].
    intros j Hj. by rewrite decide_True. }
  erewrite bind_ret by (apply writeInode_eq; lia).
  replace (Z.of_nat i + 1) with (Z.of_nat (S i)) by lia.
  set (s1 := with_disk s (put_inode i ino (disk s))).
  assert (L1 : length (disk s1) = inode_off (S i)).
  { cbn. unfold put_inode. rewrite length_file_write, length_encode_inode by done.
    unfold inode_off in *. lia. }
  destruct (IH (S i) s1) as (d' & E & L & Esb & Ei); [lia | done |].
  exists d'. split_and!; [exact E | done | |].
  - rewrite Esb. cbn. apply disk_sb_put_inode. unfold inode_off in *. lia.
  - intros j Hj. rewrite Ei by done. cbn [s1 disk with_disk].
    destruct (decide (j < S i)%nat), (decide (j < i)%nat); try lia; [| | done].
    + apply disk_inode_put_inode_ne; [done | lia |]. unfold inode_off in *. lia.
    + replace j with i by lia. by apply disk_inode_put_inode.
Qed.

Lemma format_inv s s' : run c_format s = Some s' -> inv s'.
Proof.
  cbn [run]. unfold ssufs_formatDisk.
  set (sb := mk_sb _ _ _). set (ino := mk_inode _ _ _ _).
  assert (Wsb : sb_wf sb)
    by (split_and!; cbn [sb sb_name]; [rewrite length_app, literal_tail_len; done | done..]).
  assert (Wi : inode_wf ino)
    by (split_and!; cbn; rewrite ?heap_name_len; try done; by repeat constructor).
  erewrite bind_ret by done. erewrite bind_ret by apply writeSuperBlock_eq.
  cbn [disk]. set (s1 := with_disk _ _).
  assert (L1 : length (disk s1) = inode_off 0)
    by (unfold s1, put_sb; cbn [disk with_disk]; rewrite length_file_write, length_sb_image by done; done).
  destruct (write_inodes_ok 8 0 ino s1 Wi eq_refl L1) as (d' & E & L & Esb & Ei).
  erewrite bind_ret by exact E. cbn [modify]. intros [= <-].
  assert (Et : table d' = replicate 8 ino).
  { unfold table. apply list_eq. intros j. rewrite list_lookup_fmap.
    destruct (decide (j < 8)%nat).
    - rewrite lookup_seq_lt, lookup_replicate_2 by done. cbn. by rewrite Ei.
    - rewrite lookup_seq_ge by lia. symmetry. apply lookup_replicate_None. lia. }
  split.
  - unfold fs_inv. cbn [disk]. rewrite Et.
    split; [rewrite L; unfold inode_off; lia | done | by apply Forall_replicate
           | by apply Forall_replicate | by apply NoDup_nil_2 | done].
  - intros h fh Hh. left. cbn in Hh.
    do 20 (destruct h as [| h]; [by injection Hh as <- |]). done.
Qed.

Lemma handles_ok_insert s h fh d :
  handles_ok s -> (inode_number fh = -1 \/ 0 <= inode_number fh /\ 0 <= offset fh <= 256) ->
  handles_ok (mk_fs d (<[h := fh]> (file_handle_array s))).
Proof.
  intros H Hf k x. cbn. destruct (decide (k = h)) as [-> |].
  - intros Hx. pose proof (lookup_lt_Some _ _ _ Hx) as Hlt. rewrite length_insert in Hlt.
    rewrite list_lookup_insert_eq in Hx by done. by simplify_eq.
  - rewrite list_lookup_insert_ne by done. apply H.
Qed.

(** Results of the handle table accesses, read backwards. *)
Lemma get_handle_inv h s fh s' :
  get_handle h s = Ret fh s' -> s' = s /\ exists k, h = Z.of_nat k /\ file_handle_array s !! k = Some fh.
Proof.
  unfold get_handle, mbind, M_bind, gets, nthZ. destruct (Z.ltb_spec h 0); [done |].
  destruct (file_handle_array s !! Z.to_nat h) eqn:E; [| done]. cbn. intros [= <- <-]. split; [done |].
  exists (Z.to_nat h). split; [lia | done].
Qed.

Lemma set_handle_inv h fh s u s' :
  set_handle h fh s = Ret u s' -> exists k, h = Z.of_nat k /\ s' = with_handle s k fh.
Proof.
  unfold set_handle, mbind, M_bind, gets, setZ. destruct (Z.leb_spec 0 h); cbn [andb]; [| done].
  destruct (h <? _); [| done]. cbn. intros [= _ <-]. exists (Z.to_nat h). split; [lia | done].
Qed.

Lemma readInode_state i s ino s' : ssufs_readInode i s = Ret ino s' -> s' = s.
Proof.
  unfold ssufs_readInode, assertb. destruct (i <? NUM_INODES); [| done].
  intros (u & s1 & [= <- <-] & E)%bind_inv. apply bind_inv in E as (bs & s2 & E & E2).
  injection E2 as _ <-. unfold pread in E. repeat case_match; by simplify_eq.
Qed.

Lemma readInode_inv i s ino s' :
  0 <= i -> (320 <= length (disk s))%nat -> ssufs_readInode i s = Ret ino s' ->
  s' = s /\ exists n, i = Z.of_nat n /\ (n < 8)%nat /\ ino = disk_inode (disk s) n.
Proof.
  intros Hi Hl E. destruct (decide (i < 8)).
  - rewrite <- (Z2Nat.id i) in E by lia. rewrite readInode_eq in E by lia. injection E as <- <-.
    split; [done |]. exists (Z.to_nat i). split_and!; [lia.. | done].
  - unfold ssufs_readInode, assertb in E. by rewrite (proj2 (Z.ltb_ge _ _)) in E by (unfold NUM_INODES; lia).
Qed.

(** [ssufs_lseek] keeps the invariant, on closed handles too. *)
Lemma lseek_inv h j s r s' : inv s -> ssufs_lseek h j s = Ret r s' -> inv s' /\ disk s' = disk s.
Proof.
  intros [Hi Hh] E. unfold ssufs_lseek in E.
  apply bind_inv in E as (fh & s1 & E1 & E). apply get_handle_inv in E1 as (-> & k & -> & Hk).
  apply bind_inv in E as (ino & s1 & E1 & E). cbv zeta in E.
  pose proof (readInode_state _ _ _ _ E1) as ->.
  destruct (_ || _) eqn:Eb; [by injection E as _ <- |].
  apply bind_inv in E as (u & s2 & E2 & E). apply set_handle_inv in E2 as (k' & _ & ->).
  injection E as _ <-. split; [| done]. split; [done |]. apply handles_ok_insert; [done |].
  cbn [inode_number offset]. destruct (Hh k fh Hk) as [? | [Hn Ho]]; [by left |]. right. split; [done |].
  apply readInode_inv in E1 as (_ & n & _ & Hn8 & ->); [| done | apply (ao_len _ _ Hi)].
  destruct (fs_inv_inode s n Hi Hn8) as (_ & _ & Hsz).
  rewrite Z.gtb_ltb, !orb_false_iff, Z.ltb_ge, Z.ltb_ge in Eb. lia.
Qed.

Lemma read_loop_inv fuel h ino nb r acc s res s' :
  inv s -> read_loop fuel h ino nb r acc s = Ret res s' -> inv s' /\ disk s' = disk s.
Proof.
  revert r acc s. induction fuel as [| fuel IH]; intros r acc s Hi; cbn [read_loop];
    (destruct (r <? nb); [| by intros [= _ <-]]); [done |].
  intros (fh & s1 & E1 & E)%bind_inv. apply get_handle_inv in E1 as (-> & _).
  cbv zeta in E. apply bind_inv in E as (b & s1 & E1 & E).
  assert (s1 = s) as -> by (destruct (nthZ _ _); [by injection E1 | done]).
  apply bind_inv in E as (tmp & s1 & E2 & E).
  assert (s1 = s) as ->.
  { unfold ssufs_readDataBlock, assertb in E2. destruct (b <? NUM_DATA_BLOCKS); [| done].
    apply bind_inv in E2 as (u & s2 & [= <- <-] & E2). unfold pread in E2.
    repeat case_match; by simplify_eq. }
  apply bind_inv in E as (q & s1 & E3 & E). apply lseek_inv in E3 as [Hi1 Hd]; [| done].
  destruct (q <? 0); [by injection E as _ <- |]. rewrite <- Hd. by eapply IH.
Qed.

Lemma write_inv h buf nb s r s' :
  inv s -> nb <= Z.of_nat (length buf) -> ssufs_write h buf nb s = Ret r s' -> inv s'.
Proof.
  intros [Hi Hh] Hb E. pose proof (ao_len _ _ Hi) as Hl.
  pose proof E as E0. unfold ssufs_write in E.
  apply bind_inv in E as (fh & s1 & E1 & E). apply get_handle_inv in E1 as (-> & k & -> & Hk).
  destruct (Z.eqb_spec (inode_number fh) (-1)) as [| Hne]; [by injection E as _ <- |].
  destruct (Hh k fh Hk) as [? | [Hn Ho]]; [done |].
  apply bind_inv in E as (ino & s1 & E1 & E).
  apply readInode_inv in E1 as (-> & n & En & Hn8 & ->); [| done | done].
  destruct (Z.ltb_spec (BLOCKSIZE * 4 - offset fh) nb) as [| Hfit]; [by injection E as _ <- |].
  destruct fh as [off fn]. cbn [offset inode_number] in *. subst fn.
  destruct (decide (0 <= nb)) as [Hnb | Hnb].
  - destruct (ssufs_write_ok s k n (Z.to_nat off) (Z.to_nat nb) buf)
      as (r' & s2 & j & E2 & Hi2 & Hj & Hhs & _); try done.
    + unfold BLOCKSIZE in Hfit. lia.
    + lia.
    + by rewrite Z2Nat.id by lia.
    + rewrite Z2Nat.id, E0 in E2 by lia. simplify_eq. split; [done |].
      unfold handles_set in Hhs. destruct s2 as [d2 t2]. cbn in Hhs. subst t2.
      apply handles_ok_insert; [done |]. right. cbn.
      unfold BLOCKSIZE in Hfit. lia.
  - replace (Z.to_nat nb) with 0%nat in E by lia. cbn [write_loop] in E.
    rewrite (proj2 (Z.ltb_ge _ _)) in E by lia.
    apply bind_inv in E as (x & s1 & [= <- <-] & E).
    erewrite bind_ret in E by by apply writeInode_eq. injection E as _ <-. split; [| exact Hh].
    destruct (fs_inv_inode s n Hi Hn8) as (Hw & _). unfold fs_inv. cbn [disk with_disk].
    rewrite table_put_inode, list_insert_id by (done || by apply table_lookup).
    eapply alloc_ok_used_mono; [by apply put_inode_used_mono | done].
Qed.

Lemma create_inv fn s r s' : inv s -> ssufs_create fn s = Ret r s' -> inv s'.
Proof.
  intros [Hi Hh] E.
  destruct (find_index (fun f => f =? INODE_FREE) (inode_freelist (disk_sb (disk s)))) as [i |] eqn:Ef.
  - destruct (ssufs_create_ok s fn i (ao_len _ _ Hi) Ef) as [E' Hi8]. rewrite E in E'.
    injection E' as _ ->. split; [by apply created_inv | exact Hh].
  - unfold ssufs_create, ssufs_allocInode in E.
    apply bind_inv in E as (q & s1 & E1 & E).
    erewrite bind_ret in E1 by (apply readSuperBlock_eq; pose proof (ao_len _ _ Hi); lia).
    rewrite Ef in E1. injection E1 as <- <-. by injection E as _ <-.
Qed.

Lemma open_namei_inv fn s :
  fs_inv s ->
  open_namei fn s = Ret (-1) s \/
  exists n, open_namei fn s = Ret (Z.of_nat n) s /\ (n < 8)%nat /\ in_use (disk s) n = true.
Proof.
  intros Hi. destruct (decide (length fn <= 8)%nat) as [Hlen | Hlen].
  - pose proof (open_namei_ok s fn (ao_len _ _ Hi) Hlen) as E.
    destruct (find_index (name_matches (disk s) fn) (seq 0 8)) as [n |] eqn:Ef; [right | by left].
    exists n. split; [done |]. apply find_index_Some in Ef as [(x & Hx & Hm) _].
    apply lookup_seq in Hx as [-> Hn]. unfold name_matches in Hm. by apply andb_true_iff in Hm as [? _].
  - left. unfold open_namei. rewrite Z.gtb_ltb, (proj2 (Z.ltb_lt _ _)); [done |].
    unfold MAX_NAME_STRLEN. lia.
Qed.

Lemma delete_inv fn s u s' : inv s -> ssufs_delete fn s = Ret u s' -> inv s'.
Proof.
  intros [Hi Hh] E. unfold ssufs_delete in E.
  destruct (open_namei_inv fn s Hi) as [En | (n & En & Hn & Hu)]; erewrite bind_ret in E by exact En.
  - by injection E as _ <-.
  - rewrite (proj2 (Z.eqb_neq _ _)) in E by lia.
    destruct (ssufs_freeInode_ok s n Hi Hn Hu) as (s1 & E1 & Hi1 & Hh1 & _). rewrite E in E1.
    injection E1 as _ ->. split; [done |]. intros h fh. rewrite Hh1. apply Hh.
Qed.

Lemma open_inv fn s r s' : inv s -> ssufs_open fn s = Ret r s' -> inv s'.
Proof.
  intros [Hi Hh] E. unfold ssufs_open in E.
  destruct (open_namei_inv fn s Hi) as [En | (n & En & Hn & Hu)]; erewrite bind_ret in E by exact En.
  { by injection E as _ <-. }
  rewrite (proj2 (Z.eqb_neq _ _)) in E by lia. unfold ssufs_allocFileHandle in E.
  erewrite bind_ret in E by done. destruct (find_index _ _) as [i |]; [| by injection E as _ <-].
  apply bind_inv in E as (x & s1 & E1 & E). apply set_handle_inv in E1 as (k & _ & ->).
  injection E as _ <-. split; [done |]. apply handles_ok_insert; [done |]. right. cbn. lia.
Qed.

Lemma run_inv c s s' : inv s -> call_ok c -> run c s = Some s' -> inv s'.
Proof.
  intros Hi Hc E. destruct c; cbn [run] in E.
  - exact (format_inv s s' E).
  - destruct (ssufs_create fn s) eqn:E1; simplify_eq. by eapply create_inv.
  - destruct (ssufs_delete fn s) eqn:E1; simplify_eq. by eapply delete_inv.
  - destruct (ssufs_open fn s) eqn:E1; simplify_eq. by eapply open_inv.
  - destruct (ssufs_close h s) eqn:E1; simplify_eq. destruct Hi as [Hi Hh].
    apply set_handle_inv in E1 as (k & -> & ->). split; [done |].
    apply handles_ok_insert; [done |]. by left.
  - destruct (ssufs_lseek h nseek s) eqn:E1; simplify_eq.
    exact (proj1 (lseek_inv _ _ _ _ _ Hi E1)).
  - destruct (ssufs_read h nbytes s) eqn:E1; simplify_eq. unfold ssufs_read in E1.
    apply bind_inv in E1 as (fh & s1 & E2 & E1). apply get_handle_inv in E2 as (-> & k & -> & Hk).
    destruct (_ =? -1); [by injection E1 as _ <- |].
    apply bind_inv in E1 as (ino & s1 & E2 & E1). apply readInode_state in E2 as ->.
    destruct (_ <? _); [by injection E1 as _ <- |]. destruct (_ <? _); [by injection E1 as _ <- |].
    exact (proj1 (read_loop_inv _ _ _ _ _ _ _ _ _ Hi E1)).
  - destruct (ssufs_write h buf nbytes s) eqn:E1; simplify_eq. by eapply write_inv.
Qed.
End reachable.

(** C24. Every state that clients reach, from a formatted disk and by any
    sequence of the calls of ssufs-ops.h, satisfies the allocation invariant:
    each data block that an inode names is in range, marked used in the
    superblock, stored on the disk and named once, and each file size is the
    number of its blocks times the block size. *)
Theorem reachable_fs_inv `{Garbage} (s : fs_t) (Hr : reachable s) : fs_inv s.
Proof.
  enough (inv s) as [? _] by done.
  induction Hr as [s s' E | s c s' _ IH Hc E]; [by eapply format_inv | by eapply run_inv].
Qed.

Lemma reachable_fs_inv_witness : reachable demo1 /\ fs_inv demo1.
Proof.
  assert (R : reachable demo1).
  { apply (r_step demo (c_write 0 (replicate 100 7) 100)).
    - apply (r_step demo_create (c_open demo_name)).
      + apply (r_step demo_format (c_create demo_name)).
        * apply (r_format (mk_fs [] [])). vm_compute. reflexivity.
        * exact I.
        * vm_compute. reflexivity.
      + exact I.
      + vm_compute. reflexivity.
    - vm_compute. discriminate.
    - vm_compute. reflexivity. }
  split; [exact R | exact (reachable_fs_inv demo1 R)].
Defined.

(** ** Where the code departs from what its callers expect *)

(** Two files are created and opened: the handle of the second is connected
    with the inode that has the handle's number, not with the inode found by
    name. *)
Definition two_files : M fs_t Z :=
  ssufs_formatDisk;; ssufs_create [97];; ssufs_create [98];; ssufs_open [98].

(** [ssufs_open] drops the inode that [open_namei] found:
    [ssufs_allocFileHandle] stores the index of the handle as inode number.
    Opening the second of two files gives a handle on the first. *)
Theorem open_wrong_inode :
  exists s, two_files (mk_fs [] []) = Ret 0 s /\
    open_namei [98] s = Ret 1 s /\ file_handle_array s !! 0%nat = Some (mk_fh 0 0).
Proof.
  exists (state_of (two_files (mk_fs [] []))).
  split; [vm_compute; reflexivity |]. split; vm_compute; reflexivity.
Qed.

Definition long_name : list Z := [97; 98; 99; 100; 101; 102; 103; 104].

(** The demonstration file, of two blocks, on a disk with one block left and the
    handle at the start. *)
Definition demo_short : fs_t := Eval vm_compute in
  with_handle (with_disk demo1 (put_sb (mk_sb (sb_name (disk_sb (disk demo1))) (inode_freelist (disk_sb (disk demo1)))
    (replicate 29 DATA_BLOCK_USED ++ [DATA_BLOCK_FREE])) (disk demo1))) 0 (mk_fh 0 0).

(** A failed write is not undone: the write of 256 bytes fails for lack of a block,
    and has overwritten the 128 bytes the file had, moved the handle to 192 and
    taken the last block of the disk. *)
Theorem failed_write_not_undone : exists s', ssufs_write 0 (replicate 256 5) 256 demo_short = Ret (-1) s' /\
  content demo_short 0 = replicate 100 7 ++ replicate 156 0 /\
  content s' 0 = replicate 128 5 ++ replicate 128 0 /\
  file_handle_array s' !! 0%nat = Some (mk_fh 192 0) /\ nfree (disk demo_short) = 1%nat /\ nfree (disk s') = 0%nat.
Proof. eexists. split; [vm_compute; reflexivity |]. split_and!; vm_compute; reflexivity. Qed.

(** A name of eight characters is not terminated in the inode, so the
    [strcmp] of [open_namei] runs into [file_size]: the file is found while it
    is empty and lost once it has one block. *)
Theorem long_name_lost :
  exists s0 s1, (ssufs_formatDisk;; ssufs_create long_name;; ssufs_open long_name) (mk_fs [] []) = Ret 0 s0 /\
    open_namei long_name s0 = Ret 0 s0 /\
    ssufs_write 0 [1] 1 s0 = Ret 0 s1 /\ open_namei long_name s1 = Ret (-1) s1.
Proof.
  set (s0 := state_of ((ssufs_formatDisk;; ssufs_create long_name;; ssufs_open long_name) (mk_fs [] []))).
  exists s0, (state_of (ssufs_write 0 [1] 1 s0)).
  split; [vm_compute; reflexivity |]. split; [vm_compute; reflexivity |].
  split; vm_compute; reflexivity.
Qed.
