(* ===== verification/KString.v ===== *)
(** * KString: project3/xv6-modified/string.c over a flat byte memory

    A pointer is an index into one memory, so that [memmove] on overlapping
    ranges means what it means in C.  Bytes are kept as 0 to 255.  An access
    outside the memory stops the machine. *)

From Stdlib Require Import ZArith Lia.
From stdpp Require Import base numbers strings option list.
From S2P Require Import Prelude.

Abbreviation mem := (list Z).

Definition ld (a : nat) : M mem Z := fun m =>
  match m !! a with Some b => Ret b m | None => Stop "page fault" end.
Definition st (a : nat) (b : Z) : M mem unit := fun m =>
  if decide (a < length m)%nat then Ret tt (<[a := u8 b]> m) else Stop "page fault".

(** [rep stosb], [rep stosl] of x86.h. *)
Fixpoint stosb (addr : nat) (data : Z) (cnt : nat) : M mem unit :=
  match cnt with
  | O => skip
  | S cnt' => st addr data;; stosb (S addr) data cnt'
  end.
Fixpoint stosl (addr : nat) (data : Z) (cnt : nat) : M mem unit :=
  match cnt with
  | O => skip
  | S cnt' =>
      st addr data;; st (addr + 1) (Z.shiftr data 8);;
      st (addr + 2) (Z.shiftr data 16);; st (addr + 3) (Z.shiftr data 24);;
      stosl (addr + 4) data cnt'
  end.

Definition memset (dst : nat) (c : Z) (n : nat) : M mem nat :=
  (if decide (dst mod 4 = 0 /\ n mod 4 = 0)%nat then
     let c := Z.land c 255 in
     stosl dst (Z.lor (Z.lor (Z.lor (Z.shiftl c 24) (Z.shiftl c 16)) (Z.shiftl c 8)) c) (n / 4)
   else stosb dst c n);;
  mret dst.

Fixpoint memcmp (s1 s2 n : nat) : M mem Z :=
  match n with
  | O => mret 0
  | S n' =>
      a ← ld s1; b ← ld s2;
      if a =? b then memcmp (S s1) (S s2) n' else mret (a - b)
  end.

(** The two loops of [memmove]: from the end down, from the start up. *)
Fixpoint copy_down (d s n : nat) : M mem unit :=
  match n with
  | O => skip
  | S n' => b ← ld (s + n'); st (d + n') b;; copy_down d s n'
  end.
Fixpoint copy_up (d s n : nat) : M mem unit :=
  match n with
  | O => skip
  | S n' => b ← ld s; st d b;; copy_up (S d) (S s) n'
  end.
Definition memmove (dst src n : nat) : M mem nat :=
  (if decide (src < dst /\ dst < src + n)%nat then copy_down dst src n else copy_up dst src n);;
  mret dst.
Definition memcpy (dst src n : nat) : M mem nat := memmove dst src n.

Fixpoint strncmp (p q n : nat) : M mem Z :=
  match n with
  | O => mret 0
  | S n' =>
      a ← ld p;
      if a =? 0 then b ← ld q; mret (a - b) else
      b ← ld q;
      if a =? b then strncmp (S p) (S q) n' else mret (a - b)
  end.

(** [while(n-- > 0 && ( *s++ = *t++ ) != 0);] returns [s] and [n] after it. *)
Fixpoint strncpy_copy (s t n : nat) : M mem (nat * nat) :=
  match n with
  | O => mret (s, 0%nat)
  | S n' =>
      b ← ld t; st s b;;
      if b =? 0 then mret (S s, n') else strncpy_copy (S s) (S t) n'
  end.
Definition strncpy (s t : nat) (n : Z) : M mem nat :=
  r ← strncpy_copy s t (Z.to_nat n);
  stosb (fst r) 0 (snd r);;
  mret s.

(** [while(--n > 0 && ( *s++ = *t++ ) != 0);] with [n] iterations left. *)
Fixpoint safestrcpy_copy (s t n : nat) : M mem nat :=
  match n with
  | O => mret s
  | S n' =>
      b ← ld t; st s b;;
      if b =? 0 then mret (S s) else safestrcpy_copy (S s) (S t) n'
  end.
Definition safestrcpy (s t : nat) (n : Z) : M mem nat :=
  if n <=? 0 then mret s else
  e ← safestrcpy_copy s t (Z.to_nat (n - 1));
  st e 0;;
  mret s.

(** The loop of [strlen]; the memory bounds it. *)
Fixpoint strlen_loop (fuel s n : nat) : M mem Z :=
  match fuel with
  | O => out_of_fuel
  | S fuel' =>
      b ← ld (s + n);
      if b =? 0 then mret (Z.of_nat n) else strlen_loop fuel' s (S n)
  end.
Definition strlen (s : nat) : M mem Z := fun m => strlen_loop (S (length m)) s 0 m.

(** ** Specifications *)
Definition is_byte (b : Z) : Prop := 0 <= b < 256.
Definition bytes (m : mem) : Prop := Forall is_byte m.

Lemma u8_byte b : is_byte b -> u8 b = b.
Proof. intros. by apply Z.mod_small. Qed.

Lemma bytes_lookup (m : mem) a b : bytes m -> m !! a = Some b -> is_byte b.
Proof. intros Hm Ha. by eapply (Forall_lookup_1 _ _ _ _ Hm). Qed.

Lemma ld_ok m a b : m !! a = Some b -> ld a m = Ret b m.
Proof. unfold ld. by intros ->. Qed.

Lemma st_ok m a b : (a < length m)%nat -> st a b m = Ret tt (<[a := u8 b]> m).
Proof. intros. unfold st. by rewrite decide_True. Qed.

Lemma ld_slice (m : mem) a n b xs : slice a (S n) m = b :: xs -> m !! a = Some b /\ slice (S a) n m = xs.
Proof.
  unfold slice. intros H. destruct (drop a m) as [| y l] eqn:E; [done |].
  cbn in H. injection H as -> <-. split.
  - rewrite <- (Nat.add_0_r a), <- lookup_drop, E. done.
  - replace (S a) with (a + 1)%nat by lia. by rewrite <- drop_drop, E.
Qed.

Lemma slice_cons (m : mem) a n :
  (a + S n <= length m)%nat -> exists b, m !! a = Some b /\ slice a (S n) m = b :: slice (S a) n m.
Proof.
  intros. destruct (slice a (S n) m) as [| b xs] eqn:E.
  - apply (f_equal length) in E. rewrite length_slice in E by lia. done.
  - exists b. apply ld_slice in E as [? <-]. done.
Qed.

Lemma stosb_ok cnt a c m :
  (a + cnt <= length m)%nat -> stosb a c cnt m = Ret tt (splice a (replicate cnt (u8 c)) m).
Proof.
  revert a m. induction cnt as [| cnt IH]; intros a m Ha; cbn [stosb replicate].
  - by rewrite splice_nil.
  - erewrite bind_ret by (apply st_ok; lia). rewrite IH by (rewrite length_insert; lia).
    by rewrite splice_cons by (rewrite length_replicate; lia).
Qed.

Lemma stosl_ok cnt a c w m :
  (a + 4 * cnt <= length m)%nat -> 0 <= c < 256 ->
  u8 w = c -> u8 (Z.shiftr w 8) = c -> u8 (Z.shiftr w 16) = c -> u8 (Z.shiftr w 24) = c ->
  stosl a w cnt m = Ret tt (splice a (replicate (4 * cnt) c) m).
Proof.
  intros Ha Hc H0 H1 H2 H3. revert a m Ha. induction cnt as [| cnt IH]; intros a m Ha; cbn [stosl].
  - rewrite Nat.mul_0_r. cbn [replicate]. by rewrite splice_nil.
  - replace (4 * S cnt)%nat with (4 + 4 * cnt)%nat by lia. rewrite replicate_add.
    erewrite bind_ret by (apply st_ok; lia).
    erewrite bind_ret by (apply st_ok; rewrite length_insert; lia).
    erewrite bind_ret by (apply st_ok; rewrite !length_insert; lia).
    erewrite bind_ret by (apply st_ok; rewrite !length_insert; lia).
    rewrite IH by (rewrite !length_insert; lia). rewrite H0, H1, H2, H3. cbn [replicate app].
    rewrite !splice_cons by (cbn; rewrite ?length_insert, length_replicate; lia).
    replace (S a) with (a + 1)%nat by lia. replace (S (a + 1)) with (a + 2)%nat by lia.
    replace (S (a + 2)) with (a + 3)%nat by lia. by replace (S (a + 3)) with (a + 4)%nat by lia.
Qed.

(** The word that [memset] stores holds the byte four times. *)
Definition splat (c : Z) : Z :=
  Z.lor (Z.lor (Z.lor (Z.shiftl c 24) (Z.shiftl c 16)) (Z.shiftl c 8)) c.

Lemma splat_bytes c : 0 <= c < 256 -> le_bytes 4 (splat c) = [c; c; c; c].
Proof.
  intros Hc.
  assert (H : Forall (fun c => le_bytes 4 (splat c) = [c; c; c; c]) (seqZ 0 256)).
  { assert (F : forallb (fun c => bool_decide (le_bytes 4 (splat c) = [c; c; c; c])) (seqZ 0 256) = true)
      by (vm_compute; reflexivity).
    rewrite forallb_forall in F. apply Forall_forall. intros x Hx.
    eapply bool_decide_eq_true_1. apply (F x). by apply list_elem_of_In. }
  eapply Forall_forall in H; [exact H |]. apply elem_of_seqZ. lia.
Qed.

(** [memset] fills [n] bytes from [dst] with the low byte of [c], on the
    aligned path that stores words and on the byte path alike, and changes
    nothing else. *)
Lemma memset_spec (m : mem) (dst n : nat) (c : Z) (Hb : (dst + n <= length m)%nat) :
  memset dst c n m = Ret dst (splice dst (replicate n (u8 c)) m).
Proof.
  unfold memset. case_decide as Hal.
  - assert (Hc : Z.land c 255 = u8 c) by apply (Z.land_ones c 8 ltac:(lia)). cbv zeta. rewrite Hc.
    pose proof (Z.mod_pos_bound c (2 ^ 8) ltac:(lia)) as Hr. fold (u8 c) in Hr.
    pose proof (splat_bytes (u8 c) Hr) as Hs. cbn [le_bytes] in Hs. injection Hs as S0 S1 S2 S3.
    rewrite Z.div_div in S2 by lia. rewrite !Z.div_div in S3 by lia.
    pose proof (Nat.div_mod n 4 ltac:(lia)) as Hdm.
    erewrite bind_ret.
    2:{ apply (stosl_ok (n / 4) dst (u8 c)); [lia | done | ..]; unfold u8 at 1;
        rewrite ?Z.shiftr_div_pow2 by lia; fold (splat (u8 c));
        [exact S0 | exact S1 | exact S2 | exact S3]. }
    by replace (4 * (n / 4))%nat with n by lia.
  - by erewrite bind_ret by by apply stosb_ok.
Qed.

(** ** [memmove] *)
Lemma copy_up_ok n d s m :
  bytes m -> (s + n <= length m)%nat -> (d + n <= length m)%nat -> (d <= s \/ s + n <= d)%nat ->
  copy_up d s n m = Ret tt (splice d (slice s n m) m).
Proof.
  revert d s m. induction n as [| n IH]; intros d s m Hm Hs Hd Hov; cbn [copy_up].
  - unfold slice. by rewrite take_0, splice_nil.
  - destruct (slice_cons m s n Hs) as (b & Hb & ->).
    assert (Hbb : u8 b = b) by (apply u8_byte; by eapply bytes_lookup).
    erewrite bind_ret by by apply ld_ok. erewrite bind_ret by (apply st_ok; lia). rewrite Hbb.
    rewrite splice_cons by (rewrite length_slice; lia).
    assert (Hsl : slice (S s) n (<[d := b]> m) = slice (S s) n m).
    { rewrite <- splice_one by lia. destruct Hov.
      - apply slice_splice_after; cbn; lia.
      - apply slice_splice_before; cbn; lia. }
    rewrite <- Hsl. apply IH; rewrite ?length_insert; try lia.
    apply Forall_insert; [done |]. by eapply bytes_lookup.
Qed.

Lemma slice_snoc (m : mem) a n :
  (a + S n <= length m)%nat ->
  exists b, m !! (a + n)%nat = Some b /\ slice a (S n) m = slice a n m ++ [b].
Proof.
  intros. destruct (lookup_lt_is_Some_2 m (a + n)) as [b Hb]; [lia |].
  exists b. split; [done |]. unfold slice. rewrite (take_S_r _ _ b); [done |]. by rewrite lookup_drop.
Qed.

Lemma copy_down_ok n d s m :
  bytes m -> (s + n <= length m)%nat -> (d + n <= length m)%nat -> (s < d)%nat ->
  copy_down d s n m = Ret tt (splice d (slice s n m) m).
Proof.
  revert m. induction n as [| n IH]; intros m Hm Hs Hd Hov; cbn [copy_down].
  - unfold slice. by rewrite take_0, splice_nil.
  - destruct (slice_snoc m s n Hs) as (b & Hb & ->).
    assert (Hbb : u8 b = b) by (apply u8_byte; by eapply bytes_lookup).
    erewrite bind_ret by by apply ld_ok. erewrite bind_ret by (apply st_ok; lia). rewrite Hbb.
    assert (Hl : length (slice s n m) = n) by (apply length_slice; lia).
    rewrite splice_snoc by (rewrite Hl; lia). rewrite Hl.
    assert (Hsl : slice s n (<[(d + n)%nat := b]> m) = slice s n m).
    { rewrite <- splice_one by lia. apply slice_splice_before; cbn; lia. }
    rewrite <- Hsl. apply IH; rewrite ?length_insert; try lia.
    apply Forall_insert; [done |]. by eapply bytes_lookup.
Qed.

Lemma memmove_ok (m : mem) (dst src n : nat) :
  bytes m -> (src + n <= length m)%nat -> (dst + n <= length m)%nat ->
  memmove dst src n m = Ret dst (splice dst (slice src n m) m).
Proof.
  intros. unfold memmove. case_decide.
  - by erewrite bind_ret by (apply copy_down_ok; done || lia).
  - by erewrite bind_ret by (apply copy_up_ok; done || lia).
Qed.

(** [memmove] leaves in the [n] bytes from [dst] what the [n] bytes from
    [src] held before the call, however the two ranges overlap, and changes
    nothing else; [memcpy] is the same function. *)
Theorem memmove_spec (m : mem) (dst src n : nat) (Hm : bytes m)
  (Hs : (src + n <= length m)%nat) (Hd : (dst + n <= length m)%nat) :
  memmove dst src n m = Ret dst (splice dst (slice src n m) m) /\
  memcpy dst src n m = Ret dst (splice dst (slice src n m) m).
Proof. split; [| unfold memcpy]; by apply memmove_ok. Qed.

Lemma memmove_spec_witness :
  memmove 2 0 4 [1; 2; 3; 4; 5; 6] = Ret 2%nat [1; 2; 1; 2; 3; 4].
Proof.
  refine (eq_trans (proj1 (memmove_spec [1; 2; 3; 4; 5; 6] 2 0 4 _ _ _)) _).
  - repeat (apply Forall_cons; split; [unfold is_byte; lia |]). apply Forall_nil. exact I.
  - cbn. lia.
  - cbn. lia.
  - vm_compute. reflexivity.
Defined.

(** ** C strings *)

(** The bytes of a C string before its terminator. *)
Fixpoint cstr (l : list Z) : list Z :=
  match l with
  | [] => []
  | b :: l' => if b =? 0 then [] else b :: cstr l'
  end.
(** The string at [a] has length [n] and is terminated within the memory. *)
Definition string_at (m : mem) (a : nat) (str : list Z) : Prop :=
  slice a (S (length str)) m = str ++ [0] /\ Forall (fun b => b <> 0) str.

Lemma string_at_byte m a b str : string_at m a (b :: str) -> m !! a = Some b /\ b <> 0 /\ string_at m (S a) str.
Proof.
  intros [Hs Hf]. apply Forall_cons in Hf as [Hb Hf].
  apply (ld_slice m a (S (length str)) b) in Hs as [Ha Hs]. by split_and!.
Qed.

Lemma string_at_nil m a : string_at m a [] -> m !! a = Some 0.
Proof. intros [Hs _]. by apply (ld_slice m a 0 0) in Hs as [? _]. Qed.

Lemma string_at_len m a str : string_at m a str -> (a + length str < length m)%nat.
Proof.
  intros [Hs _]. apply (f_equal length) in Hs. unfold slice in Hs.
  rewrite length_take, length_drop, length_app in Hs. change (length [0]) with 1%nat in Hs. lia.
Qed.

(** [strlen] of a terminated string returns its length and terminates. *)
Lemma strlen_spec (m : mem) (s : nat) (str : list Z) (Hs : string_at m s str) :
  strlen s m = Ret (Z.of_nat (length str)) m.
Proof.
  unfold strlen. pose proof (string_at_len _ _ _ Hs) as Hlen.
  assert (H : forall fuel k rest, (length rest < fuel)%nat -> string_at m (s + k) rest ->
    strlen_loop fuel s k m = Ret (Z.of_nat (k + length rest)) m).
  { induction fuel as [| fuel IH]; intros k rest Hf Hr; [lia |]. cbn [strlen_loop].
    destruct rest as [| b rest].
    - erewrite bind_ret by (apply ld_ok; by apply string_at_nil). cbn. by rewrite Nat.add_0_r.
    - apply string_at_byte in Hr as (Hb & Hb0 & Hr). erewrite bind_ret by by apply ld_ok.
      rewrite (proj2 (Z.eqb_neq _ _)) by done. rewrite IH with (rest := rest).
      + do 2 f_equal. cbn. lia.
      + cbn in Hf. lia.
      + by replace (s + S k)%nat with (S (s + k)) by lia. }
  rewrite (H _ 0%nat str); [done | lia | by rewrite Nat.add_0_r].
Qed.

Lemma safestrcpy_copy_ok k s t m str :
  bytes m -> string_at m t str -> (s + k < length m)%nat ->
  (s + k <= t \/ t + length str < s)%nat ->
  safestrcpy_copy s t k m =
  if decide (length str < k)%nat
  then Ret (s + S (length str))%nat (splice s (str ++ [0]) m)
  else Ret (s + k)%nat (splice s (take k str) m).
Proof.
  revert s t str m. induction k as [| k IH]; intros s t str m Hm Hstr Hs Hov; cbn [safestrcpy_copy].
  - rewrite decide_False by lia. by rewrite take_0, splice_nil, Nat.add_0_r.
  - destruct str as [| b str].
    + apply string_at_nil in Hstr as Hb. erewrite bind_ret by by apply ld_ok.
      erewrite bind_ret by (apply st_ok; lia). rewrite decide_True by (cbn; lia).
      change (u8 0) with 0. cbn [app length Z.eqb]. rewrite splice_one by lia. f_equal. lia.
    + apply string_at_byte in Hstr as (Hb & Hb0 & Hr). erewrite bind_ret by by apply ld_ok.
      assert (Hbb : u8 b = b) by (apply u8_byte; by eapply bytes_lookup).
      erewrite bind_ret by (apply st_ok; lia). rewrite Hbb, (proj2 (Z.eqb_neq _ _)) by done.
      pose proof (string_at_len _ _ _ Hr) as Hlen. cbn [length] in *.
      assert (Hr' : string_at (<[s := b]> m) (S t) str).
      { destruct Hr as [Hsl Hf]. split; [| done]. rewrite <- Hsl, <- splice_one by lia.
        destruct Hov; [apply slice_splice_after | apply slice_splice_before]; cbn; lia. }
      rewrite (IH (S s) (S t) str); [| | done | rewrite length_insert; lia | lia].
      2:{ apply Forall_insert; [done |]. by eapply bytes_lookup. }
      destruct (decide (length str < k)%nat), (decide (S (length str) < S k)%nat); try lia.
      * rewrite <- app_comm_cons, splice_cons by (rewrite length_app; cbn; lia). f_equal. lia.
      * cbn [take]. rewrite splice_cons by (rewrite length_take; lia). f_equal. lia.
Qed.

(** [safestrcpy] of a string into a buffer of [n] bytes that does not
    overlap it leaves in the buffer the first [n - 1] characters of the string
    and a terminator, and writes no byte outside the buffer. *)
Theorem safestrcpy_spec (m : mem) (s t n : nat) (str : list Z) (Hm : bytes m)
  (Hstr : string_at m t str) (Hn : (0 < n)%nat) (Hs : (s + n <= length m)%nat)
  (Hov : (s + n <= t \/ t + length str < s)%nat) :
  exists m', safestrcpy s t (Z.of_nat n) m = Ret s m' /\ length m' = length m /\
    cstr (slice s n m') = take (n - 1) str /\
    forall a, (a < s \/ s + n <= a)%nat -> m' !! a = m !! a.
Proof.
  unfold safestrcpy. rewrite (proj2 (Z.leb_gt _ _)) by lia.
  replace (Z.to_nat (Z.of_nat n - 1)) with (n - 1)%nat by lia.
  assert (Hfin : forall xs e, e = (s + length xs)%nat -> (length xs < n)%nat ->
    cstr (xs ++ [0]) = take (n - 1) str ->
    safestrcpy_copy s t (n - 1) m = Ret e (splice s xs m) ->
    exists m', (safestrcpy_copy s t (n - 1) ≫= fun e => st e 0;; mret s) m = Ret s m' /\
      length m' = length m /\ cstr (slice s n m') = take (n - 1) str /\
      forall a, (a < s \/ s + n <= a)%nat -> m' !! a = m !! a).
  { intros xs e -> Hx Hc Ec. assert (Hl : length (splice s xs m) = length m) by (apply length_splice; lia).
    exists (<[(s + length xs)%nat := 0]> (splice s xs m)). split_and!.
    - erewrite bind_ret by exact Ec. by erewrite bind_ret by (apply st_ok; lia).
    - by rewrite length_insert.
    - rewrite <- Hc.
      assert (E : <[(s + length xs)%nat := 0]> (splice s xs m) = splice s (xs ++ [0]) m).
      { rewrite <- splice_one by lia. apply splice_splice. cbn. lia. }
      rewrite E. rewrite <- (slice_split s (length (xs ++ [0])) n)
        by (rewrite length_app; cbn; lia).
      rewrite slice_splice by (rewrite length_app; cbn; lia).
      generalize (slice (s + length (xs ++ [0])) (n - length (xs ++ [0])) (splice s (xs ++ [0]) m)).
      intros rest. clear. induction xs as [| x xs IH]; cbn; [done |]. destruct (x =? 0); [done |].
      by rewrite IH.
    - intros a Ha. rewrite list_lookup_insert_ne by lia.
      destruct Ha; [apply splice_lookup_lt | apply splice_lookup_ge]; lia. }
  pose proof (safestrcpy_copy_ok (n - 1) s t m str Hm Hstr ltac:(lia) ltac:(lia)) as E.
  assert (Hcs : forall xs, Forall (fun b => b <> 0) xs -> forall rest, cstr (xs ++ 0 :: rest) = xs).
  { intros xs Hf rest. induction Hf as [| x xs Hx Hf IH]; cbn; [done |].
    rewrite (proj2 (Z.eqb_neq _ _)) by done. by rewrite IH. }
  destruct Hstr as [_ Hnz]. case_decide.
  - apply (Hfin (str ++ [0]) (s + S (length str))%nat);
      [rewrite length_app; cbn; lia | rewrite length_app; cbn; lia | | exact E].
    rewrite <- (assoc_L (++)). cbn [app]. rewrite Hcs by done. by rewrite take_ge by lia.
  - apply (Hfin (take (n - 1) str) (s + (n - 1))%nat); [rewrite length_take; lia.. | | exact E].
    apply Hcs. by apply Forall_take.
Qed.

Lemma safestrcpy_spec_witness :
  exists m', safestrcpy 0 4 (Z.of_nat 3) [9; 9; 9; 9; 97; 98; 99; 0] = Ret 0%nat m' /\
    cstr (slice 0 3 m') = [97; 98].
Proof.
  destruct (safestrcpy_spec [9; 9; 9; 9; 97; 98; 99; 0] 0 4 3 [97; 98; 99]) as (m' & E & _ & Hc & _).
  - repeat (apply Forall_cons; split; [unfold is_byte; lia |]). apply Forall_nil. exact I.
  - split; [reflexivity |]. repeat (apply Forall_cons; split; [lia |]). apply Forall_nil. exact I.
  - lia.
  - cbn. lia.
  - cbn. lia.
  - exists m'. split; [exact E | exact Hc].
Defined.

(** [memcmp] is zero exactly on equal ranges, and has the sign of the first
    difference. *)
Lemma memcmp_spec n s1 s2 m :
  (s1 + n <= length m)%nat -> (s2 + n <= length m)%nat ->
  exists r, memcmp s1 s2 n m = Ret r m /\ (r = 0 <-> slice s1 n m = slice s2 n m).
Proof.
  revert s1 s2. induction n as [| n IH]; intros s1 s2 H1 H2; cbn [memcmp].
  { exists 0. unfold slice. by rewrite !take_0. }
  destruct (slice_cons m s1 n H1) as (a & Ha & ->), (slice_cons m s2 n H2) as (b & Hb & ->).
  erewrite !bind_ret by by apply ld_ok. destruct (Z.eqb_spec a b) as [-> | Hne].
  - destruct (IH (S s1) (S s2)) as (r & E & Hr); [lia.. |]. exists r. split; [done |].
    rewrite Hr. split; congruence.
  - exists (a - b). split; [done |]. split; [lia | congruence].
Qed.

(** [strncmp] is zero exactly when the strings agree on their first [n]
    characters, the terminator included. *)
Lemma strncmp_spec n p q m s1 s2 :
  string_at m p s1 -> string_at m q s2 ->
  exists r, strncmp p q n m = Ret r m /\ (r = 0 <-> take n s1 = take n s2).
Proof.
  revert p q s1 s2. induction n as [| n IH]; intros p q s1 s2 H1 H2; cbn [strncmp].
  { exists 0. by rewrite !take_0. }
  destruct s1 as [| a s1].
  - apply string_at_nil in H1. erewrite bind_ret by by apply ld_ok. cbn [Z.eqb].
    destruct s2 as [| b s2].
    + apply string_at_nil in H2. erewrite bind_ret by by apply ld_ok. by exists 0.
    + apply string_at_byte in H2 as (Hb & Hb0 & _). erewrite bind_ret by by apply ld_ok.
      exists (0 - b). split; [done |]. cbn. split; [lia | done].
  - apply string_at_byte in H1 as (Ha & Ha0 & H1). erewrite bind_ret by by apply ld_ok.
    rewrite (proj2 (Z.eqb_neq _ _)) by done. destruct s2 as [| b s2].
    + apply string_at_nil in H2. erewrite bind_ret by by apply ld_ok.
      rewrite (proj2 (Z.eqb_neq _ _)) by done. exists (a - 0). split; [done |]. cbn. split; [lia | done].
    + apply string_at_byte in H2 as (Hb & Hb0 & H2). erewrite bind_ret by by apply ld_ok.
      destruct (Z.eqb_spec a b) as [-> | Hne].
      * destruct (IH (S p) (S q) s1 s2 H1 H2) as (r & E & Hr). exists r. split; [done |].
        rewrite Hr. cbn. split; congruence.
      * exists (a - b). split; [done |]. cbn. split; [lia | congruence].
Qed.
