(* ===== verification/Kernel.v ===== *)
(** * Kernel: the kernel state of xv6-modified and its spin locks

    project3/xv6-modified/{proc.h,param.h,spinlock.c,spinlock.h}.  The kernel
    is built for one CPU ([NCPU] is 1).  The state holds the process table,
    the CPU, the spin locks, the clock and, as a component of its own, whatever
    the memory and file layers keep ([ext]), which the process code reaches
    only through the interface [KernelEnv]. *)

From Stdlib Require Import ZArith Lia.
From stdpp Require Import base numbers strings option list.
From S2P Require Import Prelude.

Definition NPROC : nat := 64.
Definition NOFILE : nat := 16.
Definition PGSIZE : Z := 4096.

Inductive procstate := UNUSED | EMBRYO | SLEEPING | RUNNABLE | RUNNING | ZOMBIE.

#[export] Instance procstate_eq_dec : EqDecision procstate.
Proof. solve_decision. Defined.

(** Wait channels are addresses of kernel objects; those the process code
    itself uses are process slots and [ticks]. *)
Inductive channel := ch_proc (i : nat) | ch_ticks | ch_obj (a : Z).

#[export] Instance channel_eq_dec : EqDecision channel.
Proof. solve_decision. Defined.

(** The statement of [fork], or of [allocproc] called by it, that is executed
    next, once a slot of the table has been taken for the new process. *)
Inductive fork_pc :=
| F_stack      (* p->kstack = kalloc() *)
| F_unused     (* p->state = UNUSED; return *)
| F_context    (* p->context->eip = (uint)forkret *)
| F_copy       (* np->pgdir = copyuvm(curproc->pgdir, curproc->sz) *)
| F_free       (* kfree(np->kstack) *)
| F_clear      (* np->kstack = 0 *)
| F_sz         (* np->sz = curproc->sz *)
| F_parent     (* np->parent = curproc *)
| F_tf         (* *np->tf = *curproc->tf *)
| F_eax        (* np->tf->eax = 0 *)
| F_files (fd : nat)  (* the loop over the open files *)
| F_cwd        (* np->cwd = idup(curproc->cwd) *)
| F_name       (* safestrcpy(np->name, curproc->name, ...) *)
| F_publish.   (* pid = np->pid; from the lock of the table to its release *)

(** Where a process that is not running continues when the scheduler switches
    to it: the return address on its kernel stack.  A call of [sched] keeps
    [intena] in a local variable.  A process that the clock interrupted inside
    [fork] goes on there, with the slot [np] of the new process. *)
Inductive resume :=
| at_forkret
| at_fork (np : nat) (f : fork_pc) (intena : bool)
| at_yield (intena : bool)
| at_sleep (lk : nat) (intena : bool)
| at_wait (intena : bool)
| at_exit (intena : bool).

(** The registers of the trap frame that the process code sets. *)
Record trapframe := mk_tf {
  tf_eax : Z; tf_eip : Z; tf_esp : Z; tf_eflags : Z;
  tf_cs : Z; tf_ds : Z; tf_es : Z; tf_ss : Z
}.
Definition tf_zero : trapframe := mk_tf 0 0 0 0 0 0 0 0.

Record proc := mk_proc {
  sz : Z;
  pgdir : option Z;
  kstack : option Z;
  state : procstate;
  pid : Z;
  parent : option nat;
  tf : trapframe;
  context : resume;
  chan : option channel;
  killed : bool;
  ofile : list (option Z);
  cwd : option Z;
  name : list Z;
  nice : Z;
  prio : Z
}.

(** The table is zero-initialised. *)
Definition proc_zero : proc :=
  mk_proc 0 None None UNUSED 0 None tf_zero at_forkret None false
    (replicate NOFILE None) None (replicate 16 0) 0 0.

Definition set_sz x p := mk_proc x (pgdir p) (kstack p) (state p) (pid p) (parent p) (tf p) (context p) (chan p) (killed p) (ofile p) (cwd p) (name p) (nice p) (prio p).
Definition set_pgdir x p := mk_proc (sz p) x (kstack p) (state p) (pid p) (parent p) (tf p) (context p) (chan p) (killed p) (ofile p) (cwd p) (name p) (nice p) (prio p).
Definition set_kstack x p := mk_proc (sz p) (pgdir p) x (state p) (pid p) (parent p) (tf p) (context p) (chan p) (killed p) (ofile p) (cwd p) (name p) (nice p) (prio p).
Definition set_state x p := mk_proc (sz p) (pgdir p) (kstack p) x (pid p) (parent p) (tf p) (context p) (chan p) (killed p) (ofile p) (cwd p) (name p) (nice p) (prio p).
Definition set_pid x p := mk_proc (sz p) (pgdir p) (kstack p) (state p) x (parent p) (tf p) (context p) (chan p) (killed p) (ofile p) (cwd p) (name p) (nice p) (prio p).
Definition set_parent x p := mk_proc (sz p) (pgdir p) (kstack p) (state p) (pid p) x (tf p) (context p) (chan p) (killed p) (ofile p) (cwd p) (name p) (nice p) (prio p).
Definition set_tf x p := mk_proc (sz p) (pgdir p) (kstack p) (state p) (pid p) (parent p) x (context p) (chan p) (killed p) (ofile p) (cwd p) (name p) (nice p) (prio p).
Definition set_context x p := mk_proc (sz p) (pgdir p) (kstack p) (state p) (pid p) (parent p) (tf p) x (chan p) (killed p) (ofile p) (cwd p) (name p) (nice p) (prio p).
Definition set_chan x p := mk_proc (sz p) (pgdir p) (kstack p) (state p) (pid p) (parent p) (tf p) (context p) x (killed p) (ofile p) (cwd p) (name p) (nice p) (prio p).
Definition set_killed x p := mk_proc (sz p) (pgdir p) (kstack p) (state p) (pid p) (parent p) (tf p) (context p) (chan p) x (ofile p) (cwd p) (name p) (nice p) (prio p).
Definition set_ofile x p := mk_proc (sz p) (pgdir p) (kstack p) (state p) (pid p) (parent p) (tf p) (context p) (chan p) (killed p) x (cwd p) (name p) (nice p) (prio p).
Definition set_cwd x p := mk_proc (sz p) (pgdir p) (kstack p) (state p) (pid p) (parent p) (tf p) (context p) (chan p) (killed p) (ofile p) x (name p) (nice p) (prio p).
Definition set_name x p := mk_proc (sz p) (pgdir p) (kstack p) (state p) (pid p) (parent p) (tf p) (context p) (chan p) (killed p) (ofile p) (cwd p) x (nice p) (prio p).
Definition set_nice x p := mk_proc (sz p) (pgdir p) (kstack p) (state p) (pid p) (parent p) (tf p) (context p) (chan p) (killed p) (ofile p) (cwd p) (name p) x (prio p).
Definition set_priority x p := mk_proc (sz p) (pgdir p) (kstack p) (state p) (pid p) (parent p) (tf p) (context p) (chan p) (killed p) (ofile p) (cwd p) (name p) (nice p) x.

(** The CPU: nesting depth of [pushcli], the interrupt state before the first
    one, the interrupt flag and the running process. *)
Record cpu_t := mk_cpu { ncli : Z; intena : bool; eflags_IF : bool; c_proc : option nat }.

(** A spin lock: taken, and whether its [cpu] field names the CPU. *)
Record spinlock := mk_lock { locked : bool; lk_cpu : bool }.
Definition lock_free : spinlock := mk_lock false false.
Definition lock_held : spinlock := mk_lock true true.

Record kstate (X : Type) := mk_kstate {
  ptable : list proc;
  nextpid : Z;
  initproc : option nat;
  cpu : cpu_t;
  locks : list spinlock;
  ticks : Z;
  ext : X
}.
Arguments mk_kstate {X}.
Arguments ptable {X}.
Arguments nextpid {X}.
Arguments initproc {X}.
Arguments cpu {X}.
Arguments locks {X}.
Arguments ticks {X}.
Arguments ext {X}.

(** Indices of the locks the process code names. *)
Definition ptable_lock : nat := 0.
Definition tickslock : nat := 1.

Section ops.
Context {X : Type}.
Implicit Types s : kstate X.

Definition with_ptable (t : list proc) s : kstate X :=
  mk_kstate t (nextpid s) (initproc s) (cpu s) (locks s) (ticks s) (ext s).
Definition with_nextpid (n : Z) s : kstate X :=
  mk_kstate (ptable s) n (initproc s) (cpu s) (locks s) (ticks s) (ext s).
Definition with_initproc (i : option nat) s : kstate X :=
  mk_kstate (ptable s) (nextpid s) i (cpu s) (locks s) (ticks s) (ext s).
Definition with_cpu (c : cpu_t) s : kstate X :=
  mk_kstate (ptable s) (nextpid s) (initproc s) c (locks s) (ticks s) (ext s).
Definition with_locks (l : list spinlock) s : kstate X :=
  mk_kstate (ptable s) (nextpid s) (initproc s) (cpu s) l (ticks s) (ext s).
Definition with_ticks (n : Z) s : kstate X :=
  mk_kstate (ptable s) (nextpid s) (initproc s) (cpu s) (locks s) n (ext s).
Definition with_ext (x : X) s : kstate X :=
  mk_kstate (ptable s) (nextpid s) (initproc s) (cpu s) (locks s) (ticks s) x.

(** Calls into the other layers act on [ext]. *)
Definition lift {A : Type} (m : M X A) : M (kstate X) A := fun s =>
  match m (ext s) with
  | Ret a x => Ret a (with_ext x s)
  | Stop msg => Stop msg
  | Block c x => Block c (with_ext x s)
  | OutOfFuel => OutOfFuel
  end.

(** ** spinlock.c *)
Definition pushcli : M (kstate X) unit :=
  modify (fun s =>
    let c := cpu s in
    with_cpu (mk_cpu (ncli c + 1) (if ncli c =? 0 then eflags_IF c else intena c) false (c_proc c)) s).

Definition popcli : M (kstate X) unit :=
  c ← gets cpu;
  if eflags_IF c then stop "popcli - interruptible" else
  let n := ncli c - 1 in
  if n <? 0 then stop "popcli" else
  modify (with_cpu (mk_cpu n (intena c) ((n =? 0) && intena c) (c_proc c))).

Definition get_lock (lk : nat) : M (kstate X) spinlock :=
  ls ← gets locks; from_option "no such lock" (ls !! lk).
Definition set_lock (lk : nat) (l : spinlock) : M (kstate X) unit :=
  modify (fun s => with_locks (<[lk := l]> (locks s)) s).

Definition initlock (lk : nat) : M (kstate X) unit := set_lock lk lock_free.

Definition holding (lk : nat) : M (kstate X) bool :=
  pushcli;; l ← get_lock lk; popcli;; mret (locked l && lk_cpu l).

(** [acquire]: with one CPU a lock that is taken by someone else is never
    released while this CPU spins. *)
Definition acquire (lk : nat) : M (kstate X) unit :=
  pushcli;;
  h ← holding lk;
  if (h : bool) then stop "acquire" else
  l ← get_lock lk;
  if locked l then out_of_fuel else
  set_lock lk lock_held.

Definition release (lk : nat) : M (kstate X) unit :=
  h ← holding lk;
  if negb h then stop "release" else
  set_lock lk lock_free;;
  popcli.
End ops.
