(* ===== verification/Proc.v ===== *)
(** * Proc: project3/xv6-modified/proc.c, the process table and its operations

    Each kernel function is a definition over [kstate].  A function that gives
    up the CPU is split where it calls [swtch]: the part before it ends by
    switching to the scheduler, the part after it runs when the scheduler
    resumes the process ([context] says which one).  [switchuvm], [switchkvm]
    and the frame layout on the kernel stack are hardware state and left out. *)

From Stdlib Require Import ZArith Lia.
From stdpp Require Import base numbers strings option list.
From S2P Require Import Prelude Kernel KString.

(** ** What the process code uses of the memory and file layers *)
Class KernelEnv (X : Type) := {
  kalloc : M X (option Z);
  kfree : Z -> M X unit;
  setupkvm : M X (option Z);
  inituvm : Z -> M X unit;
  copyuvm : Z -> Z -> M X (option Z);
  freevm : Z -> M X unit;
  allocuvm : Z -> Z -> Z -> M X Z;
  deallocuvm : Z -> Z -> Z -> M X Z;
  filedup : Z -> M X Z;
  fileclose : Z -> M X unit;
  idup : Z -> M X Z;
  iput : Z -> M X unit;
  begin_op : M X unit;
  end_op : M X unit;
  namei_root : M X (option Z)
}.

Section code.
Context {X : Type} {E : KernelEnv X}.
Abbreviation K := (M (kstate X)).

(** [ptable.proc[i]]. *)
Definition get_proc (i : nat) : K proc :=
  t ← gets ptable; from_option "process table out of bounds" (t !! i).
Definition set_proc (i : nat) (p : proc) : K unit :=
  modify (fun s => with_ptable (<[i := p]> (ptable s)) s).
Definition upd_proc (i : nat) (f : proc -> proc) : K unit :=
  p ← get_proc i; set_proc i (f p).

Definition myproc : K (option nat) :=
  pushcli;; c ← gets cpu; popcli;; mret (c_proc c).
(** A dereference of [myproc()]. *)
Definition curproc : K nat :=
  o ← myproc; from_option "null process" o.

(** [allocproc] up to the release of the lock: an UNUSED slot becomes EMBRYO,
    with the next process identifier.  The increment of [nextpid], an [int], is
    undefined in C at its largest value: the model stops there. *)
Definition alloc_slot : K (option nat) :=
  acquire ptable_lock;;
  t ← gets ptable;
  match find_index (fun p => bool_decide (state p = UNUSED)) t with
  | None => release ptable_lock;; mret None
  | Some i =>
      n ← gets nextpid;
      assertb "nextpid overflows" (n <? 2 ^ 31 - 1);;
      upd_proc i (fun p => set_pid n (set_priority 0 (set_nice 0 (set_state EMBRYO p))));;
      modify (with_nextpid (n + 1));;
      release ptable_lock;;
      mret (Some i)
  end.
Definition allocproc : K (option nat) :=
  o ← alloc_slot;
  match o with
  | None => mret None
  | Some i =>
      ks ← lift kalloc;
      upd_proc i (set_kstack ks);;
      match ks with
      | None => upd_proc i (set_state UNUSED);; mret None
      | Some _ => upd_proc i (set_context at_forkret);; mret (Some i)
      end
  end.

(** [(SEG_UCODE << 3) | DPL_USER], [(SEG_UDATA << 3) | DPL_USER], [FL_IF]. *)
Definition UCODE : Z := 27.
Definition UDATA : Z := 35.
Definition FL_IF : Z := 512.

(** [safestrcpy(dst, src, sizeof(p->name))], run by the model of string.c on
    the two buffers side by side; [src] is followed by a terminator. *)
Definition copy_name (dst src : list Z) : list Z :=
  match safestrcpy 0 (length dst) 16 (dst ++ src ++ [0]) with
  | Ret _ m => take (length dst) m
  | _ => dst
  end.
Definition initcode : list Z := [105; 110; 105; 116; 99; 111; 100; 101].

Definition userinit : K unit :=
  o ← allocproc;
  modify (with_initproc o);;
  p ← from_option "null process" o;
  pg ← lift setupkvm;
  upd_proc p (set_pgdir pg);;
  match pg with
  | None => stop "userinit: out of memory?"
  | Some d =>
      lift (inituvm d);;
      upd_proc p (set_sz PGSIZE);;
      upd_proc p (set_tf (mk_tf 0 0 PGSIZE FL_IF UCODE UDATA UDATA UDATA));;
      upd_proc p (fun q => set_name (copy_name (name q) initcode) q);;
      d' ← lift namei_root;
      upd_proc p (set_cwd d');;
      acquire ptable_lock;;
      upd_proc p (set_state RUNNABLE);;
      release ptable_lock
  end.

Definition growproc (n : Z) : K Z :=
  i ← curproc;
  p ← get_proc i;
  d ← from_option "null page table" (pgdir p);
  if n >? 0 then
    sz' ← lift (allocuvm d (sz p) (u32 (sz p + n)));
    if sz' =? 0 then mret (-1) else upd_proc i (set_sz sz');; mret 0
  else if n <? 0 then
    sz' ← lift (deallocuvm d (sz p) (u32 (sz p + n)));
    if sz' =? 0 then mret (-1) else upd_proc i (set_sz sz');; mret 0
  else upd_proc i (set_sz (sz p));; mret 0.

(** The [filedup] loop of [fork]. *)
Fixpoint dup_files (i np : nat) (fd : nat) (fs : list (option Z)) : K unit :=
  match fs with
  | [] => skip
  | None :: fs' => dup_files i np (S fd) fs'
  | Some f :: fs' =>
      f' ← lift (filedup f);
      upd_proc np (fun q => set_ofile (<[fd := Some f']> (ofile q)) q);;
      dup_files i np (S fd) fs'
  end.

Definition fork : K Z :=
  i ← curproc;
  o ← allocproc;
  match o with
  | None => mret (-1)
  | Some np =>
      p ← get_proc i;
      d ← from_option "null page table" (pgdir p);
      pg ← lift (copyuvm d (sz p));
      upd_proc np (set_pgdir pg);;
      match pg with
      | None =>
          q ← get_proc np;
          ks ← from_option "null kernel stack" (kstack q);
          lift (kfree ks);;
          upd_proc np (fun q => set_state UNUSED (set_kstack None q));;
          mret (-1)
      | Some _ =>
          upd_proc np (fun q => set_parent (Some i) (set_sz (sz p) q));;
          upd_proc np (set_tf (mk_tf 0 (tf_eip (tf p)) (tf_esp (tf p)) (tf_eflags (tf p))
                                 (tf_cs (tf p)) (tf_ds (tf p)) (tf_es (tf p)) (tf_ss (tf p))));;
          dup_files i np 0 (ofile p);;
          c ← from_option "null inode" (cwd p);
          c' ← lift (idup c);
          upd_proc np (set_cwd (Some c'));;
          upd_proc np (fun q => set_name (copy_name (name q) (cstr (name p))) q);;
          q ← get_proc np;
          acquire ptable_lock;;
          upd_proc np (fun q => set_priority (prio p) (set_state RUNNABLE q));;
          release ptable_lock;;
          mret (pid q)
      end
  end.

(** The same code one statement at a time: outside its critical sections [fork]
    runs with interrupts on, and the clock may take the CPU from it between any
    two statements.  [fork_next] is the statement [f], with the statement after
    it or the result of [fork]; process [i] forks into slot [np]. *)
Definition fork_next (i np : nat) (f : fork_pc) : K (fork_pc + Z) :=
  match f with
  | F_stack =>
      ks ← lift kalloc;
      upd_proc np (set_kstack ks);;
      mret (inl (match ks with None => F_unused | Some _ => F_context end))
  | F_unused => upd_proc np (set_state UNUSED);; mret (inr (-1))
  | F_context => upd_proc np (set_context at_forkret);; mret (inl F_copy)
  | F_copy =>
      p ← get_proc i;
      d ← from_option "null page table" (pgdir p);
      pg ← lift (copyuvm d (sz p));
      upd_proc np (set_pgdir pg);;
      mret (inl (match pg with None => F_free | Some _ => F_sz end))
  | F_free =>
      q ← get_proc np;
      ks ← from_option "null kernel stack" (kstack q);
      lift (kfree ks);;
      mret (inl F_clear)
  | F_clear => upd_proc np (set_kstack None);; mret (inl F_unused)
  | F_sz => p ← get_proc i; upd_proc np (set_sz (sz p));; mret (inl F_parent)
  | F_parent => upd_proc np (set_parent (Some i));; mret (inl F_tf)
  | F_tf => p ← get_proc i; upd_proc np (set_tf (tf p));; mret (inl F_eax)
  | F_eax =>
      upd_proc np (fun q => set_tf (mk_tf 0 (tf_eip (tf q)) (tf_esp (tf q)) (tf_eflags (tf q))
                               (tf_cs (tf q)) (tf_ds (tf q)) (tf_es (tf q)) (tf_ss (tf q))) q);;
      mret (inl (F_files 0))
  | F_files fd =>
      p ← get_proc i;
      match ofile p !! fd with
      | None => mret (inl F_cwd)
      | Some None => mret (inl (F_files (S fd)))
      | Some (Some f) =>
          f' ← lift (filedup f);
          upd_proc np (fun q => set_ofile (<[fd := Some f']> (ofile q)) q);;
          mret (inl (F_files (S fd)))
      end
  | F_cwd =>
      p ← get_proc i;
      c ← from_option "null inode" (cwd p);
      c' ← lift (idup c);
      upd_proc np (set_cwd (Some c'));;
      mret (inl F_name)
  | F_name =>
      p ← get_proc i;
      upd_proc np (fun q => set_name (copy_name (name q) (cstr (name p))) q);;
      mret (inl F_publish)
  | F_publish =>
      q ← get_proc np;
      acquire ptable_lock;;
      p ← get_proc i;
      upd_proc np (fun q => set_priority (prio p) (set_state RUNNABLE q));;
      release ptable_lock;;
      mret (inr (pid q))
  end.

(** ** [wakeup1], [wakeup], [kill] *)
Definition wake (ch : option channel) (p : proc) : proc :=
  if decide (state p = SLEEPING /\ chan p = ch) then set_state RUNNABLE p else p.
Definition wakeup1 (ch : option channel) : K unit :=
  modify (fun s => with_ptable (map (wake ch) (ptable s)) s).
Definition wakeup (ch : option channel) : K unit :=
  acquire ptable_lock;; wakeup1 ch;; release ptable_lock.

Definition kill (n : Z) : K Z :=
  acquire ptable_lock;;
  t ← gets ptable;
  match find_index (fun p => pid p =? n) t with
  | Some i =>
      upd_proc i (fun p => let p := set_killed true p in
                  if decide (state p = SLEEPING) then set_state RUNNABLE p else p);;
      release ptable_lock;;
      mret 0
  | None => release ptable_lock;; mret (-1)
  end.

(** ** Giving up the CPU

    [sched_switch] is [sched] up to the [swtch]: its checks, and the saved
    [intena] and return address.  What follows the [swtch] in the caller runs
    in [resume_proc]. *)
Definition sched_switch (at_ : bool -> resume) : K unit :=
  i ← curproc;
  h ← holding ptable_lock;
  if negb h then stop "sched ptable.lock" else
  c ← gets cpu;
  if negb (ncli c =? 1) then stop "sched locks" else
  p ← get_proc i;
  if decide (state p = RUNNING) then stop "sched running" else
  if eflags_IF c then stop "sched interruptible" else
  upd_proc i (set_context (at_ (intena c))).

(** [yield], with what its caller does next. *)
Definition yield_at (at_ : bool -> resume) : K unit :=
  acquire ptable_lock;;
  i ← curproc;
  upd_proc i (set_state RUNNABLE);;
  sched_switch at_.
Definition yield_ : K unit := yield_at at_yield.

(** [sleep(chan, lk)] up to the [swtch]; [lk = ptable_lock] is the call from
    [wait]. *)
Definition sleep_enter (ch : channel) (lk : nat) (at_ : bool -> resume) : K unit :=
  i ← curproc;
  (if decide (lk = ptable_lock) then skip else acquire ptable_lock;; release lk);;
  upd_proc i (fun p => set_state SLEEPING (set_chan (Some ch) p));;
  sched_switch at_.

(** The [fileclose] loop of [exit]. *)
Fixpoint close_files (i fd : nat) (fs : list (option Z)) : K unit :=
  match fs with
  | [] => skip
  | None :: fs' => close_files i (S fd) fs'
  | Some f :: fs' =>
      lift (fileclose f);;
      upd_proc i (fun p => set_ofile (<[fd := None]> (ofile p)) p);;
      close_files i (S fd) fs'
  end.

(** "Pass abandoned children to init": the loop over the table from slot [k]. *)
Fixpoint reparent (n k i : nat) : K unit :=
  match n with
  | O => skip
  | S n' =>
      p ← get_proc k;
      (if decide (parent p = Some i) then
         ip ← gets initproc;
         upd_proc k (set_parent ip);;
         if decide (state p = ZOMBIE) then wakeup1 (ch_proc <$> ip) else skip
       else skip);;
      reparent n' (S k) i
  end.

(** [exit] from the lock of the table on. *)
Definition exit_end (i : nat) : K unit :=
  acquire ptable_lock;;
  p ← get_proc i;
  wakeup1 (ch_proc <$> parent p);;
  reparent NPROC 0 i;;
  upd_proc i (set_state ZOMBIE);;
  sched_switch at_exit.

Definition exit_ : K unit :=
  i ← curproc;
  ip ← gets initproc;
  if decide (Some i = ip) then stop "init exiting" else
  p ← get_proc i;
  close_files i 0 (ofile p);;
  lift begin_op;;
  p ← get_proc i;
  c ← from_option "null inode" (cwd p);
  lift (iput c);;
  lift end_op;;
  upd_proc i (set_cwd None);;
  exit_end i.

(** One pass of the loop of [wait]: the pid of the zombie it reaps, -1, or
    [None] when it has to sleep. *)
Definition wait_scan (i : nat) : K (option Z) :=
  t ← gets ptable;
  let child p := bool_decide (parent p = Some i) in
  match find_index (fun p => child p && bool_decide (state p = ZOMBIE)) t with
  | Some k =>
      p ← get_proc k;
      ks ← from_option "null kernel stack" (kstack p);
      lift (kfree ks);;
      d ← from_option "null page table" (pgdir p);
      lift (freevm d);;
      upd_proc k (fun p => set_state UNUSED (set_priority 0 (set_killed false
        (set_name (<[0%nat := 0]> (name p)) (set_parent None (set_pid 0 (set_kstack None p)))))));;
      release ptable_lock;;
      mret (Some (pid p))
  | None =>
      p ← get_proc i;
      if negb (existsb child t) || killed p then
        release ptable_lock;; mret (Some (-1))
      else mret None
  end.

(** [wait] from its entry and from a wakeup: a result, or the process sleeps. *)
Definition wait_loop (i : nat) : K (option Z) :=
  r ← wait_scan i;
  match r with
  | Some v => mret (Some v)
  | None => sleep_enter (ch_proc i) ptable_lock at_wait;; mret None
  end.
Definition wait_ : K (option Z) :=
  i ← curproc; acquire ptable_lock;; wait_loop i.

(** ** The scheduler *)

(** [highest], computed before the lock is taken. *)
Definition highest_prio (t : list proc) : Z :=
  foldl (fun h p => if decide (state p = RUNNABLE) then if prio p >=? h then prio p else h else h) 0 t.

Definition eligible (h : Z) (p : proc) : bool :=
  bool_decide (state p = RUNNABLE) && (prio p =? h).

(** The start of one round of [for(;;)]: [sti], then [highest]; the lock is
    taken after that. *)
Definition sched_choose : K Z :=
  modify (fun s => with_cpu (mk_cpu (ncli (cpu s)) (intena (cpu s)) true (c_proc (cpu s))) s);;
  t ← gets ptable;
  mret (highest_prio t).
Definition sched_lock : K unit := acquire ptable_lock.

(** The next process of the table scan from slot [k], made RUNNING. *)
Definition sched_pick (h : Z) (k : nat) : K (option nat) :=
  t ← gets ptable;
  match find_index (eligible h) (drop k t) with
  | None => mret None
  | Some d =>
      let i := (k + d)%nat in
      modify (fun s => with_cpu (mk_cpu (ncli (cpu s)) (intena (cpu s)) (eflags_IF (cpu s)) (Some i)) s);;
      upd_proc i (set_state RUNNING);;
      mret (Some i)
  end.

(** After the [swtch] back. *)
Definition sched_back (i : nat) : K unit :=
  upd_proc i (fun p => set_nice (u32 (nice p + 1)) p);;
  modify (fun s => with_cpu (mk_cpu (ncli (cpu s)) (intena (cpu s)) (eflags_IF (cpu s)) None) s).

Definition sched_end : K unit := release ptable_lock.

(** The rest of [sched] and of its caller when process [i] is resumed; a
    process in [wait] may go back to sleep, and returns otherwise. *)
Definition set_intena (b : bool) : K unit :=
  modify (fun s => with_cpu (mk_cpu (ncli (cpu s)) b (eflags_IF (cpu s)) (c_proc (cpu s))) s).

Inductive resumed :=
| continues (lk : option nat) | continues_fork (np : nat) (f : fork_pc) | returns_wait (v : Z) | sleeps_again.

Definition resume_proc (i : nat) : K resumed :=
  p ← get_proc i;
  match context p with
  | at_forkret => release ptable_lock;; mret (continues None)
  | at_fork np f b => set_intena b;; release ptable_lock;; mret (continues_fork np f)
  | at_yield b => set_intena b;; release ptable_lock;; mret (continues None)
  | at_sleep lk b =>
      set_intena b;;
      upd_proc i (set_chan None);;
      release ptable_lock;;
      acquire lk;;
      mret (continues (Some lk))
  | at_exit b => set_intena b;; stop "zombie exit"
  | at_wait b =>
      set_intena b;;
      upd_proc i (set_chan None);;
      r ← wait_loop i;
      mret (match r with Some v => returns_wait v | None => sleeps_again end)
  end.

(** The timer interrupt of trap.c, up to the [yield]. *)
Definition timer_tick : K unit :=
  acquire tickslock;;
  modify (fun s => with_ticks (u32 (ticks s + 1)) s);;
  wakeup (Some ch_ticks);;
  release tickslock.

(** ** The added system calls *)
Definition get_num_proc : K Z :=
  t ← gets ptable;
  mret (foldl (fun n p => if decide (state p = UNUSED) then n else n + 1) 0 t).

Definition get_max_pid : K Z :=
  t ← gets ptable;
  mret (foldl (fun m p => if decide (state p = UNUSED) then m
                          else if m >? pid p then m else pid p) 0 t).

Record processInfo := mk_info { ppid : Z; psize : Z; numberContextSwitches : Z }.

Definition get_proc_info (n : Z) : K (option processInfo) :=
  t ← gets ptable;
  match find_index (fun p => pid p =? n) t with
  | Some i =>
      p ← get_proc i;
      pp ← (match parent p with
            | Some j => q ← get_proc j; mret (pid q)
            | None => mret 0
            end);
      mret (Some (mk_info pp (s32 (sz p)) (s32 (nice p))))
  | None => mret None
  end.

Definition get_prio : K Z :=
  acquire ptable_lock;;
  i ← curproc; p ← get_proc i;
  release ptable_lock;;
  mret (prio p).

Definition set_prio (n : Z) : K Z :=
  acquire ptable_lock;;
  i ← curproc;
  upd_proc i (set_priority n);;
  release ptable_lock;;
  mret 0.
End code.

(** ** The counting system calls *)

(** [get_num_proc] is the number of entries in use, and [get_max_pid] is
    the largest identifier in use (0 when there is none); neither changes the
    state. *)
Theorem proc_queries `{KernelEnv X} (s : kstate X) :
  get_num_proc s = Ret (Z.of_nat (length (filter (fun p => state p <> UNUSED) (ptable s)))) s /\
  exists m, get_max_pid s = Ret m s /\ 0 <= m /\
    (forall p, p ∈ ptable s -> state p <> UNUSED -> pid p <= m) /\
    (m = 0 \/ exists p, p ∈ ptable s /\ state p <> UNUSED /\ pid p = m).
Proof.
  split.
  - unfold get_num_proc. erewrite bind_ret by done.
    assert (Hn : forall t n, foldl (fun n p => if decide (state p = UNUSED) then n else n + 1) n t =
      n + Z.of_nat (length (filter (fun p => state p <> UNUSED) t))).
    { induction t as [| p t IH]; intros n; cbn [foldl]; [cbn; lia |]. rewrite IH, filter_cons.
      destruct (decide (state p = UNUSED)); [rewrite decide_False by tauto | rewrite decide_True by done];
        cbn; lia. }
    by rewrite Hn.
  - unfold get_max_pid. erewrite bind_ret by done. eexists. split; [done |].
    generalize (ptable s). intros t.
    assert (Hm : forall t m0,
      let m := foldl (fun m p => if decide (state p = UNUSED) then m
                                 else if m >? pid p then m else pid p) m0 t in
      m0 <= m /\ (forall p, p ∈ t -> state p <> UNUSED -> pid p <= m) /\
      (m = m0 \/ exists p, p ∈ t /\ state p <> UNUSED /\ pid p = m)).
    { clear. induction t as [| p t IH]; intros m0; cbn [foldl].
      { split_and!; [lia | by intros p ?%elem_of_nil | by left]. }
      set (m1 := if decide (state p = UNUSED) then m0 else if m0 >? pid p then m0 else pid p).
      assert (H1 : m0 <= m1 /\ (state p <> UNUSED -> pid p <= m1) /\ (m1 = m0 \/ state p <> UNUSED /\ pid p = m1)).
      { unfold m1. case_decide; [split_and!; [lia | done | by left] |].
        rewrite Z.gtb_ltb. destruct (Z.ltb_spec (pid p) m0); (split; [lia | split; [intros; lia |]]);
          [by left | by right]. }
      destruct (IH m1) as (I1 & I2 & I3), H1 as (J1 & J2 & J3). cbv zeta in *. split_and!.
      - lia.
      - intros q [-> | Hq]%elem_of_cons Hu; [specialize (J2 Hu); lia | by apply I2].
      - destruct I3 as [I3 | (q & Hq & Hu & Hp)].
        + rewrite I3. destruct J3 as [-> | [Hu Hp]]; [by left | right]. exists p.
          split; [apply list_elem_of_here | done].
        + right. exists q. split; [by apply list_elem_of_further | done]. }
    destruct (Hm t 0) as (H1 & H2 & H3). by split_and!.
Qed.
