(* ===== verification/ProcSpec.v ===== *)
(** * ProcSpec: what the spin locks and the process operations do to the state

    [acq] and [rel] are the effects of [acquire] and [release]; the lemmas in
    [_inv] form read an operation that returned backwards, those in [_eq] form
    show that it returns. *)

From Stdlib Require Import ZArith Lia.
From stdpp Require Import base numbers strings option sets list.
From S2P Require Import Prelude Kernel KString Proc.

Section locks.
Context {X : Type}.
Implicit Types s : kstate X.

Definition acq (lk : nat) s : kstate X :=
  let c := cpu s in
  with_locks (<[lk := lock_held]> (locks s))
    (with_cpu (mk_cpu (ncli c + 1) (if ncli c =? 0 then eflags_IF c else intena c) false (c_proc c)) s).
Definition rel (lk : nat) s : kstate X :=
  let c := cpu s in
  with_locks (<[lk := lock_free]> (locks s))
    (with_cpu (mk_cpu (ncli c - 1) (intena c) ((ncli c - 1 =? 0) && intena c) (c_proc c)) s).

(** Interrupts are off inside [pushcli]. *)
Definition cli_ok s : Prop := 0 <= ncli (cpu s) /\ (0 < ncli (cpu s) -> eflags_IF (cpu s) = false).

(** A matched [pushcli]/[popcli] pair at depth zero refreshes [intena]. *)
Definition touch s : kstate X :=
  let c := cpu s in
  with_cpu (mk_cpu (ncli c) (if ncli c =? 0 then eflags_IF c else intena c) (eflags_IF c) (c_proc c)) s.

Lemma touch_inside s : 0 < ncli (cpu s) -> touch s = s.
Proof.
  intros. unfold touch. rewrite (proj2 (Z.eqb_neq _ _)) by lia.
  destruct s as [? ? ? [] ? ? ?]. done.
Qed.

Lemma pushcli_popcli s :
  cli_ok s -> (pushcli;; popcli) s = Ret tt (touch s).
Proof.
  intros [H0 H1]. unfold pushcli, popcli, modify, gets, mbind, M_bind. cbn.
  replace (ncli (cpu s) + 1 - 1) with (ncli (cpu s)) by lia.
  rewrite (proj2 (Z.ltb_ge _ _)) by lia. unfold touch, with_cpu. cbn.
  destruct (Z.eqb_spec (ncli (cpu s)) 0) as [E | E]; cbn; [done |]. by rewrite H1 by lia.
Qed.

Lemma holding_eq s lk l :
  cli_ok s -> locks s !! lk = Some l ->
  holding lk s = Ret (locked l && lk_cpu l) (touch s).
Proof.
  intros Hc Hl. pose proof (pushcli_popcli s Hc) as E. unfold holding.
  destruct (pushcli s) as [u s1 | | |] eqn:Ep; try done.
  assert (Hl1 : locks s1 = locks s) by (unfold pushcli, modify in Ep; by injection Ep as _ <-).
  erewrite bind_ret in E by exact Ep. erewrite bind_ret by exact Ep.
  erewrite bind_ret.
  2:{ unfold get_lock. erewrite bind_ret by done. by rewrite Hl1, Hl. }
  by erewrite bind_ret by exact E.
Qed.

Lemma acquire_eq s lk :
  cli_ok s -> locks s !! lk = Some lock_free -> acquire lk s = Ret tt (acq lk s).
Proof.
  intros [H0 H1] Hl. unfold acquire.
  destruct (pushcli s) as [u s1 | | |] eqn:Ep; try done.
  unfold pushcli, modify in Ep. injection Ep as _ <-. erewrite bind_ret by done.
  set (s1 := with_cpu _ s).
  assert (Hc1 : cli_ok s1) by (split; cbn; [lia | done]).
  erewrite bind_ret by (apply holding_eq; [done | exact Hl]). cbn [locked lk_cpu lock_free andb].
  rewrite touch_inside by (cbn; lia).
  erewrite bind_ret by (unfold get_lock; erewrite bind_ret by done; cbn; by rewrite Hl).
  done.
Qed.

Lemma release_eq s lk :
  0 < ncli (cpu s) -> eflags_IF (cpu s) = false -> locks s !! lk = Some lock_held ->
  release lk s = Ret tt (rel lk s).
Proof.
  intros H0 H1 Hl. unfold release.
  erewrite bind_ret by (apply holding_eq; [by split; [lia |] | exact Hl]).
  cbn [locked lk_cpu lock_held andb negb]. rewrite touch_inside by done.
  erewrite bind_ret by done. unfold popcli, gets, mbind, M_bind. cbn.
  rewrite H1, (proj2 (Z.ltb_ge _ _)) by lia. done.
Qed.

(** Reading backwards: whatever the state, these calls change the CPU and
    the locks only. *)
Definition same_table s s' : Prop :=
  ptable s' = ptable s /\ nextpid s' = nextpid s /\ initproc s' = initproc s /\
  ticks s' = ticks s /\ ext s' = ext s /\ c_proc (cpu s') = c_proc (cpu s) /\
  length (locks s') = length (locks s).

Lemma same_table_refl s : same_table s s.
Proof. done. Qed.
Lemma same_table_trans s1 s2 s3 : same_table s1 s2 -> same_table s2 s3 -> same_table s1 s3.
Proof. unfold same_table. intuition congruence. Qed.

Lemma pushcli_inv s u s' : pushcli s = Ret u s' -> same_table s s'.
Proof. unfold pushcli, modify. by intros [= _ <-]. Qed.
Lemma popcli_inv s u s' : popcli s = Ret u s' -> same_table s s'.
Proof.
  unfold popcli. intros (c & s1 & [= <- <-] & H)%bind_inv.
  destruct (eflags_IF _); [done |]. cbv zeta in H. destruct (_ <? 0); [done |].
  by injection H as _ <-.
Qed.
Lemma get_lock_inv lk s l s' : get_lock lk s = Ret l s' -> s' = s /\ locks s !! lk = Some l.
Proof.
  unfold get_lock. intros (ls & s1 & [= <- <-] & H)%bind_inv.
  destruct (locks s !! lk); [| done]. by injection H as -> ->.
Qed.
Lemma set_lock_inv lk l s u s' : set_lock lk l s = Ret u s' -> same_table s s'.
Proof. unfold set_lock, modify. intros [= _ <-]. repeat split. cbn. by rewrite length_insert. Qed.

Lemma holding_inv lk s b s' : holding lk s = Ret b s' -> same_table s s'.
Proof.
  unfold holding. intros (u & s1 & E1%pushcli_inv & H)%bind_inv.
  apply bind_inv in H as (l & s2 & [-> _]%get_lock_inv & H).
  apply bind_inv in H as (u2 & s3 & E3%popcli_inv & H). injection H as _ <-.
  by eapply same_table_trans.
Qed.

Lemma acquire_inv lk s u s' : acquire lk s = Ret u s' -> same_table s s'.
Proof.
  unfold acquire. intros (u1 & s1 & E1%pushcli_inv & H)%bind_inv.
  apply bind_inv in H as (h & s2 & E2%holding_inv & H). destruct h; [done |].
  apply bind_inv in H as (l & s3 & [-> _]%get_lock_inv & H). destruct (locked l); [done |].
  apply set_lock_inv in H. eauto using same_table_trans.
Qed.

Lemma release_inv lk s u s' : release lk s = Ret u s' -> same_table s s'.
Proof.
  unfold release. intros (h & s1 & E1%holding_inv & H)%bind_inv. destruct h; [| done]. cbn in H.
  apply bind_inv in H as (u1 & s2 & E2%set_lock_inv & H). apply popcli_inv in H.
  eauto using same_table_trans.
Qed.

Lemma myproc_inv s o s' : myproc s = Ret o s' -> same_table s s' /\ o = c_proc (cpu s).
Proof.
  unfold myproc. intros (u1 & s1 & E1%pushcli_inv & H)%bind_inv.
  apply bind_inv in H as (c & s2 & [= <- <-] & H).
  apply bind_inv in H as (u2 & s3 & E2%popcli_inv & H). injection H as <- <-.
  split; [by eapply same_table_trans |]. by destruct E1 as (_ & _ & _ & _ & _ & ? & _).
Qed.

Lemma curproc_inv s i s' : curproc s = Ret i s' -> same_table s s' /\ c_proc (cpu s) = Some i.
Proof.
  unfold curproc. intros (o & s1 & [E1 ->]%myproc_inv & H)%bind_inv.
  destruct (c_proc (cpu s)) eqn:E; [| done]. by injection H as -> <-.
Qed.

Lemma curproc_eq s i : cli_ok s -> c_proc (cpu s) = Some i -> curproc s = Ret i (touch s).
Proof.
  intros Hc Hi. pose proof (pushcli_popcli s Hc) as E. unfold curproc, myproc.
  destruct (pushcli s) as [u s1 | | |] eqn:Ep; try done.
  pose proof (pushcli_inv _ _ _ Ep) as (_ & _ & _ & _ & _ & Hp & _).
  erewrite bind_ret in E by exact Ep.
  erewrite bind_ret.
  2:{ erewrite bind_ret by exact Ep. erewrite bind_ret by done.
      erewrite bind_ret by exact E. done. }
  by rewrite Hp, Hi.
Qed.
End locks.

(** ** The process table invariant *)
Definition live (p : proc) : Prop :=
  state p = SLEEPING \/ state p = RUNNABLE \/ state p = RUNNING.

#[export] Instance live_dec p : Decision (live p).
Proof. unfold live. apply _. Defined.

(** A suspended process continues somewhere it can run from: interrupts were
    on when it gave up the CPU, and the lock it takes back is not
    [ptable.lock]. *)
Definition ctx_ok (nl : nat) (r : resume) : Prop :=
  match r with
  | at_forkret => True
  | at_yield b | at_wait b | at_fork _ _ b => b = true
  | at_sleep lk b => b = true /\ lk <> ptable_lock /\ (lk < nl)%nat
  | at_exit _ => False
  end.

(** The fork that a suspended process is in the middle of. *)
Definition ctx_fork (r : resume) : option (nat * fork_pc) :=
  match r with at_fork np f _ => Some (np, f) | _ => None end.

Record proc_ok (np : Z) (nl : nat) (p : proc) : Prop := {
  po_used : state p <> UNUSED -> 0 < pid p < np;
  po_built : state p <> UNUSED -> state p <> EMBRYO -> is_Some (kstack p) /\ is_Some (pgdir p);
  po_unused : state p = UNUSED -> parent p = None;
  po_chan : state p = SLEEPING -> is_Some (chan p) /\ ctx_fork (context p) = None;
  po_ctx : state p = SLEEPING \/ state p = RUNNABLE -> ctx_ok nl (context p)
}.

(** Exactly the CPU's process is RUNNING. *)
Definition runs (t : list proc) (cur : option nat) : Prop :=
  forall i, cur = Some i <-> exists p, t !! i = Some p /\ state p = RUNNING.

(** Process identifiers are unique, and every process but init, once it is
    built, has a parent that is alive. *)
Record table_inv (t : list proc) (np : Z) (ip : option nat) (nl : nat) : Prop := {
  ti_len : length t = NPROC;
  ti_np : 1 <= np < 2 ^ 31;
  ti_ok : Forall (proc_ok np nl) t;
  ti_uniq : forall i j p q, t !! i = Some p -> t !! j = Some q ->
    state p <> UNUSED -> state q <> UNUSED -> pid p = pid q -> i = j;
  ti_init : exists i p, ip = Some i /\ t !! i = Some p /\ live p;
  ti_parent : forall i p, t !! i = Some p -> state p <> UNUSED -> state p <> EMBRYO -> ip <> Some i ->
    exists j q, parent p = Some j /\ t !! j = Some q /\ live q;
  ti_slots : forall i p j, t !! i = Some p -> parent p = Some j -> (j < NPROC)%nat
}.

(** Changes that keep identity, parent and liveness. *)
Definition similar (p p' : proc) : Prop :=
  pid p' = pid p /\ parent p' = parent p /\ (live p' <-> live p) /\
  (state p' = UNUSED <-> state p = UNUSED) /\ (state p' = EMBRYO <-> state p = EMBRYO).

Lemma similar_refl p : similar p p.
Proof. by repeat split. Qed.

Lemma table_inv_similar t t' np ip nl :
  table_inv t np ip nl -> Forall2 similar t t' -> Forall (proc_ok np nl) t' ->
  table_inv t' np ip nl.
Proof.
  intros [A1 A2 A3 A4 A5 A6 A7] Hs Hok.
  assert (Hback : forall i p', t' !! i = Some p' -> exists p, t !! i = Some p /\ similar p p').
  { intros i p' Hi. by apply (Forall2_lookup_r _ _ _ _ _ Hs). }
  assert (Hfwd : forall i p, t !! i = Some p -> exists p', t' !! i = Some p' /\ similar p p').
  { intros i p Hi. by apply (Forall2_lookup_l _ _ _ _ _ Hs). }
  split; [by rewrite <- (Forall2_length _ _ _ Hs) | done | done | | | |].
  - intros i j p' q' Hi Hj Hp Hq E.
    destruct (Hback i p' Hi) as (p & Hi0 & E1 & _ & _ & U1 & _), (Hback j q' Hj) as (q & Hj0 & E2 & _ & _ & U2 & _).
    apply (A4 i j p q); [done.. | by rewrite <- U1 | by rewrite <- U2 | congruence].
  - destruct A5 as (i & p & -> & Hi & Hl). destruct (Hfwd i p Hi) as (p' & Hi' & _ & _ & Hl' & _).
    exists i, p'. split_and!; [done.. | by apply Hl'].
  - intros i p' Hi Hu He Hip. destruct (Hback i p' Hi) as (p & Hi0 & _ & Ep & _ & U & Em).
    destruct (A6 i p Hi0) as (j & q & Hpar & Hj & Hl); [by rewrite <- U | by rewrite <- Em | done |].
    destruct (Hfwd j q Hj) as (q' & Hj' & _ & _ & Hl' & _).
    exists j, q'. split_and!; [congruence | done | by apply Hl'].
  - intros i p' j Hi Hp. destruct (Hback i p' Hi) as (p & Hi0 & _ & Ep & _). apply (A7 i p j Hi0). congruence.
Qed.

Lemma Forall2_insert_similar (t : list proc) i p p' :
  t !! i = Some p -> similar p p' -> Forall2 similar t (<[i := p']> t).
Proof.
  intros Hi Hs. apply Forall2_same_length_lookup. split; [by rewrite length_insert |].
  intros j x y Hx Hy. destruct (decide (j = i)) as [-> |].
  - rewrite list_lookup_insert_eq in Hy by by eapply lookup_lt_Some. by simplify_eq.
  - rewrite list_lookup_insert_ne in Hy by done. simplify_eq. apply similar_refl.
Qed.

(** Replacing one entry by a similar one. *)
Lemma table_inv_upd t np ip nl i p p' :
  table_inv t np ip nl -> t !! i = Some p -> similar p p' -> proc_ok np nl p' ->
  table_inv (<[i := p']> t) np ip nl.
Proof.
  intros H Hi Hs Hok. eapply table_inv_similar; [done | by eapply Forall2_insert_similar |].
  apply Forall_insert; [apply (ti_ok _ _ _ _ H) | done].
Qed.

Lemma runs_upd t cur i p p' :
  runs t cur -> t !! i = Some p -> (state p' = RUNNING <-> state p = RUNNING) ->
  runs (<[i := p']> t) cur.
Proof.
  intros H Hi E j. rewrite (H j). destruct (decide (j = i)) as [-> |].
  - rewrite list_lookup_insert_eq by by eapply lookup_lt_Some.
    split; intros (q & Hq & Hs); simplify_eq; [exists p' | exists p]; split; [done | by apply E | done | by apply E].
  - by rewrite list_lookup_insert_ne.
Qed.

(** Process [i] stops or starts running. *)
Lemma runs_stop t i p p' :
  runs t (Some i) -> t !! i = Some p -> state p' <> RUNNING -> runs (<[i := p']> t) None.
Proof.
  intros H Hi E j. split; [done |]. intros (q & Hq & Hs). destruct (decide (j = i)) as [-> |].
  - rewrite list_lookup_insert_eq in Hq by by eapply lookup_lt_Some. by simplify_eq.
  - rewrite list_lookup_insert_ne in Hq by done.
    assert (Some i = Some j) by (apply (H j); eauto). congruence.
Qed.

Lemma runs_start t i p p' :
  runs t None -> t !! i = Some p -> state p' = RUNNING -> runs (<[i := p']> t) (Some i).
Proof.
  intros H Hi E j. destruct (decide (j = i)) as [-> |].
  - rewrite list_lookup_insert_eq by by eapply lookup_lt_Some. split; eauto.
  - rewrite list_lookup_insert_ne by done. split; [congruence |]. intros Hj. by apply (H j) in Hj.
Qed.

Lemma table_proc_ok t np ip nl i p : table_inv t np ip nl -> t !! i = Some p -> proc_ok np nl p.
Proof. intros H Hi. by eapply (Forall_lookup_1 _ _ _ _ (ti_ok _ _ _ _ H)). Qed.

(** ** Effects of the operations on the table *)
Section effects.
Context {X : Type} {E : KernelEnv X}.
Implicit Types s : kstate X.

Lemma get_proc_inv i s p s' : get_proc i s = Ret p s' -> s' = s /\ ptable s !! i = Some p.
Proof.
  unfold get_proc. intros (t & s1 & [= <- <-] & H)%bind_inv.
  destruct (ptable s !! i); [| done]. by injection H as -> ->.
Qed.

Lemma get_proc_eq i s p : ptable s !! i = Some p -> get_proc i s = Ret p s.
Proof. intros H. unfold get_proc. erewrite bind_ret by done. by rewrite H. Qed.

Lemma upd_proc_eq i f s p :
  ptable s !! i = Some p -> upd_proc i f s = Ret tt (with_ptable (<[i := f p]> (ptable s)) s).
Proof. intros H. unfold upd_proc. by erewrite bind_ret by by apply get_proc_eq. Qed.

Lemma upd_proc_inv i f s u s' :
  upd_proc i f s = Ret u s' ->
  exists p, ptable s !! i = Some p /\ s' = with_ptable (<[i := f p]> (ptable s)) s.
Proof.
  unfold upd_proc. intros (p & s1 & [-> Hp]%get_proc_inv & H)%bind_inv.
  exists p. split; [done |]. by injection H as _ <-.
Qed.

Lemma lift_inv {A : Type} (m : M X A) s a s' : lift m s = Ret a s' -> exists x, s' = with_ext x s.
Proof. unfold lift. destruct (m (ext s)); try done. intros [= _ <-]. eauto. Qed.

Lemma same_table_runs s s' : same_table s s' -> runs (ptable s) (c_proc (cpu s)) ->
  runs (ptable s') (c_proc (cpu s')).
Proof. intros (-> & _ & _ & _ & _ & -> & _). done. Qed.

(** The invariant of a kernel state, whatever the CPU is doing. *)
Definition kinv s : Prop :=
  table_inv (ptable s) (nextpid s) (initproc s) (length (locks s)) /\
  runs (ptable s) (c_proc (cpu s)).

Lemma same_table_kinv s s' : same_table s s' -> kinv s -> kinv s'.
Proof. unfold kinv. intros (-> & -> & -> & _ & _ & -> & ->). done. Qed.

Lemma with_ext_kinv x s : kinv s -> kinv (with_ext x s).
Proof. done. Qed.

(** One entry replaced by a similar one that runs exactly when it did. *)
Lemma upd_kinv i f s u s' :
  (forall p, ptable s !! i = Some p -> proc_ok (nextpid s) (length (locks s)) p ->
     similar p (f p) /\ proc_ok (nextpid s) (length (locks s)) (f p) /\
     (state (f p) = RUNNING <-> state p = RUNNING)) ->
  kinv s -> upd_proc i f s = Ret u s' -> kinv s'.
Proof.
  intros Hf [Ht Hr] (p & Hp & ->)%upd_proc_inv.
  destruct (Hf p Hp) as (Hs & Hok & Hrun); [by eapply table_proc_ok |].
  split; cbn; [by eapply table_inv_upd | by eapply runs_upd].
Qed.

Lemma proc_ok_fields np nl p p' :
  proc_ok np nl p -> state p' = state p -> pid p' = pid p -> kstack p' = kstack p ->
  pgdir p' = pgdir p -> parent p' = parent p -> chan p' = chan p -> context p' = context p ->
  proc_ok np nl p'.
Proof. intros [? ? ? ? ?] E1 E2 E3 E4 E5 E6 E7. split; rewrite ?E1, ?E2, ?E3, ?E4, ?E5, ?E6, ?E7; done. Qed.

Lemma wake_facts ch np nl p :
  proc_ok np nl p ->
  similar p (wake ch p) /\ proc_ok np nl (wake ch p) /\
  (state (wake ch p) = RUNNING <-> state p = RUNNING).
Proof.
  intros H. unfold wake. case_decide as Hd; [| split_and!; [apply similar_refl | done | done]].
  destruct Hd as [Hs _]. split_and!.
  - unfold similar, live. cbn. rewrite Hs. by intuition.
  - destruct H as [A B C D F]. split; cbn; try done;
      [intros _; apply A; by rewrite Hs | intros _ _; apply B; by rewrite Hs | intros _; apply F; by left].
  - cbn. by rewrite Hs.
Qed.

Lemma wakeup1_kinv ch s u s' : kinv s -> wakeup1 ch s = Ret u s' -> kinv s'.
Proof.
  intros [Ht Hr] [= _ <-]. split; cbn.
  - eapply table_inv_similar; [done | |].
    + apply Forall2_fmap_r, Forall_Forall2_diag. eapply Forall_impl; [apply (ti_ok _ _ _ _ Ht) |].
      intros p Hp. by apply (wake_facts ch _ _ p Hp).
    + apply Forall_fmap. eapply Forall_impl; [apply (ti_ok _ _ _ _ Ht) |].
      intros p Hp. by apply (wake_facts ch _ _ p Hp).
  - intros i. rewrite (Hr i), list_lookup_fmap. destruct (ptable s !! i) as [p |] eqn:Hp; cbn.
    2:{ split; intros (? & ? & _); done. }
    destruct (wake_facts ch _ _ p (table_proc_ok _ _ _ _ _ _ Ht Hp)) as (_ & _ & Hw).
    split; intros (q & [= <-] & Hs); eexists; (split; [done | by apply Hw]).
Qed.

Lemma wakeup_kinv ch s u s' : kinv s -> wakeup ch s = Ret u s' -> kinv s'.
Proof.
  intros H. unfold wakeup. intros (u1 & s1 & E1%acquire_inv & H1)%bind_inv.
  apply bind_inv in H1 as (u2 & s2 & E2 & H2). apply release_inv in H2.
  eapply same_table_kinv; [exact H2 |]. eapply wakeup1_kinv; [| exact E2].
  by eapply same_table_kinv.
Qed.
End effects.

(** ** The CPU between and inside critical sections *)
Section cpu_states.
Context {X : Type}.
Implicit Types s : kstate X.

Definition held_only (ks : list nat) (ls : list spinlock) : Prop :=
  forall j l, ls !! j = Some l -> l = if decide (j ∈ ks) then lock_held else lock_free.

(** No lock is held; one is; two are. *)
Definition quiet s : Prop :=
  ncli (cpu s) = 0 /\ eflags_IF (cpu s) = true /\ held_only [] (locks s) /\ (2 <= length (locks s))%nat.
Definition inside (ks : list nat) s : Prop :=
  ncli (cpu s) = Z.of_nat (length ks) /\ intena (cpu s) = true /\ eflags_IF (cpu s) = false /\
  held_only ks (locks s) /\ NoDup ks /\ Forall (fun k => k < length (locks s))%nat ks /\
  (2 <= length (locks s))%nat.

Lemma held_only_acquire ks k ls :
  held_only ks ls -> held_only (k :: ks) (<[k := lock_held]> ls).
Proof.
  intros H j l. destruct (decide (j = k)) as [-> |].
  - intros Hj. pose proof (lookup_lt_Some _ _ _ Hj) as Hlt. rewrite length_insert in Hlt.
    rewrite list_lookup_insert_eq in Hj by done. injection Hj as <-.
    by rewrite decide_True by apply list_elem_of_here.
  - rewrite list_lookup_insert_ne by done. intros Hj. rewrite (H j l Hj).
    destruct (decide (j ∈ ks)), (decide (j ∈ k :: ks)) as [Hin | Hin]; try done.
    + destruct Hin. by apply list_elem_of_further.
    + apply elem_of_cons in Hin as [? | ?]; done.
Qed.

Lemma held_only_release ks k ls :
  held_only ks ls -> held_only (filter (fun j => j <> k) ks) (<[k := lock_free]> ls).
Proof.
  intros H j l. destruct (decide (j = k)) as [-> |].
  - intros Hj. pose proof (lookup_lt_Some _ _ _ Hj) as Hlt. rewrite length_insert in Hlt.
    rewrite list_lookup_insert_eq in Hj by done. injection Hj as <-.
    rewrite decide_False; [done |]. by intros [? _]%list_elem_of_filter.
  - rewrite list_lookup_insert_ne by done. intros Hj. rewrite (H j l Hj).
    destruct (decide (j ∈ ks)), (decide (j ∈ filter (fun i => i <> k) ks)) as [Hin | Hin]; try done.
    + destruct Hin. by apply list_elem_of_filter.
    + by apply list_elem_of_filter in Hin as [_ ?].
Qed.

Lemma quiet_cli s : quiet s -> cli_ok s.
Proof. intros (H & _). split; rewrite H; lia. Qed.
Lemma inside_cli ks s : inside ks s -> cli_ok s.
Proof. intros (H & _ & H1 & _). split; rewrite H; [lia | done]. Qed.

Lemma held_only_free ks ls k :
  held_only ks ls -> k ∉ ks -> (k < length ls)%nat -> ls !! k = Some lock_free.
Proof.
  intros H Hk Hlt. destruct (lookup_lt_is_Some_2 ls k Hlt) as [l Hl]. rewrite Hl.
  by rewrite (H k l Hl), decide_False.
Qed.

Lemma quiet_acquire s k :
  quiet s -> (k < length (locks s))%nat -> acquire k s = Ret tt (acq k s) /\ inside [k] (acq k s).
Proof.
  intros Hq Hk. pose proof (quiet_cli s Hq) as Hc. destruct Hq as (H0 & H1 & H2 & H3). split.
  - apply acquire_eq; [done |]. by apply (held_only_free []); [| set_solver |].
  - unfold inside, acq. cbn. rewrite H0, length_insert. split_and!; try done.
    + by apply held_only_acquire.
    + apply NoDup_singleton.
    + by apply Forall_singleton.
Qed.

Lemma inside_acquire s ks k :
  inside ks s -> ks <> [] -> k ∉ ks -> (k < length (locks s))%nat ->
  acquire k s = Ret tt (acq k s) /\ inside (k :: ks) (acq k s).
Proof.
  intros Hi Hne Hk Hlt. pose proof (inside_cli _ _ Hi) as Hc.
  destruct Hi as (H0 & H1 & H2 & H3 & H4 & H5 & H6). split.
  - apply acquire_eq; [done |]. by apply (held_only_free ks).
  - unfold inside, acq. cbn. rewrite length_insert, H0. split_and!; try done.
    + lia.
    + rewrite (proj2 (Z.eqb_neq _ _)); [done |]. destruct ks; [done | cbn; lia].
    + by apply held_only_acquire.
    + by apply NoDup_cons.
    + by apply Forall_cons.
Qed.

Lemma filter_ne_cons (k : nat) (ks : list nat) : k ∉ ks -> filter (fun j => j <> k) ks = ks.
Proof.
  intros H. induction ks as [| x ks IH]; [done |]. rewrite filter_cons, decide_True by set_solver.
  f_equal. apply IH. set_solver.
Qed.

Lemma inside_release_last s k :
  inside [k] s -> release k s = Ret tt (rel k s) /\ quiet (rel k s).
Proof.
  intros (H0 & H1 & H2 & H3 & H4 & H5 & H6). apply Forall_cons in H5 as [H5 _]. split.
  - apply release_eq; [rewrite H0; cbn; lia | done |].
    destruct (lookup_lt_is_Some_2 _ _ H5) as [l Hl]. rewrite Hl.
    by rewrite (H3 k l Hl), decide_True by set_solver.
  - unfold quiet, rel. cbn. rewrite H0, H1, length_insert. split_and!; try done.
    apply (held_only_release [k] k) in H3. rewrite filter_cons, decide_False in H3 by lia. done.
Qed.

Lemma inside_release s ks k :
  inside ks s -> k ∈ ks -> (1 < length ks)%nat ->
  release k s = Ret tt (rel k s) /\ inside (filter (fun j => j <> k) ks) (rel k s).
Proof.
  intros (H0 & H1 & H2 & H3 & H4 & H5 & H6) Hin Hlen.
  pose proof (proj1 (Forall_forall _ _) H5 k Hin) as Hlt. cbn in Hlt. split.
  - apply release_eq; [rewrite H0; lia | done |].
    destruct (lookup_lt_is_Some_2 _ _ Hlt) as [l Hl]. rewrite Hl.
    by rewrite (H3 k l Hl), decide_True.
  - assert (Hl : Z.of_nat (length ks) - 1 = Z.of_nat (length (filter (fun j => j <> k) ks))).
    { apply list_elem_of_split in Hin as (l1 & l2 & ->). apply NoDup_app in H4 as (N1 & N2 & N3).
      apply NoDup_cons in N3 as [N3 _].
      rewrite filter_app, filter_cons, decide_False by lia.
      rewrite !filter_ne_cons by set_solver. rewrite !length_app. cbn. lia. }
    unfold inside, rel. cbn. rewrite H0, H1, length_insert. split_and!; try done.
    + rewrite (proj2 (Z.eqb_neq _ _)); [done | lia].
    + by apply held_only_release.
    + by apply NoDup_filter.
    + apply Forall_forall. intros j [_ Hj]%list_elem_of_filter. by apply (proj1 (Forall_forall _ _) H5).
Qed.

(** The predicates look at the CPU and the locks only. *)
Lemma inside_cpu ks s s' :
  ncli (cpu s') = ncli (cpu s) -> intena (cpu s') = intena (cpu s) ->
  eflags_IF (cpu s') = eflags_IF (cpu s) -> locks s' = locks s -> inside ks s -> inside ks s'.
Proof. unfold inside. by intros -> -> -> ->. Qed.
Lemma quiet_cpu s s' :
  ncli (cpu s') = ncli (cpu s) -> eflags_IF (cpu s') = eflags_IF (cpu s) -> locks s' = locks s ->
  quiet s -> quiet s'.
Proof. unfold quiet. by intros -> -> ->. Qed.
Lemma quiet_touch s : quiet s -> quiet (touch s).
Proof. done. Qed.
Lemma inside_touch k ks s : inside (k :: ks) s -> touch s = s.
Proof. intros (H & _). apply touch_inside. rewrite H. cbn. lia. Qed.

(** Holding the locks [ks], in any number. *)
Definition holds (ks : list nat) s : Prop :=
  match ks with [] => quiet s | _ => inside ks s end.

Lemma holds_locks ks s : holds ks s -> (2 <= length (locks s))%nat.
Proof. destruct ks; [by intros (_ & _ & _ & ?) | by intros (_ & _ & _ & _ & _ & _ & ?)]. Qed.

Lemma holds_cli ks s : holds ks s -> cli_ok s.
Proof. destruct ks; [apply quiet_cli | apply inside_cli]. Qed.

Lemma acq_same k s : same_table s (acq k s).
Proof. repeat split. cbn. by rewrite length_insert. Qed.
Lemma rel_same k s : same_table s (rel k s).
Proof. repeat split. cbn. by rewrite length_insert. Qed.

Lemma holds_acquire ks k s :
  holds ks s -> k ∉ ks -> (k < length (locks s))%nat ->
  exists s', acquire k s = Ret tt s' /\ holds (k :: ks) s' /\ same_table s s'.
Proof.
  intros H Hk Hlt. exists (acq k s). destruct ks as [| k' ks].
  - destruct (quiet_acquire s k H Hlt) as [E Hi]. split_and!; [done | done | apply acq_same].
  - destruct (inside_acquire s (k' :: ks) k H) as [E Hi]; [done.. |].
    split_and!; [done | done | apply acq_same].
Qed.

Lemma holds_release ks k s :
  holds (k :: ks) s -> k ∉ ks ->
  exists s', release k s = Ret tt s' /\ holds ks s' /\ same_table s s'.
Proof.
  intros H Hk. exists (rel k s). destruct ks as [| k' ks].
  - destruct (inside_release_last s k H) as [E Hi]. split_and!; [done | done | apply rel_same].
  - destruct (inside_release s (k :: k' :: ks) k H) as [E Hi]; [apply list_elem_of_here | cbn; lia |].
    rewrite filter_cons, decide_False, filter_ne_cons in Hi by (done || lia).
    split_and!; [done | done | apply rel_same].
Qed.

(** [release] of the outer of two locks, as [sleep] does. *)
Lemma holds_release_outer k lk s :
  holds [k; lk] s -> k <> lk ->
  exists s', release lk s = Ret tt s' /\ holds [k] s' /\ same_table s s'.
Proof.
  intros H Hne. exists (rel lk s).
  destruct (inside_release s [k; lk] lk H) as [E Hi]; [set_solver | cbn; lia |].
  rewrite filter_cons, decide_True, filter_cons, decide_False in Hi by (done || lia).
  split_and!; [done | done | apply rel_same].
Qed.

Lemma holds_curproc ks s i :
  holds ks s -> c_proc (cpu s) = Some i ->
  exists s', curproc s = Ret i s' /\ holds ks s' /\ same_table s s' /\ (ks <> [] -> s' = s).
Proof.
  intros H Hi. exists (touch s). split_and!.
  - apply curproc_eq; [by eapply holds_cli | done].
  - destruct ks; [by apply quiet_touch | by rewrite (inside_touch _ _ _ H)].
  - done.
  - destruct ks; [done |]. intros _. by apply (inside_touch _ _ _ H).
Qed.

Lemma holds_cpu ks s s' :
  ncli (cpu s') = ncli (cpu s) -> intena (cpu s') = intena (cpu s) ->
  eflags_IF (cpu s') = eflags_IF (cpu s) -> locks s' = locks s -> holds ks s -> holds ks s'.
Proof. destruct ks; intros; [by eapply quiet_cpu | by eapply inside_cpu]. Qed.

Lemma holds_held k ks s : holds (k :: ks) s -> holding k s = Ret true s.
Proof.
  intros H. pose proof (inside_cli _ _ H) as Hc. pose proof H as (_ & _ & _ & H3 & _ & H5 & _).
  apply Forall_cons in H5 as [H5 _]. destruct (lookup_lt_is_Some_2 _ _ H5) as [l Hl].
  rewrite (holding_eq s k l Hc Hl), (inside_touch _ _ _ H).
  by rewrite (H3 k l Hl), decide_True by apply list_elem_of_here.
Qed.
End cpu_states.
