(* ===== verification/Sched.v ===== *)
(** * Sched: the process state machine of xv6-modified and its theorems

    The machine interleaves the scheduler of proc.c with the process it runs:
    a process executes kernel operations until it gives up the CPU in [yield],
    [sleep], [wait] or [exit], and the scheduler continues its scan of the
    table.  Interrupt handlers act when interrupts are on.  A kernel operation
    that does not give up the CPU is one step. *)

From Stdlib Require Import ZArith Lia.
From stdpp Require Import base numbers strings option sets list.
From S2P Require Import Prelude Kernel KString Proc ProcSpec.

Section ops.
Context {X : Type} {E : KernelEnv X}.
Implicit Types s : kstate X.

(** Process [cur] (or the scheduler) has the CPU and holds the locks [ks]. *)
Definition on_cpu (ks : list nat) (cur : option nat) s : Prop :=
  kinv s /\ c_proc (cpu s) = cur /\ holds ks s.

(** Process [i] has given up the CPU and is about to switch to the scheduler. *)
Definition switched (i : nat) s : Prop :=
  table_inv (ptable s) (nextpid s) (initproc s) (length (locks s)) /\
  runs (ptable s) None /\ c_proc (cpu s) = Some i /\ is_Some (ptable s !! i) /\
  holds [ptable_lock] s.

Lemma on_cpu_same ks ks' cur s s' :
  on_cpu ks cur s -> same_table s s' -> holds ks' s' -> on_cpu ks' cur s'.
Proof.
  intros (Hk & Hc & _) Hs Hh. split_and!; [by eapply same_table_kinv | | done].
  destruct Hs as (_ & _ & _ & _ & _ & -> & _). done.
Qed.

(** Entering and leaving a critical section. *)
Lemma on_cpu_acquire_any ks cur s k :
  on_cpu ks cur s -> k ∉ ks -> (k < length (locks s))%nat ->
  exists s', acquire k s = Ret tt s' /\ on_cpu (k :: ks) cur s' /\ same_table s s'.
Proof.
  intros H Hk Hlt. pose proof H as (H1 & H2 & H3).
  destruct (holds_acquire ks k s H3 Hk Hlt) as (s' & Ea & Hh & Hs).
  exists s'. split_and!; [done | by eapply on_cpu_same | done..].
Qed.

Lemma on_cpu_acquire ks cur s k :
  on_cpu ks cur s -> k ∉ ks -> (k < 2)%nat ->
  exists s', acquire k s = Ret tt s' /\ on_cpu (k :: ks) cur s' /\ same_table s s'.
Proof.
  intros H Hk Hlt. pose proof H as (_ & _ & H3). pose proof (holds_locks _ _ H3).
  apply on_cpu_acquire_any; [done | done | lia].
Qed.

Lemma on_cpu_release ks cur s k :
  on_cpu (k :: ks) cur s -> k ∉ ks ->
  exists s', release k s = Ret tt s' /\ on_cpu ks cur s' /\ same_table s s'.
Proof.
  intros H Hk. pose proof H as (_ & _ & H3).
  destruct (holds_release ks k s H3 Hk) as (s' & Ea & Hh & Hs).
  exists s'. split_and!; [done | by eapply on_cpu_same | done..].
Qed.

Lemma on_cpu_table ks cur s t :
  on_cpu ks cur s -> kinv (with_ptable t s) -> on_cpu ks cur (with_ptable t s).
Proof. intros (_ & H2 & H3) Hk. split_and!; [done | done |]. by eapply holds_cpu; [.. | exact H3]. Qed.

Lemma on_cpu_upd ks cur s i f p :
  on_cpu ks cur s -> ptable s !! i = Some p ->
  (proc_ok (nextpid s) (length (locks s)) p ->
     similar p (f p) /\ proc_ok (nextpid s) (length (locks s)) (f p) /\
     (state (f p) = RUNNING <-> state p = RUNNING)) ->
  exists s', upd_proc i f s = Ret tt s' /\ on_cpu ks cur s' /\
    s' = with_ptable (<[i := f p]> (ptable s)) s.
Proof.
  intros H Hi Hf. pose proof (upd_proc_eq i f s p Hi) as Eu. eexists. split_and!; [exact Eu | | done].
  apply on_cpu_table; [done |]. eapply upd_kinv; [| apply H | exact Eu].
  intros q Hq. by simplify_eq.
Qed.

Lemma wakeup_ok ks cur s ch :
  on_cpu ks cur s -> ptable_lock ∉ ks ->
  exists s', wakeup ch s = Ret tt s' /\ on_cpu ks cur s' /\
    ptable s' = map (wake ch) (ptable s) /\ nextpid s' = nextpid s /\ initproc s' = initproc s.
Proof.
  intros H Hk. destruct (on_cpu_acquire ks cur s ptable_lock) as (s1 & E1 & H1 & S1);
    [done | done | unfold ptable_lock; lia |].
  set (s2 := with_ptable (map (wake ch) (ptable s1)) s1).
  assert (H2 : on_cpu (ptable_lock :: ks) cur s2).
  { apply on_cpu_table; [done |]. eapply wakeup1_kinv; [apply H1 | done]. }
  destruct (on_cpu_release ks cur s2 ptable_lock) as (s3 & E3 & H3 & S3); [done.. |].
  exists s3. split_and!; [| done | | |].
  - unfold wakeup. erewrite bind_ret by exact E1. by erewrite bind_ret.
  - destruct S3 as (-> & _). cbn. by destruct S1 as (-> & _).
  - destruct S3 as (_ & -> & _). cbn. by destruct S1 as (_ & -> & _).
  - destruct S3 as (_ & _ & -> & _). cbn. by destruct S1 as (_ & _ & -> & _).
Qed.

Lemma kill_facts np nl p :
  proc_ok np nl p ->
  let p' := if decide (state p = SLEEPING) then set_state RUNNABLE (set_killed true p)
            else set_killed true p in
  similar p p' /\ proc_ok np nl p' /\ (state p' = RUNNING <-> state p = RUNNING).
Proof.
  intros H. cbv zeta. case_decide as Hs.
  - split_and!.
    + unfold similar, live. cbn. rewrite Hs. by intuition.
    + destruct H as [A B C D F]. split; cbn; try done;
        [intros _; apply A; by rewrite Hs | intros _ _; apply B; by rewrite Hs | intros _; apply F; by left].
    + cbn. by rewrite Hs.
  - split_and!; [by repeat split | by eapply proc_ok_fields | done].
Qed.

Lemma kill_ok ks cur s n :
  on_cpu ks cur s -> ptable_lock ∉ ks ->
  exists r s', kill n s = Ret r s' /\ on_cpu ks cur s' /\ nextpid s' = nextpid s /\
    initproc s' = initproc s /\
    match find_index (fun p => pid p =? n) (ptable s) with
    | Some i => r = 0 /\ exists p, ptable s !! i = Some p /\ ptable s' = <[i :=
        if decide (state p = SLEEPING) then set_state RUNNABLE (set_killed true p)
        else set_killed true p]> (ptable s)
    | None => r = -1 /\ ptable s' = ptable s
    end.
Proof.
  intros H Hk. destruct (on_cpu_acquire ks cur s ptable_lock) as (s1 & E1 & H1 & S1);
    [done | done | unfold ptable_lock; lia |].
  pose proof S1 as (T1 & N1 & I1 & _).
  unfold kill. erewrite bind_ret by exact E1. erewrite bind_ret by done. rewrite T1.
  destruct (find_index _ _) as [i |] eqn:Ef.
  - apply find_index_Some in Ef as [(p & Hp & _) _].
    edestruct (on_cpu_upd (ptable_lock :: ks) cur s1 i (fun p =>
      let p := set_killed true p in
      if decide (state p = SLEEPING) then set_state RUNNABLE p else p) p) as (s2 & E2 & H2 & ->);
      [done | by rewrite T1 | intros Hok; exact (kill_facts _ _ p Hok) |].
    destruct (on_cpu_release ks cur _ ptable_lock H2 Hk) as (s3 & E3 & H3 & (T3 & N3 & I3 & _)).
    exists 0, s3. split_and!; [| done | by rewrite N3 | by rewrite I3 | done |].
    + erewrite bind_ret by exact E2. by erewrite bind_ret by exact E3.
    + exists p. split; [done |]. rewrite T3. cbn. by rewrite T1.
  - destruct (on_cpu_release ks cur s1 ptable_lock H1 Hk) as (s3 & E3 & H3 & (T3 & N3 & I3 & _)).
    exists (-1), s3. split_and!; [by erewrite bind_ret by exact E3 | done | congruence.. | done | congruence].
Qed.

Lemma on_cpu_cur ks i s :
  on_cpu ks (Some i) s -> exists p, ptable s !! i = Some p /\ state p = RUNNING.
Proof. intros ((_ & Hr) & Hc & _). rewrite Hc in Hr. by apply (Hr i). Qed.

Lemma set_prio_ok s i n :
  on_cpu [] (Some i) s ->
  exists s' p, set_prio n s = Ret 0 s' /\ on_cpu [] (Some i) s' /\ ptable s !! i = Some p /\
    ptable s' = <[i := set_priority n p]> (ptable s).
Proof.
  intros H. destruct (on_cpu_cur _ _ _ H) as (p & Hp & _).
  destruct (on_cpu_acquire [] (Some i) s ptable_lock) as (s1 & E1 & H1 & (T1 & _));
    [done | apply not_elem_of_nil | unfold ptable_lock; lia |].
  pose proof H1 as (_ & Hc1 & Hh1).
  destruct (holds_curproc _ _ _ Hh1 Hc1) as (s1' & E2 & _ & _ & Es); rewrite Es in * by done.
  edestruct (on_cpu_upd _ _ s1 i (set_priority n) p H1) as (s2 & E3 & H2 & ->); [by rewrite T1 | |].
  { intros Hok. split_and!; [by repeat split | by eapply proc_ok_fields | done]. }
  destruct (on_cpu_release [] _ _ ptable_lock H2) as (s3 & E4 & H3 & (T3 & _)); [apply not_elem_of_nil |].
  exists s3, p. split_and!; [| done | done | rewrite T3; cbn; by rewrite T1].
  unfold set_prio. erewrite bind_ret by exact E1. erewrite bind_ret by exact E2.
  erewrite bind_ret by exact E3. by erewrite bind_ret by exact E4.
Qed.

Lemma timer_tick_ok cur s :
  on_cpu [] cur s ->
  exists s', timer_tick s = Ret tt s' /\ on_cpu [] cur s' /\
    ticks s' = u32 (ticks s + 1) /\ ptable s' = map (wake (Some ch_ticks)) (ptable s).
Proof.
  intros H.
  destruct (on_cpu_acquire [] cur s tickslock) as (s1 & E1 & H1 & (T1 & _ & _ & K1 & _));
    [done | apply not_elem_of_nil | unfold tickslock; lia |].
  set (s2 := with_ticks (u32 (ticks s1 + 1)) s1).
  assert (H2 : on_cpu [tickslock] cur s2) by (destruct H1 as (? & ? & ?); by split_and!).
  destruct (wakeup_ok [tickslock] cur s2 (Some ch_ticks) H2) as (s3 & E3 & H3 & T3 & _);
    [by intros ?%list_elem_of_singleton |].
  assert (K3 : ticks s3 = ticks s2).
  { unfold wakeup in E3. apply bind_inv in E3 as (? & sa & (_ & _ & _ & Ka & _)%acquire_inv & E3).
    apply bind_inv in E3 as (? & sb & [= _ <-] & E3). apply release_inv in E3 as (_ & _ & _ & -> & _).
    exact Ka. }
  destruct (on_cpu_release [] cur s3 tickslock H3) as (s4 & E4 & H4 & (T4 & _ & _ & K4 & _)); [apply not_elem_of_nil |].
  exists s4. split_and!; [| done | |].
  - unfold timer_tick. erewrite bind_ret by exact E1. erewrite bind_ret by done.
    fold s2. by erewrite bind_ret by exact E3.
  - rewrite K4, K3. cbn. by rewrite K1.
  - rewrite T4, T3. cbn. by rewrite T1.
Qed.

(** *** Giving up the CPU *)

(** The checks of [sched] pass when only [ptable.lock] is held and the
    process is not RUNNING any more. *)
Lemma sched_switch_eq s i p at_ :
  c_proc (cpu s) = Some i -> holds [ptable_lock] s -> ptable s !! i = Some p -> state p <> RUNNING ->
  sched_switch at_ s = Ret tt (with_ptable (<[i := set_context (at_ true) p]> (ptable s)) s).
Proof.
  intros Hc Hh Hi Hst.
  destruct (holds_curproc _ s i Hh Hc) as (s1 & Ec & _ & _ & Es). rewrite Es in Ec by done. clear Es.
  pose proof Hh as (Hn & Hint & Hif & _).
  unfold sched_switch. erewrite bind_ret by exact Ec.
  erewrite bind_ret by (by eapply holds_held). cbn [negb].
  erewrite bind_ret by done. rewrite Hn.
  change (negb (Z.of_nat (length [ptable_lock]) =? 1)) with false. cbv iota.
  erewrite bind_ret by by apply get_proc_eq. rewrite decide_False by done.
  rewrite Hif, Hint. by apply upd_proc_eq.
Qed.

(** A running process [i] put into state [st'] by [f], then [sched]. *)
Lemma sched_switch_ok s i p p' at_ :
  kinv s -> c_proc (cpu s) = Some i -> holds [ptable_lock] s ->
  ptable s !! i = Some p -> state p = RUNNING ->
  pid p' = pid p -> parent p' = parent p -> kstack p' = kstack p -> pgdir p' = pgdir p ->
  (state p' = RUNNABLE \/ state p' = SLEEPING /\ is_Some (chan p') /\ ctx_fork (at_ true) = None) ->
  ctx_ok (length (locks s)) (at_ true) ->
  exists s', sched_switch at_ (with_ptable (<[i := p']> (ptable s)) s) = Ret tt s' /\ switched i s' /\
    s' = with_ptable (<[i := set_context (at_ true) p']> (ptable s)) s.
Proof.
  intros [Ht Hr] Hc Hh Hi Hrun E1 E2 E3 E4 Hst Hctx. set (s1 := with_ptable _ s).
  assert (Hlt : (i < length (ptable s))%nat) by by eapply lookup_lt_Some.
  assert (Hi1 : ptable s1 !! i = Some p') by (cbn; by apply list_lookup_insert_eq).
  assert (Hh1 : holds [ptable_lock] s1) by (by eapply holds_cpu; [.. | exact Hh]).
  eexists. split_and!.
  - apply (sched_switch_eq s1 i p'); [done.. |]. intros ?; destruct Hst as [? | [? _]]; congruence.
  - destruct (table_proc_ok _ _ _ _ _ _ Ht Hi) as [A B C D F].
    cbn. rewrite list_insert_insert_eq. split; [| split; [| split; [| split]]]; cbn.
    + eapply table_inv_upd; [exact Ht | exact Hi | |].
      * unfold similar, live. cbn. rewrite E1, E2, Hrun.
        destruct Hst as [-> | [-> _]]; by intuition.
      * split; cbn; [| | by destruct Hst as [-> | [-> _]] | | done].
        -- intros _. rewrite E1. apply A. by rewrite Hrun.
        -- intros _ _. rewrite E3, E4. apply B; by rewrite Hrun.
        -- intros Hs. destruct Hst as [? | [_ ?]]; [congruence | done].
    + eapply runs_stop; [| exact Hi | cbn; by destruct Hst as [-> | [-> _]]].
      rewrite <- Hc. exact Hr.
    + done.
    + rewrite list_lookup_insert_eq by done. eauto.
    + exact Hh.
  - cbn. by rewrite list_insert_insert_eq.
Qed.

Lemma yield_at_ok s i at_ :
  on_cpu [] (Some i) s -> ctx_ok (length (locks s)) (at_ true) ->
  exists s', yield_at at_ s = Ret tt s' /\ switched i s' /\
    exists p, ptable s !! i = Some p /\
      ptable s' = <[i := set_context (at_ true) (set_state RUNNABLE p)]> (ptable s).
Proof.
  intros H Hat. destruct (on_cpu_cur _ _ _ H) as (p & Hp & Hrun).
  destruct (on_cpu_acquire [] (Some i) s ptable_lock) as (s1 & E1 & H1 & (T1 & _ & _ & _ & _ & _ & L1));
    [done | apply not_elem_of_nil | unfold ptable_lock; lia |].
  pose proof H1 as (Hk1 & Hc1 & Hh1).
  destruct (holds_curproc _ _ _ Hh1 Hc1) as (s1' & E2 & _ & _ & Es); rewrite Es in E2 by done. clear Es.
  destruct (sched_switch_ok s1 i p (set_state RUNNABLE p) at_) as (s2 & E3 & H2 & ->); try done.
  { by rewrite T1. }
  { by left. }
  { by rewrite L1. }
  eexists. split_and!; [| exact H2 | exists p; split; [done | cbn; by rewrite T1]].
  unfold yield_at. erewrite bind_ret by exact E1. erewrite bind_ret by exact E2.
  erewrite bind_ret by (apply upd_proc_eq; by rewrite T1). exact E3.
Qed.

Lemma yield_ok s i :
  on_cpu [] (Some i) s ->
  exists s', yield_ s = Ret tt s' /\ switched i s' /\
    exists p, ptable s !! i = Some p /\
      ptable s' = <[i := set_context (at_yield true) (set_state RUNNABLE p)]> (ptable s).
Proof. intros H. by apply yield_at_ok. Qed.

Lemma sleep_ok s i ch lk :
  on_cpu [lk] (Some i) s -> lk <> ptable_lock ->
  exists s', sleep_enter ch lk (at_sleep lk) s = Ret tt s' /\ switched i s' /\
    exists p, ptable s !! i = Some p /\
      ptable s' = <[i := set_context (at_sleep lk true) (set_state SLEEPING (set_chan (Some ch) p))]> (ptable s).
Proof.
  intros H Hlk. destruct (on_cpu_cur _ _ _ H) as (p & Hp & Hrun).
  pose proof H as (_ & Hc0 & Hh0).
  destruct (holds_curproc _ _ _ Hh0 Hc0) as (s0' & E0 & _ & _ & Es); rewrite Es in E0 by done. clear Es.
  destruct (on_cpu_acquire [lk] (Some i) s ptable_lock) as (s1 & E1 & H1 & (T1 & _ & _ & _ & _ & _ & L1));
    [done | intros Hin%list_elem_of_singleton; congruence | unfold ptable_lock; lia |].
  pose proof H1 as (_ & _ & Hh1).
  destruct (holds_release_outer ptable_lock lk s1 Hh1) as (s2 & E2 & Hh2 & S2); [congruence |].
  assert (H2 : on_cpu [ptable_lock] (Some i) s2) by by eapply on_cpu_same.
  pose proof S2 as (T2 & _ & _ & _ & _ & _ & L2). pose proof H2 as (Hk2 & Hc2 & _).
  assert (Hlt : (lk < length (locks s2))%nat).
  { rewrite L2, L1. destruct Hh0 as (_ & _ & _ & _ & _ & Hf & _). by apply Forall_cons in Hf as [? _]. }
  destruct (sched_switch_ok s2 i p (set_state SLEEPING (set_chan (Some ch) p)) (at_sleep lk))
    as (s3 & E3 & H3 & ->); try done.
  { by rewrite T2, T1. }
  { right. by split. }
  eexists. split_and!; [| exact H3 | exists p; split; [done | cbn; by rewrite T2, T1]].
  unfold sleep_enter. erewrite bind_ret by exact E0. rewrite decide_False by done.
  erewrite bind_ret. 2:{ by erewrite bind_ret by exact E1. }
  erewrite bind_ret by (apply upd_proc_eq; by rewrite T2, T1). exact E3.
Qed.

(** [sleep] as called by [wait], with [ptable.lock] held. *)
Lemma sleep_wait_ok s i :
  on_cpu [ptable_lock] (Some i) s ->
  exists s', sleep_enter (ch_proc i) ptable_lock at_wait s = Ret tt s' /\ switched i s' /\
    exists q, ptable s' = <[i := q]> (ptable s) /\ state q = SLEEPING /\ context q = at_wait true.
Proof.
  intros H. destruct (on_cpu_cur _ _ _ H) as (p & Hp & Hrun). pose proof H as (Hk & Hc & Hh).
  destruct (holds_curproc _ _ _ Hh Hc) as (s0' & E0 & _ & _ & Es); rewrite Es in E0 by done. clear Es.
  destruct (sched_switch_ok s i p (set_state SLEEPING (set_chan (Some (ch_proc i)) p)) at_wait)
    as (s3 & E3 & H3 & ->); try done.
  { right. by split. }
  eexists. split_and!; [| exact H3 | by eexists].
  unfold sleep_enter. erewrite bind_ret by exact E0. rewrite decide_True by done.
  erewrite bind_ret by done. erewrite bind_ret by (by apply upd_proc_eq). exact E3.
Qed.

(** *** The scheduler *)
Lemma sched_back_ok s i :
  switched i s ->
  exists s', sched_back i s = Ret tt s' /\ on_cpu [ptable_lock] None s' /\
    exists p, ptable s !! i = Some p /\ ptable s' = <[i := set_nice (u32 (nice p + 1)) p]> (ptable s).
Proof.
  intros (Ht & Hr & Hc & [p Hp] & Hh).
  exists (with_cpu (mk_cpu (ncli (cpu s)) (intena (cpu s)) (eflags_IF (cpu s)) None)
     (with_ptable (<[i := set_nice (u32 (nice p + 1)) p]> (ptable s)) s)).
  split_and!; [| | by exists p].
  - unfold sched_back. by erewrite bind_ret by by apply upd_proc_eq.
  - split_and!; [| done | exact Hh]. split; cbn.
    + eapply table_inv_upd; [exact Ht | exact Hp | by repeat split |].
      eapply proc_ok_fields; [by eapply table_proc_ok | done..].
    + by eapply runs_upd.
Qed.

(** The scan finds the lowest eligible slot from [k] on, and makes it RUNNING. *)
Lemma sched_pick_ok s h k :
  on_cpu [ptable_lock] None s ->
  (sched_pick h k s = Ret None s /\ forall i p, (k <= i)%nat -> ptable s !! i = Some p -> eligible h p = false) \/
  exists i p s', sched_pick h k s = Ret (Some i) s' /\ on_cpu [ptable_lock] (Some i) s' /\
    (k <= i)%nat /\ ptable s !! i = Some p /\ state p = RUNNABLE /\ prio p = h /\
    (forall j q, (k <= j < i)%nat -> ptable s !! j = Some q -> eligible h q = false) /\
    ptable s' = <[i := set_state RUNNING p]> (ptable s).
Proof.
  intros ((Ht & Hr) & Hc & Hh). unfold sched_pick.
  destruct (find_index (eligible h) (drop k (ptable s))) as [d |] eqn:Ef.
  - right. pose proof Ef as Ef'. apply find_index_Some in Ef' as [(p & Hp & Hel) Hmin].
    rewrite lookup_drop in Hp.
    apply andb_true_iff in Hel as [Hst Hpr]. apply bool_decide_eq_true in Hst. apply Z.eqb_eq in Hpr.
    set (s1 := with_cpu (mk_cpu (ncli (cpu s)) (intena (cpu s)) (eflags_IF (cpu s)) (Some (k + d)%nat)) s).
    exists (k + d)%nat, p, (with_ptable (<[(k + d)%nat := set_state RUNNING p]> (ptable s)) s1).
    split; [| split; [split; [split | split] | split_and!]].
    + erewrite bind_ret by done. rewrite Ef. cbv zeta. erewrite bind_ret by done. fold s1.
      by erewrite bind_ret by (apply upd_proc_eq; exact Hp).
    + destruct (table_proc_ok _ _ _ _ _ _ Ht Hp) as [A B C D F]. cbn.
      eapply table_inv_upd; [exact Ht | exact Hp | |].
      * unfold similar, live. cbn. rewrite Hst. by intuition.
      * split; cbn; try done;
          [intros _; apply A; by rewrite Hst | intros _ _; apply B; by rewrite Hst | by intros [? | ?]].
    + cbn. rewrite Hc in Hr. by eapply runs_start.
    + done.
    + exact Hh.
    + lia.
    + done.
    + done.
    + done.
    + intros j q Hj Hq. apply (Hmin (j - k)%nat); [lia |]. rewrite lookup_drop.
      by replace (k + (j - k))%nat with j by lia.
    + done.
  - left. split; [erewrite bind_ret by done; by rewrite Ef |].
    intros i p Hk Hp. rewrite find_index_None in Ef. apply Ef.
    apply list_elem_of_lookup. exists (i - k)%nat. rewrite lookup_drop. by replace (k + (i - k))%nat with i by lia.
Qed.

(** *** [wait] *)

(** Reaping the zombie [k]. *)
Lemma reap_inv t np ip nl k p p' :
  table_inv t np ip nl -> t !! k = Some p -> state p = ZOMBIE ->
  state p' = UNUSED -> parent p' = None -> table_inv (<[k := p']> t) np ip nl.
Proof.
  intros H Hk Hz Hu Hpar. pose proof (lookup_lt_Some _ _ _ Hk) as Hlt.
  assert (Hlive : forall j q, t !! j = Some q -> live q -> <[k := p']> t !! j = Some q).
  { intros j q Hj Hl. rewrite list_lookup_insert_ne; [done |]. intros ->. simplify_eq.
    destruct Hl as [? | [? | ?]]; congruence. }
  assert (Hused : forall j q, <[k := p']> t !! j = Some q -> state q <> UNUSED -> t !! j = Some q /\ j <> k).
  { intros j q Hj Hq. destruct (decide (j = k)) as [-> | Hne].
    - rewrite list_lookup_insert_eq in Hj by done. congruence.
    - rewrite list_lookup_insert_ne in Hj by done. done. }
  destruct H as [A1 A2 A3 A4 A5 A6 A7]. split; [by rewrite length_insert | done | | | | |].
  - apply Forall_insert; [done |]. split; rewrite ?Hu; done || by intros [? | ?].
  - intros i j x y Hi Hj Hx Hy. destruct (Hused i x Hi Hx) as [Hi' _], (Hused j y Hj Hy) as [Hj' _].
    by apply (A4 i j x y).
  - destruct A5 as (i & q & Hip & Hi & Hl). exists i, q. split_and!; auto.
  - intros i q Hi Hq He Hip. destruct (Hused i q Hi Hq) as [Hi' _].
    destruct (A6 i q Hi' Hq He Hip) as (j & y & Hpy & Hj & Hl). exists j, y. auto.
  - intros i q j [(-> & <- & _) | [_ Hi]]%list_lookup_insert_Some; [congruence | by eapply A7].
Qed.

Lemma reap_runs t cur k p p' :
  runs t cur -> t !! k = Some p -> state p = ZOMBIE -> state p' = UNUSED -> runs (<[k := p']> t) cur.
Proof. intros H Hk Hz Hu. eapply runs_upd; [done.. |]. by rewrite Hz, Hu. Qed.

Lemma on_cpu_ext ks cur x s : on_cpu ks cur s -> on_cpu ks cur (with_ext x s).
Proof. done. Qed.

Lemma wait_scan_ok s i r s' :
  on_cpu [ptable_lock] (Some i) s -> wait_scan i s = Ret r s' ->
  match r with
  | Some _ => on_cpu [] (Some i) s'
  | None => s' = s
  end.
Proof.
  intros H Ew. unfold wait_scan in Ew. erewrite bind_ret in Ew by done. cbv zeta in Ew.
  destruct (find_index _ _) as [k |] eqn:Ef.
  - apply find_index_Some in Ef as [(p & Hp & Hz) _]. apply andb_true_iff in Hz as [Hch Hz].
    apply bool_decide_eq_true in Hz.
    erewrite bind_ret in Ew by by apply get_proc_eq.
    apply bind_inv in Ew as (ks & s1 & E1 & Ew). destruct (kstack p); [| done]. injection E1 as <- <-.
    apply bind_inv in Ew as (u & s1 & [x ->]%lift_inv & Ew).
    apply bind_inv in Ew as (d & s1 & E1 & Ew). destruct (pgdir p); [| done]. injection E1 as <- <-.
    apply bind_inv in Ew as (u2 & s1 & [x2 ->]%lift_inv & Ew).
    erewrite bind_ret in Ew by (by apply upd_proc_eq). cbn [ptable with_ext] in Ew.
    set (s2 := with_ptable _ _) in Ew.
    assert (H2 : on_cpu [ptable_lock] (Some i) s2).
    { apply on_cpu_table; [by do 2 apply on_cpu_ext |]. destruct H as ((Ht & Hr) & _ & _). split; cbn.
      - eapply reap_inv; [exact Ht | exact Hp | done..].
      - eapply reap_runs; [exact Hr | exact Hp | done..]. }
    destruct (on_cpu_release [] _ s2 ptable_lock H2) as (s3 & E3 & H3 & _); [apply not_elem_of_nil |].
    erewrite bind_ret in Ew by exact E3. injection Ew as <- <-. exact H3.
  - apply bind_inv in Ew as (p & s1 & [-> _]%get_proc_inv & Ew).
    destruct (_ || _); [| by injection Ew as <- <-].
    destruct (on_cpu_release [] _ s ptable_lock H) as (s3 & E3 & H3 & _); [apply not_elem_of_nil |].
    erewrite bind_ret in Ew by exact E3. injection Ew as <- <-. exact H3.
Qed.

Definition sleeping (i : nat) s : Prop := exists p, ptable s !! i = Some p /\ state p = SLEEPING.

Lemma wait_loop_ok s i r s' :
  on_cpu [ptable_lock] (Some i) s -> wait_loop i s = Ret r s' ->
  match r with Some _ => on_cpu [] (Some i) s' | None => switched i s' /\ sleeping i s' end.
Proof.
  intros H Ew. unfold wait_loop in Ew. apply bind_inv in Ew as (r1 & s1 & E1 & Ew).
  pose proof (wait_scan_ok s i r1 s1 H E1) as H1. destruct r1 as [v |].
  - by injection Ew as <- <-.
  - subst s1. destruct (sleep_wait_ok s i H) as (s2 & E2 & H2 & q & T2 & Hq & _).
    erewrite bind_ret in Ew by exact E2. injection Ew as <- <-. split; [done |]. exists q. rewrite T2. split; [| done].
    destruct (on_cpu_cur _ _ _ H) as (p & Hp & _). apply list_lookup_insert_eq. by eapply lookup_lt_Some.
Qed.

(** *** Resuming a process *)
Lemma set_intena_same ks cur s :
  on_cpu ks cur s -> ks <> [] -> exists s', set_intena true s = Ret tt s' /\ on_cpu ks cur s' /\
    ptable s' = ptable s /\ nextpid s' = nextpid s /\ locks s' = locks s.
Proof.
  intros (H1 & H2 & H3) Hne. eexists. split; [done |]. split_and!; [| done..].
  split; [done | split; [done |]]. destruct ks; [done |]. pose proof H3 as (_ & Hi & _).
  eapply holds_cpu; [.. | exact H3]; done.
Qed.

(** What a resumed process holds. *)
Definition after_resume (i : nat) (r : resumed) s : Prop :=
  match r with
  | continues None | continues_fork _ _ | returns_wait _ => on_cpu [] (Some i) s
  | continues (Some lk) => on_cpu [lk] (Some i) s /\ lk <> ptable_lock
  | sleeps_again => switched i s /\ sleeping i s
  end.

Lemma clear_chan_ok ks i s :
  on_cpu ks (Some i) s ->
  exists s', upd_proc i (set_chan None) s = Ret tt s' /\ on_cpu ks (Some i) s' /\ locks s' = locks s.
Proof.
  intros H. destruct (on_cpu_cur _ _ _ H) as (p & Hp & Hrun).
  edestruct (on_cpu_upd ks (Some i) s i (set_chan None) p H Hp) as (s' & E' & H' & ->); [| by eauto].
  intros [A B C D F]. split_and!; [by repeat split | | done].
  split; cbn; try done. intros ?. congruence.
Qed.

Lemma resume_proc_ok s i p r s' :
  on_cpu [ptable_lock] (Some i) s -> ptable s !! i = Some p -> ctx_ok (length (locks s)) (context p) ->
  resume_proc i s = Ret r s' -> after_resume i r s'.
Proof.
  intros H Hp Hctx Er. unfold resume_proc in Er. erewrite bind_ret in Er by by apply get_proc_eq.
  destruct (context p) as [| np f b | b | lk b | b | b]; cbn in Hctx; [| | | | | done].
  - destruct (on_cpu_release [] _ s ptable_lock H) as (s1 & E1 & H1 & _); [apply not_elem_of_nil |].
    erewrite bind_ret in Er by exact E1. by injection Er as <- <-.
  - subst b. destruct (set_intena_same _ _ s H) as (s0 & E0 & H0 & _); [done |].
    erewrite bind_ret in Er by exact E0.
    destruct (on_cpu_release [] _ s0 ptable_lock H0) as (s1 & E1 & H1 & _); [apply not_elem_of_nil |].
    erewrite bind_ret in Er by exact E1. by injection Er as <- <-.
  - subst b. destruct (set_intena_same _ _ s H) as (s0 & E0 & H0 & _); [done |].
    erewrite bind_ret in Er by exact E0.
    destruct (on_cpu_release [] _ s0 ptable_lock H0) as (s1 & E1 & H1 & _); [apply not_elem_of_nil |].
    erewrite bind_ret in Er by exact E1. by injection Er as <- <-.
  - destruct Hctx as (-> & Hlk & Hlt). destruct (set_intena_same _ _ s H) as (s0 & E0 & H0 & _ & _ & L0); [done |].
    erewrite bind_ret in Er by exact E0. destruct (clear_chan_ok _ _ _ H0) as (s1 & E1 & H1 & L1).
    erewrite bind_ret in Er by exact E1.
    destruct (on_cpu_release [] _ s1 ptable_lock H1) as (s2 & E2 & H2 & (_ & _ & _ & _ & _ & _ & L2));
      [apply not_elem_of_nil |].
    erewrite bind_ret in Er by exact E2.
    destruct (on_cpu_acquire_any [] _ s2 lk H2) as (s3 & E3 & H3 & _); [apply not_elem_of_nil | |].
    { rewrite L2, L1, L0. done. }
    erewrite bind_ret in Er by exact E3. injection Er as <- <-. by split.
  - subst b. destruct (set_intena_same _ _ s H) as (s0 & E0 & H0 & _); [done |].
    erewrite bind_ret in Er by exact E0. destruct (clear_chan_ok _ _ _ H0) as (s1 & E1 & H1 & L1).
    erewrite bind_ret in Er by exact E1. apply bind_inv in Er as (o & s2 & E2 & Er).
    pose proof (wait_loop_ok s1 i o s2 H1 E2) as H2. by destruct o; injection Er as <- <-.
Qed.

Lemma wait_ok s i r s' :
  on_cpu [] (Some i) s -> wait_ s = Ret r s' ->
  match r with Some _ => on_cpu [] (Some i) s' | None => switched i s' /\ sleeping i s' end.
Proof.
  intros H Ew. pose proof H as (_ & Hc & Hh).
  destruct (holds_curproc _ _ _ Hh Hc) as (s0 & E0 & Hh0 & S0 & _).
  assert (H0 : on_cpu [] (Some i) s0) by by eapply on_cpu_same.
  destruct (on_cpu_acquire [] _ s0 ptable_lock H0) as (s1 & E1 & H1 & _);
    [apply not_elem_of_nil | unfold ptable_lock; lia |].
  unfold wait_ in Ew. erewrite bind_ret in Ew by exact E0. erewrite bind_ret in Ew by exact E1.
  by eapply wait_loop_ok.
Qed.

(** What an operation of one process leaves of the entry of another: a runnable
    process is still runnable, with the same priority and in the same place; an
    entry under construction stays so; and none of both comes up. *)
Definition entry_kept (p p' : proc) : Prop :=
  (state p = RUNNABLE -> state p' = RUNNABLE /\ prio p' = prio p /\ context p' = context p) /\
  (state p = EMBRYO -> state p' = EMBRYO /\ kstack p' = kstack p /\ pgdir p' = pgdir p /\ context p' = context p) /\
  (state p' = EMBRYO -> state p = EMBRYO) /\
  (state p' = RUNNABLE -> ctx_fork (context p') <> None -> state p = RUNNABLE).
(** ... and its parent. *)
Definition entry_stays (p p' : proc) : Prop := entry_kept p p' /\ (state p = EMBRYO -> parent p' = parent p).

Lemma entry_kept_refl p : entry_kept p p.
Proof. unfold entry_kept. tauto. Qed.
Lemma entry_kept_trans p q r : entry_kept p q -> entry_kept q r -> entry_kept p r.
Proof.
  intros (A1 & A2 & A3 & A4) (B1 & B2 & B3 & B4). split_and!.
  - intros Hp. destruct (A1 Hp) as (Hq & <- & <-). by apply B1.
  - intros Hp. destruct (A2 Hp) as (Hq & <- & <- & <-). by apply B2.
  - auto.
  - intros Hr Hf. specialize (B4 Hr Hf). destruct (B1 B4) as (_ & _ & Hc). apply A4; [done | congruence].
Qed.
Lemma entry_stays_refl p : entry_stays p p.
Proof. split; [apply entry_kept_refl | done]. Qed.
Lemma entry_stays_trans p q r : entry_stays p q -> entry_stays q r -> entry_stays p r.
Proof.
  intros [A1 A2] [B1 B2]. split; [by eapply entry_kept_trans |]. intros Hp. pose proof A1 as (_ & A & _).
  rewrite B2; [by apply A2 | by apply A].
Qed.
(** Neither state is RUNNABLE or EMBRYO: nothing to keep. *)
Lemma entry_stays_other p p' : state p <> RUNNABLE -> state p <> EMBRYO -> state p' <> EMBRYO ->
  (state p' = RUNNABLE -> ctx_fork (context p') = None) -> entry_stays p p'.
Proof. intros H1 H2 H3 H4. split; [split_and! |]; try done. intros Hp Hn. by rewrite H4 in Hn. Qed.
Lemma entry_stays_fields p p' : state p' = state p -> prio p' = prio p -> context p' = context p -> kstack p' = kstack p ->
  pgdir p' = pgdir p -> parent p' = parent p -> entry_stays p p'.
Proof. intros E1 E2 E3 E4 E5 E6. unfold entry_stays, entry_kept. rewrite E1, E2, E3, E4, E5, E6. tauto. Qed.
Lemma entry_stays_wake np nl ch p : proc_ok np nl p -> entry_stays p (wake ch p).
Proof.
  intros Hok. unfold wake. case_decide as Hd; [| apply entry_stays_refl]. destruct Hd as [Hs _].
  apply entry_stays_other; rewrite ?Hs; try done. intros _. apply (po_chan _ _ _ Hok Hs).
Qed.

Definition stays (j : nat) (s s' : kstate X) : Prop :=
  forall p, ptable s !! j = Some p -> exists p', ptable s' !! j = Some p' /\ entry_stays p p'.

Lemma stays_refl j s s' : ptable s' = ptable s -> stays j s s'.
Proof. intros E' p Hp. rewrite E'. exists p. split; [done | apply entry_stays_refl]. Qed.

Lemma stays_trans j s1 s2 s3 : stays j s1 s2 -> stays j s2 s3 -> stays j s1 s3.
Proof.
  intros H1 H2 p Hp. destruct (H1 p Hp) as (p1 & Hp1 & S1). destruct (H2 p1 Hp1) as (p2 & Hp2 & S2).
  exists p2. split; [done | by eapply entry_stays_trans].
Qed.

Lemma stays_insert i j s s' q : j <> i -> ptable s' = <[i := q]> (ptable s) -> stays j s s'.
Proof. intros Hne E' p Hp. rewrite E', list_lookup_insert_ne by done. exists p. split; [done | apply entry_stays_refl]. Qed.

Lemma stays_wake j s s' ch : kinv s -> ptable s' = map (wake ch) (ptable s) -> stays j s s'.
Proof.
  intros [Ht _] E' p Hp. rewrite E', list_lookup_fmap, Hp. exists (wake ch p). split; [done |].
  eapply entry_stays_wake. by eapply table_proc_ok.
Qed.

(** *** [exit] *)

(** A change that keeps everything the invariant reads, but the parent. *)
Definition kept (np : Z) (nl : nat) (p p' : proc) : Prop :=
  pid p' = pid p /\ (live p' <-> live p) /\ (state p' = UNUSED <-> state p = UNUSED) /\
  (state p' = EMBRYO <-> state p = EMBRYO) /\
  (state p' = RUNNING <-> state p = RUNNING) /\ (proc_ok np nl p -> proc_ok np nl p' /\ entry_kept p p').

Lemma kept_refl np nl p : kept np nl p p.
Proof. by unfold kept. Qed.
Lemma kept_trans np nl p q r : kept np nl p q -> kept np nl q r -> kept np nl p r.
Proof.
  unfold kept. intros (-> & ? & ? & ? & ? & Hpq) (-> & ? & ? & ? & ? & Hqr). split_and!; try tauto.
  intros Hp. destruct (Hpq Hp) as [Hq Kq]. destruct (Hqr Hq) as [Hr Kr]. split; [done | by eapply entry_kept_trans].
Qed.

Lemma kept_wake np nl ch p : kept np nl p (wake ch p).
Proof.
  assert (Hk : proc_ok np nl p -> proc_ok np nl (wake ch p) /\ entry_kept p (wake ch p)).
  { intros Hok. split; [by apply wake_facts | by eapply entry_stays_wake]. }
  unfold wake in *. case_decide as Hd; [| apply kept_refl]. destruct Hd as [Hs _].
  unfold kept, live. cbn. rewrite Hs. split_and!; [done | by intuition.. | done].
Qed.

Lemma wake_parent ch p : parent (wake ch p) = parent p.
Proof. unfold wake. by case_decide. Qed.

(** The table after slots [k, k + n) were given to init. *)
Definition reparented (np : Z) (nl i k n : nat) (ip : option nat) (t t' : list proc) : Prop :=
  length t' = length t /\
  forall j p, t !! j = Some p -> exists p', t' !! j = Some p' /\ kept np nl p p' /\
    parent p' = if decide ((k <= j < k + n)%nat /\ parent p = Some i) then ip else parent p.

Lemma reparent_ok np n k i s u s' :
  initproc s <> Some i -> is_Some (initproc s) -> reparent n k i s = Ret u s' ->
  reparented np (length (locks s)) i k n (initproc s) (ptable s) (ptable s') /\
  nextpid s' = nextpid s /\ initproc s' = initproc s /\ cpu s' = cpu s /\ locks s' = locks s.
Proof.
  intros Hip His. revert k s Hip His. induction n as [| n IH]; intros k s Hip His Er; cbn [reparent] in Er.
  { injection Er as _ <-. split_and!; [| done..]. split; [done |]. intros j p Hj. exists p.
    split_and!; [done | apply kept_refl |]. rewrite decide_False by lia. done. }
  apply bind_inv in Er as (p & s1 & [-> Hp]%get_proc_inv & Er).
  apply bind_inv in Er as (u1 & s1 & E1 & Er).
  assert (H1 : reparented np (length (locks s)) i k 1 (initproc s) (ptable s) (ptable s1) /\
    nextpid s1 = nextpid s /\ initproc s1 = initproc s /\ cpu s1 = cpu s /\ locks s1 = locks s).
  { case_decide as Hpar.
    - erewrite bind_ret in E1 by done. erewrite bind_ret in E1 by by apply upd_proc_eq.
      set (q := set_parent (initproc s) p) in E1.
      assert (Hq : forall np nl, kept np nl p q).
      { intros. unfold kept, live. cbn. split_and!; [done.. |]. intros [A B C D F]. split.
        - split; cbn; try done. intros Hu. rewrite C in Hpar by done. done.
        - unfold entry_kept; cbn; tauto. }
      assert (Hbase : reparented np (length (locks s)) i k 1 (initproc s) (ptable s) (<[k := q]> (ptable s))).
      { split; [by rewrite length_insert |]. intros j x Hj. destruct (decide (j = k)) as [-> | Hne].
        - rewrite list_lookup_insert_eq by by eapply lookup_lt_Some. simplify_eq. exists q.
          split_and!; [done | done |]. rewrite decide_True by (split; [lia | done]). done.
        - rewrite list_lookup_insert_ne by done. exists x. split_and!; [done | apply kept_refl |].
          rewrite decide_False by lia. done. }
      case_decide.
      + injection E1 as _ <-. split_and!; [| done..]. cbn. destruct Hbase as [HL HB].
        split; [by rewrite length_map |]. intros j x Hj. destruct (HB j x Hj) as (x' & Hx' & Hk & Hpx).
        exists (wake (ch_proc <$> initproc s) x'). rewrite list_lookup_fmap, Hx'.
        split_and!; [done | | by rewrite wake_parent].
        eapply kept_trans; [exact Hk | apply kept_wake].
      + by injection E1 as _ <-.
    - injection E1 as _ <-. split_and!; [| done..]. split; [done |]. intros j x Hj. exists x.
      split_and!; [done | apply kept_refl |]. rewrite decide_False; [done |].
      intros [? ?]. replace j with k in * by lia. congruence. }
  destruct H1 as ([L1 B1] & N1 & I1 & C1 & K1). rewrite <- I1 in Hip, His.
  destruct (IH (S k) s1 Hip His Er) as ([L2 B2] & N2 & I2 & C2 & K2).
  split_and!; [| congruence..]. split; [congruence |].
  intros j x Hj. destruct (B1 j x Hj) as (x1 & Hx1 & Hk1 & P1). destruct (B2 j x1 Hx1) as (x2 & Hx2 & Hk2 & P2).
  exists x2. rewrite K1 in Hk2. split_and!; [done | by eapply kept_trans |].
  rewrite P2, I1, P1. rewrite I1 in Hip.
  destruct (decide ((k <= j < k + S n)%nat /\ parent x = Some i)) as [[Hr Hpx] | Hno].
  - destruct (decide (j = k)) as [-> |].
    + rewrite (decide_True (P := (k <= k < k + 1)%nat /\ parent x = Some i)) by (split; [lia | done]).
      rewrite decide_False by lia. done.
    + rewrite (decide_False (P := (k <= j < k + 1)%nat /\ parent x = Some i)) by lia.
      rewrite decide_True by (split; [lia | done]). done.
  - rewrite (decide_False (P := (k <= j < k + 1)%nat /\ parent x = Some i))
      by (intros [? ?]; apply Hno; split; [lia | done]).
    rewrite decide_False by (intros [? ?]; apply Hno; split; [lia | done]). done.
Qed.

(** The table when process [i] has passed its children to init and is a
    zombie. *)
Lemma exit_table t t' np ip nl i p p' :
  table_inv t np ip nl -> ip <> Some i -> reparented np nl i 0 NPROC ip t t' ->
  t' !! i = Some p -> live p -> pid p' = pid p -> parent p' = parent p -> state p' = ZOMBIE ->
  kstack p' = kstack p -> pgdir p' = pgdir p -> table_inv (<[i := p']> t') np ip nl.
Proof.
  intros H Hip [HL HB] Hi Hlp E1 E2 Hz E3 E4.
  assert (Hlt : (i < length t')%nat) by by eapply lookup_lt_Some.
  assert (Hback : forall j q, t' !! j = Some q -> exists q0, t !! j = Some q0 /\ kept np nl q0 q /\
    parent q = if decide (parent q0 = Some i) then ip else parent q0).
  { intros j q Hj. pose proof (lookup_lt_Some _ _ _ Hj) as Hjl. rewrite HL in Hjl.
    destruct (lookup_lt_is_Some_2 t j Hjl) as [q0 Hq0]. destruct (HB j q0 Hq0) as (q' & Hq' & Hk & Hp).
    simplify_eq. exists q0. split_and!; [done | done |]. rewrite Hp. rewrite (ti_len _ _ _ _ H) in Hjl.
    destruct (decide (parent q0 = Some i)); [rewrite decide_True | rewrite decide_False];
      [done | split; [lia | done] | done | tauto]. }
  assert (Hok : Forall (proc_ok np nl) t').
  { apply Forall_lookup. intros j q Hj. destruct (Hback j q Hj) as (q0 & Hq0 & (_ & _ & _ & _ & _ & Hk) & _).
    apply Hk. by eapply table_proc_ok. }
  assert (Hlive : forall j q0, t !! j = Some q0 -> live q0 -> j <> i ->
    exists q, <[i := p']> t' !! j = Some q /\ live q).
  { intros j q0 Hj Hl Hne. destruct (HB j q0 Hj) as (q & Hq & (_ & Hk & _) & _).
    exists q. rewrite list_lookup_insert_ne by done. split; [done | by apply Hk]. }
  assert (Hused : state p <> UNUSED) by (destruct Hlp as [-> | [-> | ->]]; done).
  (* an entry of the new table, read through the old one *)
  assert (Hent : forall j q, <[i := p']> t' !! j = Some q -> state q <> UNUSED ->
    exists q0, t !! j = Some q0 /\ state q0 <> UNUSED /\ (state q <> EMBRYO -> state q0 <> EMBRYO) /\ pid q = pid q0 /\
      parent q = if decide (parent q0 = Some i) then ip else parent q0).
  { intros j q Hj Hq. destruct (decide (j = i)) as [-> | Hne].
    - rewrite list_lookup_insert_eq in Hj by done. injection Hj as <-.
      destruct (Hback i p Hi) as (q0 & Hq0 & (Hpid & Hl0 & Hu & Hm & _) & Hpar).
      exists q0. split_and!; [done | by rewrite <- Hu | | congruence | congruence].
      intros _. rewrite <- Hm. destruct Hlp as [-> | [-> | ->]]; done.
    - rewrite list_lookup_insert_ne in Hj by done.
      destruct (Hback j q Hj) as (q0 & Hq0 & (Hpid & _ & Hu & Hm & _) & Hpar).
      exists q0. split_and!; [done | by rewrite <- Hu | by rewrite <- Hm | done | done]. }
  split.
  - rewrite length_insert, HL. apply (ti_len _ _ _ _ H).
  - apply (ti_np _ _ _ _ H).
  - apply Forall_insert; [done |]. destruct (Forall_lookup_1 _ _ _ _ Hok Hi) as [A B C D F].
    split; rewrite ?Hz, ?E1, ?E3, ?E4; try done; [by intros _; apply A | intros _ _; apply B; [done |] | by intros [? | ?]].
    destruct Hlp as [-> | [-> | ->]]; done.
  - intros a b x y Ha Hb Hx Hy Exy.
    destruct (Hent a x Ha Hx) as (x0 & Ha0 & Hx0 & _ & Px & _), (Hent b y Hb Hy) as (y0 & Hb0 & Hy0 & _ & Py & _).
    apply (ti_uniq _ _ _ _ H a b x0 y0); [done.. | congruence].
  - destruct (ti_init _ _ _ _ H) as (j & q0 & Hj & Hq0 & Hl).
    destruct (Hlive j q0 Hq0 Hl) as (q & Hq & Hlq); [congruence |]. exists j, q. by split_and!.
  - intros j q Hj Hq Hm Hjip. destruct (Hent j q Hj Hq) as (q0 & Hq0 & Hu0 & Hm0 & _ & Hpar).
    case_decide as Hpi.
    + destruct (ti_init _ _ _ _ H) as (k & x0 & Hk & Hx0 & Hl).
      destruct (Hlive k x0 Hx0 Hl) as (x & Hx & Hlx); [congruence |].
      exists k, x. split_and!; [congruence | done | done].
    + destruct (ti_parent _ _ _ _ H j q0 Hq0 Hu0 (Hm0 Hm) Hjip) as (k & x0 & Hk & Hx0 & Hl).
      destruct (Hlive k x0 Hx0 Hl) as (x & Hx & Hlx); [congruence |].
      exists k, x. split_and!; [congruence | done | done].
  - assert (Hold : forall j q k, t' !! j = Some q -> parent q = Some k -> (k < NPROC)%nat).
    { intros j q k Hj Hk. destruct (Hback j q Hj) as (q0 & Hq0 & _ & Hpar). rewrite Hk in Hpar. case_decide.
      - destruct (ti_init _ _ _ _ H) as (m & x & Hm & Hx & _). rewrite <- (ti_len _ _ _ _ H). simplify_eq. by eapply lookup_lt_Some.
      - by eapply (ti_slots _ _ _ _ H j q0). }
    intros j q k [(_ & <- & _) | [_ Hj]]%list_lookup_insert_Some Hk; [by eapply (Hold i p); [| congruence] | by eapply Hold].
Qed.

Lemma close_files_inv i fd fs s u s' p :
  ptable s !! i = Some p -> close_files i fd fs s = Ret u s' ->
  exists x l, s' = with_ext x (with_ptable (<[i := set_ofile l p]> (ptable s)) s).
Proof.
  revert fd s p. induction fs as [| [f |] fs IH]; intros fd s p Hp Ec; cbn [close_files] in Ec.
  - injection Ec as _ <-. exists (ext s), (ofile p).
    replace (set_ofile (ofile p) p) with p by by destruct p. rewrite list_insert_id by done. by destruct s.
  - apply bind_inv in Ec as (u1 & s1 & [x ->]%lift_inv & Ec).
    erewrite bind_ret in Ec by by apply upd_proc_eq.
    edestruct (IH (S fd)) as (x' & l & ->); [| exact Ec |].
    { cbn. apply list_lookup_insert_eq. by eapply lookup_lt_Some. }
    exists x', l. cbn. by rewrite list_insert_insert_eq.
  - by eapply IH.
Qed.

(** The loop comes to its end. *)
Lemma reparent_total n k i s : (k + n <= length (ptable s))%nat -> exists s', reparent n k i s = Ret tt s'.
Proof.
  revert k s. induction n as [| n IH]; intros k s Hk; cbn [reparent]; [by exists s |].
  destruct (lookup_lt_is_Some_2 (ptable s) k) as [p Hp]; [lia |]. erewrite bind_ret by by apply get_proc_eq.
  assert (Hb : exists s1, (if decide (parent p = Some i) then
      ip ← gets initproc; upd_proc k (set_parent ip);; if decide (state p = ZOMBIE) then wakeup1 (ch_proc <$> ip) else skip
    else skip) s = Ret tt s1 /\ length (ptable s1) = length (ptable s)).
  { case_decide; [| by exists s]. erewrite bind_ret by done. erewrite bind_ret by by apply upd_proc_eq.
    case_decide; eexists; (split; [done |]); cbn; rewrite ?length_map; apply length_insert. }
  destruct Hb as (s1 & E1 & L1). erewrite bind_ret by exact E1. apply IH. lia.
Qed.

(** When the running process [i] has become a zombie, none runs. *)
Lemma exit_none_runs np nl ip t t' i p8 : runs t (Some i) -> reparented np nl i 0 NPROC ip t t' -> is_Some (t' !! i) -> state p8 <> RUNNING ->
  runs (<[i := p8]> t') None.
Proof.
  intros Hr [HL HB] [y Hi] Hz j. split; [done |]. intros (x & Hx & Hxr). destruct (decide (j = i)) as [-> | Hne].
  - rewrite list_lookup_insert_eq in Hx by by eapply lookup_lt_Some. by injection Hx as <-.
  - rewrite list_lookup_insert_ne in Hx by done.
    assert (Hj : (j < length t)%nat) by (rewrite <- HL; by eapply lookup_lt_Some).
    destruct (lookup_lt_is_Some_2 _ _ Hj) as [x0 Hx0].
    destruct (HB j x0 Hx0) as (x' & Hx' & (_ & _ & _ & _ & Hr' & _) & _). simplify_eq.
    assert (Hcur : Some i = Some j) by (apply (Hr j); exists x0; split; [done | by apply Hr']). congruence.
Qed.

(** No entry under construction has process [i] as parent. *)
Definition no_embryo_of (i : nat) (t : list proc) : Prop :=
  forall k q, t !! k = Some q -> state q = EMBRYO -> parent q <> Some i.

Lemma exit_end_ok s i :
  on_cpu [] (Some i) s -> initproc s <> Some i ->
  exists s', exit_end i s = Ret tt s' /\ switched i s' /\
    (exists p, ptable s' !! i = Some p /\ state p = ZOMBIE) /\
    (no_embryo_of i (ptable s) -> forall j, j <> i -> stays j s s').
Proof.
  intros H5 Hip. rename s into s5. unfold exit_end.
  destruct (on_cpu_acquire [] _ s5 ptable_lock H5) as (s6 & E6 & H6 & (T6 & _ & I6 & _));
    [apply not_elem_of_nil | unfold ptable_lock; lia |].
  erewrite bind_ret by exact E6.
  destruct (on_cpu_cur _ _ _ H6) as (q6 & Hq6 & Hrun6).
  erewrite bind_ret by by apply get_proc_eq. erewrite bind_ret by done.
  set (s7 := with_ptable (map (wake (ch_proc <$> parent q6)) (ptable s6)) s6).
  assert (H7 : on_cpu [ptable_lock] (Some i) s7) by (apply on_cpu_table; [done |]; eapply wakeup1_kinv; [apply H6 | done]).
  assert (I7 : initproc s7 = initproc s5) by exact I6.
  pose proof H7 as ((Ht7 & Hr7) & Hc7 & Hh7). destruct (ti_init _ _ _ _ Ht7) as (k0 & q0 & Hk0 & _).
  destruct (reparent_total NPROC 0 i s7) as [s8 E8]; [rewrite (ti_len _ _ _ _ Ht7); lia |].
  erewrite bind_ret by exact E8.
  apply (reparent_ok (nextpid s7)) in E8 as (HR & N8 & I8 & C8 & K8); [| congruence | by rewrite Hk0].
  destruct (on_cpu_cur _ _ _ H7) as (p7 & Hp7 & Hrun7).
  pose proof HR as [_ HB]. destruct (HB i p7 Hp7) as (p8 & Hp8 & (_ & Hlive8 & _ & _ & Hrun8 & _) & _).
  assert (L8 : live p8) by (apply Hlive8; right; by right).
  erewrite bind_ret by by apply upd_proc_eq.
  set (s9 := with_ptable _ _).
  assert (Hh9 : holds [ptable_lock] s9).
  { eapply holds_cpu; [.. | exact Hh7]; cbn; by rewrite ?C8, ?K8. }
  assert (Hi9 : ptable s9 !! i = Some (set_state ZOMBIE p8))
    by (cbn; apply list_lookup_insert_eq; by eapply lookup_lt_Some).
  eexists. split; [eapply sched_switch_eq; [cbn; by rewrite C8 | exact Hh9 | exact Hi9 | done] |].
  cbn. rewrite list_insert_insert_eq. split_and!.
  - split; [| split; [| split; [| split]]]; cbn.
    + rewrite N8, I8, K8. eapply exit_table; [exact Ht7 | congruence | exact HR | exact Hp8 | done..].
    + eapply exit_none_runs; [rewrite <- Hc7; exact Hr7 | exact HR | by eexists | done].
    + by rewrite C8.
    + rewrite list_lookup_insert_eq by by eapply lookup_lt_Some. eauto.
    + exact Hh9.
  - eexists. split; [apply list_lookup_insert_eq; by eapply lookup_lt_Some | done].
  - intros Hno j Hne. assert (St7 : stays j s5 s7) by (apply (stays_wake j s5 s7 (ch_proc <$> parent q6)); [apply H5 | cbn; by rewrite T6]).
    intros x0 Hx0. destruct (St7 x0 Hx0) as (x & Hx & [Kx Px]). destruct (HB j x Hx) as (x' & Hx' & (_ & _ & _ & _ & _ & Hk) & Hpar).
    exists x'. cbn. rewrite list_lookup_insert_ne by done. split; [done |].
    destruct Hk as [_ Kx']; [by eapply table_proc_ok |]. split; [by eapply entry_kept_trans |].
    intros He. rewrite Hpar, (Px He). rewrite decide_False; [done |]. intros [_ Hpi]. by apply (Hno j x0).
Qed.

(** *** [allocproc] and [fork] *)

(** An entry that was UNUSED becomes a process with a new identifier, built or
    not, or stays UNUSED. *)
Lemma new_proc_table t np ip nl i p q :
  table_inv t np ip nl -> t !! i = Some p -> state p = UNUSED -> np + 1 < 2 ^ 31 ->
  proc_ok (np + 1) nl q -> (state q = UNUSED \/ pid q = np /\
    (state q = EMBRYO /\ parent q = None \/ exists j x, parent q = Some j /\ t !! j = Some x /\ live x)) ->
  table_inv (<[i := q]> t) (np + 1) ip nl.
Proof.
  intros H Hi Hu Hnp Hq Hor. pose proof (lookup_lt_Some _ _ _ Hi) as Hlt.
  assert (Hlive : forall j x, t !! j = Some x -> live x -> <[i := q]> t !! j = Some x).
  { intros j x Hj Hl. rewrite list_lookup_insert_ne; [done |]. intros ->. simplify_eq.
    destruct Hl as [? | [? | ?]]; congruence. }
  assert (Hold : forall j x, t !! j = Some x -> state x <> UNUSED -> pid x < np).
  { intros j x Hj Hx. by apply (po_used _ _ _ (table_proc_ok _ _ _ _ _ _ H Hj) Hx). }
  destruct H as [A1 A2 A3 A4 A5 A6 A7]. split.
  - by rewrite length_insert.
  - lia.
  - apply Forall_insert; [| done]. eapply Forall_impl; [exact A3 |]. intros x [B1 B2 B3 B4 B5].
    split; try done. intros Hx. specialize (B1 Hx). lia.
  - intros a b x y Ha Hb Hx Hy Exy.
    destruct (decide (a = i)) as [-> | Hai], (decide (b = i)) as [-> | Hbi]; [done | | |].
    + rewrite list_lookup_insert_eq in Ha by done. rewrite list_lookup_insert_ne in Hb by done.
      simplify_eq. destruct Hor as [? | [? _]]; [done |]. pose proof (Hold b y Hb Hy). lia.
    + rewrite list_lookup_insert_eq in Hb by done. rewrite list_lookup_insert_ne in Ha by done.
      simplify_eq. destruct Hor as [? | [? _]]; [done |]. pose proof (Hold a x Ha Hx). lia.
    + rewrite list_lookup_insert_ne in Ha, Hb by done. by apply (A4 a b x y).
  - destruct A5 as (j & x & Hj & Hx & Hl). exists j, x. split_and!; auto.
  - intros j x Hj Hx He Hip. destruct (decide (j = i)) as [-> | Hne].
    + rewrite list_lookup_insert_eq in Hj by done. simplify_eq.
      destruct Hor as [? | [_ [[? _] | (k & y & Hp & Hy & Hl)]]]; [done | done |]. exists k, y. auto.
    + rewrite list_lookup_insert_ne in Hj by done.
      destruct (A6 j x Hj Hx He Hip) as (k & y & Hp & Hy & Hl). exists k, y. auto.
  - intros j x k [(-> & <- & _) | [_ Hj]]%list_lookup_insert_Some Hk; [| by eapply A7].
    destruct Hor as [Hun | [_ [[_ ?] | (m & y & Hp & Hy & Hl)]]]; [by rewrite (po_unused _ _ _ Hq Hun) in Hk | congruence |].
    simplify_eq. rewrite <- A1. by eapply lookup_lt_Some.
Qed.

(** The state while process [np] is being built in slot [k], seen from the
    state [s] before. *)
Record building (ks : list nat) (s s1 : kstate X) (k : nat) (q : proc) : Prop := {
  b_slot : exists p, ptable s !! k = Some p /\ state p = UNUSED;
  b_table : ptable s1 = <[k := q]> (ptable s);
  b_next : nextpid s1 = nextpid s + 1;
  b_bound : nextpid s + 1 < 2 ^ 31;
  b_init : initproc s1 = initproc s;
  b_cpu : c_proc (cpu s1) = c_proc (cpu s);
  b_locks : length (locks s1) = length (locks s);
  b_holds : holds ks s1
}.

(** Entries in use are as they were. *)
Definition used_same (s s1 : kstate X) : Prop :=
  forall j p, ptable s !! j = Some p -> state p <> UNUSED -> ptable s1 !! j = Some p.

Lemma building_used ks s s1 k q : building ks s s1 k q -> used_same s s1.
Proof.
  intros B j p Hj Hp. rewrite (b_table _ _ _ _ _ B). destruct (b_slot _ _ _ _ _ B) as (p0 & Hp0 & Hu).
  rewrite list_lookup_insert_ne; [done |]. intros ->. congruence.
Qed.

Lemma building_upd ks s s1 k q f u s2 :
  building ks s s1 k q -> upd_proc k f s1 = Ret u s2 -> building ks s s2 k (f q).
Proof.
  intros [B1 B2 B3 B4 B5 B6 B7 B8] (p & Hp & ->)%upd_proc_inv. destruct B1 as (p0 & Hp0 & Hu).
  rewrite B2, list_lookup_insert_eq in Hp by by eapply lookup_lt_Some. injection Hp as <-.
  split; try done; [by exists p0 |]. cbn. by rewrite B2, list_insert_insert_eq.
Qed.

Lemma building_ext ks s s1 k q x : building ks s s1 k q -> building ks s (with_ext x s1) k q.
Proof. intros [B1 B2 B3 B4 B5 B6 B7 B8]. by split. Qed.

Lemma building_same ks ks' s s1 s2 k q :
  building ks s s1 k q -> same_table s1 s2 -> holds ks' s2 -> building ks' s s2 k q.
Proof.
  intros [B1 B2 B3 B4 B5 B6 B7 B8] (T & N & I & _ & _ & C & L) Hh. split; try done; congruence.
Qed.

Lemma building_done cur s s1 k q :
  on_cpu [] cur s -> building [] s s1 k q -> proc_ok (nextpid s + 1) (length (locks s)) q ->
  state q <> RUNNING ->
  (state q = UNUSED \/ pid q = nextpid s /\
    (state q = EMBRYO /\ parent q = None \/ exists j x, parent q = Some j /\ ptable s !! j = Some x /\ live x)) ->
  on_cpu [] cur s1.
Proof.
  intros ((Ht & Hr) & Hc & Hh) [(p & Hp & Hu) B2 B3 B4 B5 B6 B7 B8] Hq Hnr Hor.
  split; [split | split; [congruence | done]].
  - rewrite B2, B3, B5, B7. by eapply new_proc_table.
  - rewrite B2, B6. eapply runs_upd; [exact Hr | exact Hp |]. by rewrite Hu.
Qed.

(** The slot that [alloc_slot] takes. *)
Definition slot_taken (n : Z) (p : proc) : proc := set_pid n (set_priority 0 (set_nice 0 (set_state EMBRYO p))).

Lemma alloc_slot_cases cur s :
  on_cpu [] cur s ->
  (exists s1, alloc_slot s = Ret None s1 /\ on_cpu [] cur s1 /\ same_table s s1) \/
  (2 ^ 31 - 1 <= nextpid s /\ alloc_slot s = Stop "nextpid overflows") \/
  exists k p s1, alloc_slot s = Ret (Some k) s1 /\ ptable s !! k = Some p /\ state p = UNUSED /\ parent p = None /\
    on_cpu [] cur s1 /\ building [] s s1 k (slot_taken (nextpid s) p).
Proof.
  intros H. unfold alloc_slot.
  destruct (on_cpu_acquire [] cur s ptable_lock H) as (s2 & E2 & H2 & S2);
    [apply not_elem_of_nil | unfold ptable_lock; lia |].
  pose proof S2 as (T2 & N2 & I2 & _ & _ & C2 & L2).
  erewrite bind_ret by exact E2. erewrite bind_ret by done.
  destruct (find_index _ _) as [k |] eqn:Ef.
  2:{ destruct (on_cpu_release [] cur s2 ptable_lock H2) as (s3 & E3 & H3 & S3); [apply not_elem_of_nil |].
      left. exists s3. erewrite bind_ret by exact E3. split_and!; [done | done |]. by eapply same_table_trans. }
  right. apply find_index_Some in Ef as [(p & Hp & Hu) _]. apply bool_decide_eq_true in Hu.
  erewrite bind_ret by done. unfold assertb at 1. rewrite N2.
  destruct (Z.ltb_spec (nextpid s) (2 ^ 31 - 1)) as [Hb | Hb]; [| left; split; [done | reflexivity]].
  right. erewrite bind_ret by done. erewrite bind_ret by by apply upd_proc_eq.
  erewrite bind_ret by done. fold (slot_taken (nextpid s) p). set (s3 := with_nextpid _ _).
  assert (Hh3 : holds [ptable_lock] s3) by (destruct H2 as (_ & _ & ?); done).
  destruct (holds_release [] ptable_lock s3 Hh3) as (s4 & E4 & H4 & S4); [apply not_elem_of_nil |].
  assert (B4 : building [] s s4 k (slot_taken (nextpid s) p)).
  { destruct S4 as (T4 & N4 & I4 & _ & _ & C4 & L4).
    split; [exists p; by rewrite <- T2 | | | lia | | | | done].
    - rewrite T4. cbn. by rewrite T2.
    - rewrite N4. cbn. lia.
    - by rewrite I4.
    - by rewrite C4.
    - by rewrite L4. }
  rewrite T2 in Hp. assert (Hpar : parent p = None).
  { apply (po_unused (nextpid s) (length (locks s)) p); [| done]. by eapply table_proc_ok; [apply H |]. }
  exists k, p, s4. erewrite bind_ret by exact E4. split_and!; [done.. | | done].
  pose proof (ti_np _ _ _ _ (proj1 (proj1 H))) as Hnp.
  eapply building_done; [exact H | exact B4 | | done | right; by split; [| left]].
  split; cbn; try done; [lia | by intros [? | ?]].
Qed.

Lemma allocproc_ok cur s o s1 :
  on_cpu [] cur s -> allocproc s = Ret o s1 ->
  match o with
  | None => on_cpu [] cur s1 /\ used_same s s1
  | Some k => exists q, building [] s s1 k q /\ nice q = 0 /\ state q = EMBRYO /\ pid q = nextpid s /\
      parent q = None /\ is_Some (kstack q) /\ context q = at_forkret
  end.
Proof.
  intros H Ea. unfold allocproc in Ea. apply bind_inv in Ea as (o1 & s4 & E4 & Ea).
  destruct (alloc_slot_cases cur s H) as [(s2 & E2 & H2 & S2) | [[_ E2] | (k & p & s2 & E2 & Hp & Hu & Hpar & _ & B4)]];
    [| congruence |].
  { rewrite E4 in E2. simplify_eq. injection Ea as <- <-. split; [done |]. intros j q Hj _. destruct S2 as (-> & _). done. }
  rewrite E4 in E2. simplify_eq.
  apply bind_inv in Ea as (ks & s5 & [x ->]%lift_inv & Ea). apply (building_ext _ _ _ _ _ x) in B4.
  apply bind_inv in Ea as (u & s6 & E6 & Ea). pose proof (building_upd _ _ _ _ _ _ _ _ B4 E6) as B6.
  destruct ks as [ks |].
  - apply bind_inv in Ea as (u2 & s7 & E7 & Ea). injection Ea as <- <-.
    pose proof (building_upd _ _ _ _ _ _ _ _ B6 E7) as B7. eexists. split; [exact B7 |].
    cbn. by split_and!.
  - apply bind_inv in Ea as (u2 & s7 & E7 & Ea). injection Ea as <- <-.
    pose proof (building_upd _ _ _ _ _ _ _ _ B6 E7) as B7.
    split; [| by eapply building_used].
    eapply building_done; [exact H | exact B7 | | done | by left].
    split; cbn; try done. by intros [? | ?].
Qed.

Lemma building_dup ks s s1 i k fd fs q u s2 :
  building ks s s1 k q -> dup_files i k fd fs s1 = Ret u s2 ->
  exists l, building ks s s2 k (set_ofile l q).
Proof.
  revert fd s1 q. induction fs as [| [f |] fs IH]; intros fd s1 q B Ed; cbn [dup_files] in Ed.
  - injection Ed as _ <-. exists (ofile q). by replace (set_ofile (ofile q) q) with q by by destruct q.
  - apply bind_inv in Ed as (f' & s3 & [x ->]%lift_inv & Ed). apply (building_ext _ _ _ _ _ x) in B.
    apply bind_inv in Ed as (u1 & s4 & E4 & Ed). pose proof (building_upd _ _ _ _ _ _ _ _ B E4) as B4.
    destruct (IH _ _ _ B4 Ed) as [l Bl]. by exists l.
  - by eapply IH.
Qed.

(** The last step of [fork] makes the new process RUNNABLE. *)
Lemma fork_publish s s1 i k q pr u s' :
  on_cpu [] (Some i) s -> building [] s s1 k q -> pid q = nextpid s -> parent q = Some i ->
  is_Some (kstack q) -> is_Some (pgdir q) -> context q = at_forkret ->
  (acquire ptable_lock;; upd_proc k (fun q => set_priority pr (set_state RUNNABLE q));;
   release ptable_lock) s1 = Ret u s' ->
  on_cpu [] (Some i) s' /\ building [] s s' k (set_priority pr (set_state RUNNABLE q)).
Proof.
  intros H B Hpid Hpar Hks Hpg Hctx Ef.
  destruct (holds_acquire [] ptable_lock s1 (b_holds _ _ _ _ _ B)) as (s2 & E2 & Hh2 & S2);
    [apply not_elem_of_nil | unfold ptable_lock; pose proof (holds_locks _ _ (b_holds _ _ _ _ _ B)); lia |].
  erewrite bind_ret in Ef by exact E2. pose proof (building_same _ _ _ _ _ _ _ B S2 Hh2) as B2.
  apply bind_inv in Ef as (u3 & s3 & E3 & Ef). pose proof (building_upd _ _ _ _ _ _ _ _ B2 E3) as B3.
  destruct (holds_release [] ptable_lock s3 (b_holds _ _ _ _ _ B3)) as (s4 & E4 & Hh4 & S4);
    [apply not_elem_of_nil |].
  rewrite E4 in Ef. injection Ef as _ <-. pose proof (building_same _ _ _ _ _ _ _ B3 S4 Hh4) as B4.
  split; [| done]. destruct (on_cpu_cur _ _ _ H) as (p & Hp & Hrun).
  pose proof (ti_np _ _ _ _ (proj1 (proj1 H))) as Hnp.
  eapply building_done; [exact H | exact B4 | | done |].
  - split; cbn; try done; [intros _; rewrite Hpid; lia | by rewrite Hctx].
  - right. split; [done |]. right. exists i, p. split_and!; [done.. |]. by right; right.
Qed.

Lemma fork_ok s i r s' :
  on_cpu [] (Some i) s -> fork s = Ret r s' ->
  on_cpu [] (Some i) s' /\ used_same s s' /\
  (r = -1 \/ exists k p q, r = nextpid s /\ nextpid s' = nextpid s + 1 /\
     ptable s !! i = Some p /\ ptable s' = <[k := q]> (ptable s) /\
     (exists p0, ptable s !! k = Some p0 /\ state p0 = UNUSED) /\
     state q = RUNNABLE /\ pid q = nextpid s /\ parent q = Some i /\ prio q = prio p /\
     sz q = sz p /\ tf_eax (tf q) = 0 /\ nice q = 0).
Proof.
  intros H Ef. pose proof H as (_ & Hc & Hh).
  destruct (holds_curproc _ _ _ Hh Hc) as (s0 & E0 & Hh0 & S0 & _).
  assert (H0 : on_cpu [] (Some i) s0) by by eapply on_cpu_same.
  destruct S0 as (T0 & N0 & _). unfold used_same. rewrite <- T0, <- N0.
  fold (used_same s0 s'). clear H Hc Hh.
  unfold fork in Ef. erewrite bind_ret in Ef by exact E0.
  apply bind_inv in Ef as (o & s1 & E1 & Ef). pose proof (allocproc_ok _ _ _ _ H0 E1) as Ho.
  destruct o as [k |]; [| destruct Ho; injection Ef as <- <-; split_and!; [done | done | by left]].
  destruct Ho as (q & B1 & Hnice & Hst & Hpid & Hpar & [ks Hks] & Hctx).
  destruct (on_cpu_cur _ _ _ H0) as (p & Hp & Hrun).
  assert (Hne : i <> k) by (intros ->; destruct (b_slot _ _ _ _ _ B1) as (? & ? & ?); congruence).
  assert (Hp1 : ptable s1 !! i = Some p) by (rewrite (b_table _ _ _ _ _ B1), list_lookup_insert_ne; done).
  erewrite bind_ret in Ef by by apply get_proc_eq.
  apply bind_inv in Ef as (d & s2 & E2 & Ef). destruct (pgdir p); [| done]. injection E2 as <- <-.
  apply bind_inv in Ef as (pg & s2 & [x ->]%lift_inv & Ef). apply (building_ext _ _ _ _ _ x) in B1.
  apply bind_inv in Ef as (u & s3 & E3 & Ef). pose proof (building_upd _ _ _ _ _ _ _ _ B1 E3) as B3.
  destruct pg as [pg |].
  2:{ apply bind_inv in Ef as (q' & s4 & [-> _]%get_proc_inv & Ef).
      apply bind_inv in Ef as (ks' & s4 & E4 & Ef). destruct (kstack q'); [| done]. injection E4 as <- <-.
      apply bind_inv in Ef as (u1 & s4 & [x1 ->]%lift_inv & Ef). apply (building_ext _ _ _ _ _ x1) in B3.
      apply bind_inv in Ef as (u2 & s5 & E5 & Ef). pose proof (building_upd _ _ _ _ _ _ _ _ B3 E5) as B5.
      injection Ef as <- <-. split_and!; [| by eapply building_used | by left].
      eapply building_done; [exact H0 | exact B5 | | done | by left]. split; cbn; try done. by intros [? | ?]. }
  apply bind_inv in Ef as (u1 & s4 & E4 & Ef). pose proof (building_upd _ _ _ _ _ _ _ _ B3 E4) as B4.
  apply bind_inv in Ef as (u2 & s5 & E5 & Ef). pose proof (building_upd _ _ _ _ _ _ _ _ B4 E5) as B5.
  apply bind_inv in Ef as (u3 & s6 & E6 & Ef). destruct (building_dup _ _ _ _ _ _ _ _ _ _ B5 E6) as [l B6].
  apply bind_inv in Ef as (c & s7 & E7 & Ef). destruct (cwd p); [| done]. injection E7 as _ <-.
  apply bind_inv in Ef as (c' & s7 & [x2 ->]%lift_inv & Ef). apply (building_ext _ _ _ _ _ x2) in B6.
  apply bind_inv in Ef as (u4 & s8 & E8 & Ef). pose proof (building_upd _ _ _ _ _ _ _ _ B6 E8) as B8.
  apply bind_inv in Ef as (u5 & s9 & E9 & Ef). pose proof (building_upd _ _ _ _ _ _ _ _ B8 E9) as B9.
  apply bind_inv in Ef as (q' & s10 & [-> Hq']%get_proc_inv & Ef).
  destruct (b_slot _ _ _ _ _ B9) as (p0 & Hp0 & Hu0).
  rewrite (b_table _ _ _ _ _ B9), list_lookup_insert_eq in Hq' by by eapply lookup_lt_Some.
  apply bind_inv in Ef as (u6 & s10 & E10 & Ef). apply bind_inv in Ef as (u7 & s11 & E11 & Ef).
  apply bind_inv in Ef as (u8 & s12 & E12 & Ef). injection Ef as <- <-.
  destruct (fork_publish s0 s9 i k q' (prio p) u8 s12) as [H12 B12]; try done.
  - by injection Hq' as <-.
  - by injection Hq' as <-.
  - by injection Hq' as <-.
  - injection Hq' as <-. cbn. by rewrite Hks.
  - injection Hq' as <-. cbn. done.
  - by injection Hq' as <-.
  - erewrite bind_ret by exact E10. by erewrite bind_ret by exact E11.
  - split_and!; [done | by eapply building_used |]. right. exists k, p, (set_priority (prio p) (set_state RUNNABLE q')).
    rewrite (b_table _ _ _ _ _ B12). injection Hq' as <-. cbn. split_and!; try done.
    + apply (b_next _ _ _ _ _ B12).
    + by exists p0.
Qed.

(** *** What the operations of one process leave to the others *)
Lemma stays_same j s s' : same_table s s' -> stays j s s'.
Proof. intros (H & _). by apply stays_refl. Qed.

Lemma stays_ext j s x : stays j s (with_ext x s).
Proof. by apply stays_refl. Qed.

Lemma stays_upd i j s f u s' : j <> i -> upd_proc i f s = Ret u s' -> stays j s s'.
Proof. intros Hne (p & _ & ->)%upd_proc_inv. by eapply stays_insert. Qed.

Lemma wait_scan_stays i j s r s' : wait_scan i s = Ret r s' -> stays j s s'.
Proof.
  intros Ew. unfold wait_scan in Ew. erewrite bind_ret in Ew by done. cbv zeta in Ew.
  destruct (find_index _ _) as [k |] eqn:Ef.
  - apply find_index_Some in Ef as [(q & Hq & Hz) _]. apply andb_true_iff in Hz as [_ Hz].
    apply bool_decide_eq_true in Hz.
    erewrite bind_ret in Ew by by apply get_proc_eq.
    apply bind_inv in Ew as (ks & s1 & E1 & Ew). destruct (kstack q); [| done]. injection E1 as _ <-.
    apply bind_inv in Ew as (u & s1 & [x ->]%lift_inv & Ew).
    apply bind_inv in Ew as (d & s1 & E1 & Ew). destruct (pgdir q); [| done]. injection E1 as _ <-.
    apply bind_inv in Ew as (u2 & s1 & [x2 ->]%lift_inv & Ew).
    apply bind_inv in Ew as (u3 & s2 & (q' & Hq' & ->)%upd_proc_inv & Ew). cbn in Hq'. rewrite Hq in Hq'. injection Hq' as <-.
    apply bind_inv in Ew as (u4 & s3 & (T3 & _)%release_inv & Ew). injection Ew as _ <-.
    destruct (decide (j = k)) as [-> | Hne]; [| by eapply (stays_insert k); [| exact T3]].
    intros p Hp. rewrite T3. cbn. rewrite list_lookup_insert_eq by by eapply lookup_lt_Some.
    eexists. split; [done |]. rewrite Hq in Hp. injection Hp as <-. apply entry_stays_other; cbn; congruence.
  - apply bind_inv in Ew as (q & s1 & [-> _]%get_proc_inv & Ew).
    destruct (_ || _); [| injection Ew as _ <-; by apply stays_refl].
    apply bind_inv in Ew as (u4 & s3 & (T3 & _)%release_inv & Ew). injection Ew as _ <-. by apply stays_refl.
Qed.

Lemma wait_loop_stays i j s r s' :
  on_cpu [ptable_lock] (Some i) s -> j <> i -> wait_loop i s = Ret r s' -> stays j s s'.
Proof.
  intros H Hne Ew. unfold wait_loop in Ew. apply bind_inv in Ew as (r1 & s1 & E1 & Ew).
  pose proof (wait_scan_ok s i r1 s1 H E1) as H1. pose proof (wait_scan_stays i j _ _ _ E1) as St.
  destruct r1 as [v |]; [by injection Ew as _ <- |].
  subst s1. destruct (sleep_wait_ok s i H) as (s2 & E2 & _ & q & T2 & _).
  erewrite bind_ret in Ew by exact E2. injection Ew as _ <-. by eapply stays_insert.
Qed.

Lemma wait_stays i j s r s' : on_cpu [] (Some i) s -> j <> i -> wait_ s = Ret r s' -> stays j s s'.
Proof.
  intros H Hne Ew. pose proof H as (_ & Hc & Hh).
  destruct (holds_curproc _ _ _ Hh Hc) as (s0 & E0 & Hh0 & S0 & _).
  assert (H0 : on_cpu [] (Some i) s0) by by eapply on_cpu_same.
  destruct (on_cpu_acquire [] _ s0 ptable_lock H0) as (s1 & E1 & H1 & S1);
    [apply not_elem_of_nil | unfold ptable_lock; lia |].
  unfold wait_ in Ew. erewrite bind_ret in Ew by exact E0. erewrite bind_ret in Ew by exact E1.
  eapply stays_trans; [by apply stays_same |]. eapply stays_trans; [by apply stays_same |].
  by eapply wait_loop_stays.
Qed.

Lemma resume_stays i j s p r s' :
  on_cpu [ptable_lock] (Some i) s -> ptable s !! i = Some p -> ctx_ok (length (locks s)) (context p) ->
  j <> i -> resume_proc i s = Ret r s' -> stays j s s'.
Proof.
  intros H Hp Hctx Hne Er. unfold resume_proc in Er. erewrite bind_ret in Er by by apply get_proc_eq.
  assert (Hset : forall b sa u sb, set_intena b sa = Ret u sb -> stays j sa sb)
    by (intros b sa u sb [= _ <-]; by apply stays_refl).
  destruct (context p) as [| np f b | b | lk b | b | b].
  - apply bind_inv in Er as (u & s1 & E1%release_inv & Er). injection Er as _ <-. by apply stays_same.
  - apply bind_inv in Er as (u & s1 & E1%Hset & Er).
    apply bind_inv in Er as (u2 & s2 & E2%release_inv & Er). injection Er as _ <-.
    eapply stays_trans; [exact E1 | by apply stays_same].
  - apply bind_inv in Er as (u & s1 & E1%Hset & Er).
    apply bind_inv in Er as (u2 & s2 & E2%release_inv & Er). injection Er as _ <-.
    eapply stays_trans; [exact E1 | by apply stays_same].
  - apply bind_inv in Er as (u & s1 & E1%Hset & Er).
    apply bind_inv in Er as (u2 & s2 & E2%(stays_upd i j) & Er); [| done].
    apply bind_inv in Er as (u3 & s3 & E3%release_inv & Er).
    apply bind_inv in Er as (u4 & s4 & E4%acquire_inv & Er). injection Er as _ <-.
    eapply stays_trans; [exact E1 |]. eapply stays_trans; [exact E2 |].
    eapply stays_trans; by apply stays_same.
  - cbn in Hctx. subst b. destruct (set_intena_same _ _ s H) as (s1 & E1 & H1 & _); [done |].
    erewrite bind_ret in Er by exact E1. destruct (clear_chan_ok _ _ _ H1) as (s2 & E2 & H2 & _).
    erewrite bind_ret in Er by exact E2. apply bind_inv in Er as (o & s3 & E3 & Er). injection Er as _ <-.
    eapply stays_trans; [by eapply Hset |]. eapply stays_trans; [by eapply stays_upd |].
    by eapply wait_loop_stays.
  - by apply bind_inv in Er as (u & s1 & E1 & ?).
Qed.
End ops.

(** ** Boot *)
Section boot.
Context {X : Type} {E : KernelEnv X}.
Implicit Types s : kstate X.

(** No lock is held; interrupts may be off, as they are during boot. *)
Definition calm s : Prop :=
  ncli (cpu s) = 0 /\ held_only [] (locks s) /\ (2 <= length (locks s))%nat.

Lemma calm_section s k s1 u :
  calm s -> acquire k s = Ret u s1 ->
  (k < length (locks s))%nat ->
  forall s2, cpu s2 = cpu s1 -> locks s2 = locks s1 ->
  exists s3, release k s2 = Ret tt s3 /\ calm s3 /\ same_table s2 s3.
Proof.
  intros (H0 & H1 & H2) Ea Hk s2 Hc2 Hl2.
  rewrite acquire_eq in Ea.
  2:{ split; rewrite H0; lia. }
  2:{ by apply (held_only_free []); [| apply not_elem_of_nil |]. }
  injection Ea as _ <-. exists (rel k s2). split; [| split; [split; [| split] |]].
  - apply release_eq; rewrite ?Hc2, ?Hl2; cbn; [rewrite H0; lia | done |]. by apply list_lookup_insert_eq.
  - unfold rel. cbn. rewrite Hc2. cbn. by rewrite H0.
  - cbn. rewrite Hl2. cbn. rewrite list_insert_insert_eq.
    pose proof (held_only_release [] k _ H1) as Hr. by rewrite filter_nil in Hr.
  - cbn. rewrite Hl2. cbn. by rewrite !length_insert.
  - apply rel_same.
Qed.

Definition boot_state s : Prop :=
  ptable s = replicate NPROC proc_zero /\ nextpid s = 1 /\ c_proc (cpu s) = None /\ calm s.

(** The table that holds only the first process. *)
Lemma init_table nl k q :
  (k < NPROC)%nat -> state q = RUNNABLE -> parent q = None -> proc_ok 2 nl q ->
  table_inv (<[k := q]> (replicate NPROC proc_zero)) 2 (Some k) nl /\
  runs (<[k := q]> (replicate NPROC proc_zero)) None.
Proof.
  intros Hk Hq Hpar Hok.
  assert (Hlt : (k < length (replicate NPROC proc_zero))%nat) by by rewrite length_replicate.
  assert (Hent : forall j p, <[k := q]> (replicate NPROC proc_zero) !! j = Some p ->
    state p <> UNUSED -> j = k /\ p = q).
  { intros j p Hj Hp. destruct (decide (j = k)) as [-> | Hne].
    - rewrite list_lookup_insert_eq in Hj by done. by injection Hj.
    - rewrite list_lookup_insert_ne in Hj by done. apply lookup_replicate in Hj as [-> _]. done. }
  split; [split |].
  - by rewrite length_insert, length_replicate.
  - lia.
  - apply Forall_insert; [| done]. apply Forall_replicate. split; cbn; done || by intros [? | ?].
  - intros i j p p' Hi Hj Hp Hp' _. destruct (Hent i p Hi Hp) as [-> _], (Hent j p' Hj Hp') as [-> _]. done.
  - exists k, q. split_and!; [done | by apply list_lookup_insert_eq | by right; left].
  - intros j p Hj Hp Hne. destruct (Hent j p Hj Hp) as [-> _]. done.
  - intros j p m [(-> & <- & _) | [_ Hj]]%list_lookup_insert_Some Hm; [congruence |]. by apply lookup_replicate in Hj as [-> _].
  - intros j. split; [done |]. intros (p & Hj & Hp). destruct (Hent j p Hj) as [-> ->]; congruence.
Qed.

(** Slot [k] is being set up, nothing else of the table has changed. *)
Definition setting_up (k : nat) (q : proc) s : Prop :=
  (k < NPROC)%nat /\ ptable s = <[k := q]> (replicate NPROC proc_zero) /\ nextpid s = 2 /\
  c_proc (cpu s) = None /\ calm s.

Lemma setting_up_upd k q s f u s' :
  setting_up k q s -> upd_proc k f s = Ret u s' -> setting_up k (f q) s' /\ initproc s' = initproc s.
Proof.
  intros (Hk & Ht & Hn & Hc & Hl) (p & Hp & ->)%upd_proc_inv.
  rewrite Ht, list_lookup_insert_eq in Hp by by rewrite length_replicate. injection Hp as <-.
  split; [| done]. split_and!; try done. cbn. by rewrite Ht, list_insert_insert_eq.
Qed.

Lemma allocproc_boot s o s' :
  boot_state s -> allocproc s = Ret o s' ->
  match o with
  | Some k => exists q, setting_up k q s' /\ pid q = 1 /\ is_Some (kstack q) /\ context q = at_forkret /\ parent q = None
  | None => True
  end.
Proof.
  intros (Ht & Hn & Hc & Hcalm) Ea. destruct o as [k |]; [| done].
  pose proof Hcalm as (_ & _ & Hlen). unfold allocproc in Ea. apply bind_inv in Ea as (o & s3 & Eo & Ea).
  unfold alloc_slot in Eo.
  apply bind_inv in Eo as (u & s1 & E1 & Eo). pose proof (acquire_inv _ _ _ _ E1) as (T1 & N1 & _ & _ & _ & C1 & _).
  erewrite bind_ret in Eo by done. rewrite T1, Ht in Eo.
  destruct (find_index _ _) as [k' |] eqn:Ef; [| by apply bind_inv in Eo as (? & ? & _ & [= <- <-])].
  pose proof (find_index_lt _ _ _ Ef) as Hk. rewrite length_replicate in Hk. clear Ef.
  erewrite bind_ret in Eo by done. rewrite N1, Hn in Eo. erewrite bind_ret in Eo by done.
  erewrite bind_ret in Eo.
  2:{ apply upd_proc_eq. rewrite T1, Ht. by apply lookup_replicate_2. }
  erewrite bind_ret in Eo by done. set (s2 := with_nextpid _ _) in Eo.
  edestruct (calm_section s ptable_lock s1 u Hcalm E1) with (s2 := s2)
    as (s3' & E3 & H3 & (T3 & N3 & _ & _ & _ & C3 & _)); [unfold ptable_lock; lia | done | done |].
  erewrite bind_ret in Eo by exact E3. injection Eo as <- ->.
  apply bind_inv in Ea as (ks & s4 & [x ->]%lift_inv & Ea).
  assert (U3 : setting_up k' (set_pid 1 (set_priority 0 (set_nice 0 (set_state EMBRYO proc_zero)))) (with_ext x s3)).
  { split_and!; [done | cbn; rewrite T3; cbn; by rewrite T1, Ht | cbn; by rewrite N3 | cbn; rewrite C3; cbn; congruence | exact H3]. }
  apply bind_inv in Ea as (u1 & s5 & E5 & Ea). destruct (setting_up_upd _ _ _ _ _ _ U3 E5) as [U5 _].
  destruct ks as [ks |]; [| by apply bind_inv in Ea as (? & ? & _ & ?)].
  apply bind_inv in Ea as (u2 & s6 & E6 & Ea). destruct (setting_up_upd _ _ _ _ _ _ U5 E6) as [U6 _].
  injection Ea as <- <-. eexists. split; [exact U6 |]. cbn. by split_and!.
Qed.

Lemma userinit_ok s u s' :
  boot_state s -> userinit s = Ret u s' -> (kinv s' /\ c_proc (cpu s') = None /\ calm s') /\
    forall j p, ptable s' !! j = Some p -> state p <> EMBRYO /\ ctx_fork (context p) = None.
Proof.
  intros Hb Eu. unfold userinit in Eu. apply bind_inv in Eu as (o & s1 & E1 & Eu).
  pose proof (allocproc_boot _ _ _ Hb E1) as Ho. erewrite bind_ret in Eu by done.
  destruct o as [k |]; [| by apply bind_inv in Eu as (? & ? & ? & _)].
  destruct Ho as (q & U1 & Hpid & Hks & Hctx & Hpar). erewrite bind_ret in Eu by done.
  assert (U2 : setting_up k q (with_initproc (Some k) s1)) by exact U1.
  apply bind_inv in Eu as (pg & s3 & [x ->]%lift_inv & Eu).
  assert (U3 : setting_up k q (with_ext x (with_initproc (Some k) s1))) by exact U1. clear U1 U2.
  apply bind_inv in Eu as (u1 & s4 & E4 & Eu). destruct (setting_up_upd _ _ _ _ _ _ U3 E4) as [U4 I4].
  destruct pg as [pg |]; [| done].
  apply bind_inv in Eu as (u2 & s5 & [x5 ->]%lift_inv & Eu).
  apply bind_inv in Eu as (u3 & s6 & E6 & Eu). destruct (setting_up_upd k _ (with_ext x5 s4) _ _ _ U4 E6) as [U6 I6].
  apply bind_inv in Eu as (u4 & s7 & E7 & Eu). destruct (setting_up_upd _ _ _ _ _ _ U6 E7) as [U7 I7].
  apply bind_inv in Eu as (u5 & s8 & E8 & Eu). destruct (setting_up_upd _ _ _ _ _ _ U7 E8) as [U8 I8].
  apply bind_inv in Eu as (d & s9 & [x9 ->]%lift_inv & Eu).
  apply bind_inv in Eu as (u6 & s10 & E10 & Eu). destruct (setting_up_upd k _ (with_ext x9 s8) _ _ _ U8 E10) as [U10 I10].
  apply bind_inv in Eu as (u7 & s11 & E11 & Eu).
  destruct U10 as (Hk & Ht & Hn & Hc & Hcalm). pose proof (acquire_inv _ _ _ _ E11) as (T11 & N11 & I11 & _ & _ & C11 & L11).
  erewrite bind_ret in Eu.
  2:{ apply upd_proc_eq. rewrite T11, Ht. apply list_lookup_insert_eq. by rewrite length_replicate. }
  edestruct (calm_section s10 ptable_lock s11 u7 Hcalm E11) as (s12 & E12 & H12 & S12);
    [pose proof Hcalm as (_ & _ & ?); unfold ptable_lock; lia | .. |]; [| | rewrite E12 in Eu].
  1,2: done.
  injection Eu as _ <-. destruct S12 as (T12 & N12 & I12 & _ & _ & C12 & L12).
  split.
  2:{ intros j p. rewrite T12. cbn. rewrite T11, Ht, list_insert_insert_eq. intros Hj. destruct (decide (j = k)) as [-> | Hne].
      - rewrite list_lookup_insert_eq in Hj by by rewrite length_replicate. injection Hj as <-. cbn. by rewrite Hctx.
      - rewrite list_lookup_insert_ne in Hj by done. by apply lookup_replicate in Hj as [-> _]. }
  split_and!; [| rewrite C12; cbn; congruence | exact H12].
  unfold kinv. rewrite T12, N12, I12, C12, L12. cbn. rewrite T11, Ht, list_insert_insert_eq.
  rewrite N11, Hn, C11, Hc, I11, I10. cbn. rewrite I8, I7, I6. cbn. rewrite I4. cbn.
  apply init_table; [done | done | done |]. split; cbn; try done; [| by rewrite Hctx].
  intros _. rewrite Hpid. lia.
Qed.
End boot.
