(* ===== verification/Forking.v ===== *)
(** * Forking: fork one statement at a time, and where the process code can fail

    proc.c's [fork] holds no lock while it builds the new process, so the clock
    may take the CPU from it and other processes run while the entry is in
    state EMBRYO.  [fork_next] (Proc.v) is one statement; here is that the
    uninterrupted run of the statements is [fork], what each statement does to
    the table, and the invariant of the forks in progress.  The first section
    says how a kernel function may fail: [ends F m s Q] is that it returns with
    [Q], or fails as the layers below do ([env_faults]). *)

From Stdlib Require Import ZArith Lia.
From stdpp Require Import base numbers strings option sets list.
From S2P Require Import Prelude Kernel KString Proc ProcSpec Sched.

(** ** How a function ends *)
Inductive fault (S : Type) := f_stop (msg : string) | f_block (c : string) (s : S) | f_fuel.
Arguments f_stop {S} msg.
Arguments f_block {S} c s.
Arguments f_fuel {S}.

Definition ends {S A : Type} (F : fault S -> Prop) (m : M S A) (s : S) (Q : A -> S -> Prop) : Prop :=
  match m s with
  | Ret a s' => Q a s'
  | Stop msg => F (f_stop msg)
  | Block c s' => F (f_block c s')
  | OutOfFuel => F f_fuel
  end.

(** The call [m] fails with [f]. *)
Definition fails {S A : Type} (m : M S A) (s : S) (f : fault S) : Prop :=
  match m s with
  | Ret _ _ => False
  | Stop msg => f = f_stop msg
  | Block c s' => f = f_block c s'
  | OutOfFuel => f = f_fuel
  end.

Section ends_rules.
Context {S A B : Type} (F : fault S -> Prop).
Implicit Types (m : M S A) (k : A -> M S B) (s : S).

Lemma ends_ret m s a s' (Q : A -> S -> Prop) : m s = Ret a s' -> Q a s' -> ends F m s Q.
Proof. unfold ends. by intros ->. Qed.
Lemma ends_returns m s (Q : A -> S -> Prop) a s' : ends F m s Q -> m s = Ret a s' -> Q a s'.
Proof. unfold ends. by intros H E; rewrite E in H. Qed.
Lemma ends_bind m k s (Q : B -> S -> Prop) : ends F m s (fun a s' => ends F (k a) s' Q) -> ends F (m ≫= k) s Q.
Proof. unfold ends, mbind, M_bind. by destruct (m s). Qed.
Lemma ends_ret_bind m k s a s' (Q : B -> S -> Prop) : m s = Ret a s' -> ends F (k a) s' Q -> ends F (m ≫= k) s Q.
Proof. intros E H. apply ends_bind. by eapply ends_ret. Qed.
Lemma ends_mono (F' : fault S -> Prop) m s (P Q : A -> S -> Prop) :
  ends F m s P -> (forall f, F f -> F' f) -> (forall a s', m s = Ret a s' -> P a s' -> Q a s') -> ends F' m s Q.
Proof. unfold ends. destruct (m s); eauto. Qed.
Lemma ends_fails m s (Q : A -> S -> Prop) : (forall f, fails m s f -> F f) -> (forall a s', m s = Ret a s' -> Q a s') -> ends F m s Q.
Proof. unfold ends, fails. destruct (m s); eauto. Qed.
End ends_rules.

(** [run E]: the next call is [E], which returns. *)
Ltac run E := eapply ends_ret_bind; [exact E |].

Section faults.
Context {X : Type} {E : KernelEnv X}.
Implicit Types s : kstate X.
Abbreviation K := (M (kstate X)).

(** The calls of the process code into the memory and file layers. *)
Inductive env_call : forall {A : Type}, M X A -> Prop :=
| ec_kalloc : env_call kalloc
| ec_kfree a : env_call (kfree a)
| ec_setupkvm : env_call setupkvm
| ec_inituvm d : env_call (inituvm d)
| ec_copyuvm d n : env_call (copyuvm d n)
| ec_freevm d : env_call (freevm d)
| ec_allocuvm d a b : env_call (allocuvm d a b)
| ec_deallocuvm d a b : env_call (deallocuvm d a b)
| ec_filedup f : env_call (filedup f)
| ec_fileclose f : env_call (fileclose f)
| ec_idup c : env_call (idup c)
| ec_iput c : env_call (iput c)
| ec_begin_op : env_call begin_op
| ec_end_op : env_call end_op
| ec_namei_root : env_call namei_root.

(** The failures of those calls. *)
Definition env_faults (f : fault (kstate X)) : Prop :=
  exists (A : Type) (c : M X A) s, env_call c /\ fails (lift c) s f.
(** ... and a panic with the message [msg]. *)
Definition or_panic (msg : string) (f : fault (kstate X)) : Prop := env_faults f \/ f = f_stop msg.

Lemma ends_lift {A : Type} (F : fault (kstate X) -> Prop) (c : M X A) s (Q : A -> kstate X -> Prop) :
  env_call c -> (forall f, env_faults f -> F f) -> (forall a x, Q a (with_ext x s)) -> ends F (lift c) s Q.
Proof.
  intros Hc HF HQ. apply ends_fails.
  - intros f Hf. apply HF. by exists A, c, s.
  - intros a s' [x ->]%lift_inv. apply HQ.
Qed.
End faults.
#[export] Hint Constructors env_call : core.

(** ** The statements of fork *)

(** What the entry of the new process looks like before each statement. *)
Definition has_parent (f : fork_pc) : bool :=
  match f with F_tf | F_eax | F_files _ | F_cwd | F_name | F_publish => true | _ => false end.
Definition has_stack (f : fork_pc) : bool :=
  match f with F_stack | F_unused | F_clear => false | _ => true end.
Definition has_context (f : fork_pc) : bool :=
  match f with F_stack | F_unused | F_clear | F_context | F_free => false | _ => true end.
Definition has_memory (f : fork_pc) : bool :=
  match f with F_sz | F_parent => true | f => has_parent f end.

Record stage_ok (i : nat) (f : fork_pc) (q : proc) : Prop := {
  so_state : state q = EMBRYO;
  so_parent : parent q = if has_parent f then Some i else None;
  so_stack : has_stack f = true -> is_Some (kstack q);
  so_context : has_context f = true -> context q = at_forkret;
  so_memory : has_memory f = true -> is_Some (pgdir q)
}.

Section statements.
Context {X : Type} {E : KernelEnv X}.
Implicit Types s : kstate X.
Abbreviation K := (M (kstate X)).

(** An entry under construction goes on, is given up, or becomes a process. *)
Lemma embryo_table t np ip nl k q q' :
  table_inv t np ip nl -> t !! k = Some q -> state q = EMBRYO -> pid q' = pid q -> proc_ok np nl q' ->
  (forall j, parent q' = Some j -> (j < NPROC)%nat) ->
  (state q' = EMBRYO \/ state q' = UNUSED \/ exists j x, parent q' = Some j /\ t !! j = Some x /\ live x) ->
  table_inv (<[k := q']> t) np ip nl.
Proof.
  intros H Hk He Hpid Hok Hsl Hor. pose proof (lookup_lt_Some _ _ _ Hk) as Hlt.
  assert (Hlive : forall j x, t !! j = Some x -> live x -> <[k := q']> t !! j = Some x).
  { intros j x Hj Hl. rewrite list_lookup_insert_ne; [done |]. intros ->. simplify_eq.
    destruct Hl as [? | [? | ?]]; congruence. }
  assert (Hent : forall j x, <[k := q']> t !! j = Some x -> state x <> UNUSED -> exists x0, t !! j = Some x0 /\
    state x0 <> UNUSED /\ pid x = pid x0 /\ (j <> k -> x = x0)).
  { intros j x Hj Hx. destruct (decide (j = k)) as [-> | Hne].
    - rewrite list_lookup_insert_eq in Hj by done. injection Hj as <-. exists q. split_and!; [done | congruence | done | done].
    - rewrite list_lookup_insert_ne in Hj by done. by exists x. }
  destruct H as [A1 A2 A3 A4 A5 A6 A7]. split; [by rewrite length_insert | done | by apply Forall_insert | | | |].
  - intros a b x y Ha Hb Hx Hy Exy. destruct (Hent a x Ha Hx) as (x0 & Ha0 & Hx0 & Px & _), (Hent b y Hb Hy) as (y0 & Hb0 & Hy0 & Py & _).
    apply (A4 a b x0 y0); [done.. | congruence].
  - destruct A5 as (j & x & Hj & Hx & Hl). exists j, x. split_and!; auto.
  - intros j x Hj Hx Hm Hip. destruct (decide (j = k)) as [-> | Hne].
    + rewrite list_lookup_insert_eq in Hj by done. injection Hj as <-.
      destruct Hor as [? | [? | (j & y & Hp & Hy & Hl)]]; [done | done |]. exists j, y. auto.
    + rewrite list_lookup_insert_ne in Hj by done. destruct (A6 j x Hj Hx Hm Hip) as (k' & y & Hp & Hy & Hl). exists k', y. auto.
  - intros j x m [(-> & <- & _) | [_ Hj]]%list_lookup_insert_Some Hm; [by apply Hsl | by eapply A7].
Qed.

Lemma on_cpu_embryo ks cur s k q f :
  on_cpu ks cur s -> ptable s !! k = Some q -> state q = EMBRYO -> pid (f q) = pid q -> state (f q) <> RUNNING ->
  proc_ok (nextpid s) (length (locks s)) (f q) ->
  (forall j, parent (f q) = Some j -> (j < NPROC)%nat) ->
  (state (f q) = EMBRYO \/ state (f q) = UNUSED \/ exists j x, parent (f q) = Some j /\ ptable s !! j = Some x /\ live x) ->
  exists s', upd_proc k f s = Ret tt s' /\ on_cpu ks cur s' /\ s' = with_ptable (<[k := f q]> (ptable s)) s.
Proof.
  intros H Hk He Hpid Hnr Hok Hsl Hor. eexists. split; [by apply upd_proc_eq |]. split; [| done].
  apply on_cpu_table; [done |]. destruct H as ((Ht & Hr) & _ & _). split; cbn.
  - by eapply embryo_table.
  - eapply runs_upd; [exact Hr | exact Hk |]. by rewrite He.
Qed.

(** What a statement leaves. *)
Definition fork_went (i np : nat) s (r : fork_pc + Z) (s' : kstate X) : Prop :=
  on_cpu [] (Some i) s' /\ nextpid s' = nextpid s /\ initproc s' = initproc s /\ length (locks s') = length (locks s) /\
  exists q', ptable s' = <[np := q']> (ptable s) /\
    match r with
    | inl f' => stage_ok i f' q'
    | inr v => v = -1 /\ state q' = UNUSED \/ v = pid q' /\ state q' = RUNNABLE /\ context q' = at_forkret
    end.

(** One that only fills in the entry. *)
Lemma fork_fill i np s q f r :
  on_cpu [] (Some i) s -> ptable s !! np = Some q -> state q = EMBRYO -> pid (f q) = pid q ->
  match r with inl f' => stage_ok i f' (f q) | inr v => v = -1 /\ state (f q) = UNUSED /\ parent (f q) = None end ->
  exists s', upd_proc np f s = Ret tt s' /\ fork_went i np s r s'.
Proof.
  intros H Hq He Hpid Hr.
  assert (Hst : state (f q) = EMBRYO \/ state (f q) = UNUSED /\ parent (f q) = None).
  { destruct r as [f' | v]; [left; apply (so_state _ _ _ Hr) | right; tauto]. }
  assert (Hok : proc_ok (nextpid s) (length (locks s)) (f q)).
  { pose proof (table_proc_ok _ _ _ _ _ _ (proj1 (proj1 H)) Hq) as [A _ _ _ _].
    destruct Hst as [Hst | [Hst Hp]]; split; rewrite ?Hst; try done; try (by intros [? | ?]).
    intros _. rewrite Hpid. apply A. congruence. }
  destruct (on_cpu_embryo [] (Some i) s np q f H Hq He Hpid) as (s' & Eu & H' & ->); [| done | | |].
  { destruct Hst as [-> | [-> _]]; done. }
  { destruct r as [f' | v]; [| by destruct Hr as (_ & _ & ->)]. rewrite (so_parent _ _ _ Hr). destruct (has_parent f'); [| done].
    intros j [= <-]. destruct (on_cpu_cur _ _ _ H) as (p & Hp & _). rewrite <- (ti_len _ _ _ _ (proj1 (proj1 H))). by eapply lookup_lt_Some. }
  { destruct Hst as [? | [? _]]; auto. }
  eexists. split; [exact Eu |]. split_and!; [done.. |]. exists (f q). split; [done |]. destruct r; [done | left; tauto].
Qed.

(** [fill q r]: the statement updates the entry [q] and goes on with [r]. *)
Ltac fill q r :=
  cbv beta iota; match goal with
  | |- ends _ (upd_proc ?np ?f ≫= _) ?s1 (fork_went ?i _ _) =>
      destruct (fork_fill i np s1 q f r) as (? & ?Eu & ?Hw);
        [assumption | assumption | done | done | | run Eu; by eapply ends_ret]
  end.

Lemma fork_next_ok i np f s p q :
  on_cpu [] (Some i) s -> ptable s !! i = Some p -> ptable s !! np = Some q -> stage_ok i f q ->
  ends (fun e => env_faults e \/ e = f_stop "null inode" /\ f = F_cwd /\ cwd p = None)
    (fork_next i np f) s (fork_went i np s).
Proof.
  intros H Hp Hq [So Sp Ss Sc Sm]. destruct (on_cpu_cur _ _ _ H) as (p' & Hp' & Hrun). rewrite Hp in Hp'. injection Hp' as <-.
  assert (Hgi : forall x, get_proc i (with_ext x s) = Ret p (with_ext x s)) by (intros; by apply get_proc_eq).
  assert (HgI : get_proc i s = Ret p s) by by apply get_proc_eq.
  assert (HgN : get_proc np s = Ret q s) by by apply get_proc_eq.
  assert (Hfin : forall x r, fork_went i np (with_ext x s) r = fork_went i np s r) by done.
  destruct (po_built _ _ _ (table_proc_ok _ _ _ _ _ _ (proj1 (proj1 H)) Hp)) as [_ [d Hd]]; [by rewrite Hrun.. |].
  assert (Hin : forall x, with_ptable (<[np := q]> (ptable (with_ext x s))) (with_ext x s) = with_ext x s).
  { intros x. cbn. rewrite list_insert_id by done. by destruct s. }
  assert (Hstay : forall f' x, stage_ok i f' q -> fork_went i np s (inl f') (with_ext x s)).
  { intros f' x Hs. split_and!; [by apply on_cpu_ext | done.. |]. exists q. split; [by rewrite list_insert_id | done]. }
  destruct f as [| | | | | | | | | | fd | | |]; cbn [fork_next has_parent has_stack has_context has_memory] in *.
  - apply ends_bind, ends_lift; [done | by left |]. intros ks x. apply (on_cpu_ext _ _ x) in H.
    destruct ks as [ks |]; [fill q (@inl fork_pc Z F_context) | fill q (@inl fork_pc Z F_unused)]; by split.
  - fill q (@inr fork_pc Z (-1)). by split_and!.
  - fill q (@inl fork_pc Z F_copy). split; cbn; try done; auto.
  - run HgI. rewrite Hd. eapply ends_ret_bind; [done |]. apply ends_bind, ends_lift; [done | by left |]. intros pg x.
    apply (on_cpu_ext _ _ x) in H.
    destruct pg as [pg |]; [fill q (@inl fork_pc Z F_sz) | fill q (@inl fork_pc Z F_free)]; split; cbn; try done; auto.
  - run HgN. destruct (Ss eq_refl) as [ks Hks]. rewrite Hks. eapply ends_ret_bind; [done |].
    apply ends_bind, ends_lift; [done | by left |]. intros u x. eapply ends_ret; [done |]. apply Hstay. by split.
  - fill q (@inl fork_pc Z F_unused). by split.
  - run HgI. fill q (@inl fork_pc Z F_parent). split; cbn; try done; auto.
  - fill q (@inl fork_pc Z F_tf). split; cbn; try done; auto.
  - run HgI. fill q (@inl fork_pc Z F_eax). split; cbn; try done; auto.
  - fill q (@inl fork_pc Z (F_files 0)). split; cbn; try done; auto.
  - run HgI. assert (Hs : forall f', (f' = F_cwd \/ f' = F_files (S fd)) -> stage_ok i f' q).
    { intros f' [-> | ->]; split; cbn; try done; auto. }
    destruct (ofile p !! fd) as [[fl |] |].
    + apply ends_bind, ends_lift; [done | by left |]. intros f' x. apply (on_cpu_ext _ _ x) in H.
      fill q (@inl fork_pc Z (F_files (S fd))). split; cbn; try done; auto.
    + eapply ends_ret; [done |]. replace s with (with_ext (ext s) s) at 2 by by destruct s. by apply Hstay; auto.
    + eapply ends_ret; [done |]. replace s with (with_ext (ext s) s) at 2 by by destruct s. by apply Hstay; auto.
  - run HgI. destruct (cwd p) as [c |]; [| right; done]. eapply ends_ret_bind; [done |].
    apply ends_bind, ends_lift; [done | by left |]. intros c' x. apply (on_cpu_ext _ _ x) in H.
    fill q (@inl fork_pc Z F_name). split; cbn; try done; auto.
  - run HgI. fill q (@inl fork_pc Z F_publish). split; cbn; try done; auto.
  - run HgN. destruct (on_cpu_acquire [] (Some i) s ptable_lock H) as (s1 & E1 & H1 & (T1 & N1 & I1 & _ & _ & _ & L1));
      [apply not_elem_of_nil | unfold ptable_lock; lia |]. run E1.
    assert (Hp1 : get_proc i s1 = Ret p s1) by (apply get_proc_eq; by rewrite T1). run Hp1.
    destruct (on_cpu_embryo _ _ s1 np q (fun q => set_priority (prio p) (set_state RUNNABLE q)) H1) as (s2 & E2 & H2 & ->);
      [by rewrite T1 | done | done | done | | | |].
    { destruct (table_proc_ok _ _ _ _ _ _ (proj1 (proj1 H)) Hq) as [A _ _ _ _]. split; cbn; try done.
      - intros _. rewrite N1. apply A. congruence.
      - intros _ _. split; auto.
      - intros _. by rewrite Sc. }
    { cbn. rewrite Sp. intros j [= <-]. rewrite <- (ti_len _ _ _ _ (proj1 (proj1 H))). by eapply lookup_lt_Some. }
    { right. right. exists i, p. cbn. rewrite T1. split_and!; [done | done | by right; right]. }
    run E2. destruct (on_cpu_release [] (Some i) _ ptable_lock H2) as (s3 & E3 & H3 & (T3 & N3 & I3 & _ & _ & _ & L3)); [apply not_elem_of_nil |].
    run E3. eapply ends_ret; [done |]. split_and!; [done | by rewrite N3 | by rewrite I3 | by rewrite L3 |].
    eexists. split; [rewrite T3; cbn; by rewrite T1 |]. right. cbn. auto.
Qed.
End statements.

(** ** The statements, run without interruption, are fork *)
Section runs.
Context {X : Type} {E : KernelEnv X}.
Implicit Types s : kstate X.
Abbreviation K := (M (kstate X)).

Fixpoint fork_run (n : nat) (i np : nat) (f : fork_pc) : K Z :=
  match n with
  | O => out_of_fuel
  | S n => r ← fork_next i np f; match r with inl f' => fork_run n i np f' | inr v => mret v end
  end.

Lemma bind_ext {A B : Type} (m : K A) (k k' : A -> K B) s :
  (forall a s', m s = Ret a s' -> k a s' = k' a s') -> (m ≫= k) s = (m ≫= k') s.
Proof. unfold mbind, M_bind. destruct (m s); auto. Qed.
Lemma bind_assoc {A B C : Type} (m : K A) (k : A -> K B) (l : B -> K C) s :
  ((m ≫= k) ≫= l) s = (m ≫= fun a => k a ≫= l) s.
Proof. unfold mbind, M_bind. by destruct (m s). Qed.

(** Process [i] still has the entry [p]. *)
Lemma upd_other i np f s p u s' : i <> np -> upd_proc np f s = Ret u s' -> ptable s !! i = Some p -> ptable s' !! i = Some p.
Proof. intros Hne (q & _ & ->)%upd_proc_inv Hp. cbn. by rewrite list_lookup_insert_ne. Qed.

Section one.
Variables (i np : nat) (p : proc).
Hypothesis Hne : i <> np.

(** [fork] from the name on, from the directory on, and from the copy on. *)
Definition tail_name : K Z :=
  upd_proc np (fun q => set_name (copy_name (name q) (cstr (name p))) q);;
  q ← get_proc np;
  acquire ptable_lock;;
  upd_proc np (fun q => set_priority (prio p) (set_state RUNNABLE q));;
  release ptable_lock;;
  mret (pid q).
Definition tail_cwd : K Z :=
  c ← from_option "null inode" (cwd p);
  c' ← lift (idup c);
  upd_proc np (set_cwd (Some c'));;
  tail_name.
Definition tail_copy : K Z :=
  d ← from_option "null page table" (pgdir p);
  pg ← lift (copyuvm d (sz p));
  upd_proc np (set_pgdir pg);;
  match pg with
  | None =>
      q ← get_proc np;
      ks ← from_option "null kernel stack" (kstack q);
      lift (kfree ks);;
      upd_proc np (fun q => set_state UNUSED (set_kstack None q));;
      mret (-1)
  | Some _ =>
      upd_proc np (fun q => set_parent (Some i) (set_sz (sz p) q));;
      upd_proc np (set_tf (mk_tf 0 (tf_eip (tf p)) (tf_esp (tf p)) (tf_eflags (tf p))
                             (tf_cs (tf p)) (tf_ds (tf p)) (tf_es (tf p)) (tf_ss (tf p))));;
      dup_files i np 0 (ofile p);;
      tail_cwd
  end.

(** Two updates of the entry in one. *)
Lemma upd_twice {B : Type} f g (k : K B) s : (upd_proc np f;; upd_proc np g;; k) s = (upd_proc np (fun q => g (f q));; k) s.
Proof.
  unfold mbind, M_bind. destruct (ptable s !! np) as [q |] eqn:Hq.
  - rewrite !(upd_proc_eq _ _ s q) by done. erewrite upd_proc_eq by (cbn; apply list_lookup_insert_eq; by eapply lookup_lt_Some).
    cbn. by rewrite list_insert_insert_eq.
  - unfold upd_proc, get_proc, gets, mbind, M_bind. by rewrite Hq.
Qed.

Lemma run_S n f s :
  fork_run (S n) i np f s = (r ← fork_next i np f; match r with inl f' => fork_run n i np f' | inr v => mret v end) s.
Proof. done. Qed.
Lemma run_name n s : ptable s !! i = Some p -> fork_run (S (S n)) i np F_name s = tail_name s.
Proof.
  intros Hp. rewrite run_S; cbn [fork_next]. unfold tail_name. rewrite bind_assoc. erewrite bind_ret by (by apply get_proc_eq); cbv beta.
  rewrite bind_assoc. apply bind_ext; cbv beta. intros u s1 E1. pose proof (upd_other _ _ _ _ _ _ _ Hne E1 Hp) as Hp1.
  erewrite bind_ret by done; cbv beta iota. rewrite run_S; cbn [fork_next]. rewrite bind_assoc. apply bind_ext; cbv beta. intros q s2 [-> _]%get_proc_inv.
  rewrite bind_assoc. apply bind_ext; cbv beta. intros u3 s3 (T3 & _)%acquire_inv.
  rewrite bind_assoc. erewrite bind_ret by (apply get_proc_eq; by rewrite T3); cbv beta.
  rewrite bind_assoc. apply bind_ext; cbv beta. intros u4 s4 _. rewrite bind_assoc. by apply bind_ext.
Qed.
Lemma run_cwd n s : ptable s !! i = Some p -> fork_run (S (S (S n))) i np F_cwd s = tail_cwd s.
Proof.
  intros Hp. rewrite run_S; cbn [fork_next]. unfold tail_cwd. rewrite bind_assoc. erewrite bind_ret by (by apply get_proc_eq); cbv beta.
  rewrite bind_assoc. apply bind_ext; cbv beta. intros c s1 E1. destruct (cwd p); [| done]. injection E1 as <- <-.
  rewrite bind_assoc. apply bind_ext; cbv beta. intros c' s2 [x ->]%lift_inv.
  rewrite bind_assoc. apply bind_ext; cbv beta. intros u s3 E3. erewrite bind_ret by done; cbv beta iota.
  apply run_name. by eapply upd_other.
Qed.
Lemma run_files n l fd s : drop fd (ofile p) = l -> ptable s !! i = Some p ->
  fork_run (S (length l) + n) i np (F_files fd) s = (dup_files i np fd l;; fork_run n i np F_cwd) s.
Proof.
  revert fd s. induction l as [| o l IH]; intros fd s Hl Hp; cbn [length plus]; rewrite run_S; cbn [fork_next];
    rewrite bind_assoc; (erewrite bind_ret by by apply get_proc_eq); cbv beta.
  - replace (ofile p !! fd) with (@None (option Z)); [done |]. symmetry. apply lookup_ge_None_2.
    pose proof (length_drop (ofile p) fd) as Hd. rewrite Hl in Hd. simpl in Hd. lia.
  - assert (Ho : ofile p !! fd = Some o) by (rewrite <- (Nat.add_0_r fd), <- lookup_drop, Hl; done).
    assert (Hl' : drop (S fd) (ofile p) = l) by (rewrite <- Nat.add_1_r, <- drop_drop, Hl; done).
    rewrite Ho. destruct o as [f |]; cbn [dup_files].
    + rewrite !bind_assoc. apply bind_ext; cbv beta. intros f' s1 [x ->]%lift_inv. rewrite !bind_assoc.
      apply bind_ext. intros u s2 E2. erewrite bind_ret by done; cbv beta iota. apply IH; [done |]. by eapply upd_other.
    + erewrite bind_ret by done; cbv beta iota. by apply IH.
Qed.
Lemma run_copy n s : ptable s !! i = Some p -> (10 + length (ofile p) <= n)%nat -> fork_run n i np F_copy s = tail_copy s.
Proof.
  intros Hp Hn. destruct n as [| n]; [lia |]. rewrite run_S; cbn [fork_next]. unfold tail_copy. rewrite bind_assoc.
  erewrite bind_ret by (by apply get_proc_eq); cbv beta. rewrite bind_assoc. apply bind_ext; cbv beta. intros d s1 E1.
  destruct (pgdir p); [| done]. injection E1 as <- <-. rewrite bind_assoc. apply bind_ext; cbv beta. intros pg s2 [x ->]%lift_inv.
  rewrite bind_assoc. apply bind_ext; cbv beta. intros u s3 E3. assert (Hp3 : ptable s3 !! i = Some p) by exact (upd_other _ _ _ _ _ _ _ Hne E3 Hp). clear E3.
  erewrite bind_ret by done; cbv beta iota. destruct pg as [pg |].
  - destruct n as [| [| [| [| n]]]]; [lia.. |]. rewrite run_S; cbn [fork_next]. rewrite bind_assoc. erewrite bind_ret by (by apply get_proc_eq); cbv beta.
    rewrite bind_assoc. rewrite <- (upd_twice (set_sz (sz p)) (set_parent (Some i))). apply bind_ext. intros u4 s4 E4. assert (Hp4 : ptable s4 !! i = Some p) by exact (upd_other _ _ _ _ _ _ _ Hne E4 Hp3). clear E4.
    erewrite bind_ret by done; cbv beta iota. rewrite run_S; cbn [fork_next]. rewrite bind_assoc. apply bind_ext; cbv beta. intros u5 s5 E5. assert (Hp5 : ptable s5 !! i = Some p) by exact (upd_other _ _ _ _ _ _ _ Hne E5 Hp4). clear E5.
    erewrite bind_ret by done; cbv beta iota. rewrite run_S; cbn [fork_next]. rewrite bind_assoc. erewrite bind_ret by (by apply get_proc_eq); cbv beta. rewrite bind_assoc.
    rewrite <- (upd_twice (set_tf (tf p)) (fun q => set_tf (mk_tf 0 (tf_eip (tf q)) (tf_esp (tf q)) (tf_eflags (tf q))
      (tf_cs (tf q)) (tf_ds (tf q)) (tf_es (tf q)) (tf_ss (tf q))) q)).
    apply bind_ext. intros u6 s6 E6. assert (Hp6 : ptable s6 !! i = Some p) by exact (upd_other _ _ _ _ _ _ _ Hne E6 Hp5). clear E6.
    erewrite bind_ret by done; cbv beta iota. rewrite run_S; cbn [fork_next]. rewrite bind_assoc. apply bind_ext; cbv beta. intros u7 s7 E7. assert (Hp7 : ptable s7 !! i = Some p) by exact (upd_other _ _ _ _ _ _ _ Hne E7 Hp6). clear E7.
    erewrite bind_ret by done; cbv beta iota. replace n with (S (length (ofile p)) + (3 + (n - length (ofile p) - 4)))%nat by lia.
    rewrite (run_files _ (ofile p)) by done. apply bind_ext. intros u8 s8 E8. apply run_cwd.
    clear -E8 Hp7 Hne. revert s7 E8 Hp7. generalize 0%nat. induction (ofile p) as [| [f |] l IH]; intros fd s7 E8 Hp7; cbn [dup_files] in E8.
    + by injection E8 as _ <-.
    + apply bind_inv in E8 as (f' & s1 & [x ->]%lift_inv & E8). apply bind_inv in E8 as (u & s2 & E2 & E8).
      eapply IH; [exact E8 |]. by eapply upd_other.
    + by eapply IH.
  - destruct n as [| [| [| n]]]; [lia.. |]. rewrite run_S; cbn [fork_next]. rewrite bind_assoc. apply bind_ext; cbv beta. intros q s4 [-> _]%get_proc_inv.
    rewrite bind_assoc. apply bind_ext; cbv beta. intros ks s5 E5. destruct (kstack q); [| done]. injection E5 as <- <-.
    rewrite bind_assoc. apply bind_ext; cbv beta. intros u6 s6 _. erewrite bind_ret by done; cbv beta iota. rewrite <- (upd_twice (set_kstack None) (set_state UNUSED)). rewrite run_S; cbn [fork_next].
    rewrite bind_assoc. apply bind_ext; cbv beta. intros u7 s7 _. erewrite bind_ret by done; cbv beta iota. rewrite run_S; cbn [fork_next]. rewrite bind_assoc. by apply bind_ext.
Qed.
End one.

(** From the call on. *)
Definition fork_from (n : nat) : K Z :=
  i ← curproc; o ← alloc_slot;
  match o with None => mret (-1) | Some np => fork_run n i np F_stack end.

(** The statements of [fork] one after the other are [fork]. *)
Theorem fork_statements s i p n :
  on_cpu [] (Some i) s -> ptable s !! i = Some p -> (12 + length (ofile p) <= n)%nat -> fork s = fork_from n s.
Proof.
  intros H Hp Hn. unfold fork, fork_from. apply bind_ext. intros j s0 E0. pose proof (curproc_inv _ _ _ E0) as [S0 Hc].
  assert (H0 : on_cpu [] (Some i) s0).
  { pose proof H as (_ & Hc' & Hh). destruct (holds_curproc _ _ _ Hh Hc') as (s0' & E0' & Hh0 & S0' & _).
    rewrite E0 in E0'. injection E0' as _ <-. by eapply on_cpu_same. }
  assert (j = i) as -> by (destruct H as (_ & Hc' & _); congruence). clear E0 Hc.
  assert (Hp0 : ptable s0 !! i = Some p) by (by destruct S0 as (-> & _)). unfold allocproc. rewrite bind_assoc. apply bind_ext; cbv beta.
  intros o s1 E1. destruct (alloc_slot_cases _ s0 H0) as [(s1' & E1' & _) | [[_ E1'] | (np & q & s1' & E1' & Hq & Hu & _ & _ & B)]];
    rewrite E1 in E1'; [injection E1' as -> _; done | done | injection E1' as -> <-].
  destruct (on_cpu_cur _ _ _ H0) as (p' & Hp' & Hrun). rewrite Hp0 in Hp'. injection Hp' as <-.
  assert (Hne : i <> np) by (intros ->; congruence).
  assert (Hp1 : ptable s1 !! i = Some p) by (rewrite (b_table _ _ _ _ _ B), list_lookup_insert_ne; done).
  destruct n as [| [| n]]; [lia.. |]. rewrite run_S; cbn [fork_next]. rewrite !bind_assoc. apply bind_ext; cbv beta. intros ks s2 [x ->]%lift_inv.
  rewrite !bind_assoc. apply bind_ext; cbv beta. intros u s3 E3. assert (Hp3 : ptable s3 !! i = Some p) by exact (upd_other _ _ _ _ _ _ _ Hne E3 Hp1).
  destruct ks as [ks |]; (erewrite (bind_ret (mret _)) by done); cbv beta iota; rewrite run_S; cbn [fork_next]; rewrite !bind_assoc; [| by apply bind_ext].
  apply bind_ext; cbv beta. intros u4 s4 E4. assert (Hp4 : ptable s4 !! i = Some p) by exact (upd_other _ _ _ _ _ _ _ Hne E4 Hp3).
  rewrite !(bind_ret (mret _) _ s4 _ s4 eq_refl). erewrite bind_ret by (apply get_proc_eq; exact Hp4). cbv beta.
  rewrite (run_copy i np p Hne) by (done || lia). done.
Qed.
End runs.

(** ** The forks in progress *)
Abbreviation current := (option (nat * nat * fork_pc)).

(** Process [i] is inside [fork], before the statement [f], and builds slot
    [np]: it has the CPU, or the clock has taken it from it. *)
Definition forking (t : list proc) (cur : current) (i np : nat) (f : fork_pc) : Prop :=
  cur = Some (i, np, f) \/ exists p b, t !! i = Some p /\ state p = RUNNABLE /\ context p = at_fork np f b.

(** Each one has an entry of its own, in the state of its next statement, and
    every entry under construction belongs to one. *)
Record forks_inv (t : list proc) (cur : current) : Prop := {
  fi_stage : forall i np f, forking t cur i np f -> exists q, t !! np = Some q /\ stage_ok i f q;
  fi_one : forall i j np f g, forking t cur i np f -> forking t cur j np g -> i = j;
  fi_owner : forall k q, t !! k = Some q -> state q = EMBRYO -> exists i f, forking t cur i k f
}.

Lemma stage_ok_kept i f q q' : entry_stays q q' -> stage_ok i f q -> stage_ok i f q'.
Proof.
  intros [(_ & H & _) Hp] [A1 A2 A3 A4 A5]. destruct (H A1) as (E1 & E2 & E3 & E4). specialize (Hp A1).
  split; rewrite ?E1, ?E2, ?E3, ?E4, ?Hp; done.
Qed.

Section keep.
Context (t t' : list proc) (Hlen : length t' = length t).

Lemma lookup_back j p' : t' !! j = Some p' -> exists p, t !! j = Some p.
Proof. intros Hj. apply lookup_lt_is_Some_2. rewrite <- Hlen. by eapply lookup_lt_Some. Qed.

(** A change that touches no fork. *)
Lemma forks_inv_same cur cur' :
  (forall i np f, forking t' cur' i np f <-> forking t cur i np f) ->
  (forall k q q', t !! k = Some q -> t' !! k = Some q' ->
     (state q = EMBRYO -> entry_stays q q') /\ (state q' = EMBRYO -> state q = EMBRYO)) ->
  forks_inv t cur -> forks_inv t' cur'.
Proof.
  intros Hf He [A1 A2 A3]. split.
  - intros i np f Hi. apply Hf in Hi. destruct (A1 i np f Hi) as (q & Hq & Hs).
    destruct (lookup_lt_is_Some_2 t' np) as [q' Hq']; [rewrite Hlen; by eapply lookup_lt_Some |].
    exists q'. split; [done |]. eapply stage_ok_kept; [| exact Hs]. apply (He np q q' Hq Hq'). apply (so_state _ _ _ Hs).
  - intros i j np f g Hi Hj. apply Hf in Hi, Hj. by eapply A2.
  - intros k q' Hq' Hs. destruct (lookup_back k q' Hq') as [q Hq]. destruct (A3 k q Hq) as (i & f & Hi); [by apply (He k q q') |].
    exists i, f. by apply Hf.
Qed.

(** The entries of all processes, or of all but the one on the CPU, stay. *)
Lemma forking_stays cur i np f p p' : t !! i = Some p -> t' !! i = Some p' -> entry_stays p p' ->
  forking t' cur i np f <-> forking t cur i np f.
Proof.
  intros Hp Hp' [(S1 & _ & _ & S4) _]. unfold forking. split; (intros [? | (x & b & Hx & Hr & Hc)]; [by left | right]).
  - rewrite Hp' in Hx. injection Hx as <-. assert (Hrp : state p = RUNNABLE) by (apply S4; [done | by rewrite Hc]).
    destruct (S1 Hrp) as (_ & _ & Hcp). exists p, b. split_and!; [done | done | congruence].
  - rewrite Hp in Hx. injection Hx as <-. destruct (S1 Hr) as (Hr' & _ & Hc'). exists p', b. split_and!; [done | done | congruence].
Qed.

Lemma forks_inv_stays cur : (forall j p p', t !! j = Some p -> t' !! j = Some p' -> entry_stays p p') ->
  forks_inv t cur -> forks_inv t' cur.
Proof.
  intros Hs. apply forks_inv_same.
  - intros i np f. destruct (t' !! i) as [p' |] eqn:Hp'.
    + destruct (lookup_back i p' Hp') as [p Hp]. by eapply forking_stays; eauto.
    + assert (Hp : t !! i = None) by (apply lookup_ge_None; rewrite <- Hlen; by apply lookup_ge_None).
      unfold forking. rewrite Hp, Hp'. split; (intros [? | (? & ? & ? & _)]; [by left | done]).
  - intros k q q' Hq Hq'. pose proof (Hs k q q' Hq Hq') as He. split; [done |]. by destruct He as [(_ & _ & ? & _) _].
Qed.

(** The entry of a process that is not inside [fork]. *)
Definition idle_entry (p : proc) : Prop := state p <> EMBRYO /\ (state p = RUNNABLE -> ctx_fork (context p) = None).
Lemma forks_inv_others i p p' : t !! i = Some p -> t' !! i = Some p' -> idle_entry p -> idle_entry p' ->
  (forall j q q', j <> i -> t !! j = Some q -> t' !! j = Some q' -> entry_stays q q') ->
  forks_inv t None -> forks_inv t' None.
Proof.
  intros Hp Hp' [He Hc] [He' Hc'] Hs. apply forks_inv_same.
  - intros j np f. destruct (decide (j = i)) as [-> | Hne].
    + unfold forking. split; (intros [? | (x & b & Hx & Hr & Hxc)]; [done |]); simplify_eq;
        [specialize (Hc' Hr) | specialize (Hc Hr)]; congruence || (by rewrite Hxc in *).
    + destruct (t' !! j) as [q' |] eqn:Hq'.
      * destruct (lookup_back j q' Hq') as [q Hq]. eapply forking_stays; [done | done |]. by eapply Hs.
      * assert (Hq : t !! j = None) by (apply lookup_ge_None; rewrite <- Hlen; by apply lookup_ge_None).
        unfold forking. rewrite Hq, Hq'. split; (intros [? | (? & ? & ? & _)]; [by left | done]).
  - intros k q q' Hq Hq'. destruct (decide (k = i)) as [-> | Hne]; [by simplify_eq |].
    pose proof (Hs k q q' Hne Hq Hq') as Hst. split; [done |]. by destruct Hst as [(_ & _ & ? & _) _].
Qed.
End keep.

(** The fork of process [i], which builds [np], takes a step: the others stay. *)
Lemma forks_inv_step t t' cur cur' i np :
  length t' = length t ->
  (forall j m f, j <> i -> forking t' cur' j m f <-> forking t cur j m f) ->
  (forall m f, forking t' cur' i m f -> m = np /\ exists q, t' !! np = Some q /\ stage_ok i f q) ->
  (forall j f, j <> i -> forking t cur j np f -> False) ->
  (forall m f, forking t cur i m f -> m = np) ->
  (forall k, k <> np -> k <> i -> t' !! k = t !! k) ->
  (forall p, t !! i = Some p -> state p <> EMBRYO) -> (forall p, t' !! i = Some p -> state p <> EMBRYO) ->
  (forall q, t' !! np = Some q -> state q = EMBRYO -> exists f, forking t' cur' i np f) ->
  forks_inv t cur -> forks_inv t' cur'.
Proof.
  intros Hlen Hoth Hmine Hnot Holdnp Hkeep Hi Hi' Hown [A1 A2 A3].
  assert (Hon : forall j m f, j <> i -> forking t' cur' j m f -> m <> np).
  { intros j m f Hj Hf ->. apply Hoth in Hf; [| done]. by eapply Hnot. }
  split.
  - intros j m f Hf. destruct (decide (j = i)) as [-> | Hj].
    + destruct (Hmine m f Hf) as [-> ?]. done.
    + pose proof (Hon j m f Hj Hf) as Hm. apply Hoth in Hf; [| done]. destruct (A1 j m f Hf) as (q & Hq & Hs). exists q.
      rewrite Hkeep; [done | done |]. intros ->. apply (Hi q Hq). apply (so_state _ _ _ Hs).
  - intros j k m f g Hj Hk. destruct (decide (j = i)) as [-> | Hji], (decide (k = i)) as [-> | Hki]; [done | | |].
    + destruct (Hmine m f Hj) as [-> _]. by destruct (Hon k np g Hki Hk).
    + destruct (Hmine m g Hk) as [-> _]. by destruct (Hon j np f Hji Hj).
    + apply Hoth in Hj, Hk; [| done..]. by eapply A2.
  - intros k q Hq Hs. destruct (decide (k = np)) as [-> | Hk]; [destruct (Hown q Hq Hs) as [f Hf]; by exists i, f |].
    destruct (decide (k = i)) as [-> | Hki]; [by destruct (Hi' q Hq) |]. rewrite Hkeep in Hq by done.
    destruct (A3 k q Hq Hs) as (j & f & Hf). exists j, f. apply Hoth; [| done]. intros ->. by apply Hk, (Holdnp k f).
Qed.

(** What forks of other processes depend on: their own entries. *)
Lemma forking_iff t t' cur cur' j m f :
  (forall i np g, cur' = Some (i, np, g) -> i <> j) -> (forall i np g, cur = Some (i, np, g) -> i <> j) ->
  (t' !! j = t !! j \/ (forall p, t !! j = Some p -> state p <> RUNNABLE) /\
     (forall p, t' !! j = Some p -> state p = RUNNABLE -> ctx_fork (context p) = None)) ->
  forking t' cur' j m f <-> forking t cur j m f.
Proof.
  intros Hc' Hc [E | [Hn Hn']]; unfold forking; split; (intros [Ec | (p & b & Hp & Hr & Hx)];
    [exfalso; first [by apply (Hc' _ _ _ Ec) | by apply (Hc _ _ _ Ec)] |]).
  - right. exists p, b. by rewrite <- E.
  - right. exists p, b. by rewrite E.
  - specialize (Hn' p Hp Hr). by rewrite Hx in Hn'.
  - by destruct (Hn p Hp).
Qed.

Section transitions.
Context (t : list proc) (i : nat).

(** The slot is taken. *)
Lemma forks_alloc p np p0 q : t !! i = Some p -> state p = RUNNING -> t !! np = Some p0 -> state p0 = UNUSED ->
  state q = EMBRYO -> parent q = None -> forks_inv t None -> forks_inv (<[np := q]> t) (Some (i, np, F_stack)).
Proof.
  intros Hp Hrun Hp0 Hu Hq Hpar Hf. assert (Hne : i <> np) by (intros ->; congruence). pose proof (lookup_lt_Some _ _ _ Hp0) as Hlt.
  eapply (forks_inv_step t _ None _ i np); [by rewrite length_insert | .. | exact Hf].
  - intros j m f Hj. apply forking_iff; [congruence | congruence |]. destruct (decide (j = np)) as [-> | Hjn].
    + right. rewrite list_lookup_insert_eq by done. split; intros x Hx; simplify_eq; congruence.
    + left. by rewrite list_lookup_insert_ne.
  - intros m f [[= <- <-] | (x & b & Hx & Hr & _)].
    + split; [done |]. exists q. split; [by apply list_lookup_insert_eq | by split].
    + rewrite list_lookup_insert_ne in Hx by done. congruence.
  - intros j f _ Hj. destruct (fi_stage _ _ Hf j np f Hj) as (x & Hx & Hs). apply so_state in Hs. congruence.
  - intros m f [? | (x & b & Hx & Hr & _)]; [done | congruence].
  - intros k Hk _. by rewrite list_lookup_insert_ne.
  - intros x Hx. congruence.
  - intros x Hx. rewrite list_lookup_insert_ne in Hx by done. congruence.
  - intros x _ _. exists F_stack. by left.
Qed.

(** A statement. *)
Lemma forks_next p np f q' (r : fork_pc + Z) : t !! i = Some p -> state p = RUNNING ->
  match r with
  | inl f' => stage_ok i f' q'
  | inr v => state q' = UNUSED \/ state q' = RUNNABLE /\ context q' = at_forkret
  end -> forks_inv t (Some (i, np, f)) ->
  forks_inv (<[np := q']> t) (match r with inl f' => Some (i, np, f') | inr _ => None end).
Proof.
  intros Hp Hrun Hr Hf. destruct (fi_stage _ _ Hf i np f (or_introl eq_refl)) as (q & Hq & Hs).
  pose proof (so_state _ _ _ Hs) as Hem. assert (Hne : i <> np) by (intros ->; congruence). pose proof (lookup_lt_Some _ _ _ Hq) as Hlt.
  eapply (forks_inv_step t _ _ _ i np); [by rewrite length_insert | .. | exact Hf].
  - intros j m g Hj. apply forking_iff; [destruct r; congruence | congruence |]. destruct (decide (j = np)) as [-> | Hjn].
    + right. rewrite list_lookup_insert_eq by done. split; intros x Hx; simplify_eq; [congruence |]. intros Hxr.
      destruct r as [f' | v]; [apply so_state in Hr; congruence |]. destruct Hr as [? | [_ ->]]; [congruence | done].
    + left. by rewrite list_lookup_insert_ne.
  - intros m g [Hc | (x & b & Hx & Hxr & _)].
    + destruct r as [f' |]; [| done]. injection Hc as <- <-. split; [done |]. exists q'. split; [by apply list_lookup_insert_eq | done].
    + rewrite list_lookup_insert_ne in Hx by done. congruence.
  - intros j g Hj Hg. apply Hj. by eapply (fi_one _ _ Hf j i np g f Hg), or_introl.
  - intros m g [Hc | (x & b & Hx & Hxr & _)]; congruence.
  - intros k Hk _. by rewrite list_lookup_insert_ne.
  - intros x Hx. congruence.
  - intros x Hx. rewrite list_lookup_insert_ne in Hx by done. congruence.
  - intros x Hx Hxs. rewrite list_lookup_insert_eq in Hx by done. injection Hx as <-. destruct r as [f' | v]; [exists f'; by left |].
    destruct Hr as [? | [? _]]; congruence.
Qed.

(** The clock takes the CPU, and the scheduler gives it back. *)
Lemma forks_switch np f p p' cur cur' : t !! i = Some p -> state p <> EMBRYO -> state p' <> EMBRYO ->
  (forall j m g, cur = Some (j, m, g) -> j = i) -> (forall j m g, cur' = Some (j, m, g) -> j = i) ->
  (forall m g, forking t cur i m g <-> m = np /\ g = f) -> (forall m g, forking (<[i := p']> t) cur' i m g <-> m = np /\ g = f) ->
  forks_inv t cur -> forks_inv (<[i := p']> t) cur'.
Proof.
  intros Hp He He' Hc Hc' Hold Hnew Hf. pose proof (lookup_lt_Some _ _ _ Hp) as Hlt.
  assert (Hmine : forking t cur i np f) by by apply Hold.
  destruct (fi_stage _ _ Hf i np f Hmine) as (q & Hq & Hs).
  pose proof (so_state _ _ _ Hs) as Hem. assert (Hne : i <> np) by (intros ->; congruence).
  eapply (forks_inv_step t _ cur cur' i np); [by rewrite length_insert | .. | exact Hf].
  - intros j m g Hj. apply forking_iff; [intros ??? E ->; by apply Hj, (Hc' _ _ _ E) | intros ??? E ->; by apply Hj, (Hc _ _ _ E) |].
    left. by rewrite list_lookup_insert_ne.
  - intros m g [-> ->]%Hnew. split; [done |]. exists q. rewrite list_lookup_insert_ne by done. done.
  - intros j g Hj Hg. apply Hj. by eapply (fi_one _ _ Hf j i np g f).
  - by intros m g [-> _]%Hold.
  - intros k _ Hk. by rewrite list_lookup_insert_ne.
  - intros x Hx. congruence.
  - intros x Hx. rewrite list_lookup_insert_eq in Hx by done. congruence.
  - intros x _ _. exists f. by apply Hnew.
Qed.

Lemma forks_yield np f p p' b : t !! i = Some p -> state p = RUNNING -> state p' = RUNNABLE -> context p' = at_fork np f b ->
  forks_inv t (Some (i, np, f)) -> forks_inv (<[i := p']> t) None.
Proof.
  intros Hp Hrun Hr Hc. pose proof (lookup_lt_Some _ _ _ Hp). eapply (forks_switch np f p); [done | congruence.. | | ].
  - intros m g. unfold forking. split; [intros [? | (x & c & Hx & Hxr & _)]; [by simplify_eq | congruence] |]. intros [-> ->]. by left.
  - intros m g. unfold forking. rewrite list_lookup_insert_eq by done. split.
    + intros [? | (x & c & Hx & _ & Hxc)]; [done |]. simplify_eq. by rewrite Hc in Hxc; simplify_eq.
    + intros [-> ->]. right. by exists p', b.
Qed.
Lemma forks_resume np f p p' b : t !! i = Some p -> state p = RUNNABLE -> context p = at_fork np f b -> state p' = RUNNING ->
  forks_inv t None -> forks_inv (<[i := p']> t) (Some (i, np, f)).
Proof.
  intros Hp Hr Hc Hrun. pose proof (lookup_lt_Some _ _ _ Hp). eapply (forks_switch np f p); [done | congruence.. | | ].
  - intros m g. unfold forking. split.
    + intros [? | (x & c & Hx & _ & Hxc)]; [done |]. simplify_eq. by rewrite Hc in Hxc; simplify_eq.
    + intros [-> ->]. right. by exists p, b.
  - intros m g. unfold forking. rewrite list_lookup_insert_eq by done.
    split; [intros [? | (x & c & Hx & Hxr & _)]; [by simplify_eq | simplify_eq; congruence] |]. intros [-> ->]. by left.
Qed.
End transitions.

(** The process on the CPU that is not inside [fork] has no entry under
    construction. *)
Lemma forks_no_embryo t i p : t !! i = Some p -> state p = RUNNING -> forks_inv t None -> no_embryo_of i t.
Proof.
  intros Hp Hrun Hf k q Hq He Hpar. destruct (fi_owner _ _ Hf k q Hq He) as (j & f & Hj).
  destruct (fi_stage _ _ Hf j k f Hj) as (q' & Hq' & Hs). rewrite Hq in Hq'. injection Hq' as <-.
  rewrite (so_parent _ _ _ Hs) in Hpar. destruct (has_parent f); [| done]. injection Hpar as ->.
  destruct Hj as [? | (x & b & Hx & Hr & _)]; [done | congruence].
Qed.

Lemma idle_running p : state p = RUNNING -> idle_entry p.
Proof. intros E. split; rewrite E; done. Qed.

Section states.
Context {X : Type} {E : KernelEnv X}.
Implicit Types s : kstate X.

Lemma kinv_len s s' : kinv s -> table_inv (ptable s') (nextpid s') (initproc s') (length (locks s')) -> length (ptable s') = length (ptable s).
Proof. intros [H _] H'. by rewrite (ti_len _ _ _ _ H), (ti_len _ _ _ _ H'). Qed.

(** Whatever all the others leave alone. *)
Lemma forks_stays cur s s' : length (ptable s') = length (ptable s) -> (forall j, stays j s s') ->
  forks_inv (ptable s) cur -> forks_inv (ptable s') cur.
Proof.
  intros Hl Hs. apply forks_inv_stays; [done |]. intros j p p' Hp Hp'. destruct (Hs j p Hp) as (x & Hx & Hst). by simplify_eq.
Qed.
Lemma forks_others i p p' s s' : length (ptable s') = length (ptable s) -> ptable s !! i = Some p -> ptable s' !! i = Some p' ->
  idle_entry p -> idle_entry p' -> (forall j, j <> i -> stays j s s') -> forks_inv (ptable s) None -> forks_inv (ptable s') None.
Proof.
  intros Hl Hp Hp' Hi Hi' Hs. apply (forks_inv_others _ _ Hl i p p' Hp Hp' Hi Hi'). intros j q q' Hne Hq Hq'.
  destruct (Hs j Hne q Hq) as (x & Hx & Hst). by simplify_eq.
Qed.

(** Where a resumed process goes on depends on its context. *)
Lemma resume_fork s i np f s' : resume_proc i s = Ret (continues_fork np f) s' ->
  exists p b, ptable s !! i = Some p /\ context p = at_fork np f b /\ ptable s' = ptable s.
Proof.
  intros Er. unfold resume_proc in Er. apply bind_inv in Er as (p & s1 & [-> Hp]%get_proc_inv & Er). exists p.
  destruct (context p) as [| np' f' b | b | lk b | b | b].
  - by apply bind_inv in Er as (? & ? & _ & ?).
  - apply bind_inv in Er as (u & s1 & [= _ <-] & Er). apply bind_inv in Er as (u2 & s2 & (T2 & _)%release_inv & Er).
    injection Er as -> -> <-. exists b. by rewrite T2.
  - apply bind_inv in Er as (? & ? & _ & Er). by apply bind_inv in Er as (? & ? & _ & ?).
  - do 3 apply bind_inv in Er as (? & ? & _ & Er). by apply bind_inv in Er as (? & ? & _ & ?).
  - do 2 apply bind_inv in Er as (? & ? & _ & Er). apply bind_inv in Er as (r & ? & _ & Er). by destruct r.
  - by apply bind_inv in Er as (? & ? & _ & ?).
Qed.
Lemma resume_other s i p r s' : ptable s !! i = Some p -> resume_proc i s = Ret r s' ->
  (forall np f, r <> continues_fork np f) -> ctx_fork (context p) = None.
Proof.
  intros Hp Er Hr. unfold resume_proc in Er. erewrite bind_ret in Er by by apply get_proc_eq.
  destruct (context p) as [| np f b | b | lk b | b | b]; try done.
  apply bind_inv in Er as (? & ? & _ & Er). apply bind_inv in Er as (? & ? & _ & Er). injection Er as <- _. by destruct (Hr np f).
Qed.
End states.
