(* ===== verification/Machine.v ===== *)
(** * Machine: the CPU, the scheduler and the processes of xv6-modified as a machine

    [kstep] interleaves the scheduler, the process on the CPU, a process inside
    [fork] and the interrupts; [kreach] are the states it reaches from the boot,
    [minv] is its invariant.  The last section shows that a whole call of the
    process code ([fork], [wait], [exit], [growproc]) is a path of the machine
    that fails only where the layers below it fail. *)

From Stdlib Require Import ZArith Lia.
From stdpp Require Import base numbers strings option sets list relations.
From S2P Require Import Prelude Kernel KString Proc ProcSpec Sched Forking.

(** ** The machine *)

(** What the CPU is doing: between two rounds of the scheduler, with [highest]
    computed, in the scan of the table (next slot [k]), running a process that
    holds a lock or none, or running a process that is inside [fork], before
    the statement [f], and builds slot [np]. *)
Inductive mode :=
| Idle | Chosen (h : Z) | Scan (h : Z) (k : nat) | Run (h : Z) (held : option nat)
| Fork (h : Z) (np : nat) (f : fork_pc).

Section machine.
Context {X : Type} {E : KernelEnv X}.
Implicit Types s : kstate X.

(** Changes of what is private to a process: its memory, its registers, its
    files, its name, or that it is killed. *)
Definition private (p p' : proc) : Prop :=
  state p' = state p /\ pid p' = pid p /\ kstack p' = kstack p /\ parent p' = parent p /\ chan p' = chan p /\
  context p' = context p /\ (is_Some (pgdir p) -> is_Some (pgdir p')).
Lemma private_ok np nl p p' : private p p' -> proc_ok np nl p -> similar p p' /\ proc_ok np nl p' /\ (state p' = RUNNING <-> state p = RUNNING).
Proof.
  intros (E1 & E2 & E3 & E4 & E5 & E6 & E7) [O1 O2 O3 O4 O5]. split_and!.
  - unfold similar, live. by rewrite E1, E2, E4.
  - split; rewrite ?E1, ?E2, ?E3, ?E4, ?E5, ?E6; try done. intros Hu He. destruct (O2 Hu He). auto.
  - by rewrite E1.
Qed.

(** The steps of the process on the CPU that keep it. *)
Inductive proc_step (i : nat) : option nat -> kstate X -> option nat -> kstate X -> Prop :=
| p_wait s v s' : wait_ s = Ret (Some v) s' -> proc_step i None s None s'
| p_set_prio s n r s' : set_prio n s = Ret r s' -> proc_step i None s None s'
| p_kill held s n r s' : kill n s = Ret r s' -> proc_step i held s held s'
| p_wakeup held s ch u s' : wakeup ch s = Ret u s' -> proc_step i held s held s'
| p_tick s u s' : timer_tick s = Ret u s' -> proc_step i None s None s'
| p_acquire s lk u s' : lk <> ptable_lock -> acquire lk s = Ret u s' -> proc_step i None s (Some lk) s'
| p_release s lk u s' : release lk s = Ret u s' -> proc_step i (Some lk) s None s'
| p_ext held s x : proc_step i held s held (with_ext x s)
| p_look held s o s' : myproc s = Ret o s' -> proc_step i held s held s'
| p_private held s p p' : ptable s !! i = Some p -> private p p' -> proc_step i held s held (with_ptable (<[i := p']> (ptable s)) s)
| p_get_prio s r s' : get_prio s = Ret r s' -> proc_step i None s None s'.

(** The operations with which it gives up the CPU.  What [exit] does before it
    takes the lock of the table are steps of the first kind. *)
Inductive proc_leave (i : nat) : option nat -> kstate X -> kstate X -> Prop :=
| l_yield s u s' : yield_ s = Ret u s' -> proc_leave i None s s'
| l_exit s u s' : initproc s <> Some i -> exit_end i s = Ret u s' -> proc_leave i None s s'
| l_wait s s' : wait_ s = Ret None s' -> proc_leave i None s s'
| l_sleep s ch lk u s' : sleep_enter ch lk (at_sleep lk) s = Ret u s' -> proc_leave i (Some lk) s s'.

(** An interrupt, up to the [yield] of the clock's: it counts a tick, wakes
    sleepers, looks at the current process or changes the devices. *)
Inductive intr_step : kstate X -> kstate X -> Prop :=
| i_tick s u s' : timer_tick s = Ret u s' -> intr_step s s'
| i_wake s ch u s' : wakeup ch s = Ret u s' -> intr_step s s'
| i_look s o s' : myproc s = Ret o s' -> intr_step s s'
| i_ext s x : intr_step s (with_ext x s).

(** A process inside [fork] holds no lock: interrupts arrive between its
    statements, and the clock's takes the CPU from it. *)
Inductive kstep : mode * kstate X -> mode * kstate X -> Prop :=
| k_choose s h s' : sched_choose s = Ret h s' -> kstep (Idle, s) (Chosen h, s')
| k_intr h s s' : intr_step s s' -> kstep (Chosen h, s) (Chosen h, s')
| k_lock h s u s' : sched_lock s = Ret u s' -> kstep (Chosen h, s) (Scan h 0, s')
| k_pick h k s i s1 lk s2 :
    sched_pick h k s = Ret (Some i) s1 -> resume_proc i s1 = Ret (continues lk) s2 ->
    kstep (Scan h k, s) (Run h lk, s2)
| k_pick_wait h k s i s1 v s2 :
    sched_pick h k s = Ret (Some i) s1 -> resume_proc i s1 = Ret (returns_wait v) s2 ->
    kstep (Scan h k, s) (Run h None, s2)
| k_pick_fork h k s i s1 np f s2 :
    sched_pick h k s = Ret (Some i) s1 -> resume_proc i s1 = Ret (continues_fork np f) s2 ->
    kstep (Scan h k, s) (Fork h np f, s2)
| k_pick_sleep h k s i s1 s2 u s3 :
    sched_pick h k s = Ret (Some i) s1 -> resume_proc i s1 = Ret sleeps_again s2 ->
    sched_back i s2 = Ret u s3 -> kstep (Scan h k, s) (Scan h (S i), s3)
| k_end h k s s1 u s2 :
    sched_pick h k s = Ret None s1 -> sched_end s1 = Ret u s2 -> kstep (Scan h k, s) (Idle, s2)
| k_proc h held held' i s s' :
    c_proc (cpu s) = Some i -> proc_step i held s held' s' -> kstep (Run h held, s) (Run h held', s')
| k_leave h held i s s1 u s2 :
    c_proc (cpu s) = Some i -> proc_leave i held s s1 -> sched_back i s1 = Ret u s2 ->
    kstep (Run h held, s) (Scan h (S i), s2)
| k_fork h i s s1 np s2 :
    curproc s = Ret i s1 -> alloc_slot s1 = Ret (Some np) s2 -> kstep (Run h None, s) (Fork h np F_stack, s2)
| k_fork_full h i s s1 s2 :
    curproc s = Ret i s1 -> alloc_slot s1 = Ret None s2 -> kstep (Run h None, s) (Run h None, s2)
| k_fork_next h np f i s f' s' :
    c_proc (cpu s) = Some i -> fork_next i np f s = Ret (inl f') s' -> kstep (Fork h np f, s) (Fork h np f', s')
| k_fork_done h np f i s v s' :
    c_proc (cpu s) = Some i -> fork_next i np f s = Ret (inr v) s' -> kstep (Fork h np f, s) (Run h None, s')
| k_fork_intr h np f s s' : intr_step s s' -> kstep (Fork h np f, s) (Fork h np f, s')
| k_fork_yield h np f i s u1 s1 u s2 :
    c_proc (cpu s) = Some i -> yield_at (at_fork np f) s = Ret u1 s1 -> sched_back i s1 = Ret u s2 ->
    kstep (Fork h np f, s) (Scan h (S i), s2).

Inductive kreach : mode * kstate X -> Prop :=
| kr_boot s0 u s : boot_state s0 -> userinit s0 = Ret u s -> kreach (Idle, s)
| kr_step c c' : kreach c -> kstep c c' -> kreach c'.

(** ** Its invariant: the table, the locks, and the forks in progress *)
Definition mode_ok (m : mode) s : Prop :=
  match m with
  | Idle => kinv s /\ c_proc (cpu s) = None /\ calm s
  | Chosen _ => on_cpu [] None s
  | Scan _ _ => on_cpu [ptable_lock] None s
  | Run _ None | Fork _ _ _ => exists i, on_cpu [] (Some i) s
  | Run _ (Some lk) => (exists i, on_cpu [lk] (Some i) s) /\ lk <> ptable_lock
  end.
Definition cur_fork (m : mode) s : option (nat * nat * fork_pc) :=
  match m, c_proc (cpu s) with Fork _ np f, Some i => Some (i, np, f) | _, _ => None end.
Definition minv (m : mode) s : Prop := mode_ok m s /\ forks_inv (ptable s) (cur_fork m s).

Definition run_held (held : option nat) : list nat := match held with Some lk => [lk] | None => [] end.

Lemma minv_run h held s i :
  minv (Run h held) s -> c_proc (cpu s) = Some i ->
  on_cpu (run_held held) (Some i) s /\ ptable_lock ∉ run_held held.
Proof.
  intros [H _] Hc. destruct held as [lk |]; cbn in H.
  - destruct H as ((j & Hj) & Hlk). pose proof Hj as (_ & Hc' & _). assert (j = i) as -> by congruence.
    split; [done |]. cbn. intros Hin%list_elem_of_singleton. congruence.
  - destruct H as (j & Hj). pose proof Hj as (_ & Hc' & _). assert (j = i) as -> by congruence.
    split; [done | apply not_elem_of_nil].
Qed.
Lemma minv_forks h held s : minv (Run h held) s -> forks_inv (ptable s) None.
Proof. by intros [_ H]. Qed.
Lemma minv_fork h np f s i : minv (Fork h np f) s -> c_proc (cpu s) = Some i ->
  on_cpu [] (Some i) s /\ forks_inv (ptable s) (Some (i, np, f)).
Proof.
  intros [(j & Hj) Hf] Hc. pose proof Hj as (_ & Hc' & _). assert (j = i) as -> by congruence.
  split; [done |]. unfold cur_fork in Hf. by rewrite Hc in Hf.
Qed.

Lemma mode_run_ok h held s i :
  on_cpu (run_held held) (Some i) s -> ptable_lock ∉ run_held held -> mode_ok (Run h held) s.
Proof.
  intros H Hk. destruct held as [lk |]; cbn in *; [| by exists i].
  split; [by exists i |]. intros ->. apply Hk. apply list_elem_of_here.
Qed.
Lemma fork_minv h np f s i : on_cpu [] (Some i) s -> forks_inv (ptable s) (Some (i, np, f)) -> minv (Fork h np f) s.
Proof. intros H Hf. split; [by exists i |]. unfold cur_fork. by rewrite (proj1 (proj2 H)). Qed.

Lemma on_cpu_myproc ks cur s o s' : on_cpu ks cur s -> myproc s = Ret o s' -> on_cpu ks cur s'.
Proof.
  intros H Hm. pose proof H as (_ & _ & Hh). pose proof (holds_cli _ _ Hh) as Hc. assert (s' = touch s) as ->.
  { pose proof (pushcli_popcli s Hc) as E2. unfold myproc in Hm. apply bind_inv in Hm as (u & s1 & E1 & Hm). erewrite bind_ret in E2 by exact E1.
    erewrite bind_ret in Hm by done. rewrite (bind_ret _ _ _ _ _ E2) in Hm. by injection Hm as _ <-. }
  eapply on_cpu_same; [exact H | by repeat split |]. destruct ks; [by apply quiet_touch | by rewrite (inside_touch _ _ _ Hh)].
Qed.
Lemma myproc_ok ks cur s : on_cpu ks cur s -> exists s', myproc s = Ret cur s' /\ on_cpu ks cur s' /\ same_table s s'.
Proof.
  intros H. pose proof H as (_ & Hc & Hh). pose proof (holds_cli _ _ Hh) as Hcl. exists (touch s).
  assert (E1 : myproc s = Ret cur (touch s)); [| split_and!; [done | by eapply on_cpu_myproc | by repeat split]].
  pose proof (pushcli_popcli s Hcl) as E2. unfold myproc. destruct (pushcli s) as [u s1 | | |] eqn:E1; try done.
  pose proof (pushcli_inv _ _ _ E1) as (_ & _ & _ & _ & _ & Hp & _). erewrite bind_ret in E2 by exact E1.
  erewrite bind_ret by exact E1. erewrite bind_ret by done. erewrite bind_ret by exact E2. by rewrite Hp, Hc.
Qed.
Lemma curproc_ok ks i s : on_cpu ks (Some i) s -> exists s', curproc s = Ret i s' /\ on_cpu ks (Some i) s' /\ same_table s s'.
Proof.
  intros H. destruct (myproc_ok ks (Some i) s H) as (s' & E1 & H1 & S1). exists s'. split; [| done].
  unfold curproc. by erewrite bind_ret by exact E1.
Qed.
Lemma on_cpu_curproc ks i s j s' : on_cpu ks (Some i) s -> curproc s = Ret j s' -> j = i /\ on_cpu ks (Some i) s' /\ same_table s s'.
Proof. intros H E1. destruct (curproc_ok ks i s H) as (s1 & E2 & H1). rewrite E1 in E2. by simplify_eq. Qed.

Lemma get_prio_ok s i p : on_cpu [] (Some i) s -> ptable s !! i = Some p ->
  exists s', get_prio s = Ret (prio p) s' /\ on_cpu [] (Some i) s' /\ same_table s s'.
Proof.
  intros H Hp. destruct (on_cpu_acquire [] (Some i) s ptable_lock H) as (s1 & E1 & H1 & S1);
    [apply not_elem_of_nil | unfold ptable_lock; lia |].
  pose proof H1 as (_ & Hc1 & Hh1). destruct (holds_curproc _ _ _ Hh1 Hc1) as (s1' & E2 & _ & _ & Es). rewrite Es in E2 by done.
  destruct (on_cpu_release [] (Some i) s1 ptable_lock H1) as (s2 & E3 & H2 & S2); [apply not_elem_of_nil |].
  exists s2. split; [| split; [done | by eapply same_table_trans]]. unfold get_prio. rewrite (bind_ret _ _ _ _ _ E1), (bind_ret _ _ _ _ _ E2).
  erewrite bind_ret by (apply get_proc_eq; destruct S1 as (-> & _); exact Hp). by rewrite (bind_ret _ _ _ _ _ E3).
Qed.

Lemma acquire_bound s lk u s' : acquire lk s = Ret u s' -> (lk < length (locks s))%nat.
Proof.
  intros Ea. unfold acquire in Ea. apply bind_inv in Ea as (? & s1 & (_ & _ & _ & _ & _ & _ & L1)%pushcli_inv & Ea).
  apply bind_inv in Ea as (b & s2 & Eh & Ea). unfold holding in Eh.
  apply bind_inv in Eh as (? & s3 & (_ & _ & _ & _ & _ & _ & L3)%pushcli_inv & Eh).
  apply bind_inv in Eh as (l & s4 & [_ Hl]%get_lock_inv & _).
  apply lookup_lt_Some in Hl. lia.
Qed.

Lemma proc_step_inv i held s held' s' :
  on_cpu (run_held held) (Some i) s -> ptable_lock ∉ run_held held ->
  proc_step i held s held' s' ->
  on_cpu (run_held held') (Some i) s' /\ ptable_lock ∉ run_held held'.
Proof.
  intros H Hk Hs. destruct Hs as [s v s' Ew | s n r s' Ep | held s n r s' Ek
    | held s ch u s' Ew | s u s' Et | s lk u s' Hlk Ea | s lk u s' Er | held s x | held s o s' El | held s p p' Hp Hpp | s r s' Eg].
  - split; [| done]. exact (wait_ok s i _ _ H Ew).
  - destruct (set_prio_ok s i n H) as (s1 & p & E1 & H1 & _). rewrite Ep in E1. by simplify_eq.
  - destruct (kill_ok _ _ s n H Hk) as (r1 & s1 & E1 & H1 & _). rewrite Ek in E1. by simplify_eq.
  - destruct (wakeup_ok _ _ s ch H Hk) as (s1 & E1 & H1 & _). rewrite Ew in E1. by simplify_eq.
  - destruct (timer_tick_ok _ s H) as (s1 & E1 & H1 & _). rewrite Et in E1. by simplify_eq.
  - destruct (on_cpu_acquire_any _ _ s lk H) as (s1 & E1 & H1 & _); [apply not_elem_of_nil | by eapply acquire_bound |].
    rewrite Ea in E1. simplify_eq. split; [done |]. cbn. intros Hin%list_elem_of_singleton. congruence.
  - destruct (on_cpu_release [] _ s lk H) as (s1 & E1 & H1 & _); [apply not_elem_of_nil |].
    rewrite Er in E1. simplify_eq. split; [done | apply not_elem_of_nil].
  - split; [by apply on_cpu_ext | done].
  - split; [| done]. by eapply on_cpu_myproc.
  - split; [| done]. eapply on_cpu_table; [exact H |]. apply (upd_kinv i (fun _ => p') s tt); [| apply H | exact (upd_proc_eq i (fun _ => p') s p Hp)].
    intros q Hq Hok. rewrite Hp in Hq. injection Hq as <-. by apply private_ok.
  - split; [| done]. destruct (on_cpu_cur _ _ _ H) as (p & Hp & _). destruct (get_prio_ok s i p H Hp) as (s1 & E1 & H1 & _). rewrite Eg in E1. by simplify_eq.
Qed.

Lemma intr_step_inv cur s s' : on_cpu [] cur s -> intr_step s s' -> on_cpu [] cur s'.
Proof.
  intros H Hs. destruct Hs as [s u s' Et | s ch u s' Ew | s o s' El | s x].
  - destruct (timer_tick_ok _ s H) as (s1 & E1 & H1 & _). rewrite Et in E1. by simplify_eq.
  - destruct (wakeup_ok _ _ s ch H) as (s1 & E1 & H1 & _); [apply not_elem_of_nil |]. rewrite Ew in E1. by simplify_eq.
  - by eapply on_cpu_myproc.
  - by apply on_cpu_ext.
Qed.

(** *** What the others see of it *)
Lemma intr_step_stays j cur s s' : on_cpu [] cur s -> intr_step s s' -> stays j s s'.
Proof.
  intros H Hs. destruct Hs as [s u s' Et | s ch u s' Ew | s o s' El | s x].
  - destruct (timer_tick_ok _ s H) as (s1 & E1 & _ & _ & T1). rewrite Et in E1. injection E1 as _ <-. eapply stays_wake; [apply H | exact T1].
  - destruct (wakeup_ok _ _ s ch H) as (s1 & E1 & _ & T1 & _); [apply not_elem_of_nil |]. rewrite Ew in E1. injection E1 as _ <-.
    eapply stays_wake; [apply H | exact T1].
  - apply myproc_inv in El as [El _]. by apply stays_same.
  - apply stays_ext.
Qed.

Lemma proc_step_stays i j held s held' s' :
  on_cpu (run_held held) (Some i) s -> ptable_lock ∉ run_held held -> j <> i ->
  proc_step i held s held' s' -> stays j s s'.
Proof.
  intros H Hk Hne Hs. destruct Hs as [s v s' Ew | s n r s' Ep | held s n r s' Ek
    | held s ch u s' Ew | s u s' Et | s lk u s' Hlk Ea | s lk u s' Er | held s x | held s o s' El | held s p p' Hp Hpp | s r s' Eg].
  - exact (wait_stays i j s _ _ H Hne Ew).
  - destruct (set_prio_ok s i n H) as (s1 & p & E1 & _ & _ & T1). rewrite Ep in E1. injection E1 as -> <-.
    by eapply stays_insert.
  - destruct (kill_ok _ _ s n H Hk) as (r1 & s1 & E1 & _ & _ & _ & Hm). rewrite Ek in E1. injection E1 as <- <-.
    destruct (find_index _ _) as [k |]; [| by apply stays_refl, Hm].
    destruct Hm as (_ & q & Hq & T1). intros p Hp. rewrite T1. destruct (decide (j = k)) as [-> |].
    + rewrite list_lookup_insert_eq by by eapply lookup_lt_Some. rewrite Hp in Hq. injection Hq as <-. eexists. split; [done |].
      case_decide as Hsl; [| by apply entry_stays_fields].
      destruct (po_chan _ _ _ (table_proc_ok _ _ _ _ _ _ (proj1 (proj1 H)) Hp) Hsl) as [_ Hcf].
      by apply entry_stays_other; cbn; rewrite ?Hsl.
    + rewrite list_lookup_insert_ne by done. exists p. split; [done | apply entry_stays_refl].
  - destruct (wakeup_ok _ _ s ch H Hk) as (s1 & E1 & _ & T1 & _). rewrite Ew in E1. injection E1 as _ <-.
    eapply stays_wake; [apply H | exact T1].
  - destruct (timer_tick_ok _ s H) as (s1 & E1 & _ & _ & T1). rewrite Et in E1. injection E1 as _ <-.
    eapply stays_wake; [apply H | exact T1].
  - apply acquire_inv in Ea. by apply stays_same.
  - apply release_inv in Er. by apply stays_same.
  - apply stays_ext.
  - apply myproc_inv in El as [El _]. by apply stays_same.
  - by eapply (stays_insert i j).
  - destruct (on_cpu_cur _ _ _ H) as (p & Hp & _). destruct (get_prio_ok s i p H Hp) as (s1 & E1 & _ & S1). rewrite Eg in E1. injection E1 as _ <-. by apply stays_same.
Qed.

(** A process that gives up the CPU is suspended outside [fork]. *)
Lemma proc_leave_inv i held s s1 :
  on_cpu (run_held held) (Some i) s -> ptable_lock ∉ run_held held -> forks_inv (ptable s) None ->
  proc_leave i held s s1 ->
  switched i s1 /\ (exists p, ptable s1 !! i = Some p /\ idle_entry p) /\ forall j, j <> i -> stays j s s1.
Proof.
  intros H Hk Hf Hl. destruct (on_cpu_cur _ _ _ H) as (p0 & Hp0 & Hrun). pose proof (lookup_lt_Some _ _ _ Hp0) as Hlt.
  assert (Hsl : forall s', sleeping i s' -> exists p, ptable s' !! i = Some p /\ idle_entry p).
  { intros s' (p & Hp & Hst). exists p. split; [done |]. by split; rewrite Hst. }
  destruct Hl as [s u s' Ey | s u s' Hi Ee | s s' Ew | s ch lk u s' Es].
  - destruct (yield_ok s i H) as (s2 & E2 & H2 & p & Hp & T2). rewrite Ey in E2. injection E2 as _ <-.
    split_and!; [done | | intros j Hj; by eapply stays_insert]. eexists. rewrite T2, list_lookup_insert_eq by done. by split.
  - destruct (exit_end_ok s i H Hi) as (s2 & E2 & H2 & (p & Hp & Hz) & Hst). rewrite Ee in E2. injection E2 as _ <-.
    split_and!; [done | | by eapply Hst, forks_no_embryo]. exists p. split; [done |]. by split; rewrite Hz.
  - destruct (wait_ok s i _ _ H Ew) as [H1 H2]. split_and!; [done | by apply Hsl |]. intros j Hj. by eapply wait_stays.
  - destruct (sleep_ok s i ch lk H) as (s2 & E2 & H2 & p & Hp & T2); [intros ->; apply Hk, list_elem_of_here |].
    rewrite Es in E2. injection E2 as _ <-. split_and!; [done | | intros j Hj; by eapply stays_insert].
    eexists. rewrite T2, list_lookup_insert_eq by done. by split.
Qed.

Lemma sched_back_stays i j s s' : switched i s -> sched_back i s = Ret tt s' -> stays j s s'.
Proof.
  intros H E1. destruct (sched_back_ok s i H) as (s2 & E2 & _ & q & Hq & T2). rewrite E1 in E2. injection E2 as <-. intros p Hp. rewrite T2.
  destruct (decide (j = i)) as [-> | Hne].
  - rewrite list_lookup_insert_eq by by eapply lookup_lt_Some. simplify_eq. eexists. split; [done | by apply entry_stays_fields].
  - rewrite list_lookup_insert_ne by done. exists p. split; [done | apply entry_stays_refl].
Qed.

(** *** The scheduler switches to a process *)
Lemma pick_context s h k i s1 : on_cpu [ptable_lock] None s -> sched_pick h k s = Ret (Some i) s1 ->
  exists p, on_cpu [ptable_lock] (Some i) s1 /\ ptable s !! i = Some p /\ state p = RUNNABLE /\
    ptable s1 = <[i := set_state RUNNING p]> (ptable s) /\ ptable s1 !! i = Some (set_state RUNNING p) /\
    ctx_ok (length (locks s1)) (context p) /\
    forall j q, (k <= j < i)%nat -> ptable s !! j = Some q -> eligible h q = false.
Proof.
  intros H Ep. destruct (sched_pick_ok s h k H) as [[E1 _] | (j & p & s1' & E1 & H1 & _ & Hp & Hst & _ & Hmin & T1)]; [congruence |].
  rewrite Ep in E1. injection E1 as <- <-. exists p. pose proof (lookup_lt_Some _ _ _ Hp) as Hlt.
  split_and!; try done; [by rewrite T1, list_lookup_insert_eq |].
  pose proof (po_ctx _ _ _ (table_proc_ok _ _ _ _ _ _ (proj1 (proj1 H)) Hp) (or_intror Hst)) as Hctx.
  replace (length (locks s1)) with (length (locks s)); [done |].
  unfold sched_pick in Ep. erewrite bind_ret in Ep by done. destruct (find_index _ _); [| done].
  cbv zeta in Ep. erewrite bind_ret in Ep by done.
  apply bind_inv in Ep as (? & s3 & (q & _ & ->)%upd_proc_inv & Ep). by injection Ep as _ <-.
Qed.

Lemma pick_resume s h k i s1 r s2 :
  on_cpu [ptable_lock] None s -> sched_pick h k s = Ret (Some i) s1 -> resume_proc i s1 = Ret r s2 ->
  after_resume i r s2 /\ forall j, j <> i -> stays j s s2.
Proof.
  intros H Ep Er. destruct (pick_context s h k i s1 H Ep) as (p & H1 & Hp & _ & T1 & Hp1 & Hctx & _).
  split; [by eapply resume_proc_ok |]. intros j Hj.
  eapply stays_trans; [by eapply (stays_insert i j s s1) |]. by eapply resume_stays.
Qed.

Lemma pick_forks s h k i s1 r s2 :
  on_cpu [ptable_lock] None s -> forks_inv (ptable s) None -> sched_pick h k s = Ret (Some i) s1 -> resume_proc i s1 = Ret r s2 ->
  forks_inv (ptable s2) (match r with continues_fork np f => Some (i, np, f) | _ => None end).
Proof.
  intros H Hf Ep Er. destruct (pick_context s h k i s1 H Ep) as (p & H1 & Hp & Hst & T1 & Hp1 & Hctx & _).
  destruct (pick_resume s h k i s1 r s2 H Ep Er) as [Ha Hs].
  assert (Hoth : (forall np f, r <> continues_fork np f) -> forks_inv (ptable s2) None).
  { intros Hr. pose proof (resume_other s1 i _ r s2 Hp1 Er Hr) as Hcf. cbn in Hcf.
    assert (Hidle : exists p2, ptable s2 !! i = Some p2 /\ idle_entry p2 /\
      table_inv (ptable s2) (nextpid s2) (initproc s2) (length (locks s2))).
    { assert (Hon : forall ks, on_cpu ks (Some i) s2 -> exists p2, ptable s2 !! i = Some p2 /\ idle_entry p2 /\
        table_inv (ptable s2) (nextpid s2) (initproc s2) (length (locks s2))).
      { intros ks H2. destruct (on_cpu_cur _ _ _ H2) as (p2 & Hp2 & Hr2). exists p2. split_and!; [done | by apply idle_running | apply H2]. }
      destruct r as [[lk |] | np f | v |]; cbn in Ha; [by eapply Hon, Ha | by eapply Hon | by destruct (Hr np f) | by eapply Hon |].
      destruct Ha as [(Ht & _) (p2 & Hp2 & Hs2)]. exists p2. split_and!; [done | | done]. by split; rewrite Hs2. }
    destruct Hidle as (p2 & Hp2 & Hi2 & Ht2). eapply (forks_others i p p2 s s2); [by eapply kinv_len; [apply H |] | done | done | | done | done | done].
    split; [congruence | done]. }
  destruct r as [lk | np f | v |]; try by apply Hoth.
  destruct (resume_fork s1 i np f s2 Er) as (p' & b & Hp' & Hc & T2). rewrite Hp1 in Hp'. injection Hp' as <-. rewrite T2, T1.
  eapply forks_resume; [exact Hp | done | exact Hc | done | done].
Qed.

Lemma switched_forks i s s' : switched i s -> sched_back i s = Ret tt s' -> forks_inv (ptable s) None -> forks_inv (ptable s') None.
Proof.
  intros H E1. pose proof (sched_back_ok s i H) as (s2 & E2 & _ & q & _ & T2). rewrite E1 in E2. injection E2 as <-.
  apply forks_stays; [by rewrite T2, length_insert |]. intros j. by eapply sched_back_stays.
Qed.
Lemma same_forks s s' cur : same_table s s' -> forks_inv (ptable s) cur -> forks_inv (ptable s') cur.
Proof. by intros (-> & _). Qed.
Lemma intr_forks cur cur' s s' : on_cpu [] cur s -> intr_step s s' -> forks_inv (ptable s) cur' -> forks_inv (ptable s') cur'.
Proof.
  intros H Hs. pose proof (intr_step_inv _ _ _ H Hs) as H'.
  apply forks_stays; [eapply kinv_len; [apply H | apply H'] |]. intros j. by eapply intr_step_stays.
Qed.

(** What the steps of [fork] do to the machine. *)
Lemma fork_start s i j s1 o s2 : on_cpu [] (Some i) s -> forks_inv (ptable s) None ->
  curproc s = Ret j s1 -> alloc_slot s1 = Ret o s2 ->
  on_cpu [] (Some i) s2 /\ used_same s s2 /\
  forks_inv (ptable s2) (match o with Some np => Some (i, np, F_stack) | None => None end).
Proof.
  intros H Hf E1 E2. destruct (on_cpu_curproc [] i s j s1 H E1) as (-> & H1 & (T1 & _)).
  destruct (alloc_slot_cases _ s1 H1) as [(s2' & E' & H2 & S2) | [[_ E'] | (np & q & s2' & E' & Hq & Hu & Hpar & H2 & B)]];
    rewrite E2 in E'; [| done |]; injection E' as -> <-.
  - split_and!; [done | | by eapply same_forks; [exact S2 | rewrite T1]]. intros k p Hp _. destruct S2 as (-> & _). by rewrite T1.
  - split_and!; [done | |].
    + intros k p Hp Hst. apply (building_used _ _ _ _ _ B); [by rewrite T1 | done].
    + destruct (on_cpu_cur _ _ _ H1) as (p & Hp & Hrun). rewrite (b_table _ _ _ _ _ B).
      eapply forks_alloc; [exact Hp | done | exact Hq | done | done | done | by rewrite T1].
Qed.
Lemma fork_step s i np f r s' : on_cpu [] (Some i) s -> forks_inv (ptable s) (Some (i, np, f)) -> fork_next i np f s = Ret r s' ->
  on_cpu [] (Some i) s' /\ forks_inv (ptable s') (match r with inl f' => Some (i, np, f') | inr _ => None end) /\
  i <> np /\ exists q q', ptable s !! np = Some q /\ state q = EMBRYO /\ ptable s' = <[np := q']> (ptable s).
Proof.
  intros H Hf En. destruct (on_cpu_cur _ _ _ H) as (p & Hp & Hrun). destruct (fi_stage _ _ Hf i np f (or_introl eq_refl)) as (q & Hq & Hs).
  pose proof (fork_next_ok i np f s p q H Hp Hq Hs) as Hok. unfold ends in Hok. rewrite En in Hok.
  destruct Hok as (H' & _ & _ & _ & q' & T' & Hr). pose proof (so_state _ _ _ Hs) as He. split_and!; [done | | congruence | by exists q, q'].
  rewrite T'. eapply forks_next; [exact Hp | done | | exact Hf]. destruct r as [f' | v]; [done |]. destruct Hr as [[_ ?] | (_ & ? & ?)]; auto.
Qed.
Lemma fork_yields s i np f u s1 : on_cpu [] (Some i) s -> forks_inv (ptable s) (Some (i, np, f)) -> yield_at (at_fork np f) s = Ret u s1 ->
  switched i s1 /\ forks_inv (ptable s1) None /\ forall j, j <> i -> stays j s s1.
Proof.
  intros H Hf Ey. destruct (yield_at_ok s i (at_fork np f) H) as (s2 & E2 & H2 & p & Hp & T2); [done |].
  rewrite Ey in E2. injection E2 as _ <-. destruct (on_cpu_cur _ _ _ H) as (p' & Hp' & Hrun). simplify_eq.
  split_and!; [done | | intros j Hj; by eapply stays_insert]. rewrite T2. by eapply forks_yield.
Qed.

(** ** Every step keeps it *)
Lemma kstep_inv m s m' s' : minv m s -> kstep (m, s) (m', s') -> minv m' s'.
Proof.
  intros Hm Hs. pose proof Hm as [H Hf].
  inversion Hs as [s0 h s1 E1 | h s0 s1 Hi | h s0 u s1 E1
    | h k s0 i s1 lk s2 E1 E2 | h k s0 i s1 v s2 E1 E2 | h k s0 i s1 np f s2 E1 E2 | h k s0 i s1 s2 u s3 E1 E2 E3
    | h k s0 s1 u s2 E1 E2 | h held held' i s0 s1 Hc Hp | h held i s0 s1 u s2 Hc Hp E1
    | h i s0 s1 np s2 E1 E2 | h i s0 s1 s2 E1 E2 | h np f i s0 f' s1 Hc E1 | h np f i s0 v s1 Hc E1
    | h np f s0 s1 Hi | h np f i s0 u1 s1 u s2 Hc E1 E2]; subst; clear Hs.
  - destruct H as ((Ht & Hr) & Hc & (Hn & Hh & Hl)). unfold sched_choose in E1.
    erewrite bind_ret in E1 by done. injection E1 as _ <-. split; [| done].
    split; [by split | split; [done |]]. by split_and!.
  - split; [by eapply intr_step_inv |]. by eapply (intr_forks None).
  - destruct (on_cpu_acquire [] None s ptable_lock H) as (s1 & Ea & H1 & S1);
      [apply not_elem_of_nil | unfold ptable_lock; lia |].
    unfold sched_lock in E1. rewrite Ea in E1. injection E1 as _ <-. split; [done | by eapply same_forks].
  - destruct (pick_resume _ _ _ _ _ _ _ H E1 E2) as [Ha _]. pose proof (pick_forks _ _ _ _ _ _ _ H Hf E1 E2) as Hf'.
    cbn in Ha. split; [| done]. destruct lk; [destruct Ha; split; [by exists i | done] | by exists i].
  - destruct (pick_resume _ _ _ _ _ _ _ H E1 E2) as [Ha _]. pose proof (pick_forks _ _ _ _ _ _ _ H Hf E1 E2) as Hf'.
    split; [by exists i | done].
  - destruct (pick_resume _ _ _ _ _ _ _ H E1 E2) as [Ha _]. eapply fork_minv; [done | exact (pick_forks _ _ _ _ _ _ _ H Hf E1 E2)].
  - destruct (pick_resume _ _ _ _ _ _ _ H E1 E2) as [[Ha _] _]. pose proof (pick_forks _ _ _ _ _ _ _ H Hf E1 E2) as Hf'.
    destruct u. split; [| by eapply switched_forks]. destruct (sched_back_ok s2 i Ha) as (s3 & Eb & Hb & _). rewrite E3 in Eb. by simplify_eq.
  - destruct (sched_pick_ok s h k H) as [[Ep _] | (j & p & s1' & Ep & _)]; rewrite E1 in Ep; simplify_eq.
    destruct (on_cpu_release [] None s ptable_lock H) as (s3 & Er & (Hk & Hc & Hq) & S3); [apply not_elem_of_nil |].
    unfold sched_end in E2. rewrite Er in E2. injection E2 as _ <-. split; [| by eapply same_forks].
    split; [done | split; [done |]]. destruct Hq as (? & _ & ? & ?). by split_and!.
  - destruct (minv_run _ _ _ _ Hm Hc) as [H1 Hk]. destruct (proc_step_inv _ _ _ _ _ H1 Hk Hp) as [H6 Hk'].
    split; [by eapply mode_run_ok |]. destruct (on_cpu_cur _ _ _ H1) as (p & Hpi & Hrp), (on_cpu_cur _ _ _ H6) as (p' & Hpi' & Hrp').
    eapply (forks_others i p p' s s'); [eapply kinv_len; [apply H1 | apply H6] | done | done | by apply idle_running.. | | done].
    intros j Hj. by eapply proc_step_stays.
  - destruct (minv_run _ _ _ _ Hm Hc) as [H1 Hk]. destruct u.
    destruct (proc_leave_inv _ _ _ _ H1 Hk Hf Hp) as (Hsw & (p' & Hp' & Hidle) & Hst). split.
    + destruct (sched_back_ok s1 i Hsw) as (s4 & Eb & H4 & _). rewrite E1 in Eb. by simplify_eq.
    + eapply switched_forks; [exact Hsw | done |]. destruct (on_cpu_cur _ _ _ H1) as (p & Hpi & Hrp).
      eapply (forks_others i p p' s s1); [eapply kinv_len; [apply H1 | apply Hsw] | done | done | by apply idle_running | done | done | done].
  - destruct H as [j Hj]. destruct (fork_start s j i s1 _ _ Hj Hf E1 E2) as (H2 & _ & Hf2). by eapply fork_minv.
  - destruct H as [j Hj]. destruct (fork_start s j i s1 _ _ Hj Hf E1 E2) as (H2 & _ & Hf2). split; [by exists j | done].
  - destruct (minv_fork _ _ _ _ _ Hm Hc) as [H1 Hf1]. destruct (fork_step _ _ _ _ _ _ H1 Hf1 E1) as (H2 & Hf2 & _). by eapply fork_minv.
  - destruct (minv_fork _ _ _ _ _ Hm Hc) as [H1 Hf1]. destruct (fork_step _ _ _ _ _ _ H1 Hf1 E1) as (H2 & Hf2 & _). split; [by exists i | done].
  - destruct H as [i Hon]. pose proof Hon as (_ & Hc & _). destruct (minv_fork _ _ _ _ _ Hm Hc) as [H1 Hf1].
    eapply (fork_minv _ _ _ _ i); [by eapply intr_step_inv | by eapply intr_forks].
  - destruct (minv_fork _ _ _ _ _ Hm Hc) as [H1 Hf1]. destruct (fork_yields _ _ _ _ _ _ H1 Hf1 E1) as (Hsw & Hf2 & _). destruct u.
    split; [| by eapply switched_forks]. destruct (sched_back_ok s1 i Hsw) as (s4 & Eb & H4 & _). rewrite E2 in Eb. by simplify_eq.
Qed.

Lemma kreach_inv m s : kreach (m, s) -> minv m s.
Proof.
  intros H. remember (m, s) as c eqn:Ec. revert m s Ec.
  induction H as [s0 u s Hb Eu | [m s] [m' s'] _ IH Hs]; intros m0 s1 [= <- <-].
  - destruct (userinit_ok _ _ _ Hb Eu) as [H1 H2]. split; [done |]. cbn.
    assert (Hno : forall i np f, ~ forking (ptable s) None i np f).
    { intros i np f [? | (p & b & Hp & _ & Hc)]; [done |]. destruct (H2 i p Hp) as [_ Hcf]. by rewrite Hc in Hcf. }
    split; [by intros ??? ?%Hno | by intros ????? ?%Hno |]. intros k q Hq He. by destruct (H2 k q Hq).
  - eapply kstep_inv; [by apply IH | exact Hs].
Qed.
End machine.

(** ** The calls of wait and the resumed processes return *)
Section returns.
Context {X : Type} {E : KernelEnv X} (i : nat).
Implicit Types s : kstate X.

Lemma wait_scan_ends s : on_cpu [ptable_lock] (Some i) s -> ends env_faults (wait_scan i) s (fun _ _ => True).
Proof.
  intros H. unfold wait_scan. eapply ends_ret_bind; [done |]. cbv zeta. destruct (find_index _ _) as [k |] eqn:Ef.
  - apply find_index_Some in Ef as [(q & Hq & Hz) _]. apply andb_true_iff in Hz as [_ Hz]. apply bool_decide_eq_true in Hz.
    destruct (po_built _ _ _ (table_proc_ok _ _ _ _ _ _ (proj1 (proj1 H)) Hq)) as [[ks Hks] [d Hd]]; [congruence.. |].
    run (get_proc_eq _ _ _ Hq). rewrite Hks. eapply ends_ret_bind; [done |].
    apply ends_bind, ends_lift; [done | done |]. intros u x. rewrite Hd. eapply ends_ret_bind; [done |].
    apply ends_bind, ends_lift; [done | done |]. intros u2 x2. eapply ends_ret_bind; [by apply upd_proc_eq |].
    match goal with |- ends _ _ ?s2 _ => destruct (holds_release [] ptable_lock s2) as (s3 & E3 & _) end;
      [apply H | apply not_elem_of_nil | run E3; by eapply ends_ret].
  - destruct (on_cpu_cur _ _ _ H) as (p & Hp & _). run (get_proc_eq _ _ _ Hp). destruct (_ || _); [| by eapply ends_ret].
    destruct (on_cpu_release [] _ s ptable_lock H) as (s3 & E3 & _); [apply not_elem_of_nil | run E3; by eapply ends_ret].
Qed.
Lemma wait_loop_ends s : on_cpu [ptable_lock] (Some i) s -> ends env_faults (wait_loop i) s (fun _ _ => True).
Proof.
  intros H. unfold wait_loop. apply ends_bind. eapply ends_mono; [by apply wait_scan_ends | done |]. intros r s1 Ew _.
  destruct r as [v |]; [by eapply ends_ret |]. pose proof (wait_scan_ok s i None s1 H Ew) as ->.
  destruct (sleep_wait_ok s i H) as (s2 & E2 & _). run E2. by eapply ends_ret.
Qed.
Lemma resume_ends s p : on_cpu [ptable_lock] (Some i) s -> ptable s !! i = Some p -> ctx_ok (length (locks s)) (context p) ->
  ends env_faults (resume_proc i) s (after_resume i).
Proof.
  intros H Hp Hctx. apply (ends_mono env_faults _ _ _ (fun _ _ => True)); [| done | intros r s' Er _; by eapply resume_proc_ok].
  unfold resume_proc. run (get_proc_eq _ _ _ Hp).
  assert (Hrel : forall s1 (r : resumed), on_cpu [ptable_lock] (Some i) s1 -> ends env_faults (release ptable_lock;; mret r) s1 (fun _ _ => True)).
  { intros s1 r H1. destruct (on_cpu_release [] _ s1 ptable_lock H1) as (s2 & E2 & _); [apply not_elem_of_nil | run E2; by eapply ends_ret]. }
  destruct (set_intena_same _ _ s H) as (s1 & E1 & H1 & T1 & _ & L1); [done |].
  destruct (context p) as [| np f b | b | lk b | b | b]; cbn in Hctx; subst; [by apply Hrel | run E1; by apply Hrel | run E1; by apply Hrel | | | done].
  - destruct Hctx as (-> & Hlk & Hlt). run E1. destruct (clear_chan_ok _ _ s1 H1) as (s2 & E2 & H2 & L2). run E2.
    destruct (on_cpu_release [] _ s2 ptable_lock H2) as (s3 & E3 & H3 & (_ & _ & _ & _ & _ & _ & L3)); [apply not_elem_of_nil |]. run E3.
    destruct (on_cpu_acquire_any [] _ s3 lk H3) as (s4 & E4 & _); [apply not_elem_of_nil | rewrite L3, L2, L1; done |]. run E4. by eapply ends_ret.
  - run E1. destruct (clear_chan_ok _ _ s1 H1) as (s2 & E2 & H2 & _). run E2.
    apply ends_bind. eapply ends_mono; [by apply wait_loop_ends | done |]. intros r s3 _ _. by eapply ends_ret.
Qed.
End returns.

Lemma kreach_steps `{KernelEnv X} (c c' : mode * kstate X) : kreach c -> rtc kstep c c' -> kreach c'.
Proof. intros Hr Hs. induction Hs as [| c1 c2 c3 H12 _ IH]; [done |]. apply IH. by eapply kr_step. Qed.

(** ** Whole calls as paths of the machine *)
Section paths.
Context {X : Type} {E : KernelEnv X}.
Implicit Types s : kstate X.
Abbreviation K := (M (kstate X)).

(** A path that started in [c0], in a round of priority [h] with process [i] on
    the CPU. *)
Context (c0 : mode * kstate X) (h : Z) (i : nat).
Hypothesis Hc0 : kreach c0.

(** The process runs, and holds [held]. *)
Definition at_run (held : option nat) s : Prop := rtc kstep c0 (Run h held, s) /\ c_proc (cpu s) = Some i.
(** The process has given up the CPU, to the scheduler. *)
Definition gives_up s : Prop := exists s2, sched_back i s = Ret tt s2 /\ rtc kstep c0 (Scan h (S i), s2).

Lemma rtc_reach c : rtc kstep c0 c -> kreach c.
Proof. by apply kreach_steps. Qed.

Lemma at_run_inv held s : at_run held s -> on_cpu (run_held held) (Some i) s /\ ptable_lock ∉ run_held held /\ forks_inv (ptable s) None.
Proof.
  intros [Hr Hc]. pose proof (kreach_inv _ _ (rtc_reach _ Hr)) as Hm. destruct (minv_run _ _ _ _ Hm Hc). split_and!; [done | done | by eapply minv_forks].
Qed.
Lemma run_entry held s : at_run held s -> exists p, ptable s !! i = Some p /\ state p = RUNNING /\ is_Some (pgdir p).
Proof.
  intros Hs. destruct (at_run_inv held s Hs) as (H & _ & _). destruct (on_cpu_cur _ _ _ H) as (p & Hp & Hrun). exists p. split_and!; [done | done |].
  destruct (po_built _ _ _ (table_proc_ok _ _ _ _ _ _ (proj1 (proj1 H)) Hp)); [by rewrite Hrun.. | done].
Qed.
Lemma step_runs held held' s s' : at_run held s -> proc_step i held s held' s' -> at_run held' s'.
Proof.
  intros Hs Hp. destruct (at_run_inv held s Hs) as (H & Hk & _). destruct (proc_step_inv i held s held' s' H Hk Hp) as [H2 _].
  destruct Hs as [Hr Hc]. split; [| apply H2]. eapply rtc_r; [exact Hr |]. by eapply k_proc.
Qed.
Lemma leave_gives_up held s s1 : at_run held s -> proc_leave i held s s1 -> gives_up s1.
Proof.
  intros Hs Hl. destruct (at_run_inv held s Hs) as (H & Hk & Hf). destruct (proc_leave_inv i held s s1 H Hk Hf Hl) as (Hsw & _).
  destruct (sched_back_ok s1 i Hsw) as (s2 & E2 & _). exists s2. split; [done |]. destruct Hs as [Hr Hc].
  eapply rtc_r; [exact Hr |]. by eapply k_leave.
Qed.

(** *** [fork] *)

(** The statements it has left, for a caller with [n] descriptors. *)
Definition fork_left (n : nat) (f : fork_pc) : nat :=
  match f with
  | F_stack => 11 + n | F_context => 10 + n | F_copy => 9 + n | F_sz => 8 + n | F_parent => 7 + n | F_tf => 6 + n
  | F_eax => 5 + n | F_files fd => 4 + (n - fd) | F_cwd => 3 | F_name => 2 | F_publish => 1
  | F_free => 3 | F_clear => 2 | F_unused => 1
  end%nat.
Lemma fork_next_left np f s p f' s' : ptable s !! i = Some p -> fork_next i np f s = Ret (inl f') s' ->
  (fork_left (length (ofile p)) f' < fork_left (length (ofile p)) f)%nat.
Proof.
  intros Hp En.
  destruct f as [| | | | | | | | | | fd | | |]; cbn [fork_next] in En;
    try (repeat (apply bind_inv in En as (? & ? & ? & En)); (done || (injection En as <- _; repeat case_match; cbn; lia))).
  apply bind_inv in En as (q & s1 & [-> Hq]%get_proc_inv & En). rewrite Hp in Hq. injection Hq as <-.
  destruct (ofile p !! fd) as [[fl |] |] eqn:Ho.
  - apply lookup_lt_Some in Ho. repeat (apply bind_inv in En as (? & ? & ? & En)). injection En as <- _. cbn. lia.
  - apply lookup_lt_Some in Ho. injection En as <- _. cbn. lia.
  - injection En as <- _. cbn. lia.
Qed.

Lemma fork_run_ends np p n f s :
  rtc kstep c0 (Fork h np f, s) -> c_proc (cpu s) = Some i -> ptable s !! i = Some p -> (fork_left (length (ofile p)) f <= n)%nat ->
  ends (fun e => env_faults e \/ e = f_stop "null inode" /\ cwd p = None) (fork_run n i np f) s (fun _ s' => at_run None s').
Proof.
  revert f s. induction n as [| n IH]; intros f s Hr Hc Hp Hn; [exfalso; destruct f; cbn in Hn; lia |].
  destruct (minv_fork _ _ _ _ _ (kreach_inv _ _ (rtc_reach _ Hr)) Hc) as [H Hf].
  destruct (fi_stage _ _ Hf i np f (or_introl eq_refl)) as (q & Hq & Hs).
  cbn [fork_run]. apply ends_bind. eapply ends_mono; [exact (fork_next_ok i np f s p q H Hp Hq Hs) | |].
  { intros e [? | (? & _ & ?)]; auto. }
  intros r s' En (H' & _). destruct (fork_step _ _ _ _ _ _ H Hf En) as (_ & _ & Hne & _ & q' & _ & _ & T').
  destruct r as [f' | v].
  - apply IH; [eapply rtc_r; [exact Hr |]; by eapply k_fork_next | apply H' | by rewrite T', list_lookup_insert_ne |].
    pose proof (fork_next_left np f s p f' s' Hp En). lia.
  - eapply ends_ret; [done |]. split; [| apply H']. eapply rtc_r; [exact Hr |]. by eapply k_fork_done.
Qed.

(** [fork] without interruption: it returns to its caller, unless the layers
    below fail, the caller has no directory, or the identifiers are used up. *)
Lemma fork_ends s p : at_run None s -> ptable s !! i = Some p ->
  ends (fun e => env_faults e \/ e = f_stop "null inode" /\ cwd p = None \/ e = f_stop "nextpid overflows" /\ 2 ^ 31 - 1 <= nextpid s)
    fork s (fun _ s' => at_run None s').
Proof.
  intros Hs Hp. destruct (at_run_inv None s Hs) as (H & _ & Hf). destruct Hs as [Hr Hc]. unfold ends.
  rewrite (fork_statements s i p (12 + length (ofile p)) H Hp) by done.
  change (ends (fun e => env_faults e \/ e = f_stop "null inode" /\ cwd p = None \/ e = f_stop "nextpid overflows" /\ 2 ^ 31 - 1 <= nextpid s)
    (fork_from (12 + length (ofile p))) s (fun _ s' => at_run None s')).
  unfold fork_from. destruct (curproc_ok [] i s H) as (s1 & E1 & H1 & (T1 & N1 & _)). run E1.
  destruct (alloc_slot_cases _ s1 H1) as [(s2 & E2 & H2 & _) | [[Hov E2] | (np & q & s2 & E2 & Hq & Hu & _ & H2 & B)]].
  - run E2. eapply ends_ret; [done |]. split; [| apply H2]. eapply rtc_r; [exact Hr |]. by eapply k_fork_full.
  - apply ends_bind. unfold ends. rewrite E2. rewrite N1 in Hov. auto.
  - run E2. eapply ends_mono; [apply (fork_run_ends np p) | intros e [? | ?]; auto | done].
    + eapply rtc_r; [exact Hr |]. by eapply k_fork.
    + apply H2.
    + rewrite (b_table _ _ _ _ _ B), T1, list_lookup_insert_ne; [done |]. intros ->. destruct (on_cpu_cur _ _ _ H) as (p' & Hp' & Hrun).
      rewrite T1 in Hq. congruence.
    + cbn. lia.
Qed.

Lemma fork_returns s r s' : at_run None s -> fork s = Ret r s' -> at_run None s'.
Proof.
  intros Hs Ef. destruct (run_entry None s Hs) as (p & Hp & _). pose proof (fork_ends s p Hs Hp) as H. unfold ends in H. by rewrite Ef in H.
Qed.

(** *** [wait] *)
Lemma wait_ends s : at_run None s -> ends env_faults wait_ s (fun o s' => if o is Some _ then at_run None s' else gives_up s').
Proof.
  intros Hs. destruct (at_run_inv None s Hs) as (H & _). apply (ends_mono env_faults _ _ _ (fun _ _ => True)); [| done |].
  - unfold wait_. destruct (curproc_ok [] i s H) as (s1 & E1 & H1 & _). run E1.
    destruct (on_cpu_acquire [] _ s1 ptable_lock H1) as (s2 & E2 & H2 & _); [apply not_elem_of_nil | unfold ptable_lock; lia |].
    run E2. by apply wait_loop_ends.
  - intros [v |] s' Ew _; [eapply step_runs; [exact Hs | by eapply p_wait] | eapply leave_gives_up; [exact Hs | by apply l_wait]].
Qed.

(** *** [exit] *)
Lemma private_runs held f s p : at_run held s -> ptable s !! i = Some p -> private p (f p) ->
  exists s', upd_proc i f s = Ret tt s' /\ at_run held s' /\ initproc s' = initproc s /\ ptable s' = <[i := f p]> (ptable s).
Proof.
  intros Hs Hp Hf. eexists. split; [by apply upd_proc_eq |]. split_and!; [| done | done]. eapply step_runs; [exact Hs |]. by eapply p_private.
Qed.
Lemma ext_runs held x s : at_run held s -> at_run held (with_ext x s).
Proof. intros Hs. eapply step_runs; [exact Hs | apply p_ext]. Qed.

Lemma close_ends fs fd s p : at_run None s -> ptable s !! i = Some p ->
  ends env_faults (close_files i fd fs) s (fun _ s' => at_run None s' /\ initproc s' = initproc s /\
    exists p', ptable s' !! i = Some p' /\ cwd p' = cwd p).
Proof.
  revert fd s p. induction fs as [| [f |] fs IH]; intros fd s p Hs Hp; cbn [close_files].
  - eapply ends_ret; [done |]. split_and!; [done | done | by exists p].
  - apply ends_bind, ends_lift; [done | done |]. intros u x.
    destruct (private_runs None (fun p => set_ofile (<[fd := None]> (ofile p)) p) (with_ext x s) p) as (s2 & E2 & H2 & I2 & T2);
      [by apply ext_runs | done | by repeat split |]. run E2.
    eapply ends_mono; [eapply (IH (S fd)); [exact H2 |] | done |].
    + rewrite T2. apply list_lookup_insert_eq. by eapply lookup_lt_Some.
    + intros v s' _ (Hs' & I' & Hp'). rewrite I2 in I'. by split_and!.
  - by apply IH.
Qed.

(** [exit] gives up the CPU, unless the layers below fail, it is init's or the
    process has no directory. *)
Lemma exit_ends s p : at_run None s -> ptable s !! i = Some p ->
  ends (fun e => env_faults e \/ e = f_stop "init exiting" /\ initproc s = Some i \/ e = f_stop "null inode" /\ cwd p = None)
    exit_ s (fun _ s' => gives_up s').
Proof.
  intros Hs Hp. destruct (at_run_inv None s Hs) as (H & _). unfold exit_.
  destruct (curproc_ok [] i s H) as (s1 & E1 & H1 & (T1 & _ & I1 & _)). run E1. eapply ends_ret_bind; [done |].
  assert (Hs1 : at_run None s1).
  { eapply step_runs; [exact Hs |]. unfold curproc in E1. apply bind_inv in E1 as (o & s1' & Em & Eo). destruct o; [| done].
    injection Eo as -> ->. by eapply p_look. }
  rewrite I1. destruct (decide (Some i = initproc s)) as [Hi | Hi]; [by right; left |].
  rewrite <- T1 in Hp. run (get_proc_eq _ _ _ Hp). apply ends_bind.
  eapply ends_mono; [by apply close_ends | by left |]. intros u s2 _ (Hs2 & I2 & p2 & Hp2 & Hc2).
  apply ends_bind, ends_lift; [done | by left |]. intros u3 x3. eapply ends_ret_bind; [by apply get_proc_eq |].
  rewrite Hc2. destruct (cwd p) as [c |]; [| by right; right]. eapply ends_ret_bind; [done |].
  apply ends_bind, ends_lift; [done | by left |]. intros u4 x4. apply ends_bind, ends_lift; [done | by left |]. intros u5 x5.
  destruct (private_runs None (set_cwd None) (with_ext x5 (with_ext x4 (with_ext x3 s2))) p2) as (s6 & E6 & H6 & I6 & _);
    [by repeat apply ext_runs | done | by repeat split |]. run E6.
  destruct (at_run_inv None s6 H6) as (Hon & _). assert (Hi6 : initproc s6 <> Some i) by (rewrite I6; cbn; congruence).
  destruct (exit_end_ok s6 i Hon Hi6) as (s7 & E7 & _). eapply ends_ret; [exact E7 |].
  eapply leave_gives_up; [exact H6 | by eapply l_exit].
Qed.
End paths.
