(* ===== verification/Xv6Proc.v ===== *)
(** * Xv6Proc: the theorems of the process subsystem of xv6-modified

    The invariant of the process table, the lock discipline, the scheduler's
    choice and its rounds, and what [fork] and [wait] do, over the states that
    the machine of Machine.v reaches. *)

From Stdlib Require Import ZArith Lia.
From stdpp Require Import base numbers strings option sets list relations.
From S2P Require Import Prelude Kernel KString Proc ProcSpec Sched Forking Machine.

(** ** A concrete environment and a booted machine, for the witnesses *)
#[local] Instance demo_env : KernelEnv Z := {
  kalloc := fun x => Ret (Some x) (x + 1);
  kfree := fun _ x => Ret tt x;
  setupkvm := fun x => Ret (Some x) (x + 1);
  inituvm := fun _ x => Ret tt x;
  copyuvm := fun _ _ x => Ret (Some x) (x + 1);
  freevm := fun _ x => Ret tt x;
  allocuvm := fun _ _ n x => Ret n x;
  deallocuvm := fun _ _ n x => Ret n x;
  filedup := fun f x => Ret f x;
  fileclose := fun _ x => Ret tt x;
  idup := fun i x => Ret i x;
  iput := fun _ x => Ret tt x;
  begin_op := fun x => Ret tt x;
  end_op := fun x => Ret tt x;
  namei_root := fun x => Ret (Some 1) x
}.

Definition st_of {A : Type} (d : kstate Z) (o : outcome (kstate Z) A) : kstate Z :=
  match o with Ret _ s => s | _ => d end.

Definition k0 : kstate Z := Eval vm_compute in
  mk_kstate (replicate NPROC proc_zero) 1 None (mk_cpu 0 false false None)
    (replicate 4 lock_free) 0 1.
Definition k_idle : kstate Z := Eval vm_compute in st_of k0 (userinit k0).
Definition k_chosen : kstate Z := Eval vm_compute in st_of k0 (sched_choose k_idle).
Definition k_scan : kstate Z := Eval vm_compute in st_of k0 (sched_lock k_chosen).
Definition k_picked : kstate Z := Eval vm_compute in st_of k0 (sched_pick 0 0 k_scan).
Definition k_run : kstate Z := Eval vm_compute in st_of k0 (resume_proc 0 k_picked).
Definition k_forked : kstate Z := Eval vm_compute in st_of k0 (fork k_run).

Lemma k0_boot : boot_state k0.
Proof.
  split_and!; [reflexivity.. |]. split_and!; [reflexivity | | cbn; lia].
  intros j l Hj. cbn in Hj. do 4 (destruct j as [| j]; [by injection Hj as <- |]). done.
Qed.

Lemma reach_idle : kreach (Idle, k_idle).
Proof. apply (kr_boot k0 tt); [apply k0_boot | reflexivity]. Qed.
Lemma reach_run : kreach (Run 0 None, k_run).
Proof.
  eapply kr_step; [eapply kr_step; [eapply kr_step; [apply reach_idle |] |] |].
  - apply (k_choose k_idle 0 k_chosen). vm_compute. reflexivity.
  - apply (k_lock 0 k_chosen tt k_scan). vm_compute. reflexivity.
  - apply (k_pick 0 0 k_scan 0 k_picked None k_run); vm_compute; reflexivity.
Qed.
Lemma reach_forked : kreach (Run 0 None, k_forked).
Proof.
  assert (Ef : fork k_run = Ret 2 k_forked) by (vm_compute; reflexivity).
  destruct (fork_returns (Run 0 None, k_run) 0 0 reach_run k_run 2 k_forked (conj (rtc_refl _ _) eq_refl) Ef) as [H _].
  exact (kreach_steps _ _ reach_run H).
Qed.

(** The clock takes the CPU from the first process inside its [fork], when the
    new process has its kernel stack and no memory yet. *)
Definition k_slot : kstate Z := Eval vm_compute in st_of k0 ((curproc;; alloc_slot) k_run).
Definition k_stack : kstate Z := Eval vm_compute in st_of k0 (fork_next 0 1 F_stack k_slot).
Definition k_inside : kstate Z := Eval vm_compute in st_of k0 (fork_next 0 1 F_context k_stack).
Lemma reach_inside : kreach (Fork 0 1 F_copy, k_inside).
Proof.
  eapply kr_step; [eapply kr_step; [eapply kr_step; [apply reach_run |] |] |].
  - apply (k_fork 0 0 k_run (st_of k0 (curproc k_run)) 1 k_slot); vm_compute; reflexivity.
  - apply (k_fork_next 0 1 F_stack 0 k_slot F_context k_stack); vm_compute; reflexivity.
  - apply (k_fork_next 0 1 F_context 0 k_stack F_copy k_inside); vm_compute; reflexivity.
Qed.
Definition k_preempted : kstate Z := Eval vm_compute in st_of k0 (yield_at (at_fork 1 F_copy) k_inside).
Definition k_midfork : kstate Z := Eval vm_compute in st_of k0 (sched_back 0 k_preempted).
Lemma reach_midfork : kreach (Scan 0 1, k_midfork).
Proof.
  eapply kr_step; [apply reach_inside |].
  apply (k_fork_yield 0 1 F_copy 0 k_inside tt k_preempted tt k_midfork); vm_compute; reflexivity.
Qed.

(** ** Theorems *)
Section states.
Context {X : Type} {E : KernelEnv X}.
Implicit Types s : kstate X.

Lemma minv_kinv m s : minv m s -> kinv s.
Proof.
  intros [H _]. destruct m as [| | | h [lk |] |]; cbn in H.
  - by destruct H as [? _].
  - by destruct H as [? _].
  - by destruct H as [? _].
  - by destruct H as [(i & ? & _) _].
  - by destruct H as (i & ? & _).
  - by destruct H as (i & ? & _).
Qed.

(** The locks that are held. *)
Definition mode_locks (m : mode) : list nat :=
  match m with Scan _ _ => [ptable_lock] | Run _ (Some lk) => [lk] | _ => [] end.
Lemma minv_locks m s : minv m s -> held_only (mode_locks m) (locks s).
Proof.
  assert (Hh : forall ks, holds ks s -> held_only ks (locks s)) by (intros [| k ks] Hq; apply Hq).
  intros [H _]. destruct m as [| | | h [lk |] |]; cbn in H.
  - apply H.
  - by apply Hh, H.
  - by apply Hh, H.
  - destruct H as [(i & H) _]. by apply Hh, H.
  - destruct H as (i & H). by apply Hh, H.
  - destruct H as (i & H). by apply Hh, H.
Qed.

(** *** What can be called *)

(** Process [i] has given up the CPU, and the scheduler goes on. *)
Definition goes_on (i : nat) s : Prop := exists s', sched_back i s = Ret tt s'.
Lemma switched_on i s : switched i s -> goes_on i s.
Proof. intros H. destruct (sched_back_ok s i H) as (s' & E1 & _). by exists s'. Qed.
Lemma intr_total cur s : on_cpu [] cur s -> (forall ch, exists s', wakeup ch s = Ret tt s') /\ (exists s', timer_tick s = Ret tt s').
Proof.
  intros H. split.
  - intros ch. destruct (wakeup_ok _ _ s ch H) as (s1 & E1 & _); [apply not_elem_of_nil | by exists s1].
  - destruct (timer_tick_ok _ s H) as (s1 & E1 & _). by exists s1.
Qed.
Lemma pick_total h k s i s1 : on_cpu [ptable_lock] None s -> sched_pick h k s = Ret (Some i) s1 ->
  ends env_faults (resume_proc i) s1 (fun r s2 => r = sleeps_again -> goes_on i s2).
Proof.
  intros H E1. destruct (pick_context s h k i s1 H E1) as (p & H1 & _ & _ & _ & Hp1 & Hctx & _).
  eapply ends_mono; [by eapply resume_ends | done |]. intros r s2 _ Ha ->. by apply switched_on, Ha.
Qed.
Lemma yield_total i s at_ : on_cpu [] (Some i) s -> ctx_ok (length (locks s)) (at_ true) -> exists s', yield_at at_ s = Ret tt s' /\ goes_on i s'.
Proof. intros H Ha. destruct (yield_at_ok s i at_ H Ha) as (s1 & E1 & H1 & _). exists s1. split; [done | by apply switched_on]. Qed.
Lemma kill_total ks cur s n : on_cpu ks cur s -> ptable_lock ∉ ks -> exists r s', kill n s = Ret r s'.
Proof. intros H Hk. destruct (kill_ok ks cur s n H Hk) as (r & s' & E1 & _). by exists r, s'. Qed.

(** The calls of a process without a lock into [fork], [exit] and [wait]. *)
Lemma calls_total h i p s : kreach (Run h None, s) -> c_proc (cpu s) = Some i -> ptable s !! i = Some p ->
  ends env_faults wait_ s (fun o s1 => o = None -> goes_on i s1) /\
  (is_Some (cwd p) -> nextpid s < 2 ^ 31 - 1 -> ends env_faults fork s (fun _ s' => c_proc (cpu s') = Some i)) /\
  (is_Some (cwd p) -> initproc s <> Some i -> ends env_faults exit_ s (fun _ s1 => goes_on i s1)).
Proof.
  intros Hr Hc Hp. assert (Hrun : at_run (Run h None, s) h i None s) by (split; [apply rtc_refl | done]). split_and!.
  - eapply ends_mono; [by eapply wait_ends | done |]. intros o s1 _ H1 ->. destruct H1 as (s2 & E2 & _). by exists s2.
  - intros [c Hcw] Hn. eapply ends_mono; [by eapply fork_ends | | by intros r s1 _ [_ ?]].
    intros e [? | [[_ ?] | [_ ?]]]; [done | congruence | lia].
  - intros [c Hcw] Hn. eapply ends_mono; [by eapply exit_ends | | intros r s1 _ (s2 & E2 & _); by exists s2].
    intros e [? | [[_ ?] | [_ ?]]]; [done | congruence | congruence].
Qed.
End states.

(** C4. In every reachable state of the machine, whatever the interleaving of
    forks, exits, waits, sleeps, wakeups, kills, interrupts and scheduling, and
    also when the clock interrupts a process inside [fork]: the process
    identifiers in use are distinct, positive and below [nextpid]; exactly the
    process of the CPU is RUNNING; every process that is built has a kernel
    stack and a page table, and unless it is init, a parent that is alive; a
    sleeping process has a wait channel; an entry that is EMBRYO is being built
    by exactly one process, inside its [fork] and on the CPU or runnable, and
    has that process as parent or none yet; and the lock of the table is held
    exactly while the scheduler scans it, any other lock exactly by the process
    that runs. *)
Theorem process_table_invariant `{KernelEnv X} (m : mode) (s : kstate X) (Hr : kreach (m, s)) :
  (forall i j p q, ptable s !! i = Some p -> ptable s !! j = Some q ->
     state p <> UNUSED -> state q <> UNUSED -> pid p = pid q -> i = j) /\
  (forall i p, ptable s !! i = Some p -> state p <> UNUSED -> 0 < pid p < nextpid s) /\
  (forall i, c_proc (cpu s) = Some i <-> exists p, ptable s !! i = Some p /\ state p = RUNNING) /\
  (forall i p, ptable s !! i = Some p -> state p <> UNUSED -> state p <> EMBRYO ->
     is_Some (kstack p) /\ is_Some (pgdir p) /\
     (initproc s <> Some i -> exists j q, parent p = Some j /\ ptable s !! j = Some q /\ live q)) /\
  (forall i p, ptable s !! i = Some p -> state p = SLEEPING -> is_Some (chan p)) /\
  (forall k q, ptable s !! k = Some q -> state q = EMBRYO ->
     exists i f, forking (ptable s) (cur_fork m s) i k f /\ (parent q = None \/ parent q = Some i) /\
       forall j g, forking (ptable s) (cur_fork m s) j k g -> j = i) /\
  (forall lk l, locks s !! lk = Some l -> l = if decide (lk ∈ mode_locks m) then lock_held else lock_free).
Proof.
  pose proof (kreach_inv m s Hr) as Hm. destruct (minv_kinv m s Hm) as [Ht Hrun].
  assert (Hok : forall i p, ptable s !! i = Some p -> proc_ok (nextpid s) (length (locks s)) p) by (intros; by eapply table_proc_ok).
  split_and!.
  - apply (ti_uniq _ _ _ _ Ht).
  - intros i p Hp. apply (po_used _ _ _ (Hok i p Hp)).
  - exact Hrun.
  - intros i p Hp Hu He. destruct (po_built _ _ _ (Hok i p Hp) Hu He). split_and!; [done | done |]. by apply (ti_parent _ _ _ _ Ht).
  - intros i p Hp Hs. apply (po_chan _ _ _ (Hok i p Hp) Hs).
  - destruct Hm as [_ Hf]. intros k q Hq He. destruct (fi_owner _ _ Hf k q Hq He) as (i & f & Hi). exists i, f. split_and!; [done | |].
    + destruct (fi_stage _ _ Hf i k f Hi) as (q' & Hq' & Hs). rewrite Hq in Hq'. injection Hq' as <-.
      rewrite (so_parent _ _ _ Hs). destruct (has_parent f); auto.
    + intros j g Hj. exact (fi_one _ _ Hf j i k g f Hj Hi).
  - exact (minv_locks m s Hm).
Qed.

Lemma process_table_invariant_witness :
  (exists i f, forking (ptable k_midfork) None i 1 f /\ forall j g, forking (ptable k_midfork) None j 1 g -> j = i) /\
  (c_proc (cpu k_midfork) = Some 0%nat <-> exists p, ptable k_midfork !! 0%nat = Some p /\ state p = RUNNING).
Proof.
  destruct (process_table_invariant (Scan 0 1) k_midfork reach_midfork) as (_ & _ & Hc & _ & _ & He & _). split; [| apply Hc].
  assert (Hq : ptable k_midfork !! 1%nat = Some (default proc_zero (ptable k_midfork !! 1%nat))) by (vm_compute; reflexivity).
  destruct (He 1%nat _ Hq) as (i & f & Hi & _ & Hu); [vm_compute; reflexivity |].
  exists i, f. split; [exact Hi | exact Hu].
Defined.

(** C27. Lock discipline: no check of [acquire], [release], [popcli] and
    [sched] fails.  In every reachable state the scheduler can take its next
    step, and the process it picks resumes.  A process that holds no lock can
    yield, wake, kill, count ticks, read and set its priority, take any lock but
    the table's, wait, fork and exit; one that holds a lock can release it, wake,
    kill, and sleep with it on any channel; one inside [fork] can execute its
    next statement, be interrupted and lose the CPU to the clock.  Each of these
    calls returns and, where it gives up the CPU, the scheduler goes on: none
    panics or spins.  Those that call the layers of memory and files fail only
    where a call of those layers does. For [fork] the caller has a directory and
    an identifier is left; for [exit] it has a directory and is not init. *)
Theorem no_lock_panic `{KernelEnv X} (m : mode) (s : kstate X) (Hr : kreach (m, s)) :
  match m with
  | Idle => exists h s', sched_choose s = Ret h s'
  | Chosen h => (exists s', sched_lock s = Ret tt s') /\
      (forall ch, exists s', wakeup ch s = Ret tt s') /\ (exists s', timer_tick s = Ret tt s')
  | Scan h k =>
      (exists i s1, sched_pick h k s = Ret (Some i) s1 /\
         ends env_faults (resume_proc i) s1 (fun r s2 => r = sleeps_again -> goes_on i s2)) \/
      (exists s', sched_pick h k s = Ret None s /\ sched_end s = Ret tt s')
  | Run h None => exists i p, c_proc (cpu s) = Some i /\ ptable s !! i = Some p /\
      (exists s1, yield_ s = Ret tt s1 /\ goes_on i s1) /\
      (forall ch, exists s', wakeup ch s = Ret tt s') /\ (exists s', timer_tick s = Ret tt s') /\
      (forall n, exists r s', kill n s = Ret r s') /\ (forall n, exists s', set_prio n s = Ret 0 s') /\
      (exists s', get_prio s = Ret (prio p) s') /\
      (forall lk, lk <> ptable_lock -> (lk < length (locks s))%nat -> exists s', acquire lk s = Ret tt s') /\
      ends env_faults wait_ s (fun o s1 => o = None -> goes_on i s1) /\
      (is_Some (cwd p) -> nextpid s < 2 ^ 31 - 1 -> ends env_faults fork s (fun _ s' => c_proc (cpu s') = Some i)) /\
      (is_Some (cwd p) -> initproc s <> Some i -> ends env_faults exit_ s (fun _ s1 => goes_on i s1))
  | Run h (Some lk) => exists i, c_proc (cpu s) = Some i /\
      (exists s', release lk s = Ret tt s') /\ (forall ch, exists s', wakeup ch s = Ret tt s') /\
      (forall n, exists r s', kill n s = Ret r s') /\
      (forall ch, exists s1, sleep_enter ch lk (at_sleep lk) s = Ret tt s1 /\ goes_on i s1)
  | Fork h np f => exists i p, c_proc (cpu s) = Some i /\ ptable s !! i = Some p /\
      (is_Some (cwd p) -> ends env_faults (fork_next i np f) s (fun _ s' => c_proc (cpu s') = Some i)) /\
      (exists s1, yield_at (at_fork np f) s = Ret tt s1 /\ goes_on i s1) /\
      (forall ch, exists s', wakeup ch s = Ret tt s') /\ (exists s', timer_tick s = Ret tt s')
  end.
Proof.
  pose proof (kreach_inv m s Hr) as Hm. pose proof Hm as [H0 Hf]. destruct m as [| h | h k | h [lk |] | h np f]; cbn in H0.
  - unfold sched_choose. erewrite bind_ret by done. by eexists _, _.
  - split; [| by apply intr_total with (cur := None)].
    destruct (on_cpu_acquire [] None s ptable_lock H0) as (s1 & E1 & _);
      [apply not_elem_of_nil | unfold ptable_lock; lia | by exists s1].
  - destruct (sched_pick_ok s h k H0) as [[E1 _] | (i & p & s1 & E1 & _)]; [right | left; exists i, s1; split; [done | by eapply pick_total]].
    destruct (on_cpu_release [] None s ptable_lock H0) as (s2 & E2 & _); [apply not_elem_of_nil |]. by exists s2.
  - destruct H0 as ((i & Hi) & Hlk). exists i. split; [apply Hi |].
    assert (Hnin : ptable_lock ∉ [lk]) by (intros Hin%list_elem_of_singleton; congruence). split_and!; [| | intros n; by eapply kill_total |].
    + destruct (on_cpu_release [] _ s lk Hi) as (s2 & E2 & _); [apply not_elem_of_nil | by exists s2].
    + intros ch. destruct (wakeup_ok _ _ s ch Hi Hnin) as (s1 & E1 & _). by exists s1.
    + intros ch. destruct (sleep_ok s i ch lk Hi Hlk) as (s1 & E1 & H1 & _). exists s1. split; [done | by apply switched_on].
  - destruct H0 as (i & Hi). destruct (on_cpu_cur _ _ _ Hi) as (p & Hp & _). exists i, p. split; [apply Hi |]. split; [done |].
    destruct (intr_total _ s Hi) as [Hw Ht], (calls_total h i p s Hr (proj1 (proj2 Hi)) Hp) as (Hwt & Hfk & Hex).
    split_and!; [by apply yield_total | done | done | intros n; by eapply kill_total, not_elem_of_nil | | | | done | done | done].
    + intros n. destruct (set_prio_ok s i n Hi) as (s1 & q & E1 & _). by exists s1.
    + destruct (get_prio_ok s i p Hi Hp) as (s1 & E1 & _). by exists s1.
    + intros lk _ Hlt. destruct (on_cpu_acquire_any [] _ s lk Hi) as (s1 & E1 & _); [apply not_elem_of_nil | done | by exists s1].
  - destruct H0 as (i & Hi). pose proof Hi as (_ & Hc & _). destruct (on_cpu_cur _ _ _ Hi) as (p & Hp & _).
    destruct (minv_fork _ _ _ _ _ Hm Hc) as [_ Hfk]. destruct (fi_stage _ _ Hfk i np f (or_introl eq_refl)) as (q & Hq & Hs).
    exists i, p. destruct (intr_total _ s Hi) as [Hw Ht]. split_and!; [done | done | | by apply yield_total | done | done].
    intros [c Hcw]. eapply ends_mono; [by eapply fork_next_ok | | intros r s' _ (H' & _); apply H'].
    intros e [? | (_ & _ & ?)]; [done | congruence].
Qed.

Lemma no_lock_panic_witness :
  (exists i p, c_proc (cpu k_forked) = Some i /\ ptable k_forked !! i = Some p /\
    exists s1, yield_ k_forked = Ret tt s1 /\ goes_on i s1) /\
  exists i, c_proc (cpu k_inside) = Some i /\ ends env_faults (fork_next i 1 F_copy) k_inside (fun _ s' => c_proc (cpu s') = Some i).
Proof.
  split.
  - destruct (no_lock_panic (Run 0 None) k_forked reach_forked) as (i & p & Hc & Hp & Hy & _).
    exists i, p. split; [exact Hc | split; [exact Hp | exact Hy]].
  - destruct (no_lock_panic (Fork 0 1 F_copy) k_inside reach_inside) as (i & p & Hc & Hp & Hf & _).
    exists i. split; [exact Hc |]. apply Hf. cbn in Hc. injection Hc as <-. cbn in Hp. injection Hp as <-. vm_compute. eauto.
Defined.

(** *** Which process runs *)
Lemma highest_foldl t h0 :
  let h := foldl (fun h p => if decide (state p = RUNNABLE) then if prio p >=? h then prio p else h else h) h0 t in
  h0 <= h /\ (forall p, p ∈ t -> state p = RUNNABLE -> prio p <= h) /\
  (h = h0 \/ exists p, p ∈ t /\ state p = RUNNABLE /\ prio p = h).
Proof.
  revert h0. induction t as [| p t IH]; intros h0; cbn [foldl].
  { split_and!; [lia | by intros p ?%elem_of_nil | by left]. }
  set (h1 := if decide (state p = RUNNABLE) then if prio p >=? h0 then prio p else h0 else h0).
  assert (Hh1 : h0 <= h1 /\ (state p = RUNNABLE -> prio p <= h1) /\
    (h1 = h0 \/ state p = RUNNABLE /\ prio p = h1)).
  { unfold h1. case_decide; [| by split_and!; [lia | | left]].
    rewrite Z.geb_leb. destruct (Z.leb_spec h0 (prio p)); split_and!; [lia | lia | by right | lia | lia | by left]. }
  destruct (IH h1) as (I1 & I2 & I3). destruct Hh1 as (J1 & J2 & J3). split_and!.
  - cbv zeta in *. lia.
  - intros q [-> | Hq]%elem_of_cons Hr; [specialize (J2 Hr); cbv zeta in *; lia | by apply I2].
  - destruct I3 as [I3 | (q & Hq & Hr & Hp)].
    + rewrite I3. destruct J3 as [-> | [Hr Hp]]; [by left | right].
      exists p. split; [apply list_elem_of_here | done].
    + right. exists q. split; [by apply list_elem_of_further | done].
Qed.

Lemma highest_prio_ge t p : p ∈ t -> state p = RUNNABLE -> prio p <= highest_prio t.
Proof. apply (highest_foldl t 0). Qed.
Lemma highest_prio_nonneg t : 0 <= highest_prio t.
Proof. apply (highest_foldl t 0). Qed.
Lemma highest_prio_attained t p :
  p ∈ t -> state p = RUNNABLE -> 0 <= prio p ->
  exists q, q ∈ t /\ state q = RUNNABLE /\ prio q = highest_prio t.
Proof.
  intros Hp Hr H0. destruct (highest_foldl t 0) as (_ & Hge & [Heq | Hex]); [| done].
  exists p. split_and!; [done.. |]. pose proof (Hge p Hp Hr) as Hle.
  unfold highest_prio. rewrite Heq in *. lia.
Qed.

(** One undisturbed decision of the scheduler: [highest], the lock, the first
    process of the scan. *)
Definition decide_next `{KernelEnv X} : M (kstate X) (Z * option nat) :=
  h ← sched_choose; sched_lock;; o ← sched_pick h 0; mret (h, o).

Lemma decide_next_ok `{KernelEnv X} (s : kstate X) :
  mode_ok Idle s ->
  let h := highest_prio (ptable s) in
  exists o s', decide_next s = Ret (h, o) s' /\
    match o with
    | None => ptable s' = ptable s /\ forall i p, ptable s !! i = Some p -> eligible h p = false
    | Some i => exists p, ptable s !! i = Some p /\ state p = RUNNABLE /\ prio p = h /\
        ptable s' = <[i := set_state RUNNING p]> (ptable s) /\
        forall j q, (j < i)%nat -> ptable s !! j = Some q -> eligible h q = false
    end.
Proof.
  intros ((Ht & Hr) & Hc & (Hn & Hh & Hl)) h. unfold decide_next, sched_choose.
  set (s1 := with_cpu (mk_cpu (ncli (cpu s)) (intena (cpu s)) true (c_proc (cpu s))) s).
  assert (H1 : on_cpu [] None s1) by (split; [by split | split; [done |]]; by split_and!).
  erewrite bind_ret.
  2:{ erewrite bind_ret by done. done. }
  destruct (on_cpu_acquire [] None s1 ptable_lock H1) as (s2 & E2 & H2 & (T2 & _));
    [apply not_elem_of_nil | unfold ptable_lock; lia |].
  erewrite bind_ret by exact E2. change (highest_prio (ptable s1)) with h.
  destruct (sched_pick_ok s2 h 0 H2) as [[E3 Hno] | (i & p & s3 & E3 & _ & _ & Hp & Hst & Hpr & Hmin & T3)].
  - exists None, s2. erewrite bind_ret by exact E3. split_and!; [done | done |].
    intros i p Hp. apply (Hno i p); [lia | by rewrite T2].
  - exists (Some i), s3. erewrite bind_ret by exact E3. split; [done |]. exists p.
    rewrite T2 in *. split_and!; [done.. |]. intros j q Hj. apply Hmin. lia.
Qed.

(** C25. Priority scheduling: from every reachable idle state the scheduler
    decides, and if a process of priority at least 0 is runnable, it runs a
    process, one with the highest priority of all runnable processes, and
    among those the first of the table. *)
Theorem scheduler_highest_priority `{KernelEnv X} (s : kstate X) (i0 : nat) (p0 : proc)
  (Hr : kreach (Idle, s)) (Hp0 : ptable s !! i0 = Some p0) (Hrun : state p0 = RUNNABLE)
  (Hprio : 0 <= prio p0) :
  exists i p s', decide_next s = Ret (prio p, Some i) s' /\
    ptable s !! i = Some p /\ state p = RUNNABLE /\
    ptable s' = <[i := set_state RUNNING p]> (ptable s) /\
    (forall j q, ptable s !! j = Some q -> state q = RUNNABLE ->
       prio q <= prio p /\ (prio q = prio p -> (i <= j)%nat)).
Proof.
  destruct (decide_next_ok s (proj1 (kreach_inv _ _ Hr))) as (o & s' & Ed & Ho).
  destruct o as [i |].
  - destruct Ho as (p & Hp & Hst & Hpr & T' & Hmin). exists i, p, s'. rewrite Hpr.
    split_and!; [done.. |]. intros j q Hq Hqr. split.
    + apply highest_prio_ge; [by eapply list_elem_of_lookup_2 | done].
    + intros Eq. destruct (decide (i <= j)%nat); [done |].
      assert (Hel : eligible (highest_prio (ptable s)) q = false) by (apply (Hmin j q); [lia | done]).
      unfold eligible in Hel. by rewrite bool_decide_true, Eq, Z.eqb_refl in Hel.
  - destruct Ho as [_ Hno]. exfalso.
    destruct (highest_prio_attained (ptable s) p0) as (q & Hq & Hqr & Hqp);
      [by eapply list_elem_of_lookup_2 | done | done |].
    apply list_elem_of_lookup in Hq as [j Hj]. specialize (Hno j q Hj).
    unfold eligible in Hno. by rewrite bool_decide_true, Hqp, Z.eqb_refl in Hno.
Qed.

Lemma scheduler_highest_priority_witness :
  exists i p s', decide_next k_idle = Ret (prio p, Some i) s' /\ ptable k_idle !! i = Some p.
Proof.
  destruct (scheduler_highest_priority k_idle 0 (default proc_zero (ptable k_idle !! 0%nat)))
    as (i & p & s' & E1 & Hp & _).
  - exact reach_idle.
  - reflexivity.
  - reflexivity.
  - vm_compute. discriminate.
  - exists i, p, s'. split; [exact E1 | exact Hp].
Defined.

(** Starvation by negative priority: [highest] starts at 0, so when every
    runnable process has a negative priority (which [set_prio] allows) a
    decision of the scheduler runs none of them and leaves the table as it
    was, although the CPU is free. *)
Theorem negative_priority_starves `{KernelEnv X} (s : kstate X) (Hr : kreach (Idle, s))
  (Hneg : forall p, p ∈ ptable s -> state p = RUNNABLE -> prio p < 0) :
  exists s', decide_next s = Ret (0, None) s' /\ ptable s' = ptable s.
Proof.
  assert (Hh : highest_prio (ptable s) = 0).
  { destruct (highest_foldl (ptable s) 0) as (H0 & _ & [? | (p & Hp & Hst & Hpr)]); [done |].
    specialize (Hneg p Hp Hst). unfold highest_prio. lia. }
  destruct (decide_next_ok s (proj1 (kreach_inv _ _ Hr))) as (o & s' & Ed & Ho). rewrite Hh in *.
  destruct o as [i |]; [| destruct Ho as [T' _]; by exists s'].
  destruct Ho as (p & Hp & Hst & Hpr & _). exfalso.
  specialize (Hneg p ltac:(by eapply list_elem_of_lookup_2) Hst). lia.
Qed.

Definition k_neg : kstate Z := Eval vm_compute in st_of k0 (set_prio (-1) k_run).
Definition k_neg1 : kstate Z := Eval vm_compute in st_of k0 (yield_ k_neg).
Definition k_neg2 : kstate Z := Eval vm_compute in st_of k0 (sched_back 0 k_neg1).
Definition k_neg_idle : kstate Z := Eval vm_compute in st_of k0 (sched_end k_neg2).

Lemma reach_neg_idle : kreach (Idle, k_neg_idle).
Proof.
  eapply kr_step; [eapply kr_step; [eapply kr_step; [apply reach_run |] |] |].
  - apply (k_proc 0 None None 0 k_run k_neg); [reflexivity |].
    apply (p_set_prio 0 k_run (-1) 0). vm_compute. reflexivity.
  - apply (k_leave 0 None 0 k_neg k_neg1 tt k_neg2); [reflexivity | | vm_compute; reflexivity].
    apply (l_yield 0 k_neg tt). vm_compute. reflexivity.
  - apply (k_end 0 1 k_neg2 k_neg2 tt k_neg_idle); vm_compute; reflexivity.
Qed.

Lemma negative_priority_starves_witness :
  exists s', decide_next k_neg_idle = Ret (0, None) s' /\ ptable s' = ptable k_neg_idle.
Proof.
  apply (negative_priority_starves k_neg_idle reach_neg_idle).
  assert (F : forallb (fun p => negb (bool_decide (state p = RUNNABLE)) || (prio p <? 0)) (ptable k_neg_idle) = true)
    by (vm_compute; reflexivity).
  intros p Hp Hst. rewrite forallb_forall in F. specialize (F p (proj1 (list_elem_of_In _ _) Hp)).
  rewrite bool_decide_true in F by exact Hst. cbn in F. apply Z.ltb_lt in F. exact F.
Defined.

(** *** Every eligible process gets its turn *)
Section turns.
Context {X : Type} {E : KernelEnv X}.
Implicit Types s : kstate X.

(** Process [j] is still due in this round: the scan has not passed it, or a
    process before it is running, and it is runnable with the round's
    priority. *)
Definition due (j : nat) (c : mode * kstate X) : Prop :=
  let s := snd c in
  match fst c with
  | Scan h k => (k <= j)%nat /\ exists p, ptable s !! j = Some p /\ state p = RUNNABLE /\ prio p = h
  | Run h _ | Fork h _ _ => exists i, c_proc (cpu s) = Some i /\ (i < j)%nat /\
      exists p, ptable s !! j = Some p /\ state p = RUNNABLE /\ prio p = h
  | _ => False
  end.

(** The step switched to process [j]. *)
Definition picks (j : nat) (c : mode * kstate X) : Prop :=
  match fst c with
  | Scan h k => exists s', sched_pick h k (snd c) = Ret (Some j) s'
  | _ => False
  end.

(** A pick before [j], and what the resumed process did first. *)
Lemma pick_due s h k j i s1 r s2 :
  on_cpu [ptable_lock] None s -> due j (Scan h k, s) ->
  sched_pick h k s = Ret (Some i) s1 -> i <> j -> resume_proc i s1 = Ret r s2 ->
  (i < j)%nat /\ stays j s s2.
Proof.
  intros H (Hkj & p & Hp & Hst & Hpr) Ep Hne Er. split; [| by eapply pick_resume].
  destruct (pick_context s h k i s1 H Ep) as (q & _ & _ & _ & _ & _ & _ & Hmin).
  destruct (decide (i < j)%nat); [done |]. assert (Hel : eligible h p = false) by (apply (Hmin j p); [lia | done]).
  unfold eligible in Hel. by rewrite bool_decide_true, Hpr, Z.eqb_refl in Hel.
Qed.

Lemma due_stays j h s s' p :
  ptable s !! j = Some p -> state p = RUNNABLE -> prio p = h -> stays j s s' ->
  exists p', ptable s' !! j = Some p' /\ state p' = RUNNABLE /\ prio p' = h.
Proof. intros Hp Hst <- Hs. destruct (Hs p Hp) as (p' & Hp' & (He & _) & _). exists p'. destruct (He Hst) as (? & ? & _). done. Qed.

(** Process [j] is due behind the running process [i], and stays so. *)
Definition due_behind (h : Z) (i j : nat) s : Prop :=
  (i < j)%nat /\ exists p, ptable s !! j = Some p /\ state p = RUNNABLE /\ prio p = h.
Lemma behind_stays h i j s s' : due_behind h i j s -> (j <> i -> stays j s s') -> due_behind h i j s'.
Proof. intros (Hlt & p & Hp & Hst & Hpr) Hs. split; [done |]. eapply due_stays; [done.. | apply Hs; lia]. Qed.
Lemma behind_used h i j s s' : due_behind h i j s -> used_same s s' -> due_behind h i j s'.
Proof. intros (Hlt & p & Hp & Hst & Hpr) Hs. split; [done |]. exists p. split; [| done]. apply Hs; [done | congruence]. Qed.
Lemma behind_insert h i j s s' k q q' : due_behind h i j s -> ptable s !! k = Some q -> state q <> RUNNABLE ->
  ptable s' = <[k := q']> (ptable s) -> due_behind h i j s'.
Proof.
  intros (Hlt & p & Hp & Hst & Hpr) Hq Hn T. split; [done |]. exists p. rewrite T, list_lookup_insert_ne by (intros ->; congruence). done.
Qed.
Lemma due_cur j h m s i : (exists held, m = Run h held) \/ (exists np f, m = Fork h np f) -> c_proc (cpu s) = Some i ->
  due j (m, s) <-> due_behind h i j s.
Proof.
  intros Hm Hc. split.
  - intros Hd. destruct Hm as [[held ->] | (np & f & ->)]; destruct Hd as (i' & Hc' & Hd); cbn in Hc'; by simplify_eq.
  - intros Hd. destruct Hm as [[held ->] | (np & f & ->)]; exists i; done.
Qed.
Lemma due_fork j h i o i' m s s1 s2 : on_cpu [] (Some i) s -> forks_inv (ptable s) None -> curproc s = Ret i' s1 -> alloc_slot s1 = Ret o s2 ->
  (m = Run h None \/ exists np f, m = Fork h np f) -> due j (Run h None, s) -> due j (m, s2).
Proof.
  intros Hi Hf E1 E2 Hm Hd. destruct (fork_start s i i' s1 _ _ Hi Hf E1 E2) as (H2 & Hu & _).
  apply (due_cur j h _ s i) in Hd; [| eauto | apply Hi]. apply (due_cur j h _ s2 i); [destruct Hm as [-> | ?]; eauto | apply H2 |]. by eapply behind_used.
Qed.
Lemma due_next j h i np f r m s s' : minv (Fork h np f) s -> c_proc (cpu s) = Some i -> fork_next i np f s = Ret r s' ->
  (m = Run h None \/ exists f', m = Fork h np f') -> due j (Fork h np f, s) -> due j (m, s').
Proof.
  intros Hm Hc E1 Hm' Hd. destruct (minv_fork _ _ _ _ _ Hm Hc) as [H1 Hf1].
  destruct (fork_step _ _ _ _ _ _ H1 Hf1 E1) as (H2 & _ & _ & q & q' & Hq & He & T).
  apply (due_cur j h _ s i) in Hd; [| eauto | done]. apply (due_cur j h _ s' i); [destruct Hm' as [-> | [f' ->]]; eauto | apply H2 |].
  eapply behind_insert; [exact Hd | exact Hq | congruence | exact T].
Qed.
Lemma due_back j h i s s1 s2 : due_behind h i j s -> (j <> i -> stays j s s1) -> switched i s1 -> sched_back i s1 = Ret tt s2 ->
  due j (Scan h (S i), s2).
Proof.
  intros Hd Hs Hsw E1. destruct (behind_stays h i j s s2 Hd) as (Hlt & p & Hp); [| split; [lia | by exists p]].
  intros Hne. eapply stays_trans; [by apply Hs | by eapply sched_back_stays].
Qed.
End turns.

(** C26. Round robin within a priority: in every reachable state of a round of
    the scheduler, a process that is runnable with the priority of the round
    and that the scan has not passed yet stays due whatever the processes
    before it do, until the step that switches to it: the round cannot end,
    and the scan cannot pass it, without running it. *)
Theorem round_gives_turn `{KernelEnv X} (c c' : mode * kstate X) (j : nat)
  (Hr : kreach c) (Hdue : due j c) (Hs : kstep c c') : picks j c \/ due j c'.
Proof.
  destruct c as [m s], c' as [m' s']. pose proof (kreach_inv m s Hr) as Hm. pose proof Hm as [H0 Hf].
  inversion Hs as [s0 h s1 E1 | h s0 s1 Hi | h s0 u s1 E1
    | h k s0 i s1 lk s2 E1 E2 | h k s0 i s1 v s2 E1 E2 | h k s0 i s1 np f s2 E1 E2 | h k s0 i s1 s2 u s3 E1 E2 E3
    | h k s0 s1 u s2 E1 E2 | h held held' i s0 s1 Hc Hp | h held i s0 s1 u s2 Hc Hp E1
    | h i s0 s1 np s2 E1 E2 | h i s0 s1 s2 E1 E2 | h np f i s0 f' s1 Hc E1 | h np f i s0 v s1 Hc E1
    | h np f s0 s1 Hi | h np f i s0 u1 s1 u s2 Hc E1 E2]; subst; clear Hs; try done; cbn in H0.
  - destruct (decide (i = j)) as [-> | Hne]; [left; by exists s1 | right].
    destruct (pick_due s h k j i s1 _ s' H0 Hdue E1 Hne E2) as [Hlt Hst]. destruct (pick_resume _ _ _ _ _ _ _ H0 E1 E2) as [Ha _].
    destruct Hdue as (_ & p & Hp & Hrun & Hpr). exists i. split_and!; [destruct lk; apply Ha | done | by eapply due_stays].
  - destruct (decide (i = j)) as [-> | Hne]; [left; by exists s1 | right].
    destruct (pick_due s h k j i s1 _ s' H0 Hdue E1 Hne E2) as [Hlt Hst]. destruct (pick_resume _ _ _ _ _ _ _ H0 E1 E2) as [Ha _].
    destruct Hdue as (_ & p & Hp & Hrun & Hpr). exists i. split_and!; [apply Ha | done | by eapply due_stays].
  - destruct (decide (i = j)) as [-> | Hne]; [left; by exists s1 | right].
    destruct (pick_due s h k j i s1 _ s' H0 Hdue E1 Hne E2) as [Hlt Hst]. destruct (pick_resume _ _ _ _ _ _ _ H0 E1 E2) as [Ha _].
    destruct Hdue as (_ & p & Hp & Hrun & Hpr). exists i. split_and!; [apply Ha | done | by eapply due_stays].
  - destruct (decide (i = j)) as [-> | Hne]; [left; by exists s1 | right].
    destruct (pick_due s h k j i s1 _ s2 H0 Hdue E1 Hne E2) as [Hlt Hst]. destruct (pick_resume _ _ _ _ _ _ _ H0 E1 E2) as [[Ha _] _].
    destruct u, Hdue as (_ & Hp). eapply (due_back j h i s); [by split | done | exact Ha | done].
  - exfalso. destruct Hdue as (Hkj & p & Hp & Hrun & Hpr).
    destruct (sched_pick_ok s h k H0) as [[_ Hno] | (i' & q & s1' & E1' & _)]; [| congruence].
    specialize (Hno j p Hkj Hp). unfold eligible in Hno. by rewrite bool_decide_true, Hpr, Z.eqb_refl in Hno.
  - right. destruct (minv_run h held s i Hm Hc) as [H1 Hk]. destruct (proc_step_inv _ _ _ _ _ H1 Hk Hp) as [H2 _].
    apply (due_cur j h _ s i) in Hdue; [| eauto | done]. apply (due_cur j h _ s' i); [eauto | apply H2 |].
    eapply behind_stays; [exact Hdue |]. intros Hne. by eapply proc_step_stays.
  - right. destruct (minv_run h held s i Hm Hc) as [H1 Hk]. destruct (proc_leave_inv _ _ _ _ H1 Hk Hf Hp) as (Hsw & _ & Hst).
    apply (due_cur j h _ s i) in Hdue; [| eauto | done]. destruct u. eapply due_back; [exact Hdue | apply Hst | exact Hsw | done].
  - right. destruct H0 as [i' Hi]. eapply due_fork; eauto.
  - right. destruct H0 as [i' Hi]. eapply due_fork; eauto.
  - right. eapply due_next; eauto.
  - right. eapply due_next; eauto.
  - right. destruct H0 as [i Hon]. pose proof (intr_step_inv _ _ _ Hon Hi) as H2.
    apply (due_cur j h _ s i) in Hdue; [| eauto | apply Hon]. apply (due_cur j h _ s' i); [eauto | apply H2 |].
    eapply behind_stays; [exact Hdue |]. intros _. by eapply intr_step_stays.
  - right. destruct (minv_fork _ _ _ _ _ Hm Hc) as [H1 Hf1]. destruct (fork_yields _ _ _ _ _ _ H1 Hf1 E1) as (Hsw & _ & Hst).
    apply (due_cur j h _ s i) in Hdue; [| eauto | done]. destruct u. eapply due_back; [exact Hdue | apply Hst | exact Hsw | done].
Qed.

Definition k_yield : kstate Z := Eval vm_compute in st_of k0 (yield_ k_forked).
Definition k_back : kstate Z := Eval vm_compute in st_of k0 (sched_back 0 k_yield).

Lemma round_gives_turn_witness :
  picks 1 (Run 0 None, k_forked) \/ due 1 (Scan 0 1, k_back).
Proof.
  apply (round_gives_turn (Run 0 None, k_forked) (Scan 0 1, k_back) 1 reach_forked).
  - exists 0%nat. split; [reflexivity | split; [lia |]].
    exists (default proc_zero (ptable k_forked !! 1%nat)). split; [reflexivity | split; reflexivity].
  - apply (k_leave 0 None 0 k_forked k_yield tt k_back); [reflexivity | | vm_compute; reflexivity].
    apply (l_yield 0 k_forked tt). vm_compute. reflexivity.
Defined.

(** *** [fork] and [wait] *)

(** [fork], when it returns in a reachable state, returns -1 and leaves
    every process in use as it was, or it returns the next unused process
    identifier and the table has one process more, in a slot that was UNUSED:
    runnable, with that identifier, the caller as parent, the caller's
    priority and memory size, no context switch counted, and a trap frame in
    which its own [fork] returns 0. *)
Theorem fork_spec `{KernelEnv X} (h : Z) (s s' : kstate X) (i : nat) (p : proc) (r : Z)
  (Hr : kreach (Run h None, s)) (Hc : c_proc (cpu s) = Some i) (Hp : ptable s !! i = Some p)
  (Hf : fork s = Ret r s') :
  used_same s s' /\
  (r = -1 \/
   exists k q, r = nextpid s /\ nextpid s' = nextpid s + 1 /\ ptable s' = <[k := q]> (ptable s) /\
     (exists p0, ptable s !! k = Some p0 /\ state p0 = UNUSED) /\
     state q = RUNNABLE /\ pid q = r /\ parent q = Some i /\ prio q = prio p /\ sz q = sz p /\
     nice q = 0 /\ tf_eax (tf q) = 0).
Proof.
  destruct (minv_run h None s i (kreach_inv _ _ Hr) Hc) as [H1 _].
  destruct (fork_ok s i r s' H1 Hf) as (_ & Hu & Hor). split; [done |].
  destruct Hor as [? | (k & p' & q & -> & Hn & Hp' & T & Hk & Hst & Hpid & Hpar & Hpr & Hsz & Hax & Hni)]; [by left |].
  right. exists k, q. rewrite Hp in Hp'. injection Hp' as <-. by split_and!.
Qed.

Lemma fork_spec_witness : used_same k_run k_forked /\ nextpid k_forked = 3.
Proof.
  split; [| reflexivity].
  refine (proj1 (fork_spec 0 k_run k_forked 0 (default proc_zero (ptable k_run !! 0%nat)) 2 reach_run _ _ _)).
  - reflexivity.
  - reflexivity.
  - vm_compute. reflexivity.
Defined.

Section wait_proof.
Context {X : Type} {E : KernelEnv X}.
Implicit Types s : kstate X.

Definition child_of (i : nat) (p : proc) : bool := bool_decide (parent p = Some i).
Definition zombie_child (i : nat) (p : proc) : bool := child_of i p && bool_decide (state p = ZOMBIE).

(** The entry of a reaped process. *)
Definition reaped (p : proc) : proc :=
  set_state UNUSED (set_priority 0 (set_killed false
    (set_name (<[0%nat := 0]> (name p)) (set_parent None (set_pid 0 (set_kstack None p)))))).

(** The layers below return from freeing the kernel stack and the memory of the
    child that is reaped. *)
Definition frees (i : nat) s : Prop := forall k q ks d,
  find_index (zombie_child i) (ptable s) = Some k -> ptable s !! k = Some q -> kstack q = Some ks -> pgdir q = Some d ->
  exists x1 x2, kfree ks (ext s) = Ret tt x1 /\ freevm d x1 = Ret tt x2.

Lemma lift_eq {A : Type} (m : M X A) s a x : m (ext s) = Ret a x -> lift m s = Ret a (with_ext x s).
Proof. unfold lift. by intros ->. Qed.

Lemma wait_total s i p :
  frees i s -> on_cpu [ptable_lock] (Some i) s -> ptable s !! i = Some p ->
  exists r s', wait_loop i s = Ret r s' /\
    match find_index (zombie_child i) (ptable s) with
    | Some k => exists q, ptable s !! k = Some q /\ r = Some (pid q) /\
        ptable s' = <[k := reaped q]> (ptable s)
    | None => if existsb (child_of i) (ptable s) && negb (killed p)
        then r = None /\ exists b, ptable s' = <[i := set_context (at_wait b) (set_state SLEEPING
               (set_chan (Some (ch_proc i)) p))]> (ptable s)
        else r = Some (-1) /\ ptable s' = ptable s
    end.
Proof.
  intros Hfr H Hp. unfold wait_loop.
  pose proof H as ((Ht & _) & Hc & Hh).
  destruct (find_index (zombie_child i) (ptable s)) as [k |] eqn:Ef.
  - pose proof Ef as Ef'. apply find_index_Some in Ef' as [(q & Hq & Hz) _].
    apply andb_true_iff in Hz as [_ Hz]. apply bool_decide_eq_true in Hz.
    destruct (po_built _ _ _ (table_proc_ok _ _ _ _ _ _ Ht Hq)) as ([ks Hks] & [d Hd]); [congruence.. |].
    destruct (Hfr k q ks d Ef Hq Hks Hd) as (x1 & x2 & E1 & E2).
    set (s2 := with_ptable (<[k := reaped q]> (ptable s)) (with_ext x2 (with_ext x1 s))).
    destruct (holds_release [] ptable_lock s2 Hh) as (s3 & E3 & _ & (T3 & _)); [apply not_elem_of_nil |].
    exists (Some (pid q)), s3. split; [| exists q; by rewrite T3].
    assert (Es : wait_scan i s = Ret (Some (pid q)) s3); [| erewrite bind_ret by exact Es; done].
    unfold wait_scan. erewrite bind_ret by done. cbv zeta.
    change (find_index _ (ptable s)) with (find_index (zombie_child i) (ptable s)). rewrite Ef.
    erewrite bind_ret by by apply get_proc_eq. rewrite Hks. erewrite bind_ret by done.
    erewrite bind_ret by (by apply lift_eq). rewrite Hd. erewrite bind_ret by done.
    erewrite bind_ret by (by apply lift_eq).
    erewrite bind_ret by (apply upd_proc_eq; exact Hq). cbn [ptable with_ext].
    fold (reaped q). fold s2. by erewrite bind_ret by exact E3.
  - destruct (existsb (child_of i) (ptable s) && negb (killed p)) eqn:Eb.
    + destruct (sleep_wait_ok s i H) as (s2 & E2 & _ & _).
      exists None, s2. split.
      * erewrite bind_ret.
        2:{ unfold wait_scan. erewrite bind_ret by done. cbv zeta.
            change (find_index _ (ptable s)) with (find_index (zombie_child i) (ptable s)). rewrite Ef.
            erewrite bind_ret by by apply get_proc_eq.
            change (existsb _ (ptable s)) with (existsb (child_of i) (ptable s)).
            apply andb_true_iff in Eb as [-> Eb]. apply negb_true_iff in Eb as ->. done. }
        cbv iota beta. by erewrite bind_ret by exact E2.
      * split; [done |]. unfold sleep_enter in E2.
        destruct (holds_curproc _ _ _ Hh Hc) as (s0' & E0 & _ & _ & Es). rewrite Es in E0 by done.
        erewrite bind_ret in E2 by exact E0. rewrite decide_True in E2 by done.
        erewrite bind_ret in E2 by done. erewrite bind_ret in E2 by by apply upd_proc_eq.
        rewrite (sched_switch_eq _ i (set_state SLEEPING (set_chan (Some (ch_proc i)) p))) in E2;
          [| done | exact Hh | | done].
        2:{ cbn. apply list_lookup_insert_eq. by eapply lookup_lt_Some. }
        injection E2 as <-. exists true. cbn. by rewrite list_insert_insert_eq.
    + destruct (holds_release [] ptable_lock s Hh) as (s3 & E3 & _ & (T3 & _)); [apply not_elem_of_nil |].
      exists (Some (-1)), s3. split; [| done].
      assert (Es : wait_scan i s = Ret (Some (-1)) s3); [| erewrite bind_ret by exact Es; done].
      unfold wait_scan. erewrite bind_ret by done. cbv zeta.
      change (find_index _ (ptable s)) with (find_index (zombie_child i) (ptable s)). rewrite Ef.
      erewrite bind_ret by by apply get_proc_eq.
      change (existsb _ (ptable s)) with (existsb (child_of i) (ptable s)).
      replace (negb (existsb (child_of i) (ptable s)) || killed p) with true.
      2:{ destruct (existsb _ _), (killed p); done. }
      by erewrite bind_ret by exact E3.
Qed.
End wait_proof.

(** [wait], called in a reachable state by a process that holds no lock,
    with memory layers that return from freeing the child's memory: if it has a zombie child it
    returns the identifier of the first one of the table, whose entry is UNUSED
    afterwards, and changes no other entry; without children, or killed, it
    returns -1 and changes nothing; otherwise it goes to sleep on its own
    channel, where the [exit] of a child wakes it. *)
Theorem wait_spec `{KernelEnv X} (h : Z) (s : kstate X) (i : nat) (p : proc)
  (Hr : kreach (Run h None, s)) (Hc : c_proc (cpu s) = Some i) (Hp : ptable s !! i = Some p)
  (Hfree : frees i s) :
  exists r s', wait_ s = Ret r s' /\
    match find_index (zombie_child i) (ptable s) with
    | Some k => exists q, ptable s !! k = Some q /\ r = Some (pid q) /\
        ptable s' = <[k := reaped q]> (ptable s)
    | None => if existsb (child_of i) (ptable s) && negb (killed p)
        then r = None /\ exists b, ptable s' = <[i := set_context (at_wait b) (set_state SLEEPING
               (set_chan (Some (ch_proc i)) p))]> (ptable s)
        else r = Some (-1) /\ ptable s' = ptable s
    end.
Proof.
  destruct (minv_run h None s i (kreach_inv _ _ Hr) Hc) as [H1 _]. pose proof H1 as (_ & _ & Hh).
  destruct (holds_curproc _ _ _ Hh Hc) as (s0 & E0 & Hh0 & S0 & _).
  assert (H0 : on_cpu [] (Some i) s0) by by eapply on_cpu_same.
  destruct (on_cpu_acquire [] _ s0 ptable_lock H0) as (s1 & E1 & H2 & (T1 & _ & _ & _ & X1 & _));
    [apply not_elem_of_nil | unfold ptable_lock; lia |].
  destruct S0 as (T0 & _ & _ & _ & X0 & _). rewrite <- T0, <- T1.
  assert (Hfree1 : frees i s1) by (intros k q ks d; rewrite T1, T0, X1, X0; apply Hfree).
  destruct (wait_total s1 i p Hfree1 H2) as (r & s' & Ew & Hm); [by rewrite T1, T0 |].
  exists r, s'. split; [| done].
  unfold wait_. erewrite bind_ret by exact E0. by erewrite bind_ret by exact E1.
Qed.

Lemma wait_spec_witness : exists s', wait_ k_run = Ret (Some (-1)) s' /\ ptable s' = ptable k_run.
Proof.
  destruct (wait_spec 0 k_run 0 (default proc_zero (ptable k_run !! 0%nat)) reach_run)
    as (r & s' & Ew & Hm).
  - reflexivity.
  - reflexivity.
  - intros k q ks d _ _ _ _. eexists _, _. split; reflexivity.
  - exists s'. cbn in Hm. destruct Hm as [-> T]. split; [exact Ew | exact T].
Defined.

(** *** Killing process 0 *)

(** The first process kills process 0, then forks. *)
Definition kill_zero_run : M (kstate Z) Z := kill 0;; fork.

(** [kill] does not skip unused entries, whose identifier is 0, and
    [allocproc] does not clear [killed]: after [kill(0)], which returns 0
    although there is no such process, the next process that is forked is
    marked killed from its birth. *)
Theorem kill_zero_marks_unused :
  exists s, kill_zero_run k_run = Ret 2 s /\
    (exists p, ptable k_run !! 1%nat = Some p /\ state p = UNUSED) /\
    exists p, ptable s !! 1%nat = Some p /\ pid p = 2 /\ state p = RUNNABLE /\ killed p = true.
Proof.
  exists (st_of k0 (kill_zero_run k_run)). split; [vm_compute; reflexivity |]. split.
  - eexists. split; vm_compute; reflexivity.
  - eexists. split; [vm_compute; reflexivity |]. split_and!; vm_compute; reflexivity.
Qed.
