(* ===== verification/Pipe.v ===== *)
(** * Pipe: project3/xv6-modified/pipe.c, the kernel's pipes

    A pipe is a ring of [PIPESIZE] bytes with two [uint] counters that wrap
    around at 2^32.  The pipe lock is held from the entry of a call (or its
    wakeup) to the next [sleep] or to its return, so such a stretch is atomic:
    it is one definition here, which says how it ends ([finished] or
    [sleeping_at]) and which channels it woke.  [pstep] interleaves the
    stretches of any number of processes. *)

From Stdlib Require Import ZArith Lia.
From stdpp Require Import base numbers strings option list.
From S2P Require Import Prelude.

Definition PIPESIZE : Z := 512.

Record pipe := mk_pipe {
  data : list Z;
  nread : Z;
  nwrite : Z;
  readopen : bool;
  writeopen : bool
}.

(** [&p->nread] and [&p->nwrite], the channels readers and writers sleep on. *)
Inductive pchan := ch_nread | ch_nwrite.

#[export] Instance pchan_eq_dec : EqDecision pchan.
Proof. solve_decision. Defined.

(** The pipe, the channels woken since the lock was taken, and whether the
    page of the pipe was given back to [kfree]. *)
Record psec := mk_psec { pi : pipe; woken : list pchan; freed : bool }.

Definition with_pi (p : pipe) (s : psec) : psec := mk_psec p (woken s) (freed s).
Definition wakeup_chan (c : pchan) : M psec unit :=
  modify (fun s => mk_psec (pi s) (c :: woken s) (freed s)).

(** How an atomic stretch of a call ends. *)
Inductive ending := finished (r : Z) | sleeping_at (i : Z) (c : pchan).

(** The part of [pipealloc] that initialises the pipe; the page comes from
    [kalloc] with whatever bytes it holds. *)
Definition pipe_init (page : list Z) : pipe := mk_pipe page 0 0 true true.

Definition pipeclose (writable : bool) : M psec unit :=
  p ← gets pi;
  (if writable then
     modify (with_pi (mk_pipe (data p) (nread p) (nwrite p) (readopen p) false));;
     wakeup_chan ch_nread
   else
     modify (with_pi (mk_pipe (data p) (nread p) (nwrite p) false (writeopen p)));;
     wakeup_chan ch_nwrite);;
  p ← gets pi;
  if negb (readopen p) && negb (writeopen p) then
    modify (fun s => mk_psec (pi s) (woken s) true)
  else skip.

Definition full (p : pipe) : bool := nwrite p =? u32 (nread p + PIPESIZE).

(** [p->data[p->nwrite++ % PIPESIZE] = b] *)
Definition put_byte (b : Z) (p : pipe) : pipe :=
  mk_pipe (<[Z.to_nat (nwrite p mod PIPESIZE) := b]> (data p))
    (nread p) (u32 (nwrite p + 1)) (readopen p) (writeopen p).

(** The loop of [pipewrite] from index [i], with [rest] the bytes
    [addr[i..n-1]] still to be written. *)
Fixpoint pipewrite_loop (killed : bool) (n i : Z) (rest : list Z) : M psec ending :=
  match rest with
  | [] => wakeup_chan ch_nread;; mret (finished n)
  | b :: rest' =>
      p ← gets pi;
      if full p then
        if negb (readopen p) || killed then mret (finished (-1))
        else wakeup_chan ch_nread;; mret (sleeping_at i ch_nwrite)
      else
        modify (with_pi (put_byte b p));;
        pipewrite_loop killed n (i + 1) rest'
  end.

(** [pipewrite], from its entry ([i = 0]) or from the wakeup at index [i]. *)
Definition pipewrite (killed : bool) (addr : list Z) (n i : Z) : M psec ending :=
  pipewrite_loop killed n i (take (Z.to_nat (n - i)) (drop (Z.to_nat i) addr)).

(** [addr[i] = p->data[p->nread++ % PIPESIZE]] *)
Definition head_byte (p : pipe) : Z := nth (Z.to_nat (nread p mod PIPESIZE)) (data p) 0.
Definition get_byte (p : pipe) : pipe :=
  mk_pipe (data p) (u32 (nread p + 1)) (nwrite p) (readopen p) (writeopen p).

Fixpoint piperead_copy (k : nat) : M psec (list Z) :=
  match k with
  | O => mret []
  | S k' =>
      p ← gets pi;
      if nread p =? nwrite p then mret []
      else
        modify (with_pi (get_byte p));;
        bs ← piperead_copy k';
        mret (head_byte p :: bs)
  end.

(** [piperead], from its entry or from a wakeup (both test the loop condition
    first), with the bytes it stores in [addr]. *)
Definition piperead (killed : bool) (n : Z) : M psec (ending * list Z) :=
  p ← gets pi;
  if (nread p =? nwrite p) && writeopen p then
    if killed then mret (finished (-1), [])
    else mret (sleeping_at 0 ch_nread, [])
  else
    bs ← piperead_copy (Z.to_nat n);
    wakeup_chan ch_nwrite;;
    mret (finished (Z.of_nat (length bs)), bs).

(** ** The bytes in a pipe *)
Definition used (p : pipe) : nat := Z.to_nat (u32 (nwrite p - nread p)).
Definition nth_byte (p : pipe) (k : nat) : Z :=
  nth (Z.to_nat ((nread p + Z.of_nat k) mod PIPESIZE)) (data p) 0.
Definition contents (p : pipe) : list Z := map (nth_byte p) (seq 0 (used p)).

Record pipe_ok (p : pipe) : Prop := {
  ok_data : length (data p) = 512%nat;
  ok_nread : is_u32 (nread p);
  ok_nwrite : is_u32 (nwrite p);
  ok_used : (used p <= 512)%nat
}.

Lemma pipe_init_ok page : length page = 512%nat -> pipe_ok (pipe_init page) /\ contents (pipe_init page) = [].
Proof. intros H. split; [| done]. split; cbn; unfold is_u32; [exact H | lia | lia |].
  change (used (pipe_init page)) with 0%nat. lia.
Qed.

(** Counters and offsets modulo the ring. *)
Lemma u32_mod_ring z : u32 z mod PIPESIZE = z mod PIPESIZE.
Proof.
  unfold u32, PIPESIZE. rewrite Z.mod_mod_divide; [done |]. exists (2 ^ 23). lia.
Qed.

Lemma length_contents p : length (contents p) = used p.
Proof. unfold contents. by rewrite length_map, length_seq. Qed.

Lemma u32_diff_zero a b : is_u32 a -> is_u32 b -> u32 (a - b) = 0 -> a = b.
Proof. unfold is_u32, u32. intros. pose proof (Z.div_mod (a - b) (2 ^ 32)). nia. Qed.

Lemma empty_iff p : pipe_ok p -> (nread p =? nwrite p) = true <-> contents p = [].
Proof.
  intros [_ Hr Hw Hu]. rewrite Z.eqb_eq. split; intros H.
  - apply length_zero_iff_nil. rewrite length_contents. unfold used. by rewrite H, Z.sub_diag.
  - assert (Hz : used p = 0%nat) by by rewrite <- length_contents, H.
    unfold used in Hz. pose proof (u32_range (nwrite p - nread p)).
    symmetry. apply u32_diff_zero; [done.. | lia].
Qed.

Lemma full_iff p : pipe_ok p -> full p = true <-> used p = 512%nat.
Proof.
  intros [_ Hr Hw Hu]. unfold full, used in *. rewrite Z.eqb_eq. unfold is_u32, PIPESIZE in *. split.
  - intros ->. rewrite u32_sub_l. replace (nread p + 512 - nread p) with 512 by lia. done.
  - intros H. rewrite <- (u32_small (nwrite p)) by lia.
    replace (nwrite p) with (nread p + (nwrite p - nread p)) by lia.
    rewrite <- u32_add_r. f_equal. f_equal. pose proof (u32_range (nwrite p - nread p)). lia.
Qed.

Lemma used_put b p : pipe_ok p -> full p = false -> used (put_byte b p) = S (used p).
Proof.
  intros Hok Hf. assert (Hn : used p <> 512%nat).
  { intros H. apply full_iff in H; [congruence | done]. }
  destruct Hok as [_ Hr Hw Hu]. unfold used in *. cbn. rewrite u32_sub_l.
  replace (nwrite p + 1 - nread p) with (1 + (nwrite p - nread p)) by lia.
  rewrite <- u32_add_r. pose proof (u32_range (nwrite p - nread p)). rewrite u32_small by lia. lia.
Qed.

Lemma used_get p : pipe_ok p -> (0 < used p)%nat -> S (used (get_byte p)) = used p.
Proof.
  intros [_ Hr Hw Hu] Hp. unfold used in *. cbn. rewrite u32_sub_r.
  replace (nwrite p - (nread p + 1)) with (-1 + (nwrite p - nread p)) by lia.
  rewrite <- u32_add_r. pose proof (u32_range (nwrite p - nread p)). rewrite (u32_small (-1 + _)) by lia. lia.
Qed.

Lemma put_byte_ok b p : pipe_ok p -> full p = false ->
  pipe_ok (put_byte b p) /\ contents (put_byte b p) = contents p ++ [b].
Proof.
  intros Hok Hf. pose proof (used_put b p Hok Hf) as HU.
  assert (Hn : used p <> 512%nat) by (intros H; apply full_iff in H; [congruence | done]).
  destruct Hok as [Hd Hr Hw Hu]. split.
  { split; cbn; [by rewrite length_insert | done | apply u32_range |]. rewrite HU. lia. }
  assert (Hwr : nwrite p mod 512 = (nread p + Z.of_nat (used p)) mod 512).
  { change 512 with PIPESIZE. rewrite <- u32_mod_ring, <- (u32_mod_ring (nread p + _)). f_equal.
    unfold used. rewrite Z2Nat.id by (apply u32_range). rewrite u32_add_r.
    f_equal. lia. }
  apply list_eq. intros k. destruct (decide (k < S (used p))%nat) as [Hk |].
  2:{ rewrite !lookup_ge_None_2; [done | rewrite length_app, length_contents; cbn; lia |].
      rewrite length_contents, HU. lia. }
  unfold contents at 1. rewrite HU, list_lookup_fmap, lookup_seq_lt by lia. cbn [fmap option_fmap option_map].
  unfold nth_byte. cbn [nread data put_byte]. unfold PIPESIZE in *.
  destruct (decide (k = used p)) as [-> |].
  - rewrite lookup_app_r by (rewrite length_contents; lia). rewrite length_contents, Nat.sub_diag. cbn.
    rewrite Hwr. f_equal. apply nth_lookup_Some. apply list_lookup_insert_eq.
    rewrite Hd. pose proof (Z.mod_pos_bound (nread p + Z.of_nat (used p)) 512). lia.
  - rewrite lookup_app_l by (rewrite length_contents; lia).
    unfold contents. rewrite list_lookup_fmap, lookup_seq_lt by lia. cbn. f_equal. unfold nth_byte, PIPESIZE.
    rewrite !nth_lookup. rewrite list_lookup_insert_ne; [done |]. rewrite Hwr. intros He.
    apply Z2Nat.inj in He; [| apply Z.mod_pos_bound; lia..].
    apply (f_equal (fun x => (x - nread p) mod 512)) in He.
    rewrite !Zminus_mod_idemp_l in He.
    replace (nread p + Z.of_nat (used p) - nread p) with (Z.of_nat (used p)) in He by lia.
    replace (nread p + Z.of_nat k - nread p) with (Z.of_nat k) in He by lia.
    rewrite !Z.mod_small in He by lia. lia.
Qed.

Lemma get_byte_ok p : pipe_ok p -> (nread p =? nwrite p) = false ->
  pipe_ok (get_byte p) /\ contents p = head_byte p :: contents (get_byte p).
Proof.
  intros Hok Hne. assert (Hp : (0 < used p)%nat).
  { rewrite <- length_contents. destruct (contents p) eqn:E; [| cbn; lia].
    apply empty_iff in E; [congruence | done]. }
  pose proof (used_get p Hok Hp) as HU. destruct Hok as [Hd Hr Hw Hu]. split.
  { split; cbn; [done | apply u32_range | done | lia]. }
  unfold contents. rewrite <- HU. cbn [seq map]. f_equal.
  - unfold nth_byte, head_byte. do 3 f_equal. lia.
  - rewrite <- seq_shift, map_map. apply map_ext. intros k. unfold nth_byte. cbn [nread data get_byte].
    do 2 f_equal. rewrite <- (Zplus_mod_idemp_l (u32 _)), u32_mod_ring, Zplus_mod_idemp_l. f_equal. lia.
Qed.

(** ** One stretch of a call *)

Lemma pipewrite_loop_ok killed n rest i s : pipe_ok (pi s) ->
  exists e s' k, pipewrite_loop killed n i rest s = Ret e s' /\ pipe_ok (pi s') /\
    (k <= length rest)%nat /\ contents (pi s') = contents (pi s) ++ take k rest /\
    readopen (pi s') = readopen (pi s) /\ writeopen (pi s') = writeopen (pi s) /\
    nwrite (pi s') = u32 (nwrite (pi s) + Z.of_nat k) /\
    match e with
    | finished r =>
        (r = n /\ k = length rest /\ woken s' = ch_nread :: woken s) \/
        (r = -1 /\ (k < length rest)%nat /\ full (pi s') = true /\
         (readopen (pi s) = false \/ killed = true) /\ woken s' = woken s)
    | sleeping_at j c =>
        c = ch_nwrite /\ j = i + Z.of_nat k /\ (k < length rest)%nat /\ full (pi s') = true /\
        readopen (pi s) = true /\ woken s' = ch_nread :: woken s
    end.
Proof.
  revert i s. induction rest as [| b rest IH]; intros i s Hok; cbn [pipewrite_loop].
  { eexists _, _, 0%nat. rewrite take_nil, app_nil_r, Z.add_0_r.
    split; [done |]. cbn [pi woken]. rewrite (u32_small (nwrite _)) by apply Hok. split_and!; auto. }
  erewrite bind_ret by done. destruct (full (pi s)) eqn:Hf.
  { destruct (readopen (pi s)) eqn:Hro; cbn [negb orb]; [destruct killed |];
      eexists _, _, 0%nat; (split; [done |]); rewrite Z.add_0_r; cbn;
      rewrite app_nil_r, (u32_small (nwrite _)) by apply Hok; split_and!; auto; try lia;
      right; split_and!; auto; lia. }
  erewrite bind_ret by done.
  destruct (put_byte_ok b (pi s) Hok Hf) as [Hok1 Hc1].
  destruct (IH (i + 1) (with_pi (put_byte b (pi s)) s) Hok1)
    as (e & s' & k & He & Hok' & Hk & Hc & Hr & Hw & Hn & Hm).
  exists e, s', (S k). cbn [pi with_pi woken put_byte readopen writeopen nwrite] in *.
  split; [exact He |]. cbn [length take]. split_and!; try done; [lia | | |].
  - rewrite Hc, Hc1. by rewrite <- (assoc_L (++)).
  - rewrite Hn, u32_add_l. f_equal. lia.
  - destruct e as [r | j c].
    + destruct Hm as [(-> & -> & ?) | (-> & ? & ? & ? & ?)]; [left | right]; split_and!; auto; lia.
    + destruct Hm as (-> & -> & ? & ? & ? & ?). split_and!; auto; lia.
Qed.

Lemma piperead_copy_ok k s : pipe_ok (pi s) ->
  exists bs s', piperead_copy k s = Ret bs s' /\ pipe_ok (pi s') /\
    contents (pi s) = bs ++ contents (pi s') /\ bs = take k (contents (pi s)) /\
    readopen (pi s') = readopen (pi s) /\ writeopen (pi s') = writeopen (pi s) /\
    nwrite (pi s') = nwrite (pi s) /\ woken s' = woken s.
Proof.
  revert s. induction k as [| k IH]; intros s Hok; cbn [piperead_copy]; [by exists [], s |].
  erewrite bind_ret by done. destruct (nread (pi s) =? nwrite (pi s)) eqn:He.
  { exists [], s. apply (empty_iff _ Hok) in He. by rewrite He. }
  destruct (get_byte_ok (pi s) Hok He) as [Hok1 Hc1]. erewrite bind_ret by done.
  destruct (IH (with_pi (get_byte (pi s)) s) Hok1) as (bs & s' & E & Hok' & Hc & Hb & ? & ? & ? & ?).
  cbn [pi with_pi] in *. erewrite bind_ret by exact E. eexists _, s'. split; [done |].
  rewrite Hc1. cbn [take app]. split_and!; try done; by f_equal.
Qed.

(** ** Any number of readers and writers *)

(** What a process does with the pipe; [asleep] is its state SLEEPING on
    [&p->nwrite] (a writer) or [&p->nread] (a reader). *)
Inductive task :=
| idle
| writing (addr : list Z) (n i : Z) (asleep : bool)
| reading (n : Z) (asleep : bool).

Definition wake_task (cs : list pchan) (x : task * bool) : task * bool :=
  match x.1 with
  | writing addr n i true => (writing addr n i (negb (bool_decide (ch_nwrite ∈ cs))), x.2)
  | reading n true => (reading n (negb (bool_decide (ch_nread ∈ cs))), x.2)
  | _ => x
  end.
Definition awake (t : task) : task :=
  match t with
  | writing addr n i _ => writing addr n i false
  | reading n _ => reading n false
  | idle => idle
  end.
Definition is_writing (t : task) : bool := match t with writing _ _ _ _ => true | _ => false end.
Definition is_reading (t : task) : bool := match t with reading _ _ => true | _ => false end.

(** The pipe, what each process does with it and whether it was killed, and
    the bytes written and read so far. *)
Record psys := mk_psys {
  sp : pipe;
  tasks : list (task * bool);
  sent : list Z;
  received : list Z
}.

Definition write_task (addr : list Z) (n : Z) (e : ending) : task :=
  match e with finished _ => idle | sleeping_at i _ => writing addr n i true end.
Definition read_task (n : Z) (e : ending) : task :=
  match e with finished _ => idle | sleeping_at _ _ => reading n true end.

(** The bytes a stretch of [pipewrite] from index [i] put into the pipe: as
    many as [nwrite] advanced. *)
Definition moved (p p' : pipe) (addr : list Z) (i : Z) : list Z :=
  take (Z.to_nat (u32 (nwrite p' - nwrite p))) (drop (Z.to_nat i) addr).

(** A call needs an open end, and an end is closed when no call uses it: both
    are the file layer's reference counts. *)
Inductive pstep : psys -> psys -> Prop :=
| p_write_call t kl addr s :
    tasks s !! t = Some (idle, kl) -> writeopen (sp s) = true ->
    Z.of_nat (length addr) < 2 ^ 31 ->
    pstep s (mk_psys (sp s) (<[t := (writing addr (Z.of_nat (length addr)) 0 false, kl)]> (tasks s))
               (sent s) (received s))
| p_write_run t kl addr n i s e s1 :
    tasks s !! t = Some (writing addr n i false, kl) ->
    pipewrite kl addr n i (mk_psec (sp s) [] false) = Ret e s1 ->
    pstep s (mk_psys (pi s1) (<[t := (write_task addr n e, kl)]> (wake_task (woken s1) <$> tasks s))
               (sent s ++ moved (sp s) (pi s1) addr i) (received s))
| p_read_call t kl n s :
    tasks s !! t = Some (idle, kl) -> readopen (sp s) = true ->
    pstep s (mk_psys (sp s) (<[t := (reading n false, kl)]> (tasks s)) (sent s) (received s))
| p_read_run t kl n s e bs s1 :
    tasks s !! t = Some (reading n false, kl) ->
    piperead kl n (mk_psec (sp s) [] false) = Ret (e, bs) s1 ->
    pstep s (mk_psys (pi s1) (<[t := (read_task n e, kl)]> (wake_task (woken s1) <$> tasks s))
               (sent s) (received s ++ bs))
| p_close w s s1 :
    Forall (fun x => (if w : bool then is_writing else is_reading) x.1 = false) (tasks s) ->
    pipeclose w (mk_psec (sp s) [] false) = Ret tt s1 ->
    pstep s (mk_psys (pi s1) (wake_task (woken s1) <$> tasks s) (sent s) (received s))
| p_kill t x kl s :
    tasks s !! t = Some (x, kl) ->
    pstep s (mk_psys (sp s) (<[t := (awake x, true)]> (tasks s)) (sent s) (received s)).

Inductive preach : psys -> Prop :=
| pr_init page k : length page = 512%nat ->
    preach (mk_psys (pipe_init page) (replicate k (idle, false)) [] [])
| pr_step s s' : preach s -> pstep s s' -> preach s'.

(** ** The first-in first-out invariant *)
Definition fifo_inv (s : psys) : Prop :=
  pipe_ok (sp s) /\ sent s = received s ++ contents (sp s).

Lemma moved_eq p p' addr i k :
  pipe_ok p -> pipe_ok p' -> (k <= 512)%nat ->
  nwrite p' = u32 (nwrite p + Z.of_nat k) -> moved p p' addr i = take k (drop (Z.to_nat i) addr).
Proof.
  intros [_ _ Hw _] _ Hk Hn. unfold moved. rewrite Hn, u32_sub_l.
  replace (nwrite p + Z.of_nat k - nwrite p) with (Z.of_nat k) by lia.
  by rewrite u32_small, Nat2Z.id by lia.
Qed.

Lemma pipewrite_ok kl addr n i p : pipe_ok p ->
  exists e s1 k, pipewrite kl addr n i (mk_psec p [] false) = Ret e s1 /\ pipe_ok (pi s1) /\
    contents (pi s1) = contents p ++ moved p (pi s1) addr i /\
    readopen (pi s1) = readopen p /\ writeopen (pi s1) = writeopen p /\
    match e with
    | finished r =>
        (r = n /\ woken s1 = [ch_nread]) \/
        (r = -1 /\ full (pi s1) = true /\ (readopen p = false \/ kl = true) /\ woken s1 = [])
    | sleeping_at j c =>
        c = ch_nwrite /\ j = i + Z.of_nat k /\ full (pi s1) = true /\
        readopen p = true /\ woken s1 = [ch_nread]
    end.
Proof.
  intros Hok. unfold pipewrite. set (rest := take (Z.to_nat (n - i)) (drop (Z.to_nat i) addr)).
  destruct (pipewrite_loop_ok kl n rest i (mk_psec p [] false) Hok)
    as (e & s1 & k & E & Hok1 & Hk & Hc & Hr & Hw & Hn & Hm). cbn [pi woken] in *.
  exists e, s1, k. split; [done |]. split; [done |].
  assert (Hk5 : (k <= 512)%nat).
  { pose proof (ok_used _ Hok1) as H1. rewrite <- length_contents, Hc, length_app, length_take in H1. lia. }
  split_and!; try done.
  - rewrite Hc. f_equal. rewrite (moved_eq p (pi s1) addr i k) by done. unfold rest.
    rewrite take_take. f_equal. unfold rest in Hk. rewrite length_take in Hk. lia.
  - destruct e; [destruct Hm as [(? & ? & ?) | (? & ? & ? & ? & ?)]; [left | right] |
      destruct Hm as (? & ? & ? & ? & ? & ?)]; by split_and!.
Qed.

Lemma piperead_ok kl n p : pipe_ok p ->
  exists e bs s1, piperead kl n (mk_psec p [] false) = Ret (e, bs) s1 /\ pipe_ok (pi s1) /\
    contents p = bs ++ contents (pi s1) /\
    readopen (pi s1) = readopen p /\ writeopen (pi s1) = writeopen p /\
    match e with
    | finished r =>
        (r = Z.of_nat (length bs) /\ bs = take (Z.to_nat n) (contents p) /\ woken s1 = [ch_nwrite] /\
         (contents p = [] -> writeopen p = false)) \/
        (r = -1 /\ kl = true /\ bs = [] /\ pi s1 = p /\ woken s1 = [])
    | sleeping_at _ c =>
        c = ch_nread /\ bs = [] /\ contents p = [] /\ writeopen p = true /\ pi s1 = p /\ woken s1 = []
    end.
Proof.
  intros Hok. unfold piperead. erewrite bind_ret by done. cbn [pi].
  destruct (nread p =? nwrite p) eqn:He; cbn [andb]; [destruct (writeopen p) eqn:Hwo |].
  - apply (empty_iff _ Hok) in He. destruct kl; eexists _, [], _; (split; [done |]); cbn; rewrite ?He; split_and!; auto.
    right. by split_and!.
  - apply (empty_iff _ Hok) in He.
    destruct (piperead_copy_ok (Z.to_nat n) (mk_psec p [] false) Hok) as (bs & s' & E & H1 & H2 & H3 & H4 & H5 & H6 & H7).
    erewrite bind_ret by exact E. eexists _, bs, _. split; [done |]. cbn in *. rewrite H7.
    split_and!; try done; [congruence |]. left. by split_and!.
  - destruct (piperead_copy_ok (Z.to_nat n) (mk_psec p [] false) Hok) as (bs & s' & E & H1 & H2 & H3 & H4 & H5 & H6 & H7).
    erewrite bind_ret by exact E. eexists _, bs, _. split; [done |]. cbn in *. rewrite H7.
    split_and!; try done. left. split_and!; try done. intros H0. apply (empty_iff _ Hok) in H0. congruence.
Qed.

Lemma pipeclose_ok w p : pipe_ok p ->
  exists s1, pipeclose w (mk_psec p [] false) = Ret tt s1 /\ pipe_ok (pi s1) /\
    contents (pi s1) = contents p /\ full (pi s1) = full p /\
    readopen (pi s1) = readopen p && w /\ writeopen (pi s1) = writeopen p && negb w /\
    woken s1 = [if w then ch_nread else ch_nwrite].
Proof.
  destruct p as [d nr nw ro wo]. intros [H1 H2 H3 H4].
  destruct w, ro, wo; (eexists; split; [reflexivity |]); (split; [split; done |]); by split_and!.
Qed.

Lemma fifo_step s s' : fifo_inv s -> pstep s s' -> fifo_inv s'.
Proof.
  intros [Hok Hf] Hs. destruct Hs as [| t kl addr n i s e s1 _ E | | t kl n s e bs s1 _ E | w s s1 _ E |]; try done.
  - destruct (pipewrite_ok kl addr n i (sp s) Hok) as (e' & s1' & k & E' & Hok1 & Hc & _).
    rewrite E' in E. injection E as <- <-. split; cbn; [done |].
    rewrite Hf, Hc. by rewrite (assoc_L (++)).
  - destruct (piperead_ok kl n (sp s) Hok) as (e' & bs' & s1' & E' & Hok1 & Hc & _).
    rewrite E' in E. injection E as <- <- <-. split; cbn; [done |].
    rewrite Hf, Hc. by rewrite (assoc_L (++)).
  - destruct (pipeclose_ok w (sp s) Hok) as (s1' & E' & Hok1 & Hc & _).
    rewrite E' in E. injection E as <-. split; cbn; [done |]. by rewrite Hc.
Qed.

Lemma preach_fifo s : preach s -> fifo_inv s.
Proof.
  induction 1 as [page k Hp | s s' _ IH Hs]; [| by eapply fifo_step].
  destruct (pipe_init_ok page Hp) as [H1 H2]. split; cbn; [done | by rewrite H2].
Qed.

(** C7. Pipes deliver bytes in order, none lost, none invented: whatever the
    interleaving of readers, writers, kills and closes, the bytes received so
    far followed by the bytes in the ring are exactly the bytes written so far,
    and the ring never holds more than [PIPESIZE] bytes, also when the [uint]
    counters wrap around. *)
Theorem pipe_fifo (s : psys) (Hr : preach s) :
  sent s = received s ++ contents (sp s) /\ Z.of_nat (length (contents (sp s))) <= PIPESIZE.
Proof.
  destruct (preach_fifo s Hr) as [Hok Hf]. split; [done |].
  rewrite length_contents. pose proof (ok_used _ Hok). unfold PIPESIZE. lia.
Qed.

(** ** No lost wakeups *)

(** A sleeping reader finds nothing to read, a sleeping writer finds no room. *)
Definition no_lost_wakeup (s : psys) : Prop :=
  (forall t n kl, tasks s !! t = Some (reading n true, kl) ->
     contents (sp s) = [] /\ writeopen (sp s) = true) /\
  (forall t addr n i kl, tasks s !! t = Some (writing addr n i true, kl) ->
     full (sp s) = true /\ readopen (sp s) = true).

Definition not_killed (s : psys) : Prop := Forall (fun x => x.2 = false) (tasks s).

Record wait_inv (s : psys) : Prop := {
  wi_ok : pipe_ok (sp s);
  wi_read : readopen (sp s) = false -> Forall (fun x => is_reading x.1 = false) (tasks s);
  wi_wait : not_killed s -> no_lost_wakeup s
}.

Lemma wake_task_killed cs x : (wake_task cs x).2 = x.2.
Proof. destruct x as [[| a n i [] | n []] kl]; done. Qed.

Lemma wake_task_reading cs x : is_reading (wake_task cs x).1 = is_reading x.1.
Proof. destruct x as [[| a n i [] | n []] kl]; done. Qed.

(** A task that is still asleep after a wakeup was asleep before it, on a
    channel that was not woken. *)
Lemma wake_asleep_reading cs x n kl :
  wake_task cs x = (reading n true, kl) -> x = (reading n true, kl) /\ ch_nread ∉ cs.
Proof.
  destruct x as [[| a m i [] | m []] k]; cbn; try done.
  intros [= <- Hb <-]. apply negb_true_iff, bool_decide_eq_false in Hb. done.
Qed.

Lemma wake_asleep_writing cs x addr n i kl :
  wake_task cs x = (writing addr n i true, kl) -> x = (writing addr n i true, kl) /\ ch_nwrite ∉ cs.
Proof.
  destruct x as [[| a m j [] | m []] k]; cbn; try done.
  intros [= <- <- <- Hb <-]. apply negb_true_iff, bool_decide_eq_false in Hb. done.
Qed.

Lemma update_lookup {A} (f : A -> A) (l : list A) t y j x :
  <[t := y]> (f <$> l) !! j = Some x ->
  (j = t /\ x = y) \/ exists x0, l !! j = Some x0 /\ f x0 = x.
Proof.
  intros H. destruct (decide (j = t)) as [-> |].
  - left. apply list_lookup_insert_Some in H as [(_ & -> & _) | [? _]]; done.
  - right. rewrite list_lookup_insert_ne in H by done. rewrite list_lookup_fmap in H.
    destruct (l !! j) as [x0 |] eqn:E; [| done]. exists x0. by injection H.
Qed.

Lemma not_killed_update (t : nat) (x z : task) (kl : bool) (f : task * bool -> task * bool) s :
  tasks s !! t = Some (x, kl) -> (forall y, (f y).2 = y.2) ->
  Forall (fun x : task * bool => x.2 = false) (<[t := (z, kl)]> (f <$> tasks s)) ->
  not_killed s /\ kl = false.
Proof.
  intros Ht Hf H. rewrite Forall_lookup in H.
  assert (Hl : kl = false).
  { apply (H t (z, kl)). apply list_lookup_insert_eq. rewrite length_fmap. by eapply lookup_lt_Some. }
  split; [| done]. apply Forall_lookup. intros j y Hj. destruct (decide (j = t)) as [-> |].
  - by assert (y = (x, kl)) as -> by congruence.
  - rewrite <- Hf. apply (H j (f y)). rewrite list_lookup_insert_ne by done. by rewrite list_lookup_fmap, Hj.
Qed.

Lemma full_grows p p' m : pipe_ok p -> pipe_ok p' -> contents p' = contents p ++ m ->
  full p = true -> full p' = true.
Proof.
  intros H H' Hc Hf. apply full_iff in Hf; [| done]. apply full_iff; [done |].
  pose proof (ok_used _ H'). rewrite <- !length_contents in *. rewrite Hc, length_app in *. lia.
Qed.

Lemma wait_write_run t kl addr n i s e s1 :
  wait_inv s -> tasks s !! t = Some (writing addr n i false, kl) ->
  pipewrite kl addr n i (mk_psec (sp s) [] false) = Ret e s1 ->
  wait_inv (mk_psys (pi s1) (<[t := (write_task addr n e, kl)]> (wake_task (woken s1) <$> tasks s))
              (sent s ++ moved (sp s) (pi s1) addr i) (received s)).
Proof.
  intros [Hok Hrd Hw] Ht E.
  destruct (pipewrite_ok kl addr n i (sp s) Hok) as (e' & s1' & k & E' & Hok1 & Hc & Hr & Hwo & Hm).
  rewrite E' in E. injection E as <- <-. split; cbn [sp tasks]; [done | |].
  - intros H0. rewrite Hr in H0. specialize (Hrd H0). apply Forall_insert; [| by destruct e'].
    apply Forall_fmap. eapply Forall_impl; [exact Hrd |]. intros x Hx. by cbn; rewrite wake_task_reading.
  - intros Hk. destruct (not_killed_update _ _ _ _ _ _ Ht (wake_task_killed _) Hk) as [Hns ->].
    destruct (Hw Hns) as [Hlr Hlw]. split; cbn [sp tasks].
    + intros j m kl0 Hj. apply update_lookup in Hj as [[_ Hj] | (x0 & Hx & Hwk)]; [by destruct e' |].
      apply wake_asleep_reading in Hwk as [-> Hnin].
      destruct e' as [r | j0 c].
      * destruct Hm as [(_ & Hwk) | (_ & _ & [Hro | ?] & _)]; [rewrite Hwk in Hnin; by destruct Hnin; left | | done].
        by pose proof (Forall_lookup_1 _ _ _ _ (Hrd Hro) Hx).
      * destruct Hm as (_ & _ & _ & _ & Hwk). rewrite Hwk in Hnin. by destruct Hnin; left.
    + intros j a m q kl0 Hj. rewrite Hr. apply update_lookup in Hj as [[_ Hj] | (x0 & Hx & Hwk)].
      * destruct e' as [r | j0 c]; [done |]. destruct Hm as (_ & _ & Hf & Hro & _). done.
      * apply wake_asleep_writing in Hwk as [-> _]. destruct (Hlw _ _ _ _ _ Hx) as [Hf Hro].
        split; [by apply (full_grows _ _ _ Hok Hok1 Hc) | done].
Qed.

Lemma wait_read_run t kl n s e bs s1 :
  wait_inv s -> tasks s !! t = Some (reading n false, kl) ->
  piperead kl n (mk_psec (sp s) [] false) = Ret (e, bs) s1 ->
  wait_inv (mk_psys (pi s1) (<[t := (read_task n e, kl)]> (wake_task (woken s1) <$> tasks s))
              (sent s) (received s ++ bs)).
Proof.
  intros [Hok Hrd Hw] Ht E.
  destruct (piperead_ok kl n (sp s) Hok) as (e' & bs' & s1' & E' & Hok1 & Hc & Hr & Hwo & Hm).
  rewrite E' in E. injection E as <- <- <-. split; cbn [sp tasks]; [done | |].
  - intros H0. rewrite Hr in H0. by pose proof (Forall_lookup_1 _ _ _ _ (Hrd H0) Ht).
  - intros Hk. destruct (not_killed_update _ _ _ _ _ _ Ht (wake_task_killed _) Hk) as [Hns ->].
    destruct (Hw Hns) as [Hlr Hlw]. split; cbn [sp tasks].
    + intros j m kl0 Hj. rewrite Hwo. apply update_lookup in Hj as [[_ Hj] | (x0 & Hx & Hwk)].
      * destruct e' as [r | j0 c]; [done |]. destruct Hm as (_ & _ & H1 & H2 & -> & _). done.
      * apply wake_asleep_reading in Hwk as [-> _]. destruct (Hlr _ _ _ Hx) as [H1 H2]. split; [| done].
        rewrite H1 in Hc. symmetry in Hc. by apply app_eq_nil in Hc as [_ ?].
    + intros j a m q kl0 Hj. apply update_lookup in Hj as [[_ Hj] | (x0 & Hx & Hwk)]; [by destruct e' |].
      apply wake_asleep_writing in Hwk as [-> Hnin]. destruct (Hlw _ _ _ _ _ Hx) as [Hf Hro].
      destruct e' as [r | j0 c].
      * destruct Hm as [(_ & _ & Hwk & _) | (_ & ? & _)]; [| done]. rewrite Hwk in Hnin. by destruct Hnin; left.
      * destruct Hm as (_ & _ & _ & _ & -> & _). done.
Qed.

Lemma wait_close w s s1 :
  wait_inv s -> Forall (fun x => (if w : bool then is_writing else is_reading) x.1 = false) (tasks s) ->
  pipeclose w (mk_psec (sp s) [] false) = Ret tt s1 ->
  wait_inv (mk_psys (pi s1) (wake_task (woken s1) <$> tasks s) (sent s) (received s)).
Proof.
  intros [Hok Hrd Hw] Hg E.
  destruct (pipeclose_ok w (sp s) Hok) as (s1' & E' & Hok1 & Hc & Hf & Hro & Hwo & Hwk).
  rewrite E' in E. injection E as <-. rewrite Forall_lookup in Hg. split; cbn [sp tasks]; [done | |].
  - intros H0. rewrite Hro in H0. apply Forall_fmap, Forall_lookup. intros j x Hx. cbn. rewrite wake_task_reading.
    destruct w; [| by apply (Hg j x)]. rewrite andb_true_r in H0. by apply (Forall_lookup_1 _ _ _ _ (Hrd H0) Hx).
  - intros Hk. assert (Hns : not_killed s).
    { unfold not_killed in *. cbn in Hk. apply Forall_fmap in Hk. eapply Forall_impl; [exact Hk |].
      intros x. cbn. by rewrite wake_task_killed. }
    destruct (Hw Hns) as [Hlr Hlw]. split; cbn [sp tasks]; rewrite Hwk.
    + intros j m kl0 Hj. rewrite list_lookup_fmap in Hj. apply fmap_Some in Hj as (x0 & Hx & Hw1).
      symmetry in Hw1. apply wake_asleep_reading in Hw1 as [-> Hnin]. specialize (Hg _ _ Hx). rewrite Hc, Hwo.
      destruct w; [by destruct Hnin; left | done].
    + intros j a m q kl0 Hj. rewrite list_lookup_fmap in Hj. apply fmap_Some in Hj as (x0 & Hx & Hw1).
      symmetry in Hw1. apply wake_asleep_writing in Hw1 as [-> Hnin]. specialize (Hg _ _ Hx).
      destruct w; [done | by destruct Hnin; left].
Qed.

(** A task that changes without waking anyone and is not asleep afterwards. *)
Lemma wait_local t x y kl s :
  wait_inv s -> tasks s !! t = Some (x, kl) -> awake y = y ->
  (is_reading y = true -> readopen (sp s) = true) ->
  wait_inv (mk_psys (sp s) (<[t := (y, kl)]> (tasks s)) (sent s) (received s)).
Proof.
  intros [Hok Hrd Hw] Ht Hy Hro. split; cbn [sp tasks]; [done | |].
  - intros H0. apply Forall_insert; [by apply Hrd |]. cbn. destruct (is_reading y); [| done]. by rewrite Hro in H0.
  - intros Hk. destruct (not_killed_update t x y kl id s Ht) as [Hns ->]; [done | by rewrite list_fmap_id |].
    destruct (Hw Hns) as [Hlr Hlw]. split; cbn [sp tasks].
    + intros j m kl0 Hj. apply list_lookup_insert_Some in Hj as [(_ & Hj & _) | [_ Hj]]; [| by eapply Hlr].
      injection Hj as -> _. done.
    + intros j a m q kl0 Hj. apply list_lookup_insert_Some in Hj as [(_ & Hj & _) | [_ Hj]]; [| by eapply Hlw].
      injection Hj as -> _. done.
Qed.

Lemma wait_step s s' : wait_inv s -> pstep s s' -> wait_inv s'.
Proof.
  intros Hi Hs. destruct Hs.
  - by eapply wait_local.
  - by eapply wait_write_run.
  - by eapply wait_local.
  - by eapply wait_read_run.
  - by eapply wait_close.
  - destruct Hi as [Hok Hrd Hw]. split; cbn [sp tasks]; [done | |].
    + intros H0. specialize (Hrd H0). apply Forall_insert; [done |]. pose proof (Forall_lookup_1 _ _ _ _ Hrd H). by destruct x.
    + intros Hk. cbn in Hk. assert (Hf : (awake x, true).2 = false); [| done].
      apply (Forall_lookup_1 _ _ t _ Hk). apply list_lookup_insert_eq. by eapply lookup_lt_Some.
Qed.

Lemma preach_wait s : preach s -> wait_inv s.
Proof.
  induction 1 as [page k Hp | s s' _ IH Hs]; [| by eapply wait_step].
  destruct (pipe_init_ok page Hp) as [H1 H2]. split; cbn; [done | done |].
  intros _. split; cbn; intros *; intros Hl; apply lookup_replicate in Hl as [? _]; done.
Qed.

(** No lost wakeup between readers and writers that are not killed: in
    every reachable state a reader that sleeps has nothing to read and a write
    end that may still deliver, a writer that sleeps has no room and a read end
    that may still make some; so a reader and a writer never sleep at once. *)
Theorem pipe_no_lost_wakeup (s : psys) (Hr : preach s) (Hk : not_killed s) :
  no_lost_wakeup s /\
  ~ (exists t n kl t' addr n' i kl', tasks s !! t = Some (reading n true, kl) /\
       tasks s !! t' = Some (writing addr n' i true, kl')).
Proof.
  destruct (preach_wait s Hr) as [Hok _ Hw]. specialize (Hw Hk). split; [done |].
  intros (t & n & kl & t' & addr & n' & i & kl' & H1 & H2).
  destruct (proj1 Hw _ _ _ H1) as [He _]. destruct (proj2 Hw _ _ _ _ _ H2) as [Hf _].
  apply full_iff in Hf; [| done]. rewrite <- length_contents, He in Hf. done.
Qed.

(** ** Runs *)
Definition sys0 (k : nat) : psys := mk_psys (pipe_init (replicate 512 0)) (replicate k (idle, false)) [] [].
Definition start (t : nat) (x : task) (s : psys) : psys :=
  mk_psys (sp s) (<[t := (x, false)]> (tasks s)) (sent s) (received s).
Definition run (t : nat) (s : psys) : psys :=
  match tasks s !! t with
  | Some (writing addr n i false, kl) =>
      match pipewrite kl addr n i (mk_psec (sp s) [] false) with
      | Ret e s1 => mk_psys (pi s1) (<[t := (write_task addr n e, kl)]> (wake_task (woken s1) <$> tasks s))
                      (sent s ++ moved (sp s) (pi s1) addr i) (received s)
      | _ => s
      end
  | Some (reading n false, kl) =>
      match piperead kl n (mk_psec (sp s) [] false) with
      | Ret (e, bs) s1 => mk_psys (pi s1) (<[t := (read_task n e, kl)]> (wake_task (woken s1) <$> tasks s))
                      (sent s) (received s ++ bs)
      | _ => s
      end
  | _ => s
  end.
Definition killt (t : nat) (s : psys) : psys :=
  match tasks s !! t with
  | Some (x, _) => mk_psys (sp s) (<[t := (awake x, true)]> (tasks s)) (sent s) (received s)
  | None => s
  end.

Lemma preach_run t s : preach s -> preach (run t s).
Proof.
  intros Hr. destruct (tasks s !! t) as [[x kl] |] eqn:Ht; [| by unfold run; rewrite Ht].
  destruct (preach_fifo s Hr) as [Hok _].
  destruct x as [| addr n i [] | n []]; unfold run; rewrite Ht; try done.
  - destruct (pipewrite_ok kl addr n i (sp s) Hok) as (e & s1 & k & E & _). rewrite E.
    eapply pr_step; [done |]. by eapply p_write_run.
  - destruct (piperead_ok kl n (sp s) Hok) as (e & bs & s1 & E & _). rewrite E.
    eapply pr_step; [done |]. by eapply p_read_run.
Qed.
Lemma reach_kill t s : preach s -> preach (killt t s).
Proof.
  intros Hr. unfold killt. destruct (tasks s !! t) as [[x kl] |] eqn:Ht; [| done].
  eapply pr_step; [done |]. by eapply p_kill.
Qed.
Lemma reach_start_write t addr s :
  preach s -> tasks s !! t = Some (idle, false) -> writeopen (sp s) = true ->
  Z.of_nat (length addr) < 2 ^ 31 ->
  preach (start t (writing addr (Z.of_nat (length addr)) 0 false) s).
Proof. intros. eapply pr_step; [done |]. by apply p_write_call. Qed.
Lemma reach_start_read t n s :
  preach s -> tasks s !! t = Some (idle, false) -> readopen (sp s) = true ->
  preach (start t (reading n false) s).
Proof. intros. eapply pr_step; [done |]. by apply p_read_call. Qed.

(** A reader waits, a writer delivers 600 bytes in two stretches, the reader
    takes 512 of them. *)
Definition bytes600 : list Z := Eval vm_compute in map (fun k => Z.of_nat k mod 251) (seq 0 600).
Definition demo : psys :=
  run 0 (run 1 (start 1 (writing bytes600 600 0 false) (run 0 (start 0 (reading 600 false) (sys0 2))))).

Lemma reach_demo : preach demo.
Proof.
  apply preach_run, preach_run. apply (reach_start_write 1 bytes600); [| reflexivity | reflexivity | reflexivity].
  apply preach_run, reach_start_read; [| reflexivity | reflexivity]. by apply pr_init.
Qed.

Lemma pipe_fifo_witness : sent demo = received demo ++ contents (sp demo) /\ Z.of_nat (length (contents (sp demo))) <= PIPESIZE.
Proof. apply (pipe_fifo demo reach_demo). Defined.

Lemma pipe_no_lost_wakeup_witness : no_lost_wakeup demo.
Proof.
  apply (pipe_no_lost_wakeup demo reach_demo). unfold not_killed. apply Forall_forall.
  intros x Hx. revert x Hx. apply Forall_forall. vm_compute. repeat constructor.
Defined.

(** A killed writer strands a reader: a writer fills the pipe and sleeps; a
    reader drains it, which wakes the writer, and sleeps on the next read; the
    writer is killed, writes 512 more bytes, finds the pipe full again and
    returns -1 without waking the reader, which sleeps with 512 bytes to read
    although the pipe is open at both ends. *)
Definition stranded : psys :=
  let s1 := run 0 (start 0 (writing (replicate 1100 7) 1100 0 false) (sys0 2)) in
  let s2 := run 1 (start 1 (reading 512 false) s1) in
  let s3 := run 1 (start 1 (reading 512 false) s2) in
  run 0 (killt 0 s3).

Theorem killed_writer_strands_reader :
  preach stranded /\ map fst (tasks stranded) = [idle; reading 512 true] /\
  length (contents (sp stranded)) = 512%nat /\ writeopen (sp stranded) = true.
Proof.
  split; [| vm_compute; split_and!; reflexivity].
  apply preach_run, reach_kill, preach_run, reach_start_read; [| vm_compute; reflexivity ..].
  apply preach_run, reach_start_read; [| vm_compute; reflexivity ..].
  apply preach_run. apply (reach_start_write 0 (replicate 1100 7)); [| vm_compute; reflexivity ..].
  by apply pr_init.
Qed.
