(* ===== verification/Bio.v ===== *)
(** * Bio: project3/xv6-modified/{bio.c,sleeplock.c,memide.c}, the buffer cache
    over the memory disk

    The cache is an array of [NBUF] buffers; the ring through [prev] and [next]
    is the list [lru] of their indices, most recently used first.  The code of
    one process runs against it: a call of [acquiresleep] on a lock that is
    taken ends in [Block].  Every block the disk receives is also recorded in
    [writes], in order, so that a crash between two writes can be described. *)

From Stdlib Require Import ZArith Lia.
From stdpp Require Import base numbers strings option list.
From S2P Require Import Prelude.

Definition NBUF : nat := 30.
Definition BSIZE : nat := 512.
Definition ROOTDEV : Z := 1.

Record sleeplock := mk_sl { sl_locked : bool; sl_pid : Z }.
Definition sl_free : sleeplock := mk_sl false 0.

(** [B_VALID] and [B_DIRTY] of [flags] are booleans. *)
Record buf := mk_buf {
  b_valid : bool;
  b_dirty : bool;
  b_dev : Z;
  b_blockno : Z;
  b_lock : sleeplock;
  refcnt : Z;
  b_data : list Z
}.

Abbreviation blk := (list Z).

Record bio := mk_bio {
  bufs : list buf;
  lru : list nat;
  disk : list blk;
  writes : list (Z * blk);
  curpid : Z
}.

Definition with_bufs (l : list buf) (s : bio) : bio :=
  mk_bio l (lru s) (disk s) (writes s) (curpid s).
Definition with_lru (l : list nat) (s : bio) : bio :=
  mk_bio (bufs s) l (disk s) (writes s) (curpid s).

Definition set_lock (l : sleeplock) (b : buf) : buf :=
  mk_buf (b_valid b) (b_dirty b) (b_dev b) (b_blockno b) l (refcnt b) (b_data b).
Definition set_refcnt (n : Z) (b : buf) : buf :=
  mk_buf (b_valid b) (b_dirty b) (b_dev b) (b_blockno b) (b_lock b) n (b_data b).
Definition set_flags (v d : bool) (b : buf) : buf :=
  mk_buf v d (b_dev b) (b_blockno b) (b_lock b) (refcnt b) (b_data b).
Definition set_bdata (x : blk) (b : buf) : buf :=
  mk_buf (b_valid b) (b_dirty b) (b_dev b) (b_blockno b) (b_lock b) (refcnt b) x.

Definition get_buf (i : nat) : M bio buf :=
  l ← gets bufs; from_option "no such buffer" (l !! i).
Definition put_buf (i : nat) (b : buf) : M bio unit :=
  modify (fun s => with_bufs (<[i := b]> (bufs s)) s).

(** ** sleeplock.c, on the lock of buffer [i] *)
Definition acquiresleep (i : nat) : M bio unit :=
  b ← get_buf i;
  if sl_locked (b_lock b) then block "sleeplock" else
  me ← gets curpid;
  put_buf i (set_lock (mk_sl true me) b).

Definition releasesleep (i : nat) : M bio unit :=
  b ← get_buf i; put_buf i (set_lock (mk_sl false 0) b).

Definition holdingsleep (i : nat) : M bio bool :=
  b ← get_buf i;
  me ← gets curpid;
  mret (sl_locked (b_lock b) && (sl_pid (b_lock b) =? me)).

(** ** memide.c *)

(** The block of the disk image a [uint] block number names. *)
Definition disk_block (d : list blk) (n : Z) : option blk :=
  if n <? 0 then None else d !! Z.to_nat n.

Definition iderw (i : nat) : M bio unit :=
  h ← holdingsleep i;
  if negb h then stop "iderw: buf not locked" else
  b ← get_buf i;
  if b_valid b && negb (b_dirty b) then stop "iderw: nothing to do" else
  if negb (b_dev b =? 1) then stop "iderw: request not for disk 1" else
  d ← gets disk;
  match disk_block d (b_blockno b) with
  | None => stop "iderw: block out of range"
  | Some old =>
      if b_dirty b then
        modify (fun s => mk_bio (bufs s) (lru s) (<[Z.to_nat (b_blockno b) := b_data b]> (disk s))
                           (writes s ++ [(b_blockno b, b_data b)]) (curpid s));;
        put_buf i (set_flags true false b)
      else put_buf i (set_flags true false (set_bdata old b))
  end.

(** ** bio.c *)
Definition buf_zero : buf := mk_buf false false 0 0 sl_free 0 (replicate BSIZE 0).

(** [binit]: each buffer is inserted at the head of the ring. *)
Definition binit (d : list blk) (pid : Z) : bio :=
  mk_bio (replicate NBUF buf_zero) (foldl (fun l i => i :: l) [] (seq 0 NBUF)) d [] pid.

Definition named (dev blockno : Z) (b : buf) : bool :=
  (b_dev b =? dev) && (b_blockno b =? blockno).
Definition recyclable (b : buf) : bool := (refcnt b =? 0) && negb (b_dirty b).
Definition buf_is (p : buf -> bool) (l : list buf) (i : nat) : bool :=
  match l !! i with Some b => p b | None => false end.

Definition bget (dev blockno : Z) : M bio nat :=
  s ← get;
  match find (buf_is (named dev blockno) (bufs s)) (lru s) with
  | Some i =>
      b ← get_buf i;
      put_buf i (set_refcnt (refcnt b + 1) b);;
      acquiresleep i;;
      mret i
  | None =>
      match find (buf_is recyclable (bufs s)) (rev (lru s)) with
      | Some i =>
          b ← get_buf i;
          put_buf i (mk_buf false false dev blockno (b_lock b) 1 (b_data b));;
          acquiresleep i;;
          mret i
      | None => stop "bget: no buffers"
      end
  end.

Definition bread (dev blockno : Z) : M bio nat :=
  i ← bget dev blockno;
  b ← get_buf i;
  when (negb (b_valid b)) (iderw i);;
  mret i.

Definition bwrite (i : nat) : M bio unit :=
  h ← holdingsleep i;
  if negb h then stop "bwrite" else
  b ← get_buf i;
  put_buf i (set_flags (b_valid b) true b);;
  iderw i.

Definition brelse (i : nat) : M bio unit :=
  h ← holdingsleep i;
  if negb h then stop "brelse" else
  releasesleep i;;
  b ← get_buf i;
  put_buf i (set_refcnt (refcnt b - 1) b);;
  if refcnt b - 1 =? 0 then
    modify (fun s => with_lru (i :: filter (.≠ i) (lru s)) s)
  else skip.

(** Reading and changing [b->data] of a buffer the caller holds. *)
Definition bdata (i : nat) : M bio blk := b ← get_buf i; mret (b_data b).
Definition bstore (i : nat) (x : blk) : M bio unit := b ← get_buf i; put_buf i (set_bdata x b).

(** ** What the cache promises

    [vblock s n] is the content of block [n] as the kernel sees it: the cached
    copy if there is one, the disk otherwise.  [dirty_at] and [held_at] say
    that its cached copy is pinned by the log, or locked by the process. *)
Definition find_buf (s : bio) (n : Z) : option buf := find (named ROOTDEV n) (bufs s).
Definition vblock (s : bio) (n : Z) : option blk :=
  match find_buf s n with Some b => Some (b_data b) | None => disk_block (disk s) n end.
Definition dirty_at (s : bio) (n : Z) : bool :=
  match find_buf s n with Some b => b_dirty b | None => false end.
Definition held_at (s : bio) (n : Z) : bool :=
  match find_buf s n with Some b => sl_locked (b_lock b) | None => false end.

(** A buffer that cannot be recycled. *)
Definition busy_buf (b : buf) : Prop := b_dirty b = true \/ sl_locked (b_lock b) = true.
#[export] Instance busy_buf_dec b : Decision (busy_buf b).
Proof. unfold busy_buf. apply _. Defined.
Definition busy (s : bio) : nat := length (filter busy_buf (bufs s)).

(** Buffer [i] holds block [n] and is locked by the process. *)
Definition handle (s : bio) (i : nat) (n : Z) : Prop :=
  exists b, bufs s !! i = Some b /\ named ROOTDEV n b = true /\ sl_locked (b_lock b) = true.

Record buf_ok (d : list blk) (pid : Z) (b : buf) : Prop := {
  bo_ref : refcnt b = if sl_locked (b_lock b) then 1 else 0;
  bo_pid : sl_locked (b_lock b) = true -> sl_pid (b_lock b) = pid;
  bo_len : length (b_data b) = BSIZE;
  bo_dev : b_dev b = ROOTDEV \/ (b_valid b = false /\ b_dirty b = false /\ sl_locked (b_lock b) = false);
  bo_valid : b_dev b = ROOTDEV -> b_valid b = true;
  bo_no : b_dev b = ROOTDEV -> 0 <= b_blockno b < Z.of_nat (length d);
  bo_clean : b_dev b = ROOTDEV -> b_dirty b = false -> sl_locked (b_lock b) = false ->
             disk_block d (b_blockno b) = Some (b_data b)
}.

(** No block is cached twice. *)
Definition uniq (l : list buf) : Prop :=
  forall i j b c n, l !! i = Some b -> l !! j = Some c ->
    named ROOTDEV n b = true -> named ROOTDEV n c = true -> i = j.

Record bio_inv (s : bio) : Prop := {
  bi_len : length (bufs s) = NBUF;
  bi_lru : lru s ≡ₚ seq 0 NBUF;
  bi_disk : Forall (fun x => length x = BSIZE) (disk s);
  bi_ok : Forall (buf_ok (disk s) (curpid s)) (bufs s);
  bi_uniq : uniq (bufs s)
}.

Lemma filter_all {A} (P : A -> Prop) `{!forall x, Decision (P x)} (l : list A) :
  Forall P l -> filter P l = l.
Proof. induction 1; [done |]. rewrite filter_cons_True by done. by f_equal. Qed.

Lemma filter_update {A} (P : A -> Prop) `{!forall x, Decision (P x)} (l : list A) i x y :
  l !! i = Some x ->
  (length (filter P (<[i := y]> l)) + (if decide (P x) then 1 else 0) =
   length (filter P l) + (if decide (P y) then 1 else 0))%nat.
Proof.
  revert i. induction l as [| z l IH]; intros [| i] Hl; cbn in Hl; [done.. | |].
  - injection Hl as ->. change (<[0%nat := y]> (x :: l)) with (y :: l). rewrite !filter_cons.
    destruct (decide (P x)), (decide (P y)); cbn; lia.
  - change (<[S i := y]> (z :: l)) with (z :: <[i := y]> l). specialize (IH i Hl). rewrite !filter_cons.
    destruct (decide (P z)); cbn; lia.
Qed.

Lemma named_eq n b : named ROOTDEV n b = true <-> b_dev b = ROOTDEV /\ b_blockno b = n.
Proof. unfold named. rewrite andb_true_iff, !Z.eqb_eq. done. Qed.

Lemma named_dev n b : named ROOTDEV n b = true -> b_dev b = ROOTDEV.
Proof. intros H. by apply named_eq in H as [? _]. Qed.

Lemma binit_inv d pid : Forall (fun x => length x = BSIZE) d -> bio_inv (binit d pid).
Proof.
  intros Hd. split; cbn -[seq NBUF]; [apply length_replicate | | done | |].
  - change (foldl _ _ _) with (rev (seq 0 NBUF)). symmetry. apply Permutation_rev.
  - apply Forall_replicate. split; cbn; try done. by right.
  - intros i j b c n Hi. apply lookup_replicate in Hi as [-> _]. done.
Qed.

Lemma disk_block_some s n : bio_inv s -> 0 <= n < Z.of_nat (length (disk s)) ->
  exists x, disk_block (disk s) n = Some x /\ length x = BSIZE.
Proof.
  intros Hi Hn. unfold disk_block. destruct (Z.ltb_spec n 0); [lia |].
  destruct (lookup_lt_is_Some_2 (disk s) (Z.to_nat n)) as [x Hx]; [lia |].
  exists x. split; [done |]. apply (Forall_lookup_1 _ _ _ _ (bi_disk s Hi) Hx).
Qed.

Lemma disk_block_insert d n m (y : blk) : 0 <= n < Z.of_nat (length d) ->
  disk_block (<[Z.to_nat n := y]> d) m = if decide (m = n) then Some y else disk_block d m.
Proof.
  intros Hn. unfold disk_block. destruct (decide (m = n)) as [-> | Hm].
  - destruct (Z.ltb_spec n 0); [lia |]. apply list_lookup_insert_eq. lia.
  - destruct (Z.ltb_spec m 0); [done |]. by rewrite list_lookup_insert_ne by lia.
Qed.

(** The buffer of a block, from any handle or index that names it. *)
Lemma find_buf_at s i b n : uniq (bufs s) -> bufs s !! i = Some b -> named ROOTDEV n b = true ->
  find_buf s n = Some b.
Proof.
  intros Hi Hb Hn. unfold find_buf. destruct (find (named ROOTDEV n) (bufs s)) as [c |] eqn:E.
  - apply find_some in E as [Hc Hnc]. apply list_elem_of_In, list_elem_of_lookup in Hc as [j Hj].
    pose proof (Hi _ _ _ _ _ Hb Hj Hn Hnc) as ->. congruence.
  - assert (Hin : In b (bufs s)) by (apply list_elem_of_In; by eapply list_elem_of_lookup_2).
    by rewrite (find_none _ _ E b Hin) in Hn.
Qed.

Lemma find_buf_index s n b : find_buf s n = Some b ->
  exists i, bufs s !! i = Some b /\ named ROOTDEV n b = true.
Proof.
  intros E. apply find_some in E as [Hc Hnc]. apply list_elem_of_In, list_elem_of_lookup in Hc as [j Hj]. eauto.
Qed.

Lemma find_buf_none s n i b : find_buf s n = None -> bufs s !! i = Some b -> named ROOTDEV n b = false.
Proof.
  intros E Hb. apply (find_none _ _ E). apply list_elem_of_In. by eapply list_elem_of_lookup_2.
Qed.

Lemma in_lru s i b : bio_inv s -> bufs s !! i = Some b -> In i (lru s).
Proof.
  intros Hi Hb. apply list_elem_of_In. rewrite (bi_lru s Hi). apply elem_of_seq.
  apply lookup_lt_Some in Hb. rewrite (bi_len s Hi) in Hb. lia.
Qed.

(** The first search of [bget], by block. *)
Lemma search_named s n : bio_inv s ->
  match find (buf_is (named ROOTDEV n) (bufs s)) (lru s) with
  | Some i => exists b, bufs s !! i = Some b /\ named ROOTDEV n b = true /\ find_buf s n = Some b
  | None => find_buf s n = None
  end.
Proof.
  intros Hi. destruct (find _ (lru s)) as [i |] eqn:E.
  - apply find_some in E as [_ Hb]. unfold buf_is in Hb. destruct (bufs s !! i) as [b |] eqn:Eb; [| done].
    exists b. split_and!; [done.. |]. by eapply find_buf_at; [apply Hi | ..].
  - destruct (find_buf s n) as [b |] eqn:Eb; [| done]. apply find_buf_index in Eb as (i & Hb & Hn).
    pose proof (find_none _ _ E i (in_lru _ _ _ Hi Hb)) as H. unfold buf_is in H. rewrite Hb, Hn in H. done.
Qed.

(** The second search finds a buffer that is not busy if there is one. *)
Lemma search_free s : bio_inv s -> (busy s < NBUF)%nat ->
  exists i b, find (buf_is recyclable (bufs s)) (rev (lru s)) = Some i /\ bufs s !! i = Some b /\
    ~ busy_buf b.
Proof.
  intros Hi Hb.
  assert (Hrec : forall i b, bufs s !! i = Some b -> recyclable b = true <-> ~ busy_buf b).
  { intros i b Hl. pose proof (Forall_lookup_1 _ _ _ _ (bi_ok s Hi) Hl) as Hok. unfold recyclable, busy_buf.
    rewrite (bo_ref _ _ _ Hok). destruct (sl_locked (b_lock b)), (b_dirty b); cbn; split; try done;
      try (intros _ [? | ?]; done); intros H; exfalso; apply H; auto. }
  destruct (find _ (rev (lru s))) as [i |] eqn:E.
  - apply find_some in E as [_ H]. unfold buf_is in H. destruct (bufs s !! i) as [b |] eqn:El; [| done].
    exists i, b. split_and!; [done.. |]. by apply (Hrec i b).
  - exfalso. unfold busy in Hb.
    assert (Hall : Forall busy_buf (bufs s)).
    { apply Forall_lookup. intros i b Hl. destruct (decide (busy_buf b)) as [| Hnb]; [done |].
      pose proof (find_none _ _ E i) as H. unfold buf_is in H. rewrite Hl in H.
      apply (Hrec i b Hl) in Hnb. rewrite Hnb in H. discriminate H.
      apply -> in_rev. by eapply in_lru. }
    rewrite (filter_all busy_buf (bufs s)) in Hb by exact Hall.
    rewrite (bi_len s Hi) in Hb. lia.
Qed.

(** ** The effect of changing one buffer

    Every operation leaves one block [n] with a new content, pin and lock; what
    the kernel sees of the other blocks stays. *)
Record eff (s s' : bio) (n : Z) (x : blk) (dt hd : bool) : Prop := {
  ef_inv : bio_inv s';
  ef_view : forall m, vblock s' m = if decide (m = n) then Some x else vblock s m;
  ef_dirty : forall m, dirty_at s' m = if decide (m = n) then dt else dirty_at s m;
  ef_held : forall m, held_at s' m = if decide (m = n) then hd else held_at s m;
  ef_handle : forall j m, m <> n -> handle s j m -> handle s' j m;
  ef_pid : curpid s' = curpid s;
  ef_len : length (disk s') = length (disk s)
}.

Lemma find_buf_put s s' i b b' n :
  uniq (bufs s) -> uniq (bufs s') -> bufs s !! i = Some b -> bufs s' = <[i := b']> (bufs s) ->
  find_buf s' n = if named ROOTDEV n b' then Some b' else if named ROOTDEV n b then None else find_buf s n.
Proof.
  intros Hu Hu' Hb E. pose proof (lookup_lt_Some _ _ _ Hb) as Hlt.
  assert (Hb' : bufs s' !! i = Some b') by (rewrite E; by apply list_lookup_insert_eq).
  destruct (named ROOTDEV n b') eqn:Hn'; [by eapply find_buf_at |].
  assert (Hoth : forall j c, bufs s' !! j = Some c -> named ROOTDEV n c = true -> bufs s !! j = Some c).
  { intros j c Hj Hc. rewrite E in Hj. apply list_lookup_insert_Some in Hj as [(-> & -> & _) | [_ Hj]]; [congruence | done]. }
  destruct (find_buf s' n) as [c |] eqn:Ec.
  - apply find_buf_index in Ec as (j & Hj & Hc). pose proof (Hoth j c Hj Hc) as Hj'.
    destruct (named ROOTDEV n b) eqn:Hn; [| symmetry; by eapply find_buf_at].
    pose proof (Hu _ _ _ _ _ Hb Hj' Hn Hc) as <-. congruence.
  - destruct (named ROOTDEV n b) eqn:Hn; [done |].
    destruct (find_buf s n) as [c |] eqn:Ec2; [| done]. exfalso.
    apply find_buf_index in Ec2 as (j & Hj & Hc). assert (j <> i) by (intros ->; congruence).
    pose proof (find_buf_none _ _ j c Ec) as Hx. rewrite Hc in Hx. discriminate Hx.
    rewrite E. by rewrite list_lookup_insert_ne.
Qed.

Lemma uniq_put l i b b' :
  uniq l -> l !! i = Some b ->
  (forall n, named ROOTDEV n b' = true -> named ROOTDEV n b = true \/ find (named ROOTDEV n) l = None) ->
  uniq (<[i := b']> l).
Proof.
  intros Hu Hb Hn. assert (Hone : forall j c n, l !! j = Some c -> named ROOTDEV n b' = true -> named ROOTDEV n c = true -> i = j).
  { intros j c n Hj Hb' Hc. destruct (Hn n Hb') as [Ho | Ho]; [by eapply Hu |].
    rewrite (find_none _ _ Ho c) in Hc; [done |]. apply list_elem_of_In. by eapply list_elem_of_lookup_2. }
  intros j k c e n Hj Hk Hc He.
  apply list_lookup_insert_Some in Hj as [(-> & <- & _) | [? Hj]];
    apply list_lookup_insert_Some in Hk as [(-> & <- & _) | [? Hk]]; eauto using eq_sym.
Qed.

(** A block that is neither pinned nor held is the same in the cache and on
    the disk. *)
Lemma clean_view s n : bio_inv s -> dirty_at s n = false -> held_at s n = false ->
  vblock s n = disk_block (disk s) n.
Proof.
  intros Hi. unfold dirty_at, held_at, vblock. destruct (find_buf s n) as [b |] eqn:E; [| done].
  intros Hd Hh. apply find_buf_index in E as (i & Hb & Hn).
  apply named_eq in Hn as [Hd1 <-]. symmetry.
  by apply (bo_clean _ _ _ (Forall_lookup_1 _ _ _ _ (bi_ok s Hi) Hb)).
Qed.

(** The general step: buffer [i] becomes [b'], which holds block [n]; before,
    it held [n] too, or was free to be recycled while [n] was not cached. *)
Lemma put_eff s i b b' n :
  bio_inv s -> bufs s !! i = Some b -> buf_ok (disk s) (curpid s) b' -> named ROOTDEV n b' = true ->
  (named ROOTDEV n b = true \/ (find_buf s n = None /\ ~ busy_buf b)) ->
  eff s (with_bufs (<[i := b']> (bufs s)) s) n (b_data b') (b_dirty b') (sl_locked (b_lock b')).
Proof.
  intros Hi Hb Hok Hn Hcase. set (s' := with_bufs _ s).
  assert (Hu' : uniq (bufs s')).
  { apply (uniq_put _ _ b); [apply Hi | done |]. intros m Hm. apply named_eq in Hm as [_ <-].
    apply named_eq in Hn as [_ ->]. destruct Hcase as [? | [? _]]; [by left | by right]. }
  assert (Hi' : bio_inv s').
  { destruct Hi. split; cbn; [by rewrite length_insert | done | done | by apply Forall_insert | exact Hu']. }
  assert (Hf : forall m, find_buf s' m = if named ROOTDEV m b' then Some b' else if named ROOTDEV m b then None else find_buf s m)
    by (intros m; by eapply find_buf_put; [apply Hi | ..]).
  assert (Hnm : forall m, named ROOTDEV m b' = bool_decide (m = n)).
  { intros m. apply named_eq in Hn as [Hd <-]. destruct (named ROOTDEV m b') eqn:E.
    - apply named_eq in E as [_ <-]. by rewrite bool_decide_true.
    - symmetry. apply bool_decide_eq_false. intros ->. unfold named in E. rewrite Hd, !Z.eqb_refl in E. done. }
  assert (Hold : forall m, m <> n -> named ROOTDEV m b = true ->
            vblock s m = disk_block (disk s) m /\ dirty_at s m = false /\ held_at s m = false).
  { intros m Hm Hmb. destruct Hcase as [Hnb | [_ Hnb]].
    - apply named_eq in Hnb as [_ <-]. apply named_eq in Hmb as [_ <-]. done.
    - assert (Hfm : find_buf s m = Some b) by (by eapply find_buf_at; [apply Hi | ..]).
      assert (Hdm : dirty_at s m = false /\ held_at s m = false).
      { unfold dirty_at, held_at. rewrite Hfm. unfold busy_buf in Hnb.
        destruct (b_dirty b), (sl_locked (b_lock b)); (done || exfalso; apply Hnb; auto). }
      destruct Hdm. split; [by apply clean_view | done]. }
  split; [done | | | | | done | done].
  - intros m. unfold vblock at 1. rewrite Hf, Hnm. destruct (decide (m = n)) as [-> | Hm].
    + by rewrite bool_decide_true.
    + rewrite bool_decide_false by done. destruct (named ROOTDEV m b) eqn:E; [| done].
      symmetry. by apply Hold.
  - intros m. unfold dirty_at at 1. rewrite Hf, Hnm. destruct (decide (m = n)) as [-> | Hm].
    + by rewrite bool_decide_true.
    + rewrite bool_decide_false by done. destruct (named ROOTDEV m b) eqn:E; [| done].
      symmetry. by apply Hold.
  - intros m. unfold held_at at 1. rewrite Hf, Hnm. destruct (decide (m = n)) as [-> | Hm].
    + by rewrite bool_decide_true.
    + rewrite bool_decide_false by done. destruct (named ROOTDEV m b) eqn:E; [| done].
      symmetry. by apply Hold.
  - intros j m Hm (c & Hj & Hc & Hl). exists c. split; [| done]. cbn.
    rewrite list_lookup_insert_ne; [done |]. intros ->. assert (c = b) as -> by congruence.
    destruct (Hold m Hm Hc) as (_ & _ & Hh). unfold held_at in Hh.
    rewrite (find_buf_at s j b m) in Hh by (first [apply Hi | done]). congruence.
Qed.

(** ** The operations *)
Lemma get_buf_ret s i b : bufs s !! i = Some b -> get_buf i s = Ret b s.
Proof. intros H. unfold get_buf. erewrite bind_ret by done. by rewrite H. Qed.

(** Two writes to one buffer. *)
Lemma put_put s i b c :
  with_bufs (<[i := c]> (bufs (with_bufs (<[i := b]> (bufs s)) s))) (with_bufs (<[i := b]> (bufs s)) s) =
  with_bufs (<[i := c]> (bufs s)) s.
Proof. unfold with_bufs. cbn. by rewrite list_insert_insert_eq. Qed.

Lemma put_lookup s i b c : bufs s !! i = Some b -> bufs (with_bufs (<[i := c]> (bufs s)) s) !! i = Some c.
Proof. intros H. apply list_lookup_insert_eq. by eapply lookup_lt_Some. Qed.

Lemma acquiresleep_ret s i b : bufs s !! i = Some b -> sl_locked (b_lock b) = false ->
  acquiresleep i s = Ret tt (with_bufs (<[i := set_lock (mk_sl true (curpid s)) b]> (bufs s)) s).
Proof. intros Hb Hl. unfold acquiresleep. erewrite bind_ret by by apply get_buf_ret. by rewrite Hl. Qed.

Lemma holding_ret s i b : bufs s !! i = Some b -> sl_locked (b_lock b) = true ->
  sl_pid (b_lock b) = curpid s -> holdingsleep i s = Ret true s.
Proof.
  intros Hb Hl Hp. unfold holdingsleep. erewrite bind_ret by by apply get_buf_ret. erewrite bind_ret by done.
  by rewrite Hl, Hp, Z.eqb_refl.
Qed.

Lemma busy_put s i b c : bufs s !! i = Some b ->
  (busy (with_bufs (<[i := c]> (bufs s)) s) + (if decide (busy_buf b) then 1 else 0) =
   busy s + (if decide (busy_buf c) then 1 else 0))%nat.
Proof. intros Hb. by apply filter_update. Qed.

Lemma handle_put s i n b c : bufs s !! i = Some b -> named ROOTDEV n c = true -> sl_locked (b_lock c) = true ->
  handle (with_bufs (<[i := c]> (bufs s)) s) i n.
Proof. intros Hb Hn Hl. exists c. split; [by eapply put_lookup | done]. Qed.

Lemma handle_view s i n : bio_inv s -> handle s i n ->
  exists b, bufs s !! i = Some b /\ named ROOTDEV n b = true /\ sl_locked (b_lock b) = true /\
    vblock s n = Some (b_data b) /\ dirty_at s n = b_dirty b /\ held_at s n = true /\
    buf_ok (disk s) (curpid s) b.
Proof.
  intros Hi (b & Hb & Hn & Hl). exists b. pose proof (find_buf_at s i b n (bi_uniq s Hi) Hb Hn) as Hf.
  unfold vblock, dirty_at, held_at. rewrite Hf. split_and!; try done. by apply (Forall_lookup_1 _ _ _ _ (bi_ok s Hi) Hb).
Qed.

Lemma bget_hit s dev n i b :
  find (buf_is (named dev n) (bufs s)) (lru s) = Some i -> bufs s !! i = Some b ->
  sl_locked (b_lock b) = false ->
  bget dev n s = Ret i (with_bufs (<[i := set_lock (mk_sl true (curpid s)) (set_refcnt (refcnt b + 1) b)]> (bufs s)) s).
Proof.
  intros Ef Hb Hl. unfold bget. erewrite bind_ret by done. rewrite Ef.
  erewrite bind_ret by by apply get_buf_ret. erewrite bind_ret by done.
  erewrite bind_ret by (eapply acquiresleep_ret; [by eapply put_lookup | exact Hl]).
  by rewrite put_put.
Qed.

Lemma bget_miss s dev n i b :
  find (buf_is (named dev n) (bufs s)) (lru s) = None ->
  find (buf_is recyclable (bufs s)) (rev (lru s)) = Some i -> bufs s !! i = Some b ->
  sl_locked (b_lock b) = false ->
  bget dev n s = Ret i (with_bufs (<[i := mk_buf false false dev n (mk_sl true (curpid s)) 1 (b_data b)]> (bufs s)) s).
Proof.
  intros Ef Ef2 Hb Hl. unfold bget. erewrite bind_ret by done. rewrite Ef, Ef2.
  erewrite bind_ret by by apply get_buf_ret. erewrite bind_ret by done.
  erewrite bind_ret by (eapply acquiresleep_ret; [by eapply put_lookup | exact Hl]).
  by rewrite put_put.
Qed.

(** The two ways a request reaches the disk. *)
Lemma iderw_read s i b x :
  bufs s !! i = Some b -> sl_locked (b_lock b) = true -> sl_pid (b_lock b) = curpid s ->
  b_valid b = false -> b_dirty b = false -> b_dev b = ROOTDEV -> disk_block (disk s) (b_blockno b) = Some x ->
  iderw i s = Ret tt (with_bufs (<[i := set_flags true false (set_bdata x b)]> (bufs s)) s).
Proof.
  intros Hb Hl Hp Hv Hd Hdev Hx. unfold iderw.
  erewrite bind_ret by by eapply holding_ret.
  cbn [negb]. erewrite bind_ret by by apply get_buf_ret. rewrite Hv, Hdev. cbn.
  erewrite bind_ret by done. by rewrite Hx, Hd.
Qed.

Lemma iderw_write s i b x :
  bufs s !! i = Some b -> sl_locked (b_lock b) = true -> sl_pid (b_lock b) = curpid s ->
  b_dirty b = true -> b_dev b = ROOTDEV -> disk_block (disk s) (b_blockno b) = Some x ->
  iderw i s = Ret tt (mk_bio (<[i := set_flags true false b]> (bufs s)) (lru s)
                        (<[Z.to_nat (b_blockno b) := b_data b]> (disk s))
                        (writes s ++ [(b_blockno b, b_data b)]) (curpid s)).
Proof.
  intros Hb Hl Hp Hd Hdev Hx. unfold iderw.
  erewrite bind_ret by by eapply holding_ret.
  cbn [negb]. erewrite bind_ret by by apply get_buf_ret. rewrite Hd, Hdev, andb_false_r. cbn.
  erewrite bind_ret by done. by rewrite Hx.
Qed.

(** [bread] of a block this process does not hold returns a locked buffer with
    the content of the block and changes nothing the kernel sees.  It needs a
    free buffer unless the block is pinned. *)
Definition bread_spec (s : bio) (n : Z) : Prop :=
  exists i s' x, bread ROOTDEV n s = Ret i s' /\ vblock s n = Some x /\ length x = BSIZE /\
    eff s s' n x (dirty_at s n) true /\ handle s' i n /\ disk s' = disk s /\ writes s' = writes s /\
    busy s' = (busy s + (if dirty_at s n then 0 else 1))%nat.

Lemma bread_hit_ok s n i b : bio_inv s -> held_at s n = false ->
  find (buf_is (named ROOTDEV n) (bufs s)) (lru s) = Some i ->
  bufs s !! i = Some b -> named ROOTDEV n b = true -> find_buf s n = Some b -> bread_spec s n.
Proof.
  intros Hi Hh Ef Hb Hnb Hf. unfold held_at in Hh. rewrite Hf in Hh.
  pose proof (Forall_lookup_1 _ _ _ _ (bi_ok s Hi) Hb) as Hok.
  set (b2 := set_lock (mk_sl true (curpid s)) (set_refcnt (refcnt b + 1) b)).
  assert (Hok2 : buf_ok (disk s) (curpid s) b2).
  { destruct Hok as [H1 H2 H3 H4 H5 H6 H7]. rewrite Hh in H1. split; cbn; try done; [lia |].
    left. by eapply named_dev. }
  assert (Hv : b_valid b = true) by (apply Hok; by eapply named_dev).
  exists i, (with_bufs (<[i := b2]> (bufs s)) s), (b_data b). split_and!; try done.
  - unfold bread. erewrite bind_ret by by eapply bget_hit.
    erewrite bind_ret by (apply get_buf_ret; by eapply put_lookup). cbn. by rewrite Hv.
  - unfold vblock. by rewrite Hf.
  - apply Hok.
  - unfold dirty_at. rewrite Hf. apply (put_eff s i b b2 n Hi Hb Hok2); [done | by left].
  - by eapply handle_put.
  - pose proof (busy_put s i b b2 Hb) as HB. unfold dirty_at. rewrite Hf.
    rewrite (decide_True (P := busy_buf b2)) in HB by by right.
    destruct (b_dirty b) eqn:Hd; [rewrite decide_True in HB by by left |
      rewrite decide_False in HB by (unfold busy_buf; rewrite Hd, Hh; by intros [? | ?])]; lia.
Qed.

Lemma bread_miss_ok s n : bio_inv s -> 0 <= n < Z.of_nat (length (disk s)) -> (busy s < NBUF)%nat ->
  find (buf_is (named ROOTDEV n) (bufs s)) (lru s) = None -> find_buf s n = None -> bread_spec s n.
Proof.
  intros Hi Hn Hroom Ef Hf.
  assert (Hd : dirty_at s n = false) by (unfold dirty_at; by rewrite Hf).
  destruct (search_free s Hi Hroom) as (i & b & Ef2 & Hb & Hnb).
  destruct (disk_block_some s n Hi Hn) as (x & Hx & Hlx).
  assert (Hl : sl_locked (b_lock b) = false).
  { unfold busy_buf in Hnb. destruct (sl_locked (b_lock b)); [exfalso; apply Hnb; by right | done]. }
  set (b2 := mk_buf true false ROOTDEV n (mk_sl true (curpid s)) 1 x).
  assert (Hok2 : buf_ok (disk s) (curpid s) b2) by (split; cbn; try done; by left).
  assert (Hn2 : named ROOTDEV n b2 = true) by by apply named_eq.
  exists i, (with_bufs (<[i := b2]> (bufs s)) s), x. rewrite Hd. split_and!; try done.
  - unfold bread. erewrite bind_ret by by eapply bget_miss.
    erewrite bind_ret by (apply get_buf_ret; by eapply put_lookup). cbn [b_valid negb when].
    erewrite bind_ret by (eapply iderw_read; [by eapply put_lookup | done..]).
    by rewrite put_put.
  - unfold vblock. by rewrite Hf.
  - apply (put_eff s i b b2 n Hi Hb Hok2); [done | by right].
  - by eapply handle_put.
  - pose proof (busy_put s i b b2 Hb) as HB. rewrite (decide_False (P := busy_buf b)) in HB by done.
    rewrite (decide_True (P := busy_buf b2)) in HB by by right. lia.
Qed.

Lemma bread_ok s n : bio_inv s -> 0 <= n < Z.of_nat (length (disk s)) -> held_at s n = false ->
  (dirty_at s n = true \/ (busy s < NBUF)%nat) -> bread_spec s n.
Proof.
  intros Hi Hn Hh Hroom. pose proof (search_named s n Hi) as Hs.
  destruct (find (buf_is (named ROOTDEV n) (bufs s)) (lru s)) as [i |] eqn:Ef.
  - destruct Hs as (b & Hb & Hnb & Hf). by eapply bread_hit_ok.
  - apply bread_miss_ok; try done. destruct Hroom as [Hd |]; [| done]. unfold dirty_at in Hd. by rewrite Hs in Hd.
Qed.

(** [b->data] of a held buffer. *)
Lemma bdata_ok s i n : bio_inv s -> handle s i n ->
  exists x, bdata i s = Ret x s /\ vblock s n = Some x /\ length x = BSIZE.
Proof.
  intros Hi Hh. destruct (handle_view s i n Hi Hh) as (b & Hb & Hn & Hl & Hv & _ & _ & Hok).
  exists (b_data b). split; [| split; [done | apply Hok]]. unfold bdata. by erewrite bind_ret by by apply get_buf_ret.
Qed.

Lemma bstore_ok s i n y : bio_inv s -> handle s i n -> length y = BSIZE ->
  exists s', bstore i y s = Ret tt s' /\ eff s s' n y (dirty_at s n) true /\ handle s' i n /\
    disk s' = disk s /\ writes s' = writes s /\ busy s' = busy s.
Proof.
  intros Hi Hh Hy. destruct (handle_view s i n Hi Hh) as (b & Hb & Hn & Hl & Hv & Hd & _ & Hok).
  set (b2 := set_bdata y b).
  assert (Hok2 : buf_ok (disk s) (curpid s) b2).
  { destruct Hok as [H1 H2 H3 H4 H5 H6 H7]. split; cbn; try done. by rewrite Hl. }
  exists (with_bufs (<[i := b2]> (bufs s)) s). split_and!; try done.
  - unfold bstore. by erewrite bind_ret by by apply get_buf_ret.
  - rewrite Hd, <- Hl. apply (put_eff s i b b2 n Hi Hb Hok2); [done | by left].
  - by eapply handle_put.
  - pose proof (busy_put s i b b2 Hb) as HB.
    rewrite !decide_True in HB by by right. lia.
Qed.

(** Pinning: [b->flags |= B_DIRTY]. *)
Lemma pin_ok s i n b : bio_inv s -> handle s i n -> bufs s !! i = Some b ->
  let s' := with_bufs (<[i := set_flags (b_valid b) true b]> (bufs s)) s in
  eff s s' n (b_data b) true true /\ handle s' i n /\ busy s' = busy s.
Proof.
  intros Hi Hh Hb0. destruct (handle_view s i n Hi Hh) as (b' & Hb & Hn & Hl & Hv & Hd & _ & Hok).
  assert (b' = b) as -> by congruence. set (b2 := set_flags (b_valid b) true b).
  assert (Hok2 : buf_ok (disk s) (curpid s) b2).
  { destruct Hok as [H1 H2 H3 H4 H5 H6 H7]. split; cbn; try done. left. by eapply named_dev. }
  split_and!.
  - rewrite <- Hl at 2. apply (put_eff s i b b2 n Hi Hb Hok2); [done | by left].
  - by eapply handle_put.
  - pose proof (busy_put s i b b2 Hb) as HB. rewrite !decide_True in HB by by right. lia.
Qed.

(** Writing the disk block behind a held buffer changes nothing the kernel
    sees. *)
Lemma disk_put_eff s i n y w : bio_inv s -> handle s i n -> length y = BSIZE ->
  let s' := mk_bio (bufs s) (lru s) (<[Z.to_nat n := y]> (disk s)) w (curpid s) in
  exists x, vblock s n = Some x /\ eff s s' n x (dirty_at s n) true.
Proof.
  intros Hi Hh Hy s'. destruct (handle_view s i n Hi Hh) as (b & Hb & Hn & Hl & Hv & Hd & Hhd & Hok).
  exists (b_data b). split; [done |]. apply named_eq in Hn as [Hdev Hno].
  assert (Hr : 0 <= n < Z.of_nat (length (disk s))) by (rewrite <- Hno; by apply Hok).
  assert (Hi' : bio_inv s').
  { destruct Hi as [H1 H2 H3 H4 H5]. split; cbn; [done | done | by apply Forall_insert | | done].
    apply Forall_lookup. intros j c Hj. destruct (Forall_lookup_1 _ _ _ _ H4 Hj) as [K1 K2 K3 K4 K5 K6 K7].
    split; try done; [by rewrite length_insert |]. intros Kd Kc Kl. rewrite disk_block_insert by done.
    rewrite decide_False; [by apply K7 |]. intros Kn.
    assert (i = j) as -> by (apply (H5 _ _ b c n Hb Hj); by apply named_eq). congruence. }
  split; try done.
  - intros m. destruct (decide (m = n)) as [-> | Hm].
    { unfold vblock in *. change (find_buf s' n) with (find_buf s n).
      rewrite (find_buf_at s i b n) by (first [apply Hi | by apply named_eq | done]). done. }
    unfold vblock. change (find_buf s' m) with (find_buf s m). destruct (find_buf s m); [done |].
    cbn. rewrite disk_block_insert by done. by rewrite decide_False.
  - intros m. by destruct (decide (m = n)) as [-> |].
  - intros m. by destruct (decide (m = n)) as [-> |].
  - cbn. by rewrite length_insert.
Qed.

Lemma eff_trans s1 s2 s3 n x y d e h k : eff s1 s2 n x d h -> eff s2 s3 n y e k -> eff s1 s3 n y e k.
Proof.
  intros [] []. split; try done; [..| congruence | congruence].
  - intros m. rewrite ef_view1. case_decide; [done |]. rewrite ef_view0. by rewrite decide_False.
  - intros m. rewrite ef_dirty1. case_decide; [done |]. rewrite ef_dirty0. by rewrite decide_False.
  - intros m. rewrite ef_held1. case_decide; [done |]. rewrite ef_held0. by rewrite decide_False.
  - eauto.
Qed.

(** [bwrite] brings the disk up to date and unpins the block. *)
Lemma bwrite_ok s i n : bio_inv s -> handle s i n ->
  exists s' x, bwrite i s = Ret tt s' /\ vblock s n = Some x /\ eff s s' n x false true /\ handle s' i n /\
    disk s' = <[Z.to_nat n := x]> (disk s) /\ writes s' = writes s ++ [(n, x)] /\ busy s' = busy s.
Proof.
  intros Hi Hh. destruct (handle_view s i n Hi Hh) as (b & Hb & Hn & Hl & Hv & Hd & Hhd & Hok).
  destruct (pin_ok s i n b Hi Hh Hb) as (E1 & Hh1 & B1).
  set (b1 := set_flags (b_valid b) true b) in *.
  set (s1 := with_bufs (<[i := b1]> (bufs s)) s) in *.
  assert (Hb1 : bufs s1 !! i = Some b1) by by eapply put_lookup.
  pose proof Hn as Hnn. apply named_eq in Hnn as [Hdev Hno].
  destruct (disk_put_eff s1 i n (b_data b) (writes s ++ [(n, b_data b)]) (ef_inv _ _ _ _ _ _ E1) Hh1)
    as (x & Hx & E2); [apply Hok |].
  set (s2 := mk_bio _ _ _ _ _) in E2.
  pose proof (ef_inv _ _ _ _ _ _ E2) as Hi2.
  set (b2 := set_flags true false b1).
  assert (Hok2 : buf_ok (disk s2) (curpid s2) b2).
  { destruct (Forall_lookup_1 _ _ i b1 (bi_ok _ Hi2) Hb1) as [K1 K2 K3 K4 K5 K6 K7]. split; cbn; try done.
    - by left.
    - by rewrite Hl. }
  pose proof (put_eff s2 i b1 b2 n Hi2 Hb1 Hok2 Hn (or_introl Hn)) as E3.
  destruct (disk_block_some s n Hi) as (old & Hold & _); [rewrite <- Hno; by apply Hok |].
  exists (with_bufs (<[i := b2]> (bufs s2)) s2), (b_data b). split_and!; try done.
  - unfold bwrite. erewrite bind_ret by (eapply holding_ret; [done | done | by apply Hok]). cbn [negb].
    erewrite bind_ret by by apply get_buf_ret. erewrite bind_ret by done.
    erewrite iderw_write; [| exact Hb1 | done | by apply Hok | done | done | cbn; by rewrite Hno].
    unfold s2, with_bufs. cbn. by rewrite Hno.
  - cbn in E3. rewrite Hl in E3. eapply eff_trans; [| exact E3]. eapply eff_trans; [exact E1 | exact E2].
  - by eapply handle_put.
  - pose proof (busy_put s2 i b1 b2 Hb1) as HB. rewrite !decide_True in HB by by right.
    change (busy s2) with (busy s1) in HB. lia.
Qed.

(** [brelse] of a buffer that is pinned or agrees with the disk. *)
Lemma brelse_ok s i n : bio_inv s -> handle s i n ->
  (dirty_at s n = true \/ vblock s n = disk_block (disk s) n) ->
  exists s' x, brelse i s = Ret tt s' /\ vblock s n = Some x /\ eff s s' n x (dirty_at s n) false /\
    disk s' = disk s /\ writes s' = writes s /\
    (busy s' + (if dirty_at s n then 0 else 1) = busy s)%nat.
Proof.
  intros Hi Hh Hc. destruct (handle_view s i n Hi Hh) as (b & Hb & Hn & Hl & Hv & Hd & Hhd & Hok).
  set (b2 := set_refcnt (refcnt b - 1) (set_lock (mk_sl false 0) b)).
  pose proof Hn as Hnn. apply named_eq in Hnn as [Hdev Hno].
  pose proof (bo_ref _ _ _ Hok) as Href. rewrite Hl in Href.
  assert (Hok2 : buf_ok (disk s) (curpid s) b2).
  { destruct Hok as [H1 H2 H3 H4 H5 H6 H7]. split; cbn; try done; [lia | by left |].
    intros _ Hdf _. rewrite Hno, <- Hv. symmetry. destruct Hc as [Hc | Hc]; [congruence | done]. }
  pose proof (put_eff s i b b2 n Hi Hb Hok2 Hn (or_introl Hn)) as E2.
  set (s2 := with_bufs (<[i := b2]> (bufs s)) s) in E2.
  exists (with_lru (i :: filter (.≠ i) (lru s)) s2), (b_data b). split_and!; try done.
  - unfold brelse. erewrite bind_ret by (eapply holding_ret; [done | done | by apply Hok]). cbn [negb].
    unfold releasesleep. erewrite bind_ret by (by erewrite bind_ret by by apply get_buf_ret).
    erewrite bind_ret by (apply get_buf_ret; by eapply put_lookup). erewrite bind_ret by done.
    rewrite put_put. cbn [refcnt set_lock]. destruct (Z.eqb_spec (refcnt b - 1) 0); [done | lia].
  - rewrite Hd. destruct E2 as [Ei ? ? ? ? ? ?]. split; try done.
    destruct Ei as [I1 I2 I3 I4 I5]. split; try done. cbn. rewrite <- I2. cbn.
    assert (Hin : i ∈ lru s) by (apply list_elem_of_In; by eapply in_lru).
    assert (Hnd : NoDup (lru s)) by (rewrite (bi_lru s Hi); apply NoDup_seq).
    apply NoDup_Permutation; [| done |].
    + constructor; [rewrite list_elem_of_filter; tauto | by apply NoDup_filter].
    + intros j. rewrite elem_of_cons, list_elem_of_filter. destruct (decide (j = i)) as [-> |]; tauto.
  - pose proof (busy_put s i b b2 Hb) as HB. rewrite (decide_True (P := busy_buf b)) in HB by by right.
    fold s2 in HB. change (busy (with_lru _ s2)) with (busy s2). rewrite Hd.
    destruct (b_dirty b) eqn:Hbd; [rewrite decide_True in HB by by left |
      rewrite decide_False in HB by (unfold busy_buf; cbn; rewrite Hbd; by intros [? | ?])]; lia.
Qed.

(** ** The cache against a plain disk *)
Inductive cmd := RD (n : Z) | WR (n : Z) (x : blk).

(** Reading a block, and writing one through the cache. *)
Definition exec_cmd (c : cmd) : M bio (option blk) :=
  match c with
  | RD n => i ← bread ROOTDEV n; x ← bdata i; brelse i;; mret (Some x)
  | WR n x => i ← bread ROOTDEV n; bstore i x;; bwrite i;; brelse i;; mret None
  end.
Fixpoint exec_cmds (cs : list cmd) : M bio (list (option blk)) :=
  match cs with
  | [] => mret []
  | c :: cs' => r ← exec_cmd c; rs ← exec_cmds cs'; mret (r :: rs)
  end.

Definition plain_cmd (c : cmd) (d : list blk) : option blk * list blk :=
  match c with
  | RD n => (disk_block d n, d)
  | WR n x => (None, <[Z.to_nat n := x]> d)
  end.
Fixpoint plain_cmds (cs : list cmd) (d : list blk) : list (option blk) * list blk :=
  match cs with
  | [] => ([], d)
  | c :: cs' => let r := plain_cmd c d in let rs := plain_cmds cs' r.2 in (r.1 :: rs.1, rs.2)
  end.

Definition cmd_ok (len : nat) (c : cmd) : Prop :=
  match c with
  | RD n => 0 <= n < Z.of_nat len
  | WR n x => 0 <= n < Z.of_nat len /\ length x = BSIZE
  end.

(** Between commands no buffer is held or pinned. *)
Record quiet (s : bio) : Prop := {
  q_inv : bio_inv s;
  q_held : forall n, held_at s n = false;
  q_dirty : forall n, dirty_at s n = false;
  q_busy : busy s = 0%nat
}.

Lemma binit_quiet d pid : Forall (fun x => length x = BSIZE) d -> quiet (binit d pid).
Proof.
  intros Hd. split; [by apply binit_inv | done | done | done].
Qed.

Lemma exec_cmd_ok c s : quiet s -> cmd_ok (length (disk s)) c ->
  exists s', exec_cmd c s = Ret (plain_cmd c (disk s)).1 s' /\ quiet s' /\
    disk s' = (plain_cmd c (disk s)).2 /\ length (disk s') = length (disk s).
Proof.
  intros [Hi Hh Hd Hb] Hc. destruct c as [n | n y]; cbn [exec_cmd plain_cmd fst snd].
  - destruct (bread_ok s n Hi Hc (Hh n)) as (i & s1 & x & E1 & Hx & Hlx & F1 & Hn1 & D1 & W1 & B1);
      [right; rewrite Hb; unfold NBUF; lia |].
    pose proof (ef_inv _ _ _ _ _ _ F1) as Hi1. rewrite Hd in *.
    erewrite bind_ret by exact E1.
    destruct (bdata_ok s1 i n Hi1 Hn1) as (x' & E2 & Hx' & _). erewrite bind_ret by exact E2.
    assert (x' = x) as -> by (pose proof (ef_view _ _ _ _ _ _ F1 n) as Hv; rewrite decide_True in Hv by done; congruence).
    rewrite (clean_view s n Hi (Hd n) (Hh n)) in Hx.
    destruct (brelse_ok s1 i n Hi1 Hn1) as (s2 & x2 & E3 & Hx2 & F2 & D2 & W2 & B2); [right; by rewrite D1, Hx', Hx |].
    erewrite bind_ret by exact E3. exists s2. rewrite Hx.
    assert (Hd1 : dirty_at s1 n = false) by (rewrite (ef_dirty _ _ _ _ _ _ F1); by rewrite decide_True).
    rewrite Hd1 in *. split; [done |]. split; [| split; congruence]. split.
    + apply F2.
    + intros m. rewrite (ef_held _ _ _ _ _ _ F2). case_decide; [done |].
      rewrite (ef_held _ _ _ _ _ _ F1). by rewrite decide_False.
    + intros m. rewrite (ef_dirty _ _ _ _ _ _ F2). case_decide; [done |].
      rewrite (ef_dirty _ _ _ _ _ _ F1). by rewrite decide_False.
    + lia.
  - destruct Hc as [Hc Hy].
    destruct (bread_ok s n Hi Hc (Hh n)) as (i & s1 & x & E1 & Hx & Hlx & F1 & Hn1 & D1 & W1 & B1);
      [right; rewrite Hb; unfold NBUF; lia |].
    pose proof (ef_inv _ _ _ _ _ _ F1) as Hi1. rewrite Hd in *. erewrite bind_ret by exact E1.
    destruct (bstore_ok s1 i n y Hi1 Hn1 Hy) as (s2 & E2 & F2 & Hn2 & D2 & W2 & B2). erewrite bind_ret by exact E2.
    pose proof (ef_inv _ _ _ _ _ _ F2) as Hi2.
    destruct (bwrite_ok s2 i n Hi2 Hn2) as (s3 & x3 & E3 & Hx3 & F3 & Hn3 & D3 & W3 & B3). erewrite bind_ret by exact E3.
    pose proof (ef_inv _ _ _ _ _ _ F3) as Hi3.
    assert (x3 = y) as -> by (pose proof (ef_view _ _ _ _ _ _ F2 n) as Hv; rewrite decide_True in Hv by done; congruence).
    assert (Hv3 : vblock s3 n = Some y) by (rewrite (ef_view _ _ _ _ _ _ F3); by rewrite decide_True).
    destruct (brelse_ok s3 i n Hi3 Hn3) as (s4 & x4 & E4 & Hx4 & F4 & D4 & W4 & B4).
    { right. rewrite Hv3, D3, D2, D1, disk_block_insert by done. by rewrite decide_True. }
    erewrite bind_ret by exact E4. exists s4.
    assert (Hd3 : dirty_at s3 n = false) by (rewrite (ef_dirty _ _ _ _ _ _ F3); by rewrite decide_True).
    rewrite Hd3 in *. pose proof (eff_trans _ _ _ _ _ _ _ _ _ _ (eff_trans _ _ _ _ _ _ _ _ _ _ (eff_trans _ _ _ _ _ _ _ _ _ _ F1 F2) F3) F4) as F.
    split; [done |]. split; [split |].
    + apply F.
    + intros m. rewrite (ef_held _ _ _ _ _ _ F). by case_decide.
    + intros m. rewrite (ef_dirty _ _ _ _ _ _ F). by case_decide.
    + lia.
    + rewrite D4, D3, D2, D1. split; [done | by rewrite length_insert].
Qed.

(** C8. Transparency of the buffer cache: any sequence of block reads and
    writes through [bread], [bwrite] and [brelse], however many blocks it
    touches and whatever is recycled, returns what the same sequence returns
    on a plain array of blocks, leaves the disk as it would leave the array,
    and never panics or sleeps. *)
Theorem cache_refines_disk (cs : list cmd) (s : bio) (Hq : quiet s)
  (Hc : Forall (cmd_ok (length (disk s))) cs) :
  exists s', exec_cmds cs s = Ret (plain_cmds cs (disk s)).1 s' /\ quiet s' /\
    disk s' = (plain_cmds cs (disk s)).2.
Proof.
  revert s Hq Hc. induction cs as [| c cs IH]; intros s Hq Hc; [by exists s |].
  apply Forall_cons in Hc as [Hc Hcs].
  destruct (exec_cmd_ok c s Hq Hc) as (s1 & E1 & Hq1 & D1 & L1).
  destruct (IH s1 Hq1) as (s2 & E2 & Hq2 & D2); [by rewrite L1 |].
  exists s2. cbn [exec_cmds plain_cmds fst snd]. rewrite <- D1.
  erewrite bind_ret by exact E1. by erewrite bind_ret by exact E2.
Qed.

Definition demo_disk : list blk := replicate 40 (replicate BSIZE 0).

Lemma cache_refines_disk_witness :
  exists s', exec_cmds [WR 5 (replicate BSIZE 7); RD 6; RD 5] (binit demo_disk 1) =
    Ret [None; Some (replicate BSIZE 0); Some (replicate BSIZE 7)] s'.
Proof.
  destruct (cache_refines_disk [WR 5 (replicate BSIZE 7); RD 6; RD 5] (binit demo_disk 1)) as (s' & E & _).
  - apply binit_quiet. apply Forall_replicate. reflexivity.
  - repeat constructor; cbn; lia.
  - exists s'. exact E.
Defined.
