(* ===== verification/Log.v ===== *)
(** * Log: project3/xv6-modified/log.c, the write-ahead log

    The operations of log.c on the state of the buffer cache, in the order of
    their disk writes.  [log.lock] protects the in-memory header only; the code
    between [begin_op] and [end_op] of one process runs here, and a wait for
    log space or for a commit ends in [Block].  A crash keeps the disk and
    loses the cache and the in-memory header. *)

From Stdlib Require Import ZArith Lia.
From stdpp Require Import base numbers strings option list.
From S2P Require Import Prelude Bio.

Definition MAXOPBLOCKS : Z := 10.
Definition LOGSIZE : nat := 30.

Record logheader := mk_lh { lh_n : Z; lh_block : list Z }.

(** The cache and [struct log]. *)
Record logst := mk_log {
  lbio : bio;
  l_start : Z;
  l_size : Z;
  outstanding : Z;
  committing : bool;
  l_dev : Z;
  lh : logheader
}.

Definition with_lbio (b : bio) (s : logst) : logst :=
  mk_log b (l_start s) (l_size s) (outstanding s) (committing s) (l_dev s) (lh s).
Definition with_outstanding (n : Z) (s : logst) : logst :=
  mk_log (lbio s) (l_start s) (l_size s) n (committing s) (l_dev s) (lh s).
Definition with_committing (b : bool) (s : logst) : logst :=
  mk_log (lbio s) (l_start s) (l_size s) (outstanding s) b (l_dev s) (lh s).
Definition with_lh (h : logheader) (s : logst) : logst :=
  mk_log (lbio s) (l_start s) (l_size s) (outstanding s) (committing s) (l_dev s) h.

(** A call into the buffer cache. *)
Definition bcall {A : Type} (m : M bio A) : M logst A := fun s =>
  match m (lbio s) with
  | Ret a b => Ret a (with_lbio b s)
  | Stop msg => Stop msg
  | Block c b => Block c (with_lbio b s)
  | OutOfFuel => OutOfFuel
  end.

(** ** The header block: [n] at offset 0, [block[i]] at offset [4 + 4 * i] *)
Definition hdr_n (x : blk) : Z := int32_val (slice 0 4 x).
Definition hdr_block (x : blk) (i : nat) : Z := int32_val (slice (4 + 4 * i) 4 x).
Definition put_n (n : Z) (x : blk) : blk := splice 0 (int32_bytes n) x.
Definition put_block (i : nat) (v : Z) (x : blk) : blk := splice (4 + 4 * i) (int32_bytes v) x.

(** [log.lh.block[i]]; outside the array the access is undefined. *)
Definition log_block (i : nat) : M logst Z :=
  h ← gets lh; from_option "log.lh.block out of bounds" (lh_block h !! i).

(** ** Installing and writing *)

(** [k] iterations of the loop of [install_trans], from [tail]. *)
Fixpoint install_loop (k tail : nat) : M logst unit :=
  match k with
  | O => skip
  | S k' =>
      start ← gets l_start;
      dev ← gets l_dev;
      lbuf ← bcall (bread dev (u32 (start + Z.of_nat tail + 1)));
      b ← log_block tail;
      dbuf ← bcall (bread dev (u32 b));
      x ← bcall (bdata lbuf);
      bcall (bstore dbuf x);;
      bcall (bwrite dbuf);;
      bcall (brelse lbuf);;
      bcall (brelse dbuf);;
      install_loop k' (S tail)
  end.
Definition install_trans : M logst unit :=
  h ← gets lh; install_loop (Z.to_nat (lh_n h)) 0.

(** The loop of [read_head]: entries [i], [i+1], ... of the header [x]. *)
Fixpoint read_blocks (k i : nat) (x : blk) (bs : list Z) : option (list Z) :=
  match k with
  | O => Some bs
  | S k' => if (i <? LOGSIZE)%nat then read_blocks k' (S i) x (<[i := hdr_block x i]> bs) else None
  end.
Definition read_head : M logst unit :=
  start ← gets l_start;
  dev ← gets l_dev;
  i ← bcall (bread dev (u32 start));
  x ← bcall (bdata i);
  h ← gets lh;
  bs ← from_option "log.lh.block out of bounds" (read_blocks (Z.to_nat (hdr_n x)) 0 x (lh_block h));
  modify (with_lh (mk_lh (hdr_n x) bs));;
  bcall (brelse i).

Fixpoint put_blocks (i : nat) (bs : list Z) (x : blk) : blk :=
  match bs with
  | [] => x
  | b :: bs' => put_blocks (S i) bs' (put_block i b x)
  end.
Definition write_head : M logst unit :=
  start ← gets l_start;
  dev ← gets l_dev;
  i ← bcall (bread dev (u32 start));
  x ← bcall (bdata i);
  h ← gets lh;
  bcall (bstore i (put_blocks 0 (take (Z.to_nat (lh_n h)) (lh_block h)) (put_n (lh_n h) x)));;
  bcall (bwrite i);;
  bcall (brelse i).

Definition clear_lh : M logst unit :=
  modify (fun s => with_lh (mk_lh 0 (lh_block (lh s))) s).

Definition recover_from_log : M logst unit :=
  read_head;; install_trans;; clear_lh;; write_head.

(** [initlog], with the superblock fields it reads; [log] is zero-initialised. *)
Definition initlog (b : bio) (logstart nlog : Z) : outcome logst unit :=
  recover_from_log (mk_log b logstart nlog 0 false ROOTDEV (mk_lh 0 (replicate LOGSIZE 0))).

(** ** Transactions *)
Definition begin_op : M logst unit :=
  s ← get;
  if committing s then block "log"
  else if lh_n (lh s) + (outstanding s + 1) * MAXOPBLOCKS >? Z.of_nat LOGSIZE then block "log"
  else modify (with_outstanding (outstanding s + 1)).

Fixpoint write_loop (k tail : nat) : M logst unit :=
  match k with
  | O => skip
  | S k' =>
      start ← gets l_start;
      dev ← gets l_dev;
      to ← bcall (bread dev (u32 (start + Z.of_nat tail + 1)));
      b ← log_block tail;
      from ← bcall (bread dev (u32 b));
      x ← bcall (bdata from);
      bcall (bstore to x);;
      bcall (bwrite to);;
      bcall (brelse from);;
      bcall (brelse to);;
      write_loop k' (S tail)
  end.
Definition write_log : M logst unit :=
  h ← gets lh; write_loop (Z.to_nat (lh_n h)) 0.

Definition commit : M logst unit :=
  h ← gets lh;
  if lh_n h >? 0 then write_log;; write_head;; install_trans;; clear_lh;; write_head
  else skip.

Definition end_op : M logst unit :=
  s ← get;
  let n := outstanding s - 1 in
  modify (with_outstanding n);;
  if committing s then stop "log.committing" else
  if n =? 0 then
    modify (with_committing true);;
    commit;;
    modify (with_committing false)
  else skip.

(** [log_write(b)] for the buffer [i]. *)
Definition log_write (i : nat) : M logst unit :=
  s ← get;
  let h := lh s in
  if (lh_n h >=? Z.of_nat LOGSIZE) || (lh_n h >=? l_size s - 1) then stop "too big a transaction" else
  if outstanding s <? 1 then stop "log_write outside of trans" else
  b ← bcall (get_buf i);
  let entries := take (Z.to_nat (lh_n h)) (lh_block h) in
  let k := default (length entries) (find_index (fun e => u32 e =? b_blockno b) entries) in
  modify (with_lh (mk_lh (if decide (k = length entries) then lh_n h + 1 else lh_n h)
                     (<[k := s32 (b_blockno b)]> (lh_block h))));;
  bcall (put_buf i (set_flags (b_valid b) true b)).

(** ** Lemmas on the cache that the log needs *)

(** Between calls: the block [n] got content [x] and is unpinned; nothing is
    held that was not held before. *)
Record copied (s s' : bio) (n : Z) (x : blk) : Prop := {
  cp_inv : bio_inv s';
  cp_view : forall m, vblock s' m = if decide (m = n) then Some x else vblock s m;
  cp_dirty : forall m, dirty_at s' m = if decide (m = n) then false else dirty_at s m;
  cp_held : forall m, held_at s' m = held_at s m;
  cp_disk : disk s' = <[Z.to_nat n := x]> (disk s);
  cp_writes : writes s' = writes s ++ [(n, x)];
  cp_busy : (busy s' + (if dirty_at s n then 1 else 0) = busy s)%nat
}.

Lemma copied_blk s s' n x : copied s s' n x -> 0 <= n < Z.of_nat (length (disk s)) -> length x = BSIZE.
Proof.
  intros C Hn. pose proof (bi_disk _ (cp_inv _ _ _ _ C)) as Hf. rewrite (cp_disk _ _ _ _ C) in Hf.
  apply (Forall_lookup_1 _ _ (Z.to_nat n) x Hf). apply list_lookup_insert_eq. lia.
Qed.

(** The block a process holds after a chain of steps. *)
Lemma eff_at s s' n x dt hd : eff s s' n x dt hd ->
  vblock s' n = Some x /\ dirty_at s' n = dt /\ held_at s' n = hd.
Proof.
  intros F. rewrite (ef_view _ _ _ _ _ _ F), (ef_dirty _ _ _ _ _ _ F), (ef_held _ _ _ _ _ _ F).
  by rewrite !decide_True.
Qed.
Lemma eff_off s s' n x dt hd m : eff s s' n x dt hd -> m <> n ->
  vblock s' m = vblock s m /\ dirty_at s' m = dirty_at s m /\ held_at s' m = held_at s m.
Proof.
  intros F Hm. rewrite (ef_view _ _ _ _ _ _ F), (ef_dirty _ _ _ _ _ _ F), (ef_held _ _ _ _ _ _ F).
  by rewrite !decide_False.
Qed.

(** Copying the block of one held buffer to another one and on to the disk,
    and letting both go. *)
Lemma copy_tail s si di src dst :
  bio_inv s -> handle s si src -> handle s di dst -> src <> dst ->
  (dirty_at s src = true \/ vblock s src = disk_block (disk s) src) ->
  exists x s3 s4 s5 s6, bdata si s = Ret x s /\ bstore di x s = Ret tt s3 /\ bwrite di s3 = Ret tt s4 /\
    brelse si s4 = Ret tt s5 /\ brelse di s5 = Ret tt s6 /\ vblock s src = Some x /\
    bio_inv s6 /\
    (forall m, vblock s6 m = if decide (m = dst) then Some x else vblock s m) /\
    (forall m, dirty_at s6 m = if decide (m = dst) then false else dirty_at s m) /\
    (forall m, held_at s6 m = if decide (m = src) then false else if decide (m = dst) then false else held_at s m) /\
    disk s6 = <[Z.to_nat dst := x]> (disk s) /\ writes s6 = writes s ++ [(dst, x)] /\
    (busy s6 + 1 + (if dirty_at s src then 0 else 1) = busy s)%nat.
Proof.
  intros Hi Hs Hd Hne Hc.
  destruct (bdata_ok s si src Hi Hs) as (x & E1 & Hx & Hlx).
  destruct (bstore_ok s di dst x Hi Hd Hlx) as (s3 & E2 & F2 & Hd2 & D2 & W2 & B2).
  pose proof (ef_handle _ _ _ _ _ _ F2 si src Hne Hs) as Hs2.
  destruct (bwrite_ok s3 di dst (ef_inv _ _ _ _ _ _ F2) Hd2) as (s4 & x4 & E3 & Hx4 & F3 & Hd3 & D3 & W3 & B3).
  assert (x4 = x) as -> by (rewrite (proj1 (eff_at _ _ _ _ _ _ F2)) in Hx4; congruence).
  pose proof (ef_handle _ _ _ _ _ _ F3 si src Hne Hs2) as Hs3.
  pose proof (eff_trans _ _ _ _ _ _ _ _ _ _ F2 F3) as F23.
  destruct (eff_off _ _ _ _ _ _ src F23 Hne) as (V3s & R3s & H3s).
  destruct (handle_view s di dst Hi Hd) as (bd & Hbd & Hnd & _ & _ & _ & _ & Hokd).
  assert (Hrd : 0 <= dst < Z.of_nat (length (disk s))) by (apply named_eq in Hnd as [? <-]; by apply Hokd).
  assert (D4 : disk s4 = <[Z.to_nat dst := x]> (disk s)) by by rewrite D3, D2.
  destruct (brelse_ok s4 si src (ef_inv _ _ _ _ _ _ F3) Hs3) as (s5 & x5 & E4 & Hx5 & F4 & D5 & W5 & B5).
  { rewrite R3s, V3s, D4, disk_block_insert by done. rewrite decide_False by done. exact Hc. }
  assert (Hne' : dst <> src) by done.
  pose proof (ef_handle _ _ _ _ _ _ F4 di dst Hne' Hd3) as Hd4.
  destruct (eff_off _ _ _ _ _ _ dst F4 Hne') as (V4d & R4d & _).
  destruct (eff_at _ _ _ _ _ _ F3) as (V3d & R3d & _).
  destruct (brelse_ok s5 di dst (ef_inv _ _ _ _ _ _ F4) Hd4) as (s6 & x6 & E5 & Hx6 & F5 & D6 & W6 & B6).
  { right. rewrite V4d, V3d, D5, D4, disk_block_insert by done. by rewrite decide_True. }
  exists x, s3, s4, s5, s6. split_and!; try done.
  - apply F5.
  - intros m. rewrite (ef_view _ _ _ _ _ _ F5). case_decide; [congruence |].
    rewrite (ef_view _ _ _ _ _ _ F4). case_decide as Hms; [subst m; congruence |].
    by apply (eff_off _ _ _ _ _ _ m F23).
  - intros m. rewrite (ef_dirty _ _ _ _ _ _ F5). case_decide; [congruence |].
    rewrite (ef_dirty _ _ _ _ _ _ F4). case_decide as Hms; [by subst m |].
    by apply (eff_off _ _ _ _ _ _ m F23).
  - intros m. rewrite (ef_held _ _ _ _ _ _ F5). case_decide; [by case_decide |].
    rewrite (ef_held _ _ _ _ _ _ F4). case_decide as Hms; [done |].
    by apply (eff_off _ _ _ _ _ _ m F23).
  - by rewrite D6, D5, D4.
  - by rewrite W6, W5, W3, W2.
  - rewrite R4d, R3d in B6. rewrite R3s in B5. destruct (dirty_at s src); lia.
Qed.

(** Two reads of different blocks, neither held. *)
Lemma bread2_ok s a b : bio_inv s -> a <> b ->
  0 <= a < Z.of_nat (length (disk s)) -> 0 <= b < Z.of_nat (length (disk s)) ->
  held_at s a = false -> held_at s b = false ->
  (dirty_at s a = true \/ (busy s < NBUF)%nat) ->
  (dirty_at s b = true \/ (busy s + (if dirty_at s a then 0 else 1) < NBUF)%nat) ->
  exists i j s1 s2, bread ROOTDEV a s = Ret i s1 /\ bread ROOTDEV b s1 = Ret j s2 /\
    bio_inv s2 /\ handle s2 i a /\ handle s2 j b /\ disk s2 = disk s /\ writes s2 = writes s /\
    (forall m, vblock s2 m = vblock s m) /\ (forall m, dirty_at s2 m = dirty_at s m) /\
    (forall m, m <> a -> m <> b -> held_at s2 m = held_at s m) /\
    (busy s2 = busy s + (if dirty_at s a then 0 else 1) + (if dirty_at s b then 0 else 1))%nat.
Proof.
  intros Hi Hne Ha Hb Hha Hhb Hra Hrb.
  destruct (bread_ok s a Hi Ha Hha Hra) as (i & s1 & x & E1 & Hx & _ & F1 & H1 & D1 & W1 & B1).
  destruct (eff_off _ _ _ _ _ _ b F1) as (V1 & R1 & L1); [done |].
  destruct (bread_ok s1 b (ef_inv _ _ _ _ _ _ F1)) as (j & s2 & y & E2 & Hy & _ & F2 & H2 & D2 & W2 & B2).
  { by rewrite D1. }
  { by rewrite L1. }
  { by rewrite R1, B1. }
  exists i, j, s1, s2. split_and!; try done.
  - apply F2.
  - by apply (ef_handle _ _ _ _ _ _ F2).
  - congruence.
  - congruence.
  - intros m. rewrite (ef_view _ _ _ _ _ _ F2). case_decide as Hm; [subst m; congruence |].
    rewrite (ef_view _ _ _ _ _ _ F1). case_decide as Hm2; [subst m; congruence | done].
  - intros m. rewrite (ef_dirty _ _ _ _ _ _ F2). case_decide as Hm; [subst m; congruence |].
    rewrite (ef_dirty _ _ _ _ _ _ F1). case_decide as Hm2; [by subst m | done].
  - intros m Hm1 Hm2. rewrite (ef_held _ _ _ _ _ _ F2), decide_False by done.
    by rewrite (ef_held _ _ _ _ _ _ F1), decide_False by done.
  - by rewrite B2, B1, R1.
Qed.

Lemma bcall_ret {A} (m : M bio A) s a b : m (lbio s) = Ret a b -> bcall m s = Ret a (with_lbio b s).
Proof. unfold bcall. by intros ->. Qed.

(** A cache in which no block is pinned or held has no busy buffer. *)
Lemma quiet_busy s : bio_inv s -> (forall m, dirty_at s m = false) -> (forall m, held_at s m = false) ->
  busy s = 0%nat.
Proof.
  intros Hi Hd Hh. unfold busy. apply length_zero_iff_nil.
  destruct (filter busy_buf (bufs s)) as [| b l] eqn:E; [done |]. exfalso.
  assert (Hin : b ∈ filter busy_buf (bufs s)) by (rewrite E; by left).
  apply list_elem_of_filter in Hin as [Hb Hin]. apply list_elem_of_lookup in Hin as [i Hl].
  pose proof (Forall_lookup_1 _ _ _ _ (bi_ok s Hi) Hl) as Hok.
  destruct (bo_dev _ _ _ Hok) as [Hdev | (_ & H1 & H2)].
  - assert (Hf : find_buf s (b_blockno b) = Some b)
      by (eapply find_buf_at; [apply Hi | exact Hl | by apply named_eq]).
    specialize (Hd (b_blockno b)). specialize (Hh (b_blockno b)). unfold dirty_at, held_at in *. rewrite Hf in *.
    destruct Hb; congruence.
  - destruct Hb; congruence.
Qed.

(** Reading a block and letting it go. *)
Lemma peek_ok s n : bio_inv s -> 0 <= n < Z.of_nat (length (disk s)) -> (forall m, held_at s m = false) ->
  dirty_at s n = false -> (busy s < NBUF)%nat ->
  exists i s1 x s2, bread ROOTDEV n s = Ret i s1 /\ bdata i s1 = Ret x s1 /\ brelse i s1 = Ret tt s2 /\
    vblock s n = Some x /\ bio_inv s2 /\ disk s2 = disk s /\ writes s2 = writes s /\ busy s2 = busy s /\
    (forall m, vblock s2 m = vblock s m) /\ (forall m, dirty_at s2 m = dirty_at s m) /\
    (forall m, held_at s2 m = false).
Proof.
  intros Hi Hn Hh Hd Hb.
  destruct (bread_ok s n Hi Hn (Hh n)) as (i & s1 & x & E1 & Hx & Hlx & F1 & Hn1 & D1 & W1 & B1); [by right |].
  pose proof (ef_inv _ _ _ _ _ _ F1) as Hi1. destruct (eff_at _ _ _ _ _ _ F1) as (V1 & R1 & _). rewrite Hd in *.
  destruct (bdata_ok s1 i n Hi1 Hn1) as (x' & E2 & Hx' & _). assert (x' = x) as -> by congruence.
  destruct (brelse_ok s1 i n Hi1 Hn1) as (s2 & x2 & E3 & Hx2 & F2 & D2 & W2 & B2).
  { right. rewrite V1, D1, <- Hx. by apply clean_view. }
  rewrite R1 in *. exists i, s1, x, s2. split_and!; try done; try congruence.
  - apply F2.
  - lia.
  - intros m. rewrite (ef_view _ _ _ _ _ _ F2). case_decide as Hm; [subst; congruence |].
    by rewrite (ef_view _ _ _ _ _ _ F1), decide_False.
  - intros m. rewrite (ef_dirty _ _ _ _ _ _ F2). case_decide as Hm; [by subst |].
    by rewrite (ef_dirty _ _ _ _ _ _ F1), decide_False.
  - intros m. rewrite (ef_held _ _ _ _ _ _ F2). case_decide; [done |].
    by rewrite (ef_held _ _ _ _ _ _ F1), decide_False.
Qed.

(** Reading a block, changing it and writing it to the disk. *)
Lemma rmw_ok s n (f : blk -> blk) : bio_inv s -> 0 <= n < Z.of_nat (length (disk s)) ->
  (forall m, held_at s m = false) -> dirty_at s n = false -> (busy s < NBUF)%nat ->
  (forall x, length x = BSIZE -> length (f x) = BSIZE) ->
  exists i s1 x s2 s3 s4, bread ROOTDEV n s = Ret i s1 /\ bdata i s1 = Ret x s1 /\
    bstore i (f x) s1 = Ret tt s2 /\ bwrite i s2 = Ret tt s3 /\ brelse i s3 = Ret tt s4 /\
    vblock s n = Some x /\ length x = BSIZE /\ copied s s4 n (f x).
Proof.
  intros Hi Hn Hh Hd Hb Hf.
  destruct (bread_ok s n Hi Hn (Hh n)) as (i & s1 & x & E1 & Hx & Hlx & F1 & Hn1 & D1 & W1 & B1); [by right |].
  pose proof (ef_inv _ _ _ _ _ _ F1) as Hi1. destruct (eff_at _ _ _ _ _ _ F1) as (V1 & R1 & _). rewrite Hd in *.
  destruct (bdata_ok s1 i n Hi1 Hn1) as (x' & E2 & Hx' & _). assert (x' = x) as -> by congruence.
  destruct (bstore_ok s1 i n (f x) Hi1 Hn1 (Hf x Hlx)) as (s2 & E3 & F2 & Hn2 & D2 & W2 & B2).
  pose proof (ef_inv _ _ _ _ _ _ F2) as Hi2.
  destruct (bwrite_ok s2 i n Hi2 Hn2) as (s3 & y & E4 & Hy & F3 & Hn3 & D3 & W3 & B3).
  assert (y = f x) as -> by (destruct (eff_at _ _ _ _ _ _ F2) as (V2 & _); congruence).
  pose proof (ef_inv _ _ _ _ _ _ F3) as Hi3. destruct (eff_at _ _ _ _ _ _ F3) as (V3 & R3 & _).
  destruct (brelse_ok s3 i n Hi3 Hn3) as (s4 & z & E5 & Hz & F4 & D4 & W4 & B4).
  { right. rewrite V3, D3, D2, D1, disk_block_insert by done. by rewrite decide_True. }
  pose proof (eff_trans _ _ _ _ _ _ _ _ _ _ (eff_trans _ _ _ _ _ _ _ _ _ _ (eff_trans _ _ _ _ _ _ _ _ _ _ F1 F2) F3) F4) as F.
  exists i, s1, x, s2, s3, s4. split_and!; try done. rewrite R3 in *. split.
  - apply F.
  - intros m. rewrite (ef_view _ _ _ _ _ _ F). case_decide; [congruence | done].
  - intros m. rewrite (ef_dirty _ _ _ _ _ _ F). by case_decide.
  - intros m. rewrite (ef_held _ _ _ _ _ _ F). case_decide; [by rewrite Hh | done].
  - by rewrite D4, D3, D2, D1.
  - by rewrite W4, W3, W2, W1.
  - rewrite Hd. lia.
Qed.

(** The header after [log_write]: the list of blocks, with [n] added once. *)
Definition add_block (n : Z) (L : list Z) : list Z := if decide (n ∈ L) then L else L ++ [n].

Lemma elem_add_block n L m : m ∈ add_block n L <-> m = n \/ m ∈ L.
Proof.
  unfold add_block. case_decide as Hn; [split; [by right | by intros [-> |]] |].
  rewrite elem_of_app, list_elem_of_singleton. tauto.
Qed.

Lemma vblock_len b m x : bio_inv b -> vblock b m = Some x -> length x = BSIZE.
Proof.
  intros Hi. unfold vblock. destruct (find_buf b m) as [c |] eqn:E.
  - intros [= <-]. apply find_buf_index in E as (i & Hc & _). apply (Forall_lookup_1 _ _ _ _ (bi_ok b Hi) Hc).
  - unfold disk_block. destruct (m <? 0); [done |]. intros Hx. apply (Forall_lookup_1 _ _ _ _ (bi_disk b Hi) Hx).
Qed.

Lemma vblock_some b m : bio_inv b -> 0 <= m < Z.of_nat (length (disk b)) -> exists x, vblock b m = Some x /\ length x = BSIZE.
Proof.
  intros Hi Hm. destruct (vblock b m) as [x |] eqn:E; [exists x; split; [done | by eapply vblock_len] |].
  unfold vblock in E. destruct (find_buf b m); [done |]. destruct (disk_block_some b m Hi Hm) as (x & Hx & _). congruence.
Qed.

(** ** Disk writes in order *)
Definition apply_write (d : list blk) (w : Z * blk) : list blk := <[Z.to_nat w.1 := w.2]> d.
Definition apply_writes (d : list blk) (ws : list (Z * blk)) : list blk := foldl apply_write d ws.

Lemma apply_writes_app d w1 w2 : apply_writes d (w1 ++ w2) = apply_writes (apply_writes d w1) w2.
Proof. apply foldl_app. Qed.
Lemma length_apply_writes d ws : length (apply_writes d ws) = length d.
Proof.
  revert d. induction ws as [| w ws IH]; intros d; cbn; [done |].
  fold (apply_writes (apply_write d w) ws). rewrite IH. apply length_insert.
Qed.
Lemma apply_writes_off d ws m : Forall (fun w : Z * blk => 0 <= w.1 < Z.of_nat (length d) /\ w.1 <> m) ws ->
  disk_block (apply_writes d ws) m = disk_block d m.
Proof.
  revert d. induction ws as [| w ws IH]; intros d Hf; [done |]. apply Forall_cons in Hf as [[Hr Hm] Hf].
  change (apply_writes d (w :: ws)) with (apply_writes (apply_write d w) ws). rewrite IH.
  - unfold apply_write. rewrite disk_block_insert by done. by rewrite decide_False by congruence.
  - unfold apply_write. by rewrite length_insert.
Qed.

Section geometry.
(** The log occupies blocks [st .. st + sz - 1] of a disk of [len] blocks, its
    header block first. *)
Context (st sz len : Z) (Hgeo : 0 <= st /\ 0 < sz <= 30 /\ st + sz <= len /\ len < 2 ^ 31).

Definition in_log (m : Z) : Prop := st <= m < st + sz.
Definition home (m : Z) : Prop := 0 <= m < len /\ ~ in_log m.

Record lok (s : logst) : Prop := {
  lo_inv : bio_inv (lbio s);
  lo_dev : l_dev s = ROOTDEV;
  lo_start : l_start s = st;
  lo_size : l_size s = sz;
  lo_len : Z.of_nat (length (disk (lbio s))) = len;
  lo_held : forall m, held_at (lbio s) m = false;
  lo_blocks : length (lh_block (lh s)) = LOGSIZE
}.

Lemma lok_copied s b n x : lok s -> copied (lbio s) b n x -> lok (with_lbio b s).
Proof.
  intros [] []. split; cbn; try done; [by rewrite cp_disk0, length_insert |].
  intros m. by rewrite cp_held0.
Qed.

Lemma u32_block m : 0 <= m < len -> u32 m = m.
Proof. intros. apply u32_small. lia. Qed.

(** From [bread2_ok] and [copy_tail]. *)
Lemma copied_intro s s2 s6 src dst x :
  (forall m, held_at s m = false) ->
  (forall m, vblock s2 m = vblock s m) -> (forall m, dirty_at s2 m = dirty_at s m) ->
  (forall m, m <> src -> m <> dst -> held_at s2 m = held_at s m) ->
  disk s2 = disk s -> writes s2 = writes s ->
  (busy s2 = busy s + (if dirty_at s src then 0 else 1) + (if dirty_at s dst then 0 else 1))%nat ->
  bio_inv s6 ->
  (forall m, vblock s6 m = if decide (m = dst) then Some x else vblock s2 m) ->
  (forall m, dirty_at s6 m = if decide (m = dst) then false else dirty_at s2 m) ->
  (forall m, held_at s6 m = if decide (m = src) then false else if decide (m = dst) then false else held_at s2 m) ->
  disk s6 = <[Z.to_nat dst := x]> (disk s2) -> writes s6 = writes s2 ++ [(dst, x)] ->
  (busy s6 + 1 + (if dirty_at s2 src then 0 else 1) = busy s2)%nat ->
  copied s s6 dst x.
Proof.
  intros Hh V2 R2 H2 D2 W2 B2 Hi V6 R6 H6 D6 W6 B6. split; try done.
  - intros m. rewrite V6. by case_decide.
  - intros m. rewrite R6. by case_decide.
  - intros m. rewrite H6, (Hh m). repeat case_decide; try done. rewrite H2 by done. apply Hh.
  - by rewrite D6, D2.
  - by rewrite W6, W2.
  - rewrite R2 in B6. destruct (dirty_at s src), (dirty_at s dst); lia.
Qed.

(** One iteration of [install_trans]: log block [t] goes home. *)
Lemma install_step s t b k : lok s -> lh_block (lh s) !! t = Some b -> home b ->
  Z.of_nat t + 1 < sz -> dirty_at (lbio s) (st + Z.of_nat t + 1) = false ->
  (busy (lbio s) < NBUF)%nat -> (dirty_at (lbio s) b = true \/ (busy (lbio s) + 1 < NBUF)%nat) ->
  exists b' x, install_loop (S k) t s = install_loop k (S t) (with_lbio b' s) /\
    copied (lbio s) b' b x /\ vblock (lbio s) (st + Z.of_nat t + 1) = Some x.
Proof.
  intros [Hi Hdev Hst Hsz Hlen Hh _] Hb [Hbr Hnl] Ht Hd Hr1 Hr2. set (a := st + Z.of_nat t + 1) in *.
  assert (Hne : a <> b) by (intros <-; apply Hnl; unfold in_log, a; lia).
  destruct (bread2_ok (lbio s) a b Hi Hne) as (i & j & s1 & s2 & E1 & E2 & Hi2 & Ha2 & Hb2 & D2 & W2 & V2 & R2 & H2 & B2);
    [lia | lia | apply Hh | apply Hh | by right | rewrite Hd; exact Hr2 |].
  destruct (copy_tail s2 i j a b Hi2 Ha2 Hb2 Hne) as (x & s3 & s4 & s5 & s6 & T1 & T2 & T3 & T4 & T5 & Tx & Ti & TV & TR & TH & TD & TW & TB).
  { right. rewrite V2, D2. apply clean_view; [done | done | apply Hh]. }
  exists s6, x. split_and!.
  - cbn [install_loop]. erewrite bind_ret by done. erewrite bind_ret by done. rewrite Hst, Hdev.
    rewrite (u32_block (st + Z.of_nat t + 1)) by lia. fold a.
    erewrite bind_ret by (apply bcall_ret; exact E1).
    erewrite bind_ret by (unfold log_block; erewrite bind_ret by done; cbn; by rewrite Hb).
    rewrite (u32_block b) by done.
    erewrite bind_ret by (apply bcall_ret; exact E2). erewrite bind_ret by (apply bcall_ret; exact T1).
    erewrite bind_ret by (apply bcall_ret; exact T2). erewrite bind_ret by (apply bcall_ret; exact T3).
    erewrite bind_ret by (apply bcall_ret; exact T4). by erewrite bind_ret by (apply bcall_ret; exact T5).
  - by eapply (copied_intro (lbio s) s2 s6 a b x).
  - by rewrite <- V2.
Qed.

(** One iteration of [write_log]: the cached block goes to log block [t]. *)
Lemma log_copy_step s t b k : lok s -> lh_block (lh s) !! t = Some b -> home b ->
  Z.of_nat t + 1 < sz -> dirty_at (lbio s) (st + Z.of_nat t + 1) = false ->
  (busy (lbio s) < NBUF)%nat -> dirty_at (lbio s) b = true ->
  exists b' x, write_loop (S k) t s = write_loop k (S t) (with_lbio b' s) /\
    copied (lbio s) b' (st + Z.of_nat t + 1) x /\ vblock (lbio s) b = Some x.
Proof.
  intros [Hi Hdev Hst Hsz Hlen Hh _] Hb [Hbr Hnl] Ht Hd Hr1 Hr2. set (a := st + Z.of_nat t + 1) in *.
  assert (Hne : a <> b) by (intros <-; apply Hnl; unfold in_log, a; lia).
  destruct (bread2_ok (lbio s) a b Hi Hne) as (i & j & s1 & s2 & E1 & E2 & Hi2 & Ha2 & Hb2 & D2 & W2 & V2 & R2 & H2 & B2);
    [lia | lia | apply Hh | apply Hh | by right | by left |].
  destruct (copy_tail s2 j i b a Hi2 Hb2 Ha2) as (x & s3 & s4 & s5 & s6 & T1 & T2 & T3 & T4 & T5 & Tx & Ti & TV & TR & TH & TD & TW & TB);
    [done | left; by rewrite R2 |].
  exists s6, x. split_and!.
  - cbn [write_loop]. erewrite bind_ret by done. erewrite bind_ret by done. rewrite Hst, Hdev.
    rewrite (u32_block (st + Z.of_nat t + 1)) by lia. fold a.
    erewrite bind_ret by (apply bcall_ret; exact E1).
    erewrite bind_ret by (unfold log_block; erewrite bind_ret by done; cbn; by rewrite Hb).
    rewrite (u32_block b) by done.
    erewrite bind_ret by (apply bcall_ret; exact E2). erewrite bind_ret by (apply bcall_ret; exact T1).
    erewrite bind_ret by (apply bcall_ret; exact T2). erewrite bind_ret by (apply bcall_ret; exact T3).
    erewrite bind_ret by (apply bcall_ret; exact T4). by erewrite bind_ret by (apply bcall_ret; exact T5).
  - eapply (copied_intro (lbio s) s2 s6 b a x); try done; [| lia].
    intros m Hm1 Hm2. by apply H2.
  - by rewrite <- V2.
Qed.

Lemma install_loop_ok Ls xs t s : lok s ->
  (forall k b, Ls !! k = Some b -> lh_block (lh s) !! (t + k)%nat = Some b) -> Forall home Ls ->
  Z.of_nat (t + length Ls) < sz -> length xs = length Ls ->
  (forall k x, xs !! k = Some x -> vblock (lbio s) (st + Z.of_nat (t + k) + 1) = Some x) ->
  (forall m, in_log m -> dirty_at (lbio s) m = false) ->
  (busy (lbio s) < NBUF)%nat ->
  (forall b, b ∈ Ls -> dirty_at (lbio s) b = true \/ (busy (lbio s) + 1 < NBUF)%nat) -> NoDup Ls ->
  exists b', install_loop (length Ls) t s = Ret tt (with_lbio b' s) /\ lok (with_lbio b' s) /\
    disk b' = apply_writes (disk (lbio s)) (zip Ls xs) /\ writes b' = writes (lbio s) ++ zip Ls xs /\
    (forall m, m ∉ Ls -> vblock b' m = vblock (lbio s) m) /\
    (forall m, dirty_at b' m = if decide (m ∈ Ls) then false else dirty_at (lbio s) m) /\
    (busy b' <= busy (lbio s))%nat.
Proof.
  revert xs t s. induction Ls as [| b Ls IH]; intros xs t s Hok Hlh Hhome Ht Hlen Hxs Hlog Hb1 Hb2 Hnd.
  { exists (lbio s). destruct xs; [| done]. destruct s. cbn. rewrite app_nil_r. by split_and!. }
  destruct xs as [| x xs]; [done |]. apply Forall_cons in Hhome as [Hb Hhome]. cbn [length] in *.
  apply NoDup_cons in Hnd as [Hnin Hnd].
  destruct (install_step s t b (length Ls) Hok) as (b1 & x' & E1 & C1 & Hx').
  { rewrite <- (Nat.add_0_r t). by apply Hlh. }
  { done. }
  { lia. }
  { apply Hlog. unfold in_log. lia. }
  { done. }
  { apply Hb2. by left. }
  assert (x' = x) as ->.
  { specialize (Hxs 0%nat x eq_refl). rewrite Nat.add_0_r in Hxs. congruence. }
  pose proof (cp_busy _ _ _ _ C1) as HB1.
  assert (Hnl : forall m, in_log m -> m <> b) by (intros m Hm ->; by apply Hb).
  destruct (IH xs (S t) (with_lbio b1 s)) as (b2 & E2 & Hok2 & D2 & W2 & V2 & R2 & B2).
  { by eapply lok_copied. }
  { intros k c Hc. replace (S t + k)%nat with (t + S k)%nat by lia. by apply Hlh. }
  { done. }
  { lia. }
  { lia. }
  { intros k y Hy. cbn [lbio with_lbio]. rewrite (cp_view _ _ _ _ C1), decide_False.
    - specialize (Hxs (S k) y Hy). by replace (S t + k)%nat with (t + S k)%nat by lia.
    - apply Hnl. apply lookup_lt_Some in Hy. unfold in_log. lia. }
  { intros m Hm. cbn. rewrite (cp_dirty _ _ _ _ C1), decide_False by auto. auto. }
  { cbn. lia. }
  { intros c Hc. cbn. rewrite (cp_dirty _ _ _ _ C1), decide_False by (intros ->; done).
    destruct (Hb2 c ltac:(by right)) as [? | ?]; [by left | right; lia]. }
  { done. }
  exists b2. cbn [lbio with_lbio] in *. split_and!; try done.
  - by rewrite E1, E2.
  - by rewrite D2, (cp_disk _ _ _ _ C1).
  - by rewrite W2, (cp_writes _ _ _ _ C1), <- (assoc_L (++)).
  - intros m [Hm1 Hm2]%not_elem_of_cons. rewrite V2 by done. by rewrite (cp_view _ _ _ _ C1), decide_False.
  - intros m. rewrite R2, (cp_dirty _ _ _ _ C1). destruct (decide (m = b)) as [-> | Hm].
    + rewrite (decide_True (P := b ∈ b :: Ls)) by by left. by case_decide.
    + destruct (decide (m ∈ Ls)); [by rewrite decide_True by by right |].
      rewrite (decide_False (P := m ∈ b :: Ls)); [done |]. by apply not_elem_of_cons.
  - lia.
Qed.

(** The log blocks [t], [t+1], ... with their contents. *)
Fixpoint log_pairs (t : nat) (xs : list blk) : list (Z * blk) :=
  match xs with
  | [] => []
  | x :: xs' => (st + Z.of_nat t + 1, x) :: log_pairs (S t) xs'
  end.

Lemma log_copy_ok Ls t s : lok s ->
  (forall k b, Ls !! k = Some b -> lh_block (lh s) !! (t + k)%nat = Some b) -> Forall home Ls ->
  Z.of_nat (t + length Ls) < sz ->
  (forall m, in_log m -> dirty_at (lbio s) m = false) ->
  (busy (lbio s) < NBUF)%nat -> (forall b, b ∈ Ls -> dirty_at (lbio s) b = true) ->
  exists b' xs, write_loop (length Ls) t s = Ret tt (with_lbio b' s) /\ lok (with_lbio b' s) /\
    length xs = length Ls /\
    (forall k b x, Ls !! k = Some b -> xs !! k = Some x -> vblock (lbio s) b = Some x) /\
    disk b' = apply_writes (disk (lbio s)) (log_pairs t xs) /\ writes b' = writes (lbio s) ++ log_pairs t xs /\
    (forall m, (m < st + Z.of_nat t + 1 \/ st + Z.of_nat (t + length Ls) < m) -> vblock b' m = vblock (lbio s) m) /\
    (forall k x, xs !! k = Some x -> vblock b' (st + Z.of_nat (t + k) + 1) = Some x) /\
    (forall m, dirty_at b' m = dirty_at (lbio s) m) /\ busy b' = busy (lbio s).
Proof.
  revert t s. induction Ls as [| b Ls IH]; intros t s Hok Hlh Hhome Ht Hlog Hb1 Hb2.
  { exists (lbio s), []. destruct s. cbn. rewrite app_nil_r. by split_and!. }
  apply Forall_cons in Hhome as [Hb Hhome]. cbn [length] in *.
  assert (Hdt : dirty_at (lbio s) (st + Z.of_nat t + 1) = false) by (apply Hlog; unfold in_log; lia).
  destruct (log_copy_step s t b (length Ls) Hok) as (b1 & x & E1 & C1 & Hx).
  { rewrite <- (Nat.add_0_r t). by apply Hlh. }
  { done. }
  { lia. }
  { done. }
  { done. }
  { apply Hb2. by left. }
  assert (HR1 : forall m, dirty_at b1 m = dirty_at (lbio s) m).
  { intros m. rewrite (cp_dirty _ _ _ _ C1). by case_decide as Hm; [subst m |]. }
  pose proof (cp_busy _ _ _ _ C1) as HB1. rewrite Hdt in HB1.
  destruct (IH (S t) (with_lbio b1 s)) as (b2 & xs & E2 & Hok2 & Hlen & HV & D2 & W2 & V2 & X2 & R2 & B2).
  { by eapply lok_copied. }
  { intros k c Hc. replace (S t + k)%nat with (t + S k)%nat by lia. by apply Hlh. }
  { done. }
  { lia. }
  { intros m Hm. cbn. rewrite HR1. auto. }
  { cbn. lia. }
  { intros c Hc. cbn. rewrite HR1. apply Hb2. by right. }
  exists b2, (x :: xs). cbn [lbio with_lbio log_pairs] in *. split_and!; try done.
  - by rewrite E1, E2.
  - cbn. lia.
  - intros [| k] c y Hc Hy; cbn in Hc, Hy; [congruence |].
    rewrite <- (HV k c y Hc Hy). rewrite (cp_view _ _ _ _ C1), decide_False; [done |].
    pose proof (Forall_lookup_1 _ _ _ _ Hhome Hc) as [_ Hcn]. intros ->. apply Hcn. unfold in_log. lia.
  - by rewrite D2, (cp_disk _ _ _ _ C1).
  - by rewrite W2, (cp_writes _ _ _ _ C1), <- (assoc_L (++)).
  - intros m Hm. rewrite V2 by lia. rewrite (cp_view _ _ _ _ C1), decide_False; [done | lia].
  - intros [| k] y Hy; cbn in Hy.
    + injection Hy as ->. rewrite Nat.add_0_r, V2 by lia. rewrite (cp_view _ _ _ _ C1). by rewrite decide_True.
    + specialize (X2 k y Hy). by replace (t + S k)%nat with (S t + k)%nat by lia.
  - intros m. by rewrite R2, HR1.
  - lia.
Qed.

(** ** The header *)
Lemma length_hdr_entry i v x : length x = BSIZE -> (i < LOGSIZE)%nat -> length (put_block i v x) = BSIZE.
Proof.
  intros Hx Hi. unfold put_block, int32_bytes. rewrite length_splice; [done |].
  rewrite length_le_bytes. unfold BSIZE, LOGSIZE in *. lia.
Qed.
Lemma length_put_n n x : length x = BSIZE -> length (put_n n x) = BSIZE.
Proof.
  intros Hx. unfold put_n, int32_bytes. rewrite length_splice; [done |].
  rewrite length_le_bytes. unfold BSIZE in *. lia.
Qed.
Lemma put_blocks_ok bs i x : length x = BSIZE -> (i + length bs <= LOGSIZE)%nat ->
  length (put_blocks i bs x) = BSIZE /\
  (forall o, (o + 4 <= 4 + 4 * i)%nat -> slice o 4 (put_blocks i bs x) = slice o 4 x) /\
  (Forall is_s32 bs -> forall k b, bs !! k = Some b -> hdr_block (put_blocks i bs x) (i + k) = b).
Proof.
  revert i x. induction bs as [| b bs IH]; intros i x Hx Hi; cbn [put_blocks length] in *; [by split_and!; intros |].
  destruct (IH (S i) (put_block i b x)) as (H1 & H2 & H3); [by apply length_hdr_entry; [| lia] | lia |].
  assert (Hroom : (4 + 4 * i + length (int32_bytes b) <= length x)%nat).
  { unfold int32_bytes. rewrite length_le_bytes. unfold BSIZE, LOGSIZE in *. lia. }
  split_and!.
  - done.
  - intros o Ho. rewrite H2 by lia. unfold put_block. by rewrite slice_splice_before.
  - intros Hs k c Hk. apply Forall_cons in Hs as [Hs1 Hs]. destruct k as [| k]; cbn in Hk.
    + injection Hk as ->. rewrite Nat.add_0_r. unfold hdr_block. rewrite H2 by lia. unfold put_block.
      pose proof (slice_splice (4 + 4 * i) (int32_bytes c) x Hroom) as Hsl.
      rewrite (length_le_bytes 4 c : length (int32_bytes c) = 4%nat) in Hsl.
      rewrite Hsl. by apply int32_roundtrip.
    + specialize (H3 Hs k c Hk). by replace (i + S k)%nat with (S i + k)%nat by lia.
Qed.
Lemma hdr_n_put n bs x : length x = BSIZE -> (length bs <= LOGSIZE)%nat -> is_s32 n ->
  hdr_n (put_blocks 0 bs (put_n n x)) = n.
Proof.
  intros Hx Hl Hn. unfold hdr_n.
  destruct (put_blocks_ok bs 0 (put_n n x)) as (_ & H2 & _); [by apply length_put_n | done |].
  rewrite H2 by lia. unfold put_n.
  pose proof (slice_splice 0 (int32_bytes n) x) as Hsl.
  rewrite (length_le_bytes 4 n : length (int32_bytes n) = 4%nat) in Hsl.
  rewrite Hsl by (unfold BSIZE in *; lia). by apply int32_roundtrip.
Qed.

Lemma write_head_ok s : lok s -> dirty_at (lbio s) st = false -> (busy (lbio s) < NBUF)%nat ->
  0 <= lh_n (lh s) <= 30 -> Forall home (take (Z.to_nat (lh_n (lh s))) (lh_block (lh s))) ->
  exists b' H, write_head s = Ret tt (with_lbio b' s) /\ lok (with_lbio b' s) /\ copied (lbio s) b' st H /\
    hdr_n H = lh_n (lh s) /\
    (forall k b, take (Z.to_nat (lh_n (lh s))) (lh_block (lh s)) !! k = Some b -> hdr_block H k = b).
Proof.
  intros Hok Hd Hb Hn Hs. pose proof Hok as [Hi Hdev Hst Hsz Hlen Hh Hbl].
  set (bs := take (Z.to_nat (lh_n (lh s))) (lh_block (lh s))) in *.
  assert (Hlb : (length bs <= LOGSIZE)%nat) by (unfold bs, LOGSIZE in *; rewrite length_take; lia).
  assert (Hs32 : Forall is_s32 bs).
  { eapply Forall_impl; [exact Hs |]. intros m [? _]. unfold is_s32. lia. }
  destruct (rmw_ok (lbio s) st (fun x => put_blocks 0 bs (put_n (lh_n (lh s)) x)) Hi) as
    (i & s1 & x & s2 & s3 & s4 & E1 & E2 & E3 & E4 & E5 & Hx & Hlx & C); try done; [lia | |].
  { intros x Hx. by apply put_blocks_ok; [apply length_put_n |]. }
  exists s4, (put_blocks 0 bs (put_n (lh_n (lh s)) x)). split_and!; try done.
  - unfold write_head. erewrite bind_ret by done. erewrite bind_ret by done. rewrite Hst, Hdev.
    rewrite u32_block by lia. erewrite bind_ret by (apply bcall_ret; exact E1).
    erewrite bind_ret by (apply bcall_ret; exact E2). erewrite bind_ret by done. cbn [lh with_lbio].
    erewrite bind_ret by (apply bcall_ret; exact E3). erewrite bind_ret by (apply bcall_ret; exact E4).
    by erewrite bcall_ret by exact E5.
  - by eapply lok_copied.
  - apply hdr_n_put; [done | done | unfold is_s32; lia].
  - apply put_blocks_ok; [by apply length_put_n | done | done].
Qed.

Lemma read_blocks_ok k i x bs : length bs = LOGSIZE -> (i + k <= LOGSIZE)%nat ->
  exists bs', read_blocks k i x bs = Some bs' /\ length bs' = LOGSIZE /\
    (forall j, (j < i)%nat -> bs' !! j = bs !! j) /\
    (forall j, (i <= j < i + k)%nat -> bs' !! j = Some (hdr_block x j)).
Proof.
  revert i bs. induction k as [| k IH]; intros i bs Hl Hi; cbn [read_blocks].
  { exists bs. split_and!; try done. intros; lia. }
  destruct (Nat.ltb_spec i LOGSIZE); [| lia].
  destruct (IH (S i) (<[i := hdr_block x i]> bs)) as (bs' & E & Hl' & H1 & H2); [by rewrite length_insert | lia |].
  exists bs'. split_and!; try done.
  - intros j Hj. rewrite H1 by lia. by rewrite list_lookup_insert_ne by lia.
  - intros j Hj. destruct (decide (j = i)) as [-> |]; [| apply H2; lia].
    rewrite H1 by lia. apply list_lookup_insert_eq. lia.
Qed.

Lemma read_head_ok s H L : lok s -> dirty_at (lbio s) st = false -> (busy (lbio s) < NBUF)%nat ->
  vblock (lbio s) st = Some H -> hdr_n H = Z.of_nat (length L) -> (length L <= LOGSIZE)%nat ->
  (forall k b, L !! k = Some b -> hdr_block H k = b) ->
  exists b' bs, read_head s = Ret tt (with_lh (mk_lh (Z.of_nat (length L)) bs) (with_lbio b' s)) /\
    lok (with_lh (mk_lh (Z.of_nat (length L)) bs) (with_lbio b' s)) /\
    (forall k b, L !! k = Some b -> bs !! k = Some b) /\
    disk b' = disk (lbio s) /\ writes b' = writes (lbio s) /\ busy b' = busy (lbio s) /\
    (forall m, vblock b' m = vblock (lbio s) m) /\ (forall m, dirty_at b' m = dirty_at (lbio s) m).
Proof.
  intros Hok Hd Hb HH Hn HL Hbl. pose proof Hok as [Hi Hdev Hst Hsz Hlen Hh Hlb].
  destruct (peek_ok (lbio s) st Hi) as (i & s1 & x & s2 & E1 & E2 & E3 & Hx & Hi2 & D2 & W2 & B2 & V2 & R2 & L2); try done; [lia |].
  assert (x = H) as -> by congruence.
  destruct (read_blocks_ok (length L) 0 H (lh_block (lh s))) as (bs & Er & Hl & _ & Hbs); [done | lia |].
  exists s2, bs. split_and!; try done.
  - unfold read_head. erewrite bind_ret by done. erewrite bind_ret by done. rewrite Hst, Hdev.
    rewrite u32_block by lia. erewrite bind_ret by (apply bcall_ret; exact E1).
    erewrite bind_ret by (apply bcall_ret; exact E2). erewrite bind_ret by done. cbn [lh with_lbio].
    rewrite Hn, Nat2Z.id, Er. erewrite bind_ret by done. erewrite bind_ret by done.
    by erewrite bcall_ret by exact E3.
  - split; cbn; try done. by rewrite D2.
  - intros k b Hk. rewrite <- (Hbl k b Hk). apply Hbs. apply lookup_lt_Some in Hk. lia.
Qed.

(** ** What the log on a disk says

    [committed d L xs]: the header of [d] lists the home blocks [L] and the log
    blocks hold their contents [xs]. *)
Record committed (d : list blk) (L : list Z) (xs : list blk) : Prop := {
  cm_hdr : exists H, disk_block d st = Some H /\ hdr_n H = Z.of_nat (length L) /\
             (forall k b, L !! k = Some b -> hdr_block H k = b);
  cm_size : Z.of_nat (length L) < sz;
  cm_home : Forall home L;
  cm_nodup : NoDup L;
  cm_len : length xs = length L;
  cm_data : forall k x, xs !! k = Some x -> disk_block d (st + Z.of_nat k + 1) = Some x;
  cm_dlen : Z.of_nat (length d) = len;
  cm_blk : Forall (fun x => length x = BSIZE) d
}.

(** Contents after the listed blocks went home. *)
Definition redo (d : list blk) (L : list Z) (xs : list blk) : list blk := apply_writes d (zip L xs).
Definition same_home (d1 d2 : list blk) : Prop := forall m, home m -> disk_block d1 m = disk_block d2 m.

(** A log at rest: nothing pinned, nothing held, an empty header on disk and
    in memory. *)
Record idle (s : logst) : Prop := {
  id_ok : lok s;
  id_dirty : forall m, dirty_at (lbio s) m = false;
  id_n : lh_n (lh s) = 0;
  id_out : outstanding s = 0;
  id_com : committing s = false;
  id_hdr : exists H, disk_block (disk (lbio s)) st = Some H /\ hdr_n H = 0
}.

Lemma zip_home L xs (d : list blk) : Forall home L -> Z.of_nat (length d) = len ->
  forall m, m ∉ L -> Forall (fun w : Z * blk => 0 <= w.1 < Z.of_nat (length d) /\ w.1 <> m) (zip L xs).
Proof.
  intros HL Hd m Hm. apply Forall_forall. intros [b x] Hin. cbn.
  assert (Hb : b ∈ L) by (by apply elem_of_zip_l in Hin).
  pose proof (proj1 (Forall_forall _ _) HL b Hb) as [Hr _]. split; [lia | congruence].
Qed.

Lemma redo_off d L xs m : Forall home L -> Z.of_nat (length d) = len -> m ∉ L ->
  disk_block (redo d L xs) m = disk_block d m.
Proof. intros HL Hd Hm. apply apply_writes_off. by apply zip_home. Qed.

Lemma redo_at d L xs k b x : Forall home L -> Z.of_nat (length d) = len -> NoDup L ->
  L !! k = Some b -> xs !! k = Some x -> disk_block (redo d L xs) b = Some x.
Proof.
  revert d xs k. induction L as [| c L IH]; intros d xs k HL Hd Hnd Hk Hx; [done |].
  destruct xs as [| y xs]; [done |]. apply Forall_cons in HL as [Hc HL]. apply NoDup_cons in Hnd as [Hnin Hnd].
  change (redo d (c :: L) (y :: xs)) with (redo (apply_write d (c, y)) L xs).
  assert (Hd1 : Z.of_nat (length (apply_write d (c, y))) = len) by (unfold apply_write; by rewrite length_insert).
  destruct k as [| k]; cbn in Hk, Hx; [| by eapply IH].
  injection Hk as ->. injection Hx as ->. rewrite redo_off by done. unfold apply_write. cbn.
  destruct Hc as [? _]. rewrite disk_block_insert by lia. by rewrite decide_True.
Qed.

(** Two disks that agree outside [L] become the same. *)
Lemma redo_agree (d d' : list blk) L xs : Forall home L -> NoDup L -> length xs = length L ->
  Z.of_nat (length d) = len -> Z.of_nat (length d') = len ->
  (forall m, home m -> m ∉ L -> disk_block d m = disk_block d' m) ->
  same_home (redo d L xs) (redo d' L xs).
Proof.
  intros HL Hnd Hlx Hd Hd' Hag m Hm. destruct (decide (m ∈ L)) as [Hin | Hnin].
  - apply list_elem_of_lookup in Hin as [k Hk].
    destruct (lookup_lt_is_Some_2 xs k) as [x Hx]; [apply lookup_lt_Some in Hk; lia |].
    by rewrite !(redo_at _ L xs k m x).
  - rewrite !redo_off by done. auto.
Qed.

Lemma length_blk_apply d ws : Forall (fun x => length x = BSIZE) d ->
  Forall (fun w : Z * blk => length w.2 = BSIZE) ws -> Forall (fun x => length x = BSIZE) (apply_writes d ws).
Proof.
  intros Hd Hw. revert d Hd. induction Hw as [| w ws Hw1 Hw IH]; intros d Hd; [done |].
  apply IH. by apply Forall_insert.
Qed.

(** Recovery installs what the header lists and clears it. *)
Lemma recover_ok b0 L xs : quiet b0 -> committed (disk b0) L xs ->
  exists s' H0, initlog b0 st sz = Ret tt s' /\ idle s' /\ hdr_n H0 = 0 /\ length H0 = BSIZE /\
    writes (lbio s') = writes b0 ++ zip L xs ++ [(st, H0)] /\
    disk (lbio s') = apply_writes (disk b0) (zip L xs ++ [(st, H0)]).
Proof.
  intros [Qi Qh Qd Qb] [(H & HH & Hn & Hhb) Hsz HL Hnd Hlx Hdata Hdl Hblk].
  set (s0 := mk_log b0 st sz 0 false ROOTDEV (mk_lh 0 (replicate LOGSIZE 0))).
  assert (Hok0 : lok s0) by (split; cbn; try done).
  assert (Hv0 : forall m, vblock b0 m = disk_block (disk b0) m).
  { intros m. by rewrite (clean_view _ _ Qi (Qd m) (Qh m)). }
  destruct (read_head_ok s0 H L Hok0) as (b1 & bs & E1 & Hok1 & Hbs & D1 & W1 & B1 & V1 & R1); try done.
  { cbn. rewrite Qb. unfold NBUF. lia. }
  { cbn. by rewrite Hv0. }
  { unfold LOGSIZE. lia. }
  set (s1 := with_lh _ _) in *. cbn [lbio s0] in *.
  destruct (install_loop_ok L xs 0 s1 Hok1) as (b2 & E2 & Hok2 & D2 & W2 & V2 & R2 & B2); try done.
  { cbn. intros k x Hx. rewrite V1, Hv0. by apply Hdata. }
  { intros m _. cbn. by rewrite R1. }
  { cbn. rewrite B1, Qb. unfold NBUF. lia. }
  { intros b _. right. cbn. rewrite B1, Qb. unfold NBUF. lia. }
  set (s2 := with_lbio b2 s1) in *. set (s3 := with_lh (mk_lh 0 bs) s2).
  assert (Hd2 : forall m, dirty_at b2 m = false) by (intros m; rewrite R2; case_decide; [done |]; cbn; by rewrite R1).
  destruct (write_head_ok s3) as (b3 & H0 & E3 & Hok3 & C3 & Hn3 & _).
  { destruct Hok2. split; done. }
  { apply Hd2. }
  { cbn in *. unfold NBUF. lia. }
  { cbn. lia. }
  { constructor. }
  exists (with_lbio b3 s3), H0. cbn [lbio with_lbio with_lh s1 s2 s3] in *.
  assert (Hst : 0 <= st < Z.of_nat (length (disk b2))) by (rewrite D2, length_apply_writes, D1; cbn; lia).
  split_and!; try done.
  - unfold initlog, recover_from_log. fold s0. erewrite bind_ret by exact E1. fold s1.
    erewrite bind_ret. 2: { unfold install_trans. erewrite bind_ret by done. cbn [lh s1 with_lh lh_n]. rewrite Nat2Z.id. exact E2. }
    erewrite bind_ret by done. exact E3.
  - split; cbn; try done.
    + intros m. rewrite (cp_dirty _ _ _ _ C3). case_decide; [done | apply Hd2].
    + exists H0. split; [| done]. rewrite (cp_disk _ _ _ _ C3). cbn. rewrite disk_block_insert by done. by rewrite decide_True.
  - by eapply copied_blk; [exact C3 |].
  - rewrite (cp_writes _ _ _ _ C3). cbn. by rewrite W2, W1, <- (assoc_L (++)).
  - rewrite (cp_disk _ _ _ _ C3), apply_writes_app. cbn. by rewrite D2, D1.
Qed.

(** ** Committing *)

(** A transaction with the blocks [L] pinned in the cache. *)
Record pending (s : logst) (L : list Z) : Prop := {
  pd_ok : lok s;
  pd_n : lh_n (lh s) = Z.of_nat (length L);
  pd_blocks : forall k b, L !! k = Some b -> lh_block (lh s) !! k = Some b;
  pd_size : Z.of_nat (length L) < sz;
  pd_home : Forall home L;
  pd_nodup : NoDup L;
  pd_dirty : forall m, dirty_at (lbio s) m = bool_decide (m ∈ L);
  pd_busy : busy (lbio s) = length L;
  pd_hdr : exists H, disk_block (disk (lbio s)) st = Some H /\ hdr_n H = 0
}.

Lemma take_entries L (bs : list Z) : (length L <= length bs)%nat ->
  (forall k b, L !! k = Some b -> bs !! k = Some b) -> take (length L) bs = L.
Proof.
  intros Hl Hk. apply list_eq. intros k. destruct (decide (k < length L)%nat).
  - rewrite lookup_take_lt by done. destruct (lookup_lt_is_Some_2 L k) as [b Hb]; [done |]. by rewrite Hb, (Hk k b).
  - rewrite !lookup_ge_None_2; [done | lia |]. rewrite length_take. lia.
Qed.

(** The first half of a commit: the blocks go to the log, then the header. *)
Lemma commit_logs s L : pending s L -> L <> [] ->
  exists b' xs H1, (write_log;; write_head) s = Ret tt (with_lbio b' s) /\ lok (with_lbio b' s) /\
    (forall m, dirty_at b' m = bool_decide (m ∈ L)) /\ busy b' = length L /\
    length xs = length L /\ (forall k b x, L !! k = Some b -> xs !! k = Some x -> vblock (lbio s) b = Some x) /\
    (forall k x, xs !! k = Some x -> vblock b' (st + Z.of_nat k + 1) = Some x) /\
    hdr_n H1 = Z.of_nat (length L) /\ (forall k b, L !! k = Some b -> hdr_block H1 k = b) /\ length H1 = BSIZE /\
    writes b' = writes (lbio s) ++ log_pairs 0 xs ++ [(st, H1)] /\
    disk b' = apply_writes (disk (lbio s)) (log_pairs 0 xs ++ [(st, H1)]).
Proof.
  intros [Hok Hn Hbl Hsz Hhome Hnd Hdirty Hbusy (H & HH & HHn)] HL.
  assert (HLl : (0 < length L)%nat) by (destruct L; cbn; [done | lia]).
  assert (Hnlog : forall m, in_log m -> m ∉ L).
  { intros m Hm Hin. by destruct (proj1 (Forall_forall _ _) Hhome m Hin). }
  assert (Hst : in_log st) by (unfold in_log; lia).
  assert (Hbs : (length L <= length (lh_block (lh s)))%nat) by (rewrite (lo_blocks _ Hok); unfold LOGSIZE; lia).
  destruct (log_copy_ok L 0 s Hok Hbl Hhome) as (b1 & xs & E1 & Hok1 & Hlx & HV & D1 & W1 & V1 & X1 & R1 & B1).
  { lia. }
  { intros m Hm. rewrite Hdirty. apply bool_decide_eq_false. auto. }
  { rewrite Hbusy. unfold NBUF. lia. }
  { intros b Hb. rewrite Hdirty. by apply bool_decide_eq_true. }
  set (s1 := with_lbio b1 s) in *.
  assert (Htake : take (Z.to_nat (lh_n (lh s1))) (lh_block (lh s1)) = L).
  { cbn. rewrite Hn, Nat2Z.id. by apply take_entries. }
  destruct (write_head_ok s1 Hok1) as (b2 & H1 & E2 & Hok2 & C2 & Hn2 & Hb2).
  { cbn. rewrite R1, Hdirty. apply bool_decide_eq_false. auto. }
  { cbn. rewrite B1, Hbusy. unfold NBUF. lia. }
  { cbn. lia. }
  { by rewrite Htake. }
  rewrite Htake in Hb2. exists b2, xs, H1. cbn [lbio with_lbio s1 lh_n lh] in *. split_and!; try done.
  - unfold write_log. erewrite bind_ret; [| erewrite bind_ret by done; rewrite Hn, Nat2Z.id; exact E1]. exact E2.
  - intros m. rewrite (cp_dirty _ _ _ _ C2). cbn. rewrite R1, Hdirty. case_decide as Hm; [| done].
    symmetry. apply bool_decide_eq_false. subst m. auto.
  - pose proof (cp_busy _ _ _ _ C2) as HB. cbn in HB. rewrite R1, Hdirty, bool_decide_false in HB by auto. lia.
  - intros k x Hx. rewrite (cp_view _ _ _ _ C2), decide_False by lia. by apply X1.
  - by rewrite Hn2.
  - eapply copied_blk; [exact C2 |]. pose proof (lo_len _ Hok1). cbn in *. lia.
  - rewrite (cp_writes _ _ _ _ C2). cbn. by rewrite W1, <- (assoc_L (++)).
  - rewrite (cp_disk _ _ _ _ C2), D1, apply_writes_app. done.
Qed.

Lemma commit_ok s L : pending s L -> L <> [] ->
  exists b' xs H1 H0, commit s = Ret tt (with_lh (mk_lh 0 (lh_block (lh s))) (with_lbio b' s)) /\
    lok (with_lh (mk_lh 0 (lh_block (lh s))) (with_lbio b' s)) /\
    (forall m, dirty_at b' m = false) /\
    length xs = length L /\ (forall k b x, L !! k = Some b -> xs !! k = Some x -> vblock (lbio s) b = Some x) /\
    hdr_n H1 = Z.of_nat (length L) /\ (forall k b, L !! k = Some b -> hdr_block H1 k = b) /\ hdr_n H0 = 0 /\
    length H1 = BSIZE /\ length H0 = BSIZE /\
    let W := log_pairs 0 xs ++ [(st, H1)] ++ zip L xs ++ [(st, H0)] in
    writes b' = writes (lbio s) ++ W /\ disk b' = apply_writes (disk (lbio s)) W.
Proof.
  intros Hp HL. destruct (commit_logs s L Hp HL) as (b2 & xs & H1 & E2 & Hok2 & HR2 & HB2 & Hlx & HV & X2 & Hn2 & Hb2 & Hl1 & W2 & D2).
  destruct Hp as [Hok Hn Hbl Hsz Hhome Hnd Hdirty Hbusy _].
  assert (HLl : (0 < length L)%nat) by (destruct L; cbn; [done | lia]).
  assert (Hnlog : forall m, in_log m -> m ∉ L).
  { intros m Hm Hin. by destruct (proj1 (Forall_forall _ _) Hhome m Hin). }
  set (s2 := with_lbio b2 s) in *.
  destruct (install_loop_ok L xs 0 s2 Hok2) as (b3 & E3 & Hok3 & D3 & W3 & V3 & R3 & B3); try done.
  { intros m Hm. cbn. rewrite HR2. apply bool_decide_eq_false. auto. }
  { cbn. rewrite HB2. unfold NBUF. lia. }
  { intros b Hb. left. cbn. rewrite HR2. by apply bool_decide_eq_true. }
  set (s3 := with_lh (mk_lh 0 (lh_block (lh s))) (with_lbio b3 s2)).
  assert (Hd3 : forall m, dirty_at b3 m = false).
  { intros m. rewrite R3. case_decide; [done |]. cbn. rewrite HR2. by apply bool_decide_eq_false. }
  destruct (write_head_ok s3) as (b4 & H0 & E4 & Hok4 & C4 & Hn4 & _).
  { destruct Hok3. by split. }
  { apply Hd3. }
  { cbn in *. unfold NBUF. lia. }
  { cbn. lia. }
  { constructor. }
  exists b4, xs, H1, H0. cbn [lbio with_lbio with_lh s2 s3 lh_n lh] in *. split_and!; try done.
  - unfold commit. erewrite bind_ret by done. rewrite Hn. destruct (Z.gtb_spec (Z.of_nat (length L)) 0); [| lia].
    apply bind_inv in E2 as (u & s1 & E1 & E2). rewrite (bind_ret _ _ _ _ _ E1), (bind_ret _ _ _ _ _ E2). unfold install_trans at 1.
    erewrite bind_ret; [| erewrite bind_ret by done; cbn [lh with_lbio s2]; rewrite Hn, Nat2Z.id; exact E3].
    erewrite bind_ret by done. exact E4.
  - intros m. rewrite (cp_dirty _ _ _ _ C4). cbn. case_decide; [done | apply Hd3].
  - eapply copied_blk; [exact C4 |]. pose proof (lo_len _ Hok3). cbn in *. lia.
  - rewrite (cp_writes _ _ _ _ C4). cbn. rewrite W3, W2. by rewrite <- !(assoc_L (++)).
  - rewrite (cp_disk _ _ _ _ C4). cbn. rewrite D3, D2. rewrite <- !apply_writes_app, <- (assoc_L (++)). 
    change (log_pairs 0 xs ++ (st, H1) :: zip L xs ++ [(st, H0)]) with (log_pairs 0 xs ++ ([(st, H1)] ++ zip L xs) ++ [(st, H0)]).
    by rewrite (assoc_L (++) (log_pairs 0 xs) ([(st, H1)] ++ zip L xs)), (apply_writes_app _ _ [(st, H0)]).
Qed.

(** ** Crashes during a commit *)
Lemma log_pairs_in t xs w : w ∈ log_pairs t xs ->
  exists k, (k < length xs)%nat /\ w.1 = st + Z.of_nat (t + k) + 1.
Proof.
  revert t. induction xs as [| x xs IH]; intros t Hw; cbn in Hw; [by apply elem_of_nil in Hw |].
  apply elem_of_cons in Hw as [-> | Hw]; [exists 0%nat; cbn; split; lia |].
  destruct (IH _ Hw) as (k & Hk & E). exists (S k). cbn. split; lia.
Qed.

Lemma log_pairs_at d xs t k x : Z.of_nat (length d) = len -> Z.of_nat (t + length xs) < sz ->
  xs !! k = Some x -> disk_block (apply_writes d (log_pairs t xs)) (st + Z.of_nat (t + k) + 1) = Some x.
Proof.
  revert d t k. induction xs as [| y xs IH]; intros d t k Hd Ht Hk; [done |].
  cbn [log_pairs length] in *. change (apply_writes d (?w :: ?ws)) with (apply_writes (apply_write d w) ws).
  assert (Hd1 : length (apply_write d (st + Z.of_nat t + 1, y)) = length d) by apply length_insert.
  destruct k as [| k]; cbn in Hk.
  - injection Hk as ->. rewrite apply_writes_off.
    + unfold apply_write. cbn. rewrite disk_block_insert by lia. rewrite decide_True; [done | lia].
    + apply Forall_forall. intros w Hw. destruct (log_pairs_in _ _ _ Hw) as (j & Hj & ->). rewrite Hd1. lia.
  - replace (t + S k)%nat with (S t + k)%nat by lia. apply IH; [by rewrite Hd1 | lia | done].
Qed.

Lemma prefix_app_cases {A} (p a b : list A) : p `prefix_of` a ++ b ->
  p `prefix_of` a \/ exists c, p = a ++ c /\ c `prefix_of` b.
Proof.
  intros [k Hk]. destruct (decide (length p <= length a)%nat) as [Hl | Hl].
  - left. exists (drop (length p) a). apply (f_equal (take (length a))) in Hk.
    rewrite take_app_length in Hk. rewrite Hk. rewrite take_app_ge by lia.
    rewrite drop_app_length. done.
  - right. exists (drop (length a) p).
    assert (Hp : take (length a) p = a).
    { apply (f_equal (take (length a))) in Hk. rewrite take_app_length in Hk. by rewrite take_app_le in Hk by lia. }
    split; [by rewrite <- Hp at 1; rewrite take_drop |]. exists k.
    apply (f_equal (drop (length a))) in Hk. rewrite drop_app_length in Hk. by rewrite drop_app_le in Hk by lia.
Qed.

Lemma committed_nil d H : disk_block d st = Some H -> hdr_n H = 0 -> Z.of_nat (length d) = len ->
  Forall (fun x => length x = BSIZE) d -> committed d [] [].
Proof. intros HH Hn Hd Hf. split; try done; [by exists H | cbn; lia | constructor]. Qed.

Section crash.
Context (d : list blk) (L : list Z) (xs : list blk) (H1 H0 Hd : blk).
Context (HL : Forall home L) (Hnd : NoDup L) (Hsz : Z.of_nat (length L) < sz) (Hlx : length xs = length L).
Context (Hdl : Z.of_nat (length d) = len) (Hdb : Forall (fun x => length x = BSIZE) d).
Context (Hxb : Forall (fun x => length x = BSIZE) xs) (H1b : length H1 = BSIZE) (H0b : length H0 = BSIZE).
Context (Hh : disk_block d st = Some Hd) (Hhn : hdr_n Hd = 0).
Context (H1n : hdr_n H1 = Z.of_nat (length L)) (H1e : forall k b, L !! k = Some b -> hdr_block H1 k = b).
Context (H0n : hdr_n H0 = 0).

Lemma log_pairs_off p m : p `prefix_of` log_pairs 0 xs -> m = st \/ home m ->
  disk_block (apply_writes d p) m = disk_block d m.
Proof.
  intros Hp Hm. apply apply_writes_off, Forall_forall. intros w Hw.
  assert (Hin : w ∈ log_pairs 0 xs) by (destruct Hp as [k ->]; apply elem_of_app; by left).
  destruct (log_pairs_in _ _ _ Hin) as (j & Hj & ->).
  destruct Hm as [-> | [Hm1 Hm2]]; [lia |]. split; [lia |]. intros <-. apply Hm2. unfold in_log. lia.
Qed.

Lemma log_pairs_blk t ys : Forall (fun x => length x = BSIZE) ys ->
  Forall (fun w : Z * blk => length w.2 = BSIZE) (log_pairs t ys).
Proof. intros Hy. revert t. induction Hy; intros t; constructor; [done | auto]. Qed.

Lemma zip_blk : Forall (fun w : Z * blk => length w.2 = BSIZE) (zip L xs).
Proof.
  apply Forall_forall. intros [b x] Hin. apply elem_of_zip_r in Hin. by apply (proj1 (Forall_forall _ _) Hxb).
Qed.

Lemma prefix_blk (p W : list (Z * blk)) : Forall (fun w : Z * blk => length w.2 = BSIZE) W -> p `prefix_of` W ->
  Forall (fun w : Z * blk => length w.2 = BSIZE) p.
Proof. intros HW [k ->]. by apply Forall_app in HW as [? _]. Qed.

(** The disk once the header is written, and after some blocks went home. *)
Definition d_hdr : list blk := apply_write (apply_writes d (log_pairs 0 xs)) (st, H1).

Lemma d_hdr_len : Z.of_nat (length d_hdr) = len.
Proof. unfold d_hdr, apply_write. by rewrite length_insert, length_apply_writes. Qed.

Lemma d_hdr_at m : disk_block d_hdr m = if decide (m = st) then Some H1 else disk_block (apply_writes d (log_pairs 0 xs)) m.
Proof. unfold d_hdr, apply_write. cbn. apply disk_block_insert. rewrite length_apply_writes. lia. Qed.

Lemma d_hdr_home m : home m -> disk_block d_hdr m = disk_block d m.
Proof.
  intros Hm. rewrite d_hdr_at, decide_False; [apply log_pairs_off; auto |].
  intros ->. apply Hm. unfold in_log. lia.
Qed.

Lemma home_zip p m : p `prefix_of` zip L xs -> m ∉ L ->
  disk_block (apply_writes d_hdr p) m = disk_block d_hdr m.
Proof.
  intros [k Hk] Hm. apply apply_writes_off. pose proof (zip_home L xs d_hdr HL d_hdr_len m Hm) as Hf.
  rewrite Hk in Hf. by apply Forall_app in Hf as [? _].
Qed.

Lemma log_not_in m : in_log m -> m ∉ L.
Proof. intros Hm Hin. by destruct (proj1 (Forall_forall _ _) HL m Hin). Qed.

Lemma committed_hdr p : p `prefix_of` zip L xs -> committed (apply_writes d_hdr p) L xs.
Proof.
  intros Hp. split; try done.
  - exists H1. split; [| done]. rewrite home_zip by (try done; apply log_not_in; unfold in_log; lia).
    rewrite d_hdr_at. by rewrite decide_True.
  - intros k x Hx. assert (Hk : (k < length L)%nat) by (apply lookup_lt_Some in Hx; lia).
    rewrite home_zip by (try done; apply log_not_in; unfold in_log; lia).
    rewrite d_hdr_at, decide_False by lia. apply (log_pairs_at d xs 0 k x); [done | lia | done].
  - by rewrite length_apply_writes, d_hdr_len.
  - apply length_blk_apply; [| by eapply prefix_blk; [apply zip_blk |]].
    apply Forall_insert; [| done]. apply length_blk_apply; [done | by apply log_pairs_blk].
Qed.

Lemma redo_hdr p : p `prefix_of` zip L xs -> same_home (redo (apply_writes d_hdr p) L xs) (redo d L xs).
Proof.
  intros Hp. apply redo_agree; try done; [by rewrite length_apply_writes, d_hdr_len |].
  intros m Hm Hnin. rewrite home_zip by done. by apply d_hdr_home.
Qed.

(** The home blocks after all the writes of a commit. *)
Lemma commit_home : same_home (apply_writes d (log_pairs 0 xs ++ [(st, H1)] ++ zip L xs ++ [(st, H0)])) (redo d L xs).
Proof.
  intros m Hm. rewrite apply_writes_app. cbn [app].
  change (apply_writes ?e ((st, H1) :: ?w)) with (apply_writes d_hdr w). rewrite apply_writes_app.
  fold (redo d_hdr L xs). cbn. unfold apply_write. cbn.
  rewrite disk_block_insert by (unfold redo; rewrite length_apply_writes, d_hdr_len; lia).
  rewrite decide_False by (intros ->; apply Hm; unfold in_log; lia).
  apply (redo_hdr []); [apply prefix_nil | done].
Qed.

(** Whatever prefix of the writes of a commit reached the disk, the log on it
    says to keep the old home blocks or to install all the new ones. *)
Lemma crash_point p : p `prefix_of` log_pairs 0 xs ++ [(st, H1)] ++ zip L xs ++ [(st, H0)] ->
  exists L' xs', committed (apply_writes d p) L' xs' /\
    (same_home (redo (apply_writes d p) L' xs') d \/ same_home (redo (apply_writes d p) L' xs') (redo d L xs)).
Proof.
  assert (Hold : forall q, q `prefix_of` log_pairs 0 xs -> exists L' xs', committed (apply_writes d q) L' xs' /\
    (same_home (redo (apply_writes d q) L' xs') d \/ same_home (redo (apply_writes d q) L' xs') (redo d L xs))).
  { intros q Hq. exists [], []. split.
    - apply (committed_nil _ Hd); [rewrite log_pairs_off; auto | done | by rewrite length_apply_writes |].
      apply length_blk_apply; [done |]. eapply prefix_blk; [by apply log_pairs_blk | done].
    - left. intros m Hm. unfold redo. cbn. apply log_pairs_off; auto. }
  intros Hp. apply prefix_app_cases in Hp as [Hp | (c & -> & Hc)]; [by apply Hold |].
  destruct c as [| w c]; [rewrite app_nil_r; by apply Hold |].
  pose proof (prefix_cons_inv_1 _ _ _ _ Hc) as ->. apply prefix_cons_inv_2 in Hc.
  rewrite apply_writes_app. change (apply_writes ?e ((st, H1) :: c)) with (apply_writes d_hdr c).
  apply prefix_app_cases in Hc as [Hc | (e & -> & He)].
  { exists L, xs. split; [by apply committed_hdr | right; by apply redo_hdr]. }
  destruct e as [| w e].
  { rewrite app_nil_r. exists L, xs. split; [by apply committed_hdr | right; by apply redo_hdr]. }
  pose proof (prefix_cons_inv_1 _ _ _ _ He) as ->. apply prefix_cons_inv_2 in He.
  apply prefix_nil_inv in He as ->. rewrite apply_writes_app. cbn. fold (redo d_hdr L xs).
  set (d4 := apply_write (redo d_hdr L xs) (st, H0)).
  assert (Hl4 : Z.of_nat (length (redo d_hdr L xs)) = len) by (unfold redo; by rewrite length_apply_writes, d_hdr_len).
  exists [], []. split.
  - apply (committed_nil d4 H0).
    + unfold d4, apply_write. cbn. rewrite disk_block_insert by lia. by rewrite decide_True.
    + done.
    + unfold d4, apply_write. by rewrite length_insert.
    + apply Forall_insert; [| done]. apply (cm_blk _ L xs). apply (committed_hdr (zip L xs)). done.
  - right. intros m Hm. change (redo d4 [] []) with d4. unfold d4, apply_write. cbn.
    rewrite disk_block_insert by lia. rewrite decide_False by (intros ->; apply Hm; unfold in_log; lia).
    apply (redo_hdr []); [apply prefix_nil | done].
Qed.
End crash.

(** ** Transactions *)

(** The typical use of [log_write]: read a block, change it, log it. *)
Definition tx_write (n : Z) (x : blk) : M logst unit :=
  i ← bcall (bread ROOTDEV n);
  bcall (bstore i x);;
  log_write i;;
  bcall (brelse i).
Fixpoint tx_writes (ws : list (Z * blk)) : M logst unit :=
  match ws with
  | [] => skip
  | (n, x) :: ws' => tx_write n x;; tx_writes ws'
  end.
Definition transaction (ws : list (Z * blk)) : M logst unit :=
  begin_op;; tx_writes ws;; end_op.

(** The search of [log_write] and the slot it fills. *)
Lemma log_slot s L n : length (lh_block (lh s)) = LOGSIZE -> lh_n (lh s) = Z.of_nat (length L) ->
  (forall k b, L !! k = Some b -> lh_block (lh s) !! k = Some b) -> Forall home L ->
  home n -> Z.of_nat (length L) + 1 < sz ->
  let bs := lh_block (lh s) in
  let entries := take (Z.to_nat (lh_n (lh s))) bs in
  let k := default (length entries) (find_index (fun e => u32 e =? n) entries) in
  (if decide (k = length entries) then lh_n (lh s) + 1 else lh_n (lh s)) = Z.of_nat (length (add_block n L)) /\
  (forall j b, add_block n L !! j = Some b -> <[k := s32 n]> bs !! j = Some b) /\
  length (<[k := s32 n]> bs) = LOGSIZE.
Proof.
  intros Hlb Hn Hbl HL [Hhn _] Hroom bs entries k. fold bs in Hlb.
  assert (He : entries = L).
  { unfold entries. rewrite Hn, Nat2Z.id. apply take_entries; [fold bs; rewrite Hlb; unfold LOGSIZE; lia | done]. }
  assert (Hs : s32 n = n) by (apply s32_small; lia).
  assert (Hin : forall e, e ∈ L -> u32 e = e).
  { intros e Hi. pose proof (proj1 (Forall_forall _ _) HL e Hi) as [? _]. apply u32_small. lia. }
  unfold k. rewrite He, Hs, length_insert, Hlb. unfold add_block.
  destruct (find_index _ L) as [j |] eqn:Ef; cbn [default]; unfold id.
  - pose proof (find_index_lt _ _ _ Ef) as Hlt. apply find_index_Some in Ef as [(e & Hj & Hjn) _].
    apply Z.eqb_eq in Hjn. rewrite Hin in Hjn by by eapply list_elem_of_lookup_2. subst e.
    rewrite (decide_True (P := n ∈ L)) by by eapply list_elem_of_lookup_2.
    rewrite (decide_False (P := j = length L)) by lia. split_and!; [done | | done].
    intros i b Hi. destruct (decide (i = j)) as [-> |].
    + rewrite list_lookup_insert_eq by (rewrite Hlb; unfold LOGSIZE; lia). congruence.
    + rewrite list_lookup_insert_ne by done. by apply Hbl.
  - rewrite (decide_True (P := length L = length L)) by done. rewrite decide_False.
    2: { intros Hi. pose proof (proj1 (find_index_None _ _) Ef n Hi) as Hx. cbn in Hx.
         rewrite Hin, Z.eqb_refl in Hx by done. done. }
    rewrite length_app. cbn. split_and!; [lia | | done].
    intros i b Hi. destruct (decide (i = length L)) as [-> |].
    + rewrite lookup_app_r, Nat.sub_diag in Hi by lia. cbn in Hi.
      rewrite list_lookup_insert_eq by (rewrite Hlb; unfold LOGSIZE; lia). done.
    + rewrite list_lookup_insert_ne by done. apply Hbl.
      assert (i < length (L ++ [n]))%nat by by eapply lookup_lt_Some. rewrite length_app in *. cbn in *.
      by rewrite lookup_app_l in Hi by lia.
Qed.

Lemma tx_write_ok s L n x : pending s L -> 1 <= outstanding s -> home n -> length x = BSIZE ->
  Z.of_nat (length L) + 1 < sz ->
  exists s', tx_write n x s = Ret tt s' /\ pending s' (add_block n L) /\
    (forall m, vblock (lbio s') m = if decide (m = n) then Some x else vblock (lbio s) m) /\
    disk (lbio s') = disk (lbio s) /\ writes (lbio s') = writes (lbio s) /\
    outstanding s' = outstanding s /\ committing s' = committing s.
Proof.
  intros Hp Ho Hn Hx Hroom.
  destruct (log_slot s L n) as (Hn' & Hbl' & Hlen'); [apply Hp | apply Hp | apply Hp | apply Hp | done | done |].
  cbv zeta in *.
  set (bs' := <[_ := s32 n]> (lh_block (lh s))) in *.
  pose proof Hp as [Hok Hnn Hbl Hsz HL Hnd Hdirty Hbusy Hhdr]. pose proof Hok as [Hi Hdev Hst Hsize Hlen Hheld Hlb].
  pose proof Hn as [Hnr Hnl].
  destruct (bread_ok (lbio s) n Hi) as (i & b1 & y & E1 & Hy & _ & F1 & Hh1 & D1 & W1 & B1).
  { lia. } { apply Hheld. } { right. rewrite Hbusy. unfold NBUF. lia. }
  destruct (bstore_ok b1 i n x (ef_inv _ _ _ _ _ _ F1) Hh1 Hx) as (b2 & E2 & F2 & Hh2 & D2 & W2 & B2).
  destruct (handle_view b2 i n (ef_inv _ _ _ _ _ _ F2) Hh2) as (b & Hb & Hnb & Hlk & Hvb & _).
  destruct (pin_ok b2 i n b (ef_inv _ _ _ _ _ _ F2) Hh2 Hb) as (F3 & Hh3 & B3). set (b3 := with_bufs _ b2) in *.
  destruct (eff_at _ _ _ _ _ _ F3) as (_ & R3 & _).
  destruct (brelse_ok b3 i n (ef_inv _ _ _ _ _ _ F3) Hh3) as (b4 & z & E4 & Hz & F4 & D4 & W4 & B4); [by left |].
  pose proof (eff_trans _ _ _ _ _ _ _ _ _ _ (eff_trans _ _ _ _ _ _ _ _ _ _ (eff_trans _ _ _ _ _ _ _ _ _ _ F1 F2) F3) F4) as F.
  assert (z = x) as ->.
  { destruct (eff_at _ _ _ _ _ _ F3) as (V3 & _). destruct (eff_at _ _ _ _ _ _ F2) as (V2 & _). congruence. }
  rewrite R3 in *. assert (HD : disk b4 = disk (lbio s)) by (rewrite D4; cbn; congruence).
  set (s1 := with_lh (mk_lh (Z.of_nat (length (add_block n L))) bs') s).
  assert (EL : log_write i (with_lbio b2 s) = Ret tt (with_lbio b3 s1)).
  { unfold log_write. erewrite bind_ret by done. cbn [lh l_size outstanding with_lbio].
    destruct (Z.geb_spec (lh_n (lh s)) (Z.of_nat LOGSIZE)); [unfold LOGSIZE in *; lia |].
    destruct (Z.geb_spec (lh_n (lh s)) (l_size s - 1)); [lia |].
    destruct (Z.ltb_spec (outstanding s) 1); [lia |]. cbn [orb].
    erewrite bind_ret by (apply bcall_ret; by apply get_buf_ret).
    assert (Hno : b_blockno b = n) by by apply named_eq in Hnb as [_ ?]. rewrite Hno.
    erewrite bind_ret by done. rewrite Hn'. fold bs'. by erewrite bcall_ret by done. }
  clear Hn'. exists (with_lbio b4 s1). split_and!; try done.
  - unfold tx_write. erewrite bind_ret by (apply bcall_ret; exact E1).
    erewrite bind_ret by (apply bcall_ret; exact E2).
    erewrite bind_ret by exact EL. by erewrite bcall_ret by exact E4.
  - split; cbn [lbio with_lbio with_lh lh lh_n lh_block s1]; try done.
    + split; cbn; try done; [apply F | congruence |].
      intros m. rewrite (ef_held _ _ _ _ _ _ F). case_decide; [done | apply Hheld].
    + unfold add_block. case_decide; [done |]. rewrite length_app. cbn. lia.
    + apply Forall_forall. intros m Hm%elem_add_block.
      destruct Hm as [-> | Hm]; [done | by apply (proj1 (Forall_forall _ _) HL)].
    + unfold add_block. case_decide; [done |]. apply NoDup_app. split_and!; [done | | apply NoDup_singleton].
      intros m Hm1 Hm2%list_elem_of_singleton. by subst m.
    + intros m. rewrite (ef_dirty _ _ _ _ _ _ F), Hdirty. symmetry. case_decide as Hm.
      * apply bool_decide_eq_true, elem_add_block. by left.
      * apply bool_decide_ext. rewrite elem_add_block. tauto.
    + rewrite Hdirty in B1. unfold add_block.
      destruct (decide (n ∈ L)); [rewrite bool_decide_true in B1 by done | rewrite bool_decide_false in B1 by done].
      * lia.
      * rewrite length_app. cbn. lia.
    + rewrite HD. exact Hhdr.
  - cbn. intros m. apply (ef_view _ _ _ _ _ _ F).
  - cbn. rewrite W4. cbn. congruence.
Qed.

(** The view of the home blocks as a disk image. *)
Definition shows (s : logst) (d : list blk) : Prop :=
  Z.of_nat (length d) = len /\ forall m, home m -> vblock (lbio s) m = disk_block d m.

Lemma tx_writes_ok ws s L d : pending s L -> 1 <= outstanding s -> shows s d ->
  Forall (fun w : Z * blk => home w.1 /\ length w.2 = BSIZE) ws ->
  Z.of_nat (length L + length ws) < sz ->
  exists s' L', tx_writes ws s = Ret tt s' /\ pending s' L' /\ shows s' (apply_writes d ws) /\
    disk (lbio s') = disk (lbio s) /\ writes (lbio s') = writes (lbio s) /\
    outstanding s' = outstanding s /\ committing s' = committing s.
Proof.
  intros Hp Ho Hd Hw. revert s L d Hp Ho Hd.
  induction Hw as [| [n x] ws [Hn Hx] Hw IH]; intros s L d Hp Ho Hd Hsz; [by exists s, L |]. cbn [length] in Hsz.
  destruct (tx_write_ok s L n x Hp Ho Hn Hx) as (s1 & E1 & Hp1 & V1 & D1 & W1 & O1 & C1); [lia |].
  assert (Hl : (length (add_block n L) <= S (length L))%nat).
  { unfold add_block. case_decide; [lia |]. rewrite length_app. cbn. lia. }
  destruct Hd as [Hdl Hdv].
  assert (Hd1 : shows s1 (apply_write d (n, x))).
  { split; [unfold apply_write; by rewrite length_insert |]. intros m Hm. rewrite V1. unfold apply_write. cbn.
    destruct Hn as [Hnr _]. cbn in Hnr. rewrite disk_block_insert by lia. case_decide; [done | by apply Hdv]. }
  destruct (IH s1 (add_block n L) (apply_write d (n, x)) Hp1) as (s2 & L2 & E2 & Hp2 & Hd2 & D2 & W2 & O2 & C2);
    [lia | done | lia |].
  exists s2, L2. cbn [tx_writes]. erewrite bind_ret by exact E1.
  split_and!; try done; try congruence.
Qed.

(** What a disk shows after recovery, from the log on it. *)
Lemma recovers b0 L xs d : quiet b0 -> committed (disk b0) L xs -> same_home (redo (disk b0) L xs) d ->
  exists r, initlog b0 st sz = Ret tt r /\ idle r /\ same_home (disk (lbio r)) d.
Proof.
  intros Hq Hc Hd. destruct (recover_ok b0 L xs Hq Hc) as (r & H0 & E & Hid & _ & _ & _ & D).
  exists r. split_and!; try done. intros m Hm. rewrite <- Hd by done. rewrite D, apply_writes_app.
  fold (redo (disk b0) L xs). cbn. unfold apply_write. cbn. rewrite disk_block_insert.
  - rewrite decide_False; [done |]. intros ->. apply Hm. unfold in_log. lia.
  - unfold redo. rewrite length_apply_writes, (cm_dlen _ _ _ Hc). lia.
Qed.

(** A crash after any prefix [p] of the writes [W] leaves a disk from which
    recovery restores the home blocks of [d] or those of [d']. *)
Definition atomic (d0 : list blk) (W : list (Z * blk)) (d d' : list blk) : Prop :=
  forall p pid, p `prefix_of` W ->
    exists r, initlog (binit (apply_writes d0 p) pid) st sz = Ret tt r /\ idle r /\
      (same_home (disk (lbio r)) d \/ same_home (disk (lbio r)) d').

Lemma commit_atomic s L : pending s L -> L <> [] ->
  exists b' W, commit s = Ret tt (with_lh (mk_lh 0 (lh_block (lh s))) (with_lbio b' s)) /\
    lok (with_lh (mk_lh 0 (lh_block (lh s))) (with_lbio b' s)) /\ (forall m, dirty_at b' m = false) /\
    (exists H, disk_block (disk b') st = Some H /\ hdr_n H = 0) /\
    writes b' = writes (lbio s) ++ W /\ disk b' = apply_writes (disk (lbio s)) W /\
    (forall d', shows s d' -> same_home (disk b') d' /\ atomic (disk (lbio s)) W (disk (lbio s)) d').
Proof.
  intros Hp HL.
  destruct (commit_ok s L Hp HL) as (b' & xs & H1 & H0 & E & Hok' & Hdirty' & Hlx & Hxs & H1n & H1e & H0n & H1b & H0b & W' & D').
  pose proof Hp as [Hok Hn Hbl Hsz Hhome Hnd Hdirty Hbusy (Hd & HH & HHn)].
  set (W := log_pairs 0 xs ++ [(st, H1)] ++ zip L xs ++ [(st, H0)]) in *. set (d := disk (lbio s)) in *.
  assert (Hdl : Z.of_nat (length d) = len) by apply Hok.
  assert (Hdb : Forall (fun x => length x = BSIZE) d) by apply Hok.
  assert (Hxb : Forall (fun x => length x = BSIZE) xs).
  { apply Forall_lookup. intros k x Hx. destruct (lookup_lt_is_Some_2 L k) as [b Hb]; [apply lookup_lt_Some in Hx; lia |].
    apply (vblock_len (lbio s) b); [apply Hok | by eapply Hxs]. }
  assert (HbW : Forall (fun w : Z * blk => length w.2 = BSIZE) W).
  { unfold W. apply Forall_app; split; [by apply log_pairs_blk |]. apply Forall_cons; split; [done |].
    apply Forall_app; split; [by apply zip_blk | by repeat constructor]. }
  assert (Hnew : forall d', shows s d' -> same_home (redo d L xs) d').
  { intros d' [Hd' Hv] m Hm. rewrite <- Hv by done. destruct (decide (m ∈ L)) as [Hin | Hnin].
    - apply list_elem_of_lookup in Hin as [k Hk].
      destruct (lookup_lt_is_Some_2 xs k) as [x Hx]; [apply lookup_lt_Some in Hk; lia |].
      rewrite (redo_at d L xs k m x) by done. symmetry. by eapply Hxs.
    - rewrite redo_off by done. symmetry. apply clean_view; [apply Hok | | apply Hok].
      rewrite Hdirty. by apply bool_decide_eq_false. }
  exists b', W. split_and!; try done.
  - exists H0. split; [| done]. rewrite D'. unfold W. rewrite !apply_writes_app. cbn. unfold apply_write at 1. cbn.
    rewrite disk_block_insert; [by rewrite decide_True |]. rewrite length_apply_writes. unfold apply_write.
    rewrite length_insert, length_apply_writes. lia.
  - intros d' Hs. split.
    + intros m Hm. rewrite D'. rewrite <- (Hnew d' Hs m Hm). by apply (commit_home d L xs H1 H0).
    + intros p pid Hpre.
      destruct (crash_point d L xs H1 H0 Hd Hhome Hnd Hsz Hlx Hdl Hdb Hxb H1b H0b HH HHn H1n H1e H0n p Hpre)
        as (L' & xs' & Hc & Hcase).
      assert (Hq : quiet (binit (apply_writes d p) pid)).
      { apply binit_quiet, length_blk_apply; [done |]. by eapply prefix_blk. }
      destruct Hcase as [Ho | Ho].
      * destruct (recovers (binit (apply_writes d p) pid) L' xs' d Hq Hc Ho) as (r & Er & Hr & Hsame).
        exists r. split_and!; [done | done | by left].
      * destruct (recovers (binit (apply_writes d p) pid) L' xs' d' Hq Hc) as (r & Er & Hr & Hsame).
        { intros m Hm. rewrite <- (Hnew d' Hs m Hm). by apply Ho. }
        exists r. split_and!; [done | done | by right].
Qed.

Lemma idle_pending s : idle s -> pending (with_outstanding 1 s) [].
Proof.
  intros [Hok Hd Hn Ho Hc Hh]. split; try done; cbn.
  - destruct Hok. by split.
  - lia.
  - constructor.
  - apply quiet_busy; [apply Hok | done | apply Hok].
Qed.

(** A crash with nothing written. *)
Lemma idle_recovers s pid : idle s ->
  exists r, initlog (binit (disk (lbio s)) pid) st sz = Ret tt r /\ idle r /\ same_home (disk (lbio r)) (disk (lbio s)).
Proof.
  intros [Hok Hd Hn Ho Hc (H & HH & HHn)].
  apply (recovers (binit (disk (lbio s)) pid) [] []); [apply binit_quiet, Hok | | done].
  apply (committed_nil _ H); [done | done | apply Hok | apply Hok].
Qed.

Lemma committed_prefix d L xs p : committed d L xs -> Forall (fun x => length x = BSIZE) xs ->
  p `prefix_of` zip L xs ->
  committed (apply_writes d p) L xs /\ same_home (redo (apply_writes d p) L xs) (redo d L xs).
Proof.
  intros [(H & HH & Hn & He) Hsz HL Hnd Hlx Hdata Hdl Hblk] Hxb Hp.
  assert (Hoff : forall m, m ∉ L -> disk_block (apply_writes d p) m = disk_block d m).
  { intros m Hm. apply apply_writes_off. pose proof (zip_home L xs d HL Hdl m Hm) as Hf.
    destruct Hp as [k Hk]. rewrite Hk in Hf. by apply Forall_app in Hf as [? _]. }
  assert (Hlog : forall m, in_log m -> m ∉ L).
  { intros m Hm Hin. by destruct (proj1 (Forall_forall _ _) HL m Hin). }
  split; [split; try done |].
  - exists H. rewrite Hoff by (apply Hlog; unfold in_log; lia). done.
  - intros k x Hx. assert ((k < length L)%nat) by (apply lookup_lt_Some in Hx; lia).
    rewrite Hoff by (apply Hlog; unfold in_log; lia). by apply Hdata.
  - by rewrite length_apply_writes.
  - apply length_blk_apply; [done |]. eapply prefix_blk; [by apply zip_blk | done].
  - apply redo_agree; try done; [by rewrite length_apply_writes |]. intros m _ Hm. by apply Hoff.
Qed.

(** Recovery can itself be interrupted: it installs the committed blocks
    and clears the header, and after a crash at any point of its own writes a
    second recovery ends with the same home blocks. *)
Theorem recovery_restartable (d : list blk) (L : list Z) (xs : list blk) (pid : Z) (Hc : committed d L xs)
  (Hxb : Forall (fun x => length x = BSIZE) xs) :
  exists r, initlog (binit d pid) st sz = Ret tt r /\ idle r /\ same_home (disk (lbio r)) (redo d L xs) /\
    forall p pid', p `prefix_of` writes (lbio r) ->
      exists r', initlog (binit (apply_writes d p) pid') st sz = Ret tt r' /\ idle r' /\
        same_home (disk (lbio r')) (disk (lbio r)).
Proof.
  assert (Hq : quiet (binit d pid)) by apply binit_quiet, Hc.
  destruct (recover_ok (binit d pid) L xs Hq Hc) as (r & H0 & E & Hid & H0n & H0b & HW & HD).
  assert (Hnew : same_home (disk (lbio r)) (redo d L xs)).
  { destruct (recovers (binit d pid) L xs (redo d L xs) Hq Hc) as (r' & E' & _ & Hs); [done |]. rewrite E in E'. by injection E' as <-. }
  exists r. split_and!; try done. intros p pid' Hp. change (writes (binit d pid)) with (@nil (Z * blk)) in HW.
  rewrite HW in Hp. cbn [app] in Hp. apply prefix_app_cases in Hp as [Hp | (c & -> & Hcc)].
  - destruct (committed_prefix d L xs p Hc Hxb Hp) as [Hc' Hs].
    apply (recovers (binit (apply_writes d p) pid') L xs); [apply binit_quiet, Hc' | done |].
    intros m Hm. rewrite Hs by done. symmetry. by apply Hnew.
  - destruct c as [| w c].
    + rewrite app_nil_r. destruct (committed_prefix d L xs (zip L xs) Hc Hxb) as [Hc' Hs]; [done |].
      apply (recovers (binit (apply_writes d (zip L xs)) pid') L xs); [apply binit_quiet, Hc' | done |].
      intros m Hm. rewrite Hs by done. symmetry. by apply Hnew.
    + pose proof (prefix_cons_inv_1 _ _ _ _ Hcc) as ->. apply prefix_cons_inv_2 in Hcc.
      apply prefix_nil_inv in Hcc as ->.
      change (apply_writes d (zip L xs ++ [(st, H0)])) with (apply_writes (disk (binit d pid)) (zip L xs ++ [(st, H0)])).
      rewrite <- HD. by apply idle_recovers.
Qed.

(** [end_op] of the only operation in progress: everything that was logged
    reaches the disk, atomically. *)
Lemma end_op_ok s L : pending s L -> outstanding s = 1 -> committing s = false ->
  exists s' W, end_op s = Ret tt s' /\ idle s' /\ writes (lbio s') = writes (lbio s) ++ W /\
    disk (lbio s') = apply_writes (disk (lbio s)) W /\
    forall d', shows s d' -> same_home (disk (lbio s')) d' /\ atomic (disk (lbio s)) W (disk (lbio s)) d'.
Proof.
  intros Hp1 Ho Hc. unfold end_op. erewrite bind_ret by done. erewrite bind_ret by done.
  rewrite Ho, Hc. change (1 - 1 =? 0) with true. cbv iota. erewrite bind_ret by done.
  set (s2 := with_committing true (with_outstanding (1 - 1) s)).
  assert (Hp2 : pending s2 L) by (destruct Hp1 as [[] ]; split; try done; by split).
  destruct (decide (L = [])) as [-> | HL].
  - exists (with_committing false s2), []. pose proof (pd_n _ _ Hp2) as Hn2. cbn in Hn2.
    assert (Hnod : forall m, dirty_at (lbio s) m = false).
    { intros m. rewrite (pd_dirty _ _ Hp1). apply bool_decide_eq_false, not_elem_of_nil. }
    assert (E2 : commit s2 = Ret tt s2) by (unfold commit; erewrite bind_ret by done; cbn; by rewrite Hn2).
    assert (Hid : idle (with_committing false s2)) by (destruct Hp2 as [[] ]; by split).
    split; [by erewrite bind_ret by exact E2 |]. split; [done |]. split; [cbn; by rewrite app_nil_r |].
    split; [done |]. intros d' Hs. split.
    + intros m Hm. rewrite <- (proj2 Hs m Hm). symmetry. apply clean_view; [apply Hp1 | done | apply Hp1].
    + intros p pid Hp. apply prefix_nil_inv in Hp as ->. cbn.
      destruct (idle_recovers _ pid Hid) as (r & Er & Hr & Hsame). exists r. split_and!; [done | done | by left].
  - destruct (commit_atomic s2 L Hp2 HL) as (b' & W & E2 & Hok' & Hdirty' & Hhdr' & HW & HD & Hat).
    exists (with_committing false (with_lh (mk_lh 0 (lh_block (lh s2))) (with_lbio b' s2))), W.
    split; [by erewrite bind_ret by exact E2 |]. split; [destruct Hok'; by split |]. split; [done |]. split; [exact HD | exact Hat].
Qed.

(** C2. Transactions are atomic: the blocks logged between [begin_op] and
    [end_op] reach their home locations together.  The call returns with all of
    them on the disk; and if the machine stops after any number of its disk
    writes, booting and running [initlog] on what is left gives the home blocks
    of before the transaction or those of after it, never a mixture. *)
Theorem transaction_atomic (s : logst) (ws : list (Z * blk)) (Hid : idle s)
  (Hws : Forall (fun w => home w.1 /\ length w.2 = BSIZE) ws) (Hlen : Z.of_nat (length ws) < sz) :
  exists s' W, transaction ws s = Ret tt s' /\ idle s' /\
    same_home (disk (lbio s')) (apply_writes (disk (lbio s)) ws) /\
    writes (lbio s') = writes (lbio s) ++ W /\
    atomic (disk (lbio s)) W (disk (lbio s)) (apply_writes (disk (lbio s)) ws).
Proof.
  pose proof Hid as [Hok Hd Hn Ho Hc Hh]. set (d := disk (lbio s)) in *.
  assert (Hs : shows (with_outstanding 1 s) d).
  { split; [apply Hok |]. intros m _. cbn. apply clean_view; [apply Hok | apply Hd | apply Hok]. }
  destruct (tx_writes_ok ws (with_outstanding 1 s) [] d (idle_pending s Hid)) as
    (s1 & L & E1 & Hp1 & Hs1 & D1 & W1 & O1 & C1); [cbn; lia | done | done | cbn; lia |].
  cbn in D1, W1, O1, C1. rewrite Hc in C1. fold d in D1.
  destruct (end_op_ok s1 L Hp1 O1 C1) as (s' & W & E2 & Hid' & HW & _ & Hat). destruct (Hat _ Hs1) as [Hsame Hatom].
  exists s', W. rewrite D1, W1 in *. split_and!; try done.
  assert (E0 : begin_op s = Ret tt (with_outstanding 1 s)).
  { unfold begin_op. erewrite bind_ret by done. by rewrite Hc, Hn, Ho. }
  unfold transaction. erewrite bind_ret by exact E0. by erewrite bind_ret by exact E1.
Qed.
End geometry.

(** ** A disk laid out as mkfs does: the log at blocks 2 to 31 *)
Definition demo_log : logst :=
  mk_log (binit demo_disk 1) 2 30 0 false ROOTDEV (mk_lh 0 (replicate LOGSIZE 0)).
Lemma demo_geo : 0 <= 2 /\ 0 < 30 <= 30 /\ 2 + 30 <= 40 /\ 40 < 2 ^ 31.
Proof. lia. Qed.
Lemma demo_blocks : Forall (fun x => length x = BSIZE) demo_disk.
Proof. by apply Forall_replicate. Qed.
Lemma demo_hdr : exists H, disk_block demo_disk 2 = Some H /\ hdr_n H = 0.
Proof. exists (replicate BSIZE 0). by split. Qed.
Lemma demo_idle : idle 2 30 40 demo_log.
Proof.
  destruct (binit_quiet demo_disk 1 demo_blocks) as [Hi Hh Hd Hb].
  split; [split | | | | |]; try done. apply demo_hdr.
Qed.
Lemma home_demo m : 32 <= m < 40 -> home 2 30 40 m.
Proof. intros. split; [lia |]. unfold in_log. lia. Qed.

Lemma transaction_atomic_witness :
  exists s', transaction [(33, replicate BSIZE 7); (35, replicate BSIZE 9)] demo_log = Ret tt s' /\
    disk_block (disk (lbio s')) 33 = Some (replicate BSIZE 7).
Proof.
  destruct (transaction_atomic 2 30 40 demo_geo demo_log [(33, replicate BSIZE 7); (35, replicate BSIZE 9)])
    as (s' & W & E & _ & Hs & _).
  - exact demo_idle.
  - repeat constructor; cbn; unfold in_log; lia.
  - cbn. lia.
  - exists s'. split; [exact E |]. rewrite (Hs 33 (home_demo 33 ltac:(lia))). reflexivity.
Defined.

(** A disk whose log holds one committed block. *)
Definition crashed_disk : list blk :=
  <[2%nat := put_block 0 33 (put_n 1 (replicate BSIZE 0))]> (<[3%nat := replicate BSIZE 7]> demo_disk).

Lemma crashed_committed : committed 2 30 40 crashed_disk [33] [replicate BSIZE 7].
Proof.
  split.
  - exists (put_block 0 33 (put_n 1 (replicate BSIZE 0))). split; [reflexivity |]. split; [vm_compute; reflexivity |].
    intros [| k] b Hb; [injection Hb as <-; vm_compute; reflexivity | done].
  - cbn. lia.
  - repeat constructor; cbn; unfold in_log; lia.
  - apply NoDup_singleton.
  - reflexivity.
  - intros [| k] x Hx; [injection Hx as <-; reflexivity | done].
  - reflexivity.
  - unfold crashed_disk. apply Forall_insert; [apply Forall_insert; [apply demo_blocks | done] | vm_compute; reflexivity].
Qed.

Lemma recovery_restartable_witness :
  exists r, initlog (binit crashed_disk 1) 2 30 = Ret tt r /\
    disk_block (disk (lbio r)) 33 = Some (replicate BSIZE 7).
Proof.
  destruct (recovery_restartable 2 30 40 demo_geo crashed_disk [33] [replicate BSIZE 7] 1)
    as (r & E & _ & Hs & _).
  - exact crashed_committed.
  - repeat constructor.
  - exists r. split; [exact E |]. rewrite (Hs 33 (home_demo 33 ltac:(lia))). reflexivity.
Defined.
