(* ===== verification/Fs.v ===== *)
(** * Fs: project3/xv6-modified/{fs.c,fs.h}, the file system

    Blocks, inodes, directories and path names, over the interface [BlockDev]
    that bio.c and log.c provide.  [icache.lock] protects the reference counts
    and has no effect in the code of one process; an inode lock that is taken
    ends in [Block]. *)

From Stdlib Require Import ZArith Lia.
From stdpp Require Import base numbers strings option list.
From S2P Require Import Prelude KString Bio.

(** ** What fs.c calls of bio.c and log.c *)
Class BlockDev (S : Type) := {
  d_bread : Z -> Z -> M S nat;
  d_data : nat -> M S blk;
  d_store : nat -> blk -> M S unit;
  d_log_write : nat -> M S unit;
  d_brelse : nat -> M S unit
}.

(** [devsw]: the device table of the character devices. *)
Class Devices (S : Type) := {
  dev_read : Z -> option (Z -> M S (Z * list Z));
  dev_write : Z -> option (list Z -> Z -> M S Z)
}.

(** ** fs.h *)
Definition ROOTINO : Z := 1.
Definition NDIRECT : nat := 12.
Definition NINDIRECT : nat := 128.
Definition MAXFILE : Z := 140.
Definition IPB : Z := 8.
Definition BPB : Z := 4096.
Definition DIRSIZ : nat := 14.
Definition NINODE : nat := 50.
Definition NDEV : Z := 10.
Definition T_DIR : Z := 1.
Definition T_FILE : Z := 2.
Definition T_DEV : Z := 3.

Record superblock := mk_sb {
  sb_size : Z; sb_nblocks : Z; sb_ninodes : Z; sb_nlog : Z;
  sb_logstart : Z; sb_inodestart : Z; sb_bmapstart : Z
}.
Definition IBLOCK (i : Z) (sb : superblock) : Z := i / IPB + sb_inodestart sb.
Definition BBLOCK (b : Z) (sb : superblock) : Z := b / BPB + sb_bmapstart sb.

(** The [uint] at byte offset [o] of a block, the [short], and their stores. *)
Definition uint_at (o : nat) (x : blk) : Z := uint32_val (slice o 4 x).
Definition s16 (z : Z) : Z := (z + 2 ^ 15) mod 2 ^ 16 - 2 ^ 15.
Definition short_at (o : nat) (x : blk) : Z := s16 (le_val (slice o 2 x)).
Definition ushort_at (o : nat) (x : blk) : Z := le_val (slice o 2 x).

Definition dec_sb (x : blk) : superblock :=
  mk_sb (uint_at 0 x) (uint_at 4 x) (uint_at 8 x) (uint_at 12 x) (uint_at 16 x) (uint_at 20 x) (uint_at 24 x).

(** The fields an inode shares with its copy on disk. *)
Record dinode := mk_din {
  di_type : Z; di_major : Z; di_minor : Z; di_nlink : Z; di_size : Z; di_addrs : list Z
}.
Definition enc_dinode (d : dinode) : list Z :=
  le_bytes 2 (di_type d) ++ le_bytes 2 (di_major d) ++ le_bytes 2 (di_minor d) ++ le_bytes 2 (di_nlink d) ++
  le_bytes 4 (di_size d) ++ concat (le_bytes 4 <$> di_addrs d).
Definition dec_dinode (o : nat) (x : blk) : dinode :=
  mk_din (short_at o x) (short_at (o + 2) x) (short_at (o + 4) x) (short_at (o + 6) x) (uint_at (o + 8) x)
    (map (fun k => uint_at (o + 12 + 4 * k) x) (seq 0 (NDIRECT + 1))).
Definition din_zero (type : Z) : dinode := mk_din type 0 0 0 0 (replicate (NDIRECT + 1) 0).
(** [(struct dinode* )bp->data + inum%IPB] *)
Definition din_off (inum : Z) : nat := Z.to_nat (inum mod IPB) * 64.

(** In-memory inodes. *)
Record inode := mk_ino {
  i_dev : Z;
  i_inum : Z;
  i_ref : Z;
  i_locked : bool;
  i_valid : bool;
  i_din : dinode
}.
Definition ino_zero : inode := mk_ino 0 0 0 false false (din_zero 0).

Record fsst (S : Type) := mk_fs { dv : S; sb : superblock; icache : list inode }.
Arguments mk_fs {S}.
Arguments dv {S}.
Arguments sb {S}.
Arguments icache {S}.

Definition set_addrs (l : list Z) (d : dinode) : dinode :=
  mk_din (di_type d) (di_major d) (di_minor d) (di_nlink d) (di_size d) l.
Definition set_size (n : Z) (d : dinode) : dinode :=
  mk_din (di_type d) (di_major d) (di_minor d) (di_nlink d) n (di_addrs d).
Definition set_type (n : Z) (d : dinode) : dinode :=
  mk_din n (di_major d) (di_minor d) (di_nlink d) (di_size d) (di_addrs d).
Definition set_din (d : dinode) (p : inode) : inode :=
  mk_ino (i_dev p) (i_inum p) (i_ref p) (i_locked p) (i_valid p) d.

Section code.
Context {S : Type} {B : BlockDev S} {V : Devices S}.
Abbreviation F := (M (fsst S)).

Definition bcall {A : Type} (m : M S A) : F A := fun s =>
  match m (dv s) with
  | Ret a d => Ret a (mk_fs d (sb s) (icache s))
  | Stop msg => Stop msg
  | Block c d => Block c (mk_fs d (sb s) (icache s))
  | OutOfFuel => OutOfFuel
  end.

Definition get_ino (i : nat) : F inode :=
  l ← gets icache; from_option "null inode" (l !! i).
Definition put_ino (i : nat) (p : inode) : F unit :=
  modify (fun s => mk_fs (dv s) (sb s) (<[i := p]> (icache s))).

(** ** Blocks *)
Definition readsb (dev : Z) : F superblock :=
  bp ← bcall (d_bread dev 1); x ← bcall (d_data bp); bcall (d_brelse bp);; mret (dec_sb x).

Definition bzero (dev bno : Z) : F unit :=
  bp ← bcall (d_bread dev bno);
  bcall (d_store bp (replicate BSIZE 0));;
  bcall (d_log_write bp);;
  bcall (d_brelse bp).

(** Bit [bi] of the free map block [x]. *)
Definition bit_at (x : blk) (bi : nat) : bool := Z.testbit (nth (bi / 8) x 0) (Z.of_nat (bi mod 8)).
Definition set_bit (x : blk) (bi : nat) : blk :=
  <[(bi / 8)%nat := Z.lor (nth (bi / 8) x 0) (Z.shiftl 1 (Z.of_nat (bi mod 8)))]> x.
Definition clear_bit (x : blk) (bi : nat) : blk :=
  <[(bi / 8)%nat := Z.land (nth (bi / 8) x 0) (Z.lnot (Z.shiftl 1 (Z.of_nat (bi mod 8))))]> x.

(** The outer loop of [balloc] from block [b]; the inner loop is the search for
    the first clear bit. *)
Fixpoint balloc_loop (fuel : nat) (dev b : Z) : F Z :=
  match fuel with
  | O => out_of_fuel
  | Datatypes.S fuel' =>
      s ← gets sb;
      if b <? sb_size s then
        bp ← bcall (d_bread dev (BBLOCK b s));
        x ← bcall (d_data bp);
        match find (fun bi => negb (bit_at x bi)) (seq 0 (Z.to_nat (Z.min BPB (sb_size s - b)))) with
        | Some bi =>
            bcall (d_store bp (set_bit x bi));;
            bcall (d_log_write bp);;
            bcall (d_brelse bp);;
            bzero dev (b + Z.of_nat bi);;
            mret (b + Z.of_nat bi)
        | None => bcall (d_brelse bp);; balloc_loop fuel' dev (b + BPB)
        end
      else stop "balloc: out of blocks"
  end.
Definition balloc (dev : Z) : F Z :=
  s ← gets sb; balloc_loop (Z.to_nat (sb_size s / BPB) + 2) dev 0.

Definition bfree (dev b : Z) : F unit :=
  s ← readsb dev;
  modify (fun f => mk_fs (dv f) s (icache f));;
  bp ← bcall (d_bread dev (BBLOCK b s));
  x ← bcall (d_data bp);
  let bi := Z.to_nat (b mod BPB) in
  if bit_at x bi then
    bcall (d_store bp (clear_bit x bi));;
    bcall (d_log_write bp);;
    bcall (d_brelse bp)
  else stop "freeing free block".

(** ** Inodes *)
Definition iinit (dev : Z) : F unit :=
  s ← readsb dev;
  modify (fun f => mk_fs (dv f) s
    (map (fun p => mk_ino (i_dev p) (i_inum p) (i_ref p) false (i_valid p) (i_din p)) (icache f))).

Definition iget (dev inum : Z) : F nat :=
  l ← gets icache;
  match find_index (fun p => (i_ref p >? 0) && (i_dev p =? dev) && (i_inum p =? inum)) l with
  | Some i =>
      p ← get_ino i;
      put_ino i (mk_ino (i_dev p) (i_inum p) (i_ref p + 1) (i_locked p) (i_valid p) (i_din p));;
      mret i
  | None =>
      match find_index (fun p => i_ref p =? 0) l with
      | None => stop "iget: no inodes"
      | Some i =>
          p ← get_ino i;
          put_ino i (mk_ino dev inum 1 (i_locked p) false (i_din p));;
          mret i
      end
  end.

Definition ialloc_try (dev inum type : Z) : F (option nat) :=
  s ← gets sb;
  bp ← bcall (d_bread dev (IBLOCK inum s));
  x ← bcall (d_data bp);
  if short_at (din_off inum) x =? 0 then
    bcall (d_store bp (splice (din_off inum) (enc_dinode (din_zero type)) x));;
    bcall (d_log_write bp);;
    bcall (d_brelse bp);;
    i ← iget dev inum;
    mret (Some i)
  else bcall (d_brelse bp);; mret None.
Fixpoint ialloc_loop (k : nat) (dev inum type : Z) : F nat :=
  match k with
  | O => stop "ialloc: no inodes"
  | Datatypes.S k' =>
      r ← ialloc_try dev inum type;
      match r with Some i => mret i | None => ialloc_loop k' dev (inum + 1) type end
  end.
Definition ialloc (dev type : Z) : F nat :=
  s ← gets sb; ialloc_loop (Z.to_nat (sb_ninodes s - 1)) dev 1 type.

Definition iupdate (ip : nat) : F unit :=
  p ← get_ino ip;
  s ← gets sb;
  bp ← bcall (d_bread (i_dev p) (IBLOCK (i_inum p) s));
  x ← bcall (d_data bp);
  bcall (d_store bp (splice (din_off (i_inum p)) (enc_dinode (i_din p)) x));;
  bcall (d_log_write bp);;
  bcall (d_brelse bp).

Definition idup (ip : nat) : F nat :=
  p ← get_ino ip;
  put_ino ip (mk_ino (i_dev p) (i_inum p) (i_ref p + 1) (i_locked p) (i_valid p) (i_din p));;
  mret ip.

Definition lock_ino (b : bool) (p : inode) : inode :=
  mk_ino (i_dev p) (i_inum p) (i_ref p) b (i_valid p) (i_din p).

Definition ilock (ip : nat) : F unit :=
  p ← get_ino ip;
  if i_ref p <? 1 then stop "ilock" else
  if i_locked p then block "inode" else
  put_ino ip (lock_ino true p);;
  if i_valid p then skip else
    s ← gets sb;
    bp ← bcall (d_bread (i_dev p) (IBLOCK (i_inum p) s));
    x ← bcall (d_data bp);
    let d := dec_dinode (din_off (i_inum p)) x in
    bcall (d_brelse bp);;
    put_ino ip (mk_ino (i_dev p) (i_inum p) (i_ref p) true true d);;
    if di_type d =? 0 then stop "ilock: no type" else skip.

Definition iunlock (ip : nat) : F unit :=
  p ← get_ino ip;
  if negb (i_locked p) || (i_ref p <? 1) then stop "iunlock" else
  put_ino ip (lock_ino false p).

(** ** Inode content *)
Definition addr_of (p : inode) (k : nat) : Z := nth k (di_addrs (i_din p)) 0.
Definition set_addr (ip k : nat) (a : Z) : F unit :=
  p ← get_ino ip;
  put_ino ip (set_din (set_addrs (<[k := a]> (di_addrs (i_din p))) (i_din p)) p).

(** [ip->addrs[k]], allocated if it is 0. *)
Definition addr_alloc (ip k : nat) : F Z :=
  p ← get_ino ip;
  if addr_of p k =? 0 then
    a ← balloc (i_dev p);
    set_addr ip k a;;
    mret a
  else mret (addr_of p k).

Definition bmap (ip : nat) (bn : Z) : F Z :=
  if bn <? Z.of_nat NDIRECT then addr_alloc ip (Z.to_nat bn) else
  let bn := bn - Z.of_nat NDIRECT in
  if bn <? Z.of_nat NINDIRECT then
    addr ← addr_alloc ip NDIRECT;
    p ← get_ino ip;
    bp ← bcall (d_bread (i_dev p) addr);
    x ← bcall (d_data bp);
    let e := uint_at (4 * Z.to_nat bn) x in
    if e =? 0 then
      a ← balloc (i_dev p);
      x ← bcall (d_data bp);
      bcall (d_store bp (splice (4 * Z.to_nat bn) (le_bytes 4 a) x));;
      bcall (d_log_write bp);;
      bcall (d_brelse bp);;
      mret a
    else bcall (d_brelse bp);; mret e
  else stop "bmap: out of range".

(** The loops of [itrunc]. *)
Fixpoint trunc_direct (k n : nat) (ip : nat) : F unit :=
  match n with
  | O => skip
  | Datatypes.S n' =>
      p ← get_ino ip;
      (if addr_of p k =? 0 then skip else bfree (i_dev p) (addr_of p k);; set_addr ip k 0);;
      trunc_direct (Datatypes.S k) n' ip
  end.
Fixpoint trunc_indirect (j n : nat) (dev : Z) (x : blk) : F unit :=
  match n with
  | O => skip
  | Datatypes.S n' =>
      (if uint_at (4 * j) x =? 0 then skip else bfree dev (uint_at (4 * j) x));;
      trunc_indirect (Datatypes.S j) n' dev x
  end.
Definition itrunc (ip : nat) : F unit :=
  trunc_direct 0 NDIRECT ip;;
  p ← get_ino ip;
  (if addr_of p NDIRECT =? 0 then skip else
     bp ← bcall (d_bread (i_dev p) (addr_of p NDIRECT));
     x ← bcall (d_data bp);
     trunc_indirect 0 NINDIRECT (i_dev p) x;;
     bcall (d_brelse bp);;
     bfree (i_dev p) (addr_of p NDIRECT);;
     set_addr ip NDIRECT 0);;
  p ← get_ino ip;
  put_ino ip (set_din (set_size 0 (i_din p)) p);;
  iupdate ip.

Definition iput (ip : nat) : F unit :=
  p ← get_ino ip;
  if i_locked p then block "inode" else
  put_ino ip (lock_ino true p);;
  (if i_valid p && (di_nlink (i_din p) =? 0) && (i_ref p =? 1) then
     itrunc ip;;
     q ← get_ino ip;
     put_ino ip (set_din (set_type 0 (i_din q)) q);;
     iupdate ip;;
     q ← get_ino ip;
     put_ino ip (mk_ino (i_dev q) (i_inum q) (i_ref q) (i_locked q) false (i_din q))
   else skip);;
  q ← get_ino ip;
  put_ino ip (mk_ino (i_dev q) (i_inum q) (i_ref q - 1) false (i_valid q) (i_din q)).

Definition iunlockput (ip : nat) : F unit := iunlock ip;; iput ip.

Record stat := mk_stat { st_type : Z; st_dev : Z; st_ino : Z; st_nlink : Z; st_size : Z }.
Definition stati (ip : nat) : F stat :=
  p ← get_ino ip;
  mret (mk_stat (di_type (i_din p)) (s32 (i_dev p)) (i_inum p) (di_nlink (i_din p)) (di_size (i_din p))).

(** [min(n - tot, BSIZE - off%BSIZE)] *)
Definition chunk_len (n tot off : Z) : Z := Z.min (n - tot) (Z.of_nat BSIZE - off mod Z.of_nat BSIZE).

Fixpoint readi_loop (fuel ip : nat) (tot off n : Z) : F (list Z) :=
  match fuel with
  | O => out_of_fuel
  | Datatypes.S fuel' =>
      if tot <? n then
        p ← get_ino ip;
        a ← bmap ip (off / Z.of_nat BSIZE);
        bp ← bcall (d_bread (i_dev p) a);
        let m := chunk_len n tot off in
        x ← bcall (d_data bp);
        bcall (d_brelse bp);;
        r ← readi_loop fuel' ip (tot + m) (off + m) n;
        mret (slice (Z.to_nat (off mod Z.of_nat BSIZE)) (Z.to_nat m) x ++ r)
      else mret []
  end.

(** [readi]: its result and the bytes it stores at [dst]. *)
Definition readi (ip : nat) (off n : Z) : F (Z * list Z) :=
  p ← get_ino ip;
  if di_type (i_din p) =? T_DEV then
    let major := di_major (i_din p) in
    if (major <? 0) || (major >=? NDEV) then mret (-1, []) else
    match dev_read major with
    | None => mret (-1, [])
    | Some f => bcall (f n)
    end
  else
  let size := di_size (i_din p) in
  if (off >? size) || (u32 (off + n) <? off) then mret (-1, []) else
  let n := if u32 (off + n) >? size then size - off else n in
  bs ← readi_loop (Datatypes.S (Z.to_nat n)) ip 0 off n;
  mret (s32 n, bs).

(** The loop of [writei]; returns [off] after it. *)
Fixpoint writei_loop (fuel ip : nat) (src : list Z) (tot off n : Z) : F Z :=
  match fuel with
  | O => out_of_fuel
  | Datatypes.S fuel' =>
      if tot <? n then
        p ← get_ino ip;
        a ← bmap ip (off / Z.of_nat BSIZE);
        bp ← bcall (d_bread (i_dev p) a);
        let m := chunk_len n tot off in
        x ← bcall (d_data bp);
        bcall (d_store bp (splice (Z.to_nat (off mod Z.of_nat BSIZE)) (slice (Z.to_nat tot) (Z.to_nat m) src) x));;
        bcall (d_log_write bp);;
        bcall (d_brelse bp);;
        writei_loop fuel' ip src (tot + m) (off + m) n
      else mret off
  end.

Definition writei (ip : nat) (src : list Z) (off n : Z) : F Z :=
  p ← get_ino ip;
  if di_type (i_din p) =? T_DEV then
    let major := di_major (i_din p) in
    if (major <? 0) || (major >=? NDEV) then mret (-1) else
    match dev_write major with
    | None => mret (-1)
    | Some f => bcall (f src n)
    end
  else
  if (off >? di_size (i_din p)) || (u32 (off + n) <? off) then mret (-1) else
  if u32 (off + n) >? MAXFILE * Z.of_nat BSIZE then mret (-1) else
  off ← writei_loop (Datatypes.S (Z.to_nat n)) ip src 0 off n;
  p ← get_ino ip;
  (if (n >? 0) && (off >? di_size (i_din p)) then
     put_ino ip (set_din (set_size off (i_din p)) p);;
     iupdate ip
   else skip);;
  mret (s32 n).

(** ** Directories *)

(** [namecmp], run by the model of string.c on the two 14-byte buffers. *)
Definition namecmp (s t : list Z) : Z :=
  match strncmp 0 (length s) DIRSIZ (s ++ t) with Ret r _ => r | _ => 1 end.

(** A directory entry, at its 16-byte layout. *)
Definition de_inum (de : list Z) : Z := ushort_at 0 de.
Definition de_name (de : list Z) : list Z := slice 2 DIRSIZ de.

(** The loop of [dirlookup] from [off]: the offset and inode number found. *)
Fixpoint dirlookup_loop (fuel dp : nat) (name : list Z) (off : Z) : F (option (Z * Z)) :=
  match fuel with
  | O => out_of_fuel
  | Datatypes.S fuel' =>
      p ← get_ino dp;
      if off <? di_size (i_din p) then
        r ← readi dp off 16;
        if negb (fst r =? 16) then stop "dirlookup read" else
        if de_inum (snd r) =? 0 then dirlookup_loop fuel' dp name (off + 16) else
        if namecmp name (de_name (snd r)) =? 0 then mret (Some (off, de_inum (snd r)))
        else dirlookup_loop fuel' dp name (off + 16)
      else mret None
  end.
Definition dir_fuel (p : inode) : nat := Datatypes.S (Z.to_nat (di_size (i_din p) / 16 + 1)).
Definition dirlookup (dp : nat) (name : list Z) : F (option (nat * Z)) :=
  p ← get_ino dp;
  if negb (di_type (i_din p) =? T_DIR) then stop "dirlookup not DIR" else
  r ← dirlookup_loop (dir_fuel p) dp name 0;
  match r with
  | Some (off, inum) => ip ← iget (i_dev p) inum; mret (Some (ip, off))
  | None => mret None
  end.

(** The search for an empty entry in [dirlink]. *)
Fixpoint dirlink_loop (fuel dp : nat) (off : Z) : F Z :=
  match fuel with
  | O => out_of_fuel
  | Datatypes.S fuel' =>
      p ← get_ino dp;
      if off <? di_size (i_din p) then
        r ← readi dp off 16;
        if negb (fst r =? 16) then stop "dirlink read" else
        if de_inum (snd r) =? 0 then mret off else dirlink_loop fuel' dp (off + 16)
      else mret off
  end.

(** [strncpy(de.name, name, DIRSIZ)], by the model of string.c. *)
Definition entry_name (name : list Z) : list Z :=
  match strncpy 0 DIRSIZ (Z.of_nat DIRSIZ) (replicate DIRSIZ 0 ++ name) with
  | Ret _ m => take DIRSIZ m
  | _ => replicate DIRSIZ 0
  end.

Definition dirlink (dp : nat) (name : list Z) (inum : Z) : F Z :=
  r ← dirlookup dp name;
  match r with
  | Some (ip, _) => iput ip;; mret (-1)
  | None =>
      p ← get_ino dp;
      off ← dirlink_loop (dir_fuel p) dp 0;
      w ← writei dp (le_bytes 2 inum ++ entry_name name) off 16;
      if negb (w =? 16) then stop "dirlink" else mret 0
  end.

(** ** Paths: a path is its characters without the terminator *)
Definition slash : Z := 47.
Fixpoint skip_slashes (path : list Z) : list Z :=
  match path with
  | c :: path' => if c =? slash then skip_slashes path' else path
  | [] => []
  end.
Fixpoint elem_len (path : list Z) : nat :=
  match path with
  | c :: path' => if c =? slash then 0 else Datatypes.S (elem_len path')
  | [] => 0
  end.

(** [skipelem]: the rest of the path and the buffer [name] after the call. *)
Definition skipelem (path name : list Z) : option (list Z * list Z) :=
  match skip_slashes path with
  | [] => None
  | s =>
      let len := elem_len s in
      let name' := if (DIRSIZ <=? len)%nat then splice 0 (take DIRSIZ s) name
                   else splice 0 (take len s ++ [0]) name in
      Some (skip_slashes (drop len s), name')
  end.

Fixpoint namex_loop (fuel ip : nat) (path : list Z) (parent : bool) (name : list Z) : F (option nat * list Z) :=
  match fuel with
  | O => out_of_fuel
  | Datatypes.S fuel' =>
      match skipelem path name with
      | None =>
          if parent then iput ip;; mret (None, name) else mret (Some ip, name)
      | Some (path', name') =>
          ilock ip;;
          p ← get_ino ip;
          if negb (di_type (i_din p) =? T_DIR) then iunlockput ip;; mret (None, name') else
          if parent && bool_decide (path' = []) then iunlock ip;; mret (Some ip, name') else
          r ← dirlookup ip name';
          match r with
          | None => iunlockput ip;; mret (None, name')
          | Some (next, _) => iunlockput ip;; namex_loop fuel' next path' parent name'
          end
      end
  end.

(** [namex], with the working directory of the process as argument. *)
Definition namex (cwd : nat) (path : list Z) (parent : bool) (name : list Z) : F (option nat * list Z) :=
  ip ← (match path with
        | c :: _ => if c =? slash then iget ROOTDEV ROOTINO else idup cwd
        | [] => idup cwd
        end);
  namex_loop (Datatypes.S (length path)) ip path parent name.
Definition namei (cwd : nat) (path : list Z) : F (option nat) :=
  r ← namex cwd path false (replicate DIRSIZ 0); mret (fst r).
Definition nameiparent (cwd : nat) (path name : list Z) : F (option nat * list Z) :=
  namex cwd path true name.
End code.
