(* ===== verification/FsSpec.v ===== *)
(** * FsSpec: the block interface of the file system, and block allocation

    [BlockDevOk] states what fs.c relies on within one transaction: an abstract
    view of the blocks, the buffers the process holds, the changed blocks it
    has not logged yet and the log entries it may still use.  The theorems on
    fs.c are proved against it; LogDev.v shows that bio.c and log.c provide it. *)

From Stdlib Require Import ZArith Lia.
From stdpp Require Import base numbers strings option list.
From S2P Require Import Prelude KString Bio Fs.

Record abs := mk_abs {
  a_view : Z -> option blk;
  a_held : list (nat * Z);
  a_stale : list Z;
  a_room : nat
}.
Definition upd_view (v : Z -> option blk) (b : Z) (x : blk) : Z -> option blk :=
  fun m => if decide (m = b) then Some x else v m.

Class BlockDevOk (S : Type) `{BlockDev S} := {
  (** number of blocks, and the blocks outside the log *)
  nblk : Z;
  loggable : Z -> Prop;
  rep : S -> abs -> Prop;
  rep_view : forall s v v' h t r, (forall m, v m = v' m) -> rep s (mk_abs v h t r) -> rep s (mk_abs v' h t r);
  law_view : forall s v h t r b, rep s (mk_abs v h t r) -> 0 <= b < nblk -> exists x, v b = Some x /\ length x = BSIZE;
  law_bread : forall s v h t r b, rep s (mk_abs v h t r) -> 0 <= b < nblk -> b ∉ h.*2 -> (length h <= r)%nat ->
    exists i s' x, d_bread ROOTDEV b s = Ret i s' /\ v b = Some x /\ length x = BSIZE /\
      rep s' (mk_abs v ((i, b) :: h) t r);
  law_data : forall s v h t r i b, rep s (mk_abs v h t r) -> (i, b) ∈ h ->
    exists x, d_data i s = Ret x s /\ v b = Some x /\ length x = BSIZE;
  law_store : forall s v h t r i b y, rep s (mk_abs v h t r) -> (i, b) ∈ h -> length y = BSIZE ->
    exists s', d_store i y s = Ret tt s' /\ rep s' (mk_abs (upd_view v b y) h (b :: t) r);
  law_log_write : forall s v h t r i b, rep s (mk_abs v h t (Datatypes.S r)) -> (i, b) ∈ h -> loggable b ->
    exists s', d_log_write i s = Ret tt s' /\ rep s' (mk_abs v h (filter (.≠ b) t) r);
  law_brelse : forall s v h t r i b, rep s (mk_abs v ((i, b) :: h) t r) -> b ∉ t ->
    exists s', d_brelse i s = Ret tt s' /\ rep s' (mk_abs v h t r);
  law_swap : forall s v h h' t r, h ≡ₚ h' -> rep s (mk_abs v h t r) -> rep s (mk_abs v h' t r);
  (** reserving less *)
  law_room : forall s v h t r r', (r' <= r)%nat -> rep s (mk_abs v h t r) -> rep s (mk_abs v h t r')
}.

Section spec.
Context {S : Type} {B : BlockDev S} {D : BlockDevOk S} {V : Devices S}.

Lemma dev_ret {A} (m : M S A) (s : fsst S) a d :
  m (dv s) = Ret a d -> Fs.bcall m s = Ret a (mk_fs d (sb s) (icache s)).
Proof. unfold Fs.bcall. by intros ->. Qed.

(** The file-system state with the device in abstract state [v], holding [h],
    with [r] log entries left. *)
Definition at_ (s : fsst S) (v : Z -> option blk) (h : list (nat * Z)) (r : nat) : Prop :=
  rep (dv s) (mk_abs v h [] r).

(** Reading a block: [bread], [b->data], [brelse]. *)
Lemma read_block d v h r b : rep d (mk_abs v h [] r) -> 0 <= b < nblk -> b ∉ h.*2 -> (length h <= r)%nat ->
  exists i d1 x d2, d_bread ROOTDEV b d = Ret i d1 /\ d_data i d1 = Ret x d1 /\ d_brelse i d1 = Ret tt d2 /\
    v b = Some x /\ length x = BSIZE /\ rep d2 (mk_abs v h [] r).
Proof.
  intros Hr Hb Hh Hl. destruct (law_bread d v h [] r b Hr Hb Hh Hl) as (i & d1 & x & E1 & Hx & Hlx & R1).
  destruct (law_data d1 v ((i, b) :: h) [] r i b R1) as (x' & E2 & Hx' & _); [by left |].
  assert (x' = x) as -> by congruence.
  destruct (law_brelse d1 v h [] r i b R1) as (d2 & E3 & R2); [apply not_elem_of_nil |].
  exists i, d1, x, d2. by split_and!.
Qed.

(** Writing a block that is held: a store, [log_write], [brelse]. *)
Lemma write_held d v h r i b y :
  rep d (mk_abs v ((i, b) :: h) [] (Datatypes.S r)) -> loggable b -> length y = BSIZE ->
  exists d2 d3 d4, d_store i y d = Ret tt d2 /\ d_log_write i d2 = Ret tt d3 /\ d_brelse i d3 = Ret tt d4 /\
    rep d4 (mk_abs (upd_view v b y) h [] r).
Proof.
  intros Hr Hg Hy. destruct (law_store d v ((i, b) :: h) [] _ i b y Hr) as (d2 & E3 & R2); [by left | done |].
  destruct (law_log_write d2 _ ((i, b) :: h) [b] r i b R2) as (d3 & E4 & R3); [by left | done |].
  rewrite filter_cons_False in R3 by tauto.
  destruct (law_brelse d3 _ h [] r i b R3) as (d4 & E5 & R4); [apply not_elem_of_nil |].
  exists d2, d3, d4. by split_and!.
Qed.

(** Changing a block: [bread], [b->data], a store, [log_write], [brelse]. *)
Lemma update_block d v h r b (f : blk -> blk) :
  rep d (mk_abs v h [] (Datatypes.S r)) -> 0 <= b < nblk -> loggable b -> b ∉ h.*2 -> (length h <= Datatypes.S r)%nat ->
  (forall x, length x = BSIZE -> length (f x) = BSIZE) ->
  exists i d1 x d2 d3 d4, d_bread ROOTDEV b d = Ret i d1 /\ d_data i d1 = Ret x d1 /\
    d_store i (f x) d1 = Ret tt d2 /\ d_log_write i d2 = Ret tt d3 /\ d_brelse i d3 = Ret tt d4 /\
    v b = Some x /\ length x = BSIZE /\ rep d4 (mk_abs (upd_view v b (f x)) h [] r).
Proof.
  intros Hr Hb Hg Hh Hl Hf. destruct (law_bread d v h [] _ b Hr Hb Hh Hl) as (i & d1 & x & E1 & Hx & Hlx & R1).
  destruct (law_data d1 v ((i, b) :: h) [] _ i b R1) as (x' & E2 & Hx' & _); [by left |].
  assert (x' = x) as -> by congruence.
  destruct (write_held d1 v h r i b (f x) R1 Hg (Hf x Hlx)) as (d2 & d3 & d4 & E3 & E4 & E5 & R4).
  exists i, d1, x, d2, d3, d4. by split_and!.
Qed.

(** ** The free map *)
Lemma testbit_lor_shift a k j : 0 <= k -> 0 <= j -> Z.testbit (Z.lor a (Z.shiftl 1 k)) j = (k =? j) || Z.testbit a j.
Proof.
  intros Hk Hj. rewrite Z.lor_spec, Z.shiftl_spec by done. rewrite orb_comm. f_equal.
  destruct (Z.eqb_spec k j) as [<- |]; [by rewrite Z.sub_diag |].
  destruct (Z.ltb_spec j k); [by rewrite Z.testbit_neg_r by lia |].
  change 1 with (2 ^ 0). rewrite Z.pow2_bits_false by lia. done.
Qed.

Lemma nth_insert_eq (x : blk) i a : (i < length x)%nat -> nth i (<[i := a]> x) 0 = a.
Proof. intros. apply nth_lookup_Some. by apply list_lookup_insert_eq. Qed.
Lemma nth_insert_ne (x : blk) i j a : i <> j -> nth j (<[i := a]> x) 0 = nth j x 0.
Proof. intros. rewrite !nth_lookup. by rewrite list_lookup_insert_ne. Qed.

Lemma bit_inj i j : (i / 8 = j / 8)%nat -> Z.of_nat (i mod 8) = Z.of_nat (j mod 8) -> i = j.
Proof. intros H1 H2. pose proof (Nat.div_mod i 8 ltac:(lia)). pose proof (Nat.div_mod j 8 ltac:(lia)). lia. Qed.

Lemma bit_set x i j : (i / 8 < length x)%nat ->
  bit_at (set_bit x i) j = bool_decide (j = i) || bit_at x j.
Proof.
  intros Hi. unfold bit_at, set_bit. destruct (decide (i / 8 = j / 8)%nat) as [E | E].
  - rewrite <- E, nth_insert_eq by done. rewrite testbit_lor_shift by lia. f_equal.
    destruct (Z.eqb_spec (Z.of_nat (i mod 8)) (Z.of_nat (j mod 8))) as [E2 | E2].
    + symmetry. apply bool_decide_eq_true. symmetry. by apply bit_inj.
    + symmetry. apply bool_decide_eq_false. congruence.
  - rewrite nth_insert_ne by done. rewrite bool_decide_false; [done | congruence].
Qed.

(** Layout of the disk: inodes, free map, data blocks. *)
Record layout (b : superblock) : Prop := {
  ly_size : 0 < sb_size b <= nblk;
  ly_big : nblk < 2 ^ 31;
  ly_inodes : 1 < sb_inodestart b;
  ly_ninodes : 0 <= sb_ninodes b;
  ly_bmap : sb_inodestart b + sb_ninodes b / IPB + 1 <= sb_bmapstart b;
  ly_data : sb_bmapstart b + sb_size b / BPB + 1 <= sb_size b;
  ly_log : forall m, sb_inodestart b <= m < sb_size b -> loggable m
}.
Definition datastart (b : superblock) : Z := sb_bmapstart b + sb_size b / BPB + 1.
Definition is_data (b : superblock) (m : Z) : Prop := datastart b <= m < sb_size b.

(** The bit of block [m] in the free map. *)
Definition used (b : superblock) (v : Z -> option blk) (m : Z) : bool :=
  match v (BBLOCK m b) with Some x => bit_at x (Z.to_nat (m mod BPB)) | None => true end.
Definition meta_used (b : superblock) (v : Z -> option blk) : Prop :=
  forall m, 0 <= m < datastart b -> used b v m = true.

Lemma bblock_range b m : layout b -> 0 <= m < sb_size b -> sb_bmapstart b <= BBLOCK m b < datastart b.
Proof.
  intros [] Hm. unfold BBLOCK, datastart, BPB in *.
  pose proof (Z.div_pos m 4096). pose proof (Z.div_le_mono m (sb_size b) 4096). lia.
Qed.

(** The view after block [m] was allocated and zeroed. *)
Record allocated (b : superblock) (v v' : Z -> option blk) (m : Z) : Prop := {
  al_data : is_data b m;
  al_free : used b v m = false;
  al_zero : v' m = Some (replicate BSIZE 0);
  al_used : forall c, 0 <= c < sb_size b -> used b v' c = bool_decide (c = m) || used b v c;
  al_view : forall c, ~ (sb_bmapstart b <= c < datastart b) -> c <> m -> v' c = v c
}.

Lemma allocated_intro b v m x : layout b -> meta_used b v -> 0 <= m < sb_size b -> used b v m = false ->
  v (BBLOCK m b) = Some x -> length x = BSIZE ->
  allocated b v (upd_view (upd_view v (BBLOCK m b) (set_bit x (Z.to_nat (m mod BPB)))) m (replicate BSIZE 0)) m.
Proof.
  intros Hly Hmeta Hm Hfree Hx Hlx. pose proof (bblock_range b m Hly Hm) as Hbb.
  assert (Hd : is_data b m).
  { split; [| lia]. destruct (decide (datastart b <= m)); [done |]. rewrite Hmeta in Hfree by lia. done. }
  assert (Hne : forall c, 0 <= c < sb_size b -> BBLOCK c b <> m).
  { intros c Hc He. pose proof (bblock_range b c Hly Hc). unfold is_data in Hd. lia. }
  assert (Hbit : (Z.to_nat (m mod BPB) / 8 < length x)%nat).
  { rewrite Hlx. unfold BPB, BSIZE. pose proof (Z.mod_pos_bound m 4096). apply Nat.Div0.div_lt_upper_bound. lia. }
  split; try done.
  - unfold upd_view. by rewrite decide_True.
  - intros c Hc. unfold used. set (y := set_bit x _). set (z := replicate BSIZE 0).
    assert (Hv : upd_view (upd_view v (BBLOCK m b) y) m z (BBLOCK c b) =
                 if decide (BBLOCK c b = BBLOCK m b) then Some y else v (BBLOCK c b)).
    { unfold upd_view. by rewrite decide_False by by apply Hne. }
    rewrite Hv. destruct (decide (BBLOCK c b = BBLOCK m b)) as [E | E].
    + unfold y. rewrite bit_set by done. rewrite E, Hx. f_equal. apply bool_decide_ext. unfold BBLOCK, BPB in *.
      pose proof (Z.div_mod c 4096). pose proof (Z.div_mod m 4096).
      pose proof (Z.mod_pos_bound c 4096). pose proof (Z.mod_pos_bound m 4096). split; [| by intros ->].
      intros E2. apply Z2Nat.inj in E2; lia.
    + rewrite bool_decide_false; [done |]. by intros ->.
  - intros c Hc Hcm. unfold upd_view. rewrite decide_False by done. rewrite decide_False; [done |]. intros ->. lia.
Qed.

Definition same_meta (s s' : fsst S) : Prop := sb s' = sb s /\ icache s' = icache s.

Lemma bzero_ok s v h r m : at_ s v h (Datatypes.S r) -> 0 <= m < nblk -> loggable m -> m ∉ h.*2 ->
  (length h <= r)%nat ->
  exists s', bzero ROOTDEV m s = Ret tt s' /\ same_meta s s' /\ at_ s' (upd_view v m (replicate BSIZE 0)) h r.
Proof.
  intros Ha Hm Hg Hn Hl.
  destruct (law_bread (dv s) v h [] _ m Ha Hm Hn) as (i & d1 & x & E1 & Hx & Hlx & R1); [lia |].
  destruct (write_held d1 v h r i m (replicate BSIZE 0) R1 Hg (length_replicate _ _)) as (d2 & d3 & d4 & E3 & E4 & E5 & R4).
  exists (mk_fs d4 (sb s) (icache s)). split_and!; try done.
  unfold bzero. erewrite bind_ret by (apply dev_ret; exact E1). erewrite bind_ret by (apply dev_ret; exact E3).
  erewrite bind_ret by (apply dev_ret; exact E4). by erewrite dev_ret by exact E5.
Qed.

(** The bits of the bitmap block that starts with the bit of block [b]. *)
Lemma same_bitmap b c sb : b mod BPB = 0 -> b <= c < b + BPB ->
  Z.to_nat (c mod BPB) = Z.to_nat (c - b) /\ BBLOCK c sb = BBLOCK b sb.
Proof.
  intros Hb Hc. unfold BBLOCK, BPB in *. pose proof (Z.div_mod b 4096 ltac:(lia)).
  replace c with ((c - b) + (b / 4096) * 4096) by lia. rewrite Z.mod_add, Z.div_add by lia.
  rewrite Z.mod_small, (Z.div_small (c - b)) by lia. split; [lia | done].
Qed.

Lemma balloc_loop_ok fuel s v h r b c : at_ s v h (2 + r) -> layout (sb s) -> meta_used (sb s) v ->
  (length h <= r)%nat -> (forall m, m ∈ h.*2 -> is_data (sb s) m /\ used (sb s) v m = true) ->
  0 <= b -> b mod BPB = 0 -> b <= c < sb_size (sb s) -> used (sb s) v c = false ->
  (c - b) / BPB < Z.of_nat fuel ->
  exists m s' v', balloc_loop fuel ROOTDEV b s = Ret m s' /\ same_meta s s' /\ allocated (sb s) v v' m /\ at_ s' v' h r.
Proof.
  intros Ha Hly Hmeta Hl Hh Hb0 Hbm Hc Hcf Hfuel. revert s b Ha Hly Hmeta Hh Hb0 Hbm Hc Hcf Hfuel.
  induction fuel as [| fuel IH]; intros s b Ha Hly Hmeta Hh Hb0 Hbm Hc Hcf Hfuel.
  { unfold BPB in *. pose proof (Z.div_pos (c - b) 4096). lia. }
  cbn [balloc_loop]. erewrite bind_ret by done. destruct (Z.ltb_spec b (sb_size (sb s))); [| lia].
  pose proof (bblock_range (sb s) b Hly ltac:(lia)) as Hbb.
  pose proof Hly as [Hs1 Hs2 Hs3 Hs4 Hs5 Hs6 Hs7]. unfold datastart in Hbb.
  assert (Hpos : 0 <= sb_ninodes (sb s) / IPB) by (apply Z.div_pos; unfold IPB; lia).
  assert (Hbh : BBLOCK b (sb s) ∉ h.*2).
  { intros Hin. destruct (Hh _ Hin) as [[? ?] _]. unfold datastart in *. lia. }
  destruct (law_bread (dv s) v h [] _ (BBLOCK b (sb s)) Ha) as (i & d1 & x & E1 & Hx & Hlx & R1); [lia | done | cbn; lia |].
  destruct (law_data d1 v ((i, BBLOCK b (sb s)) :: h) [] _ i (BBLOCK b (sb s)) R1) as (x' & E2 & Hx' & _); [by left |].
  assert (x' = x) as -> by congruence.
  erewrite bind_ret by (apply dev_ret; exact E1). erewrite bind_ret by (apply dev_ret; exact E2).
  destruct (find (fun bi => negb (bit_at x bi)) (seq 0 (Z.to_nat (Z.min BPB (sb_size (sb s) - b))))) as [bi |] eqn:Ef.
  - apply find_some in Ef as [Hin Hbit]. apply in_seq in Hin. apply negb_true_iff in Hbit.
    set (m := b + Z.of_nat bi).
    destruct (same_bitmap b m (sb s)) as [Hbi1 Hbi2]; [done | unfold m, BPB in *; lia |].
    replace (Z.to_nat (m - b)) with bi in Hbi1 by (unfold m; lia).
    assert (Hmf : used (sb s) v m = false) by (unfold used; by rewrite Hbi2, Hx, Hbi1).
    assert (Hmr : 0 <= m < sb_size (sb s)) by (unfold m, BPB in *; lia).
    pose proof (allocated_intro (sb s) v m x Hly Hmeta Hmr Hmf ltac:(by rewrite Hbi2) Hlx) as Hal.
    rewrite Hbi1, Hbi2 in Hal. pose proof (al_data _ _ _ _ Hal) as Hmd.
    destruct (write_held d1 v h _ i (BBLOCK b (sb s)) (set_bit x bi) R1) as (d2 & d3 & d4 & E3 & E4 & E5 & R4);
      [apply Hs7; lia | by unfold set_bit; rewrite length_insert |].
    destruct (bzero_ok (mk_fs d4 (sb s) (icache s)) _ h r m R4) as (s5 & E6 & Hsm & R5);
      [lia | apply Hs7; unfold is_data, datastart in *; lia | intros Hin2; destruct (Hh _ Hin2) as [_ Hu]; congruence | done |].
    exists m, s5, (upd_view (upd_view v (BBLOCK b (sb s)) (set_bit x bi)) m (replicate BSIZE 0)).
    split_and!; try done.
    erewrite bind_ret by (apply dev_ret; exact E3). erewrite bind_ret by (apply dev_ret; exact E4).
    erewrite bind_ret by (apply dev_ret; exact E5). fold m. by erewrite bind_ret by exact E6.
  - destruct (law_brelse d1 v h [] _ i (BBLOCK b (sb s)) R1) as (d2 & E3 & R2); [apply not_elem_of_nil |].
    assert (Hcb : b + BPB <= c).
    { destruct (decide (b + BPB <= c)); [done |]. exfalso.
      destruct (same_bitmap b c (sb s)) as [Hcm Hcd]; [done | unfold BPB in *; lia |].
      pose proof (find_none _ _ Ef (Z.to_nat (c - b))) as Hno. cbn beta in Hno. rewrite in_seq in Hno.
      specialize (Hno ltac:(unfold BPB in *; lia)). apply negb_false_iff in Hno.
      unfold used in Hcf. rewrite Hcd, Hcm, Hx in Hcf. congruence. }
    erewrite bind_ret by (apply dev_ret; exact E3).
    destruct (IH (mk_fs d2 (sb s) (icache s)) (b + BPB)) as (m & s' & v' & E & Hsm & Hal & Ha'); try done.
    + unfold BPB. lia.
    + rewrite <- Zplus_mod_idemp_l, Hbm. done.
    + cbn. lia.
    + unfold BPB in *. replace (c - (b + 4096)) with (c - b + (-1) * 4096) by lia. rewrite Z.div_add by lia. lia.
    + exists m, s', v'. by split_and!.
Qed.

(** [balloc] returns a free data block, zeroed and marked. *)
Lemma balloc_ok s v h r c : at_ s v h (2 + r) -> layout (sb s) -> meta_used (sb s) v ->
  (length h <= r)%nat -> (forall m, m ∈ h.*2 -> is_data (sb s) m /\ used (sb s) v m = true) ->
  0 <= c < sb_size (sb s) -> used (sb s) v c = false ->
  exists m s' v', balloc ROOTDEV s = Ret m s' /\ same_meta s s' /\ allocated (sb s) v v' m /\ at_ s' v' h r.
Proof.
  intros Ha Hly Hmeta Hl Hh Hc Hcf. unfold balloc. erewrite bind_ret by done.
  apply (balloc_loop_ok _ s v h r 0 c); try done.
  rewrite Z.sub_0_r. unfold BPB. pose proof (Z.div_le_mono c (sb_size (sb s)) 4096). lia.
Qed.
End spec.
