(* ===== verification/LogDev.v ===== *)
(** * LogDev: the buffer cache and the log provide the block interface of fs.c *)

From Stdlib Require Import ZArith Lia.
From stdpp Require Import base numbers strings option list.
From S2P Require Import Prelude Bio Log KString Fs FsSpec.

(** bio.c and log.c as fs.c calls them. *)
#[export] Instance log_dev : BlockDev logst := {|
  d_bread dev b := Log.bcall (bread dev b);
  d_data i := Log.bcall (bdata i);
  d_store i x := Log.bcall (bstore i x);
  d_log_write i := log_write i;
  d_brelse i := Log.bcall (brelse i)
|}.

(** The held buffers whose block is not pinned by the log. *)
Definition unpinned (L : list Z) (h : list (nat * Z)) : nat := length (filter (fun p => p.2 ∉ L) h).

Arguments unpinned : simpl never.

Lemma unpinned_le L h : (unpinned L h <= length h)%nat.
Proof. apply length_filter. Qed.
Lemma unpinned_cons L i b h : unpinned L ((i, b) :: h) = ((if bool_decide (b ∈ L) then 0 else 1) + unpinned L h)%nat.
Proof.
  unfold unpinned. rewrite filter_cons. cbn [snd]. destruct (decide (b ∉ L)) as [Hn | Hn].
  - by rewrite bool_decide_false.
  - rewrite bool_decide_true; [done |]. by apply dec_stable.
Qed.
Lemma unpinned_perm L h h' : h ≡ₚ h' -> unpinned L h = unpinned L h'.
Proof. intros E. unfold unpinned. by rewrite E. Qed.
Lemma unpinned_off L b h : b ∉ h.*2 -> unpinned (add_block b L) h = unpinned L h.
Proof.
  induction h as [| [i c] h IH]; [done |]. rewrite fmap_cons. intros [Hc Hh]%not_elem_of_cons.
  rewrite !unpinned_cons, (IH Hh). f_equal.
  rewrite (bool_decide_ext (c ∈ add_block b L) (c ∈ L)); [done |]. rewrite elem_add_block. split; [by intros [-> | ?] | by right].
Qed.
(** Pinning the block of a held buffer. *)
Lemma unpinned_add L h i b : NoDup h.*2 -> (i, b) ∈ h ->
  (length (add_block b L) + unpinned (add_block b L) h = length L + unpinned L h)%nat.
Proof.
  intros Hnd Hin. apply elem_of_Permutation in Hin as [h' E].
  rewrite !(unpinned_perm _ _ _ E). rewrite !unpinned_cons.
  assert (Hn : b ∉ h'.*2).
  { assert (Hp : h.*2 ≡ₚ b :: h'.*2) by (by rewrite E). rewrite Hp in Hnd. by apply NoDup_cons in Hnd as [? _]. }
  rewrite unpinned_off by done. rewrite (bool_decide_true (b ∈ add_block b L)) by (apply elem_add_block; by left).
  unfold add_block. destruct (decide (b ∈ L)) as [Hb | Hb].
  - by rewrite bool_decide_true.
  - rewrite bool_decide_false by done. rewrite length_app. cbn. lia.
Qed.

Section inst.
Context (st sz len : Z) (Hgeo : 0 <= st /\ 0 < sz <= 30 /\ st + sz <= len /\ len < 2 ^ 31).
(** the disk and its history when the transaction began *)
Context (d0 : list blk) (w0 : list (Z * blk)).

(** A transaction in progress, with the abstract state the file system sees. *)
Record in_tx (s : logst) (L : list Z) (a : abs) : Prop := {
  tx_inv : bio_inv (lbio s);
  tx_dev : l_dev s = ROOTDEV;
  tx_start : l_start s = st;
  tx_size : l_size s = sz;
  tx_len : Z.of_nat (length (disk (lbio s))) = len;
  tx_slots : length (lh_block (lh s)) = LOGSIZE;
  tx_n : lh_n (lh s) = Z.of_nat (length L);
  tx_blocks : forall k b, L !! k = Some b -> lh_block (lh s) !! k = Some b;
  tx_home : Forall (home st sz len) L;
  tx_nodup : NoDup L;
  tx_room : Z.of_nat (length L + a_room a) < sz;
  tx_out : outstanding s = 1;
  tx_com : committing s = false;
  tx_disk : disk (lbio s) = d0;
  tx_writes : writes (lbio s) = w0;
  tx_hdr : exists H, disk_block d0 st = Some H /\ hdr_n H = 0;
  tx_dirty : forall m, dirty_at (lbio s) m = bool_decide (m ∈ L);
  tx_busy : busy (lbio s) = (length L + unpinned L (a_held a))%nat;
  tx_view : forall m, vblock (lbio s) m = a_view a m;
  tx_held : forall i b, (i, b) ∈ a_held a -> handle (lbio s) i b;
  tx_only : forall b, held_at (lbio s) b = true -> b ∈ (a_held a).*2;
  tx_hnodup : NoDup (a_held a).*2;
  tx_stale : forall b, b ∉ a_stale a ->
    dirty_at (lbio s) b = true \/ vblock (lbio s) b = disk_block (disk (lbio s)) b
}.
Definition rep_log (s : logst) (a : abs) : Prop := exists L, in_tx s L a.

Lemma log_bread s v h t r b : rep_log s (mk_abs v h t r) -> 0 <= b < len -> b ∉ h.*2 -> (length h <= r)%nat ->
  exists i s' x, Log.bcall (bread ROOTDEV b) s = Ret i s' /\ v b = Some x /\ length x = BSIZE /\
    rep_log s' (mk_abs v ((i, b) :: h) t r).
Proof.
  intros (L & [Hi Hdev Hst Hsz Hlen Hsl Hn Hbl Hhome Hnd Hroom Hout Hcom Hd0 Hw0 Hhd0 Hdirty Hbusy Hview Hheld Honly Hhnd Hstale]) Hb Hnin Hl.
  cbn in *. assert (Hnh : held_at (lbio s) b = false).
  { destruct (held_at (lbio s) b) eqn:E; [by apply Honly in E | done]. }
  destruct (bread_ok (lbio s) b Hi) as (i & d' & x & E & Hx & Hlx & F & Hh & HD & HW & HB);
    [lia | done | right; pose proof (unpinned_le L h); unfold NBUF; lia |].
  exists i, (with_lbio d' s), x. split_and!; [by apply Log.bcall_ret | by rewrite <- Hview | done |].
  exists L. split; cbn; try done; try congruence.
  - apply F.
  - intros m. rewrite (ef_dirty _ _ _ _ _ _ F). by case_decide; [subst |].
  - rewrite HB, unpinned_cons, Hdirty. destruct (bool_decide (b ∈ L)); lia.
  - intros m. rewrite (ef_view _ _ _ _ _ _ F). case_decide; [subst; congruence | apply Hview].
  - intros j c Hin. apply elem_of_cons in Hin as [[= -> ->] | Hin]; [done |].
    apply (ef_handle _ _ _ _ _ _ F); [| by apply Hheld]. intros ->. apply Hnin. by apply (list_elem_of_fmap_2 snd _ (j, b)).
  - intros c. rewrite (ef_held _ _ _ _ _ _ F). case_decide as Hc; [intros _; subst; by left | intros ?; right; by apply Honly].
  - by apply NoDup_cons.
  - intros c Hc. rewrite (ef_dirty _ _ _ _ _ _ F), (ef_view _ _ _ _ _ _ F), HD.
    case_decide as Hcb; [subst c | by apply Hstale]. rewrite <- Hx. by apply Hstale.
Qed.

Lemma log_data s v h t r i b : rep_log s (mk_abs v h t r) -> (i, b) ∈ h ->
  exists x, Log.bcall (bdata i) s = Ret x s /\ v b = Some x /\ length x = BSIZE.
Proof.
  intros (L & T) Hin. destruct (bdata_ok (lbio s) i b) as (x & E & Hx & Hl); [apply T | by apply (tx_held _ _ _ T) |].
  exists x. split_and!; [| by rewrite <- (tx_view _ _ _ T b : vblock (lbio s) b = v b) | done].
  rewrite (Log.bcall_ret _ s x (lbio s) E). by destruct s.
Qed.

Lemma log_store s v h t r i b y : rep_log s (mk_abs v h t r) -> (i, b) ∈ h -> length y = BSIZE ->
  exists s', Log.bcall (bstore i y) s = Ret tt s' /\ rep_log s' (mk_abs (upd_view v b y) h (b :: t) r).
Proof.
  intros (L & T) Hin Hy. pose proof T as [Hi Hdev Hst Hsz Hlen Hsl Hn Hbl Hhome Hnd Hroom Hout Hcom Hd0 Hw0 Hhd0 Hdirty Hbusy Hview Hheld Honly Hhnd Hstale].
  cbn in *. destruct (bstore_ok (lbio s) i b y Hi (Hheld i b Hin) Hy) as (d' & E & F & Hh & HD & HW & HB).
  exists (with_lbio d' s). split; [by apply Log.bcall_ret |]. exists L. split; cbn; try done; try congruence.
  - apply F.
  - intros m. rewrite (ef_dirty _ _ _ _ _ _ F). by case_decide; [subst |].
  - intros m. rewrite (ef_view _ _ _ _ _ _ F). unfold upd_view. by case_decide.
  - intros j c Hc. destruct (decide (c = b)) as [-> | Hne]; [| by apply (ef_handle _ _ _ _ _ _ F); auto].
    assert (j = i) as ->; [| done].
    apply list_elem_of_lookup in Hc as [k1 H1]. apply list_elem_of_lookup in Hin as [k2 H2].
    assert (k1 = k2) as ->; [| congruence].
    apply (NoDup_lookup _ k1 k2 b Hhnd); rewrite list_lookup_fmap; [by rewrite H1 | by rewrite H2].
  - intros c. rewrite (ef_held _ _ _ _ _ _ F). case_decide as Hc; [| apply Honly].
    intros _. subst. by apply (list_elem_of_fmap_2 snd _ (i, b)).
  - intros c [Hc1 Hc2]%not_elem_of_cons. rewrite (ef_dirty _ _ _ _ _ _ F), (ef_view _ _ _ _ _ _ F), HD.
    rewrite !decide_False by done. by apply Hstale.
Qed.

Lemma log_log_write s v h t r i b : rep_log s (mk_abs v h t (S r)) -> (i, b) ∈ h -> home st sz len b ->
  exists s', log_write i s = Ret tt s' /\ rep_log s' (mk_abs v h (filter (.≠ b) t) r).
Proof.
  intros (L & T) Hin Hb. pose proof T as [Hi Hdev Hst Hsz Hlen Hsl Hn Hbl Hhome Hnd Hroom Hout Hcom Hd0 Hw0 Hhd0 Hdirty Hbusy Hview Hheld Honly Hhnd Hstale].
  cbn in *. destruct (log_slot st sz len Hgeo s L b Hsl Hn Hbl Hhome Hb) as (Hn' & Hbl' & Hsl'); [lia |]. cbv zeta in *.
  set (bs' := <[_ := s32 b]> (lh_block (lh s))) in *.
  pose proof (Hheld i b Hin) as Hh. destruct (handle_view (lbio s) i b Hi Hh) as (c & Hc & Hnc & Hlk & Hvc & _).
  destruct (pin_ok (lbio s) i b c Hi Hh Hc) as (F & Hh' & HB). set (d' := with_bufs _ (lbio s)) in *.
  exists (with_lbio d' (with_lh (mk_lh (Z.of_nat (length (add_block b L))) bs') s)). split.
  { unfold log_write. erewrite bind_ret by done.
    destruct (Z.geb_spec (lh_n (lh s)) (Z.of_nat LOGSIZE)); [unfold LOGSIZE in *; lia |].
    destruct (Z.geb_spec (lh_n (lh s)) (l_size s - 1)); [lia |].
    rewrite Hout. cbn [orb Z.ltb Z.compare Pos.compare Pos.compare_cont].
    erewrite bind_ret by (apply Log.bcall_ret; by apply get_buf_ret).
    assert (Hno : b_blockno c = b) by by apply named_eq in Hnc as [_ ?]. rewrite Hno.
    erewrite bind_ret by done. change (lh (with_lbio (lbio s) s)) with (lh s). rewrite Hn'. fold bs'.
    by erewrite Log.bcall_ret by done. }
  clear Hn'. exists (add_block b L). split; cbn; try done.
  - apply F.
  - apply Forall_forall. intros m Hm%elem_add_block.
    destruct Hm as [-> | Hm]; [done | by apply (proj1 (Forall_forall _ _) Hhome)].
  - unfold add_block. case_decide; [done |]. apply NoDup_app. split_and!; [done | | apply NoDup_singleton].
    intros m Hm1 Hm2%list_elem_of_singleton. by subst m.
  - unfold add_block. case_decide; [lia |]. rewrite length_app. cbn. lia.
  - intros m. rewrite (ef_dirty _ _ _ _ _ _ F), Hdirty. symmetry. case_decide as Hm.
    + apply bool_decide_eq_true, elem_add_block. by left.
    + apply bool_decide_ext. rewrite elem_add_block. tauto.
  - transitivity (busy d'); [done |]. rewrite HB, Hbusy. symmetry. by eapply unpinned_add.
  - intros m. rewrite (ef_view _ _ _ _ _ _ F). case_decide; [subst; congruence | done].
  - intros j e He. destruct (decide (e = b)) as [-> | Hne]; [| by apply (ef_handle _ _ _ _ _ _ F); auto].
    assert (j = i) as ->; [| done].
    apply list_elem_of_lookup in He as [k1 H1]. apply list_elem_of_lookup in Hin as [k2 H2].
    assert (k1 = k2) as ->; [| congruence].
    apply (NoDup_lookup _ k1 k2 b Hhnd); rewrite list_lookup_fmap; [by rewrite H1 | by rewrite H2].
  - intros e. rewrite (ef_held _ _ _ _ _ _ F). case_decide as He; [| apply Honly].
    intros _. subst. by apply (list_elem_of_fmap_2 snd _ (i, b)).
  - intros e He. rewrite (ef_dirty _ _ _ _ _ _ F), (ef_view _ _ _ _ _ _ F).
    case_decide; [by left |]. apply Hstale. intros Hin'. apply He. by apply list_elem_of_filter.
Qed.

Lemma log_brelse s v h t r i b : rep_log s (mk_abs v ((i, b) :: h) t r) -> b ∉ t ->
  exists s', Log.bcall (brelse i) s = Ret tt s' /\ rep_log s' (mk_abs v h t r).
Proof.
  intros (L & T) Hnt. pose proof T as [Hi Hdev Hst Hsz Hlen Hsl Hn Hbl Hhome Hnd Hroom Hout Hcom Hd0 Hw0 Hhd0 Hdirty Hbusy Hview Hheld Honly Hhnd Hstale].
  cbn in *. apply NoDup_cons in Hhnd as [Hnin Hhnd].
  destruct (brelse_ok (lbio s) i b Hi) as (d' & x & E & Hx & F & HD & HW & HB); [apply Hheld; by left | by apply Hstale |].
  exists (with_lbio d' s). split; [by apply Log.bcall_ret |]. exists L. split; cbn; try done; try congruence.
  - apply F.
  - intros m. rewrite (ef_dirty _ _ _ _ _ _ F). by case_decide; [subst |].
  - rewrite unpinned_cons in Hbusy. rewrite Hdirty in HB. destruct (bool_decide (b ∈ L)); lia.
  - intros m. rewrite (ef_view _ _ _ _ _ _ F). case_decide; [subst; congruence | apply Hview].
  - intros j c Hc. apply (ef_handle _ _ _ _ _ _ F); [| apply Hheld; by right]. intros ->. apply Hnin. by apply (list_elem_of_fmap_2 snd _ (j, b)).
  - intros c. rewrite (ef_held _ _ _ _ _ _ F). case_decide as Hc; [done |]. intros Hc'.
    apply Honly in Hc'. apply elem_of_cons in Hc' as [-> | ?]; done.
  - intros c Hc. rewrite (ef_dirty _ _ _ _ _ _ F), (ef_view _ _ _ _ _ _ F), HD.
    case_decide as Hcb; [subst c | by apply Hstale]. rewrite <- Hx. by apply Hstale.
Qed.

(** The buffer cache with the log meets the interface of the file system. *)
#[export] Instance log_dev_ok : BlockDevOk logst.
Proof.
  refine {| nblk := len; loggable := home st sz len; rep := rep_log |}.
  - intros s v v' h t r Hv (L & []). exists L. split; try done. intros m. cbn in *. by rewrite <- Hv.
  - intros s v h t r b (L & [Hi ? ? ? Hl ? ? ? ? ? ? ? ? ? ? ? ? ? Hv ? ? ? ?]) Hb. cbn in Hv. rewrite <- Hv. apply vblock_some; [done | lia].
  - apply log_bread.
  - apply log_data.
  - apply log_store.
  - apply log_log_write.
  - apply log_brelse.
  - intros s v h h' t r Hp (L & []). exists L. split; cbn in *; try done.
    + by rewrite <- (unpinned_perm L h h').
    + intros i b Hin. rewrite <- Hp in Hin. auto.
    + intros b Hb. rewrite <- Hp. auto.
    + by rewrite <- Hp.
  - intros s v h t r r' Hr (L & []). exists L. split; cbn in *; try done. lia.
Defined.

(** [end_op] at the end of a transaction that holds nothing: the disk shows the
    view, and it gets there atomically. *)
Lemma end_tx s v r : rep_log s (mk_abs v [] [] r) ->
  exists s' W, end_op s = Ret tt s' /\ idle st sz len s' /\ writes (lbio s') = w0 ++ W /\
    disk (lbio s') = apply_writes d0 W /\ (forall m, home st sz len m -> disk_block (disk (lbio s')) m = v m) /\
    atomic st sz len d0 W d0 (disk (lbio s')).
Proof.
  intros (L & [Hi Hdev Hst Hsz Hlen Hsl Hn Hbl Hhome Hnd Hroom Hout Hcom Hd0 Hw0 Hhd0 Hdirty Hbusy Hview Hheld Honly Hhnd Hstale]).
  cbn in *. assert (Hnh : forall m, held_at (lbio s) m = false).
  { intros m. destruct (held_at (lbio s) m) eqn:E; [| done]. apply Honly in E. by apply elem_of_nil in E. }
  assert (Hp : pending st sz len s L).
  { constructor; try assumption.
    - by constructor.
    - lia.
    - rewrite Hbusy. unfold unpinned. cbn. lia.
    - by rewrite Hd0. }
  destruct (end_op_ok st sz len Hgeo s L Hp Hout Hcom) as (s' & W & E & Hid & HW & HD & Hat).
  exists s', W. rewrite Hd0, Hw0 in *.
  (* the image of the view: the new disk itself *)
  assert (Hsh : exists d', shows st sz len s d').
  { exists (map (fun k => default [] (vblock (lbio s) (Z.of_nat k))) (seq 0 (Z.to_nat len))). split.
    - rewrite length_map, length_seq. lia.
    - intros m [Hm _]. unfold disk_block. destruct (Z.ltb_spec m 0); [lia |].
      rewrite list_lookup_fmap, lookup_seq_lt by lia. cbn. rewrite Z2Nat.id by lia.
      destruct (vblock_some (lbio s) m Hi) as (x & Hx & _); [rewrite Hd0; lia |]. by rewrite Hx. }
  destruct Hsh as [d' Hsh]. destruct (Hat d' Hsh) as [Hsame _].
  assert (Hv : forall m, home st sz len m -> disk_block (disk (lbio s')) m = v m).
  { intros m Hm. rewrite (Hsame m Hm), <- (proj2 Hsh m Hm). apply Hview. }
  split_and!; try done. apply Hat. split; [apply Hid |]. intros m Hm. rewrite Hv by done. apply Hview.
Qed.
End inst.

(** A transaction starts from a log at rest. *)
Lemma begin_tx st sz len s : (0 <= st /\ 0 < sz <= 30 /\ st + sz <= len /\ len < 2 ^ 31) -> idle st sz len s ->
  begin_op s = Ret tt (with_outstanding 1 s) /\
  rep_log st sz len (disk (lbio s)) (writes (lbio s)) (with_outstanding 1 s)
    (mk_abs (vblock (lbio s)) [] [] (Z.to_nat (sz - 1))).
Proof.
  intros Hgeo Hid. pose proof (idle_pending st sz len Hgeo s Hid) as [[] ? ? ? ? ? ? ? ?]. pose proof Hid as [? ? Hn Ho Hc ?].
  split; [unfold begin_op; erewrite bind_ret by done; by rewrite Hc, Hn, Ho |].
  exists []. split; cbn in *; try done.
  - lia.
  - by intros i b ?%elem_of_nil.
  - intros b Hb. by rewrite lo_held in Hb.
  - intros b _. right. apply clean_view; [done | | done]. by rewrite pd_dirty.
Qed.
