(* ===== verification/FsFile.v ===== *)
(** * FsFile: the content of a file: [bmap], [readi], [writei]

    The block map of an inode is read off the abstract view; [writei] is shown
    to overwrite exactly the bytes it is given and to leave alone every block
    that is in use by others. *)

From Stdlib Require Import ZArith Lia.
From stdpp Require Import base numbers strings option list.
From S2P Require Import Prelude KString Bio Fs FsSpec.

(** [uint] entries of a block. *)
Lemma uint_at_splice (x : blk) j k a : length x = BSIZE -> (k < NINDIRECT)%nat -> (j < NINDIRECT)%nat -> is_u32 a ->
  uint_at (4 * j) (splice (4 * k) (le_bytes 4 a) x) = if decide (j = k) then a else uint_at (4 * j) x.
Proof.
  intros Hx Hk Hj Ha. unfold NINDIRECT, BSIZE in *.
  assert (Hl : (4 * k + length (le_bytes 4 a) <= length x)%nat) by (rewrite length_le_bytes; lia).
  unfold uint_at. destruct (decide (j = k)) as [-> | Hne].
  - pose proof (slice_splice (4 * k) (le_bytes 4 a) x Hl) as Hs. rewrite length_le_bytes in Hs.
    rewrite Hs. by apply uint32_roundtrip.
  - destruct (decide (j < k)%nat).
    + by rewrite slice_splice_before by lia.
    + by rewrite slice_splice_after by (rewrite ?length_le_bytes in *; lia).
Qed.

Lemma uint_at_zero j : uint_at j (replicate BSIZE 0) = 0.
Proof.
  unfold uint_at, uint32_val, slice. rewrite drop_replicate, take_replicate.
  generalize (4 `min` (BSIZE - j))%nat. intros n. induction n as [| n IH]; [done |]. cbn. by rewrite IH.
Qed.

Section file.
Context {S : Type} {B : BlockDev S} {D : BlockDevOk S} {V : Devices S}.

(** The disk block of block [bn] of the file; 0 when there is none. *)
Definition faddr (v : Z -> option blk) (p : inode) (bn : nat) : Z :=
  if (bn <? NDIRECT)%nat then addr_of p bn
  else if addr_of p NDIRECT =? 0 then 0
  else match v (addr_of p NDIRECT) with Some x => uint_at (4 * (bn - NDIRECT)) x | None => 0 end.
Definition NMAX : nat := 140.

Record wf_file (b : superblock) (v : Z -> option blk) (p : inode) : Prop := {
  wf_dev : i_dev p = ROOTDEV;
  wf_len : length (di_addrs (i_din p)) = (NDIRECT + 1)%nat;
  wf_data : forall bn, (bn < NMAX)%nat -> faddr v p bn <> 0 ->
              is_data b (faddr v p bn) /\ used b v (faddr v p bn) = true;
  wf_ind : addr_of p NDIRECT <> 0 -> is_data b (addr_of p NDIRECT) /\ used b v (addr_of p NDIRECT) = true;
  wf_inj : forall i j, (i < NMAX)%nat -> (j < NMAX)%nat -> faddr v p i <> 0 -> faddr v p i = faddr v p j -> i = j;
  wf_ne : forall i, (i < NMAX)%nat -> faddr v p i <> 0 -> faddr v p i <> addr_of p NDIRECT
}.

(** At least [n] blocks are free. *)
Definition avail (b : superblock) (v : Z -> option blk) (n : nat) : Prop :=
  exists l, NoDup l /\ length l = n /\ Forall (fun c => 0 <= c < sb_size b /\ used b v c = false) l.

Lemma avail_one b v n : avail b v (Datatypes.S n) -> exists c, 0 <= c < sb_size b /\ used b v c = false.
Proof. intros (l & _ & Hl & Hf). destruct l as [| c l]; [done |]. exists c. by apply Forall_cons in Hf as [? _]. Qed.

Lemma avail_le b v n m : (m <= n)%nat -> avail b v n -> avail b v m.
Proof.
  intros Hm (l & Hnd & Hl & Hf). exists (take m l). split_and!.
  - rewrite <- (take_drop m l) in Hnd. by apply NoDup_app in Hnd as [? _].
  - rewrite length_take. lia.
  - by apply Forall_take.
Qed.

(** Allocating one block leaves at least one fewer. *)
Lemma avail_alloc b v v' m n : allocated b v v' m -> avail b v (Datatypes.S n) -> avail b v' n.
Proof.
  intros Hal (l & Hnd & Hl & Hf).
  assert (Hkeep : forall k, NoDup k -> (forall c, c ∈ k -> c ∈ l /\ c <> m) -> Forall (fun c => 0 <= c < sb_size b /\ used b v' c = false) k).
  { intros k _ Hk. apply Forall_forall. intros c Hc. destruct (Hk c Hc) as [Hcl Hcm].
    pose proof (proj1 (Forall_forall _ _) Hf c Hcl) as [Hr Hu]. split; [done |].
    rewrite (al_used _ _ _ _ Hal) by done. rewrite bool_decide_false by done. done. }
  destruct (decide (m ∈ l)) as [Hin | Hnin].
  - apply elem_of_Permutation in Hin as [k Hk]. exists k.
    assert (Hndk : NoDup (m :: k)) by by rewrite <- Hk. apply NoDup_cons in Hndk as [Hmk Hndk].
    split_and!; [done | rewrite Hk in Hl; cbn in Hl; lia |]. apply Hkeep; [done |]. intros c Hc. split.
    + rewrite Hk. by right.
    + by intros ->.
  - apply (avail_le b v' (Datatypes.S n)); [lia |]. exists l. split_and!; [done.. |].
    apply Hkeep; [done |]. intros c Hc. split; [done | by intros ->].
Qed.

Lemma allocated_meta b v v' m : layout b -> meta_used b v -> allocated b v v' m -> meta_used b v'.
Proof.
  intros Hly Hm Hal c Hc. pose proof (ly_data b Hly). rewrite (al_used _ _ _ _ Hal) by (unfold datastart in *; lia).
  rewrite Hm by done. apply orb_true_r.
Qed.
Lemma allocated_frame b v v' m c : allocated b v v' m -> is_data b c -> used b v c = true -> v' c = v c.
Proof.
  intros Hal Hc Hu. apply (al_view _ _ _ _ Hal); [unfold is_data in Hc; lia |]. intros ->.
  rewrite (al_free _ _ _ _ Hal) in Hu. done.
Qed.
Lemma is_data_pos b c : layout b -> is_data b c -> 0 < c < sb_size b /\ 0 <= c < nblk.
Proof.
  intros [] [H1 H2]. unfold datastart in *. assert (0 <= sb_ninodes b / IPB) by (apply Z.div_pos; unfold IPB; lia).
  assert (0 <= sb_size b / BPB) by (apply Z.div_pos; unfold BPB; lia). lia.
Qed.

Lemma data_loggable b c : layout b -> is_data b c -> loggable c.
Proof.
  intros Hly Hd. apply (ly_log _ Hly). unfold is_data, datastart in Hd. destruct Hly.
  assert (0 <= sb_ninodes b / IPB) by (apply Z.div_pos; unfold IPB; lia).
  assert (0 <= sb_size b / BPB) by (apply Z.div_pos; unfold BPB; lia). lia.
Qed.

(** What is written to a data block does not change the free map. *)
Lemma avail_upd_data b v c y n : layout b -> is_data b c -> avail b v n -> avail b (upd_view v c y) n.
Proof.
  intros Hly Hd (l & L1 & L2 & L3). exists l. split_and!; [done.. |]. eapply Forall_impl; [exact L3 |].
  intros e [He Hu]. split; [done |]. unfold used, upd_view. rewrite decide_False; [done |].
  intros E. pose proof (bblock_range b e Hly He). unfold is_data in Hd. lia.
Qed.
Lemma allocated_used b v v' m c : layout b -> allocated b v v' m -> is_data b c -> used b v c = true -> used b v' c = true.
Proof.
  intros Hly Hal Hc Hu. destruct (is_data_pos b c Hly Hc) as [? ?].
  rewrite (al_used _ _ _ _ Hal) by lia. rewrite Hu. apply orb_true_r.
Qed.

(** A file to which one fresh block [a] was added, at [bn]. *)
Lemma wf_add b v v' p p' bn a : layout b -> wf_file b v p -> (bn < NMAX)%nat ->
  i_dev p' = i_dev p -> length (di_addrs (i_din p')) = length (di_addrs (i_din p)) ->
  addr_of p' NDIRECT = addr_of p NDIRECT ->
  (forall i, (i < NMAX)%nat -> faddr v' p' i = if decide (i = bn) then a else faddr v p i) ->
  is_data b a -> used b v a = false -> used b v' a = true ->
  (forall c, is_data b c -> used b v c = true -> used b v' c = true) -> wf_file b v' p'.
Proof.
  intros Hly [W1 W2 W3 W4 W5 W6] Hbn Hd Hl Hi Hf Ha Hfree Hau Hmono. split.
  - congruence.
  - congruence.
  - intros i Hlt. rewrite Hf by done. case_decide; [done |]. intros Hn. destruct (W3 i Hlt Hn). auto.
  - rewrite Hi. intros Hn. destruct (W4 Hn). auto.
  - intros i j Hlt1 Hlt2. rewrite !Hf by done. repeat case_decide; subst; try done.
    + intros Hn E. exfalso. rewrite E in *. destruct (W3 j Hlt2 Hn). congruence.
    + intros Hn E. exfalso. rewrite <- E in *. destruct (W3 i Hlt1 Hn). congruence.
    + auto.
  - intros i Hlt. rewrite Hf, Hi by done. case_decide; [| auto]. intros _ E. rewrite E in *.
    destruct (decide (addr_of p NDIRECT = 0)) as [E0 | E0]; [| destruct (W4 E0); congruence].
    destruct (is_data_pos b _ Hly Ha) as [? _]. lia.
Qed.

(** What a call of [bmap] for block [bn] does. *)
Record mapped (b : superblock) (v v' : Z -> option blk) (p p' : inode) (bn : nat) (a : Z) : Prop := {
  mp_wf : wf_file b v' p';
  mp_at : faddr v' p' bn = a;
  mp_nz : a <> 0;
  mp_old : forall i, (i < NMAX)%nat -> i <> bn -> faddr v' p' i = faddr v p i;
  mp_keep : faddr v p bn <> 0 -> faddr v p bn = a;
  mp_zero : faddr v p bn = 0 -> v' a = Some (replicate BSIZE 0) /\ used b v a = false;
  mp_frame : forall c, is_data b c -> used b v c = true -> c <> addr_of p NDIRECT -> v' c = v c;
  mp_used : forall c, is_data b c -> used b v c = true -> used b v' c = true;
  mp_meta : meta_used b v';
  mp_low : forall c, c < sb_bmapstart b -> v' c = v c;
  mp_ino : exists l, p' = set_din (set_addrs l (i_din p)) p;
  mp_ind : addr_of p' NDIRECT = addr_of p NDIRECT \/
           (addr_of p NDIRECT = 0 /\ addr_of p' NDIRECT <> 0 /\ used b v (addr_of p' NDIRECT) = false);
  mp_id : faddr v p bn <> 0 -> p' = p
}.

Definition put_at (s : fsst S) (ip : nat) (p' : inode) (s' : fsst S) : Prop :=
  sb s' = sb s /\ icache s' = <[ip := p']> (icache s).

Lemma get_ino_ret (s : fsst S) ip p : icache s !! ip = Some p -> get_ino ip s = Ret p s.
Proof. intros H. unfold get_ino. erewrite bind_ret by done. by rewrite H. Qed.

Definition with_addr (k : nat) (a : Z) (p : inode) : inode :=
  set_din (set_addrs (<[k := a]> (di_addrs (i_din p))) (i_din p)) p.

Lemma addr_of_with k a p j : length (di_addrs (i_din p)) = (NDIRECT + 1)%nat -> (k <= NDIRECT)%nat ->
  addr_of (with_addr k a p) j = if decide (j = k) then a else addr_of p j.
Proof.
  intros Hl Hk. unfold addr_of, with_addr. cbn. rewrite !nth_lookup. destruct (decide (j = k)) as [-> |].
  - rewrite list_lookup_insert_eq by (unfold NDIRECT in *; lia). done.
  - by rewrite list_lookup_insert_ne.
Qed.

(** [ip->addrs[k]], allocated if need be. *)
Lemma addr_alloc_ok s v r ip p k : at_ s v [] (2 + r) -> icache s !! ip = Some p -> i_dev p = ROOTDEV ->
  layout (sb s) -> meta_used (sb s) v -> avail (sb s) v 1 ->
  exists a s' v', addr_alloc ip k s = Ret a s' /\ at_ s' v' [] r /\
    ((addr_of p k <> 0 /\ a = addr_of p k /\ v' = v /\ sb s' = sb s /\ icache s' = icache s) \/
     (addr_of p k = 0 /\ allocated (sb s) v v' a /\ put_at s ip (with_addr k a p) s')).
Proof.
  intros Ha Hp Hd Hly Hm Hav. unfold addr_alloc. erewrite bind_ret by by apply get_ino_ret.
  destruct (Z.eqb_spec (addr_of p k) 0) as [E | E].
  - destruct (avail_one _ _ _ Hav) as (c & Hc & Hcu). rewrite Hd.
    destruct (balloc_ok s v [] r c Ha Hly Hm) as (m & s1 & v1 & E1 & [Hsb Hic] & Hal & Ha1);
      [cbn; lia | by intros ? ?%elem_of_nil | done | done |].
    erewrite bind_ret by exact E1. unfold set_addr.
    exists m, (mk_fs (dv s1) (sb s1) (<[ip := with_addr k m p]> (icache s1))), v1. split_and!.
    + erewrite bind_ret; [done |]. erewrite bind_ret by (apply get_ino_ret; by rewrite Hic). done.
    + exact Ha1.
    + right. split; [done |]. split; [done |]. split; cbn; [done | by rewrite Hic].
  - exists (addr_of p k), s, v. split_and!; [done | | left; by split_and!].
    unfold at_ in *. eapply law_room; [| exact Ha]. lia.
Qed.

(** Adding a direct block. *)
Lemma mapped_direct b v v' p bn a : layout b -> meta_used b v -> wf_file b v p -> (bn < NDIRECT)%nat ->
  addr_of p bn = 0 -> allocated b v v' a -> mapped b v v' p (with_addr bn a p) bn a.
Proof.
  intros Hly Hm Hwf Hbn E Hal.
  assert (Hao : forall j, addr_of (with_addr bn a p) j = if decide (j = bn) then a else addr_of p j).
  { intros j. apply addr_of_with; [apply Hwf | lia]. }
  assert (Hind : addr_of (with_addr bn a p) NDIRECT = addr_of p NDIRECT).
  { rewrite Hao, decide_False; [done | lia]. }
  pose proof (al_data _ _ _ _ Hal) as Had. destruct (is_data_pos b a Hly Had) as [Hap _].
  assert (Hf : forall i, (i < NMAX)%nat -> faddr v' (with_addr bn a p) i = if decide (i = bn) then a else faddr v p i).
  { intros i Hi. unfold faddr. destruct (Nat.ltb_spec i NDIRECT); [apply Hao |].
    rewrite Hind. rewrite decide_False by lia. destruct (Z.eqb_spec (addr_of p NDIRECT) 0) as [| E0]; [done |].
    destruct (wf_ind _ _ _ Hwf E0). by rewrite (allocated_frame _ _ _ _ _ Hal). }
  assert (Hmono : forall c, is_data b c -> used b v c = true -> used b v' c = true)
    by (intros; by eapply allocated_used).
  assert (Hua : used b v' a = true).
  { rewrite (al_used _ _ _ _ Hal) by lia. by rewrite bool_decide_true. }
  assert (Hb140 : (bn < NMAX)%nat) by (unfold NMAX, NDIRECT in *; lia).
  assert (H0 : faddr v p bn = 0) by (unfold faddr; by destruct (Nat.ltb_spec bn NDIRECT); [| lia]).
  split; try done.
  - apply (wf_add b v v' p (with_addr bn a p) bn a); try done; [by cbn; rewrite length_insert | apply Hal].
  - rewrite Hf by done. by rewrite decide_True.
  - lia.
  - intros i Hi Hne. rewrite Hf by done. by rewrite decide_False.
  - intros _. split; apply Hal.
  - intros c Hc Hu _. by eapply allocated_frame.
  - by eapply allocated_meta.
  - intros c Hc. apply (al_view _ _ _ _ Hal); [lia |]. intros ->. unfold is_data, datastart in Had.
    assert (0 <= sb_size b / BPB) by (apply Z.div_pos; [destruct Hly; lia | unfold BPB; lia]). lia.
  - by eexists.
  - by left.
Qed.

(** Adding the (zeroed) indirect block changes no block address. *)
Lemma mapped_indirect_block b v v' p a : layout b -> meta_used b v -> wf_file b v p ->
  addr_of p NDIRECT = 0 -> allocated b v v' a ->
  let p' := with_addr NDIRECT a p in
  wf_file b v' p' /\ (forall i, (i < NMAX)%nat -> faddr v' p' i = faddr v p i) /\ addr_of p' NDIRECT = a /\ a <> 0 /\
  meta_used b v' /\ (forall c, c < sb_bmapstart b -> v' c = v c).
Proof.
  intros Hly Hm Hwf E Hal p'.
  assert (Hao : forall j, addr_of p' j = if decide (j = NDIRECT) then a else addr_of p j).
  { intros j. apply addr_of_with; [apply Hwf | lia]. }
  assert (Hind : addr_of p' NDIRECT = a) by (rewrite Hao; by rewrite decide_True).
  pose proof (al_data _ _ _ _ Hal) as Had. destruct (is_data_pos b a Hly Had) as [Hap _].
  assert (Hf : forall i, (i < NMAX)%nat -> faddr v' p' i = faddr v p i).
  { intros i Hi. unfold faddr. destruct (Nat.ltb_spec i NDIRECT).
    - rewrite Hao, decide_False; [done | lia].
    - rewrite Hind, E. cbn. destruct (Z.eqb_spec a 0); [lia |]. rewrite (al_zero _ _ _ _ Hal). apply uint_at_zero. }
  assert (Hua : used b v' a = true).
  { rewrite (al_used _ _ _ _ Hal) by lia. by rewrite bool_decide_true. }
  destruct Hwf as [W1 W2 W3 W4 W5 W6]. split_and!; try done.
  - split; try done.
    + cbn. by rewrite length_insert.
    + intros i Hi. rewrite Hf by done. intros Hn. destruct (W3 i Hi Hn). split; [done | by eapply allocated_used].
    + by rewrite Hind.
    + intros i j Hi Hj. rewrite !Hf by done. auto.
    + intros i Hi. rewrite Hf, Hind by done. intros Hn Ha. destruct (W3 i Hi Hn) as [_ Hu]. rewrite Ha in Hu.
      rewrite (al_free _ _ _ _ Hal) in Hu. done.
  - lia.
  - by eapply allocated_meta.
  - intros c Hc. apply (al_view _ _ _ _ Hal); [lia |]. intros ->. unfold is_data, datastart in Had.
    assert (0 <= sb_size b / BPB) by (apply Z.div_pos; [destruct Hly; lia | unfold BPB; lia]). lia.
Qed.

(** Adding an entry to the indirect block. *)
Lemma mapped_indirect_entry b v v' p bn a x : layout b -> meta_used b v -> wf_file b v p ->
  (NDIRECT <= bn < NMAX)%nat -> addr_of p NDIRECT <> 0 -> v (addr_of p NDIRECT) = Some x -> length x = BSIZE ->
  uint_at (4 * (bn - NDIRECT)) x = 0 -> allocated b v v' a ->
  mapped b v (upd_view v' (addr_of p NDIRECT) (splice (4 * (bn - NDIRECT)) (le_bytes 4 a) x)) p p bn a.
Proof.
  intros Hly Hm Hwf Hbn Hi0 Hx Hlx He Hal. set (ind := addr_of p NDIRECT) in *.
  set (v2 := upd_view v' ind _). destruct (wf_ind _ _ _ Hwf Hi0) as [Hid Hiu]. fold ind in Hid, Hiu.
  pose proof (al_data _ _ _ _ Hal) as Had. destruct (is_data_pos b a Hly Had) as [Hap Han].
  destruct (is_data_pos b ind Hly Hid) as [Hip _].
  assert (Hai : a <> ind) by (intros ->; rewrite (al_free _ _ _ _ Hal) in Hiu; done).
  assert (Hu32 : is_u32 a) by (unfold is_u32; pose proof (ly_big b Hly); pose proof (ly_size b Hly); lia).
  assert (Hf : forall i, (i < NMAX)%nat -> faddr v2 p i = if decide (i = bn) then a else faddr v p i).
  { intros i Hi. unfold faddr. fold ind. destruct (Nat.ltb_spec i NDIRECT); [rewrite decide_False by lia; done |].
    destruct (Z.eqb_spec ind 0); [done |]. unfold v2, upd_view. rewrite decide_True, Hx by done.
    unfold NMAX, NDIRECT in *. rewrite uint_at_splice by (unfold NINDIRECT; (lia || done)).
    repeat case_decide; (done || lia). }
  assert (Hu2 : forall c, 0 <= c < sb_size b -> used b v2 c = used b v' c).
  { intros c Hc. unfold used, v2, upd_view. rewrite decide_False; [done |]. intros E.
    pose proof (bblock_range b c Hly Hc). unfold is_data in Hid. lia. }
  assert (Hmono : forall c, is_data b c -> used b v c = true -> used b v2 c = true).
  { intros c Hc Hu. destruct (is_data_pos b c Hly Hc). rewrite Hu2 by lia. by eapply allocated_used. }
  assert (Hua : used b v2 a = true).
  { rewrite Hu2 by lia. rewrite (al_used _ _ _ _ Hal) by lia. by rewrite bool_decide_true. }
  assert (H0 : faddr v p bn = 0).
  { unfold faddr. fold ind. destruct (Nat.ltb_spec bn NDIRECT); [lia |]. destruct (Z.eqb_spec ind 0); [done |].
    by rewrite Hx. }
  split; try done.
  - apply (wf_add b v v2 p p bn a); try done; [lia | apply Hal].
  - rewrite Hf by lia. by rewrite decide_True.
  - lia.
  - intros i Hi Hne. rewrite Hf by done. by rewrite decide_False.
  - intros _. split; [| apply Hal]. unfold v2, upd_view. rewrite decide_False by done. apply Hal.
  - intros c Hc Hu Hci. unfold v2, upd_view. rewrite decide_False by done. by eapply allocated_frame.
  - intros c Hc. pose proof (ly_data b Hly). rewrite Hu2 by (unfold datastart in *; lia). by eapply allocated_meta.
  - intros c Hc. assert (0 <= sb_size b / BPB) by (apply Z.div_pos; [destruct Hly; lia | unfold BPB; lia]).
    unfold is_data, datastart in *. unfold v2, upd_view. rewrite decide_False by lia.
    apply (al_view _ _ _ _ Hal); unfold datastart; lia.
  - exists (di_addrs (i_din p)). by destruct p as [? ? ? ? ? []].
  - by left.
Qed.

(** Nothing to allocate. *)
Lemma mapped_same b v p bn : meta_used b v -> wf_file b v p -> (bn < NMAX)%nat -> faddr v p bn <> 0 ->
  mapped b v v p p bn (faddr v p bn).
Proof.
  intros Hm Hwf Hbn Hn. split; try done; [| by left]. exists (di_addrs (i_din p)). by destruct p as [? ? ? ? ? []].
Qed.

(** Allocating the indirect block first. *)
Lemma mapped_after b v v1 v2 p p1 p2 bn a : 
  (forall i, (i < NMAX)%nat -> faddr v1 p1 i = faddr v p i) -> (NDIRECT <= bn < NMAX)%nat ->
  (forall c, is_data b c -> used b v c = true -> used b v1 c = true) ->
  (forall c, is_data b c -> used b v c = true -> v1 c = v c) ->
  (forall c, is_data b c -> used b v1 c = false -> used b v c = false) ->
  (forall c, c < sb_bmapstart b -> v1 c = v c) -> (exists l, p1 = set_din (set_addrs l (i_din p)) p) ->
  addr_of p NDIRECT = 0 -> used b v (addr_of p1 NDIRECT) = false -> addr_of p1 NDIRECT <> 0 ->
  mapped b v1 v2 p1 p2 bn a -> mapped b v v2 p p2 bn a.
Proof.
  intros Hf Hbn Hmono Hfr Hfree Hlow [l Hp] Hi0 Hind Hn1 [M1 M2 M3 M4 M5 M6 M7 M8 M9 M10 [l' M11] M12 M13].
  assert (H0 : faddr v p bn = 0).
  { unfold faddr. destruct (Nat.ltb_spec bn NDIRECT); [lia |]. by rewrite Hi0. }
  rewrite Hf in M5, M6 by lia. split; try done.
  - intros i Hi Hne. rewrite M4 by done. auto.
  - intros _. destruct (M6 H0). split; [done |]. apply Hfree; [| done].
    rewrite <- M2. apply (wf_data _ _ _ M1 bn ltac:(lia)). by rewrite M2.
  - intros c Hc Hu Hn. rewrite M7; auto. intros ->. congruence.
  - auto.
  - intros c Hc. rewrite M10, Hlow; auto.
  - exists l'. subst p1. rewrite M11. by destruct p as [? ? ? ? ? []].
  - right. split; [done |]. destruct M12 as [-> | (? & _)]; done.
Qed.

(** The entry of the indirect block, read and, if it is 0, allocated. *)
Definition map_entry (ip : nat) (p : inode) (k : nat) (addr : Z) : M (fsst S) Z :=
  bp ← Fs.bcall (d_bread (i_dev p) addr);
  x ← Fs.bcall (d_data bp);
  let e := uint_at (4 * k) x in
  if e =? 0 then
    a ← balloc (i_dev p);
    x ← Fs.bcall (d_data bp);
    Fs.bcall (d_store bp (splice (4 * k) (le_bytes 4 a) x));;
    Fs.bcall (d_log_write bp);;
    Fs.bcall (d_brelse bp);;
    mret a
  else Fs.bcall (d_brelse bp);; mret e.

Lemma map_entry_ok s v r ip p bn : at_ s v [] (3 + r) -> layout (sb s) -> meta_used (sb s) v -> wf_file (sb s) v p ->
  avail (sb s) v 1 -> (NDIRECT <= bn < NMAX)%nat -> addr_of p NDIRECT <> 0 ->
  exists a s' v', map_entry ip p (bn - NDIRECT) (addr_of p NDIRECT) s = Ret a s' /\ same_meta s s' /\
    mapped (sb s) v v' p p bn a /\ at_ s' v' [] r /\ (forall n, avail (sb s) v (Datatypes.S n) -> avail (sb s) v' n).
Proof.
  intros Ha Hly Hm Hwf Hav Hbn Hi0. set (ind := addr_of p NDIRECT) in *.
  destruct (wf_ind _ _ _ Hwf Hi0) as [Hid Hiu]. fold ind in Hid, Hiu.
  destruct (is_data_pos (sb s) ind Hly Hid) as [Hir Hin]. unfold map_entry. rewrite (wf_dev _ _ _ Hwf).
  destruct (law_bread (dv s) v [] [] _ ind Ha Hin) as (i & d1 & x & E1 & Hx & Hlx & R1); [apply not_elem_of_nil | cbn; lia |].
  destruct (law_data d1 v [(i, ind)] [] _ i ind R1) as (x' & E2 & Hx' & _); [by left |].
  assert (x' = x) as -> by congruence.
  erewrite bind_ret by (apply dev_ret; exact E1). erewrite bind_ret by (apply dev_ret; exact E2). cbv zeta.
  destruct (Z.eqb_spec (uint_at (4 * (bn - NDIRECT)) x) 0) as [He | He].
  - destruct (avail_one _ _ _ Hav) as (c & Hc & Hcu).
    destruct (balloc_ok (mk_fs d1 (sb s) (icache s)) v [(i, ind)] (1 + r) c R1 Hly Hm) as (a & s2 & v2 & E3 & [Hsb Hic] & Hal & R2);
      [cbn; lia | by intros m ->%list_elem_of_singleton | done | done |]. cbn [sb icache dv] in *.
    assert (Hx2 : v2 ind = Some x) by (rewrite <- Hx; by eapply allocated_frame).
    destruct (law_data (dv s2) v2 [(i, ind)] [] _ i ind R2) as (x' & E4 & Hx4 & _); [by left |].
    assert (x' = x) as -> by congruence.
    assert (Hls : length (splice (4 * (bn - NDIRECT)) (le_bytes 4 a) x) = BSIZE).
    { rewrite length_splice; [done |]. rewrite length_le_bytes, Hlx. unfold BSIZE, NMAX, NDIRECT in *. lia. }
    destruct (write_held (dv s2) v2 [] r i ind (splice (4 * (bn - NDIRECT)) (le_bytes 4 a) x) R2)
      as (d3 & d4 & d5 & E5 & E6 & E7 & R5); [by eapply data_loggable | exact Hls |].
    exists a, (mk_fs d5 (sb s2) (icache s2)), (upd_view v2 ind (splice (4 * (bn - NDIRECT)) (le_bytes 4 a) x)).
    split_and!; try done.
    + erewrite bind_ret by exact E3. erewrite bind_ret by (apply dev_ret; exact E4).
      erewrite bind_ret by (apply dev_ret; exact E5). erewrite bind_ret by (apply dev_ret; exact E6).
      by erewrite bind_ret by (apply dev_ret; exact E7).
    + by apply mapped_indirect_entry.
    + intros n Hn. apply avail_upd_data; [done | done |]. by eapply avail_alloc.
  - destruct (law_brelse d1 v [] [] _ i ind R1) as (d2 & E3 & R2); [apply not_elem_of_nil |].
    assert (Hfa : faddr v p bn = uint_at (4 * (bn - NDIRECT)) x).
    { unfold faddr. fold ind. destruct (Nat.ltb_spec bn NDIRECT); [lia |]. destruct (Z.eqb_spec ind 0); [done |]. by rewrite Hx. }
    exists (uint_at (4 * (bn - NDIRECT)) x), (mk_fs d2 (sb s) (icache s)), v. split_and!; try done.
    + by erewrite bind_ret by (apply dev_ret; exact E3).
    + rewrite <- Hfa. apply mapped_same; [done | done | lia | by rewrite Hfa].
    + unfold at_ in *. eapply law_room; [| exact R2]. lia.
    + intros n. apply avail_le. lia.
Qed.

(** [bmap] returns the disk block of block [bn] of the file, allocating it and
    the indirect block when they are missing. *)
Lemma bmap_ok s v r ip p bn : at_ s v [] (5 + r) -> icache s !! ip = Some p ->
  layout (sb s) -> meta_used (sb s) v -> wf_file (sb s) v p -> avail (sb s) v 2 -> (bn < NMAX)%nat ->
  exists a s' v' p', bmap ip (Z.of_nat bn) s = Ret a s' /\ put_at s ip p' s' /\
    mapped (sb s) v v' p p' bn a /\ at_ s' v' [] r /\
    (forall n, avail (sb s) v (2 + n) -> avail (sb s) v' n).
Proof.
  intros Ha Hp Hly Hm Hwf Hav Hbn. unfold bmap.
  assert (Hid : icache s = <[ip := p]> (icache s)) by (symmetry; by apply list_insert_id).
  assert (Hav1 : avail (sb s) v 1) by (eapply avail_le; [| exact Hav]; lia).
  destruct (Z.ltb_spec (Z.of_nat bn) (Z.of_nat NDIRECT)) as [Hd | Hd].
  - rewrite Nat2Z.id.
    destruct (addr_alloc_ok s v (3 + r) ip p bn Ha Hp (wf_dev _ _ _ Hwf) Hly Hm Hav1)
      as (a & s' & v' & E & Ha' & [(Hn & -> & -> & Hsb & Hic) | (H0 & Hal & Hput)]).
    + exists (addr_of p bn), s', v, p. split; [done |]. split; [split; [done | rewrite Hic; exact Hid] |]. split_and!.
      * assert (Hf : faddr v p bn = addr_of p bn) by (unfold faddr; by destruct (Nat.ltb_spec bn NDIRECT); [| lia]).
        rewrite <- Hf. apply mapped_same; try done. by rewrite Hf.
      * unfold at_ in *. eapply law_room; [| exact Ha']. lia.
      * intros n. apply avail_le. lia.
    + exists a, s', v', (with_addr bn a p). split; [done |]. split; [done |]. split_and!.
      * apply mapped_direct; try done. lia.
      * unfold at_ in *. eapply law_room; [| exact Ha']. lia.
      * intros n Hn. eapply avail_alloc; [exact Hal |]. eapply avail_le; [| exact Hn]. lia.
  - destruct (Z.ltb_spec (Z.of_nat bn - Z.of_nat NDIRECT) (Z.of_nat NINDIRECT)); [| unfold NMAX, NDIRECT, NINDIRECT in *; lia].
    replace (Z.to_nat (Z.of_nat bn - Z.of_nat NDIRECT)) with (bn - NDIRECT)%nat by lia.
    destruct (addr_alloc_ok s v (3 + r) ip p NDIRECT Ha Hp (wf_dev _ _ _ Hwf) Hly Hm Hav1)
      as (a & s1 & v1 & E & Ha1 & Hcase). erewrite bind_ret by exact E.
    change (_ ← get_ino ip; _) with (q ← get_ino ip; map_entry ip q (bn - NDIRECT) a).
    destruct Hcase as [(Hn & -> & -> & Hsb & Hic) | (H0 & Hal & Hsb & Hic)].
    + erewrite bind_ret by (apply get_ino_ret; by rewrite Hic). rewrite <- Hsb in *.
      destruct (map_entry_ok s1 v r ip p bn Ha1 Hly Hm Hwf Hav1) as (e & s2 & v2 & E2 & [Hsb2 Hic2] & Hmp & Ha2 & Hav2); [lia | done |].
      exists e, s2, v2, p. split; [done |]. split; [split; congruence |]. split_and!; try done.
      intros n Hn2. apply Hav2. eapply avail_le; [| exact Hn2]. lia.
    + set (p1 := with_addr NDIRECT a p) in *.
      destruct (mapped_indirect_block (sb s) v v1 p a Hly Hm Hwf H0 Hal) as (Hwf1 & Hf1 & Hi1 & Hnz & Hm1 & Hlow1).
      erewrite bind_ret.
      2: { apply get_ino_ret. rewrite Hic. apply list_lookup_insert_eq. by eapply lookup_lt_Some. }
      rewrite <- Hsb in *. fold p1 in Hwf1, Hf1, Hi1.
      destruct (map_entry_ok s1 v1 r ip p1 bn Ha1) as (e & s2 & v2 & E2 & [Hsb2 Hic2] & Hmp & Ha2 & Hav2); try done.
      { by eapply avail_alloc. } { lia. } { by rewrite Hi1. }
      exists e, s2, v2, p1. rewrite Hi1 in E2. split; [done |]. split; [split; congruence |]. split_and!; try done.
      * eapply (mapped_after (sb s1) v v1 v2 p p1 p1); try done.
        -- lia.
        -- intros c Hc Hu. by eapply allocated_used.
        -- intros c Hc Hu. by eapply allocated_frame.
        -- intros c Hc Hu. destruct (is_data_pos _ c Hly Hc). rewrite (al_used _ _ _ _ Hal) in Hu by lia.
           by apply orb_false_iff in Hu as [_ ?].
        -- by eexists.
        -- rewrite Hi1. apply Hal.
        -- by rewrite Hi1.
      * intros n Hn2. apply Hav2. by eapply avail_alloc.
Qed.

(** ** The bytes of a file *)
Definition fblock (v : Z -> option blk) (p : inode) (bn : nat) : blk :=
  if faddr v p bn =? 0 then replicate BSIZE 0
  else match v (faddr v p bn) with Some x => x | None => replicate BSIZE 0 end.
Definition fbytes (v : Z -> option blk) (p : inode) : list Z := concat (map (fblock v p) (seq 0 NMAX)).

Definition blocks_ok (v : Z -> option blk) : Prop :=
  forall c, 0 <= c < nblk -> exists x, v c = Some x /\ length x = BSIZE.
Lemma at_blocks s v h r : at_ s v h r -> blocks_ok v.
Proof. intros Ha c Hc. by eapply law_view. Qed.

Lemma fblock_len b v p bn : layout b -> blocks_ok v -> wf_file b v p -> (bn < NMAX)%nat -> length (fblock v p bn) = BSIZE.
Proof.
  intros Hly Hv Hwf Hbn. unfold fblock. destruct (Z.eqb_spec (faddr v p bn) 0) as [| Hn]; [apply length_replicate |].
  destruct (wf_data _ _ _ Hwf bn Hbn Hn) as [Hd _]. destruct (is_data_pos b _ Hly Hd) as [_ Hr].
  destruct (Hv _ Hr) as (x & -> & Hx). done.
Qed.

Lemma fblocks_len b v p : layout b -> blocks_ok v -> wf_file b v p ->
  Forall (fun x => length x = BSIZE) (map (fblock v p) (seq 0 NMAX)).
Proof.
  intros Hly Hv Hwf. apply Forall_fmap, Forall_forall. intros bn Hbn%elem_of_seq. cbn. eapply fblock_len; try done. lia.
Qed.

Lemma length_concat_const {A} (l : list (list A)) n : Forall (fun x => length x = n) l -> length (concat l) = (length l * n)%nat.
Proof. induction 1 as [| x l Hx _ IH]; [done |]. cbn. rewrite length_app, IH, Hx. lia. Qed.

Lemma length_fbytes b v p : layout b -> blocks_ok v -> wf_file b v p -> length (fbytes v p) = (NMAX * BSIZE)%nat.
Proof.
  intros. unfold fbytes. rewrite (length_concat_const _ BSIZE) by by eapply fblocks_len.
  by rewrite length_map, length_seq.
Qed.

Lemma fblocks_lookup v p bn : (bn < NMAX)%nat -> map (fblock v p) (seq 0 NMAX) !! bn = Some (fblock v p bn).
Proof. intros H. by rewrite list_lookup_fmap, lookup_seq_lt by done. Qed.

Lemma map_seq_insert {A} (f g : nat -> A) n k y : (k < n)%nat -> g k = y -> (forall i, (i < n)%nat -> i <> k -> g i = f i) ->
  map g (seq 0 n) = <[k := y]> (map f (seq 0 n)).
Proof.
  intros Hk Hg Hf. apply list_eq. intros i. destruct (decide (i < n)%nat) as [Hi |].
  - rewrite list_lookup_fmap, lookup_seq_lt by done. cbn. destruct (decide (i = k)) as [-> | Hne].
    + rewrite list_lookup_insert_eq by (rewrite length_map, length_seq; done). by rewrite Hg.
    + rewrite list_lookup_insert_ne by done. rewrite list_lookup_fmap, lookup_seq_lt by done. cbn. by rewrite Hf.
  - rewrite !lookup_ge_None_2; [done | rewrite length_insert |]; rewrite length_map, length_seq; lia.
Qed.

(** [bmap] does not change the bytes. *)
Lemma mapped_fbytes b v v' p p' bn a : wf_file b v p -> (bn < NMAX)%nat -> mapped b v v' p p' bn a -> fbytes v' p' = fbytes v p.
Proof.
  intros Hwf Hbn Hmp. unfold fbytes. f_equal. apply map_ext_in. intros i [_ Hi]%in_seq.
  unfold fblock. destruct (decide (faddr v p i = 0)) as [E0 | E0].
  - rewrite E0. cbn. destruct (decide (i = bn)) as [-> | Hne].
    + rewrite (mp_at _ _ _ _ _ _ _ Hmp). destruct (Z.eqb_spec a 0); [done |].
      by rewrite (proj1 (mp_zero _ _ _ _ _ _ _ Hmp E0)).
    + rewrite (mp_old _ _ _ _ _ _ _ Hmp) by done. by rewrite E0.
  - assert (Hsame : faddr v' p' i = faddr v p i).
    { destruct (decide (i = bn)) as [-> | Hne]; [| by apply (mp_old _ _ _ _ _ _ _ Hmp)].
      rewrite (mp_at _ _ _ _ _ _ _ Hmp). symmetry. by apply (mp_keep _ _ _ _ _ _ _ Hmp). }
    rewrite Hsame. destruct (wf_data _ _ _ Hwf i Hi E0) as [Hd Hu].
    by rewrite (mp_frame _ _ _ _ _ _ _ Hmp _ Hd Hu (wf_ne _ _ _ Hwf i Hi E0)).
Qed.

(** Changing one data block of the file. *)
Lemma put_block_file b v p bn y : layout b -> blocks_ok v -> wf_file b v p -> (bn < NMAX)%nat -> faddr v p bn <> 0 -> length y = BSIZE ->
  let v' := upd_view v (faddr v p bn) y in
  wf_file b v' p /\ (forall i, (i < NMAX)%nat -> faddr v' p i = faddr v p i) /\
  map (fblock v' p) (seq 0 NMAX) = <[bn := y]> (map (fblock v p) (seq 0 NMAX)) /\
  (forall c, 0 <= c < sb_size b -> used b v' c = used b v c).
Proof.
  intros Hly Hv Hwf Hbn Hn Hy v'. set (a := faddr v p bn) in *.
  destruct (wf_data _ _ _ Hwf bn Hbn Hn) as [Hd Hu]. fold a in Hd, Hu.
  pose proof (wf_ne _ _ _ Hwf bn Hbn Hn) as Hne. fold a in Hne.
  assert (Hus : forall c, 0 <= c < sb_size b -> used b v' c = used b v c).
  { intros c Hc. unfold used, v', upd_view. rewrite decide_False; [done |]. intros E.
    pose proof (bblock_range b c Hly Hc). unfold is_data in Hd. lia. }
  assert (Hud : forall c, is_data b c -> used b v' c = used b v c).
  { intros c Hc. apply Hus. destruct (is_data_pos b c Hly Hc). lia. }
  assert (Hf : forall i, (i < NMAX)%nat -> faddr v' p i = faddr v p i).
  { intros i Hi. unfold faddr. destruct (i <? NDIRECT)%nat; [done |]. destruct (addr_of p NDIRECT =? 0); [done |].
    unfold v', upd_view. by rewrite decide_False by congruence. }
  split_and!; try done.
  - destruct Hwf as [W1 W2 W3 W4 W5 W6]. split; try done.
    + intros i Hi. rewrite Hf by done. intros Hni. destruct (W3 i Hi Hni). by rewrite Hud.
    + intros Hni. destruct (W4 Hni). by rewrite Hud.
    + intros i j Hi Hj. rewrite !Hf by done. auto.
    + intros i Hi. rewrite Hf by done. auto.
  - apply map_seq_insert; [done | |].
    + unfold fblock. rewrite Hf by done. fold a. destruct (Z.eqb_spec a 0); [done |]. unfold v', upd_view. by rewrite decide_True.
    + intros i Hi Hni. unfold fblock. rewrite Hf by done. destruct (Z.eqb_spec (faddr v p i) 0); [done |].
      unfold v', upd_view. rewrite decide_False; [done |]. intros E. apply Hni. by eapply (wf_inj _ _ _ Hwf).
Qed.

(** ** Reading *)
Lemma bmap_hit s v r ip p bn : at_ s v [] r -> icache s !! ip = Some p -> layout (sb s) -> wf_file (sb s) v p ->
  (bn < NMAX)%nat -> faddr v p bn <> 0 ->
  exists s', bmap ip (Z.of_nat bn) s = Ret (faddr v p bn) s' /\ same_meta s s' /\ at_ s' v [] r.
Proof.
  intros Ha Hp Hly Hwf Hbn Hn. unfold bmap, addr_alloc. unfold faddr in *.
  destruct (Z.ltb_spec (Z.of_nat bn) (Z.of_nat NDIRECT)); destruct (Nat.ltb_spec bn NDIRECT); try lia.
  - rewrite Nat2Z.id. erewrite bind_ret by by apply get_ino_ret.
    destruct (Z.eqb_spec (addr_of p bn) 0); [done |]. by exists s.
  - destruct (Z.ltb_spec (Z.of_nat bn - Z.of_nat NDIRECT) (Z.of_nat NINDIRECT)); [| unfold NMAX, NDIRECT, NINDIRECT in *; lia].
    destruct (Z.eqb_spec (addr_of p NDIRECT) 0) as [| Hi]; [done |].
    destruct (wf_ind _ _ _ Hwf Hi) as [Hd _]. destruct (is_data_pos _ _ Hly Hd) as [_ Hr].
    destruct (read_block (dv s) v [] r (addr_of p NDIRECT) Ha Hr) as (i & d1 & x & d2 & E1 & E2 & E3 & Hx & Hlx & R2);
      [apply not_elem_of_nil | cbn; lia |].
    replace (Z.to_nat (Z.of_nat bn - Z.of_nat NDIRECT)) with (bn - NDIRECT)%nat by lia. rewrite Hx in *.
    exists (mk_fs d2 (sb s) (icache s)). split; [| done].
    erewrite bind_ret. 2: { erewrite bind_ret by by apply get_ino_ret. destruct (Z.eqb_spec (addr_of p NDIRECT) 0); [done | reflexivity]. }
    erewrite bind_ret by by apply get_ino_ret. rewrite (wf_dev _ _ _ Hwf).
    erewrite bind_ret by (apply dev_ret; exact E1). erewrite bind_ret by (apply dev_ret; exact E2).
    cbv zeta. destruct (Z.eqb_spec (uint_at (4 * (bn - NDIRECT)) x) 0); [done |].
    by erewrite bind_ret by (apply dev_ret; exact E3).
Qed.

(** Every block below the size is there. *)
Definition no_holes (v : Z -> option blk) (p : inode) : Prop :=
  forall bn, Z.of_nat (bn * BSIZE) < di_size (i_din p) -> faddr v p bn <> 0.

Lemma off_split off : 0 <= off -> off = off / 512 * 512 + off mod 512 /\ 0 <= off mod 512 < 512 /\ 0 <= off / 512.
Proof.
  intros. pose proof (Z.div_mod off 512 ltac:(lia)). pose proof (Z.mod_pos_bound off 512 ltac:(lia)).
  pose proof (Z.div_pos off 512). lia.
Qed.

Lemma readi_loop_ok fuel s v r ip p tot off n : at_ s v [] r -> icache s !! ip = Some p -> layout (sb s) ->
  wf_file (sb s) v p -> no_holes v p -> 0 <= tot <= n -> 0 <= off -> off + (n - tot) <= di_size (i_din p) ->
  di_size (i_din p) <= MAXFILE * 512 -> n - tot < Z.of_nat fuel ->
  exists s', readi_loop fuel ip tot off n s = Ret (slice (Z.to_nat off) (Z.to_nat (n - tot)) (fbytes v p)) s' /\
    same_meta s s' /\ at_ s' v [] r.
Proof.
  revert s tot off. induction fuel as [| fuel IH]; intros s tot off Ha Hp Hly Hwf Hnh Ht Ho Hend Hsz Hfuel; [lia |].
  cbn [readi_loop]. destruct (Z.ltb_spec tot n).
  2: { exists s. replace (Z.to_nat (n - tot)) with 0%nat by lia. by split_and!. }
  destruct (off_split off Ho) as (Hdm & Hmod & Hdiv). set (bn := Z.to_nat (off / 512)).
  assert (Hbn : (bn < NMAX)%nat) by (unfold bn, NMAX, MAXFILE in *; lia).
  assert (Hnz : faddr v p bn <> 0) by (apply Hnh; unfold bn, BSIZE; lia).
  erewrite bind_ret by by apply get_ino_ret. change (Z.of_nat BSIZE) with 512.
  replace (off / 512) with (Z.of_nat bn) by (unfold bn; lia).
  destruct (bmap_hit s v r ip p bn Ha Hp Hly Hwf Hbn Hnz) as (s1 & E1 & [Hsb Hic] & Ha1).
  erewrite bind_ret by exact E1. rewrite (wf_dev _ _ _ Hwf).
  destruct (wf_data _ _ _ Hwf bn Hbn Hnz) as [Hd _]. destruct (is_data_pos _ _ Hly Hd) as [_ Hr].
  destruct (read_block (dv s1) v [] r (faddr v p bn) Ha1 Hr) as (i & d1 & x & d2 & E2 & E3 & E4 & Hx & Hlx & R2);
    [apply not_elem_of_nil | cbn; lia |].
  erewrite bind_ret by (apply dev_ret; exact E2). cbv zeta.
  erewrite bind_ret by (apply dev_ret; exact E3). erewrite bind_ret by (apply dev_ret; exact E4).
  set (m := chunk_len n tot off). assert (Hm : 0 < m <= n - tot /\ off mod 512 + m <= 512)
    by (unfold m, chunk_len; change (Z.of_nat BSIZE) with 512; lia).
  destruct (IH (mk_fs d2 (sb s1) (icache s1)) (tot + m) (off + m)) as (s2 & E5 & [Hsb2 Hic2] & Ha2);
    try done; try lia; try (cbn; congruence).
  erewrite bind_ret by exact E5. exists s2. split; [| split; [split; cbn in *; congruence | done]].
  f_equal. assert (Hfb : slice (Z.to_nat off) (Z.to_nat m) (fbytes v p) = slice (Z.to_nat (off mod 512)) (Z.to_nat m) x).
  { replace (Z.to_nat off) with (bn * BSIZE + Z.to_nat (off mod 512))%nat by (unfold bn, BSIZE; lia).
    unfold fbytes. rewrite (slice_concat bn BSIZE _ _ _ (fblock v p bn)).
    - f_equal. unfold fblock. destruct (Z.eqb_spec (faddr v p bn) 0); [done |]. by rewrite Hx.
    - by eapply fblocks_len; [| by eapply at_blocks |].
    - by apply fblocks_lookup.
    - unfold BSIZE. lia. }
  change (Z.of_nat BSIZE) with 512. rewrite <- Hfb.
  replace (Z.to_nat (off + m)) with (Z.to_nat off + Z.to_nat m)%nat by lia.
  replace (Z.to_nat (n - (tot + m))) with (Z.to_nat (n - tot) - Z.to_nat m)%nat by lia.
  apply slice_split. lia.
Qed.

(** ** Writing *)

(** What writing [bs] at [off] does to the file and to the rest of the disk. *)
Record written (b : superblock) (v v' : Z -> option blk) (p p' : inode) (off : Z) (bs : list Z) : Prop := {
  wr_wf : wf_file b v' p';
  wr_bytes : fbytes v' p' = splice (Z.to_nat off) bs (fbytes v p);
  wr_keep : forall i, (i < NMAX)%nat -> faddr v p i <> 0 -> faddr v' p' i = faddr v p i;
  wr_mapped : bs <> [] -> forall i, off < Z.of_nat (Datatypes.S i * BSIZE) -> Z.of_nat (i * BSIZE) < off + Z.of_nat (length bs) -> faddr v' p' i <> 0;
  wr_frame : forall c, is_data b c -> used b v c = true -> c <> addr_of p NDIRECT ->
               (forall i, (i < NMAX)%nat -> c <> faddr v p i) -> v' c = v c;
  wr_used : forall c, is_data b c -> used b v c = true -> used b v' c = true;
  wr_meta : meta_used b v';
  wr_low : forall c, c < sb_bmapstart b -> v' c = v c;
  wr_ino : exists l, p' = set_din (set_addrs l (i_din p)) p;
  wr_ind : addr_of p' NDIRECT = addr_of p NDIRECT \/
           (addr_of p NDIRECT = 0 /\ addr_of p' NDIRECT <> 0 /\ used b v (addr_of p' NDIRECT) = false);
  wr_fresh : forall i, (i < NMAX)%nat -> faddr v' p' i <> 0 -> faddr v p i = 0 -> used b v (faddr v' p' i) = false;
  wr_id : (forall i, off < Z.of_nat (Datatypes.S i * BSIZE) -> Z.of_nat (i * BSIZE) < off + Z.of_nat (length bs) ->
             faddr v p i <> 0) -> p' = p
}.

Lemma written_nil b v p off : meta_used b v -> wf_file b v p -> written b v v p p off [].
Proof.
  intros Hm Hwf. split; try done.
  - by rewrite splice_nil.
  - exists (di_addrs (i_din p)). by destruct p as [? ? ? ? ? []].
  - by left.
Qed.

(** One step of the loop: [bmap], then the bytes of one block. *)
Lemma written_one b v v1 p p1 bn a i bs x : layout b -> blocks_ok v1 -> wf_file b v p -> (bn < NMAX)%nat ->
  mapped b v v1 p p1 bn a -> v1 a = Some x -> length x = BSIZE -> (i + length bs <= BSIZE)%nat -> (0 < length bs)%nat ->
  written b v (upd_view v1 a (splice i bs x)) p p1 (Z.of_nat (bn * BSIZE + i)) bs.
Proof.
  intros Hly Hv1 Hwf Hbn Hmp Hx Hlx Hi Hbs. pose proof Hmp as [M1 M2 M3 M4 M5 M6 M7 M8 M9 M10 M11 M12 M13].
  assert (Hls : length (splice i bs x) = BSIZE) by (rewrite length_splice; lia).
  destruct (put_block_file b v1 p1 bn (splice i bs x) Hly Hv1 M1 Hbn) as (W1 & Wf & Wb & Wu); [by rewrite M2 | done |].
  rewrite M2 in W1, Wf, Wb, Wu. set (v2 := upd_view v1 a (splice i bs x)) in *.
  assert (Hold : forall j, (j < NMAX)%nat -> faddr v p j <> 0 -> faddr v2 p1 j = faddr v p j).
  { intros j Hj Hn. rewrite Wf by done. destruct (decide (j = bn)) as [-> |]; [| by apply M4].
    rewrite M2. symmetry. by apply M5. }
  assert (Had : is_data b a) by (rewrite <- M2; apply (wf_data _ _ _ M1 bn Hbn); by rewrite M2).
  split; try done.
  - unfold fbytes at 1. rewrite Wb, Nat2Z.id.
    rewrite <- (splice_concat bn BSIZE i bs (map (fblock v1 p1) (seq 0 NMAX)) x).
    + fold (fbytes v1 p1). f_equal. by eapply mapped_fbytes.
    + by eapply fblocks_len.
    + rewrite fblocks_lookup by done. f_equal. unfold fblock. rewrite M2. destruct (Z.eqb_spec a 0); [done |]. by rewrite Hx.
    + done.
  - intros _ j H1 H2. assert (j = bn) as -> by (unfold BSIZE in *; lia). rewrite Wf by done. by rewrite M2.
  - intros c Hc Hu Hci Hcf. unfold v2, upd_view. rewrite decide_False; [by apply M7 |]. intros ->.
    destruct (decide (faddr v p bn = 0)) as [E | E]; [destruct (M6 E); congruence |]. apply (Hcf bn Hbn). symmetry. by apply M5.
  - intros c Hc Hu. destruct (is_data_pos b c Hly Hc). rewrite Wu by lia. by apply M8.
  - intros c Hc. pose proof (ly_data b Hly). rewrite Wu by (unfold datastart in *; lia). by apply M9.
  - intros c Hc. unfold v2, upd_view. rewrite decide_False; [by apply M10 |]. intros ->. unfold is_data, datastart in Had.
    assert (0 <= sb_size b / BPB) by (apply Z.div_pos; [destruct Hly; lia | unfold BPB; lia]). lia.
  - intros j Hj. rewrite Wf by done. intros Hn H0. destruct (decide (j = bn)) as [-> | Hne].
    + rewrite M2. by apply M6.
    + rewrite M4 in Hn by done. done.
  - intros Hall. apply M13, Hall; unfold BSIZE in *; lia.
Qed.

Lemma set_addrs_twice p l l' : set_din (set_addrs l' (i_din (set_din (set_addrs l (i_din p)) p))) (set_din (set_addrs l (i_din p)) p) = set_din (set_addrs l' (i_din p)) p.
Proof. by destruct p as [? ? ? ? ? []]. Qed.

Lemma written_trans b v v1 v2 p p1 p2 off bs1 bs2 :
  layout b -> blocks_ok v -> wf_file b v p -> 0 <= off -> bs1 <> [] -> (Z.to_nat off + length bs1 + length bs2 <= NMAX * BSIZE)%nat ->
  written b v v1 p p1 off bs1 -> written b v1 v2 p1 p2 (off + Z.of_nat (length bs1)) bs2 ->
  written b v v2 p p2 off (bs1 ++ bs2).
Proof.
  intros Hly Hv Hwf Ho Hne Hl [A1 A2 A3 A4 A5 A6 A7 A8 [l1 A9] A10 A11 A12] [B1 B2 B3 B4 B5 B6 B7 B8 [l2 B9] B10 B11 B12].
  assert (Hback : forall c, is_data b c -> used b v1 c = false -> used b v c = false).
  { intros c Hc Hu. destruct (used b v c) eqn:E; [| done]. rewrite (A6 c Hc E) in Hu. done. }
  split; try done.
  - rewrite B2, A2. replace (Z.to_nat (off + Z.of_nat (length bs1))) with (Z.to_nat off + length bs1)%nat by lia.
    apply splice_splice. by rewrite (length_fbytes b).
  - intros i Hi Hn. rewrite B3; [by apply A3 | done |]. by rewrite A3.
  - intros _ i H1 H2. rewrite length_app in H2. assert (Hi : (i < NMAX)%nat) by (unfold BSIZE, NMAX in *; lia).
    destruct (decide (Z.of_nat (i * BSIZE) < off + Z.of_nat (length bs1))).
    + rewrite B3; auto.
    + apply B4; [| unfold BSIZE in *; lia..]. intros ->. cbn [length] in H2. lia.
  - intros c Hc Hu Hci Hcf. rewrite B5; auto.
    + destruct A10 as [-> | (_ & _ & Hf)]; [done |]. intros ->. congruence.
    + intros i Hi E. destruct (decide (faddr v p i = 0)) as [E0 | E0].
      * destruct (decide (faddr v1 p1 i = 0)) as [E1 | E1].
        -- rewrite E1 in E. destruct (is_data_pos b c Hly Hc). lia.
        -- specialize (A11 i Hi E1 E0). congruence.
      * rewrite A3 in E by done. by apply (Hcf i Hi).
  - auto.
  - intros c Hc. rewrite B8, A8; auto.
  - exists l2. subst p1. rewrite B9. apply set_addrs_twice.
  - destruct A10 as [A10 | (A10 & A10n & A10')], B10 as [B10 | (B10 & B10n & B10')].
    + left. congruence.
    + right. split; [congruence |]. split; [done |]. destruct (wf_ind _ _ _ B1 B10n) as [Hd _]. auto.
    + right. by rewrite B10.
    + done.
  - intros i Hi Hn H0. destruct (decide (faddr v1 p1 i = 0)) as [E | E].
    + apply Hback; [apply (wf_data _ _ _ B1 i Hi Hn) | auto].
    + rewrite B3 by done. auto.
  - intros Hall. rewrite length_app in Hall. assert (p1 = p) as Ep by (apply A12; intros; apply Hall; lia).
    rewrite <- Ep. apply B12. intros i H1 H2. assert (Hi : (i < NMAX)%nat) by (unfold BSIZE, NMAX in *; lia).
    assert (Hn : faddr v p i <> 0) by (apply Hall; lia). rewrite A3; done.
Qed.

(** Number of blocks that [rem] bytes from [off] touch. *)
Definition touched (off rem : Z) : Z := if rem <=? 0 then 0 else (off + rem - 1) / 512 - off / 512 + 1.

Lemma touched_step off rem m : 0 <= off -> 0 < rem -> m = Z.min rem (512 - off mod 512) ->
  1 <= touched off rem /\ touched (off + m) (rem - m) <= touched off rem - 1.
Proof.
  intros Ho Hr ->. destruct (off_split off Ho) as (Hd & Hm & Hq). unfold touched.
  destruct (Z.leb_spec rem 0); [lia |].
  assert (Hle : off / 512 <= (off + rem - 1) / 512) by (apply Z.div_le_mono; lia).
  split; [lia |]. destruct (Z.leb_spec (rem - Z.min rem (512 - off mod 512)) 0); [lia |].
  rewrite Z.min_r by lia. replace (off + (512 - off mod 512)) with ((off / 512 + 1) * 512) by lia.
  rewrite Z.div_mul by lia. replace ((off / 512 + 1) * 512 + (rem - (512 - off mod 512)) - 1) with (off + rem - 1) by lia. lia.
Qed.

Lemma put_at_lookup s s' ip p p' : icache s !! ip = Some p -> put_at s ip p' s' -> icache s' !! ip = Some p'.
Proof. intros Hp [_ ->]. apply list_lookup_insert_eq. by eapply lookup_lt_Some. Qed.

Lemma writei_loop_ok fuel s v r ip p src tot off n K :
  at_ s v [] (6 * K + r) -> icache s !! ip = Some p -> layout (sb s) -> meta_used (sb s) v -> wf_file (sb s) v p ->
  avail (sb s) v (2 * K) -> 0 <= tot <= n -> 0 <= off -> off + (n - tot) <= MAXFILE * 512 ->
  n <= Z.of_nat (length src) -> touched off (n - tot) <= Z.of_nat K -> n - tot < Z.of_nat fuel ->
  exists s' v' p', writei_loop fuel ip src tot off n s = Ret (off + (n - tot)) s' /\ put_at s ip p' s' /\
    at_ s' v' [] r /\ written (sb s) v v' p p' off (slice (Z.to_nat tot) (Z.to_nat (n - tot)) src) /\
    (forall k, avail (sb s) v (2 * K + k) -> avail (sb s) v' k).
Proof.
  revert s v p tot off K. induction fuel as [| fuel IH];
    intros s v p tot off K Ha Hp Hly Hm Hwf Hav Ht Ho Hend Hsrc HK Hfuel; [lia |].
  cbn [writei_loop]. destruct (Z.ltb_spec tot n).
  2: { exists s, v, p. replace (Z.to_nat (n - tot)) with 0%nat by lia. split; [do 2 f_equal; lia |].
       split; [split; [done | symmetry; by apply list_insert_id] |]. split; [| split; [by apply written_nil | intros k; apply avail_le; lia]].
       unfold at_ in *. eapply law_room; [| exact Ha]. lia. }
  destruct (off_split off Ho) as (Hdm & Hmod & Hdiv). set (bn := Z.to_nat (off / 512)).
  assert (Hbn : (bn < NMAX)%nat) by (unfold bn, NMAX, MAXFILE in *; lia).
  set (m := chunk_len n tot off).
  assert (Hmeq : m = Z.min (n - tot) (512 - off mod 512)) by reflexivity.
  destruct (touched_step off (n - tot) m Ho ltac:(lia) Hmeq) as [HK1 HK2].
  destruct K as [| K]; [lia |].
  erewrite bind_ret by by apply get_ino_ret. change (Z.of_nat BSIZE) with 512.
  replace (off / 512) with (Z.of_nat bn) by (unfold bn; lia).
  replace (6 * Datatypes.S K + r)%nat with (5 + (1 + (6 * K + r)))%nat in Ha by lia.
  destruct (bmap_ok s v (1 + (6 * K + r)) ip p bn Ha Hp Hly Hm Hwf) as (a & s1 & v1 & p1 & E1 & Hput & Hmp & Ha1 & Hav1);
    [eapply avail_le; [| exact Hav]; lia | done |].
  erewrite bind_ret by exact E1. rewrite (wf_dev _ _ _ Hwf).
  pose proof (put_at_lookup _ _ _ _ _ Hp Hput) as Hp1. destruct Hput as [Hsb1 Hic1].
  assert (Had : is_data (sb s) a).
  { rewrite <- (mp_at _ _ _ _ _ _ _ Hmp). apply (wf_data _ _ _ (mp_wf _ _ _ _ _ _ _ Hmp) bn Hbn).
    rewrite (mp_at _ _ _ _ _ _ _ Hmp). apply Hmp. }
  destruct (is_data_pos _ a Hly Had) as [Hap Har].
  assert (Hrange : (Z.to_nat (off mod 512) + Z.to_nat m <= BSIZE)%nat) by (unfold BSIZE; lia).
  set (bs1 := slice (Z.to_nat tot) (Z.to_nat m) src).
  assert (Hl1 : length bs1 = Z.to_nat m) by (unfold bs1; apply length_slice; lia).
  destruct (update_block (dv s1) v1 [] (6 * K + r) a (splice (Z.to_nat (off mod 512)) bs1) Ha1 Har)
    as (i & d1 & x & d2 & d3 & d4 & E2 & E3 & E4 & E5 & E6 & Hx & Hlx & R4).
  { by eapply data_loggable. } { apply not_elem_of_nil. } { cbn [length]. lia. }
  { intros y Hy. rewrite length_splice; [done |]. rewrite Hl1, Hy. exact Hrange. }
  erewrite bind_ret by (apply dev_ret; exact E2). cbv zeta. fold m. fold bs1.
  erewrite bind_ret by (apply dev_ret; exact E3). erewrite bind_ret by (apply dev_ret; exact E4).
  erewrite bind_ret by (apply dev_ret; exact E5). erewrite bind_ret by (apply dev_ret; exact E6).
  pose proof (written_one (sb s) v v1 p p1 bn a (Z.to_nat (off mod 512)) bs1 x Hly (at_blocks _ _ _ _ Ha1) Hwf Hbn Hmp Hx Hlx)
    as Hw1. rewrite Hl1 in Hw1. specialize (Hw1 Hrange ltac:(lia)).
  replace (Z.of_nat (bn * BSIZE + Z.to_nat (off mod 512))) with off in Hw1 by (unfold bn, BSIZE; lia).
  set (v2 := upd_view v1 a (splice (Z.to_nat (off mod 512)) bs1 x)) in *.
  assert (Hav2 : forall k, avail (sb s) v (2 * Datatypes.S K + k) -> avail (sb s) v2 (2 * K + k)).
  { intros k Hk. apply avail_upd_data; [done | done |]. apply Hav1. eapply avail_le; [| exact Hk]. lia. }
  destruct (IH (mk_fs d4 (sb s1) (icache s1)) v2 p1 (tot + m) (off + m) K) as (s3 & v3 & p3 & E7 & [Hsb3 Hic3] & Ha3 & Hw3 & Hav3);
    cbn [sb icache dv] in *; rewrite ?Hsb1; try done; try apply Hw1; try lia.
  { rewrite <- (Nat.add_0_r (2 * K)). apply Hav2. by rewrite Nat.add_0_r. }
  { replace (n - (tot + m)) with (n - tot - m) by lia. lia. }
  rewrite Hsb1 in E7, Hav3. exists s3, v3, p3. split; [etrans; [exact E7 |]; f_equal; lia |]. split; [split; [congruence |] |].
  { rewrite Hic3, Hic1. apply list_insert_insert_eq. }
  split; [done |]. split; [| intros k Hk; by apply Hav3, Hav2]. rewrite Hsb1 in Hw3.
  replace (Z.to_nat (n - (tot + m))) with (Z.to_nat (n - tot) - Z.to_nat m)%nat in Hw3 by lia.
  replace (Z.to_nat (tot + m)) with (Z.to_nat tot + Z.to_nat m)%nat in Hw3 by lia.
  rewrite <- (slice_split (Z.to_nat tot) (Z.to_nat m)) by lia. fold bs1.
  apply (written_trans (sb s) v v2 v3 p p1 p3); try done.
  - by eapply at_blocks.
  - intros E. rewrite E in Hl1. cbn in Hl1. lia.
  - rewrite Hl1, length_slice by lia. unfold NMAX, BSIZE, MAXFILE in *. lia.
  - rewrite Hl1. by replace (off + Z.of_nat (Z.to_nat m)) with (off + m) by lia.
Qed.

(** ** The inode on disk *)
Lemma length_enc d : length (di_addrs d) = (NDIRECT + 1)%nat -> length (enc_dinode d) = 64%nat.
Proof.
  intros Hl. unfold enc_dinode. rewrite !length_app, !length_le_bytes.
  rewrite (length_concat_const _ 4) by (apply Forall_fmap, Forall_forall; intros; apply length_le_bytes).
  rewrite length_fmap, Hl. done.
Qed.

(** The fields within the range of their types. *)
Record din_ok (d : dinode) : Prop := {
  do_type : s16 (di_type d) = di_type d;
  do_major : s16 (di_major d) = di_major d;
  do_minor : s16 (di_minor d) = di_minor d;
  do_nlink : s16 (di_nlink d) = di_nlink d;
  do_size : is_u32 (di_size d);
  do_addrs : Forall is_u32 (di_addrs d);
  do_len : length (di_addrs d) = (NDIRECT + 1)%nat
}.

Lemma s16_val z : s16 (le_val (le_bytes 2 z)) = s16 z.
Proof.
  rewrite le_val_bytes. unfold s16. change (256 ^ Z.of_nat 2) with (2 ^ 16). f_equal. by rewrite Zplus_mod_idemp_l.
Qed.
Lemma s16_s16 z : s16 (s16 z) = s16 z.
Proof. unfold s16. f_equal. rewrite Z.sub_add. by rewrite Z.mod_mod. Qed.

Lemma nth_enc d k : length (di_addrs d) = (NDIRECT + 1)%nat -> Forall is_u32 (di_addrs d) -> (k < NDIRECT + 1)%nat ->
  uint32_val (slice (12 + 4 * k) 4 (enc_dinode d)) = nth k (di_addrs d) 0.
Proof.
  intros Hl Hf Hk. unfold enc_dinode. rewrite !app_assoc, slice_skip; rewrite !length_app, !length_le_bytes; [| lia].
  replace (12 + 4 * k - _)%nat with (k * 4 + 0)%nat by lia.
  destruct (lookup_lt_is_Some_2 (di_addrs d) k ltac:(lia)) as [a Ha].
  rewrite (slice_concat k 4 0 4 _ (le_bytes 4 a)).
  - rewrite slice_all by apply length_le_bytes. rewrite uint32_roundtrip by by apply (Forall_lookup_1 _ _ _ _ Hf Ha).
    symmetry. by apply nth_lookup_Some.
  - apply Forall_fmap, Forall_forall. intros. apply length_le_bytes.
  - by rewrite list_lookup_fmap, Ha.
  - lia.
Qed.

(** An inode reads back as it was written. *)
Lemma dec_enc o d x : din_ok d -> (o + 64 <= length x)%nat -> dec_dinode o (splice o (enc_dinode d) x) = d.
Proof.
  intros [T1 T2 T3 T4 T5 T6 T7] Ho. pose proof (length_enc d T7) as Hl.
  assert (Hs : forall k m, (k + m <= 64)%nat -> slice (o + k) m (splice o (enc_dinode d) x) = slice k m (enc_dinode d))
    by (intros k m Hkm; apply slice_splice_in; lia).
  unfold dec_dinode, short_at, uint_at. rewrite <- (Nat.add_0_r o) at 1. rewrite !Hs by lia.
  assert (Ha : map (fun k => uint32_val (slice (o + 12 + 4 * k) 4 (splice o (enc_dinode d) x))) (seq 0 (NDIRECT + 1)) = di_addrs d).
  { apply (nth_ext _ _ 0 0); rewrite length_map, length_seq; [done |]. intros k Hk.
    rewrite <- (nth_enc d k) by done. rewrite <- (Hs (12 + 4 * k)%nat) by (unfold NDIRECT in *; lia).
    rewrite nth_lookup, list_lookup_fmap, lookup_seq_lt by done. cbn [fmap option_fmap option_map from_option id].
    by rewrite Nat.add_assoc. }
  rewrite Ha. unfold enc_dinode. 
  repeat match goal with |- context [slice (Datatypes.S ?i) ?n (le_bytes ?k ?a ++ ?y)] =>
    rewrite (slice_skip (Datatypes.S i) n (le_bytes k a) y) by (rewrite length_le_bytes; lia);
    rewrite length_le_bytes; cbn [Nat.sub] end.
  rewrite !slice_head by apply length_le_bytes. rewrite !s16_val, uint32_roundtrip, T1, T2, T3, T4 by done.
  by destruct d.
Qed.

Lemma dec_ok o x : din_ok (dec_dinode o x).
Proof.
  assert (Hu : forall k, is_u32 (uint_at k x)).
  { intros k. unfold is_u32, uint_at, uint32_val. pose proof (le_val_range (slice k 4 x)) as [H0 H1]. split; [done |].
    eapply Z.lt_le_trans; [exact H1 |]. change (2 ^ 32) with (256 ^ 4). apply Z.pow_le_mono_r; [lia |].
    unfold slice. rewrite length_take. lia. }
  split; try apply s16_s16; [apply Hu | | done]. apply Forall_fmap, Forall_forall. intros. apply Hu.
Qed.

Lemma din_off_ok inum : 0 <= inum -> (din_off inum + 64 <= BSIZE)%nat.
Proof. intros. unfold din_off, IPB, BSIZE. pose proof (Z.mod_pos_bound inum 8). lia. Qed.

Lemma iblock_range b n : layout b -> 0 <= n < sb_ninodes b ->
  sb_inodestart b <= IBLOCK n b < sb_bmapstart b.
Proof.
  intros Hly Hn. unfold IBLOCK. pose proof (ly_bmap _ Hly). unfold IPB in *. pose proof (Z.div_pos n 8).
  pose proof (Z.div_le_mono n (sb_ninodes b) 8). lia.
Qed.

Lemma iupdate_ok s v r ip p : at_ s v [] (1 + r) -> icache s !! ip = Some p -> i_dev p = ROOTDEV ->
  layout (sb s) -> 0 <= i_inum p < sb_ninodes (sb s) -> length (di_addrs (i_din p)) = (NDIRECT + 1)%nat ->
  exists s' x, iupdate ip s = Ret tt s' /\ same_meta s s' /\ v (IBLOCK (i_inum p) (sb s)) = Some x /\ length x = BSIZE /\
    at_ s' (upd_view v (IBLOCK (i_inum p) (sb s)) (splice (din_off (i_inum p)) (enc_dinode (i_din p)) x)) [] r /\
    sb_inodestart (sb s) <= IBLOCK (i_inum p) (sb s) < sb_bmapstart (sb s).
Proof.
  intros Ha Hp Hd Hly Hn Hl. set (c := IBLOCK (i_inum p) (sb s)).
  assert (Hc : sb_inodestart (sb s) <= c < sb_bmapstart (sb s)).
  { by apply iblock_range. }
  destruct Hly as [L1 L2 L3 L4 L5 L6 L7]. assert (0 <= sb_size (sb s) / BPB) by (apply Z.div_pos; unfold BPB; lia).
  destruct (update_block (dv s) v [] r c (splice (din_off (i_inum p)) (enc_dinode (i_din p))) Ha)
    as (i & d1 & x & d2 & d3 & d4 & E1 & E2 & E3 & E4 & E5 & Hx & Hlx & R4); [lia | apply L7; lia | apply not_elem_of_nil | cbn; lia | |].
  { intros y Hy. rewrite length_splice; [done |]. rewrite length_enc, Hy by done. apply din_off_ok. lia. }
  exists (mk_fs d4 (sb s) (icache s)), x. split_and!; try done; try lia.
  unfold iupdate. erewrite bind_ret by by apply get_ino_ret. erewrite bind_ret by done. rewrite Hd. fold c.
  erewrite bind_ret by (apply dev_ret; exact E1). erewrite bind_ret by (apply dev_ret; exact E2).
  erewrite bind_ret by (apply dev_ret; exact E3). erewrite bind_ret by (apply dev_ret; exact E4).
  by erewrite dev_ret by exact E5.
Qed.

(** Updating a block below the free map changes no file. *)
Lemma low_update b v c y p : layout b -> c < sb_bmapstart b -> wf_file b v p ->
  let v' := upd_view v c y in
  wf_file b v' p /\ fbytes v' p = fbytes v p /\ (forall i, (i < NMAX)%nat -> faddr v' p i = faddr v p i) /\
  (forall m, 0 <= m < sb_size b -> used b v' m = used b v m).
Proof.
  intros Hly Hc Hwf v'. assert (0 <= sb_size b / BPB) by (apply Z.div_pos; [destruct Hly; lia | unfold BPB; lia]).
  assert (Hu : forall m, 0 <= m < sb_size b -> used b v' m = used b v m).
  { intros m Hm. unfold used, v', upd_view. rewrite decide_False; [done |]. pose proof (bblock_range b m Hly Hm). lia. }
  assert (Hud : forall m, is_data b m -> used b v' m = used b v m).
  { intros m Hm. apply Hu. destruct (is_data_pos b m Hly Hm). lia. }
  assert (Hv : forall m, is_data b m -> v' m = v m).
  { intros m Hm. unfold v', upd_view. rewrite decide_False; [done |]. unfold is_data, datastart in Hm. lia. }
  assert (Hf : forall i, faddr v' p i = faddr v p i).
  { intros i. unfold faddr. destruct (i <? NDIRECT)%nat; [done |]. destruct (Z.eqb_spec (addr_of p NDIRECT) 0) as [| Hn]; [done |].
    destruct (wf_ind _ _ _ Hwf Hn). by rewrite Hv. }
  split_and!; try done.
  - destruct Hwf as [W1 W2 W3 W4 W5 W6]. split; try done.
    + intros i Hi. rewrite Hf. intros Hn. destruct (W3 i Hi Hn). by rewrite Hud.
    + intros Hn. destruct (W4 Hn). by rewrite Hud.
    + intros i j Hi Hj. rewrite !Hf. auto.
    + intros i Hi. rewrite Hf. auto.
  - unfold fbytes. f_equal. apply map_ext_in. intros i [_ Hi]%in_seq. unfold fblock. rewrite Hf.
    destruct (Z.eqb_spec (faddr v p i) 0) as [| Hn]; [done |]. destruct (wf_data _ _ _ Hwf i Hi Hn). by rewrite Hv.
Qed.

(** The size is not part of the block map. *)
Lemma wf_resize b v p n : wf_file b v p -> wf_file b v (set_din (set_size n (i_din p)) p).
Proof. intros []. by split. Qed.

(** The inode on disk is the one in memory. *)
Definition on_disk (b : superblock) (v : Z -> option blk) (p : inode) : Prop :=
  exists x, v (IBLOCK (i_inum p) b) = Some x /\ dec_dinode (din_off (i_inum p)) x = i_din p.

(** A regular file or directory, open, locked and well formed, inside a
    transaction with [r] log entries left. *)
Record file_at (s : fsst S) (v : Z -> option blk) (r ip : nat) (p : inode) : Prop := {
  fa_at : at_ s v [] r;
  fa_ino : icache s !! ip = Some p;
  fa_layout : layout (sb s);
  fa_meta : meta_used (sb s) v;
  fa_wf : wf_file (sb s) v p;
  fa_holes : no_holes v p;
  fa_type : di_type (i_din p) <> T_DEV;
  fa_size : 0 <= di_size (i_din p) <= MAXFILE * 512;
  fa_inum : 0 <= i_inum p < sb_ninodes (sb s);
  fa_disk : on_disk (sb s) v p
}.

(** A file that grew within bounds still fits its fields. *)
Lemma addrs_u32 b v p : layout b -> wf_file b v p -> Forall is_u32 (di_addrs (i_din p)).
Proof.
  intros Hly Hwf. apply Forall_lookup. intros k a Hk.
  assert (Ha : addr_of p k = a) by by apply nth_lookup_Some.
  pose proof (lookup_lt_Some _ _ _ Hk) as Hlt. rewrite (wf_len _ _ _ Hwf) in Hlt.
  destruct (decide (a = 0)) as [-> | Hn]; [unfold is_u32; lia |].
  assert (Hd : is_data b a).
  { destruct (decide (k = NDIRECT)) as [-> | Hne]; [rewrite <- Ha in *; by apply Hwf |].
    assert (Hf : faddr v p k = a) by (unfold faddr; destruct (Nat.ltb_spec k NDIRECT); [done | lia]).
    rewrite <- Hf in *. apply Hwf; [unfold NMAX, NDIRECT in *; lia | done]. }
  destruct (is_data_pos b a Hly Hd). pose proof (ly_big b Hly). unfold is_u32. lia.
Qed.

Lemma grown_ok b v v1 p p1 n l : layout b -> on_disk b v p -> wf_file b v1 p1 -> p1 = set_din (set_addrs l (i_din p)) p ->
  0 <= n <= MAXFILE * 512 -> din_ok (set_size n (i_din p1)).
Proof.
  intros Hly (x & _ & Hd) Hwf Hp Hn. pose proof (dec_ok (din_off (i_inum p)) x) as [? ? ? ? ? ? ?]. rewrite Hd in *.
  pose proof (addrs_u32 b v1 p1 Hly Hwf). pose proof (wf_len _ _ _ Hwf). subst p1. cbn in *.
  split; cbn; try done. unfold is_u32, MAXFILE in *. lia.
Qed.

(** [readi], with what it keeps of the caches. *)
Lemma readi_ok (s : fsst S) (v : Z -> option blk) (r ip : nat) (p : inode) (off n : Z)
  (Hf : file_at s v r ip p) (Hoff : 0 <= off <= di_size (i_din p)) (Hn : 0 <= n) (Hwrap : off + n < 2 ^ 32) :
  let k := Z.min n (di_size (i_din p) - off) in
  exists s', readi ip off n s = Ret (k, slice (Z.to_nat off) (Z.to_nat k) (fbytes v p)) s' /\ file_at s' v r ip p /\ same_meta s s'.
Proof.
  destruct Hf as [Ha Hp Hly Hm Hwf Hnh Ht Hs Hi Hod]. intros k. unfold readi. erewrite bind_ret by by apply get_ino_ret.
  destruct (Z.eqb_spec (di_type (i_din p)) T_DEV); [done |]. rewrite (u32_small (off + n)) by lia.
  destruct (Z.gtb_spec off (di_size (i_din p))); [lia |]. destruct (Z.ltb_spec (off + n) off); [lia |]. cbn [orb].
  assert (Hk : (if off + n >? di_size (i_din p) then di_size (i_din p) - off else n) = k).
  { unfold k. destruct (Z.gtb_spec (off + n) (di_size (i_din p))); lia. }
  rewrite Hk. destruct (readi_loop_ok (Datatypes.S (Z.to_nat k)) s v r ip p 0 off k) as (s' & E & [Hsb Hic] & Ha'); try done; try lia.
  erewrite bind_ret by exact E. rewrite Z.sub_0_r. exists s'. split.
  - rewrite s32_small by (unfold MAXFILE in *; lia). done.
  - split; [split; rewrite ?Hsb, ?Hic; done | done].
Qed.

(** A sum that overflows 32 bits is smaller than its parts. *)
Lemma sum_wraps off n : 0 <= off < 2 ^ 32 -> 0 <= n < 2 ^ 32 -> (u32 (off + n) <? off) = (2 ^ 32 <=? off + n).
Proof using.
  intros Ho Hn. unfold u32. destruct (Z.leb_spec (2 ^ 32) (off + n)) as [H | H].
  - replace (off + n) with (off + n - 2 ^ 32 + 1 * 2 ^ 32) by lia. rewrite Z.mod_add, Z.mod_small by lia. apply Z.ltb_lt. lia.
  - rewrite Z.mod_small by lia. apply Z.ltb_ge. lia.
Qed.

Lemma readi_fails (s : fsst S) (v : Z -> option blk) (r ip : nat) (p : inode) (off n : Z) (Hf : file_at s v r ip p)
  (Ho : 0 <= off < 2 ^ 32) (Hn : 0 <= n < 2 ^ 32) : ~ (off <= di_size (i_din p) /\ off + n < 2 ^ 32) -> readi ip off n s = Ret (-1, []) s.
Proof.
  destruct Hf as [Ha Hp Hly Hm Hwf Hnh Ht Hs Hi Hod]. intros Hbad. unfold readi. erewrite bind_ret by by apply get_ino_ret.
  destruct (Z.eqb_spec (di_type (i_din p)) T_DEV); [done |]. rewrite sum_wraps by done.
  destruct (Z.gtb_spec off (di_size (i_din p))); [done |]. by destruct (Z.leb_spec (2 ^ 32) (off + n)); [| lia].
Qed.

Lemma writei_fails (s : fsst S) (v : Z -> option blk) (r ip : nat) (p : inode) src (off n : Z) (Hf : file_at s v r ip p)
  (Ho : 0 <= off < 2 ^ 32) (Hn : 0 <= n < 2 ^ 32) : ~ (off <= di_size (i_din p) /\ off + n <= MAXFILE * 512) ->
  writei ip src off n s = Ret (-1) s.
Proof.
  destruct Hf as [Ha Hp Hly Hm Hwf Hnh Ht Hs Hi Hod]. intros Hbad. unfold writei. erewrite bind_ret by by apply get_ino_ret.
  destruct (Z.eqb_spec (di_type (i_din p)) T_DEV); [done |]. rewrite sum_wraps by done.
  destruct (Z.gtb_spec off (di_size (i_din p))); [done |]. destruct (Z.leb_spec (2 ^ 32) (off + n)); [done |]. cbn [orb].
  rewrite u32_small by lia. change (Z.of_nat BSIZE) with 512. by destruct (Z.gtb_spec (off + n) (MAXFILE * 512)); [| lia].
Qed.

(** C28. Reading: [readi] at an offset within the file returns the bytes of the
    file there, as many as were asked for or as there are to the end, and
    changes no block; at an offset past the end, or when the end of the range
    overflows, it returns -1 and changes nothing. *)
Theorem readi_spec (s : fsst S) (v : Z -> option blk) (r ip : nat) (p : inode) (off n : Z)
  (Hf : file_at s v r ip p) (Hoff : 0 <= off < 2 ^ 32) (Hn : 0 <= n < 2 ^ 32) :
  if decide (off <= di_size (i_din p) /\ off + n < 2 ^ 32) then
    let k := Z.min n (di_size (i_din p) - off) in
    exists s', readi ip off n s = Ret (k, slice (Z.to_nat off) (Z.to_nat k) (fbytes v p)) s' /\ file_at s' v r ip p
  else readi ip off n s = Ret (-1, []) s.
Proof.
  destruct (decide _) as [[Ho Hw] | Hbad]; [| by eapply readi_fails].
  destruct (readi_ok s v r ip p off n Hf ltac:(lia) ltac:(lia) Hw) as (s' & E & Hf' & _). by exists s'.
Qed.

(** [writei], with what it keeps of the caches and of the free blocks. *)
Lemma writei_ok (s : fsst S) (v : Z -> option blk) (r ip : nat) (p : inode) (src : list Z) (off n : Z) (K : nat)
  (Hf : file_at s v (6 * K + (1 + r)) ip p) (Hav : avail (sb s) v (2 * K))
  (Hoff : 0 <= off <= di_size (i_din p)) (Hn : 0 <= n <= Z.of_nat (length src))
  (Hmax : off + n <= MAXFILE * 512) (HK : touched off n <= Z.of_nat K) :
  exists s' v' p', writei ip src off n s = Ret n s' /\ file_at s' v' r ip p' /\
    sb s' = sb s /\ icache s' = <[ip := p']> (icache s) /\ (exists l z, p' = set_din (set_size z (set_addrs l (i_din p))) p) /\
    (forall k, avail (sb s) v (2 * K + k) -> avail (sb s) v' k) /\
    di_size (i_din p') = Z.max (di_size (i_din p)) (off + n) /\
    fbytes v' p' = splice (Z.to_nat off) (take (Z.to_nat n) src) (fbytes v p) /\
    (forall c, is_data (sb s) c -> used (sb s) v c = true -> c <> addr_of p NDIRECT ->
       (forall i, (i < NMAX)%nat -> c <> faddr v p i) -> v' c = v c).
Proof.
  destruct Hf as [Ha Hp Hly Hm Hwf Hnh Ht Hs Hi Hod]. unfold writei. erewrite bind_ret by by apply get_ino_ret.
  destruct (Z.eqb_spec (di_type (i_din p)) T_DEV); [done |]. unfold MAXFILE in *. rewrite (u32_small (off + n)) by lia.
  destruct (Z.gtb_spec off (di_size (i_din p))); [lia |]. destruct (Z.ltb_spec (off + n) off); [lia |]. cbn [orb].
  change (Z.of_nat BSIZE) with 512. destruct (Z.gtb_spec (off + n) (140 * 512)); [lia |].
  destruct (writei_loop_ok (Datatypes.S (Z.to_nat n)) s v (1 + r) ip p src 0 off n K) as (s1 & v1 & p1 & E1 & Hput & Ha1 & Hw & Havn);
    rewrite ?Z.sub_0_r; try done; try lia.
  pose proof (put_at_lookup _ _ _ _ _ Hp Hput) as Hp1. destruct Hput as [Hsb1 Hic1].
  erewrite bind_ret by exact E1. erewrite bind_ret by by apply get_ino_ret. rewrite !Z.sub_0_r in *.
  assert (Hsl : slice (Z.to_nat 0) (Z.to_nat n) src = take (Z.to_nat n) src) by done. rewrite Hsl in Hw.
  pose proof Hw as [W1 W2 W3 W4 W5 W6 W7 W8 [l W9] W10 W11 W12].
  assert (Hsame : i_inum p1 = i_inum p /\ di_type (i_din p1) = di_type (i_din p) /\ di_size (i_din p1) = di_size (i_din p)) by by rewrite W9.
  destruct Hsame as (S1 & S2 & S3).
  assert (Hn32 : s32 n = n) by (apply s32_small; lia).
  assert (Hlt : length (take (Z.to_nat n) src) = Z.to_nat n) by (rewrite length_take; lia).
  assert (Hnh1 : forall bn, Z.of_nat (bn * BSIZE) < Z.max (di_size (i_din p)) (off + n) -> faddr v1 p1 bn <> 0).
  { intros bn Hb. assert (Hbn : (bn < NMAX)%nat) by (unfold NMAX, BSIZE in *; lia).
    destruct (decide (Z.of_nat (bn * BSIZE) < di_size (i_din p))) as [Hlt1 | Hge].
    - rewrite W3; [by apply Hnh | done | by apply Hnh].
    - apply W4; [| unfold BSIZE in *; lia | lia]. intros E. rewrite E in Hlt. cbn [length] in Hlt. lia. }
  destruct (Z.gtb_spec (off + n) (di_size (i_din p1))) as [Hg | Hg]; cycle 1.
  - rewrite andb_false_r. erewrite bind_ret by done. rewrite Hn32. exists s1, v1, p1. split; [done |]. rewrite <- Hsb1 in *.
    split; [| split; [done | split; [done | split; [exists l, (di_size (i_din p)); rewrite W9; by destruct p as [? ? ? ? ? []] | split; [done | split; [lia | by split]]]]]]. split; try done; try (rewrite ?S1, ?S2, ?S3; done).
    + unfold at_ in *. eapply law_room; [| exact Ha1]. lia.
    + intros bn Hb. apply Hnh1. lia.
    + assert (p1 = p) as ->.
      { apply W12. intros i Hi1 Hi2. apply Hnh. rewrite Hlt in Hi2. lia. }
      destruct Hod as (x & Hx & Hdec). exists x. split; [| done]. rewrite W8; [done |].
      pose proof (iblock_range (sb s1) (i_inum p) Hly ltac:(lia)). lia.
  - destruct (Z.gtb_spec n 0); [| lia]. cbn [andb].
    set (p2 := set_din (set_size (off + n) (i_din p1)) p1).
    set (s2 := mk_fs (dv s1) (sb s1) (<[ip := p2]> (icache s1))).
    assert (Hp2 : icache s2 !! ip = Some p2) by (apply list_lookup_insert_eq; by eapply lookup_lt_Some).
    destruct (iupdate_ok s2 v1 r ip p2) as (s3 & x & E3 & [Hsb3 Hic3] & Hx & Hlx & Ha3 & Hc); try done.
    { cbn. apply W1. } { cbn. by rewrite Hsb1. } { cbn. by rewrite Hsb1, S1. } { cbn. apply W1. }
    erewrite bind_ret by (erewrite bind_ret by done; exact E3). rewrite Hn32.
    set (y := splice _ _ x) in *. set (c := IBLOCK _ _) in *.
    destruct (low_update (sb s) v1 c y p2) as (F1 & F2 & F3 & F4); [done | cbn in Hc; rewrite Hsb1 in Hc; lia | by apply wf_resize |].
    assert (Hsb : sb s3 = sb s) by (rewrite Hsb3; cbn; done).
    exists s3, (upd_view v1 c y), p2. split; [done |]. split; [| split; [done | split; [| split; [| split; [| split; [| split]]]]]].
    + split; rewrite ?Hsb; try done.
      * by rewrite Hic3.
      * intros m Hmm. pose proof (ly_data _ Hly). rewrite F4 by (unfold datastart in *; lia). by apply W7.
      * intros bn Hb. cbn in Hb. rewrite F3 by (unfold NMAX, BSIZE in *; lia). apply Hnh1. lia.
      * cbn. by rewrite S2.
      * cbn. unfold MAXFILE. lia.
      * cbn. by rewrite S1.
      * exists y. split; [unfold upd_view; cbn; by rewrite decide_True by (unfold c; cbn; by rewrite ?Hsb1) |].
        apply dec_enc; [| rewrite Hlx; apply din_off_ok; cbn; lia].
        apply (grown_ok (sb s) v v1 p p1 _ l); try done. unfold MAXFILE. lia.
    + rewrite Hic3. cbn. rewrite Hic1. apply list_insert_insert_eq.
    + unfold p2. rewrite W9. by exists l, (off + n).
    + intros k Hk. destruct (Havn k Hk) as (fl & L1 & L2 & L3). exists fl. split; [done |]. split; [done |].
      eapply Forall_impl; [exact L3 |]. intros m [Hm1 Hm2]. by rewrite F4.
    + cbn. lia.
    + rewrite F2. exact W2.
    + intros m Hmd Hu Hmi Hmf. unfold upd_view. rewrite decide_False; [by apply W5 |].
      unfold is_data, datastart in Hmd. cbn in Hc. rewrite Hsb1 in Hc.
      assert (0 <= sb_size (sb s) / BPB) by (apply Z.div_pos; [destruct Hly; lia | unfold BPB; lia]). lia.
Qed.

(** C3. Writing: [writei] of [n] bytes at an offset within the file, in a
    transaction with enough log entries (six per touched block and one for the
    inode) and with enough free blocks (two per touched block), writes exactly
    those bytes: afterwards the file reads as before with [src] spliced in at
    [off], its size is the larger of the old one and [off + n], its block map
    is still well formed, and no block in use by anything else has changed.
    An offset past the end of the file, or a range past the largest file (an
    overflow included), is refused with -1 and nothing changes. *)
Theorem writei_spec (s : fsst S) (v : Z -> option blk) (r ip : nat) (p : inode) (src : list Z) (off n : Z) (K : nat)
  (Hf : file_at s v (6 * K + (1 + r)) ip p) (Hav : avail (sb s) v (2 * K))
  (Hoff : 0 <= off < 2 ^ 32) (Hn : 0 <= n <= Z.of_nat (length src)) (Hn32 : n < 2 ^ 32) (HK : touched off n <= Z.of_nat K) :
  if decide (off <= di_size (i_din p) /\ off + n <= MAXFILE * 512) then
    exists s' v' p', writei ip src off n s = Ret n s' /\ file_at s' v' r ip p' /\
      di_size (i_din p') = Z.max (di_size (i_din p)) (off + n) /\
      fbytes v' p' = splice (Z.to_nat off) (take (Z.to_nat n) src) (fbytes v p) /\
      (forall c, is_data (sb s) c -> used (sb s) v c = true -> c <> addr_of p NDIRECT ->
         (forall i, (i < NMAX)%nat -> c <> faddr v p i) -> v' c = v c)
  else writei ip src off n s = Ret (-1) s.
Proof.
  destruct (decide _) as [[Ho Hmax] | Hbad]; [| eapply writei_fails; [exact Hf | done | lia | done]].
  destruct (writei_ok s v r ip p src off n K Hf Hav ltac:(lia) Hn Hmax HK) as (s' & v' & p' & E & Hf' & _ & _ & _ & _ & Hs & Hb & Hfr).
  by exists s', v', p'.
Qed.
End file.
