(* ===== verification/FsDir.v ===== *)
(** * FsDir: path names and directories of fs.c

    [skipelem] against the list of components of a path; [namecmp] and the name
    stored in an entry against the names they stand for; [dirlookup] and
    [dirlink] against the directory as a list of entries. *)

From Stdlib Require Import ZArith Lia.
From stdpp Require Import base numbers strings option list.
From S2P Require Import Prelude KString Bio Fs FsSpec FsFile.

(** ** Paths *)

(** A path split at every slash, and its nonempty parts. *)
Fixpoint split_path (path : list Z) : list (list Z) :=
  match path with
  | [] => [[]]
  | c :: path' =>
      if c =? slash then [] :: split_path path'
      else match split_path path' with
           | w :: ws => (c :: w) :: ws
           | [] => [[c]]
           end
  end.
Definition components (path : list Z) : list (list Z) := filter (.≠ []) (split_path path).

Lemma split_nonnil path : exists w ws, split_path path = w :: ws.
Proof. destruct path as [| c path]; cbn; [by eexists _, _ |]. destruct (c =? slash); [by eexists _, _ |]. destruct (split_path path); by eexists _, _. Qed.

Lemma components_slash path : components (slash :: path) = components path.
Proof. unfold components. change (split_path (slash :: path)) with ([] :: split_path path).
  by rewrite filter_cons_False by (intros H; by apply H). Qed.

Lemma components_skip path : components (skip_slashes path) = components path.
Proof.
  induction path as [| c path IH]; [done |]. cbn [skip_slashes]. destruct (Z.eqb_spec c slash) as [-> |]; [| done].
  by rewrite components_slash.
Qed.

Lemma skip_head path : match skip_slashes path with [] => True | c :: _ => c <> slash end.
Proof. induction path as [| c path IH]; cbn; [done |]. by destruct (Z.eqb_spec c slash). Qed.

Lemma skip_length path : (length (skip_slashes path) <= length path)%nat.
Proof. induction path as [| c path IH]; cbn; [done |]. destruct (c =? slash); cbn; lia. Qed.

Lemma split_elem s : split_path s = take (elem_len s) s :: tail (split_path s).
Proof.
  induction s as [| c s IH]; cbn; [done |]. destruct (Z.eqb_spec c slash); [done |].
  destruct (split_nonnil s) as (w & ws & E). rewrite E in *. cbn in IH. injection IH as Hw. cbn. by rewrite <- Hw.
Qed.

Lemma components_elem s : (0 < elem_len s)%nat ->
  components s = take (elem_len s) s :: components (drop (elem_len s) s).
Proof.
  intros Hl. unfold components. rewrite (split_elem s).
  assert (Hne : take (elem_len s) s <> []).
  { destruct s as [| x s]; [cbn in Hl; lia |]. by destruct (elem_len (x :: s)); [lia |]. }
  rewrite filter_cons_True by done. f_equal.
  clear Hl Hne. induction s as [| c s IH]; [done |]. cbn [split_path elem_len]. destruct (Z.eqb_spec c slash) as [-> |].
  - cbn [tail drop]. symmetry. apply components_slash.
  - destruct (split_nonnil s) as (w & ws & E). rewrite E in *. cbn [tail drop]. exact IH.
Qed.

Lemma elem_pos c s : c <> slash -> (0 < elem_len (c :: s))%nat.
Proof. intros H. cbn. destruct (Z.eqb_spec c slash); [done | lia]. Qed.
Lemma elem_le s : (elem_len s <= length s)%nat.
Proof. induction s as [| c s IH]; cbn; [done |]. destruct (c =? slash); cbn; lia. Qed.
Lemma elem_chars s : Forall (fun c => c <> slash) (take (elem_len s) s).
Proof. induction s as [| c s IH]; cbn; [done |]. destruct (Z.eqb_spec c slash); [done |]. by apply Forall_cons. Qed.

(** The name a buffer of [DIRSIZ] bytes holds: up to its terminator, if any. *)
Definition bname (buf : list Z) : list Z := cstr (take DIRSIZ buf).

Lemma cstr_app_nul xs rest : Forall (fun b => b <> 0) xs -> cstr (xs ++ 0 :: rest) = xs.
Proof. intros Hf. induction Hf as [| x xs Hx Hf IH]; cbn; [done |]. rewrite (proj2 (Z.eqb_neq _ _)) by done. by rewrite IH. Qed.
Lemma cstr_all xs : Forall (fun b => b <> 0) xs -> cstr xs = xs.
Proof. intros Hf. induction Hf as [| x xs Hx Hf IH]; cbn; [done |]. rewrite (proj2 (Z.eqb_neq _ _)) by done. by rewrite IH. Qed.

(** [skipelem] takes a path apart: on a path without components it returns
    0; otherwise the buffer then holds the first component, cut to 14
    characters, the path returned has the other components, starts with no
    slash and is shorter, so the loop of [namex] ends. *)
Theorem skipelem_components (path name : list Z) (Hname : length name = DIRSIZ) (Hpath : Forall (fun c => c <> 0) path) :
  match components path with
  | [] => skipelem path name = None
  | e :: es => exists path' name', skipelem path name = Some (path', name') /\
      components path' = es /\ bname name' = take DIRSIZ e /\ length name' = DIRSIZ /\
      (length path' < length path)%nat /\ Forall (fun c => c <> 0) path' /\ (path' = [] <-> es = [])
  end.
Proof.
  rewrite <- components_skip. unfold skipelem. pose proof (skip_head path) as Hh. pose proof (skip_length path) as Hl.
  assert (Hs : Forall (fun c => c <> 0) (skip_slashes path)).
  { clear -Hpath. induction Hpath as [| c path Hc Hp IH]; cbn; [done |]. destruct (c =? slash); [done | by apply Forall_cons]. }
  destruct (skip_slashes path) as [| c s] eqn:E; [done |]. clear E. set (p := c :: s) in *.
  pose proof (elem_pos c s Hh) as Hpos. fold p in Hpos. rewrite components_elem by done.
  pose proof (elem_le p) as Hle. set (n := elem_len p) in *.
  assert (He : Forall (fun b => b <> 0) (take n p)) by by apply Forall_take.
  exists (skip_slashes (drop n p)), (if (DIRSIZ <=? n)%nat then splice 0 (take DIRSIZ p) name else splice 0 (take n p ++ [0]) name).
  assert (Hrest : Forall (fun c => c <> 0) (skip_slashes (drop n p))).
  { assert (Hd : Forall (fun c => c <> 0) (drop n p)) by by apply Forall_drop. clear -Hd.
    induction Hd as [| x q Hx Hq IH]; cbn; [done |]. destruct (x =? slash); [done | by apply Forall_cons]. }
  split; [done |]. split; [apply components_skip |]. destruct (Nat.leb_spec DIRSIZ n) as [Hn | Hn].
  - assert (Hb : splice 0 (take DIRSIZ p) name = take DIRSIZ p).
    { unfold splice. rewrite take_0, Nat.add_0_l. cbn [app]. rewrite drop_ge; [by rewrite app_nil_r |]. rewrite length_take, Hname. lia. }
    rewrite Hb. split_and!.
    + unfold bname. rewrite !take_take, Nat.min_id. replace (DIRSIZ `min` n)%nat with DIRSIZ by lia.
      apply cstr_all. by apply Forall_take.
    + rewrite length_take. lia.
    + pose proof (skip_length (drop n p)). rewrite length_drop in *. lia.
    + done.
    + rewrite <- (components_skip (drop n p)). pose proof (skip_head (drop n p)) as Hh2.
      destruct (skip_slashes (drop n p)) as [| x q]; [done |]. split; [done |]. rewrite components_elem by by apply elem_pos. done.
  - assert (Hlt : length (take n p ++ [0]) = S n) by (rewrite length_app, length_take; change (length [0]) with 1%nat; lia).
    split_and!.
    + unfold bname, splice. rewrite take_0, <- app_assoc. cbn [app].
      rewrite (take_app_ge (take n p)) by (rewrite length_take; lia). rewrite length_take, Nat.min_l by lia.
      replace (DIRSIZ - n)%nat with (S (DIRSIZ - n - 1)) by lia. rewrite firstn_cons.
      rewrite cstr_app_nul by done. symmetry. apply take_ge. rewrite length_take. lia.
    + rewrite length_splice; [done | lia].
    + pose proof (skip_length (drop n p)). rewrite length_drop in *. lia.
    + done.
    + rewrite <- (components_skip (drop n p)). pose proof (skip_head (drop n p)) as Hh2.
      destruct (skip_slashes (drop n p)) as [| x q]; [done |]. split; [done |]. rewrite components_elem by by apply elem_pos. done.
Qed.

Lemma skipelem_components_witness :
  exists path' name', skipelem [47; 97; 47; 47; 98] (replicate 14 9) = Some (path', name') /\
    components path' = [[98]] /\ bname name' = [97].
Proof.
  pose proof (skipelem_components [47; 97; 47; 47; 98] (replicate 14 9)) as H.
  destruct H as (path' & name' & E & Hc & Hb & _).
  - reflexivity.
  - repeat (apply Forall_cons; split; [lia |]). apply Forall_nil. exact I.
  - exists path', name'. split; [exact E |]. split; [exact Hc | exact Hb].
Defined.

(** ** Names in buffers *)

(** A buffer from which [n] characters or a terminator can be read. *)
Definition covers (n : nat) (l : list Z) : Prop := (n <= length l)%nat \/ 0 ∈ l.

Lemma covers_cons n l : covers (S n) l -> exists b l', l = b :: l' /\ (b <> 0 -> covers n l').
Proof.
  destruct l as [| b l]; [intros [H | H]; [cbn in H; lia | by apply elem_of_nil in H] |].
  intros H. exists b, l. split; [done |]. intros Hb. destruct H as [H | H]; [left; cbn in H; lia |].
  right. apply elem_of_cons in H as [H | H]; [congruence | done].
Qed.
Lemma covers_app n a b : covers n a -> covers n (a ++ b).
Proof. intros [H | H]; [left; rewrite length_app; lia | right; apply elem_of_app; by left]. Qed.
Lemma cstr_covers n a b : covers n a -> cstr (take n (a ++ b)) = cstr (take n a).
Proof.
  revert a. induction n as [| n IH]; intros a Ha; [by rewrite !take_0 |].
  apply covers_cons in Ha as (x & a' & -> & Ha). cbn. destruct (Z.eqb_spec x 0); [done |]. f_equal. by apply IH, Ha.
Qed.

Lemma ld_drop (m : mem) p b l : drop p m = b :: l -> m !! p = Some b /\ drop (S p) m = l.
Proof.
  intros H. split.
  - rewrite <- (Nat.add_0_r p), <- lookup_drop, H. done.
  - replace (S p) with (p + 1)%nat by lia. by rewrite <- drop_drop, H.
Qed.

Lemma strncmp_names n p q (m : mem) : covers n (drop p m) -> covers n (drop q m) ->
  exists r, strncmp p q n m = Ret r m /\ (r = 0 <-> cstr (take n (drop p m)) = cstr (take n (drop q m))).
Proof.
  revert p q. induction n as [| n IH]; intros p q Hp Hq; cbn [strncmp].
  { exists 0. by rewrite !take_0. }
  apply covers_cons in Hp as (a & l1 & E1 & Hp). apply covers_cons in Hq as (b & l2 & E2 & Hq). rewrite E1, E2. cbn [take cstr firstn].
  apply ld_drop in E1 as [La D1]. apply ld_drop in E2 as [Lb D2]. erewrite bind_ret by by apply ld_ok.
  destruct (Z.eqb_spec a 0) as [-> | Ha].
  - erewrite bind_ret by by apply ld_ok. exists (0 - b). split; [done |]. destruct (Z.eqb_spec b 0); [split; [done | lia] | split; [lia | done]].
  - erewrite bind_ret by by apply ld_ok. destruct (Z.eqb_spec a b) as [<- | Hne].
    + destruct (Z.eqb_spec a 0); [done |]. destruct (IH (S p) (S q)) as (r & E & Hr); [by rewrite D1; auto | by rewrite D2; auto |].
      rewrite D1, D2 in Hr. exists r. split; [done |]. rewrite Hr. split; congruence.
    + exists (a - b). split; [done |]. destruct (Z.eqb_spec b 0); [split; [lia | done] | split; [lia | congruence]].
Qed.

(** [namecmp] is 0 exactly on equal names. *)
Lemma namecmp_ok s t : covers DIRSIZ s -> covers DIRSIZ t -> (namecmp s t = 0 <-> bname s = bname t).
Proof.
  intros Hs Ht. unfold namecmp.
  destruct (strncmp_names DIRSIZ 0 (length s) (s ++ t)) as (r & E & Hr).
  - rewrite drop_0. by apply covers_app.
  - by rewrite drop_app_length.
  - rewrite E, Hr, drop_0, drop_app_length. unfold bname. by rewrite cstr_covers.
Qed.

Definition pad (n : nat) (c : list Z) : list Z := c ++ replicate (n - length c) 0.

Lemma cstr_length n l : (length (cstr (take n l)) <= n)%nat.
Proof.
  revert l. induction n as [| n IH]; intros l; [by rewrite take_0 |]. destruct l as [| b l]; cbn; [lia |].
  destruct (b =? 0); cbn; [lia |]. specialize (IH l). lia.
Qed.
Lemma length_pad n l : length (pad n (cstr (take n l))) = n.
Proof. unfold pad. rewrite length_app, length_replicate. pose proof (cstr_length n l). lia. Qed.

Lemma bytes_insert (m : mem) i b : bytes m -> is_byte b -> bytes (<[i := b]> m).
Proof. intros Hm Hb. by apply Forall_insert. Qed.

(** [strncpy] of a name: its characters, then zeros. *)
Lemma strncpy_fill n s t (m : mem) : bytes m -> (s + n <= t)%nat -> (t <= length m)%nat -> covers n (drop t m) ->
  (r ← strncpy_copy s t n; stosb (fst r) 0 (snd r)) m = Ret tt (splice s (pad n (cstr (take n (drop t m)))) m).
Proof.
  revert s t m. induction n as [| n IH]; intros s t m Hm Hst Ht Hc.
  { erewrite bind_ret by done. rewrite take_0. cbn. by rewrite splice_nil. }
  apply covers_cons in Hc as (b & l & E & Hc). rewrite E. pose proof (ld_drop _ _ _ _ E) as [Lb D]. cbn [strncpy_copy].
  assert (Hb : is_byte b) by by eapply bytes_lookup.
  assert (Hlt : (s < length m)%nat) by (apply lookup_lt_Some in Lb; lia).
  assert (E1 : forall k : nat * nat -> M mem unit, ((c ← ld t; st s c;; if c =? 0 then mret (S s, n) else strncpy_copy (S s) (S t) n) ≫= k) m =
    ((if b =? 0 then mret (S s, n) else strncpy_copy (S s) (S t) n) ≫= k) (<[s := b]> m)).
  { intros k. unfold mbind, M_bind. rewrite (ld_ok _ _ _ Lb). rewrite st_ok by done. by rewrite u8_byte. }
  rewrite E1. cbn [take firstn cstr]. destruct (Z.eqb_spec b 0) as [-> | Hn].
  - erewrite bind_ret by done. cbn [fst snd]. rewrite stosb_ok by (rewrite length_insert; apply lookup_lt_Some in Lb; lia).
    unfold pad. cbn [length app]. rewrite Nat.sub_0_r. change (u8 0) with 0. cbn [replicate].
    rewrite splice_cons; [done |]. rewrite length_replicate. apply lookup_lt_Some in Lb. lia.
  - assert (D' : drop (S t) (<[s := b]> m) = l) by (rewrite drop_insert_lt by lia; exact D).
    rewrite IH; rewrite ?length_insert, ?D'; try (by apply bytes_insert); try lia; [| apply lookup_lt_Some in Lb; lia | auto].
    f_equal. unfold pad. cbn [length app]. replace (S n - S (length (cstr (take n l))))%nat with (n - length (cstr (take n l)))%nat by lia.
    rewrite splice_cons; [done |]. fold (pad n (cstr (take n l))). rewrite length_pad. apply lookup_lt_Some in Lb. lia.
Qed.

Lemma entry_name_ok name : bytes name -> covers DIRSIZ name -> entry_name name = pad DIRSIZ (bname name).
Proof.
  intros Hb Hc. unfold entry_name, strncpy. change (Z.to_nat (Z.of_nat DIRSIZ)) with DIRSIZ.
  assert (Hd : drop DIRSIZ (replicate DIRSIZ 0 ++ name) = name) by (by rewrite drop_app_length'; [| rewrite length_replicate]).
  pose proof (strncpy_fill DIRSIZ 0 DIRSIZ (replicate DIRSIZ 0 ++ name)) as H. rewrite Hd in H.
  apply (bind_seq _ _ (fun _ => mret 0%nat)) in H.
  - rewrite H. cbn [mret M_ret]. unfold splice. rewrite take_0. cbn [app Nat.add].
    rewrite length_pad, Hd. unfold bname. apply take_app_length'. symmetry. apply length_pad.
  - apply Forall_app. split; [| done]. apply Forall_replicate. unfold is_byte. lia.
  - lia.
  - rewrite length_app, length_replicate. lia.
  - done.
Qed.

Lemma cstr_nonzero l : Forall (fun b => b <> 0) (cstr l).
Proof. induction l as [| b l IH]; cbn; [done |]. destruct (Z.eqb_spec b 0); [done |]. by apply Forall_cons. Qed.

Lemma bname_pad name : bname (pad DIRSIZ (bname name)) = bname name.
Proof.
  unfold bname at 1. rewrite take_ge by (unfold bname; rewrite length_pad; lia). unfold pad.
  pose proof (cstr_nonzero (take DIRSIZ name)) as Hf. fold (bname name) in Hf.
  destruct (DIRSIZ - length (bname name))%nat; cbn [replicate]; [rewrite app_nil_r; by apply cstr_all | by apply cstr_app_nul].
Qed.

(** ** Directories *)
Section dir.
Context {S : Type} {B : BlockDev S} {D : BlockDevOk S} {V : Devices S}.

(** The entries of a directory, in order. *)
Definition dirent_at (v : Z -> option blk) (p : inode) (k : nat) : list Z := slice (16 * k) 16 (fbytes v p).
Definition nents (p : inode) : nat := Z.to_nat (di_size (i_din p) / 16).
Definition dents (v : Z -> option blk) (p : inode) : list (list Z) := map (dirent_at v p) (seq 0 (nents p)).

Definition ent_match (name de : list Z) : bool := negb (de_inum de =? 0) && bool_decide (bname name = bname (de_name de)).
(** The entry of a name: its index and inode number. *)
Definition dir_find (v : Z -> option blk) (p : inode) (name : list Z) : option (nat * Z) :=
  (fun k => (k, de_inum (dirent_at v p k))) <$> find_index (ent_match name) (dents v p).

(** A directory open and locked in a transaction. *)
Record dir_at (s : fsst S) (v : Z -> option blk) (r dp : nat) (p : inode) : Prop := {
  da_file : file_at s v r dp p;
  da_type : di_type (i_din p) = T_DIR;
  da_size : di_size (i_din p) mod 16 = 0
}.

Lemma dents_lookup v p k : (k < nents p)%nat -> dents v p !! k = Some (dirent_at v p k).
Proof. intros. unfold dents. by rewrite list_lookup_fmap, lookup_seq_lt by done. Qed.
Lemma length_dents v p : length (dents v p) = nents p.
Proof. unfold dents. by rewrite length_map, length_seq. Qed.

Lemma dir_size s v r dp p : dir_at s v r dp p -> di_size (i_din p) = Z.of_nat (16 * nents p) /\ (nents p <= 4480)%nat.
Proof.
  intros [Hf _ Hm]. unfold nents. pose proof (fa_size _ _ _ _ _ Hf). unfold MAXFILE in *.
  pose proof (Z.div_mod (di_size (i_din p)) 16 ltac:(lia)). assert (0 <= di_size (i_din p) / 16) by (apply Z.div_pos; lia). lia.
Qed.

Lemma fbytes_len s v r dp p : file_at s v r dp p -> length (fbytes v p) = (NMAX * BSIZE)%nat.
Proof. intros []. eapply (length_fbytes (sb s)); [done | by eapply at_blocks | done]. Qed.

Lemma dirent_len s v r dp p k : dir_at s v r dp p -> (k < nents p)%nat -> length (dirent_at v p k) = 16%nat.
Proof.
  intros Hd Hk. destruct (dir_size _ _ _ _ _ Hd) as [_ Hn]. unfold dirent_at. apply length_slice.
  rewrite (fbytes_len _ _ _ _ _ (da_file _ _ _ _ _ Hd)). unfold NMAX, BSIZE. lia.
Qed.

(** Reading entry [k]. *)
Lemma read_entry s v r dp p k : dir_at s v r dp p -> (k < nents p)%nat ->
  exists s', readi dp (Z.of_nat (16 * k)) 16 s = Ret (16, dirent_at v p k) s' /\ dir_at s' v r dp p /\ same_meta s s'.
Proof.
  intros Hd Hk. destruct (dir_size _ _ _ _ _ Hd) as [Hs Hn].
  destruct (readi_ok s v r dp p (Z.of_nat (16 * k)) 16 (da_file _ _ _ _ _ Hd)) as (s' & E & Hf & Hsm); [lia.. |].
  rewrite Z.min_l in E by lia. exists s'. split; [rewrite E; unfold dirent_at; do 3 f_equal; lia |]. split; [| done].
  destruct Hd. by split.
Qed.

Lemma drop_dents v p k : (k < nents p)%nat -> drop k (dents v p) = dirent_at v p k :: drop (Datatypes.S k) (dents v p).
Proof. intros. by erewrite drop_S by by apply dents_lookup. Qed.

Lemma covers_name s v r dp p k : dir_at s v r dp p -> (k < nents p)%nat -> covers DIRSIZ (de_name (dirent_at v p k)).
Proof.
  intros Hd Hk. left. unfold de_name. rewrite length_slice; [done |]. rewrite (dirent_len s v r dp p k Hd Hk). unfold DIRSIZ. lia.
Qed.

Lemma get_dir s v r dp p : dir_at s v r dp p -> get_ino dp s = Ret p s.
Proof. intros Hd. apply get_ino_ret. by destruct Hd as [[] _ _]. Qed.

Lemma dirlookup_loop_ok fuel s v r dp p name k : dir_at s v r dp p -> covers DIRSIZ name -> (k <= nents p)%nat ->
  (nents p - k < fuel)%nat ->
  exists s', dirlookup_loop fuel dp name (Z.of_nat (16 * k)) s =
      Ret ((fun i => (Z.of_nat (16 * (k + i)), de_inum (dirent_at v p (k + i)))) <$> find_index (ent_match name) (drop k (dents v p))) s' /\
    dir_at s' v r dp p /\ same_meta s s'.
Proof.
  intros Hd Hc. revert s k Hd. induction fuel as [| fuel IH]; intros s k Hd Hk Hf; [lia |]. cbn [dirlookup_loop].
  erewrite bind_ret by by eapply get_dir. destruct (dir_size _ _ _ _ _ Hd) as [Hs Hn].
  destruct (Z.ltb_spec (Z.of_nat (16 * k)) (di_size (i_din p))).
  2: { exists s. rewrite drop_ge by (rewrite length_dents; lia). by split. }
  assert (Hlt : (k < nents p)%nat) by lia.
  destruct (read_entry s v r dp p k Hd Hlt) as (s1 & E1 & Hd1 & Hsm1). erewrite bind_ret by exact E1. cbn [fst snd].
  rewrite Z.eqb_refl. cbn [negb]. rewrite (drop_dents v p k Hlt). cbn [find_index].
  pose proof (covers_name _ _ _ _ _ _ Hd Hlt) as Hcn. pose proof (namecmp_ok name _ Hc Hcn) as Hnc.
  destruct (IH s1 (Datatypes.S k) Hd1) as (s2 & E2 & Hd2 & Hsm2); [lia.. |].
  replace (Z.of_nat (16 * Datatypes.S k)) with (Z.of_nat (16 * k) + 16) in E2 by lia.
  assert (Hstep : forall o, (fun i => (Z.of_nat (16 * (k + i)), de_inum (dirent_at v p (k + i)))) <$> (Datatypes.S <$> o) =
                 (fun i => (Z.of_nat (16 * (Datatypes.S k + i)), de_inum (dirent_at v p (Datatypes.S k + i)))) <$> (o : option nat)).
  { intros [i |]; [| done]. cbn [fmap option_fmap option_map]. by replace (k + Datatypes.S i)%nat with (Datatypes.S k + i)%nat by lia. }
  assert (Hsm : same_meta s s2) by (destruct Hsm1, Hsm2; split; congruence).
  unfold ent_match at 1. destruct (Z.eqb_spec (de_inum (dirent_at v p k)) 0) as [H0 | H0]; cbn [negb andb].
  { exists s2. rewrite E2, Hstep. by split. }
  destruct (Z.eqb_spec (namecmp name (de_name (dirent_at v p k))) 0) as [Hm | Hm].
  - rewrite bool_decide_true by by apply Hnc. exists s1. cbn [fmap option_fmap option_map]. rewrite Nat.add_0_r. by split.
  - rewrite bool_decide_false by (intros E; by apply Hm, Hnc). exists s2. rewrite E2, Hstep. by split.
Qed.

(** [dirlookup] finds the first entry of the name. *)
Lemma dirlookup_ok s v r dp p name : dir_at s v r dp p -> covers DIRSIZ name ->
  exists s', dir_at s' v r dp p /\ same_meta s s' /\
    dirlookup dp name s = match dir_find v p name with
                          | Some (k, inum) => (ip ← iget ROOTDEV inum; mret (Some (ip, Z.of_nat (16 * k)))) s'
                          | None => Ret None s'
                          end.
Proof.
  intros Hd Hc. destruct (dirlookup_loop_ok (dir_fuel p) s v r dp p name 0 Hd Hc) as (s' & E & Hd' & Hsm); [lia | |].
  { destruct (dir_size _ _ _ _ _ Hd) as [Hs Hn]. unfold dir_fuel, nents in *. lia. }
  exists s'. split; [done |]. split; [done |]. unfold dirlookup. erewrite bind_ret by by eapply get_dir.
  rewrite (da_type _ _ _ _ _ Hd). cbn [Z.eqb negb T_DIR Pos.eqb]. erewrite bind_ret by exact E.
  rewrite drop_0. unfold dir_find. rewrite (wf_dev _ _ _ (fa_wf _ _ _ _ _ (da_file _ _ _ _ _ Hd))).
  by destruct (find_index (ent_match name) (dents v p)).
Qed.

(** The first free entry, or the end. *)
Lemma dirlink_loop_ok fuel s v r dp p k : dir_at s v r dp p -> (k <= nents p)%nat -> (nents p - k < fuel)%nat ->
  exists s' j, dirlink_loop fuel dp (Z.of_nat (16 * k)) s = Ret (Z.of_nat (16 * j)) s' /\ dir_at s' v r dp p /\ same_meta s s' /\
    (k <= j <= nents p)%nat /\ ((j < nents p)%nat -> de_inum (dirent_at v p j) = 0).
Proof.
  intros Hd. revert s k Hd. induction fuel as [| fuel IH]; intros s k Hd Hk Hf; [lia |]. cbn [dirlink_loop].
  erewrite bind_ret by by eapply get_dir. destruct (dir_size _ _ _ _ _ Hd) as [Hs Hn].
  destruct (Z.ltb_spec (Z.of_nat (16 * k)) (di_size (i_din p))).
  2: { exists s, k. split; [done |]. split; [done |]. split; [done |]. split; [lia |]. lia. }
  assert (Hlt : (k < nents p)%nat) by lia.
  destruct (read_entry s v r dp p k Hd Hlt) as (s1 & E1 & Hd1 & Hsm1). erewrite bind_ret by exact E1. cbn [fst snd].
  rewrite Z.eqb_refl. cbn [negb]. destruct (Z.eqb_spec (de_inum (dirent_at v p k)) 0) as [H0 | H0].
  { exists s1, k. split; [done |]. split; [done |]. split; [done |]. split; [lia | done]. }
  destruct (IH s1 (Datatypes.S k) Hd1) as (s2 & j & E2 & Hd2 & Hsm2 & Hj & Hz); [lia.. |].
  exists s2, j. rewrite <- E2. split; [f_equal; lia |]. split; [done |]. split; [destruct Hsm1, Hsm2; split; congruence |]. split; [lia | done].
Qed.

(** The entry [dirlink] writes. *)
Definition entry (name : list Z) (inum : Z) : list Z := le_bytes 2 inum ++ pad DIRSIZ (bname name).

Lemma entry_len name inum : length (entry name inum) = 16%nat.
Proof. unfold entry, bname. by rewrite length_app, length_le_bytes, length_pad. Qed.
Lemma entry_inum name inum : 0 <= inum < 2 ^ 16 -> de_inum (entry name inum) = inum.
Proof.
  intros H. unfold de_inum, ushort_at, entry. rewrite slice_head by apply length_le_bytes. rewrite le_val_bytes.
  change (256 ^ Z.of_nat 2) with (2 ^ 16). by apply Z.mod_small.
Qed.
Lemma entry_de_name name inum : de_name (entry name inum) = pad DIRSIZ (bname name).
Proof.
  unfold de_name, entry. rewrite slice_skip by (rewrite length_le_bytes; lia). rewrite length_le_bytes.
  apply slice_all. unfold bname. apply length_pad.
Qed.

Lemma entry_match nm name inum : 0 < inum < 2 ^ 16 -> ent_match nm (entry name inum) = bool_decide (bname nm = bname name).
Proof.
  intros H. unfold ent_match. rewrite entry_inum by lia. destruct (Z.eqb_spec inum 0); [lia |]. cbn [negb andb].
  by rewrite entry_de_name, bname_pad.
Qed.

(** A directory with entry [j] replaced or added. *)
Lemma dents_after s v r dp p s' v' r' p' j e : dir_at s v r dp p -> file_at s' v' r' dp p' -> (j <= nents p)%nat -> length e = 16%nat ->
  di_size (i_din p') = Z.max (di_size (i_din p)) (Z.of_nat (16 * j) + 16) -> (nents p < 4480)%nat ->
  fbytes v' p' = splice (16 * j) e (fbytes v p) ->
  nents p' = Nat.max (nents p) (Datatypes.S j) /\ dents v' p' !! j = Some e /\
  (forall k, k <> j -> dents v' p' !! k = dents v p !! k).
Proof.
  intros Hd Hf Hj He Hs' Hn Hb. destruct (dir_size _ _ _ _ _ Hd) as [Hs _].
  assert (Hlen : length (fbytes v p) = (NMAX * BSIZE)%nat) by by eapply fbytes_len, Hd.
  assert (Hn' : nents p' = Nat.max (nents p) (Datatypes.S j)).
  { unfold nents at 1. rewrite Hs', Hs. destruct (decide (j < nents p)%nat).
    - rewrite Z.max_l by lia. replace (Z.of_nat (16 * nents p)) with (Z.of_nat (nents p) * 16) by lia. rewrite Z.div_mul by lia. lia.
    - rewrite Z.max_r by lia. replace (Z.of_nat (16 * j) + 16) with (Z.of_nat (Datatypes.S j) * 16) by lia. rewrite Z.div_mul by lia. lia. }
  assert (Hat : forall k, (k < 4480)%nat -> dirent_at v' p' k = if decide (k = j) then e else dirent_at v p k).
  { intros k Hk. unfold dirent_at. rewrite Hb. destruct (decide (k = j)) as [-> | Hne].
    - pose proof (slice_splice (16 * j) e (fbytes v p)) as H. rewrite He, Hlen in H. apply H. unfold NMAX, BSIZE. lia.
    - destruct (decide (k < j)%nat).
      + apply slice_splice_before; rewrite ?Hlen; unfold NMAX, BSIZE; lia.
      + apply slice_splice_after; rewrite ?Hlen; unfold NMAX, BSIZE; lia. }
  split; [done |]. split.
  - rewrite dents_lookup by lia. rewrite Hat by lia. by rewrite decide_True.
  - intros k Hk. destruct (decide (k < nents p')%nat).
    + rewrite !dents_lookup by lia. rewrite Hat by lia. by rewrite decide_False.
    + by rewrite !lookup_ge_None_2 by (rewrite length_dents; lia).
Qed.

Lemma find_index_dir v p name o : find_index (ent_match name) (dents v p) = o ->
  dir_find v p name = (fun k => (k, de_inum (dirent_at v p k))) <$> o.
Proof. unfold dir_find. by intros ->. Qed.

Lemma dirlink_ok s v r dp p name inum :
  dir_at s v (6 * 1 + (1 + r)) dp p -> bytes name -> covers DIRSIZ name -> 0 < inum < 2 ^ 16 ->
  avail (sb s) v 2 -> (nents p < 4480)%nat -> dir_find v p name = None ->
  exists s' v' p' j, dirlink dp name inum s = Ret 0 s' /\ dir_at s' v' r dp p' /\
    (forall nm, dir_find v' p' nm = if decide (bname nm = bname name) then Some (j, inum) else dir_find v p nm).
Proof.
  intros Hd Hby Hc Hin Hav Hn Hno.
  destruct (dirlookup_ok s v _ dp p name Hd Hc) as (s1 & Hd1 & [Hsb1 Hic1] & E1). rewrite Hno in E1.
  destruct (dirlink_loop_ok (dir_fuel p) s1 v _ dp p 0 Hd1) as (s2 & j & E2 & Hd2 & [Hsb2 Hic2] & Hj & Hz); [lia | |].
  { destruct (dir_size _ _ _ _ _ Hd) as [Hs _]. unfold dir_fuel, nents in *. lia. }
  destruct (dir_size _ _ _ _ _ Hd) as [Hs _]. set (e := entry name inum).
  assert (Hlen16 : length e = 16%nat) by apply entry_len.
  destruct (writei_ok s2 v r dp p e (Z.of_nat (16 * j)) 16 1 (da_file _ _ _ _ _ Hd2))
    as (s3 & v3 & p3 & E3 & Hf3 & _ & _ & (l3 & z3 & Hp3) & _ & Hs3 & Hb3 & _).
  { by rewrite Hsb2, Hsb1. } { lia. } { rewrite Hlen16. lia. } { unfold MAXFILE. lia. }
  { unfold touched. destruct (Z.leb_spec 16 0); [lia |].
    assert ((Z.of_nat (16 * j) + 16 - 1) / 512 < Z.of_nat (16 * j) / 512 + 1); [| lia].
    apply Z.div_lt_upper_bound; [lia |]. replace (Z.of_nat (16 * j)) with (Z.of_nat j * 16) by lia.
    change 512 with (32 * 16). rewrite Z.div_mul_cancel_r by lia.
    pose proof (Z.div_mod (Z.of_nat j) 32). pose proof (Z.mod_pos_bound (Z.of_nat j) 32). lia. }
  rewrite Nat2Z.id in Hb3. change (Z.to_nat 16) with 16%nat in Hb3. rewrite take_ge in Hb3 by lia.
  destruct (dents_after s v _ dp p s3 v3 r p3 j e Hd Hf3 ltac:(lia) Hlen16 Hs3 Hn Hb3) as (Hn3 & Hej & Hother).
  assert (Hold : forall nm x, dents v p !! j = Some x -> ent_match nm x = false).
  { intros nm x Hx. pose proof (lookup_lt_Some _ _ _ Hx) as Hlt. rewrite length_dents in Hlt. rewrite dents_lookup in Hx by done.
    injection Hx as <-. unfold ent_match. by rewrite Hz. }
  assert (Hsame : forall k, (k < nents p)%nat -> k <> j -> dirent_at v3 p3 k = dirent_at v p k).
  { intros k Hk Hne. specialize (Hother k Hne). rewrite !dents_lookup in Hother by lia. congruence. }
  exists s3, v3, p3, j. split; [| split].
  - unfold dirlink. erewrite bind_ret by exact E1. cbv iota. erewrite bind_ret by by eapply get_dir.
    change 0 with (Z.of_nat (16 * 0)) at 2. erewrite bind_ret by exact E2.
    rewrite entry_name_ok by done. fold (entry name inum). fold e. erewrite bind_ret by exact E3. done.
  - split; [done | |].
    + rewrite Hp3. exact (da_type _ _ _ _ _ Hd).
    + destruct (dir_size _ _ _ _ _ Hd) as [Hs' _]. rewrite Hs3, Hs'. destruct (decide (j < nents p)%nat).
      * rewrite Z.max_l by lia. replace (Z.of_nat (16 * nents p)) with (Z.of_nat (nents p) * 16) by lia. by rewrite Z.mod_mul.
      * rewrite Z.max_r by lia. replace (Z.of_nat (16 * j) + 16) with (Z.of_nat (Datatypes.S j) * 16) by lia. by rewrite Z.mod_mul.
  - intros nm. destruct (find_index_change (ent_match nm) (dents v p) (dents v3 p3) j e Hej Hother (Hold nm)) as [F1 F2].
    unfold e in F1, F2. rewrite entry_match in F1, F2 by done. destruct (decide (bname nm = bname name)) as [Eq | Ne].
    + assert (Hnone : find_index (ent_match nm) (dents v p) = None).
      { unfold dir_find in Hno. apply fmap_None in Hno. unfold ent_match in *. by rewrite Eq. }
      rewrite (find_index_dir v3 p3 nm _ (F2 (bool_decide_eq_true_2 _ Eq) Hnone)). cbn [fmap option_fmap option_map].
      rewrite dents_lookup in Hej by lia. injection Hej as ->. unfold e. by rewrite entry_inum by lia.
    + rewrite (find_index_dir v3 p3 nm _ (F1 (bool_decide_eq_false_2 _ Ne))). unfold dir_find.
      destruct (find_index (ent_match nm) (dents v p)) as [k |] eqn:Ek; [| done]. cbn [fmap option_fmap option_map].
      apply find_index_Some in Ek as [(x & Hx & Hpx) _]. pose proof (lookup_lt_Some _ _ _ Hx) as Hlt. rewrite length_dents in Hlt.
      rewrite Hsame; [done | done |]. intros ->. by rewrite (Hold nm x Hx) in Hpx.
Qed.

(** C6. Linking a name and looking names up: [dirlink] of a new name into a
    directory with room returns 0 and leaves a well-formed directory in which
    [dirlookup] of that name, and of every buffer that holds the same first 14
    characters, finds the inode number given, while every other name is found
    at the entry where it was, or not found as before. *)
Theorem dirlink_then_lookup (s : fsst S) (v : Z -> option blk) (r dp : nat) (p : inode) (name : list Z) (inum : Z)
  (Hd : dir_at s v (6 * 1 + (1 + r)) dp p) (Hby : bytes name) (Hc : covers DIRSIZ name) (Hin : 0 < inum < 2 ^ 16)
  (Hav : avail (sb s) v 2) (Hn : (nents p < 4480)%nat) (Hno : dir_find v p name = None) :
  exists s' v' p' j, dirlink dp name inum s = Ret 0 s' /\ dir_at s' v' r dp p' /\
    forall nm, covers DIRSIZ nm -> exists s'', dir_at s'' v' r dp p' /\ same_meta s' s'' /\
      dirlookup dp nm s' =
        match (if decide (bname nm = bname name) then Some (j, inum) else dir_find v p nm) with
        | Some (k, i) => (ip ← iget ROOTDEV i; mret (Some (ip, Z.of_nat (16 * k)))) s''
        | None => Ret None s''
        end.
Proof.
  destruct (dirlink_ok s v r dp p name inum Hd Hby Hc Hin Hav Hn Hno) as (s' & v' & p' & j & E & Hd' & Hf).
  exists s', v', p', j. split; [done |]. split; [done |]. intros nm Hnm.
  destruct (dirlookup_ok s' v' r dp p' nm Hd' Hnm) as (s'' & Hd'' & Hsm & E'). exists s''. by rewrite <- Hf.
Qed.
End dir.
