(* ===== verification/Syscall.v ===== *)
(** * Syscall: project3/xv6-modified/{syscall.c,syscall.h}, system call arguments

    The arguments of a system call lie on the user stack, and the pointers among
    them point into user memory.  A process of size [sz] has the user memory
    [u_mem] of [sz] bytes, addressed from 0; [u_esp] and [u_eax] are the saved
    registers.  A function that returns -1, or stores through its pointer
    argument and returns, is a function to [option]. *)

From Stdlib Require Import ZArith Lia.
From stdpp Require Import base numbers strings option list.
From S2P Require Import Prelude.

Record user := mk_user { u_mem : list Z; u_esp : Z; u_eax : Z }.

Definition u_sz (u : user) : Z := Z.of_nat (length (u_mem u)).
Definition KERNBASE : Z := 2 ^ 31.

Definition fetchint (addr : Z) (u : user) : option Z :=
  if (addr >=? u_sz u) || (u32 (addr + 4) >? u_sz u) then None
  else Some (int32_val (slice (Z.to_nat addr) 4 (u_mem u))).

(** [for(s = *pp; s < ep; s++) if( *s == 0 ) return s - *pp;] *)
Fixpoint scan_nul (mem : list Z) (n : Z) : option Z :=
  match mem with
  | [] => None
  | b :: mem' => if b =? 0 then Some n else scan_nul mem' (n + 1)
  end.

(** The pointer stored and the length returned. *)
Definition fetchstr (addr : Z) (u : user) : option (Z * Z) :=
  if addr >=? u_sz u then None
  else n ← scan_nul (drop (Z.to_nat addr) (u_mem u)) 0; Some (addr, n).

Definition argint (n : Z) (u : user) : option Z := fetchint (u32 (u_esp u + 4 + 4 * n)) u.

Definition argptr (n size : Z) (u : user) : option Z :=
  i ← argint n u;
  if (size <? 0) || (u32 i >=? u_sz u) || (u32 (u32 i + size) >? u_sz u) then None
  else Some (u32 i).

Definition argstr (n : Z) (u : user) : option (Z * Z) :=
  addr ← argint n u; fetchstr (u32 addr) u.

(** The characters of a string the kernel was given. *)
Definition ustr (r : Z * Z) (u : user) : list Z := slice (Z.to_nat r.1) (Z.to_nat r.2) (u_mem u).

(** ** Dispatch *)
Inductive sysname :=
| sys_fork | sys_exit | sys_wait | sys_pipe | sys_read | sys_kill | sys_exec | sys_fstat
| sys_chdir | sys_dup | sys_getpid | sys_sbrk | sys_sleep | sys_uptime | sys_open | sys_write
| sys_mknod | sys_unlink | sys_link | sys_mkdir | sys_close | sys_hello | sys_hello_name
| sys_get_num_proc | sys_get_max_pid | sys_get_proc_info | sys_get_prio | sys_set_prio.
#[export] Instance sysname_eq_dec : EqDecision sysname.
Proof. solve_decision. Defined.

(** [syscalls[]]; entry 0 is not initialised. *)
Definition syscalls : list (option sysname) :=
  [None; Some sys_fork; Some sys_exit; Some sys_wait; Some sys_pipe; Some sys_read; Some sys_kill;
   Some sys_exec; Some sys_fstat; Some sys_chdir; Some sys_dup; Some sys_getpid; Some sys_sbrk;
   Some sys_sleep; Some sys_uptime; Some sys_open; Some sys_write; Some sys_mknod; Some sys_unlink;
   Some sys_link; Some sys_mkdir; Some sys_close; Some sys_hello; Some sys_hello_name;
   Some sys_get_num_proc; Some sys_get_max_pid; Some sys_get_proc_info; Some sys_get_prio;
   Some sys_set_prio].

(** The system call that number [num] runs. *)
Definition sysfun (num : Z) : option sysname :=
  if (num >? 0) && (num <? Z.of_nat (length syscalls))
  then default None (syscalls !! Z.to_nat num) else None.

(** [syscall] for a state that holds the registers, with the functions of
    sysproc.c and sysfile.c as argument. *)
Definition syscall {S : Type} (eax : S -> Z) (set_eax : Z -> S -> S) (run : sysname -> M S Z) : M S unit :=
  num ← gets eax;
  match sysfun num with
  | Some f => r ← run f; modify (set_eax r)
  | None => modify (set_eax (-1))
  end.

(** ** What the kernel may rely on *)
Lemma scan_nul_ok mem n r : scan_nul mem n = Some r ->
  n <= r < n + Z.of_nat (length mem) /\ mem !! Z.to_nat (r - n) = Some 0 /\
  (forall k, (k < Z.to_nat (r - n))%nat -> exists b, mem !! k = Some b /\ b <> 0).
Proof.
  revert n. induction mem as [| b mem IH]; intros n; cbn [scan_nul length]; [done |].
  destruct (Z.eqb_spec b 0) as [-> | Hb].
  - intros [= <-]. rewrite Z.sub_diag. split; [lia |]. split; [done |]. intros k Hk. cbn in Hk. lia.
  - intros H. destruct (IH _ H) as (Hr & Hz & Hk). replace (Z.to_nat (r - n)) with (Datatypes.S (Z.to_nat (r - (n + 1)))) by lia.
    split; [lia |]. split; [done |]. intros [| k] Hlt; [by exists b |]. apply (Hk k). lia.
Qed.

Lemma scan_nul_total mem n k : mem !! k = Some 0 -> exists r, scan_nul mem n = Some r.
Proof.
  revert n k. induction mem as [| b mem IH]; intros n k Hk; [done |]. cbn.
  destruct (Z.eqb_spec b 0) as [-> | Hb]; [by eexists |]. destruct k as [| k]; [by injection Hk as -> |]. by apply (IH (n + 1) k).
Qed.

Lemma argint_in n u i : u_sz u <= KERNBASE -> argint n u = Some i ->
  0 <= u32 (u_esp u + 4 + 4 * n) /\ u32 (u_esp u + 4 + 4 * n) + 4 <= u_sz u.
Proof.
  unfold argint, fetchint, KERNBASE. intros Hsz. set (a := u32 (u_esp u + 4 + 4 * n)).
  assert (Ha : 0 <= a < 2 ^ 32) by (apply Z.mod_pos_bound; lia).
  destruct (Z.geb_spec a (u_sz u)); [done |]. rewrite (u32_small (a + 4)) by lia.
  destruct (Z.gtb_spec (a + 4) (u_sz u)); [done |]. lia.
Qed.

(** C29. What a system call accepts from the user lies in the memory of the
    process: a word argument is fetched from inside it; a buffer that [argptr]
    accepts has a size that is not negative and lies in it entirely, even when
    address and size come close to 2^32; a string that [argstr] accepts ends in
    a NUL inside it and has no earlier one; and a string that starts inside and
    is terminated inside is accepted. *)
Theorem user_arguments_in_bounds (n size : Z) (u : user) (Hsz : u_sz u <= KERNBASE) :
  (forall i, argint n u = Some i ->
     u32 (u_esp u + 4 + 4 * n) + 4 <= u_sz u) /\
  (is_s32 size -> forall p, argptr n size u = Some p -> 0 <= size /\ 0 <= p /\ p + size <= u_sz u) /\
  (forall p len, argstr n u = Some (p, len) ->
     0 <= p /\ 0 <= len /\ p + len < u_sz u /\ u_mem u !! Z.to_nat (p + len) = Some 0 /\
     Forall (fun b => b <> 0) (ustr (p, len) u)) /\
  (forall i k, argint n u = Some i -> u_mem u !! Z.to_nat (u32 i + k) = Some 0 -> 0 <= k ->
     exists len, argstr n u = Some (u32 i, len)).
Proof.
  split; [intros i Hi; by destruct (argint_in n u i Hsz Hi) |]. split; [| split].
  - intros Hs p. unfold argptr. destruct (argint n u) as [i |] eqn:Ei; [| done]. cbn [mbind option_bind].
    assert (Hi : 0 <= u32 i < 2 ^ 32) by (apply Z.mod_pos_bound; lia). unfold is_s32, KERNBASE in *.
    destruct (Z.ltb_spec size 0); [done |]. destruct (Z.geb_spec (u32 i) (u_sz u)); [done |]. cbn [orb].
    rewrite (u32_small (u32 i + size)) by lia. destruct (Z.gtb_spec (u32 i + size) (u_sz u)); [done |].
    intros [= <-]. lia.
  - intros p len. unfold argstr. destruct (argint n u) as [i |] eqn:Ei; [| done]. cbn [mbind option_bind]. unfold fetchstr.
    assert (Hi : 0 <= u32 i < 2 ^ 32) by (apply Z.mod_pos_bound; lia). destruct (Z.geb_spec (u32 i) (u_sz u)); [done |].
    destruct (scan_nul _ 0) as [l |] eqn:E; [| done]. cbn. intros [= <- <-].
    apply scan_nul_ok in E as (Hr & Hz & Hk). rewrite length_drop in Hr. unfold u_sz in *. rewrite Z.sub_0_r in *.
    rewrite lookup_drop in Hz. split_and!; try lia; [by rewrite Z2Nat.inj_add by lia |].
    apply Forall_lookup. intros k b. unfold ustr, slice. cbn [fst snd]. intros [Hb Hlt]%lookup_take_Some.
    destruct (Hk k Hlt) as (b' & Hb' & ?). congruence.
  - intros i k Ei Hz Hk. unfold argstr. rewrite Ei. cbn [mbind option_bind]. unfold fetchstr.
    assert (Hi : 0 <= u32 i < 2 ^ 32) by (apply Z.mod_pos_bound; lia).
    pose proof (lookup_lt_Some _ _ _ Hz) as Hlt. unfold u_sz. destruct (Z.geb_spec (u32 i) (Z.of_nat (length (u_mem u)))); [lia |].
    destruct (scan_nul_total (drop (Z.to_nat (u32 i)) (u_mem u)) 0 (Z.to_nat k)) as [r ->]; [| by exists r].
    rewrite lookup_drop. by rewrite <- Z2Nat.inj_add by lia.
Qed.

(** A process with a string at address 8, whose stack starts at 0. *)
Definition demo_user : user :=
  mk_user ([0; 0; 0; 0] ++ [8; 0; 0; 0] ++ [104; 105; 0; 7]) 0 0.
Lemma user_arguments_in_bounds_witness :
  argstr 0 demo_user = Some (8, 2) /\ 8 + 2 < u_sz demo_user.
Proof.
  split; [reflexivity |].
  destruct (user_arguments_in_bounds 0 4 demo_user) as (_ & _ & H & _); [by vm_compute |].
  destruct (H 8 2 eq_refl) as (_ & _ & Hb & _). exact Hb.
Defined.

(** A system call number runs the function of its name: [syscall] runs
    nothing but -1 for numbers outside 1 to 28, and the entry of the table for
    the others; no two numbers run the same function. *)
Theorem syscall_dispatch (S : Type) (eax : S -> Z) (set_eax : Z -> S -> S) (run : sysname -> M S Z) (s : S) :
  (~ 1 <= eax s <= 28 -> syscall eax set_eax run s = Ret tt (set_eax (-1) s)) /\
  (1 <= eax s <= 28 -> exists f, sysfun (eax s) = Some f /\
     syscall eax set_eax run s = (r ← run f; modify (set_eax r)) s /\
     forall num, sysfun num = Some f -> num = eax s).
Proof.
  unfold syscall. split; intros H; erewrite bind_ret by done; set (n := eax s) in *.
  - assert (Hn : sysfun n = None).
    { unfold sysfun. destruct (Z.gtb_spec n 0); [| done]. destruct (Z.ltb_spec n (Z.of_nat (length syscalls))); [| done].
      cbn in *. lia. }
    by rewrite Hn.
  - assert (Hin : n ∈ map Z.of_nat (seq 1 28)).
    { apply list_elem_of_fmap. exists (Z.to_nat n). split; [lia |]. apply elem_of_seq. lia. }
    assert (Hr : forall num f, sysfun num = Some f -> num ∈ map Z.of_nat (seq 1 28)).
    { intros num f. unfold sysfun. destruct (Z.gtb_spec num 0); [| done].
      destruct (Z.ltb_spec num (Z.of_nat (length syscalls))); [| done]. cbn in *. intros _.
      apply (list_elem_of_fmap Z.of_nat (seq 1 28)). exists (Z.to_nat num). split; [lia |]. apply elem_of_seq. lia. }
    assert (Hall : Forall (fun a => is_Some (sysfun a) /\ Forall (fun b => sysfun b = sysfun a -> b = a) (map Z.of_nat (seq 1 28)))
                     (map Z.of_nat (seq 1 28))).
    { cbn [map seq]. repeat (apply Forall_cons; split; [split; [by eexists | repeat (apply Forall_cons; split; [by vm_compute |]); constructor] |]).
      constructor. }
    destruct (proj1 (Forall_forall _ _) Hall n Hin) as [[f Hf] Hu]. exists f. rewrite Hf. split_and!; try done.
    intros num Hnum. apply (proj1 (Forall_forall _ _) Hu num); [by eapply Hr | congruence].
Qed.

Lemma syscall_dispatch_witness :
  syscall (S := Z) id (fun r _ => r) (fun f => if decide (f = sys_getpid) then mret 7 else mret 0) 11 = Ret tt 7.
Proof.
  destruct (syscall_dispatch Z id (fun r _ => r) (fun f => if decide (f = sys_getpid) then mret 7 else mret 0) 11) as [_ H].
  destruct H as (f & Hf & E & _); [cbn; lia |]. vm_compute in Hf. injection Hf as <-. rewrite E. reflexivity.
Defined.
