(* ===== verification/File.v ===== *)
(** * File: project3/xv6-modified/{file.c,file.h}, [pipealloc] of pipe.c and sysfile.c

    The table of open files and the system calls on files, for one process:
    its descriptor table [ofile], its working directory [cwd] and its user
    memory.  [ftable.lock] protects the reference counts and has no effect in
    the code of one process.  pipe.c is used through [PipeOps], the log through
    [TxDev] and fs.c as modelled in Fs.v. *)

From Stdlib Require Import ZArith Lia.
From stdpp Require Import base numbers strings option list.
From S2P Require Import Prelude KString Kernel Bio Log Fs Syscall.

(** [begin_op] and [end_op]. *)
Class TxDev (S : Type) := { d_begin_op : M S unit; d_end_op : M S unit }.

(** What file.c and [pipealloc] call of pipe.c and kalloc.c: [p_new] is the page
    of a pipe, allocated and initialised. *)
Class PipeOps (S : Type) := {
  p_new : M S (option nat);
  p_close : nat -> bool -> M S unit;
  p_read : nat -> Z -> M S (Z * list Z);
  p_write : nat -> list Z -> Z -> M S Z
}.

Definition MAXARG : nat := 32.

Inductive ftype := FD_NONE | FD_PIPE | FD_INODE.
#[export] Instance ftype_eq_dec : EqDecision ftype.
Proof. solve_decision. Defined.

Record file := mk_file {
  f_type : ftype;
  f_ref : Z;
  f_readable : bool;
  f_writable : bool;
  f_pipe : nat;
  f_ip : nat;
  f_off : Z
}.
Definition set_ref (r : Z) (f : file) : file :=
  mk_file (f_type f) r (f_readable f) (f_writable f) (f_pipe f) (f_ip f) (f_off f).
Definition set_off (o : Z) (f : file) : file :=
  mk_file (f_type f) (f_ref f) (f_readable f) (f_writable f) (f_pipe f) (f_ip f) o.

Record sysst (S : Type) := mk_sys {
  ffs : fsst S;
  ftable : list file;
  ofile : list (option nat);
  cwd : nat;
  usr : user
}.
Arguments mk_sys {S}.
Arguments ffs {S}.
Arguments ftable {S}.
Arguments ofile {S}.
Arguments cwd {S}.
Arguments usr {S}.

Section code.
Context {S : Type} {B : BlockDev S} {V : Devices S} {T : TxDev S} {P : PipeOps S}.
Abbreviation K := (M (sysst S)).

(** A call of fs.c, and of the layers below it. *)
Definition fcall {A : Type} (m : M (fsst S) A) : K A := fun s =>
  match m (ffs s) with
  | Ret a f => Ret a (mk_sys f (ftable s) (ofile s) (cwd s) (usr s))
  | Stop msg => Stop msg
  | Block c f => Block c (mk_sys f (ftable s) (ofile s) (cwd s) (usr s))
  | OutOfFuel => OutOfFuel
  end.
Definition dcall {A : Type} (m : M S A) : K A := fcall (Fs.bcall m).
Definition k_begin_op : K unit := dcall d_begin_op.
Definition k_end_op : K unit := dcall d_end_op.

Definition get_file (f : nat) : K file :=
  l ← gets ftable; from_option "null file" (l !! f).
Definition put_file (f : nat) (x : file) : K unit :=
  modify (fun s => mk_sys (ffs s) (<[f := x]> (ftable s)) (ofile s) (cwd s) (usr s)).
Definition put_ofile (fd : nat) (f : option nat) : K unit :=
  modify (fun s => mk_sys (ffs s) (ftable s) (<[fd := f]> (ofile s)) (cwd s) (usr s)).
Definition put_cwd (ip : nat) : K unit :=
  modify (fun s => mk_sys (ffs s) (ftable s) (ofile s) ip (usr s)).
(** A store to user memory at an address that was checked. *)
Definition store_user (p : Z) (bs : list Z) : K unit :=
  modify (fun s => mk_sys (ffs s) (ftable s) (ofile s) (cwd s)
    (mk_user (splice (Z.to_nat p) bs (u_mem (usr s))) (u_esp (usr s)) (u_eax (usr s)))).

(** ** file.c *)
Definition filealloc : K (option nat) :=
  l ← gets ftable;
  match find_index (fun f => f_ref f =? 0) l with
  | Some i => f ← get_file i; put_file i (set_ref 1 f);; mret (Some i)
  | None => mret None
  end.

Definition filedup (f : nat) : K nat :=
  x ← get_file f;
  if f_ref x <? 1 then stop "filedup" else
  put_file f (set_ref (f_ref x + 1) x);; mret f.

Definition fileclose (f : nat) : K unit :=
  x ← get_file f;
  if f_ref x <? 1 then stop "fileclose" else
  if f_ref x - 1 >? 0 then put_file f (set_ref (f_ref x - 1) x) else
  put_file f (mk_file FD_NONE 0 (f_readable x) (f_writable x) (f_pipe x) (f_ip x) (f_off x));;
  match f_type x with
  | FD_PIPE => dcall (p_close (f_pipe x) (f_writable x))
  | FD_INODE => k_begin_op;; fcall (iput (f_ip x));; k_end_op
  | FD_NONE => skip
  end.

Definition filestat (f : nat) : K (Z * option stat) :=
  x ← get_file f;
  match f_type x with
  | FD_INODE =>
      fcall (ilock (f_ip x));; st ← fcall (stati (f_ip x)); fcall (iunlock (f_ip x));;
      mret (0, Some st)
  | _ => mret (-1, None)
  end.

(** The result of the call and the bytes it stores at [addr]. *)
Definition fileread (f : nat) (n : Z) : K (Z * list Z) :=
  x ← get_file f;
  if negb (f_readable x) then mret (-1, []) else
  match f_type x with
  | FD_PIPE => dcall (p_read (f_pipe x) n)
  | FD_INODE =>
      fcall (ilock (f_ip x));;
      r ← fcall (readi (f_ip x) (f_off x) (u32 n));
      (if fst r >? 0 then put_file f (set_off (u32 (f_off x + fst r)) x) else skip);;
      fcall (iunlock (f_ip x));;
      mret r
  | FD_NONE => stop "fileread"
  end.

(** [((MAXOPBLOCKS-1-1-2) / 2) * 512] *)
Definition max_chunk : Z := ((MAXOPBLOCKS - 1 - 1 - 2) / 2) * 512.

(** One transaction of [filewrite]: [n1] bytes of [addr] from [i]. *)
Definition filewrite_tx (f : nat) (addr : list Z) (i n1 : Z) : K Z :=
  k_begin_op;;
  x ← get_file f;
  fcall (ilock (f_ip x));;
  r ← fcall (writei (f_ip x) (drop (Z.to_nat i) addr) (f_off x) n1);
  (if r >? 0 then put_file f (set_off (u32 (f_off x + r)) x) else skip);;
  fcall (iunlock (f_ip x));;
  k_end_op;;
  mret r.

(** The loop of [filewrite]; returns [i] after it. *)
Fixpoint filewrite_loop (fuel f : nat) (addr : list Z) (i n : Z) : K Z :=
  match fuel with
  | O => out_of_fuel
  | Datatypes.S fuel' =>
      if i <? n then
        let n1 := if n - i >? max_chunk then max_chunk else n - i in
        r ← filewrite_tx f addr i n1;
        if r <? 0 then mret i else
        if negb (r =? n1) then stop "short filewrite" else
        filewrite_loop fuel' f addr (i + r) n
      else mret i
  end.

Definition filewrite (f : nat) (addr : list Z) (n : Z) : K Z :=
  x ← get_file f;
  if negb (f_writable x) then mret (-1) else
  match f_type x with
  | FD_PIPE => dcall (p_write (f_pipe x) addr n)
  | FD_INODE =>
      i ← filewrite_loop (Datatypes.S (Z.to_nat n)) f addr 0 n;
      mret (if i =? n then n else -1)
  | FD_NONE => stop "filewrite"
  end.

(** ** [pipealloc] *)
Definition set_pipe (f : nat) (readable writable : bool) (p : nat) : K unit :=
  x ← get_file f;
  put_file f (mk_file FD_PIPE (f_ref x) readable writable p (f_ip x) (f_off x)).
Definition pipealloc : K (option (nat * nat)) :=
  f0 ← filealloc;
  match f0 with
  | None => mret None
  | Some f0 =>
      f1 ← filealloc;
      match f1 with
      | None => fileclose f0;; mret None
      | Some f1 =>
          p ← dcall p_new;
          match p with
          | None => fileclose f0;; fileclose f1;; mret None
          | Some p => set_pipe f0 true false p;; set_pipe f1 false true p;; mret (Some (f0, f1))
          end
      end
  end.

(** ** sysfile.c *)
Definition k_argint (n : Z) : K (option Z) := gets (fun s => Syscall.argint n (usr s)).
Definition k_argptr (n size : Z) : K (option Z) := gets (fun s => Syscall.argptr n size (usr s)).
(** The string itself, without its terminator. *)
Definition k_argstr (n : Z) : K (option (list Z)) :=
  gets (fun s => r ← Syscall.argstr n (usr s); Some (ustr r (usr s))).

Definition argfd (n : Z) : K (option (nat * nat)) :=
  a ← k_argint n;
  l ← gets ofile;
  mret (fd ← a;
        if (fd <? 0) || (fd >=? Z.of_nat NOFILE) then None
        else f ← default None (l !! Z.to_nat fd); Some (Z.to_nat fd, f)).

Definition fdalloc (f : nat) : K (option nat) :=
  l ← gets ofile;
  match find_index (fun o => bool_decide (o = None)) l with
  | Some fd => put_ofile fd (Some f);; mret (Some fd)
  | None => mret None
  end.

Definition sys_dup : K Z :=
  a ← argfd 0;
  match a with
  | None => mret (-1)
  | Some (_, f) =>
      fd ← fdalloc f;
      match fd with
      | None => mret (-1)
      | Some fd => filedup f;; mret (Z.of_nat fd)
      end
  end.

Definition sys_read : K Z :=
  a ← argfd 0;
  n ← k_argint 2;
  match a, n with
  | Some (_, f), Some n =>
      p ← k_argptr 1 n;
      match p with
      | None => mret (-1)
      | Some p => r ← fileread f n; store_user p (snd r);; mret (fst r)
      end
  | _, _ => mret (-1)
  end.

Definition sys_write : K Z :=
  a ← argfd 0;
  n ← k_argint 2;
  match a, n with
  | Some (_, f), Some n =>
      p ← k_argptr 1 n;
      match p with
      | None => mret (-1)
      | Some p => u ← gets usr; filewrite f (slice (Z.to_nat p) (Z.to_nat n) (u_mem u)) n
      end
  | _, _ => mret (-1)
  end.

Definition sys_close : K Z :=
  a ← argfd 0;
  match a with
  | None => mret (-1)
  | Some (fd, f) => put_ofile fd None;; fileclose f;; mret 0
  end.

(** [struct stat] at its layout: [short type; int dev; uint ino; short nlink; uint size;],
    with the padding bytes of the user's buffer kept. *)
Definition STATSIZE : Z := 20.
Definition store_stat (p : Z) (st : stat) : K unit :=
  store_user p (le_bytes 2 (st_type st));;
  store_user (p + 4) (le_bytes 4 (st_dev st));;
  store_user (p + 8) (le_bytes 4 (st_ino st));;
  store_user (p + 12) (le_bytes 2 (st_nlink st));;
  store_user (p + 16) (le_bytes 4 (st_size st)).

Definition sys_fstat : K Z :=
  a ← argfd 0;
  match a with
  | None => mret (-1)
  | Some (_, f) =>
      p ← k_argptr 1 STATSIZE;
      match p with
      | None => mret (-1)
      | Some p =>
          r ← filestat f;
          (match snd r with Some st => store_stat p st | None => skip end);;
          mret (fst r)
      end
  end.

(** The uninitialised [char name[DIRSIZ]] of the callers of [nameiparent]. *)
Definition name_buf : list Z := replicate DIRSIZ 0.

Definition set_nlink (ip : nat) (d : Z) : M (fsst S) unit :=
  p ← get_ino ip;
  let n := i_din p in
  put_ino ip (set_din (mk_din (di_type n) (di_major n) (di_minor n) (s16 (di_nlink n + d)) (di_size n) (di_addrs n)) p);;
  iupdate ip.

Definition link_bad (ip : nat) : K Z :=
  fcall (ilock ip;; set_nlink ip (-1);; iunlockput ip);; k_end_op;; mret (-1).
Definition sys_link : K Z :=
  old ← k_argstr 0;
  new ← k_argstr 1;
  c ← gets cwd;
  match old, new with
  | Some old, Some new =>
      k_begin_op;;
      ip ← fcall (namei c old);
      match ip with
      | None => k_end_op;; mret (-1)
      | Some ip =>
          fcall (ilock ip);;
          p ← fcall (get_ino ip);
          if di_type (i_din p) =? T_DIR then fcall (iunlockput ip);; k_end_op;; mret (-1) else
          fcall (set_nlink ip 1;; iunlock ip);;
          r ← fcall (nameiparent c new name_buf);
          match fst r with
          | None => link_bad ip
          | Some dp =>
              fcall (ilock dp);;
              p ← fcall (get_ino ip);
              d ← fcall (get_ino dp);
              ok ← (if negb (i_dev d =? i_dev p) then mret false else
                    l ← fcall (dirlink dp (snd r) (i_inum p)); mret (l >=? 0));
              if ok : bool then fcall (iunlockput dp;; iput ip);; k_end_op;; mret 0
              else fcall (iunlockput dp);; link_bad ip
          end
      end
  | _, _ => mret (-1)
  end.

(** The loop of [isdirempty]. *)
Fixpoint isdirempty_loop (fuel dp : nat) (off : Z) : M (fsst S) bool :=
  match fuel with
  | O => out_of_fuel
  | Datatypes.S fuel' =>
      p ← get_ino dp;
      if off <? di_size (i_din p) then
        r ← readi dp off 16;
        if negb (fst r =? 16) then stop "isdirempty: readi" else
        if negb (de_inum (snd r) =? 0) then mret false else isdirempty_loop fuel' dp (off + 16)
      else mret true
  end.
Definition isdirempty (dp : nat) : M (fsst S) bool :=
  p ← get_ino dp; isdirempty_loop (dir_fuel p) dp 32.

(** The string literals ["."] and [".."]. *)
Definition dot : list Z := [46; 0].
Definition dotdot : list Z := [46; 46; 0].

Definition unlink_entry (dp ip : nat) (off : Z) : M (fsst S) unit :=
  w ← writei dp (replicate 16 0) off 16;
  if negb (w =? 16) then stop "unlink: writei" else
  p ← get_ino ip;
  (if di_type (i_din p) =? T_DIR then set_nlink dp (-1) else skip);;
  iunlockput dp;;
  set_nlink ip (-1);;
  iunlockput ip.

Definition sys_unlink : K Z :=
  path ← k_argstr 0;
  c ← gets cwd;
  match path with
  | None => mret (-1)
  | Some path =>
      k_begin_op;;
      r ← fcall (nameiparent c path name_buf);
      match r with
      | (None, _) => k_end_op;; mret (-1)
      | (Some dp, name) =>
          fcall (ilock dp);;
          if (namecmp name dot =? 0) || (namecmp name dotdot =? 0)
          then fcall (iunlockput dp);; k_end_op;; mret (-1) else
          l ← fcall (dirlookup dp name);
          match l with
          | None => fcall (iunlockput dp);; k_end_op;; mret (-1)
          | Some (ip, off) =>
              fcall (ilock ip);;
              p ← fcall (get_ino ip);
              if di_nlink (i_din p) <? 1 then stop "unlink: nlink < 1" else
              full ← (if di_type (i_din p) =? T_DIR then e ← fcall (isdirempty ip); mret (negb e) else mret false);
              if full : bool then fcall (iunlockput ip;; iunlockput dp);; k_end_op;; mret (-1)
              else fcall (unlink_entry dp ip off);; k_end_op;; mret 0
          end
      end
  end.

(** Initialising the inode [create] allocated: [major], [minor], [nlink]. *)
Definition init_ino (ip : nat) (major minor : Z) : M (fsst S) unit :=
  p ← get_ino ip;
  let n := i_din p in
  put_ino ip (set_din (mk_din (di_type n) major minor 1 (di_size n) (di_addrs n)) p);;
  iupdate ip.

Definition create_dots (dp ip : nat) : M (fsst S) unit :=
  set_nlink dp 1;;
  p ← get_ino ip;
  d ← get_ino dp;
  r ← dirlink ip dot (i_inum p);
  if r <? 0 then stop "create dots" else
  r ← dirlink ip dotdot (i_inum d);
  if r <? 0 then stop "create dots" else skip.

Definition create (cwd : nat) (path : list Z) (type major minor : Z) : M (fsst S) (option nat) :=
  r ← nameiparent cwd path name_buf;
  match r with
  | (None, _) => mret None
  | (Some dp, name) =>
      ilock dp;;
      l ← dirlookup dp name;
      match l with
      | Some (ip, _) =>
          iunlockput dp;;
          ilock ip;;
          p ← get_ino ip;
          if (type =? T_FILE) && (di_type (i_din p) =? T_FILE) then mret (Some ip)
          else iunlockput ip;; mret None
      | None =>
          d ← get_ino dp;
          ip ← ialloc (i_dev d) type;
          ilock ip;;
          init_ino ip major minor;;
          (if type =? T_DIR then create_dots dp ip else skip);;
          p ← get_ino ip;
          r ← dirlink dp name (i_inum p);
          if r <? 0 then stop "create: dirlink" else
          iunlockput dp;;
          mret (Some ip)
      end
  end.

Definition O_RDONLY : Z := 0.
Definition O_WRONLY : Z := 1.
Definition O_RDWR : Z := 2.
Definition O_CREATE : Z := 512.
Definition has (omode flag : Z) : bool := negb (Z.land omode flag =? 0).

(** The inode that [sys_open] opens, locked. *)
Definition open_ino (c : nat) (path : list Z) (omode : Z) : M (fsst S) (option nat) :=
  if has omode O_CREATE then create c path T_FILE 0 0 else
  ip ← namei c path;
  match ip with
  | None => mret None
  | Some ip =>
      ilock ip;;
      p ← get_ino ip;
      if (di_type (i_din p) =? T_DIR) && negb (omode =? O_RDONLY) then iunlockput ip;; mret None
      else mret (Some ip)
  end.

(** [(f = filealloc()) == 0 || (fd = fdalloc(f)) < 0] and the [fileclose] after it. *)
Definition open_slot : K (option (nat * nat)) :=
  f ← filealloc;
  match f with
  | None => mret None
  | Some f =>
      fd ← fdalloc f;
      match fd with
      | None => fileclose f;; mret None
      | Some fd => mret (Some (f, fd))
      end
  end.

Definition sys_open : K Z :=
  path ← k_argstr 0;
  omode ← k_argint 1;
  c ← gets cwd;
  match path, omode with
  | Some path, Some omode =>
      k_begin_op;;
      ip ← fcall (open_ino c path omode);
      match ip with
      | None => k_end_op;; mret (-1)
      | Some ip =>
          r ← open_slot;
          match r with
          | None => fcall (iunlockput ip);; k_end_op;; mret (-1)
          | Some (f, fd) =>
              fcall (iunlock ip);;
              k_end_op;;
              x ← get_file f;
              put_file f (mk_file FD_INODE (f_ref x) (negb (has omode O_WRONLY))
                (has omode O_WRONLY || has omode O_RDWR) (f_pipe x) ip 0);;
              mret (Z.of_nat fd)
          end
      end
  | _, _ => mret (-1)
  end.

Definition made (ip : option nat) : K Z :=
  match ip with
  | None => k_end_op;; mret (-1)
  | Some ip => fcall (iunlockput ip);; k_end_op;; mret 0
  end.

Definition sys_mkdir : K Z :=
  k_begin_op;;
  path ← k_argstr 0;
  c ← gets cwd;
  ip ← (match path with Some path => fcall (create c path T_DIR 0 0) | None => mret None end);
  made ip.

Definition sys_mknod : K Z :=
  k_begin_op;;
  path ← k_argstr 0;
  major ← k_argint 1;
  minor ← k_argint 2;
  c ← gets cwd;
  ip ← (match path, major, minor with
        | Some path, Some major, Some minor => fcall (create c path T_DEV (s16 major) (s16 minor))
        | _, _, _ => mret None
        end);
  made ip.

Definition sys_chdir : K Z :=
  k_begin_op;;
  path ← k_argstr 0;
  c ← gets cwd;
  ip ← (match path with Some path => fcall (namei c path) | None => mret None end);
  match ip with
  | None => k_end_op;; mret (-1)
  | Some ip =>
      fcall (ilock ip);;
      p ← fcall (get_ino ip);
      if negb (di_type (i_din p) =? T_DIR) then fcall (iunlockput ip);; k_end_op;; mret (-1) else
      fcall (iunlock ip;; iput c);;
      k_end_op;;
      put_cwd ip;;
      mret 0
  end.

(** The loop of [sys_exec] from entry [i] of [argv]. *)
Fixpoint exec_args (k : nat) (uargv i : Z) (u : user) : option (list (list Z)) :=
  match k with
  | O => None
  | Datatypes.S k' =>
      uarg ← fetchint (u32 (uargv + 4 * i)) u;
      if uarg =? 0 then Some [] else
      r ← fetchstr (u32 uarg) u;
      l ← exec_args k' uargv (i + 1) u;
      Some (ustr r u :: l)
  end.
(** [sys_exec], with [exec] of exec.c as argument. *)
Definition sys_exec (exec : list Z -> list (list Z) -> K Z) : K Z :=
  path ← k_argstr 0;
  uargv ← k_argint 1;
  u ← gets usr;
  match path, uargv with
  | Some path, Some uargv =>
      match exec_args MAXARG (u32 uargv) 0 u with
      | Some argv => exec path argv
      | None => mret (-1)
      end
  | _, _ => mret (-1)
  end.

Definition sys_pipe : K Z :=
  p ← k_argptr 0 8;
  match p with
  | None => mret (-1)
  | Some p =>
      r ← pipealloc;
      match r with
      | None => mret (-1)
      | Some (rf, wf) =>
          fd0 ← fdalloc rf;
          match fd0 with
          | None => fileclose rf;; fileclose wf;; mret (-1)
          | Some fd0 =>
              fd1 ← fdalloc wf;
              match fd1 with
              | None => put_ofile fd0 None;; fileclose rf;; fileclose wf;; mret (-1)
              | Some fd1 =>
                  store_user p (le_bytes 4 (Z.of_nat fd0));;
                  store_user (p + 4) (le_bytes 4 (Z.of_nat fd1));;
                  mret 0
              end
          end
      end
  end.
End code.
