(* ===== verification/FsTx.v ===== *)
(** * FsTx: file writes as transactions on the disk

    [filewrite] of file.c with the file system of Fs.v on the buffer cache and
    the log: each of its transactions, and the crash behaviour of the whole
    call.  At the end, a small disk laid out as mkfs does, on which the
    theorems about files are run. *)

From Stdlib Require Import ZArith Lia.
From stdpp Require Import base numbers strings option list.
From S2P Require Import Prelude KString Bio Log Fs FsSpec LogDev FsFile FsDir Syscall File.

#[export] Instance log_tx : TxDev logst := {| d_begin_op := Log.begin_op; d_end_op := Log.end_op |}.

(** ** Views that agree outside the log *)
Section agree.
Context {S : Type} {B : BlockDev S} {D : BlockDevOk S}.

Definition agree (b : superblock) (v v' : Z -> option blk) : Prop :=
  forall m, sb_inodestart b <= m < sb_size b -> v m = v' m.

Lemma agree_sym b v v' : agree b v v' -> agree b v' v.
Proof. intros H m Hm. symmetry. by apply H. Qed.
Lemma agree_trans b v1 v2 v3 : agree b v1 v2 -> agree b v2 v3 -> agree b v1 v3.
Proof. intros H1 H2 m Hm. by rewrite H1, H2. Qed.

Context (b : superblock) (v v' : Z -> option blk) (Hly : layout b) (Hag : agree b v v').

Lemma meta_range : sb_inodestart b < sb_bmapstart b /\ sb_bmapstart b < datastart b <= sb_size b.
Proof using Hly.
  destruct Hly. unfold datastart. assert (0 <= sb_ninodes b / IPB) by (apply Z.div_pos; unfold IPB; lia).
  assert (0 <= sb_size b / BPB) by (apply Z.div_pos; unfold BPB; lia). lia.
Qed.

Lemma agree_data c : is_data b c -> v c = v' c.
Proof using Hly Hag. intros [H1 H2]. apply Hag. pose proof meta_range. lia. Qed.

Lemma agree_used c : 0 <= c < sb_size b -> used b v' c = used b v c.
Proof using Hly Hag.
  intros Hc. unfold used. rewrite <- Hag; [done |]. pose proof (bblock_range b c Hly Hc). pose proof meta_range. lia.
Qed.

Lemma agree_meta : meta_used b v -> meta_used b v'.
Proof using Hly Hag. intros H m Hm. rewrite agree_used; [auto |]. pose proof meta_range. lia. Qed.

Lemma agree_avail n : avail b v n -> avail b v' n.
Proof using Hly Hag.
  intros (l & H1 & H2 & H3). exists l. split; [done |]. split; [done |]. eapply Forall_impl; [exact H3 |].
  intros c [Hc Hu]. by rewrite agree_used.
Qed.

Lemma agree_faddr p i : wf_file b v p -> faddr v' p i = faddr v p i.
Proof using Hly Hag.
  intros Hwf. unfold faddr. destruct (i <? NDIRECT)%nat; [done |].
  destruct (Z.eqb_spec (addr_of p NDIRECT) 0) as [| Hn]; [done |].
  destruct (wf_ind _ _ _ Hwf Hn) as [Hd _]. by rewrite (agree_data _ Hd).
Qed.

Lemma agree_fbytes p : wf_file b v p -> fbytes v' p = fbytes v p.
Proof using Hly Hag.
  intros Hwf. unfold fbytes. f_equal. apply map_ext_in. intros i [_ Hi]%in_seq. unfold fblock.
  rewrite agree_faddr by done. destruct (Z.eqb_spec (faddr v p i) 0) as [| Hn]; [done |].
  destruct (wf_data _ _ _ Hwf i Hi Hn) as [Hd _]. by rewrite (agree_data _ Hd).
Qed.

Lemma agree_wf p : wf_file b v p -> wf_file b v' p.
Proof using Hly Hag.
  intros Hwf. pose proof (fun i => agree_faddr p i Hwf) as Hf. destruct Hwf as [W1 W2 W3 W4 W5 W6].
  assert (Hu : forall c, is_data b c -> used b v' c = used b v c).
  { intros c [H1 H2]. apply agree_used. pose proof meta_range. destruct Hly. lia. }
  split; try done.
  - intros i Hi. rewrite Hf. intros Hn. destruct (W3 i Hi Hn). by rewrite Hu.
  - intros Hn. destruct (W4 Hn). by rewrite Hu.
  - intros i j Hi Hj. rewrite !Hf. auto.
  - intros i Hi. rewrite Hf. auto.
Qed.

Lemma agree_holes p : wf_file b v p -> no_holes v p -> no_holes v' p.
Proof using Hly Hag. intros Hwf H i Hi. rewrite agree_faddr by done. auto. Qed.

Lemma agree_disk p : 0 <= i_inum p < sb_ninodes b -> on_disk b v p -> on_disk b v' p.
Proof using Hly Hag.
  intros Hi (x & Hx & Hd). exists x. split; [| done]. rewrite <- Hag; [done |].
  pose proof (iblock_range b (i_inum p) Hly Hi). pose proof meta_range. lia.
Qed.
End agree.

(** ** A file as the disk shows it: size and bytes *)
Definition disk_file (b : superblock) (v : Z -> option blk) (inum : Z) : Z * list Z :=
  let d := dec_dinode (din_off inum) (default [] (v (IBLOCK inum b))) in
  (di_size d, fbytes v (mk_ino ROOTDEV inum 0 false true d)).

Lemma disk_file_on b v p : on_disk b v p -> disk_file b v (i_inum p) = (di_size (i_din p), fbytes v p).
Proof. intros (x & Hx & Hd). unfold disk_file. rewrite Hx.
  change (default [] (Some x)) with x. by rewrite Hd. Qed.

Section filewrite.
Context (st sz len : Z) (Hgeo : 0 <= st /\ 0 < sz <= 30 /\ st + sz <= len /\ len < 2 ^ 31) (Hroom : 26 <= sz).
Context {V : Devices logst} {P : PipeOps logst}.
Abbreviation dev_ok := (log_dev_ok st sz len Hgeo [] []).
Abbreviation view s := (vblock (lbio (dv s))).

(** An open file between transactions: the log is at rest, and the inode in
    memory is valid, unlocked and well formed. *)
Record resting (s : fsst logst) (ip : nat) (p : inode) : Prop := {
  re_idle : idle st sz len (dv s);
  re_ino : icache s !! ip = Some p;
  re_ref : 1 <= i_ref p;
  re_lock : i_locked p = false;
  re_valid : i_valid p = true;
  re_layout : layout (D := dev_ok) (sb s);
  re_meta : meta_used (sb s) (view s);
  re_wf : wf_file (sb s) (view s) p;
  re_holes : no_holes (view s) p;
  re_type : di_type (i_din p) <> T_DEV;
  re_size : 0 <= di_size (i_din p) <= MAXFILE * 512;
  re_inum : 0 <= i_inum p < sb_ninodes (sb s);
  re_disk : on_disk (sb s) (view s) p
}.

Lemma idle_view s m : idle st sz len s -> vblock (lbio s) m = disk_block (disk (lbio s)) m.
Proof. intros []. apply clean_view; [apply id_ok | done | apply id_ok]. Qed.

Lemma layout_home b m : layout (D := dev_ok) b -> sb_inodestart b <= m < sb_size b -> home st sz len m.
Proof. intros Hly Hm. by apply (ly_log b Hly). Qed.

Lemma layout_any d0 w0 b : layout (D := dev_ok) b -> layout (D := log_dev_ok st sz len Hgeo d0 w0) b.
Proof. intros []. by split. Qed.

Lemma fcall_ret {A} (m : M (fsst logst) A) (s : sysst logst) a f :
  m (ffs s) = Ret a f -> fcall m s = Ret a (mk_sys f (ftable s) (ofile s) (cwd s) (usr s)).
Proof. unfold fcall. by intros ->. Qed.

Lemma wf_same_din b v p p' : i_dev p' = i_dev p -> i_din p' = i_din p -> wf_file b v p -> wf_file b v p'.
Proof. destruct p, p'. cbn. intros -> -> []. by split. Qed.

(** A chunk touches at most four blocks. *)
Lemma touched_chunk off n : 0 <= off -> n <= max_chunk -> touched off n <= 4.
Proof.
  change max_chunk with 1536. intros Ho Hn. unfold touched. destruct (Z.leb_spec n 0); [lia |].
  assert ((off + n - 1) / 512 < off / 512 + 4); [| lia].
  apply Z.div_lt_upper_bound; [lia |]. pose proof (Z.div_mod off 512). pose proof (Z.mod_pos_bound off 512). lia.
Qed.

(** The lock of an inode that is in memory. *)
Lemma ilock_valid (f : fsst logst) ip p : icache f !! ip = Some p -> 1 <= i_ref p -> i_locked p = false -> i_valid p = true ->
  ilock ip f = Ret tt (mk_fs (dv f) (sb f) (<[ip := lock_ino true p]> (icache f))).
Proof.
  intros Hp Hr Hl Hv. unfold ilock. erewrite bind_ret by (apply get_ino_ret; exact Hp). destruct (Z.ltb_spec (i_ref p) 1); [lia |].
  rewrite Hl. erewrite bind_ret by done. by rewrite Hv.
Qed.
Lemma iunlock_held (f : fsst logst) ip p : icache f !! ip = Some p -> 1 <= i_ref p -> i_locked p = true ->
  iunlock ip f = Ret tt (mk_fs (dv f) (sb f) (<[ip := lock_ino false p]> (icache f))).
Proof.
  intros Hp Hr Hl. unfold iunlock. erewrite bind_ret by (apply get_ino_ret; exact Hp). rewrite Hl. cbn.
  destruct (Z.ltb_spec (i_ref p) 1); [lia | done].
Qed.

(** One transaction of [filewrite]. *)
Lemma filewrite_tx_ok (s : sysst logst) f x p addr i n1 k :
  ftable s !! f = Some x -> resting (ffs s) (f_ip x) p -> avail (sb (ffs s)) (view (ffs s)) (8 + k) ->
  0 <= f_off x <= di_size (i_din p) -> 0 < n1 <= max_chunk -> 0 <= i -> i + n1 <= Z.of_nat (length addr) ->
  f_off x + n1 <= MAXFILE * 512 ->
  exists s' p' W, filewrite_tx f addr i n1 s = Ret n1 s' /\ sb (ffs s') = sb (ffs s) /\
    ftable s' = <[f := set_off (f_off x + n1) x]> (ftable s) /\
    resting (ffs s') (f_ip x) p' /\ i_inum p' = i_inum p /\
    di_size (i_din p') = Z.max (di_size (i_din p)) (f_off x + n1) /\
    fbytes (view (ffs s')) p' =
      splice (Z.to_nat (f_off x)) (slice (Z.to_nat i) (Z.to_nat n1) addr) (fbytes (view (ffs s)) p) /\
    avail (sb (ffs s)) (view (ffs s')) k /\
    writes (lbio (dv (ffs s'))) = writes (lbio (dv (ffs s))) ++ W /\
    disk (lbio (dv (ffs s'))) = apply_writes (disk (lbio (dv (ffs s)))) W /\
    atomic st sz len (disk (lbio (dv (ffs s)))) W (disk (lbio (dv (ffs s)))) (disk (lbio (dv (ffs s')))).
Proof.
  intros Hx [Hid Hp Href Hlk Hval Hly Hm Hwf Hnh Hty Hsz Hin Hod] Hav Hoff Hn1 Hi Hlen Hmax.
  change max_chunk with 1536 in Hn1. unfold MAXFILE in *.
  set (d0 := disk (lbio (dv (ffs s)))) in *. set (w0 := writes (lbio (dv (ffs s)))) in *.
  destruct (begin_tx st sz len (dv (ffs s)) Hgeo Hid) as [E0 R0]. fold d0 w0 in R0.
  set (p1 := lock_ino true p). set (v := view (ffs s)) in *.
  set (f2 := mk_fs (with_outstanding 1 (dv (ffs s))) (sb (ffs s)) (<[f_ip x := p1]> (icache (ffs s)))).
  assert (Hf2 : file_at (D := log_dev_ok st sz len Hgeo d0 w0) f2 v (6 * 4 + (1 + 0)) (f_ip x) p1).
  { split; try done.
    - eapply (law_room (BlockDevOk := log_dev_ok st sz len Hgeo d0 w0)); [| exact R0]. lia.
    - apply list_lookup_insert_eq. by eapply lookup_lt_Some.
    - by apply layout_any.
    - by apply (wf_same_din _ _ p). }
  destruct (writei_ok (D := log_dev_ok st sz len Hgeo d0 w0) f2 v 0 (f_ip x) p1 (drop (Z.to_nat i) addr) (f_off x) n1 4 Hf2)
    as (f3 & v3 & p3 & E3 & Hf3 & Hsb3 & Hic3 & (l3 & z3 & Hp3) & Hav3 & Hs3 & Hb3 & _); try done.
  { eapply avail_le; [| exact Hav]. lia. }
  { rewrite length_drop. lia. }
  { apply touched_chunk; [lia | change max_chunk with 1536; lia]. }
  destruct (end_tx st sz len Hgeo d0 w0 (dv f3) v3 0) as (l4 & W & E4 & Hid4 & HW & HD & Hv4 & Hat).
  { apply Hf3. }
  set (p4 := lock_ino false p3). set (f4 := mk_fs l4 (sb f3) (<[f_ip x := p4]> (icache f3))).
  assert (Hag : agree (sb (ffs s)) v3 (view f4)).
  { intros m Hmm. rewrite idle_view by done. symmetry. apply Hv4. by eapply layout_home. }
  pose proof Hf3 as [_ Hi3 Hly3 Hm3 Hwf3 Hnh3 Hty3 Hsz3 Hin3 Hod3]. rewrite Hsb3 in *. change (sb f2) with (sb (ffs s)) in *.
  assert (Hwf4 : wf_file (sb (ffs s)) v3 p4) by (by apply (wf_same_din _ _ p3)).
  assert (Hp4 : i_inum p4 = i_inum p /\ i_ref p4 = i_ref p /\ i_valid p4 = true) by (unfold p4; by rewrite Hp3).
  destruct Hp4 as (Hinum & Href4 & Hval4).
  exists (mk_sys f4 (<[f := set_off (f_off x + n1) x]> (ftable s)) (ofile s) (cwd s) (usr s)), p4, W.
  split; [| split; [done | split; [done | split; [split; cbn [ffs f4 dv sb icache]; rewrite ?Hsb3; try done | split; [exact Hinum |]]]]].
  - unfold filewrite_tx, k_begin_op, k_end_op, dcall.
    erewrite bind_ret by (apply fcall_ret, dev_ret; exact E0).
    assert (Eg : get_file f (mk_sys (mk_fs (with_outstanding 1 (dv (ffs s))) (sb (ffs s)) (icache (ffs s))) (ftable s) (ofile s) (cwd s) (usr s))
                 = Ret x (mk_sys (mk_fs (with_outstanding 1 (dv (ffs s))) (sb (ffs s)) (icache (ffs s))) (ftable s) (ofile s) (cwd s) (usr s)))
      by (unfold get_file; erewrite bind_ret by done; cbn; by rewrite Hx).
    erewrite bind_ret by exact Eg.
    erewrite bind_ret by (apply fcall_ret, ilock_valid; [exact Hp | lia | done | done]). cbn [ftable ofile cwd usr dv sb icache]. fold f2.
    erewrite bind_ret by (apply fcall_ret; exact E3). cbn [ftable ofile cwd usr].
    destruct (Z.gtb_spec n1 0); [| lia]. rewrite u32_small by lia. erewrite bind_ret by done.
    erewrite bind_ret by (apply fcall_ret, iunlock_held; [exact Hi3 | rewrite Hp3; cbn; lia | by rewrite Hp3]). cbn [ftable ofile cwd usr].
    by erewrite bind_ret by (apply fcall_ret, dev_ret; exact E4).
  - cbn. apply list_lookup_insert_eq. by eapply lookup_lt_Some.
  - by rewrite Href4.
  - by eapply agree_meta.
  - by eapply agree_wf.
  - eapply agree_holes; try done.
  - by eapply agree_disk.
  - split; [exact Hs3 |]. split; [| split; [| split; [done | split; [done |]]]].
    + erewrite agree_fbytes; [| exact Hly | exact Hag | exact Hwf4]. exact Hb3.
    + eapply agree_avail; [exact Hly | exact Hag |]. apply Hav3. eapply avail_le; [| exact Hav]. lia.
    + exact Hat.
Qed.

(** A crash after any prefix of the writes [W] on the disk [d] leaves a disk
    from which recovery restores one that satisfies [Q]. *)
Definition crash_shows (d : list blk) (W : list (Z * blk)) (Q : list blk -> Prop) : Prop :=
  forall p pid, p `prefix_of` W ->
    exists r, initlog (binit (apply_writes d p) pid) st sz = Ret tt r /\ idle st sz len r /\ Q (disk (lbio r)).

Lemma crash_shows_app d W1 W2 (Q1 Q2 Q : list blk -> Prop) :
  crash_shows d W1 Q1 -> crash_shows (apply_writes d W1) W2 Q2 ->
  (forall d', Q1 d' -> Q d') -> (forall d', Q2 d' -> Q d') -> crash_shows d (W1 ++ W2) Q.
Proof.
  intros H1 H2 Q1Q Q2Q p pid [Hp | (c & -> & Hc)]%prefix_app_cases.
  - destruct (H1 p pid Hp) as (r & ? & ? & ?). eauto.
  - rewrite apply_writes_app. destruct (H2 c pid Hc) as (r & ? & ? & ?). eauto.
Qed.

(** A disk with the home blocks of a resting file system shows its file. *)
Lemma disk_file_home s ip p d : resting s ip p -> same_home st sz len d (disk (lbio (dv s))) ->
  disk_file (sb s) (disk_block d) (i_inum p) = (di_size (i_din p), fbytes (view s) p).
Proof.
  intros [Hid Hp Href Hlk Hval Hly Hm Hwf Hnh Hty Hsz Hin Hod] Hs.
  assert (Hag : agree (sb s) (view s) (disk_block d)).
  { intros m Hmm. rewrite idle_view by done. symmetry. apply Hs. by eapply layout_home. }
  rewrite (disk_file_on _ _ p); [| by eapply agree_disk]. f_equal. by eapply agree_fbytes.
Qed.

(** The file after [k] of the bytes [bs] went to offset [off]. *)
Definition partly_written (b : superblock) (inum size off : Z) (old bs : list Z) (k : Z) (d : list blk) : Prop :=
  disk_file b (disk_block d) inum =
    (Z.max size (off + k), splice (Z.to_nat off) (take (Z.to_nat k) bs) old).

(** A chunk less takes eight blocks less. *)
Lemma chunks_step n i n1 : i < n -> 0 < n1 <= 1536 -> i + n1 <= n -> i + n1 = n \/ n1 = 1536 ->
  (8 + 8 * Z.to_nat ((n - (i + n1) + 1536 - 1) / 1536) <= 8 * Z.to_nat ((n - i + 1536 - 1) / 1536))%nat.
Proof.
  intros Hlt Hn1 Hle [Hc | Hc].
  - replace ((n - (i + n1) + 1536 - 1) / 1536) with 0 by (rewrite Hc; replace (n - n + 1536 - 1) with 1535 by lia; done).
    assert (1 <= (n - i + 1536 - 1) / 1536) by (apply Z.div_le_lower_bound; lia). lia.
  - replace (n - i + 1536 - 1) with (n - (i + n1) + 1536 - 1 + 1 * 1536) by lia. rewrite Z.div_add by lia.
    assert (0 <= (n - (i + n1) + 1536 - 1) / 1536) by (apply Z.div_pos; lia). lia.
Qed.

(** [q] bytes after the first [n1], seen from before them. *)
Lemma partly_written_shift b inum size off old addr i n1 q d : 0 <= off -> 0 <= i -> 0 <= n1 -> 0 <= q ->
  i + n1 + q <= Z.of_nat (length addr) -> (Z.to_nat off + Z.to_nat (n1 + q) <= length old)%nat ->
  partly_written b inum (Z.max size (off + n1)) (off + n1) (splice (Z.to_nat off) (slice (Z.to_nat i) (Z.to_nat n1) addr) old)
    (drop (Z.to_nat (i + n1)) addr) q d ->
  partly_written b inum size off old (drop (Z.to_nat i) addr) (n1 + q) d.
Proof.
  intros Ho Hi Hn1 Hq Hlen Hold. unfold partly_written. intros ->. f_equal; [lia |].
  replace (Z.to_nat (off + n1)) with (Z.to_nat off + length (slice (Z.to_nat i) (Z.to_nat n1) addr))%nat by (rewrite length_slice; lia).
  rewrite splice_splice.
  - f_equal. replace (Z.to_nat (n1 + q)) with (Z.to_nat n1 + Z.to_nat q)%nat by lia. rewrite <- take_take_drop, drop_drop.
    replace (Z.to_nat (i + n1)) with (Z.to_nat i + Z.to_nat n1)%nat by lia. done.
  - rewrite length_slice by lia. rewrite length_take, length_drop. lia.
Qed.

Lemma filewrite_loop_ok fuel (s : sysst logst) f x p addr i n :
  ftable s !! f = Some x -> resting (ffs s) (f_ip x) p ->
  avail (sb (ffs s)) (view (ffs s)) (8 * Z.to_nat ((n - i + max_chunk - 1) / max_chunk)) ->
  0 <= f_off x <= di_size (i_din p) -> 0 <= i <= n -> n <= Z.of_nat (length addr) ->
  f_off x + (n - i) <= MAXFILE * 512 -> n - i < Z.of_nat fuel ->
  exists s' p' W, filewrite_loop fuel f addr i n s = Ret n s' /\ sb (ffs s') = sb (ffs s) /\
    ftable s' = <[f := set_off (f_off x + (n - i)) x]> (ftable s) /\
    resting (ffs s') (f_ip x) p' /\ i_inum p' = i_inum p /\
    writes (lbio (dv (ffs s'))) = writes (lbio (dv (ffs s))) ++ W /\
    partly_written (sb (ffs s)) (i_inum p) (di_size (i_din p)) (f_off x) (fbytes (view (ffs s)) p)
      (drop (Z.to_nat i) addr) (n - i) (disk (lbio (dv (ffs s')))) /\
    crash_shows (disk (lbio (dv (ffs s)))) W (fun d => exists k, 0 <= k <= n - i /\ (k = n - i \/ k mod max_chunk = 0) /\
      partly_written (sb (ffs s)) (i_inum p) (di_size (i_din p)) (f_off x) (fbytes (view (ffs s)) p)
        (drop (Z.to_nat i) addr) k d).
Proof.
  revert s x p i. induction fuel as [| fuel IH]; intros s x p i Hx Hre Hav Hoff Hi Hn Hmax Hfuel; [lia |].
  cbn [filewrite_loop]. change max_chunk with 1536 in *. unfold MAXFILE in *.
  assert (Hown : forall d, same_home st sz len d (disk (lbio (dv (ffs s)))) ->
    partly_written (sb (ffs s)) (i_inum p) (di_size (i_din p)) (f_off x) (fbytes (view (ffs s)) p) (drop (Z.to_nat i) addr) 0 d).
  { intros d Hd. unfold partly_written. rewrite (disk_file_home _ _ _ d Hre Hd). rewrite Z.add_0_r, Z.max_l by lia.
    change (Z.to_nat 0) with 0%nat. by rewrite take_0, splice_nil. }
  destruct (Z.ltb_spec i n) as [Hlt | Hge].
  2: { assert (n = i) as -> by lia. rewrite Z.sub_diag in *. exists s, p, [].
       assert (Hsx : set_off (f_off x + 0) x = x) by (rewrite Z.add_0_r; by destruct x).
       rewrite Hsx, list_insert_id by done. rewrite app_nil_r. split_and!; try done; [by apply Hown |].
       intros q pid ->%prefix_nil_inv. cbn. destruct (idle_recovers st sz len Hgeo (dv (ffs s)) pid) as (r & Er & Hr & Hs);
         [apply Hre |]. exists r. split; [done |]. split; [done |]. exists 0. split; [lia |]. split; [by left |]. by apply Hown. }
  set (n1 := if n - i >? 1536 then 1536 else n - i).
  assert (Hn1 : 0 < n1 <= 1536 /\ i + n1 <= n /\ (i + n1 = n \/ n1 = 1536)).
  { unfold n1. destruct (Z.gtb_spec (n - i) 1536); lia. }
  destruct Hn1 as (Hn1 & Hn1n & Hn1c).
  set (k := (8 * Z.to_nat ((n - (i + n1) + 1536 - 1) / 1536))%nat).
  assert (Hk : (8 + k <= 8 * Z.to_nat ((n - i + 1536 - 1) / 1536))%nat) by by apply chunks_step.
  destruct (filewrite_tx_ok s f x p addr i n1 k Hx Hre) as (s1 & p1 & W1 & E1 & Hsb1 & Hft1 & Hre1 & Hin1 & Hs1 & Hb1 & Hav1 & HW1 & HD1 & Hat1);
    [by eapply avail_le | lia | change max_chunk with 1536; lia | lia | lia | unfold MAXFILE; lia |].
  erewrite bind_ret by exact E1. destruct (Z.ltb_spec n1 0); [lia |]. rewrite Z.eqb_refl. cbn [negb].
  set (x1 := set_off (f_off x + n1) x) in *.
  destruct (IH s1 x1 p1 (i + n1)) as (s2 & p2 & W2 & E2 & Hsb2 & Hft2 & Hre2 & Hin2 & HW2 & Hfin & Hcr).
  { rewrite Hft1. apply list_lookup_insert_eq. by eapply lookup_lt_Some. }
  { exact Hre1. } { by rewrite Hsb1. } { cbn. lia. } { lia. } { done. } { cbn. lia. } { lia. }
  assert (Hshift : forall q d, 0 <= q <= n - (i + n1) ->
    partly_written (sb (ffs s1)) (i_inum p1) (di_size (i_din p1)) (f_off x1) (fbytes (view (ffs s1)) p1) (drop (Z.to_nat (i + n1)) addr) q d ->
    partly_written (sb (ffs s)) (i_inum p) (di_size (i_din p)) (f_off x) (fbytes (view (ffs s)) p) (drop (Z.to_nat i) addr) (n1 + q) d).
  { intros q d Hq. rewrite Hsb1, Hin1, Hs1, Hb1. apply partly_written_shift; try lia.
    rewrite (length_fbytes (D := dev_ok) (sb (ffs s)));
      [| apply Hre | intros c Hc; apply vblock_some; [apply Hre | rewrite (lo_len _ _ _ _ (id_ok _ _ _ _ (re_idle _ _ _ Hre))); exact Hc] | apply Hre].
    unfold NMAX, BSIZE. lia. }
  exists s2, p2, (W1 ++ W2). split; [done |]. split; [congruence |]. split; [| split; [done | split; [congruence | split; [| split]]]].
  - rewrite Hft2, Hft1, list_insert_insert_eq. f_equal. unfold x1, set_off. cbn. f_equal. lia.
  - by rewrite HW2, HW1, app_assoc.
  - replace (n - i) with (n1 + (n - (i + n1))) by lia. apply Hshift; [lia | exact Hfin].
  - eapply (crash_shows_app _ W1 W2 (fun d => same_home st sz len d (disk (lbio (dv (ffs s)))) \/ same_home st sz len d (disk (lbio (dv (ffs s1)))))).
    + intros q pid Hq. destruct (Hat1 q pid Hq) as (r & ? & ? & ?). by exists r.
    + rewrite <- HD1. exact Hcr.
    + intros d [Hd | Hd].
      * exists 0. split; [lia |]. split; [by right |]. by apply Hown.
      * exists (n1 + 0). split; [lia |]. split; [destruct Hn1c as [Hc | Hc]; [left; lia | right; by rewrite Hc] |].
        apply Hshift; [lia |]. unfold partly_written. rewrite (disk_file_home _ _ _ d Hre1 Hd).
        rewrite Hs1, Z.add_0_r. change (Z.to_nat 0) with 0%nat. cbn [x1 set_off f_off]. rewrite take_0, splice_nil. f_equal. lia.
    + intros d (q & Hq & Hqc & Hd). exists (n1 + q). split; [lia |]. split; [| by apply Hshift].
      destruct Hn1c as [Hc | Hc]; [left; lia |]. destruct Hqc as [Hqc | Hqc]; [left; lia |].
      right. rewrite Hc. rewrite Z.add_mod, Hqc by lia. done.
Qed.

(** C1. Writing an open file survives crashes: [filewrite] of [n] bytes to a
    regular file, at an offset within it and with enough free blocks, returns
    [n], advances the offset, leaves the log at rest, and the disk then shows
    the file with the bytes spliced in.  If the machine stops after any number
    of the disk writes of the call, recovery gives a file system in which the
    file has exactly the first [k] bytes written, size included, where [k] is
    [n] or a multiple of the 1536 bytes of one transaction. *)
Theorem filewrite_crash_safe (s : sysst logst) (f : nat) (x : file) (p : inode) (addr : list Z) (n : Z)
  (Hx : ftable s !! f = Some x) (Ht : f_type x = FD_INODE) (Hw : f_writable x = true)
  (Hre : resting (ffs s) (f_ip x) p)
  (Hav : avail (sb (ffs s)) (view (ffs s)) (8 * Z.to_nat ((n + max_chunk - 1) / max_chunk)))
  (Hoff : 0 <= f_off x <= di_size (i_din p)) (Hn : 0 <= n <= Z.of_nat (length addr))
  (Hmax : f_off x + n <= MAXFILE * 512) :
  let b := sb (ffs s) in let d := disk (lbio (dv (ffs s))) in
  let old := fbytes (view (ffs s)) p in
  exists s' p' W, filewrite f addr n s = Ret n s' /\
    ftable s' = <[f := set_off (f_off x + n) x]> (ftable s) /\
    resting (ffs s') (f_ip x) p' /\
    writes (lbio (dv (ffs s'))) = writes (lbio (dv (ffs s))) ++ W /\
    partly_written b (i_inum p) (di_size (i_din p)) (f_off x) old addr n (disk (lbio (dv (ffs s')))) /\
    crash_shows d W (fun d' => exists k, 0 <= k <= n /\ (k = n \/ k mod max_chunk = 0) /\
      partly_written b (i_inum p) (di_size (i_din p)) (f_off x) old addr k d').
Proof.
  intros b d old.
  destruct (filewrite_loop_ok (Datatypes.S (Z.to_nat n)) s f x p addr 0 n)
    as (s' & p' & W & E & _ & Hft & Hre' & _ & HW & Hfin & Hcr); rewrite ?Z.sub_0_r; try done; try lia.
  exists s', p', W. rewrite !Z.sub_0_r in *. split; [| done]. unfold filewrite.
  assert (Eg : get_file f s = Ret x s) by (unfold get_file; erewrite bind_ret by done; by rewrite Hx).
  erewrite bind_ret by exact Eg. rewrite Hw, Ht. cbn [negb]. erewrite bind_ret by exact E. by rewrite Z.eqb_refl.
Qed.
End filewrite.

(** ** A small disk: 48 blocks, the log at 2 to 31, inodes at 32 and 33, the
    free map at 34; inode 1 is an empty file, inode 2 an empty directory *)
Definition tiny_sb : superblock := mk_sb 48 13 8 30 2 32 34.
Definition tiny_din : dinode := mk_din T_FILE 0 0 1 0 (replicate 13 0).
Definition tiny_dir_din : dinode := mk_din T_DIR 0 0 1 0 (replicate 13 0).
Definition tiny_iblock : blk :=
  splice 64 (enc_dinode tiny_din) (splice 128 (enc_dinode tiny_dir_din) (replicate 512 0)).
Definition tiny_disk : list blk :=
  <[34%nat := [255; 255; 255; 255; 7] ++ replicate 507 0]>
    (<[32%nat := tiny_iblock]> (replicate 48 (replicate 512 0))).
Definition tiny_log : logst := mk_log (binit tiny_disk 1) 2 30 0 false ROOTDEV (mk_lh 0 (replicate LOGSIZE 0)).
Definition tiny_ino : inode := mk_ino ROOTDEV 1 1 false true tiny_din.
Definition tiny_dir : inode := mk_ino ROOTDEV 2 1 false true tiny_dir_din.
Definition tiny_fs : fsst logst := mk_fs tiny_log tiny_sb [tiny_ino].
Definition tiny_file : file := mk_file FD_INODE 1 true true 0 0 0.
Definition tiny_sys : sysst logst := mk_sys tiny_fs [tiny_file] [Some 0%nat] 0 (mk_user [] 0 0).
#[local] Instance no_devices : Devices logst := {| dev_read := fun _ => None; dev_write := fun _ => None |}.
#[local] Instance no_pipes : PipeOps logst :=
  {| p_new := mret None; p_close := fun _ _ => skip; p_read := fun _ _ => mret (-1, []); p_write := fun _ _ _ => mret (-1) |}.

Lemma tiny_geo : 0 <= 2 /\ 0 < 30 <= 30 /\ 2 + 30 <= 48 /\ 48 < 2 ^ 31.
Proof. lia. Qed.

Lemma tiny_blocks : Forall (fun x => length x = BSIZE) tiny_disk.
Proof.
  unfold tiny_disk. apply Forall_insert; [apply Forall_insert; [by apply Forall_replicate |] |]; by vm_compute.
Qed.

Lemma tiny_idle : idle 2 30 48 tiny_log.
Proof.
  destruct (binit_quiet tiny_disk 1 tiny_blocks) as [Hi Hh Hd Hb].
  split; [split | | | | |]; try done. exists (replicate 512 0). by split.
Qed.

Lemma tiny_view m : vblock (lbio tiny_log) m = disk_block tiny_disk m.
Proof. apply (idle_view 2 30 48), tiny_idle. Qed.

Lemma empty_addr p k : di_addrs (i_din p) = replicate 13 0 -> addr_of p k = 0.
Proof. intros H. unfold addr_of. rewrite H. by do 14 (destruct k as [| k]; [done |]). Qed.

Lemma empty_faddr v p i : di_addrs (i_din p) = replicate 13 0 -> faddr v p i = 0.
Proof. intros H. unfold faddr. rewrite !empty_addr by done. by destruct (i <? NDIRECT)%nat. Qed.

Lemma tiny_layout d w : layout (D := log_dev_ok 2 30 48 tiny_geo d w) tiny_sb.
Proof.
  split; cbn; try (unfold IPB, BPB; lia); try done. intros m Hm. split; [lia |]. unfold in_log. lia.
Qed.

Lemma tiny_used m : 0 <= m < 48 -> used tiny_sb (vblock (lbio tiny_log)) m = (m <? 35).
Proof.
  intros Hm. unfold used. rewrite tiny_view.
  assert (Hb : BBLOCK m tiny_sb = 34) by (unfold BBLOCK, BPB; cbn; rewrite Z.div_small by lia; done).
  rewrite Hb. unfold BPB. rewrite Z.mod_small by lia.
  assert (Hall : forallb (fun k => eqb (match disk_block tiny_disk 34 with Some x => bit_at x k | None => true end)
                                   (Z.of_nat k <? 35)) (seq 0 48) = true) by (vm_compute; reflexivity).
  rewrite forallb_forall in Hall. specialize (Hall (Z.to_nat m)). rewrite in_seq in Hall.
  rewrite Z2Nat.id in Hall by lia. apply eqb_prop. apply Hall. lia.
Qed.

Lemma tiny_meta : meta_used tiny_sb (vblock (lbio tiny_log)).
Proof. intros m Hm. change (datastart tiny_sb) with 35 in Hm. rewrite tiny_used by lia. destruct (Z.ltb_spec m 35); [done | lia]. Qed.

Lemma empty_wf v p : i_dev p = ROOTDEV -> di_addrs (i_din p) = replicate 13 0 -> wf_file tiny_sb v p.
Proof.
  intros Hd H. split; try done; intros; rewrite ?empty_faddr, ?empty_addr in * by done; try done. by rewrite H.
Qed.

Lemma tiny_avail : avail tiny_sb (vblock (lbio tiny_log)) 8.
Proof.
  exists (map Z.of_nat (seq 35 8)). split; [by apply NoDup_fmap_2; [apply _ | apply NoDup_seq] |]. split; [done |].
  apply Forall_fmap, Forall_forall. intros k Hk%elem_of_seq. cbn. rewrite tiny_used by lia.
  split; [lia |]. destruct (Z.ltb_spec (Z.of_nat k) 35); [lia | done].
Qed.

Lemma tiny_on_disk : on_disk tiny_sb (vblock (lbio tiny_log)) tiny_ino.
Proof. exists tiny_iblock. rewrite tiny_view. split; [reflexivity |]. vm_compute. reflexivity. Qed.
Lemma tiny_dir_on_disk : on_disk tiny_sb (vblock (lbio tiny_log)) tiny_dir.
Proof. exists tiny_iblock. rewrite tiny_view. split; [reflexivity |]. vm_compute. reflexivity. Qed.

Lemma tiny_resting : resting 2 30 48 tiny_geo tiny_fs 0 tiny_ino.
Proof.
  split; try done.
  - apply tiny_idle.
  - apply tiny_layout.
  - apply tiny_meta.
  - by apply empty_wf.
  - intros bn H. cbn in H. lia.
  - apply tiny_on_disk.
Qed.

Lemma tiny_file_at p r : (r <= 29)%nat -> i_dev p = ROOTDEV -> di_addrs (i_din p) = replicate 13 0 -> di_size (i_din p) = 0 ->
  di_type (i_din p) <> T_DEV -> 0 <= i_inum p < 8 -> on_disk tiny_sb (vblock (lbio tiny_log)) p ->
  file_at (D := log_dev_ok 2 30 48 tiny_geo tiny_disk []) (mk_fs (with_outstanding 1 tiny_log) tiny_sb [p])
    (vblock (lbio tiny_log)) r 0 p.
Proof.
  intros Hr Hdev Haddr Hsize Hty Hinum Hod. split; try done.
  - eapply (law_room (BlockDevOk := log_dev_ok 2 30 48 tiny_geo tiny_disk [])); [exact Hr |].
    apply (begin_tx 2 30 48 tiny_log tiny_geo tiny_idle).
  - apply tiny_layout.
  - apply tiny_meta.
  - by apply empty_wf.
  - intros bn H. rewrite Hsize in H. lia.
  - rewrite Hsize. unfold MAXFILE. lia.
Qed.

Lemma readi_spec_witness :
  (exists s', readi 0 0 5 (mk_fs (with_outstanding 1 tiny_log) tiny_sb [tiny_ino]) = Ret (0, []) s') /\
  readi 0 1 5 (mk_fs (with_outstanding 1 tiny_log) tiny_sb [tiny_ino]) = Ret (-1, []) (mk_fs (with_outstanding 1 tiny_log) tiny_sb [tiny_ino]).
Proof.
  pose proof (tiny_file_at tiny_ino 0 ltac:(lia) eq_refl eq_refl eq_refl ltac:(done) ltac:(done) tiny_on_disk) as Hf.
  split.
  - destruct (readi_spec (D := log_dev_ok 2 30 48 tiny_geo tiny_disk []) (mk_fs (with_outstanding 1 tiny_log) tiny_sb [tiny_ino])
      (vblock (lbio tiny_log)) 0 0 tiny_ino 0 5 Hf ltac:(lia) ltac:(lia)) as (s' & E & _). exists s'. exact E.
  - exact (readi_spec (D := log_dev_ok 2 30 48 tiny_geo tiny_disk []) (mk_fs (with_outstanding 1 tiny_log) tiny_sb [tiny_ino])
      (vblock (lbio tiny_log)) 0 0 tiny_ino 1 5 Hf ltac:(lia) ltac:(lia)).
Defined.

Lemma writei_spec_witness :
  (exists s' v' p', writei 0 [104; 105] 0 2 (mk_fs (with_outstanding 1 tiny_log) tiny_sb [tiny_ino]) = Ret 2 s' /\
    fbytes v' p' = splice 0 [104; 105] (fbytes (vblock (lbio tiny_log)) tiny_ino)) /\
  writei 0 [104; 105] 1 2 (mk_fs (with_outstanding 1 tiny_log) tiny_sb [tiny_ino]) = Ret (-1) (mk_fs (with_outstanding 1 tiny_log) tiny_sb [tiny_ino]).
Proof.
  pose proof (tiny_file_at tiny_ino 7 ltac:(lia) eq_refl eq_refl eq_refl ltac:(done) ltac:(done) tiny_on_disk) as Hf.
  assert (Hav : avail tiny_sb (vblock (lbio tiny_log)) (2 * 1)) by (eapply avail_le; [| exact tiny_avail]; lia).
  split.
  - destruct (writei_spec (D := log_dev_ok 2 30 48 tiny_geo tiny_disk []) (mk_fs (with_outstanding 1 tiny_log) tiny_sb [tiny_ino])
      (vblock (lbio tiny_log)) 0 0 tiny_ino [104; 105] 0 2 1 Hf Hav ltac:(lia) ltac:(cbn; lia) ltac:(lia) ltac:(vm_compute; discriminate))
      as (s' & v' & p' & E & _ & _ & Hb & _). exists s', v', p'. split; [exact E | exact Hb].
  - exact (writei_spec (D := log_dev_ok 2 30 48 tiny_geo tiny_disk []) (mk_fs (with_outstanding 1 tiny_log) tiny_sb [tiny_ino])
      (vblock (lbio tiny_log)) 0 0 tiny_ino [104; 105] 1 2 1 Hf Hav ltac:(lia) ltac:(cbn; lia) ltac:(lia) ltac:(vm_compute; discriminate)).
Defined.

Lemma filewrite_crash_safe_witness :
  exists s', filewrite 0 [104; 105] 2 tiny_sys = Ret 2 s' /\ ftable s' = [set_off 2 tiny_file].
Proof.
  destruct (filewrite_crash_safe 2 30 48 tiny_geo ltac:(lia) tiny_sys 0 tiny_file tiny_ino [104; 105] 2)
    as (s' & p' & W & E & Hf & _); try reflexivity.
  - exact tiny_resting.
  - exact tiny_avail.
  - cbn. lia.
  - cbn. lia.
  - cbn. unfold MAXFILE. lia.
  - exists s'. split; [exact E | exact Hf].
Defined.

Lemma dirlink_then_lookup_witness :
  exists s', dirlink 0 (dot ++ replicate 12 0) 2 (mk_fs (with_outstanding 1 tiny_log) tiny_sb [tiny_dir]) = Ret 0 s'.
Proof.
  destruct (dirlink_then_lookup (D := log_dev_ok 2 30 48 tiny_geo tiny_disk []) (mk_fs (with_outstanding 1 tiny_log) tiny_sb [tiny_dir])
    (vblock (lbio tiny_log)) 0 0 tiny_dir (dot ++ replicate 12 0) 2) as (s' & v' & p' & j & E & _).
  - split; [apply (tiny_file_at tiny_dir 7 ltac:(lia)); try done; apply tiny_dir_on_disk | reflexivity | reflexivity].
  - repeat (apply Forall_cons; split; [unfold is_byte; lia |]). apply Forall_nil. exact I.
  - left. cbn. unfold DIRSIZ. lia.
  - lia.
  - eapply avail_le; [| exact tiny_avail]. lia.
  - vm_compute. lia.
  - reflexivity.
  - exists s'. exact E.
Defined.
