(* ===== verification/FileSpec.v ===== *)
(** * FileSpec: descriptors and reference counts

    Every system call of sysfile.c keeps the reference count of each open file
    equal to the number of descriptors that refer to it.  The proofs use
    partial-correctness triples over the monad: a call that sleeps or panics is
    covered up to that point by the triples of its parts. *)

From Stdlib Require Import ZArith Lia.
From stdpp Require Import base numbers strings option list.
From S2P Require Import Prelude KString Kernel Bio Log Fs Syscall File.

(** [triple P m Q]: from a state in [P], if [m] returns, its result and state are in [Q]. *)
Definition triple {S A : Type} (P : S -> Prop) (m : M S A) (Q : A -> S -> Prop) : Prop :=
  forall s a s', P s -> m s = Ret a s' -> Q a s'.

Section triples.
Context {S A B : Type}.
Implicit Types (P : S -> Prop).

Lemma triple_bind P (m : M S A) (k : A -> M S B) (R : A -> S -> Prop) Q :
  triple P m R -> (forall a, triple (R a) (k a) Q) -> triple P (m ≫= k) Q.
Proof. intros Hm Hk s b s' HP (a & s1 & E1 & E2)%bind_inv. by eapply Hk, E2; eapply Hm, E1. Qed.

Lemma triple_ret P (a : A) (Q : A -> S -> Prop) : (forall s, P s -> Q a s) -> triple P (mret a) Q.
Proof. intros H s b s' HP [= <- <-]. auto. Qed.

Lemma triple_stop P msg (Q : A -> S -> Prop) : triple P (stop msg) Q.
Proof. by intros s a s' _. Qed.

Lemma triple_gets P (f : S -> A) (Q : A -> S -> Prop) : (forall s, P s -> Q (f s) s) -> triple P (gets f) Q.
Proof. intros H s b s' HP [= <- <-]. auto. Qed.

Lemma triple_conseq P P' (m : M S A) (Q Q' : A -> S -> Prop) :
  triple P' m Q' -> (forall s, P s -> P' s) -> (forall a s, Q' a s -> Q a s) -> triple P m Q.
Proof. intros H HP HQ s a s' Hs E. eapply HQ, H; eauto. Qed.
End triples.

Create HintDb triple.
#[export] Hint Resolve triple_ret triple_stop : triple.

Section refs.
Context {S : Type} {B : BlockDev S} {V : Devices S} {T : TxDev S} {P : PipeOps S}.
Implicit Types (s : sysst S) (o : nat -> Z).

(** Descriptors of this process that refer to file [f]. *)
Definition refs (l : list (option nat)) (f : nat) : Z := Z.of_nat (length (filter (.= Some f) l)).

(** The counts match, with [o f] references held outside the descriptor table:
    by other processes, and by the code of a system call in progress. *)
Record counted o s : Prop := {
  ct_len : length (ofile s) = NOFILE;
  ct_ref : forall f x, ftable s !! f = Some x -> f_ref x = refs (ofile s) f + o f;
  ct_open : forall f, Some f ∈ ofile s -> (f < length (ftable s))%nat;
  ct_free : forall f x, ftable s !! f = Some x -> f_ref x = 0 -> f_type x = FD_NONE
}.
Definition bump (f : nat) (d : Z) o : nat -> Z := fun g => if decide (g = f) then o g + d else o g.

Lemma bump_bump f d e o g : bump f d (bump f e o) g = bump f (d + e) o g.
Proof. unfold bump. case_decide; lia. Qed.
Lemma bump_0 f o g : bump f 0 o g = o g.
Proof. unfold bump. case_decide; lia. Qed.

Lemma counted_ext o o' s : (forall g, o g = o' g) -> counted o s -> counted o' s.
Proof. intros H []. split; try done. intros f x Hx. rewrite <- H. auto. Qed.

Lemma refs_insert l fd f g a : l !! fd = Some a ->
  refs (<[fd := Some f]> l) g + (if decide (a = Some g) then 1 else 0) = refs l g + (if decide (g = f) then 1 else 0).
Proof.
  intros H. unfold refs. rewrite (insert_take_drop l fd (Some f)) by by eapply lookup_lt_Some.
  rewrite <- (take_drop_middle l fd a H) at 3. rewrite !filter_app, !filter_cons, !length_app.
  repeat case_decide; simplify_eq; cbn; lia.
Qed.
Lemma refs_clear l fd g a : l !! fd = Some a ->
  refs (<[fd := None]> l) g + (if decide (a = Some g) then 1 else 0) = refs l g.
Proof.
  intros H. unfold refs. rewrite (insert_take_drop l fd None) by by eapply lookup_lt_Some.
  rewrite <- (take_drop_middle l fd a H) at 3. rewrite !filter_app, !filter_cons, !length_app.
  repeat case_decide; simplify_eq; cbn; lia.
Qed.

(** ** The parts *)

(** Calls of fs.c and below leave the tables alone. *)
Lemma fcall_counted {A} o (m : M (fsst S) A) : triple (counted o) (fcall m) (fun _ => counted o).
Proof.
  intros s a s' [] E. unfold fcall in E. destruct (m (ffs s)); try done. injection E as _ <-. by split.
Qed.
Lemma fcall_frame {A} (Q : list file -> list (option nat) -> Prop) (m : M (fsst S) A) :
  triple (fun s => Q (ftable s) (ofile s)) (fcall m) (fun _ s => Q (ftable s) (ofile s)).
Proof. intros s a s' HQ E. unfold fcall in E. destruct (m (ffs s)); try done. by injection E as _ <-. Qed.

Lemma fcall_frame_counted {A} o (Q : list file -> list (option nat) -> Prop) (m : M (fsst S) A) :
  triple (fun s => counted o s /\ Q (ftable s) (ofile s)) (fcall m) (fun _ s => counted o s /\ Q (ftable s) (ofile s)).
Proof. intros s a s' [Hc HQ] E. split; [by eapply fcall_counted, E | by eapply (fcall_frame Q), E]. Qed.

Lemma store_counted o p bs : triple (counted o) (store_user (S := S) p bs) (fun _ => counted o).
Proof. intros s a s' [] [= <- <-]. by split. Qed.

Lemma get_file_inv s f x s' : get_file f s = Ret x s' -> s' = s /\ ftable s !! f = Some x.
Proof.
  unfold get_file. intros (l & s1 & [= <- <-] & E2)%bind_inv. unfold from_option in E2.
  destruct (ftable s !! f); [| done]. by injection E2 as -> ->.
Qed.

(** Changing an entry without its count. *)
Lemma put_file_counted o s f x y s' a : ftable s !! f = Some x -> f_ref y = f_ref x -> (f_ref y = 0 -> f_type y = FD_NONE) ->
  counted o s -> put_file f y s = Ret a s' -> counted o s'.
Proof.
  intros Hx Hr Hz [] [= <- <-]. split; cbn; try done.
  - intros g z Hz'. destruct (decide (g = f)) as [-> | Hne].
    + rewrite list_lookup_insert_eq in Hz' by by eapply lookup_lt_Some. injection Hz' as <-. rewrite Hr. auto.
    + rewrite list_lookup_insert_ne in Hz' by done. auto.
  - intros g Hg. rewrite length_insert. auto.
  - intros g z Hz' H0. destruct (decide (g = f)) as [-> | Hne].
    + rewrite list_lookup_insert_eq in Hz' by by eapply lookup_lt_Some. injection Hz' as <-. auto.
    + rewrite list_lookup_insert_ne in Hz' by done. eauto.
Qed.

(** Changing a count by [d]. *)
Lemma set_count_counted o s f x y d : ftable s !! f = Some x -> f_ref y = f_ref x + d -> (f_ref y = 0 -> f_type y = FD_NONE) ->
  counted o s -> counted (bump f d o) (mk_sys (ffs s) (<[f := y]> (ftable s)) (ofile s) (cwd s) (usr s)).
Proof.
  intros Hx Hr Hz []. split; cbn; try done.
  - intros g z Hz'. unfold bump. case_decide as Hg.
    + subst g. rewrite list_lookup_insert_eq in Hz' by by eapply lookup_lt_Some. injection Hz' as <-. rewrite Hr, (ct_ref0 f x Hx). lia.
    + rewrite list_lookup_insert_ne in Hz' by done. auto.
  - intros g Hg. rewrite length_insert. auto.
  - intros g z Hz' H0. destruct (decide (g = f)) as [-> | Hne].
    + rewrite list_lookup_insert_eq in Hz' by by eapply lookup_lt_Some. injection Hz' as <-. auto.
    + rewrite list_lookup_insert_ne in Hz' by done. eauto.
Qed.

Lemma filealloc_counted o : triple (fun s => counted o s /\ forall g, 0 <= o g) filealloc
  (fun r s => match r with
              | Some f => counted (bump f 1 o) s /\ (f < length (ftable s))%nat
              | None => counted o s
              end).
Proof.
  intros s a s' [Hc Ho] (l & s1 & [= <- <-] & E)%bind_inv. destruct (find_index _ (ftable s)) as [i |] eqn:Ei; [| by injection E as <- <-].
  apply bind_inv in E as (x & s2 & (-> & Hx)%get_file_inv & E). apply bind_inv in E as (u & s3 & [= _ <-] & [= <- <-]).
  apply find_index_Some in Ei as [(x' & Hx' & Hz) _]. assert (x' = x) as -> by congruence. apply Z.eqb_eq in Hz.
  split; [| cbn; rewrite length_insert; by eapply lookup_lt_Some]. by apply (set_count_counted o s i x); cbn; [| lia | |].
Qed.

Lemma filedup_counted o f : triple (counted o) (filedup f) (fun _ => counted (bump f 1 o)).
Proof.
  intros s a s' Hc (x & s2 & (-> & Hx)%get_file_inv & E)%bind_inv. destruct (f_ref x <? 1) eqn:El; [done |].
  apply Z.ltb_ge in El. apply bind_inv in E as (u & s3 & [= _ <-] & [= <- <-]).
  apply (set_count_counted o s f x); cbn; try done. lia.
Qed.

Lemma fileclose_counted o f : triple (counted o) (fileclose f) (fun _ => counted (bump f (-1) o)).
Proof.
  intros s a s' Hc (x & s2 & (-> & Hx)%get_file_inv & E)%bind_inv. destruct (Z.ltb_spec (f_ref x) 1); [done |].
  destruct (Z.gtb_spec (f_ref x - 1) 0).
  - injection E as _ <-. apply (set_count_counted o s f x); cbn; try done. lia.
  - apply bind_inv in E as (u & s3 & [= _ <-] & E).
    assert (Hc' : counted (bump f (-1) o) (mk_sys (ffs s) (<[f := mk_file FD_NONE 0 (f_readable x) (f_writable x) (f_pipe x) (f_ip x) (f_off x)]> (ftable s)) (ofile s) (cwd s) (usr s))).
    { apply (set_count_counted o s f x); cbn; try done. lia. }
    destruct (f_type x).
    + by injection E as _ <-.
    + by eapply fcall_counted, E.
    + refine (triple_bind _ _ _ _ (fun _ => counted _) (fcall_counted _ _) _ _ a s' Hc' E).
      intros ?. eapply triple_bind; [apply fcall_counted |]. intros ?. apply fcall_counted.
Qed.

Lemma fdalloc_counted o f : triple (fun s => counted o s /\ (f < length (ftable s))%nat) (fdalloc f)
  (fun r s => match r with
              | Some fd => counted (bump f (-1) o) s /\ ofile s !! fd = Some (Some f)
              | None => counted o s
              end).
Proof.
  intros s a s' [Hc Hf] (l & s1 & [= <- <-] & E)%bind_inv. destruct (find_index _ (ofile s)) as [fd |] eqn:Ei; [| by injection E as <- <-].
  apply bind_inv in E as (u & s3 & [= _ <-] & [= <- <-]). apply find_index_Some in Ei as [(a & Ha & Hn) _].
  apply bool_decide_eq_true in Hn as ->. destruct Hc. split; [split; cbn; try done |].
  - by rewrite length_insert.
  - intros g x Hx. pose proof (refs_insert (ofile s) fd f g None Ha) as H. rewrite decide_False in H by done.
    rewrite (ct_ref0 g x Hx). unfold bump. case_decide; lia.
  - intros g Hg. apply list_elem_of_lookup in Hg as [k Hk]. destruct (decide (k = fd)) as [-> | Hne].
    + rewrite list_lookup_insert_eq in Hk by by eapply lookup_lt_Some. by injection Hk as <-.
    + rewrite list_lookup_insert_ne in Hk by done. apply ct_open0. by eapply list_elem_of_lookup_2.
  - cbn. apply list_lookup_insert_eq. by eapply lookup_lt_Some.
Qed.

Lemma clear_counted o fd f : triple (fun s => counted o s /\ ofile s !! fd = Some (Some f)) (put_ofile (S := S) fd None)
  (fun _ => counted (bump f 1 o)).
Proof.
  intros s a s' [[] Hfd] [= _ <-]. split; cbn; try done.
  - by rewrite length_insert.
  - intros g x Hx. pose proof (refs_clear (ofile s) fd g _ Hfd) as H. rewrite (ct_ref0 g x Hx). unfold bump.
    repeat case_decide; simplify_eq; lia.
  - intros g Hg. apply list_elem_of_lookup in Hg as [k Hk]. destruct (decide (k = fd)) as [-> | Hne].
    + by rewrite list_lookup_insert_eq in Hk by by eapply lookup_lt_Some.
    + rewrite list_lookup_insert_ne in Hk by done. apply ct_open0. by eapply list_elem_of_lookup_2.
Qed.

(** ** Calls that change no count *)
Definition neutral {A} (m : M (sysst S) A) : Prop := forall o, triple (counted o) m (fun _ => counted o).

Lemma neutral_bind {A A'} (m : M (sysst S) A) (k : A -> M (sysst S) A') :
  neutral m -> (forall a, neutral (k a)) -> neutral (m ≫= k).
Proof. intros Hm Hk o. eapply triple_bind; [apply Hm |]. intros a. apply Hk. Qed.
Lemma neutral_ret {A} (a : A) : neutral (mret a).
Proof. intros o. by apply triple_ret. Qed.
Lemma neutral_stop {A} msg : neutral (A := A) (stop msg).
Proof. intros o. apply triple_stop. Qed.
Lemma neutral_gets {A} (f : sysst S -> A) : neutral (gets f).
Proof. intros o. by apply triple_gets. Qed.
Lemma neutral_fcall {A} (m : M (fsst S) A) : neutral (fcall m).
Proof. intros o. apply fcall_counted. Qed.
Lemma neutral_store p bs : neutral (store_user p bs).
Proof. intros o. apply store_counted. Qed.
Lemma neutral_cwd ip : neutral (put_cwd ip).
Proof. intros o s a s' [] [= _ <-]. by split. Qed.
Lemma neutral_fuel {A} : neutral (A := A) out_of_fuel.
Proof. by intros o s a s' _. Qed.

(** With an entry of the table in hand. *)
Definition holds (f : nat) (x : file) o s : Prop := counted o s /\ ftable s !! f = Some x.

Lemma neutral_get {A} f (k : file -> M (sysst S) A) :
  (forall x o, triple (holds f x o) (k x) (fun _ => counted o)) -> neutral (get_file f ≫= k).
Proof.
  intros H o s a s' Hc (x & s1 & (-> & Hx)%get_file_inv & E)%bind_inv. by eapply H, E.
Qed.
Lemma holds_fcall {A A'} f x o (m : M (fsst S) A) (k : A -> M (sysst S) A') :
  (forall a, triple (holds f x o) (k a) (fun _ => counted o)) -> triple (holds f x o) (fcall m ≫= k) (fun _ => counted o).
Proof.
  intros Hk. eapply triple_bind; [| exact Hk]. intros s a s' [Hc Hx] E. split; [by eapply fcall_counted, E |].
  by eapply (fcall_frame (fun l _ => l !! f = Some x)), E.
Qed.
Lemma holds_neutral {A} f x o (m : M (sysst S) A) : neutral m -> triple (holds f x o) m (fun _ => counted o).
Proof. intros H s a s' [Hc _]. by apply H. Qed.
Lemma holds_off {A} f x o n (b : bool) (k : unit -> M (sysst S) A) : (forall u, neutral (k u)) ->
  triple (holds f x o) ((if b then put_file f (set_off n x) else skip) ≫= k) (fun _ => counted o).
Proof.
  intros Hk. eapply triple_bind; [| intros a; apply Hk]. intros s a s' [Hc Hx]. destruct b; [| by intros [= _ <-]].
  apply (put_file_counted o s f x); [done | done | | done]. cbn. by eapply ct_free.
Qed.
End refs.

#[export] Hint Resolve neutral_ret neutral_stop neutral_gets neutral_fcall neutral_store neutral_cwd neutral_fuel
  holds_neutral : triple.

(** Decompose a call into its parts. *)
Ltac neutral_step :=
  lazymatch goal with
  | |- neutral (mbind _ (get_file _)) => apply neutral_get; intros ? ?
  | |- neutral (mbind _ _) => apply neutral_bind; [| intros ?]
  | |- triple (holds _ _ _) (mbind _ (fcall _)) _ => apply holds_fcall; intros ?
  | |- triple (holds _ _ _) (mbind _ (dcall _)) _ => apply holds_fcall; intros ?
  | |- triple (holds _ _ _) (mbind _ k_begin_op) _ => apply holds_fcall; intros ?
  | |- triple (holds _ _ _) (mbind _ (if _ then put_file _ _ else _)) _ => apply holds_off; intros ?
  | |- triple (holds _ _ _) (mret _) _ => apply holds_neutral
  | |- triple (holds _ _ _) (dcall _) _ => apply holds_neutral
  | |- triple (holds _ _ _) (stop _) _ => apply holds_neutral
  | |- neutral (dcall _) => apply neutral_fcall
  | |- neutral k_end_op => apply neutral_fcall
  | |- neutral k_begin_op => apply neutral_fcall
  | |- context [match ?x with _ => _ end] => destruct x
  end.
Ltac neutrals := repeat (solve [eauto with triple] || neutral_step).

Section calls.
Context {S : Type} {B : BlockDev S} {V : Devices S} {T : TxDev S} {P : PipeOps S}.
Implicit Types (s : sysst S) (o : nat -> Z).

Lemma neutral_filestat f : neutral (filestat f).
Proof. unfold filestat. neutrals. Qed.
Lemma neutral_fileread f n : neutral (fileread f n).
Proof. unfold fileread. neutrals. Qed.
Lemma neutral_tx f addr i n : neutral (filewrite_tx f addr i n).
Proof. unfold filewrite_tx. neutrals. Qed.
Lemma neutral_loop fuel f addr i n : neutral (filewrite_loop fuel f addr i n).
Proof.
  revert i. induction fuel as [| fuel IH]; intros i; cbn [filewrite_loop]; [apply neutral_fuel |].
  destruct (i <? n); [| apply neutral_ret]. apply neutral_bind; [apply neutral_tx | intros r]. neutrals.
Qed.
Lemma neutral_filewrite f addr n : neutral (filewrite f addr n).
Proof.
  unfold filewrite. apply neutral_get. intros x o. apply holds_neutral. destruct (negb _); [apply neutral_ret |].
  destruct (f_type x); [apply neutral_stop | apply neutral_fcall |]. apply neutral_bind; [apply neutral_loop | intros i; apply neutral_ret].
Qed.

Lemma neutral_argfd n : neutral (argfd (S := S) n).
Proof. unfold argfd. neutrals. Qed.
Lemma argfd_counted n o : triple (counted o) (argfd (S := S) n)
  (fun r s => match r with Some (fd, f) => counted o s /\ ofile s !! fd = Some (Some f) | None => counted o s end).
Proof.
  intros s a s' Hc (i & s1 & [= <- <-] & E)%bind_inv. apply bind_inv in E as (l & s2 & [= <- <-] & [= <- <-]).
  destruct (argint n (usr s)) as [fd |]; [| done]. cbn [mbind option_bind]. destruct ((fd <? 0) || _); [done |].
  destruct (ofile s !! Z.to_nat fd) as [[f |] |] eqn:E; try done.
Qed.

(** ** The calls that move references *)
Lemma dup_counted o : triple (counted o) (sys_dup (S := S)) (fun _ => counted o).
Proof.
  unfold sys_dup. eapply triple_bind; [apply argfd_counted |]. intros [[fd f] |]; [| by apply triple_ret].
  eapply triple_bind.
  { eapply triple_conseq; [apply (fdalloc_counted o f) | | done]. intros s [Hc Hf]. split; [done |].
    apply (ct_open _ _ Hc). by eapply list_elem_of_lookup_2. }
  intros [fd' |]; [| by apply triple_ret]. eapply triple_bind.
  { eapply triple_conseq; [apply (filedup_counted (bump f (-1) o) f) | by intros s [? _] | done]. }
  intros ?. apply triple_ret. intros s. apply counted_ext. intros g. rewrite bump_bump. apply bump_0.
Qed.

Lemma close_counted o : triple (counted o) (sys_close (S := S)) (fun _ => counted o).
Proof.
  unfold sys_close. eapply triple_bind; [apply argfd_counted |]. intros [[fd f] |]; [| by apply triple_ret].
  eapply triple_bind; [apply clear_counted |]. intros ?. eapply triple_bind; [apply fileclose_counted |].
  intros ?. apply triple_ret. intros s. apply counted_ext. intros g. rewrite bump_bump. apply bump_0.
Qed.

Lemma bump_pos f o : (forall g, 0 <= o g) -> forall g, 0 <= bump f 1 o g.
Proof. intros H g. unfold bump. case_decide; [specialize (H g); lia | done]. Qed.

Lemma filealloc_len s a s' : filealloc s = Ret a s' -> length (ftable s') = length (ftable s).
Proof.
  intros (l & s1 & [= <- <-] & E)%bind_inv. destruct (find_index _ (ftable s)); [| by injection E as <- <-].
  apply bind_inv in E as (x & s2 & (-> & Hx)%get_file_inv & E). apply bind_inv in E as (u & s3 & [= _ <-] & [= <- <-]).
  cbn. apply length_insert.
Qed.
Lemma fdalloc_len f s a s' : fdalloc f s = Ret a s' -> length (ftable s') = length (ftable s).
Proof.
  intros (l & s1 & [= <- <-] & E)%bind_inv. destruct (find_index _ (ofile s)); [| by injection E as <- <-].
  by apply bind_inv in E as (u & s3 & [= _ <-] & [= <- <-]).
Qed.
Lemma fdalloc_none f s s' : fdalloc f s = Ret None s' -> s' = s.
Proof.
  intros (l & s1 & [= <- <-] & E)%bind_inv. destruct (find_index _ (ofile s)); [| by injection E as <-].
  by apply bind_inv in E as (u & s3 & [= _ <-] & ?).
Qed.

(** A fresh file with a descriptor, or nothing. *)
Lemma open_slot_counted o : (forall g, 0 <= o g) -> triple (counted o) (open_slot (S := S))
  (fun r s => counted o s /\ match r with Some (f, fd) => ofile s !! fd = Some (Some f) | None => True end).
Proof.
  intros Ho. unfold open_slot. eapply triple_bind.
  { eapply triple_conseq; [apply (filealloc_counted o) | by intros s Hc | done]. }
  intros [f |]; [| by apply triple_ret]. eapply triple_bind; [apply fdalloc_counted |]. intros [fd |].
  - apply triple_ret. intros s [Hc Hf]. split; [| done]. revert Hc. apply counted_ext. intros g. rewrite bump_bump. apply bump_0.
  - eapply triple_bind; [apply fileclose_counted |]. intros ?. apply triple_ret. intros s Hc. split; [| done].
    revert Hc. apply counted_ext. intros g. rewrite bump_bump. apply bump_0.
Qed.

(** The entry behind a descriptor is in use. *)
Lemma counted_pos o s fd f x : (forall g, 0 <= o g) -> counted o s -> ofile s !! fd = Some (Some f) ->
  ftable s !! f = Some x -> 1 <= f_ref x.
Proof.
  intros Ho Hc Hfd Hx. rewrite (ct_ref _ _ Hc f x Hx). specialize (Ho f).
  pose proof (refs_clear (ofile s) fd f _ Hfd) as H. rewrite decide_True in H by done.
  assert (0 <= refs (<[fd := None]> (ofile s)) f) by (unfold refs; lia). lia.
Qed.

Lemma open_counted o : (forall g, 0 <= o g) -> triple (counted o) (sys_open (S := S)) (fun _ => counted o).
Proof.
  intros Ho. unfold sys_open, k_argstr, k_argint.
  eapply triple_bind; [by apply (triple_gets _ _ (fun _ => counted o)) |]. intros path.
  eapply triple_bind; [by apply (triple_gets _ _ (fun _ => counted o)) |]. intros omode.
  eapply triple_bind; [by apply (triple_gets _ _ (fun _ => counted o)) |]. intros c.
  destruct path as [path |]; [| by apply triple_ret]. destruct omode as [omode |]; [| by apply triple_ret].
  eapply triple_bind; [apply fcall_counted |]. intros ?. eapply triple_bind; [apply fcall_counted |].
  intros [ip |]; cycle 1.
  { assert (H : neutral (k_end_op (S := S);; mret (-1))) by neutrals. apply H. }
  eapply triple_bind; [by apply open_slot_counted |]. intros [[f fd] |].
  - eapply triple_bind; [apply (fcall_frame_counted o (fun _ l => l !! fd = Some (Some f))) |]. intros ?.
    eapply triple_bind; [apply (fcall_frame_counted o (fun _ l => l !! fd = Some (Some f))) |]. intros ?.
    intros s r s' [Hc Hfd] (x & s1 & (-> & Hx)%get_file_inv & E)%bind_inv. apply bind_inv in E as (u & s2 & E1 & [= _ <-]).
    pose proof (counted_pos o s fd f x Ho Hc Hfd Hx) as Hp.
    eapply (put_file_counted o s f x _ s2 u Hx); [| | exact Hc | exact E1]; cbn; [done | lia].
  - assert (H : neutral (fcall (iunlockput ip);; k_end_op;; mret (-1))) by neutrals.
    eapply triple_conseq; [apply (H o) | by intros s [? _] | done].
Qed.

(** [pipealloc] hands two files to its caller. *)
Definition two (f0 f1 : nat) o : nat -> Z := bump f1 1 (bump f0 1 o).

Lemma set_pipe_counted o f b0 b1 p (Q : list (option nat) -> nat -> Prop) : (forall g, 0 <= o g) -> 1 <= o f ->
  triple (fun s => counted o s /\ Q (ofile s) (length (ftable s))) (set_pipe (S := S) f b0 b1 p)
    (fun _ s => counted o s /\ Q (ofile s) (length (ftable s))).
Proof.
  intros Ho Hf s a s' [Hc HQ] (x & s1 & (-> & Hx)%get_file_inv & E)%bind_inv.
  assert (Hr : 0 < f_ref x) by (rewrite (ct_ref _ _ Hc f x Hx); unfold refs; lia).
  split; [eapply (put_file_counted o s f x _ s' a Hx); [| | exact Hc | exact E]; cbn; [done | lia] |].
  injection E as _ <-. cbn. by rewrite length_insert.
Qed.

Lemma pipealloc_counted o : (forall g, 0 <= o g) -> triple (counted o) (pipealloc (S := S))
  (fun r s => match r with
              | Some (f0, f1) => counted (two f0 f1 o) s /\ (f0 < length (ftable s))%nat /\ (f1 < length (ftable s))%nat
              | None => counted o s
              end).
Proof.
  intros Ho. unfold pipealloc. eapply triple_bind.
  { eapply triple_conseq; [apply (filealloc_counted o) | by intros s Hc | done]. }
  intros [f0 |]; [| by apply triple_ret]. pose proof (bump_pos f0 o Ho) as Ho0. eapply triple_bind.
  { instantiate (1 := fun r s => match r with
      | Some f1 => counted (two f0 f1 o) s /\ (f0 < length (ftable s))%nat /\ (f1 < length (ftable s))%nat
      | None => counted (bump f0 1 o) s end).
    intros s a s' [Hc Hlt] E. pose proof (filealloc_counted (bump f0 1 o) s a s' (conj Hc Ho0) E) as H.
    destruct a as [f1 |]; [| done]. destruct H as [H1 H2]. split; [exact H1 |]. split; [| done].
    rewrite (filealloc_len _ _ _ E). done. }
  intros [f1 |].
  - eapply triple_bind; [apply (fcall_frame_counted _ (fun l _ => (f0 < length l)%nat /\ (f1 < length l)%nat)) |]. intros [p |].
    + pose proof (bump_pos f1 _ Ho0) as Ho1.
      eapply triple_bind; [apply (set_pipe_counted (two f0 f1 o) f0 _ _ _ (fun _ n => (f0 < n)%nat /\ (f1 < n)%nat)) |].
      { exact Ho1. } { unfold two, bump. specialize (Ho f0). repeat case_decide; lia. }
      intros ?. eapply triple_bind; [apply (set_pipe_counted (two f0 f1 o) f1 _ _ _ (fun _ n => (f0 < n)%nat /\ (f1 < n)%nat)) |].
      { exact Ho1. } { unfold two, bump. specialize (Ho f1). repeat case_decide; lia. }
      intros ?. by apply triple_ret.
    + eapply triple_bind; [eapply triple_conseq; [apply fileclose_counted | by intros s [Hc _]; exact Hc | by intros; eassumption] |].
      intros ?. eapply triple_bind; [apply fileclose_counted |]. intros ?. apply triple_ret. intros s. apply counted_ext.
      intros g. unfold two, bump. repeat case_decide; lia.
  - eapply triple_bind; [apply fileclose_counted |]. intros ?. apply triple_ret. intros s. apply counted_ext.
    intros g. rewrite bump_bump. apply bump_0.
Qed.

Lemma pipe_counted o : (forall g, 0 <= o g) -> triple (counted o) (sys_pipe (S := S)) (fun _ => counted o).
Proof.
  intros Ho. unfold sys_pipe, k_argptr. eapply triple_bind; [by apply (triple_gets _ _ (fun _ => counted o)) |].
  intros [p |]; [| by apply triple_ret]. eapply triple_bind; [by apply pipealloc_counted |].
  intros [[rf wf] |]; [| by apply triple_ret].
  assert (Hclose : forall o', (forall g, o' g = two rf wf o g) ->
    triple (counted o') (fileclose (S := S) rf;; fileclose wf;; mret (-1)) (fun _ => counted o)).
  { intros o' Ho'. eapply triple_bind; [apply fileclose_counted |]. intros ?. eapply triple_bind; [apply fileclose_counted |].
    intros ?. apply triple_ret. intros s. apply counted_ext. intros g. unfold bump. rewrite Ho'. unfold two, bump. repeat case_decide; lia. }
  eapply triple_bind.
  { instantiate (1 := fun r s => match r with
      | Some fd0 => (counted (bump rf (-1) (two rf wf o)) s /\ (wf < length (ftable s))%nat) /\ ofile s !! fd0 = Some (Some rf)
      | None => counted (two rf wf o) s end).
    intros s a s' (Hc & Hr & Hw) E. pose proof (fdalloc_counted _ rf s a s' (conj Hc Hr) E) as H.
    destruct a as [fd |]; [| done]. destruct H. split; [| done]. split; [done |]. by rewrite (fdalloc_len _ _ _ _ E). }
  intros [fd0 |]; [| by apply Hclose]. eapply triple_bind.
  { instantiate (1 := fun r s => match r with
      | Some fd1 => counted o s
      | None => counted (bump rf (-1) (two rf wf o)) s /\ ofile s !! fd0 = Some (Some rf) end).
    intros s a s' [[Hc Hw] Hfd] E. pose proof (fdalloc_counted _ wf s a s' (conj Hc Hw) E) as H. destruct a as [fd1 |].
    - destruct H as [H _]. revert H. apply counted_ext. intros g. unfold two, bump. repeat case_decide; lia.
    - split; [done |]. by rewrite (fdalloc_none _ _ _ E). }
  intros [fd1 |].
  - assert (H : neutral (store_user (S := S) p (le_bytes 4 (Z.of_nat fd0));; store_user (p + 4) (le_bytes 4 (Z.of_nat fd1));; mret 0)) by neutrals.
    apply H.
  - eapply triple_bind; [apply clear_counted |]. intros ?. apply Hclose. intros g. rewrite bump_bump. apply bump_0.
Qed.

(** The system calls of sysfile.c. *)
Definition file_calls (exec : list Z -> list (list Z) -> M (sysst S) Z) : list (M (sysst S) Z) :=
  [File.sys_dup; File.sys_read; File.sys_write; File.sys_close; File.sys_fstat; File.sys_link; File.sys_unlink;
   File.sys_open; File.sys_mkdir; File.sys_mknod; File.sys_chdir; File.sys_exec exec; File.sys_pipe].

Lemma calls_counted exec o : (forall path argv, neutral (exec path argv)) -> (forall g, 0 <= o g) ->
  Forall (fun call => triple (counted o) call (fun _ => counted o)) (file_calls exec).
Proof.
  intros Hex Ho. pose proof neutral_filestat as N1. pose proof neutral_fileread as N2.
  pose proof neutral_filewrite as N3. pose proof neutral_argfd as N4.
  assert (N5 : forall p st, neutral (store_stat (S := S) p st)) by (intros; unfold store_stat; neutrals).
  assert (N6 : forall ip, neutral (link_bad (S := S) ip)) by (intros; unfold link_bad; neutrals).
  assert (N7 : forall ip, neutral (made (S := S) ip)) by (intros; unfold made; neutrals).
  repeat (apply Forall_cons; split); [..| by apply Forall_nil].
  - apply dup_counted.
  - assert (H : neutral (File.sys_read (S := S))) by (unfold File.sys_read, k_argint, k_argptr; neutrals). apply H.
  - assert (H : neutral (File.sys_write (S := S))) by (unfold File.sys_write, k_argint, k_argptr; neutrals). apply H.
  - apply close_counted.
  - assert (H : neutral (File.sys_fstat (S := S))) by (unfold File.sys_fstat, k_argptr; neutrals). apply H.
  - assert (H : neutral (File.sys_link (S := S))) by (unfold File.sys_link, k_argstr; neutrals). apply H.
  - assert (H : neutral (File.sys_unlink (S := S))) by (unfold File.sys_unlink, k_argstr; neutrals). apply H.
  - by apply open_counted.
  - assert (H : neutral (File.sys_mkdir (S := S))) by (unfold File.sys_mkdir, k_argstr; neutrals). apply H.
  - assert (H : neutral (File.sys_mknod (S := S))) by (unfold File.sys_mknod, k_argstr, k_argint; neutrals). apply H.
  - assert (H : neutral (File.sys_chdir (S := S))) by (unfold File.sys_chdir, k_argstr; neutrals). apply H.
  - assert (H : neutral (File.sys_exec (S := S) exec)) by (unfold File.sys_exec, k_argstr, k_argint; neutrals). apply H.
  - by apply pipe_counted.
Qed.

(** C5. Descriptors and reference counts stay in step: if the count of every
    open file is the number of descriptors of this process that refer to it plus
    the references [o] of other processes, the same holds after every system
    call of sysfile.c that returns, on all its branches, error returns included;
    in particular every descriptor refers to an entry of the table in use, and
    an entry without references has type FD_NONE. *)
Theorem descriptors_counted (exec : list Z -> list (list Z) -> M (sysst S) Z) (o : nat -> Z) (call : M (sysst S) Z)
  (s s' : sysst S) (r : Z) (Hexec : forall path argv, neutral (exec path argv)) (Ho : forall g, 0 <= o g)
  (Hcall : call ∈ file_calls exec) (Hs : counted o s) (Hret : call s = Ret r s') :
  counted o s' /\ forall fd f, ofile s' !! fd = Some (Some f) -> exists x, ftable s' !! f = Some x /\ 1 <= f_ref x.
Proof.
  pose proof (proj1 (Forall_forall _ _) (calls_counted exec o Hexec Ho) call Hcall s r s' Hs Hret) as Hc.
  split; [done |]. intros fd f Hfd.
  destruct (lookup_lt_is_Some_2 (ftable s') f) as [x Hx]; [apply (ct_open _ _ Hc); by eapply list_elem_of_lookup_2 |].
  exists x. split; [done |]. exact (counted_pos o s' fd f x Ho Hc Hfd Hx).
Qed.
End calls.

(** ** A process with one open file and 15 free descriptors duplicates it *)
#[local] Instance unit_blocks : BlockDev unit :=
  {| d_bread := fun _ _ => mret 0%nat; d_data := fun _ => mret []; d_store := fun _ _ => skip;
     d_log_write := fun _ => skip; d_brelse := fun _ => skip |}.
#[local] Instance unit_devices : Devices unit := {| dev_read := fun _ => None; dev_write := fun _ => None |}.
#[local] Instance unit_tx : TxDev unit := {| d_begin_op := skip; d_end_op := skip |}.
#[local] Instance unit_pipes : PipeOps unit :=
  {| p_new := mret None; p_close := fun _ _ => skip; p_read := fun _ _ => mret (-1, []); p_write := fun _ _ _ => mret (-1) |}.
Definition demo_sys : sysst unit :=
  mk_sys (mk_fs tt (mk_sb 0 0 0 0 0 0 0) []) [mk_file FD_INODE 1 true true 0 0 0]
    (Some 0%nat :: replicate 15 None) 0 (mk_user (replicate 8 0) 0 0).

Lemma demo_counted : counted (fun _ => 0) demo_sys.
Proof.
  split; try done.
  - intros [| f] x Hx; [| done]. by injection Hx as <-.
  - intros f Hf. apply elem_of_cons in Hf as [[= ->] | Hf]; [cbn; lia |]. by apply elem_of_replicate in Hf as [? _].
  - intros [| f] x Hx; [| done]. by injection Hx as <-.
Qed.

Lemma descriptors_counted_witness :
  exists s', File.sys_dup demo_sys = Ret 1 s' /\ counted (fun _ => 0) s'.
Proof.
  eexists. split; [reflexivity |].
  eapply (descriptors_counted (fun _ _ => mret (-1)) (fun _ => 0) File.sys_dup demo_sys _ 1).
  - intros path argv. apply neutral_ret.
  - intros g. lia.
  - left.
  - exact demo_counted.
  - reflexivity.
Defined.
