(* ===== verification/Kalloc.v ===== *)
(** * Kalloc: physical memory and its page allocator

    project3/xv6-modified/{kalloc.c,memlayout.h,mmu.h}.  Physical memory is a
    map from the kernel virtual address of a page to its 4096 bytes; an access
    outside it is a page fault, which stops the kernel.  The free list is
    threaded through the first word of the free pages, as in the source.  The
    kernel has one CPU: of [kmem.lock] the model keeps whether it is held.  The
    linker symbols [end] and [data] are an interface with what kernel.ld
    guarantees. *)

From Stdlib Require Import ZArith Lia.
From stdpp Require Import base numbers strings option list gmap.
From S2P Require Import Prelude Kernel.

(** ** Memory layout *)
Definition EXTMEM : Z := 0x100000.
Definition PHYSTOP : Z := 0xE000000.
Definition DEVSPACE : Z := 0xFE000000.
Definition KERNBASE : Z := 0x80000000.
Definition KERNLINK : Z := KERNBASE + EXTMEM.
Definition V2P (a : Z) : Z := u32 (a - KERNBASE).
Definition P2V (a : Z) : Z := u32 (a + KERNBASE).
Definition PGROUNDUP (sz : Z) : Z := Z.land (u32 (sz + PGSIZE - 1)) (Z.lnot (PGSIZE - 1)).
Definition PGROUNDDOWN (a : Z) : Z := Z.land a (Z.lnot (PGSIZE - 1)).

(** What the kernel uses of its image: the first address after it and the start
    of its data, which kernel.ld puts on a page boundary. *)
Class Image := {
  end_ : Z;
  data_ : Z;
  data_aligned : data_ mod PGSIZE = 0;
  image_order : KERNLINK < data_ < end_ /\ end_ < KERNBASE + PHYSTOP
}.

(** ** Memory *)
Abbreviation ram_t := (gmap Z (list Z)).
Record kmem_t := mk_kmem { ram : ram_t; freelist : Z; use_lock : bool; kmem_locked : bool }.
Definition with_ram (m : ram_t) (s : kmem_t) : kmem_t := mk_kmem m (freelist s) (use_lock s) (kmem_locked s).
Definition with_freelist (p : Z) (s : kmem_t) : kmem_t := mk_kmem (ram s) p (use_lock s) (kmem_locked s).
Definition with_use_lock (b : bool) (s : kmem_t) : kmem_t := mk_kmem (ram s) (freelist s) b (kmem_locked s).
Definition with_locked (b : bool) (s : kmem_t) : kmem_t := mk_kmem (ram s) (freelist s) (use_lock s) b.

Abbreviation K := (M kmem_t).

Definition get_page (a : Z) : K (list Z) := m ← gets ram; from_option "page fault" (m !! a).
Definition set_page (a : Z) (pg : list Z) : K unit := get_page a;; modify (fun s => with_ram (<[a := pg]> (ram s)) s).

(** The word [i] of a page. *)
Definition rdw (pg : list Z) (i : Z) : Z := le_val (slice (Z.to_nat (4 * i)) 4 pg).
Definition wrw (i w : Z) (pg : list Z) : list Z := splice (Z.to_nat (4 * i)) (le_bytes 4 w) pg.

(** A read and a write of an aligned 32-bit word. *)
Definition load32 (a : Z) : K Z := pg ← get_page (PGROUNDDOWN a); mret (rdw pg (a mod PGSIZE / 4)).
Definition store32 (a w : Z) : K unit := pg ← get_page (PGROUNDDOWN a); set_page (PGROUNDDOWN a) (wrw (a mod PGSIZE / 4) w pg).

(** [memset(p, c, PGSIZE)] *)
Definition fill_page (a c : Z) : K unit := set_page a (replicate (Z.to_nat PGSIZE) c).

(** ** kalloc.c *)
Definition lock_kmem : K unit :=
  s ← get; when (use_lock s) (if kmem_locked s then stop "acquire" else modify (with_locked true)).
Definition unlock_kmem : K unit :=
  s ← get; when (use_lock s) (if kmem_locked s then modify (with_locked false) else stop "release").

Section kalloc.
Context {I : Image}.

Definition kfree (v : Z) : K unit :=
  if negb (v mod PGSIZE =? 0) || (v <? end_) || (V2P v >=? PHYSTOP) then stop "kfree" else
  fill_page v 1;;
  lock_kmem;;
  f ← gets freelist;
  store32 v f;;
  modify (with_freelist v);;
  unlock_kmem.

Definition kalloc : K (option Z) :=
  lock_kmem;;
  r ← gets freelist;
  (if negb (r =? 0) then n ← load32 r; modify (with_freelist n) else skip);;
  unlock_kmem;;
  mret (if r =? 0 then None else Some r).

Fixpoint freerange_loop (fuel : nat) (p vend : Z) : K unit :=
  match fuel with
  | O => out_of_fuel
  | S fuel' => if p + PGSIZE <=? vend then kfree p;; freerange_loop fuel' (p + PGSIZE) vend else skip
  end.
Definition freerange (vstart vend : Z) : K unit :=
  freerange_loop (S (Z.to_nat ((vend - PGROUNDUP vstart) / PGSIZE))) (PGROUNDUP vstart) vend.

Definition kinit1 (vstart vend : Z) : K unit :=
  modify (with_locked false);;
  modify (with_use_lock false);;
  freerange vstart vend.
Definition kinit2 (vstart vend : Z) : K unit :=
  freerange vstart vend;;
  modify (with_use_lock true).
End kalloc.

(** [lia] with quotients and remainders by constants. *)
Ltac dlia := Z.to_euclidean_division_equations; lia.

(** ** Words *)
Lemma length_wrw i w pg : 0 <= i -> (4 * i + 4 <= Z.of_nat (length pg)) -> length (wrw i w pg) = length pg.
Proof. intros. unfold wrw. apply length_splice. rewrite length_le_bytes. lia. Qed.
Lemma rdw_range pg i : is_u32 (rdw pg i).
Proof.
  unfold rdw, is_u32. pose proof (le_val_range (slice (Z.to_nat (4 * i)) 4 pg)) as H. unfold slice in *. rewrite length_take in H.
  assert (256 ^ Z.of_nat (4 `min` length (drop (Z.to_nat (4 * i)) pg)) <= 256 ^ 4) by (apply Z.pow_le_mono_r; lia). lia.
Qed.
Lemma rdw_wrw i w pg : 0 <= i -> 4 * i + 4 <= Z.of_nat (length pg) -> is_u32 w -> rdw (wrw i w pg) i = w.
Proof.
  intros Hi Hl Hw. unfold rdw, wrw. change 4%nat with (length (le_bytes 4 w)) at 1. rewrite slice_splice by (rewrite length_le_bytes; lia).
  by apply uint32_roundtrip.
Qed.
Lemma rdw_wrw_ne i j w pg : 0 <= i -> 0 <= j -> i <> j -> 4 * i + 4 <= Z.of_nat (length pg) -> rdw (wrw i w pg) j = rdw pg j.
Proof.
  intros Hi Hj Hne Hl. unfold rdw, wrw. f_equal.
  destruct (decide (i < j)); [apply slice_splice_after | apply slice_splice_before]; rewrite ?length_le_bytes; lia.
Qed.
Lemma rdw_zero i n : rdw (replicate n 0) i = 0.
Proof.
  unfold rdw, slice. rewrite drop_replicate, take_replicate. set (k := (4 `min` (n - Z.to_nat (4 * i)))%nat). clearbody k.
  induction k as [| k IH]; [done |]. cbn [replicate le_val]. by rewrite IH.
Qed.

Lemma rounddown_eq a : PGROUNDDOWN a = a - a mod PGSIZE.
Proof.
  unfold PGROUNDDOWN. change (PGSIZE - 1) with (Z.ones 12). rewrite <- Z.ldiff_land, Z.ldiff_ones_r by lia.
  rewrite Z.shiftl_mul_pow2, Z.shiftr_div_pow2 by lia. unfold PGSIZE. change (2 ^ 12) with 4096. dlia.
Qed.
Lemma rounddown_page b i : b mod PGSIZE = 0 -> 0 <= i < PGSIZE -> PGROUNDDOWN (b + i) = b /\ (b + i) mod PGSIZE = i.
Proof. intros Hb Hi. rewrite rounddown_eq. unfold PGSIZE in *. split; dlia. Qed.
Lemma roundup_eq a : 0 <= a -> a + PGSIZE - 1 < 2 ^ 32 -> PGROUNDUP a = (a + PGSIZE - 1) / PGSIZE * PGSIZE.
Proof. intros. unfold PGROUNDUP. rewrite u32_small by (unfold PGSIZE in *; lia). fold (PGROUNDDOWN (a + PGSIZE - 1)). rewrite rounddown_eq. unfold PGSIZE. dlia. Qed.

Lemma get_page_ret s a pg : ram s !! a = Some pg -> get_page a s = Ret pg s.
Proof. intros H. unfold get_page. erewrite bind_ret by done. by rewrite H. Qed.
Lemma set_page_ret s a pg pg' : ram s !! a = Some pg -> set_page a pg' s = Ret tt (with_ram (<[a := pg']> (ram s)) s).
Proof. intros H. unfold set_page. by erewrite bind_ret by by apply get_page_ret. Qed.
Lemma load32_ret s b i pg : b mod PGSIZE = 0 -> 0 <= i < 1024 -> ram s !! b = Some pg -> load32 (b + 4 * i) s = Ret (rdw pg i) s.
Proof.
  intros Hb Hi Hp. unfold load32. destruct (rounddown_page b (4 * i) Hb) as [-> ->]; [unfold PGSIZE; lia |].
  erewrite bind_ret by by apply get_page_ret. do 2 f_equal. dlia.
Qed.
Lemma store32_ret s b i w pg : b mod PGSIZE = 0 -> 0 <= i < 1024 -> ram s !! b = Some pg ->
  store32 (b + 4 * i) w s = Ret tt (with_ram (<[b := wrw i w pg]> (ram s)) s).
Proof.
  intros Hb Hi Hp. unfold store32. destruct (rounddown_page b (4 * i) Hb) as [-> ->]; [unfold PGSIZE; lia |].
  erewrite bind_ret by by apply get_page_ret. replace (4 * i / 4) with i by dlia. by eapply set_page_ret.
Qed.

Lemma store32_first s b w pg : b mod PGSIZE = 0 -> ram s !! b = Some pg ->
  store32 b w s = Ret tt (with_ram (<[b := wrw 0 w pg]> (ram s)) s).
Proof. intros Hb Hp. rewrite <- (store32_ret s b 0 w pg) by (done || lia). f_equal. lia. Qed.
Lemma load32_first s b pg : b mod PGSIZE = 0 -> ram s !! b = Some pg -> load32 b s = Ret (rdw pg 0) s.
Proof. intros Hb Hp. rewrite <- (load32_ret s b 0 pg) by (done || lia). f_equal. lia. Qed.

(** ** The allocator's invariant

    Ghost state: what each page is used for.  [Held] pages are outside the
    allocator's and the page tables' care: out of range, or handed out. *)
Inductive owner := Free | Held | Dir | Tab (d i : Z) | User (d v : Z).
#[export] Instance owner_eq_dec : EqDecision owner.
Proof. solve_decision. Defined.

Definition ghost : Type := Z -> owner.
Definition own_set (a : Z) (o : owner) (g : ghost) : ghost := fun b => if decide (b = a) then o else g b.
Lemma own_set_eq a o g : own_set a o g a = o.
Proof. unfold own_set. by rewrite decide_True. Qed.
Lemma own_set_ne a o g b : b <> a -> own_set a o g b = g b.
Proof. intros. unfold own_set. by rewrite decide_False. Qed.

Definition word (m : ram_t) (a i : Z) : Z := match m !! a with Some pg => rdw pg i | None => 0 end.
Lemma word_range m a i : is_u32 (word m a i).
Proof. unfold word. destruct (m !! a); [apply rdw_range | unfold is_u32; lia]. Qed.
Lemma word_insert_ne m a b pg i : a <> b -> word (<[a := pg]> m) b i = word m b i.
Proof. intros. unfold word. by rewrite lookup_insert_ne. Qed.
Lemma word_insert m a pg i : word (<[a := pg]> m) a i = rdw pg i.
Proof. unfold word. by rewrite lookup_insert_eq. Qed.

(** The free list from [p]. *)
Fixpoint chain (m : ram_t) (p : Z) (F : list Z) : Prop :=
  match F with
  | [] => p = 0
  | a :: F' => p = a /\ chain m (word m a 0) F'
  end.
Lemma chain_frame m m' p F : chain m p F -> (forall a, a ∈ F -> m' !! a = m !! a) -> chain m' p F.
Proof.
  revert p. induction F as [| a F IH]; intros p; cbn [chain]; [done |]. intros [-> H] Hf. split; [done |].
  unfold word. rewrite Hf by by left. apply IH; [exact H |]. intros b Hb. apply Hf. by right.
Qed.

Section inv.
Context {I : Image}.

Definition valid (a : Z) : Prop := a mod PGSIZE = 0 /\ end_ <= a < KERNBASE + PHYSTOP.
Lemma valid_range a : valid a -> KERNLINK < a < 2 ^ 32 /\ a mod PGSIZE = 0.
Proof. intros [Ha Hr]. destruct image_order as [Hk He]. unfold KERNLINK, KERNBASE, EXTMEM, PHYSTOP in *. lia. Qed.
Lemma valid_V2P a : valid a -> V2P a = a - KERNBASE.
Proof. intros [Hr _]%valid_range. apply u32_small. unfold KERNLINK, KERNBASE, EXTMEM in *. lia. Qed.

(** The allocator's memory as a stack of free pages. *)
Record stack (F : list Z) (s : kmem_t) : Prop := {
  st_lock : kmem_locked s = false;
  st_page : forall a, valid a -> exists pg, ram s !! a = Some pg /\ length pg = Z.to_nat PGSIZE;
  st_valid : Forall valid F;
  st_nodup : NoDup F;
  st_chain : chain (ram s) (freelist s) F
}.

Lemma stack_ram F s m : stack F s -> (forall a, a ∈ F -> m !! a = ram s !! a) ->
  (forall a, valid a -> exists pg, m !! a = Some pg /\ length pg = Z.to_nat PGSIZE) -> stack F (with_ram m s).
Proof. intros [H1 H2 H3 H4 H5] Hf Hp. split; try done. by eapply chain_frame. Qed.

Lemma page_insert (m : ram_t) a pg : (forall b, valid b -> exists pg, m !! b = Some pg /\ length pg = Z.to_nat PGSIZE) ->
  length pg = Z.to_nat PGSIZE -> forall b, valid b -> exists pg', <[a := pg]> m !! b = Some pg' /\ length pg' = Z.to_nat PGSIZE.
Proof.
  intros H Hl b Hb. destruct (decide (b = a)) as [-> | Hne]; [exists pg; by rewrite lookup_insert_eq |].
  rewrite lookup_insert_ne by done. by apply H.
Qed.

Lemma lock_unlock s : kmem_locked s = false -> exists s', lock_kmem s = Ret tt s' /\ ram s' = ram s /\ freelist s' = freelist s /\
  (forall m p, unlock_kmem (with_ram m (with_freelist p s')) = Ret tt (with_ram m (with_freelist p s))).
Proof using.
  intros Hl. unfold lock_kmem. erewrite bind_ret by done. destruct s as [m p [] []]; [done | | done |].
  - eexists. split; [reflexivity |]. done.
  - eexists. split; [reflexivity |]. done.
Qed.

Lemma stack_head F s : stack F s -> is_u32 (freelist s).
Proof.
  intros [_ _ Hv _ Hc]. destruct F as [| b F]; cbn [chain] in Hc; [rewrite Hc; unfold is_u32; lia |].
  destruct Hc as [-> _]. apply Forall_cons in Hv as [Hb _]. apply valid_range in Hb. unfold is_u32, KERNLINK, KERNBASE, EXTMEM in *. lia.
Qed.

(** [kfree] of a page pushes it on the free list. *)
Lemma kfree_push F s a : stack F s -> valid a -> a ∉ F ->
  exists pg, kfree a s = Ret tt (with_ram (<[a := pg]> (ram s)) (with_freelist a s)) /\
    stack (a :: F) (with_ram (<[a := pg]> (ram s)) (with_freelist a s)).
Proof.
  intros H Hv Hnin. pose proof (valid_range a Hv) as [Hr Ha]. pose proof H as [Hl Hp HF Hn Hc].
  destruct (Hp a Hv) as (pg & E & Hlen). unfold kfree.
  assert (Hcond : negb (a mod PGSIZE =? 0) || (a <? end_) || (V2P a >=? PHYSTOP) = false).
  { rewrite valid_V2P by done. rewrite Ha. destruct Hv as [_ Hv]. cbn [Z.eqb negb orb]. rewrite Z.geb_leb.
    apply orb_false_iff. split; [apply Z.ltb_ge; lia | apply Z.leb_gt; unfold KERNBASE in *; lia]. }
  rewrite Hcond. unfold fill_page. erewrite bind_ret by by eapply set_page_ret.
  set (pg1 := replicate (Z.to_nat PGSIZE) 1). set (s1 := with_ram (<[a := pg1]> (ram s)) s).
  destruct (lock_unlock s1 Hl) as (s2 & E2 & R2 & F2 & U2). erewrite bind_ret by exact E2. erewrite bind_ret by done.
  erewrite bind_ret by (apply store32_first with (pg := pg1); [done |]; rewrite R2; apply lookup_insert_eq).
  erewrite bind_ret by done. exists (wrw 0 (freelist s2) pg1). set (pg2 := wrw 0 (freelist s2) pg1).
  assert (Hpg1 : length pg1 = Z.to_nat PGSIZE) by apply length_replicate.
  assert (Hpg2 : length pg2 = Z.to_nat PGSIZE) by (unfold pg2; rewrite length_wrw; [done | lia | rewrite Hpg1; unfold PGSIZE; lia]).
  replace (<[a:=pg2]> (ram s2)) with (<[a:=pg2]> (ram s)) by (rewrite R2; cbn [s1 ram with_ram]; by rewrite insert_insert_eq).
  split; [exact (U2 (<[a := pg2]> (ram s)) a) |]. split; cbn [with_ram with_freelist ram freelist kmem_locked]; [done | by apply page_insert | | |].
  - by apply Forall_cons.
  - by constructor.
  - cbn [chain]. split; [done |]. rewrite word_insert. unfold pg2. rewrite rdw_wrw; [| lia | rewrite Hpg1; unfold PGSIZE; lia |].
    + rewrite F2. cbn [s1 with_ram freelist]. eapply chain_frame; [exact Hc |]. intros b Hb. rewrite lookup_insert_ne; [done |]. congruence.
    + rewrite F2. by eapply (stack_head F s).
Qed.

(** [kalloc] pops the free list, or fails when it is empty. *)
Lemma kalloc_pop F s : stack F s ->
  match F with
  | [] => kalloc s = Ret None s
  | a :: F' => let s' := with_freelist (word (ram s) a 0) s in kalloc s = Ret (Some a) s' /\ stack F' s'
  end.
Proof.
  intros [Hl Hp Hva Hn Hc]. unfold kalloc.
  destruct (lock_unlock s Hl) as (s2 & E2 & R2 & F2 & U2). rewrite (bind_ret _ _ _ _ _ E2). erewrite bind_ret by done. rewrite F2.
  assert (Us : forall p, unlock_kmem (with_freelist p s2) = Ret tt (with_freelist p s)).
  { intros p. replace (with_freelist p s2) with (with_ram (ram s) (with_freelist p s2)) by (destruct s2; cbn in *; by subst).
    rewrite U2. by destruct s. }
  destruct F as [| a F]; cbn [chain] in Hc.
  - rewrite Hc. cbn [Z.eqb negb]. erewrite bind_ret by done.
    replace s2 with (with_freelist (freelist s) s2) by (destruct s2; cbn in *; by subst). erewrite bind_ret by apply Us. by destruct s.
  - destruct Hc as [Ef Hc]. apply Forall_cons in Hva as [Hv Hva]. apply NoDup_cons in Hn as [Hna Hn].
    pose proof (valid_range a Hv) as [Hr Ham]. rewrite Ef. destruct (Z.eqb_spec a 0); [unfold KERNLINK, KERNBASE, EXTMEM in *; lia |].
    cbn [negb]. destruct (Hp a Hv) as (pg & E & Hlen). split; [| by split].
    assert (El : load32 a s2 = Ret (word (ram s) a 0) s2).
    { unfold word. rewrite E. apply load32_first; [done | by rewrite R2]. }
    erewrite bind_ret by (erewrite bind_ret by exact El; reflexivity). erewrite bind_ret by apply Us. done.
Qed.

(** The pages of [freerange], in the order they are freed. *)
Definition page_run (p : Z) (n : nat) : list Z := map (fun k => p + Z.of_nat k * PGSIZE) (seq 0 n).
Lemma page_run_S p n : page_run p (S n) = p :: page_run (p + PGSIZE) n.
Proof using.
  unfold page_run. rewrite <- cons_seq, <- fmap_S_seq. cbn [map]. f_equal; [lia |]. rewrite map_map. apply map_ext. intros k. lia.
Qed.
Lemma elem_of_page_run p n a : a ∈ page_run p n -> exists k, (k < n)%nat /\ a = p + Z.of_nat k * PGSIZE.
Proof using.
  intros H%list_elem_of_In. unfold page_run in H. apply in_map_iff in H as (k & <- & Hk). apply in_seq in Hk. exists k. split; [lia | done].
Qed.

Lemma freerange_loop_ok fuel F s p vend n : stack F s -> n = Z.to_nat ((vend - p) / PGSIZE) -> (n < fuel)%nat ->
  Forall valid (page_run p n) -> (forall a, a ∈ page_run p n -> a ∉ F) ->
  exists s', freerange_loop fuel p vend s = Ret tt s' /\ stack (rev (page_run p n) ++ F) s' /\
    use_lock s' = use_lock s /\ forall a, a ∉ page_run p n -> ram s' !! a = ram s !! a.
Proof.
  revert F s p n. induction fuel as [| fuel IH]; intros F s p n Hst Hn Hf Hv Hnin; [lia |]. cbn [freerange_loop].
  assert (Hpg : PGSIZE = 4096) by done. destruct (Z.leb_spec (p + PGSIZE) vend) as [Hle | Hgt].
  - destruct n as [| n]; [exfalso; rewrite Hpg in *; dlia |]. rewrite page_run_S in *. apply Forall_cons in Hv as [Hp Hv].
    destruct (kfree_push F s p Hst Hp) as (pg & E & Hst1); [apply Hnin; by left |]. erewrite bind_ret by exact E.
    assert (Hpn : p ∉ page_run (p + PGSIZE) n) by (intros (k & _ & Hk)%elem_of_page_run; rewrite Hpg in *; lia).
    destruct (IH (p :: F) _ (p + PGSIZE) n Hst1) as (s' & E' & Hst' & Hu & Hr);
      [rewrite Hpg in *; dlia | lia | done | |].
    + intros a Ha [-> | Hin]%elem_of_cons; [done |]. by apply (Hnin a); [right |].
    + exists s'. split; [exact E' |]. split; [cbn [rev]; by rewrite <- app_assoc |]. split; [by rewrite Hu |].
      intros a Ha. apply not_elem_of_cons in Ha as [H1 H2]. rewrite Hr by done. cbn [with_ram ram]. by rewrite lookup_insert_ne by done.
  - assert (n = 0)%nat as -> by (rewrite Hpg in *; dlia). by exists s.
Qed.

(** ** Invariant with ghost ownership *)
Definition alloc_inv (g : ghost) (s : kmem_t) : Prop :=
  (forall a, g a <> Held -> valid a) /\ exists F, stack F s /\ forall a, a ∈ F <-> g a = Free.

Lemma alloc_page g s a : alloc_inv g s -> valid a -> exists pg, ram s !! a = Some pg /\ length pg = Z.to_nat PGSIZE.
Proof. intros (_ & F & HF & _). by apply HF. Qed.
Lemma alloc_valid g s a o : alloc_inv g s -> g a = o -> o <> Held -> valid a.
Proof. intros [H _] Ho Hn. apply H. congruence. Qed.

(** A change of pages that are not free, each still a page. *)
Lemma alloc_inv_set g s a pg : alloc_inv g s -> g a <> Free -> length pg = Z.to_nat PGSIZE ->
  alloc_inv g (with_ram (<[a := pg]> (ram s)) s).
Proof.
  intros (Hv & F & HF & Hfree) Hnf Hl. split; [done |]. exists F. split; [| done]. apply stack_ram; [done | | apply page_insert; [apply HF | done]].
  intros b Hb%Hfree. rewrite lookup_insert_ne; [done |]. congruence.
Qed.
Lemma alloc_inv_own g g' s : alloc_inv g s -> (forall a, g' a = Free <-> g a = Free) -> (forall a, g' a <> Held -> valid a) -> alloc_inv g' s.
Proof. intros (Hv & F & HF & Hfree) Hg Hv'. split; [done |]. exists F. split; [done |]. intros a. by rewrite Hg. Qed.
Lemma alloc_inv_own_set g s a o : alloc_inv g s -> valid a -> g a <> Free -> o <> Free -> alloc_inv (own_set a o g) s.
Proof.
  intros H Hv Hg Ho. eapply alloc_inv_own; [exact H | |]; intros b; unfold own_set; destruct (decide (b = a)) as [-> |]; [tauto | tauto | done |].
  apply H.
Qed.

Lemma kfree_ok g s a : alloc_inv g s -> valid a -> g a <> Free ->
  exists pg, let s' := with_ram (<[a := pg]> (ram s)) (with_freelist a s) in
    kfree a s = Ret tt s' /\ length pg = Z.to_nat PGSIZE /\ alloc_inv (own_set a Free g) s'.
Proof.
  intros (Hv & F & HF & Hfree) Ha Hg. destruct (kfree_push F s a HF Ha) as (pg & E & Hst); [by rewrite Hfree |].
  exists pg. split; [exact E |]. split.
  - destruct (st_page _ _ Hst a Ha) as (pg' & E' & Hl). cbn [with_ram ram] in E'. rewrite lookup_insert_eq in E'. by injection E' as <-.
  - split; [intros b; unfold own_set; destruct (decide (b = a)) as [-> |]; [done | apply Hv] |].
    exists (a :: F). split; [exact Hst |]. intros b. rewrite elem_of_cons, Hfree. unfold own_set. destruct (decide (b = a)); tauto.
Qed.

Lemma kalloc_ok g s : alloc_inv g s ->
  (kalloc s = Ret None s /\ forall a, g a <> Free) \/
  exists a p, kalloc s = Ret (Some a) (with_freelist p s) /\ g a = Free /\ valid a /\ alloc_inv (own_set a Held g) (with_freelist p s).
Proof.
  intros (Hv & F & HF & Hfree). pose proof (kalloc_pop F s HF) as H. destruct F as [| a F].
  - left. split; [done |]. intros a Ha%Hfree. by apply elem_of_nil in Ha.
  - right. cbn zeta in H. destruct H as [E Hst]. exists a, (word (ram s) a 0). split; [done |].
    assert (Ha : g a = Free) by (apply Hfree; by left). split; [done |]. split; [apply Hv; congruence |].
    split; [intros b; unfold own_set; destruct (decide (b = a)) as [-> |]; [done | apply Hv] |].
    exists F. split; [exact Hst |]. pose proof (st_nodup _ _ HF) as [Hna _]%NoDup_cons.
    intros b. unfold own_set. destruct (decide (b = a)) as [-> | Hne]; [by split |]. rewrite <- Hfree, elem_of_cons. tauto.
Qed.

(** ** The allocator's contract: a stack of pages *)
Inductive request := Alloc | Release (a : Z).
Definition serve (r : request) : K (option Z) :=
  match r with Alloc => kalloc | Release a => kfree a;; mret None end.
Fixpoint serve_all (rs : list request) : K (list (option Z)) :=
  match rs with
  | [] => mret []
  | r :: rs' => o ← serve r; os ← serve_all rs'; mret (o :: os)
  end.

Definition pop (F : list Z) : option Z * list Z := match F with [] => (None, []) | a :: F' => (Some a, F') end.
Fixpoint stack_run (rs : list request) (F : list Z) : list (option Z) :=
  match rs with
  | [] => []
  | Alloc :: rs' => fst (pop F) :: stack_run rs' (snd (pop F))
  | Release a :: rs' => None :: stack_run rs' (a :: F)
  end.
(** The clients release only pages that are in range and not free. *)
Fixpoint legal (rs : list request) (F : list Z) : Prop :=
  match rs with
  | [] => True
  | Alloc :: rs' => legal rs' (snd (pop F))
  | Release a :: rs' => valid a /\ (a ∉ F) /\ legal rs' (a :: F)
  end.

Lemma serve_all_ok rs F s : stack F s -> legal rs F -> exists s', serve_all rs s = Ret (stack_run rs F) s'.
Proof.
  revert F s. induction rs as [| [| a] rs IH]; intros F s Hst Hl; cbn [serve_all stack_run legal] in *; [by eexists | |].
  - pose proof (kalloc_pop F s Hst) as H. destruct F as [| a F].
    + destruct (IH [] s Hst Hl) as [s' E]. exists s'. rewrite (bind_ret _ _ _ _ _ H). by rewrite (bind_ret _ _ _ _ _ E).
    + destruct H as [E0 Hst']. destruct (IH F _ Hst' Hl) as [s' E]. exists s'. rewrite (bind_ret _ _ _ _ _ E0). by rewrite (bind_ret _ _ _ _ _ E).
  - destruct Hl as (Hv & Hn & Hl). destruct (kfree_push F s a Hst Hv Hn) as (pg & E0 & Hst'). destruct (IH (a :: F) _ Hst' Hl) as [s' E].
    exists s'. cbn [serve]. erewrite bind_ret by by erewrite bind_ret by exact E0. by rewrite (bind_ret _ _ _ _ _ E).
Qed.
End inv.

Definition pages_in (v0 v1 : Z) : list Z := page_run (PGROUNDUP v0) (Z.to_nat ((v1 - PGROUNDUP v0) / PGSIZE)).

Lemma pages_in_valid {I : Image} v0 v1 : end_ <= v0 -> v1 <= KERNBASE + PHYSTOP -> v0 < KERNBASE + PHYSTOP ->
  forall a, a ∈ pages_in v0 v1 -> valid a /\ v0 <= a /\ a + PGSIZE <= v1.
Proof.
  intros H0 H1 H2 a (k & Hk & ->)%elem_of_page_run. destruct image_order as [Ho1 Ho2].
  unfold valid, KERNLINK, KERNBASE, PHYSTOP, EXTMEM in *.
  rewrite roundup_eq in * by (unfold PGSIZE; lia). unfold PGSIZE in *.
  replace ((v0 + 4096 - 1) / 4096 * 4096 + Z.of_nat k * 4096) with (((v0 + 4096 - 1) / 4096 + Z.of_nat k) * 4096) by lia.
  rewrite Z.mod_mul by lia. split; [split; [done |] |]; dlia.
Qed.

Lemma freerange_ok {I : Image} F s v0 v1 : stack F s -> end_ <= v0 < KERNBASE + PHYSTOP -> v1 <= KERNBASE + PHYSTOP ->
  (forall a, a ∈ pages_in v0 v1 -> a ∉ F) ->
  exists s', freerange v0 v1 s = Ret tt s' /\ stack (rev (pages_in v0 v1) ++ F) s' /\ use_lock s' = use_lock s.
Proof.
  intros Hst H0 H1 Hn. destruct (freerange_loop_ok (S (Z.to_nat ((v1 - PGROUNDUP v0) / PGSIZE))) F s (PGROUNDUP v0) v1
    (Z.to_nat ((v1 - PGROUNDUP v0) / PGSIZE))) as (s' & E & Hst' & Hu & _); [done | done | lia | | done |].
  - apply Forall_forall. intros a Ha. by eapply pages_in_valid; [..| exact Ha]; lia.
  - by exists s'.
Qed.

(** C30. The page allocator is a stack of pages: after the two phases of its
    initialisation, over memory up to [v1] and from there to [v2], any sequence
    of allocations and releases, in which clients release only pages that are
    in range and not free, gets the answers of a stack that starts with the
    pages of the two ranges.  So no page is handed out twice, and an
    allocation fails only when every page is out. *)
Theorem page_allocator_stack {I : Image} (s0 : kmem_t) (v0 v1 v2 : Z) (rs : list request)
  (Hram : forall a, valid a -> exists pg, ram s0 !! a = Some pg /\ length pg = Z.to_nat PGSIZE)
  (Hempty : freelist s0 = 0) (Hv : end_ <= v0 /\ v0 <= v1 /\ v1 <= v2 /\ v2 <= KERNBASE + PHYSTOP) (Hlt : v1 < KERNBASE + PHYSTOP)
  (Hrs : legal rs (rev (pages_in v1 v2) ++ rev (pages_in v0 v1))) :
  exists s', (kinit1 v0 v1;; kinit2 v1 v2;; serve_all rs) s0 =
    Ret (stack_run rs (rev (pages_in v1 v2) ++ rev (pages_in v0 v1))) s'.
Proof.
  unfold kinit1, kinit2. set (s1 := with_use_lock false (with_locked false s0)).
  assert (Hst : stack [] s1) by (split; [done | done | by apply Forall_nil | by apply NoDup_nil | done]).
  destruct (freerange_ok [] s1 v0 v1 Hst) as (s2 & E2 & Hst2 & _); [lia | lia | intros a _; apply not_elem_of_nil |].
  rewrite app_nil_r in Hst2.
  destruct (freerange_ok _ s2 v1 v2 Hst2) as (s3 & E3 & Hst3 & _); [lia | lia | |].
  - intros a Ha Hin. rewrite list_elem_of_In, <- in_rev, <- list_elem_of_In in Hin. apply pages_in_valid in Ha; [| lia..]. apply pages_in_valid in Hin; [| lia..]. unfold PGSIZE in *. lia.
  - assert (Hst4 : stack (rev (pages_in v1 v2) ++ rev (pages_in v0 v1)) (with_use_lock true s3)) by by destruct Hst3.
    destruct (serve_all_ok rs _ _ Hst4 Hrs) as [s' E]. exists s'.
    assert (K1 : (modify (with_locked false);; modify (with_use_lock false);; freerange v0 v1) s0 = Ret tt s2) by exact E2.
    rewrite (bind_ret _ _ _ _ _ K1).
    assert (K2 : (freerange v1 v2;; modify (with_use_lock true)) s2 = Ret tt (with_use_lock true s3)) by by rewrite (bind_ret _ _ _ _ _ E3).
    by rewrite (bind_ret _ _ _ _ _ K2).
Qed.

(** A kernel that leaves three pages free. *)
#[local] Instance small_image : Image.
Proof. refine {| end_ := KERNBASE + PHYSTOP - 3 * PGSIZE; data_ := KERNLINK + PGSIZE |}; [done | split; [split; done | done]]. Defined.
Definition small_pages : list Z := page_run (KERNBASE + PHYSTOP - 3 * PGSIZE) 3.
Definition small_ram : kmem_t :=
  mk_kmem (list_to_map (map (fun a => (a, replicate (Z.to_nat PGSIZE) 0)) small_pages)) 0 false false.
Lemma small_ram_pages a : valid a -> exists pg, ram small_ram !! a = Some pg /\ length pg = Z.to_nat PGSIZE.
Proof.
  intros [Ha Hr]. cbn [end_ small_image] in Hr. exists (replicate (Z.to_nat PGSIZE) 0). split; [| apply length_replicate].
  assert (a = KERNBASE + PHYSTOP - 3 * PGSIZE \/ a = KERNBASE + PHYSTOP - 2 * PGSIZE \/ a = KERNBASE + PHYSTOP - PGSIZE) as [-> | [-> | ->]]
    by (unfold KERNBASE, PHYSTOP, PGSIZE in *; dlia); vm_compute; reflexivity.
Qed.

Lemma page_allocator_stack_witness :
  let top := KERNBASE + PHYSTOP in
  exists s', (kinit1 (top - 3 * PGSIZE) (top - PGSIZE);; kinit2 (top - PGSIZE) top;;
      serve_all [Alloc; Alloc; Release (top - PGSIZE); Alloc; Alloc; Alloc]) small_ram =
    Ret [Some (top - PGSIZE); Some (top - 2 * PGSIZE); None; Some (top - PGSIZE); Some (top - 3 * PGSIZE); None] s'.
Proof.
  cbv zeta.
  apply (page_allocator_stack small_ram (KERNBASE + PHYSTOP - 3 * PGSIZE) (KERNBASE + PHYSTOP - PGSIZE) (KERNBASE + PHYSTOP)
    [Alloc; Alloc; Release (KERNBASE + PHYSTOP - PGSIZE); Alloc; Alloc; Alloc] small_ram_pages eq_refl).
  - cbn [end_ small_image]. unfold PGSIZE. lia.
  - unfold PGSIZE. lia.
  - change (rev _ ++ rev _) with [KERNBASE + PHYSTOP - PGSIZE; KERNBASE + PHYSTOP - 2 * PGSIZE; KERNBASE + PHYSTOP - 3 * PGSIZE].
    cbn [legal pop snd]. split; [| split; [| exact Logic.I]].
    + split; [reflexivity |]. split; [vm_compute; discriminate | reflexivity].
    + intros H%list_elem_of_singleton. vm_compute in H. discriminate H.
Defined.
