(* ===== verification/Vm.v ===== *)
(** * Vm: project3/xv6-modified/vm.c, page tables and address spaces

    A page directory and a page table are pages of memory, read and written
    word by word as in the source; a pointer to an entry is its kernel virtual
    address.  Loading [cr3] and the segment registers ([seginit], [switchkvm],
    [switchuvm]) is hardware state and left out.  [loaduvm] reads the file
    through a call of the file system, a parameter of the definition. *)

From Stdlib Require Import ZArith Lia.
From stdpp Require Import base numbers strings option list gmap.
From S2P Require Import Prelude Kernel Kalloc.

(** ** mmu.h *)
Definition PTE_P : Z := 1.
Definition PTE_W : Z := 2.
Definition PTE_U : Z := 4.
Definition NPDENTRIES : nat := 1024.
Definition PDX (va : Z) : Z := Z.land (Z.shiftr va 22) 0x3FF.
Definition PTX (va : Z) : Z := Z.land (Z.shiftr va 12) 0x3FF.
Definition PGADDR (d t o : Z) : Z := u32 (Z.lor (Z.lor (Z.shiftl d 22) (Z.shiftl t 12)) o).
Definition PTE_ADDR (w : Z) : Z := Z.land w (Z.lnot 0xFFF).
Definition PTE_FLAGS (w : Z) : Z := Z.land w 0xFFF.
(** [w & PTE_P] and [w & PTE_U] as conditions. *)
Definition present (w : Z) : bool := negb (Z.land w PTE_P =? 0).
Definition user (w : Z) : bool := negb (Z.land w PTE_U =? 0).

Section vm.
Context {I : Image}.

Definition walkpgdir (pgdir va : Z) (alloc : bool) : K (option Z) :=
  let pde := pgdir + 4 * PDX va in
  w ← load32 pde;
  if present w then mret (Some (P2V (PTE_ADDR w) + 4 * PTX va)) else
  if negb alloc then mret None else
  o ← kalloc;
  match o with
  | None => mret None
  | Some pgtab =>
      fill_page pgtab 0;;
      store32 pde (Z.lor (Z.lor (Z.lor (V2P pgtab) PTE_P) PTE_W) PTE_U);;
      mret (Some (pgtab + 4 * PTX va))
  end.

Fixpoint mappages_loop (fuel : nat) (pgdir a last pa perm : Z) : K Z :=
  match fuel with
  | O => out_of_fuel
  | S fuel' =>
      o ← walkpgdir pgdir a true;
      match o with
      | None => mret (-1)
      | Some pte =>
          w ← load32 pte;
          if present w then stop "remap" else
          store32 pte (Z.lor (Z.lor pa perm) PTE_P);;
          if a =? last then mret 0 else
          mappages_loop fuel' pgdir (u32 (a + PGSIZE)) last (u32 (pa + PGSIZE)) perm
      end
  end.
Definition mappages (pgdir va size pa perm : Z) : K Z :=
  let a := PGROUNDDOWN va in
  let last := PGROUNDDOWN (u32 (va + size - 1)) in
  mappages_loop (S (Z.to_nat (u32 (last - a) / PGSIZE))) pgdir a last pa perm.

(** The loop of [deallocuvm]; a missing page table skips to the next one. *)
Fixpoint deallocuvm_loop (fuel : nat) (pgdir a oldsz : Z) : K unit :=
  match fuel with
  | O => out_of_fuel
  | S fuel' =>
      if a <? oldsz then
        o ← walkpgdir pgdir a false;
        match o with
        | None => deallocuvm_loop fuel' pgdir (u32 (u32 (PGADDR (PDX a + 1) 0 0 - PGSIZE) + PGSIZE)) oldsz
        | Some pte =>
            w ← load32 pte;
            (if present w then
               if PTE_ADDR w =? 0 then stop "kfree" else
               kfree (P2V (PTE_ADDR w));; store32 pte 0
             else skip);;
            deallocuvm_loop fuel' pgdir (u32 (a + PGSIZE)) oldsz
        end
      else skip
  end.
Definition deallocuvm (pgdir oldsz newsz : Z) : K Z :=
  if newsz >=? oldsz then mret oldsz else
  deallocuvm_loop (S (Z.to_nat (oldsz / PGSIZE + 1))) pgdir (PGROUNDUP newsz) oldsz;;
  mret newsz.

(** [for(i = 0; i < NPDENTRIES; i++)] of [freevm], from [i]. *)
Fixpoint free_tables (n : nat) (pgdir i : Z) : K unit :=
  match n with
  | O => skip
  | S n' =>
      w ← load32 (pgdir + 4 * i);
      (if present w then kfree (P2V (PTE_ADDR w)) else skip);;
      free_tables n' pgdir (i + 1)
  end.
Definition freevm (pgdir : Z) : K unit :=
  if pgdir =? 0 then stop "freevm: no pgdir" else
  deallocuvm pgdir KERNBASE 0;;
  free_tables NPDENTRIES pgdir 0;;
  kfree pgdir.

(** [struct kmap]: [virt], [phys_start], [phys_end], [perm]. *)
Definition kmap : list (Z * Z * Z * Z) :=
  [(KERNBASE, 0, EXTMEM, PTE_W);
   (KERNLINK, V2P KERNLINK, V2P data_, 0);
   (data_, V2P data_, PHYSTOP, PTE_W);
   (DEVSPACE, DEVSPACE, 0, PTE_W)].

Fixpoint setupkvm_loop (pgdir : Z) (ks : list (Z * Z * Z * Z)) : K (option Z) :=
  match ks with
  | [] => mret (Some pgdir)
  | (virt, phys_start, phys_end, perm) :: ks' =>
      r ← mappages pgdir virt (u32 (phys_end - phys_start)) phys_start perm;
      if r <? 0 then freevm pgdir;; mret None else setupkvm_loop pgdir ks'
  end.
Definition setupkvm : K (option Z) :=
  o ← kalloc;
  match o with
  | None => mret None
  | Some pgdir =>
      fill_page pgdir 0;;
      if P2V PHYSTOP >? DEVSPACE then stop "PHYSTOP too high" else
      setupkvm_loop pgdir kmap
  end.

Definition inituvm (pgdir : Z) (init : list Z) (sz : Z) : K unit :=
  if sz >=? PGSIZE then stop "inituvm: more than a page" else
  o ← kalloc;
  mem ← from_option "page fault" o;
  fill_page mem 0;;
  mappages pgdir 0 PGSIZE (V2P mem) (Z.lor PTE_W PTE_U);;
  pg ← get_page mem;
  set_page mem (splice 0 (take (Z.to_nat sz) init) pg).

Fixpoint allocuvm_loop (fuel : nat) (pgdir a oldsz newsz : Z) : K Z :=
  match fuel with
  | O => out_of_fuel
  | S fuel' =>
      if a <? newsz then
        o ← kalloc;
        match o with
        | None => deallocuvm pgdir newsz oldsz;; mret 0
        | Some mem =>
            fill_page mem 0;;
            r ← mappages pgdir a PGSIZE (V2P mem) (Z.lor PTE_W PTE_U);
            if r <? 0 then deallocuvm pgdir newsz oldsz;; kfree mem;; mret 0 else
            allocuvm_loop fuel' pgdir (u32 (a + PGSIZE)) oldsz newsz
        end
      else mret newsz
  end.
Definition allocuvm (pgdir oldsz newsz : Z) : K Z :=
  if newsz >=? KERNBASE then mret 0 else
  if newsz <? oldsz then mret oldsz else
  allocuvm_loop (S (Z.to_nat (newsz / PGSIZE + 1))) pgdir (PGROUNDUP oldsz) oldsz newsz.

Definition clearpteu (pgdir uva : Z) : K unit :=
  o ← walkpgdir pgdir uva false;
  match o with
  | None => stop "clearpteu"
  | Some pte => w ← load32 pte; store32 pte (Z.land w (Z.lnot PTE_U))
  end.

Fixpoint copyuvm_loop (fuel : nat) (pgdir d i sz : Z) : K (option Z) :=
  match fuel with
  | O => out_of_fuel
  | S fuel' =>
      if i <? sz then
        o ← walkpgdir pgdir i false;
        match o with
        | None => stop "copyuvm: pte should exist"
        | Some pte =>
            w ← load32 pte;
            if negb (present w) then stop "copyuvm: page not present" else
            o ← kalloc;
            match o with
            | None => freevm d;; mret None
            | Some mem =>
                pg ← get_page (P2V (PTE_ADDR w));
                set_page mem pg;;
                r ← mappages d i PGSIZE (V2P mem) (PTE_FLAGS w);
                if r <? 0 then kfree mem;; freevm d;; mret None else
                copyuvm_loop fuel' pgdir d (u32 (i + PGSIZE)) sz
            end
        end
      else mret (Some d)
  end.
Definition copyuvm (pgdir sz : Z) : K (option Z) :=
  o ← setupkvm;
  match o with
  | None => mret None
  | Some d => copyuvm_loop (S (Z.to_nat (sz / PGSIZE + 1))) pgdir d 0 sz
  end.

Definition uva2ka (pgdir uva : Z) : K (option Z) :=
  o ← walkpgdir pgdir uva false;
  pte ← from_option "null pointer" o;
  w ← load32 pte;
  if negb (present w) then mret None else
  if negb (user w) then mret None else
  mret (Some (P2V (PTE_ADDR w))).

Fixpoint copyout_loop (fuel : nat) (pgdir va : Z) (buf : list Z) (len : Z) : K Z :=
  match fuel with
  | O => out_of_fuel
  | S fuel' =>
      if len >? 0 then
        let va0 := PGROUNDDOWN va in
        o ← uva2ka pgdir va0;
        match o with
        | None => mret (-1)
        | Some pa0 =>
            let n := u32 (PGSIZE - (va - va0)) in
            let n := if n >? len then len else n in
            pg ← get_page pa0;
            set_page pa0 (splice (Z.to_nat (va - va0)) (take (Z.to_nat n) buf) pg);;
            copyout_loop fuel' pgdir (u32 (va0 + PGSIZE)) (drop (Z.to_nat n) buf) (len - n)
        end
      else mret 0
  end.
Definition copyout (pgdir va : Z) (buf : list Z) (len : Z) : K Z :=
  copyout_loop (S (Z.to_nat (len / PGSIZE + 2))) pgdir va buf len.
End vm.

(** [loaduvm] over memory and the state [F] of the file system, with
    [rd off n] for [readi(ip, -, off, n)]: the result and the bytes read. *)
Section load.
Context {I : Image} {F : Type}.
Variable rd : Z -> Z -> M F (Z * list Z).

Definition on_mem {A : Type} (m : K A) : M (kmem_t * F) A := fun s =>
  match m (fst s) with
  | Ret a x => Ret a (x, snd s)
  | Stop msg => Stop msg
  | Block c x => Block c (x, snd s)
  | OutOfFuel => OutOfFuel
  end.
Definition on_files {A : Type} (m : M F A) : M (kmem_t * F) A := fun s =>
  match m (snd s) with
  | Ret a x => Ret a (fst s, x)
  | Stop msg => Stop msg
  | Block c x => Block c (fst s, x)
  | OutOfFuel => OutOfFuel
  end.

Fixpoint loaduvm_loop (fuel : nat) (pgdir addr offset i sz : Z) : M (kmem_t * F) Z :=
  match fuel with
  | O => out_of_fuel
  | S fuel' =>
      if i <? sz then
        o ← on_mem (walkpgdir pgdir (u32 (addr + i)) false);
        match o with
        | None => stop "loaduvm: address should exist"
        | Some pte =>
            w ← on_mem (load32 pte);
            let n := if sz - i <? PGSIZE then sz - i else PGSIZE in
            r ← on_files (rd (u32 (offset + i)) n);
            pg ← on_mem (get_page (P2V (PTE_ADDR w)));
            on_mem (set_page (P2V (PTE_ADDR w)) (splice 0 (snd r) pg));;
            if negb (u32 (fst r) =? n) then mret (-1) else
            loaduvm_loop fuel' pgdir addr offset (u32 (i + PGSIZE)) sz
        end
      else mret 0
  end.
Definition loaduvm (pgdir addr offset sz : Z) : M (kmem_t * F) Z :=
  if negb (addr mod PGSIZE =? 0) then stop "loaduvm: addr must be page aligned" else
  loaduvm_loop (S (Z.to_nat (sz / PGSIZE + 1))) pgdir addr offset 0 sz.
End load.
