(* ===== verification/VmSpec.v ===== *)
(** * VmSpec: address spaces are isolated and lose no page

    The ghost state of Kalloc.v says of each page whether it is free, a page
    directory, the page table of an entry of a directory, or the frame of a
    user page.  The invariant ties it to the words of the page tables in both
    directions: what a table points to is owned by that entry, and what is
    owned is pointed to.  The operations of Vm.v are specified by what they do
    to the ghost state and to the view [pte] of each directory. *)

From Stdlib Require Import ZArith Lia.
From stdpp Require Import base numbers strings option list gmap.
From S2P Require Import Prelude Kernel Kalloc Vm.

(** ** Addresses and entries *)
Definition vpn (va : Z) : Z := va / PGSIZE.
Lemma PDX_vpn va : is_u32 va -> PDX va = vpn va / 1024.
Proof.
  intros Hr. unfold PDX, vpn, is_u32, PGSIZE in *. change 0x3FF with (Z.ones 10). rewrite Z.land_ones, Z.shiftr_div_pow2 by lia. dlia.
Qed.
Lemma PTX_vpn va : is_u32 va -> PTX va = vpn va mod 1024.
Proof.
  intros Hr. unfold PTX, vpn, is_u32, PGSIZE in *. change 0x3FF with (Z.ones 10). rewrite Z.land_ones, Z.shiftr_div_pow2 by lia. done.
Qed.
Lemma vpn_range va : is_u32 va -> 0 <= vpn va < 2 ^ 20.
Proof. unfold is_u32, vpn, PGSIZE. intros. dlia. Qed.

Lemma addr_eq w : PTE_ADDR w = w - w mod PGSIZE.
Proof. exact (rounddown_eq w). Qed.
Lemma flags_eq w : PTE_FLAGS w = w mod PGSIZE.
Proof. unfold PTE_FLAGS. change 0xFFF with (Z.ones 12). by rewrite Z.land_ones by lia. Qed.

Lemma lor_page pa f : pa mod PGSIZE = 0 -> 0 <= f < PGSIZE -> Z.lor pa f = pa + f.
Proof.
  intros Ha Hf. unfold PGSIZE in *.
  assert (E1 : Z.lor pa f mod 4096 = f).
  { change 4096 with (2 ^ 12). rewrite <- Z.land_ones, Z.land_lor_distr_l, !Z.land_ones by lia. change (2 ^ 12) with 4096. rewrite Ha.
    rewrite Z.lor_0_l. apply Z.mod_small. lia. }
  assert (E2 : Z.lor pa f / 4096 = pa / 4096).
  { change 4096 with (2 ^ 12). rewrite <- !Z.shiftr_div_pow2, Z.shiftr_lor by lia. rewrite (Z.shiftr_div_pow2 f) by lia. change (2 ^ 12) with 4096.
    rewrite (Z.div_small f 4096) by lia. apply Z.lor_0_r. }
  dlia.
Qed.
Lemma perm_small perm : 0 <= perm < PGSIZE -> 0 <= Z.lor perm PTE_P < PGSIZE.
Proof.
  intros H. assert (E : Z.lor perm PTE_P mod PGSIZE = Z.lor perm PTE_P).
  { unfold PGSIZE in *. change 4096 with (2 ^ 12). rewrite <- Z.land_ones, Z.land_lor_distr_l, (Z.land_ones perm) by lia.
    change (Z.land PTE_P (Z.ones 12)) with PTE_P. f_equal. apply Z.mod_small. lia. }
  rewrite <- E. apply Z.mod_pos_bound. done.
Qed.

(** An entry that maps the page at physical address [pa]. *)
Lemma entry_facts pa perm : 0 <= pa <= 2 ^ 32 - PGSIZE -> pa mod PGSIZE = 0 -> 0 <= perm < PGSIZE ->
  let w := Z.lor (Z.lor pa perm) PTE_P in
  is_u32 w /\ PTE_ADDR w = pa /\ PTE_FLAGS w = Z.lor perm PTE_P /\ present w = true /\ user w = user perm.
Proof.
  intros Hr Ha Hp w. pose proof (perm_small perm Hp) as Hf.
  assert (Ew : w = pa + Z.lor perm PTE_P) by (unfold w; rewrite <- Z.lor_assoc; by apply lor_page).
  assert (Em : w mod PGSIZE = Z.lor perm PTE_P) by (rewrite Ew; unfold PGSIZE in *; dlia).
  split; [unfold is_u32; lia |]. split; [rewrite addr_eq; lia |]. split; [by rewrite flags_eq |]. split.
  - unfold present, w. rewrite Z.land_lor_distr_l. apply negb_true_iff, Z.eqb_neq. intros [_ E]%Z.lor_eq_0_iff. done.
  - unfold user. do 2 f_equal. unfold w. rewrite !Z.land_lor_distr_l. change (Z.land PTE_P PTE_U) with 0. rewrite Z.lor_0_r.
    replace (Z.land pa PTE_U) with 0; [apply Z.lor_0_l |]. symmetry. change PTE_U with (Z.shiftl 1 2).
    apply Z.bits_inj'. intros n Hn. rewrite Z.land_spec, Z.bits_0. apply andb_false_iff.
    destruct (decide (n = 2)) as [-> |]; [left | right].
    + replace pa with (pa / 4096 * 2 ^ 12) by (unfold PGSIZE in *; change (2 ^ 12) with 4096; dlia). apply Z.mul_pow2_bits_low. lia.
    + rewrite Z.shiftl_spec by lia. change 1 with (2 ^ 0). rewrite Z.pow2_bits_eqb by lia. apply Z.eqb_neq. lia.
Qed.

(** The kernel address of what an entry points to. *)
Definition tabp (w : Z) : Z := P2V (PTE_ADDR w).
Section valid.
Context {I : Image}.
Lemma valid_phys a : valid a -> 0 <= V2P a < 2 ^ 32 - PGSIZE /\ V2P a mod PGSIZE = 0 /\ P2V (V2P a) = a /\ V2P a <> 0.
Proof.
  intros Hv. rewrite valid_V2P by done. pose proof (valid_range a Hv) as [Hr Ha]. destruct Hv as [_ Hv].
  unfold P2V, KERNLINK, KERNBASE, EXTMEM, PHYSTOP, PGSIZE in *. split; [lia |]. split; [dlia |]. split; [| lia].
  rewrite u32_small by lia. lia.
Qed.
Lemma tabp_entry a perm : valid a -> 0 <= perm < PGSIZE -> let w := Z.lor (Z.lor (V2P a) perm) PTE_P in
  is_u32 w /\ tabp w = a /\ PTE_FLAGS w = Z.lor perm PTE_P /\ present w = true /\ user w = user perm.
Proof.
  intros Hv Hp. destruct (valid_phys a Hv) as (Hr & Hm & Hb & _). destruct (entry_facts (V2P a) perm ltac:(lia) Hm Hp) as (H1 & H2 & H3 & H4 & H5).
  split; [done |]. split; [unfold tabp; by rewrite H2 |]. done.
Qed.
End valid.

(** ** Views of a page directory *)
Definition UPAGES : Z := KERNBASE / PGSIZE.
Definition pde (m : ram_t) (d i : Z) : Z := word m d i.
Definition pte (m : ram_t) (d v : Z) : Z :=
  let w := pde m d (v / 1024) in if present w then word m (tabp w) (v mod 1024) else 0.

Section spec.
Context {I : Image}.
Implicit Types (g : ghost) (m : ram_t) (s : kmem_t).

Definition tabs_owned g m : Prop :=
  forall d i, g d = Dir -> 0 <= i < 1024 -> present (pde m d i) = true -> g (tabp (pde m d i)) = Tab d i.
Record pt_inv g m : Prop := {
  pi_tab : tabs_owned g m;
  pi_tab_of : forall a d i, g a = Tab d i -> g d = Dir /\ 0 <= i < 1024 /\ present (pde m d i) = true /\ tabp (pde m d i) = a;
  pi_user : forall d v, g d = Dir -> 0 <= v < UPAGES -> present (pte m d v) = true -> g (tabp (pte m d v)) = User d v;
  pi_user_of : forall a d v, g a = User d v -> g d = Dir /\ 0 <= v < UPAGES /\ present (pte m d v) = true /\ tabp (pte m d v) = a
}.
Definition vm_inv g s : Prop := alloc_inv g s /\ pt_inv g (ram s).

(** The views of [d] depend on the directory and its tables only. *)
Lemma pde_frame m m' d i : m' !! d = m !! d -> pde m' d i = pde m d i.
Proof using. unfold pde, word. by intros ->. Qed.
Lemma vdiv v : 0 <= v < 2 ^ 20 -> 0 <= v / 1024 < 1024 /\ 0 <= v mod 1024 < 1024.
Proof using. intros. dlia. Qed.
Lemma pte_frame g m m' d v : tabs_owned g m -> g d = Dir -> 0 <= v < 2 ^ 20 -> m' !! d = m !! d ->
  (forall a i, g a = Tab d i -> m' !! a = m !! a) -> pte m' d v = pte m d v.
Proof using.
  intros H Hd Hv Hf Ht. unfold pte. rewrite (pde_frame m m' d _ Hf). destruct (present _) eqn:E; [| done].
  destruct (vdiv v Hv) as [Hi _]. unfold word. by rewrite (Ht _ _ (H d _ Hd Hi E)).
Qed.
Lemma UPAGES_eq : UPAGES = 2 ^ 19.
Proof using. done. Qed.
Lemma upages_lt v : 0 <= v < UPAGES -> 0 <= v < 2 ^ 20.
Proof using. rewrite UPAGES_eq. lia. Qed.

(** Ghost states that agree except on which idle pages are free. *)
Definition idle (o : owner) : bool := match o with Free | Held => true | _ => false end.
Definition same_use g g' : Prop := forall a, g' a = g a \/ (idle (g a) = true /\ idle (g' a) = true).
Lemma same_use_iff g g' a o : same_use g g' -> idle o = false -> g' a = o <-> g a = o.
Proof using. intros H Ho. destruct (H a) as [-> | [H1 H2]]; [done |]. split; intros E; rewrite E in *; congruence. Qed.

Lemma pt_inv_same g g' m m' : pt_inv g m -> same_use g g' ->
  (forall d i, g d = Dir -> 0 <= i < 1024 -> pde m' d i = pde m d i) ->
  (forall d v, g d = Dir -> 0 <= v < 2 ^ 20 -> pte m' d v = pte m d v) -> pt_inv g' m'.
Proof using.
  intros [H1 H2 H3 H4] Hs Hp Ht. split.
  - intros d i Hd%(same_use_iff _ _ _ _ Hs) Hi; [| done]. rewrite Hp by done. intros Hpr. rewrite (same_use_iff g g') by done. by apply H1.
  - intros a d i Ha%(same_use_iff _ _ _ _ Hs); [| done]. destruct (H2 a d i Ha) as (Hd & Hi & Hpr & Ha'). rewrite Hp by done.
    split; [by apply (same_use_iff g g') |]. done.
  - intros d v Hd%(same_use_iff _ _ _ _ Hs) Hv; [| done]. rewrite Ht by (try done; by apply upages_lt). intros Hpr.
    rewrite (same_use_iff g g') by done. by apply H3.
  - intros a d v Ha%(same_use_iff _ _ _ _ Hs); [| done]. destruct (H4 a d v Ha) as (Hd & Hv & Hpr & Ha').
    rewrite Ht by (try done; by apply upages_lt). split; [by apply (same_use_iff g g') |]. done.
Qed.

(** A change of pages that are neither directories nor tables. *)
Definition meta (o : owner) : bool := match o with Dir | Tab _ _ => true | _ => false end.
Lemma pt_inv_data g g' m m' : pt_inv g m -> same_use g g' -> (forall a, meta (g a) = true -> m' !! a = m !! a) -> pt_inv g' m'.
Proof using.
  intros H Hs Hf. apply (pt_inv_same g g' m m' H Hs).
  - intros d i Hd _. apply pde_frame, Hf. by rewrite Hd.
  - intros d v Hd Hv. apply (pte_frame g); [apply H | done | done | apply Hf; by rewrite Hd |]. intros a i Ha. apply Hf. by rewrite Ha.
Qed.
Lemma same_use_set g a o : idle (g a) = true -> idle o = true -> same_use g (own_set a o g).
Proof using. intros H1 H2 b. unfold own_set. destruct (decide (b = a)) as [-> |]; [by right | by left]. Qed.

(** ** Memory operations *)
Lemma own_set_other g f o' a o : own_set f o' g a = o -> o <> o' -> a <> f /\ g a = o.
Proof using. unfold own_set. destruct (decide (a = f)); intros; [congruence | done]. Qed.
Lemma own_set_keep g f o' a o : g a = o -> g f <> o -> own_set f o' g a = o.
Proof using. intros Ha Hf. rewrite own_set_ne; [done |]. congruence. Qed.

Lemma kalloc_vm g s : vm_inv g s ->
  (kalloc s = Ret None s /\ forall a, g a <> Free) \/
  exists a p, kalloc s = Ret (Some a) (with_freelist p s) /\ g a = Free /\ valid a /\ vm_inv (own_set a Held g) (with_freelist p s).
Proof.
  intros [Ha Hp]. destruct (kalloc_ok g s Ha) as [H | (a & p & E & Hf & Hv & Hi)]; [by left |]. right. exists a, p.
  split; [done |]. split; [done |]. split; [done |]. split; [done |]. eapply pt_inv_data; [exact Hp | | done].
  apply same_use_set; [by rewrite Hf | done].
Qed.
Lemma kfree_vm g s a : vm_inv g s -> valid a -> g a = Held ->
  exists s', kfree a s = Ret tt s' /\ vm_inv (own_set a Free g) s' /\ forall b, b <> a -> ram s' !! b = ram s !! b.
Proof.
  intros [Ha Hp] Hv Hg. destruct (kfree_ok g s a Ha Hv) as (pg & E & _ & Hi); [by rewrite Hg |]. eexists. split; [exact E |]. split; [split; [done |] |].
  - eapply pt_inv_data; [exact Hp | apply same_use_set; [by rewrite Hg | done] |]. intros b Hb. cbn [with_ram ram].
    rewrite lookup_insert_ne; [done |]. intros <-. by rewrite Hg in Hb.
  - intros b Hb. cbn [with_ram ram]. by rewrite lookup_insert_ne.
Qed.
Lemma set_page_vm g s a pg : vm_inv g s -> valid a -> meta (g a) = false -> g a <> Free -> length pg = Z.to_nat PGSIZE ->
  set_page a pg s = Ret tt (with_ram (<[a := pg]> (ram s)) s) /\ vm_inv g (with_ram (<[a := pg]> (ram s)) s).
Proof.
  intros [Ha Hp] Hv Hm Hf Hl. destruct (alloc_page g s a Ha Hv) as (pg0 & E & _). split; [by eapply set_page_ret |].
  split; [by apply alloc_inv_set |]. eapply pt_inv_data; [exact Hp | by left |]. intros b Hb. cbn [with_ram ram].
  rewrite lookup_insert_ne; [done |]. intros <-. congruence.
Qed.

Lemma page_aligned g s a o : alloc_inv g s -> g a = o -> o <> Held -> valid a /\ a mod PGSIZE = 0 /\ exists pg, ram s !! a = Some pg /\ length pg = Z.to_nat PGSIZE.
Proof. intros H Ho Hn. pose proof (alloc_valid g s a o H Ho Hn) as Hv. split; [done |]. split; [apply Hv | by eapply alloc_page]. Qed.

Lemma load_pde g s d i : vm_inv g s -> g d = Dir -> 0 <= i < 1024 -> load32 (d + 4 * i) s = Ret (pde (ram s) d i) s.
Proof.
  intros [Ha _] Hd Hi. destruct (page_aligned g s d Dir Ha Hd) as (_ & Hm & pg & E & _); [done |]. unfold pde, word. rewrite E. by apply load32_ret.
Qed.
Lemma load_pte g s d v : vm_inv g s -> g d = Dir -> 0 <= v < 2 ^ 20 -> present (pde (ram s) d (v / 1024)) = true ->
  load32 (tabp (pde (ram s) d (v / 1024)) + 4 * (v mod 1024)) s = Ret (pte (ram s) d v) s.
Proof.
  intros [Ha Hp] Hd Hv Hpr. destruct (vdiv v Hv) as [Hi Hj]. pose proof (pi_tab _ _ Hp d _ Hd Hi Hpr) as Ht.
  destruct (page_aligned g s _ _ Ha Ht) as (_ & Hm & pg & E & _); [done |]. unfold pte. rewrite Hpr. unfold word. rewrite E. by apply load32_ret.
Qed.

Lemma walk_ok g s d va : vm_inv g s -> g d = Dir -> is_u32 va ->
  let v := vpn va in
  walkpgdir d va false s = Ret (if present (pde (ram s) d (v / 1024)) then Some (tabp (pde (ram s) d (v / 1024)) + 4 * (v mod 1024)) else None) s.
Proof.
  intros H Hd Hva v. destruct (vdiv v (vpn_range va Hva)) as [Hi Hj]. unfold walkpgdir. rewrite PDX_vpn, PTX_vpn by done. fold v.
  erewrite bind_ret by by eapply load_pde. by destruct (present _).
Qed.

(** What a store to the entry of page [v] changes. *)
Record stored g d v w s s' : Prop := {
  sd_alloc : alloc_inv g s';
  sd_ram : forall a, g a <> Tab d (v / 1024) -> ram s' !! a = ram s !! a;
  sd_pde : forall d' i, g d' = Dir -> pde (ram s') d' i = pde (ram s) d' i;
  sd_pte : pte (ram s') d v = w;
  sd_other : forall d' v', g d' = Dir -> 0 <= v' < 2 ^ 20 -> d' <> d \/ v' <> v -> pte (ram s') d' v' = pte (ram s) d' v'
}.
Lemma store_pte g s d v w : alloc_inv g s -> tabs_owned g (ram s) -> g d = Dir -> 0 <= v < 2 ^ 20 -> present (pde (ram s) d (v / 1024)) = true -> is_u32 w ->
  exists s', store32 (tabp (pde (ram s) d (v / 1024)) + 4 * (v mod 1024)) w s = Ret tt s' /\ stored g d v w s s'.
Proof.
  intros Ha Hp Hd Hv Hpr Hw. destruct (vdiv v Hv) as [Hi Hj]. set (t := tabp (pde (ram s) d (v / 1024))).
  assert (Ht : g t = Tab d (v / 1024)) by by apply Hp.
  destruct (page_aligned g s t _ Ha Ht) as (Hvt & Hm & pg & E & Hl); [done |].
  assert (Hlen : 4 * (v mod 1024) + 4 <= Z.of_nat (length pg)) by (rewrite Hl; unfold PGSIZE; lia).
  exists (with_ram (<[t := wrw (v mod 1024) w pg]> (ram s)) s). split; [by apply store32_ret |].
  assert (Hne : forall d', g d' = Dir -> t <> d') by (intros d' Hd' <-; congruence).
  assert (Hpde : forall d' i, g d' = Dir -> pde (<[t := wrw (v mod 1024) w pg]> (ram s)) d' i = pde (ram s) d' i)
    by (intros d' i Hd'; apply word_insert_ne; by apply Hne).
  split; cbn [with_ram ram].
  - apply alloc_inv_set; [done | congruence | rewrite length_wrw; [done | lia | done]].
  - intros a Hna. rewrite lookup_insert_ne; [done |]. congruence.
  - done.
  - unfold pte. rewrite Hpde, Hpr by done. fold t. rewrite word_insert. apply rdw_wrw; [lia | done | done].
  - intros d' v' Hd' Hv' Hdv. unfold pte. rewrite Hpde by done. destruct (present (pde (ram s) d' (v' / 1024))) eqn:Hpr'; [| done].
    destruct (vdiv v' Hv') as [Hi' Hj']. pose proof (Hp d' _ Hd' Hi' Hpr') as Ht'.
    destruct (decide (tabp (pde (ram s) d' (v' / 1024)) = t)) as [Et | Et]; [| by apply word_insert_ne].
    rewrite Et in *. rewrite Ht in Ht'. injection Ht' as <- Hvv. rewrite word_insert. unfold word. rewrite E.
    apply rdw_wrw_ne; [lia | lia | | done]. destruct Hdv as [? | Hdv]; [done |]. intros Hmod. apply Hdv. dlia.
Qed.

(** A table added for the entry [i] of [d]: the views stay the same. *)
Lemma add_table g s d i a : vm_inv g s -> g d = Dir -> 0 <= i < 1024 -> present (pde (ram s) d i) = false ->
  g a = Held -> valid a -> ram s !! a = Some (replicate (Z.to_nat PGSIZE) 0) ->
  let w := Z.lor (Z.lor (Z.lor (V2P a) PTE_P) PTE_W) PTE_U in
  exists s', store32 (d + 4 * i) w s = Ret tt s' /\ vm_inv (own_set a (Tab d i) g) s' /\
    (forall b, b <> d -> ram s' !! b = ram s !! b) /\ present (pde (ram s') d i) = true /\ tabp (pde (ram s') d i) = a /\
    (forall d' v, g d' = Dir -> 0 <= v < 2 ^ 20 -> pte (ram s') d' v = pte (ram s) d' v).
Proof.
  intros [Ha Hp] Hd Hi Hpr Hg Hv Ez w. destruct (page_aligned g s d Dir Ha Hd) as (Hvd & Hm & pg & E & Hl); [done |].
  assert (Hlen : 4 * i + 4 <= Z.of_nat (length pg)) by (rewrite Hl; unfold PGSIZE; lia).
  assert (Hw : is_u32 w /\ tabp w = a /\ present w = true).
  { destruct (tabp_entry a 6 Hv ltac:(unfold PGSIZE; lia)) as (W1 & W2 & _ & W3 & _).
    replace w with (Z.lor (Z.lor (V2P a) 6) PTE_P); [done |]. unfold w. rewrite <- !Z.lor_assoc. f_equal. }
  destruct Hw as (W1 & W2 & W3). eexists. split; [by apply store32_ret |]. set (m' := <[d := wrw i w pg]> (ram s)).
  assert (Had : a <> d) by congruence.
  assert (Hpde : pde m' d i = w) by (unfold pde, m'; rewrite word_insert; apply rdw_wrw; [lia | done | done]).
  assert (Hpdo : forall d' i', g d' = Dir -> 0 <= i' -> d' <> d \/ i' <> i -> pde m' d' i' = pde (ram s) d' i').
  { intros d' i' Hd' Hi' Hne. unfold pde, m'. destruct (decide (d' = d)) as [-> |]; [| by apply word_insert_ne].
    destruct Hne; [done |]. rewrite word_insert. unfold word. rewrite E. apply rdw_wrw_ne; [lia | lia | done | done]. }
  assert (Hpte : forall d' v, g d' = Dir -> 0 <= v < 2 ^ 20 -> pte m' d' v = pte (ram s) d' v).
  { intros d' v Hd' Hvv. destruct (vdiv v Hvv) as [Hi' Hj']. unfold pte. destruct (decide (d' = d /\ v / 1024 = i)) as [[-> <-] | Hne].
    - rewrite Hpde, W3, W2, Hpr. unfold m'. rewrite word_insert_ne by done. unfold word. rewrite Ez. apply rdw_zero.
    - rewrite Hpdo; [| done | lia |]. 2: { destruct (decide (d' = d)); [right | left]; [| done]. intros Hx. apply Hne. done. }
      destruct (present (pde (ram s) d' (v / 1024))) eqn:Hpr'; [| done]. apply word_insert_ne. intros Heq. pose proof (pi_tab _ _ Hp d' _ Hd' Hi' Hpr') as Ht.
      rewrite <- Heq in Ht. congruence. }
  cbn [with_ram ram]. fold m'. split; [split | split; [| split; [by rewrite Hpde | split; [by rewrite Hpde | exact Hpte]]]].
  - change (alloc_inv (own_set a (Tab d i) g) (with_ram m' s)). apply alloc_inv_own_set; [| done | by rewrite Hg | done].
    apply alloc_inv_set; [done | congruence | rewrite length_wrw; [done | lia | done]].
  - cbn [with_ram ram]. split.
    + intros d' i' [Hda Hd']%own_set_other Hi' Hpr'; [| done]. destruct (decide (d' = d /\ i' = i)) as [[-> ->] | Hne].
      * rewrite Hpde, W2. apply own_set_eq.
      * assert (Hne' : d' <> d \/ i' <> i) by (destruct (decide (d' = d)); [right | left]; [| done]; intros ->; by apply Hne).
        rewrite Hpdo in * by (done || lia). apply own_set_keep; [by apply (pi_tab _ _ Hp) | congruence].
    + intros b d' i' Hb. unfold own_set in Hb. destruct (decide (b = a)) as [-> |].
      * injection Hb as <- <-. rewrite Hpde. split; [by apply own_set_keep; [| congruence] |]. done.
      * destruct (pi_tab_of _ _ Hp b d' i' Hb) as (Hd' & Hi' & Hpr' & Htb). assert (Hne' : d' <> d \/ i' <> i).
        { destruct (decide (d' = d)) as [-> |]; [right | by left]. intros ->. congruence. }
        rewrite Hpdo by (done || lia). split; [by apply own_set_keep; [| congruence] |]. done.
    + intros d' v [Hda Hd']%own_set_other Hvv Hpr'; [| done]. rewrite Hpte in * by (try done; by apply upages_lt).
      apply own_set_keep; [by apply (pi_user _ _ Hp) | congruence].
    + intros b d' v [Hba Hb]%own_set_other; [| done]. destruct (pi_user_of _ _ Hp b d' v Hb) as (Hd' & Hvv & Hpr' & Htb).
      rewrite Hpte by (try done; by apply upages_lt). split; [by apply own_set_keep; [| congruence] |]. done.
  - intros b Hb. unfold m'. by rewrite lookup_insert_ne.
Qed.

(** ** Page tables that grow *)
(** In use, and neither the directory [d] nor one of its tables. *)
Definition untouched d g a : Prop := g a <> Free /\ a <> d /\ forall i, g a <> Tab d i.
Definition own_grows d g g' : Prop := forall a, g' a = g a \/ (g a = Free /\ exists i, g' a = Tab d i).
Record grows d g s g' s' : Prop := {
  gr_inv : vm_inv g' s';
  gr_own : own_grows d g g';
  gr_pte : forall d' v, g d' = Dir -> 0 <= v < 2 ^ 20 -> pte (ram s') d' v = pte (ram s) d' v;
  gr_ram : forall a, untouched d g a -> ram s' !! a = ram s !! a
}.
Lemma grows_refl d g s : vm_inv g s -> grows d g s g s.
Proof using. intros. split; [done | by left | done | done]. Qed.
Lemma own_grows_keep d g g' a o : own_grows d g g' -> g a = o -> o <> Free -> g' a = o.
Proof using. intros H Ho Hn. destruct (H a) as [-> | [Hf _]]; [done | congruence]. Qed.
Lemma own_grows_trans d g1 g2 g3 : own_grows d g1 g2 -> own_grows d g2 g3 -> own_grows d g1 g3.
Proof using.
  intros H1 H2 a. destruct (H2 a) as [-> | [Hf Ht]]; [apply H1 |]. right. split; [| done].
  destruct (H1 a) as [E | [? [i E]]]; [by rewrite <- E | done].
Qed.

Lemma walk_alloc_ok g s d va : vm_inv g s -> g d = Dir -> is_u32 va ->
  let i := vpn va / 1024 in
  (walkpgdir d va true s = Ret None s /\ forall a, g a <> Free) \/
  exists g' s', walkpgdir d va true s = Ret (Some (tabp (pde (ram s') d i) + 4 * (vpn va mod 1024))) s' /\
    grows d g s g' s' /\ present (pde (ram s') d i) = true.
Proof.
  intros H Hd Hva i. destruct (vdiv (vpn va) (vpn_range va Hva)) as [Hi Hj]. fold i in Hi. unfold walkpgdir. rewrite PDX_vpn, PTX_vpn by done. fold i.
  rewrite (bind_ret _ _ _ _ _ (load_pde g s d i H Hd Hi)). destruct (present (pde (ram s) d i)) eqn:Hpr.
  - right. exists g, s. split; [done |]. split; [by apply grows_refl | done].
  - cbn [negb]. destruct (kalloc_vm g s H) as [[E Hno] | (a & p & E & Hf & Hv & Hinv)].
    + left. by rewrite (bind_ret _ _ _ _ _ E).
    + right. rewrite (bind_ret _ _ _ _ _ E). cbv beta iota.
      destruct (set_page_vm (own_set a Held g) (with_freelist p s) a (replicate (Z.to_nat PGSIZE) 0)) as [E1 Hinv1];
        [done | done | by rewrite own_set_eq | by rewrite own_set_eq | apply length_replicate |].
      unfold fill_page. rewrite (bind_ret _ _ _ _ _ E1). cbn [with_freelist ram] in *.
      set (s1 := with_ram (<[a := replicate (Z.to_nat PGSIZE) 0]> (ram s)) (with_freelist p s)) in *.
      assert (Had : a <> d) by congruence.
      assert (Hd1 : own_set a Held g d = Dir) by (apply own_set_keep; [done | congruence]).
      assert (Hpr1 : present (pde (ram s1) d i) = false) by (unfold pde; cbn [s1 with_ram ram]; by rewrite word_insert_ne).
      destruct (add_table (own_set a Held g) s1 d i a Hinv1 Hd1 Hi Hpr1) as (s2 & E2 & Hinv2 & Hram & Hpr2 & Htab & Hpte);
        [apply own_set_eq | done | apply lookup_insert_eq |].
      cbv zeta in E2. rewrite (bind_ret _ _ _ _ _ E2). eexists _, s2. rewrite Htab. split; [reflexivity |]. split; [split; [exact Hinv2 | | |] | exact Hpr2].
      * intros b. unfold own_set. destruct (decide (b = a)) as [-> |]; [right; eauto | by left].
      * intros d' v Hd' Hvv. rewrite Hpte; [| by apply own_set_keep; [| congruence] | done].
        apply (pte_frame g); [apply (pi_tab _ _ (proj2 H)) | done | done | |].
        -- cbn [s1 with_ram ram]. rewrite lookup_insert_ne; [done | congruence].
        -- intros b i' Hb. cbn [s1 with_ram ram]. rewrite lookup_insert_ne; [done | congruence].
      * intros b (Hnf & Hne & _). rewrite Hram by done. cbn [s1 with_ram ram]. rewrite lookup_insert_ne; [done | congruence].
Qed.

(** ** Mapping pages *)
Lemma vpn_page v : vpn (v * PGSIZE) = v.
Proof using. unfold vpn. by rewrite Z.div_mul. Qed.
Lemma page_u32 v : 0 <= v < 2 ^ 20 -> is_u32 (v * PGSIZE).
Proof using. unfold is_u32, PGSIZE. lia. Qed.
Lemma round_page v : PGROUNDDOWN (v * PGSIZE) = v * PGSIZE.
Proof using. rewrite rounddown_eq. rewrite Z.mod_mul by done. lia. Qed.
Lemma round_last v : 0 <= v < 2 ^ 20 -> PGROUNDDOWN (u32 (v * PGSIZE + PGSIZE - 1)) = v * PGSIZE.
Proof using. intros Hv. rewrite u32_small, rounddown_eq by (unfold PGSIZE; lia). unfold PGSIZE. dlia. Qed.

(** A user page mapped to the frame [f]. *)
Record mapped_user d v f w g s g' s' : Prop := {
  mu_inv : vm_inv g' s';
  mu_frame : g' f = User d v;
  mu_own : forall a, a <> f -> g' a = g a \/ (g a = Free /\ exists i, g' a = Tab d i);
  mu_pte : pte (ram s') d v = w;
  mu_other : forall d' v', g d' = Dir -> 0 <= v' < 2 ^ 20 -> d' <> d \/ v' <> v -> pte (ram s') d' v' = pte (ram s) d' v';
  mu_ram : forall a, untouched d g a -> ram s' !! a = ram s !! a
}.

Lemma user_entry_inv g s s' d v f w : vm_inv g s -> g d = Dir -> 0 <= v < UPAGES -> present (pte (ram s) d v) = false ->
  g f = Held -> valid f -> present w = true -> tabp w = f -> stored g d v w s s' -> vm_inv (own_set f (User d v) g) s'.
Proof.
  intros [Ha Hp] Hd Hv Hpr Hf Hvf Hw Ht [S1 S2 S3 S4 S5]. split; [apply alloc_inv_own_set; [done | done | congruence | done] |]. split.
  - intros d' i [_ Hd']%own_set_other Hi Hpr'; [| done]. rewrite S3 in * by done. apply own_set_keep; [by apply (pi_tab _ _ Hp) | congruence].
  - intros a d' i [_ Ha']%own_set_other; [| done]. destruct (pi_tab_of _ _ Hp a d' i Ha') as (Hd' & H'). rewrite S3 by done.
    split; [by apply own_set_keep; [| congruence] | done].
  - intros d' v' [_ Hd']%own_set_other Hv' Hpr'; [| done]. destruct (decide (d' = d /\ v' = v)) as [[-> ->] | Hne].
    + rewrite S4, Ht. apply own_set_eq.
    + assert (Hne' : d' <> d \/ v' <> v) by (destruct (decide (d' = d)); [right | left]; [| done]; intros ->; by apply Hne).
      rewrite S5 in * by (try done; by apply upages_lt). apply own_set_keep; [by apply (pi_user _ _ Hp) | congruence].
  - intros a d' v' Ha'. unfold own_set in Ha'. destruct (decide (a = f)) as [-> |].
    + injection Ha' as <- <-. rewrite S4. split; [by apply own_set_keep; [| congruence] |]. done.
    + destruct (pi_user_of _ _ Hp a d' v' Ha') as (Hd' & Hv' & Hpr' & Ht').
      assert (Hne' : d' <> d \/ v' <> v) by (destruct (decide (d' = d)) as [-> |]; [right | by left]; intros ->; congruence).
      rewrite S5 by (try done; by apply upages_lt). split; [by apply own_set_keep; [| congruence] | done].
Qed.

(** The store of the loop of [mappages], after the walk. *)
Lemma map_store g s d va w : vm_inv g s -> g d = Dir -> is_u32 va -> is_u32 w -> present (pte (ram s) d (vpn va)) = false ->
  (walkpgdir d va true s = Ret None s /\ forall a, g a <> Free) \/
  exists p g1 s1 s2, walkpgdir d va true s = Ret (Some p) s1 /\ grows d g s g1 s1 /\ load32 p s1 = Ret (pte (ram s) d (vpn va)) s1 /\
    store32 p w s1 = Ret tt s2 /\ stored g1 d (vpn va) w s1 s2 /\ g1 d = Dir.
Proof.
  intros H Hd Hva Hw Hpr. destruct (walk_alloc_ok g s d va H Hd Hva) as [? | (g1 & s1 & E1 & Hgr & Hpr1)]; [by left |].
  right. pose proof (vpn_range va Hva) as Hv. pose proof (own_grows_keep _ _ _ _ _ (gr_own _ _ _ _ _ Hgr) Hd ltac:(done)) as Hd1.
  destruct (gr_inv _ _ _ _ _ Hgr) as [Ha1 Hp1].
  destruct (store_pte g1 s1 d (vpn va) w Ha1 (pi_tab _ _ Hp1) Hd1 Hv Hpr1 Hw) as (s2 & E2 & Hst).
  eexists _, g1, s1, s2. split; [exact E1 |]. split; [exact Hgr |]. split; [| done].
  rewrite <- (gr_pte _ _ _ _ _ Hgr d (vpn va) Hd Hv). by apply (load_pte g1); [apply Hgr | ..].
Qed.

Lemma map_user_ok g s d v f perm : vm_inv g s -> g d = Dir -> 0 <= v < UPAGES -> present (pte (ram s) d v) = false ->
  g f = Held -> valid f -> 0 <= perm < PGSIZE ->
  let w := Z.lor (Z.lor (V2P f) perm) PTE_P in
  (mappages d (v * PGSIZE) PGSIZE (V2P f) perm s = Ret (-1) s /\ forall a, g a <> Free) \/
  exists g' s', mappages d (v * PGSIZE) PGSIZE (V2P f) perm s = Ret 0 s' /\ mapped_user d v f w g s g' s'.
Proof.
  intros H Hd Hv Hpr Hf Hvf Hperm w. pose proof (upages_lt v Hv) as Hv20. destruct (tabp_entry f perm Hvf Hperm) as (W1 & W2 & _ & W3 & _).
  unfold mappages. rewrite round_page, round_last by done. rewrite Z.sub_diag. cbn [mappages_loop].
  destruct (map_store g s d (v * PGSIZE) w H Hd (page_u32 v Hv20) W1) as [[E Hno] | (p & g1 & s1 & s2 & E1 & Hgr & E2 & E3 & Hst & Hd1)].
  - by rewrite vpn_page.
  - left. by rewrite (bind_ret _ _ _ _ _ E).
  - right. rewrite vpn_page in *. exists (own_set f (User d v) g1), s2. rewrite (bind_ret _ _ _ _ _ E1). cbv beta iota.
    rewrite (bind_ret _ _ _ _ _ E2), Hpr, (bind_ret _ _ _ _ _ E3), Z.eqb_refl. split; [done |].
    destruct Hgr as [G1 G2 G3 G4]. pose proof (own_grows_keep _ _ _ _ _ G2 Hf ltac:(done)) as Hf1. split.
    + apply (user_entry_inv g1 s1 s2 d v f w); try done. by rewrite G3.
    + apply own_set_eq.
    + intros a Ha. rewrite own_set_ne by done. apply G2.
    + apply Hst.
    + intros d' v' Hd' Hv' Hne. rewrite (sd_other _ _ _ _ _ _ Hst) by (try done; by apply (own_grows_keep _ _ _ _ _ G2)). by apply G3.
    + intros a Ha. pose proof Ha as (Hnf & _ & Hnt). rewrite (sd_ram _ _ _ _ _ _ Hst); [by apply G4 |]. by destruct (G2 a) as [-> | [Hfr _]].
Qed.

(** ** Unmapping user pages *)
Lemma vm_inv_ext g g' s : vm_inv g s -> (forall a, g' a = g a) -> vm_inv g' s.
Proof using.
  intros [Ha Hp] He. split.
  - eapply alloc_inv_own; [exact Ha | intros a; by rewrite He | intros a; rewrite He; apply Ha].
  - eapply pt_inv_same; [exact Hp | intros a; left; apply He | done | done].
Qed.

(** The frames of the pages [lo..hi-1] of [d], released. *)
Definition freed d lo hi g : ghost := fun a =>
  match g a with User d' v => if decide (d' = d /\ lo <= v < hi) then Free else g a | _ => g a end.
Lemma freed_none d lo hi g : (forall a v, g a = User d v -> ~ lo <= v < hi) -> forall a, freed d lo hi g a = g a.
Proof using.
  intros H a. unfold freed. destruct (g a) eqn:E; try done. destruct (decide _) as [[-> Hv] |]; [| done]. by destruct (H a v E).
Qed.
Lemma freed_split d lo mid hi g : lo <= mid <= hi -> forall a, freed d lo hi g a = freed d mid hi (freed d lo mid g) a.
Proof using.
  intros Hm a. unfold freed. destruct (g a) as [| | | | d' v]; try done.
  destruct (decide (d' = d /\ lo <= v < mid)); [by rewrite decide_True by lia |]. destruct (decide (d' = d /\ lo <= v < hi)); [by rewrite decide_True by lia |].
  by rewrite decide_False by lia.
Qed.
Lemma freed_keep d lo hi g a o : g a = o -> (forall v, o = User d v -> ~ lo <= v < hi) -> freed d lo hi g a = o.
Proof using.
  intros Ho Hn. unfold freed. rewrite Ho. destruct o as [| | | | d' v]; try done. destruct (decide _) as [[-> ?] |]; [| done]. by destruct (Hn v).
Qed.

Record unmapped d lo hi g s s' : Prop := {
  un_inv : vm_inv (freed d lo hi g) s';
  un_range : forall v, lo <= v < hi -> present (pte (ram s') d v) = false;
  un_other : forall d' v, g d' = Dir -> 0 <= v < 2 ^ 20 -> d' <> d \/ ~ lo <= v < hi -> pte (ram s') d' v = pte (ram s) d' v;
  un_pde : forall d' i, g d' = Dir -> pde (ram s') d' i = pde (ram s) d' i;
  un_ram : forall a, g a <> Free -> freed d lo hi g a = g a -> (forall i, g a <> Tab d i) -> ram s' !! a = ram s !! a
}.

Lemma unmapped_none d lo hi g s : vm_inv g s -> g d = Dir -> 0 <= lo -> hi <= UPAGES ->
  (forall v, lo <= v < hi -> present (pte (ram s) d v) = false) -> unmapped d lo hi g s s.
Proof using.
  intros H Hd Hlo Hhi Hp. split; try done. eapply vm_inv_ext; [exact H |]. apply freed_none. intros a v Ha Hv.
  destruct (pi_user_of _ _ (proj2 H) a d v Ha) as (_ & _ & Hpr & _). rewrite Hp in Hpr by done. done.
Qed.

Lemma unmapped_trans d lo mid hi g s1 s2 s3 : vm_inv g s1 -> g d = Dir -> 0 <= lo <= mid -> mid <= hi <= UPAGES ->
  unmapped d lo mid g s1 s2 -> unmapped d mid hi (freed d lo mid g) s2 s3 -> unmapped d lo hi g s1 s3.
Proof using.
  intros H Hd Hl Hm [A1 A2 A3 A5 A4] [B1 B2 B3 B5 B4].
  assert (Hdir : forall d', g d' = Dir -> freed d lo mid g d' = Dir) by (intros d' Hd'; by apply freed_keep).
  split.
  - eapply vm_inv_ext; [exact B1 |]. intros a. apply freed_split. lia.
  - intros v Hv. destruct (decide (mid <= v)); [apply B2; lia |]. rewrite B3; [apply A2; lia | by apply Hdir | rewrite UPAGES_eq in *; lia | right; lia].
  - intros d' v Hd' Hv Hne. rewrite B3; [apply A3; [done | done |] | by apply Hdir | done |]; (destruct Hne; [by left | right; lia]).
  - intros d' i Hd'. rewrite B5 by by apply Hdir. by apply A5.
  - intros a Hf Hk Ht. pose proof Hk as Hk'. rewrite (freed_split d lo mid hi) in Hk' by lia.
    assert (Ha : freed d lo mid g a = g a).
    { unfold freed in *. destruct (g a) as [| | | | d' v]; try done. destruct (decide (d' = d /\ lo <= v < mid)); [| done]. by rewrite decide_True in Hk by lia. }
    rewrite B4; [by apply A4 | by rewrite Ha | by rewrite Hk', Ha | intros i; by rewrite Ha].
Qed.

(** The effect of freeing the frame of page [v] and clearing its entry. *)
Lemma freed_one g s d v : vm_inv g s -> 0 <= v < UPAGES -> g (tabp (pte (ram s) d v)) = User d v ->
  forall a, freed d v (v + 1) g a = own_set (tabp (pte (ram s) d v)) Free g a.
Proof using.
  intros [_ Hp] Hv Hf a. unfold freed, own_set. destruct (decide (a = tabp (pte (ram s) d v))) as [-> | Hne]; [rewrite Hf, decide_True by lia; done |].
  destruct (g a) as [| | | | d' v'] eqn:Ea; try done. rewrite decide_False; [done |]. intros [-> Hvv]. assert (v' = v) as -> by lia.
  by destruct (pi_user_of _ _ Hp a d v Ea) as (_ & _ & _ & Eaf).
Qed.

Lemma unmap_effect g s s1 s2 d v pg : vm_inv g s -> g d = Dir -> 0 <= v < UPAGES ->
  let f := tabp (pte (ram s) d v) in g f = User d v -> ram s1 = <[f := pg]> (ram s) ->
  (forall d' i, g d' = Dir -> pde (ram s1) d' i = pde (ram s) d' i) ->
  (forall d' v', g d' = Dir -> 0 <= v' < 2 ^ 20 -> pte (ram s1) d' v' = pte (ram s) d' v') ->
  stored (own_set f Free g) d v 0 s1 s2 -> unmapped d v (v + 1) g s s2.
Proof.
  intros H Hd Hv f Hf Hr1 Hpde1 Hpte1 [S1 S2 S3 S4 S5]. pose proof H as [Ha Hp]. pose proof (freed_one g s d v H Hv Hf) as Hfr. fold f in Hfr.
  assert (Hdir : forall d', g d' = Dir -> own_set f Free g d' = Dir) by (intros d' Hd'; apply own_set_keep; [done | congruence]).
  assert (Hpde2 : forall d' i, g d' = Dir -> pde (ram s2) d' i = pde (ram s) d' i) by (intros d' i Hd'; rewrite S3 by (by apply Hdir); by apply Hpde1).
  assert (Hpteo : forall d' v', g d' = Dir -> 0 <= v' < 2 ^ 20 -> d' <> d \/ v' <> v -> pte (ram s2) d' v' = pte (ram s) d' v')
    by (intros d' v' Hd' Hv' Hne; rewrite S5 by (try done; by apply Hdir); by apply Hpte1).
  split.
  - apply (vm_inv_ext (own_set f Free g)); [| exact Hfr]. split; [done |]. split.
    + intros d' i [_ Hd']%own_set_other Hi' Hpr'; [| done]. rewrite Hpde2 in * by done. apply own_set_keep; [by apply (pi_tab _ _ Hp) | congruence].
    + intros a d' i [_ Haa]%own_set_other; [| done]. destruct (pi_tab_of _ _ Hp a d' i Haa) as (Hd' & H'). rewrite Hpde2 by done.
      split; [by apply Hdir | done].
    + intros d' v' [_ Hd']%own_set_other Hv' Hpr'; [| done]. assert (Hne : d' <> d \/ v' <> v).
      { destruct (decide (d' = d)) as [-> |]; [right | by left]. intros ->. by rewrite S4 in Hpr'. }
      rewrite Hpteo in * by (try done; by apply upages_lt). rewrite own_set_ne; [by apply (pi_user _ _ Hp) |].
      intros Eq. pose proof (pi_user _ _ Hp d' v' Hd' Hv' Hpr') as Hu. rewrite Eq, Hf in Hu. injection Hu as <- <-. tauto.
    + intros a d' v' [Hne Haa]%own_set_other; [| done]. destruct (pi_user_of _ _ Hp a d' v' Haa) as (Hd' & Hv' & Hpr' & Ht').
      rewrite Hpteo; [split; [by apply Hdir | done] | done | by apply upages_lt |].
      destruct (decide (d' = d)) as [-> |]; [right | by left]. intros ->. by unfold f in Hne.
  - intros v' Hv'. assert (v' = v) as -> by lia. by rewrite S4.
  - intros d' v' Hd' Hv' Hne. apply Hpteo; [done | done |]. destruct Hne; [by left | right; lia].
  - intros d' i Hd'. by apply Hpde2.
  - intros a Hnf Hk Hnt. assert (Haf : a <> f) by (intros ->; rewrite Hfr, own_set_eq in Hk; congruence).
    rewrite S2; [rewrite Hr1; by rewrite lookup_insert_ne |]. by rewrite own_set_ne.
Qed.

(** One step of the loop: the frame of a present page is freed and its entry cleared. *)
Lemma unmap_step g s d v : vm_inv g s -> g d = Dir -> 0 <= v < UPAGES -> present (pde (ram s) d (v / 1024)) = true ->
  present (pte (ram s) d v) = true ->
  let p := tabp (pde (ram s) d (v / 1024)) + 4 * (v mod 1024) in
  PTE_ADDR (pte (ram s) d v) <> 0 /\
  exists s', (kfree (P2V (PTE_ADDR (pte (ram s) d v)));; store32 p 0) s = Ret tt s' /\ unmapped d v (v + 1) g s s'.
Proof.
  intros [Ha Hp] Hd Hv Hpr Hpt p. pose proof (upages_lt v Hv) as Hv20.
  set (f := tabp (pte (ram s) d v)). assert (Hf : g f = User d v) by by apply (pi_user _ _ Hp).
  pose proof (alloc_valid g s f _ Ha Hf ltac:(done)) as Hvf.
  split. { intros E. unfold f, tabp in Hvf. rewrite E in Hvf. apply valid_range in Hvf as [Hr _]. vm_compute in Hr. by destruct Hr. }
  destruct (kfree_ok g s f Ha Hvf) as (pg & E1 & Hl & Ha1); [congruence |]. cbv zeta in E1, Ha1. fold (tabp (pte (ram s) d v)). fold f.
  set (s1 := with_ram (<[f := pg]> (ram s)) (with_freelist f s)) in *. rewrite (bind_ret _ _ _ _ _ E1).
  set (g1 := own_set f Free g) in *. assert (Hkeep : forall a o, g a = o -> meta o = true -> g1 a = o).
  { intros a o Hao Hm. apply own_set_keep; [done |]. rewrite Hf. by intros <-. }
  assert (H1m : forall a, meta (g a) = true -> ram s1 !! a = ram s !! a).
  { intros a Hm. cbn [s1 with_ram ram]. rewrite lookup_insert_ne; [done |]. intros <-. by rewrite Hf in Hm. }
  assert (Hpde1 : forall d' i, g d' = Dir -> pde (ram s1) d' i = pde (ram s) d' i) by (intros d' i Hd'; apply pde_frame, H1m; by rewrite Hd').
  assert (Hpte1 : forall d' v', g d' = Dir -> 0 <= v' < 2 ^ 20 -> pte (ram s1) d' v' = pte (ram s) d' v').
  { intros d' v' Hd' Hv'. apply (pte_frame g); [apply Hp | done | done | apply H1m; by rewrite Hd' |]. intros a i Hai. apply H1m. by rewrite Hai. }
  assert (Htab1 : tabs_owned g1 (ram s1)).
  { intros d' i [_ Hd']%own_set_other Hi Hpr'; [| done]. rewrite Hpde1 in * by done. apply Hkeep; [by apply (pi_tab _ _ Hp) | done]. }
  destruct (store_pte g1 s1 d v 0 Ha1 Htab1) as (s2 & E2 & Hst); [by apply Hkeep | done | by rewrite Hpde1 | unfold is_u32; lia |].
  rewrite Hpde1 in E2 by done. exists s2. split; [exact E2 |]. by apply (unmap_effect g s s1 s2 d v pg).
Qed.

(** ** Loops over user pages *)
Definition npages (sz : Z) : Z := (sz + PGSIZE - 1) / PGSIZE.
Lemma npages_lt v sz : v * PGSIZE < sz <-> v < npages sz.
Proof using. unfold npages, PGSIZE. split; intros; dlia. Qed.
Lemma npages_range sz : 0 <= sz <= KERNBASE -> 0 <= npages sz <= UPAGES.
Proof using. rewrite UPAGES_eq. unfold npages, KERNBASE, PGSIZE. intros. dlia. Qed.
Lemma npages_roundup sz : 0 <= sz <= KERNBASE -> PGROUNDUP sz = npages sz * PGSIZE.
Proof using. intros H. rewrite roundup_eq by (unfold KERNBASE, PGSIZE in *; lia). done. Qed.
Lemma next_page v : 0 <= v < UPAGES -> u32 (v * PGSIZE + PGSIZE) = (v + 1) * PGSIZE.
Proof using. rewrite UPAGES_eq. intros. rewrite u32_small by (unfold PGSIZE; lia). lia. Qed.
Lemma u32_sub_l_add x : 4096 <= x < 2 ^ 32 -> u32 (u32 (x - 4096) + 4096) = x.
Proof using. intros. rewrite u32_add_l. replace (x - 4096 + 4096) with x by lia. apply u32_small. lia. Qed.
Lemma next_table v : 0 <= v < UPAGES -> u32 (u32 (PGADDR (PDX (v * PGSIZE) + 1) 0 0 - PGSIZE) + PGSIZE) = (v / 1024 + 1) * 1024 * PGSIZE.
Proof using.
  intros Hv. rewrite PDX_vpn, vpn_page by (apply page_u32, upages_lt, Hv). rewrite UPAGES_eq in Hv. assert (0 <= v / 1024 < 512) by dlia.
  unfold PGADDR. rewrite Z.shiftl_0_l, !Z.lor_0_r, Z.shiftl_mul_pow2 by lia. unfold PGSIZE. rewrite (u32_small (_ * _)), u32_sub_l_add by lia. lia.
Qed.

Lemma pte_no_table m d v : present (pde m d (v / 1024)) = false -> pte m d v = 0.
Proof using. unfold pte. by intros ->. Qed.

Lemma dealloc_loop_ok fuel g s d v oldsz : vm_inv g s -> g d = Dir -> 0 <= oldsz <= KERNBASE -> 0 <= v -> npages oldsz - v < Z.of_nat fuel ->
  (v < npages oldsz \/ (0 < fuel)%nat) ->
  exists s', deallocuvm_loop fuel d (v * PGSIZE) oldsz s = Ret tt s' /\ unmapped d v (npages oldsz) g s s'.
Proof.
  revert g s v. induction fuel as [| fuel IH]; intros g s v H Hd Hsz Hv Hf Hpos; [lia |]. cbn [deallocuvm_loop].
  pose proof (npages_range oldsz Hsz) as Hnp. destruct (Z.ltb_spec (v * PGSIZE) oldsz) as [Hlt | Hge].
  2: { assert (npages oldsz <= v) by (pose proof (proj2 (npages_lt v oldsz)); lia). exists s. split; [done |]. apply unmapped_none; [done | done | done | lia |]. lia. }
  apply npages_lt in Hlt. assert (HvU : 0 <= v < UPAGES) by lia. pose proof (upages_lt v HvU) as Hv20.
  rewrite (bind_ret _ _ _ _ _ (walk_ok g s d _ H Hd (page_u32 v Hv20))). rewrite vpn_page. destruct (present (pde (ram s) d (v / 1024))) eqn:Hpr.
  - rewrite (bind_ret _ _ _ _ _ (load_pte g s d v H Hd Hv20 Hpr)). rewrite next_page by done.
    assert (Hstep : exists s1, (if present (pte (ram s) d v) then if PTE_ADDR (pte (ram s) d v) =? 0 then stop "kfree" else
        kfree (P2V (PTE_ADDR (pte (ram s) d v)));; store32 (tabp (pde (ram s) d (v / 1024)) + 4 * (v mod 1024)) 0 else skip) s = Ret tt s1 /\
      unmapped d v (v + 1) g s s1).
    { destruct (present (pte (ram s) d v)) eqn:Hpt.
      - destruct (unmap_step g s d v H Hd HvU Hpr Hpt) as (Hne & s1 & E & Hu). exists s1. split; [| done]. by destruct (Z.eqb_spec (PTE_ADDR (pte (ram s) d v)) 0).
      - exists s. split; [done |]. apply unmapped_none; [done | done | lia | lia |]. intros v' Hv'. by assert (v' = v) as -> by lia. }
    destruct Hstep as (s1 & E1 & Hu). rewrite (bind_ret _ _ _ _ _ E1).
    destruct (IH (freed d v (v + 1) g) s1 (v + 1)) as (s' & E' & Hu'); [apply Hu | by apply freed_keep | done | lia | lia | lia |].
    exists s'. split; [exact E' |]. by apply (unmapped_trans d v (v + 1) _ g s s1 s'); [| | lia | lia | |].
  - set (mid := (v / 1024 + 1) * 1024) in *. assert (Hmid : v < mid <= UPAGES) by (rewrite UPAGES_eq in *; unfold mid; dlia).
    assert (Hno : forall v', v <= v' < mid -> pte (ram s) d v' = 0).
    { intros v' Hv'. apply pte_no_table. replace (v' / 1024) with (v / 1024); [done |]. unfold mid in Hv'. dlia. }
    cbv beta iota. rewrite next_table by done. fold mid. destruct (decide (mid <= npages oldsz)) as [Hle | Hgt].
    + destruct (IH (freed d v mid g) s mid) as (s' & E' & Hu'); [| by apply freed_keep | done | lia | lia | lia |].
      * eapply vm_inv_ext; [exact H |]. apply freed_none. intros a v' Ha Hv'. destruct (pi_user_of _ _ (proj2 H) a d v' Ha) as (_ & _ & Hp' & _). by rewrite Hno in Hp'.
      * exists s'. split; [exact E' |]. apply (unmapped_trans d v mid _ g s s s'); [done | done | lia | lia | | done].
        apply unmapped_none; [done | done | lia | lia |]. intros v' Hv'. by rewrite Hno.
    + exists s. destruct fuel as [| fuel]; [lia |]. cbn [deallocuvm_loop].
      destruct (Z.ltb_spec (mid * PGSIZE) oldsz) as [Hl%npages_lt | _]; [lia |]. split; [done |].
      apply unmapped_none; [done | done | lia | lia |]. intros v' Hv'. rewrite Hno by lia. done.
Qed.

Lemma deallocuvm_ok g s d oldsz newsz : vm_inv g s -> g d = Dir -> 0 <= oldsz <= KERNBASE -> 0 <= newsz ->
  exists s', deallocuvm d oldsz newsz s = Ret (Z.min newsz oldsz) s' /\ unmapped d (npages newsz) (npages oldsz) g s s'.
Proof.
  intros H Hd Ho Hn. unfold deallocuvm. rewrite Z.geb_leb. pose proof (npages_range oldsz Ho). destruct (Z.leb_spec oldsz newsz) as [Hle | Hgt].
  - exists s. split; [do 2 f_equal; lia |]. assert (npages oldsz <= npages newsz) by (unfold npages, PGSIZE; dlia).
    apply unmapped_none; [done | done | unfold npages, PGSIZE; dlia | lia | lia].
  - pose proof (npages_range newsz ltac:(lia)). rewrite npages_roundup by lia.
    destruct (dealloc_loop_ok (S (Z.to_nat (oldsz / PGSIZE + 1))) g s d (npages newsz) oldsz H Hd Ho) as (s' & E & Hu); [lia | | right; lia |].
    + unfold npages, PGSIZE in *. dlia.
    + exists s'. rewrite (bind_ret _ _ _ _ _ E). split; [unfold mret, M_ret; f_equal; lia | done].
Qed.

(** ** Freeing an address space *)
Definition released d g : ghost := fun a =>
  if decide (a = d) then Free else
  match g a with Tab d' _ | User d' _ => if decide (d' = d) then Free else g a | _ => g a end.
(** A directory that is no longer one: its pages are merely held. *)
Definition dead d g : ghost := fun a =>
  if decide (a = d) then Held else match g a with Tab d' _ => if decide (d' = d) then Held else g a | _ => g a end.

Lemma dead_inv d g s : vm_inv g s -> g d = Dir -> (forall a v, g a <> User d v) -> vm_inv (dead d g) s.
Proof using.
  intros [Ha Hp] Hd Hu.
  assert (Hk : forall a o, dead d g a = o -> o <> Held -> g a = o /\ a <> d /\ forall i, o <> Tab d i).
  { intros a o. unfold dead. destruct (decide (a = d)); [congruence |]. destruct (g a) as [| | | d' i |] eqn:E; intros <-; try done.
    destruct (decide (d' = d)); [done |]. intros _. split; [done |]. split; [done |]. intros i' [= -> ->]. done. }
  assert (Hb : forall a o, g a = o -> a <> d -> (forall i, o <> Tab d i) -> dead d g a = o).
  { intros a o <- Hne Ht. unfold dead. rewrite decide_False by done. destruct (g a) as [| | | d' i |] eqn:E; try done.
    destruct (decide (d' = d)) as [-> |]; [by destruct (Ht i) | done]. }
  split.
  - eapply alloc_inv_own; [exact Ha | |].
    + intros a. split; [intros E; by apply (Hk a Free) |]. intros E. apply Hb; [done | congruence | done].
    + intros a Hn. destruct (Hk a _ eq_refl Hn) as [E _]. apply Ha. congruence.
  - split.
    + intros d' i Hd' Hi Hpr. destruct (Hk _ _ Hd') as (Hd0 & Hne & _); [done |]. pose proof (pi_tab _ _ Hp d' i Hd0 Hi Hpr) as Ht.
      apply Hb; [done | congruence | congruence].
    + intros a d' i Hd'. destruct (Hk _ _ Hd') as (Ht & Hne & Hnd); [done |]. destruct (pi_tab_of _ _ Hp a d' i Ht) as (Hdd & H').
      split; [apply Hb; [done | | done] | done]. intros ->. by apply (Hnd i).
    + intros d' v Hd' Hv Hpr. destruct (Hk _ _ Hd') as (Hd0 & Hne & _); [done |]. pose proof (pi_user _ _ Hp d' v Hd0 Hv Hpr) as Ht.
      apply Hb; [done | congruence | done].
    + intros a d' v Hu'. destruct (Hk _ _ Hu') as (Ht & Hne & _); [done |]. destruct (pi_user_of _ _ Hp a d' v Ht) as (Hdd & H').
      split; [apply Hb; [done | | done] | done]. intros ->. by apply (Hu a v).
Qed.

Lemma free_tables_ok n g s d pg i : vm_inv g s -> d mod PGSIZE = 0 -> ram s !! d = Some pg -> 0 <= i -> i + Z.of_nat n = 1024 ->
  (forall j, i <= j < 1024 -> present (rdw pg j) = true -> g (tabp (rdw pg j)) = Held /\ valid (tabp (rdw pg j)) /\ tabp (rdw pg j) <> d) ->
  (forall j k, i <= j < 1024 -> i <= k < 1024 -> present (rdw pg j) = true -> present (rdw pg k) = true -> tabp (rdw pg j) = tabp (rdw pg k) -> j = k) ->
  exists g' s', free_tables n d i s = Ret tt s' /\ vm_inv g' s' /\
    (forall j, i <= j < 1024 -> present (rdw pg j) = true -> g' (tabp (rdw pg j)) = Free) /\
    (forall a, (forall j, i <= j < 1024 -> present (rdw pg j) = true -> a <> tabp (rdw pg j)) -> g' a = g a /\ ram s' !! a = ram s !! a).
Proof.
  revert g s i. induction n as [| n IH]; intros g s i H Hd Hpg Hi Hn Hall Hinj; cbn [free_tables].
  { exists g, s. split; [done |]. split; [done |]. split; [lia | done]. }
  rewrite (bind_ret _ _ _ _ _ (load32_ret s d i pg Hd ltac:(lia) Hpg)). destruct (present (rdw pg i)) eqn:Hpr.
  - destruct (Hall i ltac:(lia) Hpr) as (Hg & Hv & Hne). destruct (kfree_vm g s _ H Hv Hg) as (s1 & E1 & Hinv1 & Hram1).
    unfold tabp in E1. rewrite (bind_ret _ _ _ _ _ E1). fold (tabp (rdw pg i)) in *. set (t := tabp (rdw pg i)) in *.
    assert (Hother : forall j, i + 1 <= j < 1024 -> present (rdw pg j) = true -> tabp (rdw pg j) <> t).
    { intros j Hj Hpj Heq. assert (j = i); [| lia]. apply Hinj; [lia | lia | done | done | done]. }
    destruct (IH (own_set t Free g) s1 (i + 1) Hinv1 Hd) as (g' & s' & E' & Hinv' & Hfree & Hkeep); [by rewrite Hram1 | lia | lia | | |].
    + intros j Hj Hpj. rewrite own_set_ne by by apply Hother. apply Hall; [lia | done].
    + intros j k Hj Hk. apply Hinj; lia.
    + exists g', s'. split; [exact E' |]. split; [done |]. split.
      * intros j Hj Hpj. destruct (decide (j = i)) as [-> |]; [| apply Hfree; [lia | done]].
        fold t. destruct (Hkeep t) as [-> _]; [intros k Hk Hpk Eq; by apply (Hother k Hk Hpk) |]. apply own_set_eq.
      * intros a Ha. assert (Hat : a <> t) by (apply Ha; [lia | done]). destruct (Hkeep a) as [-> ->]; [intros j Hj Hpj; apply Ha; [lia | done] |].
        rewrite own_set_ne by done. split; [done |]. by apply Hram1.
  - rewrite (bind_ret skip _ s tt s) by done.
    destruct (IH g s (i + 1) H Hd Hpg) as (g' & s' & E' & Hinv' & Hfree & Hkeep); [lia | lia | intros j Hj; apply Hall; lia | intros j k Hj Hk; apply Hinj; lia |].
    exists g', s'. split; [exact E' |]. split; [done |]. split.
    + intros j Hj Hpj. destruct (decide (j = i)) as [-> |]; [congruence | apply Hfree; [lia | done]].
    + intros a Ha. apply Hkeep. intros j Hj. apply Ha. lia.
Qed.

Lemma freevm_ok g s d : vm_inv g s -> g d = Dir ->
  exists s', freevm d s = Ret tt s' /\ vm_inv (released d g) s' /\
    forall a, g a <> Free -> released d g a = g a -> ram s' !! a = ram s !! a.
Proof.
  intros H Hd. destruct (page_aligned g s d Dir (proj1 H) Hd) as (Hvd & Hm & _); [done |]. pose proof (valid_range d Hvd) as [Hr _].
  unfold freevm. destruct (Z.eqb_spec d 0); [unfold KERNLINK, KERNBASE, EXTMEM in *; lia |].
  destruct (deallocuvm_ok g s d KERNBASE 0 H Hd) as (s1 & E1 & Hun); [unfold KERNBASE; lia | lia |]. rewrite (bind_ret _ _ _ _ _ E1).
  change (npages 0) with 0 in Hun. change (npages KERNBASE) with UPAGES in Hun. destruct Hun as [U1 U2 U3 U5 U4]. set (g1 := freed d 0 UPAGES g) in *.
  assert (Hd1 : g1 d = Dir) by by apply freed_keep.
  assert (Hnu : forall a v, g1 a <> User d v).
  { intros a v Ha. destruct (pi_user_of _ _ (proj2 U1) a d v Ha) as (_ & Hv & Hpr & _). by rewrite U2 in Hpr. }
  pose proof (dead_inv d g1 s1 U1 Hd1 Hnu) as Hdead. destruct (alloc_page _ s1 d (proj1 U1) Hvd) as (pg & Epg & Hl).
  assert (Hword : forall j, pde (ram s1) d j = rdw pg j) by (intros j; unfold pde, word; by rewrite Epg).
  assert (Htab : forall j, 0 <= j < 1024 -> present (rdw pg j) = true -> g1 (tabp (rdw pg j)) = Tab d j).
  { intros j Hj Hpj. rewrite <- Hword in *. by apply (pi_tab _ _ (proj2 U1)). }
  destruct (free_tables_ok NPDENTRIES (dead d g1) s1 d pg 0 Hdead Hm Epg) as (g2 & s2 & E2 & Hinv2 & Hfree & Hkeep); [lia | done | | |].
  - intros j Hj Hpj. pose proof (Htab j Hj Hpj) as Ht. assert (Hne : tabp (rdw pg j) <> d) by congruence. split; [| split; [| done]].
    + unfold dead. by rewrite decide_False, Ht, decide_True.
    + apply (alloc_valid g1 s1 _ _ (proj1 U1) Ht). done.
  - intros j k Hj Hk Hpj Hpk Eq. pose proof (Htab j Hj Hpj) as Ht. rewrite Eq, (Htab k Hk Hpk) in Ht. by injection Ht.
  - rewrite (bind_ret _ _ _ _ _ E2). assert (Hdt : forall j, 0 <= j < 1024 -> present (rdw pg j) = true -> d <> tabp (rdw pg j)) by (intros j Hj Hpj Eq; pose proof (Htab j Hj Hpj); congruence).
    destruct (kfree_vm g2 s2 d Hinv2 Hvd) as (s3 & E3 & Hinv3 & Hram3); [destruct (Hkeep d Hdt) as [-> _]; unfold dead; by rewrite decide_True |].
    exists s3. split; [exact E3 |]. assert (Hrel : forall a, a <> d -> (forall i, g a <> Tab d i) -> g2 a = released d g a /\ ram s2 !! a = ram s1 !! a).
    { intros a Hne Hnt. assert (Hnj : forall j, 0 <= j < 1024 -> present (rdw pg j) = true -> a <> tabp (rdw pg j)).
      { intros j Hj Hpj ->. apply (Hnt j). pose proof (Htab j Hj Hpj) as Ht. unfold g1, freed in Ht. destruct (g (tabp (rdw pg j))); try done. by destruct (decide _). }
      destruct (Hkeep a Hnj) as [-> ->]. split; [| done]. unfold dead, released. rewrite !decide_False by done. unfold g1, freed.
      destruct (g a) as [| | | d' i | d' v] eqn:Ea; try done.
      - destruct (decide (d' = d)) as [-> |]; [by destruct (Hnt i) | done].
      - destruct (pi_user_of _ _ (proj2 H) a d' v Ea) as (_ & Hv & _). destruct (decide (d' = d)) as [-> |]; [by rewrite decide_True | by rewrite decide_False by (by intros [? _])]. }
    split.
    + eapply vm_inv_ext; [exact Hinv3 |]. intros a. unfold own_set. destruct (decide (a = d)) as [-> | Hne]; [unfold released; by rewrite decide_True |].
      destruct (g a) as [| | | d' i | d' v] eqn:Ea; try (symmetry; apply Hrel; [done | congruence]). destruct (decide (d' = d)) as [-> | Hnd]; [| symmetry; apply Hrel; [done | congruence]].
      unfold released. rewrite decide_False, Ea, decide_True by done.
      assert (Ha1 : g1 a = Tab d i) by by apply freed_keep. destruct (pi_tab_of _ _ (proj2 U1) a d i Ha1) as (_ & Hi & Hpr & Eq). rewrite Hword in *.
      rewrite <- Eq. symmetry. by apply Hfree.
    + intros a Hnf Hk. assert (Hne : a <> d) by (intros ->; unfold released in Hk; rewrite decide_True in Hk by done; congruence).
      assert (Hnt : forall i, g a <> Tab d i) by (intros i Ea; unfold released in Hk; rewrite decide_False, Ea, decide_True in Hk; done).
      rewrite Hram3 by done. rewrite (proj2 (Hrel a Hne Hnt)). apply U4; [done | | done]. apply freed_keep; [done |]. intros v Ea Hv.
      unfold released in Hk. rewrite decide_False, Ea, decide_True in Hk; done.
Qed.

(** ** Filling a range of user pages *)
Record filled d lo hi (C : Z -> list Z) (P : Z -> Z) g s g' s' : Prop := {
  fi_inv : vm_inv g' s';
  fi_own : forall a, g' a = g a \/ (g a = Free /\ ((exists i, g' a = Tab d i) \/ exists v, lo <= v < hi /\ g' a = User d v));
  fi_page : forall v, lo <= v < hi -> let w := pte (ram s') d v in
    present w = true /\ PTE_FLAGS w = Z.lor (P v) PTE_P /\ ram s' !! tabp w = Some (C v);
  fi_other : forall d' v, g d' = Dir -> 0 <= v < 2 ^ 20 -> d' <> d \/ ~ lo <= v < hi -> pte (ram s') d' v = pte (ram s) d' v;
  fi_ram : forall a, untouched d g a -> ram s' !! a = ram s !! a
}.
Lemma filled_nil d lo C P g s : vm_inv g s -> filled d lo lo C P g s g s.
Proof using. intros H. split; [done | by left | lia | done | done]. Qed.
Lemma filled_dir d lo hi C P g s g' s' d' : filled d lo hi C P g s g' s' -> g d' = Dir -> g' d' = Dir.
Proof using. intros H Hd. destruct (fi_own _ _ _ _ _ _ _ _ _ H d') as [-> | [Hf _]]; [done | congruence]. Qed.
Lemma filled_untouched d lo hi C P g s g' s' a : filled d lo hi C P g s g' s' -> untouched d g a -> untouched d g' a /\ g' a = g a.
Proof using. intros H Hu. destruct (fi_own _ _ _ _ _ _ _ _ _ H a) as [E | [Hf _]]; [unfold untouched; by rewrite E | by destruct Hu]. Qed.

(** The page [v] is allocated, filled and mapped. *)
Lemma fill_frame d lo v C P g s g1 s1 a p g2 s2 : g d = Dir -> 0 <= lo <= v -> v < UPAGES -> filled d lo v C P g s g1 s1 ->
  g1 a = Free -> valid a -> vm_inv (own_set a Held g1) (with_freelist p s1) -> 0 <= P v < PGSIZE -> length (C v) = Z.to_nat PGSIZE ->
  mapped_user d v a (Z.lor (Z.lor (V2P a) (P v)) PTE_P) (own_set a Held g1) (with_ram (<[a := C v]> (ram s1)) (with_freelist p s1)) g2 s2 ->
  filled d lo (v + 1) C P g s g2 s2.
Proof.
  intros Hd Hlo Hv Hfi Ha Hva Hinv HP HC [M1 M2 M3 M4 M5 M6]. pose proof Hfi as [F1 F2 F3 F4 F5].
  pose proof (filled_dir _ _ _ _ _ _ _ _ _ d Hfi Hd) as Hd1. pose proof (upages_lt v ltac:(lia)) as Hv20.
  assert (Hga : g a = Free) by (destruct (F2 a) as [E | [? _]]; congruence).
  assert (Hdir1 : forall d', g1 d' = Dir -> own_set a Held g1 d' = Dir) by (intros d' Hd'; apply own_set_keep; [done | congruence]).
  destruct (tabp_entry a (P v) Hva HP) as (_ & W2 & W3 & W4 & _).
  assert (Hset : forall d' v', g1 d' = Dir -> 0 <= v' < 2 ^ 20 -> pte (<[a := C v]> (ram s1)) d' v' = pte (ram s1) d' v').
  { intros d' v' Hd' Hv'. apply (pte_frame g1); [apply (pi_tab _ _ (proj2 F1)) | done | done | |]; intros; rewrite lookup_insert_ne; congruence. }
  split.
  - done.
  - intros b. destruct (decide (b = a)) as [-> | Hne]; [right; split; [done |]; right; exists v; split; [lia | done] |].
    destruct (M3 b Hne) as [E | [E1 E2]]; rewrite own_set_ne in * by done.
    + rewrite E. destruct (F2 b) as [? | (? & [? | (v' & ? & ?)])]; [by left | right; split; [done | by left] | right; split; [done |]; right; exists v'; split; [lia | done]].
    + right. split; [| by left]. destruct (F2 b) as [E | [? _]]; congruence.
  - intros v' Hv'. cbv zeta. destruct (decide (v' = v)) as [-> | Hne].
    + rewrite M4. split; [done |]. split; [done |]. rewrite W2. rewrite M6.
      * cbn [with_ram ram]. apply lookup_insert_eq.
      * unfold untouched. rewrite own_set_eq. split; [done |]. split; [congruence | done].
    + pose proof (upages_lt v' ltac:(lia)) as Hv'20. rewrite M5; [| by apply Hdir1 | done | by right]. cbn [with_ram ram]. rewrite Hset by done.
      destruct (F3 v' ltac:(lia)) as (P1 & P2 & P3). split; [done |]. split; [done |].
      assert (Hu : g1 (tabp (pte (ram s1) d v')) = User d v') by (apply (pi_user _ _ (proj2 F1)); [done | lia | done]).
      rewrite M6; [cbn [with_ram ram]; rewrite lookup_insert_ne by congruence; done |].
      unfold untouched. rewrite own_set_ne by congruence. rewrite Hu. split; [done |]. split; [congruence | done].
  - intros d' v' Hd' Hv' Hne. pose proof (filled_dir _ _ _ _ _ _ _ _ _ d' Hfi Hd') as Hd1'. rewrite M5; [| by apply Hdir1 | done | destruct Hne; [by left | right; lia]].
    cbn [with_ram ram]. rewrite Hset by done. apply F4; [done | done | destruct Hne; [by left | right; lia]].
  - intros b Hb. destruct (filled_untouched _ _ _ _ _ _ _ _ _ b Hfi Hb) as [Hb1 Eb].
    assert (Hba : b <> a) by (intros ->; destruct Hb as [Hb _]; congruence).
    rewrite M6; [cbn [with_ram ram]; rewrite lookup_insert_ne by done; by apply F5 |]. unfold untouched. by rewrite own_set_ne.
Qed.
End spec.
