(* ===== verification/VmOps.v ===== *)
(** * VmOps: growing, creating and copying address spaces

    The specifications of [allocuvm], [setupkvm], [copyuvm], [freevm] and
    [copyout] over the invariant of VmSpec.v. *)

From Stdlib Require Import ZArith Lia.
From stdpp Require Import base numbers strings option list gmap.
From S2P Require Import Prelude Kernel Kalloc Vm VmSpec.

Section ops.
Context {I : Image}.
Implicit Types (g : ghost) (m : ram_t) (s : kmem_t).

(** ** allocuvm *)

(** The call failed: no user page was added, only page tables. *)
Record undone d lo hi g s g' s' : Prop := {
  ud_inv : vm_inv g' s';
  ud_own : own_grows d g g';
  ud_range : forall v, lo <= v < hi -> present (pte (ram s') d v) = false;
  ud_other : forall d' v, g d' = Dir -> 0 <= v < 2 ^ 20 -> d' <> d \/ ~ lo <= v < hi -> pte (ram s') d' v = pte (ram s) d' v;
  ud_ram : forall a, untouched d g a -> ram s' !! a = ram s !! a
}.

Definition absent d lo hi m : Prop := forall v, lo <= v < hi -> present (pte m d v) = false.
Lemma absent_own g s d lo hi a v : vm_inv g s -> absent d lo hi (ram s) -> g a = User d v -> ~ lo <= v < hi.
Proof using. intros [_ Hp] Hab Ha Hv. destruct (pi_user_of _ _ Hp a d v Ha) as (_ & _ & Hpr & _). by rewrite Hab in Hpr. Qed.

Lemma freed_filled d lo v hi C P g s g1 s1 : vm_inv g s -> absent d lo hi (ram s) -> filled d lo v C P g s g1 s1 -> v <= hi ->
  forall b, freed d lo hi g1 b = g b \/ (g b = Free /\ exists i, freed d lo hi g1 b = Tab d i).
Proof using.
  intros H Hab Hfi Hv b. destruct (fi_own _ _ _ _ _ _ _ _ _ Hfi b) as [E | (E & [[i Et] | (v' & Hv' & Eu)])].
  - left. apply freed_keep; [done |]. intros v' Ev. exact (absent_own g s d lo hi _ v' H Hab Ev).
  - right. split; [done |]. exists i. by apply freed_keep.
  - left. rewrite E. unfold freed. rewrite Eu. by rewrite decide_True by lia.
Qed.

(** Back from a state in which the pages [lo..v-1] are filled. *)
Lemma undo_filled d lo v hi C P g s g1 s1 s2 : vm_inv g s -> g d = Dir -> 0 <= lo <= v -> v <= hi <= UPAGES -> absent d lo hi (ram s) ->
  filled d lo v C P g s g1 s1 -> unmapped d lo hi g1 s1 s2 -> undone d lo hi g s (freed d lo hi g1) s2.
Proof using.
  intros H Hd Hlo Hhi Hab Hfi [U1 U2 U3 U5 U4]. split; [done | intros b; eapply freed_filled; [done | done | exact Hfi | lia] | done | |].
  - intros d' v' Hd' Hv' Hne. rewrite U3; [| by eapply filled_dir | done | done]. apply (fi_other _ _ _ _ _ _ _ _ _ Hfi); [done | done |].
    destruct Hne; [by left | right; lia].
  - intros a Ha. destruct (filled_untouched _ _ _ _ _ _ _ _ _ a Hfi Ha) as [(Hnf & _ & Hnt) Ea]. rewrite U4; [by apply (fi_ram _ _ _ _ _ _ _ _ _ Hfi) | done | | done].
    rewrite Ea. apply freed_keep; [done |]. intros v' Ev. exact (absent_own g s d lo hi _ v' H Hab Ev).
Qed.

Definition zero_page : list Z := replicate (Z.to_nat PGSIZE) 0.

Lemma pte_set_page g s a pg d v : vm_inv g s -> g d = Dir -> 0 <= v < 2 ^ 20 -> meta (g a) = false ->
  pte (<[a := pg]> (ram s)) d v = pte (ram s) d v.
Proof using.
  intros [_ Hp] Hd Hv Hm. apply (pte_frame g); [apply Hp | done | done | |]; intros; rewrite lookup_insert_ne; try done; intros ->.
  - by rewrite Hd in Hm.
  - by match goal with E : g _ = Tab _ _ |- _ => rewrite E in Hm end.
Qed.

(** The page taken for a mapping that failed goes back. *)
Lemma undo_held d lo v hi C P g s g1 s1 a p pg s3 : vm_inv g s -> g d = Dir -> 0 <= lo <= v -> v <= hi <= UPAGES -> absent d lo hi (ram s) ->
  filled d lo v C P g s g1 s1 -> g1 a = Free -> valid a -> vm_inv (own_set a Held g1) (with_freelist p s1) ->
  unmapped d lo hi (own_set a Held g1) (with_ram (<[a := pg]> (ram s1)) (with_freelist p s1)) s3 ->
  exists g' s', kfree a s3 = Ret tt s' /\ undone d lo hi g s g' s'.
Proof.
  intros H Hd Hlo Hhi Hab Hfi Ha Hva Hinv [U1 U2 U3 U5 U4]. assert (Hga : g a = Free) by (destruct (fi_own _ _ _ _ _ _ _ _ _ Hfi a) as [E | [? _]]; congruence).
  assert (Hh : freed d lo hi (own_set a Held g1) a = Held) by (apply freed_keep; [apply own_set_eq | done]).
  destruct (kfree_vm _ s3 a U1 Hva Hh) as (s' & E & Hinv' & Hram). eexists _, s'. split; [exact E |].
  assert (Hdir : forall d', g d' = Dir -> d' <> a /\ own_set a Held g1 d' = Dir /\ g1 d' = Dir).
  { intros d' Hd'. pose proof (filled_dir _ _ _ _ _ _ _ _ _ d' Hfi Hd') as Hd1. assert (d' <> a) by congruence. by rewrite own_set_ne. }
  assert (Hpte : forall d' v', g d' = Dir -> 0 <= v' < 2 ^ 20 -> pte (ram s') d' v' = pte (ram s3) d' v').
  { intros d' v' Hd' Hv'. destruct (Hdir d' Hd') as (Hne & Hd1 & _). assert (Hd3 : freed d lo hi (own_set a Held g1) d' = Dir) by by apply freed_keep.
    apply (pte_frame _ _ _ _ _ (pi_tab _ _ (proj2 U1)) Hd3 Hv'); [by apply Hram |]. intros b i Hb. apply Hram. congruence. }
  split; [exact Hinv' | | | |].
  - intros b. unfold own_set at 1 3. destruct (decide (b = a)) as [-> | Hne]; [by left |].
    replace (freed d lo hi (own_set a Held g1) b) with (freed d lo hi g1 b) by (unfold freed; by rewrite own_set_ne). eapply freed_filled; [done | done | exact Hfi | lia].
  - intros v' Hv'. rewrite Hpte; [by apply U2 | done | rewrite UPAGES_eq in *; lia].
  - intros d' v' Hd' Hv' Hne. destruct (Hdir d' Hd') as (Hda & Hd1 & Hd2). rewrite Hpte, U3 by done. cbn [with_ram ram].
    change (ram s1) with (ram (with_freelist p s1)). rewrite (pte_set_page (own_set a Held g1)); [| done | done | done | by rewrite own_set_eq].
    apply (fi_other _ _ _ _ _ _ _ _ _ Hfi); [done | done | destruct Hne; [by left | right; lia]].
  - intros b Hb. destruct (filled_untouched _ _ _ _ _ _ _ _ _ b Hfi Hb) as [(Hnf & Hnd & Hnt) Eb]. assert (Hba : b <> a) by congruence.
    rewrite Hram by done. rewrite U4; [| by rewrite own_set_ne | | intros i; by rewrite own_set_ne].
    + cbn [with_ram ram]. rewrite lookup_insert_ne by done. by apply (fi_ram _ _ _ _ _ _ _ _ _ Hfi).
    + apply freed_keep; [done |]. rewrite own_set_ne by done. rewrite Eb. intros v' Ev. exact (absent_own g s d lo hi _ v' H Hab Ev).
Qed.

Definition grow_perm : Z := Z.lor PTE_W PTE_U.

(** Memory ran out: every page that is free in [g] has gone into a table of
    [d], into one of its first [n] user pages, or is in [L]. *)
Definition drained d (L : list Z) n g : Prop := exists g1 s1,
  vm_inv g1 s1 /\ (forall a, g a <> Free -> g1 a = g a) /\
  forall a, g a = Free -> a ∈ L \/ (exists i, g1 a = Tab d i) \/ exists v, v < n /\ g1 a = User d v.

(** So there were at most as many as [L], the tables and these pages. *)
Lemma drained_few d L n g l : drained d L n g -> 0 <= n -> NoDup l -> (forall a, a ∈ l -> g a = Free) ->
  Z.of_nat (length l) <= Z.of_nat (length L) + 1024 + n.
Proof using.
  intros (g1 & s1 & [_ Hp] & _ & Hd) Hn Hnd Hl.
  set (ts := (fun k => tabp (pde (ram s1) d (Z.of_nat k))) <$> seq 0 1024). set (us := (fun k => tabp (pte (ram s1) d (Z.of_nat k))) <$> seq 0 (Z.to_nat n)).
  assert (Hs : l ⊆+ L ++ ts ++ us).
  { apply NoDup_submseteq; [done |]. intros a Ha. apply elem_of_app. destruct (Hd a (Hl a Ha)) as [? | [[i Hi] | (v & Hv & Hu)]]; [by left | right..]; apply elem_of_app.
    - left. destruct (pi_tab_of _ _ Hp a d i Hi) as (_ & Hr & _ & <-). apply list_elem_of_fmap. exists (Z.to_nat i). split; [do 2 f_equal; lia | apply elem_of_seq; lia].
    - right. destruct (pi_user_of _ _ Hp a d v Hu) as (_ & Hr & _ & <-). apply list_elem_of_fmap. exists (Z.to_nat v). split; [do 2 f_equal; lia | apply elem_of_seq; lia]. }
  apply submseteq_length in Hs. rewrite !length_app in Hs. unfold ts, us in Hs. rewrite !length_fmap, !length_seq in Hs. lia.
Qed.
Lemma filled_drained d lo v n C P L g s g1 s1 g2 s2 : filled d lo v C P g s g1 s1 -> v <= n -> vm_inv g2 s2 ->
  (forall a, g1 a <> Free -> g2 a = g1 a) -> (forall a, g1 a = Free -> a ∈ L) -> drained d L n g.
Proof using.
  intros [_ F2 _ _ _] Hv H2 Hk Hno. exists g2, s2. split; [done |]. split.
  - intros a Ha. destruct (F2 a) as [E | [? _]]; [| done]. rewrite Hk; congruence.
  - intros a Ha. destruct (F2 a) as [E | [_ [[i E] | (v' & Hv' & E)]]].
    + left. apply Hno. congruence.
    + right; left. exists i. rewrite Hk; congruence.
    + right; right. exists v'. split; [lia |]. rewrite Hk; congruence.
Qed.

Lemma allocuvm_loop_ok fuel g s g1 s1 d v oldsz newsz : vm_inv g s -> g d = Dir -> 0 <= oldsz <= newsz -> newsz < KERNBASE ->
  npages oldsz <= v <= npages newsz -> absent d (npages oldsz) (npages newsz) (ram s) ->
  filled d (npages oldsz) v (fun _ => zero_page) (fun _ => grow_perm) g s g1 s1 -> npages newsz - v < Z.of_nat fuel ->
  exists r g' s', allocuvm_loop fuel d (v * PGSIZE) oldsz newsz s1 = Ret r s' /\
    ((r = newsz /\ filled d (npages oldsz) (npages newsz) (fun _ => zero_page) (fun _ => grow_perm) g s g' s') \/
     (r = 0 /\ undone d (npages oldsz) (npages newsz) g s g' s' /\ exists f, drained d [f] (npages newsz) g)).
Proof.
  intros H Hd Hsz Hkb. pose proof (npages_range newsz ltac:(lia)) as Hnp. pose proof (npages_range oldsz ltac:(lia)) as Hop.
  revert g1 s1 v. induction fuel as [| fuel IH]; intros g1 s1 v Hv Hab Hfi Hf; [lia |]. cbn [allocuvm_loop].
  destruct (Z.ltb_spec (v * PGSIZE) newsz) as [Hlt%npages_lt | Hge].
  2: { assert (v = npages newsz) as -> by (pose proof (proj2 (npages_lt v newsz)); lia). exists newsz, g1, s1. split; [done |]. by left. }
  pose proof (filled_dir _ _ _ _ _ _ _ _ _ d Hfi Hd) as Hd1. pose proof (fi_inv _ _ _ _ _ _ _ _ _ Hfi) as Hinv1.
  destruct (kalloc_vm g1 s1 Hinv1) as [[E Hno] | (a & p & E & Ha & Hva & Hinva)]; rewrite (bind_ret _ _ _ _ _ E); cbv beta iota.
  - destruct (deallocuvm_ok g1 s1 d newsz oldsz Hinv1 Hd1) as (s2 & E2 & Hu); [lia | lia |]. rewrite (bind_ret _ _ _ _ _ E2).
    exists 0, (freed d (npages oldsz) (npages newsz) g1), s2. split; [done |]. right. split; [done |].
    split; [eapply undo_filled; [done | done | | | done | exact Hfi | exact Hu]; lia |].
    exists 0. apply (filled_drained d _ _ _ _ _ _ g s g1 s1 g1 s1 Hfi); [lia | done | done |]. intros b Hb. by destruct (Hno b).
  - destruct (set_page_vm (own_set a Held g1) (with_freelist p s1) a zero_page) as [E1 Hinvz];
      [done | done | by rewrite own_set_eq | by rewrite own_set_eq | apply length_replicate |].
    unfold fill_page. rewrite (bind_ret _ _ _ _ _ E1). cbn [with_freelist ram] in *. set (s2 := with_ram (<[a := zero_page]> (ram s1)) (with_freelist p s1)) in *.
    assert (Hda : own_set a Held g1 d = Dir) by (apply own_set_keep; [done | congruence]). assert (HvU : 0 <= v < UPAGES) by lia.
    assert (Hpr : present (pte (ram s2) d v) = false).
    { cbn [s2 with_ram ram]. change (ram s1) with (ram (with_freelist p s1)).
      rewrite (pte_set_page (own_set a Held g1)); [| done | done | by apply upages_lt | by rewrite own_set_eq].
      change (ram (with_freelist p s1)) with (ram s1). rewrite (fi_other _ _ _ _ _ _ _ _ _ Hfi); [apply Hab; lia | done | by apply upages_lt | right; lia]. }
    destruct (map_user_ok (own_set a Held g1) s2 d v a grow_perm Hinvz Hda HvU Hpr) as [[E2 Hno] | (g2 & s3 & E2 & Hm)];
      [apply own_set_eq | done | done | |]; fold grow_perm; rewrite (bind_ret _ _ _ _ _ E2).
    + destruct (deallocuvm_ok (own_set a Held g1) s2 d newsz oldsz Hinvz Hda) as (s3 & E3 & Hu); [lia | lia |].
      destruct (undo_held d (npages oldsz) v (npages newsz) _ _ g s g1 s1 a p zero_page s3 H Hd ltac:(lia) ltac:(lia) Hab Hfi Ha Hva Hinva Hu) as (g' & s' & E4 & Hud).
      exists 0, g', s'. split; [cbn [Z.ltb Z.compare]; rewrite (bind_ret _ _ _ _ _ E3); by rewrite (bind_ret _ _ _ _ _ E4) |].
      right. split; [done |]. split; [done |]. exists a. eapply (filled_drained d _ _ (npages newsz)); [exact Hfi | lia | exact Hinvz | |].
      * intros b Hb. apply own_set_ne. congruence.
      * intros b Hb. apply list_elem_of_singleton. destruct (decide (b = a)); [done |]. destruct (Hno b). by rewrite own_set_ne.
    + cbn [Z.ltb Z.compare]. rewrite next_page by done. apply (IH g2 s3 (v + 1)); [lia | done | | lia].
      eapply fill_frame; [done | lia | lia | exact Hfi | done | done | done | done | apply length_replicate | exact Hm].
Qed.

Lemma allocuvm_ok g s d oldsz newsz : vm_inv g s -> g d = Dir -> 0 <= oldsz <= KERNBASE -> absent d (npages oldsz) UPAGES (ram s) ->
  if KERNBASE <=? newsz then allocuvm d oldsz newsz s = Ret 0 s
  else if newsz <? oldsz then allocuvm d oldsz newsz s = Ret oldsz s
  else exists r g' s', allocuvm d oldsz newsz s = Ret r s' /\
    ((r = newsz /\ filled d (npages oldsz) (npages newsz) (fun _ => zero_page) (fun _ => grow_perm) g s g' s') \/
     (r = 0 /\ undone d (npages oldsz) (npages newsz) g s g' s' /\ exists f, drained d [f] (npages newsz) g)).
Proof.
  intros H Hd Ho Hab. unfold allocuvm. rewrite Z.geb_leb. destruct (Z.leb_spec KERNBASE newsz) as [Hk | Hk]; [done |]. destruct (Z.ltb_spec newsz oldsz) as [Hn | Hn]; [done |].
  pose proof (npages_range newsz ltac:(lia)) as Hnp. rewrite npages_roundup by lia. assert (Hle : npages oldsz <= npages newsz) by (unfold npages, PGSIZE; dlia).
  apply (allocuvm_loop_ok _ g s g s d (npages oldsz)); try done; try lia.
  - intros v Hv. apply Hab. lia.
  - by apply filled_nil.
  - unfold npages, PGSIZE in *. pose proof (npages_range oldsz Ho). unfold npages, PGSIZE in *. dlia.
Qed.

(** ** setupkvm *)
Lemma kernel_entry_inv g s s' d v w : vm_inv g s -> UPAGES <= v -> stored g d v w s s' -> vm_inv g s'.
Proof using.
  intros [Ha Hp] Hv [S1 S2 S3 S4 S5]. split; [done |].
  assert (Hu : forall d' v', g d' = Dir -> 0 <= v' < UPAGES -> pte (ram s') d' v' = pte (ram s) d' v')
    by (intros d' v' Hd' Hv'; apply S5; [done | by apply upages_lt | right; lia]).
  split.
  - intros d' i Hd' Hi Hpr. rewrite S3 in * by done. by apply (pi_tab _ _ Hp).
  - intros a d' i Ht. destruct (pi_tab_of _ _ Hp a d' i Ht) as (Hd' & H'). by rewrite S3 by done.
  - intros d' v' Hd' Hv' Hpr. rewrite Hu in * by done. by apply (pi_user _ _ Hp).
  - intros a d' v' Ht. destruct (pi_user_of _ _ Hp a d' v' Ht) as (Hd' & Hv' & H'). by rewrite Hu.
Qed.

(** Entries of the pages [v..v+n] of [d] set, or a prefix of them. *)
Definition kentry (pa perm k : Z) : Z := Z.lor (Z.lor (pa + k * PGSIZE) perm) PTE_P.
Record kmapped d v n pa perm (r : Z) g s g' s' : Prop := {
  km_inv : vm_inv g' s';
  km_own : own_grows d g g';
  km_res : (r = 0 /\ forall k, 0 <= k <= n -> pte (ram s') d (v + k) = kentry pa perm k) \/ (r = -1 /\ forall a, g' a <> Free);
  km_other : forall d' v', g d' = Dir -> 0 <= v' < 2 ^ 20 -> d' <> d \/ ~ v <= v' <= v + n -> pte (ram s') d' v' = pte (ram s) d' v';
  km_ram : forall a, untouched d g a -> ram s' !! a = ram s !! a
}.

Lemma untouched_grows d g g' a : own_grows d g g' -> untouched d g a -> untouched d g' a.
Proof using. intros H (Hf & Hr). destruct (H a) as [E | [? _]]; [unfold untouched; by rewrite E | done]. Qed.

Lemma kmap_loop_ok fuel g s d v n pa perm : vm_inv g s -> g d = Dir -> UPAGES <= v -> 0 <= n -> v + n < 2 ^ 20 -> n < Z.of_nat fuel ->
  (forall k, 0 <= k <= n -> present (pte (ram s) d (v + k)) = false) ->
  0 <= pa -> pa + n * PGSIZE <= 2 ^ 32 - PGSIZE -> pa mod PGSIZE = 0 -> 0 <= perm < PGSIZE ->
  exists r g' s', mappages_loop fuel d (v * PGSIZE) ((v + n) * PGSIZE) pa perm s = Ret r s' /\ kmapped d v n pa perm r g s g' s'.
Proof.
  revert g s v n pa. induction fuel as [| fuel IH]; intros g s v n pa H Hd Hv Hn Hvn Hf Hpr Hpa Hpan Hpm Hperm; [lia |]. cbn [mappages_loop].
  assert (Hv20 : 0 <= v < 2 ^ 20) by (rewrite UPAGES_eq in *; lia). assert (H4096 : PGSIZE = 4096) by done.
  destruct (entry_facts pa perm ltac:(lia) Hpm Hperm) as (W1 & _). pose proof (Hpr 0 ltac:(lia)) as Hpr0. rewrite Z.add_0_r in Hpr0.
  destruct (map_store g s d (v * PGSIZE) (Z.lor (Z.lor pa perm) PTE_P) H Hd (page_u32 v Hv20) W1) as [[E Hno] | (p & g1 & s1 & s2 & E1 & Hgr & E2 & E3 & Hst & Hd1)].
  - by rewrite vpn_page.
  - rewrite (bind_ret _ _ _ _ _ E). exists (-1), g, s. split; [done |]. split; [done | by left | by right | done | done].
  - rewrite vpn_page in *. rewrite (bind_ret _ _ _ _ _ E1). cbv beta iota. rewrite (bind_ret _ _ _ _ _ E2), Hpr0, (bind_ret _ _ _ _ _ E3).
    destruct Hgr as [G1 G2 G3 G4]. pose proof (kernel_entry_inv g1 s1 s2 d v _ G1 Hv Hst) as Hinv2.
    assert (Hother : forall d' v', g d' = Dir -> 0 <= v' < 2 ^ 20 -> d' <> d \/ v' <> v -> pte (ram s2) d' v' = pte (ram s) d' v').
    { intros d' v' Hd' Hv' Hne. rewrite (sd_other _ _ _ _ _ _ Hst) by (try done; by apply (own_grows_keep _ _ _ _ _ G2)). by apply G3. }
    assert (Hram : forall a, untouched d g a -> ram s2 !! a = ram s !! a).
    { intros a Ha. destruct (untouched_grows d g g1 a G2 Ha) as (_ & _ & Hnt). rewrite (sd_ram _ _ _ _ _ _ Hst) by done. by apply G4. }
    destruct (Z.eqb_spec (v * PGSIZE) ((v + n) * PGSIZE)) as [Heq | Hneq].
    + assert (n = 0) as -> by (rewrite H4096 in *; lia). exists 0, g1, s2. split; [done |]. split; [done | done | | | done].
      * left. split; [done |]. intros k Hk. assert (k = 0) as -> by lia. rewrite Z.add_0_r, (sd_pte _ _ _ _ _ _ Hst). unfold kentry. do 2 f_equal. lia.
      * intros d' v' Hd' Hv' Hne. apply Hother; [done | done | destruct Hne; [by left | right; lia]].
    + assert (0 < n) by (destruct (decide (n = 0)) as [-> |]; [by rewrite Z.add_0_r in Hneq | lia]).
      rewrite (u32_small (v * PGSIZE + PGSIZE)), (u32_small (pa + PGSIZE)) by (rewrite H4096 in *; lia).
      replace (v * PGSIZE + PGSIZE) with ((v + 1) * PGSIZE) by lia. replace (v + n) with (v + 1 + (n - 1)) by lia.
      destruct (IH g1 s2 (v + 1) (n - 1) (pa + PGSIZE) Hinv2 Hd1) as (r & g' & s' & E' & [K1 K2 K3 K4 K5]); try (rewrite H4096 in *; lia); try done.
      * intros k Hk. replace (v + 1 + k) with (v + (k + 1)) by lia. rewrite Hother by (done || (rewrite UPAGES_eq in *; lia) || (right; lia)). apply Hpr. lia.
      * rewrite H4096 in *. dlia.
      * exists r, g', s'. split; [exact E' |]. assert (Hdg : forall d', g d' = Dir -> g1 d' = Dir) by (intros; by apply (own_grows_keep _ _ _ _ _ G2)).
        split; [done | by eapply own_grows_trans | | |].
        -- destruct K3 as [[-> K3] | [-> K3]]; [left | by right]. split; [done |]. intros k Hk. destruct (decide (k = 0)) as [-> |].
           ++ rewrite Z.add_0_r. rewrite K4; [| done | done | right; lia]. rewrite (sd_pte _ _ _ _ _ _ Hst). unfold kentry. do 2 f_equal. lia.
           ++ replace (v + k) with (v + 1 + (k - 1)) by lia. rewrite K3 by lia. unfold kentry. do 2 f_equal. lia.
        -- intros d' v' Hd' Hv' Hne. rewrite K4; [| by apply Hdg | done | destruct Hne; [by left | right; lia]]. apply Hother; [done | done | destruct Hne; [by left | right; lia]].
        -- intros a Ha. rewrite K5 by by eapply untouched_grows. by apply Hram.
Qed.

(** A zeroed page as a new directory. *)
Lemma new_dir g s d : vm_inv g s -> g d = Held -> valid d -> ram s !! d = Some zero_page ->
  vm_inv (own_set d Dir g) s /\ forall v, pte (ram s) d v = 0.
Proof using.
  intros [Ha Hp] Hd Hv Hz. assert (Hz0 : forall i, pde (ram s) d i = 0) by (intros i; unfold pde, word; rewrite Hz; apply rdw_zero).
  assert (Hpte : forall v, pte (ram s) d v = 0) by (intros v; apply pte_no_table; by rewrite Hz0). split; [| done].
  assert (Hdir : forall d', g d' = Dir -> own_set d Dir g d' = Dir) by (intros d' Hd'; apply own_set_keep; [done | congruence]).
  split; [apply alloc_inv_own_set; [done | done | congruence | done] |]. split.
  - intros d' i Hd' Hi Hpr. destruct (decide (d' = d)) as [-> | Hne]; [by rewrite Hz0 in Hpr |]. rewrite own_set_ne in Hd' by done.
    apply own_set_keep; [by apply (pi_tab _ _ Hp) | congruence].
  - intros a d' i [_ Ht]%own_set_other; [| done]. destruct (pi_tab_of _ _ Hp a d' i Ht) as (Hd' & H'). split; [by apply Hdir | done].
  - intros d' v Hd' Hvv Hpr. destruct (decide (d' = d)) as [-> | Hne]; [by rewrite Hpte in Hpr |]. rewrite own_set_ne in Hd' by done.
    apply own_set_keep; [by apply (pi_user _ _ Hp) | congruence].
  - intros a d' v [_ Ht]%own_set_other; [| done]. destruct (pi_user_of _ _ Hp a d' v Ht) as (Hd' & H'). split; [by apply Hdir | done].
Qed.

(** Removing a directory that has no user pages undoes its creation. *)
Lemma released_fresh d g g1 : (forall a i, g a <> Tab d i) -> (forall a v, g a <> User d v) -> g d = Free ->
  (forall a, a <> d -> g1 a = g a \/ (g a = Free /\ ((exists i, g1 a = Tab d i) \/ exists v, g1 a = User d v))) ->
  forall a, released d g1 a = g a.
Proof using.
  intros Ht Hu Hd Hg a. unfold released. destruct (decide (a = d)) as [-> | Hne]; [done |].
  destruct (Hg a Hne) as [E | (E & [[i Ei] | [v Ev]])].
  - rewrite E. destruct (g a) as [| | | d' i | d' v] eqn:Ea; try done.
    + destruct (decide (d' = d)) as [-> |]; [by destruct (Ht a i) | done].
    + destruct (decide (d' = d)) as [-> |]; [by destruct (Hu a v) | done].
  - rewrite Ei, decide_True by done. done.
  - rewrite Ev, decide_True by done. done.
Qed.

(** The kernel's mappings in pages: first page, number of pages less one,
    physical address, permissions. *)
Definition region : Type := Z * Z * Z * Z.
Definition kregions : list region :=
  [(UPAGES, EXTMEM / PGSIZE - 1, 0, PTE_W);
   (vpn KERNLINK, vpn data_ - vpn KERNLINK - 1, EXTMEM, 0);
   (vpn data_, vpn (KERNBASE + PHYSTOP) - vpn data_ - 1, data_ - KERNBASE, PTE_W);
   (vpn DEVSPACE, 2 ^ 20 - vpn DEVSPACE - 1, DEVSPACE, PTE_W)].
Definition inside (r : region) (v : Z) : Prop := let '(v0, n, _, _) := r in v0 <= v <= v0 + n.
Definition region_ok (r : region) : Prop := let '(v, n, pa, perm) := r in
  UPAGES <= v /\ 0 <= n /\ v + n < 2 ^ 20 /\ 0 <= pa /\ pa + n * PGSIZE <= 2 ^ 32 - PGSIZE /\ pa mod PGSIZE = 0 /\ 0 <= perm < PGSIZE.
Definition is_region (k : Z * Z * Z * Z) (r : region) : Prop :=
  let '(virt, ps, pe, perm) := k in let '(v, n, pa, perm') := r in
  virt = v * PGSIZE /\ u32 (pe - ps) = (n + 1) * PGSIZE /\ ps = pa /\ perm = perm'.
Definition maps_region m d (r : region) : Prop := let '(v, n, pa, perm) := r in
  forall k, 0 <= k <= n -> pte m d (v + k) = kentry pa perm k.
Fixpoint apart (rs : list region) : Prop :=
  match rs with
  | [] => True
  | r :: rs' => (forall v r', inside r v -> r' ∈ rs' -> ~ inside r' v) /\ apart rs'
  end.

Lemma kmap_regions : Forall2 is_region kmap kregions /\ Forall region_ok kregions /\ apart kregions.
Proof using.
  pose proof data_aligned as Ha. destruct image_order as [Ho1 Ho2].
  assert (Hd : data_ = vpn data_ * PGSIZE) by (unfold vpn, PGSIZE in *; dlia).
  assert (HV : V2P data_ = data_ - KERNBASE) by (apply u32_small; unfold KERNLINK, KERNBASE, EXTMEM, PHYSTOP in *; lia).
  unfold kmap, kregions. rewrite HV. set (x := vpn data_) in *. change (V2P KERNLINK) with EXTMEM. change (vpn KERNLINK) with 524544.
  change (vpn (KERNBASE + PHYSTOP)) with 581632. change (vpn DEVSPACE) with 1040384. change (EXTMEM / PGSIZE - 1) with 255.
  change UPAGES with 524288. unfold KERNLINK, KERNBASE, EXTMEM, PHYSTOP, DEVSPACE, PGSIZE in *. rewrite Hd in *.
  split; [| split].
  - repeat (apply Forall2_cons; split); [..| by apply Forall2_nil]; unfold is_region, PGSIZE; (split; [lia |]; split; [| split; lia]).
    + vm_compute. done.
    + rewrite u32_small by lia. lia.
    + rewrite u32_small by lia. lia.
    + vm_compute. done.
  - repeat (apply Forall_cons; split); [..| by apply Forall_nil]; unfold region_ok, UPAGES, KERNBASE, PGSIZE, PTE_W; change (0x80000000 / 4096) with 524288;
      (split; [lia |]); (split; [lia |]); (split; [lia |]); (split; [lia |]); (split; [lia |]); (split; [dlia | lia]).
  - cbn [apart]. split; [| split; [| split; [| split]]]; try exact Logic.I; intros v r Hv Hr; rewrite ?elem_of_cons, ?elem_of_nil in Hr; cbn [inside] in Hv;
      repeat (destruct Hr as [-> | Hr]; [cbn [inside]; lia |]); done.
Qed.

Lemma mappages_region g s d k r : vm_inv g s -> g d = Dir -> region_ok r -> is_region k r ->
  (forall v, inside r v -> present (pte (ram s) d v) = false) ->
  let '(virt, ps, pe, perm) := k in let '(v, n, pa, _) := r in
  exists res g' s', mappages d virt (u32 (pe - ps)) ps perm s = Ret res s' /\ kmapped d v n pa perm res g s g' s'.
Proof.
  destruct k as [[[virt ps] pe] perm], r as [[[v n] pa] perm']. intros H Hd (R1 & R2 & R3 & R4 & R5 & R6 & R7) (-> & -> & -> & ->) Hab.
  assert (H4096 : PGSIZE = 4096) by done. unfold mappages. rewrite round_page.
  assert (Elast : PGROUNDDOWN (u32 (v * PGSIZE + (n + 1) * PGSIZE - 1)) = (v + n) * PGSIZE).
  { rewrite <- (round_last (v + n)) by (rewrite UPAGES_eq in *; lia). do 2 f_equal. lia. }
  rewrite Elast. apply kmap_loop_ok; try done.
  - rewrite u32_small by (rewrite H4096, UPAGES_eq in *; lia). rewrite H4096. replace ((v + n) * 4096 - v * 4096) with (n * 4096) by lia.
    rewrite Z.div_mul by lia. lia.
  - intros k Hk. apply Hab. cbn [inside]. lia.
Qed.

Record kernel_set d (rs : list region) g s g' s' : Prop := {
  ks_inv : vm_inv g' s';
  ks_own : own_grows d g g';
  ks_map : forall r, r ∈ rs -> maps_region (ram s') d r;
  ks_other : forall d' v, g d' = Dir -> 0 <= v < 2 ^ 20 -> d' <> d \/ (forall r, r ∈ rs -> ~ inside r v) -> pte (ram s') d' v = pte (ram s) d' v;
  ks_ram : forall a, untouched d g a -> ram s' !! a = ram s !! a
}.

Lemma setup_loop_ok ks rs g s d : Forall2 is_region ks rs -> Forall region_ok rs -> apart rs -> vm_inv g s -> g d = Dir ->
  (forall r v, r ∈ rs -> inside r v -> present (pte (ram s) d v) = false) ->
  (exists g' s', setupkvm_loop d ks s = Ret (Some d) s' /\ kernel_set d rs g s g' s') \/
  (exists g1 s1 s', setupkvm_loop d ks s = Ret None s' /\ own_grows d g g1 /\ (vm_inv g1 s1 /\ forall a, g1 a <> Free) /\ vm_inv (released d g1) s' /\
     forall a, untouched d g a -> released d g1 a = g a -> ram s' !! a = ram s !! a).
Proof.
  intros HF. revert g s. induction HF as [| k r ks rs Hk HF IH]; intros g s Hok Hap H Hd Hab; cbn [setupkvm_loop].
  { left. exists g, s. split; [done |]. split; [done | by left | intros r Hr; by apply elem_of_nil in Hr | done | done]. }
  apply Forall_cons in Hok as [Hr Hok]. cbn [apart] in Hap. destruct Hap as [Hap1 Hap].
  pose proof (mappages_region g s d k r H Hd Hr Hk ltac:(intros v; apply Hab; by left)) as Hm.
  destruct k as [[[virt ps] pe] perm], r as [[[v n] pa] perm']. cbn beta iota in Hm. destruct Hm as (res & g1 & s1 & E & [K1 K2 K3 K4 K5]).
  rewrite (bind_ret _ _ _ _ _ E). pose proof Hk as (_ & _ & _ & ->). assert (Hd1 : g1 d = Dir) by by apply (own_grows_keep _ _ _ _ _ K2).
  destruct K3 as [[-> K3] | [-> Kno]]; cbn [Z.ltb Z.compare].
  - destruct (IH g1 s1 Hok Hap K1 Hd1) as [(g' & s' & E' & [S1 S2 S3 S4 S5]) | (g2 & s2 & s' & E' & Hg & Hno & Hi & Hram)].
    + intros r' v' Hr' Hin. rewrite K4; [by apply (Hab r'); [right |] | done | | right; intros Hv'; by apply (Hap1 v' r')].
      rewrite Forall_forall in Hok. specialize (Hok r' Hr'). destruct r' as [[[v0 n0] pa0] perm0]. unfold region_ok, inside in *. rewrite UPAGES_eq in *. lia.
    + left. exists g', s'. split; [exact E' |]. split; [done | by eapply own_grows_trans | | |].
      * intros r' [-> | Hr']%elem_of_cons; [| by apply S3]. intros k Hkn. rewrite S4; [by apply K3 | done | |].
        -- destruct Hr as (R1 & R2 & R3 & _). rewrite UPAGES_eq in *. lia.
        -- right. intros r' Hr' Hin. apply (Hap1 (v + k) r'); [cbn [inside]; lia | done | done].
      * intros d' v' Hd' Hv' Hne. rewrite S4; [apply K4; [done | done |] | by apply (own_grows_keep _ _ _ _ _ K2) | done |].
        -- destruct Hne as [? | Hne]; [by left | right]. by apply (Hne (v, n, pa, perm')); left.
        -- destruct Hne as [? | Hne]; [by left | right]. intros r' Hr'. apply Hne. by right.
      * intros a Ha. rewrite S5 by by eapply untouched_grows. by apply K5.
    + right. exists g2, s2, s'. split; [exact E' |]. split; [by eapply own_grows_trans |]. split; [done |]. split; [done |]. intros a Ha Hrel.
      assert (E1 : g1 a = g a) by (destruct (K2 a) as [? | [? _]]; [done | by destruct Ha]).
      rewrite Hram; [by apply K5 | by eapply untouched_grows | by rewrite E1].
  - right. destruct (freevm_ok g1 s1 d K1 Hd1) as (s' & E' & Hi & Hram). exists g1, s1, s'. split; [by rewrite (bind_ret _ _ _ _ _ E') |].
    split; [done |]. split; [done |]. split; [done |]. intros a Ha Hrel. assert (E1 : g1 a = g a) by (destruct (K2 a) as [? | [? _]]; [done | by destruct Ha]).
    rewrite Hram; [by apply K5 | rewrite E1; apply Ha | by rewrite E1].
Qed.

(** A new address space with the kernel's mappings and no user page. *)
Record created d g s g' s' : Prop := {
  cr_inv : vm_inv g' s';
  cr_free : g d = Free;
  cr_dir : g' d = Dir;
  cr_own : forall a, a <> d -> g' a = g a \/ (g a = Free /\ exists i, g' a = Tab d i);
  cr_kernel : forall r, r ∈ kregions -> maps_region (ram s') d r;
  cr_user : forall v, 0 <= v < UPAGES -> pte (ram s') d v = 0;
  cr_other : forall d' v, g d' = Dir -> 0 <= v < 2 ^ 20 -> pte (ram s') d' v = pte (ram s) d' v;
  cr_ram : forall a, g a <> Free -> ram s' !! a = ram s !! a
}.

Lemma free_owns_nothing g s d : vm_inv g s -> g d = Free -> (forall a i, g a <> Tab d i) /\ (forall a v, g a <> User d v).
Proof using.
  intros [_ Hp] Hd. split; intros a x Ha; [destruct (pi_tab_of _ _ Hp a d x Ha) as (E & _) | destruct (pi_user_of _ _ Hp a d x Ha) as (E & _)]; congruence.
Qed.

Lemma setupkvm_ok g s : vm_inv g s ->
  (exists s', setupkvm s = Ret None s' /\ vm_inv g s' /\ (exists d, drained d [d] 0 g) /\ forall a, g a <> Free -> ram s' !! a = ram s !! a) \/
  (exists d g' s', setupkvm s = Ret (Some d) s' /\ created d g s g' s').
Proof.
  intros H. unfold setupkvm. destruct (kalloc_vm g s H) as [[E Hno] | (d & p & E & Hd & Hv & Hinv)]; rewrite (bind_ret _ _ _ _ _ E); cbv beta iota.
  { left. exists s. split; [done |]. split; [done |]. split; [| done]. exists 0, g, s. split; [done |]. split; [done |]. intros a Ha. by destruct (Hno a). }
  destruct (set_page_vm (own_set d Held g) (with_freelist p s) d zero_page) as [E1 Hinv1];
    [done | done | by rewrite own_set_eq | by rewrite own_set_eq | apply length_replicate |].
  unfold fill_page. rewrite (bind_ret _ _ _ _ _ E1). cbn [with_freelist ram] in *. set (s1 := with_ram (<[d := zero_page]> (ram s)) (with_freelist p s)) in *.
  change (P2V PHYSTOP >? DEVSPACE) with false. cbv iota.
  destruct (new_dir (own_set d Held g) s1 d Hinv1) as [Hnew Hz]; [apply own_set_eq | done | apply lookup_insert_eq |].
  set (g1 := own_set d Dir (own_set d Held g)) in *. assert (Hg1 : forall a, a <> d -> g1 a = g a) by (intros a Ha; unfold g1; by rewrite !own_set_ne).
  assert (Hd1 : g1 d = Dir) by apply own_set_eq. destruct (free_owns_nothing g s d H Hd) as [Hnt Hnu].
  assert (Hun : forall a, g a <> Free -> a <> d /\ untouched d g1 a /\ ram s1 !! a = ram s !! a).
  { intros a Ha. assert (Hne : a <> d) by congruence. split; [done |]. split; [unfold untouched; by rewrite Hg1 |].
    cbn [s1 with_ram ram]. by rewrite lookup_insert_ne. }
  destruct kmap_regions as (Hreg & Hrok & Hap). destruct (setup_loop_ok kmap kregions g1 s1 d Hreg Hrok Hap Hnew Hd1) as
    [(g' & s' & E' & [S1 S2 S3 S4 S5]) | (g2 & s2 & s' & E' & Hg2 & [Hi2 Hno] & Hi & Hram)].
  - intros r v _ _. by rewrite Hz.
  - right. exists d, g', s'. split; [exact E' |]. split; try done.
    + by apply (own_grows_keep _ _ _ _ _ S2).
    + intros a Ha. rewrite <- Hg1 by done. apply S2.
    + intros v Hvv. rewrite S4; [apply Hz | done | by apply upages_lt |]. right. intros r Hr Hin. rewrite Forall_forall in Hrok. specialize (Hrok r Hr).
      destruct r as [[[v0 n0] pa0] perm0]. unfold region_ok, inside in *. lia.
    + intros d' v Hd' Hvv. assert (Hne : d' <> d) by congruence. rewrite S4; [| by rewrite Hg1 | done | by left].
      apply (pte_frame g); [apply (pi_tab _ _ (proj2 H)) | done | done | apply Hun; congruence |]. intros a i Ha. apply Hun. congruence.
    + intros a Ha. destruct (Hun a Ha) as (_ & Hu & <-). by apply S5.
  - left. exists s'. split; [exact E' |]. assert (Hrel : forall a, released d g2 a = g a).
    { apply released_fresh; [done | done | done |]. intros a Ha. destruct (Hg2 a) as [E2 | (E2 & Ht)]; rewrite Hg1 in * by done; [by left | right; by split; [| left]]. }
    split; [eapply vm_inv_ext; [exact Hi |]; intros a; by rewrite Hrel |]. split.
    { exists d, g2, s2. split; [done |]. split; intros a Ha.
      - destruct (Hun a Ha) as (Hne & _). destruct (Hg2 a) as [E2 | [E2 _]]; rewrite Hg1 in E2 by done; done.
      - destruct (decide (a = d)) as [-> | Hne]; [left; by left |]. destruct (Hg2 a) as [E2 | [_ Ht]]; [| right; by left].
        destruct (Hno a). by rewrite E2, Hg1. }
    intros a Ha. destruct (Hun a Ha) as (Hne & Hu & <-).
    apply Hram; [done |]. rewrite Hg1 by done. apply Hrel.
Qed.

(** ** copyuvm *)
Lemma odd_lor x : Z.odd x = true -> Z.lor x 1 = x.
Proof using.
  intros Ho. apply Z.bits_inj'. intros n Hn. rewrite Z.lor_spec. destruct (decide (n = 0)) as [-> |]; [by rewrite Z.bit0_odd, Ho |].
  replace (Z.testbit 1 n) with false; [apply orb_false_r |]. symmetry. change 1 with (2 ^ 0). rewrite Z.pow2_bits_eqb by lia. apply Z.eqb_neq. lia.
Qed.
Lemma flags_present w : present w = true -> Z.lor (PTE_FLAGS w) PTE_P = PTE_FLAGS w /\ 0 <= PTE_FLAGS w < PGSIZE.
Proof using.
  intros Hp. rewrite flags_eq. split; [| apply Z.mod_pos_bound; done]. apply odd_lor. unfold present in Hp. apply negb_true_iff, Z.eqb_neq in Hp.
  change PTE_P with (Z.ones 1) in Hp. rewrite Z.land_ones in Hp by lia. change (2 ^ 1) with 2 in Hp. rewrite Zodd_mod. apply Z.eqb_eq.
  unfold PGSIZE. dlia.
Qed.

Definition page_of m p v : list Z := match m !! tabp (pte m p v) with Some pg => pg | None => [] end.
Definition flags_of m p v : Z := PTE_FLAGS (pte m p v).

(** What is left when the copy fails: only pages of [d] were added, and they are gone. *)
Definition abandoned d g s s' : Prop := exists g1,
  (forall a, g1 a = g a \/ (g a = Free /\ ((exists i, g1 a = Tab d i) \/ exists v, g1 a = User d v))) /\
  vm_inv (released d g1) s' /\ forall a, untouched d g a -> released d g1 a = g a -> ram s' !! a = ram s !! a.

Lemma abandon_ok d lo hi C P g s g1 s1 s2 : g d = Dir -> filled d lo hi C P g s g1 s1 -> vm_inv g1 s2 ->
  (forall a, g1 a <> Free -> ram s2 !! a = ram s1 !! a) -> exists s', freevm d s2 = Ret tt s' /\ abandoned d g s s'.
Proof.
  intros Hd Hfi H2 Hram2. destruct (freevm_ok g1 s2 d H2) as (s' & E & Hi & Hram); [by eapply filled_dir |]. exists s'. split; [done |].
  exists g1. split; [| split; [done |]].
  - intros a. destruct (fi_own _ _ _ _ _ _ _ _ _ Hfi a) as [? | (? & [? | (v & _ & ?)])]; [by left | right; split; [done | by left] | right; split; [done | right; by exists v]].
  - intros a Ha Hrel. destruct (filled_untouched _ _ _ _ _ _ _ _ _ a Hfi Ha) as [(Hnf & _) Ea]. rewrite Hram; [| done | by rewrite Ea].
    rewrite Hram2 by done. by apply (fi_ram _ _ _ _ _ _ _ _ _ Hfi).
Qed.

Lemma copy_loop_ok fuel g s g1 s1 p d v sz : vm_inv g s -> g p = Dir -> g d = Dir -> p <> d -> 0 <= sz <= KERNBASE -> 0 <= v <= npages sz ->
  (forall v, 0 <= v < npages sz -> present (pte (ram s) p v) = true /\ pte (ram s) d v = 0) ->
  filled d 0 v (page_of (ram s) p) (flags_of (ram s) p) g s g1 s1 -> npages sz - v < Z.of_nat fuel ->
  exists r s', copyuvm_loop fuel p d (v * PGSIZE) sz s1 = Ret r s' /\
    ((r = Some d /\ exists g', filled d 0 (npages sz) (page_of (ram s) p) (flags_of (ram s) p) g s g' s') \/
     (r = None /\ abandoned d g s s')).
Proof.
  intros H Hp Hd Hpd Hsz. pose proof (npages_range sz Hsz) as Hnp. revert g1 s1 v. induction fuel as [| fuel IH]; intros g1 s1 v Hv Hpg Hfi Hf; [lia |].
  cbn [copyuvm_loop]. destruct (Z.ltb_spec (v * PGSIZE) sz) as [Hlt%npages_lt | Hge].
  2: { assert (v = npages sz) as -> by (pose proof (proj2 (npages_lt v sz)); lia). exists (Some d), s1. split; [done |]. left. split; [done |]. by exists g1. }
  assert (HvU : 0 <= v < UPAGES) by lia. pose proof (upages_lt v HvU) as Hv20. destruct (Hpg v ltac:(lia)) as [Hpr Hz].
  pose proof (fi_inv _ _ _ _ _ _ _ _ _ Hfi) as Hinv1. pose proof (filled_dir _ _ _ _ _ _ _ _ _ d Hfi Hd) as Hd1. pose proof (filled_dir _ _ _ _ _ _ _ _ _ p Hfi Hp) as Hp1.
  assert (Epte : pte (ram s1) p v = pte (ram s) p v) by (apply (fi_other _ _ _ _ _ _ _ _ _ Hfi); [done | done | by left]).
  assert (Hpde : present (pde (ram s1) p (v / 1024)) = true).
  { destruct (present (pde (ram s1) p (v / 1024))) eqn:E; [done |]. apply pte_no_table in E. rewrite Epte in E. by rewrite E in Hpr. }
  rewrite (bind_ret _ _ _ _ _ (walk_ok g1 s1 p _ Hinv1 Hp1 (page_u32 v Hv20))). rewrite vpn_page, Hpde.
  rewrite (bind_ret _ _ _ _ _ (load_pte g1 s1 p v Hinv1 Hp1 Hv20 Hpde)). rewrite Epte, Hpr. cbn [negb].
  destruct (flags_present _ Hpr) as [_ Hfl]. fold (flags_of (ram s) p v) in Hfl.
  assert (Hu1 : g1 (tabp (pte (ram s) p v)) = User p v) by (rewrite <- Epte; apply (pi_user _ _ (proj2 Hinv1)); [done | done | by rewrite Epte]).
  destruct (kalloc_vm g1 s1 Hinv1) as [[E _] | (a & q & E & Ha & Hva & Hinva)]; rewrite (bind_ret _ _ _ _ _ E); cbv beta iota.
  { destruct (abandon_ok d 0 v _ _ g s g1 s1 s1 Hd Hfi Hinv1 ltac:(done)) as (s' & E' & Hab). exists None, s'. split; [by rewrite (bind_ret _ _ _ _ _ E') | by right]. }
  assert (Eram : ram s1 !! tabp (pte (ram s) p v) = ram s !! tabp (pte (ram s) p v)).
  { apply (fi_ram _ _ _ _ _ _ _ _ _ Hfi). assert (Hu0 : g (tabp (pte (ram s) p v)) = User p v) by by apply (pi_user _ _ (proj2 H)).
    unfold untouched. rewrite Hu0. split; [done |]. split; [congruence | done]. }
  destruct (alloc_page g1 s1 _ (proj1 Hinv1) (alloc_valid g1 s1 _ _ (proj1 Hinv1) Hu1 ltac:(done))) as (pg & Epg & Hlen).
  assert (Hpage : page_of (ram s) p v = pg) by (unfold page_of; by rewrite <- Eram, Epg).
  assert (Eget : get_page (P2V (PTE_ADDR (pte (ram s) p v))) (with_freelist q s1) = Ret pg (with_freelist q s1)) by by apply get_page_ret.
  rewrite (bind_ret _ _ _ _ _ Eget). destruct (set_page_vm (own_set a Held g1) (with_freelist q s1) a pg) as [E1 Hinvz];
    [done | done | by rewrite own_set_eq | by rewrite own_set_eq | done |].
  rewrite (bind_ret _ _ _ _ _ E1). cbn [with_freelist ram] in *. set (s2 := with_ram (<[a := pg]> (ram s1)) (with_freelist q s1)) in *.
  assert (Hda : own_set a Held g1 d = Dir) by (apply own_set_keep; [done | congruence]).
  assert (Hprd : present (pte (ram s2) d v) = false).
  { cbn [s2 with_ram ram]. change (ram s1) with (ram (with_freelist q s1)).
    rewrite (pte_set_page (own_set a Held g1)); [| done | done | done | by rewrite own_set_eq].
    change (ram (with_freelist q s1)) with (ram s1). rewrite (fi_other _ _ _ _ _ _ _ _ _ Hfi); [by rewrite Hz | done | done | right; lia]. }
  destruct (map_user_ok (own_set a Held g1) s2 d v a (flags_of (ram s) p v) Hinvz Hda HvU Hprd) as [[E2 _] | (g2 & s3 & E2 & Hm)];
    [apply own_set_eq | done | done | |]; fold (flags_of (ram s) p v); rewrite (bind_ret _ _ _ _ _ E2); cbn [Z.ltb Z.compare].
  - destruct (kfree_vm (own_set a Held g1) s2 a Hinvz Hva) as (s3 & E3 & Hinv3 & Hram3); [apply own_set_eq |]. rewrite (bind_ret _ _ _ _ _ E3).
    destruct (abandon_ok d 0 v _ _ g s g1 s1 s3 Hd Hfi) as (s' & E' & Hab).
    + eapply vm_inv_ext; [exact Hinv3 |]. intros b. unfold own_set. by destruct (decide (b = a)) as [-> |].
    + intros b Hb. assert (b <> a) by congruence. rewrite Hram3 by done. cbn [s2 with_ram ram]. by rewrite lookup_insert_ne.
    + exists None, s'. split; [by rewrite (bind_ret _ _ _ _ _ E') | by right].
  - rewrite next_page by done. apply (IH g2 s3 (v + 1)); [lia | done | | lia].
    unfold s2 in Hm. rewrite <- Hpage in Hm. eapply fill_frame; [done | lia | lia | exact Hfi | exact Ha | done | exact Hinva | done | by rewrite Hpage | exact Hm].
Qed.

(** ** copyout *)

(** The byte a user program reads at [va], if it may. *)
Definition ubyte m d va : option Z :=
  let w := pte m d (vpn va) in
  if present w && user w then m !! tabp w ≫= (.!! Z.to_nat (va mod PGSIZE)) else None.

Lemma ubyte_write g s d v off xs pg : vm_inv g s -> g d = Dir -> 0 <= v < UPAGES -> let w := pte (ram s) d v in
  present w = true -> user w = true -> ram s !! tabp w = Some pg -> length pg = Z.to_nat PGSIZE -> 0 <= off -> off + Z.of_nat (length xs) <= PGSIZE ->
  let m' := <[tabp w := splice (Z.to_nat off) xs pg]> (ram s) in
  forall d' x, g d' = Dir -> 0 <= x < KERNBASE -> ubyte m' d' x =
    if decide (d' = d /\ v * PGSIZE + off <= x < v * PGSIZE + off + Z.of_nat (length xs)) then xs !! Z.to_nat (x - (v * PGSIZE + off)) else ubyte (ram s) d' x.
Proof.
  intros H Hd Hv w Hpr Hus Hpg Hl Ho Hx m' d' x Hd' Hxr. assert (H4096 : PGSIZE = 4096) by done. unfold ubyte.
  assert (Hown : g (tabp w) = User d v) by by apply (pi_user _ _ (proj2 H)).
  assert (Hvx : 0 <= vpn x < UPAGES) by (unfold vpn; rewrite UPAGES_eq, H4096; unfold KERNBASE in *; dlia).
  unfold m'. rewrite (pte_set_page g) by (first [done | by apply upages_lt | by rewrite Hown]). cbv zeta.
  destruct (decide (d' = d /\ vpn x = v)) as [[-> Evx] | Hne].
  - rewrite Evx. fold w. rewrite Hpr, Hus. cbn [andb]. rewrite lookup_insert_eq, Hpg. cbn [option_bind mbind].
    assert (Ex : x = v * PGSIZE + x mod PGSIZE) by (rewrite <- Evx; unfold vpn; rewrite H4096; dlia). pose proof (Z.mod_pos_bound x PGSIZE ltac:(done)) as Hxm.
    destruct (decide (x mod PGSIZE < off)); [| destruct (decide (x mod PGSIZE < off + Z.of_nat (length xs)))].
    + rewrite splice_lookup_lt by lia. by rewrite decide_False by lia.
    + rewrite splice_lookup_mid by lia. rewrite decide_True by lia. f_equal. lia.
    + rewrite splice_lookup_ge by lia. by rewrite decide_False by lia.
  - rewrite decide_False.
    + destruct (present (pte (ram s) d' (vpn x)) && user (pte (ram s) d' (vpn x))) eqn:E; [| done]. apply andb_true_iff in E as [E _].
      rewrite lookup_insert_ne; [done |]. intros Eq. pose proof (pi_user _ _ (proj2 H) d' (vpn x) Hd' Hvx E) as Hu. rewrite <- Eq, Hown in Hu.
      injection Hu as Hu1 Hu2. by apply Hne.
    + intros [-> Hin]. apply Hne. split; [done |]. unfold vpn. rewrite H4096 in *. dlia.
Qed.

Definition user_page m d v : Prop := present (pte m d v) = true /\ user (pte m d v) = true.

(** [copyout] changes only the pages of [d].  It gets through when they are all
    accessible, and fails at the first one that is not. *)
Record copies d va (buf : list Z) (r : Z) g s s' : Prop := {
  co_inv : vm_inv g s';
  co_res : (r = 0 /\ (buf <> [] -> forall v, vpn va <= v < npages (va + Z.of_nat (length buf)) -> user_page (ram s) d v) /\
      forall d' x, g d' = Dir -> 0 <= x < KERNBASE -> ubyte (ram s') d' x =
        if decide (d' = d /\ va <= x < va + Z.of_nat (length buf)) then buf !! Z.to_nat (x - va) else ubyte (ram s) d' x) \/
    (r = -1 /\ exists v, vpn va <= v < npages (va + Z.of_nat (length buf)) /\ ~ user_page (ram s) d v);
  co_pte : forall d' v, g d' = Dir -> 0 <= v < 2 ^ 20 -> pte (ram s') d' v = pte (ram s) d' v;
  co_pde : forall d' i, g d' = Dir -> pde (ram s') d' i = pde (ram s) d' i;
  co_ram : forall a, (forall v, g a <> User d v) -> ram s' !! a = ram s !! a
}.

Lemma uva2ka_ok g s d v : vm_inv g s -> g d = Dir -> 0 <= v < 2 ^ 20 -> present (pde (ram s) d (v / 1024)) = true ->
  let w := pte (ram s) d v in
  uva2ka d (v * PGSIZE) s = Ret (if present w && user w then Some (tabp w) else None) s.
Proof.
  intros H Hd Hv Hpd w. unfold uva2ka. rewrite (bind_ret _ _ _ _ _ (walk_ok g s d _ H Hd (page_u32 v Hv))). rewrite vpn_page, Hpd.
  erewrite bind_ret by done. rewrite (bind_ret _ _ _ _ _ (load_pte g s d v H Hd Hv Hpd)). fold w. by destruct (present w), (user w).
Qed.

(** The rest of a copy after the first [n] bytes, up to the end of a page. *)
Lemma copies_step d va buf n r g s s1 s' : g d = Dir -> 0 <= va -> va + Z.of_nat (length buf) <= KERNBASE ->
  0 < n < Z.of_nat (length buf) -> vpn (va + n) = vpn va + 1 -> user_page (ram s) d (vpn va) ->
  (forall d' x, g d' = Dir -> 0 <= x < KERNBASE -> ubyte (ram s1) d' x =
    if decide (d' = d /\ va <= x < va + n) then buf !! Z.to_nat (x - va) else ubyte (ram s) d' x) ->
  (forall d' v, g d' = Dir -> 0 <= v < 2 ^ 20 -> pte (ram s1) d' v = pte (ram s) d' v) ->
  (forall d' i, g d' = Dir -> pde (ram s1) d' i = pde (ram s) d' i) ->
  (forall a, (forall v, g a <> User d v) -> ram s1 !! a = ram s !! a) ->
  copies d (va + n) (drop (Z.to_nat n) buf) r g s1 s' -> copies d va buf r g s s'.
Proof.
  set (len := Z.of_nat (length buf)). set (v := vpn va). intros Hd Hva Hlim Hn Hvn Huv Hub Hpt Hpde1 Hram1 [K1 K2 K3 K4 K5].
  assert (Hv0 : 0 <= v) by (unfold v, vpn; apply Z.div_pos; unfold PGSIZE; lia).
  assert (Hup : forall v', v <= v' < npages (va + len) -> user_page (ram s1) d v' <-> user_page (ram s) d v').
  { intros v' Hv'. unfold user_page. rewrite Hpt; [done | done |]. pose proof (npages_range (va + len) ltac:(lia)). rewrite UPAGES_eq in *. lia. }
  assert (Hend : va + n + Z.of_nat (length (drop (Z.to_nat n) buf)) = va + len) by (rewrite length_drop; unfold len; lia). rewrite Hend, Hvn in K2.
  split; fold len; fold v.
  - done.
  - destruct K2 as [(-> & K2 & K2') | (-> & v' & Hv' & K2)]; [left | right; split; [done |]; exists v'; split; [lia |]; intros Hx; apply K2, Hup; [lia | done]].
    split; [done |]. split.
    + intros _ v' Hv'. destruct (decide (v' = v)) as [-> |]; [done |]. apply Hup, K2; [done | | lia].
      intros Hnil%(f_equal length). rewrite length_drop in Hnil. cbn [length] in Hnil. lia.
    + intros d' x Hd' Hx. rewrite K2', Hub by done.
      destruct (decide (d' = d /\ va + n <= x < va + len)) as [Hin | Hout]; [rewrite decide_True by lia; rewrite lookup_drop; f_equal; lia |].
      destruct (decide (d' = d /\ va <= x < va + n)) as [Hin | Hout2]; [by rewrite decide_True by lia | by rewrite decide_False by lia].
  - intros d' v' Hd' Hv'. rewrite K3 by done. by apply Hpt.
  - intros d' i Hd'. rewrite K4 by done. by apply Hpde1.
  - intros a Ha. rewrite K5 by done. by apply Hram1.
Qed.

Lemma copyout_loop_ok fuel g s d va buf len : vm_inv g s -> g d = Dir -> 0 <= va -> va + len <= KERNBASE -> len = Z.of_nat (length buf) ->
  (forall v, vpn va <= v < npages (va + len) -> present (pde (ram s) d (v / 1024)) = true) -> npages (va mod PGSIZE + len) < Z.of_nat fuel ->
  exists r s', copyout_loop fuel d va buf len s = Ret r s' /\ copies d va buf r g s s'.
Proof.
  assert (H4096 : PGSIZE = 4096) by done. revert s va buf len. induction fuel as [| fuel IH]; intros s va buf len H Hd Hva Hlim Hlen Hpages Hf.
  { exfalso. unfold npages in Hf. rewrite H4096 in Hf. assert (0 <= len) by lia. dlia. }
  cbn [copyout_loop]. rewrite Z.gtb_ltb. destruct (Z.ltb_spec 0 len) as [Hpos | Hz].
  2: { exists 0, s. split; [done |]. split; try done. left. split; [done |]. split; [| intros d' x _ _; by rewrite decide_False by lia].
       intros Hb. destruct buf; [done | cbn [length] in Hlen; lia]. }
  set (v := vpn va). assert (Hv : 0 <= v < UPAGES) by (unfold v, vpn; rewrite UPAGES_eq, H4096; unfold KERNBASE in *; dlia).
  assert (E0 : PGROUNDDOWN va = v * PGSIZE) by (rewrite rounddown_eq; unfold v, vpn; rewrite H4096; dlia).
  assert (Hvin : vpn va <= v < npages (va + len)) by (fold v; unfold npages, v, vpn; rewrite H4096; dlia).
  pose proof (Hpages v Hvin) as Hpd. pose proof (upages_lt v Hv) as Hv20. set (w := pte (ram s) d v) in *.
  rewrite E0, (bind_ret _ _ _ _ _ (uva2ka_ok g s d v H Hd Hv20 Hpd)). fold w. destruct (present w && user w) eqn:Hpu.
  2: { exists (-1), s. split; [done |]. split; try done. right. split; [done |]. exists v. split; [by rewrite <- Hlen |]. intros [H1 H2]. fold w in H1, H2. by rewrite H1, H2 in Hpu. }
  apply andb_true_iff in Hpu as [Hpr Hus]. assert (Hoff : va - v * PGSIZE = va mod PGSIZE) by (unfold v, vpn; rewrite H4096; dlia).
  rewrite Hoff. pose proof (Z.mod_pos_bound va PGSIZE ltac:(done)) as Hm. rewrite (u32_small (PGSIZE - va mod PGSIZE)) by lia.
  set (n := if PGSIZE - va mod PGSIZE >? len then len else PGSIZE - va mod PGSIZE).
  assert (Hn : 0 < n <= len /\ va mod PGSIZE + n <= PGSIZE /\ (n < len -> va mod PGSIZE + n = PGSIZE))
    by (unfold n; rewrite Z.gtb_ltb; destruct (Z.ltb_spec len (PGSIZE - va mod PGSIZE)); lia).
  assert (Hown : g (tabp w) = User d v) by by apply (pi_user _ _ (proj2 H)).
  pose proof (alloc_valid g s _ _ (proj1 H) Hown ltac:(done)) as Hvw. destruct (alloc_page g s _ (proj1 H) Hvw) as (pg & Epg & Hl).
  rewrite (bind_ret _ _ _ _ _ (get_page_ret s _ pg Epg)). set (xs := take (Z.to_nat n) buf). assert (Hxs : length xs = Z.to_nat n) by (unfold xs; rewrite length_take; lia).
  destruct (set_page_vm g s (tabp w) (splice (Z.to_nat (va mod PGSIZE)) xs pg) H Hvw) as [Es H1]; [by rewrite Hown | by rewrite Hown | rewrite length_splice; [done | lia] |].
  rewrite (bind_ret _ _ _ _ _ Es). pose proof (ubyte_write g s d v (va mod PGSIZE) xs pg H Hd Hv Hpr Hus Epg Hl ltac:(lia) ltac:(lia)) as Hub.
  cbv zeta in Hub. fold w in Hub. set (s1 := with_ram (<[tabp w := splice (Z.to_nat (va mod PGSIZE)) xs pg]> (ram s)) s) in *. rewrite next_page by done.
  assert (Hpt : forall d' v', g d' = Dir -> 0 <= v' < 2 ^ 20 -> pte (ram s1) d' v' = pte (ram s) d' v').
  { intros d' v' Hd' Hv'. apply (pte_set_page g); [done | done | done | by rewrite Hown]. }
  assert (Hmeta : meta (g (tabp w)) = false) by by rewrite Hown.
  assert (Hpde1 : forall d' i, g d' = Dir -> pde (ram s1) d' i = pde (ram s) d' i).
  { intros d' i Hd'. apply pde_frame. cbn [s1 with_ram ram]. rewrite lookup_insert_ne; [done |]. congruence. }
  assert (Hram1 : forall a, (forall v', g a <> User d v') -> ram s1 !! a = ram s !! a).
  { intros a Ha. cbn [s1 with_ram ram]. rewrite lookup_insert_ne; [done |]. intros <-. by apply (Ha v). }
  assert (Eva : v * PGSIZE + va mod PGSIZE = va) by lia. rewrite Eva in Hub.
  destruct (decide (n = len)) as [En | Hnl].
  - rewrite En, Z.sub_diag. destruct fuel as [| fuel]; [exfalso; unfold npages in Hf; rewrite H4096 in Hf; dlia |]. cbn [copyout_loop Z.gtb Z.compare].
    exists 0, s1. split; [done |]. split; try done. left. split; [done |]. split.
    + intros _ v' Hv'. assert (v' = v) as -> by (rewrite <- Hlen in Hv'; fold v in Hv'; unfold npages, v, vpn in *; rewrite H4096 in *; dlia). done.
    + intros d' x Hd' Hx. rewrite Hub by done. unfold xs. rewrite firstn_all2 by lia. done.
  - assert (Hfull : va mod PGSIZE + n = PGSIZE) by (apply Hn; lia). replace ((v + 1) * PGSIZE) with (va + n) by lia.
    assert (Hvn : vpn (va + n) = v + 1 /\ (va + n) mod PGSIZE = 0) by (unfold vpn; rewrite H4096 in *; split; dlia). destruct Hvn as [Hvn Hmn].
    destruct (IH s1 (va + n) (drop (Z.to_nat n) buf) (len - n) H1 Hd) as (r & s' & E' & K); [lia | lia | rewrite length_drop; lia | | |].
    + intros v' Hv'. rewrite Hvn in Hv'. replace (va + n + (len - n)) with (va + len) in Hv' by lia. rewrite Hpde1 by done. apply Hpages. fold v. lia.
    + rewrite Hmn. unfold npages in *. rewrite H4096 in *. dlia.
    + exists r, s'. split; [exact E' |]. apply (copies_step d va buf n r g s s1 s'); try done; [lia | lia |].
      intros d' x Hd' Hx. rewrite Hub by done. rewrite Hxs, Z2Nat.id by lia. destruct (decide _) as [Hin |]; [| done].
      unfold xs. by rewrite lookup_take_lt by lia.
Qed.

Lemma copyout_ok g s d va buf : vm_inv g s -> g d = Dir -> 0 <= va -> va + Z.of_nat (length buf) <= KERNBASE ->
  (forall v, vpn va <= v < npages (va + Z.of_nat (length buf)) -> present (pde (ram s) d (v / 1024)) = true) ->
  exists r s', copyout d va buf (Z.of_nat (length buf)) s = Ret r s' /\ copies d va buf r g s s'.
Proof.
  intros. apply copyout_loop_ok; try done. pose proof (Z.mod_pos_bound va PGSIZE ltac:(done)). unfold npages, PGSIZE in *. dlia.
Qed.
End ops.

(** ** Theorems *)
Section theorems.
Context {I : Image}.

(** Growing a process: when no page from [oldsz] up is mapped, [allocuvm]
    returns [newsz] with zeroed, user-accessible pages added from [oldsz] to
    [newsz], or 0 with no user page added; a size at or above [KERNBASE] is
    refused and a smaller size ignored.  The contents of every page that was in
    use, the other mappings of the address space and all those of the others
    stay the same, and the pages taken come from the free ones. *)
Theorem allocuvm_spec (g : ghost) (s : kmem_t) (d oldsz newsz : Z) (H : vm_inv g s) (Hd : g d = Dir)
  (Ho : 0 <= oldsz <= KERNBASE) (Hab : absent d (npages oldsz) UPAGES (ram s)) :
  if KERNBASE <=? newsz then allocuvm d oldsz newsz s = Ret 0 s
  else if newsz <? oldsz then allocuvm d oldsz newsz s = Ret oldsz s
  else exists r g' s', allocuvm d oldsz newsz s = Ret r s' /\
    ((r = newsz /\ filled d (npages oldsz) (npages newsz) (fun _ => zero_page) (fun _ => Z.lor PTE_W PTE_U) g s g' s') \/
     (r = 0 /\ undone d (npages oldsz) (npages newsz) g s g' s')).
Proof.
  pose proof (allocuvm_ok g s d oldsz newsz H Hd Ho Hab) as Hok. destruct (KERNBASE <=? newsz); [done |]. destruct (newsz <? oldsz); [done |].
  destruct Hok as (r & g' & s' & E & [[-> Hf] | (-> & Hu & _)]); eexists _, g', s'; (split; [exact E |]); [by left | by right].
Qed.

(** The address space [d], a copy of the first [sz] bytes of [p]. *)
Record copied (g : ghost) (s : kmem_t) (p sz d : Z) (g' : ghost) (s' : kmem_t) : Prop := {
  cp_inv : vm_inv g' s';
  cp_new : g d = Free /\ g' d = Dir;
  cp_own : forall a, g' a = g a \/ (g a = Free /\ (a = d \/ (exists i, g' a = Tab d i) \/ exists v, g' a = User d v));
  cp_pages : forall v, 0 <= v < npages sz ->
    present (pte (ram s') d v) = true /\ PTE_FLAGS (pte (ram s') d v) = PTE_FLAGS (pte (ram s) p v) /\
    g (tabp (pte (ram s') d v)) = Free /\ ram s' !! tabp (pte (ram s') d v) = ram s !! tabp (pte (ram s) p v);
  cp_rest : forall v, npages sz <= v < UPAGES -> pte (ram s') d v = 0;
  cp_kernel : forall r, r ∈ kregions -> maps_region (ram s') d r
}.

Lemma created_keep d g s g1 s1 : vm_inv g s -> created d g s g1 s1 -> forall a, g a <> Free -> g1 a = g a /\ untouched d g1 a.
Proof.
  intros H [C1 C2 C3 C4 C5 C6 C7 C8] a Ha. assert (E : g1 a = g a) by (destruct (C4 a) as [? | [? _]]; [congruence | done | done]).
  split; [done |]. unfold untouched. rewrite E. split; [done |]. split; [congruence |]. apply (free_owns_nothing g s d H C2).
Qed.

Lemma copied_pages g s p sz d g1 s1 g' s' v : vm_inv g s -> g p = Dir -> npages sz <= UPAGES -> present (pte (ram s) p v) = true -> 0 <= v < npages sz ->
  created d g s g1 s1 -> filled d 0 (npages sz) (page_of (ram s1) p) (flags_of (ram s1) p) g1 s1 g' s' ->
  present (pte (ram s') d v) = true /\ PTE_FLAGS (pte (ram s') d v) = PTE_FLAGS (pte (ram s) p v) /\
  g (tabp (pte (ram s') d v)) = Free /\ ram s' !! tabp (pte (ram s') d v) = ram s !! tabp (pte (ram s) p v).
Proof.
  intros H Hp Hnp Hpv Hv Hcr Hfi. pose proof (created_keep d g s g1 s1 H Hcr) as Hkeep. pose proof Hcr as [C1 C2 C3 C4 C5 C6 C7 C8]. pose proof Hfi as [F1 F2 F3 F4 F5].
  destruct (F3 v Hv) as (P1 & P2 & P3). pose proof (upages_lt v ltac:(lia)) as Hv20. assert (Epv : pte (ram s1) p v = pte (ram s) p v) by by apply C7.
  split; [done |]. split; [rewrite P2; unfold flags_of; rewrite Epv; by apply flags_present |]. split.
  - assert (Hu : g' (tabp (pte (ram s') d v)) = User d v) by (apply (pi_user _ _ (proj2 F1)); [by eapply filled_dir | lia | done]).
    destruct (decide (g (tabp (pte (ram s') d v)) = Free)) as [? | Hnf]; [done |]. exfalso.
    destruct (F2 (tabp (pte (ram s') d v))) as [E2 | [E2 _]]; rewrite (proj1 (Hkeep _ Hnf)) in E2; [| done].
    apply (proj2 (free_owns_nothing g s d H C2) (tabp (pte (ram s') d v)) v). by rewrite <- E2.
  - assert (Hu : g (tabp (pte (ram s) p v)) = User p v) by (apply (pi_user _ _ (proj2 H)); [done | lia | done]).
    rewrite P3. unfold page_of. rewrite Epv. rewrite C8 by congruence.
    by destruct (alloc_page g s _ (proj1 H) (alloc_valid g s _ _ (proj1 H) Hu ltac:(done))) as (pg & -> & _).
Qed.

Lemma copy_succeeds g s p sz d g1 s1 g' s' : vm_inv g s -> g p = Dir -> 0 <= sz <= KERNBASE ->
  (forall v, 0 <= v < npages sz -> present (pte (ram s) p v) = true) -> created d g s g1 s1 ->
  filled d 0 (npages sz) (page_of (ram s1) p) (flags_of (ram s1) p) g1 s1 g' s' ->
  copied g s p sz d g' s' /\ forall a, g a <> Free -> ram s' !! a = ram s !! a.
Proof.
  intros H Hp Hsz Hpages Hcr Hfi. pose proof (npages_range sz Hsz) as Hnp. pose proof (created_keep d g s g1 s1 H Hcr) as Hkeep.
  pose proof Hcr as [C1 C2 C3 C4 C5 C6 C7 C8]. pose proof Hfi as [F1 F2 F3 F4 F5].
  split; [split |].
  - done.
  - split; [done | by eapply filled_dir].
  - intros a. destruct (decide (a = d)) as [-> |]; [right; split; [done | by left] |]. destruct (C4 a) as [E1 | (E1 & i & Ei)]; [done | |].
    + rewrite <- E1. destruct (F2 a) as [? | (? & [? | (v & _ & ?)])]; [by left | right; split; [done |]; right; by left |].
      right. split; [done |]. right. right. by exists v.
    + right. split; [done |]. right. left. exists i. destruct (F2 a) as [-> | [? _]]; [done | congruence].
  - intros v Hv. exact (copied_pages g s p sz d g1 s1 g' s' v H Hp (proj2 Hnp) (Hpages v Hv) Hv Hcr Hfi).
  - intros v Hv. rewrite F4; [apply C6; lia | done | apply upages_lt; lia | right; lia].
  - intros r Hr. specialize (C5 r Hr). destruct kmap_regions as (_ & Hrok & _). rewrite Forall_forall in Hrok. specialize (Hrok r Hr).
    destruct r as [[[v0 n0] pa0] perm0]. intros k Hk. unfold region_ok in Hrok. rewrite F4; [by apply C5 | done | rewrite UPAGES_eq in *; lia | right; lia].
  - intros a Ha. rewrite F5 by (by apply Hkeep). by apply C8.
Qed.

Lemma copy_fails g s d g1 s1 s' : vm_inv g s -> created d g s g1 s1 -> abandoned d g1 s1 s' ->
  vm_inv g s' /\ forall a, g a <> Free -> ram s' !! a = ram s !! a.
Proof.
  intros H Hcr (g2 & G1 & G2 & G3). pose proof (created_keep d g s g1 s1 H Hcr) as Hkeep. pose proof Hcr as [C1 C2 C3 C4 C5 C6 C7 C8].
  destruct (free_owns_nothing g s d H C2) as [N1 N2]. assert (Hrel : forall a, released d g2 a = g a).
  { apply released_fresh; [done | done | done |]. intros a Ha. destruct (G1 a) as [E1 | (E1 & Hx)].
    - rewrite E1. destruct (C4 a Ha) as [? | (? & Hx)]; [by left | right; split; [done | by left]].
    - right. split; [| done]. destruct (C4 a Ha) as [E2 | (E2 & _)]; [by rewrite <- E2 | done]. }
  split; [eapply vm_inv_ext; [exact G2 |]; intros a; by rewrite Hrel |].
  intros a Ha. destruct (Hkeep a Ha) as [Ea Hu]. rewrite G3; [by apply C8 | done | by rewrite Hrel, Ea].
Qed.

Lemma copyuvm_ok (g : ghost) (s : kmem_t) (p sz : Z) : vm_inv g s -> g p = Dir -> 0 <= sz <= KERNBASE ->
  (forall v, 0 <= v < npages sz -> present (pte (ram s) p v) = true) ->
  exists r s', copyuvm p sz s = Ret r s' /\ (forall a, g a <> Free -> ram s' !! a = ram s !! a) /\
    match r with None => vm_inv g s' | Some d => exists g', copied g s p sz d g' s' end.
Proof.
  intros H Hp Hsz Hpages. unfold copyuvm. pose proof (npages_range sz Hsz) as Hnp.
  destruct (setupkvm_ok g s H) as [(s' & E & Hi & _ & Hram) | (d & g1 & s1 & E & Hcr)]; rewrite (bind_ret _ _ _ _ _ E); cbv beta iota.
  { exists None, s'. done. }
  pose proof (created_keep d g s g1 s1 H Hcr) as Hkeep. pose proof Hcr as [C1 C2 C3 C4 C5 C6 C7 C8]. assert (Hpd : p <> d) by congruence.
  destruct (copy_loop_ok (S (Z.to_nat (sz / PGSIZE + 1))) g1 s1 g1 s1 p d 0 sz C1) as (r & s' & E' & [(-> & g' & Hfi) | (-> & Hab)]);
    [destruct (Hkeep p) as [-> _]; congruence | done | done | done | lia | | by apply filled_nil | unfold npages, PGSIZE in *; dlia | |].
  - intros v Hv. rewrite C7, C6 by (try done; rewrite ?UPAGES_eq in *; lia). split; [by apply Hpages | done].
  - destruct (copy_succeeds g s p sz d g1 s1 g' s' H Hp Hsz Hpages Hcr Hfi) as [Hc Hram]. exists (Some d), s'. split; [exact E' |]. split; [done | by exists g'].
  - destruct (copy_fails g s d g1 s1 s' H Hcr Hab) as [Hi Hram]. by exists None, s'.
Qed.

(** Copying an address space, as fork does: [copyuvm] of a process of [sz]
    bytes whose pages are all mapped returns a new directory or nothing.
    Whatever was in use before, the parent's memory and page tables included,
    is unchanged.  On success the child has the parent's pages at the same
    addresses, with the same flags and contents and in frames that were free,
    no other user page, and the kernel's mappings.  On failure exactly the
    pages that were free before are free. *)
Theorem copyuvm_spec (g : ghost) (s : kmem_t) (p sz : Z) (H : vm_inv g s) (Hp : g p = Dir) (Hsz : 0 <= sz <= KERNBASE)
  (Hpages : forall v, 0 <= v < npages sz -> present (pte (ram s) p v) = true) :
  exists r s', copyuvm p sz s = Ret r s' /\ (forall a, g a <> Free -> ram s' !! a = ram s !! a) /\
    match r with None => vm_inv g s' | Some d => exists g', copied g s p sz d g' s' end.
Proof. by apply copyuvm_ok. Qed.

(** A process that is forked and gone again. *)
Definition copy_then_free (p sz : Z) : K unit := o ← copyuvm p sz; match o with Some d => freevm d | None => skip end.

(** No page is lost: an address space that was copied and is freed again
    leaves exactly the pages free that were free before, and every page that
    was in use with its contents. *)
Theorem copy_free_restores (g : ghost) (s : kmem_t) (p sz : Z) (H : vm_inv g s) (Hp : g p = Dir) (Hsz : 0 <= sz <= KERNBASE)
  (Hpages : forall v, 0 <= v < npages sz -> present (pte (ram s) p v) = true) :
  exists s', copy_then_free p sz s = Ret tt s' /\
    vm_inv g s' /\ forall a, g a <> Free -> ram s' !! a = ram s !! a.
Proof.
  unfold copy_then_free. destruct (copyuvm_ok g s p sz H Hp Hsz Hpages) as ([d |] & s1 & E & Hram & Hr); rewrite (bind_ret _ _ _ _ _ E); [| by exists s1].
  destruct Hr as [g1 [C1 [C2 C3] C4 _ _ _]]. destruct (freevm_ok g1 s1 d C1 C3) as (s' & E' & Hi & Hram').
  destruct (free_owns_nothing g s d H C2) as [N1 N2]. assert (Hrel : forall a, released d g1 a = g a).
  { apply released_fresh; [done | done | done |]. intros a Ha. destruct (C4 a) as [? | (? & [? | Hx])]; [by left | done | by right]. }
  exists s'. split; [exact E' |]. split; [eapply vm_inv_ext; [exact Hi |]; intros a; by rewrite Hrel |].
  intros a Ha. assert (E1 : g1 a = g a) by (destruct (C4 a) as [? | [? _]]; done). rewrite Hram'; [by apply Hram | by rewrite E1 | by rewrite Hrel].
Qed.

(** Writing to user memory: [copyout] of [len] bytes to addresses below
    [KERNBASE] whose pages are mapped for the user returns 0; afterwards a user
    program of that address space reads these bytes there, every other byte of
    it and every byte of every other address space is the same, and no mapping
    has changed. *)
Theorem copyout_spec (g : ghost) (s : kmem_t) (d va : Z) (buf : list Z) (H : vm_inv g s) (Hd : g d = Dir)
  (Hva : 0 <= va) (Hlim : va + Z.of_nat (length buf) <= KERNBASE)
  (Hpages : forall v, vpn va <= v < npages (va + Z.of_nat (length buf)) -> user_page (ram s) d v) :
  exists s', copyout d va buf (Z.of_nat (length buf)) s = Ret 0 s' /\ vm_inv g s' /\
    (forall d' x, g d' = Dir -> 0 <= x < KERNBASE -> ubyte (ram s') d' x =
      if decide (d' = d /\ va <= x < va + Z.of_nat (length buf)) then buf !! Z.to_nat (x - va) else ubyte (ram s) d' x) /\
    (forall d' v, g d' = Dir -> 0 <= v < 2 ^ 20 -> pte (ram s') d' v = pte (ram s) d' v).
Proof.
  destruct (copyout_ok g s d va buf H Hd Hva Hlim) as (r & s' & E & [K1 K2 K3 K4 K5]).
  { intros v Hv. destruct (Hpages v Hv) as [Hpr _]. destruct (present (pde (ram s) d (v / 1024))) eqn:E; [done |]. apply pte_no_table in E. by rewrite E in Hpr. }
  destruct K2 as [(-> & _ & K2) | (_ & v & Hv & K2)]; [by exists s' |]. by destruct K2; apply Hpages.
Qed.
End theorems.

(** ** A memory of four pages: a directory, its table, a user page, a free page *)
Definition top : Z := KERNBASE + PHYSTOP.
#[local] Instance tiny_image : Image.
Proof. refine {| end_ := top - 4 * PGSIZE; data_ := KERNLINK + PGSIZE |}; [done | split; [split; done | done]]. Defined.

Definition t_dir : Z := top - 4 * PGSIZE.
Definition t_tab : Z := top - 3 * PGSIZE.
Definition t_page : Z := top - 2 * PGSIZE.
Definition t_free : Z := top - PGSIZE.
Definition t_entry (a : Z) : Z := Z.lor (Z.lor (V2P a) 6) PTE_P.
Definition tiny : kmem_t := mk_kmem
  (<[t_dir := wrw 0 (t_entry t_tab) zero_page]> (<[t_tab := wrw 0 (t_entry t_page) zero_page]>
    (<[t_page := zero_page]> (<[t_free := zero_page]> ∅)))) t_free true false.
Definition t_own : ghost := fun a =>
  if decide (a = t_dir) then Dir else if decide (a = t_tab) then Tab t_dir 0 else
  if decide (a = t_page) then User t_dir 0 else if decide (a = t_free) then Free else Held.

Lemma t_valid a : valid a <-> a = t_dir \/ a = t_tab \/ a = t_page \/ a = t_free.
Proof.
  unfold valid, t_dir, t_tab, t_page, t_free, top. cbn [end_ tiny_image]. unfold top, KERNBASE, PHYSTOP, PGSIZE. split.
  - intros [Ha Hr]. dlia.
  - intros [-> | [-> | [-> | ->]]]; (split; [done | lia]).
Qed.
Lemma t_own_cases a : (t_own a = Dir /\ a = t_dir) \/ (t_own a = Tab t_dir 0 /\ a = t_tab) \/ (t_own a = User t_dir 0 /\ a = t_page) \/
  (t_own a = Free /\ a = t_free) \/ t_own a = Held.
Proof. unfold t_own. repeat (case_decide; [tauto |]). tauto. Qed.

Lemma t_length : length zero_page = Z.to_nat PGSIZE.
Proof. apply length_replicate. Qed.
Lemma t_wlength w : length (wrw 0 w zero_page) = Z.to_nat PGSIZE.
Proof. rewrite length_wrw; rewrite ?t_length; unfold PGSIZE; lia. Qed.
Lemma t_word w i : is_u32 w -> 0 <= i -> rdw (wrw 0 w zero_page) i = if decide (i = 0) then w else 0.
Proof.
  intros Hw Hi. destruct (decide (i = 0)) as [-> |].
  - apply rdw_wrw; [lia | rewrite t_length; unfold PGSIZE; lia | done].
  - rewrite rdw_wrw_ne; [apply rdw_zero | lia | lia | done | rewrite t_length; unfold PGSIZE; lia].
Qed.
Lemma t_ram a : ram tiny !! a =
  if decide (a = t_dir) then Some (wrw 0 (t_entry t_tab) zero_page) else if decide (a = t_tab) then Some (wrw 0 (t_entry t_page) zero_page) else
  if decide (a = t_page) then Some zero_page else if decide (a = t_free) then Some zero_page else None.
Proof.
  unfold tiny, ram. repeat (case_decide; [subst; rewrite ?lookup_insert_ne by done; apply lookup_insert_eq |]).
  rewrite !lookup_insert_ne by done. apply lookup_empty.
Qed.
Lemma t_pde i : 0 <= i -> pde (ram tiny) t_dir i = if decide (i = 0) then t_entry t_tab else 0.
Proof. intros Hi. unfold pde, word. rewrite t_ram, decide_True by done. apply t_word; [by vm_compute | done]. Qed.
Lemma t_pte v : 0 <= v -> pte (ram tiny) t_dir v = if decide (v = 0) then t_entry t_page else 0.
Proof.
  intros Hv. assert (0 <= v / 1024) by dlia. unfold pte. rewrite t_pde by done. destruct (decide (v / 1024 = 0)) as [E |].
  - change (present (t_entry t_tab)) with true. cbv iota. change (tabp (t_entry t_tab)) with t_tab. unfold word. rewrite t_ram.
    rewrite decide_False, decide_True by done. rewrite t_word; [| by vm_compute | apply Z.mod_pos_bound; lia].
    destruct (decide (v mod 1024 = 0)), (decide (v = 0)); try done; dlia.
  - rewrite decide_False; [done |]. intros ->. done.
Qed.

Lemma tiny_inv : vm_inv t_own tiny.
Proof.
  split.
  - split.
    + intros a Ha. apply t_valid. destruct (t_own_cases a) as [[_ ?] | [[_ ?] | [[_ ?] | [[_ ?] | ?]]]]; tauto.
    + exists [t_free]. split; [split |].
      * done.
      * intros a Ha%t_valid. rewrite t_ram. destruct Ha as [-> | [-> | [-> | ->]]]; eexists; (split; [reflexivity |]); first [apply t_wlength | apply t_length].
      * apply Forall_cons. split; [apply t_valid; tauto | by apply Forall_nil].
      * apply NoDup_singleton.
      * cbn [chain]. split; [done |]. unfold word. rewrite t_ram. apply rdw_zero.
      * intros a. rewrite list_elem_of_singleton. split; [intros ->; done |]. destruct (t_own_cases a) as [[E ?] | [[E ?] | [[E ?] | [[E ?] | E]]]]; rewrite E; done.
  - assert (Hdir : forall d, t_own d = Dir -> d = t_dir) by (intros d Hd; destruct (t_own_cases d) as [[E ?] | [[E ?] | [[E ?] | [[E ?] | E]]]]; rewrite E in Hd; done).
    split.
    + intros d i ->%Hdir Hi. rewrite t_pde by lia. destruct (decide (i = 0)) as [-> |]; done.
    + intros a d i Ha. destruct (t_own_cases a) as [[E ?] | [[E Ea] | [[E ?] | [[E ?] | E]]]]; rewrite E in Ha; try done.
      injection Ha as <- <-. split; [done |]. split; [lia |]. rewrite t_pde by lia. rewrite Ea. done.
    + intros d v ->%Hdir Hv. rewrite t_pte by lia. destruct (decide (v = 0)) as [-> |]; done.
    + intros a d v Ha. destruct (t_own_cases a) as [[E ?] | [[E ?] | [[E Ea] | [[E ?] | E]]]]; rewrite E in Ha; try done.
      injection Ha as <- <-. split; [done |]. split; [done |]. rewrite t_pte by lia. rewrite Ea. done.
Qed.

Lemma tiny_page v : 0 <= v < npages PGSIZE -> user_page (ram tiny) t_dir v.
Proof. intros Hv. change (npages PGSIZE) with 1 in Hv. assert (v = 0) as -> by lia. unfold user_page. rewrite t_pte by lia. done. Qed.

Lemma allocuvm_spec_witness : exists r g' s', allocuvm t_dir PGSIZE (2 * PGSIZE) tiny = Ret r s' /\
  ((r = 2 * PGSIZE /\ filled t_dir 1 2 (fun _ => zero_page) (fun _ => Z.lor PTE_W PTE_U) t_own tiny g' s') \/ (r = 0 /\ undone t_dir 1 2 t_own tiny g' s')).
Proof.
  refine (allocuvm_spec t_own tiny t_dir PGSIZE (2 * PGSIZE) tiny_inv eq_refl _ _).
  - unfold PGSIZE, KERNBASE. lia.
  - intros v Hv. change (npages PGSIZE) with 1 in Hv. rewrite t_pte, decide_False by lia. reflexivity.
Defined.

Lemma copyuvm_spec_witness : exists r s', copyuvm t_dir PGSIZE tiny = Ret r s' /\ (forall a, t_own a <> Free -> ram s' !! a = ram tiny !! a) /\
  match r with None => vm_inv t_own s' | Some d => exists g', copied t_own tiny t_dir PGSIZE d g' s' end.
Proof.
  refine (copyuvm_spec t_own tiny t_dir PGSIZE tiny_inv eq_refl _ _).
  - unfold PGSIZE, KERNBASE. lia.
  - intros v Hv. apply (tiny_page v Hv).
Defined.

Lemma copy_free_restores_witness : exists s', copy_then_free t_dir PGSIZE tiny = Ret tt s' /\
  vm_inv t_own s' /\ forall a, t_own a <> Free -> ram s' !! a = ram tiny !! a.
Proof.
  refine (copy_free_restores t_own tiny t_dir PGSIZE tiny_inv eq_refl _ _).
  - unfold PGSIZE, KERNBASE. lia.
  - intros v Hv. apply (tiny_page v Hv).
Defined.

Lemma copyout_spec_witness : exists s', copyout t_dir 4000 [104; 105] 2 tiny = Ret 0 s' /\ ubyte (ram s') t_dir 4001 = Some 105.
Proof.
  destruct (copyout_spec t_own tiny t_dir 4000 [104; 105] tiny_inv eq_refl) as (s' & E & _ & Hb & _).
  - lia.
  - vm_compute. discriminate.
  - intros v Hv. apply tiny_page. exact Hv.
  - exists s'. split; [exact E |]. rewrite Hb; [reflexivity | reflexivity | unfold KERNBASE; lia].
Defined.
