(* ===== verification/ProcVm.v ===== *)
(** * ProcVm: processes over the real memory layer

    The process code of Proc.v reaches memory through the interface
    [KernelEnv].  Here the interface is implemented by kalloc.c and vm.c
    (Kalloc.v, Vm.v); the calls of the file layer stay abstract.  The theorems
    say what fork and wait do to physical memory. *)

From Stdlib Require Import ZArith Lia.
From stdpp Require Import base numbers strings option list gmap.
From S2P Require Import Prelude KString Kernel Kalloc Vm VmSpec VmOps Proc ProcSpec Sched Xv6Proc.

(** What is left of the interface: the calls of the file layer, and the bytes of
    the program initcode, which the linker puts into the kernel. *)
Class FileEnv (F : Type) := {
  fe_filedup : Z -> M F Z;
  fe_fileclose : Z -> M F unit;
  fe_idup : Z -> M F Z;
  fe_iput : Z -> M F unit;
  fe_begin_op : M F unit;
  fe_end_op : M F unit;
  fe_namei_root : M F (option Z);
  initcode_bytes : list Z
}.

#[export] Instance vm_env {I : Image} {F : Type} {E : FileEnv F} : KernelEnv (kmem_t * F) := {
  kalloc := on_mem Kalloc.kalloc;
  kfree a := on_mem (Kalloc.kfree a);
  setupkvm := on_mem Vm.setupkvm;
  inituvm d := on_mem (Vm.inituvm d initcode_bytes (Z.of_nat (length initcode_bytes)));
  copyuvm d n := on_mem (Vm.copyuvm d n);
  freevm d := on_mem (Vm.freevm d);
  allocuvm d o n := on_mem (Vm.allocuvm d o n);
  deallocuvm d o n := on_mem (Vm.deallocuvm d o n);
  filedup f := on_files (fe_filedup f);
  fileclose f := on_files (fe_fileclose f);
  idup i := on_files (fe_idup i);
  iput i := on_files (fe_iput i);
  begin_op := on_files fe_begin_op;
  end_op := on_files fe_end_op;
  namei_root := on_files fe_namei_root
}.

Section fork.
Context {I : Image} {F : Type} {E : FileEnv F}.
Implicit Types s : kstate (kmem_t * F).

Definition mem s : kmem_t := fst (ext s).

Lemma lift_mem_inv {A : Type} (m : M kmem_t A) s a s' : lift (on_mem m) s = Ret a s' ->
  m (mem s) = Ret a (mem s') /\ ptable s' = ptable s /\ cpu s' = cpu s /\ nextpid s' = nextpid s.
Proof. unfold lift, on_mem, mem. destruct (ext s) as [x f]. cbn. destruct (m x); try done. intros [= <- <-]. done. Qed.
Lemma lift_files_inv {A : Type} (m : M F A) s a s' : lift (on_files m) s = Ret a s' -> mem s' = mem s /\ ptable s' = ptable s.
Proof. unfold lift, on_files, mem. destruct (ext s) as [x f]. cbn. destruct (m f); try done. intros [= <- <-]. done. Qed.

(** The fields of an entry that say where its memory is. *)
Definition place (p : proc) : option Z * option Z * Z * Z := (kstack p, pgdir p, sz p, pid p).
(** Memory, and the place of entry [k], are the same. *)
Definition keeps (k : nat) s s' : Prop :=
  mem s' = mem s /\ forall q, ptable s !! k = Some q -> exists q', ptable s' !! k = Some q' /\ place q' = place q.
Lemma keeps_refl k s : keeps k s s.
Proof using. split; eauto. Qed.
Lemma keeps_trans k s1 s2 s3 : keeps k s1 s2 -> keeps k s2 s3 -> keeps k s1 s3.
Proof using.
  intros [M1 H1] [M2 H2]. split; [congruence |]. intros q Hq. destruct (H1 q Hq) as (q1 & Hq1 & E1). destruct (H2 q1 Hq1) as (q2 & Hq2 & E2).
  exists q2. split; [done | congruence].
Qed.
Lemma keeps_upd k f s u s' : (forall q, place (f q) = place q) -> upd_proc k f s = Ret u s' -> keeps k s s'.
Proof using.
  intros Hf (q & Hq & ->)%upd_proc_inv. split; [done |]. intros q0 Hq0. cbn. rewrite Hq in Hq0. injection Hq0 as <-.
  exists (f q). split; [| done]. apply list_lookup_insert_eq. by eapply lookup_lt_Some.
Qed.
Lemma keeps_same k s s' : same_table s s' -> keeps k s s'.
Proof using. intros (T & _ & _ & _ & X & _). split; [unfold mem; by rewrite X |]. rewrite T. eauto. Qed.
Lemma keeps_files {A : Type} k (m : M F A) s a s' : lift (on_files m) s = Ret a s' -> keeps k s s'.
Proof using. intros [M1 T]%lift_files_inv. split; [done |]. rewrite T. eauto. Qed.

Lemma dup_files_keeps i k fd fs s u s' : dup_files i k fd fs s = Ret u s' -> keeps k s s'.
Proof using.
  revert fd s. induction fs as [| [f |] fs IH]; intros fd s; cbn [dup_files]; [intros [= _ <-]; apply keeps_refl | | apply IH].
  intros (f' & s1 & E1 & (u2 & s2 & E2 & E3)%bind_inv)%bind_inv. eapply keeps_trans; [exact (keeps_files k (fe_filedup f) s f' s1 E1) |].
  eapply keeps_trans; [eapply keeps_upd; [| exact E2]; done | by eapply IH].
Qed.

(** [alloc_slot] leaves the memory alone, [allocproc] takes a kernel stack. *)
Lemma alloc_slot_mem s o s' : alloc_slot s = Ret o s' -> mem s' = mem s /\
  match o with
  | None => True
  | Some k => exists q p0, ptable s !! k = Some p0 /\ state p0 = UNUSED /\ ptable s' = <[k := q]> (ptable s)
  end.
Proof using.
  unfold alloc_slot. intros (u & s1 & E1 & H)%bind_inv. pose proof (acquire_inv _ _ _ _ E1) as (T1 & _ & _ & _ & X1 & _).
  assert (M1 : mem s1 = mem s) by (unfold mem; by rewrite X1). erewrite bind_ret in H by done. rewrite T1 in H.
  destruct (find_index _ (ptable s)) as [k |] eqn:Ef.
  2: { apply bind_inv in H as (u2 & s2 & E2 & [= <- <-]). pose proof (release_inv _ _ _ _ E2) as (_ & _ & _ & _ & X2 & _).
       split; [| done]. unfold mem in *. by rewrite X2. }
  apply find_index_Some in Ef as [(p0 & Hp0 & Hst) _]. apply bool_decide_eq_true in Hst.
  erewrite bind_ret in H by done. apply bind_inv in H as (u2 & s2 & E2 & H). unfold assertb in E2. destruct (nextpid s1 <? 2 ^ 31 - 1); [| done]. injection E2 as _ <-.
  apply bind_inv in H as (u3 & s3 & (q1 & Hq1 & ->)%upd_proc_inv & H). erewrite bind_ret in H by done.
  apply bind_inv in H as (u4 & s4 & E4 & H). pose proof (release_inv _ _ _ _ E4) as (T4 & _ & _ & _ & X4 & _). cbn in T4, X4.
  injection H as <- <-. split; [unfold mem in *; by rewrite X4 |]. eexists _, p0. split; [done |]. split; [done |]. rewrite T4, T1. done.
Qed.
Lemma allocproc_mem s o s' : allocproc s = Ret o s' ->
  match o with
  | None => mem s' = mem s \/ Kalloc.kalloc (mem s) = Ret None (mem s')
  | Some k => exists ks q p0, Kalloc.kalloc (mem s) = Ret (Some ks) (mem s') /\ ptable s !! k = Some p0 /\ state p0 = UNUSED /\
      ptable s' = <[k := q]> (ptable s) /\ kstack q = Some ks
  end.
Proof using.
  unfold allocproc. intros (o1 & s4 & E4 & H)%bind_inv. destruct (alloc_slot_mem _ _ _ E4) as [M4 Ho].
  destruct o1 as [k |]; [| injection H as <- <-; by left]. destruct Ho as (q & p0 & Hp0 & Hst & T4). pose proof (lookup_lt_Some _ _ _ Hp0) as Hlt.
  apply bind_inv in H as (ks & s5 & E5 & H). change (lift kalloc s4) with (lift (on_mem Kalloc.kalloc) s4) in E5.
  apply lift_mem_inv in E5 as (E5 & T5 & _). rewrite M4 in E5. apply bind_inv in H as (u6 & s6 & (q6 & Hq6 & ->)%upd_proc_inv & H).
  rewrite T5, T4, list_lookup_insert_eq in Hq6 by done. injection Hq6 as <-. destruct ks as [ks |].
  - apply bind_inv in H as (u7 & s7 & (q7 & Hq7 & ->)%upd_proc_inv & [= <- <-]). cbn [ptable with_ptable] in *.
    rewrite T5, T4 in *. rewrite list_insert_insert_eq in *. rewrite list_lookup_insert_eq in Hq7 by done. injection Hq7 as <-.
    eexists ks, _, p0. split; [exact E5 |]. split; [done |]. split; [done |]. split; [by rewrite list_insert_insert_eq | done].
  - apply bind_inv in H as (u7 & s7 & (q7 & Hq7 & ->)%upd_proc_inv & [= <- <-]). right. exact E5.
Qed.

(** The part of [fork] after the memory is copied. *)
Lemma fork_tail_keeps i k p s r s' :
  (upd_proc k (fun q => set_parent (Some i) (set_sz (sz p) q));;
   upd_proc k (set_tf (mk_tf 0 (tf_eip (tf p)) (tf_esp (tf p)) (tf_eflags (tf p)) (tf_cs (tf p)) (tf_ds (tf p)) (tf_es (tf p)) (tf_ss (tf p))));;
   dup_files i k 0 (ofile p);;
   c ← from_option "null inode" (cwd p);
   c' ← lift (idup c);
   upd_proc k (set_cwd (Some c'));;
   upd_proc k (fun q => set_name (copy_name (name q) (cstr (name p))) q);;
   q ← get_proc k;
   acquire ptable_lock;;
   upd_proc k (fun q => set_priority (prio p) (set_state RUNNABLE q));;
   release ptable_lock;;
   mret (pid q)) s = Ret r s' ->
  forall q0, ptable s !! k = Some q0 -> mem s' = mem s /\
    exists q, ptable s' !! k = Some q /\ pid q = r /\ kstack q = kstack q0 /\ pgdir q = pgdir q0 /\ sz q = sz p.
Proof using.
  intros (u1 & s1 & (q1 & Hq1 & ->)%upd_proc_inv & H)%bind_inv q0 Hq0. rewrite Hq1 in Hq0. injection Hq0 as ->.
  set (s1 := with_ptable _ s) in H. assert (Hs1 : ptable s1 !! k = Some (set_parent (Some i) (set_sz (sz p) q0)))
    by (apply list_lookup_insert_eq; by eapply lookup_lt_Some).
  apply bind_inv in H as (u2 & s2 & E2 & H). apply bind_inv in H as (u3 & s3 & E3 & H).
  apply bind_inv in H as (c & s3' & Ec & H). destruct (cwd p); [| done]. injection Ec as <- <-.
  apply bind_inv in H as (c' & s4 & E4 & H). apply bind_inv in H as (u5 & s5 & E5 & H). apply bind_inv in H as (u6 & s6 & E6 & H).
  apply bind_inv in H as (q & s6' & [-> Hq]%get_proc_inv & H). apply bind_inv in H as (u7 & s7 & E7 & H). apply bind_inv in H as (u8 & s8 & E8 & H).
  apply bind_inv in H as (u9 & s9 & E9 & [= <- <-]).
  assert (K6 : keeps k s1 s6).
  { eapply keeps_trans; [eapply keeps_upd; [| exact E2]; done |]. eapply keeps_trans; [by eapply dup_files_keeps |].
    eapply keeps_trans; [exact (keeps_files k (fe_idup z) _ _ _ E4) |]. eapply keeps_trans; eapply keeps_upd; [| exact E5 | | exact E6]; done. }
  assert (K9 : keeps k s6 s9).
  { eapply keeps_trans; [apply keeps_same; by eapply acquire_inv |]. eapply keeps_trans; [eapply keeps_upd; [| exact E8]; done |].
    apply keeps_same. by eapply release_inv. }
  destruct K6 as [M6 K6], K9 as [M9 K9]. split; [rewrite M9, M6; done |]. destruct (K6 _ Hs1) as (q6 & Hq6 & P6). rewrite Hq in Hq6. injection Hq6 as <-.
  destruct (K9 _ Hq) as (q9 & Hq9 & P9). exists q9. split; [done |]. unfold place in *. cbn in P6. injection P9 as -> -> -> ->. injection P6 as -> -> -> Hpid. done.
Qed.

(** The memory after [fork] from a process whose directory is [d]. *)
Definition forked (g : ghost) s (p : proc) (d r : Z) (g' : ghost) s' : Prop :=
  vm_inv g' (mem s') /\ (forall a, g a <> Free -> g' a = g a /\ ram (mem s') !! a = ram (mem s) !! a) /\
  ((r = -1 /\ forall a, g' a = g a) \/
   exists k q ks d', ptable s' !! k = Some q /\ pid q = r /\ sz q = sz p /\ kstack q = Some ks /\ g ks = Free /\ g' ks = Held /\
     pgdir q = Some d' /\ g d' = Free /\ g' d' = Dir /\
     (forall v, 0 <= v < npages (sz p) ->
        let w := pte (ram (mem s)) d v in let w' := pte (ram (mem s')) d' v in
        present w' = true /\ PTE_FLAGS w' = PTE_FLAGS w /\ g (tabp w') = Free /\ ram (mem s') !! tabp w' = ram (mem s) !! tabp w) /\
     (forall v, npages (sz p) <= v < UPAGES -> pte (ram (mem s')) d' v = 0)).

Lemma fork_mem g s i p d r s' : c_proc (cpu s) = Some i -> ptable s !! i = Some p -> state p <> UNUSED -> pgdir p = Some d ->
  vm_inv g (mem s) -> g d = Dir -> 0 <= sz p <= KERNBASE -> (forall v, 0 <= v < npages (sz p) -> present (pte (ram (mem s)) d v) = true) ->
  fork s = Ret r s' -> exists g', forked g s p d r g' s'.
Proof using.
  intros Hc Hp Hst Hd H Hdir Hsz Hpg Ef. unfold fork in Ef. apply bind_inv in Ef as (i0 & s0 & E0 & Ef).
  apply curproc_inv in E0 as [(T0 & _ & _ & _ & X0 & _) Hc0]. rewrite Hc in Hc0. injection Hc0 as <-.
  assert (M0 : mem s0 = mem s) by (unfold mem; by rewrite X0). apply bind_inv in Ef as (o & s1 & E1 & Ef). pose proof (allocproc_mem _ _ _ E1) as Ho.
  rewrite M0 in Ho. destruct o as [k |].
  2: { injection Ef as <- <-. assert (Em : mem s1 = mem s).
       { destruct Ho as [? | Ek]; [done |]. destruct (kalloc_vm g _ H) as [[Ea _] | (a & x & Ea & _)]; rewrite Ea in Ek; by injection Ek. }
       exists g. split; [by rewrite Em |]. split; [by rewrite Em | by left]. }
  destruct Ho as (ks & q & p0 & Ek & Hp0 & Hun & T1 & Hks). rewrite T0 in *. assert (Hik : i <> k) by (intros ->; congruence).
  destruct (kalloc_vm g _ H) as [[E' _] | (a & x & E' & Hfree & Hv & Hinv)]; rewrite E' in Ek; [done |]. injection Ek as -> Em1. rewrite Em1 in Hinv.
  assert (Hram1 : ram (mem s1) = ram (mem s)) by by rewrite <- Em1. set (g1 := own_set ks Held g) in *.
  assert (Hk1 : forall a, g a <> Free -> g1 a = g a) by (intros a Ha; apply own_set_ne; congruence).
  erewrite bind_ret in Ef by (apply get_proc_eq; rewrite T1, list_lookup_insert_ne; done). rewrite Hd in Ef. erewrite bind_ret in Ef by done.
  apply bind_inv in Ef as (pg & s2 & E2 & Ef). change (lift (copyuvm d (sz p)) s1) with (lift (on_mem (Vm.copyuvm d (sz p))) s1) in E2.
  apply lift_mem_inv in E2 as (E2 & T2 & _). destruct (copyuvm_ok g1 (mem s1) d (sz p) Hinv) as (pg' & m2 & Ec & Hram & Hres);
    [rewrite Hk1; congruence | done | by rewrite Hram1 |]. rewrite Ec in E2. injection E2 as -> ->.
  assert (Hram2 : forall a, g a <> Free -> ram (mem s2) !! a = ram (mem s) !! a) by (intros a Ha; rewrite Hram by (rewrite Hk1; done); by rewrite Hram1).
  apply bind_inv in Ef as (u3 & s3 & (q3 & Hq3 & ->)%upd_proc_inv & Ef). rewrite T2, T1 in Hq3.
  rewrite list_lookup_insert_eq in Hq3 by (by eapply lookup_lt_Some). injection Hq3 as <-.
  set (s3 := with_ptable _ s2) in Ef. assert (Hq3 : ptable s3 !! k = Some (set_pgdir pg q)).
  { apply list_lookup_insert_eq. rewrite T2, T1, length_insert. by eapply lookup_lt_Some. }
  destruct pg as [d' |].
  - destruct Hres as (g2 & [C1 [C2 C3] C4 C5 C6 _]). destruct (fork_tail_keeps i k p s3 r s' Ef _ Hq3) as (M3 & q' & Hq' & Q1 & Q2 & Q3 & Q4).
    exists g2. unfold forked. rewrite M3. change (mem s3) with (mem s2). split; [done |].
    assert (Hold : forall a, g1 a <> Free -> g2 a = g1 a) by (intros a Ha; destruct (C4 a) as [? | [? _]]; done).
    assert (Hfr : forall a, g1 a = Free -> g a = Free) by (intros a; unfold g1, own_set; by destruct (decide (a = ks))).
    split; [intros a Ha; split; [rewrite Hold by (rewrite Hk1; done); by apply Hk1 | by apply Hram2] |]. right. exists k, q', ks, d'.
    split; [done |]. split; [done |]. split; [done |]. split; [by rewrite Q2 |]. split; [done |].
    split; [rewrite Hold; unfold g1; by rewrite own_set_eq |]. split; [by rewrite Q3 |]. split; [by apply Hfr |]. split; [done |].
    split; [| done]. intros v Hv'. destruct (C5 v Hv') as (P1 & P2 & P3 & P4). rewrite Hram1 in *. split; [done |]. split; [done |]. split; [by apply Hfr | done].
  - erewrite bind_ret in Ef by (apply get_proc_eq; exact Hq3). cbn [set_pgdir kstack] in Ef. rewrite Hks in Ef. erewrite bind_ret in Ef by done.
    apply bind_inv in Ef as (u4 & s4 & E4 & Ef). change (lift (kfree ks) s3) with (lift (on_mem (Kalloc.kfree ks)) s3) in E4.
    apply lift_mem_inv in E4 as (E4 & T4 & _). change (mem s3) with (mem s2) in E4.
    destruct (kfree_vm g1 (mem s2) ks Hres Hv) as (m4 & Ek4 & Hinv4 & Hram4); [apply own_set_eq |]. rewrite Ek4 in E4. injection E4 as _ Em4. rewrite Em4 in Hinv4, Hram4.
    apply bind_inv in Ef as (u5 & s5 & (q5 & _ & ->)%upd_proc_inv & [= <- <-]). exists g. split.
    + eapply vm_inv_ext; [exact Hinv4 |]. intros a. unfold g1, own_set. destruct (decide (a = ks)) as [-> |]; done.
    + split; [| by left]. intros a Ha. split; [done |]. change (mem (with_ptable _ s4)) with (mem s4). rewrite Hram4 by congruence. by apply Hram2.
Qed.
End fork.

Section theorems.
Context {I : Image} {F : Type} {E : FileEnv F}.
Implicit Types s : kstate (kmem_t * F).

(** C31. Fork over the memory layer: when [fork] returns to a process with its
    own directory and all its pages mapped, no page that was in use has changed
    or changed hands.  Either it returned -1 and the same pages are free as
    before, or there is an entry of the table with the returned identifier, a
    kernel stack and a directory that were free pages, and at each page of the
    parent's memory the same flags and contents in a frame that was free, and
    no other user page. *)
Theorem fork_copies_memory (g : ghost) s (i : nat) (p : proc) (d r : Z) s'
  (Hc : c_proc (cpu s) = Some i) (Hp : ptable s !! i = Some p) (Hst : state p <> UNUSED) (Hd : pgdir p = Some d)
  (Hinv : vm_inv g (mem s)) (Hdir : g d = Dir) (Hsz : 0 <= sz p <= KERNBASE)
  (Hpages : forall v, 0 <= v < npages (sz p) -> present (pte (ram (mem s)) d v) = true) (Hf : fork s = Ret r s') :
  exists g', forked g s p d r g' s'.
Proof. by apply (fork_mem g s i p d r s'). Qed.

(** The kernel stack and the directory of the child that is reaped. *)
Record reapable (g : ghost) s (i k : nat) (q : proc) (ks d : Z) : Prop := {
  rp_find : find_index (zombie_child i) (ptable s) = Some k;
  rp_entry : ptable s !! k = Some q;
  rp_stack : kstack q = Some ks /\ valid ks /\ g ks = Held;
  rp_dir : pgdir q = Some d /\ g d = Dir
}.

Lemma reap_memory g s i k q ks d : reapable g s i k q ks d -> vm_inv g (mem s) ->
  exists m1 m2, Kalloc.kfree ks (mem s) = Ret tt m1 /\ Vm.freevm d m1 = Ret tt m2 /\ vm_inv (released d (own_set ks Free g)) m2 /\
    forall a, g a <> Free -> a <> ks -> released d g a = g a -> ram m2 !! a = ram (mem s) !! a.
Proof.
  intros [Hfi Hq (Hks & Hv & Hg) (Hd & Hdir)] H. destruct (kfree_vm g (mem s) ks H Hv Hg) as (m1 & E1 & Hi1 & Hr1).
  destruct (freevm_ok (own_set ks Free g) m1 d Hi1) as (m2 & E2 & Hi2 & Hr2); [apply own_set_keep; congruence |].
  exists m1, m2. split; [done |]. split; [done |]. split; [done |]. intros a Ha Hne Hrel. rewrite Hr2; [by apply Hr1 | by rewrite own_set_ne |].
  unfold released in *. by rewrite own_set_ne.
Qed.

(** C32. Wait over the memory layer: when the caller has a zombie child whose
    kernel stack is a page handed out and whose directory is its own, the
    memory layer does return from freeing them, and [wait] returns the child's
    identifier with exactly the kernel stack, the directory, the page tables
    and the user pages of the child free again and all other pages in use
    unchanged. *)
Theorem wait_frees_memory (g : ghost) s (i k : nat) (q : proc) (ks d : Z) (Hr : reapable g s i k q ks d) (Hinv : vm_inv g (mem s)) :
  frees i s /\
  forall r s', c_proc (cpu s) = Some i -> wait_ s = Ret r s' ->
    r = Some (pid q) /\ vm_inv (released d (own_set ks Free g)) (mem s') /\
    forall a, g a <> Free -> a <> ks -> released d g a = g a -> ram (mem s') !! a = ram (mem s) !! a.
Proof.
  destruct (reap_memory g s i k q ks d Hr Hinv) as (m1 & m2 & E1 & E2 & Hi & Hram). destruct Hr as [Hfi Hq (Hks & Hv & Hg) (Hd & Hdir)]. split.
  - intros k' q' ks' d' Hfi' Hq' Hks' Hd'. assert (k' = k) as -> by congruence. assert (q' = q) as -> by congruence. assert (ks' = ks) as -> by congruence.
    assert (d' = d) as -> by congruence. exists (m1, snd (ext s)), (m2, snd (ext s)). unfold kfree, freevm, vm_env, on_mem, mem in *. cbn [fst snd]. by rewrite E1, E2.
  - intros r s' Hc Hw. unfold wait_ in Hw. apply bind_inv in Hw as (i0 & s0 & E0 & Hw). apply curproc_inv in E0 as [S0 Hc0]. rewrite Hc in Hc0. injection Hc0 as <-.
    apply bind_inv in Hw as (u1 & s1 & E3 & Hw). apply acquire_inv in E3. assert (S1 : same_table s s1) by by eapply same_table_trans. clear S0 E3.
    destruct S1 as (T1 & _ & _ & _ & X1 & _). assert (M1 : mem s1 = mem s) by (unfold mem; by rewrite X1).
    unfold wait_loop in Hw. apply bind_inv in Hw as (r1 & s2 & Hs & Hw). unfold wait_scan in Hs. erewrite bind_ret in Hs by done. cbv zeta in Hs. rewrite T1 in Hs.
    change (find_index _ (ptable s)) with (find_index (zombie_child i) (ptable s)) in Hs. rewrite Hfi in Hs.
    erewrite bind_ret in Hs by (apply get_proc_eq; rewrite T1; exact Hq). rewrite Hks in Hs. erewrite bind_ret in Hs by done.
    apply bind_inv in Hs as (u3 & s3 & E3 & Hs). apply (lift_mem_inv (Kalloc.kfree ks)) in E3 as (E3 & T3 & _). rewrite M1, E1 in E3. injection E3 as _ Em1.
    rewrite Hd in Hs. erewrite bind_ret in Hs by done. apply bind_inv in Hs as (u4 & s4 & E4 & Hs).
    apply (lift_mem_inv (Vm.freevm d)) in E4 as (E4 & T4 & _). rewrite <- Em1, E2 in E4. injection E4 as _ Em2.
    apply bind_inv in Hs as (u5 & s5 & (q5 & _ & ->)%upd_proc_inv & Hs). apply bind_inv in Hs as (u6 & s6 & E6 & [= <- <-]).
    apply release_inv in E6 as (_ & _ & _ & _ & X6 & _). cbn in X6. injection Hw as <- <-.
    assert (M6 : mem s6 = m2) by (unfold mem in *; rewrite X6; done). rewrite M6. done.
Qed.

(** The memory and the entry of the caller after [growproc]. *)
Lemma lift_mem_eq {A : Type} (m : M kmem_t A) s a x : m (mem s) = Ret a x -> lift (on_mem m) s = Ret a (with_ext (x, snd (ext s)) s).
Proof using. unfold lift, on_mem, mem. by intros ->. Qed.
Lemma growproc_run s i p d v x n : cli_ok s -> c_proc (cpu s) = Some i -> ptable s !! i = Some p -> pgdir p = Some d ->
  (if n >? 0 then Vm.allocuvm d (sz p) (u32 (sz p + n)) else Vm.deallocuvm d (sz p) (u32 (sz p + n))) (mem s) = Ret v x -> n <> 0 ->
  growproc n s = if v =? 0 then Ret (-1) (with_ext (x, snd (ext s)) (touch s))
                 else Ret 0 (with_ptable (<[i := set_sz v p]> (ptable s)) (with_ext (x, snd (ext s)) (touch s))).
Proof using.
  intros Hcli Hc Hp Hd Hm Hn. unfold growproc. rewrite (bind_ret _ _ _ _ _ (curproc_eq s i Hcli Hc)). erewrite bind_ret by (apply get_proc_eq; exact Hp).
  rewrite Hd. erewrite bind_ret by done. destruct (Z.gtb_spec n 0); [| destruct (Z.ltb_spec n 0); [| lia]]; unfold allocuvm, deallocuvm, vm_env;
    (erewrite bind_ret by (apply lift_mem_eq; exact Hm)); destruct (v =? 0); try done; by erewrite bind_ret by (apply upd_proc_eq; exact Hp).
Qed.

(** The memory of every process is as it was: the same pages are mapped, with the
    same permissions and bytes.  A page that was free is still free, or has
    become a page table of [d]. *)
Record user_same (d : Z) (g : ghost) (m m' : kmem_t) (g' : ghost) : Prop := {
  us_mapped : forall d' v, g d' = Dir -> 0 <= v < UPAGES -> present (pte (ram m') d' v) = present (pte (ram m) d' v);
  us_page : forall d' v, g d' = Dir -> 0 <= v < UPAGES -> present (pte (ram m) d' v) = true ->
    pte (ram m') d' v = pte (ram m) d' v /\ ram m' !! tabp (pte (ram m) d' v) = ram m !! tabp (pte (ram m) d' v);
  us_own : forall a, g' a = g a \/ (g a = Free /\ exists i, g' a = Tab d i)
}.
Lemma undone_same d lo hi g m g' m' : vm_inv g m -> g d = Dir -> absent d lo UPAGES (ram m) -> hi <= UPAGES ->
  undone d lo hi g m g' m' -> user_same d g m m' g'.
Proof using.
  intros Hinv Hd Hab Hhi [U1 U2 U3 U4 U5].
  assert (Hu : forall v, 0 <= v < UPAGES -> 0 <= v < 2 ^ 20) by apply upages_lt.
  assert (Hin : forall d' v, g d' = Dir -> 0 <= v < UPAGES -> ~ (d' = d /\ lo <= v < hi) -> pte (ram m') d' v = pte (ram m) d' v).
  { intros d' v Hd' Hv Hn. apply U4; [done | by apply Hu |]. destruct (decide (d' = d)) as [-> | ?]; [right; tauto | by left]. }
  split; [| | done].
  - intros d' v Hd' Hv. destruct (decide (d' = d /\ lo <= v < hi)) as [[-> Hr] | Hn]; [| by rewrite Hin].
    rewrite U3, (Hab v) by (done || lia). done.
  - intros d' v Hd' Hv Hp. assert (Hn : ~ (d' = d /\ lo <= v < hi)) by (intros [-> Hr]; rewrite Hab in Hp; [done | lia]).
    split; [by apply Hin |]. apply U5. destruct Hinv as [_ Hpi]. pose proof (pi_user _ _ Hpi d' v Hd' Hv Hp) as Hg.
    unfold untouched. rewrite Hg. split_and!; [done | | done]. intros Ed. by rewrite Ed, Hd in Hg.
Qed.

(** The cases of [growproc]. *)
Inductive grown (g : ghost) s (i : nat) (p : proc) (d n : Z) : Z -> ghost -> kmem_t -> Z -> Prop :=
| grown_more g' m : 0 < n -> sz p + n < KERNBASE ->
    filled d (npages (sz p)) (npages (sz p + n)) (fun _ => zero_page) (fun _ => grow_perm) g (mem s) g' m -> grown g s i p d n 0 g' m (sz p + n)
| grown_full g' m f : 0 < n -> sz p + n < KERNBASE -> user_same d g (mem s) m g' ->
    drained d [f] (npages (sz p + n)) g -> grown g s i p d n (-1) g' m (sz p)
| grown_limit : 0 < n -> KERNBASE <= sz p + n -> grown g s i p d n (-1) g (mem s) (sz p)
| grown_less m : n < 0 -> 0 < sz p + n ->
    unmapped d (npages (sz p + n)) (npages (sz p)) g (mem s) m -> grown g s i p d n 0 (freed d (npages (sz p + n)) (npages (sz p)) g) m (sz p + n)
| grown_nothing m : n < 0 -> sz p + n = 0 -> unmapped d 0 (npages (sz p)) g (mem s) m -> grown g s i p d n (-1) (freed d 0 (npages (sz p)) g) m (sz p)
| grown_below : n < 0 -> sz p + n < 0 -> grown g s i p d n 0 g (mem s) (sz p)
| grown_same : n = 0 -> grown g s i p d n 0 g (mem s) (sz p).

(** C34. Growing and shrinking a process ([sbrk]): [growproc] adds zeroed pages up
    to the new size and frees the pages above a smaller size.  When the size would
    reach [KERNBASE] it returns -1 and changes nothing.  When memory runs out - the
    free pages would not have held the growth - it returns -1 with the size, the
    mapped pages, their permissions and their bytes of every process as they
    were; page tables it allocated on the way stay with the process.  Two cases
    are not what they seem: shrinking below zero reports success and does
    nothing, and shrinking to exactly zero frees every page of the process but
    returns -1 and leaves its size. *)
Theorem growproc_spec (g : ghost) s (i : nat) (p : proc) (d n : Z) (Hcli : cli_ok s) (Hc : c_proc (cpu s) = Some i)
  (Hp : ptable s !! i = Some p) (Hd : pgdir p = Some d) (Hinv : vm_inv g (mem s)) (Hdir : g d = Dir) (Hn : is_s32 n)
  (Hsz : 0 < sz p <= KERNBASE) (Hab : absent d (npages (sz p)) UPAGES (ram (mem s))) :
  exists r g' m v s', growproc n s = Ret r s' /\ grown g s i p d n r g' m v /\ vm_inv g' (mem s') /\ mem s' = m /\
    ptable s' = <[i := set_sz v p]> (ptable s).
Proof using.
  assert (Hkb : KERNBASE = 2 ^ 31) by done. assert (Hself : <[i := set_sz (sz p) p]> (ptable s) = ptable s) by (destruct p; by apply list_insert_id).
  unfold is_s32 in Hn. destruct (decide (n = 0)) as [-> | Hnz]; [| destruct (decide (0 < n)) as [Hpos | Hneg]].
  - eexists 0, g, (mem s), (sz p), _. split; [| split; [by apply grown_same |]].
    { unfold growproc. rewrite (bind_ret _ _ _ _ _ (curproc_eq s i Hcli Hc)). erewrite bind_ret by (apply get_proc_eq; exact Hp). rewrite Hd. erewrite bind_ret by done.
      cbn [Z.gtb Z.ltb Z.compare]. erewrite bind_ret by (apply upd_proc_eq; exact Hp). reflexivity. }
    done.
  - pose proof (allocuvm_ok g (mem s) d (sz p) (sz p + n) Hinv Hdir ltac:(lia) Hab) as Ha. assert (Eu : u32 (sz p + n) = sz p + n) by (apply u32_small; lia).
    assert (Hgt : (n >? 0) = true) by (apply Z.gtb_lt; lia).
    destruct (Z.leb_spec KERNBASE (sz p + n)) as [Hk | Hk].
    { pose proof (growproc_run s i p d 0 (mem s) n Hcli Hc Hp Hd ltac:(rewrite Hgt, Eu; exact Ha) Hnz) as Hg. cbn [Z.eqb] in Hg.
      eexists _, g, (mem s), (sz p), _. split; [exact Hg |]. split; [by apply grown_limit |]. done. }
    destruct (Z.ltb_spec (sz p + n) (sz p)); [lia |]. destruct Ha as (r & g' & m & Ea & [[-> Hf] | (-> & Hu & f & Hdr)]);
      pose proof (growproc_run s i p d _ m n Hcli Hc Hp Hd ltac:(rewrite Hgt, Eu; exact Ea) Hnz) as Hg.
    + destruct (Z.eqb_spec (sz p + n) 0); [lia |]. eexists _, g', m, (sz p + n), _. split; [exact Hg |]. split; [by apply grown_more |]. split; [apply Hf | done].
    + cbn [Z.eqb] in Hg. eexists _, g', m, (sz p), _. split; [exact Hg |]. split; [eapply grown_full; [done | done | | exact Hdr] | split; [apply Hu | done]].
      eapply (undone_same d (npages (sz p)) (npages (sz p + n))); [done.. | | exact Hu]. apply npages_range. lia.
  - assert (Hgt : (n >? 0) = false) by (rewrite Z.gtb_ltb; apply Z.ltb_ge; lia). destruct (decide (sz p + n < 0)) as [Hb | Hb].
    { assert (Eu : u32 (sz p + n) = sz p + n + 2 ^ 32) by (symmetry; apply (Z.mod_unique _ (2 ^ 32) (-1)); lia).
      assert (Ed : Vm.deallocuvm d (sz p) (u32 (sz p + n)) (mem s) = Ret (sz p) (mem s)) by (unfold Vm.deallocuvm; rewrite Eu, Z.geb_leb; by destruct (Z.leb_spec (sz p) (sz p + n + 2 ^ 32)); [| lia]).
      pose proof (growproc_run s i p d _ (mem s) n Hcli Hc Hp Hd ltac:(rewrite Hgt; exact Ed) Hnz) as Hg. destruct (Z.eqb_spec (sz p) 0); [lia |].
      eexists _, g, (mem s), (sz p), _. split; [exact Hg |]. split; [apply grown_below; lia | done]. }
    destruct (deallocuvm_ok g (mem s) d (sz p) (sz p + n) Hinv Hdir ltac:(lia) ltac:(lia)) as (m & Ed & Hun). rewrite Z.min_l in Ed by lia.
    pose proof (growproc_run s i p d _ m n Hcli Hc Hp Hd ltac:(rewrite Hgt, u32_small by lia; exact Ed) Hnz) as Hg. destruct (Z.eqb_spec (sz p + n) 0) as [Ez | Hne].
    + rewrite Ez in Hun. change (npages 0) with 0 in Hun. eexists _, _, m, (sz p), _. split; [exact Hg |]. split; [apply grown_nothing; [lia | lia | exact Hun] |]. split; [apply Hun | done].
    + eexists _, _, m, (sz p + n), _. split; [exact Hg |]. split; [apply grown_less; [lia | lia | exact Hun] |]. split; [apply Hun | done].
Qed.
End theorems.

(** A machine with one process on four pages of memory. *)
#[local] Existing Instance tiny_image.
#[local] Instance no_files : FileEnv unit := {
  fe_filedup f := mret f; fe_fileclose _ := skip; fe_idup i := mret i; fe_iput _ := skip;
  fe_begin_op := skip; fe_end_op := skip; fe_namei_root := mret (Some 1); initcode_bytes := []
}.
Definition parent_proc : proc :=
  set_state RUNNING (set_pid 1 (set_pgdir (Some t_dir) (set_sz PGSIZE (set_cwd (Some 1) proc_zero)))).
Definition one_proc : kstate (kmem_t * unit) :=
  mk_kstate [parent_proc; proc_zero] 2 (Some 0%nat) (mk_cpu 0 true true (Some 0%nat)) [lock_free; lock_free] 0 (tiny, tt).

Lemma fork_copies_memory_witness : exists r s' g', fork one_proc = Ret r s' /\ forked t_own one_proc parent_proc t_dir r g' s'.
Proof.
  assert (Hr : exists s', fork one_proc = Ret (-1) s') by (eexists; vm_compute; reflexivity).
  destruct Hr as [s' Hf]. exists (-1), s'.
  destruct (fork_copies_memory t_own one_proc 0 parent_proc t_dir (-1) s' eq_refl eq_refl ltac:(discriminate) eq_refl tiny_inv eq_refl) as [g' Hg].
  - cbn. unfold PGSIZE, KERNBASE. lia.
  - intros v Hv. apply (tiny_page v Hv).
  - exact Hf.
  - exists g'. split; [exact Hf | exact Hg].
Defined.

(** The child of process 0 is a zombie: it has the directory, process 0 none. *)
Definition child_proc : proc :=
  set_state ZOMBIE (set_pid 2 (set_parent (Some 0%nat) (set_pgdir (Some t_dir) (set_kstack (Some t_free) proc_zero)))).
Definition two_procs : kstate (kmem_t * unit) :=
  mk_kstate [parent_proc; child_proc] 3 (Some 0%nat) (mk_cpu 0 true true (Some 0%nat)) [lock_free; lock_free] 0 (with_freelist 0 tiny, tt).
Lemma two_inv : vm_inv (own_set t_free Held t_own) (mem two_procs).
Proof.
  destruct (kalloc_vm t_own tiny tiny_inv) as [[_ Hno] | (a & p & E & Hf & Hv & Hi)]; [by destruct (Hno t_free) |].
  destruct (t_own_cases a) as [[E1 ->] | [[E1 ->] | [[E1 ->] | [[E1 ->] | E1]]]]; rewrite E1 in Hf; try discriminate Hf.
  replace p with 0 in Hi; [exact Hi |]. pose proof (f_equal (fun o => match o with Ret _ s => freelist s | _ => 1 end) E) as E0. vm_compute in E0. exact E0.
Qed.
Lemma wait_frees_memory_witness : exists s', wait_ two_procs = Ret (Some 2) s' /\
  vm_inv (released t_dir (own_set t_free Free (own_set t_free Held t_own))) (mem s').
Proof.
  assert (Hr : exists s', wait_ two_procs = Ret (Some 2) s') by (eexists; vm_compute; reflexivity). destruct Hr as [s' Hw]. exists s'. split; [exact Hw |].
  destruct (wait_frees_memory (own_set t_free Held t_own) two_procs 0 1 child_proc t_free t_dir) as [_ H].
  - split; [reflexivity | reflexivity | | split; reflexivity]. split; [reflexivity |]. split; [| reflexivity]. apply t_valid. right. right. right. reflexivity.
  - exact two_inv.
  - destruct (H (Some 2) s' eq_refl Hw) as (_ & Hi & _). exact Hi.
Defined.

Lemma growproc_spec_witness : exists s', growproc (- PGSIZE) one_proc = Ret (-1) s' /\ vm_inv (freed t_dir 0 1 t_own) (mem s') /\ ptable s' = ptable one_proc.
Proof.
  destruct (growproc_spec t_own one_proc 0 parent_proc t_dir (- PGSIZE)) as (r & g' & m & v & s' & E & Hg & Hi & Hm & Ht).
  - split; [cbn; lia | done].
  - reflexivity.
  - reflexivity.
  - reflexivity.
  - exact tiny_inv.
  - reflexivity.
  - unfold is_s32, PGSIZE. lia.
  - cbn. unfold PGSIZE, KERNBASE. lia.
  - intros v Hv. change (npages (sz parent_proc)) with 1 in Hv. change (mem one_proc) with tiny. rewrite t_pte, decide_False by lia. reflexivity.
  - inversion Hg; subst; try (exfalso; cbn in *; unfold PGSIZE, KERNBASE in *; lia).
    exists s'. split; [exact E |]. split; [exact Hi | rewrite Ht; reflexivity].
Defined.
