(* ===== verification/SysProc.v ===== *)
(** * SysProc: project3/xv6-modified/{sysproc.c,trap.c}, system calls and traps

    The functions of sysproc.c and the trap handler, over the process code of
    Proc.v.  A function that gives up the CPU ends there: it returns [None], and
    what follows in the source when the process runs again is a definition of
    its own ([sys_sleep_again], [trap_again]).  User memory is reached through
    the class [UserMem]; the functions of sysfile.c and the interrupt handlers
    of the devices are parameters.  Messages on the console and the commands to
    the interrupt controller are left out. *)

From Stdlib Require Import ZArith Lia.
From stdpp Require Import base numbers strings option sets list relations.
From S2P Require Import Prelude KString Kernel Syscall Proc ProcSpec Sched Forking Machine Xv6Proc.

(** ** traps.h *)
Definition T_SYSCALL : Z := 64.
Definition T_IRQ0 : Z := 32.
Definition IRQ_TIMER : Z := 0.
Definition IRQ_KBD : Z := 1.
Definition IRQ_COM1 : Z := 4.
Definition IRQ_IDE : Z := 14.
Definition IRQ_SPURIOUS : Z := 31.
Definition DPL_USER : Z := 3.

(** The first [sz] bytes of the address space [d], and a store to it. *)
Class UserMem (X : Type) := {
  umem : Z -> Z -> X -> list Z;
  upoke : Z -> Z -> list Z -> M X unit
}.

Section code.
Context {X : Type} {E : KernelEnv X} {U : UserMem X}.
Abbreviation K := (M (kstate X)).

(** What argint, argptr and argstr see of the current process. *)
Definition cur_user : K user :=
  i ← curproc; p ← get_proc i;
  d ← from_option "null page table" (pgdir p);
  x ← gets ext;
  mret (mk_user (umem d (sz p) x) (tf_esp (tf p)) (tf_eax (tf p))).
(** [if(argint(n, &x) < 0) return -1;] before the rest of a call. *)
Definition with_argint (n : Z) (k : Z -> K (option Z)) : K (option Z) :=
  u ← cur_user; match argint n u with Some v => k v | None => mret (Some (-1)) end.

(** ** sysproc.c *)
Definition sys_fork : K (option Z) := r ← fork; mret (Some r).
Definition sys_exit : K (option Z) := exit_;; mret None.
Definition sys_wait : K (option Z) := wait_.
Definition sys_kill : K (option Z) := with_argint 0 (fun n => r ← kill n; mret (Some r)).
Definition sys_getpid : K (option Z) := i ← curproc; p ← get_proc i; mret (Some (pid p)).

Definition sys_sbrk : K (option Z) := with_argint 0 (fun n =>
  i ← curproc; p ← get_proc i;
  let addr := s32 (sz p) in
  r ← growproc n;
  mret (Some (if r <? 0 then -1 else addr))).

(** The loop of [sys_sleep], with [tickslock] held; [n] is compared as unsigned. *)
Definition sys_sleep_loop (n ticks0 : Z) : K (option Z) :=
  t ← gets ticks;
  if u32 (t - ticks0) <? u32 n then
    i ← curproc; p ← get_proc i;
    if killed p then release tickslock;; mret (Some (-1)) else
    sleep_enter ch_ticks tickslock (at_sleep tickslock);; mret None
  else release tickslock;; mret (Some 0).
Definition sys_sleep : K (option Z) := with_argint 0 (fun n =>
  acquire tickslock;;
  ticks0 ← gets ticks;
  sys_sleep_loop n ticks0).

Definition sys_uptime : K (option Z) :=
  acquire tickslock;; xticks ← gets ticks; release tickslock;; mret (Some (s32 xticks)).

(** [hello] and [hello_name] of proc.c print and return 0. *)
Definition sys_hello : K (option Z) := mret (Some 0).
Definition sys_hello_name : K (option Z) :=
  u ← cur_user; match argstr 0 u with Some _ => mret (Some 0) | None => mret (Some (-1)) end.

Definition sys_get_num_proc : K (option Z) := r ← get_num_proc; mret (Some r).
Definition sys_get_max_pid : K (option Z) := r ← get_max_pid; mret (Some r).

(** The three words of [struct processInfo] are stored in user memory. *)
Definition sys_get_proc_info : K (option Z) := with_argint 0 (fun n =>
  u ← cur_user;
  match argptr 1 12 u with
  | None => mret (Some (-1))
  | Some a =>
      r ← get_proc_info n;
      match r with
      | None => mret (Some (-1))
      | Some v =>
          i ← curproc; p ← get_proc i;
          d ← from_option "null page table" (pgdir p);
          lift (upoke d a (le_bytes 4 (ppid v) ++ le_bytes 4 (psize v) ++ le_bytes 4 (numberContextSwitches v)));;
          mret (Some 0)
      end
  end).

Definition sys_get_prio : K (option Z) := r ← get_prio; mret (Some r).
Definition sys_set_prio : K (option Z) := with_argint 0 (fun n => r ← set_prio n; mret (Some r)).

(** ** syscall, with the functions of sysfile.c as argument *)
Section trap.
Variable sysfile : sysname -> K (option Z).
Variables ideintr kbdintr uartintr : K unit.

Definition run_syscall (f : sysname) : K (option Z) :=
  match f with
  | Syscall.sys_fork => sys_fork
  | Syscall.sys_exit => sys_exit
  | Syscall.sys_wait => sys_wait
  | Syscall.sys_kill => sys_kill
  | Syscall.sys_getpid => sys_getpid
  | Syscall.sys_sbrk => sys_sbrk
  | Syscall.sys_sleep => sys_sleep
  | Syscall.sys_uptime => sys_uptime
  | Syscall.sys_hello => sys_hello
  | Syscall.sys_hello_name => sys_hello_name
  | Syscall.sys_get_num_proc => sys_get_num_proc
  | Syscall.sys_get_max_pid => sys_get_max_pid
  | Syscall.sys_get_proc_info => sys_get_proc_info
  | Syscall.sys_get_prio => sys_get_prio
  | Syscall.sys_set_prio => sys_set_prio
  | f => sysfile f
  end.

(** [curproc->tf->eax = v] *)
Definition set_eax (i : nat) (v : Z) : K unit :=
  upd_proc i (fun p => set_tf (mk_tf v (tf_eip (tf p)) (tf_esp (tf p)) (tf_eflags (tf p)) (tf_cs (tf p)) (tf_ds (tf p)) (tf_es (tf p)) (tf_ss (tf p))) p).
Definition syscall : K (option unit) :=
  i ← curproc; p ← get_proc i;
  match sysfun (s32 (tf_eax (tf p))) with
  | Some f =>
      o ← run_syscall f;
      match o with Some v => set_eax i v;; mret (Some tt) | None => mret None end
  | None => set_eax i (-1);; mret (Some tt)
  end.

(** ** trap.c *)
(** [if(myproc()->killed) exit();] *)
Definition exit_if_killed (k : K (option unit)) : K (option unit) :=
  i ← curproc; p ← get_proc i; if killed p then exit_;; mret None else k.
(** [if(myproc() && myproc()->killed && (tf->cs&3) == DPL_USER) exit();] *)
Definition exit_killed_user (tf0 : trapframe) (k : K (option unit)) : K (option unit) :=
  o ← myproc;
  match o with
  | None => k
  | Some i => p ← get_proc i; if killed p && (Z.land (tf_cs tf0) 3 =? DPL_USER) then exit_;; mret None else k
  end.

(** [switch(tf->trapno)] *)
Definition trap_switch (trapno : Z) (tf0 : trapframe) : K unit :=
  if trapno =? T_IRQ0 + IRQ_TIMER then timer_tick else
  if trapno =? T_IRQ0 + IRQ_IDE then ideintr else
  if trapno =? T_IRQ0 + IRQ_IDE + 1 then skip else
  if trapno =? T_IRQ0 + IRQ_KBD then kbdintr else
  if trapno =? T_IRQ0 + IRQ_COM1 then uartintr else
  if (trapno =? T_IRQ0 + 7) || (trapno =? T_IRQ0 + IRQ_SPURIOUS) then skip else
  o ← myproc;
  match o with
  | None => stop "trap"
  | Some i => if Z.land (tf_cs tf0) 3 =? 0 then stop "trap" else upd_proc i (set_killed true)
  end.

Definition trap (trapno : Z) (tf0 : trapframe) : K (option unit) :=
  if trapno =? T_SYSCALL then
    exit_if_killed (
      i ← curproc; upd_proc i (set_tf tf0);;
      o ← syscall;
      match o with
      | None => mret None
      | Some _ => exit_if_killed (mret (Some tt))
      end)
  else
  trap_switch trapno tf0;;
  exit_killed_user tf0 (
    o ← myproc;
    match o with
    | Some i =>
        p ← get_proc i;
        if bool_decide (state p = RUNNING) && (trapno =? T_IRQ0 + IRQ_TIMER) then yield_;; mret None
        else exit_killed_user tf0 (mret (Some tt))
    | None => exit_killed_user tf0 (mret (Some tt))
    end).

(** The rest of the handlers when the process runs again: of [trap] after
    [yield], and of a system call after [sleep] in [sys_sleep] or in [wait]
    returned. *)
Definition trap_again (tf0 : trapframe) : K (option unit) := exit_killed_user tf0 (mret (Some tt)).
Definition syscall_again (o : option Z) : K (option unit) :=
  match o with
  | None => mret None
  | Some v => i ← curproc; set_eax i v;; exit_if_killed (mret (Some tt))
  end.
Definition sys_sleep_again (n ticks0 : Z) : K (option unit) := o ← sys_sleep_loop n ticks0; syscall_again o.
End trap.
End code.

(** ** Handlers as paths of the machine of Machine.v *)
Section paths.
Context {X : Type} {E : KernelEnv X}.
Implicit Types s : kstate X.
Abbreviation K := (M (kstate X)).
Context (c0 : mode * kstate X) (h : Z) (i : nat) (F : fault (kstate X) -> Prop).

(** [m] fails with a fault of [F], or the machine has gone from [c0] to where it
    returns, and the process still runs. *)
Definition seg {A : Type} (held : option nat) (m : K A) (held' : option nat) (R : A -> Prop) : Prop := forall s,
  at_run c0 h i held s -> ends F m s (fun a s' => at_run c0 h i held' s' /\ R a).
(** ... or the process has given up the CPU, to the scheduler. *)
Definition path {A : Type} (held : option nat) (m : K (option A)) : Prop := forall s,
  at_run c0 h i held s -> ends F m s (fun o s' => if o is Some _ then at_run c0 h i None s' else gives_up c0 h i s').

(** The failures of the process code: those of the layers below, init's exit, a
    process without a directory, and no identifier left. *)
Definition call_faults (f : fault (kstate X)) : Prop :=
  env_faults f \/
  (exists s, at_run c0 h i None s /\ initproc s = Some i /\ f = f_stop "init exiting") \/
  (exists s p, at_run c0 h i None s /\ ptable s !! i = Some p /\ cwd p = None /\ f = f_stop "null inode") \/
  (exists s, at_run c0 h i None s /\ 2 ^ 31 - 1 <= nextpid s /\ f = f_stop "nextpid overflows").

Hypothesis Hc0 : kreach c0.
Hypothesis HF : forall f, call_faults f -> F f.

Lemma seg_bind {A B : Type} held held1 held2 (m : K A) (k : A -> K B) (R : A -> Prop) (R' : B -> Prop) :
  seg held m held1 R -> (forall a, R a -> seg held1 (k a) held2 R') -> seg held (m ≫= k) held2 R'.
Proof. intros Hm Hk s Hs. apply ends_bind. eapply ends_mono; [by apply Hm | done |]. intros a s1 _ [H1 HR]. by apply Hk. Qed.
Lemma path_bind {A B : Type} held held1 (m : K A) (k : A -> K (option B)) (R : A -> Prop) :
  seg held m held1 R -> (forall a, R a -> path held1 (k a)) -> path held (m ≫= k).
Proof. intros Hm Hk s Hs. apply ends_bind. eapply ends_mono; [by apply Hm | done |]. intros a s1 _ [H1 HR]. by apply Hk. Qed.
(** A call that may give up the CPU, and what follows it. *)
Lemma path_then {A B : Type} held (m : K (option A)) (k : option A -> K (option B)) :
  path held m -> (forall a, path None (k (Some a))) -> (forall s, k None s = Ret None s) -> path held (m ≫= k).
Proof.
  intros Hm Hk Hn s Hs. apply ends_bind. eapply ends_mono; [by apply Hm | done |]. intros [a |] s1 _ H1; [by apply Hk |].
  by eapply ends_ret.
Qed.
Lemma path_some {A : Type} (a : A) : path None (mret (Some a)).
Proof. intros s Hs. by eapply ends_ret. Qed.
Lemma seg_id {A : Type} held (a : A) (R : A -> Prop) : R a -> seg held (mret a) held R.
Proof. intros HR s Hs. by eapply ends_ret. Qed.
Lemma seg_ret {A : Type} held (a : A) : seg held (mret a) held (fun _ => True).
Proof. by apply seg_id. Qed.
Lemma seg_gets {A : Type} held (f : kstate X -> A) : seg held (gets f) held (fun _ => True).
Proof. intros s Hs. by eapply ends_ret. Qed.
Lemma seg_some {A : Type} held msg (o : option A) : is_Some o -> seg held (from_option msg o) held (fun _ => True).
Proof. intros [a ->] s Hs. by eapply ends_ret. Qed.

(** Steps of the machine. *)
Lemma seg_step {A : Type} held held' (m : K A) (R : A -> Prop) :
  (forall s, on_cpu (run_held held) (Some i) s -> ptable_lock ∉ run_held held ->
     ends F m s (fun a s' => proc_step i held s held' s' /\ R a)) -> seg held m held' R.
Proof using Hc0.
  intros Hm s Hs. destruct (at_run_inv c0 h i Hc0 held s Hs) as (H & Hk & _). eapply ends_mono; [by apply Hm | done |].
  intros a s' _ [Hp HR]. split; [by eapply step_runs | done].
Qed.
(** ... that return. *)
Lemma seg_op {A : Type} held held' (m : K A) (R : A -> Prop) :
  (forall s, on_cpu (run_held held) (Some i) s -> ptable_lock ∉ run_held held ->
     exists a s', m s = Ret a s' /\ proc_step i held s held' s' /\ R a) -> seg held m held' R.
Proof using Hc0. intros Hm. apply seg_step. intros s H Hk. destruct (Hm s H Hk) as (a & s' & E1 & Hp). by eapply ends_ret. Qed.
Lemma path_leave {A B : Type} held (m : K A) :
  (forall s, on_cpu (run_held held) (Some i) s -> ptable_lock ∉ run_held held -> exists a s', m s = Ret a s' /\ proc_leave i held s s') ->
  path held (m ≫= fun _ => mret (@None B)).
Proof using Hc0.
  intros Hm s Hs. destruct (at_run_inv c0 h i Hc0 held s Hs) as (H & Hk & _). destruct (Hm s H Hk) as (a & s' & E1 & Hl).
  run E1. eapply ends_ret; [done |]. by eapply leave_gives_up.
Qed.

Lemma seg_myproc held : seg held myproc held (fun o => o = Some i).
Proof using Hc0.
  apply seg_op. intros s H _. destruct (myproc_ok _ _ s H) as (s' & E1 & _). exists (Some i), s'. split_and!; [done | by eapply p_look | done].
Qed.
Lemma seg_curproc held : seg held curproc held (fun j => j = i).
Proof using Hc0.
  unfold curproc. eapply seg_bind; [apply seg_myproc |]. intros o ->. by apply seg_id.
Qed.
Lemma seg_self held : seg held (get_proc i) held (fun p => state p = RUNNING /\ is_Some (pgdir p)).
Proof using Hc0. intros s Hs. destruct (run_entry c0 h i Hc0 held s Hs) as (p & Hp & Hrun). eapply ends_ret; [by apply get_proc_eq | done]. Qed.
Lemma seg_private held f : (forall p, private p (f p)) -> seg held (upd_proc i f) held (fun _ => True).
Proof using Hc0.
  intros Hf. apply seg_op. intros s H _. destruct (on_cpu_cur _ _ _ H) as (p & Hp & _). eexists _, _. split_and!; [by apply upd_proc_eq | | done].
  by eapply p_private.
Qed.
Lemma seg_lift {A : Type} held (m : M X A) : (forall s f, fails (lift m) s f -> F f) -> seg held (lift m) held (fun _ => True).
Proof using Hc0. intros Hm. apply seg_step. intros s _ _. apply ends_fails; [apply Hm |]. intros a s' (x & ->)%lift_inv. split; [apply p_ext | done]. Qed.
Lemma seg_env {A : Type} held (m : M X A) : env_call m -> seg held (lift m) held (fun _ => True).
Proof using Hc0 HF. intros Hm. apply seg_lift. intros s f Hf. apply HF. left. by exists A, m, s. Qed.
Lemma seg_acquire lk : lk <> ptable_lock -> (lk < 2)%nat -> seg None (acquire lk) (Some lk) (fun _ => True).
Proof using Hc0.
  intros Hlk Hlt. apply seg_op. intros s H _. destruct (on_cpu_acquire [] _ s lk H) as (s' & E1 & _); [apply not_elem_of_nil | done |].
  exists tt, s'. split_and!; [done | by eapply p_acquire | done].
Qed.
Lemma seg_release lk : seg (Some lk) (release lk) None (fun _ => True).
Proof using Hc0.
  apply seg_op. intros s H _. destruct (on_cpu_release [] _ s lk H) as (s' & E1 & _); [apply not_elem_of_nil |].
  exists tt, s'. split_and!; [done | by eapply p_release | done].
Qed.
Lemma seg_kill held n : seg held (kill n) held (fun _ => True).
Proof using Hc0.
  apply seg_op. intros s H Hk. destruct (kill_ok _ _ s n H Hk) as (r & s' & E1 & _). exists r, s'. split_and!; [done | by eapply p_kill | done].
Qed.
Lemma seg_tick : seg None timer_tick None (fun _ => True).
Proof using Hc0. apply seg_op. intros s H _. destruct (timer_tick_ok _ s H) as (s' & E1 & _). exists tt, s'. split_and!; [done | by eapply p_tick | done]. Qed.
Lemma seg_get_prio : seg None get_prio None (fun _ => True).
Proof using Hc0.
  apply seg_op. intros s H _. destruct (on_cpu_cur _ _ _ H) as (p & Hp & _). destruct (get_prio_ok s i p H Hp) as (s' & E1 & _).
  eexists _, s'. split_and!; [done | by eapply p_get_prio | done].
Qed.
Lemma seg_set_prio n : seg None (set_prio n) None (fun _ => True).
Proof using Hc0.
  apply seg_op. intros s H _. destruct (set_prio_ok s i n H) as (s' & p & E1 & _). eexists _, s'. split_and!; [done | by eapply p_set_prio | done].
Qed.

(** The process code. *)
Lemma seg_fork : seg None fork None (fun _ => True).
Proof using Hc0 HF.
  intros s Hs. destruct (run_entry c0 h i Hc0 None s Hs) as (p & Hp & _). eapply ends_mono; [by apply fork_ends | | by intros].
  intros f [Hf | [[-> Hc] | [-> Hn]]]; apply HF; [by left | right; right; left; by exists s, p | right; right; right; by exists s].
Qed.
Lemma path_wait : path None wait_.
Proof using Hc0 HF. intros s Hs. eapply ends_mono; [by apply wait_ends | | done]. intros f Hf. apply HF. by left. Qed.
Lemma path_exit {A : Type} : path None (exit_;; mret (@None A)).
Proof using Hc0 HF.
  intros s Hs. destruct (run_entry c0 h i Hc0 None s Hs) as (p & Hp & _). apply ends_bind. eapply ends_mono; [by apply exit_ends | |].
  - intros f [Hf | [[-> Hi] | [-> Hc]]]; apply HF; [by left | right; left; by exists s | right; right; left; by exists s, p].
  - intros u s' _ Hg. by eapply ends_ret.
Qed.
Lemma path_yield {A : Type} : path None (yield_;; mret (@None A)).
Proof using Hc0. apply path_leave. intros s H _. destruct (yield_ok s i H) as (s' & E1 & _). exists tt, s'. split; [done | by eapply l_yield]. Qed.
Lemma path_sleep {A : Type} ch lk : path (Some lk) (sleep_enter ch lk (at_sleep lk);; mret (@None A)).
Proof using Hc0.
  apply path_leave. intros s H Hk. destruct (sleep_ok s i ch lk H) as (s' & E1 & _); [intros ->; apply Hk, list_elem_of_here |].
  exists tt, s'. split; [done | by eapply l_sleep].
Qed.
Lemma seg_growproc n : seg None (growproc n) None (fun _ => True).
Proof using Hc0 HF.
  unfold growproc. eapply seg_bind; [apply seg_curproc |]. intros j ->. eapply seg_bind; [apply seg_self |]. intros p [_ Hd].
  eapply seg_bind; [by apply seg_some |]. intros d _.
  assert (Hset : forall v, seg None (upd_proc i (set_sz v);; mret 0) None (fun _ => True)) by (intros v; eapply seg_bind; [apply seg_private; by repeat split |]; intros; by apply seg_id).
  destruct (n >? 0); [| destruct (n <? 0); [| done]]; (eapply seg_bind; [by apply seg_env |]; intros v _; destruct (v =? 0); [by apply seg_id | done]).
Qed.
Lemma seg_get_proc_info n : seg None (get_proc_info n) None (fun _ => True).
Proof using Hc0.
  intros s Hs. destruct (at_run_inv c0 h i Hc0 None s Hs) as (((Ht & _) & _) & _). unfold get_proc_info. eapply ends_ret_bind; [done |].
  destruct (find_index _ _) as [k |] eqn:Ef; [| by eapply ends_ret]. apply find_index_Some in Ef as [(p & Hp & _) _].
  run (get_proc_eq _ _ _ Hp). destruct (parent p) as [j |] eqn:Hpar.
  - destruct (lookup_lt_is_Some_2 (ptable s) j) as [q Hq]; [rewrite (ti_len _ _ _ _ Ht); by eapply (ti_slots _ _ _ _ Ht k p) |].
    eapply ends_ret_bind; [(erewrite bind_ret by by apply get_proc_eq); done |]. by eapply ends_ret.
  - eapply ends_ret_bind; [done |]. by eapply ends_ret.
Qed.
End paths.

(** [walk] runs through the calls of a handler, each a step of the machine. *)
Create HintDb segs.
#[export] Hint Resolve seg_curproc seg_myproc seg_self seg_gets seg_release seg_growproc seg_fork seg_kill seg_tick seg_get_prio seg_set_prio seg_get_proc_info : segs.
#[export] Hint Extern 1 (seg _ _ _ _ _ (from_option _ (pgdir _)) _ _) => apply seg_some; tauto : segs.
#[export] Hint Extern 1 (seg _ _ _ _ _ (acquire tickslock) _ _) => apply seg_acquire; [done | done | unfold tickslock; lia] : segs.
#[export] Hint Extern 1 (seg _ _ _ _ _ (upd_proc _ _) _ _) => apply seg_private; [done | by repeat split] : segs.
Ltac walk := repeat first [ eapply path_bind; [by eauto with segs |]; intros; cbv beta in *; subst | apply path_some ].

Section handlers.
Context {X : Type} {E : KernelEnv X} {U : UserMem X}.
Implicit Types s : kstate X.
Abbreviation K := (M (kstate X)).
Context (c0 : mode * kstate X) (h : Z) (i : nat) (F : fault (kstate X) -> Prop).
Hypothesis Hc0 : kreach c0.
Hypothesis HF : forall f, call_faults c0 h i f -> F f.
Hypothesis HU : forall d a b s f, fails (lift (upoke d a b)) s f -> F f.

Lemma seg_cur_user held : seg c0 h i F held cur_user held (fun _ => True).
Proof using Hc0. unfold cur_user. repeat (eapply seg_bind; [by eauto with segs |]; intros; cbv beta in *; subst). by apply seg_id. Qed.
Hint Resolve seg_cur_user : segs.
Lemma path_argint n (k : Z -> K (option Z)) : (forall v, path c0 h i F None (k v)) -> path c0 h i F None (with_argint n k).
Proof using Hc0. intros Hk. unfold with_argint. walk. case_match; [done | walk]. Qed.

Lemma path_sleep_loop n t0 : path c0 h i F (Some tickslock) (sys_sleep_loop n t0).
Proof using Hc0. unfold sys_sleep_loop. walk. case_match; walk. case_match; walk. by apply path_sleep. Qed.

(** The functions of sysfile.c and the device handlers, as far as the process
    table is concerned: they are made of steps of the machine, or fail with a
    fault of [F]. *)
Variable sysfile : sysname -> K (option Z).
Variables ideintr kbdintr uartintr : K unit.
Record devices_ok : Prop := {
  dk_file : forall f, path c0 h i F None (sysfile f);
  dk_ide : seg c0 h i F None ideintr None (fun _ => True);
  dk_kbd : seg c0 h i F None kbdintr None (fun _ => True);
  dk_uart : seg c0 h i F None uartintr None (fun _ => True)
}.
Hypothesis Hd : devices_ok.

Lemma path_run_syscall f : path c0 h i F None (run_syscall sysfile f).
Proof using Hc0 HF HU Hd.
  destruct f; try apply Hd; cbn [run_syscall].
  - unfold sys_fork. walk.
  - by apply path_exit.
  - by apply path_wait.
  - unfold sys_kill. apply path_argint. intros v. walk.
  - unfold sys_getpid. walk.
  - unfold sys_sbrk. apply path_argint. intros v. walk.
  - unfold sys_sleep. apply path_argint. intros v. eapply path_bind; [by eauto with segs |]. intros _ _.
    eapply path_bind; [apply seg_gets |]. intros. apply path_sleep_loop.
  - unfold sys_uptime. walk.
  - unfold sys_hello. walk.
  - unfold sys_hello_name. walk. case_match; walk.
  - unfold sys_get_num_proc, get_num_proc. eapply path_bind; [eapply seg_bind; [apply seg_gets |]; intros; apply seg_ret |]. intros. walk.
  - unfold sys_get_max_pid, get_max_pid. eapply path_bind; [eapply seg_bind; [apply seg_gets |]; intros; apply seg_ret |]. intros. walk.
  - unfold sys_get_proc_info. apply path_argint. intros v. walk. case_match; walk. case_match; walk.
    eapply path_bind; [by apply seg_lift; [| apply HU] |]. intros. walk.
  - unfold sys_get_prio. walk.
  - unfold sys_set_prio. apply path_argint. intros v. walk.
Qed.

Lemma path_exit_if_killed k : path c0 h i F None k -> path c0 h i F None (exit_if_killed k).
Proof using Hc0 HF. intros Hk. unfold exit_if_killed. walk. case_match; [by apply path_exit | done]. Qed.
Lemma path_exit_killed_user tf0 k : path c0 h i F None k -> path c0 h i F None (exit_killed_user tf0 k).
Proof using Hc0 HF. intros Hk. unfold exit_killed_user. eapply path_bind; [by apply seg_myproc |]. intros o ->. walk. case_match; [by apply path_exit | done]. Qed.
Lemma seg_set_eax v : seg c0 h i F None (set_eax i v) None (fun _ => True).
Proof using Hc0. apply seg_private; [done | by repeat split]. Qed.
Lemma path_syscall : path c0 h i F None (syscall sysfile).
Proof using Hc0 HF HU Hd.
  unfold syscall. walk. case_match.
  - apply path_then; [by apply path_run_syscall | | done]. intros v. eapply path_bind; [apply seg_set_eax |]. intros. walk.
  - eapply path_bind; [apply seg_set_eax |]. intros. walk.
Qed.

(** The trap numbers that [trap] has a case for. *)
Definition known_trap (no : Z) : Prop :=
  no = T_SYSCALL \/ no = T_IRQ0 + IRQ_TIMER \/ no = T_IRQ0 + IRQ_IDE \/ no = T_IRQ0 + IRQ_IDE + 1 \/ no = T_IRQ0 + IRQ_KBD \/
  no = T_IRQ0 + IRQ_COM1 \/ no = T_IRQ0 + 7 \/ no = T_IRQ0 + IRQ_SPURIOUS.
Lemma seg_trap_switch no tf0 : (~ known_trap no -> Z.land (tf_cs tf0) 3 = 0 -> F (f_stop "trap")) -> no <> T_SYSCALL ->
  seg c0 h i F None (trap_switch ideintr kbdintr uartintr no tf0) None (fun _ => True).
Proof using Hc0 Hd.
  intros Ht Hs. destruct Hd as [_ D2 D3 D4]. unfold trap_switch.
  destruct (Z.eqb_spec no (T_IRQ0 + IRQ_TIMER)); [by apply seg_tick |]. destruct (Z.eqb_spec no (T_IRQ0 + IRQ_IDE)); [done |].
  destruct (Z.eqb_spec no (T_IRQ0 + IRQ_IDE + 1)); [by apply seg_ret |]. destruct (Z.eqb_spec no (T_IRQ0 + IRQ_KBD)); [done |].
  destruct (Z.eqb_spec no (T_IRQ0 + IRQ_COM1)); [done |].
  destruct (Z.eqb_spec no (T_IRQ0 + 7)); [by apply seg_ret |]. destruct (Z.eqb_spec no (T_IRQ0 + IRQ_SPURIOUS)); [by apply seg_ret |]. cbn [orb].
  eapply seg_bind; [by apply seg_myproc |]. intros o ->. destruct (Z.eqb_spec (Z.land (tf_cs tf0) 3) 0) as [Hz | Hz].
  - intros s _. apply Ht; [unfold known_trap; tauto | done].
  - apply seg_private; [done | by repeat split].
Qed.
Lemma path_trap no tf0 : (~ known_trap no -> Z.land (tf_cs tf0) 3 = 0 -> F (f_stop "trap")) ->
  path c0 h i F None (trap sysfile ideintr kbdintr uartintr no tf0).
Proof using Hc0 HF HU Hd.
  intros Ht. unfold trap. destruct (Z.eqb_spec no T_SYSCALL) as [-> | Hne].
  - apply path_exit_if_killed. walk. apply path_then; [by apply path_syscall | | done]. intros []. apply path_exit_if_killed. apply path_some.
  - eapply path_bind; [by apply seg_trap_switch |]. intros _ _. apply path_exit_killed_user. eapply path_bind; [by apply seg_myproc |]. intros o ->.
    walk. case_match; [by apply path_yield |]. apply path_exit_killed_user. apply path_some.
Qed.
Lemma path_again v : path c0 h i F None (syscall_again (Some v)).
Proof using Hc0 HF. unfold syscall_again. walk. eapply path_bind; [apply seg_set_eax |]. intros _ _. apply path_exit_if_killed. apply path_some. Qed.
Lemma path_sleep_again n t0 : path c0 h i F (Some tickslock) (sys_sleep_again n t0).
Proof using Hc0 HF. unfold sys_sleep_again. apply path_then; [by apply path_sleep_loop | by apply path_again | done]. Qed.
End handlers.

Section theorems.
Context {X : Type} {E : KernelEnv X} {U : UserMem X}.
Implicit Types s : kstate X.
Abbreviation K := (M (kstate X)).

(** The process on the CPU is not killed. *)
Definition alive s : Prop := forall i p, c_proc (cpu s) = Some i -> ptable s !! i = Some p -> killed p = false.

Lemma exit_if_killed_some s a s' : exit_if_killed (mret (Some tt)) s = Ret (Some a) s' -> alive s'.
Proof.
  unfold exit_if_killed. intros (i & s1 & E1 & (p & s2 & [-> Hp]%get_proc_inv & E2)%bind_inv)%bind_inv. destruct (killed p) eqn:Hk.
  - by apply bind_inv in E2 as (? & ? & _ & ?).
  - injection E2 as _ <-. intros j q Hj Hq. apply curproc_inv in E1 as [(T1 & _ & _ & _ & _ & C1 & _) Hc]. assert (j = i) as -> by congruence. congruence.
Qed.
Lemma exit_killed_user_some tf0 s a s' : Z.land (tf_cs tf0) 3 = DPL_USER -> exit_killed_user tf0 (mret (Some tt)) s = Ret (Some a) s' -> alive s'.
Proof.
  intros Hu. unfold exit_killed_user. intros (o & s1 & [(T1 & _ & _ & _ & _ & C1 & _) ->]%myproc_inv & E1)%bind_inv. destruct (c_proc (cpu s)) as [i |] eqn:Hc.
  - apply bind_inv in E1 as (p & s2 & [-> Hp]%get_proc_inv & E2). rewrite Hu, Z.eqb_refl, andb_true_r in E2. destruct (killed p) eqn:Hk; [by apply bind_inv in E2 as (? & ? & _ & ?) |].
    injection E2 as _ <-. intros j q Hj Hq. assert (j = i) as -> by congruence. congruence.
  - injection E1 as _ <-. intros j q Hj. congruence.
Qed.

Variable sysfile : sysname -> K (option Z).
Variables ideintr kbdintr uartintr : K unit.

Lemma trap_alive no tf0 s a s' : no = T_SYSCALL \/ Z.land (tf_cs tf0) 3 = DPL_USER -> trap sysfile ideintr kbdintr uartintr no tf0 s = Ret (Some a) s' -> alive s'.
Proof.
  intros Hu. unfold trap. destruct (Z.eqb_spec no T_SYSCALL) as [-> | Hne].
  - intros (i & s1 & _ & (p & s2 & _ & E2)%bind_inv)%bind_inv. destruct (killed p); [by apply bind_inv in E2 as (? & ? & _ & ?) |].
    apply bind_inv in E2 as (j & s3 & _ & (u & s4 & _ & (o & s5 & _ & E5)%bind_inv)%bind_inv). destruct o; [by eapply exit_if_killed_some | done].
  - destruct Hu as [? | Hu]; [done |]. intros (u & s1 & _ & (o & s2 & _ & E2)%bind_inv)%bind_inv.
    assert (Hk : forall s3, (o ← myproc; match o with
      | Some i => p ← get_proc i; if bool_decide (state p = RUNNING) && (no =? T_IRQ0 + IRQ_TIMER) then yield_;; mret None else exit_killed_user tf0 (mret (Some tt))
      | None => exit_killed_user tf0 (mret (Some tt)) end) s3 = Ret (Some a) s' -> alive s').
    { intros s3 (o' & s4 & _ & E4)%bind_inv. destruct o' as [j |]; [| by eapply exit_killed_user_some].
      apply bind_inv in E4 as (q & s5 & _ & E5). case_match; [by apply bind_inv in E5 as (? & ? & _ & ?) | by eapply exit_killed_user_some]. }
    destruct o as [i |]; [| by eapply Hk]. apply bind_inv in E2 as (p & s3 & _ & E3). case_match; [by apply bind_inv in E3 as (? & ? & _ & ?) | by eapply Hk].
Qed.
Lemma again_alive o s a s' : syscall_again o s = Ret (Some a) s' -> alive s'.
Proof.
  destruct o as [v |]; [| done]. unfold syscall_again. intros (i & s1 & _ & (u & s2 & _ & E2)%bind_inv)%bind_inv. by eapply exit_if_killed_some.
Qed.

(** Where a handler runs for a process: from a trap; after the clock took the
    CPU inside one; when the call in it has a result after all, from a [wait]
    that slept; and in the loop of [sys_sleep] after a sleep, with the lock of
    the clock. *)
Inductive entry := e_trap (no : Z) | e_yielded | e_returned (v : Z) | e_slept (n ticks0 : Z).
Definition entry_lock (e : entry) : option nat := match e with e_slept _ _ => Some tickslock | _ => None end.
Definition handler (e : entry) (tf0 : trapframe) : K (option unit) :=
  match e with
  | e_trap no => trap sysfile ideintr kbdintr uartintr no tf0
  | e_yielded => trap_again tf0
  | e_returned v => syscall_again (Some v)
  | e_slept n ticks0 => sys_sleep_again n ticks0
  end.
(** It returns to user mode. *)
Definition to_user (e : entry) (tf0 : trapframe) : Prop :=
  match e with
  | e_trap no => no = T_SYSCALL \/ Z.land (tf_cs tf0) 3 = DPL_USER
  | e_yielded => Z.land (tf_cs tf0) 3 = DPL_USER
  | _ => True
  end.
(** How a handler may fail, with [D] the failures of file calls and devices. *)
Definition handler_faults (c0 : mode * kstate X) (h : Z) (i : nat) (D : fault (kstate X) -> Prop) (e : entry) (tf0 : trapframe)
  (f : fault (kstate X)) : Prop :=
  call_faults c0 h i f \/ D f \/ (exists d a b s, fails (lift (upoke d a b)) s f) \/
  exists no, e = e_trap no /\ ~ known_trap no /\ Z.land (tf_cs tf0) 3 = 0 /\ f = f_stop "trap".

(** C33. Traps: from every reachable state in which a process runs, a trap of
    any number, and what follows in the handler when the process runs again
    after it gave up the CPU in [yield], in [wait] or in [sys_sleep], either
    returns to the process or gives up the CPU.  In both cases the machine of
    the scheduler has only taken steps of its own from that state, so all its
    invariants hold, and the scheduler can go on.  A process that was killed
    never gets back to user mode: when a system call returns, or a trap from
    user mode, at once or after a [yield], the process is not killed.  The
    handler fails only with a fault of the layers below, of a device or file
    call or of the store to user memory, with the panic of an unexpected trap in
    the kernel, or in the three cases of [call_faults].  The handlers of the
    devices and the file calls are assumed to be made of such steps. *)
Theorem trap_follows_machine (h : Z) (i : nat) (s : kstate X) (e : entry) (tf0 : trapframe) (D : fault (kstate X) -> Prop)
  (Hr : kreach (Run h (entry_lock e), s)) (Hc : c_proc (cpu s) = Some i)
  (Hd : devices_ok (Run h (entry_lock e), s) h i D sysfile ideintr kbdintr uartintr) :
  ends (handler_faults (Run h (entry_lock e), s) h i D e tf0) (handler e tf0) s (fun o s' =>
    if o is Some _ then rtc kstep (Run h (entry_lock e), s) (Run h None, s') /\ c_proc (cpu s') = Some i /\ (to_user e tf0 -> alive s')
    else exists s2, sched_back i s' = Ret tt s2 /\ rtc kstep (Run h (entry_lock e), s) (Scan h (S i), s2)).
Proof.
  set (c0 := (Run h (entry_lock e), s)) in *. set (F := handler_faults c0 h i D e tf0).
  assert (HF : forall f, call_faults c0 h i f -> F f) by (by left).
  assert (HU : forall d a b s f, fails (lift (upoke d a b)) s f -> F f) by (intros d a b s1 f Hf; right; right; left; by exists d, a, b, s1).
  assert (Hd' : devices_ok c0 h i F sysfile ideintr kbdintr uartintr).
  { destruct Hd as [D1 D2 D3 D4]. assert (HD : forall f, D f -> F f) by (by right; left).
    split; [intros f | | |]; intros s1 Hs1; (eapply ends_mono; [first [by apply D1 | by apply D2 | by apply D3 | by apply D4] | exact HD | done]). }
  assert (Hs : at_run c0 h i (entry_lock e) s) by (split; [apply rtc_refl | done]).
  assert (Hp : path c0 h i F (entry_lock e) (handler e tf0)).
  { unfold F. destruct e as [no | | v | n t0]; cbn [entry_lock handler].
    - apply path_trap; [done.. |]. intros Hk Hz. right. right. right. by exists no.
    - by apply path_exit_killed_user; [.. | apply path_some].
    - by apply path_again.
    - by apply path_sleep_again. }
  eapply ends_mono; [by apply Hp | done |]. intros [u |] s' Eh Ho; [| done]. destruct Ho as [H1 H2]. split_and!; [done | done |]. intros Hu.
  destruct e as [no | | v | n t0]; cbn [handler to_user] in *; [by eapply trap_alive | by eapply exit_killed_user_some | by eapply again_alive |].
  unfold sys_sleep_again in Eh. apply bind_inv in Eh as (o & s1 & _ & Eh). by eapply again_alive.
Qed.

(** The clock interrupt takes the CPU from a process that is not killed: it
    returns to no one, the clock has advanced, every process that sleeps on the
    clock can run, and so can the one that was interrupted. *)
Theorem timer_preempts (h : Z) (i : nat) (s : kstate X) (tf0 : trapframe) : kreach (Run h None, s) -> c_proc (cpu s) = Some i -> alive s ->
  exists s1 s2, trap sysfile ideintr kbdintr uartintr (T_IRQ0 + IRQ_TIMER) tf0 s = Ret None s1 /\ sched_back i s1 = Ret tt s2 /\ kreach (Scan h (S i), s2) /\
    (exists q, ptable s2 !! i = Some q /\ state q = RUNNABLE) /\
    forall j p, j <> i -> ptable s !! j = Some p -> ptable s2 !! j = Some (wake (Some ch_ticks) p).
Proof.
  intros Hr Hc Hal. destruct (minv_run h None s i (kreach_inv _ _ Hr) Hc) as [H _]. cbn in H.
  destruct (timer_tick_ok _ s H) as (s1 & E1 & H1 & _ & T1). assert (Hs1 : kreach (Run h None, s1)) by (eapply kr_step; [exact Hr |]; eapply k_proc; [done | by eapply p_tick]).
  destruct (on_cpu_cur _ _ _ H) as (p & Hp & Hrun). assert (Hp1 : ptable s1 !! i = Some p).
  { rewrite T1, list_lookup_fmap, Hp. cbn. unfold wake. by rewrite decide_False by (intros [? _]; congruence). }
  assert (Hm : forall s0, on_cpu [] (Some i) s0 -> ptable s0 !! i = Some p -> exists s', myproc s0 = Ret (Some i) s' /\ on_cpu [] (Some i) s' /\ ptable s' = ptable s0).
  { intros s0 H0 Hp0. pose proof H0 as (_ & Hc0 & Hh0). destruct (holds_curproc _ _ _ Hh0 Hc0) as (s' & E' & _ & (T' & _) & _).
    unfold curproc in E'. apply bind_inv in E' as (o & s'' & Em & Eo). destruct o as [j |]; [| done]. injection Eo as -> ->. exists s'. split; [done |]. split; [by eapply on_cpu_myproc | done]. }
  destruct (Hm s1 H1 Hp1) as (s2 & E2 & H2 & T2). destruct (Hm s2 H2 ltac:(by rewrite T2)) as (s3 & E3 & H3 & T3).
  destruct (yield_ok s3 i H3) as (s4 & E4 & Hsw & q & Hq & T4). destruct (sched_back_ok s4 i Hsw) as (s5 & E5 & _ & q' & Hq' & T5).
  exists s4, s5. assert (Et : trap sysfile ideintr kbdintr uartintr (T_IRQ0 + IRQ_TIMER) tf0 s = Ret None s4).
  { unfold trap. change (T_IRQ0 + IRQ_TIMER =? T_SYSCALL) with false. cbv iota. unfold trap_switch. rewrite Z.eqb_refl, (bind_ret _ _ _ _ _ E1). unfold exit_killed_user at 1.
    rewrite (bind_ret _ _ _ _ _ E2). erewrite bind_ret by (apply get_proc_eq; rewrite T2; exact Hp1). rewrite (Hal i p Hc Hp). cbn [andb].
    rewrite (bind_ret _ _ _ _ _ E3). erewrite bind_ret by (apply get_proc_eq; rewrite T3, T2; exact Hp1). rewrite bool_decide_true by done. cbn [andb]. by rewrite (bind_ret _ _ _ _ _ E4). }
  split; [done |]. split; [done |]. assert (Hlt : (i < length (ptable s4))%nat) by by eapply lookup_lt_Some. split.
  { eapply kr_step; [| eapply (k_leave h None i s3 s4 tt s5); [apply H3 | by eapply l_yield | done]].
    eapply kr_step; [| eapply (k_proc h None None i s2 s3); [apply H2 | by eapply p_look]]. eapply kr_step; [exact Hs1 |]. eapply k_proc; [apply H1 | by eapply p_look]. }
  split.
  - rewrite T5, list_lookup_insert_eq by done. eexists. split; [done |]. cbn [state set_nice].
    rewrite T4, list_lookup_insert_eq in Hq' by (rewrite T4, length_insert in Hlt; done). by injection Hq' as <-.
  - intros j p' Hne Hj. rewrite T5, list_lookup_insert_ne, T4, list_lookup_insert_ne, T3, T2, T1, list_lookup_fmap, Hj by done. done.
Qed.

(** Sleeping: [k] ticks after the call (for less than 2^32), the loop of
    [sys_sleep], entered with the lock of the clock, returns 0 exactly when [k]
    has reached [n] read as an unsigned number; before that it returns -1 when
    the process is killed, and otherwise the process sleeps on the clock and the
    lock is free.  So a negative argument does not return at once: -1 sleeps for
    2^32 - 1 ticks. *)
Theorem sleep_duration (h : Z) (i : nat) (s : kstate X) (p : proc) (n ticks0 k : Z)
  (Hr : kreach (Run h (Some tickslock), s)) (Hc : c_proc (cpu s) = Some i) (Hp : ptable s !! i = Some p)
  (Hk : 0 <= k < 2 ^ 32) (Ht : ticks s = u32 (ticks0 + k)) :
  if decide (u32 n <= k) then exists s', sys_sleep_loop n ticks0 s = Ret (Some 0) s' /\ kreach (Run h None, s')
  else if killed p then exists s', sys_sleep_loop n ticks0 s = Ret (Some (-1)) s' /\ kreach (Run h None, s')
  else exists s1 s2 q, sys_sleep_loop n ticks0 s = Ret None s1 /\ sched_back i s1 = Ret tt s2 /\ kreach (Scan h (S i), s2) /\
    ptable s2 !! i = Some q /\ state q = SLEEPING /\ chan q = Some ch_ticks.
Proof using.
  destruct (minv_run h (Some tickslock) s i (kreach_inv _ _ Hr) Hc) as [H Hnk]. cbn in H.
  assert (Hrel : exists s', release tickslock s = Ret tt s' /\ kreach (Run h None, s')).
  { destruct (on_cpu_release [] (Some i) s tickslock H) as (s' & E1 & _); [apply not_elem_of_nil |]. exists s'. split; [done |]. eapply kr_step; [exact Hr |]. eapply k_proc; [done | by eapply p_release]. }
  destruct Hrel as (s' & E1 & Hs'). unfold sys_sleep_loop. erewrite bind_ret by done. rewrite Ht.
  assert (Ek : u32 (u32 (ticks0 + k) - ticks0) = k).
  { unfold u32. rewrite Zminus_mod_idemp_l. replace (ticks0 + k - ticks0) with k by lia. apply Z.mod_small. lia. }
  rewrite Ek. destruct (Z.ltb_spec k (u32 n)) as [Hlt | Hge]; [rewrite decide_False by lia | rewrite decide_True by lia; rewrite (bind_ret _ _ _ _ _ E1); by exists s'].
  pose proof H as (_ & _ & Hh). destruct (holds_curproc _ _ _ Hh Hc) as (s0 & E0 & _ & _ & Es). rewrite Es in E0 by done. rewrite (bind_ret _ _ _ _ _ E0).
  erewrite bind_ret by by apply get_proc_eq. destruct (killed p); [rewrite (bind_ret _ _ _ _ _ E1); by exists s' |].
  destruct (sleep_ok s i ch_ticks tickslock H) as (s1 & E2 & Hsw & q & Hq & T1); [done |]. destruct (sched_back_ok s1 i Hsw) as (s2 & E3 & _ & q' & Hq' & T2).
  assert (Hlt1 : (i < length (ptable s))%nat) by by eapply lookup_lt_Some.
  eexists s1, s2, _. split; [by rewrite (bind_ret _ _ _ _ _ E2) |]. split; [done |]. split; [eapply kr_step; [exact Hr |]; eapply (k_leave h (Some tickslock)); [done | by eapply l_sleep | done] |].
  rewrite T1, list_lookup_insert_eq in Hq' by done. injection Hq' as <-. rewrite T2, T1, list_insert_insert_eq, list_lookup_insert_eq by done. done.
Qed.
End theorems.

(** ** Witnesses: a process of the booted machine of Xv6Proc.v *)
#[local] Existing Instance demo_env.
#[local] Instance demo_umem : UserMem Z := {| umem _ n _ := replicate (Z.to_nat n) 0; upoke _ _ _ := skip |}.
Definition no_file (f : sysname) : M (kstate Z) (option Z) := mret (Some (-1)).

(** A clock interrupt takes the CPU from the first process; and its child, killed
    while the CPU was taken from it inside a trap from user mode, exits when it
    runs again. *)
Definition k_preempt : kstate Z := Eval vm_compute in st_of k0 (match trap no_file skip skip skip (T_IRQ0 + IRQ_TIMER) tf_zero k_run with Ret _ s => Ret tt s | _ => Stop "no" end).
Definition k_child1 : kstate Z := Eval vm_compute in st_of k0 (sched_pick 0 1 k_back).
Definition k_child : kstate Z := Eval vm_compute in st_of k0 (resume_proc 1 k_child1).
Definition k_child_killed : kstate Z := Eval vm_compute in st_of k0 (kill 2 k_child).
Definition tf_user : trapframe := mk_tf 0 0 0 FL_IF UCODE UDATA UDATA UDATA.
Definition k_child_gone : kstate Z := Eval vm_compute in st_of k0 (match trap_again tf_user k_child_killed with Ret _ s => Ret tt s | _ => Stop "no" end).
Lemma reach_child_killed : kreach (Run 0 None, k_child_killed).
Proof.
  eapply kr_step; [eapply kr_step; [eapply kr_step; [apply reach_forked |] |] |].
  - apply (k_leave 0 None 0 k_forked k_yield tt k_back); [reflexivity | | vm_compute; reflexivity].
    apply (l_yield 0 k_forked tt). vm_compute. reflexivity.
  - apply (k_pick 0 1 k_back 1 k_child1 None k_child); vm_compute; reflexivity.
  - apply (k_proc 0 None None 1 k_child k_child_killed); [reflexivity |]. apply (p_kill 1 None k_child 2 0). vm_compute. reflexivity.
Qed.
Lemma no_devices c0 i : devices_ok (E := demo_env) c0 0 i (fun _ => False) no_file skip skip skip.
Proof. split; [intros f; apply path_some | apply seg_ret | apply seg_ret | apply seg_ret]. Qed.

Lemma trap_follows_machine_witness :
  (exists s2, sched_back 0 k_preempt = Ret tt s2 /\ rtc kstep (Run 0 None, k_run) (Scan 0 1, s2)) /\
  (exists s2, sched_back 1 k_child_gone = Ret tt s2 /\ rtc kstep (Run 0 None, k_child_killed) (Scan 0 2, s2)).
Proof.
  split.
  - pose proof (trap_follows_machine no_file skip skip skip 0 0 k_run (e_trap (T_IRQ0 + IRQ_TIMER)) tf_zero (fun _ => False) reach_run eq_refl (no_devices _ _)) as H.
    assert (E1 : handler no_file skip skip skip (e_trap (T_IRQ0 + IRQ_TIMER)) tf_zero k_run = Ret None k_preempt) by (vm_compute; reflexivity).
    exact (ends_returns _ _ _ _ _ _ H E1).
  - pose proof (trap_follows_machine no_file skip skip skip 0 1 k_child_killed e_yielded tf_user (fun _ => False) reach_child_killed eq_refl (no_devices _ _)) as H.
    assert (E1 : handler no_file skip skip skip e_yielded tf_user k_child_killed = Ret None k_child_gone) by (vm_compute; reflexivity).
    exact (ends_returns _ _ _ _ _ _ H E1).
Defined.

Definition k_ticks : kstate Z := Eval vm_compute in st_of k0 (acquire tickslock k_run).
Lemma reach_ticks : kreach (Run 0 (Some tickslock), k_ticks).
Proof. eapply kr_step; [exact reach_run |]. apply (k_proc 0 None (Some tickslock) 0 k_run k_ticks); [done | by eapply (p_acquire 0 k_run tickslock tt)]. Qed.
Lemma sleep_duration_witness : exists s1 s2 q, sys_sleep_loop (-1) 0 k_ticks = Ret None s1 /\ sched_back 0 s1 = Ret tt s2 /\ kreach (Scan 0 1, s2) /\
  ptable s2 !! 0%nat = Some q /\ state q = SLEEPING /\ chan q = Some ch_ticks.
Proof.
  destruct (ptable k_ticks !! 0%nat) as [p |] eqn:Hp; vm_compute in Hp; [| discriminate].
  pose proof (sleep_duration 0 0 k_ticks p (-1) 0 0 reach_ticks eq_refl) as H. injection Hp as <-.
  exact (H eq_refl ltac:(lia) eq_refl).
Defined.
