(* ===== verification/Exec.v ===== *)
(** * Exec: project3/xv6-modified/{exec.c,elf.h}, loading a program

    [exec] builds a new address space beside the old one, from the file and the
    arguments, and installs it only when everything succeeded; every failure
    goes through [bad], which gives back what was taken.  Memory is that of
    Vm.v; the calls of the file layer are the interface [ProgFiles], with the
    laws the proofs use in [ProgFilesOk] and an implementation by fs.c and log.c
    ([fs_prog]).  The strings of [path] and [argv] lie in the old address space,
    which [exec] does not write: they are values here.  The message on the
    console and the hardware state that [switchuvm] loads are left out. *)

From Stdlib Require Import ZArith Lia.
From stdpp Require Import base numbers strings option list gmap.
From S2P Require Import Prelude KString Kernel Bio Log Fs Syscall File Kalloc Vm VmSpec VmOps Proc ProcSpec.

(** ** elf.h *)
Definition ELF_MAGIC : Z := 0x464C457F.
Definition ELF_PROG_LOAD : Z := 1.
Definition elfhdr_size : Z := 52.
Definition proghdr_size : Z := 32.

(** The little-endian field of [n] bytes at offset [o] of a structure. *)
Definition field (o n : nat) (bs : list Z) : Z := le_val (slice o n bs).

Record elfhdr := mk_elf { e_magic : Z; e_entry : Z; e_phoff : Z; e_phnum : Z }.
Definition dec_elf (bs : list Z) : elfhdr := mk_elf (field 0 4 bs) (field 24 4 bs) (field 28 4 bs) (field 44 2 bs).
Record proghdr := mk_ph { ph_type : Z; ph_off : Z; ph_vaddr : Z; ph_filesz : Z; ph_memsz : Z }.
Definition dec_ph (bs : list Z) : proghdr :=
  mk_ph (field 0 4 bs) (field 4 4 bs) (field 8 4 bs) (field 16 4 bs) (field 20 4 bs).

(** ** What exec.c calls of the file layer *)
Class ProgFiles (F : Type) := {
  pf_begin_op : M F unit;
  pf_end_op : M F unit;
  pf_namei : option Z -> list Z -> M F (option Z);
  pf_ilock : Z -> M F unit;
  pf_readi : Z -> Z -> Z -> M F (Z * list Z);
  pf_iunlockput : Z -> M F unit
}.

(** fs.c and log.c, with inode pointers as indices of the inode cache. *)
Section fs.
Context {S : Type} {B : BlockDev S} {V : Devices S} {T : TxDev S}.
#[export] Instance fs_prog : ProgFiles (fsst S) := {
  pf_begin_op := bcall d_begin_op;
  pf_end_op := bcall d_end_op;
  pf_namei cwd path :=
    c ← from_option "null pointer" cwd; o ← namei (Z.to_nat c) path; mret (Z.of_nat <$> o);
  pf_ilock ip := ilock (Z.to_nat ip);
  pf_readi ip := readi (Z.to_nat ip);
  pf_iunlockput ip := iunlockput (Z.to_nat ip)
}.
End fs.

(** ** exec.c *)
Section code.
Context {I : Image} {F : Type} {P : ProgFiles F}.
Abbreviation X := (M (kmem_t * F)).

(** [bad:] with the locals [pgdir] and [ip]. *)
Definition bad {A : Type} (pgdir ip : option Z) : X (option A) :=
  match pgdir with Some d => on_mem (Vm.freevm d) | None => skip end;;
  match ip with Some ip => on_files (pf_iunlockput ip);; on_files pf_end_op | None => skip end;;
  mret None.

(** The program headers, [n] of them from offset [off]: the size of the image,
    or [None] for [goto bad].  [off] is an [int]. *)
Fixpoint load_segments (n : nat) (ip pgdir off sz : Z) : X (option Z) :=
  match n with
  | O => mret (Some sz)
  | Datatypes.S n' =>
      r ← on_files (pf_readi ip (u32 off) proghdr_size);
      if negb (u32 (fst r) =? proghdr_size) then mret None else
      let ph := dec_ph (snd r) in
      let next sz := assertb "off overflows" (off + proghdr_size <? 2 ^ 31);; load_segments n' ip pgdir (off + proghdr_size) sz in
      if negb (ph_type ph =? ELF_PROG_LOAD) then next sz else
      if ph_memsz ph <? ph_filesz ph then mret None else
      if u32 (ph_vaddr ph + ph_memsz ph) <? ph_vaddr ph then mret None else
      sz ← on_mem (Vm.allocuvm pgdir sz (u32 (ph_vaddr ph + ph_memsz ph)));
      if sz =? 0 then mret None else
      if negb (ph_vaddr ph mod PGSIZE =? 0) then mret None else
      r ← loaduvm (pf_readi ip) pgdir (ph_vaddr ph) (ph_off ph) (ph_filesz ph);
      if r <? 0 then mret None else next sz
  end.

(** The loop over [argv], from [argc]: the stack pointer after it and the
    addresses of the strings, [ustack[3..]]. *)
Fixpoint push_args (pgdir : Z) (argc : nat) (sp : Z) (argv : list (list Z)) : K (option (Z * list Z)) :=
  match argv with
  | [] => mret (Some (sp, []))
  | a :: argv' =>
      if (MAXARG <=? argc)%nat then mret None else
      let n := Z.of_nat (length a) + 1 in
      let sp := Z.land (u32 (sp - n)) (Z.lnot 3) in
      r ← copyout pgdir sp (a ++ [0]) n;
      if r <? 0 then mret None else
      o ← push_args pgdir (Datatypes.S argc) sp argv';
      match o with None => mret None | Some (sp', ps) => mret (Some (sp', sp :: ps)) end
  end.

(** The new image: [pgdir], [sz] and the registers [eip] and [esp]. *)
Record image := mk_image { im_pgdir : Z; im_sz : Z; im_entry : Z; im_sp : Z }.

(** From the user stack on, after the file is closed. *)
Definition make_stack (pgdir entry sz : Z) (argv : list (list Z)) : X (option image) :=
  let sz := PGROUNDUP sz in
  sz ← on_mem (Vm.allocuvm pgdir sz (u32 (sz + 2 * PGSIZE)));
  if sz =? 0 then bad (Some pgdir) None else
  on_mem (clearpteu pgdir (u32 (sz - 2 * PGSIZE)));;
  o ← on_mem (push_args pgdir 0 sz argv);
  match o with
  | None => bad (Some pgdir) None
  | Some (sp, ps) =>
      let argc := Z.of_nat (length ps) in
      let ustack := 0xffffffff :: argc :: u32 (sp - (argc + 1) * 4) :: ps ++ [0] in
      let sp := u32 (sp - (3 + argc + 1) * 4) in
      r ← on_mem (copyout pgdir sp (ustack ≫= le_bytes 4) ((3 + argc + 1) * 4));
      if r <? 0 then bad (Some pgdir) None else
      mret (Some (mk_image pgdir sz entry sp))
  end.

(** From the locked inode to the new image. *)
Definition build_image (ip : Z) (argv : list (list Z)) : X (option image) :=
  r ← on_files (pf_readi ip 0 elfhdr_size);
  if negb (u32 (fst r) =? elfhdr_size) then bad None (Some ip) else
  let elf := dec_elf (snd r) in
  if negb (e_magic elf =? ELF_MAGIC) then bad None (Some ip) else
  o ← on_mem Vm.setupkvm;
  match o with
  | None => bad None (Some ip)
  | Some pgdir =>
      o ← load_segments (Z.to_nat (e_phnum elf)) ip pgdir (s32 (e_phoff elf)) 0;
      match o with
      | None => bad (Some pgdir) (Some ip)
      | Some sz =>
          on_files (pf_iunlockput ip);;
          on_files pf_end_op;;
          make_stack pgdir (e_entry elf) sz argv
      end
  end.

(** The part of [path] after the last ['/']. *)
Fixpoint last_part (s last : list Z) : list Z :=
  match s with
  | [] => last
  | c :: s' => last_part s' (if c =? slash then s' else last)
  end.

(** Commit to the user image. *)
Definition commit_image (i : nat) (path : list Z) (im : image) : M (kstate (kmem_t * F)) Z :=
  upd_proc i (fun p => set_name (copy_name (name p) (last_part path path)) p);;
  p ← get_proc i;
  let oldpgdir := pgdir p in
  upd_proc i (set_pgdir (Some (im_pgdir im)));;
  upd_proc i (set_sz (im_sz im));;
  upd_proc i (fun p => set_tf (mk_tf (tf_eax (tf p)) (im_entry im) (im_sp im) (tf_eflags (tf p)) (tf_cs (tf p)) (tf_ds (tf p)) (tf_es (tf p)) (tf_ss (tf p))) p);;
  (if bool_decide (kstack p = None) then stop "switchuvm: no kstack" else skip);;
  match oldpgdir with Some d => lift (on_mem (Vm.freevm d)) | None => stop "freevm: no pgdir" end;;
  mret 0.

Definition exec (path : list Z) (argv : list (list Z)) : M (kstate (kmem_t * F)) Z :=
  i ← curproc;
  lift (on_files pf_begin_op);;
  p ← get_proc i;
  o ← lift (on_files (pf_namei (Kernel.cwd p) path));
  match o with
  | None => lift (on_files pf_end_op);; mret (-1)
  | Some ip =>
      lift (on_files (pf_ilock ip));;
      o ← lift (build_image ip argv);
      match o with None => mret (-1) | Some im => commit_image i path im end
  end.
End code.
