(* ===== verification/ExecSpec.v ===== *)
(** * ExecSpec: what loading a program does

    A pure reference of [exec]: from the bytes of the file and the arguments
    alone, the memory image, the entry point and the initial stack, or that the
    program is refused.  The theorems say that [exec] implements it on page
    tables, or fails for lack of memory, and that a failure changes nothing. *)

From Stdlib Require Import ZArith Lia.
From stdpp Require Import base numbers strings option list gmap.
From S2P Require Import Prelude KString Kernel Bio Log Fs Syscall File Kalloc Vm VmSpec VmOps Proc ProcSpec Exec.

(** ** The file layer, as exec sees it *)
Definition file_read (bs : list Z) (off n : Z) : Z * list Z :=
  let size := Z.of_nat (length bs) in
  if decide (off <= size /\ off + n < 2 ^ 32) then let k := Z.min n (size - off) in (k, slice (Z.to_nat off) (Z.to_nat k) bs) else (-1, []).

(** [pf_names f c path o]: from the working directory [c], [path] names nothing
    or a file with the inode and contents in [o]. *)
Class ProgFilesOk (F : Type) `{ProgFiles F} := {
  pf_idle : F -> Prop;
  pf_op : F -> Prop;
  pf_names : F -> option Z -> list Z -> option (Z * list Z) -> Prop;
  pf_ref : F -> Z -> list Z -> Prop;
  pf_locked : F -> Z -> list Z -> Prop;
  begin_op_law f c path o : pf_idle f -> pf_names f c path o -> wp pf_begin_op f (fun _ f' => pf_op f' /\ pf_names f' c path o);
  end_op_law f : pf_op f -> wp pf_end_op f (fun _ f' => pf_idle f');
  namei_law f c path o : pf_op f -> pf_names f c path o ->
    wp (pf_namei c path) f (fun r f' => match o with None => r = None /\ pf_op f' | Some (ip, bs) => r = Some ip /\ pf_ref f' ip bs end);
  ilock_law f ip bs : pf_ref f ip bs -> wp (pf_ilock ip) f (fun _ f' => pf_locked f' ip bs);
  readi_law f ip bs off n : pf_locked f ip bs -> 0 <= off < 2 ^ 32 -> 0 <= n < 2 ^ 32 ->
    wp (pf_readi ip off n) f (fun r f' => r = file_read bs off n /\ pf_locked f' ip bs);
  iunlockput_law f ip bs : pf_locked f ip bs -> wp (pf_iunlockput ip) f (fun _ f' => pf_op f');
  size_law f ip bs : pf_locked f ip bs -> Z.of_nat (length bs) <= MAXFILE * 512
}.

(** ** Reference *)
Definition byte_at (bs : list Z) (i : Z) : Z := nth (Z.to_nat i) bs 0.
(** The [n] bytes at [off] of the file, at the addresses from [va] on. *)
Definition overlay (bs : list Z) (va off n : Z) (img : Z -> Z) : Z -> Z :=
  fun x => if decide (va <= x < va + n) then byte_at bs (off + (x - va)) else img x.

(** A segment that can be loaded behind an image of [size] bytes. *)
Definition good_segment (bs : list Z) (size : Z) (ph : proghdr) : Prop :=
  let last := ph_vaddr ph + ph_memsz ph in
  ph_filesz ph <= ph_memsz ph /\ last < KERNBASE /\ 0 < Z.max size last /\ ph_vaddr ph mod PGSIZE = 0 /\
  (ph_filesz ph = 0 \/ ph_off ph + ph_filesz ph <= Z.of_nat (length bs)).
#[export] Instance good_segment_dec bs size ph : Decision (good_segment bs size ph).
Proof. unfold good_segment. apply _. Defined.

Fixpoint ref_segments (n : nat) (bs : list Z) (off size : Z) (img : Z -> Z) : option (Z * (Z -> Z)) :=
  match n with
  | O => Some (size, img)
  | Datatypes.S n' =>
      if decide (0 <= off /\ off + proghdr_size <= Z.of_nat (length bs)) then
        let ph := dec_ph (slice (Z.to_nat off) 32 bs) in
        if decide (ph_type ph = ELF_PROG_LOAD) then
          if decide (good_segment bs size ph)
          then ref_segments n' bs (off + proghdr_size) (Z.max size (ph_vaddr ph + ph_memsz ph)) (overlay bs (ph_vaddr ph) (ph_off ph) (ph_filesz ph) img)
          else None
        else ref_segments n' bs (off + proghdr_size) size img
      else None
  end.

(** The strings, pushed from [sp] down to at least [bottom]. *)
Fixpoint ref_args (bottom : Z) (argc : nat) (sp : Z) (argv : list (list Z)) : option (Z * list Z) :=
  match argv with
  | [] => Some (sp, [])
  | a :: argv' =>
      let sp := (sp - Z.of_nat (length a) - 1) / 4 * 4 in
      if decide ((argc < MAXARG)%nat /\ bottom <= sp) then
        r ← ref_args bottom (Datatypes.S argc) sp argv'; Some (fst r, sp :: snd r)
      else None
  end.

Record program := mk_program {
  pr_size : Z;          (** of the program, in bytes *)
  pr_bytes : Z -> Z;    (** its memory *)
  pr_entry : Z;
  pr_args : list Z;     (** where the argument strings are *)
  pr_sp : Z             (** below them: the stack pointer *)
}.
Definition pr_pages (p : program) : Z := npages (pr_size p).
(** What [main] finds at the stack pointer: a return address, [argc], [argv]
    and the array [argv] itself. *)
Definition initial_stack (esp : Z) (ps : list Z) : list Z :=
  0xffffffff :: Z.of_nat (length ps) :: esp + 12 :: ps ++ [0].

(** The stack above [n] pages of program and a guard page: where the strings
    are, and the stack pointer. *)
Definition ref_stack (n : Z) (argv : list (list Z)) : option (list Z * Z) :=
  if decide ((n + 2) * PGSIZE < KERNBASE) then
    a ← ref_args ((n + 1) * PGSIZE) 0 ((n + 2) * PGSIZE) argv;
    let esp := fst a - 4 * (4 + Z.of_nat (length (snd a))) in
    if decide ((n + 1) * PGSIZE <= esp) then Some (snd a, esp) else None
  else None.

Definition ref_exec (bs : list Z) (argv : list (list Z)) : option program :=
  if decide (elfhdr_size <= Z.of_nat (length bs)) then
    let elf := dec_elf (slice 0 52 bs) in
    if decide (e_magic elf = ELF_MAGIC) then
      r ← ref_segments (Z.to_nat (e_phnum elf)) bs (s32 (e_phoff elf)) 0 (fun _ => 0);
      a ← ref_stack (npages (fst r)) argv;
      Some (mk_program (fst r) (snd r) (e_entry elf) (fst a) (snd a))
    else None
  else None.

Section lifts.
Context {F : Type}.
Implicit Types (s : kmem_t) (f : F).
Lemma on_mem_ret {A : Type} (m : K A) s f a s' : m s = Ret a s' -> on_mem m (s, f) = Ret a (s', f).
Proof. unfold on_mem. cbn [fst snd]. by intros ->. Qed.
Lemma on_files_ret {A : Type} (m : M F A) s f a f' : m f = Ret a f' -> on_files m (s, f) = Ret a (s, f').
Proof. unfold on_files. cbn [fst snd]. by intros ->. Qed.
End lifts.

(** ** An address space under construction *)
Section fresh.
Context {I : Image}.
Implicit Types (g : ghost) (m : ram_t) (s : kmem_t).

Lemma user_flags w : user w = user (PTE_FLAGS w).
Proof using. unfold user, PTE_FLAGS. by rewrite <- Z.land_assoc. Qed.

(** The bytes a user program reads in the first [n] pages. *)
Definition shows d n (img : Z -> Z) m : Prop := forall x, 0 <= x < n * PGSIZE -> ubyte m d x = Some (img x).

Lemma shows_user d n img m v : shows d n img m -> 0 <= v < n -> user_page m d v.
Proof using.
  intros H Hv. specialize (H (v * PGSIZE) ltac:(unfold PGSIZE; lia)). unfold ubyte in H. rewrite vpn_page in H. cbv zeta in H.
  destruct (present _ && user _) eqn:E; [| done]. by apply andb_true_iff in E.
Qed.

(** [d] is new since [(g, s)] and has [n] user pages; nothing else changed. *)
Record fresh d n g s g' s' : Prop := {
  fr_inv : vm_inv g' s';
  fr_new : g d = Free;
  fr_dir : g' d = Dir;
  fr_range : 0 <= n <= UPAGES;
  fr_own : forall a, a <> d -> g' a = g a \/ (g a = Free /\ ((exists i, g' a = Tab d i) \/ exists v, v < n /\ g' a = User d v));
  fr_kernel : forall r, r ∈ kregions -> maps_region (ram s') d r;
  fr_pages : forall v, 0 <= v < n -> present (pte (ram s') d v) = true;
  fr_absent : absent d n UPAGES (ram s');
  fr_other : forall d' v, g d' = Dir -> 0 <= v < 2 ^ 20 -> pte (ram s') d' v = pte (ram s) d' v;
  fr_ram : forall a, g a <> Free -> ram s' !! a = ram s !! a
}.

Lemma fresh_created d g s g' s' : created d g s g' s' -> fresh d 0 g s g' s'.
Proof using.
  intros [C1 C2 C3 C4 C5 C6 C7 C8]. split; try done.
  - intros a Ha. destruct (C4 a Ha) as [? | [? ?]]; [by left | right; by split; [| left]].
  - lia.
  - intros v Hv. by rewrite C6.
Qed.

Lemma region_kernel r v : r ∈ kregions -> VmOps.inside r v -> UPAGES <= v < 2 ^ 20.
Proof using.
  intros Hr Hin. destruct kmap_regions as (_ & Hok & _). rewrite Forall_forall in Hok. specialize (Hok r Hr).
  destruct r as [[[v0 n0] pa0] perm0]. unfold region_ok, VmOps.inside in *. lia.
Qed.
Lemma maps_region_same m m' d r : r ∈ kregions -> (forall v, UPAGES <= v < 2 ^ 20 -> pte m' d v = pte m d v) -> maps_region m d r -> maps_region m' d r.
Proof using.
  intros Hr He Hm. destruct r as [[[v0 n0] pa0] perm0]. intros k Hk. rewrite He; [by apply Hm |].
  eapply region_kernel; [exact Hr |]. cbn [VmOps.inside]. lia.
Qed.

Section over.
Variables (g : ghost) (s : kmem_t).
Hypothesis H0 : vm_inv g s.

Lemma fresh_keep d n g1 s1 a : fresh d n g s g1 s1 -> g a <> Free -> g1 a = g a /\ untouched d g1 a.
Proof using H0.
  intros Hf Ha. assert (Hne : a <> d) by (intros ->; by destruct Ha; apply Hf). destruct (fr_own _ _ _ _ _ _ Hf a Hne) as [E | [? _]]; [| done].
  split; [done |]. unfold untouched. rewrite E. split; [done |]. split; [done |]. apply (free_owns_nothing g s d H0). apply Hf.
Qed.

(** A step that only adds tables and pages below [n']. *)
Lemma fresh_ext d n n' g1 s1 g2 s2 : fresh d n g s g1 s1 -> vm_inv g2 s2 -> n <= n' <= UPAGES ->
  (forall a, g2 a = g1 a \/ (g1 a = Free /\ ((exists i, g2 a = Tab d i) \/ exists v, v < n' /\ g2 a = User d v))) ->
  (forall d' v, g1 d' = Dir -> 0 <= v < 2 ^ 20 -> d' <> d \/ UPAGES <= v -> pte (ram s2) d' v = pte (ram s1) d' v) ->
  (forall v, 0 <= v < n' -> present (pte (ram s2) d v) = true) -> absent d n' UPAGES (ram s2) ->
  (forall a, g a <> Free -> ram s2 !! a = ram s1 !! a) -> fresh d n' g s g2 s2.
Proof using H0.
  intros Hf H2 Hn Hown Hpte Hpg Hab Hram. pose proof Hf as [F1 F2 F3 F4 F5 F6 F7 F8 F9 F10]. split; try done.
  - destruct (Hown d) as [-> | [? _]]; congruence.
  - lia.
  - intros a Ha. destruct (Hown a) as [-> | (E1 & Hx)].
    + destruct (F5 a Ha) as [? | (? & [? | (v & ? & ?)])]; [by left | right; split; [done | by left] | right; split; [done |]; right; exists v; split; [lia | done]].
    + right. split; [| done]. destruct (F5 a Ha) as [E | [? _]]; [congruence | done].
  - intros r Hr. apply (maps_region_same (ram s1)); [done | | by apply F6]. intros v Hv. rewrite UPAGES_eq in *. apply Hpte; [done | lia | right; lia].
  - intros d' v Hd' Hv. destruct (fresh_keep d n g1 s1 d' Hf) as [E _]; [congruence |]. rewrite Hpte; [by apply F9 | congruence | done | left; congruence].
  - intros a Ha. rewrite Hram by done. by apply F10.
Qed.

(** A step that changes only what is in the pages of [d], and entries of its
    pages below [n] that stay present. *)
Lemma fresh_data d n g1 s1 s2 : fresh d n g s g1 s1 -> vm_inv g1 s2 ->
  (forall d' v, g1 d' = Dir -> 0 <= v < 2 ^ 20 -> d' <> d \/ ~ 0 <= v < n -> pte (ram s2) d' v = pte (ram s1) d' v) ->
  (forall v, 0 <= v < n -> present (pte (ram s2) d v) = true) ->
  (forall a, g a <> Free -> ram s2 !! a = ram s1 !! a) -> fresh d n g s g1 s2.
Proof using H0.
  intros Hf H2 Hpte Hpg Hram. pose proof Hf as [F1 F2 F3 F4 F5 F6 F7 F8 F9 F10].
  eapply fresh_ext; [exact Hf | done | lia | by left | | done | | done].
  - intros d' v Hd' Hv Hne. apply Hpte; [done | done | destruct Hne; [by left | right; lia]].
  - intros v Hv. rewrite Hpte; [by apply F8 | done | apply upages_lt; lia | right; lia].
Qed.

(** Giving it up: exactly the state before. *)
Lemma fresh_free d n g1 s1 : fresh d n g s g1 s1 ->
  exists s', Vm.freevm d s1 = Ret tt s' /\ vm_inv g s' /\ forall a, g a <> Free -> ram s' !! a = ram s !! a.
Proof using H0.
  intros Hf. pose proof Hf as [F1 F2 F3 F4 F5 F6 F7 F8 F9 F10]. destruct (freevm_ok g1 s1 d F1 F3) as (s' & E & Hi & Hram). exists s'. split; [done |].
  destruct (free_owns_nothing g s d H0 F2) as [N1 N2]. assert (Hrel : forall a, released d g1 a = g a).
  { apply released_fresh; [done | done | done |]. intros a Ha. destruct (F5 a Ha) as [? | (? & [? | (v & _ & ?)])]; [by left | right; split; [done | by left] |].
    right. split; [done |]. right. by exists v. }
  split; [eapply vm_inv_ext; [exact Hi |]; intros a; by rewrite Hrel |].
  intros a Ha. destruct (fresh_keep d n g1 s1 a Hf Ha) as [Ea (Hn & _)]. rewrite Hram; [by apply F10 | done | by rewrite Hrel].
Qed.

(** Memory that runs out while [d] is built had few free pages before. *)
Lemma fresh_drained d n g1 s1 L n' : fresh d n g s g1 s1 -> n <= n' -> drained d L n' g1 -> drained d (d :: L) n' g.
Proof using H0.
  intros Hf Hn (g2 & s2 & Hi & Hk & Hd). exists g2, s2. split; [done |]. split.
  - intros a Ha. destruct (fresh_keep d n g1 s1 a Hf Ha) as [E _]. rewrite Hk; congruence.
  - intros a Ha. destruct (decide (a = d)) as [-> | Hne]; [left; by left |].
    destruct (fr_own _ _ _ _ _ _ Hf a Hne) as [E | (_ & [[i E] | (v & Hv & E)])].
    + destruct (Hd a) as [? | ?]; [congruence | left; by right | by right].
    + right; left. exists i. rewrite Hk; congruence.
    + right; right. exists v. split; [lia |]. rewrite Hk; congruence.
Qed.

(** ** Growing *)
Lemma shows_untouched d n img g1 s1 s2 : vm_inv g1 s1 -> g1 d = Dir -> n <= UPAGES -> shows d n img (ram s1) ->
  (forall v, 0 <= v < n -> pte (ram s2) d v = pte (ram s1) d v) -> (forall a, untouched d g1 a -> ram s2 !! a = ram s1 !! a) -> shows d n img (ram s2).
Proof using.
  intros H1 Hd Hn Hs Hp Hr x Hx. assert (Hv : 0 <= vpn x < n) by (unfold vpn, PGSIZE in *; dlia). destruct (shows_user d n img _ _ Hs Hv) as [Hpr Hus].
  rewrite <- (Hs x Hx). unfold ubyte. rewrite Hp by done. cbv zeta. rewrite Hpr, Hus. cbn [andb]. rewrite Hr; [done |].
  assert (Hu : g1 (tabp (pte (ram s1) d (vpn x))) = User d (vpn x)) by (apply (pi_user _ _ (proj2 H1)); [done | lia | done]).
  unfold untouched. rewrite Hu. split; [done |]. split; [congruence | done].
Qed.

Lemma filled_shows d lo hi img g1 s1 g2 s2 : vm_inv g1 s1 -> g1 d = Dir -> 0 <= lo <= hi -> hi <= UPAGES -> shows d lo img (ram s1) ->
  (forall x, lo * PGSIZE <= x -> img x = 0) -> filled d lo hi (fun _ => zero_page) (fun _ => grow_perm) g1 s1 g2 s2 -> shows d hi img (ram s2).
Proof using.
  intros H1 Hd Hlo Hhi Hs Hz [G1 G2 G3 G4 G5].
  assert (Hold : shows d lo img (ram s2)) by (eapply shows_untouched; [exact H1 | done | lia | done | | done]; intros v Hv; apply G4; [done | apply upages_lt; lia | right; lia]).
  intros x Hx. destruct (decide (x < lo * PGSIZE)); [apply Hold; lia |]. assert (Hv : lo <= vpn x < hi) by (unfold vpn, PGSIZE in *; dlia).
  destruct (G3 _ Hv) as (P1 & P2 & P3). unfold ubyte. cbv zeta. rewrite user_flags, P2, P1, P3. cbn [andb]. change (user (Z.lor grow_perm PTE_P)) with true. cbv iota.
  rewrite Hz by lia. cbn [mbind option_bind]. unfold zero_page. apply lookup_replicate_2. pose proof (Z.mod_pos_bound x PGSIZE ltac:(done)). lia.
Qed.

(** [allocuvm] while [d] is built. *)
Lemma grow_ok d oldsz newsz img g1 s1 : fresh d (npages oldsz) g s g1 s1 -> 0 <= oldsz < KERNBASE -> 0 <= newsz ->
  shows d (npages oldsz) img (ram s1) -> (forall x, npages oldsz * PGSIZE <= x -> img x = 0) ->
  let r := Z.max oldsz newsz in
  exists g2 s2, (Vm.allocuvm d oldsz newsz s1 = Ret r s2 /\ newsz < KERNBASE /\ fresh d (npages r) g s g2 s2 /\ shows d (npages r) img (ram s2)) \/
    (Vm.allocuvm d oldsz newsz s1 = Ret 0 s2 /\ fresh d (npages oldsz) g s g2 s2 /\
     (KERNBASE <= newsz \/ exists f, drained d [d; f] (npages newsz) g)).
Proof using H0.
  intros Hf Ho Hn Hs Hz r. pose proof Hf as [F1 F2 F3 F4 F5 F6 F7 F8 F9 F10].
  pose proof (allocuvm_ok g1 s1 d oldsz newsz F1 F3 ltac:(lia) F8) as Ha. destruct (Z.leb_spec KERNBASE newsz) as [Hk | Hk].
  { exists g1, s1. right. split; [done |]. split; [done | by left]. }
  destruct (Z.ltb_spec newsz oldsz) as [Hlt | Hge].
  { exists g1, s1. left. unfold r. rewrite Z.max_l by lia. done. }
  pose proof (npages_range newsz ltac:(lia)) as Hnp. assert (Hle : npages oldsz <= npages newsz) by (unfold npages, PGSIZE; dlia).
  destruct Ha as (r' & g2 & s2 & E & [[-> Hfi] | (-> & Hu & f & Hdr)]); exists g2, s2.
  - left. unfold r. rewrite Z.max_r by lia. split; [done |]. split; [done |]. split; [| eapply (filled_shows d (npages oldsz)); [exact F1 | done | lia | lia | done | done | exact Hfi]].
    pose proof Hfi as [G1 G2 G3 G4 G5]. eapply fresh_ext; [exact Hf | done | lia | | | | |].
    + intros a. destruct (G2 a) as [? | (? & [? | (v & ? & ?)])]; [by left | right; split; [done | by left] | right; split; [done |]; right; exists v; split; [lia | done]].
    + intros d' v Hd' Hv Hne. apply G4; [done | done | destruct Hne; [by left | right; lia]].
    + intros v Hv. destruct (decide (v < npages oldsz)); [| apply G3; lia]. rewrite G4; [apply F7; lia | done | apply upages_lt; lia | right; lia].
    + intros v Hv. rewrite G4; [apply F8; lia | done | apply upages_lt; lia | right; lia].
    + intros a Ha. apply G5. by eapply fresh_keep.
  - right. split; [done |]. pose proof Hu as [U1 U2 U3 U4 U5]. split.
    + eapply fresh_ext; [exact Hf | done | lia | | | | |].
      * intros a. destruct (U2 a) as [? | [? ?]]; [by left | right; by split; [| left]].
      * intros d' v Hd' Hv Hne. apply U4; [done | done | destruct Hne; [by left | right; lia]].
      * intros v Hv. rewrite U4; [by apply F7 | done | apply upages_lt; lia | right; lia].
      * intros v Hv. destruct (decide (v < npages newsz)); [apply U3; lia |]. rewrite U4; [apply F8; lia | done | apply upages_lt; lia | right; lia].
      * intros a Ha. apply U5. by eapply fresh_keep.
    + right. exists f. eapply fresh_drained; [exact Hf | done | done].
Qed.
End over.
End fresh.

(** ** Filling the pages *)
Section load.
Context {I : Image} {F : Type} {P : ProgFiles F} {L : ProgFilesOk F}.
Implicit Types (g : ghost) (m : ram_t) (s : kmem_t) (f : F).

(** Only the contents of the user pages of [d] changed. *)
Record rewritten d g s s' : Prop := {
  rw_inv : vm_inv g s';
  rw_pte : forall d' v, g d' = Dir -> 0 <= v < 2 ^ 20 -> pte (ram s') d' v = pte (ram s) d' v;
  rw_pde : forall d' i, g d' = Dir -> pde (ram s') d' i = pde (ram s) d' i;
  rw_ram : forall a, (forall v, g a <> User d v) -> ram s' !! a = ram s !! a
}.
Lemma rewritten_refl d g s : vm_inv g s -> rewritten d g s s.
Proof using. by split. Qed.
Lemma rewritten_trans d g s1 s2 s3 : rewritten d g s1 s2 -> rewritten d g s2 s3 -> rewritten d g s1 s3.
Proof using.
  intros [A1 A2 A3 A4] [B1 B2 B3 B4]. split; [done | intros; rewrite B2 by done; by apply A2 | intros; rewrite B3 by done; by apply A3 | intros; rewrite B4 by done; by apply A4].
Qed.
Lemma rewritten_page g s d v pg : vm_inv g s -> g d = Dir -> 0 <= v < UPAGES -> present (pte (ram s) d v) = true -> length pg = Z.to_nat PGSIZE ->
  let a := tabp (pte (ram s) d v) in let s' := with_ram (<[a := pg]> (ram s)) s in set_page a pg s = Ret tt s' /\ rewritten d g s s'.
Proof using.
  intros H Hd Hv Hpr Hl a s'. assert (Hu : g a = User d v) by by apply (pi_user _ _ (proj2 H)). pose proof (alloc_valid g s _ _ (proj1 H) Hu ltac:(done)) as Hva.
  destruct (set_page_vm g s a pg H Hva) as [E Hi]; [by rewrite Hu | by rewrite Hu | done |]. split; [done |]. split; [done | | |].
  - intros d' v' Hd' Hv'. apply (pte_set_page g); [done | done | done | by rewrite Hu].
  - intros d' i Hd'. apply pde_frame. cbn [s' with_ram ram]. rewrite lookup_insert_ne; [done | congruence].
  - intros b Hb. cbn [s' with_ram ram]. rewrite lookup_insert_ne; [done |]. intros <-. by apply (Hb v).
Qed.
Lemma fresh_rewritten g s d n g1 s1 s2 : vm_inv g s -> fresh d n g s g1 s1 -> rewritten d g1 s1 s2 -> fresh d n g s g1 s2.
Proof using.
  intros H0 Hf [R1 R2 R3 R4]. eapply fresh_data; [done | exact Hf | done | by intros; apply R2 | |].
  - intros v Hv. pose proof (fr_range _ _ _ _ _ _ Hf). rewrite R2; [by apply Hf | apply Hf | apply upages_lt; lia].
  - intros a Ha. apply R4. intros v Hu. destruct (fresh_keep g s H0 d n g1 s1 a Hf Ha) as [E _]. rewrite E in Hu.
    apply (free_owns_nothing g s d H0 (fr_new _ _ _ _ _ _ Hf)) in Hu. done.
Qed.

Lemma lookup_nth_lt {A : Type} (l : list A) (k : nat) (x : A) : (k < length l)%nat -> l !! k = Some (nth k l x).
Proof using. intros [y Hy]%lookup_lt_is_Some. rewrite Hy. f_equal. symmetry. by apply nth_lookup_Some. Qed.

(** One page of [loaduvm]: the chunk read from the file. *)
Lemma load_page g s d n img v xs : vm_inv g s -> g d = Dir -> n <= UPAGES -> shows d n img (ram s) -> 0 <= v < n -> (length xs <= Z.to_nat PGSIZE)%nat ->
  exists pg s', get_page (tabp (pte (ram s) d v)) s = Ret pg s /\ set_page (tabp (pte (ram s) d v)) (splice 0 xs pg) s = Ret tt s' /\ rewritten d g s s' /\
    shows d n (fun x => if decide (v * PGSIZE <= x < v * PGSIZE + Z.of_nat (length xs)) then nth (Z.to_nat (x - v * PGSIZE)) xs 0 else img x) (ram s').
Proof using.
  intros H Hd Hn Hs Hv Hl. destruct (shows_user d n img _ v Hs Hv) as [Hpr Hus].
  assert (Hu : g (tabp (pte (ram s) d v)) = User d v) by (apply (pi_user _ _ (proj2 H)); [done | lia | done]).
  destruct (alloc_page g s _ (proj1 H) (alloc_valid g s _ _ (proj1 H) Hu ltac:(done))) as (pg & Epg & Hlen).
  destruct (rewritten_page g s d v (splice 0 xs pg) H Hd ltac:(lia) Hpr) as [E Hrw]; [rewrite length_splice; [done | lia] |].
  eexists pg, _. split; [by apply get_page_ret |]. split; [exact E |]. split; [done |].
  intros x Hx. change 0%nat with (Z.to_nat 0). cbn [with_ram ram]. rewrite (ubyte_write g s d v 0 xs pg); [| try done; unfold PGSIZE in *; lia..| unfold KERNBASE; rewrite UPAGES_eq in *; unfold PGSIZE in *; lia].
  rewrite Z.add_0_r. destruct (decide _) as [[_ Hin] | Hout].
  - rewrite decide_True by done. apply lookup_nth_lt. lia.
  - rewrite decide_False by (intros Hin; by apply Hout). by apply Hs.
Qed.

Lemma shows_ext d n img img' m : shows d n img m -> (forall x, 0 <= x < n * PGSIZE -> img' x = img x) -> shows d n img' m.
Proof using. intros H He x Hx. rewrite He by done. by apply H. Qed.

Lemma nth_slice {A : Type} (o c k : nat) (l : list A) (x : A) : (k < c)%nat -> nth k (slice o c l) x = nth (o + k) l x.
Proof using. intros Hk. unfold slice. rewrite !nth_lookup, lookup_take_lt, lookup_drop by done. done. Qed.

(** A read that is asked for [c] bytes. *)
Lemma read_full bs off c : is_u32 off -> 0 <= c <= PGSIZE -> Z.of_nat (length bs) <= MAXFILE * 512 -> let r := file_read bs off c in
  (length (snd r) <= Z.to_nat PGSIZE)%nat /\
  if u32 (fst r) =? c then off + c <= Z.of_nat (length bs) /\ snd r = slice (Z.to_nat off) (Z.to_nat c) bs else Z.of_nat (length bs) < off + c.
Proof using.
  intros Ho Hc Hl r. unfold is_u32, PGSIZE, MAXFILE in *. unfold r, file_read. destruct (decide _) as [[H1 H2] | Hn]; cbn [fst snd].
  - split; [unfold slice; rewrite length_take; lia |]. rewrite u32_small by lia. destruct (Z.eqb_spec (Z.min c (Z.of_nat (length bs) - off)) c) as [E | E]; [| lia].
    split; [lia |]. by rewrite E.
  - split; [cbn; lia |]. change (u32 (-1)) with (2 ^ 32 - 1). destruct (Z.eqb_spec (2 ^ 32 - 1) c); [lia |]. destruct (decide (off <= Z.of_nat (length bs))); lia.
Qed.

Lemma load_loop_ok fuel g s f d n a off sz k img ip bs : vm_inv g s -> g d = Dir -> n <= UPAGES -> shows d n img (ram s) ->
  0 <= a -> a * PGSIZE + sz <= n * PGSIZE -> is_u32 off -> pf_locked f ip bs -> 0 <= k <= npages sz ->
  (k = 0 \/ off + k * PGSIZE <= Z.of_nat (length bs) \/ sz <= k * PGSIZE) -> npages sz - k < Z.of_nat fuel ->
  exists r s' f', loaduvm_loop (pf_readi ip) fuel d (a * PGSIZE) off (k * PGSIZE) sz (s, f) = Ret r (s', f') /\ pf_locked f' ip bs /\ rewritten d g s s' /\
    ((r = 0 /\ (k * PGSIZE < sz -> off + sz <= Z.of_nat (length bs)) /\
      shows d n (fun x => if decide ((a + k) * PGSIZE <= x < a * PGSIZE + sz) then byte_at bs (off + (x - a * PGSIZE)) else img x) (ram s')) \/
     (r = -1 /\ k * PGSIZE < sz /\ Z.of_nat (length bs) < off + sz)).
Proof.
  intros H Hd Hn Hs Ha Hsz Ho. assert (H4096 : PGSIZE = 4096) by done. revert s f k img H Hs. induction fuel as [| fuel IH]; intros s f k img H Hs Hf Hk Hko Hfu; [lia |].
  cbn [loaduvm_loop]. destruct (Z.ltb_spec (k * PGSIZE) sz) as [Hlt | Hge].
  2: { exists 0, s, f. split; [done |]. split; [done |]. split; [by apply rewritten_refl |]. left. split; [done |]. split; [lia |].
       eapply shows_ext; [exact Hs |]. intros x Hx. rewrite decide_False by lia. done. }
  pose proof (size_law f ip bs Hf) as Hbig. assert (Hvn : 0 <= a + k < n) by lia. assert (HvU : 0 <= a + k < UPAGES) by lia. pose proof (upages_lt _ HvU) as Hv20.
  destruct (shows_user d n img _ _ Hs Hvn) as [Hpr Hus].
  replace (u32 (a * PGSIZE + k * PGSIZE)) with ((a + k) * PGSIZE) by (rewrite u32_small; [lia | rewrite UPAGES_eq in *; lia]).
  assert (Hpd : present (pde (ram s) d ((a + k) / 1024)) = true) by (destruct (present (pde (ram s) d ((a + k) / 1024))) eqn:E; [done |]; apply pte_no_table in E; by rewrite E in Hpr).
  rewrite (bind_ret _ _ _ _ _ (on_mem_ret _ s f _ _ (walk_ok g s d _ H Hd (page_u32 _ Hv20)))), vpn_page, Hpd.
  rewrite (bind_ret _ _ _ _ _ (on_mem_ret _ s f _ _ (load_pte g s d _ H Hd Hv20 Hpd))). fold (tabp (pte (ram s) d (a + k))).
  set (c := if sz - k * PGSIZE <? PGSIZE then sz - k * PGSIZE else PGSIZE).
  assert (Hc : 0 < c <= PGSIZE /\ c <= sz - k * PGSIZE /\ (k * PGSIZE + c = sz \/ c = PGSIZE)) by (unfold c; destruct (Z.ltb_spec (sz - k * PGSIZE) PGSIZE); lia).
  replace (u32 (off + k * PGSIZE)) with (off + k * PGSIZE) by (symmetry; unfold is_u32, MAXFILE in *; rewrite H4096 in *; destruct Hko as [-> | Hko]; apply u32_small; lia).
  assert (Hok : is_u32 (off + k * PGSIZE)) by (unfold is_u32, MAXFILE in *; rewrite H4096 in *; destruct Hko as [-> | Hko]; lia).
  destruct (wp_elim _ _ _ (readi_law f ip bs (off + k * PGSIZE) c Hf Hok ltac:(lia))) as (r & f1 & Er & -> & Hf1).
  rewrite (bind_ret _ _ _ _ _ (on_files_ret _ s f _ _ Er)). destruct (read_full bs (off + k * PGSIZE) c Hok ltac:(lia) Hbig) as [Hl Hr].
  set (r := file_read bs (off + k * PGSIZE) c) in *. destruct (load_page g s d n img (a + k) (snd r) H Hd Hn Hs Hvn Hl) as (pg & s1 & E1 & E2 & Hrw & Hs1).
  rewrite (bind_ret _ _ _ _ _ (on_mem_ret _ s f1 _ _ E1)), (bind_ret _ _ _ _ _ (on_mem_ret _ s f1 _ _ E2)).
  destruct (u32 (fst r) =? c); cbn [negb].
  2: { exists (-1), s1, f1. split; [done |]. split; [done |]. split; [done |]. right. lia. }
  destruct Hr as [Hend Hbs]. replace (u32 (k * PGSIZE + PGSIZE)) with ((k + 1) * PGSIZE) by (rewrite u32_small; [lia | rewrite UPAGES_eq in *; lia]).
  destruct (IH s1 f1 (k + 1) _ (rw_inv _ _ _ _ Hrw) Hs1 Hf1) as (r' & s' & f' & E' & Hf' & Hrw' & Hres).
  - unfold npages in *. rewrite H4096 in *. dlia.
  - right. lia.
  - lia.
  - exists r', s', f'. split; [exact E' |]. split; [done |]. split; [by eapply rewritten_trans |].
    destruct Hres as [(-> & Hr & Hs') | (-> & Hr)]; [left | right; lia]. split; [done |]. split; [lia |].
    eapply shows_ext; [exact Hs' |]. intros x Hx. rewrite Hbs, length_slice by (unfold is_u32 in Hok; lia).
    destruct (decide ((a + (k + 1)) * PGSIZE <= x < a * PGSIZE + sz)); [by rewrite decide_True by lia |].
    destruct (decide ((a + k) * PGSIZE <= x < (a + k) * PGSIZE + Z.of_nat (Z.to_nat c))); [| by rewrite decide_False by lia].
    rewrite decide_True, nth_slice by lia. unfold byte_at. f_equal. unfold is_u32 in Hok. rewrite H4096 in *. lia.
Qed.

Lemma loaduvm_ok g s f d n va off sz img ip bs : vm_inv g s -> g d = Dir -> n <= UPAGES -> shows d n img (ram s) ->
  0 <= va -> va mod PGSIZE = 0 -> 0 <= sz -> va + sz <= n * PGSIZE -> is_u32 off -> pf_locked f ip bs ->
  exists r s' f', loaduvm (pf_readi ip) d va off sz (s, f) = Ret r (s', f') /\ pf_locked f' ip bs /\ rewritten d g s s' /\
    ((r = 0 /\ (sz = 0 \/ off + sz <= Z.of_nat (length bs)) /\ shows d n (overlay bs va off sz img) (ram s')) \/
     (r = -1 /\ 0 < sz /\ Z.of_nat (length bs) < off + sz)).
Proof.
  intros H Hd Hn Hs Hva Hm Hsz Hlim Ho Hf. assert (H4096 : PGSIZE = 4096) by done. unfold loaduvm. rewrite Hm. cbn [Z.eqb negb].
  assert (Ea : va = va / PGSIZE * PGSIZE) by (rewrite H4096 in *; dlia).
  destruct (load_loop_ok (Datatypes.S (Z.to_nat (sz / PGSIZE + 1))) g s f d n (va / PGSIZE) off sz 0 img ip bs H Hd Hn Hs) as (r & s' & f' & E & Hf' & Hrw & Hres);
    [rewrite H4096; dlia | lia | done | done | unfold npages; rewrite H4096; dlia | by left | unfold npages; rewrite H4096; dlia |].
  exists r, s', f'. rewrite Ea at 1. split; [exact E |]. split; [done |]. split; [done |].
  destruct Hres as [(-> & Hr & Hs') | (-> & Hr)]; [left | right; split; [done | lia]]. split; [done |]. split; [lia |].
  eapply shows_ext; [exact Hs' |]. intros x Hx. unfold overlay. rewrite Z.add_0_r, <- Ea. done.
Qed.

(** ** The program headers *)
Lemma field_range o n bs : 0 <= field o n bs < 256 ^ Z.of_nat n.
Proof using.
  unfold field, slice. pose proof (le_val_range (take n (drop o bs))) as Hr. rewrite length_take in Hr.
  assert (256 ^ Z.of_nat (n `min` length (drop o bs)) <= 256 ^ Z.of_nat n) by (apply Z.pow_le_mono_r; lia). lia.
Qed.
Lemma ph_range bs : is_u32 (ph_off (dec_ph bs)) /\ is_u32 (ph_vaddr (dec_ph bs)) /\ is_u32 (ph_filesz (dec_ph bs)) /\ is_u32 (ph_memsz (dec_ph bs)).
Proof using. split_and!; exact (field_range _ 4 bs). Qed.
Lemma ref_segments_mono n bs off sz img sz' img' : ref_segments n bs off sz img = Some (sz', img') -> sz <= sz'.
Proof using.
  revert off sz img. induction n as [| n IH]; intros off sz img; cbn [ref_segments]; [intros [= -> _]; lia |].
  repeat case_decide; try done; intros Hr%IH; lia.
Qed.

(** The result of reading a program header. *)
Lemma read_header bs off c : - 2 ^ 31 <= off < 2 ^ 31 -> 0 <= c <= PGSIZE -> Z.of_nat (length bs) <= MAXFILE * 512 -> let r := file_read bs (u32 off) c in
  if u32 (fst r) =? c then (0 <= off /\ off + c <= Z.of_nat (length bs)) /\ snd r = slice (Z.to_nat off) (Z.to_nat c) bs
  else ~ (0 <= off /\ off + c <= Z.of_nat (length bs)).
Proof using.
  intros Ho Hc Hl r. assert (Hu : is_u32 (u32 off)) by (apply Z.mod_pos_bound; lia). destruct (read_full bs (u32 off) c Hu Hc Hl) as [_ Hr]. fold r in Hr.
  assert (Eu : u32 off = if decide (0 <= off) then off else off + 2 ^ 32).
  { unfold u32. case_decide; [apply Z.mod_small; lia |]. rewrite <- (Z.mod_add off 1) by lia. apply Z.mod_small. lia. }
  unfold MAXFILE in *. destruct (u32 (fst r) =? c); rewrite Eu in Hr; case_decide; [destruct Hr as [H1 H2]; split; [lia | done] | destruct Hr as [Hr _]; lia | lia | lia].
Qed.

Section segments.
Variables (g : ghost) (s : kmem_t).
Hypothesis H0 : vm_inv g s.

(** What is known after the headers from [off] on. *)
Definition segments_post d n bs off sz img (r : option Z) g2 s2 : Prop :=
  match r with
  | Some sz' => exists img', ref_segments n bs off sz img = Some (sz', img') /\ 0 <= sz' < KERNBASE /\
      fresh d (npages sz') g s g2 s2 /\ shows d (npages sz') img' (ram s2) /\ forall x, sz' <= x -> img' x = 0
  | None => (exists k, fresh d k g s g2 s2) /\
      forall sz' img', ref_segments n bs off sz img = Some (sz', img') -> exists x, drained d [d; x] (npages sz') g
  end.

Lemma drained_mono d L' n n' g' : drained d L' n g' -> n <= n' -> drained d L' n' g'.
Proof using.
  intros (g1 & s1 & A & B & C) Hn. exists g1, s1. split; [done |]. split; [done |]. intros a Ha.
  destruct (C a Ha) as [? | [? | (v & ? & ?)]]; [by left | right; by left |]. right. right. exists v. split; [lia | done].
Qed.
Lemma npages_le x y : x <= y -> npages x <= npages y.
Proof using. unfold npages, PGSIZE. intros. dlia. Qed.

(** A segment: pages for it, then its bytes. *)
Lemma segment_ok d sz img g1 s1 f ip bs ph : fresh d (npages sz) g s g1 s1 -> 0 <= sz < KERNBASE -> shows d (npages sz) img (ram s1) ->
  (forall x, sz <= x -> img x = 0) -> pf_locked f ip bs -> is_u32 (ph_off ph) -> is_u32 (ph_vaddr ph) -> 0 <= ph_filesz ph <= ph_memsz ph ->
  let last := ph_vaddr ph + ph_memsz ph in let sz' := Z.max sz last in last < 2 ^ 32 ->
  exists r g2 s2, Vm.allocuvm d sz last s1 = Ret r s2 /\
    ((r = 0 /\ (exists k, fresh d k g s g2 s2) /\ (~ (last < KERNBASE /\ 0 < sz') \/ exists x, drained d [d; x] (npages last) g)) \/
     (r = sz' /\ 0 < sz' < KERNBASE /\ last < KERNBASE /\ fresh d (npages sz') g s g2 s2 /\
      (ph_vaddr ph mod PGSIZE = 0 -> exists r' s3 f3, loaduvm (pf_readi ip) d (ph_vaddr ph) (ph_off ph) (ph_filesz ph) (s2, f) = Ret r' (s3, f3) /\
        pf_locked f3 ip bs /\ fresh d (npages sz') g s g2 s3 /\
        ((r' = 0 /\ (ph_filesz ph = 0 \/ ph_off ph + ph_filesz ph <= Z.of_nat (length bs)) /\
          shows d (npages sz') (overlay bs (ph_vaddr ph) (ph_off ph) (ph_filesz ph) img) (ram s3)) \/
         (r' = -1 /\ ~ (ph_filesz ph = 0 \/ ph_off ph + ph_filesz ph <= Z.of_nat (length bs))))))).
Proof using H0.
  intros Hf Hsz Hs Hz Hl Ho Hva Hfs last sz' Hlast. assert (Hnp : sz <= npages sz * PGSIZE) by (unfold npages, PGSIZE; dlia).
  assert (Hmax : Z.max sz last <= npages (Z.max sz last) * PGSIZE) by (unfold npages, PGSIZE; dlia).
  destruct (grow_ok g s H0 d sz last img g1 s1 Hf Hsz) as (g2 & s2 & Hr); [unfold is_u32 in *; lia | done | intros x Hx; apply Hz; lia |]. fold sz' in Hr, Hmax.
  destruct Hr as [(E & Hk & Hf2 & Hs2) | (E & Hf2 & Hr)].
  2: { exists 0, g2, s2. split; [done |]. left. split; [done |]. split; [by eexists |]. destruct Hr as [? | ?]; [left; lia | by right]. }
  destruct (decide (sz' = 0)) as [Ez | Hnz]; [rewrite Ez in E; exists 0, g2, s2; split; [done |]; left; split; [done |]; split; [by eexists | left; lia] |].
  exists sz', g2, s2. split; [done |]. right. split; [done |]. split; [unfold is_u32 in *; lia |]. split; [done |]. split; [done |]. intros Hal.
  destruct (loaduvm_ok g2 s2 f d (npages sz') (ph_vaddr ph) (ph_off ph) (ph_filesz ph) img ip bs) as (r' & s3 & f3 & E' & Hl3 & Hrw & Hres);
    [apply Hf2 | apply Hf2 | apply Hf2 | done | unfold is_u32 in *; lia | done | lia | lia | done | done |].
  exists r', s3, f3. split; [done |]. split; [done |]. split; [by eapply fresh_rewritten |]. destruct Hres as [? | (-> & Hres)]; [by left | right; lia].
Qed.

Lemma segments_ok n d off sz img g1 s1 f ip bs : fresh d (npages sz) g s g1 s1 -> 0 <= sz < KERNBASE -> shows d (npages sz) img (ram s1) ->
  (forall x, sz <= x -> img x = 0) -> pf_locked f ip bs -> - 2 ^ 31 <= off < 2 ^ 31 ->
  exists r g2 s2 f2, load_segments n ip d off sz (s1, f) = Ret r (s2, f2) /\ pf_locked f2 ip bs /\ segments_post d n bs off sz img r g2 s2.
Proof using H0.
  revert off sz img g1 s1 f. induction n as [| n IH]; intros off sz img g1 s1 f Hf Hsz Hs Hz Hl Ho; cbn [load_segments].
  { exists (Some sz), g1, s1, f. split; [done |]. split; [done |]. by exists img. }
  pose proof (size_law f ip bs Hl) as Hbig. assert (Hps : proghdr_size = 32) by done.
  destruct (wp_elim _ _ _ (readi_law f ip bs (u32 off) proghdr_size Hl ltac:(apply Z.mod_pos_bound; lia) ltac:(lia))) as (rd & f1 & Er & -> & Hl1).
  rewrite (bind_ret _ _ _ _ _ (on_files_ret _ s1 f _ _ Er)). pose proof (read_header bs off proghdr_size Ho ltac:(unfold PGSIZE; lia) Hbig) as Hr. cbv zeta in Hr.
  unfold segments_post. cbn [ref_segments]. destruct (u32 (fst (file_read bs (u32 off) proghdr_size)) =? proghdr_size); cbn [negb].
  2: { exists None, g1, s1, f1. split; [done |]. split; [done |]. rewrite decide_False by done. split; [by eexists | done]. }
  destruct Hr as [Hin ->]. rewrite decide_True by done. change (Z.to_nat proghdr_size) with 32%nat. set (ph := dec_ph (slice (Z.to_nat off) 32 bs)).
  destruct (ph_range (slice (Z.to_nat off) 32 bs)) as (R1 & R2 & R3 & R4). fold ph in R1, R2, R3, R4. unfold MAXFILE in Hbig.
  assert (Hnext : (off + proghdr_size <? 2 ^ 31) = true) by (apply Z.ltb_lt; lia). unfold assertb. rewrite Hnext.
  destruct (Z.eqb_spec (ph_type ph) ELF_PROG_LOAD) as [Et | Ht]; cbn [negb].
  2: { rewrite decide_False by done. erewrite bind_ret by done. apply (IH (off + proghdr_size) sz img g1 s1 f1); try done. lia. }
  rewrite decide_True by done. unfold is_u32 in R2, R3, R4. set (last := ph_vaddr ph + ph_memsz ph).
  set (R := if decide (good_segment bs sz ph) then _ else None).
  assert (HR : forall x, R = Some x -> good_segment bs sz ph /\ ref_segments n bs (off + proghdr_size) (Z.max sz last) (overlay bs (ph_vaddr ph) (ph_off ph) (ph_filesz ph) img) = Some x)
    by (intros x; unfold R; by case_decide).
  assert (HN : forall g2 s2 f2 (o : outcome (kmem_t * F) (option Z)), o = Ret None (s2, f2) -> (exists k, fresh d k g s g2 s2) -> pf_locked f2 ip bs ->
    (forall sz' img', R = Some (sz', img') -> exists x, drained d [d; x] (npages sz') g) ->
    exists r g2 s2 f2, o = Ret r (s2, f2) /\ pf_locked f2 ip bs /\
      match r with
      | Some sz' => exists img', R = Some (sz', img') /\ 0 <= sz' < KERNBASE /\ fresh d (npages sz') g s g2 s2 /\ shows d (npages sz') img' (ram s2) /\ forall x, sz' <= x -> img' x = 0
      | None => (exists k, fresh d k g s g2 s2) /\ forall sz' img', R = Some (sz', img') -> exists x, drained d [d; x] (npages sz') g
      end) by (intros; by exists None, g2, s2, f2).
  destruct (Z.ltb_spec (ph_memsz ph) (ph_filesz ph)) as [Hm | Hm]; [apply (HN g1 s1 f1); [done | by eexists | done |]; intros ? ? [Hq _]%HR; unfold good_segment in Hq; lia |].
  destruct (Z.ltb_spec (u32 last) (ph_vaddr ph)) as [Hw | Hw].
  { apply (HN g1 s1 f1); [done | by eexists | done |]. intros ? ? [(_ & Hq & _) _]%HR. rewrite u32_small in Hw by (unfold KERNBASE in *; lia). lia. }
  assert (Hlast : last < 2 ^ 32).
  { destruct (decide (last < 2 ^ 32)); [done |]. exfalso. assert (E : u32 last = last - 2 ^ 32); [| unfold last in *; lia].
    symmetry. apply (Z.mod_unique _ (2 ^ 32) 1); unfold last in *; lia. }
  rewrite u32_small by (unfold last in *; lia). fold last.
  destruct (segment_ok d sz img g1 s1 f1 ip bs ph Hf Hsz Hs Hz Hl1 R1 R2 ltac:(lia) Hlast) as (r & g2 & s2 & E & Hres). fold last in E, Hres.
  rewrite (bind_ret _ _ _ _ _ (on_mem_ret _ s1 f1 _ _ E)). destruct Hres as [(-> & Hk & Hwhy) | (-> & Hp & Hkb & Hf2 & Hload)].
  { cbn [Z.eqb]. apply (HN g2 s2 f1); [done | done | done |]. intros sz' img' [(_ & Q1 & Q2 & _) Href]%HR. fold last in Q1, Q2. destruct Hwhy as [Hn | [x Hx]]; [lia |]. exists x.
    eapply drained_mono; [exact Hx |]. apply npages_le. apply ref_segments_mono in Href. lia. }
  destruct (Z.eqb_spec (Z.max sz last) 0); [lia |]. destruct (Z.eqb_spec (ph_vaddr ph mod PGSIZE) 0) as [Hal | Hal]; cbn [negb].
  2: { apply (HN g2 s2 f1); [done | by eexists | done |]. by intros ? ? [(_ & _ & _ & Q & _) _]%HR. }
  destruct (Hload Hal) as (r' & s3 & f3 & E3 & Hl3 & Hf3 & Hres). rewrite (bind_ret _ _ _ _ _ E3). destruct Hres as [(-> & Hfit & Hs3) | (-> & Hfit)]; cbn [Z.ltb Z.compare].
  2: { apply (HN g2 s3 f3); [done | by eexists | done |]. by intros ? ? [(_ & _ & _ & _ & Q) _]%HR. }
  unfold R. rewrite decide_True by (split_and!; fold last; [lia | lia | lia | done | done]). erewrite bind_ret by done. apply (IH (off + proghdr_size) (Z.max sz last) _ g2 s3 f3); try done; try lia.
  intros x Hx. unfold overlay. rewrite decide_False by (unfold last in *; lia). apply Hz. lia.
Qed.
End segments.
End load.

(** ** The user stack *)
Section stack.
Context {I : Image}.
Implicit Types (g : ghost) (m : ram_t) (s : kmem_t).

(** An entry whose flags change, but not what it maps. *)
Lemma entry_keep_inv g s s' d v w : vm_inv g s -> g d = Dir -> present w = present (pte (ram s) d v) -> tabp w = tabp (pte (ram s) d v) ->
  stored g d v w s s' -> vm_inv g s'.
Proof using.
  intros [Ha Hp] Hd Hw Ht [S1 S2 S3 S4 S5]. split; [done |].
  assert (Hs : forall d' v', g d' = Dir -> 0 <= v' < UPAGES -> present (pte (ram s') d' v') = present (pte (ram s) d' v') /\ tabp (pte (ram s') d' v') = tabp (pte (ram s) d' v')).
  { intros d' v' Hd' Hv'. destruct (decide (d' = d /\ v' = v)) as [[-> ->] | Hne]; [by rewrite S4 |].
    rewrite S5; [done | done | by apply upages_lt |]. destruct (decide (d' = d)) as [-> |]; [right | by left]. intros ->. by apply Hne. }
  split.
  - intros d' i Hd' Hi Hpr. rewrite S3 in * by done. by apply (pi_tab _ _ Hp).
  - intros a d' i Hx. destruct (pi_tab_of _ _ Hp a d' i Hx) as (Hd' & H'). by rewrite S3 by done.
  - intros d' v' Hd' Hv' Hpr. destruct (Hs d' v' Hd' Hv') as [E1 E2]. rewrite E1 in Hpr. rewrite E2. by apply (pi_user _ _ Hp).
  - intros a d' v' Hx. destruct (pi_user_of _ _ Hp a d' v' Hx) as (Hd' & Hv' & H'). destruct (Hs d' v' Hd' Hv') as [E1 E2]. by rewrite E1, E2.
Qed.

Lemma clear_user w : is_u32 w -> let w' := Z.land w (Z.lnot PTE_U) in is_u32 w' /\ present w' = present w /\ tabp w' = tabp w /\ user w' = false.
Proof using.
  intros Hw w'. unfold w'. split_and!.
  - assert (E : Z.land w (Z.lnot PTE_U) = u32 (Z.land w (Z.lnot PTE_U))).
    { unfold u32. rewrite <- Z.land_ones, <- Z.land_assoc, (Z.land_comm (Z.lnot _)), Z.land_assoc, Z.land_ones by lia. f_equal. symmetry. by apply Z.mod_small. }
    rewrite E. apply Z.mod_pos_bound. lia.
  - unfold present. by rewrite <- Z.land_assoc.
  - unfold tabp, PTE_ADDR. by rewrite <- Z.land_assoc.
  - unfold user. by rewrite <- Z.land_assoc, Z.land_0_r.
Qed.

Section over.
Variables (g : ghost) (s : kmem_t).
Hypothesis H0 : vm_inv g s.

Lemma table_present d v m : present (pte m d v) = true -> present (pde m d (v / 1024)) = true.
Proof using. intros Hpr. destruct (present (pde m d (v / 1024))) eqn:E; [done |]. apply pte_no_table in E. by rewrite E in Hpr. Qed.

(** [clearpteu] of a page of [d]. *)
Lemma guard_ok d n v g1 s1 : fresh d n g s g1 s1 -> 0 <= v < n ->
  exists s2, clearpteu d (v * PGSIZE) s1 = Ret tt s2 /\ fresh d n g s g1 s2 /\ user (pte (ram s2) d v) = false /\
    (forall v', 0 <= v' < 2 ^ 20 -> v' <> v -> pte (ram s2) d v' = pte (ram s1) d v') /\ forall a, untouched d g1 a -> ram s2 !! a = ram s1 !! a.
Proof using H0.
  intros Hf Hv. pose proof Hf as [F1 F2 F3 F4 F5 F6 F7 F8 F9 F10]. pose proof (upages_lt v ltac:(lia)) as Hv20. pose proof (F7 v Hv) as Hpr. pose proof (table_present _ _ _ Hpr) as Hpd.
  destruct (clear_user (pte (ram s1) d v)) as (W1 & W2 & W3 & W4); [unfold pte; rewrite Hpd; apply word_range |].
  destruct (store_pte g1 s1 d v _ (proj1 F1) (pi_tab _ _ (proj2 F1)) F3 Hv20 Hpd W1) as (s2 & E & Hst). exists s2.
  pose proof (entry_keep_inv g1 s1 s2 d v _ F1 F3 W2 W3 Hst) as Hi. pose proof Hst as [S1 S2 S3 S4 S5]. split.
  { unfold clearpteu. rewrite (bind_ret _ _ _ _ _ (walk_ok g1 s1 d _ F1 F3 (page_u32 v Hv20))), vpn_page, Hpd.
    by rewrite (bind_ret _ _ _ _ _ (load_pte g1 s1 d v F1 F3 Hv20 Hpd)). }
  assert (Hram : forall a, untouched d g1 a -> ram s2 !! a = ram s1 !! a) by (intros a (_ & _ & Ha); by apply S2).
  split; [| split; [by rewrite S4 | split; [intros v' Hv' Hne; by apply S5; [| | right] | done]]].
  eapply fresh_data; [done | exact Hf | done | | | intros a Ha; apply Hram; exact (proj2 (fresh_keep g s H0 d n g1 s1 a Hf Ha))].
  - intros d' v' Hd' Hv' Hne. apply S5; [done | done |]. destruct Hne; [by left | right; intros ->; lia].
  - intros v' Hv'. destruct (decide (v' = v)) as [-> |]; [by rewrite S4, W2 |]. rewrite S5; [by apply F7 | done | apply upages_lt; lia | by right].
Qed.
End over.

(** A page of the kernel is refused at once. *)
Lemma copyout_kernel g s d v0 n0 pa0 v va buf len : vm_inv g s -> g d = Dir -> is_u32 va -> vpn va = v -> 0 < len ->
  (v0, n0, pa0, PTE_W) ∈ kregions -> maps_region (ram s) d (v0, n0, pa0, PTE_W) -> v0 <= v <= v0 + n0 -> copyout d va buf len s = Ret (-1) s.
Proof.
  intros H Hd Hva Hv Hlen Hr Hm Hin. unfold copyout. cbn [copyout_loop]. destruct (Z.gtb_spec len 0); [| lia].
  destruct kmap_regions as (_ & Hok & _). rewrite Forall_forall in Hok. destruct (Hok _ Hr) as (R1 & R2 & R3 & R4 & R5 & R6 & R7).
  assert (Hv20 : 0 <= v < 2 ^ 20) by (rewrite UPAGES_eq in *; lia). specialize (Hm (v - v0) ltac:(lia)). replace (v0 + (v - v0)) with v in Hm by lia. unfold kentry in Hm.
  destruct (entry_facts (pa0 + (v - v0) * PGSIZE) PTE_W) as (_ & _ & _ & W1 & W2); [unfold PGSIZE in *; lia | unfold PGSIZE in *; dlia | done |]. rewrite <- Hm in W1, W2.
  assert (E0 : PGROUNDDOWN va = v * PGSIZE) by (rewrite rounddown_eq; unfold vpn, PGSIZE in *; dlia). rewrite E0. unfold uva2ka.
  pose proof (table_present _ _ _ W1) as Hpd. unfold mbind at 1. unfold M_bind at 1. rewrite (bind_ret _ _ _ _ _ (walk_ok g s d _ H Hd (page_u32 v Hv20))), vpn_page, Hpd.
  erewrite bind_ret by done. rewrite (bind_ret _ _ _ _ _ (load_pte g s d v H Hd Hv20 Hpd)), W1, W2. done.
Qed.

Lemma land_word x : Z.land x (Z.lnot 3) = x / 4 * 4.
Proof using. change 3 with (Z.ones 2). rewrite <- Z.ldiff_land, Z.ldiff_ones_r by lia. rewrite Z.shiftl_mul_pow2, Z.shiftr_div_pow2 by lia. done. Qed.
Lemma copies_rewritten d va buf r g s s' : copies d va buf r g s s' -> rewritten d g s s'.
Proof using. intros [C1 C2 C3 C4 C5]. by split. Qed.
Lemma rewritten_user d g s s' v : rewritten d g s s' -> g d = Dir -> 0 <= v < 2 ^ 20 -> user_page (ram s') d v <-> user_page (ram s) d v.
Proof using. intros [_ R2 _ _] Hd Hv. unfold user_page. by rewrite R2. Qed.

(** A NUL-terminated string at [p]. *)
Definition string_at m d (p : Z) (a : list Z) : Prop := forall k, (k <= length a)%nat -> ubyte m d (p + Z.of_nat k) = (a ++ [0]) !! k.

(** A stack of one page over a guard page, above [n] pages of program. *)
Record stacked d n g s g' s' : Prop := {
  sk_fresh : fresh d (n + 2) g s g' s';
  sk_range : 0 <= n /\ (n + 2) * PGSIZE <= KERNBASE;
  sk_guard : ~ user_page (ram s') d n;
  sk_stack : user_page (ram s') d (n + 1)
}.
Lemma stacked_rewritten d n g s g' s1 s2 : vm_inv g s -> stacked d n g s g' s1 -> rewritten d g' s1 s2 -> stacked d n g s g' s2.
Proof using.
  intros H0 [K1 K2 K3 K4] Hr. assert (Hv : 0 <= n + 1 < 2 ^ 20) by (unfold KERNBASE, PGSIZE in *; lia). pose proof (fr_dir _ _ _ _ _ _ K1) as Hd.
  split; [by eapply fresh_rewritten | done | rewrite rewritten_user; [done | done | done | lia] | by rewrite rewritten_user].
Qed.

(** A write to the stack, or past its end into the guard page. *)
Lemma stack_write d n g s g1 s1 va buf : vm_inv g s -> stacked d n g s g1 s1 -> buf <> [] -> 0 <= va -> va + Z.of_nat (length buf) <= (n + 2) * PGSIZE ->
  n * PGSIZE < va + Z.of_nat (length buf) ->
  exists r s2, copyout d va buf (Z.of_nat (length buf)) s1 = Ret r s2 /\ rewritten d g1 s1 s2 /\
    if decide ((n + 1) * PGSIZE <= va) then r = 0 /\ forall d' x, g1 d' = Dir -> 0 <= x < KERNBASE -> ubyte (ram s2) d' x =
        if decide (d' = d /\ va <= x < va + Z.of_nat (length buf)) then buf !! Z.to_nat (x - va) else ubyte (ram s1) d' x
    else r = -1.
Proof.
  intros H0 [K1 K2 K3 K4] Hb Hva Hend Hst. assert (H4096 : PGSIZE = 4096) by done. pose proof K1 as [F1 F2 F3 F4 F5 F6 F7 F8 F9 F10].
  destruct (copyout_ok g1 s1 d va buf F1 F3 Hva) as (r & s2 & E & Hc); [lia | |].
  { intros v Hv. apply table_present, F7. unfold npages, vpn in Hv. rewrite H4096 in *. dlia. }
  exists r, s2. split; [done |]. split; [by eapply copies_rewritten |]. destruct (co_res _ _ _ _ _ _ _ Hc) as [(-> & Hu & Hby) | (-> & v & Hv & Hnu)].
  - case_decide as Hge; [done |]. destruct K3. apply (Hu Hb). unfold npages, vpn. rewrite H4096 in *. dlia.
  - case_decide as Hge; [| done]. destruct Hnu. assert (v = n + 1) as -> by (unfold npages, vpn in Hv; rewrite H4096 in *; dlia). done.
Qed.

Lemma string_written d g1 s1 s2 p a : g1 d = Dir -> 0 <= p -> p + Z.of_nat (length a) + 1 <= KERNBASE ->
  (forall d' x, g1 d' = Dir -> 0 <= x < KERNBASE -> ubyte (ram s2) d' x =
    if decide (d' = d /\ p <= x < p + Z.of_nat (length (a ++ [0]))) then (a ++ [0]) !! Z.to_nat (x - p) else ubyte (ram s1) d' x) -> string_at (ram s2) d p a.
Proof using.
  intros Hd Hp Hk Hb k Hkl. rewrite Hb, decide_True; [f_equal; lia | rewrite length_app; cbn [length]; lia | done | lia].
Qed.

Lemma push_ok argv d n g s g1 s1 argc sp : vm_inv g s -> stacked d n g s g1 s1 -> (n + 1) * PGSIZE <= sp <= (n + 2) * PGSIZE -> sp mod 4 = 0 ->
  Forall (fun a => Z.of_nat (length a) < 2 ^ 25) argv ->
  exists o s2, push_args d argc sp argv s1 = Ret o s2 /\ rewritten d g1 s1 s2 /\ o = ref_args ((n + 1) * PGSIZE) argc sp argv /\
    match o with
    | None => True
    | Some (sp', ps) => (n + 1) * PGSIZE <= sp' <= sp /\ sp' mod 4 = 0 /\
        Forall2 (fun p a => sp' <= p /\ p + Z.of_nat (length a) < (n + 2) * PGSIZE /\ string_at (ram s2) d p a) ps argv /\
        forall d' x, g1 d' = Dir -> 0 <= x < KERNBASE -> ~ (d' = d /\ sp' <= x < sp) -> ubyte (ram s2) d' x = ubyte (ram s1) d' x
    end.
Proof.
  intros H0. revert s1 argc sp. induction argv as [| a argv IH]; intros s1 argc sp Hst Hsp Hal Hlen; cbn [push_args ref_args].
  { exists (Some (sp, [])), s1. split; [done |]. split; [apply rewritten_refl; apply Hst |]. split; [done |]. split; [lia |]. split; [done |]. split; [by constructor | done]. }
  apply Forall_cons in Hlen as [Ha Hlen]. pose proof (sk_range _ _ _ _ _ _ Hst) as Hn. pose proof (sk_fresh _ _ _ _ _ _ Hst) as Hf. assert (H4096 : PGSIZE = 4096) by done.
  destruct (Nat.leb_spec MAXARG argc) as [Hm | Hm].
  { exists None, s1. split; [done |]. split; [apply rewritten_refl; apply Hf |]. split; [| done]. by rewrite decide_False by lia. }
  rewrite land_word. set (len := Z.of_nat (length a) + 1). replace (sp - Z.of_nat (length a) - 1) with (sp - len) by lia.
  assert (Ela : len = Z.of_nat (length (a ++ [0]))) by (rewrite length_app; cbn [length]; lia).
  destruct (decide (sp - len < 0)) as [Hwrap | Hno].
  { assert (Eu : u32 (sp - len) = sp - len + 2 ^ 32) by (symmetry; apply (Z.mod_unique _ (2 ^ 32) (-1)); rewrite H4096 in *; lia). rewrite Eu.
    set (va := (sp - len + 2 ^ 32) / 4 * 4). assert (Hva : DEVSPACE <= va < 2 ^ 32) by (unfold va, DEVSPACE; rewrite H4096 in *; dlia).
    assert (E : copyout d va (a ++ [0]) len s1 = Ret (-1) s1).
    { unfold DEVSPACE in Hva. eapply (copyout_kernel g1 s1 d (vpn DEVSPACE) (2 ^ 20 - vpn DEVSPACE - 1) DEVSPACE); [apply Hf | apply Hf | unfold is_u32; lia | reflexivity | lia | | |].
      - unfold kregions. do 3 right. by left.
      - apply Hf. unfold kregions. do 3 right. by left.
      - change (vpn DEVSPACE) with 1040384. unfold vpn. rewrite H4096. dlia. }
    rewrite (bind_ret _ _ _ _ _ E). exists None, s1. split; [done |]. split; [apply rewritten_refl; apply Hf |]. split; [| done]. rewrite decide_False; [done |].
    intros [_ Hx]. rewrite H4096 in *. dlia. }
  rewrite u32_small by (unfold KERNBASE in *; rewrite H4096 in *; lia). set (va := (sp - len) / 4 * 4). assert (Hva : 0 <= va <= sp - len /\ sp - len - 3 <= va) by (unfold va; dlia).
  destruct (stack_write d n g s g1 s1 va (a ++ [0]) H0 Hst) as (r & s2 & E & Hrw & Hres); [by destruct a | lia | lia | rewrite H4096 in *; lia |].
  rewrite <- Ela in E. rewrite (bind_ret _ _ _ _ _ E). destruct (decide ((n + 1) * PGSIZE <= va)) as [Hge | Hlt].
  2: { rewrite Hres. exists None, s2. split; [done |]. split; [done |]. split; [| done]. by rewrite decide_False by lia. }
  destruct Hres as [-> Hby]. cbn [Z.ltb Z.compare]. rewrite decide_True by done.
  destruct (IH s2 (Datatypes.S argc) va) as (o & s3 & E3 & Hrw3 & Eo & Ho); [by eapply stacked_rewritten | lia | unfold va; by rewrite Z.mod_mul | done |].
  rewrite (bind_ret _ _ _ _ _ E3), <- Eo. pose proof (rewritten_trans _ _ _ _ _ Hrw Hrw3) as Hrw'. destruct o as [[sp' ps] |]; [| by exists None, s3].
  exists (Some (sp', va :: ps)), s3. split; [done |]. split; [done |]. split; [done |]. destruct Ho as (O1 & O2 & O3 & O4). split; [lia |]. split; [done |]. split.
  - constructor; [| done]. split; [lia |]. split; [lia |]. intros k Hk. assert (Hsa : string_at (ram s2) d va a) by (eapply string_written; [apply Hf | lia | lia | exact Hby]).
    rewrite O4; [by apply Hsa | apply Hf | lia | lia].
  - intros d' x Hd' Hx Hout. rewrite O4; [| done | done | lia]. rewrite Hby by done. rewrite decide_False; [done | lia].
Qed.

(** ** The whole stack *)
(** What a user program of [d] sees: the program, the guard page, the arguments. *)
Record image_at d n img argv ps esp m : Prop := {
  ia_bytes : shows d n img m;
  ia_guard : forall x, n * PGSIZE <= x < (n + 1) * PGSIZE -> ubyte m d x = None;
  ia_args : Forall2 (fun p a => (n + 1) * PGSIZE <= p /\ p + Z.of_nat (length a) < (n + 2) * PGSIZE /\ string_at m d p a) ps argv;
  ia_sp : (n + 1) * PGSIZE <= esp /\ esp + 4 * Z.of_nat (length (initial_stack esp ps)) <= (n + 2) * PGSIZE;
  ia_stack : forall k y, (initial_stack esp ps ≫= le_bytes 4) !! k = Some y -> ubyte m d (esp + Z.of_nat k) = Some y;
  ia_rest : absent d (n + 2) UPAGES m
}.

Lemma guard_unreadable d n m : user (pte m d n) = false -> forall x, n * PGSIZE <= x < (n + 1) * PGSIZE -> ubyte m d x = None.
Proof using.
  intros Hu x Hx. unfold ubyte. replace (vpn x) with n by (unfold vpn, PGSIZE in *; dlia). cbv zeta. by rewrite Hu, andb_false_r.
Qed.
Lemma length_words ws : length (ws ≫= le_bytes 4) = (4 * length ws)%nat.
Proof using. induction ws as [| w ws IH]; [done |]. rewrite bind_cons, length_app, length_le_bytes, IH. cbn [length]. lia. Qed.
Lemma ref_args_length bottom argc sp argv sp' ps : ref_args bottom argc sp argv = Some (sp', ps) -> length ps = length argv /\ ((argc <= MAXARG)%nat -> argc + length argv <= MAXARG)%nat.
Proof using.
  revert argc sp sp' ps. induction argv as [| a argv IH]; intros argc sp sp' ps; cbn [ref_args]; [intros [= <- <-]; cbn [length]; lia |].
  case_decide as Hc; [| done]. destruct (ref_args bottom (Datatypes.S argc) _ argv) as [[sp1 ps1] |] eqn:E; [| done]. intros [= <- <-]. apply IH in E. cbn [length]. lia.
Qed.

Section make.
Context {F : Type} {P : ProgFiles F}.
Variables (g : ghost) (s : kmem_t).
Hypothesis H0 : vm_inv g s.

(** [bad] once the file is closed. *)
Lemma bad_ok {A : Type} d n g1 s1 (f : F) : fresh d n g s g1 s1 ->
  exists s2, bad (A := A) (Some d) None (s1, f) = Ret None (s2, f) /\ vm_inv g s2 /\ forall a, g a <> Free -> ram s2 !! a = ram s !! a.
Proof using H0.
  intros Hf. destruct (fresh_free g s H0 d n g1 s1 Hf) as (s2 & E & Hi & Hram). exists s2. split; [| done]. unfold bad.
  rewrite (bind_ret _ _ _ _ _ (on_mem_ret _ s1 f _ _ E)). done.
Qed.

(** Two pages above the program, the lower one closed. *)
Lemma stack_pages d n img g1 s1 : fresh d n g s g1 s1 -> shows d n img (ram s1) -> (forall x, n * PGSIZE <= x -> img x = 0) -> n * PGSIZE < KERNBASE ->
  exists g2 s2, (Vm.allocuvm d (n * PGSIZE) ((n + 2) * PGSIZE) s1 = Ret ((n + 2) * PGSIZE) s2 /\ (n + 2) * PGSIZE < KERNBASE /\
      exists s3, clearpteu d (n * PGSIZE) s2 = Ret tt s3 /\ stacked d n g s g2 s3 /\ shows d n img (ram s3) /\ user (pte (ram s3) d n) = false) \/
    (Vm.allocuvm d (n * PGSIZE) ((n + 2) * PGSIZE) s1 = Ret 0 s2 /\ fresh d n g s g2 s2 /\
      (KERNBASE <= (n + 2) * PGSIZE \/ exists x, drained d [d; x] (n + 2) g)).
Proof using H0.
  intros Hf Hs Hz Hk. pose proof (fr_range _ _ _ _ _ _ Hf) as Hn. assert (H4096 : PGSIZE = 4096) by done. assert (Enp : forall k, npages (k * PGSIZE) = k) by (intros k; unfold npages; rewrite H4096; dlia).
  destruct (grow_ok g s H0 d (n * PGSIZE) ((n + 2) * PGSIZE) img g1 s1) as (g2 & s2 & Hr); rewrite ?Enp; try done; try (rewrite H4096 in *; lia).
  rewrite Z.max_r, !Enp in Hr by (rewrite H4096 in *; lia). exists g2, s2. destruct Hr as [(E & Hlim & Hf2 & Hs2) | (E & Hf2 & Hr)]; [left | by right].
  split; [done |]. split; [done |]. destruct (guard_ok g s H0 d (n + 2) n g2 s2 Hf2 ltac:(lia)) as (s3 & E3 & Hf3 & Hu & Hp3 & Hr3). exists s3. split; [done |].
  assert (Hs3 : shows d n img (ram s3)).
  { eapply (shows_untouched d n img g2 s2); [apply Hf2 | apply Hf2 | lia | intros x Hx; apply Hs2; rewrite H4096 in *; lia | | done].
    intros v Hv. apply Hp3; [apply upages_lt; lia | lia]. }
  split; [| done]. split; [done | lia | intros [_ ?]; congruence |]. assert (Hv : 0 <= n + 1 < 2 ^ 20) by (unfold KERNBASE in *; rewrite H4096 in *; lia).
  unfold user_page. rewrite Hp3 by lia. apply (shows_user d (n + 2) img); [done | lia].
Qed.

(** [ustack] below the strings. *)
Lemma ustack_ok d n g1 s1 sp ps : stacked d n g s g1 s1 -> (n + 1) * PGSIZE <= sp <= (n + 2) * PGSIZE -> (length ps <= MAXARG)%nat ->
  let argc := Z.of_nat (length ps) in let esp := sp - 4 * (4 + argc) in
  u32 (sp - (3 + argc + 1) * 4) = esp /\ u32 (sp - (argc + 1) * 4) = esp + 12 /\
  exists r s2, copyout d esp (initial_stack esp ps ≫= le_bytes 4) ((3 + argc + 1) * 4) s1 = Ret r s2 /\ rewritten d g1 s1 s2 /\
    if decide ((n + 1) * PGSIZE <= esp) then r = 0 /\ forall d' x, g1 d' = Dir -> 0 <= x < KERNBASE -> ubyte (ram s2) d' x =
        if decide (d' = d /\ esp <= x < sp) then (initial_stack esp ps ≫= le_bytes 4) !! Z.to_nat (x - esp) else ubyte (ram s1) d' x
    else r = -1.
Proof using H0.
  intros Hst Hsp Hps argc esp. pose proof (sk_range _ _ _ _ _ _ Hst) as Hn. assert (H4096 : PGSIZE = 4096) by done. unfold MAXARG, KERNBASE in *.
  assert (Hal : length (initial_stack esp ps ≫= le_bytes 4) = (4 * (4 + length ps))%nat) by (rewrite length_words; unfold initial_stack; cbn [length]; rewrite length_app; cbn [length]; lia).
  split; [rewrite u32_small; rewrite H4096 in *; lia |]. split; [rewrite u32_small; rewrite H4096 in *; lia |].
  destruct (stack_write d n g s g1 s1 esp (initial_stack esp ps ≫= le_bytes 4) H0 Hst) as (r & s2 & E & Hrw & Hres).
  - intros Hb. by rewrite Hb in Hal.
  - rewrite H4096 in *. lia.
  - rewrite Hal. lia.
  - rewrite Hal, H4096 in *. lia.
  - exists r, s2. rewrite Hal in E. split; [rewrite <- E; f_equal; lia |]. split; [done |]. case_decide; [| done]. destruct Hres as [-> Hby]. split; [done |].
    intros d' x Hd' Hx. rewrite Hby by done. rewrite Hal. apply decide_ext. lia.
Qed.

Lemma make_stack_ok d entry sz img argv g1 s1 (f : F) : fresh d (npages sz) g s g1 s1 -> 0 <= sz < KERNBASE -> shows d (npages sz) img (ram s1) ->
  (forall x, sz <= x -> img x = 0) -> Forall (fun a => Z.of_nat (length a) < 2 ^ 25) argv ->
  exists o s2, make_stack d entry sz argv (s1, f) = Ret o (s2, f) /\
    match o with
    | None => vm_inv g s2 /\ (forall a, g a <> Free -> ram s2 !! a = ram s !! a) /\
        (ref_stack (npages sz) argv = None \/ exists x, drained d [d; x] (npages sz + 2) g)
    | Some im => exists ps esp g2, ref_stack (npages sz) argv = Some (ps, esp) /\ im = mk_image d ((npages sz + 2) * PGSIZE) entry esp /\
        fresh d (npages sz + 2) g s g2 s2 /\ image_at d (npages sz) img argv ps esp (ram s2)
    end.
Proof using H0.
  intros Hf Hsz Hs Hz Hlen. assert (H4096 : PGSIZE = 4096) by done. unfold make_stack. rewrite npages_roundup by lia. set (n := npages sz) in *.
  pose proof (fr_range _ _ _ _ _ _ Hf) as Hn. assert (Hnk : sz <= n * PGSIZE <= KERNBASE) by (rewrite UPAGES_eq in Hn; unfold n, npages, KERNBASE in *; rewrite H4096 in *; dlia).
  rewrite (u32_small (n * PGSIZE + 2 * PGSIZE)) by (unfold KERNBASE in *; rewrite H4096 in *; lia). replace (n * PGSIZE + 2 * PGSIZE) with ((n + 2) * PGSIZE) by lia.
  destruct (decide (n * PGSIZE < KERNBASE)) as [Hlt | Hge].
  2: { assert (E : Vm.allocuvm d (n * PGSIZE) ((n + 2) * PGSIZE) s1 = Ret 0 s1) by (unfold Vm.allocuvm; rewrite Z.geb_leb; destruct (Z.leb_spec KERNBASE ((n + 2) * PGSIZE)); [done | rewrite H4096 in *; lia]).
       rewrite (bind_ret _ _ _ _ _ (on_mem_ret _ s1 f _ _ E)). cbn [Z.eqb]. destruct (bad_ok (A := image) d n g1 s1 f Hf) as (s2 & E2 & Hi & Hr). exists None, s2.
       split; [exact E2 |]. split; [done |]. split; [done |]. left. unfold ref_stack. rewrite decide_False; [done |]. rewrite H4096 in *. lia. }
  destruct (stack_pages d n img g1 s1 Hf Hs ltac:(intros x Hx; apply Hz; lia) Hlt) as (g2 & s2 & [(E & Hlim & s3 & E3 & Hst & Hs3 & Hug) | (E & Hf2 & Hwhy)]);
    rewrite (bind_ret _ _ _ _ _ (on_mem_ret _ s1 f _ _ E)).
  2: { cbn [Z.eqb]. destruct (bad_ok (A := image) d n g2 s2 f Hf2) as (s3 & E3 & Hi & Hr). exists None, s3. split; [exact E3 |]. split; [done |]. split; [done |].
       destruct Hwhy as [Hk | Hd]; [left | by right]. unfold ref_stack. rewrite decide_False; [done | lia]. }
  destruct (Z.eqb_spec ((n + 2) * PGSIZE) 0) as [Hx | _]; [rewrite H4096 in *; lia |].
  replace (u32 ((n + 2) * PGSIZE - 2 * PGSIZE)) with (n * PGSIZE) by (rewrite u32_small; unfold KERNBASE in *; rewrite H4096 in *; lia).
  rewrite (bind_ret _ _ _ _ _ (on_mem_ret _ s2 f _ _ E3)). unfold ref_stack. rewrite decide_True by done.
  destruct (push_ok argv d n g s g2 s3 0 ((n + 2) * PGSIZE) H0 Hst) as (o & s4 & E4 & Hrw4 & Eo & Ho); [rewrite H4096; lia | rewrite H4096; dlia | done |].
  rewrite (bind_ret _ _ _ _ _ (on_mem_ret _ s3 f _ _ E4)). pose proof (stacked_rewritten d n g s g2 s3 s4 H0 Hst Hrw4) as Hst4.
  destruct o as [[sp ps] |]; [| destruct (bad_ok (A := image) d _ g2 s4 f (sk_fresh _ _ _ _ _ _ Hst4)) as (s5 & E5 & Hi & Hr); exists None, s5; split; [exact E5 |]; split; [done |]; split; [done | left; by rewrite <- Eo]].
  symmetry in Eo. destruct (ref_args_length _ _ _ _ _ _ Eo) as [Hlp Hmax]. rewrite Eo. cbn [mbind option_bind fst snd]. destruct Ho as (O1 & _ & O3 & O4).
  destruct (ustack_ok d n g2 s4 sp ps Hst4 ltac:(lia) ltac:(lia)) as (Eu1 & Eu2 & r & s5 & E5 & Hrw5 & Hres). cbv zeta in *. rewrite Eu1, Eu2.
  set (esp := sp - 4 * (4 + Z.of_nat (length ps))) in *. fold (initial_stack esp ps). rewrite (bind_ret _ _ _ _ _ (on_mem_ret _ s4 f _ _ E5)).
  pose proof (stacked_rewritten d n g s g2 s4 s5 H0 Hst4 Hrw5) as Hst5. destruct (decide ((n + 1) * PGSIZE <= esp)) as [Hfit | Hno].
  2: { rewrite Hres. cbn [Z.ltb Z.compare]. destruct (bad_ok (A := image) d _ g2 s5 f (sk_fresh _ _ _ _ _ _ Hst5)) as (s6 & E6 & Hi & Hr). exists None, s6.
       split; [exact E6 |]. split; [done |]. split; [done | by left]. }
  destruct Hres as [-> Hby]. cbn [Z.ltb Z.compare]. pose proof (sk_fresh _ _ _ _ _ _ Hst5) as Hf5. pose proof (fr_dir _ _ _ _ _ _ Hf5) as Hd.
  assert (Hkeep : forall x, 0 <= x < KERNBASE -> ~ esp <= x < (n + 2) * PGSIZE -> ubyte (ram s5) d x = ubyte (ram s3) d x).
  { intros x Hx Hout. rewrite Hby by done. rewrite decide_False by lia. apply O4; [done | done | lia]. }
  eexists (Some _), s5. split; [done |]. exists ps, esp, g2. split; [done |]. split; [done |]. split; [done |]. split.
  - intros x Hx. rewrite Hkeep; [by apply Hs3 | rewrite H4096 in *; lia | rewrite H4096 in *; lia].
  - intros x Hx. rewrite Hkeep; [by eapply guard_unreadable | rewrite H4096 in *; lia | rewrite H4096 in *; lia].
  - eapply Forall2_impl; [exact O3 |]. intros p a (P1 & P2 & Hstr). split; [lia |]. split; [done |]. intros k Hk. rewrite Hby; [| done | rewrite H4096 in *; lia]. rewrite decide_False by lia. by apply Hstr.
  - split; [done |]. unfold initial_stack. cbn [length]. rewrite length_app. cbn [length]. lia.
  - intros k y Hk. assert (Hkl : (k < 4 * (4 + length ps))%nat) by (apply lookup_lt_Some in Hk; rewrite length_words in Hk; unfold initial_stack in Hk; cbn [length] in Hk; rewrite length_app in Hk; cbn [length] in Hk; lia).
    rewrite Hby; [| done | rewrite H4096 in *; lia]. rewrite decide_True by lia. rewrite <- Hk. f_equal. lia.
  - apply Hf5.
Qed.
End make.

(** It depends on the pages of [d] only. *)
Lemma views_frame g s s' d : vm_inv g s -> g d = Dir ->
  (forall a, a = d \/ (exists i, g a = Tab d i) \/ (exists v, g a = User d v) -> ram s' !! a = ram s !! a) ->
  (forall v, 0 <= v < 2 ^ 20 -> pte (ram s') d v = pte (ram s) d v) /\ forall x, 0 <= x < KERNBASE -> ubyte (ram s') d x = ubyte (ram s) d x.
Proof using.
  intros H Hd Hr. assert (Hp : forall v, 0 <= v < 2 ^ 20 -> pte (ram s') d v = pte (ram s) d v).
  { intros v Hv. apply (pte_frame g); [apply (pi_tab _ _ (proj2 H)) | done | done | apply Hr; by left |]. intros a i Ha. apply Hr. right; left. by exists i. }
  split; [done |]. intros x Hx. assert (Hv : 0 <= vpn x < UPAGES) by (unfold vpn; rewrite UPAGES_eq; unfold KERNBASE, PGSIZE in *; dlia).
  unfold ubyte. rewrite Hp by by apply upages_lt. cbv zeta. destruct (present _) eqn:Hpr; [| done]. cbn [andb]. destruct (user _); [| done].
  rewrite Hr; [done |]. right; right. exists (vpn x). by apply (pi_user _ _ (proj2 H)).
Qed.
Lemma image_frame d n img argv ps esp m m' : 0 <= n -> (n + 2) * PGSIZE <= KERNBASE ->
  (forall v, 0 <= v < 2 ^ 20 -> pte m' d v = pte m d v) -> (forall x, 0 <= x < KERNBASE -> ubyte m' d x = ubyte m d x) ->
  image_at d n img argv ps esp m -> image_at d n img argv ps esp m'.
Proof using.
  intros Hn Hk Hp Hu [I1 I2 I3 I4 I5 I6]. assert (H4096 : PGSIZE = 4096) by done. split.
  - intros x Hx. rewrite Hu by (rewrite H4096 in *; lia). by apply I1.
  - intros x Hx. rewrite Hu by (rewrite H4096 in *; lia). by apply I2.
  - eapply Forall2_impl; [exact I3 |]. intros p a (P1 & P2 & Hs). split; [done |]. split; [done |]. intros k Hkl. rewrite Hu by (rewrite H4096 in *; lia). by apply Hs.
  - done.
  - intros k y Hky. pose proof (lookup_lt_Some _ _ _ Hky) as Hlt. rewrite length_words in Hlt. rewrite Hu by (rewrite H4096 in *; lia). by apply I5.
  - intros v Hv. rewrite Hp by (apply upages_lt; lia). by apply I6.
Qed.
End stack.

(** ** The new image *)
Section build.
Context {I : Image} {F : Type} {P : ProgFiles F} {L : ProgFilesOk F}.
Variables (g : ghost) (s : kmem_t).
Hypothesis H0 : vm_inv g s.

Lemma close_ok (s1 : kmem_t) (f : F) ip bs : pf_locked f ip bs ->
  exists f1 f2, on_files (pf_iunlockput ip) (s1, f) = Ret tt (s1, f1) /\ on_files pf_end_op (s1, f1) = Ret tt (s1, f2) /\ pf_idle f2.
Proof using.
  intros Hl. destruct (wp_elim _ _ _ (iunlockput_law f ip bs Hl)) as ([] & f1 & E1 & Ho). destruct (wp_elim _ _ _ (end_op_law f1 Ho)) as ([] & f2 & E2 & Hi).
  exists f1, f2. split; [by apply on_files_ret |]. split; [by apply on_files_ret | done].
Qed.
(** [bad] while the file is open: with and without an address space. *)
Lemma bad_file {A : Type} (s1 : kmem_t) (f : F) ip bs : pf_locked f ip bs -> exists f', bad (A := A) None (Some ip) (s1, f) = Ret None (s1, f') /\ pf_idle f'.
Proof using.
  intros Hl. destruct (close_ok s1 f ip bs Hl) as (f1 & f2 & E1 & E2 & Hi). exists f2. split; [| done]. unfold bad. erewrite bind_ret by done.
  rewrite (bind_ret (on_files _ ;; _) _ (s1, f) tt (s1, f2)); [done |]. by rewrite (bind_ret _ _ _ _ _ E1).
Qed.
Lemma bad_both {A : Type} d n g1 s1 (f : F) ip bs : fresh d n g s g1 s1 -> pf_locked f ip bs ->
  exists s2 f', bad (A := A) (Some d) (Some ip) (s1, f) = Ret None (s2, f') /\ pf_idle f' /\ vm_inv g s2 /\ forall a, g a <> Free -> ram s2 !! a = ram s !! a.
Proof using H0.
  intros Hf Hl. destruct (fresh_free g s H0 d n g1 s1 Hf) as (s2 & E & Hi & Hram). destruct (close_ok s2 f ip bs Hl) as (f1 & f2 & E1 & E2 & Hid).
  exists s2, f2. split; [| done]. unfold bad. rewrite (bind_ret _ _ _ _ _ (on_mem_ret _ s1 f _ _ E)).
  rewrite (bind_ret (on_files _ ;; _) _ (s2, f) tt (s2, f2)); [done |]. by rewrite (bind_ret _ _ _ _ _ E1).
Qed.

(** Few pages were free: too few for a program of [n] pages and its tables. *)
Definition low_memory (n : Z) : Prop := forall l, NoDup l -> (forall a, a ∈ l -> g a = Free) -> Z.of_nat (length l) <= 1026 + n.
Lemma drained_low d l n m : drained d l n g -> (length l <= 2)%nat -> 0 <= n <= m -> low_memory m.
Proof using. intros Hd Hl Hn l' Hnd Hf. pose proof (drained_few d l n g l' Hd ltac:(lia) Hnd Hf). lia. Qed.

Lemma npages_nonneg x : 0 <= x -> 0 <= npages x.
Proof using. unfold npages, PGSIZE. intros. dlia. Qed.
Lemma ref_exec_pages bs argv p : ref_exec bs argv = Some p -> 0 <= pr_pages p.
Proof using.
  unfold ref_exec. case_decide; [| done]. cbv zeta. case_decide; [| done]. destruct (ref_segments _ bs _ 0 _) as [[sz' img'] |] eqn:Es; [| done].
  cbn. destruct (ref_stack (npages sz') argv) as [[ps esp] |]; [| done]. intros [= <-]. apply npages_nonneg. cbn [pr_size]. by eapply ref_segments_mono.
Qed.

Definition build_post (bs : list Z) (argv : list (list Z)) (o : option image) (s2 : kmem_t) : Prop :=
  match o with
  | None => vm_inv g s2 /\ (forall a, g a <> Free -> ram s2 !! a = ram s !! a) /\ forall p, ref_exec bs argv = Some p -> low_memory (pr_pages p + 2)
  | Some im => exists p d g2, ref_exec bs argv = Some p /\ im = mk_image d ((pr_pages p + 2) * PGSIZE) (pr_entry p) (pr_sp p) /\
      fresh d (pr_pages p + 2) g s g2 s2 /\ image_at d (pr_pages p) (pr_bytes p) argv (pr_args p) (pr_sp p) (ram s2)
  end.

Lemma build_image_ok (f : F) ip bs argv : pf_locked f ip bs -> Forall (fun a => Z.of_nat (length a) < 2 ^ 25) argv ->
  exists o s2 f2, build_image ip argv (s, f) = Ret o (s2, f2) /\ pf_idle f2 /\ build_post bs argv o s2.
Proof using H0.
  intros Hl Hlen. pose proof (size_law f ip bs Hl) as Hbig. unfold build_image.
  destruct (wp_elim _ _ _ (readi_law f ip bs 0 elfhdr_size Hl ltac:(lia) ltac:(done))) as (rd & f1 & Er & -> & Hl1).
  rewrite (bind_ret _ _ _ _ _ (on_files_ret _ s f _ _ Er)). pose proof (read_header bs 0 elfhdr_size ltac:(lia) ltac:(done) Hbig) as Hr. cbv zeta in Hr. change (u32 0) with 0 in Hr.
  assert (Hfail : ref_exec bs argv = None -> exists o s2 f2, bad (A := image) None (Some ip) (s, f1) = Ret o (s2, f2) /\ pf_idle f2 /\ build_post bs argv o s2).
  { intros Href. destruct (bad_file (A := image) s f1 ip bs Hl1) as (f2 & E2 & Hid). exists None, s, f2. split; [done |]. split; [done |]. split; [done |]. split; [done |]. congruence. }
  destruct (u32 (fst (file_read bs 0 elfhdr_size)) =? elfhdr_size); cbn [negb]; [| apply Hfail; unfold ref_exec; by rewrite decide_False by lia].
  destruct Hr as [Hsz ->]. change (slice (Z.to_nat 0) (Z.to_nat elfhdr_size) bs) with (slice 0 52 bs).
  assert (Eref : ref_exec bs argv = let elf := dec_elf (slice 0 52 bs) in if decide (e_magic elf = ELF_MAGIC) then
      r ← ref_segments (Z.to_nat (e_phnum elf)) bs (s32 (e_phoff elf)) 0 (fun _ => 0); a ← ref_stack (npages (fst r)) argv;
      Some (mk_program (fst r) (snd r) (e_entry elf) (fst a) (snd a)) else None) by (unfold ref_exec; rewrite decide_True by lia; done).
  set (elf := dec_elf (slice 0 52 bs)) in *. cbv zeta in Eref. destruct (Z.eqb_spec (e_magic elf) ELF_MAGIC) as [Em | Em]; cbn [negb]; [| apply Hfail; rewrite Eref; by rewrite decide_False].
  rewrite decide_True in Eref by done. destruct (setupkvm_ok g s H0) as [(s1 & E1 & Hi & [d Hdr] & Hram) | (d & g1 & s1 & E1 & Hcr)];
    rewrite (bind_ret _ _ _ _ _ (on_mem_ret _ s f1 _ _ E1)).
  { destruct (bad_file (A := image) s1 f1 ip bs Hl1) as (f2 & E2 & Hid). exists None, s1, f2. split; [done |]. split; [done |]. split; [done |]. split; [done |].
    intros p Hp. eapply (drained_low d [d] 0); [done | cbn; lia |]. pose proof (ref_exec_pages _ _ _ Hp). lia. }
  pose proof (fresh_created d g s g1 s1 Hcr) as Hf.
  destruct (segments_ok g s H0 (Z.to_nat (e_phnum elf)) d (s32 (e_phoff elf)) 0 (fun _ => 0) g1 s1 f1 ip bs Hf) as (o & g2 & s2 & f2 & E2 & Hl2 & Hpost);
    [done | intros x Hx; change (npages 0) with 0 in Hx; lia | done | done | unfold s32; pose proof (Z.mod_pos_bound (e_phoff elf + 2 ^ 31) (2 ^ 32)); lia |].
  rewrite (bind_ret _ _ _ _ _ E2). destruct o as [sz |].
  2: { destruct Hpost as [[k Hk] Hwhy]. destruct (bad_both (A := image) d k g2 s2 f2 ip bs Hk Hl2) as (s3 & f3 & E3 & Hid & Hi & Hram). exists None, s3, f3. split; [done |]. split; [done |].
       split; [done |]. split; [done |]. intros p Hp. rewrite Eref in Hp. destruct (ref_segments _ bs _ 0 _) as [[sz' img'] |] eqn:Es; [| done].
       destruct (Hwhy sz' img' eq_refl) as [x Hx]. cbn in Hp. destruct (ref_stack (npages sz') argv) as [[ps esp] |]; [| done]. injection Hp as <-.
       eapply drained_low; [exact Hx | done |]. unfold pr_pages. cbn [pr_size]. apply ref_segments_mono, npages_nonneg in Es. lia. }
  destruct Hpost as (img & Es & Hrange & Hf2 & Hs2 & Hz2). rewrite Es in Eref. cbn in Eref. destruct (close_ok s2 f2 ip bs Hl2) as (f3 & f4 & E3 & E4 & Hid).
  rewrite (bind_ret _ _ _ _ _ E3), (bind_ret _ _ _ _ _ E4).
  destruct (make_stack_ok g s H0 d (e_entry elf) sz img argv g2 s2 f4 Hf2 Hrange Hs2 Hz2 Hlen) as (o & s3 & E5 & Hpost). exists o, s3, f4. split; [exact E5 |]. split; [done |].
  destruct o as [im |].
  - destruct Hpost as (ps & esp & g3 & Est & -> & Hf3 & Him). rewrite Est in Eref. by eexists _, d, g3.
  - destruct Hpost as (Hi & Hram & Hwhy). split; [done |]. split; [done |]. intros p Hp. rewrite Eref in Hp. destruct Hwhy as [Hn | [x Hx]]; [by rewrite Hn in Hp |].
    destruct (ref_stack (npages sz) argv) as [[ps esp] |]; [| done]. injection Hp as <-. eapply drained_low; [exact Hx | done |]. unfold pr_pages. cbn [pr_size]. pose proof (fr_range _ _ _ _ _ _ Hf2). lia.
Qed.
End build.

(** ** exec *)
Section exec.
Context {I : Image} {F : Type} {P : ProgFiles F} {L : ProgFilesOk F}.
Implicit Types s : kstate (kmem_t * F).

(** The entry of a process that runs the program [pr] in [d]. *)
Definition installed (p : proc) (path : list Z) (d : Z) (pr : program) : proc :=
  let q := set_sz ((pr_pages pr + 2) * PGSIZE) (set_pgdir (Some d) (set_name (copy_name (name p) (last_part path path)) p)) in
  set_tf (mk_tf (tf_eax (tf p)) (pr_entry pr) (pr_sp pr) (tf_eflags (tf p)) (tf_cs (tf p)) (tf_ds (tf p)) (tf_es (tf p)) (tf_ss (tf p))) q.

Lemma lift_ret {A : Type} (m : M (kmem_t * F) A) s a x : m (ext s) = Ret a x -> lift m s = Ret a (with_ext x s).
Proof using. unfold lift. by intros ->. Qed.
Lemma lift_files_ret {A : Type} (m : M F A) s a f : m (snd (ext s)) = Ret a f -> lift (on_files m) s = Ret a (with_ext (fst (ext s), f) s).
Proof using. intros E. apply lift_ret. unfold on_files. by rewrite E. Qed.
Lemma lift_mem_ret {A : Type} (m : K A) s a x : m (fst (ext s)) = Ret a x -> lift (on_mem m) s = Ret a (with_ext (x, snd (ext s)) s).
Proof using. intros E. apply lift_ret. unfold on_mem. by rewrite E. Qed.
Lemma insert_twice (i : nat) (p q : proc) s : with_ptable (<[i := q]> (ptable (with_ptable (<[i := p]> (ptable s)) s))) (with_ptable (<[i := p]> (ptable s)) s) =
  with_ptable (<[i := q]> (ptable s)) s.
Proof using. unfold with_ptable. cbn. by rewrite list_insert_insert_eq. Qed.

Lemma commit_image_ok i path d pr old p s x : ptable s !! i = Some p -> pgdir p = Some old -> kstack p <> None ->
  Vm.freevm old (fst (ext s)) = Ret tt x ->
  commit_image i path (mk_image d ((pr_pages pr + 2) * PGSIZE) (pr_entry pr) (pr_sp pr)) s =
    Ret 0 (with_ext (x, snd (ext s)) (with_ptable (<[i := installed p path d pr]> (ptable s)) s)).
Proof using.
  intros Hp Hold Hks E. pose proof (lookup_lt_Some _ _ _ Hp) as Hlt. unfold commit_image. erewrite bind_ret by by apply upd_proc_eq.
  erewrite bind_ret by (apply get_proc_eq; by apply list_lookup_insert_eq). cbv zeta.
  erewrite bind_ret by (apply upd_proc_eq; by apply list_lookup_insert_eq). rewrite insert_twice.
  erewrite bind_ret by (apply upd_proc_eq; by apply list_lookup_insert_eq). rewrite insert_twice.
  erewrite bind_ret by (apply upd_proc_eq; by apply list_lookup_insert_eq). rewrite insert_twice.
  cbn [kstack set_name pgdir]. rewrite bool_decide_false by done. erewrite bind_ret by done. rewrite Hold.
  erewrite bind_ret by (apply lift_mem_ret; exact E). done.
Qed.

(** The process [i] is running, in the address space [old]. *)
Record runs_in (g : ghost) s (i : nat) (p : proc) (old : Z) : Prop := {
  ri_cli : cli_ok s;
  ri_cur : c_proc (cpu s) = Some i;
  ri_proc : ptable s !! i = Some p;
  ri_kstack : kstack p <> None;
  ri_pgdir : pgdir p = Some old;
  ri_dir : g old = Dir;
  ri_mem : vm_inv g (fst (ext s))
}.

(** [exec] failed: nothing but the file layer's caches changed. *)
Record exec_failed (g : ghost) s s' : Prop := {
  ef_table : ptable s' = ptable s;
  ef_mem : vm_inv g (fst (ext s'));
  ef_ram : forall a, g a <> Free -> ram (fst (ext s')) !! a = ram (fst (ext s)) !! a
}.
(** [exec] succeeded: the process runs the program in a new address space [d],
    the old one is free, and no other page in use changed. *)
Record exec_done (g : ghost) s i (p : proc) (old : Z) path argv (pr : program) d (g' : ghost) s' : Prop := {
  ed_new : g d = Free /\ g' d = Dir;
  ed_inv : vm_inv g' (fst (ext s'));
  ed_table : ptable s' = <[i := installed p path d pr]> (ptable s);
  ed_image : image_at d (pr_pages pr) (pr_bytes pr) argv (pr_args pr) (pr_sp pr) (ram (fst (ext s')));
  ed_kernel : forall r, r ∈ kregions -> maps_region (ram (fst (ext s'))) d r;
  ed_old : forall a, g a <> Free -> g' a = released old g a;
  ed_own : forall a, g' a <> Free -> a = d \/ (exists k, g' a = Tab d k) \/ (exists v, g' a = User d v) \/ g' a = g a;
  ed_ram : forall a, g a <> Free -> released old g a = g a -> ram (fst (ext s')) !! a = ram (fst (ext s)) !! a
}.

(** Freeing the old address space leaves the new one alone. *)
Lemma switch_ok (g : ghost) (s s1 : kmem_t) old d n g2 : vm_inv g s -> g old = Dir -> fresh d n g s g2 s1 ->
  exists s2 : kmem_t, Vm.freevm old s1 = Ret tt s2 /\ vm_inv (released old g2) s2 /\ released old g2 d = Dir /\
    (forall a, a = d \/ (exists k, g2 a = Tab d k) \/ (exists v, g2 a = User d v) -> ram s2 !! a = ram s1 !! a) /\
    (forall a, g a <> Free -> released old g2 a = released old g a) /\
    (forall a, released old g2 a <> Free -> a = d \/ (exists k, released old g2 a = Tab d k) \/ (exists v, released old g2 a = User d v) \/ released old g2 a = g a) /\
    (forall a, g a <> Free -> released old g a = g a -> ram s2 !! a = ram s !! a).
Proof using.
  intros H0 Hold Hf. pose proof Hf as [F1 F2 F3 F4 F5 F6 F7 F8 F9 F10]. assert (Hne : d <> old) by congruence.
  destruct (fresh_keep g s H0 d n g2 s1 old Hf) as [Eold _]; [congruence |].
  destruct (freevm_ok g2 s1 old F1) as (s2 & E & Hi & Hr); [congruence |]. exists s2. split; [done |]. split; [done |].
  assert (Hrd : released old g2 d = Dir) by (unfold released; rewrite decide_False by done; by rewrite F3).
  assert (Hmine : forall a, a = d \/ (exists k, g2 a = Tab d k) \/ (exists v, g2 a = User d v) -> g2 a <> Free /\ released old g2 a = g2 a).
  { intros a [-> | [[k Ha] | [v Ha]]]; [by rewrite Hrd, F3 | |]; (split; [congruence |]; unfold released; rewrite decide_False by congruence; rewrite Ha; by rewrite decide_False). }
  assert (Hkeep : forall a, g a <> Free -> released old g2 a = released old g a) by (intros a Ha; unfold released; by rewrite (proj1 (fresh_keep g s H0 d n g2 s1 a Hf Ha))).
  split; [done |]. split; [intros a Ha; destruct (Hmine a Ha); by apply Hr |]. split; [done |]. split.
  - intros a Ha. destruct (decide (a = d)) as [-> | Had]; [by left |]. right. destruct (F5 a Had) as [Ea | (_ & Hx)].
    + right; right. unfold released in *. rewrite Ea in *. repeat case_decide; try done. destruct (g a); try done; case_decide; done.
    + destruct Hx as [[k Hk] | (v & _ & Hv)]; [left; exists k | right; left; exists v]; (destruct (Hmine a) as [_ ->]; [| done]); right; [left | right]; eauto.
  - intros a Ha Hrel. destruct (fresh_keep g s H0 d n g2 s1 a Hf Ha) as [Ea _]. rewrite Hr; [by apply F10 | congruence |]. rewrite Hkeep by done. congruence.
Qed.

Lemma exec_built g s s1 i p old path argv ip bs : runs_in g s i p old -> fst (ext s1) = fst (ext s) -> ptable s1 = ptable s ->
  Forall (fun a => Z.of_nat (length a) < 2 ^ 25) argv -> pf_locked (snd (ext s1)) ip bs ->
  exists r s', (o ← lift (build_image ip argv); match o with None => mret (-1) | Some im => commit_image i path im end) s1 = Ret r s' /\ pf_idle (snd (ext s')) /\
    ((r = -1 /\ exec_failed g s s' /\ forall pr, ref_exec bs argv = Some pr -> low_memory g (pr_pages pr + 2)) \/
     (r = 0 /\ exists pr d g', ref_exec bs argv = Some pr /\ exec_done g s i p old path argv pr d g' s')).
Proof using.
  intros [R1 R2 R3 R4 R5 R6 R7] Em Et Hlen Hl. destruct (build_image_ok g (fst (ext s)) R7 (snd (ext s1)) ip bs argv Hl Hlen) as (o & s2 & f2 & E & Hid & Hpost).
  assert (E1 : lift (build_image ip argv) s1 = Ret o (with_ext (s2, f2) s1)) by (apply lift_ret; rewrite <- E, <- Em; by destruct (ext s1)).
  rewrite (bind_ret _ _ _ _ _ E1). destruct o as [im |].
  - destruct Hpost as (pr & d & g2 & Href & -> & Hf & Him). destruct (switch_ok g (fst (ext s)) s2 old d _ g2 R7 R6 Hf) as (s3 & E3 & Hi & Hd & Hmine & Hkeep & Hown & Hram).
    pose proof (fr_inv _ _ _ _ _ _ Hf) as Hi2. pose proof (fr_dir _ _ _ _ _ _ Hf) as Hd2. destruct (views_frame g2 s2 s3 d Hi2 Hd2 Hmine) as [Hp Hu].
    pose proof (fr_range _ _ _ _ _ _ Hf) as Hn. pose proof (ref_exec_pages _ _ _ Href) as Hpos.
    exists 0. eexists. split; [eapply commit_image_ok; [by cbn; rewrite Et | done | done | exact E3] |]. split; [done |]. right. split; [done |]. exists pr, d, (released old g2). split; [done |].
    split; cbn [ext with_ext with_ptable ptable fst]; try done.
    + split; [apply Hf | done].
    + by rewrite Et.
    + eapply image_frame; [done | | exact Hp | exact Hu | done]. rewrite UPAGES_eq in Hn. unfold KERNBASE, PGSIZE. lia.
    + intros r Hr. eapply maps_region_same; [done | | by apply Hf]. intros v Hv. apply Hp. rewrite UPAGES_eq in Hv. lia.
  - destruct Hpost as (Hi & Hram & Hwhy). exists (-1). eexists. split; [done |]. split; [done |]. left. split; [done |]. split; [| done]. by split.
Qed.

(** C11. Running a program: [exec] of a path that names nothing returns -1.  Of a
    path that names a file it either returns 0, and the process then runs the
    program that the file and the arguments describe ([ref_exec]) in a new
    address space: the bytes of every segment where the headers put them, zero
    elsewhere, an inaccessible page, and a stack with the strings, [argv] and
    [argc]; the pages of the old address space are free and no other page in
    use has changed.  Or it returns -1, and then the process, all pages in use
    and the free pages are as before; it does so only when the file or the
    arguments are refused, or too few pages are free for the program and its
    page tables.  In every case the file is closed and the operation over.  The
    arguments are assumed shorter than 32 MB. *)
Theorem exec_spec (g : ghost) (s : kstate (kmem_t * F)) (i : nat) (p : proc) (old : Z) (path : list Z) (argv : list (list Z)) (o : option (Z * list Z))
  (Hr : runs_in g s i p old) (Hf : pf_idle (snd (ext s))) (Hn : pf_names (snd (ext s)) (Kernel.cwd p) path o)
  (Hlen : Forall (fun a => Z.of_nat (length a) < 2 ^ 25) argv) :
  exists r s', exec path argv s = Ret r s' /\ pf_idle (snd (ext s')) /\
    match o with
    | None => r = -1 /\ exec_failed g s s'
    | Some (_, bs) =>
        (r = -1 /\ exec_failed g s s' /\ forall pr, ref_exec bs argv = Some pr -> low_memory g (pr_pages pr + 2)) \/
        (r = 0 /\ exists pr d g', ref_exec bs argv = Some pr /\ exec_done g s i p old path argv pr d g' s')
    end.
Proof using.
  pose proof Hr as [R1 R2 R3 R4 R5 R6 R7]. unfold exec. rewrite (bind_ret _ _ _ _ _ (curproc_eq s i R1 R2)).
  destruct (wp_elim _ _ _ (begin_op_law _ _ _ _ Hf Hn)) as ([] & f1 & E1 & Ho1 & Hn1). rewrite (bind_ret _ _ _ _ _ (lift_files_ret _ (touch s) _ _ E1)).
  erewrite bind_ret by (apply get_proc_eq; exact R3).
  destruct (wp_elim _ _ _ (namei_law f1 _ _ _ Ho1 Hn1)) as (r1 & f2 & E2 & H2).
  rewrite (bind_ret _ _ _ _ _ (lift_files_ret _ (with_ext (fst (ext (touch s)), f1) (touch s)) _ _ E2)). destruct o as [[ip bs] |]; destruct H2 as [-> H2].
  - destruct (wp_elim _ _ _ (ilock_law f2 ip bs H2)) as ([] & f3 & E3 & H3). erewrite bind_ret by (apply lift_files_ret; exact E3).
    by apply exec_built with (ip := ip).
  - destruct (wp_elim _ _ _ (end_op_law f2 H2)) as ([] & f3 & E3 & H3). erewrite bind_ret by (apply lift_files_ret; exact E3).
    eexists _, _. split; [done |]. split; [done |]. split; [done |]. by split.
Qed.
End exec.

(** An argument that wraps the stack pointer to an address without page table:
    [uva2ka] does not check the result of [walkpgdir] and reads through a null
    pointer. *)
Theorem copyout_null {I : Image} (g : ghost) (s : kmem_t) (d va len : Z) (buf : list Z) : vm_inv g s -> g d = Dir -> is_u32 va -> 0 < len ->
  present (pde (ram s) d (vpn va / 1024)) = false -> copyout d va buf len s = Stop "null pointer".
Proof.
  intros H Hd Hva Hlen Hno. unfold copyout. cbn [copyout_loop]. destruct (Z.gtb_spec len 0); [| lia].
  pose proof (vpn_range va Hva) as Hv. assert (E0 : PGROUNDDOWN va = vpn va * PGSIZE) by (rewrite rounddown_eq; unfold vpn, PGSIZE in *; dlia). rewrite E0. unfold uva2ka.
  unfold mbind at 1. unfold M_bind at 1. rewrite (bind_ret _ _ _ _ _ (walk_ok g s d _ H Hd (page_u32 _ Hv))), vpn_page, Hno. done.
Qed.

(** ** A file system with one program *)
Definition mini_elf : list Z :=
  [127; 69; 76; 70] ++ replicate 20 0 ++ [0; 0; 0; 0; 52; 0; 0; 0] ++ replicate 12 0 ++ [1; 0] ++ replicate 6 0 ++
  [1; 0; 0; 0; 84; 0; 0; 0] ++ replicate 8 0 ++ [2; 0; 0; 0; 3; 0; 0; 0] ++ replicate 8 0 ++ [235; 254].
Definition mini_path : list Z := [97].
Definition mini_lookup (path : list Z) : option (Z * list Z) := if decide (path = mini_path) then Some (0, mini_elf) else None.
(** Its state: 0 at rest, 1 in an operation, 2 and 3 with the file found and locked. *)
Definition mini_step {A : Type} (a b : Z) (r : A) : M Z A := fun f => if f =? a then Ret r b else Stop "order".
#[local] Instance mini_files : ProgFiles Z := {
  pf_begin_op := mini_step 0 1 tt;
  pf_end_op := mini_step 1 0 tt;
  pf_namei _ path := match mini_lookup path with Some (ip, _) => mini_step 1 2 (Some ip) | None => mini_step 1 1 None end;
  pf_ilock _ := mini_step 2 3 tt;
  pf_readi _ off n := mini_step 3 3 (file_read mini_elf off n);
  pf_iunlockput _ := mini_step 3 1 tt
}.
#[local] Instance mini_files_ok : ProgFilesOk Z.
Proof.
  refine {| pf_idle f := f = 0; pf_op f := f = 1; pf_names _ _ path o := o = mini_lookup path;
            pf_ref f ip bs := f = 2 /\ bs = mini_elf; pf_locked f ip bs := f = 3 /\ bs = mini_elf |}.
  - by intros f c path o -> ->.
  - by intros f ->.
  - intros f c path o -> ->. unfold wp, pf_namei. cbn. unfold mini_lookup. by case_decide.
  - by intros f ip bs [-> ->].
  - by intros f ip bs off n [-> ->].
  - by intros f ip bs [-> ->].
  - intros f ip bs [-> ->]. vm_compute. discriminate.
Defined.

Definition mini_proc : proc := set_kstack (Some 0) (set_pgdir (Some t_dir) (set_sz PGSIZE (set_state RUNNING proc_zero))).
Definition mini_state : kstate (kmem_t * Z) := mk_kstate [mini_proc] 2 (Some 0%nat) (mk_cpu 0 true true (Some 0%nat)) [lock_free; lock_free] 0 (tiny, 0).

(** The program of the file, with one argument. *)
Lemma mini_program : match ref_exec mini_elf [mini_path] with
  | Some pr => pr_size pr = 3 /\ pr_entry pr = 0 /\ pr_args pr = [12284] /\ pr_sp pr = 12264 /\ pr_bytes pr 1 = 254
  | None => False
  end.
Proof. vm_compute. done. Qed.

Lemma exec_spec_witness : exists r s', @exec tiny_image Z mini_files mini_path [mini_path] mini_state = Ret r s' /\ snd (ext s') = 0.
Proof.
  destruct (@exec_spec tiny_image Z mini_files mini_files_ok t_own mini_state 0 mini_proc t_dir mini_path [mini_path] (mini_lookup mini_path)) as (r & s' & E & Hi & _).
  - split; try reflexivity; [split; [cbn; lia | done] | discriminate | exact tiny_inv].
  - reflexivity.
  - reflexivity.
  - repeat constructor.
  - exists r, s'. split; [exact E | exact Hi].
Defined.
