(* ===== verification/Ide.v ===== *)
(** * Ide: project3/xv6-modified/ide.c, the driver of the IDE disk

    The driver is translated over the ports of the disk controller.  The
    controller itself is a parameter: the class [Ata] has the effect of the port
    instructions on it, and [AtaOk] states the part of the ATA protocol the
    driver relies on (polling a drive that is not busy, the meaning of the task
    file, the transfer of one sector, the end of a command).  [Pio] at the end is
    a controller that satisfies it.

    Processes call [iderw] with a locked buffer and sleep; the interrupt handler
    [ideintr] serves them.  Both run with interrupts off on the one CPU, so a
    step of the machine is one of them, the controller finishing a command by
    itself, or a use of a buffer by the rest of the kernel.  The queue through
    [qnext] is a linked list in the buffers; the theorems show that the machine
    implements a queue of requests in front of a disk. *)

From Stdlib Require Import ZArith Lia.
From stdpp Require Import base numbers strings option sets list.
From S2P Require Import Prelude.

Local Open Scope Z_scope.

(** ** The controller *)

(** A command of one sector: the drive, the sector and the bytes of a write. *)
Inductive ata_cmd :=
| CRead (drv lba : Z)
| CWrite (drv lba : Z) (data : list Z).

Inductive ata_job :=
| Idle
| Busy (c : ata_cmd)
| Finished (c : ata_cmd) (ok : bool).

(** What can be observed of the controller: the command, the sectors of the two
    drives, whether drive 1 is there, and the drive that is selected. *)
Record ata_view := mk_view {
  av_job : ata_job;
  av_disk : Z -> Z -> list Z;
  av_disk1 : bool;
  av_drive : Z
}.
Definition view_job (j : ata_job) (v : ata_view) : ata_view :=
  mk_view j (av_disk v) (av_disk1 v) (av_drive v).
Definition view_drive (n : Z) (v : ata_view) : ata_view :=
  mk_view (av_job v) (av_disk v) (av_disk1 v) n.

(** No command runs and no sector that was read waits to be taken. *)
Definition job_free (j : ata_job) : Prop :=
  match j with
  | Idle => True
  | Busy _ => False
  | Finished (CRead _ _) ok => ok = false
  | Finished (CWrite _ _ _) _ => True
  end.
Definition job_busy (j : ata_job) : bool := match j with Busy _ => true | _ => false end.
Definition drive_there (v : ata_view) : Prop := av_drive v = 0 \/ (av_drive v = 1 /\ av_disk1 v = true).

(** How the end of a command changes the sectors. *)
Definition ata_effect (c : ata_cmd) (ok : bool) (disk disk' : Z -> Z -> list Z) : Prop :=
  match c with
  | CRead _ _ => forall n l, disk' n l = disk n l
  | CWrite drv lba data =>
      (ok = true -> disk' drv lba = data) /\
      length (disk' drv lba) = length data /\
      (forall n l, n <> drv \/ l <> lba -> disk' n l = disk n l)
  end.

(** The instructions [inb(0x1f7)], [outb], [outsl(0x1f0, ...)] and
    [insl(0x1f0, ...)] of x86.h on the controller; the last two move that many
    double words.  [ata_finish] is the end of the current command. *)
Class Ata (D : Type) := {
  ata_status : D -> Z * D;
  ata_outb : Z -> Z -> D -> D;
  ata_outsl : list Z -> D -> D;
  ata_insl : nat -> D -> list Z * D;
  ata_finish : D -> D -> Prop
}.

Definition ata_outs {D : Type} `{Ata D} (l : list (Z * Z)) (d : D) : D :=
  foldl (fun d x => ata_outb x.1 x.2 d) d l.

(** The task file of a command on one sector with a 28-bit address. *)
Definition ata_task (drv lba cmd : Z) : list (Z * Z) :=
  [(0x3f6, 0); (0x1f2, 1); (0x1f3, lba mod 256); (0x1f4, lba / 2 ^ 8 mod 256);
   (0x1f5, lba / 2 ^ 16 mod 256); (0x1f6, 0xe0 + 16 * drv + lba / 2 ^ 24); (0x1f7, cmd)].

Class AtaOk (D : Type) `{Ata D} := {
  ata_abs : D -> ata_view;
  ata_sector d n l : length (av_disk (ata_abs d) n l) = 512%nat;
  ata_ready d : job_busy (av_job (ata_abs d)) = false -> drive_there (ata_abs d) ->
    Z.land (ata_status d).1 0xc0 = 0x40 /\ ata_abs (ata_status d).2 = ata_abs d /\
    (forall c ok, av_job (ata_abs d) = Finished c ok -> (Z.land (ata_status d).1 0x21 =? 0) = ok);
  ata_absent d : job_busy (av_job (ata_abs d)) = false -> av_drive (ata_abs d) = 1 ->
    av_disk1 (ata_abs d) = false ->
    (ata_status d).1 = 0 /\ ata_abs (ata_status d).2 = ata_abs d;
  ata_select d drv : job_free (av_job (ata_abs d)) -> 0 <= drv < 2 ->
    ata_abs (ata_outb 0x1f6 (0xe0 + 16 * drv) d) = view_drive drv (ata_abs d);
  ata_read d drv lba : job_free (av_job (ata_abs d)) -> 0 <= drv < 2 -> 0 <= lba < 2 ^ 28 ->
    ata_abs (ata_outs (ata_task drv lba 0x20) d) =
      view_job (Busy (CRead drv lba)) (view_drive drv (ata_abs d));
  ata_write d drv lba data : job_free (av_job (ata_abs d)) -> 0 <= drv < 2 -> 0 <= lba < 2 ^ 28 ->
    length data = 512%nat ->
    ata_abs (ata_outsl data (ata_outs (ata_task drv lba 0x30) d)) =
      view_job (Busy (CWrite drv lba data)) (view_drive drv (ata_abs d));
  ata_take d drv lba : av_job (ata_abs d) = Finished (CRead drv lba) true ->
    (ata_insl 128 d).1 = av_disk (ata_abs d) drv lba /\
    ata_abs (ata_insl 128 d).2 = view_job Idle (ata_abs d);
  ata_end d d' : ata_finish d d' ->
    exists c ok disk', av_job (ata_abs d) = Busy c /\ ata_effect c ok (av_disk (ata_abs d)) disk' /\
      ata_abs d' = mk_view (Finished c ok) disk' (av_disk1 (ata_abs d)) (av_drive (ata_abs d));
  ata_ends d c : av_job (ata_abs d) = Busy c -> exists d', ata_finish d d'
}.

(** ** The state of the driver *)
Definition FSSIZE : Z := 1000.
Definition BSIZE : Z := 512.
Definition SECTOR_SIZE : Z := 512.
Definition IDE_BSY : Z := 0x80.
Definition IDE_DRDY : Z := 0x40.
Definition IDE_DF : Z := 0x20.
Definition IDE_ERR : Z := 0x01.
Definition IDE_CMD_READ : Z := 0x20.
Definition IDE_CMD_WRITE : Z := 0x30.
Definition IDE_CMD_RDMUL : Z := 0xc4.
Definition IDE_CMD_WRMUL : Z := 0xc5.

(** The fields of [struct buf] the driver uses; the lock is the process that
    holds it. *)
Record ibuf := mk_ibuf {
  i_valid : bool;
  i_dirty : bool;
  i_dev : Z;
  i_blockno : Z;
  i_lock : option nat;
  i_qnext : option nat;
  i_data : list Z
}.
Definition set_qnext (n : option nat) (b : ibuf) : ibuf :=
  mk_ibuf (i_valid b) (i_dirty b) (i_dev b) (i_blockno b) (i_lock b) n (i_data b).
Definition set_idata (x : list Z) (b : ibuf) : ibuf :=
  mk_ibuf (i_valid b) (i_dirty b) (i_dev b) (i_blockno b) (i_lock b) (i_qnext b) x.
Definition set_iflags (v d : bool) (b : ibuf) : ibuf :=
  mk_ibuf v d (i_dev b) (i_blockno b) (i_lock b) (i_qnext b) (i_data b).

(** [(b->flags & (B_VALID|B_DIRTY)) == B_VALID] *)
Definition synced (b : ibuf) : bool := i_valid b && negb (i_dirty b).

(** Where a process is: outside the driver, asleep on a buffer, or woken up and
    about to test the flags of the buffer again. *)
Inductive phase := P_out | P_asleep (b : nat) | P_awake (b : nat).

Record ide (D : Type) := mk_ide {
  i_bufs : list ibuf;
  idequeue : option nat;
  havedisk1 : bool;
  i_ata : D;
  i_ph : list phase
}.
Arguments mk_ide {D}.
Arguments i_bufs {D}.
Arguments idequeue {D}.
Arguments havedisk1 {D}.
Arguments i_ata {D}.
Arguments i_ph {D}.

Section driver.
Context {D : Type} `{Ata D}.
(** How often [idewait] may find the drive not ready before the model gives up. *)
Variable spins : nat.
Implicit Types s : ide D.

Definition with_ibufs (l : list ibuf) s : ide D := mk_ide l (idequeue s) (havedisk1 s) (i_ata s) (i_ph s).
Definition with_queue (q : option nat) s : ide D := mk_ide (i_bufs s) q (havedisk1 s) (i_ata s) (i_ph s).
Definition with_ata (d : D) s : ide D := mk_ide (i_bufs s) (idequeue s) (havedisk1 s) d (i_ph s).
Definition with_ph (l : list phase) s : ide D := mk_ide (i_bufs s) (idequeue s) (havedisk1 s) (i_ata s) l.

Definition get_ibuf (i : nat) : M (ide D) ibuf :=
  l ← gets i_bufs; from_option "no such buffer" (l !! i).
Definition upd_ibuf (i : nat) (f : ibuf -> ibuf) : M (ide D) unit :=
  modify (fun s => with_ibufs (alter f i (i_bufs s)) s).

Definition inb_status : M (ide D) Z :=
  fun s => let (r, d) := ata_status (i_ata s) in Ret r (with_ata d s).
Definition outb (port data : Z) : M (ide D) unit :=
  modify (fun s => with_ata (ata_outb port (u8 data) (i_ata s)) s).
Definition outsl (data : list Z) (cnt : Z) : M (ide D) unit :=
  modify (fun s => with_ata (ata_outsl (take (Z.to_nat (4 * cnt)) data) (i_ata s)) s).
Definition insl (i : nat) (cnt : Z) : M (ide D) unit :=
  fun s => let (bs, d) := ata_insl (Z.to_nat cnt) (i_ata s) in
    upd_ibuf i (fun b => set_idata (bs ++ drop (length bs) (i_data b)) b) (with_ata d s).

Fixpoint idewait_loop (fuel : nat) : M (ide D) Z :=
  match fuel with
  | O => out_of_fuel
  | S fuel =>
      r ← inb_status;
      if Z.land r (Z.lor IDE_BSY IDE_DRDY) =? IDE_DRDY then mret r else idewait_loop fuel
  end.
Definition idewait (checkerr : bool) : M (ide D) Z :=
  r ← idewait_loop (S spins);
  if checkerr && negb (Z.land r (Z.lor IDE_DF IDE_ERR) =? 0) then mret (-1) else mret 0.

Fixpoint look_disk1 (n : nat) : M (ide D) unit :=
  match n with
  | O => skip
  | S n =>
      r ← inb_status;
      if negb (r =? 0)
      then modify (fun s => mk_ide (i_bufs s) (idequeue s) true (i_ata s) (i_ph s))
      else look_disk1 n
  end.
Definition ideinit : M (ide D) unit :=
  idewait false;;
  outb 0x1f6 (Z.lor 0xe0 (Z.shiftl 1 4));;
  look_disk1 1000;;
  outb 0x1f6 (Z.lor 0xe0 (Z.shiftl 0 4)).

Definition idestart (b : option nat) : M (ide D) unit :=
  match b with
  | None => stop "idestart"
  | Some i =>
      b ← get_ibuf i;
      if FSSIZE <=? i_blockno b then stop "incorrect blockno" else
      let sector_per_block := BSIZE / SECTOR_SIZE in
      let sector := s32 (i_blockno b * sector_per_block) in
      let read_cmd := if sector_per_block =? 1 then IDE_CMD_READ else IDE_CMD_RDMUL in
      let write_cmd := if sector_per_block =? 1 then IDE_CMD_WRITE else IDE_CMD_WRMUL in
      if 7 <? sector_per_block then stop "idestart" else
      idewait false;;
      outb 0x3f6 0;;
      outb 0x1f2 sector_per_block;;
      outb 0x1f3 (Z.land sector 0xff);;
      outb 0x1f4 (Z.land (Z.shiftr sector 8) 0xff);;
      outb 0x1f5 (Z.land (Z.shiftr sector 16) 0xff);;
      outb 0x1f6 (Z.lor (Z.lor 0xe0 (Z.shiftl (Z.land (i_dev b) 1) 4)) (Z.land (Z.shiftr sector 24) 0x0f));;
      if i_dirty b then
        outb 0x1f7 write_cmd;;
        outsl (i_data b) (BSIZE / 4)
      else outb 0x1f7 read_cmd
  end.

(** [wakeup] of proc.c on the processes that sleep in the driver. *)
Definition wake_phase (b : nat) (p : phase) : phase :=
  match p with P_asleep b' => if decide (b' = b) then P_awake b else p | _ => p end.
Definition wakeup_ide (b : nat) : M (ide D) unit :=
  modify (fun s => with_ph (wake_phase b <$> i_ph s) s).

Definition ideintr : M (ide D) unit :=
  q ← gets idequeue;
  match q with
  | None => mret tt
  | Some i =>
      b ← get_ibuf i;
      modify (with_queue (i_qnext b));;
      r ← (if negb (i_dirty b) then idewait true else mret (-1));
      when (0 <=? r) (insl i (BSIZE / 4));;
      upd_ibuf i (set_iflags true false);;
      wakeup_ide i;;
      q' ← gets idequeue;
      match q' with Some _ => idestart q' | None => mret tt end
  end.

(** A place that holds a queue pointer: [&idequeue] or [&b->qnext]. *)
Inductive slot := At_head | At_next (b : nat).
Definition load (pp : slot) : M (ide D) (option nat) :=
  match pp with
  | At_head => gets idequeue
  | At_next i => b ← get_ibuf i; mret (i_qnext b)
  end.
Definition store (pp : slot) (v : option nat) : M (ide D) unit :=
  match pp with
  | At_head => modify (with_queue v)
  | At_next i => upd_ibuf i (set_qnext v)
  end.
Fixpoint last_slot (fuel : nat) (pp : slot) : M (ide D) slot :=
  match fuel with
  | O => out_of_fuel
  | S fuel =>
      v ← load pp;
      match v with None => mret pp | Some i => last_slot fuel (At_next i) end
  end.

(** The loop that waits for the request: process [me] sleeps, or leaves. *)
Definition iderw_wait (me i : nat) : M (ide D) unit :=
  b ← get_ibuf i;
  if negb (synced b) then
    modify (fun s => with_ph (<[me := P_asleep i]> (i_ph s)) s);;
    block "ide"
  else modify (fun s => with_ph (<[me := P_out]> (i_ph s)) s).

Definition iderw (me i : nat) : M (ide D) unit :=
  b ← get_ibuf i;
  if negb (bool_decide (i_lock b = Some me)) then stop "iderw: buf not locked" else
  if synced b then stop "iderw: nothing to do" else
  hd ← gets havedisk1;
  if negb (i_dev b =? 0) && negb hd then stop "iderw: ide disk 1 not present" else
  upd_ibuf i (set_qnext None);;
  n ← gets (fun s => length (i_bufs s));
  pp ← last_slot (S (S n)) At_head;
  store pp (Some i);;
  q ← gets idequeue;
  when (bool_decide (q = Some i)) (idestart (Some i));;
  iderw_wait me i.
End driver.

(** ** The machine *)
Inductive label :=
| L_call (p i : nat)
| L_disk (ok : bool)
| L_intr
| L_return (p i : nat)
| L_again (p i : nat)
| L_use (i : nat).

(** The command that serves a buffer. *)
Definition cmd_of (b : ibuf) : ata_cmd :=
  if i_dirty b then CWrite (Z.land (i_dev b) 1) (i_blockno b) (i_data b)
  else CRead (Z.land (i_dev b) 1) (i_blockno b).

Definition inside (i : nat) (p : phase) : Prop := p = P_asleep i \/ p = P_awake i.

Section machine.
Context {D : Type} `{AtaOk D}.
Variable spins : nat.
Implicit Types s : ide D.

(** [step_use]: the rest of the kernel (bio.c and the owner of the buffer)
    changes a buffer in any way while no process is in the driver for it; only
    the driver has a use for [qnext].  A caller of [iderw] asks for a block of
    the file system. *)
Inductive step : ide D -> label -> ide D -> Prop :=
| step_call s s' p i b c :
    i_ph s !! p = Some P_out -> i_bufs s !! i = Some b -> 0 <= i_blockno b < FSSIZE ->
    iderw spins p i s = Block c s' -> step s (L_call p i) s'
| step_disk s d' c ok :
    ata_finish (i_ata s) d' -> av_job (ata_abs d') = Finished c ok ->
    step s (L_disk ok) (with_ata d' s)
| step_intr s s' c ok :
    av_job (ata_abs (i_ata s)) = Finished c ok -> ideintr spins s = Ret tt s' -> step s L_intr s'
| step_return s s' p i :
    i_ph s !! p = Some (P_awake i) -> iderw_wait p i s = Ret tt s' -> step s (L_return p i) s'
| step_again s s' p i c :
    i_ph s !! p = Some (P_awake i) -> iderw_wait p i s = Block c s' -> step s (L_again p i) s'
| step_use s i b b' :
    Forall (fun p => ~ inside i p) (i_ph s) -> i_bufs s !! i = Some b ->
    i_qnext b' = i_qnext b -> length (i_data b') = Z.to_nat BSIZE ->
    step s (L_use i) (with_ibufs (<[i := b']> (i_bufs s)) s).

Inductive run : ide D -> list label -> ide D -> Prop :=
| run_nil s : run s [] s
| run_snoc s tr s1 l s2 : run s tr s1 -> step s1 l s2 -> run s (tr ++ [l]) s2.

(** The state before [ideinit]: no command was given, drive 0 is selected. *)
Definition powered_on s : Prop :=
  idequeue s = None /\ havedisk1 s = false /\
  Forall (fun b => length (i_data b) = Z.to_nat BSIZE) (i_bufs s) /\
  Forall (fun p => p = P_out) (i_ph s) /\
  av_job (ata_abs (i_ata s)) = Idle /\ av_drive (ata_abs (i_ata s)) = 0.
End machine.

(** ** What the driver promises: a queue of requests in front of the drives

    The buffers, without the links of the queue, the requests in the order of
    the calls, and what the disk has answered to the first of them. *)
Definition unlink (b : ibuf) : ibuf := set_qnext None b.

Record spec := mk_spec {
  sp_queue : list nat;
  sp_answer : option bool;
  sp_disk : Z -> Z -> list Z;
  sp_bufs : list ibuf;
  sp_ph : list phase
}.

(** A buffer whose request is over: what was read is in it unless the disk
    reported an error. *)
Definition complete (ok : bool) (disk : Z -> Z -> list Z) (b : ibuf) : ibuf :=
  set_iflags true false
    (if negb (i_dirty b) && ok then set_idata (disk (Z.land (i_dev b) 1) (i_blockno b)) b else b).

Inductive spec_step (disk1 : bool) : spec -> label -> spec -> Prop :=
| spec_call q a disk bs ph p i b :
    ph !! p = Some P_out -> bs !! i = Some b -> i_lock b = Some p -> synced b = false ->
    (i_dev b = 0 \/ disk1 = true) -> 0 <= i_blockno b < FSSIZE ->
    spec_step disk1 (mk_spec q a disk bs ph) (L_call p i)
                    (mk_spec (q ++ [i]) a disk bs (<[p := P_asleep i]> ph))
| spec_disk q disk disk' bs ph i b ok :
    bs !! i = Some b -> ata_effect (cmd_of b) ok disk disk' ->
    spec_step disk1 (mk_spec (i :: q) None disk bs ph) (L_disk ok)
                    (mk_spec (i :: q) (Some ok) disk' bs ph)
| spec_intr q disk bs ph i b ok :
    bs !! i = Some b ->
    spec_step disk1 (mk_spec (i :: q) (Some ok) disk bs ph) L_intr
                    (mk_spec q None disk (<[i := complete ok disk b]> bs) (wake_phase i <$> ph))
| spec_no_request disk bs ph :
    spec_step disk1 (mk_spec [] None disk bs ph) L_intr (mk_spec [] None disk bs ph)
| spec_return q a disk bs ph p i b :
    ph !! p = Some (P_awake i) -> bs !! i = Some b -> synced b = true ->
    spec_step disk1 (mk_spec q a disk bs ph) (L_return p i)
                    (mk_spec q a disk bs (<[p := P_out]> ph))
| spec_use q a disk bs ph i b :
    Forall (fun p => ~ inside i p) ph -> length (i_data b) = Z.to_nat BSIZE ->
    spec_step disk1 (mk_spec q a disk bs ph) (L_use i) (mk_spec q a disk (<[i := b]> bs) ph).

Inductive spec_run (disk1 : bool) : spec -> list label -> spec -> Prop :=
| spec_run_nil a : spec_run disk1 a [] a
| spec_run_snoc a tr a1 l a2 :
    spec_run disk1 a tr a1 -> spec_step disk1 a1 l a2 -> spec_run disk1 a (tr ++ [l]) a2.

(** ** The queue as a linked list *)
Fixpoint qseg (bs : list ibuf) (h : option nat) (q : list nat) : Prop :=
  match q with
  | [] => h = None
  | i :: q => h = Some i /\ exists b, bs !! i = Some b /\ qseg bs (i_qnext b) q
  end.

Lemma qseg_change bs bs' h q :
  (forall i b, i ∈ q -> bs !! i = Some b -> exists b', bs' !! i = Some b' /\ i_qnext b' = i_qnext b) ->
  qseg bs h q -> qseg bs' h q.
Proof.
  revert h. induction q as [| i q IH]; intros h Hb; [done |].
  intros (-> & b & Hi & Hq). split; [done |].
  destruct (Hb i b) as (b' & Hb' & E); [set_solver | done |].
  exists b'. split; [done |]. rewrite E. apply IH; [| done]. intros j bj Hj. apply Hb. set_solver.
Qed.

Lemma qseg_alter bs h q i f :
  (forall b, i_qnext (f b) = i_qnext b) \/ i ∉ q -> qseg bs h q -> qseg (alter f i bs) h q.
Proof.
  intros Hf. apply qseg_change. intros j b Hj Hb.
  destruct (decide (j = i)) as [-> | Hne].
  - destruct Hf as [Hf |]; [| done]. exists (f b). by rewrite list_lookup_alter_eq, Hb.
  - exists b. by rewrite list_lookup_alter_ne.
Qed.

Lemma qseg_head bs h q : qseg bs h q -> h = head q.
Proof. destruct q; [done |]. by intros (-> & _). Qed.

Lemma qseg_elem bs h q i : qseg bs h q -> i ∈ q -> exists b, bs !! i = Some b.
Proof.
  revert h. induction q as [| j q IH]; intros h Hq Hi; [set_solver |].
  destruct Hq as (_ & b & Hj & Hq). apply elem_of_cons in Hi as [-> |]; eauto.
Qed.

(** Appending a buffer whose own link is clear. *)
Lemma qseg_append bs h q i b :
  NoDup (q ++ [i]) -> bs !! i = Some b -> i_qnext b = None -> qseg bs h q ->
  match last q with
  | None => qseg bs (Some i) [i]
  | Some l => qseg (alter (set_qnext (Some i)) l bs) h (q ++ [i])
  end.
Proof.
  intros Hn Hi Hb. revert h. induction q as [| j q IH]; intros h.
  - intros _. simpl. split; [done |]. by exists b.
  - intros (-> & bj & Hj & Hq). cbn [app] in Hn. apply NoDup_cons in Hn as [Hj' Hn].
    specialize (IH Hn _ Hq). destruct q as [| k q]; cbn [last] in *.
    + split; [done |]. exists (set_qnext (Some i) bj).
      rewrite list_lookup_alter_eq, Hj. split; [done |]. split; [done |]. exists b.
      rewrite list_lookup_alter_ne; [done |]. intros ->. apply Hj'. apply list_elem_of_here.
    + destruct (last (k :: q)) as [l |] eqn:El; [| by apply last_None in El].
      split; [done |]. exists bj. rewrite list_lookup_alter_ne.
      * done.
      * intros ->. apply last_Some in El as [l' El]. apply Hj'. rewrite El.
        apply elem_of_app. left. apply elem_of_app. right. apply list_elem_of_here.
Qed.

(** ** The operations *)
Section operations.
Context {D : Type} `{AtaOk D}.
Variable spins : nat.
Implicit Types s : ide D.

Lemma get_ibuf_ok s i b : i_bufs s !! i = Some b -> get_ibuf i s = Ret b s.
Proof. intros Hi. unfold get_ibuf. mstep. by rewrite Hi. Qed.

Lemma idewait_ready s checkerr :
  job_busy (av_job (ata_abs (i_ata s))) = false -> drive_there (ata_abs (i_ata s)) ->
  exists r d, idewait spins checkerr s = Ret r (with_ata d s) /\ ata_abs d = ata_abs (i_ata s) /\
    (checkerr = false -> r = 0) /\
    (forall c ok, av_job (ata_abs (i_ata s)) = Finished c ok -> (0 <=? r) = negb checkerr || ok).
Proof.
  intros Hb Hd. destruct (ata_ready _ Hb Hd) as (Hr & Ha & Hok).
  destruct (ata_status (i_ata s)) as [r d] eqn:Es. cbn [fst snd] in *.
  exists (if checkerr && negb (Z.land r 0x21 =? 0) then -1 else 0), d.
  split; [| split; [done | split; [by intros -> |]]].
  - unfold idewait. erewrite bind_ret.
    2:{ cbn [idewait_loop]. erewrite bind_ret by (unfold inb_status; rewrite Es; done).
        cbv beta. change (Z.lor IDE_BSY IDE_DRDY) with 0xc0. rewrite Hr. done. }
    change (Z.lor IDE_DF IDE_ERR) with 0x21. by destruct (checkerr && _).
  - intros c ok Hj. rewrite (Hok c ok Hj). by destruct checkerr, ok.
Qed.

Lemma drive_bit n : Z.land n 1 = 0 \/ Z.land n 1 = 1.
Proof.
  assert (Z.land n 1 = n mod 2 ^ 1) as -> by (apply (Z.land_ones n 1); lia).
  pose proof (Z.mod_pos_bound n (2 ^ 1)). lia.
Qed.

(** The bytes the driver puts in the task file are those of the protocol. *)
Lemma task_file dev n : 0 <= n < FSSIZE ->
  u8 (Z.land n 0xff) = n mod 256 /\
  u8 (Z.land (Z.shiftr n 8) 0xff) = n / 2 ^ 8 mod 256 /\
  u8 (Z.land (Z.shiftr n 16) 0xff) = n / 2 ^ 16 mod 256 /\
  u8 (Z.lor (Z.lor 0xe0 (Z.shiftl (Z.land dev 1) 4)) (Z.land (Z.shiftr n 24) 0x0f)) =
    0xe0 + 16 * Z.land dev 1 + n / 2 ^ 24.
Proof.
  unfold FSSIZE. intros Hn. change 0xff with (Z.ones 8). unfold u8.
  rewrite !Z.land_ones, !Z.shiftr_div_pow2 by lia. change (2 ^ 8) with 256.
  rewrite !Zmod_mod. split; [done |]. split; [done |]. split; [done |].
  rewrite (Z.div_small n (2 ^ 24)) by lia. by destruct (drive_bit dev) as [-> | ->].
Qed.

Lemma idestart_ok s i b :
  i_bufs s !! i = Some b -> 0 <= i_blockno b < FSSIZE -> length (i_data b) = Z.to_nat BSIZE ->
  job_free (av_job (ata_abs (i_ata s))) -> drive_there (ata_abs (i_ata s)) ->
  exists d, idestart spins (Some i) s = Ret tt (with_ata d s) /\
    ata_abs d = view_job (Busy (cmd_of b)) (view_drive (Z.land (i_dev b) 1) (ata_abs (i_ata s))).
Proof.
  intros Hi Hn Hl Hf Hd.
  assert (Hnb : job_busy (av_job (ata_abs (i_ata s))) = false) by (by destruct (av_job _)).
  destruct (idewait_ready s false Hnb Hd) as (r & d & Hw & Ha & _).
  destruct (task_file (i_dev b) (i_blockno b) Hn) as (T1 & T2 & T3 & T4).
  assert (Hs : s32 (i_blockno b * (BSIZE / SECTOR_SIZE)) = i_blockno b).
  { change (BSIZE / SECTOR_SIZE) with 1. unfold FSSIZE in Hn. rewrite Z.mul_1_r, s32_small; lia. }
  assert (Hdrv : 0 <= Z.land (i_dev b) 1 < 2) by (destruct (drive_bit (i_dev b)); lia).
  rewrite <- Ha in Hf. unfold FSSIZE in Hn.
  assert (Hlba : 0 <= i_blockno b < 2 ^ 28) by lia.
  pose proof (ata_read d _ _ Hf Hdrv Hlba) as HR.
  pose proof (ata_write d _ _ (i_data b) Hf Hdrv Hlba Hl) as HW.
  unfold idestart. erewrite bind_ret by (by apply get_ibuf_ok).
  destruct (Z.leb_spec FSSIZE (i_blockno b)) as [Hx |]; [unfold FSSIZE in Hx; lia |].
  rewrite Hs. cbv zeta. change (7 <? BSIZE / SECTOR_SIZE) with false. cbv iota.
  erewrite bind_ret by exact Hw. unfold outb, outsl. mrun.
  destruct (i_dirty b) eqn:Edirty.
  - mrun. eexists. split; [reflexivity |]. cbn [i_ata with_ata].
    rewrite T1, T2, T3, T4. rewrite take_ge by (rewrite Hl; done).
    unfold cmd_of. rewrite Edirty, <- Ha. exact HW.
  - eexists. split; [reflexivity |]. cbn [i_ata with_ata]. rewrite T1, T2, T3, T4.
    unfold cmd_of. rewrite Edirty, <- Ha. exact HR.
Qed.

Lemma drive_of_buf b v : (i_dev b = 0 \/ av_disk1 v = true) ->
  drive_there (view_job (Busy (cmd_of b)) (view_drive (Z.land (i_dev b) 1) v)).
Proof.
  intros [-> | Hd]; [by left |]. destruct (drive_bit (i_dev b)) as [E | E]; unfold drive_there; cbn.
  - by left.
  - by right.
Qed.
End operations.

(** ** The invariant of the promise *)

(** A request in the queue belongs to the one process that sleeps on its buffer,
    which holds the lock of the buffer; a process is woken up only when its
    request is over. *)
Record spec_ok (disk1 : bool) (a : spec) : Prop := {
  ok_nodup : NoDup (sp_queue a);
  ok_data : forall i b, sp_bufs a !! i = Some b -> length (i_data b) = Z.to_nat BSIZE;
  ok_disk : forall n l, length (sp_disk a n l) = Z.to_nat BSIZE;
  ok_req : forall i, i ∈ sp_queue a -> exists b p, sp_bufs a !! i = Some b /\ i_lock b = Some p /\
    sp_ph a !! p = Some (P_asleep i) /\ synced b = false /\ 0 <= i_blockno b < FSSIZE /\
    (i_dev b = 0 \/ disk1 = true);
  ok_asleep : forall p i, sp_ph a !! p = Some (P_asleep i) -> i ∈ sp_queue a /\
    exists b, sp_bufs a !! i = Some b /\ i_lock b = Some p;
  ok_awake : forall p i, sp_ph a !! p = Some (P_awake i) -> (i ∉ sp_queue a) /\
    exists b, sp_bufs a !! i = Some b /\ i_lock b = Some p /\ synced b = true
}.

Lemma fresh_request disk1 a p i b :
  spec_ok disk1 a -> sp_ph a !! p = Some P_out -> sp_bufs a !! i = Some b -> i_lock b = Some p ->
  (i ∉ sp_queue a) /\ Forall (fun x => ~ inside i x) (sp_ph a).
Proof.
  intros Hok Hp Hb Hl. split.
  - intros Hi. destruct (ok_req _ _ Hok i Hi) as (b' & p' & Hb' & Hl' & Hp' & _). naive_solver.
  - apply Forall_lookup. intros p' x Hx [-> | ->].
    + destruct (ok_asleep _ _ Hok _ _ Hx) as (_ & b' & ? & ?). naive_solver.
    + destruct (ok_awake _ _ Hok _ _ Hx) as (_ & b' & ? & ? & _). naive_solver.
Qed.

Lemma lookup_insert_cases {A : Type} (l : list A) i x j y :
  <[i := x]> l !! j = Some y -> (j = i /\ y = x) \/ (j <> i /\ l !! j = Some y).
Proof. rewrite list_lookup_insert_Some. naive_solver. Qed.

Lemma wake_lookup i (ph : list phase) p x : (wake_phase i <$> ph) !! p = Some x ->
  exists y, ph !! p = Some y /\ x = wake_phase i y.
Proof. rewrite list_lookup_fmap. destruct (ph !! p) eqn:E; naive_solver. Qed.

Lemma spec_ok_call disk1 q a disk bs ph p i b :
  ph !! p = Some P_out -> bs !! i = Some b -> i_lock b = Some p -> synced b = false ->
  (i_dev b = 0 \/ disk1 = true) -> 0 <= i_blockno b < FSSIZE ->
  spec_ok disk1 (mk_spec q a disk bs ph) ->
  spec_ok disk1 (mk_spec (q ++ [i]) a disk bs (<[p := P_asleep i]> ph)).
Proof.
  intros Hp Hb Hl Hs Hd Hn Hok.
  destruct (fresh_request _ _ p i b Hok Hp Hb Hl) as [Hi Hin].
  assert (Hlt : (p < length ph)%nat) by (by eapply lookup_lt_Some).
  rewrite Forall_lookup in Hin. destruct Hok as [H1 H2 H3 H4 H5 H6]. split; cbn in *; try done.
  - apply NoDup_app. split_and!; [done | | apply NoDup_singleton].
    intros x Hx ->%list_elem_of_singleton. done.
  - intros j [Hj | ->%list_elem_of_singleton]%elem_of_app.
    + destruct (H4 j Hj) as (b' & p' & ? & ? & ? & ?). exists b', p'. split_and!; try done; try tauto.
      rewrite list_lookup_insert_ne; naive_solver.
    + exists b, p. rewrite list_lookup_insert_eq by done. done.
  - intros p' j [[-> [= ->]] | [Hne Hx]]%lookup_insert_cases.
    + split; [| by exists b]. apply elem_of_app. right. by apply list_elem_of_singleton.
    + destruct (H5 _ _ Hx) as (? & ?). split; [| done]. apply elem_of_app. by left.
  - intros p' j [[_ [=]] | [Hne Hx]]%lookup_insert_cases. destruct (H6 _ _ Hx) as (? & ?).
    split; [| done]. intros [Hj | ->%list_elem_of_singleton]%elem_of_app; [done |].
    apply (Hin _ _ Hx). by right.
Qed.

Lemma spec_ok_intr disk1 q disk bs ph i b ok :
  bs !! i = Some b ->
  spec_ok disk1 (mk_spec (i :: q) (Some ok) disk bs ph) ->
  spec_ok disk1 (mk_spec q None disk (<[i := complete ok disk b]> bs) (wake_phase i <$> ph)).
Proof.
  intros Hb [H1 H2 H3 H4 H5 H6]. cbn in *. apply NoDup_cons in H1 as [Hi H1].
  assert (Hlt : (i < length bs)%nat) by (by eapply lookup_lt_Some).
  assert (Hlk : i_lock (complete ok disk b) = i_lock b) by (unfold complete; by destruct (_ && _)).
  split; cbn; try done.
  - intros j b' [[-> ->] | [_ ?]]%lookup_insert_cases; [| eauto].
    unfold complete. destruct (_ && _); cbn; eauto.
  - intros j Hj. destruct (H4 j) as (b' & p & ? & ? & Hp & ?); [by right |]. exists b', p.
    rewrite list_lookup_insert_ne by (intros ->; done). rewrite list_lookup_fmap, Hp. cbn.
    rewrite decide_False by (intros ->; done). tauto.
  - intros p j (y & Hy & E)%wake_lookup. destruct y as [| k | k]; cbn in E; try done.
    destruct (decide (k = i)); [done |]. simplify_eq.
    destruct (H5 _ _ Hy) as [[? |]%elem_of_cons (b' & ?)]; [done |]. split; [done |].
    exists b'. by rewrite list_lookup_insert_ne.
  - intros p j (y & Hy & E)%wake_lookup. destruct y as [| k | k]; cbn in E; try done.
    + destruct (decide (k = i)); [| done]. simplify_eq. split; [done |].
      destruct (H5 _ _ Hy) as [_ (b' & ? & ?)]. simplify_eq.
      eexists. rewrite list_lookup_insert_eq by done. split_and!; [done | congruence |].
      unfold complete. by destruct (_ && _).
    + simplify_eq. destruct (H6 _ _ Hy) as [Hn (b' & ?)]. split; [intros ?; apply Hn; by right |].
      exists b'. rewrite list_lookup_insert_ne; [done |]. intros ->. apply Hn. by left.
Qed.

Lemma spec_step_ok disk1 a l a' : spec_step disk1 a l a' -> spec_ok disk1 a -> spec_ok disk1 a'.
Proof.
  intros Hs. destruct Hs as [| q disk disk' bs ph i b ok Hb He | | | q a disk bs ph p i b Hp Hb Hs
    | q a disk bs ph i b Hin Hl]; intros Hok.
  - by eapply spec_ok_call.
  - destruct Hok as [H1 H2 H3 H4 H5 H6]. split; cbn in *; try done. intros n l.
    unfold ata_effect, cmd_of in He. destruct (i_dirty b); cbn in He; [| by rewrite He].
    destruct He as (_ & Hl & Ho).
    destruct (decide (n = Z.land (i_dev b) 1)) as [-> |]; [| rewrite Ho; [done | by left]].
    destruct (decide (l = i_blockno b)) as [-> |]; [| rewrite Ho; [done | by right]].
    rewrite Hl. eauto.
  - by apply spec_ok_intr.
  - done.
  - destruct Hok as [H1 H2 H3 H4 H5 H6]. split; cbn in *; try done.
    + intros j Hj. destruct (H4 j Hj) as (b' & p' & ? & ? & ? & ?). exists b', p'.
      rewrite list_lookup_insert_ne by naive_solver. done.
    + intros p' j [[_ [=]] | [_ Hx]]%lookup_insert_cases. eauto.
    + intros p' j [[_ [=]] | [_ Hx]]%lookup_insert_cases. eauto.
  - rewrite Forall_lookup in Hin. destruct Hok as [H1 H2 H3 H4 H5 H6]. split; cbn in *; try done.
    + intros j b' [[-> ->] | [_ ?]]%lookup_insert_cases; eauto.
    + intros j Hj. destruct (H4 j Hj) as (b' & p' & ? & ? & Hp & ?). exists b', p'.
      rewrite list_lookup_insert_ne; [done |]. intros ->. apply (Hin _ _ Hp). by left.
    + intros p' j Hx. destruct (H5 _ _ Hx) as (? & b' & ?). split; [done |]. exists b'.
      rewrite list_lookup_insert_ne; [done |]. intros ->. apply (Hin _ _ Hx). by left.
    + intros p' j Hx. destruct (H6 _ _ Hx) as (? & b' & ?). split; [done |]. exists b'.
      rewrite list_lookup_insert_ne; [done |]. intros ->. apply (Hin _ _ Hx). by right.
Qed.

(** ** The driver keeps the promise *)
Section simulation.
Context {D : Type} `{AtaOk D}.
Variable spins : nat.
Implicit Types (s : ide D) (a : spec).

Abbreviation vw s := (ata_abs (i_ata s)).

(** A state of the driver and the queue of requests it stands for: the links
    spell the queue, and the controller works for the first request. *)
Record rel s a : Prop := {
  r_seg : qseg (i_bufs s) (idequeue s) (sp_queue a);
  r_bufs : sp_bufs a = unlink <$> i_bufs s;
  r_ph : sp_ph a = i_ph s;
  r_disk : sp_disk a = av_disk (vw s);
  r_disk1 : havedisk1 s = av_disk1 (vw s);
  r_drive : drive_there (vw s);
  r_job : match sp_queue a with
          | [] => sp_answer a = None /\ job_free (av_job (vw s))
          | i :: _ => exists b, sp_bufs a !! i = Some b /\
              av_job (vw s) = match sp_answer a with None => Busy (cmd_of b) | Some ok => Finished (cmd_of b) ok end
          end
}.

Lemma unlinked s a i b : rel s a -> i_bufs s !! i = Some b -> sp_bufs a !! i = Some (unlink b).
Proof. intros HR Hi. rewrite (r_bufs _ _ HR), list_lookup_fmap, Hi. done. Qed.

Lemma linked s a i b : rel s a -> sp_bufs a !! i = Some b ->
  exists b', i_bufs s !! i = Some b' /\ b = unlink b'.
Proof.
  intros HR. rewrite (r_bufs _ _ HR), list_lookup_fmap. destruct (i_bufs s !! i); naive_solver.
Qed.

(** Writing links leaves the rest of the buffers alone. *)
Lemma unlink_alter v i (bs : list ibuf) : unlink <$> alter (set_qnext v) i bs = unlink <$> bs.
Proof.
  apply list_eq. intros j. rewrite !list_lookup_fmap.
  destruct (decide (j = i)) as [-> |]; [rewrite list_lookup_alter_eq | by rewrite list_lookup_alter_ne].
  by destruct (bs !! i).
Qed.

Lemma alter_at f i (bs : list ibuf) b : bs !! i = Some b -> alter f i bs = <[i := f b]> bs.
Proof.
  intros Hi. apply list_eq. intros j. destruct (decide (j = i)) as [-> |].
  - rewrite list_lookup_alter_eq, Hi. symmetry. apply list_lookup_insert_eq. by eapply lookup_lt_Some.
  - by rewrite list_lookup_alter_ne, list_lookup_insert_ne.
Qed.

Lemma last_slot_ok s pp h q fuel :
  load pp s = Ret h s -> qseg (i_bufs s) h q -> (length q < fuel)%nat ->
  last_slot fuel pp s = Ret (match last q with None => pp | Some l => At_next l end) s.
Proof.
  revert pp h fuel. induction q as [| i q IH]; intros pp h fuel Hl Hq Hf; (destruct fuel as [| fuel]; [simpl in Hf; lia |]).
  - cbn in Hq. subst h. cbn [last_slot]. by erewrite bind_ret by exact Hl.
  - destruct Hq as (-> & b & Hi & Hq). cbn [last_slot]. erewrite bind_ret by exact Hl. cbv iota.
    rewrite (IH (At_next i) (i_qnext b)); [| | done | simpl in Hf; lia].
    + rewrite (last_cons i). by destruct (last q).
    + cbn [load]. by erewrite bind_ret by (by apply get_ibuf_ok).
Qed.

Lemma queue_short s q h : qseg (i_bufs s) h q -> NoDup q -> (length q <= length (i_bufs s))%nat.
Proof.
  intros Hq Hn. rewrite <- (length_seq (length (i_bufs s)) 0). apply submseteq_length.
  apply NoDup_submseteq; [done |]. intros i Hi.
  destruct (qseg_elem _ _ _ _ Hq Hi) as [b Hb]. apply lookup_lt_Some in Hb. apply elem_of_seq. lia.
Qed.

Lemma iderw_wait_ok s p i b : i_bufs s !! i = Some b ->
  iderw_wait p i s = if synced b then Ret tt (with_ph (<[p := P_out]> (i_ph s)) s)
                     else Block "ide" (with_ph (<[p := P_asleep i]> (i_ph s)) s).
Proof.
  intros Hi. unfold iderw_wait. erewrite bind_ret by (by apply get_ibuf_ok). by destruct (synced b).
Qed.

(** The part of [iderw] that appends the buffer to the queue. *)
Lemma append_ok s q i b (k : M (ide D) unit) :
  qseg (i_bufs s) (idequeue s) q -> NoDup (q ++ [i]) -> i_bufs s !! i = Some b ->
  exists bs, unlink <$> bs = unlink <$> i_bufs s /\ qseg bs (head (q ++ [i])) (q ++ [i]) /\
    (upd_ibuf i (set_qnext None);;
     n ← gets (fun s => length (i_bufs s));
     pp ← last_slot (S (S n)) At_head;
     store pp (Some i);; k) s = k (with_queue (head (q ++ [i])) (with_ibufs bs s)).
Proof.
  intros Hseg Hnd Hi. set (bs1 := alter (set_qnext None) i (i_bufs s)).
  assert (Hi1 : bs1 !! i = Some (set_qnext None b)) by (unfold bs1; rewrite list_lookup_alter_eq, Hi; done).
  pose proof Hnd as (Hq & Hiq & _)%NoDup_app.
  assert (Hq1 : qseg bs1 (idequeue s) q).
  { apply qseg_alter; [| done]. right. intros Hin. apply (Hiq i Hin). by left. }
  pose proof (qseg_append bs1 _ _ i _ Hnd Hi1 eq_refl Hq1) as Happ.
  set (s1 := with_ibufs bs1 s).
  assert (Hlast : last_slot (S (S (length bs1))) At_head s1 =
    Ret (match last q with None => At_head | Some l => At_next l end) s1).
  { apply (last_slot_ok s1 At_head (idequeue s)); [done | done |].
    pose proof (queue_short s1 _ _ Hq1 Hq) as Hlen. cbn in Hlen. lia. }
  unfold upd_ibuf. mstep. fold bs1. fold s1. mstep. erewrite bind_ret by exact Hlast. cbv beta.
  destruct q as [| h q].
  - exists bs1. split_and!; [apply unlink_alter | exact Happ |]. cbn [last store]. by mrun.
  - destruct (last (h :: q)) as [l |] eqn:El; [| by apply last_None in El].
    exists (alter (set_qnext (Some i)) l bs1). pose proof (qseg_head _ _ _ Happ) as Hh.
    split_and!; [by unfold bs1; rewrite !unlink_alter | by rewrite <- Hh |].
    cbn [store]. unfold upd_ibuf. mstep. rewrite <- Hh. by destruct s.
Qed.

(** A call that the driver accepts appends its buffer and sleeps. *)
Lemma iderw_ok s a p i b :
  rel s a -> spec_ok (havedisk1 s) a ->
  i_ph s !! p = Some P_out -> i_bufs s !! i = Some b -> 0 <= i_blockno b < FSSIZE ->
  i_lock b = Some p -> synced b = false -> (i_dev b = 0 \/ havedisk1 s = true) ->
  exists s', iderw spins p i s = Block "ide" s' /\ havedisk1 s' = havedisk1 s /\
    rel s' (mk_spec (sp_queue a ++ [i]) (sp_answer a) (sp_disk a) (sp_bufs a) (<[p := P_asleep i]> (sp_ph a))).
Proof.
  intros HR Hok Hp Hi Hn Hl Hs Hd. pose proof HR as [Hseg Hbufs Hph Hdisk Hd1 Hdrv Hjob].
  destruct (fresh_request _ a p i (unlink b) Hok) as [Hiq _]; [by rewrite Hph | by eapply unlinked | done |].
  assert (Hnd : NoDup (sp_queue a ++ [i])).
  { apply NoDup_app. split_and!; [by apply (ok_nodup _ _ Hok) | | apply NoDup_singleton].
    intros x Hx ->%list_elem_of_singleton. done. }
  unfold iderw. erewrite bind_ret by (by apply get_ibuf_ok).
  rewrite bool_decide_true by done. cbv beta iota. rewrite Hs. cbn [negb]. mstep.
  assert ((negb (i_dev b =? 0) && negb (havedisk1 s)) = false) as ->
    by (destruct Hd as [-> | ->]; [done | by rewrite andb_false_r]).
  destruct (append_ok s (sp_queue a) i b (q ← gets idequeue;
    when (bool_decide (q = Some i)) (idestart spins (Some i));; iderw_wait p i) Hseg Hnd Hi) as (bs & Hbs & Hq & ->).
  assert (exists b', bs !! i = Some b' /\ unlink b' = unlink b) as (b' & Hb' & Eb).
  { apply (f_equal (.!! i)) in Hbs. rewrite !list_lookup_fmap, Hi in Hbs.
    destruct (bs !! i) as [b' |]; [| done]. apply (inj Some) in Hbs. by exists b'. }
  assert (Hs' : synced b' = false).
  { change (synced b') with (synced (unlink b')). by rewrite Eb. }
  mstep. cbn [idequeue with_queue]. set (s2 := with_queue _ _).
  destruct (sp_queue a) as [| h q] eqn:Eq; cbn [app head].
  - rewrite bool_decide_true by done. destruct Hjob as [Ha Hfree].
    destruct (idestart_ok spins s2 i b') as (d & Hst & Hv); [done | | | done | done |].
    { change (i_blockno b') with (i_blockno (unlink b')). by rewrite Eb. }
    { change (i_data b') with (i_data (unlink b')). rewrite Eb. apply (ok_data _ _ Hok i). by eapply unlinked. }
    unfold when. erewrite bind_ret by exact Hst. rewrite (iderw_wait_ok _ p i b') by done. rewrite Hs'.
    eexists. split; [reflexivity |]. split; [done |]. split; cbn; rewrite ?Hv; cbn; try done; [congruence | by rewrite Hph | |].
    + apply (drive_of_buf b'). change (i_dev b') with (i_dev (unlink b')). rewrite Eb. cbn. by rewrite <- Hd1.
    + exists (unlink b'). rewrite Ha, Eb. split; [by eapply unlinked |].
      change (cmd_of b') with (cmd_of (unlink b')). by rewrite Eb.
  - rewrite bool_decide_false by (intros [= ->]; apply Hiq; by left).
    unfold when. mstep. rewrite (iderw_wait_ok _ p i b') by exact Hb'. rewrite Hs'.
    eexists. split; [reflexivity |]. split; [done |]. split; cbn; try done; [congruence | by rewrite Hph].
Qed.

(** The end of [ideintr]: the controller is given the next request. *)
Lemma next_request s q disk bs ph :
  qseg (i_bufs s) (idequeue s) q -> bs = unlink <$> i_bufs s -> ph = i_ph s -> disk = av_disk (vw s) ->
  havedisk1 s = av_disk1 (vw s) -> drive_there (vw s) -> job_free (av_job (vw s)) ->
  spec_ok (havedisk1 s) (mk_spec q None disk bs ph) ->
  exists s', (q' ← gets idequeue; match q' with Some _ => idestart spins q' | None => mret tt end) s = Ret tt s' /\
    havedisk1 s' = havedisk1 s /\ rel s' (mk_spec q None disk bs ph).
Proof.
  intros Hq -> -> -> Hd1 Hdrv Hfree Hok. mstep. rewrite (qseg_head _ _ _ Hq).
  destruct q as [| j q]; cbn [head].
  - eexists. split; [reflexivity |]. split; [done |]. by split.
  - destruct Hq as (Hh & b & Hb & Hq).
    destruct (ok_req _ _ Hok j) as (b' & p & Hb' & _ & _ & _ & Hn & Hd); [by left |].
    cbn [sp_bufs] in Hb'. pose proof Hb' as Hb''. rewrite list_lookup_fmap, Hb in Hb'. injection Hb' as <-.
    destruct (idestart_ok spins s j b) as (d & Hst & Hv); [done | done | | done | done |].
    { apply (ok_data _ _ Hok j (unlink b)). done. }
    rewrite Hst. eexists. split; [reflexivity |]. split; [done |].
    split; cbn; rewrite ?Hv; cbn; try done.
    + split; [done |]. by exists b.
    + apply (drive_of_buf b). by rewrite <- Hd1.
    + by exists (unlink b).
Qed.

(** The middle of [ideintr]: the buffer takes what the command has left. *)
Lemma collect_ok s i b ok (k : M (ide D) unit) :
  i_bufs s !! i = Some b -> length (i_data b) = Z.to_nat BSIZE ->
  av_job (vw s) = Finished (cmd_of b) ok -> drive_there (vw s) ->
  exists d j, ata_abs d = view_job j (vw s) /\ job_free j /\
    (r ← (if negb (i_dirty b) then idewait spins true else mret (-1));
     when (0 <=? r) (insl i (BSIZE / 4));;
     upd_ibuf i (set_iflags true false);; k) s =
    k (with_ibufs (<[i := complete ok (av_disk (vw s)) b]> (i_bufs s)) (with_ata d s)).
Proof.
  intros Hi Hl Hj Hdrv. unfold complete, cmd_of in *. destruct (i_dirty b) eqn:Ed; cbn [negb andb].
  - exists (i_ata s), (av_job (vw s)). split; [by destruct (ata_abs (i_ata s)) |]. split; [by rewrite Hj |].
    mrun. rewrite (alter_at _ _ _ _ Hi). by destruct s.
  - destruct (idewait_ready spins s true) as (r & d & Hw & Ha & _ & Hr); [by rewrite Hj | done |].
    rewrite (bind_ret _ _ _ _ _ Hw). rewrite (Hr _ _ Hj). cbn [negb orb]. destruct ok; cbn [when].
    + rewrite <- Ha in Hj. destruct (ata_take d _ _ Hj) as [Ht1 Ht2].
      destruct (ata_insl 128 d) as [x d'] eqn:Ex. cbn [fst snd] in *.
      exists d', Idle. split; [by rewrite Ht2, Ha |]. split; [done |].
      erewrite bind_ret by (unfold insl; cbn [i_ata with_ata]; change (Z.to_nat (BSIZE / 4)) with 128%nat;
        rewrite Ex; reflexivity).
      unfold upd_ibuf. mstep. cbn [i_bufs with_ibufs with_ata].
      rewrite (alter_at _ _ _ _ Hi). rewrite (alter_at _ _ _ _ (list_lookup_insert_eq _ _ _ (lookup_lt_Some _ _ _ Hi))).
      rewrite list_insert_insert_eq. rewrite drop_ge, app_nil_r.
      * by rewrite Ht1, Ha.
      * rewrite Ht1, ata_sector, Hl. done.
    + exists d, (av_job (vw s)). split; [by rewrite Ha; destruct (ata_abs (i_ata s)) |]. split; [by rewrite Hj |].
      mrun. cbn [i_bufs with_ata]. by rewrite (alter_at _ _ _ _ Hi).
Qed.

(** The handler completes the first request. *)
Lemma ideintr_ok s i q ok disk bs ph b :
  rel s (mk_spec (i :: q) (Some ok) disk bs ph) -> bs !! i = Some b ->
  spec_ok (havedisk1 s) (mk_spec (i :: q) (Some ok) disk bs ph) ->
  exists s', ideintr spins s = Ret tt s' /\ havedisk1 s' = havedisk1 s /\
    rel s' (mk_spec q None disk (<[i := complete ok disk b]> bs) (wake_phase i <$> ph)).
Proof.
  intros HR Hb Hok. destruct (linked _ _ _ _ HR Hb) as (b' & Hb' & ->).
  pose proof (spec_ok_intr _ _ _ _ _ _ _ _ Hb Hok) as Hok'.
  pose proof (ok_data _ _ Hok i _ Hb) as Hlen.
  pose proof (ok_nodup _ _ Hok) as [Hiq _]%NoDup_cons.
  destruct HR as [(Hh & b1 & Hb1 & Hq) Hbufs Hph Hdisk Hd1 Hdrv (b2 & Hb2 & Hj)].
  cbn [sp_queue sp_answer sp_disk sp_bufs sp_ph] in *. simplify_eq.
  unfold ideintr. mstep. rewrite Hh. cbv iota. erewrite bind_ret by (by apply get_ibuf_ok). mstep.
  set (s1 := with_queue (i_qnext b1) s).
  destruct (collect_ok s1 i b1 ok (wakeup_ide i;; q' ← gets idequeue;
      match q' with Some _ => idestart spins q' | None => mret tt end)) as (d & j & Hd & Hfree & ->); try done.
  mstep. match goal with |- exists s', _ ?x = _ /\ _ => apply (next_request x) end; cbn; rewrite ?Hd; try done.
  - eapply qseg_change; [| exact Hq]. intros k bk Hk Hbk. exists bk.
    by rewrite list_lookup_insert_ne by (intros ->; done).
  - rewrite list_fmap_insert. f_equal. unfold complete. by destruct (negb _ && _).
Qed.

Lemma ideintr_empty s : idequeue s = None -> ideintr spins s = Ret tt s.
Proof. intros E. unfold ideintr. mstep. by rewrite E. Qed.

Lemma iderw_accepts s p i b c s' :
  i_bufs s !! i = Some b -> iderw spins p i s = Block c s' ->
  i_lock b = Some p /\ synced b = false /\ (i_dev b = 0 \/ havedisk1 s = true).
Proof.
  intros Hi. unfold iderw. erewrite bind_ret by (by apply get_ibuf_ok).
  case_bool_decide; cbn [negb]; [| done]. destruct (synced b); [done |]. mstep.
  destruct (Z.eqb_spec (i_dev b) 0); [by auto |]. cbn [negb andb].
  destruct (havedisk1 s) eqn:Eh; [| done]. by auto.
Qed.

Lemma rel_finish s a d' c ok :
  rel s a -> ata_finish (i_ata s) d' -> av_job (ata_abs d') = Finished c ok ->
  exists a', spec_step (havedisk1 s) a (L_disk ok) a' /\ rel (with_ata d' s) a'.
Proof.
  intros HR Hf Hj'. destruct (ata_end _ _ Hf) as (c' & ok' & disk' & Hj & He & Hd').
  rewrite Hd' in Hj'. cbn in Hj'. simplify_eq.
  destruct a as [q ans disk bs ph]. pose proof HR as [Hseg Hbufs Hph Hdisk Hd1 Hdrv Hjob]. cbn in *.
  destruct q as [| i q]; [destruct Hjob as [_ Hfree]; by rewrite Hj in Hfree |].
  destruct Hjob as (b & Hb & Hjb). destruct ans; [by rewrite Hj in Hjb |].
  assert (c = cmd_of b) as -> by congruence. eexists. split.
  - eapply spec_disk; [exact Hb |]. rewrite Hdisk. exact He.
  - split; cbn; rewrite ?Hd'; cbn; try done. by exists b.
Qed.

Lemma rel_use s a i b b' :
  rel s a -> i_bufs s !! i = Some b -> i_qnext b' = i_qnext b ->
  i ∉ sp_queue a ->
  rel (with_ibufs (<[i := b']> (i_bufs s)) s)
      (mk_spec (sp_queue a) (sp_answer a) (sp_disk a) (<[i := unlink b']> (sp_bufs a)) (sp_ph a)).
Proof.
  intros [Hseg Hbufs Hph Hdisk Hd1 Hdrv Hjob] Hi Hq Hn. split; cbn; try done.
  - eapply qseg_change; [| exact Hseg]. intros j bj Hj Hbj. exists bj.
    by rewrite list_lookup_insert_ne by (intros ->; done).
  - rewrite Hbufs. symmetry. apply list_fmap_insert.
  - destruct (sp_queue a) as [| j q]; [done |]. destruct Hjob as (bj & Hbj & Hj). exists bj.
    rewrite list_lookup_insert_ne; [done |]. intros ->. apply Hn. by left.
Qed.

Lemma not_queued a i disk1 : spec_ok disk1 a -> Forall (fun p => ~ inside i p) (sp_ph a) -> i ∉ sp_queue a.
Proof.
  intros Hok Hin Hi. destruct (ok_req _ _ Hok i Hi) as (b & p & _ & _ & Hp & _).
  rewrite Forall_lookup in Hin. apply (Hin _ _ Hp). by left.
Qed.

(** Every step of the machine is a step of the promise. *)
Lemma rel_step s l s' a :
  step spins s l s' -> rel s a -> spec_ok (havedisk1 s) a ->
  exists a', spec_step (havedisk1 s) a l a' /\ rel s' a' /\ havedisk1 s' = havedisk1 s.
Proof.
  intros Hs HR Hok. pose proof HR as [Hseg Hbufs Hph Hdisk Hd1 Hdrv Hjob].
  destruct Hs as [s s' p i b c Hp Hi Hn Hrw | s d' c ok Hf Hj | s s' c ok Hj Hin | s s' p i Hp Hw
    | s s' p i c Hp Hw | s i b b' Hin Hi Hq Hl].
  - destruct (iderw_accepts _ _ _ _ _ _ Hi Hrw) as (Hl & Hsy & Hd).
    destruct (iderw_ok s a p i b) as (s2 & Hrw2 & Hd2 & HR2); try done.
    rewrite Hrw2 in Hrw. injection Hrw as _ <-. eexists. split_and!; [| exact HR2 | done].
    destruct a as [q ans disk bs ph]. cbn in *. apply (spec_call _ _ _ _ _ _ p i (unlink b)); try done; [by rewrite Hph |].
    by eapply (unlinked s (mk_spec q ans disk bs ph)).
  - destruct (rel_finish s a d' c ok HR Hf Hj) as (a' & Ha' & HR'). by exists a'.
  - destruct a as [q ans disk bs ph]. cbn in *. destruct q as [| i q].
    + destruct Hjob as [-> _]. rewrite ideintr_empty in Hin by done.
      injection Hin as <-. exists (mk_spec [] None disk bs ph). split_and!; [constructor | done | done].
    + destruct Hjob as (b & Hb & Hjb). destruct ans as [ok' |]; [| by rewrite Hj in Hjb].
      destruct (ideintr_ok s i q ok' disk bs ph b) as (s2 & Hin2 & Hd2 & HR2); try done.
      rewrite Hin2 in Hin. injection Hin as <-. eexists. split_and!; [| exact HR2 | done]. by constructor.
  - rewrite <- Hph in Hp. destruct (ok_awake _ _ Hok _ _ Hp) as (_ & b & Hb & _ & Hsy).
    destruct (linked _ _ _ _ HR Hb) as (b' & Hb' & ->).
    rewrite (iderw_wait_ok _ p i b' Hb') in Hw. change (synced (unlink b')) with (synced b') in Hsy.
    rewrite Hsy in Hw. injection Hw as <-. destruct a as [q ans disk bs ph]. cbn in *.
    eexists. split_and!; [by eapply spec_return | | done]. by split; cbn; rewrite ?Hph.
  - rewrite <- Hph in Hp. destruct (ok_awake _ _ Hok _ _ Hp) as (_ & b & Hb & _ & Hsy).
    destruct (linked _ _ _ _ HR Hb) as (b' & Hb' & ->).
    rewrite (iderw_wait_ok _ p i b' Hb') in Hw. change (synced (unlink b')) with (synced b') in Hsy.
    by rewrite Hsy in Hw.
  - rewrite <- Hph in Hin. destruct a as [q ans disk bs ph]. eexists. split_and!.
    + eapply (spec_use _ q ans disk bs ph i (unlink b')); [exact Hin | done].
    + apply (rel_use s _ i b b' HR Hi Hq). by eapply not_queued.
    + done.
Qed.

Lemma rel_run s tr s' a :
  run spins s tr s' -> rel s a -> spec_ok (havedisk1 s) a ->
  exists a', spec_run (havedisk1 s) a tr a' /\ rel s' a' /\ spec_ok (havedisk1 s) a' /\ havedisk1 s' = havedisk1 s.
Proof.
  intros Hr HR Hok. induction Hr as [s | s tr s1 l s2 Hr IH Hs]; [exists a; split_and!; [constructor | done..] |].
  destruct (IH HR Hok) as (a1 & Ha1 & HR1 & Hok1 & Hd1).
  rewrite <- Hd1 in Hok1. destruct (rel_step _ _ _ _ Hs HR1 Hok1) as (a2 & Ha2 & HR2 & Hd2).
  rewrite Hd1 in Ha2, Hok1, Hd2. exists a2. split_and!; [by econstructor | done | by eapply spec_step_ok | done].
Qed.
End simulation.

Section service.
Context {D : Type} `{AtaOk D}.
Variable spins : nat.
Implicit Types (s : ide D) (a : spec).
Abbreviation vw s := (ata_abs (i_ata s)).

Lemma look_disk1_poll n s r d : ata_status (i_ata s) = (r, d) ->
  look_disk1 (S n) s =
    if r =? 0 then look_disk1 n (with_ata d s) else Ret tt (mk_ide (i_bufs s) (idequeue s) true d (i_ph s)).
Proof.
  intros Es. cbn [look_disk1]. erewrite bind_ret by (unfold inb_status; rewrite Es; reflexivity).
  by destruct (r =? 0).
Qed.

(** The search for drive 1 finds it exactly when it is there. *)
Lemma look_disk1_ok n s :
  job_busy (av_job (vw s)) = false -> av_drive (vw s) = 1 -> havedisk1 s = false ->
  exists d, look_disk1 (S n) s = Ret tt (mk_ide (i_bufs s) (idequeue s) (av_disk1 (vw s)) d (i_ph s)) /\
    ata_abs d = vw s.
Proof.
  revert s. induction n as [| n IH]; intros s Hb Hd Hh; (destruct (av_disk1 (vw s)) eqn:E1;
    [destruct (ata_ready _ Hb (or_intror (conj Hd E1))) as (Hr & Ha & _)
    | destruct (ata_absent _ Hb Hd E1) as (Hr & Ha)]);
    destruct (ata_status (i_ata s)) as [r d] eqn:Es; cbn [fst snd] in *; rewrite (look_disk1_poll _ _ _ _ Es).
  1,3: exists d; split; [| done]; destruct (Z.eqb_spec r 0) as [-> |]; done.
  - exists d. rewrite Hr. split; [| done]. destruct s; cbn in *; by subst.
  - destruct (IH (with_ata d s)) as (d2 & Hl & Ha2); cbn [i_ata with_ata havedisk1]; rewrite ?Ha; try done.
    exists d2. rewrite Hr. cbn [Z.eqb]. rewrite Hl. cbn in *. by rewrite Ha2, Ha, E1.
Qed.

Lemma ideinit_ok s : powered_on s ->
  exists s', ideinit spins s = Ret tt s' /\ havedisk1 s' = av_disk1 (vw s) /\
    rel s' (mk_spec [] None (av_disk (vw s)) (unlink <$> i_bufs s) (i_ph s)) /\
    spec_ok (havedisk1 s') (mk_spec [] None (av_disk (vw s)) (unlink <$> i_bufs s) (i_ph s)).
Proof.
  intros (Hq & Hh & Hlen & Hph & Hj & Hdrv).
  destruct (idewait_ready spins s false) as (r & d & Hw & Ha & _); [by rewrite Hj | by left |].
  unfold ideinit. rewrite (bind_ret _ _ _ _ _ Hw). unfold outb at 1. mstep.
  change (u8 (Z.lor 224 (Z.shiftl 1 4))) with (0xe0 + 16 * 1).
  pose proof (ata_select d 1) as Hsel. rewrite Ha, Hj in Hsel. specialize (Hsel I ltac:(lia)).
  set (s1 := with_ata (ata_outb 0x1f6 (0xe0 + 16 * 1) d) (with_ata d s)).
  destruct (look_disk1_ok 999 s1) as (d2 & Hlook & Hd2); [cbn; rewrite Hsel; cbn; by rewrite Hj | cbn; by rewrite Hsel | done |].
  erewrite bind_ret by exact Hlook. unfold outb, modify.
  change (u8 (Z.lor 224 (Z.shiftl 0 4))) with (0xe0 + 16 * 0).
  cbn in Hd2. rewrite Hsel in Hd2.
  assert (Hfree : job_free (av_job (ata_abs d2))) by (rewrite Hd2; cbn; by rewrite Hj).
  pose proof (ata_select d2 0 Hfree ltac:(lia)) as Hsel2. rewrite Hd2 in Hsel2.
  eexists. split; [reflexivity |]. cbn. rewrite Hsel. cbn. split; [done |]. split.
  - split; cbn; rewrite ?Hsel2; cbn; try done; [by left | by rewrite Hj].
  - split; cbn; [apply NoDup_nil_2 | | | by intros i []%not_elem_of_nil | |].
    + intros i b Hi. rewrite list_lookup_fmap in Hi. rewrite Forall_lookup in Hlen.
      destruct (i_bufs s !! i) eqn:E; [| done]. injection Hi as <-. exact (Hlen i _ E).
    + intros n l. apply ata_sector.
    + intros p i Hp. rewrite Forall_lookup in Hph. by specialize (Hph _ _ Hp).
    + intros p i Hp. rewrite Forall_lookup in Hph. by specialize (Hph _ _ Hp).
Qed.

(** *** The wait of a request *)
Fixpoint intrs (tr : list label) : nat :=
  match tr with [] => 0 | L_intr :: tr => S (intrs tr) | _ :: tr => intrs tr end.

Lemma spec_step_position disk1 a l a' p i k :
  spec_step disk1 a l a' -> sp_ph a !! p = Some (P_asleep i) -> sp_queue a !! k = Some i ->
  NoDup (sp_queue a) ->
  (l = L_intr /\ k = 0%nat /\ sp_ph a' !! p = Some (P_awake i)) \/
  (sp_ph a' !! p = Some (P_asleep i) /\
   sp_queue a' !! (match l with L_intr => pred k | _ => k end) = Some i /\ (l = L_intr -> k <> 0%nat)).
Proof.
  intros Hs Hp Hq Hn. destruct Hs as [q a disk bs ph p' j b Hp' | | q disk bs ph j b ok Hb | | q a disk bs ph p' j b Hp' |]; cbn in *.
  - right. split_and!; [| by apply lookup_app_l_Some | done].
    rewrite list_lookup_insert_ne; [done |]. intros ->. congruence.
  - by right.
  - rewrite list_lookup_fmap, Hp. cbn. destruct k as [| k]; cbn in Hq.
    + simplify_eq. left. by rewrite decide_True.
    + right. rewrite decide_False; [done |]. intros ->. apply NoDup_cons in Hn as [Hj _].
      apply Hj. by eapply list_elem_of_lookup_2.
  - by destruct k.
  - right. split_and!; [| done | done]. rewrite list_lookup_insert_ne; [done |]. intros ->. congruence.
  - by right.
Qed.

Lemma spec_step_awake disk1 a l a' p i :
  spec_step disk1 a l a' -> sp_ph a !! p = Some (P_awake i) -> l <> L_return p i ->
  sp_ph a' !! p = Some (P_awake i).
Proof.
  intros Hs Hp Hl. destruct Hs as [q a disk bs ph p' j b Hp' | | | | q a disk bs ph p' j b Hp' |]; cbn in *; try done.
  - rewrite list_lookup_insert_ne; [done |]. intros ->. congruence.
  - by rewrite list_lookup_fmap, Hp.
  - rewrite list_lookup_insert_ne; [done |]. intros ->. congruence.
Qed.

Lemma intrs_snoc tr l : intrs (tr ++ [l]) = (intrs tr + match l with L_intr => 1 | _ => 0 end)%nat.
Proof. induction tr as [| l' tr IH]; [by destruct l |]. destruct l'; cbn; rewrite IH; lia. Qed.

Lemma spec_run_served disk1 a tr a' p i k :
  spec_run disk1 a tr a' -> spec_ok disk1 a ->
  sp_ph a !! p = Some (P_asleep i) -> sp_queue a !! k = Some i -> L_return p i ∉ tr ->
  spec_ok disk1 a' /\
  (if decide (intrs tr <= k)%nat
   then sp_ph a' !! p = Some (P_asleep i) /\ sp_queue a' !! (k - intrs tr)%nat = Some i
   else sp_ph a' !! p = Some (P_awake i)).
Proof.
  intros Hr Hok Hp Hq. induction Hr as [a | a tr a1 l a2 Hr IH Hs]; intros Hn.
  - split; [done |]. rewrite decide_True by (unfold intrs; simpl; lia). by rewrite Nat.sub_0_r.
  - rewrite elem_of_app, list_elem_of_singleton in Hn.
    destruct IH as [Hok1 IH]; [done | done | done | tauto |].
    split; [by eapply spec_step_ok |]. rewrite intrs_snoc.
    destruct (decide (intrs tr <= k)%nat) as [Hle | Hgt].
    + destruct IH as [Hp1 Hq1].
      destruct (spec_step_position _ _ _ _ _ _ _ Hs Hp1 Hq1 (ok_nodup _ _ Hok1)) as [(-> & Hk & Hp2) | (Hp2 & Hq2 & Hk)].
      * by rewrite decide_False by lia.
      * destruct l; try (rewrite decide_True by lia; rewrite Nat.add_0_r; done).
        specialize (Hk eq_refl). rewrite decide_True by lia. split; [done |].
        by replace (k - (intrs tr + 1))%nat with (pred (k - intrs tr)) by lia.
    + rewrite decide_False by lia. eapply spec_step_awake; [done | done |]. intros ->. tauto.
Qed.

Lemma handled s a c ok : rel s a -> spec_ok (havedisk1 s) a ->
  av_job (vw s) = Finished c ok -> exists s', ideintr spins s = Ret tt s'.
Proof.
  intros HR Hok Hj. destruct a as [[| i q] ans disk bs ph].
  - exists s. apply ideintr_empty. apply (r_seg _ _ HR).
  - destruct (r_job _ _ HR) as (b & Hb & Hjb). cbn in Hb, Hjb. destruct ans as [ok' |]; [| by rewrite Hj in Hjb].
    destruct (ideintr_ok spins s i q ok' disk bs ph b HR Hb Hok) as (s' & Hs' & _). by exists s'.
Qed.

(** While a request waits, the disk works for the first one or has answered it. *)
Lemma not_stuck s a i k : rel s a -> spec_ok (havedisk1 s) a -> sp_queue a !! k = Some i ->
  exists l s', step spins s l s' /\ (l = L_intr \/ exists ok, l = L_disk ok).
Proof.
  intros HR Hok Hk. destruct (sp_queue a) as [| j q] eqn:Eq; [done |].
  pose proof (r_job _ _ HR) as Hj. rewrite Eq in Hj. destruct Hj as (b & Hb & Hj).
  destruct (sp_answer a) as [ok |].
  - destruct (handled s a _ _ HR Hok Hj) as (s' & Hs'). exists L_intr, s'. split; [by econstructor | by left].
  - destruct (ata_ends _ _ Hj) as [d' Hd']. destruct (ata_end _ _ Hd') as (c & ok & disk' & _ & _ & Ha).
    exists (L_disk ok), (with_ata d' s). split; [| by right; exists ok].
    eapply step_disk; [done |]. by rewrite Ha.
Qed.

(** C12. The driver of ide.c, started by [ideinit] on a controller that follows
    the ATA protocol, is a queue of requests in front of the two drives.
    [ideinit] finds drive 1 exactly when it is there, and every run of the
    machine that follows (calls of [iderw] by any processes, interrupts, the
    controller finishing commands with or without errors, uses of the buffers by
    the rest of the kernel) is a run of the promise, with the same sectors,
    buffers and sleeping processes: requests are served in the order of the
    calls, each with its own drive, sector and data, and a process is woken only
    when its request is over.  In every state the handler returns when the
    controller interrupts, without spinning in [idewait], and a call for a
    locked buffer with something to do sleeps and never panics. *)
Theorem ide_refines s0 : powered_on s0 ->
  exists s1, ideinit spins s0 = Ret tt s1 /\ havedisk1 s1 = av_disk1 (vw s0) /\
  forall tr s, run spins s1 tr s ->
    (exists a, spec_run (havedisk1 s1) (mk_spec [] None (av_disk (vw s0)) (unlink <$> i_bufs s0) (i_ph s0)) tr a /\
       sp_bufs a = unlink <$> i_bufs s /\ sp_ph a = i_ph s /\ sp_disk a = av_disk (vw s)) /\
    (forall c ok, av_job (vw s) = Finished c ok -> exists s', ideintr spins s = Ret tt s') /\
    (forall p i b, i_ph s !! p = Some P_out -> i_bufs s !! i = Some b -> i_lock b = Some p ->
       synced b = false -> (i_dev b = 0 \/ havedisk1 s1 = true) -> 0 <= i_blockno b < FSSIZE ->
       exists s', iderw spins p i s = Block "ide" s').
Proof.
  intros Hon. destruct (ideinit_ok s0 Hon) as (s1 & Hi & Hd & HR & Hok). exists s1. split_and!; [done | done |].
  intros tr s Hr. destruct (rel_run _ _ _ _ _ Hr HR Hok) as (a & Ha & HRa & Hoka & Hda).
  rewrite <- Hda in Hoka. split_and!.
  - exists a. split; [done |]. destruct HRa. done.
  - intros c ok Hj. by eapply handled.
  - intros p i b Hp Hb Hl Hs Hdev Hn. rewrite <- Hda in Hdev.
    destruct (iderw_ok spins s a p i b HRa Hoka Hp Hb Hn Hl Hs Hdev) as (s' & Hs' & _). by exists s'.
Qed.

(** A request is served.  In every reachable state a process that sleeps in
    [iderw] has a position [k] in the queue, the disk or the handler can make a
    step, and in every run from there with more than [k] interrupts the process
    has been woken up with its buffer valid and clean, so that [iderw] returns to
    it: no wakeup is lost and no later request overtakes it. *)
Theorem ide_request_served s0 s1 tr s p i :
  powered_on s0 -> ideinit spins s0 = Ret tt s1 -> run spins s1 tr s -> i_ph s !! p = Some (P_asleep i) ->
  (exists l s', step spins s l s' /\ (l = L_intr \/ exists ok, l = L_disk ok)) /\
  exists k, (k < length (i_bufs s))%nat /\
    forall tr' s', run spins s tr' s' -> L_return p i ∉ tr' -> (k < intrs tr')%nat ->
      i_ph s' !! p = Some (P_awake i) /\
      exists b, i_bufs s' !! i = Some b /\ synced b = true /\
        iderw_wait p i s' = Ret tt (with_ph (<[p := P_out]> (i_ph s')) s').
Proof.
  intros Hon Hi Hr Hp. destruct (ideinit_ok s0 Hon) as (s1' & Hi' & _ & HR & Hok).
  rewrite Hi in Hi'. injection Hi' as <-.
  destruct (rel_run _ _ _ _ _ Hr HR Hok) as (a & _ & HRa & Hoka & Hda). rewrite <- Hda in Hoka.
  rewrite <- (r_ph _ _ HRa) in Hp. destruct (ok_asleep _ _ Hoka _ _ Hp) as [[k Hk]%list_elem_of_lookup_1 _].
  split; [by eapply not_stuck |]. exists k. split.
  { pose proof (queue_short s _ _ (r_seg _ _ HRa) (ok_nodup _ _ Hoka)). apply lookup_lt_Some in Hk. lia. }
  intros tr' s' Hr' Hn Hlt. destruct (rel_run _ _ _ _ _ Hr' HRa Hoka) as (a' & Ha' & HRa' & Hoka' & _).
  destruct (spec_run_served _ _ _ _ p i k Ha' Hoka Hp Hk Hn) as [_ Haw]. rewrite decide_False in Haw by lia.
  destruct (ok_awake _ _ Hoka' _ _ Haw) as (_ & b & Hb & _ & Hs).
  destruct (linked _ _ _ _ HRa' Hb) as (b' & Hb' & ->).
  split; [by rewrite <- (r_ph _ _ HRa') |]. exists b'. split_and!; [done | done |].
  rewrite (iderw_wait_ok _ p i b' Hb'). change (synced b') with (synced (unlink b')). by rewrite Hs.
Qed.
End service.

(** ** A controller

    The registers, the drives and one command at a time. *)
Record pio := mk_pio {
  pio_l0 : Z; pio_l1 : Z; pio_l2 : Z; pio_sel : Z;
  pio_job : ata_job;
  pio_disk : Z -> Z -> list Z;
  pio_disk1 : bool
}.
Definition pio_drive (d : pio) : Z := pio_sel d / 16 mod 2.
Definition pio_lba (d : pio) : Z := pio_l0 d + 2 ^ 8 * pio_l1 d + 2 ^ 16 * pio_l2 d + 2 ^ 24 * (pio_sel d mod 16).
Definition pio_set_job (j : ata_job) (d : pio) : pio :=
  mk_pio (pio_l0 d) (pio_l1 d) (pio_l2 d) (pio_sel d) j (pio_disk d) (pio_disk1 d).
Definition pio_sector (d : pio) (n l : Z) : list Z := resize 512 0 (pio_disk d n l).

Definition pio_outb (port v : Z) (d : pio) : pio :=
  if port =? 0x1f3 then mk_pio v (pio_l1 d) (pio_l2 d) (pio_sel d) (pio_job d) (pio_disk d) (pio_disk1 d)
  else if port =? 0x1f4 then mk_pio (pio_l0 d) v (pio_l2 d) (pio_sel d) (pio_job d) (pio_disk d) (pio_disk1 d)
  else if port =? 0x1f5 then mk_pio (pio_l0 d) (pio_l1 d) v (pio_sel d) (pio_job d) (pio_disk d) (pio_disk1 d)
  else if port =? 0x1f6 then mk_pio (pio_l0 d) (pio_l1 d) (pio_l2 d) v (pio_job d) (pio_disk d) (pio_disk1 d)
  else if (port =? 0x1f7) && (v =? 0x20) then pio_set_job (Busy (CRead (pio_drive d) (pio_lba d))) d
  else d.

Definition pio_end (ok : bool) (d : pio) : pio :=
  match pio_job d with
  | Busy (CWrite n l x as c) =>
      mk_pio (pio_l0 d) (pio_l1 d) (pio_l2 d) (pio_sel d) (Finished c ok)
        (fun n' l' => if ok && (n' =? n) && (l' =? l) then x else pio_disk d n' l') (pio_disk1 d)
  | Busy c => pio_set_job (Finished c ok) d
  | _ => d
  end.

#[export] Instance pio_ata : Ata pio := {
  ata_status d :=
    (if (pio_drive d =? 1) && negb (pio_disk1 d) then 0
     else match pio_job d with Busy _ => 0x80 | Finished _ false => 0x41 | _ => 0x40 end, d);
  ata_outb := pio_outb;
  ata_outsl x d := pio_set_job (Busy (CWrite (pio_drive d) (pio_lba d) x)) d;
  ata_insl _ d :=
    match pio_job d with
    | Finished (CRead n l) true => (pio_sector d n l, pio_set_job Idle d)
    | _ => ([], d)
    end;
  ata_finish d d' := exists c ok, pio_job d = Busy c /\ d' = pio_end ok d
}.

Definition pio_cmd (c : ata_cmd) : ata_cmd :=
  match c with CWrite n l x => CWrite n l (resize 512 0 x) | _ => c end.
Definition pio_view (d : pio) : ata_view :=
  mk_view (match pio_job d with Idle => Idle | Busy c => Busy (pio_cmd c) | Finished c ok => Finished (pio_cmd c) ok end)
    (pio_sector d) (pio_disk1 d) (pio_drive d).

Lemma pio_drive_select drv h : 0 <= drv < 2 -> 0 <= h < 16 -> (0xe0 + 16 * drv + h) / 16 mod 2 = drv.
Proof. intros. Z.to_euclidean_division_equations. lia. Qed.

Lemma pio_select_lba drv h : 0 <= h < 16 -> (0xe0 + 16 * drv + h) mod 16 = h.
Proof. intros. Z.to_euclidean_division_equations. lia. Qed.

Lemma pio_bytes lba : 0 <= lba < 2 ^ 28 ->
  0 <= lba / 2 ^ 24 < 16 /\
  lba mod 256 + 2 ^ 8 * (lba / 2 ^ 8 mod 256) + 2 ^ 16 * (lba / 2 ^ 16 mod 256) + 2 ^ 24 * (lba / 2 ^ 24) = lba.
Proof. intros. Z.to_euclidean_division_equations. lia. Qed.

Definition pio_loaded (drv lba : Z) (d : pio) : pio :=
  mk_pio (lba mod 256) (lba / 2 ^ 8 mod 256) (lba / 2 ^ 16 mod 256) (0xe0 + 16 * drv + lba / 2 ^ 24)
    (pio_job d) (pio_disk d) (pio_disk1 d).

Lemma pio_loaded_ok drv lba d : 0 <= drv < 2 -> 0 <= lba < 2 ^ 28 ->
  pio_drive (pio_loaded drv lba d) = drv /\ pio_lba (pio_loaded drv lba d) = lba.
Proof.
  intros Hd Hl. destruct (pio_bytes lba Hl) as [Hh Hs]. unfold pio_drive, pio_lba, pio_loaded.
  cbn [pio_l0 pio_l1 pio_l2 pio_sel]. by rewrite pio_drive_select, pio_select_lba.
Qed.

Lemma pio_effect d c ok : pio_job d = Busy c ->
  exists disk', ata_effect (pio_cmd c) ok (pio_sector d) disk' /\
    pio_view (pio_end ok d) = mk_view (Finished (pio_cmd c) ok) disk' (pio_disk1 d) (pio_drive d).
Proof.
  intros Hj. exists (pio_sector (pio_end ok d)). unfold pio_end, pio_view. rewrite Hj.
  destruct c as [n l | n l x]; (split; [| done]).
  - intros n' l'. done.
  - unfold pio_sector. cbn [pio_disk pio_cmd ata_effect]. split_and!.
    + intros ->. by rewrite !Z.eqb_refl.
    + by rewrite !length_resize.
    + intros n' l' Hne. destruct (Z.eqb_spec n' n), (Z.eqb_spec l' l); rewrite ?andb_false_r, ?andb_true_r; try done; [].
      naive_solver.
Qed.

#[export] Instance pio_ok : AtaOk pio.
Proof.
  refine {| ata_abs := pio_view |}.
  - intros d n l. apply length_resize.
  - intros d Hb Hd. destruct d as [l0 l1 l2 sel job disk disk1]. unfold drive_there in Hd. cbn in *.
    assert ((pio_drive (mk_pio l0 l1 l2 sel job disk disk1) =? 1) && negb disk1 = false) as ->
      by (destruct Hd as [-> | [_ ->]]; [done | by rewrite andb_false_r]).
    split; [by destruct job as [| | c []] |]. split; [done |]. intros c ok Hj.
    destruct job as [| | c' []]; simplify_eq; done.
  - intros d Hb Hd H1. cbn in *. rewrite Hd, H1. done.
  - intros d drv Hf Hd. pose proof (pio_drive_select drv 0 Hd ltac:(lia)) as E. rewrite Z.add_0_r in E.
    unfold pio_view, view_drive. cbn [ata_outb pio_ata]. unfold pio_outb. cbn [Z.eqb Pos.eqb]. cbn [av_job av_disk av_disk1].
    f_equal. exact E.
  - intros d drv lba Hf Hd Hl. destruct (pio_loaded_ok drv lba d Hd Hl) as [E1 E2].
    change (ata_outs (ata_task drv lba 32) d) with
      (pio_set_job (Busy (CRead (pio_drive (pio_loaded drv lba d)) (pio_lba (pio_loaded drv lba d)))) (pio_loaded drv lba d)).
    rewrite E1, E2. unfold pio_view, view_job, view_drive. cbn [pio_job pio_set_job av_job av_disk av_disk1 av_drive pio_cmd].
    f_equal. exact E1.
  - intros d drv lba data Hf Hd Hl Hlen. destruct (pio_loaded_ok drv lba d Hd Hl) as [E1 E2].
    change (ata_outsl data (ata_outs (ata_task drv lba 48) d)) with
      (pio_set_job (Busy (CWrite (pio_drive (pio_loaded drv lba d)) (pio_lba (pio_loaded drv lba d)) data)) (pio_loaded drv lba d)).
    rewrite E1, E2. unfold pio_view, view_job, view_drive. cbn [pio_job pio_set_job av_job av_disk av_disk1 av_drive pio_cmd].
    rewrite <- Hlen, resize_all. f_equal. exact E1.
  - intros d drv lba Hj. cbn in *. destruct (pio_job d) as [| | [n l | n l x] ok] eqn:E; cbn in *; simplify_eq. done.
  - intros d d' (c & ok & Hj & ->). destruct (pio_effect d c ok Hj) as (disk' & He & Hv).
    exists (pio_cmd c), ok, disk'. split_and!; [cbn; by rewrite Hj | exact He | exact Hv].
  - intros d c Hj. cbn in Hj. destruct (pio_job d) as [| c' |] eqn:E; [done | | done].
    exists (pio_end true d), c', true. done.
Defined.

(** ** Runs *)
Definition exec (l : label) (s : ide pio) : option (ide pio) :=
  match l with
  | L_call p i =>
      match i_ph s !! p, i_bufs s !! i with
      | Some P_out, Some b =>
          if (0 <=? i_blockno b) && (i_blockno b <? FSSIZE)
          then match iderw 0 p i s with Block _ s' => Some s' | _ => None end else None
      | _, _ => None
      end
  | L_disk ok =>
      match pio_job (i_ata s) with Busy _ => Some (with_ata (pio_end ok (i_ata s)) s) | _ => None end
  | L_intr =>
      match pio_job (i_ata s), ideintr 0 s with Finished _ _, Ret tt s' => Some s' | _, _ => None end
  | L_return p i =>
      match i_ph s !! p with
      | Some (P_awake j) => if decide (j = i) then match iderw_wait p i s with Ret tt s' => Some s' | _ => None end else None
      | _ => None
      end
  | _ => None
  end.

Lemma exec_step l s s' : exec l s = Some s' -> step 0 s l s'.
Proof.
  destruct l as [p i | ok | | p i | |]; cbn [exec]; try done.
  - destruct (i_ph s !! p) as [[] |] eqn:Ep; try done. destruct (i_bufs s !! i) as [b |] eqn:Eb; [| done].
    destruct (Z.leb_spec 0 (i_blockno b)), (Z.ltb_spec (i_blockno b) FSSIZE); cbn [andb]; try done.
    destruct (iderw 0 p i s) eqn:Ei; try done. intros [= <-]. by econstructor.
  - destruct (pio_job (i_ata s)) as [| c |] eqn:Ej; try done. intros [= <-].
    eapply (step_disk 0 s (pio_end ok (i_ata s)) (pio_cmd c)); [by exists c, ok |].
    destruct (pio_effect (i_ata s) c ok Ej) as (disk' & _ & Hv). cbn [ata_abs pio_ok]. by rewrite Hv.
  - destruct (pio_job (i_ata s)) as [| | c ok] eqn:Ej; try done. destruct (ideintr 0 s) as [[] | | |] eqn:Ei; try done.
    intros [= <-]. eapply (step_intr 0 s _ (pio_cmd c) ok); [| done]. cbn. by rewrite Ej.
  - destruct (i_ph s !! p) as [[] |] eqn:Ep; try done. destruct (decide _) as [-> |]; [| done].
    destruct (iderw_wait p i s) as [[] | | |] eqn:Ei; try done. intros [= <-]. by econstructor.
Qed.

Lemma exec_run tr s s1 s2 tr1 : run 0 s tr1 s1 ->
  foldl (fun o l => o ≫= exec l) (Some s1) tr = Some s2 -> run 0 s (tr1 ++ tr) s2.
Proof.
  revert s1 tr1. induction tr as [| l tr IH]; intros s1 tr1 Hr; cbn [foldl].
  - intros [= <-]. by rewrite app_nil_r.
  - cbn. destruct (exec l s1) as [s3 |] eqn:E.
    + intros Hf. replace (tr1 ++ l :: tr) with ((tr1 ++ [l]) ++ tr) by (by rewrite <- (assoc_L (++))).
      eapply IH; [| exact Hf]. econstructor; [exact Hr | by apply exec_step].
    + assert (foldl (fun o l => o ≫= exec l) None tr = None) as -> by (clear; by induction tr). done.
Qed.

(** Two drives, a block to write to drive 0 and a block to read from drive 1. *)
Definition demo_ata : pio :=
  mk_pio 0 0 0 0xe0 Idle (fun n l => replicate 512 (100 * n + l)) true.
Definition demo : ide pio :=
  mk_ide [mk_ibuf true true 0 3 (Some 0%nat) None (replicate 512 7);
          mk_ibuf false false 1 5 (Some 1%nat) None (replicate 512 0)]
    None false demo_ata [P_out; P_out].

Lemma demo_on : powered_on demo.
Proof. unfold powered_on. cbn. repeat split; repeat constructor. Qed.

Definition demo_started : ide pio :=
  match ideinit 0 demo with Ret _ s => s | _ => demo end.
Definition demo_run (tr : list label) : option (ide pio) :=
  foldl (fun o l => o ≫= exec l) (Some demo_started) tr.

Lemma ide_refines_witness :
  powered_on demo /\
  (exists s1, ideinit 0 demo = Ret tt s1 /\ havedisk1 s1 = true) /\
  (b ← demo_run [L_call 0 0; L_call 1 1; L_disk true; L_intr; L_return 0 0; L_disk true; L_intr; L_return 1 1];
   i_bufs b !! 1%nat) = Some (mk_ibuf true false 1 5 (Some 1%nat) None (replicate 512 105)).
Proof.
  split; [apply demo_on |]. split; [| vm_compute; reflexivity].
  destruct (ide_refines 0 demo demo_on) as (s1 & Hi & Hd & _). by exists s1.
Defined.

(** A run found by execution, with what is observed at its end. *)
Lemma demo_reaches {A : Type} (f : ide pio -> A) tr x :
  f <$> demo_run tr = Some x -> exists s, run 0 demo_started tr s /\ f s = x.
Proof.
  destruct (demo_run tr) as [s |] eqn:E; [| done]. intros [= <-]. exists s. split; [| done].
  apply (exec_run tr demo_started demo_started s []); [constructor | exact E].
Qed.

Lemma demo_started_ok : ideinit 0 demo = Ret tt demo_started.
Proof. vm_compute. reflexivity. Qed.

Lemma ide_request_served_witness :
  exists s, run 0 demo_started [L_call 0 0; L_call 1 1] s /\ i_ph s !! 1%nat = Some (P_asleep 1) /\
    exists l s', step 0 s l s' /\ (l = L_intr \/ exists ok, l = L_disk ok).
Proof.
  destruct (demo_reaches (fun s => i_ph s !! 1%nat) [L_call 0 0; L_call 1 1] (Some (P_asleep 1))) as (s & Hr & Hp);
    [vm_compute; reflexivity |].
  exists s. split; [exact Hr |]. split; [exact Hp |].
  exact (proj1 (ide_request_served 0 demo demo_started _ s 1 1 demo_on demo_started_ok Hr Hp)).
Defined.

(** An error of a read is not reported: the interrupt handler skips the transfer
    and still marks the buffer valid, so [iderw] returns to its caller with the
    old bytes of the buffer. *)
Theorem read_error_is_silent :
  exists s, run 0 demo_started [L_call 1 1; L_disk false; L_intr; L_return 1 1] s /\
    (i_ph s !! 1%nat, i_bufs s !! 1%nat, av_disk (ata_abs (i_ata s)) 1 5) =
    (Some P_out, Some (mk_ibuf true false 1 5 (Some 1%nat) None (replicate 512 0)), replicate 512 105).
Proof. apply demo_reaches. vm_compute. reflexivity. Qed.
