(* ===== verification/Mkfs.v ===== *)
(** * Mkfs: project3/xv6-modified/mkfs.c, the builder of the first disk

    The image is the list of its blocks.  What [read] returns of the files of
    the host is a list of pieces, as the loop of [main] gets them.  The numbers
    in the image are little endian; [xint] and [xshort] give the number whose
    bytes are stored, as on a machine of either byte order.  The program runs
    to its end or exits with an error, which is [Stop].

    The proofs reuse those on fs.c: while the image is built, block [freeblock]
    is the next free one, as if the free map already had the bits that [balloc]
    writes at the end. *)

From Stdlib Require Import ZArith Lia.
From stdpp Require Import base numbers strings option list.
From S2P Require Import Prelude KString Bio Fs FsSpec FsFile FsDir.

Definition NINODES : Z := 200.
Definition FSSIZE : Z := 1000.
Definition LOGSIZE : Z := 30.
Definition nbitmap : Z := FSSIZE / (512 * 8) + 1.
Definition ninodeblocks : Z := NINODES / IPB + 1.
Definition nlog : Z := LOGSIZE.
Definition nmeta : Z := 2 + nlog + ninodeblocks + nbitmap.
Definition nblocks : Z := FSSIZE - nmeta.

Record mkst := mk_st {
  img : list blk;
  m_sb : superblock;
  freeinode : Z;
  freeblock : Z
}.
Definition with_img (l : list blk) (s : mkst) : mkst := mk_st l (m_sb s) (freeinode s) (freeblock s).

Definition xshort (x : Z) : Z := le_val [x mod 256; x / 2 ^ 8 mod 256].
Definition xint (x : Z) : Z := le_val [x mod 256; x / 2 ^ 8 mod 256; x / 2 ^ 16 mod 256; x / 2 ^ 24 mod 256].

Definition zeroes : blk := replicate BSIZE 0.

(** [lseek] and [write]: a gap before the block is filled with zeros. *)
Definition wsect (sec : Z) (buf : blk) : M mkst unit :=
  modify (fun s =>
    let n := Z.to_nat sec in
    with_img (if decide (n < length (img s))%nat then <[n := buf]> (img s)
              else img s ++ replicate (n - length (img s)) zeroes ++ [buf]) s).
Definition rsect (sec : Z) : M mkst blk :=
  l ← gets img; from_option "read" (l !! Z.to_nat sec).

Definition winode (inum : Z) (ip : dinode) : M mkst unit :=
  b ← gets m_sb;
  let bn := IBLOCK inum b in
  buf ← rsect bn;
  wsect bn (splice (din_off inum) (enc_dinode ip) buf).
Definition rinode (inum : Z) : M mkst dinode :=
  b ← gets m_sb;
  buf ← rsect (IBLOCK inum b);
  mret (dec_dinode (din_off inum) buf).

Definition ialloc (type : Z) : M mkst Z :=
  inum ← gets freeinode;
  modify (fun s => mk_st (img s) (m_sb s) (u32 (freeinode s + 1)) (freeblock s));;
  winode inum (mk_din (xshort type) 0 0 (xshort 1) (xint 0) (replicate (NDIRECT + 1) 0));;
  mret inum.

(** The loop of [balloc] sets the bits one by one. *)
Definition bitmap_upto (used : nat) : blk := foldl set_bit zeroes (seq 0 used).
Definition balloc (used : Z) : M mkst unit :=
  if negb (used <? 512 * 8) then stop "assert" else
  b ← gets m_sb;
  wsect (sb_bmapstart b) (bitmap_upto (Z.to_nat used)).

(** [freeblock++] *)
Definition next_block : M mkst Z :=
  b ← gets freeblock;
  modify (fun s => mk_st (img s) (m_sb s) (freeinode s) (u32 (freeblock s + 1)));;
  mret b.

Definition din_addr (d : dinode) (k : nat) : Z := nth k (di_addrs d) 0.
(** [if(xint(din.addrs[k]) == 0) din.addrs[k] = xint(freeblock++);] *)
Definition addr_entry (d : dinode) (k : nat) : M mkst dinode :=
  if xint (din_addr d k) =? 0 then
    b ← next_block;
    mret (set_addrs (<[k := xint b]> (di_addrs d)) d)
  else mret d.

(** The block of the disk for block [fbn] of the file. *)
Definition file_block (d : dinode) (fbn : Z) : M mkst (dinode * Z) :=
  if fbn <? Z.of_nat NDIRECT then
    d ← addr_entry d (Z.to_nat fbn);
    mret (d, xint (din_addr d (Z.to_nat fbn)))
  else
    d ← addr_entry d NDIRECT;
    let k := (4 * (Z.to_nat fbn - NDIRECT))%nat in
    indirect ← rsect (xint (din_addr d NDIRECT));
    indirect ←
      (if uint_at k indirect =? 0 then
         b ← next_block;
         let x := splice k (le_bytes 4 (xint b)) indirect in
         wsect (xint (din_addr d NDIRECT)) x;;
         mret x
       else mret indirect);
    mret (d, xint (uint_at k indirect)).

Fixpoint iappend_loop (fuel : nat) (d : dinode) (off : Z) (p : list Z) : M mkst (dinode * Z) :=
  match fuel with
  | O => out_of_fuel
  | S fuel =>
      match p with
      | [] => mret (d, off)
      | _ =>
          let fbn := off / 512 in
          if negb (fbn <? MAXFILE) then stop "assert" else
          r ← file_block d fbn;
          let n1 := Z.min (Z.of_nat (length p)) ((fbn + 1) * 512 - off) in
          buf ← rsect r.2;
          wsect r.2 (splice (Z.to_nat (off - fbn * 512)) (take (Z.to_nat n1) p) buf);;
          iappend_loop fuel r.1 (u32 (off + n1)) (drop (Z.to_nat n1) p)
      end
  end.
Definition iappend (inum : Z) (xp : list Z) : M mkst unit :=
  d ← rinode inum;
  r ← iappend_loop (S (length xp)) d (xint (di_size d)) xp;
  winode inum (set_size (xint r.2) r.1).

(** [bzero(&de, sizeof(de)); de.inum = ...; strncpy(de.name, name, DIRSIZ);] *)
Definition dirent (inum : Z) (name : list Z) : list Z :=
  le_bytes 2 (xshort inum) ++ take DIRSIZ (name ++ replicate DIRSIZ 0).

Fixpoint zero_image (n : nat) (i : Z) : M mkst unit :=
  match n with
  | O => skip
  | S n => wsect i zeroes;; zero_image n (i + 1)
  end.

Definition enc_sb (b : superblock) : list Z :=
  le_bytes 4 (sb_size b) ++ le_bytes 4 (sb_nblocks b) ++ le_bytes 4 (sb_ninodes b) ++ le_bytes 4 (sb_nlog b) ++
  le_bytes 4 (sb_logstart b) ++ le_bytes 4 (sb_inodestart b) ++ le_bytes 4 (sb_bmapstart b).

Fixpoint append_pieces (inum : Z) (l : list (list Z)) : M mkst unit :=
  match l with
  | [] => skip
  | buf :: l => iappend inum buf;; append_pieces inum l
  end.

(** The name in the file system of a file of the host. *)
Definition fs_name (arg : list Z) : list Z := match arg with c :: n => if c =? 95 then n else arg | [] => arg end.

(** One round of the loop over the arguments: a name and the pieces [read]
    returns, or nothing when the file cannot be opened. *)
Definition add_file (rootino : Z) (arg : list Z) (pieces : option (list (list Z))) : M mkst unit :=
  if bool_decide (slash ∈ arg) then stop "assert" else
  match pieces with
  | None => stop "open"
  | Some l =>
      inum ← ialloc T_FILE;
      iappend rootino (dirent inum (fs_name arg));;
      append_pieces inum l
  end.
Fixpoint add_files (rootino : Z) (files : list (list Z * option (list (list Z)))) : M mkst unit :=
  match files with
  | [] => skip
  | (arg, l) :: files => add_file rootino arg l;; add_files rootino files
  end.

Definition fix_root (rootino : Z) : M mkst unit :=
  d ← rinode rootino;
  let off := xint (di_size d) in
  let off := u32 ((off / 512 + 1) * 512) in
  winode rootino (set_size (xint off) d).

Definition main (files : list (list Z * option (list (list Z)))) : M mkst unit :=
  modify (fun s => mk_st (img s)
    (mk_sb (xint FSSIZE) (xint nblocks) (xint NINODES) (xint nlog) (xint 2) (xint (2 + nlog)) (xint (2 + nlog + ninodeblocks)))
    (freeinode s) nmeta);;
  zero_image (Z.to_nat FSSIZE) 0;;
  b ← gets m_sb;
  wsect 1 (splice 0 (enc_sb b) zeroes);;
  rootino ← ialloc T_DIR;
  assertb "assert" (rootino =? ROOTINO);;
  iappend rootino (dirent rootino [46]);;
  iappend rootino (dirent rootino [46; 46]);;
  add_files rootino files;;
  fix_root rootino;;
  used ← gets freeblock;
  balloc used.

(** The variables at the start of the program, with the image truncated. *)
Definition start : mkst := mk_st [] (mk_sb 0 0 0 0 0 0 0) 1 0.
