(* ===== verification/MkfsSpec.v ===== *)
(** * MkfsSpec: the image that mkfs.c builds is a file system of fs.c

    The theorems are about any block device of the kernel ([BlockDevOk]) that
    shows the image: the files are there with their bytes, and the root
    directory has their names. *)

From Stdlib Require Import ZArith Lia.
From stdpp Require Import base numbers strings option list.
From S2P Require Import Prelude KString Bio Log Fs FsSpec LogDev FsFile FsDir FsTx Mkfs.

Definition mkfs_sb : superblock := mk_sb 1000 941 200 30 2 32 58.


Lemma xint_small x : is_u32 x -> xint x = x.
Proof.
  unfold is_u32, xint. intros Hx. cbn [le_val]. rewrite !Zmod_mod.
  Z.to_euclidean_division_equations. lia.
Qed.

Lemma xshort_small x : 0 <= x < 2 ^ 16 -> xshort x = x.
Proof.
  unfold xshort. intros Hx. cbn [le_val]. rewrite !Zmod_mod. Z.to_euclidean_division_equations. lia.
Qed.

(** ** The free map *)
Lemma length_set_bit x i : length (set_bit x i) = length x.
Proof. unfold set_bit. by rewrite length_insert. Qed.

Lemma nth_zeros i n : nth i (replicate n 0) 0 = 0.
Proof. revert i. induction n; intros [| i]; cbn; auto. Qed.

Lemma bitmap_S n : bitmap_upto (S n) = set_bit (bitmap_upto n) n.
Proof. unfold bitmap_upto. rewrite seq_S, foldl_app. done. Qed.

Lemma length_bitmap n : length (bitmap_upto n) = BSIZE.
Proof. induction n as [| n IH]; [apply length_replicate |]. by rewrite bitmap_S, length_set_bit. Qed.

Lemma bitmap_bit n j : (n <= 4096)%nat -> bit_at (bitmap_upto n) j = bool_decide (j < n)%nat.
Proof.
  induction n as [| n IH]; intros Hn.
  - unfold bit_at, bitmap_upto. cbn [seq foldl]. unfold zeroes.
    rewrite nth_zeros. apply Z.bits_0.
  - rewrite bitmap_S, bit_set.
    + rewrite IH by lia. destruct (decide (j = n)) as [-> | Hne].
      * rewrite (bool_decide_true (n = n)) by done. symmetry. apply bool_decide_eq_true. lia.
      * rewrite (bool_decide_false (j = n)) by done. apply bool_decide_ext. lia.
    + rewrite length_bitmap. unfold BSIZE. apply Nat.Div0.div_lt_upper_bound. lia.
Qed.

(** ** The image as the view of a disk whose free map is up to date *)
Definition shown (s : mkst) (m : Z) : option blk :=
  if decide (m = 58) then Some (bitmap_upto (Z.to_nat (freeblock s))) else img s !! Z.to_nat m.

Record st_ok (s : mkst) (v : Z -> option blk) : Prop := {
  ok_sb : m_sb s = mkfs_sb;
  ok_len : length (img s) = 1000%nat;
  ok_blk : forall i x, img s !! i = Some x -> length x = BSIZE;
  ok_free : 59 <= freeblock s <= 1000;
  ok_zero : forall m, freeblock s <= m < 1000 -> img s !! Z.to_nat m = Some zeroes;
  ok_view : forall m, 0 <= m < 1000 -> v m = shown s m
}.

Lemma st_used s v m : st_ok s v -> 0 <= m < 1000 -> used mkfs_sb v m = bool_decide (m < freeblock s).
Proof.
  intros Hs Hm. unfold used, BBLOCK. cbn [sb_bmapstart mkfs_sb]. unfold BPB. rewrite Z.div_small by lia. cbn [Z.add].
  rewrite (ok_view _ _ Hs) by lia. unfold shown. rewrite decide_True by done. pose proof (ok_free _ _ Hs).
  rewrite Z.mod_small by lia. rewrite bitmap_bit by lia. apply bool_decide_ext. lia.
Qed.

Lemma st_meta s v : st_ok s v -> meta_used mkfs_sb v.
Proof.
  intros Hs m Hm. change (datastart mkfs_sb) with 59 in Hm. pose proof (ok_free _ _ Hs).
  rewrite (st_used s v) by (done || lia). apply bool_decide_eq_true. lia.
Qed.

Lemma st_block s v m : st_ok s v -> 0 <= m < 1000 -> exists x, v m = Some x /\ length x = BSIZE.
Proof.
  intros Hs Hm. rewrite (ok_view _ _ Hs) by done. unfold shown. case_decide.
  - eexists. split; [done |]. apply length_bitmap.
  - destruct (lookup_lt_is_Some_2 (img s) (Z.to_nat m)) as [x Hx]; [rewrite (ok_len _ _ Hs); lia |].
    exists x. split; [done |]. by eapply ok_blk.
Qed.

Lemma rsect_ok s v m : st_ok s v -> 0 <= m < 1000 -> m <> 58 -> exists x, rsect m s = Ret x s /\ v m = Some x /\ length x = BSIZE.
Proof.
  intros Hs Hm Hne. destruct (st_block s v m Hs Hm) as (x & Hx & Hl). exists x. split; [| done].
  rewrite (ok_view _ _ Hs) in Hx by done. unfold shown in Hx. rewrite decide_False in Hx by done.
  unfold rsect. mstep. by rewrite Hx.
Qed.

Lemma wsect_ok s v m x : st_ok s v -> 0 <= m < freeblock s -> m <> 58 -> length x = BSIZE ->
  exists s', wsect m x s = Ret tt s' /\ st_ok s' (upd_view v m x) /\
    freeblock s' = freeblock s /\ freeinode s' = freeinode s.
Proof.
  intros [H1 H2 H3 H4 H5 H6] Hm Hne Hx. unfold wsect, modify. rewrite decide_True by lia.
  eexists. split; [reflexivity |]. split; [| done]. split; cbn; try done.
  - by rewrite length_insert.
  - intros i y Hi. apply list_lookup_insert_Some in Hi as [(_ & <- & _) | (_ & Hi)]; eauto.
  - intros c Hc. rewrite list_lookup_insert_ne by lia. by apply H5.
  - intros c Hc. unfold upd_view, shown. cbn. destruct (decide (c = m)) as [-> | Hcm].
    + rewrite decide_False by done. symmetry. apply list_lookup_insert_eq. lia.
    + rewrite list_lookup_insert_ne by lia. by apply H6.
Qed.

Lemma list_lookup_insert_cases {A : Type} (l : list A) i x j y :
  <[i := x]> l !! j = Some y -> (j = i /\ y = x) \/ (j <> i /\ l !! j = Some y).
Proof. rewrite list_lookup_insert_Some. naive_solver. Qed.

Section device.
Context {S : Type} {B : BlockDev S} {D : BlockDevOk S} {V : Devices S}.
Hypothesis Hly : layout mkfs_sb.
Hypothesis Hnblk : nblk = 1000.

Lemma st_blocks s v : st_ok s v -> blocks_ok v.
Proof. intros Hs c Hc. rewrite Hnblk in Hc. by eapply st_block. Qed.

Lemma next_block_ok s v : st_ok s v -> freeblock s < 1000 ->
  exists s' v', next_block s = Ret (freeblock s) s' /\ allocated mkfs_sb v v' (freeblock s) /\ st_ok s' v' /\
    freeblock s' = freeblock s + 1 /\ freeinode s' = freeinode s.
Proof.
  intros Hs Hlt. pose proof (ok_free _ _ Hs) as Hf. set (m := freeblock s) in *.
  assert (Hbb : BBLOCK m mkfs_sb = 58) by (unfold BBLOCK, BPB; cbn; rewrite Z.div_small; lia).
  assert (Hv58 : v 58 = Some (bitmap_upto (Z.to_nat m))) by (rewrite (ok_view _ _ Hs) by lia; done).
  eexists _, _. split; [unfold next_block; mrun; reflexivity |]. split.
  - apply allocated_intro with (x := bitmap_upto (Z.to_nat m)); try done.
    + by eapply st_meta.
    + cbn. lia.
    + rewrite (st_used s v) by (done || lia). apply bool_decide_eq_false. lia.
    + by rewrite Hbb.
    + apply length_bitmap.
  - fold m. rewrite u32_small by lia. split; [| done]. destruct Hs as [H1 H2 H3 H4 H5 H6].
    rewrite Hbb. unfold BPB. rewrite Z.mod_small by lia.
    split; cbn; try done; [lia | intros c Hc; apply H5; fold m; lia |].
    intros c Hc. unfold upd_view, shown. cbn. destruct (decide (c = m)) as [-> | Hcm].
    + rewrite decide_False by lia. symmetry. apply H5. fold m. lia.
    + destruct (decide (c = 58)) as [-> |]; [| rewrite H6 by done; unfold shown; by rewrite decide_False].
      replace (Z.to_nat (m + 1)) with (Datatypes.S (Z.to_nat m)) by lia. by rewrite bitmap_S.
Qed.

(** ** The blocks of a file *)

(** The file has exactly the blocks that [n] bytes from its start need. *)
Record dense (v : Z -> option blk) (p : inode) (n : Z) : Prop := {
  dn_blocks : forall bn, (bn < NMAX)%nat -> (faddr v p bn <> 0 <-> Z.of_nat bn * 512 < n);
  dn_ind : addr_of p NDIRECT <> 0 <-> 6144 < n
}.
Definition need (n : Z) : Z := (n + 511) / 512 + if 6144 <? n then 1 else 0.

Lemma din_addr_small v p k : wf_file mkfs_sb v p -> xint (din_addr (i_din p) k) = addr_of p k.
Proof.
  intros Hwf. apply xint_small. pose proof (addrs_u32 _ _ _ Hly Hwf) as Ha.
  change (is_u32 (nth k (di_addrs (i_din p)) 0)). destruct (decide (k < length (di_addrs (i_din p)))%nat) as [Hk | Hk].
  - rewrite Forall_lookup in Ha. apply lookup_lt_is_Some_2 in Hk as [x Hx]. rewrite (nth_lookup_Some _ _ _ _ Hx). eauto.
  - rewrite nth_overflow by lia. unfold is_u32. lia.
Qed.

Lemma addr_entry_ok s v p k : st_ok s v -> wf_file mkfs_sb v p -> (k <= NDIRECT)%nat ->
  (addr_of p k = 0 -> freeblock s < 1000) ->
  exists s' v', (if decide (addr_of p k = 0)
     then addr_entry (i_din p) k s = Ret (i_din (with_addr k (freeblock s) p)) s' /\
          allocated mkfs_sb v v' (freeblock s) /\ freeblock s' = freeblock s + 1
     else addr_entry (i_din p) k s = Ret (i_din p) s' /\ v' = v /\ freeblock s' = freeblock s) /\
    st_ok s' v' /\ freeinode s' = freeinode s.
Proof.
  intros Hs Hwf Hk Hlt. unfold addr_entry. rewrite (din_addr_small v) by done.
  destruct (decide (addr_of p k = 0)) as [E | E].
  - rewrite E. cbn [Z.eqb]. destruct (next_block_ok s v Hs (Hlt E)) as (s' & v' & E1 & Hal & Hs' & Hf & Hi).
    exists s', v'. split_and!; try done. erewrite bind_ret by exact E1.
    pose proof (ok_free _ _ Hs). rewrite xint_small by (unfold is_u32; lia). done.
  - destruct (Z.eqb_spec (addr_of p k) 0); [done |]. exists s, v. done.
Qed.

Lemma file_data v p bn : wf_file mkfs_sb v p -> (bn < NMAX)%nat -> faddr v p bn <> 0 -> 59 <= faddr v p bn < 1000.
Proof. intros Hwf Hbn Hn. destruct (wf_data _ _ _ Hwf bn Hbn Hn) as [Hd _]. exact Hd. Qed.

(** The second half of [file_block] for a block behind the indirect block. *)
Definition ind_entry (d : dinode) (bn : nat) : M mkst (dinode * Z) :=
  let k := (4 * (bn - NDIRECT))%nat in
  indirect ← rsect (xint (din_addr d NDIRECT));
  indirect ←
    (if uint_at k indirect =? 0 then
       b ← next_block;
       let x := splice k (le_bytes 4 (xint b)) indirect in
       wsect (xint (din_addr d NDIRECT)) x;;
       mret x
     else mret indirect);
  mret (d, xint (uint_at k indirect)).

Lemma ind_entry_ok s v p bn : st_ok s v -> wf_file mkfs_sb v p -> (NDIRECT <= bn < NMAX)%nat ->
  addr_of p NDIRECT <> 0 -> (faddr v p bn = 0 -> freeblock s < 1000) ->
  exists a s' v', ind_entry (i_din p) bn s = Ret (i_din p, a) s' /\ mapped mkfs_sb v v' p p bn a /\ st_ok s' v' /\
    freeblock s' = freeblock s + (if decide (faddr v p bn = 0) then 1 else 0) /\ freeinode s' = freeinode s.
Proof.
  intros Hs Hwf Hbn Hi0 Hlt. destruct (wf_ind _ _ _ Hwf Hi0) as [Hid Hiu].
  change (59 <= addr_of p NDIRECT < 1000) in Hid. pose proof (st_meta _ _ Hs) as Hm.
  destruct (rsect_ok s v (addr_of p NDIRECT) Hs) as (x & E1 & Hx & Hlx); [lia | lia |].
  assert (Hfa : faddr v p bn = uint_at (4 * (bn - NDIRECT)) x).
  { unfold faddr. destruct (Nat.ltb_spec bn NDIRECT); [lia |]. destruct (Z.eqb_spec (addr_of p NDIRECT) 0); [done |]. by rewrite Hx. }
  unfold ind_entry. rewrite (din_addr_small v) by done. erewrite bind_ret by exact E1. rewrite Hfa in *.
  set (k := (4 * (bn - NDIRECT))%nat) in *.
  destruct (decide (uint_at k x = 0)) as [E0 | E0].
  - rewrite E0. cbn [Z.eqb]. destruct (next_block_ok s v Hs (Hlt E0)) as (s1 & v1 & E2 & Hal & Hs1 & Hf1 & Hn1).
    pose proof (ok_free _ _ Hs) as Hf. assert (Hu : is_u32 (freeblock s)) by (unfold is_u32; lia).
    assert (Hl : length (splice k (le_bytes 4 (freeblock s)) x) = BSIZE).
    { rewrite length_splice; [done |]. rewrite length_le_bytes. unfold k, BSIZE, NDIRECT, NMAX in *. lia. }
    rewrite st_used with (s := s) in Hiu by (done || lia). apply bool_decide_eq_true in Hiu.
    destruct (wsect_ok s1 v1 (addr_of p NDIRECT) (splice k (le_bytes 4 (freeblock s)) x) Hs1) as (s2 & E3 & Hs2 & Hf2 & Hn2);
      [lia | lia | done |].
    exists (freeblock s), s2, (upd_view v1 (addr_of p NDIRECT) (splice k (le_bytes 4 (freeblock s)) x)).
    split_and!; [| by apply mapped_indirect_entry | done | lia | congruence].
    erewrite bind_ret. 2:{ erewrite bind_ret by exact E2. cbv zeta. rewrite xint_small by done. erewrite bind_ret by exact E3. reflexivity. }
    unfold mret, M_ret. do 2 f_equal. unfold k. rewrite uint_at_splice by (unfold NINDIRECT, NDIRECT, NMAX in *; (done || lia)).
    rewrite decide_True by done. by apply xint_small.
  - destruct (Z.eqb_spec (uint_at k x) 0); [done |]. mstep. exists (uint_at k x), s, v. split_and!; [| | done | lia | done].
    + unfold mret, M_ret. do 2 f_equal. apply xint_small. unfold uint_at, uint32_val. unfold is_u32.
      pose proof (le_val_range (slice k 4 x)) as Hr. rewrite length_slice in Hr; [exact Hr |].
      rewrite Hlx. unfold k, BSIZE, NDIRECT, NMAX in *. lia.
    + rewrite <- Hfa. apply mapped_same; try done; [lia | by rewrite Hfa].
Qed.

(** The blocks that [file_block] takes for block [bn]. *)
Definition cost (v : Z -> option blk) (p : inode) (bn : nat) : Z :=
  (if decide (faddr v p bn = 0) then 1 else 0) +
  (if decide (NDIRECT <= bn)%nat then if decide (addr_of p NDIRECT = 0) then 1 else 0 else 0).

Lemma file_block_ok s v p bn : st_ok s v -> wf_file mkfs_sb v p -> (bn < NMAX)%nat -> freeblock s + cost v p bn <= 1000 ->
  exists a s' v' p', file_block (i_din p) (Z.of_nat bn) s = Ret (i_din p', a) s' /\ mapped mkfs_sb v v' p p' bn a /\
    st_ok s' v' /\ freeblock s' = freeblock s + cost v p bn /\ freeinode s' = freeinode s /\
    ((bn < NDIRECT)%nat -> addr_of p' NDIRECT = addr_of p NDIRECT).
Proof.
  intros Hs Hwf Hbn Hc. pose proof (st_meta _ _ Hs) as Hm. unfold file_block, cost in *. rewrite Nat2Z.id.
  destruct (Z.ltb_spec (Z.of_nat bn) (Z.of_nat NDIRECT)) as [Hd | Hd].
  - rewrite (decide_False (P := (NDIRECT <= bn)%nat)) in * by lia. rewrite Z.add_0_r in *.
    assert (Hfa : faddr v p bn = addr_of p bn) by (unfold faddr; by destruct (Nat.ltb_spec bn NDIRECT); [| lia]).
    rewrite Hfa in *.
    destruct (addr_entry_ok s v p bn Hs Hwf) as (s' & v' & He & Hs' & Hn'); [lia | intros E; rewrite decide_True in Hc by done; lia |].
    destruct (decide (addr_of p bn = 0)) as [E | E].
    + destruct He as (E1 & Hal & Hf). pose proof (mapped_direct mkfs_sb v v' p bn (freeblock s) Hly Hm Hwf ltac:(lia) E Hal) as Hmp.
      exists (freeblock s), s', v', (with_addr bn (freeblock s) p). erewrite bind_ret by exact E1.
      split_and!; try done.
      * rewrite (din_addr_small v') by apply Hmp. rewrite addr_of_with by (apply Hwf || lia). by rewrite decide_True.
      * intros _. rewrite addr_of_with by (apply Hwf || lia). by rewrite decide_False by lia.
    + destruct He as (E1 & -> & Hf). exists (addr_of p bn), s', v, p. erewrite bind_ret by exact E1.
      split_and!; try done; [by rewrite (din_addr_small v) | rewrite <- Hfa; apply mapped_same; try done; by rewrite Hfa | lia].
  - rewrite (decide_True (P := (NDIRECT <= bn)%nat)) in * by lia.
    change (exists a s' v' p', (d ← addr_entry (i_din p) NDIRECT; ind_entry d bn) s = Ret (i_din p', a) s' /\
      mapped mkfs_sb v v' p p' bn a /\ st_ok s' v' /\
      freeblock s' = freeblock s + ((if decide (faddr v p bn = 0) then 1 else 0) + (if decide (addr_of p NDIRECT = 0) then 1 else 0)) /\
      freeinode s' = freeinode s /\ ((bn < NDIRECT)%nat -> addr_of p' NDIRECT = addr_of p NDIRECT)).
    destruct (addr_entry_ok s v p NDIRECT Hs Hwf) as (s1 & v1 & He & Hs1 & Hn1);
      [lia | intros E; rewrite (decide_True (P := addr_of p NDIRECT = 0)) in Hc by done; destruct (decide (faddr v p bn = 0)); lia |].
    destruct (decide (addr_of p NDIRECT = 0)) as [E | E].
    + destruct He as (E1 & Hal & Hf). erewrite bind_ret by exact E1. set (p1 := with_addr NDIRECT (freeblock s) p) in *.
      destruct (mapped_indirect_block _ _ _ _ _ Hly Hm Hwf E Hal) as (Hwf1 & Hf1 & Hi1 & Hnz & Hm1 & Hlow1).
      fold p1 in Hwf1, Hf1, Hi1.
      assert (H0 : faddr v p bn = 0) by (unfold faddr; destruct (Nat.ltb_spec bn NDIRECT); [lia |]; by rewrite E).
      rewrite (decide_True (P := faddr v p bn = 0)) in * by done.
      destruct (ind_entry_ok s1 v1 p1 bn Hs1 Hwf1) as (a & s2 & v2 & E2 & Hmp & Hs2 & Hf2 & Hn2);
        [lia | by rewrite Hi1 | lia |].
      exists a, s2, v2, p1. rewrite (decide_True (P := faddr v1 p1 bn = 0)) in Hf2 by (by rewrite Hf1). split_and!; try done; try (congruence || lia || (intros; exfalso; lia)).
      eapply (mapped_after mkfs_sb v v1 v2 p p1 p1); try done.
      * lia.
      * intros c Hcd Hu. by eapply allocated_used.
      * intros c Hcd Hu. by eapply allocated_frame.
      * intros c Hcd Hu. destruct (is_data_pos _ c Hly Hcd). rewrite (al_used _ _ _ _ Hal) in Hu by lia.
        by apply orb_false_iff in Hu as [_ ?].
      * by eexists.
      * rewrite Hi1. apply Hal.
      * by rewrite Hi1.
    + destruct He as (E1 & -> & Hf). erewrite bind_ret by exact E1.
      destruct (ind_entry_ok s1 v p bn Hs1 Hwf) as (a & s2 & v2 & E2 & Hmp & Hs2 & Hf2 & Hn2); [lia | done | |].
      { intros H0. rewrite Hf. rewrite (decide_True (P := faddr v p bn = 0)) in Hc by done. lia. }
      exists a, s2, v2, p. split_and!; try done; [lia | congruence].
Qed.

Lemma cost_need v p off : dense v p off -> 0 <= off < 71680 -> forall n, 0 < n <= 512 - off mod 512 ->
  need (off + n) = need off + cost v p (Z.to_nat (off / 512)).
Proof.
  intros [Hb Hi] Ho n Hn. set (bn := Z.to_nat (off / 512)).
  assert (Hbn : Z.of_nat bn = off / 512) by (unfold bn; rewrite Z2Nat.id; [done | apply Z.div_pos; lia]).
  assert (Hlt : (bn < NMAX)%nat) by (unfold NMAX; Z.to_euclidean_division_equations; lia).
  specialize (Hb bn Hlt). unfold cost, need.
  destruct (decide (faddr v p bn = 0)) as [E | E], (decide (addr_of p NDIRECT = 0)) as [E' | E'],
    (decide (NDIRECT <= bn)%nat) as [Hd | Hd], (Z.ltb_spec 6144 (off + n)), (Z.ltb_spec 6144 off);
    unfold NDIRECT in *; Z.to_euclidean_division_equations; try lia.
Qed.

Lemma need_mono a c : 0 <= a <= c -> need a <= need c.
Proof.
  intros H. unfold need. pose proof (Z.div_le_mono (a + 511) (c + 511) 512).
  destruct (Z.ltb_spec 6144 a), (Z.ltb_spec 6144 c); lia.
Qed.

(** One round of the loop of [iappend]. *)
Lemma append_block_ok s v p off bs : st_ok s v -> wf_file mkfs_sb v p -> dense v p off -> 0 <= off ->
  (0 < length bs)%nat -> Z.of_nat (length bs) <= 512 - off mod 512 -> off + Z.of_nat (length bs) <= 71680 ->
  freeblock s + need (off + Z.of_nat (length bs)) - need off <= 1000 ->
  exists a x s1 s' v' p', file_block (i_din p) (off / 512) s = Ret (i_din p', a) s1 /\ rsect a s1 = Ret x s1 /\
    wsect a (splice (Z.to_nat (off - off / 512 * 512)) bs x) s1 = Ret tt s' /\
    written mkfs_sb v v' p p' off bs /\ dense v' p' (off + Z.of_nat (length bs)) /\ st_ok s' v' /\
    freeblock s' = freeblock s + need (off + Z.of_nat (length bs)) - need off /\ freeinode s' = freeinode s.
Proof.
  intros Hs Hwf Hdn Ho Hl0 Hl Hmax Hfree. set (bn := Z.to_nat (off / 512)). set (n := Z.of_nat (length bs)) in *.
  destruct (off_split off Ho) as (Hoff & Hmod & Hdiv).
  assert (Hbn : Z.of_nat bn = off / 512) by (unfold bn; lia).
  assert (Hlt : (bn < NMAX)%nat) by (unfold NMAX; lia).
  rewrite (cost_need v p off Hdn) in * by lia. fold bn in Hfree |- *.
  destruct (file_block_ok s v p bn Hs Hwf Hlt) as (a & s1 & v1 & p1 & E1 & Hmp & Hs1 & Hf1 & Hn1 & Hi1); [lia |].
  rewrite Hbn in E1. pose proof Hmp as [M1 M2 M3 M4 M5 M6 M7 M8 M9 M10 M11 M12 M13].
  destruct (wf_data _ _ _ M1 bn Hlt) as [Had Hau]; [by rewrite M2 |]. rewrite M2 in Had, Hau. change (59 <= a < 1000) in Had.
  rewrite (st_used s1 v1) in Hau by (done || lia). apply bool_decide_eq_true in Hau.
  destruct (rsect_ok s1 v1 a Hs1) as (x & E2 & Hx & Hlx); [lia | lia |].
  set (i := Z.to_nat (off - off / 512 * 512)).
  assert (Hi : (i + length bs <= BSIZE)%nat) by (unfold i, BSIZE; lia).
  destruct (wsect_ok s1 v1 a (splice i bs x) Hs1) as (s2 & E3 & Hs2 & Hf2 & Hn2);
    [lia | lia | rewrite length_splice by lia; done |].
  destruct (put_block_file mkfs_sb v1 p1 bn (splice i bs x) Hly (st_blocks _ _ Hs1) M1 Hlt) as (_ & Wf & _ & _);
    [by rewrite M2 | rewrite length_splice by lia; done |]. rewrite M2 in Wf.
  exists a, x, s1, s2, (upd_view v1 a (splice i bs x)), p1. split_and!; try done; try (lia || congruence).
  - replace off with (Z.of_nat (bn * BSIZE + i)) by (unfold i, BSIZE; lia).
    eapply written_one; try done. by eapply st_blocks.
  - destruct Hdn as [Hb Hind]. split.
    + intros j Hj. rewrite Wf by done. destruct (decide (j = bn)) as [-> | Hne].
      * rewrite M2. split; [lia | done].
      * rewrite M4 by done. rewrite Hb by done. lia.
    + destruct (decide (bn < NDIRECT)%nat) as [Hd | Hd].
      * rewrite Hi1 by done. rewrite Hind. unfold NDIRECT in *. lia.
      * split; [unfold NDIRECT in *; lia |]. intros _ E. rewrite <- M2 in M3. apply M3. unfold faddr.
        destruct (Nat.ltb_spec bn NDIRECT); [lia |]. by rewrite E.
Qed.

Lemma iappend_round fuel d off l : l <> [] -> iappend_loop (Datatypes.S fuel) d off l =
  let fbn := off / 512 in
  if negb (fbn <? MAXFILE) then stop "assert" else
  r ← file_block d fbn;
  let n1 := Z.min (Z.of_nat (length l)) ((fbn + 1) * 512 - off) in
  buf ← rsect r.2;
  wsect r.2 (splice (Z.to_nat (off - fbn * 512)) (take (Z.to_nat n1) l) buf);;
  iappend_loop fuel r.1 (u32 (off + n1)) (drop (Z.to_nat n1) l).
Proof. by destruct l. Qed.

Lemma iappend_loop_ok fuel s v p off bs : st_ok s v -> wf_file mkfs_sb v p -> dense v p off -> 0 <= off ->
  (length bs < fuel)%nat -> off + Z.of_nat (length bs) <= 71680 ->
  freeblock s + need (off + Z.of_nat (length bs)) - need off <= 1000 ->
  exists s' v' p', iappend_loop fuel (i_din p) off bs s = Ret (i_din p', off + Z.of_nat (length bs)) s' /\
    written mkfs_sb v v' p p' off bs /\ dense v' p' (off + Z.of_nat (length bs)) /\ st_ok s' v' /\
    freeblock s' = freeblock s + need (off + Z.of_nat (length bs)) - need off /\ freeinode s' = freeinode s.
Proof.
  revert s v p off bs. induction fuel as [| fuel IH]; intros s v p off bs Hs Hwf Hdn Ho Hf Hmax Hfree; [lia |].
  destruct bs as [| c bs']; [| remember (c :: bs') as bs eqn:Ebs].
  - cbn [length] in *. rewrite Z.add_0_r in *. exists s, v, p. split_and!; try done; [| lia].
    apply written_nil; [by eapply st_meta | done].
  - assert (Hlen : (0 < length bs)%nat) by (subst bs; simpl; lia). destruct (off_split off Ho) as (Hoff & Hmod & Hdiv).
    set (n1 := Z.min (Z.of_nat (length bs)) ((off / 512 + 1) * 512 - off)).
    assert (Hl1 : length (take (Z.to_nat n1) bs) = Z.to_nat n1) by (rewrite length_take; lia).
    assert (Hl2 : length (drop (Z.to_nat n1) bs) = (length bs - Z.to_nat n1)%nat) by apply length_drop.
    assert (Hz1 : Z.of_nat (Z.to_nat n1) = n1) by lia.
    pose proof (need_mono off (off + n1) ltac:(lia)). pose proof (need_mono (off + n1) (off + Z.of_nat (length bs)) ltac:(lia)).
    destruct (append_block_ok s v p off (take (Z.to_nat n1) bs) Hs Hwf Hdn Ho) as (a & x & s1 & s2 & v2 & p2 & E1 & E2 & E3 & W1 & D1 & Hs2 & Hf2 & Hn2);
      rewrite ?Hl1, ?Hz1 in *; try lia.
    destruct (IH s2 v2 p2 (off + n1) (drop (Z.to_nat n1) bs) Hs2 (wr_wf _ _ _ _ _ _ _ W1) D1)
      as (s3 & v3 & p3 & E4 & W2 & D2 & Hs3 & Hf3 & Hn3);
      replace (off + n1 + Z.of_nat (length (drop (Z.to_nat n1) bs))) with (off + Z.of_nat (length bs)) in * by lia; try lia.
    exists s3, v3, p3. split_and!; try done; [| | lia | congruence].
    + rewrite iappend_round by (by subst bs). cbv zeta. destruct (Z.ltb_spec (off / 512) MAXFILE); [| unfold MAXFILE in *; lia]. cbn [negb].
      erewrite bind_ret by exact E1. cbv zeta. fold n1. cbn [fst snd]. erewrite bind_ret by exact E2. erewrite bind_ret by exact E3.
      rewrite u32_small by lia. exact E4.
    + rewrite <- (take_drop (Z.to_nat n1) bs) at 1. eapply (written_trans mkfs_sb v v2 v3 p p2 p3); try done.
      * by eapply st_blocks.
      * intros E. rewrite E in Hl1. simpl in Hl1. lia.
      * rewrite Hl1, Hl2. unfold NMAX, BSIZE. lia.
      * rewrite Hl1, Hz1. exact W2.
Qed.

(** ** Files *)
Definition dino (v : Z -> option blk) (i : Z) : dinode :=
  match v (IBLOCK i mkfs_sb) with Some x => dec_dinode (din_off i) x | None => din_zero 0 end.
Definition inode_of (v : Z -> option blk) (i : Z) : inode := mk_ino ROOTDEV i 1 true true (dino v i).

(** Inode [i] is a file of that type with these bytes. *)
Record holds (v : Z -> option blk) (i ty : Z) (c : list Z) : Prop := {
  h_wf : wf_file mkfs_sb v (inode_of v i);
  h_dense : dense v (inode_of v i) (Z.of_nat (length c));
  h_bytes : fbytes v (inode_of v i) = c ++ replicate (NMAX * BSIZE - length c) 0;
  h_type : di_type (dino v i) = ty;
  h_nlink : di_nlink (dino v i) = 1;
  h_size : di_size (dino v i) = Z.of_nat (length c)
}.
Definition owns (v : Z -> option blk) (i a : Z) : Prop :=
  a <> 0 /\ (a = addr_of (inode_of v i) NDIRECT \/ exists bn, (bn < NMAX)%nat /\ a = faddr v (inode_of v i) bn).

Lemma wf_owns v i a : wf_file mkfs_sb v (inode_of v i) -> owns v i a -> is_data mkfs_sb a /\ used mkfs_sb v a = true.
Proof.
  intros Hwf [Hn [-> | (bn & Hbn & ->)]].
  - by apply (wf_ind _ _ _ Hwf).
  - by apply (wf_data _ _ _ Hwf).
Qed.

Lemma owns_used v i ty c a : holds v i ty c -> owns v i a -> is_data mkfs_sb a /\ used mkfs_sb v a = true.
Proof. intros [Hwf _ _ _ _ _]. by apply wf_owns. Qed.

(** A change of the disk that leaves a file alone. *)
Record leaves (v v' : Z -> option blk) (i : Z) : Prop := {
  lv_dino : dino v' i = dino v i;
  lv_owned : forall a, owns v i a -> v' a = v a;
  lv_used : forall a, owns v i a -> used mkfs_sb v' a = true
}.

Lemma leaves_faddr v v' i : leaves v v' i -> inode_of v' i = inode_of v i /\
  (forall bn, faddr v' (inode_of v i) bn = faddr v (inode_of v i) bn).
Proof.
  intros [Hd Ho _]. split; [unfold inode_of; by rewrite Hd |]. intros bn. unfold faddr.
  destruct (bn <? NDIRECT)%nat; [done |]. destruct (Z.eqb_spec (addr_of (inode_of v i) NDIRECT) 0); [done |].
  rewrite Ho; [done |]. split; [done | by left].
Qed.

Lemma leaves_owns v v' i a : leaves v v' i -> owns v' i a <-> owns v i a.
Proof.
  intros Hl. destruct (leaves_faddr _ _ _ Hl) as [Hi Hf]. unfold owns. rewrite Hi.
  split; intros (Hn & [Ha | (bn & Hbn & Ha)]); (split; [done |]); [by left | | by left |]; right; exists bn; by rewrite Hf in *.
Qed.

Lemma leaves_shape v v' i n : leaves v v' i -> wf_file mkfs_sb v (inode_of v i) -> dense v (inode_of v i) n ->
  wf_file mkfs_sb v' (inode_of v' i) /\ dense v' (inode_of v' i) n /\ fbytes v' (inode_of v' i) = fbytes v (inode_of v i).
Proof.
  intros Hl [W1 W2 W3 W4 W5 W6] [D1 D2]. destruct (leaves_faddr _ _ _ Hl) as [Hi Hf]. destruct Hl as [Hd Ho Hu].
  rewrite Hi. split_and!.
  - split; try done.
    + intros bn Hbn. rewrite Hf. intros Hn. split; [by apply W3 |]. apply Hu. split; [done | right; by exists bn].
    + intros Hn. split; [by apply W4 |]. apply Hu. split; [done | by left].
    + intros j k Hj Hk'. rewrite !Hf. by apply W5.
    + intros j Hj. rewrite Hf. by apply W6.
  - split; [| done]. intros bn Hbn. rewrite Hf. by apply D1.
  - unfold fbytes. f_equal. apply map_ext_in. intros bn [_ Hbn]%in_seq. unfold fblock. rewrite Hf.
    destruct (Z.eqb_spec (faddr v (inode_of v i) bn) 0); [done |]. rewrite Ho; [done |].
    split; [done | right; by exists bn].
Qed.

Lemma leaves_holds v v' i ty c : leaves v v' i -> holds v i ty c -> holds v' i ty c.
Proof.
  intros Hl [Hwf Hdn Hb Ht Hk Hs]. destruct (leaves_shape _ _ _ _ Hl Hwf Hdn) as (Hwf' & Hdn' & Hb').
  split; rewrite ?(lv_dino _ _ _ Hl); try done. by rewrite Hb'.
Qed.

Lemma splice_end (c bs : list Z) n : (length c + length bs <= n)%nat ->
  splice (length c) bs (c ++ replicate (n - length c) 0) = (c ++ bs) ++ replicate (n - length (c ++ bs)) 0.
Proof.
  intros H. unfold splice. rewrite take_app_length, drop_app_add, drop_replicate, length_app.
  rewrite (assoc_L (++)). do 2 f_equal. lia.
Qed.

(** The slots of two inodes do not overlap. *)
Lemma slot_other i j e x : 0 <= i -> 0 <= j -> din_off i <> din_off j -> length e = 64%nat -> length x = BSIZE ->
  dec_dinode (din_off j) (splice (din_off i) e x) = dec_dinode (din_off j) x.
Proof.
  intros Hi Hj Hne He Hx. pose proof (din_off_ok i Hi). pose proof (din_off_ok j Hj).
  assert (Hsl : forall o n, (o + n <= 64)%nat -> slice (din_off j + o) n (splice (din_off i) e x) = slice (din_off j + o) n x).
  { intros o n Ho. unfold din_off in *. set (a := Z.to_nat (i mod IPB)) in *. set (c := Z.to_nat (j mod IPB)) in *.
    destruct (decide (a < c)%nat).
    - apply slice_splice_after; rewrite He; lia.
    - apply slice_splice_before; rewrite ?He; lia. }
  unfold dec_dinode, short_at, uint_at. rewrite <- (Nat.add_0_r (din_off j)) at 1. rewrite Hsl, Nat.add_0_r by lia.
  rewrite !Hsl by lia. f_equal. apply map_ext_in. intros k [_ Hk]%in_seq. rewrite <- Nat.add_assoc, Hsl, Nat.add_assoc; [done |].
  unfold NDIRECT in Hk. lia.
Qed.

Lemma same_slot i j : 0 <= i -> 0 <= j -> IBLOCK i mkfs_sb = IBLOCK j mkfs_sb -> din_off i = din_off j -> i = j.
Proof. unfold IBLOCK, din_off, IPB. intros Hi Hj E1 E2. Z.to_euclidean_division_equations. lia. Qed.

Lemma iblock_small i : 0 <= i < 200 -> 32 <= IBLOCK i mkfs_sb < 58.
Proof. intros Hi. apply (iblock_range mkfs_sb i Hly). cbn. lia. Qed.

Lemma rinode_ok s v i : st_ok s v -> 0 <= i < 200 -> rinode i s = Ret (dino v i) s.
Proof.
  intros Hs Hi. pose proof (iblock_small i Hi). unfold rinode. mstep. rewrite (ok_sb _ _ Hs).
  destruct (rsect_ok s v (IBLOCK i mkfs_sb) Hs) as (x & E & Hx & _); [lia | lia |].
  erewrite bind_ret by exact E. unfold dino. by rewrite Hx.
Qed.

(** Writing an inode changes that inode only. *)
Lemma winode_ok s v i d : st_ok s v -> 0 <= i < 200 -> din_ok d ->
  exists s' y, winode i d s = Ret tt s' /\ st_ok s' (upd_view v (IBLOCK i mkfs_sb) y) /\
    dino (upd_view v (IBLOCK i mkfs_sb) y) i = d /\
    (forall j, 0 <= j -> j <> i -> dino (upd_view v (IBLOCK i mkfs_sb) y) j = dino v j) /\
    freeblock s' = freeblock s /\ freeinode s' = freeinode s.
Proof.
  intros Hs Hi Hd. pose proof (iblock_small i Hi) as Hb. pose proof (ok_free _ _ Hs) as Hf.
  pose proof (din_off_ok i ltac:(lia)) as Ho. pose proof (length_enc d (do_len _ Hd)) as Hle.
  destruct (rsect_ok s v (IBLOCK i mkfs_sb) Hs) as (x & E & Hx & Hlx); [lia | lia |].
  destruct (wsect_ok s v (IBLOCK i mkfs_sb) (splice (din_off i) (enc_dinode d) x) Hs) as (s' & E2 & Hs' & Hf' & Hn');
    [lia | lia | rewrite length_splice; [done | lia] |].
  exists s', (splice (din_off i) (enc_dinode d) x). split_and!; try done.
  - unfold winode. mstep. rewrite (ok_sb _ _ Hs). by erewrite bind_ret by exact E.
  - unfold dino, upd_view. rewrite decide_True by done. apply dec_enc; [done | lia].
  - intros j Hj Hne. unfold dino, upd_view. destruct (decide (IBLOCK j mkfs_sb = IBLOCK i mkfs_sb)) as [Ej | Ej]; [| done].
    rewrite Ej, Hx. apply slot_other; try done; [lia |]. intros Eo. apply Hne. symmetry. by apply same_slot; [lia | | |].
Qed.

(** ** The file system *)
Definition sizes (fl : list (Z * list Z)) : Z := foldr (fun f n => need (Z.of_nat (length f.2)) + n) 0 fl.

Record fs_holds (s : mkst) (v : Z -> option blk) (fl : list (Z * list Z)) : Prop := {
  g_st : st_ok s v;
  g_count : (length fl < 200)%nat;
  g_inode : freeinode s = 1 + Z.of_nat (length fl);
  g_block : freeblock s = 59 + sizes fl;
  g_super : v 1 = Some (splice 0 (enc_sb mkfs_sb) zeroes);
  g_files : forall k ty c, fl !! k = Some (ty, c) -> holds v (1 + Z.of_nat k) ty c;
  g_apart : forall k l a, (k < length fl)%nat -> (l < length fl)%nat -> k <> l ->
    owns v (1 + Z.of_nat k) a -> owns v (1 + Z.of_nat l) a -> False
}.

Lemma sizes_cons f fl : sizes (f :: fl) = need (Z.of_nat (length f.2)) + sizes fl.
Proof. done. Qed.

Lemma sizes_insert fl k ty c c' : fl !! k = Some (ty, c) ->
  sizes (<[k := (ty, c')]> fl) = sizes fl - need (Z.of_nat (length c)) + need (Z.of_nat (length c')).
Proof.
  revert k. induction fl as [| f fl IH]; intros [| k] Hk; [done | done | |].
  - injection Hk as ->. cbn. lia.
  - change (<[Datatypes.S k := (ty, c')]> (f :: fl)) with (f :: <[k := (ty, c')]> fl). rewrite !sizes_cons, (IH k Hk). lia.
Qed.

Lemma sizes_app a c : sizes (a ++ c) = sizes a + sizes c.
Proof. induction a as [| f a IH]; [done |]. cbn [app]. rewrite !sizes_cons, IH. lia. Qed.

(** The file after bytes were appended and its inode written back. *)
Lemma append_holds v v1 i ty c bs p1 y :
  let n := Z.of_nat (length (c ++ bs)) in
  let v2 := upd_view v1 (IBLOCK i mkfs_sb) y in
  0 <= i < 200 -> holds v i ty c -> written mkfs_sb v v1 (inode_of v i) p1 (Z.of_nat (length c)) bs -> dense v1 p1 n ->
  n <= 71680 -> dino v2 i = set_size n (i_din p1) -> holds v2 i ty (c ++ bs).
Proof.
  intros n v2 Hi Hh Hw Hd Hn Hdi. pose proof (iblock_small i Hi) as Hb.
  destruct (low_update mkfs_sb v1 (IBLOCK i mkfs_sb) y p1 Hly) as (Wl & Fb & Fa & _); [cbn; lia | apply Hw |].
  destruct (wr_ino _ _ _ _ _ _ _ Hw) as [l Hp1].
  assert (Hio : inode_of v2 i = set_din (set_size n (i_din p1)) p1) by (unfold inode_of; rewrite Hdi, Hp1; done).
  destruct Hh as [_ _ Hbytes Ht Hk _]. split; rewrite ?Hio, ?Hdi.
  - apply wf_resize. exact Wl.
  - destruct Hd as [D1 D2]. split; [| exact D2]. intros bn Hbn. change (faddr v2 (set_din _ _) bn) with (faddr v2 p1 bn).
    unfold v2. rewrite Fa by done. by apply D1.
  - change (fbytes v2 (set_din _ _)) with (fbytes v2 p1). unfold v2. rewrite Fb, (wr_bytes _ _ _ _ _ _ _ Hw), Nat2Z.id, Hbytes.
    apply splice_end. unfold n in Hn. rewrite length_app in Hn. unfold NMAX, BSIZE. lia.
  - by rewrite Hp1.
  - by rewrite Hp1.
  - done.
Qed.

(** The blocks it has now are old ones or were free. *)
Lemma append_owns v v1 i bs off p1 y a :
  0 <= i < 200 -> written mkfs_sb v v1 (inode_of v i) p1 off bs ->
  let v2 := upd_view v1 (IBLOCK i mkfs_sb) y in
  (exists n, dino v2 i = set_size n (i_din p1)) -> owns v2 i a -> owns v i a \/ used mkfs_sb v a = false.
Proof.
  intros Hi Hw v2 [n Hdi] [Hn Ha]. pose proof (iblock_small i Hi) as Hb.
  destruct (low_update mkfs_sb v1 (IBLOCK i mkfs_sb) y p1 Hly) as (_ & _ & Fa & _); [cbn; lia | apply Hw |].
  destruct (wr_ino _ _ _ _ _ _ _ Hw) as [l Hp1].
  assert (Hio : inode_of v2 i = set_din (set_size n (i_din p1)) p1) by (unfold inode_of; rewrite Hdi, Hp1; done).
  rewrite Hio in Ha. destruct Ha as [-> | (bn & Hbn & ->)].
  - change (addr_of (set_din _ _) NDIRECT) with (addr_of p1 NDIRECT) in *.
    destruct (wr_ind _ _ _ _ _ _ _ Hw) as [E | (_ & _ & Hu)]; [left | by right]. split; [done | by left; rewrite E].
  - change (faddr v2 (set_din _ _) bn) with (faddr v2 p1 bn) in *. unfold v2 in *. rewrite Fa in * by done.
    destruct (decide (faddr v (inode_of v i) bn = 0)) as [E | E].
    + right. by apply (wr_fresh _ _ _ _ _ _ _ Hw).
    + left. split; [done |]. right. exists bn. split; [done |]. symmetry. rewrite (wr_keep _ _ _ _ _ _ _ Hw) by done. done.
Qed.

(** The other files are left alone by an append to file [i]. *)
Lemma append_leaves v v1 i j ty c off bs p1 y :
  0 <= i < 200 -> 0 <= j < 200 -> holds v j ty c -> (forall a, owns v i a -> owns v j a -> False) ->
  written mkfs_sb v v1 (inode_of v i) p1 off bs -> dino (upd_view v1 (IBLOCK i mkfs_sb) y) j = dino v1 j ->
  leaves v (upd_view v1 (IBLOCK i mkfs_sb) y) j.
Proof.
  intros Hi Hj Hh Hap Hw Hdj. pose proof (iblock_small i Hi) as Hbi. pose proof (iblock_small j Hj) as Hbj.
  destruct (low_update mkfs_sb v1 (IBLOCK i mkfs_sb) y p1 Hly) as (_ & _ & _ & Hus); [cbn; lia | apply Hw |].
  assert (Hown : forall a, owns v j a -> is_data mkfs_sb a /\ used mkfs_sb v a = true) by (intros a; by eapply owns_used).
  split.
  - rewrite Hdj. unfold dino. rewrite (wr_low _ _ _ _ _ _ _ Hw); [done | cbn; lia].
  - intros a Ha. destruct (Hown a Ha) as [Hd Hu]. change (59 <= a < 1000) in Hd. unfold upd_view. rewrite decide_False by lia.
    apply (wr_frame _ _ _ _ _ _ _ Hw); try done.
    + intros E. apply (Hap a); [| done]. split; [lia | by left].
    + intros bn Hbn E. apply (Hap a); [| done]. split; [lia | right; by exists bn].
  - intros a Ha. destruct (Hown a Ha) as [Hd Hu]. destruct (is_data_pos _ a Hly Hd).
    rewrite Hus by lia. by apply (wr_used _ _ _ _ _ _ _ Hw).
Qed.

Lemma iappend_ok s v fl k ty c bs :
  fs_holds s v fl -> fl !! k = Some (ty, c) -> Z.of_nat (length (c ++ bs)) <= 71680 ->
  59 + sizes (<[k := (ty, c ++ bs)]> fl) <= 1000 ->
  exists s' v', iappend (1 + Z.of_nat k) bs s = Ret tt s' /\ fs_holds s' v' (<[k := (ty, c ++ bs)]> fl).
Proof.
  intros [Hs Hc Hino Hblk Hsup Hfiles Hapart] Hk Hmax Hcap. set (i := 1 + Z.of_nat k).
  pose proof (lookup_lt_Some _ _ _ Hk) as Hklt. assert (Hi : 0 <= i < 200) by (unfold i; lia).
  pose proof (Hfiles k ty c Hk) as Hh. fold i in Hh. pose proof Hh as [Hwf Hdn Hby Hty Hnl Hsz].
  rewrite (sizes_insert _ _ _ _ _ Hk) in Hcap.
  assert (Hlen : Z.of_nat (length c) + Z.of_nat (length bs) = Z.of_nat (length (c ++ bs))) by (rewrite length_app; lia).
  destruct (iappend_loop_ok (Datatypes.S (length bs)) s v (inode_of v i) (Z.of_nat (length c)) bs Hs Hwf Hdn)
    as (s1 & v1 & p1 & E1 & Hw & Hd1 & Hs1 & Hf1 & Hn1); rewrite ?Hlen; try lia. rewrite Hlen in *.
  set (n := Z.of_nat (length (c ++ bs))) in *.
  assert (Hdo : din_ok (set_size n (i_din p1))).
  { destruct (wr_ino _ _ _ _ _ _ _ Hw) as [l Hp1]. eapply (grown_ok mkfs_sb v v1 (inode_of v i) p1 n l); try done.
    - pose proof (iblock_small i Hi). destruct (st_block s v (IBLOCK i mkfs_sb) Hs) as (x & Hx & _); [lia |].
      exists x. split; [exact Hx |]. cbn. unfold dino. by rewrite Hx.
    - apply Hw.
    - unfold MAXFILE. lia. }
  destruct (winode_ok s1 v1 i (set_size n (i_din p1)) Hs1 Hi Hdo) as (s2 & y & E2 & Hs2 & Hdi & Hdj & Hf2 & Hn2).
  set (v2 := upd_view v1 (IBLOCK i mkfs_sb) y) in *. exists s2, v2. split.
  - unfold iappend. erewrite bind_ret by (by apply rinode_ok). rewrite Hsz, xint_small by (unfold is_u32; lia).
    change (dino v i) with (i_din (inode_of v i)). erewrite bind_ret by exact E1. cbn [fst snd].
    rewrite xint_small by (unfold is_u32; lia). exact E2.
  - assert (Hlv : forall l ty' c', l <> k -> fl !! l = Some (ty', c') -> leaves v v2 (1 + Z.of_nat l)).
    { intros l ty' c' Hne Hl. pose proof (lookup_lt_Some _ _ _ Hl).
      eapply (append_leaves v v1 i (1 + Z.of_nat l) ty' c'); [done | lia | by eauto | | exact Hw |].
      - intros a Ha1 Ha2. by apply (Hapart k l a).
      - apply Hdj; unfold i; lia. }
    assert (Hold : forall a, owns v2 i a -> owns v i a \/ used mkfs_sb v a = false).
    { intros a. eapply append_owns; [done | exact Hw |]. by exists n. }
    assert (Hside : forall l a, (l < length fl)%nat -> l <> k -> owns v2 i a -> owns v2 (1 + Z.of_nat l) a -> False).
    { intros l a Hl Hne Ha1 Ha2. apply lookup_lt_is_Some_2 in Hl as [[ty' c'] Hl].
      apply (leaves_owns _ _ _ _ (Hlv l ty' c' Hne Hl)) in Ha2. destruct (Hold a Ha1) as [Ho | Hu].
      - pose proof (lookup_lt_Some _ _ _ Hl). by apply (Hapart k l a).
      - destruct (owns_used _ _ _ _ _ (Hfiles l ty' c' Hl) Ha2). congruence. }
    split; rewrite ?length_insert; try done; [congruence | rewrite (sizes_insert _ _ _ _ _ Hk); fold n; lia | | |].
    + unfold v2, upd_view. pose proof (iblock_small i Hi). rewrite decide_False by lia.
      rewrite (wr_low _ _ _ _ _ _ _ Hw); [done | cbn; lia].
    + intros l ty' c' [[-> [= -> ->]] | [Hne Hl]]%list_lookup_insert_cases.
      * by eapply append_holds.
      * eapply leaves_holds; [by eapply Hlv | by apply Hfiles].
    + intros l l' a Hl Hl' Hne Ha Ha'. destruct (decide (l = k)) as [-> | Hlk]; [by apply (Hside l' a) |].
      destruct (decide (l' = k)) as [-> | Hlk']; [by apply (Hside l a) |].
      apply lookup_lt_is_Some_2 in Hl as Hl1. destruct Hl1 as [[ty1 c1] Hl1].
      apply lookup_lt_is_Some_2 in Hl' as Hl2. destruct Hl2 as [[ty2 c2] Hl2].
      apply (leaves_owns _ _ _ _ (Hlv l ty1 c1 Hlk Hl1)) in Ha. apply (leaves_owns _ _ _ _ (Hlv l' ty2 c2 Hlk' Hl2)) in Ha'.
      by apply (Hapart l l' a).
Qed.

(** *** A new inode *)
Lemma concat_zeros k n : concat (map (fun _ => replicate n 0) (seq 0 k)) = replicate (k * n) (0 : Z).
Proof.
  generalize 0%nat. induction k as [| k IH]; intros j; [done |]. cbn [seq map concat]. rewrite IH.
  by rewrite <- replicate_add.
Qed.

Lemma new_holds v i ty : dino v i = mk_din ty 0 0 1 0 (replicate (NDIRECT + 1) 0) ->
  holds v i ty [] /\ (forall a, ~ owns v i a).
Proof.
  intros Hd. assert (Ha : forall k, addr_of (inode_of v i) k = 0).
  { intros k. unfold addr_of, inode_of. rewrite Hd. apply nth_zeros. }
  assert (Hf : forall bn, faddr v (inode_of v i) bn = 0).
  { intros bn. unfold faddr. rewrite !Ha. by destruct (bn <? NDIRECT)%nat. }
  split.
  - split; rewrite ?Hd; try done.
    + split; try done; [by cbn; rewrite Hd | intros bn _; by rewrite Hf | by rewrite Ha | intros j k _ _; by rewrite Hf | intros j _; by rewrite Hf].
    + split; [| rewrite Ha; cbn; lia]. intros bn _. rewrite Hf. cbn. lia.
    + unfold fbytes. cbn [length app]. rewrite Nat.sub_0_r, <- concat_zeros. f_equal. apply map_ext. intros bn. unfold fblock. by rewrite Hf.
  - intros a [Hn [-> | (bn & _ & ->)]]; [by rewrite Ha in Hn | by rewrite Hf in Hn].
Qed.

(** Writing an inode that no file uses. *)
Lemma inode_leaves v i j ty c y : 0 <= i < 200 -> 0 <= j < 200 -> holds v j ty c ->
  dino (upd_view v (IBLOCK i mkfs_sb) y) j = dino v j -> leaves v (upd_view v (IBLOCK i mkfs_sb) y) j.
Proof.
  intros Hi Hj Hh Hd. pose proof (iblock_small i Hi) as Hbi.
  destruct (low_update mkfs_sb v (IBLOCK i mkfs_sb) y _ Hly ltac:(cbn; lia) (h_wf _ _ _ _ Hh)) as (_ & _ & _ & Hus).
  split; [done | |]; intros a Ha; destruct (owns_used _ _ _ _ _ Hh Ha) as [Hda Hu]; change (59 <= a < 1000) in Hda.
  - unfold upd_view. by rewrite decide_False by lia.
  - rewrite Hus by (cbn; lia). done.
Qed.

Lemma ialloc_ok s v fl ty : fs_holds s v fl -> (Datatypes.S (length fl) < 200)%nat -> 0 <= ty < 2 ^ 15 ->
  exists s' v', Mkfs.ialloc ty s = Ret (1 + Z.of_nat (length fl)) s' /\ fs_holds s' v' (fl ++ [(ty, [])]).
Proof.
  intros [Hs Hc Hino Hblk Hsup Hfiles Hapart] Hn Hty. set (i := 1 + Z.of_nat (length fl)) in *.
  assert (Hi : 0 <= i < 200) by (unfold i; lia).
  set (s1 := mk_st (img s) (m_sb s) (u32 (freeinode s + 1)) (freeblock s)).
  assert (Hs1 : st_ok s1 v) by (destruct Hs; by split).
  assert (Hdo : din_ok (mk_din ty 0 0 1 0 (replicate (NDIRECT + 1) 0))).
  { split; cbn; try done; [unfold s16; rewrite Z.mod_small; lia |]. unfold is_u32. repeat constructor; lia. }
  destruct (winode_ok s1 v i _ Hs1 Hi Hdo) as (s2 & y & E & Hs2 & Hdi & Hdj & Hf2 & Hn2).
  destruct (new_holds _ _ _ Hdi) as [Hnew Hnone]. set (v2 := upd_view v (IBLOCK i mkfs_sb) y) in *.
  assert (Hlv : forall l ty' c', fl !! l = Some (ty', c') -> leaves v v2 (1 + Z.of_nat l)).
  { intros l ty' c' Hl. pose proof (lookup_lt_Some _ _ _ Hl). eapply (inode_leaves v i (1 + Z.of_nat l) ty' c'); [done | lia | by eauto |].
    apply Hdj; unfold i; lia. }
  exists s2, v2. split.
  - unfold Mkfs.ialloc. mstep. rewrite Hino. fold i. unfold modify. mstep. fold s1.
    rewrite (xshort_small ty) by lia. change (xshort 1) with 1. change (xint 0) with 0. by erewrite bind_ret by exact E.
  - split; rewrite ?length_app; cbn [length]; try done; [lia | rewrite Hn2; cbn; rewrite Hino, u32_small; lia | | | |].
    + rewrite Hf2, sizes_app. change (sizes [(ty, [])]) with 0. cbn [freeblock s1]. lia.
    + unfold v2, upd_view. pose proof (iblock_small i Hi). by rewrite decide_False by lia.
    + intros k ty' c' [Hk | [Hge Hk]]%lookup_app_Some.
      * eapply leaves_holds; [by eapply Hlv | by apply Hfiles].
      * apply list_lookup_singleton_Some in Hk as [Hk [= <- <-]].
        replace k with (length fl) by lia. exact Hnew.
    + assert (Hcase : forall l a, (l < length fl + 1)%nat -> owns v2 (1 + Z.of_nat l) a ->
        (l < length fl)%nat /\ owns v (1 + Z.of_nat l) a).
      { intros l a Hl Ha. destruct (decide (l < length fl)%nat) as [Hl' |].
        - split; [done |]. apply lookup_lt_is_Some_2 in Hl' as [[ty' c'] Hl']. by apply (leaves_owns _ _ _ _ (Hlv l ty' c' Hl')).
        - replace l with (length fl) in Ha by lia. by apply Hnone in Ha. }
      intros k l a Hk Hl Hne Ha1 Ha2. destruct (Hcase k a Hk Ha1). destruct (Hcase l a Hl Ha2). by apply (Hapart k l a).
Qed.

(** *** The empty file system *)
Lemma zero_image_ok n s :
  zero_image n (Z.of_nat (length (img s))) s = Ret tt (with_img (img s ++ replicate n zeroes) s).
Proof.
  revert s. induction n as [| n IH]; intros s; cbn [zero_image].
  - cbn. rewrite app_nil_r. by destruct s.
  - unfold wsect, modify. mstep. rewrite Nat2Z.id, decide_False, Nat.sub_diag by lia. cbn [replicate app].
    specialize (IH (with_img (img s ++ [zeroes]) s)). cbn [img with_img] in IH. rewrite length_app in IH. cbn [length] in IH.
    replace (Z.of_nat (length (img s) + 1)) with (Z.of_nat (length (img s)) + 1) in IH by lia. rewrite IH.
    unfold with_img. cbn. by rewrite <- (assoc_L (++)).
Qed.

Definition blank_img : list blk := <[1%nat := splice 0 (enc_sb mkfs_sb) zeroes]> (replicate 1000 zeroes).
Definition blank : mkst := mk_st blank_img mkfs_sb 1 59.

Lemma blank_holds : fs_holds blank (shown blank) [].
Proof.
  assert (Hl : length blank_img = 1000%nat) by (unfold blank_img; by rewrite length_insert, length_replicate).
  split; try done; [| cbn; lia |].
  2:{ intros k l a Hk. simpl in Hk. lia. }
  split; cbn [m_sb img freeblock blank]; try done; try lia.
  - intros i x Hx. unfold blank_img in Hx. apply list_lookup_insert_cases in Hx as [[-> ->] | [_ Hx]].
    + rewrite length_splice; [apply length_replicate |]. rewrite Nat.add_0_l. cbn [enc_sb mkfs_sb]. unfold zeroes.
      rewrite length_replicate. unfold enc_sb. rewrite !length_app, !length_le_bytes. unfold BSIZE. lia.
    + apply lookup_replicate in Hx as [-> _]. apply length_replicate.
  - intros m Hm. unfold blank_img. rewrite list_lookup_insert_ne by lia. apply lookup_replicate. split; [done | lia].
Qed.

(** *** Appending the pieces of a file *)
Lemma sizes_mono fl k ty c c1 c2 : fl !! k = Some (ty, c) -> (length c1 <= length c2)%nat ->
  sizes (<[k := (ty, c1)]> fl) <= sizes (<[k := (ty, c2)]> fl).
Proof.
  intros Hk Hl. rewrite !(sizes_insert _ _ _ _ _ Hk).
  pose proof (need_mono (Z.of_nat (length c1)) (Z.of_nat (length c2)) ltac:(lia)). lia.
Qed.

Lemma append_pieces_ok l s v fl k ty c :
  fs_holds s v fl -> fl !! k = Some (ty, c) -> Z.of_nat (length (c ++ concat l)) <= 71680 ->
  59 + sizes (<[k := (ty, c ++ concat l)]> fl) <= 1000 ->
  exists s' v', append_pieces (1 + Z.of_nat k) l s = Ret tt s' /\ fs_holds s' v' (<[k := (ty, c ++ concat l)]> fl).
Proof.
  revert s v fl c. induction l as [| b l IH]; intros s v fl c Hg Hk Hmax Hcap; cbn [append_pieces concat] in *.
  - exists s, v. rewrite app_nil_r. split; [done |]. by rewrite list_insert_id.
  - rewrite (assoc_L (++)) in *.
    destruct (iappend_ok s v fl k ty c b Hg Hk) as (s1 & v1 & E1 & Hg1).
    { rewrite !length_app in *. lia. }
    { pose proof (sizes_mono fl k ty c (c ++ b) ((c ++ b) ++ concat l) Hk) as Hm. rewrite !length_app in Hm. lia. }
    destruct (IH s1 v1 _ (c ++ b) Hg1) as (s2 & v2 & E2 & Hg2).
    { apply list_lookup_insert_eq. by eapply lookup_lt_Some. }
    { done. }
    { by rewrite list_insert_insert_eq. }
    rewrite list_insert_insert_eq in Hg2. exists s2, v2. split; [| done]. by erewrite bind_ret by exact E1.
Qed.

(** *** The files of the host *)

(** The root directory and the other files once [files] were added. *)
Fixpoint added (rb : list Z) (fl : list (Z * list Z)) (files : list (list Z * list (list Z))) : list (Z * list Z) :=
  match files with
  | [] => (T_DIR, rb) :: fl
  | (arg, l) :: files =>
      added (rb ++ dirent (2 + Z.of_nat (length fl)) (fs_name arg)) (fl ++ [(T_FILE, concat l)]) files
  end.
Definition host (files : list (list Z * list (list Z))) : list (list Z * option (list (list Z))) :=
  (fun f => (f.1, Some f.2)) <$> files.

Lemma added_sizes files rb fl : sizes ((T_DIR, rb) :: fl) <= sizes (added rb fl files).
Proof.
  revert rb fl. induction files as [| [arg l] files IH]; intros rb fl; cbn [added]; [lia |].
  etrans; [| apply IH]. rewrite !sizes_cons, sizes_app. cbn [snd]. rewrite sizes_cons. change (sizes []) with 0.
  assert (0 <= need (Z.of_nat (length (concat l)))).
  { unfold need. destruct (Z.ltb_spec 6144 (Z.of_nat (length (concat l)))); Z.to_euclidean_division_equations; lia. }
  pose proof (need_mono (Z.of_nat (length rb)) (Z.of_nat (length (rb ++ dirent (2 + Z.of_nat (length fl)) (fs_name arg)))) ltac:(rewrite length_app; lia)).
  cbn [snd]. lia.
Qed.

Lemma length_dirent i name : length (dirent i name) = 16%nat.
Proof.
  unfold dirent. rewrite length_app, length_le_bytes, length_take, length_app, length_replicate. unfold DIRSIZ. lia.
Qed.

(** A file of the host that mkfs accepts. *)
Definition host_file (f : list Z * list (list Z)) : Prop :=
  slash ∉ f.1 /\ Z.of_nat (length (concat f.2)) <= 71680.

Lemma add_files_ok files s v rb fl :
  fs_holds s v ((T_DIR, rb) :: fl) -> length rb = (16 * (2 + length fl))%nat ->
  (length fl + length files < 199)%nat -> Forall host_file files -> 59 + sizes (added rb fl files) <= 1000 ->
  exists s' v', add_files ROOTINO (host files) s = Ret tt s' /\ fs_holds s' v' (added rb fl files).
Proof.
  revert s v rb fl. induction files as [| [arg l] files IH]; intros s v rb fl Hg Hrb Hn Hh Hcap.
  { by exists s, v. }
  apply Forall_cons in Hh as [[Hsl Hlen] Hh]. cbn [fst snd] in Hsl, Hlen. cbn [length] in Hn.
  set (e := dirent (2 + Z.of_nat (length fl)) (fs_name arg)). cbn [added] in Hcap. fold e in Hcap.
  pose proof (added_sizes files (rb ++ e) (fl ++ [(T_FILE, concat l)])) as Hsz.
  assert (Hle : length e = 16%nat) by apply length_dirent.
  destruct (ialloc_ok s v _ T_FILE Hg) as (s1 & v1 & E1 & Hg1); [cbn [length]; lia | unfold T_FILE; lia |].
  cbn [app length] in E1, Hg1.
  destruct (iappend_ok s1 v1 _ 0 T_DIR rb e Hg1 eq_refl) as (s2 & v2 & E2 & Hg2).
  { rewrite length_app, Hle. lia. }
  { cbn [insert list_insert]. rewrite !sizes_cons, sizes_app in *. change (sizes [(T_FILE, [])]) with 0. cbn [snd] in *.
    rewrite sizes_cons in Hsz. cbn [snd] in Hsz. change (sizes []) with 0 in Hsz.
    assert (0 <= need (Z.of_nat (length (concat l)))) by (apply (need_mono 0); lia). lia. }
  cbn [insert list_insert] in Hg2.
  assert (Hi : forall x, <[Datatypes.S (length fl) := x]> ((T_DIR, rb ++ e) :: fl ++ [(T_FILE, [])]) = (T_DIR, rb ++ e) :: fl ++ [x]).
  { intros x. change (<[Datatypes.S (length fl) := x]> ((T_DIR, rb ++ e) :: fl ++ [(T_FILE, [])]))
      with ((T_DIR, rb ++ e) :: <[length fl := x]> (fl ++ [(T_FILE, [])])). f_equal. rewrite insert_app_r_alt by lia. by rewrite Nat.sub_diag. }
  destruct (append_pieces_ok l s2 v2 _ (Datatypes.S (length fl)) T_FILE [] Hg2) as (s3 & v3 & E3 & Hg3).
  { rewrite lookup_cons_ne_0 by done. cbn [pred]. rewrite lookup_app_r, Nat.sub_diag by lia. done. }
  { done. }
  { rewrite Hi. cbn [app]. lia. }
  rewrite Hi in Hg3. cbn [app] in Hg3.
  destruct (IH s3 v3 (rb ++ e) (fl ++ [(T_FILE, concat l)]) Hg3) as (s4 & v4 & E4 & Hg4); try done.
  { rewrite !length_app, Hle. cbn [length]. lia. }
  { rewrite length_app. cbn [length]. lia. }
  exists s4, v4. split; [| exact Hg4]. cbn [host fmap list_fmap add_files fst snd].
  erewrite bind_ret; [exact E4 |]. unfold add_file. rewrite bool_decide_false by done.
  erewrite bind_ret by exact E1. replace (1 + Z.of_nat (Datatypes.S (length fl))) with (2 + Z.of_nat (length fl)) in * by lia.
  fold e. change ROOTINO with (1 + Z.of_nat 0). by erewrite bind_ret by exact E2.
Qed.

(** *** The end of [main] *)

(** The finished disk: the root directory [rb], whose size was rounded up, and
    the other files. *)
Record disk_holds (v : Z -> option blk) (rb : list Z) (fl : list (Z * list Z)) : Prop := {
  k_super : v 1 = Some (splice 0 (enc_sb mkfs_sb) zeroes);
  k_meta : meta_used mkfs_sb v;
  k_root : wf_file mkfs_sb v (inode_of v 1);
  k_dense : dense v (inode_of v 1) (Z.of_nat (length rb));
  k_bytes : fbytes v (inode_of v 1) = rb ++ replicate (NMAX * BSIZE - length rb) 0;
  k_type : di_type (dino v 1) = T_DIR;
  k_size : di_size (dino v 1) = (Z.of_nat (length rb) / 512 + 1) * 512;
  k_files : forall k ty c, fl !! k = Some (ty, c) -> holds v (2 + Z.of_nat k) ty c
}.

Lemma fix_root_ok s v rb fl : fs_holds s v ((T_DIR, rb) :: fl) -> Z.of_nat (length rb) < 71168 ->
  exists s' v', fix_root ROOTINO s = Ret tt s' /\ st_ok s' v' /\ disk_holds v' rb fl.
Proof.
  intros [Hs Hc Hino Hblk Hsup Hfiles _] Hlen. pose proof (Hfiles 0%nat _ _ eq_refl) as Hr. change (1 + Z.of_nat 0) with 1 in Hr.
  pose proof Hr as [Hwf Hdn Hby Hty Hnl Hsz]. set (n := (Z.of_nat (length rb) / 512 + 1) * 512).
  assert (Hn : 0 <= n < 2 ^ 32) by (unfold n; Z.to_euclidean_division_equations; lia).
  assert (Hi : 0 <= 1 < 200) by lia. pose proof (iblock_small 1 Hi) as Hb.
  assert (Hdo : din_ok (set_size n (dino v 1))).
  { destruct (st_block s v (IBLOCK 1 mkfs_sb) Hs) as (x & Hx & _); [lia |].
    unfold dino. rewrite Hx. pose proof (dec_ok (din_off 1) x) as [? ? ? ? ? ? ?]. by split. }
  destruct (winode_ok s v 1 _ Hs Hi Hdo) as (s' & y & E & Hs' & Hdi & Hdj & _).
  destruct (low_update mkfs_sb v (IBLOCK 1 mkfs_sb) y _ Hly ltac:(cbn; lia) Hwf) as (Wl & Fb & Fa & _).
  set (v' := upd_view v (IBLOCK 1 mkfs_sb) y) in *.
  assert (Hio : inode_of v' 1 = set_din (set_size n (i_din (inode_of v 1))) (inode_of v 1)) by (unfold inode_of; by rewrite Hdi).
  exists s', v'. split_and!; [| done |].
  - unfold fix_root. erewrite bind_ret by (apply rinode_ok; [exact Hs | unfold ROOTINO; lia]). cbv zeta.
    change ROOTINO with 1. rewrite Hsz, (xint_small (Z.of_nat (length rb))) by (unfold is_u32; lia). fold n. rewrite (u32_small n), (xint_small n) by done. exact E.
  - split; rewrite ?Hio, ?Hdi.
    + unfold v', upd_view. by rewrite decide_False by lia.
    + by eapply st_meta.
    + apply wf_resize. exact Wl.
    + destruct Hdn as [D1 D2]. split; [| exact D2]. intros bn Hbn. change (faddr v' (set_din _ _) bn) with (faddr v' (inode_of v 1) bn).
      rewrite Fa by done. by apply D1.
    + change (fbytes v' (set_din _ _)) with (fbytes v' (inode_of v 1)). by rewrite Fb.
    + exact Hty.
    + done.
    + intros k ty c Hk. pose proof (Hfiles (Datatypes.S k) ty c Hk) as Hh.
      replace (1 + Z.of_nat (Datatypes.S k)) with (2 + Z.of_nat k) in Hh by lia.
      pose proof (lookup_lt_Some _ _ _ Hk). cbn [length] in Hc.
      eapply leaves_holds; [| exact Hh]. apply (inode_leaves v 1 (2 + Z.of_nat k) ty c); try lia; [done |]. apply Hdj; lia.
Qed.

Lemma balloc_map s v : st_ok s v ->
  exists s', Mkfs.balloc (freeblock s) s = Ret tt s' /\ length (img s') = 1000%nat /\
    (forall m, 0 <= m < 1000 -> img s' !! Z.to_nat m = v m).
Proof.
  intros [H1 H2 H3 H4 H5 H6]. unfold Mkfs.balloc. destruct (Z.ltb_spec (freeblock s) (512 * 8)); [| lia]. cbn [negb].
  mstep. rewrite H1. unfold wsect, modify. cbn [sb_bmapstart mkfs_sb]. rewrite decide_True by (rewrite H2; lia).
  eexists. split; [reflexivity |]. cbn [img with_img]. split; [by rewrite length_insert |].
  intros m Hm. rewrite H6 by done. unfold shown. destruct (decide (m = 58)) as [-> |].
  - apply list_lookup_insert_eq. rewrite H2. lia.
  - rewrite list_lookup_insert_ne; [done | lia].
Qed.

(** The directory: [.] and [..], then the files. *)
Definition root_start : list Z := dirent 1 [46] ++ dirent 1 [46; 46].
Fixpoint entries (n : Z) (files : list (list Z * list (list Z))) : list Z :=
  match files with
  | [] => []
  | f :: files => dirent n (fs_name f.1) ++ entries (n + 1) files
  end.
Definition root_bytes (files : list (list Z * list (list Z))) : list Z := root_start ++ entries 2 files.
Definition contents (files : list (list Z * list (list Z))) : list (Z * list Z) := (fun f => (T_FILE, concat f.2)) <$> files.

(** What mkfs accepts: at most 198 files without a slash in their names, no file
    larger than [MAXFILE] blocks, and all of them fit on the disk. *)
Definition fits (files : list (list Z * list (list Z))) : Prop :=
  (length files < 199)%nat /\ Forall host_file files /\
  nmeta + sizes ((T_DIR, root_bytes files) :: contents files) <= FSSIZE.

Lemma added_split files rb fl :
  added rb fl files = (T_DIR, rb ++ entries (2 + Z.of_nat (length fl)) files) :: fl ++ contents files.
Proof.
  revert rb fl. induction files as [| [arg l] files IH]; intros rb fl; cbn [added entries].
  - cbn. by rewrite !app_nil_r.
  - rewrite IH, length_app. cbn [length]. replace (2 + Z.of_nat (length fl + 1)) with (2 + Z.of_nat (length fl) + 1) by lia.
    rewrite <- !(assoc_L (++)). done.
Qed.

Lemma length_entries n files : length (entries n files) = (16 * length files)%nat.
Proof.
  revert n. induction files as [| f files IH]; intros n; [done |]. cbn [entries length].
  rewrite length_app, length_dirent, IH. lia.
Qed.

Lemma main_start : exists s, fs_holds s (shown s) [] /\ forall files,
  Mkfs.main files start = (rootino ← Mkfs.ialloc T_DIR;
    assertb "assert" (rootino =? ROOTINO);;
    iappend rootino (dirent rootino [46]);;
    iappend rootino (dirent rootino [46; 46]);;
    add_files rootino files;;
    fix_root rootino;;
    used ← gets freeblock;
    Mkfs.balloc used) s.
Proof.
  exists blank. split; [apply blank_holds |]. intros files. unfold Mkfs.main, modify. mstep.
  change (mk_sb _ _ _ _ _ _ _) with mkfs_sb. cbn [img freeinode start].
  pose proof (zero_image_ok (Z.to_nat FSSIZE) (mk_st [] mkfs_sb 1 nmeta)) as E. cbn [img length] in E.
  change (Z.of_nat 0) with 0 in E. erewrite bind_ret by exact E. mstep. cbn [m_sb with_img].
  unfold wsect, modify. mstep. reflexivity.
Qed.

Lemma main_ok files : fits files ->
  exists s v, Mkfs.main (host files) start = Ret tt s /\ length (img s) = 1000%nat /\
    (forall m, 0 <= m < 1000 -> img s !! Z.to_nat m = v m) /\ disk_holds v (root_bytes files) (contents files).
Proof.
  intros (Hn & Hh & Hcap). change nmeta with 59 in Hcap. unfold FSSIZE in Hcap.
  pose proof (added_split files root_start []) as Ha. cbn [length app] in Ha. fold (root_bytes files) in Ha.
  change (2 + Z.of_nat 0) with 2 in Ha. fold (root_bytes files) in Ha. rewrite <- Ha in Hcap.
  destruct main_start as (s0 & Hg0 & Hmain). rewrite Hmain.
  pose proof (added_sizes files root_start []) as Hsz.
  destruct (ialloc_ok s0 _ _ T_DIR Hg0) as (s1 & v1 & E1 & Hg1); [simpl; lia | unfold T_DIR; lia |].
  cbn [length app] in E1, Hg1. change (1 + Z.of_nat 0) with 1 in E1. erewrite bind_ret by exact E1. mstep.
  destruct (iappend_ok s1 v1 _ 0 T_DIR [] (dirent 1 [46]) Hg1 eq_refl) as (s2 & v2 & E2 & Hg2); [vm_compute; discriminate.. |].
  change (1 + Z.of_nat 0) with 1 in E2. erewrite bind_ret by exact E2.
  destruct (iappend_ok s2 v2 _ 0 T_DIR _ (dirent 1 [46; 46]) Hg2 eq_refl) as (s3 & v3 & E3 & Hg3); [vm_compute; discriminate.. |].
  change (1 + Z.of_nat 0) with 1 in E3. erewrite bind_ret by exact E3.
  destruct (add_files_ok files s3 v3 root_start [] Hg3) as (s4 & v4 & E4 & Hg4); [done | simpl; lia | done | done |].
  change ROOTINO with 1 in E4. erewrite bind_ret by exact E4. rewrite Ha in Hg4.
  destruct (fix_root_ok s4 v4 _ _ Hg4) as (s5 & v5 & E5 & Hs5 & Hd5).
  { unfold root_bytes. rewrite length_app, length_entries. change (length root_start) with 32%nat. lia. }
  change ROOTINO with 1 in E5. erewrite bind_ret by exact E5. mstep.
  destruct (balloc_map s5 v5 Hs5) as (s6 & E6 & Hl6 & Hv6). exists s6, v5. split; [exact E6 |]. by split.
Qed.

(** ** The kernel on the image *)
Lemma agree_leaves v vd i : (forall m, 0 <= m < 1000 -> vd m = v m) -> 0 <= i < 200 ->
  wf_file mkfs_sb v (inode_of v i) -> leaves v vd i.
Proof.
  intros Hag Hi Hwf. pose proof (iblock_small i Hi). split.
  - unfold dino. by rewrite Hag by lia.
  - intros a Ha. destruct (wf_owns v i a Hwf Ha) as [Hd _]. change (59 <= a < 1000) in Hd. apply Hag. lia.
  - intros a Ha. destruct (wf_owns v i a Hwf Ha) as [Hd Hu]. change (59 <= a < 1000) in Hd. rewrite <- Hu.
    unfold used, BBLOCK, BPB. cbn [sb_bmapstart mkfs_sb]. rewrite Z.div_small by lia. by rewrite Hag by lia.
Qed.

Lemma disk_agree v vd rb fl : (forall m, 0 <= m < 1000 -> vd m = v m) -> (length fl < 199)%nat ->
  disk_holds v rb fl -> disk_holds vd rb fl.
Proof.
  intros Hag Hn [K1 K2 K3 K4 K5 K6 K7 K8]. pose proof (agree_leaves v vd 1 Hag ltac:(lia) K3) as Hl.
  destruct (leaves_shape _ _ _ _ Hl K3 K4) as (R1 & R2 & R3). split; rewrite ?(lv_dino _ _ _ Hl); try done.
  - by rewrite Hag by lia.
  - intros m Hm. change (datastart mkfs_sb) with 59 in Hm. specialize (K2 m Hm). rewrite <- K2.
    unfold used, BBLOCK, BPB. cbn [sb_bmapstart mkfs_sb]. rewrite Z.div_small by lia. by rewrite Hag by lia.
  - by rewrite R3.
  - intros k ty c Hk. pose proof (K8 k ty c Hk) as Hh. pose proof (lookup_lt_Some _ _ _ Hk).
    eapply leaves_holds; [| exact Hh]. apply agree_leaves; [done | lia | apply Hh].
Qed.

(** The inode [ilock] has read from the disk. *)
Definition loaded (v : Z -> option blk) (p : inode) (i : Z) : Prop :=
  i_dev p = ROOTDEV /\ i_inum p = i /\ i_din p = dino v i.

Lemma loaded_same v p i : loaded v p i ->
  (wf_file mkfs_sb v (inode_of v i) -> wf_file mkfs_sb v p) /\ (forall n, dense v (inode_of v i) n -> dense v p n) /\
  fbytes v p = fbytes v (inode_of v i).
Proof. destruct p as [dev inum rf lk va d]. intros (Hd & Hi & Hdi). cbn in Hd, Hi, Hdi. subst. split_and!; [intros []; by split | intros n []; by split | done]. Qed.

Section kernel.
Variables (f : fsst S) (vd : Z -> option blk) (r : nat).
Hypothesis Hat : at_ f vd [] r.
Hypothesis Hsb : sb f = mkfs_sb.

Lemma loaded_file_at ip p i n : icache f !! ip = Some p -> loaded vd p i -> 0 <= i < 200 -> meta_used mkfs_sb vd ->
  wf_file mkfs_sb vd (inode_of vd i) -> dense vd (inode_of vd i) n ->
  (forall bn : nat, Z.of_nat bn * 512 < di_size (dino vd i) -> Z.of_nat bn * 512 < n) ->
  di_type (dino vd i) <> T_DEV -> 0 <= di_size (dino vd i) <= 71680 -> file_at f vd r ip p.
Proof.
  intros Hp Hld Hi Hm Hwf Hdn Hhole Hty Hsz. destruct (loaded_same _ _ _ Hld) as (L1 & L2 & _).
  pose proof Hld as (Hd & Hin & Hdi). pose proof (iblock_small i Hi).
  split; rewrite ?Hsb, ?Hdi, ?Hin; try done.
  - by apply L1.
  - intros bn Hbn. rewrite Hdi in Hbn. unfold BSIZE in Hbn. apply (dn_blocks _ _ _ (L2 _ Hdn)); [unfold NMAX; lia |].
    apply Hhole. lia.
  - destruct (law_view (dv f) vd [] [] r (IBLOCK i mkfs_sb) Hat) as (x & Hx & _); [rewrite Hnblk; lia |].
    exists x. rewrite Hin, Hdi. split; [done |]. unfold dino. by rewrite Hx.
Qed.

Lemma file_reads ip p i ty c : icache f !! ip = Some p -> loaded vd p i -> 0 <= i < 200 -> meta_used mkfs_sb vd ->
  holds vd i ty c -> ty <> T_DEV -> Z.of_nat (length c) <= 71680 ->
  file_at f vd r ip p /\
  exists f', readi ip 0 (Z.of_nat (length c)) f = Ret (Z.of_nat (length c), c) f'.
Proof.
  intros Hp Hld Hi Hm [Hwf Hdn Hb Ht Hk Hs] Hty Hlen. destruct (loaded_same _ _ _ Hld) as (_ & _ & L3).
  pose proof Hld as (_ & _ & Hdi).
  assert (Hf : file_at f vd r ip p) by (eapply loaded_file_at; try done; rewrite ?Ht, ?Hs; (done || lia)).
  split; [done |]. destruct (readi_ok f vd r ip p 0 (Z.of_nat (length c)) Hf) as (f' & E & _); rewrite ?Hdi, ?Hs in *; try lia.
  exists f'. rewrite E. rewrite Z.sub_0_r, Z.min_id, Nat2Z.id, L3, Hb. do 2 f_equal. apply slice_head. done.
Qed.

Lemma root_is_dir dp p files : icache f !! dp = Some p -> loaded vd p 1 -> (length files < 199)%nat ->
  disk_holds vd (root_bytes files) (contents files) -> Z.of_nat (length files + 2) mod 32 <> 0 -> dir_at f vd r dp p.
Proof.
  intros Hp Hld Hn [_ K2 K3 K4 _ K6 K7 _] Hmod. pose proof Hld as (_ & _ & Hdi).
  assert (Hlen : length (root_bytes files) = (16 * (length files + 2))%nat).
  { unfold root_bytes. rewrite length_app, length_entries. change (length root_start) with 32%nat. lia. }
  rewrite Hlen in *. split.
  - eapply loaded_file_at; try done; rewrite ?K6, ?K7; try done; try lia.
    + intros bn Hbn. assert (Z.of_nat (16 * (length files + 2)) mod 512 <> 0).
      { intros E. apply Hmod. Z.to_euclidean_division_equations. lia. }
      Z.to_euclidean_division_equations. lia.
    + Z.to_euclidean_division_equations. lia.
  - by rewrite Hdi.
  - rewrite Hdi, K7. Z.to_euclidean_division_equations. lia.
Qed.
End kernel.

(** *** Names *)

(** The entries of the root directory, in order. *)
Definition root_names (files : list (list Z * list (list Z))) : list (Z * list Z) :=
  (1, [46]) :: (1, [46; 46]) :: imap (fun k f => (2 + Z.of_nat k, fs_name f.1)) files.

Lemma entries_concat n files :
  entries n files = concat ((fun e => dirent e.1 e.2) <$> imap (fun k f => (n + Z.of_nat k, fs_name f.1)) files).
Proof.
  revert n. induction files as [| f files IH]; intros n; [done |]. cbn [entries]. rewrite imap_cons, fmap_cons. cbn [concat fst snd].
  rewrite Z.add_0_r, IH. do 3 f_equal. apply imap_ext. intros k g _. cbn. f_equal. lia.
Qed.

Lemma root_concat files : root_bytes files = concat ((fun e => dirent e.1 e.2) <$> root_names files).
Proof.
  unfold root_bytes, root_start, root_names. rewrite entries_concat, !fmap_cons. cbn [concat fst snd]. by rewrite <- (assoc_L (++)).
Qed.

Lemma root_slice files j i name : root_names files !! j = Some (i, name) ->
  slice (16 * j) 16 (root_bytes files) = dirent i name.
Proof.
  intros Hj. rewrite root_concat. replace (16 * j)%nat with (j * 16 + 0)%nat by lia.
  rewrite (slice_concat j 16 0 16 _ (dirent i name)).
  - apply slice_all, length_dirent.
  - apply Forall_fmap, Forall_true. intros e. apply length_dirent.
  - by rewrite list_lookup_fmap, Hj.
  - lia.
Qed.

(** The entry is the one [dirlink] would write. *)
Lemma dirent_entry i name : 0 <= i < 2 ^ 16 -> Forall (fun c => c <> 0) name -> dirent i name = entry name i.
Proof.
  intros Hi Hn. unfold dirent, entry, pad, bname. rewrite xshort_small by done. f_equal.
  rewrite cstr_all by (by apply Forall_take). rewrite length_take.
  destruct (decide (DIRSIZ <= length name)%nat).
  - rewrite take_app_le by lia. replace (DIRSIZ - DIRSIZ `min` length name)%nat with 0%nat by lia. cbn. by rewrite app_nil_r.
  - rewrite (take_ge name) by lia. rewrite take_app_ge by lia. rewrite take_replicate. do 2 f_equal. lia.
Qed.

Lemma find_index_intro {A : Type} (q : A -> bool) l i x : l !! i = Some x -> q x = true ->
  (forall j y, (j < i)%nat -> l !! j = Some y -> q y = false) -> find_index q l = Some i.
Proof.
  revert i. induction l as [| y l IH]; intros [| i] Hi Hx Hlt; try done; cbn.
  - injection Hi as ->. by rewrite Hx.
  - rewrite (Hlt 0%nat y) by (lia || done). rewrite (IH i Hi Hx); [done |]. intros j z Hj Hz. apply (Hlt (Datatypes.S j)); [lia | done].
Qed.

Lemma root_finds vd p files j i name : loaded vd p 1 -> (length files < 199)%nat ->
  disk_holds vd (root_bytes files) (contents files) -> root_names files !! j = Some (i, name) ->
  Forall (fun e => Forall (fun c => c <> 0) e.2) (root_names files) ->
  (forall l e, (l < j)%nat -> root_names files !! l = Some e -> bname e.2 <> bname name) ->
  dir_find vd p name = Some (j, i).
Proof.
  intros Hld Hn [_ _ _ _ K5 _ K7 _] Hj Hz Hnew. destruct (loaded_same _ _ _ Hld) as (_ & _ & L3). pose proof Hld as (_ & _ & Hdi).
  assert (Hlen : length (root_bytes files) = (16 * (length files + 2))%nat).
  { unfold root_bytes. rewrite length_app, length_entries. change (length root_start) with 32%nat. lia. }
  assert (Hln : length (root_names files) = (length files + 2)%nat) by (unfold root_names; cbn; rewrite length_imap; lia).
  assert (Hne : (length files + 2 <= nents p)%nat).
  { unfold nents. rewrite Hdi, K7, Hlen. Z.to_euclidean_division_equations. lia. }
  assert (Hat : forall l e, root_names files !! l = Some e -> dents vd p !! l = Some (entry e.2 e.1) /\ 0 < e.1 < 2 ^ 16).
  { intros l [i' nm] Hl. pose proof (lookup_lt_Some _ _ _ Hl) as Hlt. rewrite Hln in Hlt. cbn [fst snd].
    assert (Hi' : 0 < i' < 2 ^ 16).
    { unfold root_names in Hl. destruct l as [| [| l]]; [injection Hl as <- _; lia.. |].
      rewrite !lookup_cons_ne_0 in Hl by done. cbn [pred] in Hl. rewrite list_lookup_imap in Hl. destruct (files !! l); [| done].
      injection Hl as <- _. lia. }
    split; [| done]. rewrite dents_lookup by lia. unfold dirent_at. rewrite L3, K5.
    rewrite slice_app_l by (rewrite Hlen; lia). rewrite (root_slice _ _ _ _ Hl). f_equal. apply dirent_entry; [lia |].
    rewrite Forall_lookup in Hz. exact (Hz _ _ Hl). }
  destruct (Hat j _ Hj) as [Hdj Hi]. cbn [fst snd] in Hdj, Hi.
  rewrite (find_index_dir vd p name (Some j)).
  - rewrite dents_lookup in Hdj by (apply lookup_lt_Some in Hj; lia). apply (inj Some) in Hdj.
    cbn [fmap option_fmap option_map]. by rewrite Hdj, entry_inum by lia.
  - apply (find_index_intro _ _ _ _ Hdj).
    + rewrite entry_match by done. by apply bool_decide_eq_true.
    + intros l y Hl Hy. destruct (lookup_lt_is_Some_2 (root_names files) l) as [e He];
        [apply lookup_lt_Some in Hj; lia |].
      destruct (Hat l e He) as [Hy' He']. rewrite Hy' in Hy. injection Hy as <-. rewrite entry_match by done.
      apply bool_decide_eq_false. intros E. by apply (Hnew l e Hl He).
Qed.

(** C19. What mkfs writes, the kernel reads.  For files that fit (at most 198, no
    slash in a name, none above [MAXFILE] blocks, all within the disk) [main]
    returns an image of [FSSIZE] blocks, and on any block device that shows it
    fs.c finds the superblock it needs; each file, once its inode is loaded, is
    a well-formed file whose bytes are read back by [readi] exactly, however the
    host cut them into pieces; and the root directory is a well-formed directory
    in which each name that is new when it is added leads to the inode of its
    file.  The directory is only claimed when the number of its entries is not a
    multiple of 32 (see [root_has_hole]). *)
Theorem mkfs_roundtrip files : fits files ->
  exists s, Mkfs.main (host files) start = Ret tt s /\ length (img s) = 1000%nat /\
  forall (f : fsst S) vd r, at_ f vd [] r -> sb f = mkfs_sb -> (forall m, 0 <= m < 1000 -> vd m = img s !! Z.to_nat m) ->
    (exists x, vd 1 = Some x /\ dec_sb x = mkfs_sb) /\
    (forall k arg l ip p, files !! k = Some (arg, l) -> icache f !! ip = Some p -> loaded vd p (2 + Z.of_nat k) ->
       file_at f vd r ip p /\ di_type (i_din p) = T_FILE /\
       exists f', readi ip 0 (Z.of_nat (length (concat l))) f = Ret (Z.of_nat (length (concat l)), concat l) f') /\
    (forall dp p, icache f !! dp = Some p -> loaded vd p ROOTINO -> Z.of_nat (length files + 2) mod 32 <> 0 ->
       dir_at f vd r dp p /\
       (Forall (fun e => Forall (fun c => c <> 0) e.2) (root_names files) ->
        forall j i name, root_names files !! j = Some (i, name) ->
          (forall l e, (l < j)%nat -> root_names files !! l = Some e -> bname e.2 <> bname name) ->
          dir_find vd p name = Some (j, i))).
Proof.
  intros Hfit. pose proof Hfit as (Hn & Hh & _). destruct (main_ok files Hfit) as (s & v & E & Hl & Hv & Hd).
  exists s. split; [exact E |]. split; [exact Hl |]. intros f vd r Hat Hsb Hag.
  assert (Hd' : disk_holds vd (root_bytes files) (contents files)).
  { eapply disk_agree; [| | exact Hd]; [intros m Hm; by rewrite Hag, Hv |]. unfold contents. rewrite length_fmap. lia. }
  clear Hd. split_and!.
  - eexists. split; [apply Hd' |]. vm_compute. reflexivity.
  - intros k arg l ip p Hk Hp Hld. pose proof (lookup_lt_Some _ _ _ Hk).
    assert (Hc : contents files !! k = Some (T_FILE, concat l)) by (unfold contents; by rewrite list_lookup_fmap, Hk).
    pose proof (k_files _ _ _ Hd' _ _ _ Hc) as Hho. rewrite Forall_lookup in Hh. destruct (Hh _ _ Hk) as [_ Hlen].
    destruct (file_reads f vd r Hat Hsb ip p _ _ _ Hp Hld ltac:(lia) (k_meta _ _ _ Hd') Hho ltac:(done) Hlen) as [Hf Hr].
    split; [exact Hf |]. split; [| exact Hr]. destruct Hld as (_ & _ & ->). exact (h_type _ _ _ _ Hho).
  - intros dp p Hp Hld Hmod. split; [by eapply root_is_dir |]. intros Hz j i name Hj Hnew. by eapply root_finds.
Qed.

(** The size of the root directory is rounded up past its end: when its entries
    fill their blocks, the last block below the size does not exist. *)
Theorem root_has_hole files : fits files -> Z.of_nat (length files + 2) mod 32 = 0 ->
  exists s v, Mkfs.main (host files) start = Ret tt s /\ (forall m, 0 <= m < 1000 -> img s !! Z.to_nat m = v m) /\
    exists bn, Z.of_nat (bn * BSIZE) < di_size (dino v ROOTINO) /\ faddr v (inode_of v ROOTINO) bn = 0.
Proof.
  intros Hfit Hmod. pose proof Hfit as (Hn & _). destruct (main_ok files Hfit) as (s & v & E & _ & Hv & Hd).
  exists s, v. split; [exact E |]. split; [exact Hv |].
  assert (Hlen : length (root_bytes files) = (16 * (length files + 2))%nat).
  { unfold root_bytes. rewrite length_app, length_entries. change (length root_start) with 32%nat. lia. }
  assert (exists t, (length files + 2 = 32 * t)%nat) as [t Ht].
  { exists (Z.to_nat (Z.of_nat (length files + 2) / 32)). pose proof (Z.div_mod (Z.of_nat (length files + 2)) 32). lia. }
  exists t. change ROOTINO with 1. rewrite (k_size _ _ _ Hd), Hlen, Ht.
  pose proof (dn_blocks _ _ _ (k_dense _ _ _ Hd) t) as Hb. rewrite Hlen, Ht in Hb.
  replace (Z.of_nat (16 * (32 * t))) with (Z.of_nat t * 512) in * by lia. rewrite Z.div_mul by lia. unfold BSIZE, NMAX in *.
  split; [lia |]. destruct (decide (faddr v (inode_of v 1) t = 0)) as [| Hne]; [done |]. apply Hb in Hne; lia.
Qed.
End device.

(** ** An image with one file, under the buffer cache and the log *)
Lemma mounted_geo : 0 <= 2 /\ 0 < 30 <= 30 /\ 2 + 30 <= 1000 /\ 1000 < 2 ^ 31.
Proof. lia. Qed.

Section mounted.
Variable d : list blk.
Hypothesis Hlen : length d = 1000%nat.
Hypothesis Hblk : Forall (fun x => length x = BSIZE) d.
Hypothesis Hhdr : disk_block d 2 = Some (replicate 512 0).

(** The log after [initlog] on a disk with nothing to recover. *)
Definition mounted : logst := mk_log (binit d 1) 2 30 0 false ROOTDEV (mk_lh 0 (replicate Log.LOGSIZE 0)).

Lemma mounted_idle : idle 2 30 1000 mounted.
Proof.
  destruct (binit_quiet d 1 Hblk) as [Hi Hh Hd Hb].
  split; [split | | | | |]; try done; [cbn; by rewrite Hlen |]. exists (replicate 512 0). by split.
Qed.

Lemma mounted_layout w : layout (D := log_dev_ok 2 30 1000 mounted_geo d w) mkfs_sb.
Proof using. clear Hlen Hblk Hhdr. split; cbn; try (unfold IPB, BPB; lia); try done. intros m Hm. split; [lia |]. unfold in_log. lia. Qed.

Lemma mounted_view m : vblock (lbio mounted) m = disk_block d m.
Proof. apply (idle_view 2 30 1000), mounted_idle. Qed.

Lemma mounted_at ic : at_ (D := log_dev_ok 2 30 1000 mounted_geo d []) (mk_fs (with_outstanding 1 mounted) mkfs_sb ic)
  (vblock (lbio mounted)) [] 29.
Proof. apply (begin_tx 2 30 1000 mounted mounted_geo mounted_idle). Qed.
End mounted.

Definition demo_files : list (list Z * list (list Z)) := [([95; 97; 98], [[104; 105]; [1; 2; 3]])].
Definition demo_ino : inode := mk_ino ROOTDEV 2 1 true true (mk_din T_FILE 0 0 1 5 (60 :: replicate 12 0)).
#[local] Instance demo_devices : Devices logst := {| dev_read := fun _ => None; dev_write := fun _ => None |}.

#[local] Instance dinode_eq_dec : EqDecision dinode.
Proof. solve_decision. Defined.

(** What the image is like, found by running mkfs. *)
Definition demo_check (d : list blk) : bool :=
  Nat.eqb (length d) 1000 && forallb (fun x => Nat.eqb (length x) BSIZE) d &&
  bool_decide (disk_block d 2 = Some (replicate 512 0)) &&
  bool_decide ((dec_dinode (din_off 2) <$> d !! 32%nat) = Some (i_din demo_ino)).

Lemma demo_built : exists s, Mkfs.main (host demo_files) start = Ret tt s /\ demo_check (img s) = true.
Proof.
  assert (match Mkfs.main (host demo_files) start with Ret _ s => demo_check (img s) | _ => false end = true) as H
    by (vm_compute; reflexivity).
  destruct (Mkfs.main (host demo_files) start) as [[] s | | |]; try discriminate. by exists s.
Qed.

Lemma demo_fits : fits demo_files.
Proof.
  split_and!; [simpl; lia | | vm_compute; discriminate]. constructor; [| constructor].
  split; [| vm_compute; discriminate]. cbn. intros H. repeat (apply elem_of_cons in H as [H | H]; [discriminate |]).
  by apply not_elem_of_nil in H.
Qed.

Lemma mkfs_roundtrip_witness :
  exists s f', Mkfs.main (host demo_files) start = Ret tt s /\
    readi 0 0 5 (mk_fs (with_outstanding 1 (mounted (img s))) mkfs_sb [demo_ino]) = Ret (5, [104; 105; 1; 2; 3]) f'.
Proof.
  destruct demo_built as (s & E & Hc). unfold demo_check in Hc. rewrite !andb_true_iff in Hc.
  destruct Hc as [[[H1%Nat.eqb_eq H2] H3%bool_decide_eq_true] H4%bool_decide_eq_true].
  assert (Hb : Forall (fun x => length x = BSIZE) (img s)).
  { apply Forall_forall. intros x Hx. rewrite forallb_forall in H2. apply Nat.eqb_eq, H2. by apply list_elem_of_In. }
  destruct (mkfs_roundtrip (D := log_dev_ok 2 30 1000 mounted_geo (img s) []) (mounted_layout (img s) []) eq_refl
    demo_files demo_fits) as (s' & E' & _ & Hall).
  rewrite E in E'. injection E' as <-.
  destruct (Hall (mk_fs (with_outstanding 1 (mounted (img s))) mkfs_sb [demo_ino]) _ _ (mounted_at (img s) H1 Hb H3 _) eq_refl)
    as (_ & Hf & _).
  { intros m Hm. rewrite (mounted_view (img s) H1 Hb H3). unfold disk_block. destruct (Z.ltb_spec m 0); [lia | done]. }
  destruct (Hf 0%nat _ _ 0%nat demo_ino eq_refl eq_refl) as (_ & _ & f' & Hr).
  { split_and!; [done | done |]. unfold dino. rewrite (mounted_view (img s) H1 Hb H3).
    change (disk_block (img s) (IBLOCK (2 + Z.of_nat 0) mkfs_sb)) with (img s !! 32%nat). change (2 + Z.of_nat 0) with 2.
    destruct (img s !! 32%nat); [| done]. cbn [fmap option_fmap option_map] in H4. by apply (inj Some) in H4. }
  exists s, f'. split; [exact E | exact Hr].
Defined.
