(* ===== verification/Grep.v ===== *)
(** * Grep: project3/xv6-modified/grep.c

    The matcher, against the usual meaning of its patterns, and the loop of
    [grep] over its buffer.  Strings are their characters without the
    terminator. *)

From Stdlib Require Import ZArith Lia.
From stdpp Require Import base numbers strings option list.
From S2P Require Import Prelude KString.

Definition CARET : Z := 94.
Definition DOLLAR : Z := 36.
Definition STAR : Z := 42.
Definition DOT : Z := 46.
Definition NL : Z := 10.

(** [matchstar(c, re, text)], with [m] for [matchhere(re, -)]. *)
Definition matchstar (c : Z) (m : list Z -> bool) : list Z -> bool :=
  fix loop (text : list Z) : bool :=
    if m text then true else
    match text with
    | [] => false
    | t :: text' => if (t =? c) || (c =? DOT) then loop text' else false
    end.

Fixpoint matchhere (re text : list Z) : bool :=
  match re with
  | [] => true
  | c :: re1 =>
      match re1 with
      | d :: re2 =>
          if d =? STAR then matchstar c (matchhere re2) text else
          match text with
          | t :: text' => if (c =? DOT) || (c =? t) then matchhere re1 text' else false
          | [] => false
          end
      | [] =>
          if c =? DOLLAR then bool_decide (text = []) else
          match text with
          | t :: text' => if (c =? DOT) || (c =? t) then matchhere re1 text' else false
          | [] => false
          end
      end
  end.

(** The loop of [match] over the suffixes of the text. *)
Fixpoint match_loop (re text : list Z) : bool :=
  if matchhere re text then true else
  match text with
  | [] => false
  | _ :: text' => match_loop re text'
  end.
Definition match_ (re text : list Z) : bool :=
  match re with
  | c :: re' => if c =? CARET then matchhere re' text else match_loop re text
  | [] => match_loop re text
  end.

(** ** The buffer of [grep] *)
Definition BUFSZ : nat := 1024.

(** What [read(fd, -, max)] returns when the bytes of the file arrive in the
    given pieces; a file on disk is one piece. *)
Definition read_fd (max : nat) (fd : list (list Z)) : list Z * list (list Z) :=
  match fd with
  | [] => ([], [])
  | c :: fd' => if (length c <=? max)%nat then (c, fd') else (take max c, drop max c :: fd')
  end.

(** [strchr(p, '\n')] on the bytes before the terminator of the buffer. *)
Fixpoint find_nl (p : list Z) : option nat :=
  match p with
  | [] => None
  | b :: p' => if b =? 0 then None else if b =? NL then Some 0%nat else S <$> find_nl p'
  end.

(** The inner loop: the lines of the buffer that match, and what is left at [p]. *)
Fixpoint grep_lines (fuel : nat) (pattern p : list Z) : list Z * list Z :=
  match fuel with
  | O => ([], p)
  | S fuel' =>
      match find_nl p with
      | None => ([], p)
      | Some q =>
          let '(out, rest) := grep_lines fuel' pattern (drop (S q) p) in
          ((if match_ pattern (take q p) then take (S q) p else []) ++ out, rest)
      end
  end.

(** The outer loop of [grep], with the first [m] bytes of the buffer; [None] when out of fuel. *)
Fixpoint grep_loop (fuel : nat) (pattern buf : list Z) (fd : list (list Z)) : option (list Z) :=
  match fuel with
  | O => None
  | S fuel' =>
      let '(bs, fd') := read_fd (BUFSZ - length buf - 1) fd in
      if bool_decide (bs = []) then Some [] else
      let buf := buf ++ bs in
      let '(out, rest) := grep_lines (S (length buf)) pattern buf in
      let buf := if bool_decide (length rest = length buf) then [] else rest in
      out' ← grep_loop fuel' pattern buf fd'; Some (out ++ out')
  end.
Definition grep (fuel : nat) (pattern : list Z) (fd : list (list Z)) : option (list Z) := grep_loop fuel pattern [] fd.

(** ** Patterns and their languages *)
Inductive atom := Lit (c : Z) | Any.
Inductive item := One (a : atom) | Many (a : atom).

Definition atom_of (c : Z) : atom := if c =? DOT then Any else Lit c.
Definition atom_ok (a : atom) (t : Z) : Prop := match a with Lit c => t = c | Any => True end.

(** The words of a sequence of items. *)
Inductive lang : list item -> list Z -> Prop :=
| lang_nil : lang [] []
| lang_one a l t w : atom_ok a t -> lang l w -> lang (One a :: l) (t :: w)
| lang_many a l ts w : Forall (atom_ok a) ts -> lang l w -> lang (Many a :: l) (ts ++ w).

(** A pattern without its caret: its items, and whether it ends in [$]. *)
Fixpoint parse_items (re : list Z) : list item * bool :=
  match re with
  | [] => ([], false)
  | c :: re1 =>
      match re1 with
      | d :: re2 =>
          if d =? STAR then let '(l, e) := parse_items re2 in (Many (atom_of c) :: l, e)
          else let '(l, e) := parse_items re1 in (One (atom_of c) :: l, e)
      | [] => if c =? DOLLAR then ([], true) else ([One (atom_of c)], false)
      end
  end.

(** The text is [u ++ v ++ w] with [v] in the language, [u] empty if the
    pattern starts with [^] and [w] empty if it ends with [$]. *)
Definition pattern_in (start : bool) (p : list item * bool) (text : list Z) : Prop :=
  exists u v w, text = u ++ v ++ w /\ lang (fst p) v /\ (start = true -> u = []) /\ (snd p = true -> w = []).
Definition re_matches (re text : list Z) : Prop :=
  match re with
  | c :: re' => if c =? CARET then pattern_in true (parse_items re') text else pattern_in false (parse_items re) text
  | [] => pattern_in false (parse_items re) text
  end.

(** ** The matcher *)

(** A prefix of the text is in the language; all of it for [$]. *)
Definition prefix_in (p : list item * bool) (text : list Z) : Prop :=
  exists v w, text = v ++ w /\ lang (fst p) v /\ (snd p = true -> w = []).

Lemma atom_test c t : ((t =? c) || (c =? DOT) = true) <-> atom_ok (atom_of c) t.
Proof.
  unfold atom_of. destruct (Z.eqb_spec c DOT) as [-> |]; [by rewrite orb_true_r |]. rewrite orb_false_r. cbn. apply Z.eqb_eq.
Qed.
Lemma atom_test' c t : ((c =? DOT) || (c =? t) = true) <-> atom_ok (atom_of c) t.
Proof. rewrite <- atom_test, orb_comm, Z.eqb_sym. done. Qed.

Lemma prefix_one a l e text : prefix_in (One a :: l, e) text <->
  match text with t :: text' => atom_ok a t /\ prefix_in (l, e) text' | [] => False end.
Proof.
  split.
  - intros (v & w & -> & Hl & He). cbn in Hl. inversion Hl; subst. cbn. split; [done |]. by eexists _, w.
  - destruct text as [| t text]; [done |]. intros [Ha (v & w & -> & Hl & He)]. exists (t :: v), w. split; [done |].
    split; [by constructor | done].
Qed.

Lemma prefix_many a l e text : prefix_in (Many a :: l, e) text <->
  prefix_in (l, e) text \/
  match text with t :: text' => atom_ok a t /\ prefix_in (Many a :: l, e) text' | [] => False end.
Proof.
  split.
  - intros (v & w & -> & Hl & He). cbn in Hl. inversion Hl as [| | ? ? ts w' Hts Hw]; subst. destruct ts as [| t ts].
    + left. by exists w', w.
    + right. cbn. apply Forall_cons in Hts as [Ht Hts]. split; [done |]. exists (ts ++ w'), w. split; [done |]. split; [by constructor | done].
  - intros [(v & w & -> & Hl & He) | H].
    + exists v, w. split; [done |]. split; [| done]. by apply (lang_many a l [] v).
    + destruct text as [| t text]; [done |]. destruct H as [Ht (v & w & -> & Hl & He)]. cbn in Hl.
      inversion Hl as [| | ? ? ts w' Hts Hw]; subst. exists (t :: ts ++ w'), w. split; [done |]. split; [| done].
      apply (lang_many a l (t :: ts) w'); [by apply Forall_cons | done].
Qed.

Lemma matchstar_ok c l e m text : (forall t, m t = true <-> prefix_in (l, e) t) ->
  matchstar c m text = true <-> prefix_in (Many (atom_of c) :: l, e) text.
Proof.
  intros Hm. induction text as [| t text IH]; rewrite prefix_many; cbn [matchstar].
  - destruct (m []) eqn:E; [by split; [left; apply Hm |] |]. split; [done |]. intros [H | []]. by rewrite <- E, (proj2 (Hm [])).
  - destruct (m (t :: text)) eqn:E; [by split; [left; apply Hm |] |].
    assert (Hn : ~ prefix_in (l, e) (t :: text)) by (rewrite <- Hm; congruence).
    destruct ((t =? c) || (c =? DOT)) eqn:Et.
    + apply atom_test in Et. rewrite <- IH. split; [intros H; right; by split | by intros [H | [_ H]]].
    + split; [done |]. intros [H | [H _]]; [done |]. apply atom_test in H. congruence.
Qed.

Lemma parse_two c d re : parse_items (c :: d :: re) =
  if d =? STAR then (Many (atom_of c) :: fst (parse_items re), snd (parse_items re))
  else (One (atom_of c) :: fst (parse_items (d :: re)), snd (parse_items (d :: re))).
Proof.
  change (parse_items (c :: d :: re)) with
    (if d =? STAR then let '(l, e) := parse_items re in (Many (atom_of c) :: l, e)
     else let '(l, e) := parse_items (d :: re) in (One (atom_of c) :: l, e)).
  by destruct (d =? STAR), (parse_items re), (parse_items (d :: re)).
Qed.
Lemma matchhere_two c d re text : matchhere (c :: d :: re) text =
  if d =? STAR then matchstar c (matchhere re) text else
  match text with t :: text' => if (c =? DOT) || (c =? t) then matchhere (d :: re) text' else false | [] => false end.
Proof. done. Qed.

Lemma matchhere_ok n re text : (length re <= n)%nat -> matchhere re text = true <-> prefix_in (parse_items re) text.
Proof.
  revert re text. induction n as [| n IH]; intros re text Hn.
  { destruct re; [| cbn in Hn; lia]. cbn. split; [| done]. intros _. exists [], text. split; [done |]. split; [constructor | done]. }
  destruct re as [| c [| d re]].
  - cbn. split; [| done]. intros _. exists [], text. split; [done |]. split; [constructor | done].
  - cbn [matchhere parse_items]. destruct (c =? DOLLAR).
    + rewrite bool_decide_eq_true. split.
      * intros ->. exists [], []. split; [done |]. split; [constructor | done].
      * intros (v & w & -> & Hl & He). cbn in Hl. inversion Hl; subst. by rewrite He.
    + rewrite prefix_one. destruct text as [| t text]; [done |]. rewrite <- (atom_test' c t).
      destruct ((c =? DOT) || (c =? t)); [| by split; [| intros [? _]]]. split; [| done]. intros _. split; [done |].
      exists [], text. split; [done |]. split; [constructor | done].
  - cbn [length] in Hn. rewrite matchhere_two, parse_two. destruct (d =? STAR).
    + apply matchstar_ok. intros t. rewrite <- surjective_pairing. apply IH. lia.
    + rewrite prefix_one. destruct text as [| t text]; [done |]. rewrite <- (atom_test' c t).
      destruct ((c =? DOT) || (c =? t)); [| by split; [| intros [? _]]].
      rewrite <- surjective_pairing, <- (IH (d :: re) text) by (cbn; lia). split; [done | by intros [_ ?]].
Qed.

Lemma match_loop_ok re text : match_loop re text = true <-> exists u t, text = u ++ t /\ matchhere re t = true.
Proof.
  induction text as [| c text IH]; cbn [match_loop].
  - destruct (matchhere re []) eqn:E; split; try done; [by exists [], [] |]. intros (u & t & H & Ht).
    symmetry in H. apply app_eq_nil in H as [-> ->]. congruence.
  - destruct (matchhere re (c :: text)) eqn:E; [split; [by exists [], (c :: text) | done] |]. rewrite IH. split.
    + intros (u & t & -> & Ht). by exists (c :: u), t.
    + intros (u & t & H & Ht). destruct u as [| x u]; [cbn in H; subst t; congruence |]. injection H as -> ->. by exists u, t.
Qed.

(** C10. The matcher of grep decides its patterns: [match] returns 1 exactly when
    the text contains a word of the language of the pattern, where [c*] is any
    number of [c], [.] is any character, a leading [^] and a trailing [$] tie the
    word to the start and the end of the text, and all else is literal. *)
Theorem match_decides_pattern (re text : list Z) : match_ re text = true <-> re_matches re text.
Proof.
  assert (Hin : forall p, (exists u t, text = u ++ t /\ prefix_in p t) <-> pattern_in false p text).
  { intros p. split.
    - intros (u & t & -> & v & w & -> & Hl & He). by exists u, v, w.
    - intros (u & v & w & -> & Hl & _ & He). exists u, (v ++ w). split; [done |]. by exists v, w. }
  assert (Hl : match_loop re text = true <-> pattern_in false (parse_items re) text).
  { rewrite match_loop_ok, <- Hin. split; intros (u & t & -> & H); exists u, t; split; try done; by eapply matchhere_ok. }
  unfold match_, re_matches. destruct re as [| c re]; [done |]. destruct (c =? CARET); [| done].
  rewrite (matchhere_ok (length re)) by done. split.
  - intros (v & w & -> & Hv & He). by exists [], v, w.
  - intros (u & v & w & -> & Hv & Hu & He). rewrite Hu by done. by exists v, w.
Qed.

(** ** The lines of a file *)

(** The lines that end in a newline, and what follows the last one. *)
Fixpoint split_nl (data : list Z) : list (list Z) * list Z :=
  match data with
  | [] => ([], [])
  | b :: data' =>
      let '(ls, t) := split_nl data' in
      if b =? NL then ([] :: ls, t)
      else match ls with l :: ls' => ((b :: l) :: ls', t) | [] => ([], b :: t) end
  end.
Definition printed (pattern : list Z) (ls : list (list Z)) : list Z :=
  concat (map (fun l => if match_ pattern l then l ++ [NL] else []) ls).
(** The lines of [data] that match. *)
Definition grep_spec (pattern data : list Z) : list Z := printed pattern (fst (split_nl data)).

Lemma split_nl_none data : NL ∉ data -> split_nl data = ([], data).
Proof.
  induction data as [| b data IH]; intros H; [done |]. apply not_elem_of_cons in H as [Hb H]. cbn. rewrite IH by done.
  by destruct (Z.eqb_spec b NL); [congruence |].
Qed.

Lemma split_nl_line l data : NL ∉ l -> split_nl (l ++ NL :: data) = (l :: fst (split_nl data), snd (split_nl data)).
Proof.
  induction l as [| b l IH]; intros H; cbn [app split_nl].
  - by destruct (split_nl data).
  - apply not_elem_of_cons in H as [Hb H]. rewrite IH by done. by destruct (Z.eqb_spec b NL); [congruence |].
Qed.

Lemma find_nl_ok p : Forall (fun b => b <> 0) p ->
  match find_nl p with
  | Some q => p = take q p ++ (NL :: drop (S q) p) /\ (NL ∉ take q p) /\ (q < length p)%nat
  | None => NL ∉ p
  end.
Proof.
  induction 1 as [| b p Hb Hp IH]; cbn [find_nl]; [apply not_elem_of_nil |].
  destruct (Z.eqb_spec b 0); [done |]. destruct (Z.eqb_spec b NL) as [-> | Hn].
  - cbn. split; [done |]. split; [apply not_elem_of_nil | lia].
  - destruct (find_nl p) as [q |]; cbn [fmap option_fmap option_map].
    + destruct IH as (H1 & H2 & H3). cbn [take drop firstn skipn length app]. split; [by rewrite <- H1 |]. split; [| lia].
      apply not_elem_of_cons. by split; [congruence |].
    + apply not_elem_of_cons. by split; [congruence |].
Qed.

Lemma grep_lines_ok fuel pattern p : Forall (fun b => b <> 0) p -> (length p < fuel)%nat ->
  grep_lines fuel pattern p = (grep_spec pattern p, snd (split_nl p)).
Proof.
  revert p. induction fuel as [| fuel IH]; intros p Hp Hf; [lia |]. cbn [grep_lines]. pose proof (find_nl_ok p Hp) as H.
  destruct (find_nl p) as [q |].
  - destruct H as (E & Hq & Hlt). rewrite IH; [| by apply Forall_drop | rewrite length_drop; lia].
    assert (Hs : split_nl p = (take q p :: fst (split_nl (drop (S q) p)), snd (split_nl (drop (S q) p))))
      by (rewrite E at 1; by apply split_nl_line).
    assert (Hnl : p !! q = Some NL).
    { rewrite E, lookup_app_r; rewrite length_take, Nat.min_l by lia; [by rewrite Nat.sub_diag | done]. }
    unfold grep_spec. rewrite Hs. cbn [fst snd]. unfold printed at 2. cbn [map concat].
    by rewrite (take_S_r _ _ _ Hnl).
  - unfold grep_spec. by rewrite split_nl_none.
Qed.

Lemma split_nl_app p q :
  fst (split_nl (p ++ q)) = fst (split_nl p) ++ fst (split_nl (snd (split_nl p) ++ q)) /\
  snd (split_nl (p ++ q)) = snd (split_nl (snd (split_nl p) ++ q)).
Proof.
  induction p as [| b p [IH1 IH2]]; [done |]. cbn [app split_nl].
  destruct (split_nl p) as [ls t] eqn:Ep. cbn [fst snd] in *. destruct (split_nl (p ++ q)) as [ls2 t2] eqn:E2. cbn [fst snd] in *. subst.
  destruct (Z.eqb_spec b NL) as [-> | Hb]; [done |]. destruct ls as [| l ls]; [| done]. cbn [app fst snd split_nl].
  destruct (split_nl (t ++ q)) as [ls3 t3]. cbn [fst snd]. destruct (Z.eqb_spec b NL); [done |]. by destruct ls3.
Qed.

Lemma grep_spec_app pattern p q : grep_spec pattern (p ++ q) = grep_spec pattern p ++ grep_spec pattern (snd (split_nl p) ++ q).
Proof. unfold grep_spec, printed. rewrite (proj1 (split_nl_app p q)), map_app, concat_app. done. Qed.

Lemma grep_spec_none pattern p : NL ∉ p -> grep_spec pattern p = [].
Proof. intros H. unfold grep_spec. by rewrite split_nl_none. Qed.

Lemma split_nl_tail p : (NL ∉ snd (split_nl p)) /\
  (length (snd (split_nl p)) <= length p)%nat /\ (length (snd (split_nl p)) = length p -> NL ∉ p).
Proof.
  induction p as [| b p (IH1 & IH2 & IH3)]; cbn [split_nl].
  { split; [apply not_elem_of_nil |]. split; [done |]. intros _. apply not_elem_of_nil. }
  destruct (split_nl p) as [ls t] eqn:E. cbn [fst snd length] in *. destruct (Z.eqb_spec b NL) as [-> | Hb]; cbn [fst snd].
  { split; [done |]. split; lia. }
  destruct ls as [| l ls]; cbn [fst snd length].
  - assert (Ht : t = p).
    { assert (H : forall d u, split_nl d = ([], u) -> u = d).
      { clear. induction d as [| c d IH]; intros u; cbn; [by intros [= <-] |]. destruct (split_nl d) as [ls v].
        destruct (c =? NL); [done |]. destruct ls; [| done]. intros [= <-]. f_equal. by apply IH. }
      by apply H. }
    subst t. split; [by apply not_elem_of_cons |]. split; [lia |]. intros _. by apply not_elem_of_cons.
  - split; [done |]. split; [lia |]. lia.
Qed.

Lemma split_nl_rest p : Forall (fun b => b <> 0) p -> Forall (fun b => b <> 0) (snd (split_nl p)).
Proof.
  induction 1 as [| b p Hb Hp IH]; cbn; [done |]. destruct (split_nl p) as [ls t]. cbn in *.
  destruct (b =? NL); [done |]. destruct ls; [by apply Forall_cons | done].
Qed.

(** Lines that fit in the buffer. *)
Definition short_lines (data : list Z) : Prop := Forall (fun l => (length l + 1 < BUFSZ)%nat) (fst (split_nl data)).

Lemma short_app p q : short_lines (p ++ q) -> short_lines (snd (split_nl p) ++ q).
Proof. unfold short_lines. rewrite (proj1 (split_nl_app p q)). by intros [_ ?]%Forall_app. Qed.

Lemma long_first p q : NL ∉ p -> (BUFSZ <= length p + 1)%nat -> short_lines (p ++ q) -> NL ∉ q.
Proof.
  intros Hp Hl Hs Hin. apply list_elem_of_split_l in Hin as (q1 & q2 & -> & Hq).
  unfold short_lines in Hs. rewrite app_assoc, split_nl_line in Hs by (by apply not_elem_of_app). cbn [fst] in Hs.
  apply Forall_cons in Hs as [Hs _]. rewrite length_app in Hs. lia.
Qed.

Lemma grep_loop_end fuel pattern buf : (0 < fuel)%nat -> grep_loop fuel pattern buf [] = Some [].
Proof. by destruct fuel; [lia |]. Qed.

(** A read of a file on disk: all of it, or as much as fits. *)
Lemma read_input max data : (0 < max)%nat -> exists bs data' fd, read_fd max [data] = (bs, fd) /\ data = bs ++ data' /\
  (bs = [] -> data = []) /\ (length bs <= max)%nat /\ ((fd = [data'] /\ length bs = max) \/ (fd = [] /\ data' = [])).
Proof.
  intros Hm. unfold read_fd. destruct (Nat.leb_spec (length data) max).
  - exists data, [], []. rewrite app_nil_r. split; [done |]. split; [done |]. split; [done |]. split; [done |]. by right.
  - exists (take max data), (drop max data), [drop max data]. rewrite take_drop. split; [done |]. split; [done |].
    assert (Hl : length (take max data) = max) by (rewrite length_take; lia). rewrite Hl. split; [| split; [done | by left]].
    intros E. rewrite E in Hl. cbn in Hl. lia.
Qed.

Lemma grep_loop_ok fuel pattern buf data : Forall (fun b => b <> 0) (buf ++ data) -> NL ∉ buf -> (length buf + 2 <= BUFSZ)%nat ->
  short_lines (buf ++ data) -> (length data < fuel)%nat ->
  grep_loop fuel pattern buf [data] = Some (grep_spec pattern (buf ++ data)).
Proof.
  revert buf data. induction fuel as [| fuel IH]; intros buf data Hz Hnl Hlen Hs Hf; [lia |].
  cbn [grep_loop]. destruct (read_input (BUFSZ - length buf - 1) data ltac:(lia)) as (bs & data' & fd & -> & -> & Hbs & Hmax & Hfd).
  destruct (decide (bs = [])) as [E | Hne].
  { rewrite bool_decide_true by done. specialize (Hbs E). rewrite Hbs, app_nil_r, grep_spec_none; done. }
  rewrite bool_decide_false by done. rewrite (app_assoc buf bs data') in *. set (b := buf ++ bs) in *.
  assert (Hlb : length b = (length buf + length bs)%nat) by apply length_app.
  apply Forall_app in Hz as [Hzb Hzd]. rewrite grep_lines_ok by (done || lia).
  destruct (split_nl_tail b) as (Ht1 & Ht2 & Ht3). pose proof (split_nl_rest b Hzb) as Hzr.
  set (rest := snd (split_nl b)) in *. rewrite length_app in Hf.
  assert (Hbs1 : (0 < length bs)%nat) by (destruct bs; [done | cbn; lia]).
  set (buf' := if bool_decide (length rest = length b) then [] else rest).
  assert (Hbuf' : (NL ∉ buf') /\ (length buf' + 2 <= BUFSZ)%nat /\ Forall (fun b => b <> 0) buf').
  { unfold buf'. destruct (decide (length rest = length b)) as [El | El].
    - rewrite bool_decide_true by done. split; [apply not_elem_of_nil |]. split; [cbn; unfold BUFSZ; lia | done].
    - rewrite bool_decide_false by done. split; [done |]. split; [lia | done]. }
  destruct Hbuf' as (Hb1 & Hb2 & Hb3).
  assert (Hstep : short_lines (buf' ++ data') /\ grep_spec pattern (b ++ data') = grep_spec pattern b ++ grep_spec pattern (buf' ++ data')).
  { unfold buf'. destruct (decide (length rest = length b)) as [El | El].
    - rewrite bool_decide_true by done. cbn [app]. specialize (Ht3 El).
      assert (Hnd : NL ∉ data').
      { destruct Hfd as [[_ Hfull] | [_ ->]]; [| apply not_elem_of_nil]. apply (long_first b); [done | lia | done]. }
      split; [unfold short_lines; by rewrite split_nl_none |].
      rewrite !grep_spec_none; [done | done | done | by apply not_elem_of_app].
    - rewrite bool_decide_false by done. split; [by apply short_app | apply grep_spec_app]. }
  destruct Hstep as [Hs' Hspec]. fold buf'. rewrite Hspec.
  destruct Hfd as [[-> _] | [-> ->]].
  - rewrite IH; [done | by apply Forall_app | done | done | done | lia].
  - rewrite grep_loop_end by lia. rewrite (app_nil_r buf'), (grep_spec_none pattern buf') by done. done.
Qed.

(** [grep] on a file whose lines fit in its buffer prints exactly the lines
    that match, each with its newline and in order, however the lines fall on
    the 1024-byte buffer; an unterminated last line is not printed.  One read
    per byte is enough to get there. *)
Theorem grep_prints_matching_lines (pattern data : list Z) (Hz : Forall (fun b => b <> 0) data) (Hs : short_lines data) :
  grep (S (length data)) pattern [data] = Some (grep_spec pattern data).
Proof. unfold grep. rewrite grep_loop_ok; try done; [apply not_elem_of_nil | cbn; unfold BUFSZ; lia | lia]. Qed.

(** The pattern [b.*d] on the lines ["abcd"] and ["xy"]. *)
Lemma grep_prints_matching_lines_witness :
  grep 9 [98; 46; 42; 100] [[97; 98; 99; 100; 10; 120; 121; 10]] = Some [97; 98; 99; 100; 10].
Proof.
  refine (eq_trans (grep_prints_matching_lines [98; 46; 42; 100] [97; 98; 99; 100; 10; 120; 121; 10] _ _) _).
  - repeat (apply Forall_cons; split; [lia |]). apply Forall_nil. exact I.
  - repeat (apply Forall_cons; split; [vm_compute; lia |]). apply Forall_nil. exact I.
  - vm_compute. reflexivity.
Defined.

(** A line that arrives in two reads, as from a pipe, loses its first part. *)
Lemma split_read_loses_line :
  grep 9 [97; 98] [[97; 98]; [99; 10]] = Some [] /\ grep_spec [97; 98] [97; 98; 99; 10] = [97; 98; 99; 10].
Proof. by vm_compute. Qed.
