(* ===== verification/Sh.v ===== *)
(** * Sh: project3/xv6-modified/sh.c, the parser of the shell

    A command line is the list [buf] of its characters without the terminator;
    a pointer into it is an offset, and [*es] is the terminator.  A command is a
    tree with offsets for its words, as the structures of the source have them.
    [malloc] is taken to succeed, as the source does not check it. *)

From Stdlib Require Import ZArith Lia.
From stdpp Require Import base numbers strings option list.
From S2P Require Import Prelude KString.

Definition MAXARGS : nat := 10.
(** [O_RDONLY] and [O_WRONLY|O_CREATE] *)
Definition mode_read : Z := 0.
Definition mode_write : Z := Z.lor 1 512.

Inductive cmd :=
| EXEC (argv : list (nat * nat))
| REDIR (c : cmd) (file efile : nat) (mode fd : Z)
| PIPE (left right : cmd)
| LIST (left right : cmd)
| BACK (c : cmd).

Definition whitespace : list Z := [32; 9; 13; 10; 11].
Definition symbols : list Z := [60; 124; 62; 38; 59; 40; 41].
Definition is_white (c : Z) : bool := bool_decide (c ∈ whitespace).
Definition is_symbol (c : Z) : bool := bool_decide (c ∈ symbols).
Definition is_word (c : Z) : bool := negb (is_white c) && negb (is_symbol c).

(** Tokens as [gettoken] returns them: 0, the symbol itself, ['+'] or ['a']. *)
Definition t_word : Z := 97.
Definition t_append : Z := 43.
Definition GT : Z := 62.
Definition LT : Z := 60.
Definition BAR : Z := 124.
Definition AMP : Z := 38.
Definition SEMI : Z := 59.
Definition LPAR : Z := 40.
Definition RPAR : Z := 41.

Section parser.
Variable buf : list Z.
Abbreviation P := (M nat).

Definition char_at (s : nat) : Z := nth s buf 0.

(** [while(s < es && f( *s )) s++] over the characters from [s]. *)
Fixpoint run_len (f : Z -> bool) (l : list Z) : nat :=
  match l with
  | c :: l' => if f c then S (run_len f l') else 0
  | [] => 0
  end.
Definition skip_while (f : Z -> bool) (s : nat) : nat := (s + run_len f (drop s buf))%nat.

(** [gettoken]: the token, and the offsets it stores at [q] and [eq]. *)
Definition gettoken : P (Z * nat * nat) := fun ps =>
  let q := skip_while is_white ps in
  let c := char_at q in
  let '(ret, s) :=
    if c =? 0 then (0, q)
    else if bool_decide (c ∈ [BAR; LPAR; RPAR; SEMI; AMP; LT]) then (c, S q)
    else if c =? GT then (if char_at (S q) =? GT then (t_append, S (S q)) else (c, S q))
    else (t_word, skip_while is_word q) in
  Ret (ret, q, s) (skip_while is_white s).

Definition peek (toks : list Z) : P bool := fun ps =>
  let s := skip_while is_white ps in
  Ret (negb (char_at s =? 0) && bool_decide (char_at s ∈ toks)) s.

(** The loop of [parseredirs]: the redirections in the order they wrap the command. *)
Fixpoint redirs_loop (fuel : nat) : P (list (nat * nat * Z * Z)) :=
  match fuel with
  | O => out_of_fuel
  | S fuel' =>
      b ← peek [LT; GT];
      if b : bool then
        t ← gettoken;
        w ← gettoken;
        let '(tok, q, eq) := w in
        if negb (tok =? t_word) then stop "missing file for redirection" else
        rs ← redirs_loop fuel';
        mret (if (fst (fst t) =? LT) then (q, eq, mode_read, 0) :: rs else (q, eq, mode_write, 1) :: rs)
      else mret []
  end.
Definition parseredirs : P (list (nat * nat * Z * Z)) := redirs_loop (S (length buf)).

(** [redircmd] for each redirection: the last one read is the outermost. *)
Definition wrap (rs : list (nat * nat * Z * Z)) (c : cmd) : cmd :=
  foldl (fun c '(q, eq, mode, fd) => REDIR c q eq mode fd) c rs.

(** The loop of [parseexec] with [argc] arguments read.  The source stores them
    in the command that the redirections already wrap. *)
Fixpoint exec_loop (fuel argc : nat) : P (list (nat * nat) * list (nat * nat * Z * Z)) :=
  match fuel with
  | O => out_of_fuel
  | S fuel' =>
      b ← peek [BAR; RPAR; AMP; SEMI];
      if b : bool then mret ([], []) else
      w ← gettoken;
      let '(tok, q, eq) := w in
      if tok =? 0 then mret ([], []) else
      if negb (tok =? t_word) then stop "syntax" else
      if (MAXARGS <=? S argc)%nat then stop "too many args" else
      rs ← parseredirs;
      r ← exec_loop fuel' (S argc);
      mret ((q, eq) :: fst r, rs ++ snd r)
  end.

(** [while(peek(ps, es, "&"))] of [parseline]. *)
Fixpoint backs_loop (fuel : nat) (c : cmd) : P cmd :=
  match fuel with
  | O => out_of_fuel
  | S fuel' =>
      b ← peek [AMP];
      if b : bool then gettoken;; backs_loop fuel' (BACK c) else mret c
  end.

Fixpoint parseline (fuel : nat) : P cmd :=
  match fuel with
  | O => out_of_fuel
  | S fuel' =>
      c ← parsepipe fuel';
      c ← backs_loop (S (length buf)) c;
      b ← peek [SEMI];
      if b : bool then gettoken;; r ← parseline fuel'; mret (LIST c r) else mret c
  end
with parsepipe (fuel : nat) : P cmd :=
  match fuel with
  | O => out_of_fuel
  | S fuel' =>
      c ← parseexec fuel';
      b ← peek [BAR];
      if b : bool then gettoken;; r ← parsepipe fuel'; mret (PIPE c r) else mret c
  end
with parseexec (fuel : nat) : P cmd :=
  match fuel with
  | O => out_of_fuel
  | S fuel' =>
      b ← peek [LPAR];
      if b : bool then parseblock fuel' else
      rs ← parseredirs;
      r ← exec_loop (S (length buf)) 0;
      mret (wrap (rs ++ snd r) (EXEC (fst r)))
  end
with parseblock (fuel : nat) : P cmd :=
  match fuel with
  | O => out_of_fuel
  | S fuel' =>
      b ← peek [LPAR];
      if negb b then stop "parseblock" else
      gettoken;;
      c ← parseline fuel';
      b ← peek [RPAR];
      if negb b then stop "syntax - missing )" else
      gettoken;;
      rs ← parseredirs;
      mret (wrap rs c)
  end.

Definition parsecmd (fuel : nat) : P cmd :=
  c ← parseline fuel;
  peek [];;
  s ← get;
  if negb (s =? length buf)%nat then stop "syntax" else mret c.
End parser.

(** [nulterminate] on the memory that holds the line and its terminator. *)
Fixpoint nulterminate (c : cmd) (m : mem) : mem :=
  match c with
  | EXEC argv => foldl (fun m w => <[snd w := 0]> m) m argv
  | REDIR c _ efile _ _ => <[efile := 0]> (nulterminate c m)
  | PIPE l r => nulterminate r (nulterminate l m)
  | LIST l r => nulterminate r (nulterminate l m)
  | BACK c => nulterminate c m
  end.

(** The words of a command: its arguments and file names. *)
Fixpoint words (c : cmd) : list (nat * nat) :=
  match c with
  | EXEC argv => argv
  | REDIR c file efile _ _ => words c ++ [(file, efile)]
  | PIPE l r => words l ++ words r
  | LIST l r => words l ++ words r
  | BACK c => words c
  end.

(** ** The parser ends, and its words are words *)

(** [m] returns with [Q], or the shell panics; it does not run out of fuel. *)
Definition okp {A : Type} (m : M nat A) (s : nat) (Q : A -> nat -> Prop) : Prop :=
  match m s with Ret a s' => Q a s' | Stop _ => True | _ => False end.

Lemma okp_bind {A B : Type} (m : M nat A) (k : A -> M nat B) s (R : A -> nat -> Prop) (Q : B -> nat -> Prop) :
  okp m s R -> (forall a s', R a s' -> okp (k a) s' Q) -> okp (m ≫= k) s Q.
Proof. unfold okp, mbind, M_bind. destruct (m s); try done. intros H Hk. by apply Hk. Qed.
Lemma okp_ret {A : Type} (a : A) s (Q : A -> nat -> Prop) : Q a s -> okp (mret a) s Q.
Proof. done. Qed.
Lemma okp_stop {A : Type} msg s (Q : A -> nat -> Prop) : okp (stop msg) s Q.
Proof. done. Qed.
Lemma okp_mono {A : Type} (m : M nat A) s (R Q : A -> nat -> Prop) : okp m s R -> (forall a s', R a s' -> Q a s') -> okp m s Q.
Proof. unfold okp. destruct (m s); auto. Qed.

Section proofs.
Variable buf : list Z.
Hypothesis Hbuf : Forall (fun c => c <> 0) buf.
Abbreviation len := (length buf).
Abbreviation char_at := (char_at buf).

Lemma run_len_ok f l : (run_len f l <= length l)%nat /\ (forall i, (i < run_len f l)%nat -> f (nth i l 0) = true) /\
  ((run_len f l < length l)%nat -> f (nth (run_len f l) l 0) = false).
Proof.
  induction l as [| c l (IH1 & IH2 & IH3)]; cbn [run_len]; [by split; [| split; intros; cbn in *; lia] |].
  destruct (f c) eqn:E; cbn [length]; [| split; [lia |]; split; [intros; lia | done]].
  split; [lia |]. split; [| intros; apply IH3; lia]. intros [| i] Hi; [done |]. apply IH2. lia.
Qed.

Lemma nth_drop_char s i : nth i (drop s buf) 0 = char_at (s + i).
Proof. unfold Sh.char_at. rewrite !nth_lookup. by rewrite lookup_drop. Qed.

Lemma skip_ok f s : (s <= len)%nat -> let s' := skip_while buf f s in
  (s <= s' <= len)%nat /\ (forall i, (s <= i < s')%nat -> f (char_at i) = true) /\ ((s' < len)%nat -> f (char_at s') = false).
Proof using.
  intros Hs s'. unfold s', skip_while. destruct (run_len_ok f (drop s buf)) as (H1 & H2 & H3). rewrite length_drop in *.
  split; [lia |]. split.
  - intros i Hi. replace i with (s + (i - s))%nat by lia. rewrite <- nth_drop_char. apply H2. lia.
  - intros Hlt. rewrite <- nth_drop_char. apply H3. lia.
Qed.

Lemma char_end : char_at len = 0.
Proof using. apply nth_overflow. lia. Qed.
Lemma char_in s : (s < len)%nat -> char_at s <> 0.
Proof. intros Hs. unfold Sh.char_at. rewrite nth_lookup. destruct (lookup_lt_is_Some_2 buf s Hs) as [c Hc]. rewrite Hc. by apply (Forall_lookup_1 _ _ _ _ Hbuf Hc). Qed.

(** A maximal run of word characters. *)
Definition word_at (w : nat * nat) : Prop :=
  (fst w < snd w <= len)%nat /\ (forall i, (fst w <= i < snd w)%nat -> is_word (char_at i) = true) /\
  ((snd w < len)%nat -> is_word (char_at (snd w)) = false).

Lemma skip_at f s : (s <= len)%nat -> f (char_at s) = false -> skip_while buf f s = s.
Proof.
  intros Hs Hf. destruct (skip_ok f s Hs) as (H1 & H2 & _). destruct (decide (skip_while buf f s = s)) as [-> |]; [done |].
  rewrite H2 in Hf by lia. done.
Qed.

Lemma gettoken_ok s : (s <= len)%nat -> okp (gettoken buf) s (fun r s' =>
  let '(tok, q, eq) := r in (s <= s' <= len)%nat /\ (tok = t_word -> word_at (q, eq)) /\ (tok <> 0 -> (s < s')%nat) /\
  (tok = 0 -> s' = len)).
Proof.
  intros Hs. unfold okp, gettoken. destruct (skip_ok is_white s Hs) as (Q1 & Q2 & Q3). set (q := skip_while buf is_white s) in *.
  destruct (decide (q = len)) as [Eq | Hq].
  { rewrite Eq, char_end. cbn [Z.eqb]. destruct (skip_ok is_white len ltac:(lia)) as (S1 & _). split; [lia |]. split; [done |]. split; [done |]. intros _. lia. }
  assert (Hlt : (q < len)%nat) by lia. specialize (Q3 Hlt). pose proof (char_in q Hlt) as Hc.
  destruct (Z.eqb_spec (char_at q) 0); [done |].
  case_bool_decide as Hsym.
  { destruct (skip_ok is_white (S q) ltac:(lia)) as (S1 & _). split; [lia |]. split; [| split; [lia | done]].
    intros E. rewrite E in Hsym. by vm_compute in Hsym; repeat (apply elem_of_cons in Hsym as [? | Hsym]; [done |]); apply elem_of_nil in Hsym. }
  destruct (Z.eqb_spec (char_at q) GT) as [Eg |].
  - destruct (Z.eqb_spec (char_at (S q)) GT) as [Eg2 |].
    + assert (S q < len)%nat by (destruct (decide (S q = len)) as [El |]; [rewrite El, char_end in Eg2; done | lia]).
      destruct (skip_ok is_white (S (S q)) ltac:(lia)) as (S1 & _). split; [lia |]. split; [done |]. split; [lia | done].
    + destruct (skip_ok is_white (S q) ltac:(lia)) as (S1 & _). split; [lia |]. split; [by rewrite Eg |]. split; [lia | done].
  - destruct (skip_ok is_word q ltac:(lia)) as (W1 & W2 & W3). set (e := skip_while buf is_word q) in *.
    assert (Hw : is_word (char_at q) = true).
    { unfold is_word. rewrite Q3. cbn [negb andb]. apply negb_true_iff. unfold is_symbol. apply bool_decide_eq_false.
      intros Hin. unfold symbols in Hin. rewrite !elem_of_cons, elem_of_nil in Hin. rewrite !elem_of_cons, elem_of_nil in Hsym. unfold BAR, LPAR, RPAR, SEMI, AMP, LT, GT in *. tauto. }
    assert (He : (q < e)%nat).
    { destruct (decide (e = q)) as [E |]; [| lia]. rewrite E in W3. rewrite W3 in Hw by lia. done. }
    destruct (skip_ok is_white e ltac:(lia)) as (S1 & _). split; [lia |]. split; [| split; [lia | done]].
    intros _. split; [cbn; lia |]. by split.
Qed.

Lemma peek_runs toks s : (s <= len)%nat -> okp (peek buf toks) s (fun b s' =>
  (s <= s' <= len)%nat /\ (b = true -> (s' < len)%nat /\ is_white (char_at s') = false)).
Proof.
  intros Hs. unfold okp, peek. destruct (skip_ok is_white s Hs) as (Q1 & Q2 & Q3). set (q := skip_while buf is_white s) in *.
  split; [done |]. destruct (Z.eqb_spec (char_at q) 0) as [E | E]; [done |]. intros _.
  assert (q < len)%nat by (destruct (decide (q = len)) as [El |]; [rewrite El, char_end in E; done | lia]). auto.
Qed.

(** After a [peek] that found something, [gettoken] takes it. *)
Lemma gettoken_next s : (s < len)%nat -> is_white (char_at s) = false -> okp (gettoken buf) s (fun r s' =>
  let '(tok, q, eq) := r in (s < s' <= len)%nat).
Proof.
  intros Hs Hw. eapply okp_mono; [apply gettoken_ok; lia |]. intros [[tok q] eq] s' (H1 & _ & H3 & H4).
  destruct (decide (tok = 0)) as [E |]; [rewrite (H4 E); lia | specialize (H3 ltac:(done)); lia].
Qed.

Abbreviation redir_ok := (fun r : nat * nat * Z * Z => word_at (fst (fst r)) /\ (snd r = 0 \/ snd r = 1)).

(** A command whose words are words of the line and whose redirections are of
    the standard input or output. *)
Fixpoint cmd_ok (c : cmd) : Prop :=
  match c with
  | EXEC argv => Forall word_at argv
  | REDIR c file efile _ fd => cmd_ok c /\ word_at (file, efile) /\ (fd = 0 \/ fd = 1)
  | PIPE l r | LIST l r => cmd_ok l /\ cmd_ok r
  | BACK c => cmd_ok c
  end.

Lemma cmd_ok_words c : cmd_ok c -> Forall word_at (words c).
Proof using.
  induction c as [argv | c IH q e mode fd | l IHl r IHr | l IHl r IHr | c IH]; cbn; auto.
  - intros (Hc & Hw & _). apply Forall_app. split; [auto |]. by apply Forall_singleton.
  - intros [Hl Hr]. apply Forall_app. auto.
  - intros [Hl Hr]. apply Forall_app. auto.
Qed.

Lemma redirs_ok fuel s : (s <= len)%nat -> (len - s < fuel)%nat ->
  okp (redirs_loop buf fuel) s (fun rs s' => (s <= s' <= len)%nat /\ Forall redir_ok rs).
Proof.
  revert s. induction fuel as [| fuel IH]; intros s Hs Hf; [lia |]. cbn [redirs_loop].
  eapply okp_bind; [by apply peek_runs |]. intros b s1 [H1 Hb]. destruct b; [| by apply okp_ret].
  destruct (Hb eq_refl) as [Hl Hw]. eapply okp_bind; [by apply gettoken_next |]. intros [[t q0] e0] s2 H2.
  eapply okp_bind; [apply gettoken_ok; lia |]. intros [[tok q] eq] s3 (H3 & Hword & _ & _).
  destruct (Z.eqb_spec tok t_word) as [E |]; [| apply okp_stop]. cbn [negb].
  eapply okp_bind; [apply IH; lia |]. intros rs s4 [H4 Hrs]. apply okp_ret. split; [lia |].
  destruct (_ =? LT); apply Forall_cons; (split; [| done]); (split; [by apply Hword | by (left + right)]).
Qed.

Lemma exec_ok fuel argc s : (s <= len)%nat -> (len - s < fuel)%nat ->
  okp (exec_loop buf fuel argc) s (fun r s' => (s <= s' <= len)%nat /\ Forall word_at (fst r) /\ Forall redir_ok (snd r)).
Proof.
  revert argc s. induction fuel as [| fuel IH]; intros argc s Hs Hf; [lia |]. cbn [exec_loop].
  eapply okp_bind; [by apply peek_runs |]. intros b s1 [H1 _]. destruct b; [by apply okp_ret |].
  eapply okp_bind; [apply gettoken_ok; lia |]. intros [[tok q] eq] s2 (H2 & Hword & Hlt & _).
  destruct (Z.eqb_spec tok 0); [apply okp_ret; split; [lia | done] |].
  destruct (Z.eqb_spec tok t_word) as [E |]; [| apply okp_stop]. cbn [negb]. specialize (Hlt ltac:(done)).
  destruct (MAXARGS <=? S argc)%nat; [apply okp_stop |].
  eapply okp_bind; [apply redirs_ok; lia |]. intros rs s3 [H3 Hrs].
  eapply okp_bind; [apply IH; lia |]. intros [ws rs'] s4 (H4 & Hws & Hrs'). apply okp_ret. split; [lia |]. cbn [fst snd].
  split; [apply Forall_cons; split; [by apply Hword | done] | by apply Forall_app].
Qed.

Lemma wrap_ok rs c : cmd_ok c -> Forall redir_ok rs -> cmd_ok (wrap rs c).
Proof.
  intros Hc Hrs. revert c Hc. induction Hrs as [| [[[q e] mode] fd] rs [Hr Hfd] Hrs IH]; intros c Hc; [done |]. cbn [wrap foldl].
  apply IH. by cbn.
Qed.

Lemma backs_ok fuel c s : (s <= len)%nat -> (len - s < fuel)%nat -> cmd_ok c ->
  okp (backs_loop buf fuel c) s (fun c' s' => (s <= s' <= len)%nat /\ cmd_ok c').
Proof.
  revert c s. induction fuel as [| fuel IH]; intros c s Hs Hf Hc; [lia |]. cbn [backs_loop].
  eapply okp_bind; [by apply peek_runs |]. intros b s1 [H1 Hb]. destruct b; [| by apply okp_ret].
  destruct (Hb eq_refl) as [Hl Hw]. eapply okp_bind; [by apply gettoken_next |]. intros [[t q0] e0] s2 H2.
  eapply okp_mono; [apply IH; [lia | lia | done] |]. intros c' s' [H3 H4]. split; [lia | done].
Qed.

Abbreviation good := (fun s (c : cmd) (s' : nat) => (s <= s' <= len)%nat /\ cmd_ok c).

Lemma parse_ok fuel : 
  (forall s, (s <= len)%nat -> (4 * (len - s) + 4 <= fuel)%nat -> okp (parseline buf fuel) s (good s)) /\
  (forall s, (s <= len)%nat -> (4 * (len - s) + 3 <= fuel)%nat -> okp (parsepipe buf fuel) s (good s)) /\
  (forall s, (s <= len)%nat -> (4 * (len - s) + 2 <= fuel)%nat -> okp (parseexec buf fuel) s (good s)) /\
  (forall s, (s <= len)%nat -> (4 * (len - s) + 1 <= fuel)%nat -> okp (parseblock buf fuel) s (good s)).
Proof.
  induction fuel as [| fuel (IHl & IHp & IHe & IHb)]; [split_and!; intros; lia |]. split_and!; intros s Hs Hf.
  - cbn [parseline]. eapply okp_bind; [apply IHp; lia |]. intros c s1 [H1 Hc].
    eapply okp_bind; [apply backs_ok; [lia | lia | done] |]. intros c2 s2 [H2 Hc2].
    eapply okp_bind; [apply peek_runs; lia |]. intros b s3 [H3 Hb]. destruct b; [| apply okp_ret; split; [lia | done]].
    destruct (Hb eq_refl) as [Hl Hw]. eapply okp_bind; [by apply gettoken_next |]. intros [[t q0] e0] s4 H4.
    eapply okp_bind; [apply IHl; lia |]. intros r s5 [H5 Hr]. apply okp_ret. split; [lia |]. by split.
  - cbn [parsepipe]. eapply okp_bind; [apply IHe; lia |]. intros c s1 [H1 Hc].
    eapply okp_bind; [apply peek_runs; lia |]. intros b s3 [H3 Hb]. destruct b; [| apply okp_ret; split; [lia | done]].
    destruct (Hb eq_refl) as [Hl Hw]. eapply okp_bind; [by apply gettoken_next |]. intros [[t q0] e0] s4 H4.
    eapply okp_bind; [apply IHp; lia |]. intros r s5 [H5 Hr]. apply okp_ret. split; [lia |]. by split.
  - cbn [parseexec]. eapply okp_bind; [apply peek_runs; lia |]. intros b s1 [H1 Hb]. destruct b.
    + destruct (Hb eq_refl). eapply okp_mono; [apply IHb; lia |]. intros c s' [H2 H3]. split; [lia | done].
    + eapply okp_bind; [apply redirs_ok; lia |]. intros rs s2 [H2 Hrs].
      eapply okp_bind; [apply exec_ok; lia |]. intros [ws rs'] s3 (H3 & Hws & Hrs'). apply okp_ret. split; [lia |].
      cbn [fst snd]. apply wrap_ok; [done | by apply Forall_app].
  - cbn [parseblock]. eapply okp_bind; [apply peek_runs; lia |]. intros b s1 [H1 Hb]. destruct b; [| apply okp_stop]. cbn [negb].
    destruct (Hb eq_refl) as [Hl Hw]. eapply okp_bind; [by apply gettoken_next |]. intros [[t q0] e0] s2 H2.
    eapply okp_bind; [apply IHl; lia |]. intros c s3 [H3 Hc].
    eapply okp_bind; [apply peek_runs; lia |]. intros b s4 [H4 Hb2]. destruct b; [| apply okp_stop]. cbn [negb].
    destruct (Hb2 eq_refl) as [Hl2 Hw2]. eapply okp_bind; [by apply gettoken_next |]. intros [[t2 q2] e2] s5 H5.
    eapply okp_bind; [apply redirs_ok; lia |]. intros rs s6 [H6 Hrs]. apply okp_ret. split; [lia |]. by apply wrap_ok.
Qed.

Lemma parsecmd_ok : okp (parsecmd buf (4 * len + 4)) 0 (fun c s => s = len /\ cmd_ok c).
Proof.
  unfold parsecmd. eapply okp_bind; [apply parse_ok; lia |]. intros c s1 [H1 Hc].
  eapply okp_bind; [apply peek_runs; lia |]. intros b s2 _. unfold okp. erewrite bind_ret by done.
  destruct (Nat.eqb_spec s2 len); [| done]. by split.
Qed.

(** ** NUL-termination *)
Lemma length_nul c (m : mem) : length (nulterminate c m) = length m.
Proof using.
  revert m. induction c as [argv | c IH q e mode fd | l IHl r IHr | l IHl r IHr | c IH]; intros m; cbn [nulterminate]; auto.
  - revert m. induction argv as [| w argv IH]; intros m; cbn; [done |]. rewrite IH. apply length_insert.
  - rewrite length_insert. apply IH.
  - by rewrite IHr, IHl.
  - by rewrite IHr, IHl.
Qed.

Lemma nul_args (argv : list (nat * nat)) (m : mem) i : (i < length m)%nat ->
  foldl (fun m w => <[snd w := 0]> m) m argv !! i = if decide (i ∈ argv.*2) then Some 0 else m !! i.
Proof using.
  revert m. induction argv as [| w argv IH]; intros m Hi; cbn [foldl fmap list_fmap].
  { by rewrite decide_False by apply not_elem_of_nil. }
  rewrite IH by by rewrite length_insert. destruct (decide (i ∈ argv.*2)) as [H | H].
  - by rewrite decide_True by (apply elem_of_cons; by right).
  - destruct (decide (i = snd w)) as [-> | Hne].
    + rewrite list_lookup_insert_eq by done. by rewrite decide_True by (apply elem_of_cons; by left).
    + rewrite list_lookup_insert_ne by done. rewrite decide_False; [done |]. by rewrite elem_of_cons; intros [? | ?].
Qed.

(** The line changes exactly at the ends of the words. *)
Lemma nul_lookup c (m : mem) i : (i < length m)%nat ->
  nulterminate c m !! i = if decide (i ∈ (words c).*2) then Some 0 else m !! i.
Proof using.
  assert (Happ : forall l1 l2 : list (nat * nat), forall x : option Z,
    (if decide (i ∈ l2.*2) then Some 0 else if decide (i ∈ l1.*2) then Some 0 else x) =
    (if decide (i ∈ (l1 ++ l2).*2) then Some 0 else x)).
  { intros l1 l2 x. destruct (decide (i ∈ (l1 ++ l2).*2)) as [H | H]; rewrite fmap_app, elem_of_app in H;
      destruct (decide (i ∈ l2.*2)), (decide (i ∈ l1.*2)); tauto. }
  revert m. induction c as [argv | c IH q e mode fd | l IHl r IHr | l IHl r IHr | c IH]; intros m Hi; cbn [nulterminate words].
  - by apply nul_args.
  - rewrite <- Happ. cbn [fmap list_fmap snd]. destruct (decide (i ∈ [e])) as [H | H].
    + apply list_elem_of_singleton in H as ->. apply list_lookup_insert_eq. by rewrite length_nul.
    + rewrite list_elem_of_singleton in H. rewrite list_lookup_insert_ne by done. by apply IH.
  - rewrite <- Happ. rewrite IHr by by rewrite length_nul. by rewrite IHl.
  - rewrite <- Happ. rewrite IHr by by rewrite length_nul. by rewrite IHl.
  - by apply IH.
Qed.

Lemma char_lookup i : (i < len)%nat -> (buf ++ [0]) !! i = Some (char_at i).
Proof.
  intros Hi. rewrite lookup_app_l by done. unfold Sh.char_at. rewrite nth_lookup.
  by destruct (lookup_lt_is_Some_2 buf i Hi) as [c ->].
Qed.

(** The end of a word is not inside another one. *)
Lemma words_apart w w' i : word_at w -> word_at w' -> (fst w <= i < snd w)%nat -> i <> snd w'.
Proof.
  intros (Hb & Hw & _) (_ & _ & He) Hi ->. specialize (Hw (snd w') Hi). rewrite He in Hw; [done | lia].
Qed.

Lemma word_string c w : Forall word_at (words c) -> w ∈ words c ->
  string_at (nulterminate c (buf ++ [0])) (fst w) (slice (fst w) (snd w - fst w) buf).
Proof.
  intros Hc Hin. pose proof (proj1 (Forall_forall _ _) Hc w Hin) as Hw. pose proof Hw as (Hb & Hch & _).
  assert (Hlm : length (buf ++ [0]) = S len) by (rewrite length_app; cbn; lia).
  assert (Hls : length (slice (fst w) (snd w - fst w) buf) = (snd w - fst w)%nat) by (apply length_slice; lia).
  split.
  - apply list_eq. intros k. rewrite Hls. unfold slice at 1. destruct (decide (k < S (snd w - fst w))%nat) as [Hk | Hk].
    2: { rewrite !lookup_ge_None_2; [done | rewrite length_app, Hls; change (length [0]) with 1%nat; lia |].
         rewrite length_take, length_drop, length_nul, Hlm. lia. }
    rewrite lookup_take_lt by done. rewrite lookup_drop, nul_lookup by (rewrite Hlm; lia). destruct (decide (k = snd w - fst w)%nat) as [-> | Hne].
    + rewrite decide_True.
      * rewrite lookup_app_r by lia. by rewrite Hls, Nat.sub_diag.
      * replace (fst w + (snd w - fst w))%nat with (snd w) by lia. by apply (list_elem_of_fmap_2 snd).
    + rewrite decide_False.
      * rewrite !lookup_app_l by lia. unfold slice. by rewrite lookup_take_lt, lookup_drop by lia.
      * intros (w' & E & Hw')%list_elem_of_fmap. apply (words_apart w w' (fst w + k)); [done | | lia | done].
        by apply (proj1 (Forall_forall _ _) Hc).
  - unfold slice. apply Forall_take, Forall_drop, Hbuf.
Qed.
End proofs.

(** The parser of the shell ends on every line, with a command or a panic,
    within a number of nested calls linear in the length of the line.  A command
    it returns covers the whole line, and after [nulterminate] each argument
    and each file name, read as a C string, is the run of characters it was
    parsed from, free of white space and of shell symbols. *)
Theorem shell_words (buf : list Z) (Hbuf : Forall (fun c => c <> 0) buf) :
  match parsecmd buf (4 * length buf + 4) 0%nat with
  | Ret c s => s = length buf /\
      forall w, w ∈ words c -> (fst w < snd w <= length buf)%nat /\
        let str := slice (fst w) (snd w - fst w) buf in
        string_at (nulterminate c (buf ++ [0])) (fst w) str /\ Forall (fun ch => is_word ch = true) str
  | Stop _ => True
  | _ => False
  end.
Proof.
  pose proof (parsecmd_ok buf Hbuf) as H. unfold okp in H. destruct (parsecmd buf (4 * length buf + 4) 0%nat) as [c s | | |]; try done.
  destruct H as [Hs Hc%cmd_ok_words]. split; [done |]. intros w Hw. pose proof (proj1 (Forall_forall _ _) Hc w Hw) as (Hb & Hch & _).
  split; [done |]. split; [by apply word_string |]. apply Forall_lookup. intros k ch. unfold slice.
  intros [Hl Hk]%lookup_take_Some. rewrite lookup_drop in Hl. specialize (Hch (fst w + k)%nat ltac:(lia)).
  unfold char_at in Hch. by rewrite (nth_lookup_Some _ _ _ _ Hl) in Hch.
Qed.

(** [echo hi>f] *)
Definition demo_line : list Z := [101; 99; 104; 111; 32; 104; 105; 62; 102].
Lemma shell_words_witness :
  parsecmd demo_line 40 0%nat = Ret (REDIR (EXEC [(0, 4); (5, 7)]) 8 9 mode_write 1)%nat 9%nat /\
  string_at (nulterminate (REDIR (EXEC [(0, 4); (5, 7)]) 8 9 mode_write 1)%nat (demo_line ++ [0])) 5 [104; 105].
Proof.
  split; [vm_compute; reflexivity |].
  assert (H : Forall (fun c => c <> 0) demo_line) by (repeat (apply Forall_cons; split; [lia |]); apply Forall_nil; exact I).
  pose proof (shell_words demo_line H) as Hs. 
  assert (E : parsecmd demo_line (4 * length demo_line + 4) 0%nat = Ret (REDIR (EXEC [(0, 4); (5, 7)]) 8 9 mode_write 1)%nat 9%nat)
    by (vm_compute; reflexivity).
  rewrite E in Hs. destruct Hs as [_ Hs]. destruct (Hs (5, 7)%nat) as (_ & Hstr & _); [| exact Hstr].
  cbn [words]. apply elem_of_app. left. right. left.
Defined.
