(* ===== verification/ShGrammar.v ===== *)
(** * ShGrammar: the grammar of the shell

    The concrete syntax that sh.c documents in its parsing functions, printed
    as a line with a space after every token, and the theorem that the parser
    of Sh.v reads each sentence of the grammar as the command it stands for. *)

From Stdlib Require Import ZArith Lia.
From stdpp Require Import base numbers strings option list.
From S2P Require Import Prelude KString Sh.

(** ** Syntax *)
Inductive line :=
| Line (p : pipeline) (bg : nat)
| Seq (p : pipeline) (bg : nat) (rest : line)
with pipeline :=
| Pipeline (e : simple)
| Bar (e : simple) (rest : pipeline)
with simple :=
| Simple (rs : list (list Z * bool)) (args : list (list Z * list (list Z * bool)))
| Block (l : line) (rs : list (list Z * bool)).

(** ** Printing, as tokens *)
Definition pr_redir (r : list Z * bool) : list (list Z) := [[if r.2 then GT else LT]; r.1].
Definition pr_redirs (rs : list (list Z * bool)) : list (list Z) := concat (map pr_redir rs).
Definition pr_args (args : list (list Z * list (list Z * bool))) : list (list Z) :=
  concat (map (fun a => a.1 :: pr_redirs a.2) args).
Fixpoint pr_line (l : line) : list (list Z) :=
  match l with
  | Line p bg => pr_pipe p ++ replicate bg [AMP]
  | Seq p bg rest => pr_pipe p ++ replicate bg [AMP] ++ [SEMI] :: pr_line rest
  end
with pr_pipe (p : pipeline) : list (list Z) :=
  match p with
  | Pipeline e => pr_simple e
  | Bar e rest => pr_simple e ++ [BAR] :: pr_pipe rest
  end
with pr_simple (e : simple) : list (list Z) :=
  match e with
  | Simple rs args => pr_redirs rs ++ pr_args args
  | Block l rs => [LPAR] :: pr_line l ++ [RPAR] :: pr_redirs rs
  end.
Definition render (toks : list (list Z)) : list Z := concat (map (fun t => t ++ [32]) toks).

(** ** Meaning: commands over words *)
Inductive tree :=
| T_EXEC (args : list (list Z))
| T_REDIR (c : tree) (file : list Z) (mode fd : Z)
| T_PIPE (l r : tree)
| T_LIST (l r : tree)
| T_BACK (c : tree).

Definition t_redir (c : tree) (r : list Z * bool) : tree :=
  if r.2 then T_REDIR c r.1 mode_write 1 else T_REDIR c r.1 mode_read 0.
Fixpoint mean_line (l : line) : tree :=
  match l with
  | Line p bg => Nat.iter bg T_BACK (mean_pipe p)
  | Seq p bg rest => T_LIST (Nat.iter bg T_BACK (mean_pipe p)) (mean_line rest)
  end
with mean_pipe (p : pipeline) : tree :=
  match p with
  | Pipeline e => mean_simple e
  | Bar e rest => T_PIPE (mean_simple e) (mean_pipe rest)
  end
with mean_simple (e : simple) : tree :=
  match e with
  | Simple rs args => foldl t_redir (T_EXEC (map fst args)) (rs ++ concat (map snd args))
  | Block l rs => foldl t_redir (mean_line l) rs
  end.

(** Words the lexer takes as one token, and no more arguments than fit. *)
Definition good_word (w : list Z) : bool := bool_decide (w <> []) && forallb (fun c => is_word c && negb (c =? 0)) w.
Definition good_redirs (rs : list (list Z * bool)) : bool := forallb (fun r => good_word r.1) rs.
Fixpoint good_line (l : line) : bool :=
  match l with
  | Line p bg => good_pipe p
  | Seq p bg rest => good_pipe p && good_line rest
  end
with good_pipe (p : pipeline) : bool :=
  match p with
  | Pipeline e => good_simple e
  | Bar e rest => good_simple e && good_pipe rest
  end
with good_simple (e : simple) : bool :=
  match e with
  | Simple rs args => good_redirs rs && forallb (fun a => good_word a.1 && good_redirs a.2) args && (length args <? MAXARGS)%nat
  | Block l rs => good_line l && good_redirs rs
  end.

(** The command over words that a command over offsets of [buf] stands for. *)
Definition word_of (buf : list Z) (w : nat * nat) : list Z := slice (fst w) (snd w - fst w) buf.
Fixpoint text (buf : list Z) (c : cmd) : tree :=
  match c with
  | EXEC argv => T_EXEC (map (word_of buf) argv)
  | REDIR c q e mode fd => T_REDIR (text buf c) (word_of buf (q, e)) mode fd
  | PIPE l r => T_PIPE (text buf l) (text buf r)
  | LIST l r => T_LIST (text buf l) (text buf r)
  | BACK c => T_BACK (text buf c)
  end.

(** ** The lexer on a printed line *)
Definition is_tok (t : list Z) : Prop :=
  good_word t = true \/ exists c, t = [c] /\ c ∈ symbols.
Definition code (t : list Z) : Z := if good_word t then t_word else nth 0 t 0.

Lemma good_word_inv w : good_word w = true -> w <> [] /\ Forall (fun c => is_word c = true /\ c <> 0) w.
Proof.
  unfold good_word. rewrite andb_true_iff, bool_decide_eq_true, forallb_forall. intros [H1 H2]. split; [done |].
  apply Forall_forall. intros c Hc%list_elem_of_In. specialize (H2 c Hc). apply andb_true_iff in H2 as [? ?%negb_true_iff].
  split; [done |]. by apply Z.eqb_neq.
Qed.

Lemma symbol_facts c : c ∈ symbols -> is_white c = false /\ is_symbol c = true /\ c <> 0 /\ is_word c = false /\ good_word [c] = false.
Proof.
  intros H. unfold symbols in H. rewrite !elem_of_cons, elem_of_nil in H.
  repeat (destruct H as [-> | H]; [by vm_compute |]). done.
Qed.

Lemma word_not_white c : is_word c = true -> is_white c = false.
Proof. unfold is_word. by destruct (is_white c). Qed.
Lemma word_not_symbol c : is_word c = true -> c ∉ symbols.
Proof. unfold is_word, is_symbol. intros H Hin. rewrite bool_decide_true in H by done. by rewrite andb_false_r in H. Qed.

Lemma tok_head t : is_tok t -> exists c t', t = c :: t' /\ is_white c = false /\ c <> 0.
Proof.
  intros [H | (c & -> & Hc)].
  - apply good_word_inv in H as [Hne Hf]. destruct t as [| c t]; [done |]. apply Forall_cons in Hf as [[Hw Hz] _].
    exists c, t. split; [done |]. split; [by apply word_not_white | done].
  - destruct (symbol_facts c Hc) as (H1 & _ & H2 & _). by exists c, [].
Qed.

Lemma run_len_all f (w rest : list Z) : Forall (fun c => f c = true) w ->
  run_len f (w ++ rest) = (length w + run_len f rest)%nat.
Proof. induction 1 as [| c w Hc Hw IH]; cbn; [done |]. rewrite Hc. by rewrite IH. Qed.

Section lexer.
Variable toks : list (list Z).
Hypothesis Htoks : Forall is_tok toks.
Definition lbuf : list Z := render toks.
Definition pos (k : nat) : nat := length (render (take k toks)).

Lemma render_app a b : render (a ++ b) = render a ++ render b.
Proof using. unfold render. by rewrite map_app, concat_app. Qed.

Lemma drop_pos k : drop (pos k) lbuf = render (drop k toks).
Proof using. unfold pos, lbuf. rewrite <- (take_drop k toks) at 2. by rewrite render_app, drop_app_length. Qed.

Lemma pos_S k t : toks !! k = Some t -> pos (S k) = (pos k + length t + 1)%nat.
Proof using. intros H. unfold pos. rewrite (take_S_r _ _ _ H), render_app, length_app. cbn. rewrite app_nil_r, length_app. cbn. lia. Qed.

Lemma pos_end k : (length toks <= k)%nat -> pos k = length lbuf.
Proof using. intros H. unfold pos. by rewrite take_ge. Qed.

Lemma drop_tok k t : toks !! k = Some t -> drop (pos k) lbuf = t ++ 32 :: render (drop (S k) toks).
Proof using. intros H. rewrite drop_pos, (drop_S _ _ _ H). cbn. by rewrite <- app_assoc. Qed.

Lemma white_stop k : run_len is_white (render (drop k toks)) = 0%nat.
Proof.
  destruct (toks !! k) as [t |] eqn:E; [| rewrite drop_ge; [done |]; by apply lookup_ge_None_1].
  destruct (tok_head t) as (c & t' & -> & Hw & _); [by apply (Forall_lookup_1 _ _ _ _ Htoks E) |].
  rewrite (drop_S _ _ _ E). cbn. by rewrite Hw.
Qed.

Lemma skip_white k : skip_while lbuf is_white (pos k) = pos k.
Proof. unfold skip_while. rewrite drop_pos, white_stop. lia. Qed.

Lemma char_pos k i : char_at lbuf (pos k + i) = nth i (render (drop k toks)) 0.
Proof using. rewrite <- drop_pos. unfold char_at. rewrite !nth_lookup. by rewrite lookup_drop. Qed.

Lemma skip_space k t : toks !! k = Some t -> skip_while lbuf is_white (pos k + length t) = pos (S k).
Proof.
  intros E. unfold skip_while. rewrite <- drop_drop, (drop_tok k t E), drop_app_length. cbn [run_len].
  change (is_white 32) with true. cbv iota. rewrite white_stop, (pos_S k t E). lia.
Qed.

Lemma gettoken_tok k t : toks !! k = Some t ->
  gettoken lbuf (pos k) = Ret (code t, pos k, (pos k + length t)%nat) (pos (S k)).
Proof.
  intros E. assert (Ht : is_tok t) by (by apply (Forall_lookup_1 _ _ _ _ Htoks E)).
  assert (Hc0 : char_at lbuf (pos k) = nth 0 (t ++ 32 :: render (drop (S k) toks)) 0)
    by (rewrite <- (Nat.add_0_r (pos k)), char_pos, <- drop_pos; by rewrite (drop_tok k t E)).
  assert (Hc1 : char_at lbuf (S (pos k)) = nth 1 (t ++ 32 :: render (drop (S k) toks)) 0)
    by (replace (S (pos k)) with (pos k + 1)%nat by lia; rewrite char_pos, <- drop_pos; by rewrite (drop_tok k t E)).
  unfold gettoken. rewrite skip_white, Hc0, Hc1. clear Hc0 Hc1. pose proof (skip_space k t E) as Hsp. destruct Ht as [Hw | (c & -> & Hc)].
  - pose proof (good_word_inv t Hw) as [Hne Hf]. destruct t as [| c t]; [done |]. cbn [nth app].
    apply Forall_cons in Hf as [[Hcw Hcz] Hft]. rewrite (proj2 (Z.eqb_neq _ _) Hcz).
    pose proof (word_not_symbol c Hcw) as Hns. unfold symbols in Hns. rewrite !not_elem_of_cons in Hns.
    rewrite bool_decide_false.
    2: { intros Hin. rewrite !elem_of_cons, elem_of_nil in Hin. unfold BAR, LPAR, RPAR, SEMI, AMP, LT in *. tauto. }
    rewrite (proj2 (Z.eqb_neq c GT)) by (unfold GT; tauto).
    assert (Hsk : skip_while lbuf is_word (pos k) = (pos k + length (c :: t))%nat).
    { unfold skip_while. rewrite (drop_tok _ _ E), run_len_all; [cbn [run_len length]; change (is_word 32) with false; cbv iota; lia |].
      apply Forall_cons. split; [done |]. eapply Forall_impl; [exact Hft |]. by intros ? [? _]. }
    rewrite Hsk, Hsp. unfold code. by rewrite Hw.
  - destruct (symbol_facts c Hc) as (_ & _ & Hz & _ & Hg). cbn [nth app]. rewrite (proj2 (Z.eqb_neq _ _) Hz).
    unfold code. rewrite Hg. cbn [nth length] in *. replace (S (pos k)) with (pos k + 1)%nat by lia.
    unfold symbols in Hc. rewrite !elem_of_cons, elem_of_nil in Hc. destruct (decide (c = GT)) as [-> | Hgt].
    + change (bool_decide (GT ∈ [BAR; LPAR; RPAR; SEMI; AMP; LT])) with false. rewrite Z.eqb_refl.
      change (32 =? GT) with false. cbv beta iota zeta. by rewrite Hsp.
    + rewrite bool_decide_true; [cbv beta iota zeta; by rewrite Hsp |]. rewrite !elem_of_cons, elem_of_nil. unfold BAR, LPAR, RPAR, SEMI, AMP, LT, GT in *. tauto.
Qed.

Lemma gettoken_end k : (length toks <= k)%nat -> gettoken lbuf (pos k) = Ret (0, pos k, pos k) (pos k).
Proof.
  intros H. unfold gettoken. rewrite skip_white. unfold char_at. rewrite nth_overflow by (rewrite pos_end by done; lia).
  cbn [Z.eqb]. by rewrite skip_white.
Qed.

(** The first character of the next token. *)
Definition ahead (k : nat) : Z := match toks !! k with Some t => nth 0 t 0 | None => 0 end.

Lemma peek_tok set k : 0 ∉ set -> peek lbuf set (pos k) = Ret (bool_decide (ahead k ∈ set)) (pos k).
Proof.
  intros H0. unfold peek, ahead. rewrite skip_white. f_equal. destruct (toks !! k) as [t |] eqn:E.
  - rewrite <- (Nat.add_0_r (pos k)), char_pos, (drop_S _ _ _ E).
    destruct (tok_head t) as (c & t' & -> & _ & Hz); [by apply (Forall_lookup_1 _ _ _ _ Htoks E) |]. cbn [nth render map concat app].
    by rewrite (proj2 (Z.eqb_neq _ _) Hz).
  - unfold char_at. rewrite nth_overflow; [by rewrite bool_decide_false |]. rewrite pos_end; [lia |]. by apply lookup_ge_None_1.
Qed.

Lemma word_pos k t : toks !! k = Some t -> word_of lbuf (pos k, (pos k + length t)%nat) = t.
Proof using.
  intros E. unfold word_of, slice. cbn [fst snd]. rewrite (drop_tok _ _ E). replace (pos k + length t - pos k)%nat with (length t) by lia.
  apply take_app_length.
Qed.

(** ** The parser on a printed line *)
Lemma length_render ts : (length ts <= length (render ts))%nat.
Proof using. induction ts as [| t ts IH]; cbn; [lia |]. rewrite length_app, length_app. cbn. unfold render in IH. lia. Qed.

Lemma reads_app k (xs ys : list (list Z)) : drop k toks = xs ++ ys -> drop (k + length xs) toks = ys.
Proof using. intros H. rewrite <- drop_drop, H. apply drop_app_length. Qed.
Lemma reads_cons k t (ys : list (list Z)) : drop k toks = t :: ys -> toks !! k = Some t /\ drop (S k) toks = ys.
Proof using.
  intros H. split; [rewrite <- (Nat.add_0_r k), <- lookup_drop, H; done |].
  replace (S k) with (k + 1)%nat by lia. by rewrite <- drop_drop, H.
Qed.
Lemma reads_lt k t (ys : list (list Z)) : drop k toks = t :: ys -> (k < length toks)%nat.
Proof using. intros [H _]%reads_cons. by eapply lookup_lt_Some. Qed.

(** The first character of what is left, 0 at the end. *)
Definition hd_char (rest : list (list Z)) : Z := match rest with t :: _ => nth 0 t 0 | [] => 0 end.
Lemma ahead_reads k rest : drop k toks = rest -> ahead k = hd_char rest.
Proof using.
  intros <-. unfold ahead, hd_char. destruct (toks !! k) as [t |] eqn:E.
  - by rewrite (drop_S _ _ _ E).
  - by rewrite drop_ge by by apply lookup_ge_None_1.
Qed.

Lemma word_head w : good_word w = true -> nth 0 w 0 ∉ 0 :: symbols.
Proof using.
  intros [Hne Hf]%good_word_inv. destruct w as [| c w]; [done |]. apply Forall_cons in Hf as [[Hw Hz] _]. cbn.
  apply not_elem_of_cons. split; [done | by apply word_not_symbol].
Qed.

Lemma peek_reads set k rest : bool_decide (0 ∈ set) = false -> drop k toks = rest ->
  peek lbuf set (pos k) = Ret (bool_decide (hd_char rest ∈ set)) (pos k).
Proof. intros H0%bool_decide_eq_false H. rewrite peek_tok by done. by rewrite (ahead_reads k rest H). Qed.

(** A redirection over offsets and one over words. *)
Definition redir_rel (r' : nat * nat * Z * Z) (r : list Z * bool) : Prop :=
  let '(q, e, mode, fd) := r' in
  word_of lbuf (q, e) = r.1 /\ (mode, fd) = if r.2 then (mode_write, 1) else (mode_read, 0).

Lemma text_wrap rs' rs c : Forall2 redir_rel rs' rs -> text lbuf (wrap rs' c) = foldl t_redir (text lbuf c) rs.
Proof using.
  intros H. revert c. induction H as [| [[[q e] mode] fd] [w out] rs' rs [Hw Hm] H IH]; intros c; [done |].
  cbn [wrap foldl] in *. unfold wrap in IH. rewrite IH. f_equal. cbn [text]. rewrite Hw. unfold t_redir. cbn [fst snd] in *.
  destruct out; by injection Hm as -> ->.
Qed.

Lemma redirs_parse fuel k rs rest : drop k toks = pr_redirs rs ++ rest -> good_redirs rs = true ->
  hd_char rest ∉ [LT; GT] -> (length rs < fuel)%nat ->
  exists rs', redirs_loop lbuf fuel (pos k) = Ret rs' (pos (k + length (pr_redirs rs))) /\ Forall2 redir_rel rs' rs.
Proof.
  revert k rs. induction fuel as [| fuel IH]; intros k rs Hk Hg Hr Hf; [lia |]. cbn [redirs_loop].
  erewrite bind_ret by (eapply peek_reads; [reflexivity | exact Hk]).
  destruct rs as [| [w out] rs].
  - cbn [pr_redirs map concat app length]. rewrite bool_decide_false by done. rewrite Nat.add_0_r. by exists [].
  - cbn [good_redirs forallb fst] in Hg. apply andb_true_iff in Hg as [Hw Hg].
    change (pr_redirs ((w, out) :: rs) ++ rest) with ([if out then GT else LT] :: w :: (pr_redirs rs ++ rest)) in Hk.
    apply reads_cons in Hk as [E1 Hk]. apply reads_cons in Hk as [E2 Hk].
    rewrite bool_decide_true by (destruct out; cbn; rewrite !elem_of_cons; tauto). cbv iota.
    erewrite bind_ret by by apply gettoken_tok. erewrite bind_ret by by apply gettoken_tok.
    unfold code at 1. rewrite Hw. rewrite Z.eqb_refl. cbn [negb].
    destruct (IH (S (S k)) rs Hk Hg Hr) as (rs' & E & Hrel); [cbn in Hf; lia |].
    erewrite bind_ret by exact E. cbn [fst].
    assert (Hlen : (S (S k) + length (pr_redirs rs) = k + length (pr_redirs ((w, out) :: rs)))%nat)
      by (change (length (pr_redirs ((w, out) :: rs))) with (S (S (length (pr_redirs rs)))); lia).
    rewrite Hlen. eexists. split; [done |].
    destruct out; (constructor; [split; [by apply word_pos | done] | done]).
Qed.

Lemma length_pr_redirs rs : length (pr_redirs rs) = (2 * length rs)%nat.
Proof using. induction rs as [| r rs IH]; [done |]. change (length (pr_redirs (r :: rs))) with (S (S (length (pr_redirs rs)))). cbn. lia. Qed.

(** With the fuel the parser gives its loops. *)
Lemma reads_len k (xs rest : list (list Z)) : drop k toks = xs ++ rest -> (length xs <= length lbuf)%nat.
Proof using.
  intros H. pose proof (length_render toks). apply (f_equal length) in H. rewrite length_drop, length_app in H. unfold lbuf. lia.
Qed.
Lemma parseredirs_ok k rs rest : drop k toks = pr_redirs rs ++ rest -> good_redirs rs = true -> hd_char rest ∉ [LT; GT] ->
  exists rs', parseredirs lbuf (pos k) = Ret rs' (pos (k + length (pr_redirs rs))) /\ Forall2 redir_rel rs' rs.
Proof.
  intros Hk Hg Hr. apply redirs_parse with (rest := rest); try done.
  pose proof (reads_len k _ _ Hk). rewrite length_pr_redirs in *. lia.
Qed.

Lemma exec_parse fuel argc k args rest : drop k toks = pr_args args ++ rest ->
  forallb (fun a => good_word a.1 && good_redirs a.2) args = true -> hd_char rest ∈ [0; BAR; RPAR; AMP; SEMI] ->
  (argc + length args < MAXARGS)%nat -> (length args < fuel)%nat ->
  exists ws rs', exec_loop lbuf fuel argc (pos k) = Ret (ws, rs') (pos (k + length (pr_args args))) /\
    map (word_of lbuf) ws = map fst args /\ Forall2 redir_rel rs' (concat (map snd args)).
Proof.
  revert argc k args. induction fuel as [| fuel IH]; intros argc k args Hk Hg Hr Hn Hf; [lia |]. cbn [exec_loop].
  erewrite bind_ret by (eapply peek_reads; [reflexivity | exact Hk]).
  destruct args as [| [w rs] args].
  - cbn [pr_args map concat app length]. rewrite Nat.add_0_r. exists [], []. split; [| done].
    rewrite elem_of_cons in Hr. destruct Hr as [Hr | Hr]; [| by rewrite bool_decide_true].
    rewrite Hr. change (bool_decide (0 ∈ [BAR; RPAR; AMP; SEMI])) with false. cbv iota. cbn [pr_args map concat app] in Hk.
    assert (Hend : (length toks <= k)%nat).
    { destruct (decide (length toks <= k)%nat); [done |]. destruct (lookup_lt_is_Some_2 toks k ltac:(lia)) as [t Ht].
      rewrite (drop_S _ _ _ Ht) in Hk. subst rest. destruct (tok_head t) as (c & t' & -> & _ & Hc);
        [by apply (Forall_lookup_1 _ _ _ _ Htoks Ht) | done]. }
    by erewrite bind_ret by by apply gettoken_end.
  - cbn [forallb fst snd] in Hg. apply andb_true_iff in Hg as [Hg1 Hg]. apply andb_true_iff in Hg1 as [Hw Hgr].
    assert (Hpr : pr_args ((w, rs) :: args) = w :: pr_redirs rs ++ pr_args args) by done. rewrite Hpr in *.
    rewrite <- app_comm_cons, <- app_assoc in Hk. pose proof (word_head w Hw) as Hwh.
    assert (Hns : nth 0 w 0 ∉ [BAR; RPAR; AMP; SEMI]).
    { intros Hin. apply Hwh. right. unfold symbols. rewrite !elem_of_cons, ?elem_of_nil. rewrite !elem_of_cons, ?elem_of_nil in Hin. unfold BAR, RPAR, AMP, SEMI in *. tauto. }
    cbn [app hd_char]. rewrite bool_decide_false by done. cbv iota.
    apply reads_cons in Hk as [E1 Hk]. erewrite bind_ret by by apply gettoken_tok. unfold code. rewrite Hw. cbn [Z.eqb t_word Pos.eqb negb].
    cbn [length] in Hn. destruct (Nat.leb_spec MAXARGS (S argc)); [lia |].
    destruct (parseredirs_ok (S k) rs (pr_args args ++ rest) Hk Hgr) as (rs1 & E2 & Hrel1).
    { destruct args as [| [w2 rs2] args2].
      - cbn [pr_args map concat app]. intros Hin. rewrite !elem_of_cons, ?elem_of_nil in Hr. rewrite !elem_of_cons, ?elem_of_nil in Hin.
        unfold BAR, RPAR, AMP, SEMI, LT, GT in *. destruct Hin as [E | [E | []]]; rewrite E in Hr; intuition discriminate.
      - cbn [forallb fst snd] in Hg. apply andb_true_iff in Hg as [Hg1 _]. apply andb_true_iff in Hg1 as [Hw2 _].
        pose proof (word_head w2 Hw2) as Hwh2. change (hd_char (pr_args ((w2, rs2) :: args2) ++ rest)) with (nth 0 w2 0).
        intros Hin. apply Hwh2. right. unfold symbols. rewrite !elem_of_cons, ?elem_of_nil. rewrite !elem_of_cons, ?elem_of_nil in Hin. unfold LT, GT in *. tauto. }
    erewrite bind_ret by exact E2. apply reads_app in Hk.
    destruct (IH (S argc) (S k + length (pr_redirs rs))%nat args Hk Hg Hr) as (ws & rs2 & E3 & Hws & Hrel2); [lia | cbn in Hf; lia |].
    erewrite bind_ret by exact E3. cbn [fst snd]. exists ((pos k, (pos k + length w)%nat) :: ws), (rs1 ++ rs2). split_and!.
    + f_equal. f_equal. cbn [length]. rewrite length_app. lia.
    + cbn [map fst]. by rewrite (word_pos k w E1), Hws.
    + cbn [map concat snd]. by apply Forall2_app.
Qed.

Lemma backs_parse fuel k bg c rest : drop k toks = replicate bg [AMP] ++ rest -> hd_char rest <> AMP -> (bg < fuel)%nat ->
  backs_loop lbuf fuel c (pos k) = Ret (Nat.iter bg BACK c) (pos (k + bg)).
Proof.
  revert k bg c. induction fuel as [| fuel IH]; intros k bg c Hk Hr Hf; [lia |]. cbn [backs_loop].
  erewrite bind_ret by (eapply peek_reads; [reflexivity | exact Hk]). destruct bg as [| bg].
  - cbn [replicate app]. rewrite bool_decide_false by (by rewrite list_elem_of_singleton). by rewrite Nat.add_0_r.
  - cbn [replicate app hd_char nth]. rewrite bool_decide_true by by left. cbv iota.
    change (replicate (S bg) [AMP] ++ rest) with ([AMP] :: (replicate bg [AMP] ++ rest)) in Hk. apply reads_cons in Hk as [E1 Hk].
    erewrite bind_ret by by apply gettoken_tok. rewrite (IH (S k) bg (BACK c) Hk Hr) by lia.
    rewrite <- Nat.iter_succ_r. do 2 f_equal. lia.
Qed.

(** What may follow each part. *)
Definition after_simple : list Z := [0; BAR; RPAR; AMP; SEMI].
Definition after_pipe : list Z := [0; RPAR; AMP; SEMI].
Definition after_line : list Z := [0; RPAR].

Lemma follow_no x F (G : list Z) : x ∈ F -> forallb (fun c => negb (bool_decide (c ∈ G))) F = true -> bool_decide (x ∈ G) = false.
Proof using. intros Hx Hall. rewrite forallb_forall in Hall. apply negb_true_iff, Hall. by apply list_elem_of_In. Qed.
Lemma follow_not x F (G : list Z) : x ∈ F -> forallb (fun c => negb (bool_decide (c ∈ G))) F = true -> x ∉ G.
Proof using. intros Hx Hall. apply (bool_decide_eq_false_1 _ (follow_no x F G Hx Hall)). Qed.
Lemma follow_sub x F (G : list Z) : x ∈ F -> forallb (fun c => bool_decide (c ∈ G)) F = true -> x ∈ G.
Proof using. intros Hx Hall. rewrite forallb_forall in Hall. apply (bool_decide_eq_true_1 _ (Hall x (proj1 (list_elem_of_In _ _) Hx))). Qed.

Lemma hd_redirs rs rest F : hd_char rest ∈ F -> hd_char (pr_redirs rs ++ rest) ∈ LT :: GT :: F.
Proof using. destruct rs as [| [w []] rs]; intros H; [by do 2 right | right; by left | by left]. Qed.

Lemma hd_simple rs args rest : forallb (fun a => good_word a.1 && good_redirs a.2) args = true -> hd_char rest ∈ after_simple ->
  hd_char (pr_redirs rs ++ pr_args args ++ rest) <> LPAR.
Proof using.
  intros Hg Hr E. destruct rs as [| [w []] rs]; [| done..]. destruct args as [| [w rs] args].
  - cbn [pr_redirs pr_args map concat app] in E. rewrite E in Hr. apply (follow_not _ _ [LPAR] Hr eq_refl). by left.
  - cbn [forallb fst snd] in Hg. apply andb_true_iff in Hg as [Hg _]. apply andb_true_iff in Hg as [Hw _].
    apply (word_head w Hw). change (nth 0 w 0 = LPAR) in E. rewrite E. right. unfold symbols, LPAR. rewrite !elem_of_cons. tauto.
Qed.

Lemma after_args args rest : forallb (fun a => good_word a.1 && good_redirs a.2) args = true -> hd_char rest ∈ after_simple ->
  hd_char (pr_args args ++ rest) ∉ [LT; GT].
Proof using.
  intros Hg Hr. destruct args as [| [w rs'] args].
  - by eapply follow_not.
  - cbn [forallb fst snd] in Hg. apply andb_true_iff in Hg as [Hg _]. apply andb_true_iff in Hg as [Hw _].
    pose proof (word_head w Hw) as Hwh. change (hd_char (pr_args ((w, rs') :: args) ++ rest)) with (nth 0 w 0).
    intros Hin. apply Hwh. right. unfold symbols. rewrite !elem_of_cons, ?elem_of_nil. rewrite !elem_of_cons, ?elem_of_nil in Hin. unfold LT, GT in *. tauto.
Qed.

(** What the parser does on [xs] at token [k]: it reads it as [t]. *)
Definition parses (m : M nat cmd) (k : nat) (xs : list (list Z)) (t : tree) : Prop :=
  exists c, m (pos k) = Ret c (pos (k + length xs)) /\ text lbuf c = t.

Lemma length_pr_args args : (length args <= length (pr_args args))%nat.
Proof using. induction args as [| a args IH]; cbn; [lia |]. rewrite length_app. unfold pr_args in IH. lia. Qed.

Lemma simple_parse rs args k rest : drop k toks = pr_simple (Simple rs args) ++ rest -> good_simple (Simple rs args) = true ->
  hd_char rest ∈ after_simple ->
  parses (rs ← parseredirs lbuf; r ← exec_loop lbuf (S (length lbuf)) 0; mret (wrap (rs ++ snd r) (EXEC (fst r))))
    k (pr_simple (Simple rs args)) (mean_simple (Simple rs args)).
Proof.
  cbn [pr_simple good_simple mean_simple]. intros Hk Hg Hr. apply andb_true_iff in Hg as [Hg Hn]. apply andb_true_iff in Hg as [Hgr Hga].
  apply Nat.ltb_lt in Hn. rewrite <- app_assoc in Hk.
  destruct (parseredirs_ok k rs (pr_args args ++ rest) Hk Hgr) as (rs1 & E1 & Hrel1); [by eapply after_args |].
  apply reads_app in Hk.
  destruct (exec_parse (S (length lbuf)) 0 (k + length (pr_redirs rs)) args rest Hk Hga) as (ws & rs2 & E2 & Hws & Hrel2); [done | done | |].
  { pose proof (reads_len _ _ _ Hk). pose proof (length_pr_args args). lia. }
  eexists. split.
  - erewrite bind_ret by exact E1. erewrite bind_ret by exact E2. cbn [fst snd]. rewrite length_app, Nat.add_assoc. reflexivity.
  - rewrite (text_wrap _ (rs ++ concat (map snd args))) by by apply Forall2_app. cbn [text]. by rewrite Hws.
Qed.

Lemma iter_text bg c : text lbuf (Nat.iter bg BACK c) = Nat.iter bg T_BACK (text lbuf c).
Proof using. induction bg as [| bg IH]; [done |]. rewrite !Nat.iter_succ. cbn [text]. by rewrite IH. Qed.

(** What follows the printed ampersands of a pipeline. *)
Lemma hd_backs bg rest : hd_char rest ∈ SEMI :: after_line -> hd_char (replicate bg [AMP] ++ rest) ∈ after_pipe.
Proof using. destruct bg as [| bg]; intros H; [by eapply follow_sub | by do 2 right; left]. Qed.

(** A line with what follows its first pipeline split off. *)
Definition line_head (l : line) : pipeline * nat := match l with Line p bg | Seq p bg _ => (p, bg) end.
Definition line_tail (l : line) : list (list Z) := match l with Line _ _ => [] | Seq _ _ r => [SEMI] :: pr_line r end.
Lemma pr_line_split l : pr_line l = pr_pipe (line_head l).1 ++ replicate (line_head l).2 [AMP] ++ line_tail l.
Proof using. destruct l; cbn; by rewrite ?app_nil_r. Qed.
Lemma hd_tail l rest : hd_char rest ∈ after_line -> hd_char (line_tail l ++ rest) ∈ SEMI :: after_line.
Proof using. destruct l; intros H; [by right | by left]. Qed.

(** The four parsing functions, on sentences of the four syntactic classes. *)
Definition line_ok (fuel : nat) : Prop := forall l k rest, drop k toks = pr_line l ++ rest -> good_line l = true ->
  hd_char rest ∈ after_line -> (4 * (length toks - k) + 4 <= fuel)%nat -> parses (parseline lbuf fuel) k (pr_line l) (mean_line l).
Definition pipe_ok (fuel : nat) : Prop := forall p k rest, drop k toks = pr_pipe p ++ rest -> good_pipe p = true ->
  hd_char rest ∈ after_pipe -> (4 * (length toks - k) + 3 <= fuel)%nat -> parses (parsepipe lbuf fuel) k (pr_pipe p) (mean_pipe p).
Definition simple_ok (fuel : nat) : Prop := forall e k rest, drop k toks = pr_simple e ++ rest -> good_simple e = true ->
  hd_char rest ∈ after_simple -> (4 * (length toks - k) + 2 <= fuel)%nat -> parses (parseexec lbuf fuel) k (pr_simple e) (mean_simple e).
Definition block_ok (fuel : nat) : Prop := forall l rs k rest, drop k toks = pr_simple (Block l rs) ++ rest ->
  good_simple (Block l rs) = true -> hd_char rest ∈ after_simple -> (4 * (length toks - k) + 1 <= fuel)%nat ->
  parses (parseblock lbuf fuel) k (pr_simple (Block l rs)) (mean_simple (Block l rs)).

(** A token that [peek] found is read. *)
Lemma peek_take {B : Type} set k t rest (K : M nat B) : drop k toks = t :: rest -> bool_decide (0 ∈ set) = false ->
  forall (E : M nat B), bool_decide (nth 0 t 0 ∈ set) = true ->
  (b ← peek lbuf set; if b : bool then gettoken lbuf;; K else E) (pos k) = K (pos (S k)).
Proof.
  intros Hk H0 E Ht. erewrite bind_ret by (by eapply peek_reads). cbn [hd_char]. rewrite Ht.
  apply reads_cons in Hk as [Hk _]. by erewrite bind_ret by by apply gettoken_tok.
Qed.
Lemma peek_skip {B : Type} set k rest (K E : M nat B) : drop k toks = rest -> bool_decide (0 ∈ set) = false ->
  bool_decide (hd_char rest ∈ set) = false -> (b ← peek lbuf set; if b : bool then K else E) (pos k) = E (pos k).
Proof. intros Hk H0 Ht. erewrite bind_ret by (by eapply peek_reads). by rewrite Ht. Qed.

Lemma line_step fuel : line_ok fuel -> pipe_ok fuel -> line_ok (S fuel).
Proof.
  intros IHl IHp l k rest Hk Hg Hr Hf. rewrite pr_line_split in Hk. rewrite <- !app_assoc in Hk. cbn [parseline].
  assert (Hgp : good_pipe (line_head l).1 = true) by (destruct l; cbn in *; [done | by apply andb_true_iff in Hg as [? _]]).
  assert (Hkt := Hk). apply reads_app in Hkt. assert (Hks := Hkt). apply reads_app in Hks. rewrite length_replicate in Hks.
  destruct (IHp _ _ _ Hk Hgp ltac:(apply hd_backs, hd_tail, Hr) ltac:(lia)) as (c & E & Hc).
  assert (Eb := backs_parse (S (length lbuf)) _ _ c _ Hkt).
  rewrite <- Nat.add_assoc in Hks, Eb.
  assert (Hb : forall m, (k + (length (pr_pipe (line_head l).1) + (line_head l).2) = k + m)%nat -> backs_loop lbuf (S (length lbuf)) c (pos (k + length (pr_pipe (line_head l).1))) = Ret (Nat.iter (line_head l).2 BACK c) (pos (k + m))).
  { intros m <-. apply Eb.
    - apply hd_tail with (l := l) in Hr. intros EA. rewrite EA in Hr. apply (follow_not _ _ [AMP] Hr eq_refl). by left.
    - pose proof (reads_len _ _ _ Hkt) as Hl. rewrite length_replicate in Hl. lia. }
  destruct l as [p bg | p bg r]; cbn [line_head line_tail fst snd app pr_line good_line mean_line] in *.
  - eexists. split; [| by rewrite iter_text, Hc]. erewrite bind_ret by exact E. erewrite bind_ret by by apply Hb.
    erewrite peek_skip; [by rewrite length_app, length_replicate | exact Hks | done | by eapply follow_no].
  - apply andb_true_iff in Hg as [_ Hg]. assert (Hkn := reads_cons _ _ _ Hks). destruct Hkn as [_ Hkn].
    destruct (IHl r _ _ Hkn Hg Hr) as (c2 & E2 & Hc2); [apply reads_lt in Hks; lia |].
    eexists. split; [erewrite bind_ret by exact E; erewrite bind_ret by by apply Hb |].
    + erewrite peek_take; [| exact Hks | done | done]. erewrite bind_ret by exact E2. unfold mret, M_ret. do 2 f_equal.
      rewrite !length_app, length_replicate. cbn [length]. lia.
    + cbn [text]. by rewrite iter_text, Hc, Hc2.
Qed.

Lemma pipe_step fuel : pipe_ok fuel -> simple_ok fuel -> pipe_ok (S fuel).
Proof.
  intros IHp IHe p k rest Hk Hg Hr Hf. cbn [parsepipe]. destruct p as [e | e p]; cbn [pr_pipe good_pipe mean_pipe] in *.
  - destruct (IHe e k rest Hk Hg) as (c & E & Hc); [by eapply follow_sub | lia |].
    exists c. split; [| done]. erewrite bind_ret by exact E. apply reads_app in Hk.
    erewrite peek_skip; [done | exact Hk | done | by eapply follow_no].
  - apply andb_true_iff in Hg as [Hge Hg]. rewrite <- app_assoc in Hk.
    destruct (IHe e k _ Hk Hge) as (c & E & Hc); [by right; left | lia |]. apply reads_app in Hk.
    pose proof (reads_lt _ _ _ Hk). assert (Hkn := reads_cons _ _ _ Hk). destruct Hkn as [_ Hkn].
    destruct (IHp p _ _ Hkn Hg Hr) as (c2 & E2 & Hc2); [lia |]. exists (PIPE c c2). split; [| cbn [text]; by rewrite Hc, Hc2].
    erewrite bind_ret by exact E. erewrite peek_take; [| exact Hk | done | done]. erewrite bind_ret by exact E2.
    unfold mret, M_ret. do 2 f_equal. rewrite length_app. cbn [length]. lia.
Qed.

Lemma simple_step fuel : block_ok fuel -> simple_ok (S fuel).
Proof.
  intros IHb e k rest Hk Hg Hr Hf. cbn [parseexec]. destruct e as [rs args | l rs].
  - destruct (simple_parse rs args k rest Hk Hg Hr) as (c & E & Hc). exists c. split; [| done].
    erewrite peek_skip; [exact E | exact Hk | done |]. apply bool_decide_eq_false. rewrite list_elem_of_singleton.
    cbn [pr_simple good_simple] in *. rewrite <- app_assoc. apply andb_true_iff in Hg as [Hg _]. apply andb_true_iff in Hg as [_ Hg].
    by apply hd_simple.
  - destruct (IHb l rs k rest Hk Hg Hr) as (c & E & Hc); [lia |]. exists c. split; [| done].
    erewrite bind_ret by (by eapply peek_reads). exact E.
Qed.

Lemma block_step fuel : line_ok fuel -> block_ok (S fuel).
Proof.
  intros IHl l rs k rest Hk Hg Hr Hf. cbn [parseblock pr_simple good_simple mean_simple] in *. apply andb_true_iff in Hg as [Hgl Hgr].
  rewrite <- app_comm_cons, <- app_assoc in Hk. pose proof (reads_lt _ _ _ Hk).
  assert (Hk1 := reads_cons _ _ _ Hk). destruct Hk1 as [T1 Hk1].
  destruct (IHl l _ _ Hk1 Hgl) as (c & E & Hc); [by right; left | lia |]. apply reads_app in Hk1.
  rewrite <- app_comm_cons in Hk1. assert (Hk2 := reads_cons _ _ _ Hk1). destruct Hk2 as [T2 Hk2].
  destruct (parseredirs_ok _ rs rest Hk2 Hgr) as (rs' & E2 & Hrel).
  { by eapply follow_not. }
  exists (wrap rs' c). split; [| by rewrite (text_wrap _ _ _ Hrel), Hc].
  erewrite bind_ret by (eapply peek_reads; [done | exact Hk]).
  cbn [hd_char nth]. change (bool_decide (LPAR ∈ [LPAR])) with true. cbn [negb]. erewrite bind_ret by by apply gettoken_tok.
  erewrite bind_ret by exact E. erewrite bind_ret by (eapply peek_reads; [done | exact Hk1]).
  cbn [hd_char nth]. change (bool_decide (RPAR ∈ [RPAR])) with true. cbn [negb]. erewrite bind_ret by by apply gettoken_tok.
  erewrite bind_ret by exact E2. unfold mret, M_ret. do 2 f_equal. cbn [length]. rewrite length_app. cbn [length]. lia.
Qed.

Lemma parse_sentence fuel : line_ok fuel /\ pipe_ok fuel /\ simple_ok fuel /\ block_ok fuel.
Proof.
  induction fuel as [| fuel (IHl & IHp & IHe & IHb)]; [split_and!; unfold line_ok, pipe_ok, simple_ok, block_ok; intros; lia |].
  split_and!; [by apply line_step | by apply pipe_step | by apply simple_step | by apply block_step].
Qed.
End lexer.

(** Every token of a good sentence is a token. *)
Lemma redirs_toks rs : good_redirs rs = true -> Forall is_tok (pr_redirs rs).
Proof.
  induction rs as [| [w out] rs IH]; [done |]. cbn [good_redirs forallb fst]. intros [Hw Hg]%andb_true_iff.
  change (pr_redirs ((w, out) :: rs)) with ([if out then GT else LT] :: w :: pr_redirs rs).
  repeat (apply Forall_cons; split); [| by left | by apply IH]. right. exists (if out then GT else LT). split; [done |].
  unfold symbols, GT, LT. destruct out; rewrite !elem_of_cons; tauto.
Qed.
Lemma args_toks args : forallb (fun a => good_word a.1 && good_redirs a.2) args = true -> Forall is_tok (pr_args args).
Proof.
  induction args as [| [w rs] args IH]; [done |]. cbn [forallb fst snd]. intros [[Hw Hr]%andb_true_iff Hg]%andb_true_iff.
  change (pr_args ((w, rs) :: args)) with (w :: pr_redirs rs ++ pr_args args). apply Forall_cons. split; [by left |].
  apply Forall_app. split; [by apply redirs_toks | by apply IH].
Qed.
Lemma symbol_tok c : bool_decide (c ∈ symbols) = true -> is_tok [c].
Proof. intros H%bool_decide_eq_true_1. right. by exists c. Qed.
Lemma amps_toks bg : Forall is_tok (replicate bg [AMP]).
Proof. apply Forall_replicate. by apply symbol_tok. Qed.

Scheme line_mut := Induction for line Sort Prop
  with pipeline_mut := Induction for pipeline Sort Prop
  with simple_mut := Induction for simple Sort Prop.

Lemma line_toks l : good_line l = true -> Forall is_tok (pr_line l).
Proof.
  apply (line_mut (fun l => good_line l = true -> Forall is_tok (pr_line l))
    (fun p => good_pipe p = true -> Forall is_tok (pr_pipe p)) (fun e => good_simple e = true -> Forall is_tok (pr_simple e)));
    cbn [good_line good_pipe good_simple pr_line pr_pipe pr_simple].
  - intros p IH bg Hg. apply Forall_app. split; [by apply IH | apply amps_toks].
  - intros p IH bg r IHr [Hp Hg]%andb_true_iff. rewrite !Forall_app, Forall_cons. split_and!; [by apply IH | apply amps_toks | by apply symbol_tok | by apply IHr].
  - done.
  - intros e IH p IHp [He Hp]%andb_true_iff. rewrite Forall_app, Forall_cons. split_and!; [by apply IH | by apply symbol_tok | by apply IHp].
  - intros rs args [[Hr Ha]%andb_true_iff _]%andb_true_iff. apply Forall_app. split; [by apply redirs_toks | by apply args_toks].
  - intros l' IH rs [Hl Hr]%andb_true_iff. rewrite Forall_cons, Forall_app, Forall_cons.
    split_and!; [by apply symbol_tok | by apply IH | by apply symbol_tok | by apply redirs_toks].
Qed.

(** C9. The parser of the shell inverts the printer of its grammar: a line built
    from simple commands with redirections, pipelines, lists, background
    commands and parenthesised blocks, nested to any depth, with at most nine
    arguments each, is parsed to its end, as the command it was printed from:
    pipes and lists associate to the right, the last redirection is the outermost. *)
Theorem parser_inverts_printer (l : line) (Hl : good_line l = true) :
  exists c, parsecmd (render (pr_line l)) (4 * length (render (pr_line l)) + 4) 0%nat =
      Ret c (length (render (pr_line l))) /\
    text (render (pr_line l)) c = mean_line l.
Proof.
  pose proof (line_toks l Hl) as Ht. set (toks := pr_line l) in *.
  destruct (parse_sentence toks Ht (4 * length (render toks) + 4)) as (Hline & _).
  destruct (Hline l 0%nat []) as (c & E & Hc); [by rewrite app_nil_r | done | by left | pose proof (length_render toks); lia |].
  exists c. split; [| exact Hc]. fold toks in E. unfold parsecmd. change (pos toks 0) with 0%nat in E. cbn [Nat.add] in E.
  erewrite bind_ret by exact E. erewrite bind_ret by (apply peek_tok; [done | apply not_elem_of_nil]).
  erewrite bind_ret by done. rewrite pos_end by done. change (lbuf toks) with (render toks). by rewrite Nat.eqb_refl.
Qed.

(** [( a < f | b & ; c ) > g] *)
Definition demo_sentence : line :=
  Line (Pipeline (Block
    (Seq (Bar (Simple [] [([97], [([102], false)])]) (Pipeline (Simple [] [([98], [])]))) 1
       (Line (Pipeline (Simple [] [([99], [])])) 0))
    [([103], true)])) 0.
Lemma parser_inverts_printer_witness :
  exists c, parsecmd (render (pr_line demo_sentence)) (4 * length (render (pr_line demo_sentence)) + 4) 0%nat =
      Ret c (length (render (pr_line demo_sentence))) /\
    text (render (pr_line demo_sentence)) c =
      T_REDIR (T_LIST (T_BACK (T_PIPE (T_REDIR (T_EXEC [[97]]) [102] mode_read 0) (T_EXEC [[98]]))) (T_EXEC [[99]])) [103] mode_write 1.
Proof. exact (parser_inverts_printer demo_sentence eq_refl). Defined.
