(* ===== verification/ShRun.v ===== *)
(** * ShRun: project3/xv6-modified/sh.c, how the shell runs its commands

    [runcmd] and [main] are trees of system calls: a node is a call, and its
    continuation takes what the call returns.  The machine below runs any number
    of processes, each with its tree, its table of open descriptors and its
    parent, in any interleaving; every [open], [exec], [pipe] and [fork] may
    fail.  A program that was started holds its descriptors until it ends; one
    that reads its input to the end cannot end before every write end of the
    pipe it reads from is closed.  A process is named by the path of its forks
    from the shell, and a pipe by the process that made it, so that the names do
    not depend on the interleaving. *)

From Stdlib Require Import ZArith Lia.
From stdpp Require Import base numbers strings option list gmap fin_maps fin_map_dom sorting.
From S2P Require Import Prelude KString Kernel Sh ShGrammar.

Local Open Scope nat_scope.

Abbreviation path := (list nat).
Abbreviation str := (list Z).

(** ** Programs *)

(** What a descriptor refers to: a file from outside, an end of a pipe, a file
    that the shell opened. *)
Inductive obj := Ext (n : nat) | Pr (x : path) | Pw (x : path) | Fl (name : str) (mode : Z).
#[export] Instance obj_eq_dec : EqDecision obj.
Proof. solve_decision. Defined.

Inductive forked := Failed | Child | Parent.

Inductive calls :=
| Exit
| Exec (file : str) (argv : list str) (k : calls)
| Close (fd : nat) (k : calls)
| Dup (fd : nat) (k : calls)
| Open (file : str) (mode : Z) (k : option nat -> calls)
| Pipe (k : option (nat * nat) -> calls)
| Fork (k : forked -> calls)
| Wait (k : calls)
| Print (text : str) (k : calls)
| Chdir (dir : str) (k : bool -> calls).

Definition m_exec : str := [101; 120; 101; 99; 32]%Z.
Definition m_open : str := [111; 112; 101; 110; 32]%Z.
Definition m_failed : str := [32; 102; 97; 105; 108; 101; 100; 10]%Z.
Definition m_fork : str := [102; 111; 114; 107]%Z.
Definition m_pipe : str := [112; 105; 112; 101]%Z.
Definition m_cd : str := [99; 97; 110; 110; 111; 116; 32; 99; 100; 32]%Z.
Definition m_console : str := [99; 111; 110; 115; 111; 108; 101]%Z.
Definition prompt : str := [36; 32]%Z.

(** ** sh.c *)
Definition panic (s : str) : calls := Print (s ++ [10%Z]) Exit.

Definition fork1 (k : bool -> calls) : calls :=
  Fork (fun r => match r with Failed => panic m_fork | Child => k true | Parent => k false end).

(** The C string at an offset of the line. *)
Definition str_of (m : mem) (a : nat) : str := cstr (drop a m).

Fixpoint runcmd (m : mem) (c : cmd) : calls :=
  match c with
  | EXEC [] => Exit
  | EXEC ((w :: _) as argv) =>
      let a0 := str_of m (fst w) in
      Exec a0 (map (fun w => str_of m (fst w)) argv) (Print (m_exec ++ a0 ++ m_failed) Exit)
  | REDIR c file _ mode fd =>
      Close (Z.to_nat fd) (Open (str_of m file) mode (fun r =>
        match r with
        | None => Print (m_open ++ str_of m file ++ m_failed) Exit
        | Some _ => runcmd m c
        end))
  | LIST l r => fork1 (fun child => if child then runcmd m l else Wait (runcmd m r))
  | PIPE l r =>
      Pipe (fun p =>
        match p with
        | None => panic m_pipe
        | Some (p0, p1) =>
            fork1 (fun child => if child then Close 1 (Dup p1 (Close p0 (Close p1 (runcmd m l)))) else
            fork1 (fun child => if child then Close 0 (Dup p0 (Close p0 (Close p1 (runcmd m r)))) else
            Close p0 (Close p1 (Wait (Wait Exit)))))
        end)
  | BACK c => fork1 (fun child => if child then runcmd m c else Exit)
  end.

Definition text_of (s : string) : str := map (fun a => Z.of_nat (Ascii.nat_of_ascii a)) (String.list_ascii_of_string s).

Definition m_leftovers : str := text_of "leftovers: ".

(** [runcmd(parsecmd(buf))] in the child; the parser leaves through [panic], and
    what it has not read is printed before. *)
Definition run_parsed (buf : str) : calls :=
  match (c ← parseline buf (4 * length buf + 4); peek buf [];; mret c) 0 with
  | Ret c s =>
      if negb (s =? length buf) then Print (m_leftovers ++ drop s buf ++ [10%Z]) (panic (text_of "syntax"))
      else runcmd (nulterminate c (buf ++ [0%Z])) c
  | Stop msg => panic (text_of msg)
  | _ => Exit
  end.

(** [getcmd] returns -1 when the line that [gets] stores is empty. *)
Definition getcmd (buf : str) (k : bool -> calls) : calls := Print prompt (k (negb (bool_decide (buf = [])))).

Definition is_cd (buf : str) : bool :=
  match buf with a :: b :: c :: _ => ((a =? 99) && (b =? 100) && (c =? 32))%Z | _ => false end.
(** [buf[strlen(buf)-1] = 0], then the string at [buf+3]. *)
Definition cd_dir (buf : str) : str := drop 3 (take (length buf - 1) buf).

(** The loop of [main]; the argument holds what [gets] stores in each round, the
    characters before the terminator; when there is nothing left to read the line
    is empty. *)
Fixpoint main_loop (lines : list str) : calls :=
  match lines with
  | [] => getcmd [] (fun _ => Exit)
  | buf :: lines =>
      getcmd buf (fun ok =>
        if negb ok then Exit else
        if is_cd buf then
          Chdir (cd_dir buf) (fun ok =>
            if ok then main_loop lines else Print (m_cd ++ cd_dir buf ++ [10%Z]) (main_loop lines))
        else fork1 (fun child => if child then run_parsed buf else Wait (main_loop lines)))
  end.

(** [while((fd = open("console", O_RDWR)) >= 0)]: a table has [NOFILE] entries. *)
Fixpoint open_consoles (fuel : nat) (k : calls) : calls :=
  match fuel with
  | O => k
  | S fuel =>
      Open m_console 2 (fun r =>
        match r with
        | None => k
        | Some fd => if 3 <=? fd then Close fd k else open_consoles fuel k
        end)
  end.
Definition main (lines : list str) : calls := open_consoles (S NOFILE) (main_loop lines).

(** ** The machine *)
Abbreviation table := (list (option obj)).

(** [fdalloc]: the lowest free entry. *)
Fixpoint lowest_fd (o : obj) (t : table) : option (nat * table) :=
  match t with
  | [] => None
  | None :: t => Some (0, Some o :: t)
  | Some x :: t => r ← lowest_fd o t; Some (S r.1, Some x :: r.2)
  end.
Definition pipe_ends (x : path) (t : table) : option (nat * nat * table) :=
  r ← lowest_fd (Pr x) t; w ← lowest_fd (Pw x) r.2; Some (r.1, w.1, w.2).
Definition dup_fd (fd : nat) (t : table) : table :=
  match t !! fd with
  | Some (Some o) => match lowest_fd o t with Some r => r.2 | None => t end
  | _ => t
  end.

Inductive pbody := Code (g : calls) | Run (argv : list str) | Zombie.
Record task := mk_proc { body : pbody; tab : table; made : nat }.

(** The descriptors that are open, with their numbers. *)
Fixpoint opened (i : nat) (t : table) : list (nat * obj) :=
  match t with
  | [] => []
  | Some o :: t => (i, o) :: opened (S i) t
  | None :: t => opened (S i) t
  end.

(** A program that was started: the process, its arguments, its descriptors. *)
Abbreviation launch := (path * list str * list (nat * obj))%type.
Inductive event := Launch (l : launch) | Text (q : path) (t : str).

(** [pars] holds the parent of each process that init has not adopted. *)
Record sys := mk_sys { pool : gmap path task; pars : gmap path path; trace : list event }.

Inductive act := Do (ok : bool) | Reap (child : path).

Definition has_kids (q : path) (s : sys) : bool := negb (bool_decide (map_Forall (fun _ y => y <> q) (pars s))).
Definition held (o : obj) (s : sys) : bool := negb (bool_decide (map_Forall (fun _ p => Some o ∉ tab p) (pool s))).

Definition put_proc (q : path) (p : task) (s : sys) : sys := mk_sys (<[q := p]> (pool s)) (pars s) (trace s).
Definition say (e : event) (s : sys) : sys := mk_sys (pool s) (pars s) (trace s ++ [e]).
(** [exit]: descriptors are closed and children are passed to init. *)
Definition exited (q : path) (p : task) (s : sys) : sys :=
  mk_sys (<[q := mk_proc Zombie [] (made p)]> (pool s)) (filter (fun xy => xy.2 <> q) (pars s)) (trace s).
Definition forget (x : path) (s : sys) : sys := mk_sys (delete x (pool s)) (delete x (pars s)) (trace s).

Section machine.
(** The programs that read their standard input to its end. *)
Variable reads : list str -> bool.

Definition may_end (argv : list str) (t : table) (s : sys) : bool :=
  match t !! 0 with
  | Some (Some (Pr x)) => negb (reads argv && held (Pw x) s)
  | _ => true
  end.

Definition step_code (q : path) (ok : bool) (g : calls) (t : table) (n : nat) (s : sys) : option sys :=
  let go t n g := put_proc q (mk_proc (Code g) t n) s in
  match g with
  | Exit => Some (exited q (mk_proc Zombie t n) s)
  | Exec _ argv k =>
      Some (if ok then say (Launch (q, argv, opened 0 t)) (put_proc q (mk_proc (Run argv) t n) s) else go t n k)
  | Close fd k => Some (go (<[fd := None]> t) n k)
  | Dup fd k => Some (go (dup_fd fd t) n k)
  | Open file mode k =>
      Some (match lowest_fd (Fl file mode) t with
            | Some r => if ok then go r.2 n (k (Some r.1)) else go t n (k None)
            | None => go t n (k None)
            end)
  | Pipe k =>
      Some (match pipe_ends (q ++ [n]) t with
            | Some r => if ok then go r.2 (S n) (k (Some r.1)) else go t n (k None)
            | None => go t n (k None)
            end)
  | Fork k =>
      Some (if ok then
              mk_sys (<[q ++ [n] := mk_proc (Code (k Child)) t 0]> (<[q := mk_proc (Code (k Parent)) t (S n)]> (pool s)))
                     (<[q ++ [n] := q]> (pars s)) (trace s)
            else go t n (k Failed))
  | Wait k => if has_kids q s then None else Some (go t n k)
  | Print text k => Some (say (Text q text) (go t n k))
  | Chdir _ k => Some (go t n (k ok))
  end.

Definition step (c : path * act) (s : sys) : option sys :=
  let q := c.1 in
  p ← pool s !! q;
  match body p, c.2 with
  | Code (Wait k), Reap x =>
      y ← pars s !! x; z ← pool s !! x;
      match body z with
      | Zombie => if bool_decide (y = q) then Some (forget x (put_proc q (mk_proc (Code k) (tab p) (made p)) s)) else None
      | _ => None
      end
  | Code g, Do ok => step_code q ok g (tab p) (made p) s
  | Run argv, Do _ => if may_end argv (tab p) s then Some (exited q p s) else None
  | Zombie, Do _ => match pars s !! q with None => Some (forget q s) | Some _ => None end
  | _, _ => None
  end.

Fixpoint run (cs : list (path * act)) (s : sys) : option sys :=
  match cs with
  | [] => Some s
  | c :: cs => s ← step c s; run cs s
  end.
End machine.

(** A process with three open descriptors. *)
Definition std (i o e : obj) : table := [Some i; Some o; Some e] ++ replicate (NOFILE - 3) None.
Definition boot (g : calls) (i o e : obj) : sys := mk_sys {[ [] := mk_proc (Code g) (std i o e) 0 ]} ∅ [].

Definition launches (l : list event) : list launch := omap (fun e => match e with Launch x => Some x | _ => None end) l.
(** Something other than a prompt was printed. *)
Definition complained (l : list event) : bool :=
  existsb (fun e => match e with Text _ t => negb (bool_decide (t = prompt)) | _ => false end) l.

(** ** What a command means *)
(** The programs that a command starts, from process [q] with [n] names used. *)
Fixpoint denote (q : path) (n : nat) (c : tree) (i o e : obj) : list launch :=
  match c with
  | T_EXEC [] => []
  | T_EXEC argv => [(q, argv, [(0, i); (1, o); (2, e)])]
  | T_REDIR c file mode fd => if (fd =? 0)%Z then denote q n c (Fl file mode) o e else denote q n c i (Fl file mode) e
  | T_LIST l r => denote (q ++ [n]) 0 l i o e ++ denote q (S n) r i o e
  | T_PIPE l r =>
      denote (q ++ [S n]) 0 l i (Pw (q ++ [n])) e ++ denote (q ++ [S (S n)]) 0 r (Pr (q ++ [n])) o e
  | T_BACK c => denote (q ++ [n]) 0 c i o e
  end.
(** The processes that it starts in the background. *)
Fixpoint backs (q : path) (n : nat) (c : tree) : list path :=
  match c with
  | T_EXEC _ => []
  | T_REDIR c _ _ _ => backs q n c
  | T_LIST l r => backs (q ++ [n]) 0 l ++ backs q (S n) r
  | T_PIPE l r => backs (q ++ [S n]) 0 l ++ backs (q ++ [S (S n)]) 0 r
  | T_BACK c => (q ++ [n]) :: backs (q ++ [n]) 0 c
  end.

Definition line_tree (buf : str) : option tree :=
  match parsecmd buf (4 * length buf + 4) 0 with Ret c _ => Some (text buf c) | _ => None end.
(** The lines up to the first empty one, each with the name of its process if
    it has one: lines that only change the directory have none. *)
Fixpoint jobs (n : nat) (lines : list str) : list (path * str) :=
  match lines with
  | [] => []
  | buf :: lines =>
      if bool_decide (buf = []) then [] else
      if is_cd buf then jobs n lines else ([n], buf) :: jobs (S n) lines
  end.
Definition job_denote (i o e : obj) (j : path * str) : list launch :=
  match line_tree j.2 with Some c => denote j.1 0 c i o e | None => [] end.
Definition job_backs (j : path * str) : list path :=
  match line_tree j.2 with Some c => backs j.1 0 c | None => [] end.
