(* ===== verification/ShRunSpec.v ===== *)
(** * ShRunSpec: what the shell of sh.c runs

    A judgement [wf] states the discipline that [runcmd] and [main] follow in
    their use of processes, pipes and descriptors.  Every step of the machine of
    ShRun keeps it, whatever the code; from it follow which programs are
    started, that a machine that is not finished can move, and which processes
    are alive when the shell prompts. *)

From Stdlib Require Import ZArith Lia.
From stdpp Require Import base numbers strings option list gmap fin_maps fin_map_dom sorting.
From S2P Require Import Prelude KString Kernel Sh ShGrammar ShRun.

Local Open Scope nat_scope.

(** ** What the lines mean *)
Definition meaning (n : nat) (lines : list str) (i o e : obj) : list launch := concat (map (job_denote i o e) (jobs n lines)).
Definition leftover (n : nat) (lines : list str) : list path := concat (map job_backs (jobs n lines)).
(** The shell as init starts it. *)
Definition shell (lines : list str) : sys := boot (main lines) (Ext 0) (Ext 1) (Ext 2).

(** ** The programs a tree of calls starts, and how long it can take *)
Fixpoint den (q : path) (n : nat) (t : table) (g : calls) : list launch :=
  match g with
  | Exit => []
  | Exec _ argv _ => [(q, argv, opened 0 t)]
  | Close fd k => den q n (<[fd := None]> t) k
  | Dup fd k => den q n (dup_fd fd t) k
  | Open file mode k =>
      match lowest_fd (Fl file mode) t with Some r => den q n r.2 (k (Some r.1)) | None => den q n t (k None) end
  | Pipe k =>
      match pipe_ends (q ++ [n]) t with Some r => den q (S n) r.2 (k (Some r.1)) | None => den q n t (k None) end
  | Fork k => den (q ++ [n]) 0 t (k Child) ++ den q (S n) t (k Parent)
  | Wait k | Print _ k => den q n t k
  | Chdir _ k => den q n t (k true)
  end.

Fixpoint cost (q : path) (n : nat) (t : table) (g : calls) : nat :=
  S match g with
  | Exit => 1
  | Exec _ _ k => 2 + cost q n t k
  | Close fd k => cost q n (<[fd := None]> t) k
  | Dup fd k => cost q n (dup_fd fd t) k
  | Open file mode k =>
      match lowest_fd (Fl file mode) t with
      | Some r => cost q n r.2 (k (Some r.1)) + cost q n t (k None) | None => cost q n t (k None) end
  | Pipe k =>
      match pipe_ends (q ++ [n]) t with
      | Some r => cost q (S n) r.2 (k (Some r.1)) + cost q n t (k None) | None => cost q n t (k None) end
  | Fork k => cost (q ++ [n]) 0 t (k Child) + cost q (S n) t (k Parent) + cost q n t (k Failed)
  | Wait k | Print _ k => cost q n t k
  | Chdir _ k => cost q n t (k true) + cost q n t (k false)
  end.

(** The ends of pipes in a table belong to a pipeline that the process is part
    of: a read end to its right part, a write end to its left part. *)
Definition below (j : nat) (x q : path) : Prop := exists m k, x = m ++ [k] /\ m ++ [k + j] `prefix_of` q.
Definition obj_ok (q : path) (o : obj) : Prop :=
  match o with Pr x => below 2 x q | Pw x => below 1 x q | _ => True end.
Definition ordered (q : path) (t : table) : Prop := forall o, Some o ∈ t -> obj_ok q o.

Definition complains (g : calls) : Prop := exists t k, g = Print t k /\ t <> prompt.
(** A continuation for an error loses nothing, or says so. *)
Definition falls (q : path) (n : nat) (t : table) (g : calls) (L : list launch) : Prop :=
  den q n t g = L \/ (den q n t g = [] /\ complains g).

(** The discipline of the shell's code, for process [q] with [n] names used and
    the children [W]: it waits only for children it has, with no end of a pipe
    that it is not meant to hold; when it starts a program or prompts it has no
    child left; the children it leaves behind are among the processes [B], unless
    it has printed a complaint. *)
Inductive wf : (path -> Prop) -> path -> nat -> gset path -> table -> calls -> Prop :=
| wf_exit B q n W t : (forall x, x ∈ W -> B x) -> wf B q n W t Exit
| wf_exec B q n t f argv k :
    ordered q t -> wf B q n ∅ t k -> falls q n t k [] -> complains k -> wf B q n ∅ t (Exec f argv k)
| wf_close B q n W t fd k : wf B q n W (<[fd := None]> t) k -> wf B q n W t (Close fd k)
| wf_dup B q n W t fd k : wf B q n W (dup_fd fd t) k -> wf B q n W t (Dup fd k)
| wf_open B q n W t f m k :
    wf B q n W t (k None) -> falls q n t (k None) (den q n t (Open f m k)) ->
    (forall r, lowest_fd (Fl f m) t = Some r -> wf B q n W r.2 (k (Some r.1))) -> wf B q n W t (Open f m k)
| wf_pipe B q n W t k :
    wf B q n W t (k None) -> falls q n t (k None) (den q n t (Pipe k)) ->
    (forall r, pipe_ends (q ++ [n]) t = Some r -> wf B q (S n) W r.2 (k (Some r.1))) -> wf B q n W t (Pipe k)
| wf_fork B q n W t k :
    wf B q n W t (k Failed) -> falls q n t (k Failed) (den q n t (Fork k)) ->
    wf B (q ++ [n]) 0 ∅ t (k Child) -> wf B q (S n) ({[q ++ [n]]} ∪ W) t (k Parent) -> wf B q n W t (Fork k)
| wf_wait B q n W t k :
    ordered q t -> W <> ∅ -> (forall x, x ∈ W -> wf B q n (W ∖ {[x]}) t k) -> wf B q n W t (Wait k)
| wf_print B q n W t text k : (text = prompt -> W = ∅) -> wf (fun x => B x \/ text <> prompt) q n W t k -> wf B q n W t (Print text k)
| wf_chdir B q n W t d k :
    wf B q n W t (k true) -> wf B q n W t (k false) -> falls q n t (k false) (den q n t (k true)) ->
    wf B q n W t (Chdir d k).

Lemma wf_mono B B' q n W t g : wf B q n W t g -> (forall x, B x -> B' x) -> wf B' q n W t g.
Proof.
  intros H. revert B'. induction H; intros B' HB; econstructor; eauto. apply IHwf. naive_solver.
Qed.

Definition den_proc (q : path) (p : task) : list launch := match body p with Code g => den q (made p) (tab p) g | _ => [] end.
Definition cost_proc (q : path) (p : task) : nat :=
  match body p with Code g => cost q (made p) (tab p) g | Run _ => 2 | Zombie => 1 end.
Definition dens (s : sys) : list launch := concat (map (fun qp => den_proc qp.1 qp.2) (map_to_list (pool s))).
Definition costs (s : sys) : nat := sum_list (map (fun qp => cost_proc qp.1 qp.2) (map_to_list (pool s))).
Definition kids (q : path) (s : sys) : gset path := dom (filter (fun xy => xy.2 = q) (pars s)).

Definition wf_proc (B : path -> Prop) (s : sys) (q : path) (p : task) : Prop :=
  match body p with
  | Code g => wf B q (made p) (kids q s) (tab p) g
  | Run _ => ordered q (tab p) /\ kids q s = ∅
  | Zombie => kids q s = ∅ /\ tab p = []
  end.

Record inv (B : path -> Prop) (s : sys) : Prop := {
  i_proc : forall q p, pool s !! q = Some p -> wf_proc B s q p;
  i_fresh : forall q p k x, pool s !! q = Some p -> x ∈ dom (pool s) -> q ++ [k] `prefix_of` x -> k < made p;
  i_pars : forall x y, pars s !! x = Some y -> x ∈ dom (pool s) /\ y ∈ dom (pool s) /\ exists k, x = y ++ [k];
  i_orphan : forall x, x ∈ dom (pool s) -> pars s !! x = None -> x = [] \/ B x
}.

(** The children that may be left behind, given what was printed. *)
Definition loose (B : path -> Prop) (s : sys) (x : path) : Prop := B x \/ complained (trace s) = true.

Lemma wf_proc_mono B B' s q p : wf_proc B s q p -> (forall x, B x -> B' x) -> wf_proc B' s q p.
Proof. unfold wf_proc. destruct (body p); [| done..]. apply wf_mono. Qed.

Lemma inv_mono B B' s : inv B s -> (forall x, B x -> B' x) -> inv B' s.
Proof.
  intros [H1 H2 H3 H4] HB. split; [| done | done |].
  - intros q p Hq. eapply wf_proc_mono; eauto.
  - intros x Hx Hn. destruct (H4 x Hx Hn); auto.
Qed.

Lemma elem_of_kids x q s : x ∈ kids q s <-> pars s !! x = Some q.
Proof.
  unfold kids. rewrite elem_of_dom. split.
  - intros [y H]. by apply map_lookup_filter_Some in H as [H [= <-]].
  - intros H. exists q. by apply map_lookup_filter_Some.
Qed.

Lemma kids_empty q s : (forall x, pars s !! x <> Some q) -> kids q s = ∅.
Proof. intros H. apply set_eq. intros x. rewrite elem_of_kids. set_solver. Qed.

Lemma pars_kids q s s' : pars s' = pars s -> kids q s' = kids q s.
Proof. unfold kids. by intros ->. Qed.

(** ** Sums over the pool *)
Lemma map_to_list_put {A} (m : gmap path A) q p p' : m !! q = Some p ->
  map_to_list m ≡ₚ (q, p) :: map_to_list (delete q m) /\
  map_to_list (<[q := p']> m) ≡ₚ (q, p') :: map_to_list (delete q m).
Proof.
  intros H. split.
  - rewrite <- (insert_delete_id m q p H) at 1. apply map_to_list_insert, lookup_delete_eq.
  - rewrite <- insert_delete_eq. apply map_to_list_insert, lookup_delete_eq.
Qed.

Section sums.
Context (s s' : sys) (q : path) (p p' : task).
Hypothesis Hq : pool s !! q = Some p.

Lemma dens_put : pool s' = <[q := p']> (pool s) ->
  exists R, dens s ≡ₚ den_proc q p ++ R /\ dens s' ≡ₚ den_proc q p' ++ R.
Proof using Hq.
  intros E. exists (concat (map (fun qp => den_proc qp.1 qp.2) (map_to_list (delete q (pool s))))).
  destruct (map_to_list_put (pool s) q p p' Hq) as [E1 E2]. unfold dens. rewrite E, E1, E2. done.
Qed.

Lemma costs_put : pool s' = <[q := p']> (pool s) ->
  exists R, costs s = cost_proc q p + R /\ costs s' = cost_proc q p' + R.
Proof using Hq.
  intros E. exists (sum_list (map (fun qp => cost_proc qp.1 qp.2) (map_to_list (delete q (pool s))))).
  destruct (map_to_list_put (pool s) q p p' Hq) as [E1 E2]. unfold costs. rewrite E, E1, E2. done.
Qed.

Lemma dens_del : pool s' = delete q (pool s) -> dens s ≡ₚ den_proc q p ++ dens s'.
Proof using Hq.
  intros E. destruct (map_to_list_put (pool s) q p p Hq) as [E1 _]. unfold dens. by rewrite E, E1.
Qed.
Lemma costs_del : pool s' = delete q (pool s) -> costs s = cost_proc q p + costs s'.
Proof using Hq.
  intros E. destruct (map_to_list_put (pool s) q p p Hq) as [E1 _]. unfold costs. by rewrite E, E1.
Qed.
End sums.

(** ** A step keeps the discipline *)
Definition total (s : sys) : list launch := launches (trace s) ++ dens s.
Definition faulty (s : sys) : Prop :=
  complained (trace s) = true \/ exists q p g, pool s !! q = Some p /\ body p = Code g /\ complains g.

(** What every step from [s] to [s'] guarantees. *)
Record moved (B : path -> Prop) (s s' : sys) : Prop := {
  mv_inv : inv B s';
  mv_sub : total s' ⊆+ total s;
  mv_all : total s' ≡ₚ total s \/ faulty s';
  mv_faulty : faulty s -> faulty s';
  mv_cost : costs s' < costs s
}.

Lemma launches_app a b : launches (a ++ b) = launches a ++ launches b.
Proof. apply omap_app. Qed.

Lemma complained_app a b : complained (a ++ b) = complained a || complained b.
Proof. apply existsb_app. Qed.

Section steps.
Context (B : path -> Prop) (s : sys) (q : path) (p : task).
Hypothesis Hinv : inv B s.
Hypothesis Hq : pool s !! q = Some p.

Lemma q_in : q ∈ dom (pool s).
Proof using Hq. by apply elem_of_dom_2 in Hq. Qed.

Lemma dom_put p' : dom (<[q := p']> (pool s)) = dom (pool s).
Proof using Hq. rewrite dom_insert_L. apply subseteq_union_1_L, singleton_subseteq_l, q_in. Qed.

(** Process [q] moves on; the others and the parents stay. *)
Lemma inv_put B' s' p' : (forall x, B x -> B' x) ->
  pool s' = <[q := p']> (pool s) -> pars s' = pars s -> made p <= made p' -> wf_proc B' s q p' -> inv B' s'.
Proof using Hinv Hq.
  intros HB E Ep Hn Hw. pose proof (inv_mono _ _ _ Hinv HB) as Hinv'. split; rewrite ?E, ?Ep, ?dom_put.
  - intros r x [[-> ->] | [Hr Hx]]%lookup_insert_Some; unfold wf_proc; rewrite (pars_kids _ _ _ Ep); [exact Hw |].
    exact (i_proc _ _ Hinv' r x Hx).
  - intros r x k y [[-> ->] | [Hr Hx]]%lookup_insert_Some Hy Hp.
    + eapply Nat.lt_le_trans; [| exact Hn]. by eapply (i_fresh _ _ Hinv).
    + by eapply (i_fresh _ _ Hinv).
  - apply (i_pars _ _ Hinv).
  - apply (i_orphan _ _ Hinv').
Qed.

Lemma faulty_put s' p' g evs : pool s' = <[q := p']> (pool s) -> trace s' = trace s ++ evs ->
  body p = g -> (forall h, g = Code h -> complains h -> complained evs = true) -> faulty s -> faulty s'.
Proof using Hq.
  intros E Et Hb Hc [H | (r & x & h & Hr & Hx & Hh)].
  - left. by rewrite Et, complained_app, H.
  - destruct (decide (r = q)) as [-> | Hne].
    + rewrite Hq in Hr. injection Hr as <-. left. rewrite Et, complained_app, (Hc h), orb_true_r; [done | congruence | done].
    + right. exists r, x, h. rewrite E. by rewrite lookup_insert_ne.
Qed.

(** A step of the code of [q] that only changes its own entry. *)
Lemma local_ok B' s' p' g evs : (forall x, B x -> B' x) -> body p = Code g ->
  pool s' = <[q := p']> (pool s) -> pars s' = pars s -> trace s' = trace s ++ evs ->
  made p <= made p' -> wf_proc B' s q p' -> cost_proc q p' < cost_proc q p ->
  (complains g -> complained evs = true) ->
  launches evs ++ den_proc q p' = den_proc q p \/
  (launches evs = [] /\ den_proc q p' = [] /\ exists h, body p' = Code h /\ complains h) -> moved B' s s'.
Proof using Hinv Hq.
  intros HB Hb E Ep Et Hn Hw Hcost Hcomp Hden.
  destruct (dens_put s s' q p p' Hq E) as (R & E1 & E2). destruct (costs_put s s' q p p' Hq E) as (C & C1 & C2).
  split.
  - by eapply inv_put.
  - unfold total. rewrite Et, launches_app, E1, E2, <- (assoc_L (++)). apply submseteq_skips_l.
    rewrite (assoc_L (++)). apply submseteq_skips_r. destruct Hden as [<- | (-> & -> & _)]; [done |]. apply submseteq_nil_l.
  - unfold total. rewrite Et, launches_app, E1, E2. destruct Hden as [<- | (_ & _ & h & Hh & Hhc)].
    + left. by rewrite !(assoc_L (++)).
    + right. right. exists q, p', h. by rewrite E, lookup_insert_eq.
  - eapply faulty_put; eauto. intros h [= <-] Hh. auto.
  - lia.
Qed.

Lemma falls_cases n t g L : falls q n t g L -> forall m, 
  launches [] ++ den_proc q (mk_proc (Code g) t n) = L \/
  (launches [] = [] /\ den_proc q (mk_proc (Code g) t n) = [] /\ exists h, body (mk_proc (Code g) t m) = Code h /\ complains h).
Proof using. intros [H | [H1 H2]] m; [by left | right]. split; [done |]. split; [exact H1 |]. by exists g. Qed.

(** [exit]: the children become orphans. *)
Lemma exited_inv : (forall x, x ∈ kids q s -> B x) -> inv B (exited q p s).
Proof using Hinv Hq.
  intros HB. assert (Hf : forall x y, filter (fun xy : path * path => xy.2 <> q) (pars s) !! x = Some y <-> pars s !! x = Some y /\ y <> q)
    by (intros; apply map_lookup_filter_Some).
  assert (Hk : forall r, r <> q -> kids r (exited q p s) = kids r s).
  { intros r Hr. apply set_eq. intros x. rewrite !elem_of_kids. cbn. rewrite Hf. naive_solver. }
  split; cbn [exited pool pars]; rewrite ?dom_put.
  - intros r x [[-> <-] | [Hr Hx]]%lookup_insert_Some; unfold wf_proc.
    + cbn. split; [| done]. apply kids_empty. intros x. cbn. rewrite Hf. naive_solver.
    + rewrite Hk by done. exact (i_proc _ _ Hinv r x Hx).
  - intros r x k y [[-> <-] | [Hr Hx]]%lookup_insert_Some Hy Hp; [change (k < made p) |]; by eapply (i_fresh _ _ Hinv).
  - intros x y [H _]%Hf. by apply (i_pars _ _ Hinv).
  - intros x Hx Hn. destruct (pars s !! x) as [y |] eqn:E; [| by apply (i_orphan _ _ Hinv)].
    right. apply HB, elem_of_kids. destruct (decide (y = q)) as [-> | Hne]; [done |].
    rewrite (proj2 (Hf x y)) in Hn by done. done.
Qed.

Lemma exited_ok : den_proc q p = [] -> 1 < cost_proc q p -> (forall g, body p = Code g -> ~ complains g) ->
  (forall x, x ∈ kids q s -> B x) -> moved B s (exited q p s).
Proof using Hinv Hq.
  intros Hd Hc Hg HB. destruct (dens_put s (exited q p s) q p (mk_proc Zombie [] (made p)) Hq eq_refl) as (R & E1 & E2).
  destruct (costs_put s (exited q p s) q p (mk_proc Zombie [] (made p)) Hq eq_refl) as (C & C1 & C2).
  assert (E : total (exited q p s) ≡ₚ total s) by (unfold total; rewrite E1, E2, Hd; done).
  split; [by apply exited_inv | by rewrite E | by left | | cbn [cost_proc body] in C2; lia].
  eapply (faulty_put (exited q p s) (mk_proc Zombie [] (made p)) _ []); [done | cbn; by rewrite app_nil_r | done |].
  intros h Hh Hhc. by destruct (Hg h Hh).
Qed.

(** A zombie [x] without children is taken out of the pool, by its parent or by
    init. *)
Lemma kids_forget x r s' : pars s' = delete x (pars s) -> kids r s' = kids r s ∖ {[x]}.
Proof using.
  intros E. apply set_eq. intros y. rewrite elem_of_difference, !elem_of_kids, E, elem_of_singleton, lookup_delete_Some. naive_solver.
Qed.

Lemma kids_not x r : ~ pars s !! x = Some r -> kids r s ∖ {[x]} = kids r s.
Proof using. intros H. apply set_eq. intros y. rewrite elem_of_difference, elem_of_kids, elem_of_singleton. naive_solver. Qed.

Lemma forget_inv x s' : (forall y, pars s !! y <> Some x) ->
  dom (pool s') = dom (pool s) ∖ {[x]} -> pars s' = delete x (pars s) ->
  (forall r z, pool s' !! r = Some z -> wf_proc B s' r z /\ exists z0, pool s !! r = Some z0 /\ made z0 <= made z) ->
  inv B s'.
Proof using Hinv.
  intros Hx E Ep Hw. split; rewrite ?E, ?Ep.
  - intros r z Hz. by apply Hw.
  - intros r z k y (_ & z0 & Hz0 & Hle)%Hw [Hin _]%elem_of_difference Hp.
    eapply Nat.lt_le_trans; [| exact Hle]. by eapply (i_fresh _ _ Hinv).
  - intros y z [Hyx Hz]%lookup_delete_Some. destruct (i_pars _ _ Hinv y z Hz) as (H1 & H2 & H3).
    rewrite !elem_of_difference, !elem_of_singleton. split_and!; try done. intros ->. by apply (Hx y).
  - intros y [Hin Hyx]%elem_of_difference Hn. rewrite elem_of_singleton in Hyx. rewrite lookup_delete_ne in Hn by done.
    by apply (i_orphan _ _ Hinv).
Qed.

(** The zombie [q] is taken by init. *)
Lemma zombie_kids x z : pool s !! x = Some z -> body z = Zombie -> forall y, pars s !! y <> Some x.
Proof using Hinv.
  intros Hx Hz y Hy. pose proof (i_proc _ _ Hinv x z Hx) as H. unfold wf_proc in H. rewrite Hz in H.
  destruct H as [H _]. apply elem_of_kids in Hy. rewrite H in Hy. by apply elem_of_empty in Hy.
Qed.

Lemma orphan_ok : body p = Zombie -> pars s !! q = None -> moved B s (forget q s).
Proof using Hinv Hq.
  intros Hb Hn. assert (Hd : den_proc q p = []) by (unfold den_proc; by rewrite Hb).
  pose proof (dens_del s (forget q s) q p Hq eq_refl) as E. pose proof (costs_del s (forget q s) q p Hq eq_refl) as C.
  rewrite Hd in E. assert (Et : total (forget q s) ≡ₚ total s) by (unfold total; rewrite E; done).
  split; [| by rewrite Et | by left | | unfold cost_proc in C; rewrite Hb in C; lia].
  - apply (forget_inv q); [by eapply zombie_kids | cbn; apply dom_delete_L | done |].
    cbn [pool forget]. intros r z [Hr Hz]%lookup_delete_Some. split; [| by exists z].
    unfold wf_proc. rewrite (kids_forget q r (forget q s) eq_refl), kids_not by congruence. exact (i_proc _ _ Hinv r z Hz).
  - intros [H | (r & z & g & Hr & Hz & Hg)]; [by left |]. right. exists r, z, g. cbn.
    rewrite lookup_delete_ne; [done |]. intros ->. congruence.
Qed.

(** [q] waits for its child [x]. *)
Lemma reap_ok k x z : body p = Code (Wait k) -> pars s !! x = Some q -> pool s !! x = Some z -> body z = Zombie ->
  moved B s (forget x (put_proc q (mk_proc (Code k) (tab p) (made p)) s)).
Proof using Hinv Hq.
  intros Hb Hp Hx Hz. set (p' := mk_proc (Code k) (tab p) (made p)). set (s1 := put_proc q p' s).
  assert (Hne : q <> x) by congruence.
  pose proof (i_proc _ _ Hinv q p Hq) as Hw. unfold wf_proc in Hw. rewrite Hb in Hw.
  inversion Hw as [| | | | | | | ? ? ? ? ? ? Hord HW Hk | |]; subst.
  assert (Hx1 : pool s1 !! x = Some z) by (cbn; by rewrite lookup_insert_ne).
  destruct (dens_put s s1 q p p' Hq eq_refl) as (R & E1 & E2). destruct (costs_put s s1 q p p' Hq eq_refl) as (C & C1 & C2).
  pose proof (dens_del s1 (forget x s1) x z Hx1 eq_refl) as E3. pose proof (costs_del s1 (forget x s1) x z Hx1 eq_refl) as C3.
  assert (Hdz : den_proc x z = []) by (unfold den_proc; by rewrite Hz). rewrite Hdz in E3. cbn [app] in E3.
  assert (Hdp : den_proc q p' = den_proc q p) by (unfold den_proc; by rewrite Hb).
  assert (Hcp : cost_proc q p = S (cost_proc q p')) by (unfold cost_proc; by rewrite Hb).
  assert (Et : total (forget x s1) ≡ₚ total s) by (unfold total; cbn [trace forget put_proc s1]; by rewrite E1, <- E3, E2, Hdp).
  split; [| by rewrite Et | by left | | lia].
  - apply (forget_inv x); [by eapply zombie_kids | cbn; rewrite dom_delete_L; f_equal; apply dom_put | done |].
    cbn [pool forget put_proc s1]. intros r y [Hr [[<- <-] | [Hrq Hy]]%lookup_insert_Some]%lookup_delete_Some.
    + split; [| by exists p]. unfold wf_proc. rewrite (kids_forget x q (forget x s1) eq_refl). apply Hk. by apply elem_of_kids.
    + split; [| by exists y]. unfold wf_proc. rewrite (kids_forget x r (forget x s1) eq_refl), kids_not by congruence.
      exact (i_proc _ _ Hinv r y Hy).
  - intros [H | (r & y & g & Hr & Hy & Hg)]; [by left |]. right. exists r, y, g. cbn.
    rewrite lookup_delete_ne by (intros ->; congruence). rewrite lookup_insert_ne; [done |].
    intros ->. rewrite Hq in Hr. injection Hr as ->. rewrite Hb in Hy. injection Hy as <-. by destruct Hg as (? & ? & ? & _).
Qed.

(** [fork]. *)
Lemma child_fresh : q ++ [made p] ∉ dom (pool s).
Proof using Hinv Hq. intros H. pose proof (i_fresh _ _ Hinv q p (made p) _ Hq H (reflexivity _)). lia. Qed.

Definition forked_sys (k : forked -> calls) : sys :=
  mk_sys (<[q ++ [made p] := mk_proc (Code (k Child)) (tab p) 0]> (<[q := mk_proc (Code (k Parent)) (tab p) (S (made p))]> (pool s)))
    (<[q ++ [made p] := q]> (pars s)) (trace s).

Lemma kids_fork k r : kids r (forked_sys k) = if decide (r = q) then {[q ++ [made p]]} ∪ kids q s else kids r s.
Proof using Hinv Hq.
  assert (Hn : pars s !! (q ++ [made p]) = None).
  { destruct (pars s !! _) as [y |] eqn:E; [| done]. destruct child_fresh. by apply (i_pars _ _ Hinv) in E as [H _]. }
  apply set_eq. intros y. rewrite elem_of_kids. cbn. rewrite lookup_insert_Some.
  destruct (decide (r = q)) as [-> | Hr].
  - rewrite elem_of_union, elem_of_singleton, elem_of_kids. destruct (decide (y = q ++ [made p])); naive_solver.
  - rewrite elem_of_kids. split; [naive_solver |]. intros Hy. right. split; [| done]. intros <-. congruence.
Qed.

Lemma below_self (r : path) n : ~ r ++ [n] `prefix_of` r.
Proof using. intros H%prefix_length. rewrite length_app in H. cbn in H. lia. Qed.

Lemma prefix_snoc (r x : path) k n : r ++ [k] `prefix_of` x ++ [n] -> r ++ [k] `prefix_of` x \/ (r = x /\ k = n).
Proof using.
  intros [l E]. destruct l as [| a l _] using rev_ind.
  - rewrite app_nil_r in E. apply app_inj_tail in E as [-> ->]. by right.
  - left. rewrite (assoc_L (++)) in E. apply app_inj_tail in E as [-> _]. by exists l.
Qed.

Lemma fork_inv k : body p = Code (Fork k) -> inv B (forked_sys k).
Proof using Hinv Hq.
  intros Hb. pose proof (i_proc _ _ Hinv q p Hq) as Hw. unfold wf_proc in Hw. rewrite Hb in Hw.
  inversion Hw as [| | | | | | ? ? ? ? ? ? H1 H2 H3 H4 | | |]; subst. pose proof child_fresh as Hfr. pose proof q_in as Hin.
  assert (Hdom : forall x, x ∈ dom (pool (forked_sys k)) <-> x = q ++ [made p] \/ x ∈ dom (pool s)).
  { intros x. cbn [forked_sys pool]. rewrite dom_insert_L, dom_put, elem_of_union, elem_of_singleton. done. }
  split.
  - cbn [pool forked_sys]. intros r z [[<- <-] | [Hr [[<- <-] | [Hrq Hz]]%lookup_insert_Some]]%lookup_insert_Some;
      unfold wf_proc; rewrite kids_fork.
    + rewrite decide_False by (intros E; apply (f_equal length) in E; rewrite length_app in E; cbn in E; lia).
      cbn. replace (kids _ s) with (∅ : gset path); [done |]. symmetry. apply kids_empty. intros y Hy.
      by apply (i_pars _ _ Hinv) in Hy as (_ & Hy & _).
    + by rewrite decide_True.
    + rewrite decide_False by done. exact (i_proc _ _ Hinv r z Hz).
  - intros r z j x Hr Hx Hp. apply Hdom in Hx.
    assert (Hold : forall z0, pool s !! r = Some z0 -> x ∈ dom (pool s) -> j < made z0) by (intros; by eapply (i_fresh _ _ Hinv)).
    cbn [pool forked_sys] in Hr. apply lookup_insert_Some in Hr as [[<- <-] | [Hr [[<- <-] | [Hrq Hz]]%lookup_insert_Some]].
    + exfalso. destruct Hx as [-> | Hx]; [by apply below_self in Hp |].
      enough (made p < made p) by lia. eapply (i_fresh _ _ Hinv); [done | exact Hx |]. etrans; [| exact Hp]. by exists [j].
    + cbn. destruct Hx as [-> | Hx]; [| pose proof (Hold p Hq Hx); lia].
      apply prefix_snoc in Hp as [Hp | [_ ->]]; [by apply below_self in Hp | lia].
    + destruct Hx as [-> | Hx]; [| by apply Hold]. apply prefix_snoc in Hp as [Hp | [-> _]]; [| done].
      by eapply (i_fresh _ _ Hinv).
  - intros x y Hxy. rewrite !Hdom. cbn in Hxy. apply lookup_insert_Some in Hxy as [[<- <-] | [_ Hxy]];
      [split_and!; [by left | by right | by exists (made p)] |].
    destruct (i_pars _ _ Hinv x y Hxy) as (? & ? & ?). auto.
  - intros x Hx Hn. cbn in Hn. apply lookup_insert_None in Hn as [Hn Hne]. apply Hdom in Hx as [-> | Hx]; [done |].
    by apply (i_orphan _ _ Hinv).
Qed.

Lemma sh_fork_ok k : body p = Code (Fork k) -> moved B s (forked_sys k).
Proof using Hinv Hq.
  intros Hb. pose proof child_fresh as Hfr. pose proof q_in as Hin.
  set (p' := mk_proc (Code (k Parent)) (tab p) (S (made p))). set (c := mk_proc (Code (k Child)) (tab p) 0).
  set (s1 := put_proc q p' s).
  destruct (dens_put s s1 q p p' Hq eq_refl) as (R & E1 & E2). destruct (costs_put s s1 q p p' Hq eq_refl) as (C & C1 & C2).
  assert (Hc : pool (forked_sys k) !! (q ++ [made p]) = Some c) by (cbn; by rewrite lookup_insert_eq).
  assert (Ed : delete (q ++ [made p]) (pool (forked_sys k)) = pool s1).
  { cbn. rewrite delete_insert_id; [done |]. apply not_elem_of_dom. by rewrite dom_put. }
  pose proof (dens_del (forked_sys k) s1 _ c Hc (eq_sym Ed)) as E3.
  pose proof (costs_del (forked_sys k) s1 _ c Hc (eq_sym Ed)) as C3.
  assert (Hd : den_proc q p = den_proc (q ++ [made p]) c ++ den_proc q p') by (unfold den_proc; by rewrite Hb).
  assert (Hcost : cost_proc (q ++ [made p]) c + cost_proc q p' < cost_proc q p) by (unfold cost_proc; rewrite Hb; cbn; lia).
  assert (Et : total (forked_sys k) ≡ₚ total s).
  { unfold total. cbn [trace forked_sys]. rewrite E1, E3, E2, Hd. by rewrite <- (assoc_L (++) (den_proc _ c)). }
  split; [by apply fork_inv | by rewrite Et | by left | | lia].
  intros [H | (r & y & g & Hr & Hy & Hg)]; [by left |]. right. exists r, y, g. cbn.
  rewrite lookup_insert_ne by (intros <-; apply Hfr; by eapply elem_of_dom_2).
  rewrite lookup_insert_ne; [done |].
  intros ->. rewrite Hq in Hr. injection Hr as ->. rewrite Hb in Hy. injection Hy as <-. by destruct Hg as (? & ? & ? & _).
Qed.
End steps.

Section machine_theorems.
Context (reads : list str -> bool) (B : path -> Prop).

Lemma not_complains_exit : ~ complains Exit.
Proof using. by intros (? & ? & ? & _). Qed.

Ltac no_complaint := let H := fresh in intros (? & ? & H & _); discriminate H.

Lemma step_code_ok s s' q p ok g : inv (loose B s) s -> pool s !! q = Some p -> body p = Code g ->
  step_code q ok g (tab p) (made p) s = Some s' -> moved (loose B s') s s'.
Proof using reads.
  intros Hinv Hq Hb Hs. pose proof (i_proc _ _ Hinv q p Hq) as Hw. unfold wf_proc in Hw. rewrite Hb in Hw.
  assert (Hden : den_proc q p = den q (made p) (tab p) g) by (unfold den_proc; by rewrite Hb).
  assert (Hcost : cost_proc q p = cost q (made p) (tab p) g) by (unfold cost_proc; by rewrite Hb).
  assert (Hgo : forall g' t' n' evs, made p <= n' -> wf (fun x => loose B s x \/ complained evs = true) q n' (kids q s) t' g' ->
     cost q n' t' g' < cost q (made p) (tab p) g -> (complains g -> complained evs = true) -> launches evs = [] ->
     (den q n' t' g' = den q (made p) (tab p) g \/ den q n' t' g' = [] /\ complains g') ->
     s' = mk_sys (<[q := mk_proc (Code g') t' n']> (pool s)) (pars s) (trace s ++ evs) -> moved (loose B s') s s').
  { intros g' t' n' evs H1 H2 H3 H4 H5 H6 ->.
    eapply (local_ok (loose B s) s q p Hinv Hq _ _ (mk_proc (Code g') t' n') g evs); [| done | done | done | done | done | | | done |].
    - intros x. unfold loose. cbn. rewrite complained_app, orb_true_iff. tauto.
    - eapply wf_proc_mono; [exact H2 |]. intros x. unfold loose. cbn. rewrite complained_app, orb_true_iff. tauto.
    - rewrite Hcost. exact H3.
    - rewrite H5, Hden. destruct H6 as [H6 | [H6 H7]]; [left; exact H6 | right]. split; [done |]. split; [exact H6 |]. by exists g'. }
  assert (Hput : forall g' t' n', mk_sys (<[q := mk_proc (Code g') t' n']> (pool s)) (pars s) (trace s ++ []) =
    put_proc q (mk_proc (Code g') t' n') s) by (intros; unfold put_proc; by rewrite app_nil_r).
  assert (Hwk : forall g' t' n', wf (loose B s) q n' (kids q s) t' g' -> wf (fun x => loose B s x \/ complained [] = true) q n' (kids q s) t' g')
    by (intros g' t' n' H; eapply wf_mono; [exact H | by left]).
  inversion Hw as [? ? ? ? ? HB | ? ? ? ? ? ? ? Hord Hk Hf Hc E2 E3 E4 | ? ? ? ? ? ? ? Hk | ? ? ? ? ? ? ? Hk | ? ? ? ? ? ? ? ? HN HF HS
    | ? ? ? ? ? ? HN HF HS | ? ? ? ? ? ? HN HF HC HP
    | ? ? ? ? ? ? Hord HW Hk | ? ? ? ? ? ? ? Hpr Hk | ? ? ? ? ? ? ? Ht Hf Hfl]; subst; cbn [step_code] in Hs.
  - injection Hs as <-. apply (exited_ok (loose B s) s q p Hinv Hq); [done | rewrite Hcost; cbn; lia | | done].
    intros g. rewrite Hb. intros [= <-]. no_complaint.
  - destruct ok; injection Hs as <-.
    + eapply (local_ok (loose B s) s q p Hinv Hq _ _ (mk_proc (Run argv) (tab p) (made p)) _ [Launch (q, argv, opened 0 (tab p))]);
        [intros x; unfold loose; cbn; rewrite complained_app, orb_true_iff; tauto | done | done | done | done | done | by split | rewrite Hcost; cbn; lia | no_complaint | left; by rewrite Hden].
    + eapply Hgo with (evs := []); [done | apply Hwk; match goal with H : ∅ = kids _ _ |- _ => rewrite <- H; exact Hk end | cbn; lia | no_complaint | done | | symmetry; apply Hput].
      destruct Hf as [Hf | [Hf _]]; by right.
  - injection Hs as <-. by eapply Hgo with (evs := []); [| apply Hwk; exact Hk | cbn; lia | no_complaint | | left | symmetry; apply Hput].
  - injection Hs as <-. by eapply Hgo with (evs := []); [| apply Hwk; exact Hk | cbn; lia | no_complaint | | left | symmetry; apply Hput].
  - destruct (lowest_fd (Fl f m) (tab p)) as [r |] eqn:Er; [destruct ok |]; injection Hs as <-.
    + eapply Hgo with (evs := []); [done | by apply Hwk, HS | cbn; rewrite Er; lia | no_complaint | done | left; cbn; by rewrite Er | symmetry; apply Hput].
    + eapply Hgo with (evs := []); [done | by apply Hwk | cbn; rewrite Er; lia | no_complaint | done | exact HF | symmetry; apply Hput].
    + eapply Hgo with (evs := []); [done | by apply Hwk | cbn; rewrite Er; lia | no_complaint | done | exact HF | symmetry; apply Hput].
  - destruct (pipe_ends _ (tab p)) as [r |] eqn:Er; [destruct ok |]; injection Hs as <-.
    + eapply Hgo with (evs := []); [| by apply Hwk, HS | cbn; rewrite Er; lia | no_complaint | done | left; cbn; by rewrite Er | symmetry; apply Hput]. lia.
    + eapply Hgo with (evs := []); [done | by apply Hwk | cbn; rewrite Er; lia | no_complaint | done | exact HF | symmetry; apply Hput].
    + eapply Hgo with (evs := []); [done | by apply Hwk | cbn; rewrite Er; lia | no_complaint | done | exact HF | symmetry; apply Hput].
  - destruct ok; injection Hs as <-.
    + by apply (sh_fork_ok (loose B s) s q p Hinv Hq).
    + eapply Hgo with (evs := []); [done | by apply Hwk | cbn; lia | no_complaint | done | exact HF | symmetry; apply Hput].
  - unfold has_kids in Hs. case_bool_decide as Hno; [| done]. exfalso. apply HW, kids_empty. intros x Hx. by apply (Hno x q).
  - injection Hs as <-. eapply Hgo with (evs := [Text q text]);
      [done | eapply wf_mono; [exact Hk |] | cbn; lia | | done | by left | done].
    { intros x [H | H]; [by left | right]. cbn. by rewrite bool_decide_eq_false_2. }
    intros (t & k' & [= -> ->] & Ht). cbn. by rewrite bool_decide_eq_false_2.
  - injection Hs as <-. destruct ok.
    + eapply Hgo with (evs := []); [done | apply Hwk, Ht | cbn; lia | no_complaint | done | by left | symmetry; apply Hput].
    + eapply Hgo with (evs := []); [done | apply Hwk, Hf | cbn; lia | no_complaint | done | exact Hfl | symmetry; apply Hput].
Qed.

Lemma step_ok s s' c : inv (loose B s) s -> step reads c s = Some s' -> moved (loose B s') s s'.
Proof using.
  intros Hinv Hs. destruct c as [q a]. unfold step in Hs. cbn [fst snd] in Hs.
  destruct (pool s !! q) as [p |] eqn:Hq; [| done]. cbn [mbind option_bind] in Hs.
  destruct (body p) as [g | argv |] eqn:Hb, a as [ok | x].
  - assert (Hs' : step_code q ok g (tab p) (made p) s = Some s') by (by destruct g). by eapply step_code_ok.
  - destruct g; try done. destruct (pars s !! x) as [y |] eqn:Hx; [| done]. destruct (pool s !! x) as [z |] eqn:Hz; [| done].
    cbn in Hs. destruct (body z) eqn:Ez; try done. case_bool_decide; [| done]. injection Hs as <-. subst. by apply (reap_ok (loose B s) s q p Hinv Hq _ _ z).
  - destruct (may_end _ _ _ _); [| done]. injection Hs as <-. pose proof (i_proc _ _ Hinv q p Hq) as Hw. unfold wf_proc in Hw. rewrite Hb in Hw.
    apply (exited_ok (loose B s) s q p Hinv Hq); [unfold den_proc; by rewrite Hb | unfold cost_proc; rewrite Hb; lia | congruence |].
    destruct Hw as [_ ->]. intros x Hx. by apply elem_of_empty in Hx.
  - done.
  - destruct (pars s !! q) eqn:E; [done |]. injection Hs as <-. by apply (orphan_ok (loose B s) s q p Hinv Hq).
  - done.
Qed.

Lemma run_ok cs : forall s s', inv (loose B s) s -> run reads cs s = Some s' ->
  inv (loose B s') s' /\ total s' ⊆+ total s /\ (total s' ≡ₚ total s \/ faulty s') /\ (faulty s -> faulty s') /\ length cs + costs s' <= costs s.
Proof using.
  induction cs as [| c cs IH]; intros s s' Hinv Hr; cbn in Hr.
  - injection Hr as <-. split_and!; auto.
  - destruct (step reads c s) as [s1 |] eqn:Es; [| done]. destruct (step_ok s s1 c Hinv Es) as [H1 H2 H3 H4 H5].
    destruct (IH s1 s' H1 Hr) as (I1 & I2 & I3 & I4 & I5). split_and!; [done | by etrans | | auto | cbn; lia].
    destruct I3 as [I3 | I3]; [| by right]. destruct H3 as [H3 | H3]; [left; by etrans | right; auto].
Qed.
End machine_theorems.

(** ** No deadlock *)

(** Strict order of paths at the first place where they differ. *)
Fixpoint leftof (a b : path) : bool :=
  match a, b with
  | x :: a, y :: b => (x <? y) || ((x =? y) && leftof a b)
  | _, _ => false
  end.

Lemma leftof_irrefl a : leftof a a = false.
Proof. induction a as [| x a IH]; cbn [leftof]; [done |]. by rewrite Nat.ltb_irrefl, Nat.eqb_refl, IH. Qed.

Lemma leftof_trans a b c : leftof a b = true -> leftof b c = true -> leftof a c = true.
Proof.
  revert b c. induction a as [| x a IH]; intros [| y b] [| z c]; cbn [leftof]; try done.
  rewrite !orb_true_iff, !andb_true_iff, !Nat.ltb_lt, !Nat.eqb_eq.
  intros [H1 | [-> H1]] [H2 | [-> H2]]; [left; lia | by left | by left | right; eauto].
Qed.

Lemma leftof_split m i j a b : i < j -> m ++ [i] `prefix_of` a -> m ++ [j] `prefix_of` b -> leftof a b = true.
Proof.
  intros Hij [u ->] [v ->]. rewrite <- !(assoc_L (++)). cbn [app]. induction m as [| x m IH]; cbn [app leftof].
  - by rewrite (proj2 (Nat.ltb_lt i j) Hij).
  - by rewrite Nat.eqb_refl, IH, orb_true_r.
Qed.

Section sh_progress.
Context (reads : list str -> bool) (B : path -> Prop) (s : sys).
Hypothesis Hinv : inv B s.
Hypothesis Hstuck : forall q x, q ∈ dom (pool s) -> x ∈ dom (pool s) ->
  step reads (q, Do true) s = None /\ step reads (q, Reap x) s = None.

(** A process that cannot move waits for children that are alive, or it is a
    program that reads from a pipe with a writer. *)
Lemma stuck_cases q p : pool s !! q = Some p ->
  (ordered q (tab p) /\ exists x z, pool s !! x = Some z /\ pars s !! x = Some q) \/
  (exists argv x h z, body p = Run argv /\ tab p !! 0 = Some (Some (Pr x)) /\ ordered q (tab p) /\
     pool s !! h = Some z /\ Some (Pw x) ∈ tab z).
Proof using Hinv Hstuck.
  intros Hq. pose proof (i_proc _ _ Hinv q p Hq) as Hw. unfold wf_proc in Hw.
  pose proof (proj1 (Hstuck q q ltac:(by eapply elem_of_dom_2) ltac:(by eapply elem_of_dom_2))) as Hs. unfold step in Hs. cbn [fst snd] in Hs. rewrite Hq in Hs. cbn [mbind option_bind] in Hs.
  destruct (body p) as [g | argv |] eqn:Hb.
  - destruct g as [| f argv k | fd k | fd k | f m k | k | k | k | t k | d k]; cbn [step_code] in Hs; try done.
    left. inversion Hw as [| | | | | | | ? ? ? ? ? ? Hord HW Hk | |]; subst. split; [done |].
    apply set_choose_L in HW as [x Hx]. apply elem_of_kids in Hx. destruct (i_pars _ _ Hinv x q Hx) as [[z Hz]%elem_of_dom _].
    by exists x, z.
  - right. destruct Hw as [Hord _]. unfold may_end in Hs.
    destruct (tab p !! 0) as [[[n | x | x | f m] |] |] eqn:E0; try done.
    destruct (reads argv && held (Pw x) s) eqn:Eh; [| done]. apply andb_true_iff in Eh as [_ Eh]. unfold held in Eh.
    apply negb_true_iff, bool_decide_eq_false in Eh.
    assert (HE : exists h z, pool s !! h = Some z /\ Some (Pw x) ∈ tab z); [| naive_solver].
    apply map_not_Forall in Eh as (h & z & Hz & Hn); [| apply _]. exists h, z. split; [done |]. by apply dec_stable.
  - exfalso. destruct (pars s !! q) as [y |] eqn:Ey; [| done].
    destruct (i_pars _ _ Hinv q y Ey) as (_ & [py Hy]%elem_of_dom & _). pose proof (i_proc _ _ Hinv y py Hy) as Hwy.
    pose proof (proj2 (elem_of_kids q y s) Ey) as Hk. unfold wf_proc in Hwy.
    destruct (body py) as [g | argv |] eqn:Hby; [| by destruct Hwy as [_ Hwy]; rewrite Hwy in Hk | by destruct Hwy as [Hwy _]; rewrite Hwy in Hk].
    destruct (Hstuck y q ltac:(by eapply elem_of_dom_2) ltac:(by eapply elem_of_dom_2)) as [Hsy Hr]. unfold step in Hsy. cbn [fst snd] in Hsy. rewrite Hy in Hsy. cbn [mbind option_bind] in Hsy.
    rewrite Hby in Hsy. destruct g; cbn [step_code] in Hsy; try done.
    unfold step in Hr. cbn [fst snd] in Hr. rewrite Hy in Hr. cbn [mbind option_bind] in Hr.
    rewrite Hby, Ey, Hq in Hr. cbn [mbind option_bind] in Hr. rewrite Hb, bool_decide_true in Hr; done.
Qed.

Lemma pool_bound : exists N, forall x, x ∈ dom (pool s) -> length x <= N.
Proof using.
  generalize (pool s). intros m. induction m as [| i x m Hi [N IH]] using map_ind.
  - exists 0. intros x. rewrite dom_empty. by intros ?%elem_of_empty.
  - exists (N + length i). intros y. rewrite dom_insert_L. intros [->%elem_of_singleton | Hy]%elem_of_union; [lia |].
    specialize (IH y Hy). lia.
Qed.

(** Below every process there is a program. *)
Lemma stuck_program q p : pool s !! q = Some p ->
  exists r z argv, pool s !! r = Some z /\ body z = Run argv /\ q `prefix_of` r.
Proof using Hinv Hstuck.
  destruct pool_bound as [N HN]. remember (S N - length q) as d eqn:Ed. revert q p Ed.
  induction d as [d IH] using lt_wf_ind. intros q p -> Hq. assert (HNq := HN q (elem_of_dom_2 _ _ _ Hq)).
  destruct (stuck_cases q p Hq) as [(_ & x & z & Hx & Hp) | (argv & _ & _ & _ & Hb & _)]; [| by exists q, p, argv].
  destruct (i_pars _ _ Hinv x q Hp) as (Hin & _ & k & ->). assert (HNx := HN _ Hin). rewrite length_app in HNx. cbn in HNx.
  destruct (IH (S N - length (q ++ [k]))) with (q := q ++ [k]) (p := z) as (r & y & argv & Hr & Hy & Hpre);
    [rewrite length_app; cbn; lia | done | done |].
  exists r, y, argv. split_and!; [done | done |]. etrans; [| exact Hpre]. by exists [k].
Qed.

Definition is_run (p : task) : bool := match body p with Run _ => true | _ => false end.
Definition programs : gset path := dom (filter (fun qp => is_run qp.2 = true) (pool s)).

Lemma elem_of_programs q : q ∈ programs <-> exists p argv, pool s !! q = Some p /\ body p = Run argv.
Proof using.
  unfold programs. rewrite elem_of_dom. split.
  - intros [p [Hp Hb]%map_lookup_filter_Some]. unfold is_run in Hb. cbn in Hb. destruct (body p) eqn:E; try done. eauto.
  - intros (p & argv & Hp & Hb). exists p. apply map_lookup_filter_Some. split; [done |]. unfold is_run. cbn. by rewrite Hb.
Qed.

(** Left of every program there is another one. *)
Lemma stuck_left q : q ∈ programs -> exists r, r ∈ programs /\ leftof r q = true.
Proof using Hinv Hstuck.
  intros (p & argv & Hq & Hb)%elem_of_programs. pose proof (i_proc _ _ Hinv q p Hq) as Hw. unfold wf_proc in Hw. rewrite Hb in Hw.
  destruct (stuck_cases q p Hq) as [(_ & x & z & _ & Hx%elem_of_kids) | (argv' & x & h & z & _ & H0 & Hord & Hh & Hx)].
  { destruct Hw as [_ Hw]. rewrite Hw in Hx. by apply elem_of_empty in Hx. }
  assert (Hoz : ordered h (tab z)) by (destruct (stuck_cases h z Hh) as [[? _] | (? & ? & ? & ? & _ & _ & ? & _)]; done).
  specialize (Hoz _ Hx). cbn in Hoz. destruct Hoz as (m & k & -> & Hpre).
  specialize (Hord _ (list_elem_of_lookup_2 _ _ _ H0)). cbn in Hord. destruct Hord as (m' & k' & E & Hpre').
  apply app_inj_tail in E as [<- <-].
  destruct (stuck_program h z Hh) as (r & y & av & Hr & Hy & Hhr). exists r. split; [apply elem_of_programs; eauto |].
  apply (leftof_split m (k + 1) (k + 2)); [lia | by etrans | done].
Qed.

Lemma stuck_empty : pool s = ∅.
Proof using Hinv Hstuck.
  destruct (decide (pool s = ∅)) as [| Hne]; [done | exfalso]. apply map_choose in Hne as (q & p & Hq).
  destruct (stuck_program q p Hq) as (r & z & argv & Hr & Hz & _).
  assert (Hp : programs <> ∅) by (intros E; apply (not_elem_of_empty (C := gset path) r); rewrite <- E; apply elem_of_programs; eauto).
  assert (Htr : Transitive (fun a b => leftof a b = true)) by (intros a b c; apply leftof_trans).
  assert (Hdec : forall a b, Decision (leftof a b = true)) by (intros; apply _).
  destruct (minimal_exists_elem_of_L (fun a b => leftof a b = true) programs Hp) as (x & Hx & Hmin).
  destruct (stuck_left x Hx) as (y & Hy & Hl). specialize (Hmin y Hy Hl).
  pose proof (leftof_trans _ _ _ Hl Hmin) as H. by rewrite leftof_irrefl in H.
Qed.
End sh_progress.

(** A machine that is not finished has a step. *)
Lemma sh_progress reads B s : inv B s -> pool s <> ∅ -> exists c s', step reads c s = Some s'.
Proof.
  intros Hinv Hne.
  destruct (decide (set_Exists (fun q => is_Some (step reads (q, Do true) s) \/
    set_Exists (fun x => is_Some (step reads (q, Reap x) s)) (dom (pool s))) (dom (pool s)))) as [(q & _ & H) | Hno].
  - destruct H as [[s' Hs] | (x & _ & s' & Hs)]; eauto.
  - destruct Hne. apply (stuck_empty reads B s Hinv). intros q x Hq Hx. split.
    + apply eq_None_not_Some. intros H. apply Hno. exists q. auto.
    + apply eq_None_not_Some. intros H. apply Hno. exists q. split; [done |]. right. by exists x.
Qed.

(** ** Who is left *)

(** When a process has no children, what is still alive below it was started in
    the background. *)
Lemma left_behind B s q : inv B s -> kids q s = ∅ ->
  forall x, x ∈ dom (pool s) -> q `prefix_of` x -> x <> q ->
  exists y, B y /\ y `prefix_of` x /\ q `prefix_of` y /\ y <> q.
Proof.
  intros Hinv Hk x. remember (length x) as n eqn:En. revert x En. induction n as [n IH] using lt_wf_ind. intros x -> Hx Hp Hne.
  destruct (pars s !! x) as [y |] eqn:Ey.
  - destruct (i_pars _ _ Hinv x y Ey) as (_ & Hy & k & ->).
    assert (Hyq : y <> q). { intros ->. apply elem_of_kids in Ey. rewrite Hk in Ey. by apply elem_of_empty in Ey. }
    assert (Hpy : q `prefix_of` y).
    { destruct Hp as [l E]. destruct l as [| a l _] using rev_ind; [by rewrite app_nil_r in E |].
      rewrite (assoc_L (++)) in E. apply app_inj_tail in E as [-> _]. by exists l. }
    destruct (IH (length y)) with (x := y) as (z & H1 & H2 & H3); [rewrite length_app; cbn; lia | done | done | done | done |].
    exists z. split_and!; [done | | by destruct H3 | by destruct H3]. etrans; [exact H2 |]. by exists [k].
  - destruct (i_orphan _ _ Hinv x Hx Ey) as [-> | HB]; [| by exists x]. destruct Hne. by apply prefix_nil_inv in Hp.
Qed.

(** ** The code of the shell keeps the discipline *)
Lemma ordered_std q i o e : obj_ok q i -> obj_ok q o -> obj_ok q e -> ordered q (std i o e).
Proof.
  intros Hi Ho He x. unfold std. rewrite elem_of_app. intros [H | H].
  - repeat (apply elem_of_cons in H as [[= ->] | H]; [done |]). by apply elem_of_nil in H.
  - by apply elem_of_replicate in H as [H _].
Qed.

Lemma obj_ok_below q l o : obj_ok q o -> obj_ok (q ++ l) o.
Proof.
  destruct o; cbn; try done; intros (m & k & -> & Hp); exists m, k; (split; [done |]); (etrans; [exact Hp | by exists l]).
Qed.

Lemma not_prompt s : s ++ [10%Z] <> prompt.
Proof. change prompt with ([36%Z] ++ [32%Z]). by intros [_ [=]]%app_inj_tail. Qed.

Lemma wf_complaint B q n W t m : m <> prompt -> wf B q n W t (Print m Exit).
Proof. intros Hm. constructor; [done |]. constructor. intros. by right. Qed.

Lemma wf_complaint2 B q n W t m m' : m <> prompt -> m' <> prompt -> wf B q n W t (Print m (Print m' Exit)).
Proof. intros Hm Hm'. constructor; [done |]. by apply wf_complaint. Qed.

Lemma falls_complaint q n t m L : m <> prompt -> falls q n t (Print m Exit) L.
Proof. intros Hm. right. split; [done |]. by exists m, Exit. Qed.

Lemma wf_fork1 B q n W t k : wf B (q ++ [n]) 0 ∅ t (k true) -> wf B q (S n) ({[q ++ [n]]} ∪ W) t (k false) ->
  wf B q n W t (fork1 k).
Proof.
  intros Hc Hp. apply wf_fork; [apply wf_complaint, not_prompt | apply falls_complaint, not_prompt | exact Hc | exact Hp].
Qed.

Section runcmd.
Context (buf : str) (m : mem).

(** The strings of the words of [c] are in the memory. *)
Definition loaded (c : cmd) : Prop := forall w, w ∈ words c -> str_of m (fst w) = word_of buf w.

Lemma loaded_args argv : loaded (EXEC argv) -> map (fun w => str_of m (fst w)) argv = map (word_of buf) argv.
Proof. intros H. apply map_ext_in. intros w Hw. apply H, list_elem_of_In, Hw. Qed.

Lemma loaded_app c l r : words c = words l ++ words r -> loaded c -> loaded l /\ loaded r.
Proof. intros E H. split; intros w Hw; apply H; rewrite E; apply elem_of_app; auto. Qed.

Lemma redir_table fd x i o e : (fd = 0 \/ fd = 1)%Z -> exists i' o',
  lowest_fd x (<[Z.to_nat fd := None]> (std i o e)) = Some (Z.to_nat fd, std i' o' e) /\
  (i', o') = if (fd =? 0)%Z then (x, o) else (i, x).
Proof. intros [-> | ->]; [exists x, o | exists i, x]; by split. Qed.

Lemma den_runcmd c : cmd_ok buf c -> loaded c -> forall q n i o e,
  den q n (std i o e) (runcmd m c) = denote q n (text buf c) i o e.
Proof.
  induction c as [argv | c IH file efile mode fd | l IHl r IHr | l IHl r IHr | c IH]; intros Hok Hld q n i o e.
  - cbn [text]. rewrite <- loaded_args by done. destruct argv; reflexivity.
  - destruct Hok as (Hc & _ & Hfd). cbn [runcmd den text denote].
    assert (E : str_of m file = word_of buf (file, efile)) by (apply (Hld (file, efile)); cbn; apply elem_of_app; right; by left).
    rewrite E. destruct (redir_table fd (Fl (word_of buf (file, efile)) mode) i o e Hfd) as (i' & o' & -> & Eio). cbn [fst snd].
    rewrite IH; [| done | intros w Hw; apply Hld; cbn; apply elem_of_app; by left].
    destruct (fd =? 0)%Z; by injection Eio as -> ->.
  - destruct Hok as [Hl Hr]. destruct (loaded_app (PIPE l r) l r eq_refl Hld) as [Ll Lr]. cbn [text denote].
    rewrite <- (IHl Hl Ll), <- (IHr Hr Lr), <- (app_nil_r (den (q ++ [S (S n)]) _ _ _)). done.
  - destruct Hok as [Hl Hr]. destruct (loaded_app (LIST l r) l r eq_refl Hld) as [Ll Lr]. cbn [text denote].
    by rewrite <- (IHl Hl Ll), <- (IHr Hr Lr).
  - cbn [text denote]. rewrite <- (IH Hok Hld). apply app_nil_r.
Qed.

Lemma wf_runcmd c : cmd_ok buf c -> loaded c -> forall B q n i o e,
  (forall x, x ∈ backs q n (text buf c) -> B x) -> obj_ok q i -> obj_ok q o -> obj_ok q e ->
  wf B q n ∅ (std i o e) (runcmd m c).
Proof.
  induction c as [argv | c IH file efile mode fd | l IHl r IHr | l IHl r IHr | c IH]; intros Hok Hld B q n i o e HB Hi Ho He.
  - destruct argv as [| w argv]; cbn [runcmd]; [by constructor |].
    assert (Hn : m_exec ++ str_of m (fst w) ++ m_failed <> prompt) by done.
    constructor; [by apply ordered_std | by apply wf_complaint | by apply falls_complaint | by eexists _, _].
  - destruct Hok as (Hc & _ & Hfd). cbn [runcmd]. constructor.
    assert (Hn : m_open ++ str_of m file ++ m_failed <> prompt) by done.
    constructor; [by apply wf_complaint | by apply falls_complaint |]. intros r Er.
    destruct (redir_table fd (Fl (str_of m file) mode) i o e Hfd) as (i' & o' & E & Eio). rewrite Er in E. injection E as ->. cbn [fst snd].
    apply IH; [done | intros w Hw; apply Hld; cbn; apply elem_of_app; by left | done | | | done]; destruct (fd =? 0)%Z; by injection Eio as -> ->.
  - destruct Hok as [Hl Hr]. destruct (loaded_app (PIPE l r) l r eq_refl Hld) as [Ll Lr]. cbn [text backs] in HB.
    cbn [runcmd]. apply wf_pipe; [apply wf_complaint, not_prompt | apply falls_complaint, not_prompt |].
    intros x Hx. injection Hx as <-. cbn [fst snd]. apply wf_fork1; [| apply wf_fork1].
    + do 4 constructor. apply (IHl Hl Ll); [intros; apply HB, elem_of_app; by left | by apply obj_ok_below | | by apply obj_ok_below].
      exists q, n. split; [done |]. by rewrite Nat.add_1_r.
    + do 4 constructor. apply (IHr Hr Lr); [intros; apply HB, elem_of_app; by right | | by apply obj_ok_below | by apply obj_ok_below].
      exists q, n. split; [done |]. by replace (n + 2) with (S (S n)) by lia.
    + do 2 constructor. set (W := _ ∪ (_ ∪ _)). apply wf_wait; [by apply (ordered_std q i o e) | set_solver |].
      assert (HW : forall x y, x ∈ W -> y ∈ W ∖ {[x]} -> W ∖ {[x]} ∖ {[y]} = ∅).
      { intros x y Hx Hy. apply set_eq. intros z. set_solver. }
      intros x Hx. apply wf_wait; [by apply (ordered_std q i o e) | |].
      * intros E.
        assert (H1 : q ++ [S n] ∈ W) by set_solver. assert (H2 : q ++ [S (S n)] ∈ W) by set_solver.
        assert (Hne : q ++ [S n] <> q ++ [S (S n)]) by (intros [_ [=]]%app_inj_tail; lia).
        destruct (decide (x = q ++ [S n])) as [-> | Hx1]; [| assert (q ++ [S n] ∈ W ∖ {[x]}) by set_solver; set_solver].
        assert (q ++ [S (S n)] ∈ W ∖ {[q ++ [S n]]}) by set_solver. set_solver.
      * intros y Hy. rewrite HW by done. by constructor.
  - destruct Hok as [Hl Hr]. destruct (loaded_app (LIST l r) l r eq_refl Hld) as [Ll Lr]. cbn [text backs] in HB.
    cbn [runcmd]. apply wf_fork1.
    + apply (IHl Hl Ll); [intros; apply HB, elem_of_app; by left | by apply obj_ok_below..].
    + apply wf_wait; [by apply ordered_std | set_solver |]. intros x Hx.
      replace (_ ∖ _) with (∅ : gset path) by (symmetry; apply set_eq; set_solver).
      apply (IHr Hr Lr); [intros; apply HB, elem_of_app; by right | done..].
  - cbn [runcmd]. cbn [text backs] in HB. apply wf_fork1.
    + apply (IH Hok Hld); [intros; apply HB; by right | by apply obj_ok_below..].
    + constructor. intros x Hx. apply HB. rewrite elem_of_union, elem_of_singleton in Hx. destruct Hx as [-> | []%elem_of_empty]. by left.
Qed.
End runcmd.

Lemma cstr_string m a x : string_at m a x -> cstr (drop a m) = x.
Proof.
  intros [E Hnz]. unfold slice in E. rewrite <- (take_drop (S (length x)) (drop a m)), E, <- (assoc_L (++)). clear E.
  generalize (drop (S (length x)) (drop a m)). intros r. induction Hnz as [| b x Hb _ IH]; [done |]. cbn. destruct (Z.eqb_spec b 0); [done |]. f_equal. exact IH.
Qed.

Section lines.
Abbreviation text_line := (Forall (fun c : Z => c <> 0%Z)).

(** [parsecmd] up to its test that the line was read to the end. *)
Lemma parsecmd_split buf fuel x :
  parsecmd buf fuel x =
  match (c ← parseline buf fuel; peek buf [];; mret c) x with
  | Ret c s => if negb (s =? length buf) then Stop "syntax" else Ret c s
  | Stop msg => Stop msg | Prelude.Block c s => Prelude.Block c s | OutOfFuel => OutOfFuel
  end.
Proof.
  unfold parsecmd, mbind, M_bind. destruct (parseline buf fuel x) as [c s | | |]; [| done..].
  destruct (peek buf [] s) as [b s' | | |]; [| done..]. cbn. by destruct (s' =? length buf).
Qed.

(** A line that parses is loaded; one that does not ends the child. *)
Lemma run_line_cases buf : text_line buf ->
  (exists c, line_tree buf = Some (text buf c) /\ cmd_ok buf c /\
     loaded buf (nulterminate c (buf ++ [0%Z])) c /\ run_parsed buf = runcmd (nulterminate c (buf ++ [0%Z])) c) \/
  (line_tree buf = None /\ exists msg, msg <> prompt /\
     (run_parsed buf = Print msg Exit \/ exists msg', msg' <> prompt /\ run_parsed buf = Print msg (Print msg' Exit))).
Proof.
  intros Hb. pose proof (parsecmd_ok buf Hb) as H. unfold okp in H. unfold line_tree, run_parsed.
  rewrite parsecmd_split in *.
  set (r := (c ← parseline buf (4 * length buf + 4); peek buf [];; mret c) 0) in *. destruct r as [c x | msg | |]; [| right | done | done].
  - destruct (x =? length buf) eqn:Ex; cbn [negb] in *.
    + left. destruct H as [_ Hc]. exists c. split_and!; [done | done | | done]. intros w Hw.
      apply cstr_string, word_string; [done | by apply cmd_ok_words | done].
    + right. split; [done |]. eexists. split; [| right; eexists; split; [| done]; apply not_prompt].
      rewrite (assoc_L (++)). apply not_prompt.
  - split; [done |]. eexists. split; [| by left]. apply not_prompt.
Qed.

Lemma den_line buf q i o e : text_line buf -> den q 0 (std i o e) (run_parsed buf) = job_denote i o e (q, buf).
Proof.
  intros Hb. unfold job_denote. cbn [fst snd].
  destruct (run_line_cases buf Hb) as [(c & -> & Hok & Hld & ->) | (-> & msg & _ & [-> | (msg' & _ & ->)])]; [by apply den_runcmd | done..].
Qed.

Lemma wf_line B buf q i o e : text_line buf -> (forall x, x ∈ job_backs (q, buf) -> B x) ->
  obj_ok q i -> obj_ok q o -> obj_ok q e -> wf B q 0 ∅ (std i o e) (run_parsed buf).
Proof.
  intros Hb HB Hi Ho He. unfold job_backs in HB. cbn [fst snd] in HB.
  destruct (run_line_cases buf Hb) as [(c & E & Hok & Hld & ->) | (_ & msg & Hm & [-> | (msg' & Hm' & ->)])];
    [| by apply wf_complaint | by apply wf_complaint2].
  rewrite E in HB. by apply (wf_runcmd buf).
Qed.


Lemma den_main lines i o e : Forall text_line lines -> forall n,
  den [] n (std i o e) (main_loop lines) = meaning n lines i o e.
Proof.
  intros Hl. induction Hl as [| buf lines Hb Hl IH]; intros n; [done |]. cbn [main_loop getcmd den]. unfold meaning. cbn [jobs].
  case_bool_decide; [done |]. cbn [negb]. destruct (is_cd buf); [apply IH |]. cbn [map concat]. rewrite <- den_line by done.
  unfold fork1. cbn [den]. f_equal. apply IH.
Qed.

Lemma wf_main lines i o e : Forall text_line lines -> obj_ok [] i -> obj_ok [] o -> obj_ok [] e ->
  forall B n, (forall x, x ∈ leftover n lines -> B x) -> wf B [] n ∅ (std i o e) (main_loop lines).
Proof.
  intros Hl Hi Ho He. induction Hl as [| buf lines Hb Hl IH]; intros B n HB; (apply wf_print; [done |]); [by constructor |].
  unfold leftover in HB. cbn [jobs] in HB. case_bool_decide; [by constructor |]. cbn [negb]. destruct (is_cd buf).
  - apply wf_chdir; [apply IH; auto | | by left]. apply wf_print; [done |]. apply IH. auto.
  - cbn [map concat] in HB. apply wf_fork1.
    + apply wf_line; [done | intros; left; apply HB, elem_of_app; by left | by apply (obj_ok_below [])..].
    + apply wf_wait; [by apply ordered_std | set_solver |]. intros x Hx.
      replace (_ ∖ _) with (∅ : gset path) by (symmetry; apply set_eq; set_solver).
      apply IH. intros y Hy. left. apply HB, elem_of_app. by right.
Qed.


Lemma shell_inv lines : Forall text_line lines -> inv (loose (fun x => x ∈ leftover 0 lines) (shell lines)) (shell lines).
Proof.
  intros Hl. split; cbn [shell boot pool pars].
  - intros q p [<- <-]%lookup_singleton_Some. unfold wf_proc. cbn [body tab made].
    replace (kids [] _) with (∅ : gset path) by (symmetry; by apply kids_empty).
    assert (Hw : wf (loose (fun x => x ∈ leftover 0 lines) (shell lines)) [] 0 ∅ (std (Ext 0) (Ext 1) (Ext 2)) (main_loop lines))
      by (apply wf_main; [done | done | done | done |]; intros x Hx; by left).
    unfold main. cbn [open_consoles]. apply wf_open; [done | by left |]. intros r Er. injection Er as <-. cbn [fst snd Nat.leb]. by constructor.
  - intros q p k x [<- <-]%lookup_singleton_Some. rewrite dom_singleton_L. intros ->%elem_of_singleton Hp%prefix_length. cbn in Hp. lia.
  - intros x y. by rewrite lookup_empty.
  - intros x. rewrite dom_singleton_L. intros ->%elem_of_singleton _. by left.
Qed.

Lemma shell_total lines : Forall text_line lines -> total (shell lines) ≡ₚ meaning 0 lines (Ext 0) (Ext 1) (Ext 2).
Proof.
  intros Hl. unfold total, dens, shell, boot. cbn [trace pool]. rewrite map_to_list_singleton.
  cbn [map concat launches omap list_omap app]. rewrite app_nil_r. unfold den_proc. cbn [body fst snd made tab].
  rewrite <- den_main by done. done.
Qed.

Lemma shell_run reads cs lines s : Forall text_line lines -> run reads cs (shell lines) = Some s ->
  inv (loose (fun x => x ∈ leftover 0 lines) s) s /\ total s ⊆+ meaning 0 lines (Ext 0) (Ext 1) (Ext 2) /\
  (total s ≡ₚ meaning 0 lines (Ext 0) (Ext 1) (Ext 2) \/ faulty s) /\ length cs <= costs (shell lines).
Proof.
  intros Hl Hr. destruct (run_ok reads _ cs _ _ (shell_inv lines Hl) Hr) as (H1 & H2 & H3 & _ & H5).
  rewrite (shell_total lines Hl) in H2, H3. split_and!; [done | done | done | lia].
Qed.
End lines.

(** C13. The programs that the shell starts are those that its lines mean.  In any
    interleaving of the processes, and whichever calls fail, every program that
    is started is one of those that the commands of the lines denote, started in
    its own process with its arguments and with exactly three descriptors, each
    connected as the pipes and redirections around it say; none is started
    more often than that.  When all processes are gone and nothing but prompts was printed,
    every one of them was started: no failure goes unreported. *)
Theorem shell_starts_programs (reads : list str -> bool) (lines : list str) (cs : list (path * act)) (s : sys)
  (Hl : Forall (Forall (fun c => c <> 0%Z)) lines) (Hrun : run reads cs (shell lines) = Some s) :
  launches (trace s) ⊆+ meaning 0 lines (Ext 0) (Ext 1) (Ext 2) /\
  (pool s = ∅ -> complained (trace s) = false ->
   launches (trace s) ≡ₚ meaning 0 lines (Ext 0) (Ext 1) (Ext 2)).
Proof.
  destruct (shell_run reads cs lines s Hl Hrun) as (_ & Hsub & Hall & _). split.
  - etrans; [| exact Hsub]. apply submseteq_inserts_r. reflexivity.
  - intros Hp Hc. destruct Hall as [Hall | [Hf | (q & p & g & Hq & _)]].
    + rewrite <- Hall. unfold total, dens. by rewrite Hp, map_to_list_empty, app_nil_r.
    + congruence.
    + by rewrite Hp, lookup_empty in Hq.
Qed.

(** C14. The shell never hangs: with programs that end, those that read a pipe
    once every write end of it is closed, the machine of the shell and the
    processes it has started can always move until no process is left, and no
    run is longer than a bound that depends on the lines only.  So the shell
    comes back to the prompt and ends at the end of its input, in every
    interleaving and whichever calls fail: no process is left that holds an end
    of a pipe open, and no [wait] is left without a child that ends. *)
Theorem shell_never_hangs (reads : list str -> bool) (lines : list str) (Hl : Forall (Forall (fun c => c <> 0%Z)) lines) :
  exists N, forall cs s, run reads cs (shell lines) = Some s ->
    length cs <= N /\ (pool s <> ∅ -> exists c s', step reads c s = Some s').
Proof.
  exists (costs (shell lines)). intros cs s Hrun. destruct (shell_run reads cs lines s Hl Hrun) as (Hinv & _ & _ & Hlen).
  split; [done |]. by eapply sh_progress.
Qed.

(** C15. The shell waits for its commands.  As long as nothing but prompts was
    printed: when it prompts, the only processes left besides it are those below
    a command that was started with an ampersand; and when a process starts a
    program, for example the second command of a list, all that is left of what
    it ran before was started with an ampersand too. *)
Theorem shell_waits (reads : list str -> bool) (lines : list str) (cs : list (path * act)) (s : sys) (q : path) (p : task)
  (Hl : Forall (Forall (fun c => c <> 0%Z)) lines) (Hrun : run reads cs (shell lines) = Some s)
  (Hc : complained (trace s) = false) (Hq : pool s !! q = Some p)
  (Hp : (exists argv, body p = Run argv) \/ (exists k, body p = Code (Print prompt k))) :
  forall x, x ∈ dom (pool s) -> q `prefix_of` x -> x <> q ->
    exists y, y ∈ leftover 0 lines /\ y `prefix_of` x /\ q `prefix_of` y /\ y <> q.
Proof.
  destruct (shell_run reads cs lines s Hl Hrun) as (Hinv & _ & _ & _). intros x Hx Hpre Hne.
  assert (Hk : kids q s = ∅).
  { pose proof (i_proc _ _ Hinv q p Hq) as Hw. unfold wf_proc in Hw. destruct Hp as [[argv Hb] | [k Hb]]; rewrite Hb in Hw.
    - by destruct Hw.
    - inversion Hw; subst. auto. }
  destruct (left_behind _ s q Hinv Hk x Hx Hpre Hne) as (y & [Hy | Hy] & H); [by exists y | congruence].
Qed.

(** [a | b], run to the end of the input. *)
Definition demo_pipe : list str := [[97; 124; 98; 10]%Z].
Definition go (q : path) : path * act := (q, Do true).
Definition demo_run : list (path * act) :=
  replicate 4 (go []) ++ replicate 3 (go [0]) ++ replicate 5 (go [0; 2]) ++ replicate 2 (go [0]) ++
  replicate 6 (go [0; 1]) ++ [go [0; 2]; ([0], Reap [0; 2]); ([0], Reap [0; 1]); go [0]; ([], Reap [0])].
Definition demo_end : sys := default (shell []) (run (fun _ => true) demo_run (shell demo_pipe)).
Definition demo_launches : list launch :=
  [([0; 1], [[97%Z]], [(0, Ext 0); (1, Pw [0; 0]); (2, Ext 2)]); ([0; 2], [[98%Z]], [(0, Pr [0; 0]); (1, Ext 1); (2, Ext 2)])].

Lemma demo_text : Forall (Forall (fun c => c <> 0%Z)) demo_pipe.
Proof. repeat (constructor; try lia). Qed.

Lemma shell_starts_programs_witness :
  launches (trace (default (shell []) (run (fun _ => true) (demo_run ++ replicate 3 (go [])) (shell demo_pipe)))) ≡ₚ demo_launches.
Proof.
  destruct (shell_starts_programs (fun _ => true) demo_pipe (demo_run ++ replicate 3 (go []))
    (default (shell []) (run (fun _ => true) (demo_run ++ replicate 3 (go [])) (shell demo_pipe))) demo_text) as [_ H];
    [vm_compute; reflexivity |].
  assert (E : meaning 0 demo_pipe (Ext 0) (Ext 1) (Ext 2) = demo_launches) by (vm_compute; reflexivity).
  rewrite <- E. apply H; vm_compute; reflexivity.
Defined.

Lemma shell_never_hangs_witness : exists N, forall cs s, run (fun _ => true) cs (shell demo_pipe) = Some s ->
    length cs <= N /\ (pool s <> ∅ -> exists c s', step (fun _ => true) c s = Some s').
Proof. exact (shell_never_hangs (fun _ => true) demo_pipe demo_text). Defined.

Lemma shell_waits_witness :
  run (fun _ => true) demo_run (shell demo_pipe) = Some demo_end /\ forall x, x ∈ dom (pool demo_end) -> x = [].
Proof.
  split; [vm_compute; reflexivity |]. intros x Hx. destruct (decide (x = [])) as [E | Hne]; [exact E | exfalso].
  destruct (shell_waits (fun _ => true) demo_pipe demo_run demo_end [] (mk_proc (Code (main_loop [])) (std (Ext 0) (Ext 1) (Ext 2)) 1)
    demo_text) with (x := x) as (y & Hy & _); [vm_compute; reflexivity | vm_compute; reflexivity | vm_compute; reflexivity | | exact Hx | | exact Hne |].
  - right. by eexists.
  - by exists x.
  - vm_compute in Hy. by apply elem_of_nil in Hy.
Defined.
