(* ===== verification/SsuShell.v ===== *)
(** * SsuShell: project2/ssu_shell.c

    The shell reads lines from a file or from the terminal, splits them into
    words, and runs the commands between the words that start with a bar as a
    pipeline.  The state is the table of open descriptors and the number of
    blocks of the heap that are live.  Arrays have the sizes of the source and
    an access outside of them is [Stop]; bytes and pointers of a fresh block are
    not initialised, and using one is [Stop] too.  Each word is referred to from
    one entry of the array [tokens] only, so the entry holds the block.  [fork]
    runs the child on a copy of the state: what it becomes (the program that
    [execvp] starts, with its arguments and descriptors) is recorded in order.
    Whether [execvp] finds a program and the home directory of the user are
    parameters. *)

From Stdlib Require Import ZArith Lia.
From stdpp Require Import base numbers strings option list.
From S2P Require Import Prelude.

Local Open Scope Z_scope.

Definition MAX_INPUT_SIZE : nat := 1024.
Definition MAX_TOKEN_SIZE : nat := 64.
Definition MAX_NUM_TOKENS : nat := 64.
Definition MAX_NUM_PIPES : nat := 64.

Definition SPACE : Z := 32.
Definition TAB : Z := 9.
Definition NEWLINE : Z := 10.
Definition BAR : Z := 124.
Definition SLASH : Z := 47.

(** What a descriptor is connected to: a file from outside, or an end of the
    pipe made in [pipefds[i]]. *)
Inductive fend := Ext (n : nat) | PR (i : nat) | PW (i : nat).

Record sh := mk_shell {
  fds : list (option fend);
  live : nat
}.
Definition with_fds (l : list (option fend)) (s : sh) : sh := mk_shell l (live s).

Definition new_block : M sh unit := modify (fun s => mk_shell (fds s) (S (live s))).
Definition free_block : M sh unit := modify (fun s => mk_shell (fds s) (pred (live s))).

(** A store into an array. *)
Definition set_at {A : Type} (l : list A) (i : nat) (x : A) : M sh (list A) :=
  if decide (i < length l)%nat then mret (<[i := x]> l) else stop "out of bounds".
Definition get_at {A : Type} (l : list A) (i : nat) : M sh A :=
  from_option "out of bounds" (l !! i).

(** ** Strings in arrays whose bytes may be uninitialised *)
Abbreviation chars := (list (option Z)).

Fixpoint c_str (l : chars) : option (list Z) :=
  match l with
  | Some c :: l => if c =? 0 then Some [] else (c ::.) <$> c_str l
  | _ => None
  end.
(** The bytes of a string copied to the front of a block. *)
Definition copy_str (dst : chars) (s : list Z) : M sh chars :=
  if decide (length s < length dst)%nat
  then mret ((Some <$> s ++ [0]) ++ drop (S (length s)) dst) else stop "out of bounds".
Definition fresh_chars : chars := replicate MAX_TOKEN_SIZE None.

Fixpoint strlen (l : list Z) : option nat :=
  match l with
  | [] => None
  | c :: l => if c =? 0 then Some O else S <$> strlen l
  end.

(** ** queue_t *)
Record queue_t := mk_queue { front : nat; rear : nat; body : list (option Z) }.

Definition queue_new : M sh queue_t := new_block;; mret (mk_queue 0 0 (replicate 128 None)).
Definition queue_push (q : queue_t) (x : Z) : M sh queue_t :=
  b ← set_at (body q) (rear q) (Some x); mret (mk_queue (front q) (S (rear q)) b).
Definition queue_front (q : queue_t) : M sh Z :=
  c ← get_at (body q) (front q); from_option "uninitialised" c.
Definition queue_pop (q : queue_t) : M sh queue_t :=
  if decide (front q = rear q) then mret q else
  b ← set_at (body q) (front q) (Some 0); mret (mk_queue (S (front q)) (rear q) b).
Definition queue_empty (q : queue_t) : bool := bool_decide (rear q = front q).
Definition queue_del (q : queue_t) : M sh unit := free_block.
Definition queue_length (q : queue_t) : nat := rear q - front q.

(** ** tokenize *)

(** An entry of [tokens]: not written yet, [NULL], or a block of
    [MAX_TOKEN_SIZE] bytes. *)
Inductive pcell := Junk | Null | Str (l : chars).

Definition is_sep (c : Z) : bool := (c =? SPACE) || (c =? NEWLINE) || (c =? TAB).

Fixpoint tokenize_loop (cs : list Z) (token : chars) (tokenIndex : nat) (tokens : list pcell) (tokenNo : nat)
    : M sh (list pcell * nat) :=
  match cs with
  | [] => mret (tokens, tokenNo)
  | readChar :: cs =>
      if is_sep readChar then
        token ← set_at token tokenIndex (Some 0);
        if negb (Nat.eqb tokenIndex 0) then
          new_block;;
          s ← from_option "uninitialised" (c_str token);
          b ← copy_str fresh_chars s;
          tokens ← set_at tokens tokenNo (Str b);
          tokenize_loop cs token 0 tokens (S tokenNo)
        else tokenize_loop cs token tokenIndex tokens tokenNo
      else
        token ← set_at token tokenIndex (Some readChar);
        tokenize_loop cs token (S tokenIndex) tokens tokenNo
  end.

Definition tokenize (line : list Z) : M sh (list pcell) :=
  new_block;;
  new_block;;
  n ← from_option "line not terminated" (strlen line);
  r ← tokenize_loop (take n line) fresh_chars 0 (replicate MAX_NUM_TOKENS Junk) 0;
  free_block;;
  set_at r.1 r.2 Null.

(** ** Descriptors *)
Fixpoint lowest_free (l : list (option fend)) : nat :=
  match l with
  | Some _ :: l => S (lowest_free l)
  | _ => O
  end.
Definition open_fd (e : fend) : M sh nat :=
  s ← get;
  let i := lowest_free (fds s) in
  put (with_fds (if decide (i < length (fds s))%nat then <[i := Some e]> (fds s) else fds s ++ [Some e]) s);;
  mret i.
Definition pipe_call (i : nat) : M sh (nat * nat) :=
  r ← open_fd (PR i); w ← open_fd (PW i); mret (r, w).
Definition close (fd : nat) : M sh unit := modify (fun s => with_fds (<[fd := None]> (fds s)) s).
Definition dup2 (old new : nat) : M sh unit :=
  modify (fun s => match fds s !! old with
                   | Some (Some e) => with_fds (<[new := Some e]> (fds s)) s
                   | _ => s
                   end).

Fixpoint make_pipes (n i : nat) (acc : list (nat * nat)) : M sh (list (nat * nat)) :=
  match n with
  | O => mret acc
  | S n =>
      if decide (i < MAX_NUM_PIPES)%nat
      then p ← pipe_call i; make_pipes n (S i) (acc ++ [p]) else stop "out of bounds"
  end.
Fixpoint close_pipes (l : list (nat * nat)) : M sh unit :=
  match l with
  | [] => skip
  | (r, w) :: l => close r;; close w;; close_pipes l
  end.

(** ** The body of the loop of [main] *)

(** [for (int i = 0; tokens[i] != NULL; i++) token_len = i;] *)
Fixpoint last_token (fuel : nat) (tokens : list pcell) (i : nat) (token_len : option nat) : M sh (option nat) :=
  match fuel with
  | O => out_of_fuel
  | S fuel =>
      c ← get_at tokens i;
      match c with
      | Junk => stop "uninitialised"
      | Null => mret token_len
      | Str _ => last_token fuel tokens (S i) (Some i)
      end
  end.

Fixpoint find_pipes (fuel : nat) (tokens : list pcell) (q : queue_t) (pipe_idx : nat) : M sh (list pcell * queue_t) :=
  match fuel with
  | O => out_of_fuel
  | S fuel =>
      c ← get_at tokens pipe_idx;
      match c with
      | Junk => stop "uninitialised"
      | Null => mret (tokens, q)
      | Str b =>
          c0 ← get_at b 0;
          c0 ← from_option "uninitialised" c0;
          if negb (c0 =? BAR) then find_pipes fuel tokens q (S pipe_idx)
          else
            q ← queue_push q (Z.of_nat pipe_idx);
            free_block;;
            tokens ← set_at tokens pipe_idx Null;
            find_pipes fuel tokens q (S pipe_idx)
      end
  end.

(** The argument vector that starts at an entry of [tokens]. *)
Fixpoint read_argv (l : list pcell) : option (list (list Z)) :=
  match l with
  | Str b :: l => w ← c_str b; ws ← read_argv l; Some (w :: ws)
  | Null :: _ => Some []
  | _ => None
  end.

(** The open descriptors of a table, with their numbers. *)
Fixpoint opened (i : nat) (l : list (option fend)) : list (nat * fend) :=
  match l with
  | [] => []
  | Some e :: l => (i, e) :: opened (S i) l
  | None :: l => opened (S i) l
  end.

Inductive child :=
| C_exec (argv : list (list Z)) (fds : list (nat * fend))
| C_incorrect (argv : list (list Z))
| C_crash.

Definition PPS : list Z := [112; 112; 115].
Definition TTOP : list Z := [116; 116; 111; 112].

Section shell.
(** [execvp] finds the program; [pw->pw_dir]. *)
Variable found : list Z -> bool.
Variable homedir : list Z.

Definition child_code (tokens : list pcell) (q : queue_t) (pipefds : list (nat * nat)) (cmdc cmd_length : nat)
    : M sh child :=
  (if negb (Nat.eqb cmdc 1) then p ← get_at pipefds (cmdc - 1); dup2 p.1 0 else skip);;
  (if negb (Nat.eqb cmdc cmd_length) then p ← get_at pipefds cmdc; dup2 p.2 1 else skip);;
  close_pipes (take cmdc pipefds);;
  div_index ← queue_front q;
  let at_cmd := Z.to_nat (div_index + 1) in
  c ← get_at tokens at_cmd;
  match c with
  | Str b =>
      w ← from_option "uninitialised" (c_str b);
      tokens ←
        (if bool_decide (w = PPS) || bool_decide (w = TTOP) then
           b' ← copy_str b (homedir ++ [SLASH] ++ w);
           set_at tokens at_cmd (Str b')
         else mret tokens);
      argv ← from_option "uninitialised" (read_argv (drop at_cmd tokens));
      s ← get;
      match argv with
      | f :: _ => if found f then mret (C_exec argv (opened 0 (fds s))) else mret (C_incorrect argv)
      | [] => stop "no command"
      end
  | _ => stop "null pointer"
  end.

(** [fork] for each entry of the queue; a child that stops has crashed. *)
Fixpoint spawn (fuel : nat) (tokens : list pcell) (q : queue_t) (pipefds : list (nat * nat))
    (cmdc cmd_length : nat) (acc : list child) : M sh (list child * queue_t) :=
  match fuel with
  | O => out_of_fuel
  | S fuel =>
      if queue_empty q then mret (acc, q) else
      s ← get;
      let c := match child_code tokens q pipefds (S cmdc) cmd_length s with Ret c _ => c | _ => C_crash end in
      q ← queue_pop q;
      spawn fuel tokens q pipefds (S cmdc) cmd_length (acc ++ [c])
  end.

Fixpoint free_tokens (l : list pcell) : M sh unit :=
  match l with
  | [] => skip
  | Junk :: _ => stop "free of an uninitialised pointer"
  | Null :: l => free_tokens l
  | Str _ :: l => free_block;; free_tokens l
  end.

(** From the end of the input part to the queue of the bars; [token_len] is the
    variable of [main], which keeps its value from the line before. *)
Definition scan_line (line : list Z) (token_len : option nat) : M sh (option nat * list pcell * queue_t) :=
  n ← from_option "line not terminated" (strlen line);
  line ← set_at line n NEWLINE;
  tokens ← tokenize line;
  token_len ← last_token (S (length tokens)) tokens 0 token_len;
  q ← queue_new;
  c0 ← get_at tokens 0;
  q ← (match c0 with Null => mret q | _ => queue_push q (-1) end);
  r ← find_pipes (S (length tokens)) tokens q 0;
  mret (token_len, r.1, r.2).

(** The rest of the loop body. *)
Definition run_line (line : list Z) (token_len : option nat) : M sh (list child * option nat) :=
  r ← scan_line line token_len;
  let '(token_len, tokens, q) := r in
  let cmd_length := queue_length q in
  pipefds ← make_pipes cmd_length 0 [];
  r ← spawn (S cmd_length) tokens q pipefds 0 cmd_length [];
  close_pipes (take cmd_length pipefds);;
  queue_del r.2;;
  n ← from_option "uninitialised" token_len;
  (if decide (n <= length tokens)%nat then free_tokens (take n tokens) else stop "out of bounds");;
  free_block;;
  mret (r.1, token_len).

(** ** The input part and [main] *)

(** [fgets(line, n, fp)] on the rest of the file: the characters up to the end
    of the line, at most [n - 1], and what is left. *)
Fixpoint fgets (n : nat) (f : list Z) : list Z * list Z :=
  match n, f with
  | S (S _ as n), c :: f => if c =? NEWLINE then ([c], f) else let (x, r) := fgets n f in (c :: x, r)
  | _, _ => ([], f)
  end.
Definition zero_line : list Z := replicate MAX_INPUT_SIZE 0.
Definition put_str (x : list Z) (line : list Z) : list Z := x ++ [0] ++ drop (S (length x)) line.

Definition read_batch (f : list Z) : M sh (option (list Z * list Z)) :=
  match f with
  | [] => mret None
  | _ =>
      let (x, f) := fgets MAX_INPUT_SIZE f in
      let line := put_str x zero_line in
      n ← from_option "line not terminated" (strlen line);
      match n with
      | O => stop "out of bounds"
      | S n => line ← set_at line n 0; mret (Some (line, f))
      end
  end.

(** [scanf("%[^\n]", line); getchar();] *)
Fixpoint span_line (f : list Z) : list Z * list Z :=
  match f with
  | [] => ([], [])
  | c :: r => if c =? NEWLINE then ([], f) else let (x, r) := span_line r in (c :: x, r)
  end.
Definition read_interactive (f : list Z) : M sh (list Z * list Z) :=
  let (x, f) := span_line f in
  match x with
  | [] => mret (zero_line, drop 1 f)
  | _ => if decide (length x < MAX_INPUT_SIZE)%nat then mret (put_str x zero_line, drop 1 f) else stop "out of bounds"
  end.

(** [main] with a file; the children of all lines, in order. *)
Fixpoint main_batch (fuel : nat) (f : list Z) (token_len : option nat) (acc : list child) : M sh (list child) :=
  match fuel with
  | O => out_of_fuel
  | S fuel =>
      r ← read_batch f;
      match r with
      | None => mret acc
      | Some (line, f) =>
          r ← run_line line token_len;
          main_batch fuel f r.2 (acc ++ r.1)
      end
  end.

(** [main] at the terminal: the state after [n] rounds of its endless loop. *)
Fixpoint main_interactive (n : nat) (f : list Z) (token_len : option nat) (acc : list child)
    : M sh (list child * list Z) :=
  match n with
  | O => mret (acc, f)
  | S n =>
      r ← read_interactive f;
      x ← run_line r.1 token_len;
      main_interactive n r.2 x.2 (acc ++ x.1)
  end.
End shell.

(** ** What a line means *)

(** The words of a text whose last character is a separator. *)
Inductive spells : list Z -> list (list Z) -> Prop :=
| spells_end seps : Forall (fun c => is_sep c = true) seps -> spells seps []
| spells_word seps w c l ws :
    Forall (fun c => is_sep c = true) seps -> w <> [] -> Forall (fun c => is_sep c = false) w ->
    is_sep c = true -> spells l ws -> spells (seps ++ w ++ c :: l) (w :: ws).

Definition is_bar (w : list Z) : bool := match w with c :: _ => c =? BAR | [] => false end.

(** The commands: the words between bars. *)
Fixpoint commands (ws : list (list Z)) : list (list (list Z)) :=
  match ws with
  | [] => [[]]
  | w :: ws =>
      if is_bar w then [] :: commands ws
      else match commands ws with g :: gs => (w :: g) :: gs | [] => [[w]] end
  end.
Definition pipeline (ws : list (list Z)) : list (list (list Z)) :=
  match ws with [] => [] | _ => commands ws end.

Lemma spells_sep c l ws : is_sep c = true -> spells l ws -> spells (c :: l) ws.
Proof.
  intros Hc Hs. destruct Hs as [seps Hs | seps w d l ws Hs Hw Hf Hd Hl].
  - constructor. by constructor.
  - apply (spells_word (c :: seps)); try done. by constructor.
Qed.

Lemma spells_total l :
  (exists ws, spells (l ++ [NEWLINE]) ws) /\
  (forall w, w <> [] -> Forall (fun c => is_sep c = false) w -> exists ws, spells (w ++ l ++ [NEWLINE]) ws).
Proof.
  induction l as [| c l [(ws & IH1) IH2]]; cbn [app].
  - split; [exists []; by repeat constructor |]. intros w Hw Hf. exists [w].
    apply (spells_word [] w NEWLINE []); try done. by constructor.
  - destruct (is_sep c) eqn:Ec.
    + split; [exists ws; by apply spells_sep |]. intros w Hw Hf. exists (w :: ws). by apply (spells_word []).
    + split; [apply (IH2 [c]); by repeat constructor |]. intros w Hw Hf.
      destruct (IH2 (w ++ [c])) as [ws' H']; [by destruct w | apply Forall_app; by repeat constructor |].
      exists ws'. by rewrite <- (assoc_L (++)) in H'.
Qed.

(** ** Arrays *)
Lemma set_at_ok {A : Type} (l : list A) i x s : (i < length l)%nat -> set_at l i x s = Ret (<[i := x]> l) s.
Proof. intros Hi. unfold set_at. by rewrite decide_True. Qed.

Lemma get_at_ok {A : Type} (l : list A) i x s : l !! i = Some x -> get_at l i s = Ret x s.
Proof. intros Hi. unfold get_at. by rewrite Hi. Qed.

Lemma insert_mid {A : Type} (a b : list A) x y i : i = length a -> <[i := y]> (a ++ x :: b) = a ++ y :: b.
Proof. intros ->. rewrite insert_app_r_alt by lia. by rewrite Nat.sub_diag. Qed.

Lemma drop_insert_at {A : Type} (l : list A) i x : (i < length l)%nat -> drop i (<[i := x]> l) = x :: tail (drop i l).
Proof. revert i. induction l as [| y l IH]; intros [| i] Hi; simpl in *; [lia | lia | done | apply IH; lia]. Qed.

Lemma lookup_mid {A : Type} (a b : list A) x i : i = length a -> (a ++ x :: b) !! i = Some x.
Proof. intros ->. by rewrite lookup_app_r, Nat.sub_diag by lia. Qed.

Lemma c_str_ok w r : Forall (fun c => c <> 0) w -> c_str ((Some <$> w ++ [0]) ++ r) = Some w.
Proof.
  induction 1 as [| c w Hc _ IH]; [done |]. cbn in *. rewrite IH. by destruct (Z.eqb_spec c 0).
Qed.

Lemma strlen_ok w r : Forall (fun c => c <> 0) w -> strlen (w ++ 0 :: r) = Some (length w).
Proof. induction 1 as [| c w Hc _ IH]; [done |]. cbn. rewrite IH. by destruct (Z.eqb_spec c 0). Qed.

(** ** tokenize *)
Definition tok_block (w : list Z) : chars := (Some <$> w ++ [0]) ++ drop (S (length w)) fresh_chars.
Definition cell (w : list Z) : pcell := Str (tok_block w).
Definition short (w : list Z) : Prop := (length w < MAX_TOKEN_SIZE)%nat.

Section tokenizer.
Context (tokens : list pcell) (no : nat).

Lemma loop_seps seps cs token s :
  Forall (fun c => is_sep c = true) seps -> length token = MAX_TOKEN_SIZE ->
  exists token', length token' = MAX_TOKEN_SIZE /\
    tokenize_loop (seps ++ cs) token 0 tokens no s = tokenize_loop cs token' 0 tokens no s.
Proof.
  intros Hs. revert token. induction Hs as [| c seps Hc _ IH]; intros token Hl; [by exists token |].
  cbn [app tokenize_loop]. rewrite Hc.
  destruct (IH (<[0%nat := Some 0]> token)) as (t & Ht & E); [by rewrite length_insert |].
  exists t. split; [done |]. erewrite bind_ret by (apply set_at_ok; rewrite Hl; unfold MAX_TOKEN_SIZE; lia). exact E.
Qed.

Lemma loop_word w cs token cur s :
  Forall (fun c => is_sep c = false) w -> length token = MAX_TOKEN_SIZE ->
  (length cur + length w <= MAX_TOKEN_SIZE)%nat -> take (length cur) token = Some <$> cur ->
  exists token', length token' = MAX_TOKEN_SIZE /\
    take (length (cur ++ w)) token' = Some <$> (cur ++ w) /\
    tokenize_loop (w ++ cs) token (length cur) tokens no s = tokenize_loop cs token' (length (cur ++ w)) tokens no s.
Proof.
  intros Hw. revert token cur. induction Hw as [| c w Hc _ IH]; intros token cur Hl Hlen Ht.
  - exists token. by rewrite app_nil_r.
  - cbn [app tokenize_loop length] in *. rewrite Hc.
    destruct (IH (<[length cur := Some c]> token) (cur ++ [c])) as (t & Ht1 & Ht2 & E).
    + by rewrite length_insert.
    + rewrite length_app. simpl. lia.
    + rewrite length_app. cbn [length]. rewrite Nat.add_1_r, take_S_r with (x := Some c).
      * rewrite take_insert_ge by lia. by rewrite Ht, fmap_app.
      * apply list_lookup_insert_eq. lia.
    + exists t. split; [done |]. rewrite <- (assoc_L (++)) in Ht2, E. split; [exact Ht2 |].
      erewrite bind_ret by (apply set_at_ok; lia). replace (S (length cur)) with (length (cur ++ [c])) by (rewrite length_app; simpl; lia).
      exact E.
Qed.
End tokenizer.

Lemma tokenize_loop_ok cs ws : spells cs ws -> Forall short ws -> Forall (fun c => c <> 0) cs ->
  forall token done k s, length token = MAX_TOKEN_SIZE -> (length ws <= k)%nat ->
  tokenize_loop cs token 0 (done ++ replicate k Junk) (length done) s =
  Ret (done ++ (cell <$> ws) ++ replicate (k - length ws) Junk, (length done + length ws)%nat)
      (mk_shell (fds s) (live s + length ws)).
Proof.
  induction 1 as [seps Hs | seps w c l ws Hs Hw Hf Hc Hl IH]; intros Hsh Hz token done k s Ht Hk.
  - destruct (loop_seps (done ++ replicate k Junk) (length done) seps [] token s Hs Ht) as (t & _ & E).
    rewrite app_nil_r in E. rewrite E. cbn. rewrite Nat.sub_0_r, !Nat.add_0_r. by destruct s.
  - apply Forall_cons in Hsh as [Hw1 Hsh]. apply Forall_app in Hz as [_ [Hzw [_ Hzl]%Forall_cons]%Forall_app].
    destruct (loop_seps (done ++ replicate k Junk) (length done) seps (w ++ c :: l) token s Hs Ht) as (t & Ht1 & ->).
    destruct (loop_word (done ++ replicate k Junk) (length done) w (c :: l) t [] s Hf Ht1) as (t2 & Ht2 & Hw2 & E);
      [unfold short in Hw1; simpl; lia | done |]. cbn [length app] in *. rewrite E. clear E.
    cbn [tokenize_loop]. rewrite Hc. unfold short in Hw1.
    erewrite bind_ret by (apply set_at_ok; lia). cbv beta.
    destruct (Nat.eqb_spec (length w) 0) as [E0 |]; [by destruct w |]. cbn [negb]. unfold new_block. mstep.
    set (t3 := <[length w := Some 0]> t2).
    assert (Hstr : c_str t3 = Some w).
    { rewrite <- (take_drop (S (length w)) t3). rewrite take_S_r with (x := Some 0).
      - unfold t3. rewrite take_insert_ge by lia. rewrite Hw2. change [Some 0] with (Some <$> [0]). rewrite <- fmap_app. by apply c_str_ok.
      - apply list_lookup_insert_eq. lia. }
    rewrite Hstr. mstep.
    erewrite bind_ret by (unfold copy_str; rewrite decide_True by exact Hw1; reflexivity).
    destruct k as [| k]; [simpl in Hk; lia |].
    erewrite bind_ret by (apply set_at_ok; rewrite length_app, length_replicate; lia).
    cbn [replicate]. rewrite insert_mid by done. fold (tok_block w). fold (cell w).
    rewrite <- (app_nil_l (replicate k Junk)), app_comm_cons, (assoc_L (++)).
    replace (S (length done)) with (length (done ++ [cell w])) by (rewrite length_app; simpl; lia).
    rewrite IH; [| done | done | unfold t3; by rewrite length_insert | simpl in Hk; lia].
    cbn [fds live length fmap list_fmap Nat.sub]. rewrite <- (assoc_L (++)). f_equal; [f_equal |].
    + rewrite length_app. simpl. lia.
    + f_equal. lia.
Qed.

(** The array [tokenize] returns for a text. *)
Definition token_array (ws : list (list Z)) : list pcell :=
  (cell <$> ws) ++ Null :: replicate (MAX_NUM_TOKENS - S (length ws)) Junk.

Lemma tokenize_ok cs ws r s :
  spells cs ws -> Forall short ws -> (length ws < MAX_NUM_TOKENS)%nat -> Forall (fun c => c <> 0) cs ->
  tokenize (cs ++ 0 :: r) s = Ret (token_array ws) (mk_shell (fds s) (S (live s + length ws))).
Proof.
  intros Hs Hsh Hn Hz. unfold tokenize, new_block, free_block. mrun. rewrite strlen_ok by done. mstep.
  rewrite take_app_length.
  erewrite bind_ret by (apply (tokenize_loop_ok _ _ Hs Hsh Hz fresh_chars [] MAX_NUM_TOKENS);
    [apply length_replicate | lia]).
  mstep. cbn [fst snd app length].
  rewrite set_at_ok by (rewrite length_app, length_fmap, length_replicate; lia).
  destruct (MAX_NUM_TOKENS - length ws)%nat as [| k] eqn:Ek; [lia |]. cbn [replicate].
  rewrite insert_mid by (by rewrite length_fmap).
  unfold token_array. replace (MAX_NUM_TOKENS - S (length ws))%nat with k by lia. f_equal.
Qed.

(** ** The queue of bars *)
Record queue_rep (q : queue_t) (l : list Z) : Prop := {
  q_rear : rear q = (front q + length l)%nat;
  q_size : length (body q) = 128%nat;
  q_body : forall j x, l !! j = Some x -> body q !! (front q + j)%nat = Some (Some x)
}.

Lemma queue_new_rep : queue_rep (mk_queue 0 0 (replicate 128 None)) [].
Proof. split; [done | apply length_replicate | done]. Qed.

Lemma queue_push_ok q l x s : queue_rep q l -> (rear q < 128)%nat ->
  exists q', queue_push q x s = Ret q' s /\ queue_rep q' (l ++ [x]) /\ rear q' = S (rear q).
Proof.
  intros [Hr Hb Hq] Hlt. unfold queue_push. erewrite bind_ret by (apply set_at_ok; lia).
  eexists. split; [reflexivity |]. split; [| done]. split; cbn.
  - rewrite length_app. simpl. lia.
  - by rewrite length_insert.
  - intros j y [Hj | [Hj Hx]]%lookup_app_Some.
    + apply lookup_lt_Some in Hj as ?. rewrite list_lookup_insert_ne by lia. eauto.
    + apply list_lookup_singleton_Some in Hx as [Hx ->]. replace (front q + j)%nat with (rear q) by lia.
      apply list_lookup_insert_eq. lia.
Qed.

Lemma queue_front_ok q x l s : queue_rep q (x :: l) -> queue_front q s = Ret x s.
Proof.
  intros [Hr Hb Hq]. specialize (Hq 0%nat x eq_refl). rewrite Nat.add_0_r in Hq.
  unfold queue_front. by erewrite bind_ret by (apply get_at_ok; exact Hq).
Qed.

Lemma queue_pop_ok q x l s : queue_rep q (x :: l) -> exists q', queue_pop q s = Ret q' s /\ queue_rep q' l.
Proof.
  intros [Hr Hb Hq]. cbn in Hr. pose proof (Hq 0%nat x eq_refl) as H0. rewrite Nat.add_0_r in H0.
  apply lookup_lt_Some in H0. unfold queue_pop. rewrite decide_False by lia.
  erewrite bind_ret by (apply set_at_ok; lia). eexists. split; [reflexivity |]. split; cbn.
  - lia.
  - by rewrite length_insert.
  - intros j y Hj. rewrite list_lookup_insert_ne by lia. replace (S (front q + j))%nat with (front q + S j)%nat by lia.
    by apply Hq.
Qed.

Lemma queue_empty_ok q l : queue_rep q l -> queue_empty q = bool_decide (l = []).
Proof.
  intros [Hr _ _]. unfold queue_empty. apply bool_decide_ext. destruct l; simpl in *; split; [done | lia | lia | done].
Qed.

Lemma queue_length_ok q l : queue_rep q l -> queue_length q = length l.
Proof. intros [Hr _ _]. unfold queue_length. lia. Qed.

(** ** The words and the bars *)
Fixpoint bars (i : nat) (ws : list (list Z)) : list Z :=
  match ws with
  | [] => []
  | w :: ws => if is_bar w then Z.of_nat i :: bars (S i) ws else bars (S i) ws
  end.
Definition mark (w : list Z) : pcell := if is_bar w then Null else cell w.
Definition nonempty (w : list Z) : Prop := w <> [].

Lemma spells_nonempty cs ws : spells cs ws -> Forall nonempty ws.
Proof. induction 1; by constructor. Qed.

Lemma spells_chars (P : Z -> Prop) cs ws : spells cs ws -> Forall P cs -> Forall (Forall P) ws.
Proof.
  induction 1 as [| seps w c l ws Hs Hw Hf Hc Hl IH]; intros HP; constructor.
  - apply Forall_app in HP as [_ [? _]%Forall_app]. done.
  - apply IH. by apply Forall_app in HP as [_ [_ [_ ?]%Forall_cons]%Forall_app].
Qed.

Lemma length_bars i ws : (length (bars i ws) <= length ws)%nat.
Proof. revert i. induction ws as [| w ws IH]; intros i; cbn; [lia |]. specialize (IH (S i)). destruct (is_bar w); cbn; lia. Qed.

Lemma length_commands i ws : length (commands ws) = S (length (bars i ws)).
Proof.
  revert i. induction ws as [| w ws IH]; intros i; [done |]. cbn. specialize (IH (S i)).
  destruct (is_bar w); cbn; [by rewrite IH |]. by destruct (commands ws).
Qed.

Lemma last_token_ok ws done r s fuel tl :
  (length ws < fuel)%nat ->
  last_token fuel (done ++ (cell <$> ws) ++ Null :: r) (length done) tl s =
  Ret (match ws with [] => tl | _ => Some (length done + length ws - 1)%nat end) s.
Proof.
  revert done fuel tl. induction ws as [| w ws IH]; intros done fuel tl Hf; (destruct fuel as [| fuel]; [simpl in Hf; lia |]);
    cbn [last_token]; rewrite ?fmap_nil, ?fmap_cons; cbn [app].
  - by erewrite bind_ret by (apply get_at_ok; by apply lookup_mid).
  - rewrite (bind_ret _ _ s (Str (tok_block w)) s) by (apply get_at_ok; by apply lookup_mid). cbv beta iota.
    specialize (IH (done ++ [cell w]) fuel (Some (length done))).
    rewrite <- (assoc_L (++)), length_app, Nat.add_1_r in IH. cbn [app] in IH. rewrite IH by (simpl in Hf; lia).
    destruct ws; [do 2 f_equal; simpl; lia | do 2 f_equal; simpl; lia].
Qed.

Lemma find_pipes_ok ws done r s fuel q l :
  (length ws < fuel)%nat -> Forall nonempty ws -> queue_rep q l -> (rear q + length ws <= 128)%nat ->
  exists q', queue_rep q' (l ++ bars (length done) ws) /\
  find_pipes fuel (done ++ (cell <$> ws) ++ Null :: r) q (length done) s =
  Ret (done ++ (mark <$> ws) ++ Null :: r, q') (mk_shell (fds s) (live s - length (bars (length done) ws))).
Proof.
  revert done fuel q l s. induction ws as [| w ws IH]; intros done fuel q l s Hf Hne Hq Hr;
    (destruct fuel as [| fuel]; [simpl in Hf; lia |]); cbn [find_pipes]; rewrite ?fmap_nil, ?fmap_cons; cbn [app].
  - exists q. rewrite app_nil_r. split; [done |].
    erewrite bind_ret by (apply get_at_ok; by apply lookup_mid). cbn. rewrite Nat.sub_0_r. by destruct s.
  - apply Forall_cons in Hne as [Hw Hne]. destruct w as [| c w]; [done |]. cbn in Hf, Hr.
    assert (E1 : forall x, length (done ++ [x]) = S (length done)) by (intros x; rewrite length_app; simpl; lia).
    rewrite (bind_ret _ _ s (Str (tok_block (c :: w))) s) by (apply get_at_ok; by apply lookup_mid). cbv beta iota.
    erewrite bind_ret by (apply get_at_ok; reflexivity). mstep. cbn [bars is_bar].
    destruct (Z.eqb_spec c BAR) as [-> | Hc]; cbn [negb].
    + destruct (queue_push_ok q l (Z.of_nat (length done)) s Hq) as (q1 & Eq1 & Hq1 & Hr1); [lia |].
      destruct (IH (done ++ [Null]) fuel q1 (l ++ [Z.of_nat (length done)]) (mk_shell (fds s) (pred (live s))))
        as (q2 & Hq2 & E); [lia | done | done | lia |].
      rewrite E1 in *. rewrite <- (assoc_L (++)) in Hq2. exists q2. split; [exact Hq2 |].
      rewrite (bind_ret _ _ _ _ _ Eq1). unfold free_block. mstep.
      erewrite bind_ret by (apply set_at_ok; rewrite length_app; simpl; lia). rewrite insert_mid by done.
      rewrite <- !(assoc_L (++)) in E. cbn [app] in E. rewrite E. cbn [length fds live]. f_equal. f_equal. lia.
    + destruct (IH (done ++ [cell (c :: w)]) fuel q l s) as (q2 & Hq2 & E); [lia | done | done | lia |].
      rewrite E1 in *. exists q2. split; [exact Hq2 |].
      rewrite <- !(assoc_L (++)) in E. cbn [app] in E. rewrite E.
      by assert (mark (c :: w) = cell (c :: w)) as -> by (unfold mark, is_bar; by destruct (Z.eqb_spec c BAR)).
Qed.

Lemma drop_at {A : Type} (done l : list A) : drop (Z.to_nat (Z.of_nat (length done) - 1 + 1)) (done ++ l) = l.
Proof. rewrite Z.sub_add, Nat2Z.id. apply drop_app_length. Qed.

(** The entries of [tokens] that a bar of the queue points to. *)
Lemma commands_at ws done r k g : commands ws !! k = Some g ->
  exists d r', (Z.of_nat (length done) - 1 :: bars (length done) ws) !! k = Some d /\ -1 <= d /\
    drop (Z.to_nat (d + 1)) (done ++ (mark <$> ws) ++ Null :: r) = (cell <$> g) ++ Null :: r'.
Proof.
  revert done k g. induction ws as [| w ws IH]; intros done k g Hg; cbn [commands] in Hg.
  - destruct k; [| done]. injection Hg as <-. exists (Z.of_nat (length done) - 1), r.
    split_and!; [done | lia | apply drop_at].
  - specialize (IH (done ++ [mark w])). rewrite length_app, Nat.add_1_r in IH. cbn [length] in IH.
    replace (Z.of_nat (S (length done)) - 1) with (Z.of_nat (length done)) in IH by lia.
    rewrite <- (assoc_L (++)) in IH. cbn [app] in IH. rewrite fmap_cons. cbn [app bars].
    destruct (is_bar w) eqn:Ew.
    + destruct k as [| k]; [| exact (IH k g Hg)]. injection Hg as <-. eexists _, _. split_and!; [done | lia |].
      rewrite drop_at. unfold mark. by rewrite Ew.
    + pose proof (length_commands 0 ws) as Hlen. destruct (commands ws) as [| g0 gs]; [done |].
      destruct k as [| k]; [| exact (IH (S k) g Hg)]. injection Hg as <-.
      destruct (IH 0%nat g0 eq_refl) as (d & r' & [= <-] & _ & E). eexists _, r'. split_and!; [done | lia |].
      rewrite drop_at, fmap_cons. cbn [app]. unfold mark at 1. rewrite Ew. f_equal.
      rewrite <- E. replace (Z.to_nat (Z.of_nat (length done) + 1)) with (length done + 1)%nat by lia.
      change (mark w :: (mark <$> ws) ++ Null :: r) with ([mark w] ++ (mark <$> ws) ++ Null :: r).
      by rewrite drop_app_add.
Qed.

Lemma read_argv_ok g r : Forall (Forall (fun c => c <> 0)) g -> read_argv ((cell <$> g) ++ Null :: r) = Some g.
Proof.
  induction 1 as [| w g Hw _ IH]; [done |]. rewrite fmap_cons. cbn [app read_argv].
  unfold cell at 1, tok_block. cbv beta iota. rewrite c_str_ok by done. cbn. by rewrite IH.
Qed.

(** ** Descriptors *)
Lemma lowest_free_ok (l : list fend) m : lowest_free ((Some <$> l) ++ replicate m None) = length l.
Proof. induction l as [| e l IH]; [by destruct m |]. cbn. by rewrite IH. Qed.

(** A table whose open descriptors are the first ones. *)
Definition table (l : list fend) (m : nat) : list (option fend) := (Some <$> l) ++ replicate m None.

Lemma open_fd_ok l m v e :
  open_fd e (mk_shell (table l m) v) = Ret (length l) (mk_shell (table (l ++ [e]) (pred m)) v).
Proof.
  unfold open_fd. mrun. cbn [fds]. unfold table. rewrite lowest_free_ok. unfold with_fds, put. cbn [live fds].
  mrun. rewrite length_app, length_fmap, length_replicate. unfold mret, M_ret. f_equal. f_equal.
  rewrite fmap_app. destruct m as [| m]; cbn [replicate pred].
  - rewrite decide_False by lia. by rewrite !app_nil_r.
  - rewrite decide_True by lia. rewrite insert_mid by (by rewrite length_fmap). by rewrite <- (assoc_L (++)).
Qed.

(** The ends of pipes [i], [i+1], ... and the numbers they get. *)
Fixpoint ends (i n : nat) : list fend :=
  match n with O => [] | S n => PR i :: PW i :: ends (S i) n end.
Fixpoint fd_pairs (base n : nat) : list (nat * nat) :=
  match n with O => [] | S n => (base, S base) :: fd_pairs (S (S base)) n end.

Lemma make_pipes_ok n i acc l m v : (i + n <= MAX_NUM_PIPES)%nat ->
  make_pipes n i acc (mk_shell (table l m) v) =
  Ret (acc ++ fd_pairs (length l) n) (mk_shell (table (l ++ ends i n) (m - 2 * n)) v).
Proof.
  revert i acc l m. induction n as [| n IH]; intros i acc l m Hn; cbn [make_pipes fd_pairs ends].
  - rewrite !app_nil_r. by replace (m - 2 * 0)%nat with m by lia.
  - rewrite decide_True by lia. unfold pipe_call.
    erewrite bind_ret.
    2:{ erewrite bind_ret by apply open_fd_ok. erewrite bind_ret by apply open_fd_ok. reflexivity. }
    rewrite IH by lia. rewrite !length_app. cbn [length]. rewrite !Nat.add_1_r, <- !(assoc_L (++)). cbn [app].
    do 2 f_equal. unfold table. f_equal. f_equal. lia.
Qed.

Lemma close_pipes_ok k (a x : list (option fend)) v : (2 * k <= length x)%nat ->
  close_pipes (fd_pairs (length a) k) (mk_shell (a ++ x) v) =
  Ret tt (mk_shell (a ++ replicate (2 * k) None ++ drop (2 * k) x) v).
Proof.
  revert a x. induction k as [| k IH]; intros a x Hk; [by destruct x |].
  destruct x as [| e1 [| e2 x]]; [simpl in Hk; lia.. |]. cbn [fd_pairs close_pipes]. unfold close. mrun.
  unfold with_fds. cbn [fds live]. rewrite insert_mid by done.
  assert (<[S (length a) := None]> (a ++ None :: e2 :: x) = (a ++ [None; None]) ++ x) as ->.
  { change (a ++ None :: e2 :: x) with (a ++ [None] ++ e2 :: x). rewrite (assoc_L (++)), insert_mid.
    - by rewrite <- !(assoc_L (++)).
    - rewrite length_app. simpl. lia. }
  specialize (IH (a ++ [None; None]) x). rewrite length_app in IH. cbn [length] in IH.
  replace (length a + 2)%nat with (S (S (length a))) in IH by lia.
  rewrite IH by (simpl in Hk; lia). rewrite <- (assoc_L (++)). cbn [app].
  replace (2 * S k)%nat with (S (S (2 * k))) by lia. done.
Qed.

Lemma take_fd_pairs base n k : (k <= n)%nat -> take k (fd_pairs base n) = fd_pairs base k.
Proof.
  revert base k. induction n as [| n IH]; intros base [| k] Hk; [done | lia | done |].
  cbn. by rewrite IH by lia.
Qed.

Lemma lookup_fd_pairs base n j : (j < n)%nat -> fd_pairs base n !! j = Some (base + 2 * j, S (base + 2 * j))%nat.
Proof.
  revert base j. induction n as [| n IH]; intros base [| j] Hj; cbn; [lia.. | do 2 f_equal; lia |].
  rewrite IH by lia. do 2 f_equal; lia.
Qed.

Lemma length_ends i n : length (ends i n) = (2 * n)%nat.
Proof. revert i. induction n as [| n IH]; intros i; cbn; [done |]. rewrite IH. lia. Qed.

Lemma lookup_ends i n j : (j < n)%nat ->
  ends i n !! (2 * j)%nat = Some (PR (i + j)) /\ ends i n !! S (2 * j) = Some (PW (i + j)).
Proof.
  revert i j. induction n as [| n IH]; intros i [| j] Hj; [lia.. | |].
  - by rewrite Nat.add_0_r.
  - replace (2 * S j)%nat with (S (S (2 * j))) by lia. cbn [ends lookup list_lookup].
    destruct (IH (S i) j) as [E1 E2]; [lia |]. cbn in E1, E2.
    replace (i + S j)%nat with (S i + j)%nat by lia. done.
Qed.

Definition numbered (i : nat) (l : list fend) : list (nat * fend) := zip (seq i (length l)) l.

Lemma opened_app i a x : opened i (a ++ x) = opened i a ++ opened (i + length a) x.
Proof.
  revert i. induction a as [| [e |] a IH]; intros i; cbn; rewrite ?Nat.add_0_r, ?IH; [done | |]; cbn;
    by rewrite Nat.add_succ_r.
Qed.
Lemma opened_none i m : opened i (replicate m None) = [].
Proof. revert i. induction m; intros i; cbn; auto. Qed.
Lemma opened_some i l : opened i (Some <$> l) = numbered i l.
Proof. revert i. induction l as [| e l IH]; intros i; [done |]. unfold numbered in *. cbn. by rewrite <- IH. Qed.

Lemma table_insert i e b x m : (i < length b)%nat ->
  <[i := Some e]> (table (b ++ x) m) = table (<[i := e]> b ++ x) m.
Proof.
  intros Hi. unfold table. rewrite insert_app_l by (rewrite length_fmap, length_app; lia).
  rewrite <- list_fmap_insert. by rewrite insert_app_l.
Qed.

Lemma fds_lookup i e b x m : x !! i = Some e -> table (b ++ x) m !! (length b + i)%nat = Some (Some e).
Proof.
  intros Hi. unfold table. rewrite fmap_app, <- (assoc_L (++)). rewrite lookup_app_r by (rewrite length_fmap; lia).
  rewrite length_fmap, lookup_app_l by (rewrite length_fmap; apply lookup_lt_Some in Hi; lia).
  replace (length b + i - length b)%nat with i by lia. by rewrite list_lookup_fmap, Hi.
Qed.

(** ** The children *)

(** The first descriptors of command [k] of [n]: the standard input comes from
    pipe [k - 1] and the standard output goes to pipe [k]. *)
Definition child_std (b : list fend) (n k : nat) : list fend :=
  let b1 := if Nat.eqb k 1 then b else <[0%nat := PR (k - 1)]> b in
  if Nat.eqb k n then b1 else <[1%nat := PW k]> b1.
(** All of them: the pipes after its own are still open. *)
Definition child_fds (b : list fend) (n k : nat) : list (nat * fend) :=
  numbered 0 (child_std b n k) ++ numbered (length b + 2 * k) (drop (2 * k) (ends 0 n)).

Section children.
Variable found : list Z -> bool.
Variable homedir : list Z.
Hypothesis home_short : short (homedir ++ [SLASH] ++ TTOP).
Hypothesis home_chars : Forall (fun c => c <> 0) homedir.

Definition program (f : list Z) : list Z :=
  if bool_decide (f = PPS) || bool_decide (f = TTOP) then homedir ++ [SLASH] ++ f else f.
Definition child_spec (b : list fend) (n k : nat) (g : list (list Z)) : child :=
  match g with
  | [] => C_crash
  | f :: args =>
      if found (program f) then C_exec (program f :: args) (child_fds b n k) else C_incorrect (program f :: args)
  end.

Lemma child_dups b n k m v (X : M sh child) : (2 <= length b)%nat -> (1 <= k <= n)%nat ->
  ((if negb (Nat.eqb k 1) then p ← get_at (fd_pairs (length b) n) (k - 1); dup2 p.1 0 else skip);;
   (if negb (Nat.eqb k n) then p ← get_at (fd_pairs (length b) n) k; dup2 p.2 1 else skip);;
   X) (mk_shell (table (b ++ ends 0 n) m) v) = X (mk_shell (table (child_std b n k ++ ends 0 n) m) v).
Proof.
  intros Hb Hk. set (b1 := if Nat.eqb k 1 then b else <[0%nat := PR (k - 1)]> b).
  assert (Hl : length b1 = length b) by (unfold b1; destruct (Nat.eqb k 1); by rewrite ?length_insert).
  erewrite (bind_ret _ _ _ tt (mk_shell (table (b1 ++ ends 0 n) m) v)).
  2:{ unfold b1. destruct (Nat.eqb_spec k 1); cbn [negb]; [done |].
      erewrite bind_ret by (apply get_at_ok, lookup_fd_pairs; lia). unfold dup2, modify. cbn [fst fds].
      destruct (lookup_ends 0 n (k - 1)) as [E _]; [lia |]. rewrite (fds_lookup _ _ _ _ _ E).
      unfold with_fds. cbn [fds live]. by rewrite table_insert by lia. }
  erewrite (bind_ret _ _ _ tt (mk_shell (table (child_std b n k ++ ends 0 n) m) v)); [done |].
  unfold child_std. fold b1. destruct (Nat.eqb_spec k n); cbn [negb]; [done |].
  erewrite bind_ret by (apply get_at_ok, lookup_fd_pairs; lia). unfold dup2, modify. cbn [snd fds].
  destruct (lookup_ends 0 n k) as [_ E]; [lia |].
  replace (S (length b + 2 * k))%nat with (length b1 + S (2 * k))%nat by lia.
  rewrite (fds_lookup _ _ _ _ _ E). unfold with_fds. cbn [fds live]. by rewrite table_insert by lia.
Qed.

Lemma length_child_std b n k : length (child_std b n k) = length b.
Proof. unfold child_std. destruct (Nat.eqb k 1), (Nat.eqb k n); by rewrite ?length_insert. Qed.

Lemma child_closes b n k m v : (k <= n)%nat ->
  exists l, close_pipes (take k (fd_pairs (length b) n)) (mk_shell (table (child_std b n k ++ ends 0 n) m) v) =
    Ret tt (mk_shell l v) /\ opened 0 l = child_fds b n k.
Proof.
  intros Hk. rewrite take_fd_pairs by done. unfold table. rewrite fmap_app, <- (assoc_L (++)).
  rewrite <- (length_child_std b n k), <- (length_fmap Some (child_std b n k)).
  rewrite close_pipes_ok by (rewrite length_app, length_fmap, length_ends; lia).
  eexists. split; [reflexivity |]. rewrite !opened_app, opened_none, opened_some.
  rewrite drop_app_le by (rewrite length_fmap, length_ends; lia). rewrite opened_app, opened_none, app_nil_r.
  rewrite <- fmap_drop, opened_some, length_fmap, length_replicate, length_child_std. done.
Qed.

Lemma program_short f : short f -> Forall (fun c => c <> 0) f ->
  (length (program f) < length (tok_block f))%nat /\ Forall (fun c => c <> 0) (program f).
Proof.
  intros Hs Hf. unfold program in *. unfold short in *. rewrite !length_app in *. cbn [length TTOP] in *.
  assert (length (tok_block f) = MAX_TOKEN_SIZE) as ->.
  { unfold tok_block, fresh_chars. rewrite length_app, length_fmap, length_app, length_drop, length_replicate.
    unfold MAX_TOKEN_SIZE in *. cbn [length]. lia. }
  destruct (_ || _) eqn:E; [| done]. rewrite !length_app. split.
  - apply orb_true_iff in E as [->%bool_decide_eq_true | ->%bool_decide_eq_true]; cbn [length PPS TTOP]; lia.
  - apply Forall_app. split; [done |]. by constructor.
Qed.

Lemma child_code_ok tokens q x l b n k g r m v :
  queue_rep q (x :: l) -> -1 <= x -> drop (Z.to_nat (x + 1)) tokens = (cell <$> g) ++ Null :: r ->
  Forall short g -> Forall (Forall (fun c => c <> 0)) g -> (2 <= length b)%nat -> (1 <= k <= n)%nat ->
  match child_code found homedir tokens q (fd_pairs (length b) n) k n (mk_shell (table (b ++ ends 0 n) m) v) with
  | Ret c _ => c
  | _ => C_crash
  end = child_spec b n k g.
Proof.
  intros Hq Hx Hd Hs Hz Hb Hk. unfold child_code.
  rewrite child_dups by done. destruct (child_closes b n k m v) as (tab & E & Ho); [lia |].
  rewrite (bind_ret _ _ _ _ _ E). rewrite (bind_ret _ _ _ _ _ (queue_front_ok _ _ _ _ Hq)). cbv zeta.
  set (i := Z.to_nat (x + 1)) in *.
  assert (Hlk : tokens !! i = ((cell <$> g) ++ Null :: r) !! 0%nat) by (by rewrite <- Hd, lookup_drop, Nat.add_0_r).
  destruct g as [| f args]; cbn in Hlk.
  - by erewrite bind_ret by (apply get_at_ok; exact Hlk).
  - apply Forall_cons in Hs as [Hfs Hs]. apply Forall_cons in Hz as [Hfz Hz].
    rewrite (bind_ret _ _ _ (Str (tok_block f)) _) by (apply get_at_ok; exact Hlk). cbv beta iota.
    assert (Hc : c_str (tok_block f) = Some f) by (by apply c_str_ok). rewrite Hc. mstep. cbn [child_spec].
    assert (exists tokens' b', (if bool_decide (f = PPS) || bool_decide (f = TTOP)
         then b' ← copy_str (tok_block f) (homedir ++ [SLASH] ++ f); set_at tokens i (Str b')
         else mret tokens) (mk_shell tab v) = Ret tokens' (mk_shell tab v) /\
       drop i tokens' = Str b' :: (cell <$> args) ++ Null :: r /\ c_str b' = Some (program f)) as (t' & b' & E1 & E2 & E3).
    { destruct (program_short f Hfs Hfz) as [Hps Hpz]. unfold program in *. destruct (_ || _).
      - eexists _, _. split; [| split].
        + erewrite bind_ret by (unfold copy_str; by rewrite decide_True). apply set_at_ok. by eapply lookup_lt_Some.
        + rewrite drop_insert_at by (by eapply lookup_lt_Some). by rewrite Hd.
        + by apply c_str_ok.
      - by exists tokens, (tok_block f). }
    rewrite (bind_ret _ _ _ _ _ E1), E2. cbn [read_argv]. rewrite E3. cbn [mbind option_bind]. rewrite read_argv_ok by done.
    mrun. cbn [fds]. rewrite Ho. by destruct (found (program f)).
Qed.

(** The commands that the entries of the queue point to. *)
Definition points (tokens : list pcell) (x : Z) (g : list (list Z)) : Prop :=
  -1 <= x /\ (exists r, drop (Z.to_nat (x + 1)) tokens = (cell <$> g) ++ Null :: r) /\
  Forall short g /\ Forall (Forall (fun c => c <> 0)) g.

Lemma spawn_ok tokens b n m v l gs fuel q cmdc acc :
  Forall2 (points tokens) l gs -> queue_rep q l -> (length l < fuel)%nat -> (cmdc + length l = n)%nat ->
  (2 <= length b)%nat ->
  exists q', spawn found homedir fuel tokens q (fd_pairs (length b) n) cmdc n acc (mk_shell (table (b ++ ends 0 n) m) v) =
    Ret (acc ++ imap (fun j g => child_spec b n (S (cmdc + j)) g) gs, q') (mk_shell (table (b ++ ends 0 n) m) v).
Proof.
  intros Hl. revert fuel q cmdc acc. induction Hl as [| x g l gs (Hx & (r & Hd) & Hs & Hz) Hl IH];
    intros fuel q cmdc acc Hq Hf Hn Hb; (destruct fuel as [| fuel]; [simpl in Hf; lia |]); cbn [spawn];
    rewrite (queue_empty_ok _ _ Hq).
  - exists q. rewrite bool_decide_true by done. by rewrite app_nil_r.
  - rewrite bool_decide_false by done. mstep.
    destruct (queue_pop_ok q x l (mk_shell (table (b ++ ends 0 n) m) v) Hq) as (q1 & E & Hq1).
    rewrite (bind_ret _ _ _ _ _ E). erewrite child_code_ok by (try done; simpl in Hn; lia).
    destruct (IH fuel q1 (S cmdc) (acc ++ [child_spec b n (S cmdc) g]) Hq1) as (q2 & E2);
      [simpl in Hf; lia | simpl in Hn; lia | done |].
    exists q2. rewrite E2. rewrite <- (assoc_L (++)). cbn [app]. rewrite imap_cons, Nat.add_0_r.
    do 4 f_equal. apply imap_ext. intros j y _. cbn. by rewrite Nat.add_succ_r.
Qed.
End children.

Fixpoint nonbars (ws : list (list Z)) : nat :=
  match ws with [] => 0 | w :: ws => if is_bar w then nonbars ws else S (nonbars ws) end.

Lemma free_tokens_ok ws s : free_tokens (mark <$> ws) s = Ret tt (mk_shell (fds s) (live s - nonbars ws)).
Proof.
  revert s. induction ws as [| w ws IH]; intros s; cbn [nonbars].
  - cbn. rewrite Nat.sub_0_r. by destruct s.
  - rewrite fmap_cons. unfold mark at 1. destruct (is_bar w); cbn [free_tokens cell]; [apply IH |].
    unfold free_block. mstep. rewrite IH. cbn [fds live]. do 2 f_equal. lia.
Qed.

Lemma nonbars_bars i ws : (nonbars ws + length (bars i ws) = length ws)%nat.
Proof. revert i. induction ws as [| w ws IH]; intros i; cbn; [done |]. specialize (IH (S i)). destruct (is_bar w); cbn; lia. Qed.

Lemma nonbars_snoc ws w : nonbars (ws ++ [w]) = (nonbars ws + if is_bar w then 0 else 1)%nat.
Proof. induction ws as [| w' ws IH]; cbn; [by destruct (is_bar w) |]. rewrite IH. destruct (is_bar w'); lia. Qed.

(** The block of the last word is not freed, unless it is a bar. *)
Definition leak (ws : list (list Z)) : nat :=
  match last ws with Some w => if is_bar w then 0 else 1 | None => 0 end.

Lemma nonbars_leak ws : nonbars ws = (nonbars (take (length ws - 1) ws) + leak ws)%nat.
Proof.
  destruct (last ws) as [w |] eqn:E.
  - apply last_Some in E as [ws' ->]. unfold leak. rewrite last_snoc, nonbars_snoc, length_app. cbn [length].
    rewrite Nat.add_sub, take_app_length. done.
  - by apply last_None in E as ->.
Qed.

(** The limits within which a line is handled: its text fits the array, and so
    do its words. *)
Definition line_ok (l : list Z) (ws : list (list Z)) : Prop :=
  Forall (fun c => c <> 0) l /\ spells (l ++ [NEWLINE]) ws /\ Forall short ws /\ (length ws < MAX_NUM_TOKENS)%nat.

Lemma commands_Forall (P : list Z -> Prop) ws : Forall P ws -> Forall (Forall P) (commands ws).
Proof.
  induction 1 as [| w ws Hw _ IH]; cbn; [by repeat constructor |].
  destruct (is_bar w); [by constructor |]. destruct (commands ws); [by repeat constructor |].
  apply Forall_cons in IH as [? ?]. constructor; [by constructor | done].
Qed.

Lemma points_commands ws r :
  Forall short ws -> Forall (Forall (fun c => c <> 0)) ws ->
  Forall2 (points ((mark <$> ws) ++ Null :: r)) (-1 :: bars 0 ws) (commands ws).
Proof.
  intros Hs Hz. apply Forall2_same_length_lookup. split; [cbn; by rewrite <- length_commands |].
  intros k x g Hx Hg. destruct (commands_at ws [] r k g Hg) as (d & r' & Hd & Hge & E).
  change (Z.of_nat (length (@nil pcell)) - 1) with (-1) in Hd. cbn [length] in Hd. rewrite Hd in Hx.
  injection Hx as <-. split_and!; [done | by exists r' | |].
  - exact (proj1 (Forall_lookup _ _) (commands_Forall _ _ Hs) _ _ Hg).
  - exact (proj1 (Forall_lookup _ _) (commands_Forall _ _ Hz) _ _ Hg).
Qed.

(** ** A line and a script *)
Section lines.
Variable found : list Z -> bool.
Variable homedir : list Z.
Hypothesis home_short : short (homedir ++ [SLASH] ++ TTOP).
Hypothesis home_chars : Forall (fun c => c <> 0) homedir.

(** What a line starts when [b] are the open descriptors of the shell. *)
Definition started (b : list fend) (ws : list (list Z)) : list child :=
  imap (fun j g => child_spec found homedir b (length (pipeline ws)) (S j) g) (pipeline ws).

Lemma length_token_array ws : (length ws < MAX_NUM_TOKENS)%nat -> length (token_array ws) = MAX_NUM_TOKENS.
Proof. intros. unfold token_array. rewrite length_app, length_fmap. cbn [length]. rewrite length_replicate. lia. Qed.

(** [tokens] when the bars have been replaced. *)
Definition marked_array (ws : list (list Z)) : list pcell :=
  (mark <$> ws) ++ Null :: replicate (MAX_NUM_TOKENS - S (length ws)) Junk.

Lemma scan_line_ok l ws r tl s :
  line_ok l ws -> ws <> [] ->
  exists q, queue_rep q (-1 :: bars 0 ws) /\
    scan_line (l ++ 0 :: 0 :: r) tl s =
      Ret (Some (length ws - 1)%nat, marked_array ws, q) (mk_shell (fds s) (live s + 2 + nonbars ws)).
Proof.
  intros (Hz & Hsp & Hsh & Hn) Hne. unfold scan_line. rewrite strlen_ok by done. mstep.
  erewrite bind_ret by (apply set_at_ok; rewrite length_app; simpl; lia). rewrite insert_mid by done.
  change (l ++ NEWLINE :: 0 :: r) with (l ++ [NEWLINE] ++ 0 :: r). rewrite (assoc_L (++)).
  erewrite bind_ret by (apply tokenize_ok; try done; apply Forall_app; split; [done | by constructor]).
  rewrite length_token_array by done. set (s1 := mk_shell (fds s) (S (live s + length ws))).
  pose proof (last_token_ok ws [] (replicate (MAX_NUM_TOKENS - S (length ws)) Junk) s1 (S MAX_NUM_TOKENS) tl ltac:(lia)) as E3.
  cbn [app length] in E3. fold (token_array ws) in E3. rewrite (bind_ret _ _ _ _ _ E3).
  set (s2 := mk_shell (fds s) (S (S (live s + length ws)))).
  rewrite (bind_ret _ _ s1 (mk_queue 0 0 (replicate 128 None)) s2) by done.
  assert (exists f, token_array ws !! 0%nat = Some (Str f)) as [f Hf0] by (destruct ws; [done | by eexists]).
  erewrite bind_ret by (apply get_at_ok; exact Hf0). cbv beta iota.
  destruct (queue_push_ok _ _ (-1) s2 queue_new_rep) as (q & Eq & Hq & Hr); [cbn; lia |].
  rewrite (bind_ret _ _ _ _ _ Eq).
  destruct (find_pipes_ok ws [] (replicate (MAX_NUM_TOKENS - S (length ws)) Junk) s2 (S MAX_NUM_TOKENS) q [-1])
    as (q2 & Hq2 & E4);
    [lia | by eapply spells_nonempty | done | rewrite Hr; unfold MAX_NUM_TOKENS in Hn; cbn; lia |].
  exists q2. split; [done |]. cbn [app length] in E4. fold (token_array ws) in E4. rewrite (bind_ret _ _ _ _ _ E4).
  cbn [fst snd fds live s2]. unfold mret, M_ret. pose proof (nonbars_bars 0 ws). f_equal.
  - by destruct ws.
  - f_equal. lia.
Qed.

Lemma close_all b n m v :
  close_pipes (take n (fd_pairs (length b) n)) (mk_shell (table (b ++ ends 0 n) m) v) =
  Ret tt (mk_shell (table b (2 * n + m)) v).
Proof.
  rewrite take_fd_pairs by done. unfold table. rewrite fmap_app, <- (assoc_L (++)), <- (length_fmap Some b).
  rewrite close_pipes_ok by (rewrite length_app, length_fmap, length_ends; lia). do 3 f_equal.
  rewrite drop_app_le by (rewrite length_fmap, length_ends; lia).
  rewrite drop_ge by (rewrite length_fmap, length_ends; lia). by rewrite replicate_add.
Qed.

Lemma run_line_ok l ws r tl b m v :
  line_ok l ws -> ws <> [] -> (2 <= length b)%nat ->
  exists m', run_line found homedir (l ++ 0 :: 0 :: r) tl (mk_shell (table b m) v) =
    Ret (started b ws, Some (length ws - 1)%nat) (mk_shell (table b m') (v + leak ws)).
Proof.
  intros Hok Hne Hb. destruct (scan_line_ok l ws r tl (mk_shell (table b m) v) Hok Hne) as (q & Hq & E1).
  destruct Hok as (Hz & Hsp & Hsh & Hn).
  assert (Hwz : Forall (Forall (fun c => c <> 0)) ws).
  { eapply spells_chars; [exact Hsp |]. apply Forall_app. split; [done |]. by constructor. }
  pose proof (length_bars 0 ws) as Hbl.
  unfold run_line. rewrite (bind_ret _ _ _ _ _ E1). cbv beta iota zeta. rewrite (queue_length_ok _ _ Hq). cbn [length fds live].
  set (n := S (length (bars 0 ws))).
  erewrite bind_ret by (apply make_pipes_ok; unfold n, MAX_NUM_TOKENS, MAX_NUM_PIPES in *; lia). cbn [app].
  destruct (spawn_ok found homedir home_short home_chars (marked_array ws) b n (m - 2 * n) (v + 2 + nonbars ws) _ _ (S n) q 0 []
    (points_commands ws _ Hsh Hwz) Hq) as (q2 & E2); [cbn; lia | done | done |].
  rewrite (bind_ret _ _ _ _ _ E2). rewrite (bind_ret _ _ _ _ _ (close_all _ _ _ _)).
  unfold queue_del, free_block. mrun.
  assert (Hlen : (length ws - 1 <= length (marked_array ws))%nat)
    by (unfold marked_array; rewrite length_app, length_fmap; lia).
  rewrite decide_True by done.
  assert (take (length ws - 1) (marked_array ws) = mark <$> take (length ws - 1) ws) as ->.
  { unfold marked_array. rewrite take_app_le by (rewrite length_fmap; lia). by rewrite fmap_take. }
  rewrite (bind_ret _ _ _ _ _ (free_tokens_ok _ _)). mstep. eexists. unfold mret, M_ret. cbn [fst fds live]. f_equal.
  - f_equal. unfold started, pipeline. destruct ws; [done |]. by rewrite (length_commands 0).
  - f_equal. pose proof (nonbars_leak ws). lia.
Qed.

Lemma fgets_ok n l f : NEWLINE ∉ l -> (length l + 2 <= n)%nat -> fgets n (l ++ NEWLINE :: f) = (l ++ [NEWLINE], f).
Proof.
  revert n. induction l as [| c l IH]; intros n Hl Hn; (destruct n as [| [| n]]; [simpl in Hn; lia.. |]); [done |].
  change (fgets (S (S n)) ((c :: l) ++ NEWLINE :: f)) with
    (if c =? NEWLINE then ([c], l ++ NEWLINE :: f) else let (x, r) := fgets (S n) (l ++ NEWLINE :: f) in (c :: x, r)).
  apply not_elem_of_cons in Hl as [Hc Hl]. destruct (Z.eqb_spec c NEWLINE); [by subst |].
  rewrite IH; [done | done | simpl in Hn; lia].
Qed.

Lemma read_batch_ok l f s : NEWLINE ∉ l -> Forall (fun c => c <> 0) l -> (length l + 2 <= MAX_INPUT_SIZE)%nat ->
  exists r, read_batch (l ++ NEWLINE :: f) s = Ret (Some (l ++ 0 :: 0 :: r, f)) s.
Proof.
  intros Hl Hz Hn. exists (drop (S (length (l ++ [NEWLINE]))) zero_line). unfold read_batch.
  destruct (l ++ NEWLINE :: f) as [| c0 f0] eqn:Ef; [by destruct l |]. rewrite <- Ef, fgets_ok by done. unfold put_str.
  replace (strlen _) with (Some (S (length l))).
  2:{ cbn [app]. rewrite strlen_ok; [by rewrite length_app, Nat.add_1_r |]. apply Forall_app. split; [done | by constructor]. }
  mstep. erewrite bind_ret by (apply set_at_ok; rewrite !length_app; simpl; lia).
  rewrite <- (assoc_L (++)). cbn [app]. by rewrite insert_mid.
Qed.

(** A line of a script within the limits of the shell, with its words. *)
Definition script_line (l : list Z) (ws : list (list Z)) : Prop :=
  line_ok l ws /\ ws <> [] /\ NEWLINE ∉ l /\ (length l + 2 <= MAX_INPUT_SIZE)%nat.

Lemma main_batch_ok lines wss : Forall2 script_line lines wss ->
  forall fuel b m v tl acc, (2 <= length b)%nat -> (length lines < fuel)%nat ->
  exists m', main_batch found homedir fuel (concat ((.++ [NEWLINE]) <$> lines)) tl acc (mk_shell (table b m) v) =
    Ret (acc ++ concat (started b <$> wss)) (mk_shell (table b m') (v + sum_list (leak <$> wss))).
Proof.
  induction 1 as [| l ws lines wss (Hok & Hne & Hl & Hlen) _ IH]; intros fuel b m v tl acc Hb Hf;
    (destruct fuel as [| fuel]; [simpl in Hf; lia |]); rewrite ?fmap_nil, ?fmap_cons; cbn [concat main_batch].
  - exists m. mstep. rewrite app_nil_r. cbn. by rewrite Nat.add_0_r.
  - pose proof Hok as (Hz & _). rewrite <- (assoc_L (++)). cbn [app].
    destruct (read_batch_ok l (concat ((.++ [NEWLINE]) <$> lines)) (mk_shell (table b m) v) Hl Hz Hlen) as [r E].
    rewrite (bind_ret _ _ _ _ _ E). destruct (run_line_ok l ws r tl b m v Hok Hne Hb) as [m1 E1].
    rewrite (bind_ret _ _ _ _ _ E1). cbn [fst snd].
    destruct (IH fuel b m1 (v + leak ws)%nat (Some (length ws - 1)%nat) (acc ++ started b ws) Hb) as [m2 E2];
      [simpl in Hf; lia |].
    exists m2. rewrite E2, <- (assoc_L (++)). do 2 f_equal. simpl. lia.
Qed.

(** Any script within the limits, whatever its bars look like: a word that starts
    with a bar ends the command before it and is itself dropped, and a command
    without words crashes. *)
Theorem script_runs_any lines wss b v :
  Forall2 script_line lines wss -> (2 <= length b)%nat ->
  exists m, main_batch found homedir (S (length lines)) (concat ((.++ [NEWLINE]) <$> lines)) None []
      (mk_shell (table b 0) v) =
    Ret (concat (started b <$> wss)) (mk_shell (table b m) (v + sum_list (leak <$> wss))).
Proof. intros Hl Hb. apply (main_batch_ok lines wss Hl (S (length lines)) b 0 v None [] Hb). lia. Qed.

(** *** Pipelines *)

(** The words of a pipeline: its commands with a bar, a word of its own, between
    them. *)
Fixpoint piped (cs : list (list (list Z))) : list (list Z) :=
  match cs with [] => [] | [g] => g | g :: cs => g ++ [BAR] :: piped cs end.
Definition plain (w : list Z) : Prop := BAR ∉ w.
(** A pipeline: one command at least, each with one word at least, no bar inside a word. *)
Definition well_piped (cs : list (list (list Z))) : Prop :=
  cs <> [] /\ Forall (fun g => g <> [] /\ Forall plain g) cs.

(** What the shell has to start for a pipeline: command [k] of [n], with its words. *)
Definition pipeline_children (b : list fend) (cs : list (list (list Z))) : list child :=
  imap (fun j g => child_spec found homedir b (length cs) (S j) g) cs.

Lemma plain_not_bar w : plain w -> is_bar w = false.
Proof. destruct w as [| c w]; [done |]. intros Hw. apply not_elem_of_cons in Hw as [Hc _]. apply Z.eqb_neq. congruence. Qed.

Lemma commands_app g ws : Forall plain g ->
  commands (g ++ ws) = match commands ws with h :: gs => (g ++ h) :: gs | [] => [g] end.
Proof.
  induction 1 as [| w g Hw _ IH]; cbn [app commands].
  - pose proof (length_commands 0 ws). by destruct (commands ws).
  - rewrite plain_not_bar, IH by done. by destruct (commands ws).
Qed.

Lemma commands_piped cs : well_piped cs -> commands (piped cs) = cs.
Proof.
  intros [Hne Hcs]. induction Hcs as [| g cs [Hg Hp] Hcs IH]; [done |]. destruct cs as [| g2 cs].
  - cbn [piped]. rewrite <- (app_nil_r g) at 1. rewrite commands_app by done. cbn. by rewrite app_nil_r.
  - change (piped (g :: g2 :: cs)) with (g ++ [BAR] :: piped (g2 :: cs)). rewrite commands_app by done.
    cbn [commands is_bar]. rewrite Z.eqb_refl, IH by done. by rewrite app_nil_r.
Qed.

Lemma piped_last cs : well_piped cs -> exists ws w, piped cs = ws ++ [w] /\ plain w.
Proof.
  intros [Hne Hcs]. induction Hcs as [| g cs [Hg Hp] Hcs IH]; [done |]. destruct cs as [| g2 cs].
  - destruct (exists_last Hg) as (ws & w & ->). exists ws, w. split; [done |].
    apply Forall_app in Hp as [_ Hp]. by apply Forall_cons in Hp as [? _].
  - destruct IH as (ws & w & E & Hw); [done |].
    change (piped (g :: g2 :: cs)) with (g ++ [BAR] :: piped (g2 :: cs)). rewrite E.
    exists (g ++ [BAR] :: ws), w. by rewrite <- (assoc_L (++)).
Qed.

Lemma piped_started b cs : well_piped cs -> started b (piped cs) = pipeline_children b cs /\ leak (piped cs) = 1%nat.
Proof.
  intros Hcs. destruct (piped_last cs Hcs) as (ws & w & E & Hw). split.
  - assert (pipeline (piped cs) = cs) as Hp.
    { unfold pipeline. rewrite commands_piped by done. rewrite E. by destruct ws. }
    unfold started. by rewrite Hp.
  - unfold leak. rewrite E, last_snoc. by rewrite plain_not_bar.
Qed.

(** A line of a script that is a pipeline within the limits of the shell, with its commands. *)
Definition pipeline_line (l : list Z) (cs : list (list (list Z))) : Prop :=
  well_piped cs /\ script_line l (piped cs).

(** C16. A script of pipelines runs as its lines say.  For a script whose lines
    end with a newline, fit the arrays of ssu_shell.c (1022 characters, 63 words
    of 63 characters) and are pipelines - commands of one word or more, with bars
    between them that are words of their own -, [main] returns and has started,
    line by line and in order, one child for each command: it executes exactly
    the words of the command with its standard input from the pipe of the
    command before, its standard output to the pipe of the next and the shell's
    own standard input and output at the two ends (the words [pps] and [ttop]
    name programs of the home directory), or reports an incorrect command when
    [execvp] does not find it.  At the end the shell has the descriptors it
    started with, and one block of the heap is lost for each line. *)
Theorem script_runs lines css b v :
  Forall2 pipeline_line lines css -> (2 <= length b)%nat ->
  exists m, main_batch found homedir (S (length lines)) (concat ((.++ [NEWLINE]) <$> lines)) None []
      (mk_shell (table b 0) v) =
    Ret (concat (pipeline_children b <$> css)) (mk_shell (table b m) (v + length lines)).
Proof.
  intros Hl Hb.
  assert (Hs : Forall2 script_line lines (piped <$> css)).
  { clear -Hl. induction Hl as [| l cs lines css [_ Hl] _ IH]; rewrite ?fmap_nil, ?fmap_cons; by constructor. }
  destruct (main_batch_ok lines _ Hs (S (length lines)) b 0 v None [] Hb) as [m E]; [lia |].
  exists m. rewrite E. cbn [app]. clear -Hl.
  assert (started b <$> (piped <$> css) = pipeline_children b <$> css /\
          sum_list (leak <$> (piped <$> css)) = length lines) as [-> ->]; [| done].
  induction Hl as [| l cs lines css [Hw _] _ [IH1 IH2]]; [done |].
  destruct (piped_started b cs Hw) as [E1 E2]. rewrite !fmap_cons. split; [by rewrite E1, IH1 |].
  cbn. by rewrite E2, IH2.
Qed.
End lines.

(** A child keeps open the read end of the pipe it writes to, so it is not
    stopped when the next command ends early; and every command up to [k] keeps
    the write end of pipe [k], so command [k + 1] sees the end of its input only
    when all of them are gone. *)
Theorem pipes_left_open b n j k : (1 <= j <= k)%nat -> (k < n)%nat ->
  (length b + 2 * k, PR k)%nat ∈ child_fds b n j /\ (length b + S (2 * k), PW k)%nat ∈ child_fds b n j.
Proof.
  intros Hj Hk. destruct (lookup_ends 0 n k Hk) as [E1 E2]. cbn in E1, E2.
  assert (H : forall i e, ends 0 n !! i = Some e -> (2 * j <= i)%nat -> (length b + i, e)%nat ∈ child_fds b n j).
  { intros i e He Hi. unfold child_fds. apply elem_of_app. right. unfold numbered.
    apply list_elem_of_lookup. exists (i - 2 * j)%nat. apply lookup_lt_Some in He as Hlt.
    apply lookup_zip_Some. split.
    - rewrite lookup_seq_lt by (rewrite length_drop; lia). f_equal. lia.
    - rewrite lookup_drop. by replace (2 * j + (i - 2 * j))%nat with i by lia. }
  split; apply H; try done; lia.
Qed.

Definition no_home : list Z := [47; 104].
Definition std3 : list fend := [Ext 0; Ext 1; Ext 2].
Definition text_ls : list Z := [108; 115].
Definition text_abc : list Z := [97; 32; 98; 32; 99].
Definition text_ls_more : list Z := [108; 115; 32; 124; 109; 111; 114; 101].
Definition text_grep_wc : list Z := [103; 114; 101; 112; 124; 32; 119; 99].

Lemma script_runs_witness : exists m,
  main_batch (fun _ => true) no_home 2 ([97; 32; 124; 32; 98] ++ [NEWLINE]) None [] (mk_shell (table std3 0) 0) =
  Ret [C_exec [[97]] [(0, Ext 0); (1, PW 1); (2, Ext 2); (5, PR 1); (6, PW 1)]%nat;
       C_exec [[98]] [(0, PR 1); (1, Ext 1); (2, Ext 2)]%nat] (mk_shell (table std3 m) 1).
Proof.
  apply (script_runs (fun _ => true) no_home ltac:(unfold short, MAX_TOKEN_SIZE; simpl; lia) ltac:(by repeat constructor)
    [[97; 32; 124; 32; 98]] [[[[97]]; [[98]]]] std3 0); [| simpl; lia].
  constructor; [| constructor]. split.
  { split; [done |]. repeat constructor; try done; by apply not_elem_of_cons; split; [| apply not_elem_of_nil]. }
  split_and!; [| done | | simpl; unfold MAX_INPUT_SIZE; lia].
  - split_and!; [by repeat constructor | | | simpl; unfold MAX_NUM_TOKENS; lia].
    + apply (spells_word [] [97] 32 [124; 32; 98; 10]); try done; [by repeat constructor.. |].
      apply (spells_word [] [124] 32 [98; 10]); try done; [by repeat constructor.. |].
      apply (spells_word [] [98] 10 []); try done; by repeat constructor.
    + repeat constructor; unfold short, MAX_TOKEN_SIZE; simpl; lia.
  - intros H. repeat (apply elem_of_cons in H as [H | H]; [discriminate |]). by apply not_elem_of_nil in H.
Defined.

(** A bar that touches the word after it takes that word with it: of
    "ls |more" the shell runs "ls" into a pipe whose reader is a command without
    words, which crashes, and "more" is not run.  A bar that touches the word
    before it is no bar: "grep| wc" runs the program "grep|". *)
Theorem glued_bar_drops_word : exists s,
  main_batch (fun _ => true) no_home 2 (text_ls_more ++ [NEWLINE]) None [] (mk_shell (table std3 0) 0) =
  Ret [C_exec [[108; 115]] (child_fds std3 2 1); C_crash] s.
Proof. eexists. vm_compute. reflexivity. Qed.

Theorem glued_bar_is_no_bar : exists s,
  main_batch (fun _ => true) no_home 2 (text_grep_wc ++ [NEWLINE]) None [] (mk_shell (table std3 0) 0) =
  Ret [C_exec [[103; 114; 101; 112; 124]; [119; 99]] (child_fds std3 1 1)] s.
Proof. eexists. vm_compute. reflexivity. Qed.

(** The last character of a script is lost when no newline follows it: a script
    that holds just "ls" runs "l". *)
Theorem last_character_lost : exists s,
  main_batch (fun _ => true) no_home 2 text_ls None [] (mk_shell (table std3 0) 0) =
  Ret [C_exec [[108]] (numbered 0 std3)] s.
Proof. eexists. vm_compute. reflexivity. Qed.

(** After a line of three words an empty line frees an entry of [tokens] that
    was never written, because [token_len] still has the value of the line
    before; an empty first line uses [token_len] uninitialised. *)
Theorem empty_line_frees_junk :
  main_batch (fun _ => true) no_home 9 (text_abc ++ [NEWLINE; NEWLINE]) None [] (mk_shell (table std3 0) 0) =
    Stop "free of an uninitialised pointer" /\
  main_batch (fun _ => true) no_home 9 [NEWLINE] None [] (mk_shell (table std3 0) 0) = Stop "uninitialised".
Proof. split; vm_compute; reflexivity. Qed.

(** At the end of the terminal's input the shell goes on reading empty lines. *)
Theorem end_of_input_ignored n acc v :
  main_interactive (fun _ => true) no_home n [] (Some 0%nat) acc (mk_shell (table std3 0) v) =
  Ret (acc, []) (mk_shell (table std3 0) v).
Proof.
  revert acc. induction n as [| n IH]; intros acc; [done |]. cbn [main_interactive].
  mstep. cbn [fst snd].
  assert (run_line (fun _ => true) no_home zero_line (Some 0%nat) (mk_shell (table std3 0) v) =
    Ret ([], Some 0%nat) (mk_shell (table std3 0) v)) as E by (vm_compute; reflexivity).
  rewrite (bind_ret _ _ _ _ _ E). cbn [fst snd]. by rewrite app_nil_r.
Qed.
