(* ===== verification/Console.v ===== *)
(** * Console: project3/xv6-modified/console.c, the console device

    The input ring with its line editing ([consoleintr], [consoleread]), the
    output to the screen and the serial port ([consputc], [cgaputc]) and the
    formatted output of the kernel ([printint], [cprintf]).  [cons.lock] is held
    from the entry of a call (or its wakeup) to the next [sleep] or to its
    return, so such a stretch is atomic and one definition here.  The screen is
    the text memory of 25 rows of 80 characters and the two cursor registers;
    the serial port receives the list [uart].  [getc] is the list of the
    characters it returns before its -1. *)

From Stdlib Require Import ZArith Lia.
From stdpp Require Import base numbers strings option list.
From S2P Require Import Prelude.

Definition INPUT_BUF : Z := 128.
Definition BACKSPACE : Z := 256.
Definition NL : Z := 10.
Definition CR : Z := 13.
Definition DEL : Z := 127.
(** [C(x)], Control-x, of the letters the console knows. *)
Definition CtrlD : Z := 4.
Definition CtrlH : Z := 8.
Definition CtrlP : Z := 16.
Definition CtrlU : Z := 21.

Record console := mk_console {
  buf : list Z; r : Z; w : Z; e : Z;     (* input *)
  panicked : bool;
  crt : list Z; cur_hi : Z; cur_lo : Z;  (* text memory, registers 14 and 15 *)
  uart : list Z;
  woken : nat                            (* calls of wakeup(&input.r) *)
}.

Definition set_input b r' w' e' s :=
  mk_console b r' w' e' (panicked s) (crt s) (cur_hi s) (cur_lo s) (uart s) (woken s).
Definition set_screen c h l s := mk_console (buf s) (r s) (w s) (e s) (panicked s) c h l (uart s) (woken s).
Definition set_uart u s :=
  mk_console (buf s) (r s) (w s) (e s) (panicked s) (crt s) (cur_hi s) (cur_lo s) u (woken s).
(** The port takes the low byte. *)
Definition uartputc (c : Z) : M console unit := modify (fun s => set_uart (uart s ++ [u8 c]) s).
Definition wakeup_input : M console unit := modify (fun s =>
  mk_console (buf s) (r s) (w s) (e s) (panicked s) (crt s) (cur_hi s) (cur_lo s) (uart s) (S (woken s))).

(** [crt[pos] = x] *)
Definition crt_store (pos x : Z) : M console unit :=
  s ← get;
  if (0 <=? pos) && (pos <? Z.of_nat (length (crt s))) then
    put (set_screen (<[Z.to_nat pos := x]> (crt s)) (cur_hi s) (cur_lo s) s)
  else stop "crt".

(** Scrolling: the rows from the second on move up and the rest of the screen
    below [pos] is cleared. *)
Definition scroll_up (pos : Z) (c : list Z) : list Z :=
  splice (Z.to_nat pos) (replicate (Z.to_nat (24 * 80 - pos)) 0) (splice 0 (slice 80 (23 * 80) c) c).

Definition cgaputc (c : Z) : M console unit :=
  s ← get;
  let pos := Z.lor (Z.shiftl (cur_hi s) 8) (cur_lo s) in
  pos ← (if c =? NL then mret (pos + (80 - pos mod 80))
         else if c =? BACKSPACE then mret (if pos >? 0 then pos - 1 else pos)
         else crt_store pos (Z.lor (Z.land c 255) 1792);; mret (pos + 1));
  if (pos <? 0) || (pos >? 25 * 80) then stop "pos under/overflow" else
  pos ← (if 24 <=? pos / 80 then
           modify (fun s => set_screen (scroll_up (pos - 80) (crt s)) (cur_hi s) (cur_lo s) s);; mret (pos - 80)
         else mret pos);
  modify (fun s => set_screen (crt s) (u8 (Z.shiftr pos 8)) (u8 pos) s);;
  crt_store pos (Z.lor 32 1792).

Definition consputc (c : Z) : M console unit :=
  s ← get;
  if panicked s then stop "frozen" else
  (if c =? BACKSPACE then uartputc 8;; uartputc 32;; uartputc 8 else uartputc c);;
  cgaputc c.

(** ** Input *)
Definition input_at (s : console) (i : Z) : Z := nth (Z.to_nat (i mod INPUT_BUF)) (buf s) 0.

(** [input.e--; consputc(BACKSPACE)] *)
Definition rub_out : M console unit :=
  modify (fun s => set_input (buf s) (r s) (w s) (u32 (e s - 1)) s);; consputc BACKSPACE.

(** The loop of Control-U.  At most [INPUT_BUF] characters are edited. *)
Fixpoint kill_line (fuel : nat) : M console unit :=
  match fuel with
  | O => out_of_fuel
  | S fuel' =>
      s ← get;
      if (e s =? w s) || (input_at s (u32 (e s - 1)) =? NL) then skip
      else rub_out;; kill_line fuel'
  end.

(** The default case: a character is stored, echoed and, at the end of a line,
    handed to the readers. *)
Definition type_char (c : Z) : M console unit :=
  s ← get;
  if negb (c =? 0) && (u32 (e s - r s) <? INPUT_BUF) then
    let c := if c =? CR then NL else c in
    modify (fun s => set_input (<[Z.to_nat (e s mod INPUT_BUF) := u8 c]> (buf s)) (r s) (w s) (u32 (e s + 1)) s);;
    consputc c;;
    s ← get;
    if (c =? NL) || (c =? CtrlD) || (e s =? u32 (r s + INPUT_BUF)) then
      modify (fun s => set_input (buf s) (r s) (e s) (e s) s);; wakeup_input
    else skip
  else skip.

(** [consoleintr] returns whether [procdump] is to be called after it. *)
Fixpoint consoleintr_loop (cs : list Z) (doprocdump : bool) : M console bool :=
  match cs with
  | [] => mret doprocdump
  | c :: cs' =>
      if c =? CtrlP then consoleintr_loop cs' true
      else if c =? CtrlU then kill_line 129;; consoleintr_loop cs' doprocdump
      else if (c =? CtrlH) || (c =? DEL) then
        s ← get; (if e s =? w s then skip else rub_out);; consoleintr_loop cs' doprocdump
      else type_char c;; consoleintr_loop cs' doprocdump
  end.
Definition consoleintr (getc : list Z) : M console bool := consoleintr_loop getc false.

(** How a stretch of [consoleread] ends: with its result, or asleep on
    [&input.r] with [n] bytes still wanted. *)
Inductive read_end := finished (z : Z) | asleep (n : Z).

(** The loop of [consoleread] and the bytes it stores; [n] is the number still
    wanted, [k] the same as the loop's measure. *)
Fixpoint consoleread_loop (killed : bool) (target : Z) (k : nat) : M console (read_end * list Z) :=
  let n := Z.of_nat k in
  match k with
  | O => mret (finished (s32 (target - n)), [])
  | S k' =>
      s ← get;
      if r s =? w s then mret (if killed then finished (-1) else asleep n, [])
      else
        let c := input_at s (r s) in
        modify (fun s => set_input (buf s) (u32 (r s + 1)) (w s) (e s) s);;
        if c =? CtrlD then
          (if n <? target then modify (fun s => set_input (buf s) (u32 (r s - 1)) (w s) (e s) s) else skip);;
          mret (finished (s32 (target - n)), [])
        else if c =? NL then mret (finished (s32 (target - (n - 1))), [c])
        else
          '(res, cs) ← consoleread_loop killed target k';
          mret (res, c :: cs)
  end.

(** [consoleread], from its entry ([n = target]) or from a wakeup; the inode is
    unlocked around it. *)
Definition consoleread (killed : bool) (n target : Z) : M console (read_end * list Z) :=
  if n >? 0 then consoleread_loop killed target (Z.to_nat n)
  else mret (finished (s32 (target - n)), []).

Fixpoint put_all (cs : list Z) : M console unit :=
  match cs with [] => skip | c :: cs' => consputc (Z.land c 255);; put_all cs' end.
Definition consolewrite (bs : list Z) (n : Z) : M console Z := put_all (take (Z.to_nat n) bs);; mret n.

(** ** The screen stays inside its memory *)
Definition cursor (s : console) : Z := Z.lor (Z.shiftl (cur_hi s) 8) (cur_lo s).
Record screen_ok (s : console) : Prop := {
  so_panic : panicked s = false;
  so_crt : length (crt s) = 2000%nat;
  so_pos : 0 <= cursor s < 2000
}.
(** Output changes the screen and the serial port only. *)
Definition same_input (s s' : console) : Prop :=
  buf s' = buf s /\ r s' = r s /\ w s' = w s /\ e s' = e s /\ woken s' = woken s.

Lemma same_input_trans s1 s2 s3 : same_input s1 s2 -> same_input s2 s3 -> same_input s1 s3.
Proof. intros (? & ? & ? & ? & ?) (? & ? & ? & ? & ?). unfold same_input. split_and!; congruence. Qed.

Lemma cursor_roundtrip pos : 0 <= pos < 2000 -> Z.lor (Z.shiftl (u8 (Z.shiftr pos 8)) 8) (u8 pos) = pos.
Proof.
  intros Hp.
  assert (Hall : forallb (fun k => Z.lor (Z.shiftl (u8 (Z.shiftr (Z.of_nat k) 8)) 8) (u8 (Z.of_nat k)) =? Z.of_nat k)
                   (seq 0 2000) = true) by (vm_compute; reflexivity).
  rewrite forallb_forall in Hall. specialize (Hall (Z.to_nat pos)). rewrite Z2Nat.id in Hall by lia.
  apply Z.eqb_eq, Hall, in_seq. lia.
Qed.

Lemma length_scroll pos c : length c = 2000%nat -> 0 <= pos <= 1920 -> length (scroll_up pos c) = 2000%nat.
Proof.
  intros Hc Hp. unfold scroll_up. rewrite !length_splice; rewrite ?length_slice, ?length_replicate; try lia.
  rewrite length_splice; rewrite ?length_slice; lia.
Qed.

(** The last part of [cgaputc], from the test of the position on. *)
Lemma crt_store_ok pos x s : length (crt s) = 2000%nat -> 0 <= pos < 2000 ->
  crt_store pos x s = Ret tt (set_screen (<[Z.to_nat pos := x]> (crt s)) (cur_hi s) (cur_lo s) s).
Proof.
  intros Hc Hp. unfold crt_store, get, put, mbind, M_bind. rewrite Hc.
  rewrite (proj2 (Z.leb_le 0 pos)), (proj2 (Z.ltb_lt pos _)) by lia. done.
Qed.

Lemma cgaputc_ok c s : screen_ok s ->
  exists s', cgaputc c s = Ret tt s' /\ screen_ok s' /\ same_input s s' /\ uart s' = uart s.
Proof.
  intros [Hpan Hcrt Hpos]. unfold cgaputc. erewrite bind_ret by reflexivity. fold (cursor s). cbv zeta.
  set (first := if c =? NL then _ else _).
  assert (exists s1 p1, first s = Ret p1 s1 /\ 0 <= p1 <= 2000 /\ panicked s1 = false /\ length (crt s1) = 2000%nat /\
    same_input s s1 /\ uart s1 = uart s) as (s1 & p1 & E1 & Hp1 & Hpan1 & Hc1 & Hs1 & Hu1).
  { unfold first. destruct (c =? NL).
    { exists s. eexists. split; [done|]. split; [|done].
      pose proof (Z.div_mod (cursor s) 80). pose proof (Z.mod_pos_bound (cursor s) 80).
      assert (cursor s / 80 < 25) by (apply Z.div_lt_upper_bound; lia). lia. }
    destruct (c =? BACKSPACE).
    { exists s. eexists. split; [done|]. split; [|done]. destruct (Z.gtb_spec (cursor s) 0); lia. }
    erewrite bind_ret by (by apply crt_store_ok). do 2 eexists. split_and!; try done; simpl; try lia.
    by rewrite length_insert. }
  rewrite (bind_ret _ _ _ _ _ E1). destruct (Z.ltb_spec p1 0), (Z.gtb_spec p1 (25 * 80)); try lia. simpl.
  set (second := if 24 <=? p1 / 80 then _ else _).
  assert (exists s2 p2, second s1 = Ret p2 s2 /\ 0 <= p2 < 2000 /\ panicked s2 = false /\ length (crt s2) = 2000%nat /\
    same_input s1 s2 /\ uart s2 = uart s1) as (s2 & p2 & E2 & Hp2 & Hpan2 & Hc2 & Hs2 & Hu2).
  { unfold second. destruct (Z.leb_spec 24 (p1 / 80)) as [Hd|Hd].
    - assert (1920 <= p1) by (pose proof (Z.mul_div_le p1 80); lia).
      erewrite bind_ret by reflexivity. do 2 eexists. split_and!; try done; simpl; try lia.
      by apply length_scroll; [|lia].
    - exists s1, p1. split; [done|]. split; [|done]. pose proof (Z.mul_succ_div_gt p1 80). lia. }
  rewrite (bind_ret _ _ _ _ _ E2). erewrite bind_ret by reflexivity.
  rewrite crt_store_ok by done. eexists. split; [done|]. split_and!.
  - constructor; simpl; [done|by rewrite length_insert|]. unfold cursor. simpl. by rewrite cursor_roundtrip.
  - apply (same_input_trans s s1 _ Hs1). by apply (same_input_trans s1 s2 _ Hs2).
  - simpl. congruence.
Qed.

Lemma consputc_ok c s : screen_ok s ->
  exists s', consputc c s = Ret tt s' /\ screen_ok s' /\ same_input s s' /\
  uart s' = uart s ++ (if c =? BACKSPACE then [8; 32; 8] else [u8 c]).
Proof.
  intros Hok. unfold consputc. erewrite bind_ret by reflexivity. rewrite (so_panic s Hok).
  assert (Hu : forall u, screen_ok (set_uart u s)) by (intros u; constructor; apply Hok).
  set (out := if c =? BACKSPACE then [8; 32; 8] else [u8 c]).
  destruct (cgaputc_ok c (set_uart (uart s ++ out) s) (Hu _)) as (s' & E & H1 & H2 & H3).
  exists s'. split; [|split_and!; [exact H1|exact H2|exact H3]]. subst out.
  destruct (c =? BACKSPACE); [|by erewrite bind_ret by reflexivity].
  erewrite bind_ret by reflexivity. rewrite <- E. f_equal. unfold set_uart. simpl. by rewrite <- !app_assoc.
Qed.

(** ** The line editor the input ring implements

    [committed] is what readers may take, [editing] the line being typed. *)
Record editor := mk_editor { committed : list Z; editing : list Z }.

Definition key (c : Z) (ed : editor) : editor :=
  if c =? CtrlP then ed
  else if c =? CtrlU then mk_editor (committed ed) []
  else if (c =? CtrlH) || (c =? DEL) then mk_editor (committed ed) (removelast (editing ed))
  else if negb (c =? 0) && (Z.of_nat (length (committed ed) + length (editing ed)) <? INPUT_BUF) then
    let c := if c =? CR then NL else c in
    let line := editing ed ++ [u8 c] in
    if (c =? NL) || (c =? CtrlD) || (Z.of_nat (length (committed ed) + length line) =? INPUT_BUF)
    then mk_editor (committed ed ++ line) []
    else mk_editor (committed ed) line
  else ed.
Definition keys (cs : list Z) (ed : editor) : editor := foldl (fun ed c => key c ed) ed cs.

(** Whether a key hands a line to the readers. *)
Definition commits (c : Z) (ed : editor) : bool :=
  (length (committed ed) <? length (committed (key c ed)))%nat.

(** Taking at most [k] of [target] bytes: up to the end of a line, up to an end
    of file, which is left for the next call when bytes were taken before it. *)
Fixpoint take_line (killed : bool) (target : Z) (k : nat) (l : list Z) : read_end * list Z * list Z :=
  match k with
  | O => (finished (s32 target), [], l)
  | S k' =>
      match l with
      | [] => (if killed then finished (-1) else asleep (Z.of_nat k), [], [])
      | c :: l' =>
          let got := s32 (target - Z.of_nat k) in
          if c =? CtrlD then (finished got, [], if Z.of_nat k <? target then l else l')
          else if c =? NL then (finished (s32 (target - Z.of_nat k + 1)), [c], l')
          else let '(res, cs, rest) := take_line killed target k' l' in (res, c :: cs, rest)
      end
  end.

(** The ring holds the two lists from the read index on; [base] is the read
    index without its wrap-around. *)
Record ring_ok (s : console) (ed : editor) (base : Z) : Prop := {
  ro_buf : length (buf s) = 128%nat;
  ro_r : r s = u32 base;
  ro_w : w s = u32 (base + Z.of_nat (length (committed ed)));
  ro_e : e s = u32 (base + Z.of_nat (length (committed ed)) + Z.of_nat (length (editing ed)));
  ro_len : Z.of_nat (length (committed ed)) + Z.of_nat (length (editing ed)) <= 128;
  ro_at : forall k x, (committed ed ++ editing ed) !! k = Some x ->
    buf s !! Z.to_nat ((base + Z.of_nat k) mod 128) = Some x
}.
(** A line that is being edited has no end of line in it. *)
Definition line_ok (ed : editor) : Prop := Forall (fun x => x <> NL) (editing ed).

Lemma u32_eq a b : Z.abs (a - b) < 2 ^ 32 -> (u32 a =? u32 b) = (a =? b).
Proof.
  intros Hab. destruct (Z.eqb_spec a b) as [->|Hne]; [apply Z.eqb_refl|]. apply Z.eqb_neq. intros Hu. apply Hne.
  unfold u32 in Hu. pose proof (Z.div_mod a (2 ^ 32)). pose proof (Z.div_mod b (2 ^ 32)). nia.
Qed.
Lemma u32_mod_input z : u32 z mod 128 = z mod 128.
Proof. unfold u32. rewrite Z.mod_mod_divide; [done|]. exists (2 ^ 25). lia. Qed.
Lemma mod_ring_eq base i j : 0 <= i < 128 -> 0 <= j < 128 ->
  Z.to_nat ((base + i) mod 128) = Z.to_nat ((base + j) mod 128) -> i = j.
Proof.
  intros Hi Hj Heq. apply Z2Nat.inj in Heq; [|apply Z.mod_pos_bound; lia..].
  pose proof (Z.div_mod (base + i) 128). pose proof (Z.div_mod (base + j) 128). nia.
Qed.

Lemma ring_same s s' ed base : same_input s s' -> ring_ok s ed base -> ring_ok s' ed base.
Proof. intros (Hb & Hr & Hw & He & _) []. constructor; rewrite ?Hb, ?Hr, ?Hw, ?He; done. Qed.

(** What the code reads at an index of the ring. *)
Lemma ring_input s ed base k x : ring_ok s ed base -> (committed ed ++ editing ed) !! k = Some x ->
  input_at s (u32 (base + Z.of_nat k)) = x.
Proof.
  intros HR Hk. unfold input_at, INPUT_BUF. rewrite u32_mod_input.
  apply nth_lookup_Some. by apply (ro_at s ed base HR).
Qed.

(** The ring after the last edited character is rubbed out. *)
Lemma ring_rub s com ed x base : ring_ok s (mk_editor com (ed ++ [x])) base ->
  ring_ok (set_input (buf s) (r s) (w s) (u32 (e s - 1)) s) (mk_editor com ed) base.
Proof.
  intros []. simpl in *. rewrite length_app in *. simpl in *. constructor; simpl; try done; try lia.
  - rewrite ro_e0, u32_sub_l. f_equal. lia.
  - intros k y Hk. apply ro_at0. rewrite app_assoc. by apply lookup_app_l_Some.
Qed.

Lemma rub_out_ok s com ed x base : screen_ok s -> ring_ok s (mk_editor com (ed ++ [x])) base ->
  exists s', rub_out s = Ret tt s' /\ screen_ok s' /\ ring_ok s' (mk_editor com ed) base /\ woken s' = woken s.
Proof.
  intros Hok HR. unfold rub_out. erewrite bind_ret by reflexivity.
  destruct (consputc_ok BACKSPACE (set_input (buf s) (r s) (w s) (u32 (e s - 1)) s)) as (s' & E & H1 & H2 & _).
  { constructor; apply Hok. }
  exists s'. split_and!; try done; [|by apply H2]. apply (ring_same _ _ _ _ H2). by apply (ring_rub s com ed x).
Qed.

(** The edited line is empty exactly when the indices agree. *)
Lemma ring_empty s ed base : ring_ok s ed base -> (e s =? w s) = bool_decide (editing ed = []).
Proof.
  intros []. rewrite ro_e0, ro_w0, u32_eq by lia.
  destruct (editing ed); [rewrite bool_decide_true by done|rewrite bool_decide_false by done]; cbn [length]; [apply Z.eqb_eq|apply Z.eqb_neq]; lia.
Qed.
Lemma ring_last s com ed x base : ring_ok s (mk_editor com (ed ++ [x])) base -> input_at s (u32 (e s - 1)) = x.
Proof.
  intros HR.
  rewrite (ro_e _ _ _ HR), u32_sub_l. simpl. rewrite length_app. simpl.
  replace (base + Z.of_nat (length com) + Z.of_nat (length ed + 1) - 1) with (base + Z.of_nat (length com + length ed)) by lia.
  apply (ring_input s _ base _ x HR). simpl. rewrite lookup_app_r by lia. rewrite lookup_app_r by lia.
  by replace (length com + length ed - length com - length ed)%nat with 0%nat by lia.
Qed.

Lemma kill_line_ok fuel s com ed base :
  screen_ok s -> ring_ok s (mk_editor com ed) base -> Forall (fun x => x <> NL) ed -> (length ed < fuel)%nat ->
  exists s', kill_line fuel s = Ret tt s' /\ screen_ok s' /\ ring_ok s' (mk_editor com []) base /\ woken s' = woken s.
Proof.
  revert s ed. induction fuel as [|fuel IH]; intros s ed Hok HR Hl Hf; [lia|]. simpl.
  erewrite bind_ret by reflexivity. rewrite (ring_empty s _ base HR). cbn [editing].
  destruct (decide (ed = [])) as [->|Hne].
  { rewrite bool_decide_true by done. simpl. by exists s. }
  destruct (exists_last Hne) as (ed' & x & ->). rewrite bool_decide_false by done.
  apply Forall_app in Hl as [Hl Hx]. inv Hx. rewrite (ring_last s com ed' x base HR), (proj2 (Z.eqb_neq x NL)) by done. simpl.
  destruct (rub_out_ok s com ed' x base Hok HR) as (s1 & E1 & Hok1 & HR1 & Hw1). rewrite (bind_ret _ _ _ _ _ E1).
  rewrite length_app in Hf. simpl in Hf. destruct (IH s1 ed' Hok1 HR1 Hl) as (s2 & E2 & ? & ? & Hw2); [lia|].
  exists s2. split_and!; try done. congruence.
Qed.

(** Storing a character at the edit index. *)
Lemma ring_store s com ed x base : ring_ok s (mk_editor com ed) base -> (length com + length ed < 128)%nat ->
  ring_ok (set_input (<[Z.to_nat (e s mod INPUT_BUF) := x]> (buf s)) (r s) (w s) (u32 (e s + 1)) s)
    (mk_editor com (ed ++ [x])) base.
Proof.
  intros [Hb Hr Hw He Hl Hat] Hlt. simpl in *.
  assert (Hi : Z.to_nat (e s mod INPUT_BUF) = Z.to_nat ((base + Z.of_nat (length com + length ed)) mod 128)).
  { unfold INPUT_BUF. rewrite He, u32_mod_input. do 2 f_equal. lia. }
  constructor; simpl; try done; rewrite ?length_insert, ?length_app; simpl; try lia.
  - rewrite He, u32_add_l. f_equal. lia.
  - intros k y Hk. rewrite Hi. rewrite app_assoc in Hk. destruct (decide (k = length com + length ed)%nat) as [->|Hne].
    + rewrite lookup_app_r, length_app, Nat.sub_diag in Hk by (rewrite length_app; lia). simpl in Hk. simplify_eq.
      apply list_lookup_insert_eq. rewrite Hb. pose proof (Z.mod_pos_bound (base + Z.of_nat (length com + length ed)) 128). lia.
    + assert (k < length com + length ed)%nat.
      { apply lookup_lt_Some in Hk. rewrite !length_app in Hk. simpl in Hk. lia. }
      rewrite lookup_app_l in Hk by (rewrite length_app; lia).
      rewrite list_lookup_insert_ne; [by apply Hat|]. intros Heq. apply mod_ring_eq in Heq; lia.
Qed.
(** Handing the edited line to the readers. *)
Lemma ring_commit s com ed base : ring_ok s (mk_editor com ed) base ->
  ring_ok (set_input (buf s) (r s) (e s) (e s) s) (mk_editor (com ++ ed) []) base.
Proof.
  intros [Hb Hr Hw He Hl Hat]. simpl in *. constructor; simpl; rewrite ?length_app, ?app_nil_r; try done; try lia.
  - rewrite He. f_equal. lia.
  - rewrite He. f_equal. lia.
Qed.

Lemma ring_length s ed base : ring_ok s ed base ->
  u32 (e s - r s) = Z.of_nat (length (committed ed) + length (editing ed)).
Proof. intros []. rewrite ro_e0, ro_r0, u32_sub_l, u32_sub_r, u32_small; lia. Qed.
Lemma ring_full s ed base : ring_ok s ed base ->
  (e s =? u32 (r s + INPUT_BUF)) = (Z.of_nat (length (committed ed) + length (editing ed)) =? INPUT_BUF).
Proof.
  intros []. unfold INPUT_BUF. rewrite ro_e0, ro_r0, u32_add_l, u32_eq by lia. apply eq_true_iff_eq. rewrite !Z.eqb_eq. lia.
Qed.

(** The console with the editor it implements. *)
Definition implements (s : console) (ed : editor) : Prop :=
  screen_ok s /\ line_ok ed /\ exists base, ring_ok s ed base.

(** What a key of the default case does to the editor. *)
Definition typed (c : Z) (ed : editor) : editor :=
  if negb (c =? 0) && (Z.of_nat (length (committed ed) + length (editing ed)) <? INPUT_BUF) then
    let c := if c =? CR then NL else c in
    let line := editing ed ++ [u8 c] in
    if (c =? NL) || (c =? CtrlD) || (Z.of_nat (length (committed ed) + length line) =? INPUT_BUF)
    then mk_editor (committed ed ++ line) []
    else mk_editor (committed ed) line
  else ed.

Lemma type_char_ok c s ed : 0 <= c < 256 -> implements s ed ->
  exists s', type_char c s = Ret tt s' /\ implements s' (typed c ed) /\
  woken s' = (woken s + if (length (committed ed) <? length (committed (typed c ed)))%nat then 1 else 0)%nat.
Proof.
  intros Hc (Hok & Hl & base & HR). destruct ed as [com ed]. unfold type_char, typed. erewrite bind_ret by reflexivity.
  rewrite (ring_length s _ base HR). cbn [committed editing] in *.
  assert (Hstay : forall s, woken s = (woken s + if (length com <? length com)%nat then 1 else 0)%nat).
  { intros. rewrite Nat.ltb_irrefl. lia. }
  destruct (negb (c =? 0) && _) eqn:Et; cbn [committed]; [|exists s; split; [done|]; split; [by split_and!; try done; exists base|apply Hstay]].
  apply andb_true_iff in Et as [_ Hlt]. apply Z.ltb_lt in Hlt. unfold INPUT_BUF in Hlt. cbv zeta.
  set (c' := if c =? CR then NL else c). erewrite bind_ret by reflexivity.
  assert (Hc' : u8 c' = c').
  { subst c'. unfold u8. destruct (c =? CR); [done|]. rewrite Z.mod_small; lia. }
  destruct (consputc_ok c' (set_input (<[Z.to_nat (e s mod INPUT_BUF) := u8 c']> (buf s)) (r s) (w s) (u32 (e s + 1)) s))
    as (s1 & E1 & Hok1 & Hs1 & _); [constructor; apply Hok|].
  rewrite (bind_ret _ _ _ _ _ E1). erewrite bind_ret by reflexivity.
  pose proof (ring_same _ _ _ base Hs1 (ring_store s com ed (u8 c') base HR ltac:(lia))) as HR1.
  rewrite (ring_full s1 _ base HR1). cbn [committed editing].
  assert (Hw1 : woken s1 = woken s) by apply Hs1.
  destruct ((c' =? NL) || (c' =? CtrlD) || _) eqn:Ecom; cbn [committed].
  - erewrite bind_ret by reflexivity. eexists. split; [done|]. split.
    + split; [constructor; apply Hok1|]. split; [constructor|]. exists base.
      destruct (ring_commit s1 _ _ base HR1). by constructor.
    + simpl. rewrite Hw1, !length_app. simpl.
      destruct (Nat.ltb_spec (length com) (length com + (length ed + 1))); lia.
  - exists s1. split; [done|]. split; [|by rewrite Hw1].
    split; [done|]. split; [|by exists base]. apply Forall_app. split; [done|]. constructor; [|done]. rewrite Hc'.
    intros ->. rewrite Z.eqb_refl in Ecom. done.
Qed.

Lemma key_ok c s ed : 0 <= c < 256 -> implements s ed ->
  exists s', (forall cs d, consoleintr_loop (c :: cs) d s = consoleintr_loop cs (d || (c =? CtrlP)) s') /\
  implements s' (key c ed) /\ woken s' = (woken s + if commits c ed then 1 else 0)%nat.
Proof.
  intros Hc HI. unfold commits, key. simpl.
  assert (Hstay : forall s, woken s = (woken s + if (length (committed ed) <? length (committed ed))%nat then 1 else 0)%nat).
  { intros. rewrite Nat.ltb_irrefl. lia. }
  destruct (Z.eqb_spec c CtrlP) as [->|Hp].
  { exists s. split_and!; [|done|apply Hstay]. intros cs d. by rewrite orb_true_r. }
  destruct HI as (Hok & Hl & base & HR). destruct (c =? CtrlU).
  { destruct ed as [com ed]. pose proof (ro_len _ _ _ HR) as Hlen. simpl in Hlen.
    destruct (kill_line_ok 129 s com ed base Hok HR Hl) as (s' & E & Hok' & HR' & Hw'); [lia|].
    exists s'. split_and!; [|split_and!; [done|constructor|by exists base]|by rewrite Hw'].
    intros cs d. rewrite (bind_ret _ _ _ _ _ E). by rewrite orb_false_r. }
  destruct ((c =? CtrlH) || (c =? DEL)).
  { destruct ed as [com ed]. pose proof (ring_empty s _ base HR) as Hem. cbn [editing committed] in *.
    destruct (decide (ed = [])) as [->|Hne].
    - rewrite bool_decide_true in Hem by done. exists s. split_and!; [|split_and!; [done..|by exists base]|apply Hstay].
      intros cs d. erewrite bind_ret by reflexivity. rewrite Hem. by rewrite orb_false_r.
    - rewrite bool_decide_false in Hem by done. destruct (exists_last Hne) as (ed' & x & ->).
      destruct (rub_out_ok s com ed' x base Hok HR) as (s' & E & Hok' & HR' & Hw'). exists s'.
      rewrite removelast_last. split_and!; [|split_and!; [done| |by exists base]|by rewrite Hw'].
      + intros cs d. erewrite bind_ret by reflexivity. rewrite Hem, orb_false_r. by rewrite (bind_ret _ _ _ _ _ E).
      + by apply Forall_app in Hl as [? _]. }
  destruct (type_char_ok c s ed Hc) as (s' & E & HI' & Hw'); [by split_and!; try done; exists base|].
  exists s'. split_and!; [|done..]. intros cs d. rewrite (bind_ret _ _ _ _ _ E). by rewrite orb_false_r.
Qed.

(** How often a burst of keys wakes the readers. *)
Fixpoint wakes (cs : list Z) (ed : editor) : nat :=
  match cs with [] => 0 | c :: cs' => (if commits c ed then 1 else 0) + wakes cs' (key c ed) end.

Lemma keys_ok cs d s ed : Forall (fun c => 0 <= c < 256) cs -> implements s ed ->
  exists s', consoleintr_loop cs d s = Ret (d || existsb (Z.eqb CtrlP) cs) s' /\ implements s' (keys cs ed) /\
  woken s' = (woken s + wakes cs ed)%nat.
Proof.
  revert d s ed. induction cs as [|c cs IH]; intros d s ed Hcs HI.
  { exists s. simpl. rewrite orb_false_r. split_and!; [done..|lia]. }
  inv Hcs. destruct (key_ok c s ed) as (s1 & E1 & HI1 & Hw1); [done..|]. rewrite E1.
  destruct (IH (d || (c =? CtrlP)) s1 (key c ed)) as (s2 & E2 & HI2 & Hw2); [done..|].
  exists s2. rewrite E2. split_and!; [|done|simpl; lia]. simpl. by rewrite <- orb_assoc, (Z.eqb_sym c).
Qed.
Lemma commits_wakes cs ed : (length (committed ed) < length (committed (keys cs ed)) -> 0 < wakes cs ed)%nat.
Proof.
  revert ed. induction cs as [|c cs IH]; intros ed; simpl; [lia|]. intros Hlt. unfold commits.
  destruct (Nat.ltb_spec (length (committed ed)) (length (committed (key c ed)))); [lia|].
  enough (0 < wakes cs (key c ed))%nat by lia. apply IH. unfold keys in *. simpl in Hlt. lia.
Qed.

(** The read index moves over the first character. *)
Lemma ring_take s c com ed base : ring_ok s (mk_editor (c :: com) ed) base ->
  (r s =? w s) = false /\ input_at s (r s) = c /\
  ring_ok (set_input (buf s) (u32 (r s + 1)) (w s) (e s) s) (mk_editor com ed) (base + 1).
Proof.
  intros HR. destruct (HR) as [Hb Hr Hw He Hl Hat]. cbn [committed editing length] in *. split_and!.
  - rewrite Hr, Hw, u32_eq by lia. apply Z.eqb_neq. lia.
  - rewrite Hr. pose proof (ring_input s _ base 0 c HR eq_refl) as Hi. by rewrite Z.add_0_r in Hi.
  - constructor; cbn [committed editing buf r w e set_input]; try done; try lia.
    + by rewrite Hr, u32_add_l.
    + rewrite Hw. f_equal. lia.
    + rewrite He. f_equal. lia.
    + intros k x Hk. replace (base + 1 + Z.of_nat k) with (base + Z.of_nat (S k)) by lia. by apply Hat.
Qed.

Lemma consoleread_loop_ok killed target k s com ed : target < 2 ^ 31 -> Z.of_nat k <= target -> implements s (mk_editor com ed) ->
  exists s', let '(res, cs, rest) := take_line killed target k com in
  consoleread_loop killed target k s = Ret (res, cs) s' /\ implements s' (mk_editor rest ed) /\ woken s' = woken s.
Proof.
  intros Ht. revert s com. induction k as [|k IH]; intros s com Hk (Hok & Hl & base & HR).
  { exists s. simpl. rewrite Z.sub_0_r. split_and!; [done| |done]. by split_and!; try done; exists base. }
  cbn [take_line consoleread_loop]. cbv zeta. destruct com as [|c com].
  { exists s. erewrite bind_ret by reflexivity. destruct (HR) as [_ Hr Hw _ _ _]. simpl in Hw.
    rewrite Hr, Hw, Z.add_0_r, Z.eqb_refl. split_and!; [done| |done]. by split_and!; try done; exists base. }
  destruct (ring_take s c com ed base HR) as (Hne & Hat & HR1).
  assert (Hok1 : screen_ok (set_input (buf s) (u32 (r s + 1)) (w s) (e s) s)) by (constructor; apply Hok).
  erewrite bind_ret by reflexivity. rewrite Hne, Hat. erewrite bind_ret by reflexivity. cbv beta.
  destruct (c =? CtrlD).
  { destruct (Z.of_nat (S k) <? target); (eexists; split; [by erewrite bind_ret by reflexivity|split; [|done]]).
    - split; [constructor; apply Hok|]. split; [done|]. exists base. destruct HR. constructor; try done. simpl.
      rewrite ro_r0, u32_sub_l, Z.add_simpl_r. apply u32_u32.
    - split_and!; [done..|]. by exists (base + 1). }
  destruct (c =? NL).
  { eexists. split; [|split; [split_and!; [exact Hok1|exact Hl|by exists (base + 1)]|done]].
    unfold mret, M_ret. do 3 f_equal. f_equal. lia. }
  destruct (IH _ com ltac:(lia) (conj Hok1 (conj Hl (ex_intro _ (base + 1) HR1)))) as (s2 & H2).
  destruct (take_line killed target k com) as [[res cs] rest]. destruct H2 as (E2 & HI2 & Hw2).
  exists s2. rewrite (bind_ret _ _ _ _ _ E2). by split_and!.
Qed.

Lemma put_all_ok cs s ed : implements s ed ->
  exists s', put_all cs s = Ret tt s' /\ implements s' ed /\ woken s' = woken s /\
  uart s' = uart s ++ map (fun c => Z.land c 255) cs.
Proof.
  revert s. induction cs as [|c cs IH]; intros s HI; simpl; [exists s; by rewrite app_nil_r|].
  destruct HI as (Hok & Hl & base & HR). destruct (consputc_ok (Z.land c 255) s Hok) as (s1 & E1 & Hok1 & Hs1 & Hu1).
  rewrite (bind_ret _ _ _ _ _ E1). destruct (IH s1) as (s2 & E2 & HI2 & Hw2 & Hu2).
  { split_and!; [done..|]. exists base. by apply (ring_same s). }
  exists s2. split_and!; [done..| |].
  - rewrite Hw2. apply Hs1.
  - rewrite Hu2, Hu1, <- app_assoc. change 255 with (Z.ones 8). rewrite Z.land_ones by lia.
    pose proof (Z.mod_pos_bound c (2 ^ 8) ltac:(lia)).
    rewrite (proj2 (Z.eqb_neq _ BACKSPACE)) by (unfold BACKSPACE; lia). unfold u8. by rewrite Z.mod_mod.
Qed.

(** ** Sequences of calls *)
Inductive call := Interrupt (getc : list Z) | Read (killed : bool) (n target : Z) | Write (bs : list Z) (n : Z).
Inductive answer := Dump (b : bool) | Got (res : read_end) (bs : list Z) | Wrote (z : Z).
Definition run_call (c : call) : M console answer :=
  match c with
  | Interrupt getc => b ← consoleintr getc; mret (Dump b)
  | Read killed n target => '(res, bs) ← consoleread killed n target; mret (Got res bs)
  | Write bs n => z ← consolewrite bs n; mret (Wrote z)
  end.
Fixpoint run_calls (cs : list call) : M console (list answer) :=
  match cs with [] => mret [] | c :: cs' => a ← run_call c; l ← run_calls cs'; mret (a :: l) end.

Definition spec_call (c : call) (ed : editor) : answer * editor * nat :=
  match c with
  | Interrupt getc => (Dump (existsb (Z.eqb CtrlP) getc), keys getc ed, wakes getc ed)
  | Read killed n target =>
      let '(res, bs, rest) := take_line killed target (Z.to_nat n) (committed ed) in
      (Got res bs, mk_editor rest (editing ed), 0%nat)
  | Write _ n => (Wrote n, ed, 0%nat)
  end.
Fixpoint spec_calls (cs : list call) (ed : editor) : list answer * editor * nat :=
  match cs with
  | [] => ([], ed, 0%nat)
  | c :: cs' =>
      let '(a, ed1, n1) := spec_call c ed in let '(l, ed2, n2) := spec_calls cs' ed1 in (a :: l, ed2, (n1 + n2)%nat)
  end.

(** Characters are bytes; a read wants at most what it was called with. *)
Definition call_ok (c : call) : Prop :=
  match c with
  | Interrupt getc => Forall (fun c => 0 <= c < 256) getc
  | Read _ n target => 0 <= n <= target /\ target < 2 ^ 31
  | Write _ _ => True
  end.

Lemma run_call_ok c s ed : call_ok c -> implements s ed ->
  exists s', let '(a, ed', n) := spec_call c ed in
  run_call c s = Ret a s' /\ implements s' ed' /\ woken s' = (woken s + n)%nat.
Proof.
  intros Hc HI. destruct c as [getc|killed n target|bs n]; simpl in *.
  - destruct (keys_ok getc false s ed Hc HI) as (s' & E & HI' & Hw). exists s'.
    unfold consoleintr. rewrite (bind_ret _ _ _ _ _ E). by split_and!.
  - destruct ed as [com ed].
    destruct (consoleread_loop_ok killed target (Z.to_nat n) s com ed) as (s' & H); [lia|lia|done|].
    exists s'. cbn [committed editing]. destruct (take_line killed target (Z.to_nat n) com) as [[res cs] rest] eqn:Et.
    destruct H as (E & HI' & Hw). unfold consoleread. destruct (Z.gtb_spec n 0).
    + rewrite (bind_ret _ _ _ _ _ E). split_and!; [done..|lia].
    + assert (n = 0) as -> by lia. erewrite bind_ret by reflexivity.
      simpl in E, Et. unfold mret, M_ret in E. simplify_eq. rewrite Z.sub_0_r. split_and!; [done..|lia].
  - destruct (put_all_ok (take (Z.to_nat n) bs) s ed HI) as (s' & E & HI' & Hw & _). exists s'.
    unfold consolewrite. erewrite bind_ret by (by rewrite (bind_ret _ _ _ _ _ E)). split_and!; [done..|lia].
Qed.

(** C35. The console device is a line editor: for every sequence of keyboard
    bursts, reads (also by killed processes, also continued after a sleep) and
    writes, the calls return, nothing panics or writes outside the screen's
    memory, and the reads get what a list-based line editor gives: a line is
    handed to the readers at its end of line, at Control-D or when the ring of
    128 characters is full, Control-U and backspace remove characters of the
    unfinished line only, nothing of what was handed over is lost or reordered,
    also when the 32-bit indices wrap around, and the sleeping readers are woken
    each time a line is handed over. *)
Theorem console_refines_editor cs s ed : Forall call_ok cs -> implements s ed ->
  exists s', let '(answers, ed', n) := spec_calls cs ed in
  run_calls cs s = Ret answers s' /\ implements s' ed' /\ woken s' = (woken s + n)%nat.
Proof.
  revert s ed. induction cs as [|c cs IH]; intros s ed Hcs HI; simpl; [exists s; split_and!; [done..|lia]|].
  apply Forall_cons in Hcs as [Hc Hcs]. destruct (run_call_ok c s ed Hc HI) as (s1 & H1).
  destruct (spec_call c ed) as [[a ed1] n1]. destruct H1 as (E1 & HI1 & Hw1).
  destruct (IH s1 ed1 Hcs HI1) as (s2 & H2). destruct (spec_calls cs ed1) as [[l ed2] n2].
  destruct H2 as (E2 & HI2 & Hw2). exists s2. rewrite (bind_ret _ _ _ _ _ E1), (bind_ret _ _ _ _ _ E2).
  split_and!; [done..|lia].
Qed.

(** The console after the kernel has started: an empty ring and a cursor on the
    screen. *)
Definition console_start (text : list Z) (hi lo : Z) : console :=
  mk_console (replicate 128 0) 0 0 0 false text hi lo [] 0.
Lemma console_start_ok text hi lo : length text = 2000%nat -> 0 <= Z.lor (Z.shiftl hi 8) lo < 2000 ->
  implements (console_start text hi lo) (mk_editor [] []).
Proof.
  intros Ht Hp. split_and!; [by constructor|constructor|]. exists 0. by constructor.
Qed.

(** Typing "ab", backspace, "c", return, "x": the reader that wanted ten bytes
    gets "ac" and the end of line. *)
Lemma console_refines_editor_witness :
  let cs := [Interrupt [97; 98; 8; 99; 13; 120]; Read false 10 10; Read false 5 5] in
  let s := console_start (replicate 2000 0) 0 0 in
  Forall call_ok cs /\ implements s (mk_editor [] []) /\
  exists s', run_calls cs s = Ret [Dump false; Got (finished 3) [97; 99; 10]; Got (asleep 5) []] s' /\
  implements s' (mk_editor [] [120]).
Proof.
  intros cs s. assert (Hc : Forall call_ok cs) by (repeat constructor; lia).
  assert (Hs : implements s (mk_editor [] [])) by (by apply console_start_ok).
  split; [exact Hc|]. split; [exact Hs|].
  destruct (console_refines_editor cs s (mk_editor [] []) Hc Hs) as (s' & E & HI & _). exists s'. split; [exact E|exact HI].
Defined.
