(* ===== verification/Printf.v ===== *)
(** * Printf: formatted output, console.c ([cprintf]) and printf.c ([printf])

    The kernel and the user library contain the same conversion of numbers, with
    different letters for the hexadecimal digits, and two differently written
    loops over the format.  The words after the format on the stack are a
    function [ap]; [str] is the memory the pointers among them point to, as the
    characters of the string at an address.  Overflow of [-xx] for the smallest
    [int] is taken to wrap around, as the compiler does it. *)

From Stdlib Require Import ZArith Lia.
From stdpp Require Import base numbers strings option list.
From S2P Require Import Prelude Console.

Definition MINUS : Z := 45.
Definition PERCENT : Z := 37.
Definition digits_lower : list Z := [48; 49; 50; 51; 52; 53; 54; 55; 56; 57; 97; 98; 99; 100; 101; 102].
Definition digits_upper : list Z := [48; 49; 50; 51; 52; 53; 54; 55; 56; 57; 65; 66; 67; 68; 69; 70].
Definition null_string : list Z := [40; 110; 117; 108; 108; 41].

Section output.
Context {S : Type}.
Variable out : Z -> M S unit.

Fixpoint emit (l : list Z) : M S unit :=
  match l with [] => skip | c :: l' => out c;; emit l' end.

(** [do buf[i++] = digits[x % base]; while((x /= base) != 0)]; [buf] has 16
    characters.  A number has at most 32 digits. *)
Fixpoint digits_loop (fuel : nat) (digits : list Z) (base x : Z) (buf : list Z) : M S (list Z) :=
  match fuel with
  | O => out_of_fuel
  | Datatypes.S fuel' =>
      if (16 <=? length buf)%nat then stop "buf" else
      let buf := buf ++ [nth (Z.to_nat (x mod base)) digits 0] in
      if x / base =? 0 then mret buf else digits_loop fuel' digits base (x / base) buf
  end.

Definition print_number (digits : list Z) (xx base : Z) (sgn : bool) : M S unit :=
  let neg := sgn && (xx <? 0) in
  let x := if neg then u32 (- xx) else u32 xx in
  buf ← digits_loop 32 digits base x [];
  if neg && (16 <=? length buf)%nat then stop "buf" else
  emit (rev (if neg then buf ++ [MINUS] else buf)).
End output.

(** ** The kernel: console.c *)
Definition printint : Z -> Z -> bool -> M console unit := print_number consputc digits_lower.

(** A character of a string, as the [char] it is. *)
Definition schar (b : Z) : Z := if b <? 128 then b else b - 256.

Section format.
Variable str : Z -> list Z.
Variable ap : nat -> Z.

Definition string_arg (p : Z) : list Z := if p =? 0 then null_string else str p.

(** The loop of [cprintf] with [k] words of the stack used. *)
Fixpoint cprintf_loop (fmt : list Z) (k : nat) : M console unit :=
  match fmt with
  | [] => skip
  | c :: fmt1 =>
      if negb (c =? PERCENT) then consputc c;; cprintf_loop fmt1 k
      else
        match fmt1 with
        | [] => skip
        | c :: fmt2 =>
            if c =? 100 then printint (s32 (ap k)) 10 true;; cprintf_loop fmt2 (S k)
            else if (c =? 120) || (c =? 112) then printint (s32 (ap k)) 16 false;; cprintf_loop fmt2 (S k)
            else if c =? 115 then emit consputc (map schar (string_arg (ap k)));; cprintf_loop fmt2 (S k)
            else if c =? PERCENT then consputc PERCENT;; cprintf_loop fmt2 k
            else consputc PERCENT;; consputc c;; cprintf_loop fmt2 k
        end
  end.
Definition cprintf (fmt : list Z) : M console unit := cprintf_loop fmt 0.

(** ** The user library: printf.c, writing to a file descriptor

    The state is the list of the bytes written. *)
Definition putc (c : Z) : M (list Z) unit := modify (fun o => o ++ [u8 c]).
Definition user_printint : Z -> Z -> bool -> M (list Z) unit := print_number putc digits_upper.

(** The loop of [printf]; [percent] says that [state] is ['%']. *)
Fixpoint printf_loop (fmt : list Z) (percent : bool) (k : nat) : M (list Z) unit :=
  match fmt with
  | [] => skip
  | c :: fmt' =>
      if negb percent then
        if c =? PERCENT then printf_loop fmt' true k else putc c;; printf_loop fmt' false k
      else if c =? 100 then user_printint (s32 (ap k)) 10 true;; printf_loop fmt' false (S k)
      else if (c =? 120) || (c =? 112) then user_printint (s32 (ap k)) 16 false;; printf_loop fmt' false (S k)
      else if c =? 115 then emit putc (string_arg (ap k));; printf_loop fmt' false (S k)
      else if c =? 99 then putc (ap k);; printf_loop fmt' false (S k)
      else if c =? PERCENT then putc c;; printf_loop fmt' false k
      else putc PERCENT;; putc c;; printf_loop fmt' false k
  end.
Definition printf (fmt : list Z) : M (list Z) unit := printf_loop fmt false 0.
End format.

(** ** The end of the kernel: [panic] *)

(** "lapicid %d: panic: " and " %p" *)
Definition panic_head : list Z :=
  [108; 97; 112; 105; 99; 105; 100; 32; 37; 100; 58; 32; 112; 97; 110; 105; 99; 58; 32].
Definition panic_pc : list Z := [32; 37; 112].
Fixpoint print_pcs (str : Z -> list Z) (pcs : list Z) : M console unit :=
  match pcs with [] => skip | pc :: pcs => cprintf str (fun _ => pc) panic_pc;; print_pcs str pcs end.
(** [pcs] is what [getcallerpcs] finds.  The state is the one in which the
    processor spins; the message is used as a format, with [ap] on the stack. *)
Definition kpanic (str : Z -> list Z) (ap : nat -> Z) (lapicid : Z) (s pcs : list Z) : M console unit :=
  cprintf str (fun _ => lapicid) panic_head;;
  cprintf str ap s;;
  cprintf str ap [NL];;
  print_pcs str (take 10 pcs);;
  modify (fun c => mk_console (buf c) (r c) (w c) (e c) true (crt c) (cur_hi c) (cur_lo c) (uart c) (woken c)).

(** ** Numbers and their digits *)
Section number.
Variable digits : list Z.
Variable base : Z.
Hypothesis base_ge : 2 <= base.

(** The digits of [x], the last one first. *)
Fixpoint number_rev (fuel : nat) (x : Z) : list Z :=
  match fuel with
  | O => []
  | S fuel' =>
      nth (Z.to_nat (x mod base)) digits 0 :: (if x / base =? 0 then [] else number_rev fuel' (x / base))
  end.

Lemma number_short fuel k x : (1 <= k)%nat -> 0 <= x < base ^ Z.of_nat k -> (length (number_rev fuel x) <= k)%nat.
Proof using base_ge.
  revert k x. induction fuel as [|fuel IH]; intros k x Hk Hx; simpl; [lia|].
  destruct (Z.eqb_spec (x / base) 0) as [|Hne]; simpl; [lia|].
  destruct k as [|[|k]]; [lia| |].
  - change (Z.of_nat 1) with 1 in Hx. rewrite Z.pow_1_r in Hx. rewrite Z.div_small in Hne by done. lia.
  - enough (length (number_rev fuel (x / base)) <= S k)%nat by lia. apply IH; [lia|].
    split; [apply Z.div_pos; lia|]. apply Z.div_lt_upper_bound; [lia|].
    rewrite <- Z.pow_succ_r by lia. replace (Z.succ (Z.of_nat (S k))) with (Z.of_nat (S (S k))) by lia. apply Hx.
Qed.

Lemma digits_loop_ok {St} fuel k x buf (s : St) :
  (1 <= k <= fuel)%nat -> 0 <= x < base ^ Z.of_nat k -> (length buf + k <= 16)%nat ->
  digits_loop fuel digits base x buf s = Ret (buf ++ number_rev fuel x) s.
Proof using base_ge.
  revert k x buf. induction fuel as [|fuel IH]; intros k x buf Hk Hx Hb; [lia|]. cbn [digits_loop number_rev].
  rewrite (proj2 (Nat.leb_gt 16 (length buf))) by lia. cbv zeta.
  destruct (Z.eqb_spec (x / base) 0) as [|Hne]; [done|].
  destruct k as [|[|k]]; [lia| |].
  - change (Z.of_nat 1) with 1 in Hx. rewrite Z.pow_1_r in Hx. rewrite Z.div_small in Hne by done. lia.
  - rewrite (IH (S k)); [by rewrite <- app_assoc|lia| |rewrite length_app; simpl; lia].
    split; [apply Z.div_pos; lia|]. apply Z.div_lt_upper_bound; [lia|].
    rewrite <- Z.pow_succ_r by lia. replace (Z.succ (Z.of_nat (S k))) with (Z.of_nat (S (S k))) by lia. apply Hx.
Qed.
End number.

(** The text of a number, as [print_number] writes it. *)
Definition number (digits : list Z) (xx base : Z) (sgn : bool) : list Z :=
  if sgn && (xx <? 0) then MINUS :: rev (number_rev digits base 32 (u32 (- xx)))
  else rev (number_rev digits base 32 (u32 xx)).

Lemma print_number_ok {St} (out : Z -> M St unit) digits xx base sgn (s : St) : base = 10 \/ base = 16 ->
  print_number out digits xx base sgn s = emit out (number digits xx base sgn) s.
Proof.
  intros Hbase. unfold print_number, number. cbv zeta. set (neg := sgn && (xx <? 0)).
  set (x := if neg then _ else _). assert (Hx : 0 <= x < base ^ Z.of_nat 10).
  { assert (0 <= x < 2 ^ 32) by (subst x; destruct neg; apply u32_range).
    assert (2 ^ 32 < 10 ^ Z.of_nat 10 /\ 2 ^ 32 < 16 ^ Z.of_nat 10) as [? ?] by (split; vm_compute; reflexivity).
    destruct Hbase as [-> | ->]; lia. }
  assert (Hb2 : 2 <= base) by lia. assert (Hk : (1 <= 10 <= 32)%nat) by lia.
  assert (Hb16 : (length (@nil Z) + 10 <= 16)%nat) by (cbn [length]; lia).
  rewrite (bind_ret _ _ _ _ _ (digits_loop_ok digits base Hb2 32 10 x [] s Hk Hx Hb16)). rewrite app_nil_l.
  pose proof (number_short digits base Hb2 32 10 x ltac:(lia) Hx) as Hlen.
  rewrite (proj2 (Nat.leb_gt 16 _)) by lia. rewrite andb_false_r. subst x. destruct neg; [|done].
  by rewrite rev_app_distr.
Qed.

(** Reading a number back, most significant digit first. *)
Definition dec_value (l : list Z) : Z := foldl (fun n c => n * 10 + (c - 48)) 0 l.
Definition dec_read (l : list Z) : Z :=
  match l with c :: l' => if c =? MINUS then - dec_value l' else dec_value l | [] => 0 end.

Lemma number_rev_value digits fuel x : take 10 digits = take 10 digits_lower ->
  0 <= x < 10 ^ Z.of_nat fuel -> (1 <= fuel)%nat ->
  dec_value (rev (number_rev digits 10 fuel x)) = x /\
  Forall (fun c => 48 <= c <= 57) (number_rev digits 10 fuel x).
Proof.
  intros Hd. assert (Hdig : forall y, 0 <= y < 10 -> nth (Z.to_nat y) digits 0 = 48 + y).
  { intros y Hy. assert (Hn : nth (Z.to_nat y) digits 0 = nth (Z.to_nat y) (take 10 digits) 0).
    { rewrite !nth_lookup, lookup_take_lt by lia. done. }
    rewrite Hn, Hd. assert (y = 0 \/ y = 1 \/ y = 2 \/ y = 3 \/ y = 4 \/ y = 5 \/ y = 6 \/ y = 7 \/ y = 8 \/ y = 9) as Hys by lia.
    repeat (destruct Hys as [->|Hys]; [reflexivity|]). by subst. }
  revert x. induction fuel as [|fuel IH]; intros x Hx Hf; [lia|]. cbn [number_rev rev].
  pose proof (Z.mod_pos_bound x 10 ltac:(lia)) as Hm. rewrite Hdig by lia. unfold dec_value. rewrite foldl_app. simpl.
  pose proof (Z.div_mod x 10 ltac:(lia)) as Hdm.
  destruct (Z.eqb_spec (x / 10) 0) as [Hz|Hne].
  - simpl. split; [lia|]. constructor; [lia|constructor].
  - assert (Hq : 0 <= x / 10 < 10 ^ Z.of_nat fuel).
    { split; [apply Z.div_pos; lia|]. apply Z.div_lt_upper_bound; [lia|].
      rewrite <- Z.pow_succ_r by lia. replace (Z.succ (Z.of_nat fuel)) with (Z.of_nat (S fuel)) by lia. apply Hx. }
    destruct fuel as [|fuel]; [change (10 ^ Z.of_nat 0) with 1 in Hq; lia|].
    destruct (IH (x / 10) Hq ltac:(lia)) as [Hv Hc]. unfold dec_value in Hv. rewrite Hv. split; [lia|].
    constructor; [lia|done].
Qed.

Lemma number_value digits xx : is_s32 xx -> take 10 digits = take 10 digits_lower ->
  dec_read (number digits xx 10 true) = xx /\
  (0 <= xx -> Forall (fun c => 48 <= c <= 57) (number digits xx 10 true) /\ dec_value (number digits xx 10 true) = xx).
Proof.
  intros Hxx Hd. unfold is_s32 in Hxx. unfold number. rewrite andb_true_l.
  assert (H32 : 2 ^ 32 < 10 ^ Z.of_nat 32) by (vm_compute; reflexivity).
  assert (Hval : forall y, 0 <= y < 2 ^ 32 -> dec_value (rev (number_rev digits 10 32 y)) = y /\
    Forall (fun c => 48 <= c <= 57) (rev (number_rev digits 10 32 y))).
  { intros y Hy. destruct (number_rev_value digits 32 y Hd ltac:(lia) ltac:(lia)) as [Hv Hc].
    split; [done|]. by apply Forall_rev. }
  destruct (Z.ltb_spec xx 0) as [Hn|Hp].
  - split; [|lia]. unfold dec_read. rewrite Z.eqb_refl. rewrite (proj1 (Hval _ (u32_range _))), u32_small; lia.
  - rewrite u32_small by lia. destruct (Hval xx ltac:(lia)) as [Hv Hc]. split; [|done].
    unfold dec_read. destruct (rev _) as [|c l] eqn:E; [by unfold dec_value in Hv|].
    apply Forall_cons in Hc as [Hc _]. rewrite (proj2 (Z.eqb_neq c MINUS)) by (unfold MINUS; lia). done.
Qed.

(** ** What a format prints *)
Section render.
Variable str : Z -> list Z.
Variable ap : nat -> Z.
Variable digits : list Z.
Variable with_c : bool.

Fixpoint render (fmt : list Z) (k : nat) : list Z :=
  match fmt with
  | [] => []
  | c :: fmt1 =>
      if negb (c =? PERCENT) then c :: render fmt1 k
      else
        match fmt1 with
        | [] => []
        | c :: fmt2 =>
            if c =? 100 then number digits (s32 (ap k)) 10 true ++ render fmt2 (S k)
            else if (c =? 120) || (c =? 112) then number digits (s32 (ap k)) 16 false ++ render fmt2 (S k)
            else if c =? 115 then string_arg str (ap k) ++ render fmt2 (S k)
            else if with_c && (c =? 99) then u8 (ap k) :: render fmt2 (S k)
            else if c =? PERCENT then PERCENT :: render fmt2 k
            else PERCENT :: c :: render fmt2 k
        end
  end.
End render.

Definition bytes_ok (l : list Z) : Prop := Forall (fun c => 0 <= c < 256) l.

Lemma u8_small c : 0 <= c < 256 -> u8 c = c.
Proof. apply Z.mod_small. Qed.
Lemma emit_putc l o : emit putc l o = Ret tt (o ++ map u8 l).
Proof.
  revert o. induction l as [|c l IH]; intros o; simpl; [by rewrite app_nil_r|].
  erewrite bind_ret by reflexivity. by rewrite IH, <- app_assoc.
Qed.
Lemma bytes_u8 l : bytes_ok l -> map u8 l = l.
Proof. induction 1 as [|c l Hc _ IH]; simpl; [done|]. by rewrite IH, u8_small. Qed.
Lemma number_bytes digits xx base sgn : base = 10 \/ base = 16 -> bytes_ok digits -> (length digits = 16)%nat ->
  bytes_ok (number digits xx base sgn).
Proof.
  intros Hb Hd Hl. assert (Hr : forall fuel x, bytes_ok (number_rev digits base fuel x)).
  { induction fuel as [|fuel IH]; intros x; simpl; [apply Forall_nil_2|]. apply Forall_cons. split; [|destruct (x / base =? 0); [apply Forall_nil_2|apply IH]].
    assert (0 <= x mod base < 16) by (pose proof (Z.mod_pos_bound x base); lia).
    destruct (lookup_lt_is_Some_2 digits (Z.to_nat (x mod base))) as [d Hd']; [lia|].
    rewrite (nth_lookup_Some _ _ _ _ Hd'). by apply (Forall_lookup_1 _ _ _ _ Hd Hd'). }
  unfold number. destruct (_ && _); [apply Forall_cons; split; [unfold MINUS; lia|]|]; apply Forall_rev, Hr.
Qed.

Section printf_ok.
Variable str : Z -> list Z.
Variable ap : nat -> Z.
Hypothesis str_bytes : forall p, bytes_ok (str p).

Lemma string_arg_bytes p : bytes_ok (string_arg str p).
Proof using str_bytes. unfold string_arg. destruct (p =? 0); [|apply str_bytes]. repeat constructor; lia. Qed.

Lemma user_printint_ok xx base sgn o : base = 10 \/ base = 16 ->
  user_printint xx base sgn o = Ret tt (o ++ number digits_upper xx base sgn).
Proof.
  intros Hb. unfold user_printint. rewrite print_number_ok, emit_putc by done. rewrite bytes_u8; [done|].
  apply number_bytes; [done| |done]. repeat constructor; lia.
Qed.

Lemma printf_loop_ok n fmt k o : (length fmt <= n)%nat -> bytes_ok fmt ->
  printf_loop str ap fmt false k o = Ret tt (o ++ render str ap digits_upper true fmt k).
Proof using str_bytes.
  revert fmt k o. induction n as [|n IH]; intros fmt k o Hn Hb.
  { destruct fmt; [|simpl in Hn; lia]. simpl. by rewrite app_nil_r. }
  destruct fmt as [|c fmt]; [simpl; by rewrite app_nil_r|]. simpl in Hn. apply Forall_cons in Hb as [Hc Hb].
  cbn [printf_loop render]. destruct (Z.eqb_spec c PERCENT) as [->|Hne]; simpl.
  2:{ erewrite bind_ret by reflexivity. rewrite IH by (lia || done). by rewrite <- app_assoc, u8_small. }
  destruct fmt as [|d fmt]; [simpl; by rewrite app_nil_r|]. simpl in Hn. apply Forall_cons in Hb as [Hd Hb].
  assert (Hput : forall c k o, 0 <= c < 256 -> (putc c;; printf_loop str ap fmt false k) o =
    Ret tt (o ++ c :: render str ap digits_upper true fmt k)).
  { intros x k' o' Hx. erewrite bind_ret by reflexivity. rewrite IH by (lia || done). by rewrite <- app_assoc, u8_small. }
  cbn [printf_loop render negb andb].
  destruct (d =? 100).
  { erewrite bind_ret by (apply user_printint_ok; auto). rewrite IH by (lia || done). by rewrite <- app_assoc. }
  destruct ((d =? 120) || (d =? 112)).
  { erewrite bind_ret by (apply user_printint_ok; auto). rewrite IH by (lia || done). by rewrite <- app_assoc. }
  destruct (d =? 115).
  { erewrite bind_ret by apply emit_putc. rewrite IH by (lia || done).
    by rewrite <- app_assoc, (bytes_u8 _ (string_arg_bytes _)). }
  destruct (d =? 99).
  { erewrite bind_ret by reflexivity. rewrite IH by (lia || done). by rewrite <- app_assoc. }
  destruct (Z.eqb_spec d PERCENT) as [->|]; [by rewrite Hput|].
  erewrite bind_ret by reflexivity. rewrite Hput by done. by rewrite <- app_assoc.
Qed.
End printf_ok.

(** ** The kernel's version on the console *)
Definition prints (m : M console unit) (l : list Z) : Prop := forall s, screen_ok s ->
  exists s', m s = Ret tt s' /\ screen_ok s' /\ same_input s s' /\ uart s' = uart s ++ l.

Lemma prints_skip : prints skip [].
Proof. intros s Hok. exists s. rewrite app_nil_r. by split_and!. Qed.
Lemma prints_seq m k l1 l2 : prints m l1 -> prints k l2 -> prints (m;; k) (l1 ++ l2).
Proof.
  intros Hm Hk s Hok. destruct (Hm s Hok) as (s1 & E1 & Hok1 & Hs1 & Hu1).
  destruct (Hk s1 Hok1) as (s2 & E2 & Hok2 & Hs2 & Hu2). exists s2. rewrite (bind_ret _ _ _ _ _ E1).
  split_and!; [done..|by apply (same_input_trans s s1)|]. by rewrite Hu2, Hu1, app_assoc.
Qed.
Lemma prints_char c : c <> BACKSPACE -> prints (consputc c) [u8 c].
Proof.
  intros Hc s Hok. destruct (consputc_ok c s Hok) as (s' & E & H1 & H2 & H3). exists s'.
  rewrite (proj2 (Z.eqb_neq c BACKSPACE) Hc) in H3. by split_and!.
Qed.
Lemma prints_emit l : Forall (fun c => c <> BACKSPACE) l -> prints (emit consputc l) (map u8 l).
Proof.
  induction 1 as [|c l Hc _ IH]; [apply prints_skip|]. apply (prints_seq _ _ [u8 c]); [by apply prints_char|done].
Qed.
Lemma bytes_no_backspace l : bytes_ok l -> Forall (fun c => c <> BACKSPACE) l.
Proof. intros Hl. apply (Forall_impl _ _ _ Hl). intros c Hc ->. unfold BACKSPACE in Hc. lia. Qed.
Lemma prints_bytes l : bytes_ok l -> prints (emit consputc l) l.
Proof. intros Hl. rewrite <- (bytes_u8 l Hl) at 2. by apply prints_emit, bytes_no_backspace. Qed.
Lemma prints_string l : bytes_ok l -> prints (emit consputc (map schar l)) l.
Proof.
  intros Hl. assert (Hm : map u8 (map schar l) = l).
  { rewrite map_map. induction Hl as [|c l Hc _ IH]; simpl; [done|]. rewrite IH. f_equal. unfold schar, u8.
    destruct (Z.ltb_spec c 128); [apply Z.mod_small; lia|].
    replace (c - 256) with (c + (-1) * 2 ^ 8) by lia. rewrite Z.mod_add by lia. apply Z.mod_small. lia. }
  rewrite <- Hm at 2. apply prints_emit. apply Forall_forall. intros x Hx.
  apply list_elem_of_fmap in Hx as (c & -> & Hc). apply (proj1 (Forall_forall _ _) Hl) in Hc.
  unfold schar, BACKSPACE. destruct (c <? 128); lia.
Qed.
Lemma prints_number xx base sgn : base = 10 \/ base = 16 -> prints (printint xx base sgn) (number digits_lower xx base sgn).
Proof.
  intros Hb s Hok. unfold printint. rewrite print_number_ok by done. apply prints_bytes; [|done].
  apply number_bytes; [done| |done]. repeat constructor; lia.
Qed.
Lemma prints_byte c : 0 <= c < 256 -> prints (consputc c) [c].
Proof. intros Hc. rewrite <- (u8_small c Hc) at 2. apply prints_char. unfold BACKSPACE. lia. Qed.

Lemma cprintf_loop_ok str ap n fmt k : (forall p, bytes_ok (str p)) -> (length fmt <= n)%nat -> bytes_ok fmt ->
  prints (cprintf_loop str ap fmt k) (render str ap digits_lower false fmt k).
Proof.
  intros Hstr. revert fmt k. induction n as [|n IH]; intros fmt k Hn Hb.
  { destruct fmt; [apply prints_skip|simpl in Hn; lia]. }
  destruct fmt as [|c fmt]; [apply prints_skip|]. simpl in Hn. apply Forall_cons in Hb as [Hc Hb].
  cbn [cprintf_loop render]. destruct (Z.eqb_spec c PERCENT) as [->|Hne]; simpl.
  2:{ apply (prints_seq _ _ [c]); [by apply prints_byte|apply IH; [lia|done]]. }
  destruct fmt as [|d fmt]; [apply prints_skip|]. simpl in Hn. apply Forall_cons in Hb as [Hd Hb].
  assert (Hrest : forall k, prints (cprintf_loop str ap fmt k) (render str ap digits_lower false fmt k)).
  { intros k'. apply IH; [lia|done]. }
  destruct (d =? 100); [by apply prints_seq; [apply prints_number; auto|]|].
  destruct ((d =? 120) || (d =? 112)); [by apply prints_seq; [apply prints_number; auto|]|].
  destruct (d =? 115); [by apply prints_seq; [apply prints_string, string_arg_bytes|]|].
  destruct (Z.eqb_spec d PERCENT) as [->|]; [by apply (prints_seq _ _ [PERCENT]); [apply prints_byte|]|].
  apply (prints_seq _ _ [PERCENT]); [by apply prints_byte|]. apply (prints_seq _ _ [d]); [by apply prints_byte|done].
Qed.

(** C36. Formatted output.  For every format and every content of the stack, the
    state machine of the user's [printf] writes exactly the text the format
    stands for, with its directives %d, %x, %p, %s, %c and %%, and the kernel's
    [cprintf], whose loop looks ahead instead, sends the same text to the serial
    port, with lower-case hexadecimal digits and without %c, and stays inside
    the screen.  The conversion never overruns its buffer of 16 characters, and
    the text of %d reads back as the number, for every [int] including the
    smallest. *)
Theorem formatted_output str ap fmt (Hstr : forall p, bytes_ok (str p)) (Hfmt : bytes_ok fmt) :
  (forall o, printf str ap fmt o = Ret tt (o ++ render str ap digits_upper true fmt 0)) /\
  (forall s, screen_ok s -> exists s', cprintf str ap fmt s = Ret tt s' /\ screen_ok s' /\ same_input s s' /\
     uart s' = uart s ++ render str ap digits_lower false fmt 0) /\
  (forall xx o, is_s32 xx -> exists l, user_printint xx 10 true o = Ret tt (o ++ l) /\ dec_read l = xx) /\
  (forall xx s, is_s32 xx -> screen_ok s -> exists l s', printint xx 10 true s = Ret tt s' /\
     uart s' = uart s ++ l /\ dec_read l = xx).
Proof.
  split_and!.
  - intros o. by apply (printf_loop_ok str ap Hstr (length fmt)).
  - by apply (cprintf_loop_ok str ap (length fmt)).
  - intros xx o Hx. exists (number digits_upper xx 10 true). split; [apply user_printint_ok; auto|].
    by apply number_value.
  - intros xx s Hx Hok. destruct (prints_number xx 10 true (or_introl eq_refl) s Hok) as (s' & E & _ & _ & Hu).
    exists (number digits_lower xx 10 true), s'. split_and!; [done..|]. by apply number_value.
Qed.

(** "x=%d %x%%" with -5 and 255. *)
Lemma formatted_output_witness :
  let fmt := [120; 61; 37; 100; 32; 37; 120; 37; 37] in
  let ap k := nth k [2 ^ 32 - 5; 255] 0 in
  printf (fun _ => []) ap fmt [] = Ret tt [120; 61; 45; 53; 32; 70; 70; 37].
Proof.
  intros fmt ap. destruct (formatted_output (fun _ => []) ap fmt) as [Hp _].
  - intros p. apply Forall_nil_2.
  - repeat constructor; lia.
  - rewrite Hp. reflexivity.
Defined.

Lemma print_pcs_ok str pcs : (forall p, bytes_ok (str p)) ->
  prints (print_pcs str pcs) (concat (map (fun pc => render str (fun _ => pc) digits_lower false panic_pc 0) pcs)).
Proof.
  intros Hstr. induction pcs as [| pc pcs IH]; [apply prints_skip |]. apply prints_seq; [| exact IH].
  apply (cprintf_loop_ok str _ (length panic_pc)); [done | done |]. repeat constructor; lia.
Qed.

(** [panic] prints its message and the callers, and from then on nothing is
    printed: every processor that prints a character stops. *)
Theorem panic_freezes str ap lapicid msg pcs s : (forall p, bytes_ok (str p)) -> bytes_ok msg -> screen_ok s ->
  exists s', kpanic str ap lapicid msg pcs s = Ret tt s' /\ same_input s s' /\
    uart s' = uart s ++ render str (fun _ => lapicid) digits_lower false panic_head 0 ++
      render str ap digits_lower false msg 0 ++ [NL] ++
      concat (map (fun pc => render str (fun _ => pc) digits_lower false panic_pc 0) (take 10 pcs)) /\
    forall c, consputc c s' = Stop "frozen".
Proof.
  intros Hstr Hmsg Hok.
  assert (H : prints (cprintf str (fun _ => lapicid) panic_head;; cprintf str ap msg;; cprintf str ap [NL];; print_pcs str (take 10 pcs))
    (render str (fun _ => lapicid) digits_lower false panic_head 0 ++ render str ap digits_lower false msg 0 ++ [NL] ++
      concat (map (fun pc => render str (fun _ => pc) digits_lower false panic_pc 0) (take 10 pcs)))).
  { apply prints_seq; [apply (cprintf_loop_ok str _ (length panic_head)); [done | done | repeat constructor; lia] |].
    apply prints_seq; [by apply (cprintf_loop_ok str _ (length msg)) |].
    apply prints_seq; [| by apply print_pcs_ok]. apply (cprintf_loop_ok str ap 1 [NL]); [done | done |]. constructor; [unfold NL; lia | constructor]. }
  destruct (H s Hok) as (s1 & E & _ & Hs & Hu).
  exists (mk_console (buf s1) (r s1) (w s1) (e s1) true (crt s1) (cur_hi s1) (cur_lo s1) (uart s1) (woken s1)).
  split_and!; [| exact Hs | exact Hu | done].
  unfold kpanic. apply bind_inv in E as (u1 & x1 & E1 & E). rewrite (bind_ret _ _ _ _ _ E1).
  apply bind_inv in E as (u2 & x2 & E2 & E). rewrite (bind_ret _ _ _ _ _ E2).
  apply bind_inv in E as (u3 & x3 & E3 & E). rewrite (bind_ret _ _ _ _ _ E3). by rewrite (bind_ret _ _ _ _ _ E).
Qed.
