(* ===== verification/Ulib.v ===== *)
(** * Ulib: project3/xv6-modified/ulib.c, the string routines of user programs

    As in KString.v, a pointer is an index into one flat memory of bytes and an
    access outside it stops the program.  Loops over a string are bounded by
    the memory.  [read(0, &c, 1)] of [gets] is the list [input] of the bytes it
    delivers.  [stat], which only makes system calls, is left out; arithmetic
    of [atoi] that would overflow an [int] stops the program. *)

From Stdlib Require Import ZArith Lia.
From stdpp Require Import base numbers strings option list.
From S2P Require Import Prelude KString Console Printf.

(** [while(( *s++ = *t++ ) != 0);] *)
Fixpoint strcpy_loop (fuel s t : nat) : M mem unit :=
  match fuel with
  | O => out_of_fuel
  | S fuel' => b ← ld t; st s b;; if b =? 0 then skip else strcpy_loop fuel' (S s) (S t)
  end.
Definition strcpy (s t : nat) : M mem nat := fun m => (strcpy_loop (S (length m)) s t;; mret s) m.

Fixpoint strcmp_loop (fuel p q : nat) : M mem Z :=
  match fuel with
  | O => out_of_fuel
  | S fuel' =>
      a ← ld p; b ← ld q;
      if negb (a =? 0) && (a =? b) then strcmp_loop fuel' (S p) (S q) else mret (a - b)
  end.
Definition strcmp (p q : nat) : M mem Z := fun m => strcmp_loop (S (length m)) p q m.

Fixpoint strlen_from (fuel s n : nat) : M mem Z :=
  match fuel with
  | O => out_of_fuel
  | S fuel' => b ← ld (s + n); if b =? 0 then mret (Z.of_nat n) else strlen_from fuel' s (S n)
  end.
Definition strlen (s : nat) : M mem Z := fun m => strlen_from (S (length m)) s 0 m.

Definition memset (dst : nat) (c : Z) (n : nat) : M mem nat := stosb dst c n;; mret dst.

(** The null pointer is [None]. *)
Fixpoint strchr_loop (fuel s : nat) (c : Z) : M mem (option nat) :=
  match fuel with
  | O => out_of_fuel
  | S fuel' =>
      b ← ld s;
      if b =? 0 then mret None else if b =? c then mret (Some s) else strchr_loop fuel' (S s) c
  end.
Definition strchr (s : nat) (c : Z) : M mem (option nat) := fun m => strchr_loop (S (length m)) s c m.

(** The loop of [gets] at index [i]; the result is the index it ends with and
    the input that is left. *)
Fixpoint gets_loop (input : list Z) (buf : nat) (i max : Z) : M mem (Z * list Z) :=
  if i + 1 <? max then
    match input with
    | [] => mret (i, [])
    | c :: input' =>
        st (buf + Z.to_nat i) c;;
        if (c =? 10) || (c =? 13) then mret (i + 1, input') else gets_loop input' buf (i + 1) max
    end
  else mret (i, input).
Definition gets (input : list Z) (buf : nat) (max : Z) : M mem (nat * list Z) :=
  '(i, rest) ← gets_loop input buf 0 max;
  st (buf + Z.to_nat i) 0;;
  mret (buf, rest).

Fixpoint atoi_loop (fuel s : nat) (n : Z) : M mem Z :=
  match fuel with
  | O => out_of_fuel
  | S fuel' =>
      b ← ld s;
      if (48 <=? b) && (b <=? 57) then
        if n * 10 + b <? 2 ^ 31 then atoi_loop fuel' (S s) (n * 10 + b - 48) else stop "int overflow"
      else mret n
  end.
Definition atoi (s : nat) : M mem Z := fun m => atoi_loop (S (length m)) s 0 m.

(** [while(n-- > 0) *dst++ = *src++] *)
Definition memmove (dst src : nat) (n : Z) : M mem nat := copy_up dst src (Z.to_nat n);; mret dst.

(** ** Specifications *)
Lemma strcpy_loop_ok fuel s t str m : bytes m -> string_at m t str -> (length str < fuel)%nat ->
  (s + length str < length m)%nat -> (s + length str < t \/ t + length str < s)%nat ->
  strcpy_loop fuel s t m = Ret tt (splice s (str ++ [0]) m).
Proof.
  revert s t str m. induction fuel as [|fuel IH]; intros s t str m Hm Hstr Hf Hs Hov; [lia|]. cbn [strcpy_loop].
  destruct str as [|b str].
  - erewrite bind_ret by (apply ld_ok; by apply string_at_nil). simpl in Hs.
    erewrite bind_ret by (apply st_ok; lia). simpl. unfold skip, mret, M_ret. by rewrite splice_one by lia.
  - pose proof (string_at_len m t _ Hstr) as Hlen. apply string_at_byte in Hstr as (Hb & Hb0 & Hstr). simpl in *.
    erewrite bind_ret by (by apply ld_ok). erewrite bind_ret by (apply st_ok; lia).
    rewrite (proj2 (Z.eqb_neq b 0)) by done. rewrite u8_byte by (by eapply bytes_lookup).
    rewrite IH with (str := str).
    + by rewrite splice_cons by (rewrite length_app; simpl; lia).
    + apply Forall_insert; [done|]. by eapply bytes_lookup.
    + destruct Hstr as [Hsl Hnz]. split; [|done]. rewrite <- Hsl, <- splice_one by lia.
      destruct Hov; [apply slice_splice_after|apply slice_splice_before]; simpl; lia.
    + lia.
    + rewrite length_insert. lia.
    + lia.
Qed.

Lemma strcmp_loop_ok fuel p q m a b : string_at m p a -> string_at m q b -> (length a < fuel)%nat ->
  exists z, strcmp_loop fuel p q m = Ret z m /\ (z = 0 <-> a = b).
Proof.
  revert p q a b. induction fuel as [|fuel IH]; intros p q a b Ha Hb Hf; [lia|]. cbn [strcmp_loop].
  destruct a as [|x a], b as [|y b].
  - erewrite bind_ret by (apply ld_ok; by apply string_at_nil).
    erewrite bind_ret by (apply ld_ok; by apply string_at_nil). by exists 0.
  - apply string_at_byte in Hb as (Hy & Hy0 & Hb).
    erewrite bind_ret by (apply ld_ok; by apply string_at_nil). erewrite bind_ret by (by apply ld_ok).
    exists (0 - y). split; [done|]. split; [lia|done].
  - apply string_at_byte in Ha as (Hx & Hx0 & Ha).
    erewrite bind_ret by (by apply ld_ok). erewrite bind_ret by (apply ld_ok; by apply string_at_nil).
    rewrite (proj2 (Z.eqb_neq x 0)) by done. simpl. exists (x - 0). split; [done|]. split; [lia|done].
  - apply string_at_byte in Ha as (Hx & Hx0 & Ha). apply string_at_byte in Hb as (Hy & Hy0 & Hb). simpl in Hf.
    erewrite bind_ret by (by apply ld_ok). erewrite bind_ret by (by apply ld_ok).
    rewrite (proj2 (Z.eqb_neq x 0)) by done. simpl. destruct (Z.eqb_spec x y) as [->|Hne].
    + destruct (IH (S p) (S q) a b Ha Hb) as (z & E & Hz); [lia|]. exists z. split; [done|]. rewrite Hz. split; [by intros ->|by intros [= ->]].
    + exists (x - y). split; [done|]. split; [lia|]. by intros [= ->].
Qed.

(** [strchr]: the first position of the character. *)
Lemma strchr_loop_ok fuel s c str m : string_at m s str -> c <> 0 -> (length str < fuel)%nat ->
  strchr_loop fuel s c m =
  Ret (match list_find (eq c) str with Some (k, _) => Some (s + k)%nat | None => None end) m.
Proof.
  revert s str. induction fuel as [|fuel IH]; intros s str Hstr Hc Hf; [lia|]. cbn [strchr_loop].
  destruct str as [|b str].
  { by erewrite bind_ret by (apply ld_ok; by apply string_at_nil). }
  apply string_at_byte in Hstr as (Hb & Hb0 & Hstr). simpl in Hf. erewrite bind_ret by (by apply ld_ok).
  rewrite (proj2 (Z.eqb_neq b 0)) by done. simpl. destruct (Z.eqb_spec b c) as [->|Hne].
  - rewrite decide_True by done. by rewrite Nat.add_0_r.
  - rewrite decide_False by done. rewrite (IH (S s) str) by (done || lia).
    destruct (list_find (eq c) str) as [[k x]|]; simpl; [|done]. do 2 f_equal. lia.
Qed.

(** What [gets] takes from its input: at most [n] bytes, up to an end of line. *)
Fixpoint line_of (n : nat) (input : list Z) : list Z * list Z :=
  match n, input with
  | S n', c :: input' =>
      if (c =? 10) || (c =? 13) then ([c], input')
      else let '(l, rest) := line_of n' input' in (c :: l, rest)
  | _, _ => ([], input)
  end.
Lemma line_of_length n input : (length (fst (line_of n input)) <= n)%nat.
Proof.
  revert input. induction n as [|n IH]; intros [|c input]; simpl; try lia.
  destruct (_ || _); simpl; [lia|]. pose proof (IH input). destruct (line_of n input). simpl in *. lia.
Qed.

Lemma gets_loop_ok input buf i max m : Forall is_byte input -> 0 <= i < max -> (buf + Z.to_nat max <= length m)%nat ->
  let '(l, rest) := line_of (Z.to_nat (max - 1 - i)) input in
  gets_loop input buf i max m = Ret (i + Z.of_nat (length l), rest) (splice (buf + Z.to_nat i) l m).
Proof.
  revert i m. induction input as [|c input IH]; intros i m Hin Hi Hbuf; cbn [gets_loop].
  - destruct (Z.to_nat (max - 1 - i)); simpl; rewrite splice_nil, Z.add_0_r; by destruct (i + 1 <? max).
  - destruct (Z.ltb_spec (i + 1) max) as [Hlt|Hge].
    2:{ replace (Z.to_nat (max - 1 - i)) with 0%nat by lia. simpl. by rewrite splice_nil, Z.add_0_r. }
    apply Forall_cons in Hin as [Hc Hin].
    replace (Z.to_nat (max - 1 - i)) with (S (Z.to_nat (max - 1 - (i + 1)))) by lia. cbn [line_of].
    erewrite bind_ret by (apply st_ok; lia). rewrite u8_byte by done. destruct ((c =? 10) || (c =? 13)).
    { simpl. by rewrite splice_one by lia. }
    specialize (IH (i + 1) (<[(buf + Z.to_nat i)%nat := c]> m) Hin ltac:(lia) ltac:(rewrite length_insert; lia)).
    pose proof (line_of_length (Z.to_nat (max - 1 - (i + 1))) input) as Hlen.
    destruct (line_of (Z.to_nat (max - 1 - (i + 1))) input) as [l rest]. simpl in Hlen. rewrite IH. f_equal.
    + f_equal. cbn [length]. lia.
    + rewrite splice_cons by lia. f_equal. lia.
Qed.

Lemma gets_ok input buf max m : Forall is_byte input -> 1 <= max -> (buf + Z.to_nat max <= length m)%nat ->
  let '(l, rest) := line_of (Z.to_nat (max - 1)) input in
  gets input buf max m = Ret (buf, rest) (splice buf (l ++ [0]) m).
Proof.
  intros Hin Hmax Hbuf. unfold gets. pose proof (gets_loop_ok input buf 0 max m Hin ltac:(lia) Hbuf) as Hg.
  rewrite Z.sub_0_r in Hg. pose proof (line_of_length (Z.to_nat (max - 1)) input) as Hlen.
  destruct (line_of (Z.to_nat (max - 1)) input) as [l rest]. simpl in Hlen.
  change (Z.to_nat 0) with 0%nat in Hg. rewrite Nat.add_0_r in Hg. rewrite (bind_ret _ _ _ _ _ Hg).
  rewrite Z.add_0_l, Nat2Z.id. assert (length (splice buf l m) = length m) by (apply length_splice; lia).
  erewrite bind_ret by (apply st_ok; lia). unfold mret, M_ret. f_equal.
  by rewrite <- splice_splice, splice_one by (cbn; lia).
Qed.

(** [atoi] of a run of digits. *)
Definition is_digit (b : Z) : Prop := 48 <= b <= 57.

Definition val (n : Z) (ds : list Z) : Z := foldl (fun n c => n * 10 + (c - 48)) n ds.

Lemma val_ge ds n : 0 <= n -> Forall is_digit ds -> n <= val n ds.
Proof.
  revert n. induction ds as [|d ds IH]; intros n Hn Hd; simpl; [lia|]. apply Forall_cons in Hd as [Hd Hds].
  unfold is_digit in Hd. etrans; [|apply IH; [lia|done]]. lia.
Qed.

Lemma atoi_loop_ok fuel s n ds b m : 0 <= n -> Forall is_digit ds -> slice s (length ds) m = ds ->
  m !! (s + length ds)%nat = Some b -> ~ is_digit b -> val n ds + 48 < 2 ^ 31 -> (length ds < fuel)%nat ->
  atoi_loop fuel s n m = Ret (val n ds) m.
Proof.
  revert s n ds. induction fuel as [|fuel IH]; intros s n ds Hn Hd Hs Hb Hnd Hv Hf; [lia|]. cbn [atoi_loop].
  destruct ds as [|d ds]; simpl in *.
  - rewrite Nat.add_0_r in Hb. erewrite bind_ret by (by apply ld_ok). unfold is_digit in Hnd.
    destruct (Z.leb_spec 48 b), (Z.leb_spec b 57); simpl; try done. lia.
  - apply Forall_cons in Hd as [Hd Hds]. apply ld_slice in Hs as [Hs0 Hs]. erewrite bind_ret by (by apply ld_ok).
    unfold is_digit in Hd. rewrite (proj2 (Z.leb_le 48 d)), (proj2 (Z.leb_le d 57)) by lia. simpl (true && true).
    pose proof (val_ge ds (n * 10 + (d - 48)) ltac:(lia) Hds) as Hge. fold (val (n * 10 + (d - 48)) ds) in Hv |- *.
    rewrite (proj2 (Z.ltb_lt _ _)) by lia. replace (n * 10 + d - 48) with (n * 10 + (d - 48)) by lia.
    apply IH; try done; try lia. by replace (S s + length ds)%nat with (s + S (length ds))%nat by lia.
Qed.

(** The routines of the user library do what their names say on terminated
    strings, and stay inside the memory they are given: [strlen], [strcpy],
    [strcmp] (zero exactly for equal strings) and [strchr] (the first position)
    return; [gets] stores the line, its end included, or as much of it as fits
    in [max - 1] bytes, and a terminator, and nothing beyond [max] bytes; and
    [atoi] reads back what [printf] writes for %d, for every non-negative number
    up to 2^31 - 49 (above that the addition before the subtraction of '0'
    overflows an [int]). *)
Theorem user_strings m s str (Hm : bytes m) (Hs : string_at m s str) :
  strlen s m = Ret (Z.of_nat (length str)) m /\
  (forall d, (d + length str < s \/ s + length str < d)%nat -> (d + length str < length m)%nat ->
     strcpy d s m = Ret d (splice d (str ++ [0]) m)) /\
  (forall q str2, string_at m q str2 -> exists z, strcmp s q m = Ret z m /\ (z = 0 <-> str = str2)) /\
  (forall c, c <> 0 -> strchr s c m =
     Ret (match list_find (eq c) str with Some (k, _) => Some (s + k)%nat | None => None end) m) /\
  (forall input max, Forall is_byte input -> 1 <= max -> (s + Z.to_nat max <= length m)%nat ->
     exists l rest, line_of (Z.to_nat (max - 1)) input = (l, rest) /\ (length l < Z.to_nat max)%nat /\
     gets input s max m = Ret (s, rest) (splice s (l ++ [0]) m)) /\
  (forall xx, 0 <= xx < 2 ^ 31 - 48 -> user_printint xx 10 true [] = Ret tt str -> atoi s m = Ret xx m).
Proof.
  pose proof (string_at_len m s str Hs) as Hlen. split_and!.
  - exact (KString.strlen_spec m s str Hs).
  - intros d Hov Hd. unfold strcpy. assert (Hf : (length str < S (length m))%nat) by lia.
    by rewrite (bind_ret _ _ _ _ _ (strcpy_loop_ok _ d s str m Hm Hs Hf Hd Hov)).
  - intros q str2 Hq. apply strcmp_loop_ok; [done..|lia].
  - intros c Hc. apply strchr_loop_ok; [done..|lia].
  - intros input max Hin Hmax Hbuf. pose proof (gets_ok input s max m Hin Hmax Hbuf) as Hg.
    pose proof (line_of_length (Z.to_nat (max - 1)) input) as Hl.
    destruct (line_of (Z.to_nat (max - 1)) input) as [l rest]. simpl in Hl. exists l, rest. split_and!; [done|lia|done].
  - intros xx Hxx Hp. rewrite user_printint_ok in Hp by auto. injection Hp as Hp.
    destruct (number_value digits_upper xx) as [_ Hv]; [unfold is_s32; lia|done|].
    destruct (Hv ltac:(lia)) as [Hdig Hval]. rewrite Hp in Hdig, Hval. destruct Hs as [Hsl Hnz].
    unfold atoi. rewrite (atoi_loop_ok _ s 0 str 0); try done; try lia.
    + unfold val. by rewrite <- Hval.
    + trans (take (length str) (slice s (S (length str)) m)).
      * unfold slice. rewrite take_take. f_equal. lia.
      * rewrite Hsl. apply take_app_length.
    + assert (Hn : slice s (S (length str)) m !! length str = Some 0).
      { rewrite Hsl, lookup_app_r, Nat.sub_diag by lia. done. }
      unfold slice in Hn. rewrite lookup_take_lt, lookup_drop in Hn by lia. done.
    + unfold is_digit. lia.
    + change (val 0 str) with (dec_value str). lia.
Qed.

(** The string "42" at address 1. *)
Lemma user_strings_witness :
  let m := [7; 52; 50; 0; 7; 7; 7; 7] in
  bytes m /\ string_at m 1 [52; 50] /\ strlen 1 m = Ret 2 m /\ atoi 1 m = Ret 42 m /\
  strcpy 4 1 m = Ret 4%nat [7; 52; 50; 0; 52; 50; 0; 7].
Proof.
  intros m. assert (Hm : bytes m) by (repeat constructor; unfold is_byte; lia).
  assert (Hs : string_at m 1 [52; 50]) by (split; [reflexivity|repeat constructor; lia]).
  destruct (user_strings m 1 [52; 50] Hm Hs) as (H1 & H2 & _ & _ & _ & H6).
  split; [exact Hm|]. split; [exact Hs|]. split; [exact H1|]. split.
  - apply (H6 42); [lia|]. vm_compute. reflexivity.
  - rewrite H2; [reflexivity|simpl; lia..].
Defined.

(** [memmove] of the user library copies upwards only: it is right for disjoint
    ranges and for a destination below the source, and wrong for a destination
    inside the source, where it repeats the first bytes. *)
Lemma user_memmove_up dst src n m : bytes m -> (src + Z.to_nat n <= length m)%nat -> (dst + Z.to_nat n <= length m)%nat ->
  (dst <= src \/ src + Z.to_nat n <= dst)%nat ->
  memmove dst src n m = Ret dst (splice dst (slice src (Z.to_nat n) m) m).
Proof. intros. unfold memmove. by erewrite bind_ret by (apply copy_up_ok; done). Qed.

(** The kernel's routine of the same name copies the source as it was. *)
Theorem user_memmove_overlap :
  memmove 1 0 3 [1; 2; 3; 4] = Ret 1%nat [1; 1; 1; 1] /\ KString.memmove 1 0 3 [1; 2; 3; 4] = Ret 1%nat [1; 1; 2; 3].
Proof. split; reflexivity. Qed.
