(* ===== verification/Umalloc.v ===== *)
(** * Umalloc: project3/xv6-modified/umalloc.c, the allocator of user programs

    The free blocks form a circular list in address order, threaded through
    their headers.  A pointer to a [Header] is its address in units of
    [sizeof(Header)] = 8 bytes; the two words of a unit are the maps [ptr] and
    [size], so the words of a block that is in use are whatever the program
    stored there.  [base] is the address of the static header, below the heap,
    which starts at [lo].  [sbrk] is the system call: it moves the break up and
    returns the old one when the kernel grants the new break, and -1
    otherwise. *)

From Stdlib Require Import ZArith Lia.
From stdpp Require Import base numbers strings option list gmap.
From S2P Require Import Prelude.

Record heap := mk_heap { ptr : gmap Z Z; size : gmap Z Z; freep : option Z; brk : Z }.

Definition get_ptr (p : Z) : M heap Z := fun h => match ptr h !! p with Some q => Ret q h | None => Stop "page fault" end.
Definition get_size (p : Z) : M heap Z := fun h => match size h !! p with Some z => Ret z h | None => Stop "page fault" end.
Definition set_ptr (p q : Z) : M heap unit := fun h =>
  match ptr h !! p with
  | Some _ => Ret tt (mk_heap (<[p := q]> (ptr h)) (size h) (freep h) (brk h))
  | None => Stop "page fault"
  end.
Definition set_size (p z : Z) : M heap unit := fun h =>
  match size h !! p with
  | Some _ => Ret tt (mk_heap (ptr h) (<[p := z]> (size h)) (freep h) (brk h))
  | None => Stop "page fault"
  end.
Definition set_freep (p : Z) : M heap unit := modify (fun h => mk_heap (ptr h) (size h) (Some p) (brk h)).
(** [freep] where it is dereferenced. *)
Definition get_freep : M heap Z := fun h => match freep h with Some p => Ret p h | None => Stop "page fault" end.

Section code.
Variables base lo : Z.
Variable grant : Z -> bool.

(** The nodes of the list lie in the heap: enough turns for twice around it. *)
Definition rounds (h : heap) : nat := (2 * Z.to_nat (brk h - lo) + 4)%nat.

(** [for(p = freep; !(bp > p && bp < p->s.ptr); p = p->s.ptr)] *)
Fixpoint free_loop (fuel : nat) (bp p : Z) : M heap Z :=
  match fuel with
  | O => out_of_fuel
  | S fuel' =>
      q ← get_ptr p;
      if (bp >? p) && (bp <? q) then mret p
      else if (p >=? q) && ((bp >? p) || (bp <? q)) then mret p
      else free_loop fuel' bp q
  end.

(** Joining the block with the one after it, then with the one before it. *)
Definition join_next (bp p : Z) : M heap unit :=
  bsize ← get_size bp; pptr ← get_ptr p;
  if bp + bsize =? pptr then
    z ← get_size pptr; set_size bp (u32 (bsize + z));;
    q ← get_ptr pptr; set_ptr bp q
  else set_ptr bp pptr.
Definition join_prev (bp p : Z) : M heap unit :=
  psize ← get_size p;
  if p + psize =? bp then
    z ← get_size bp; set_size p (u32 (psize + z));;
    q ← get_ptr bp; set_ptr p q
  else set_ptr p bp.

Definition free (ap : Z) : M heap unit :=
  let bp := ap - 1 in
  h ← get; p ← get_freep;
  p ← free_loop (rounds h) bp p;
  join_next bp p;; join_prev bp p;;
  set_freep p.

(** [sbrk(n)] for a multiple of the unit; the new memory is zeroed.  A negative
    [n], which would shrink the process, is outside the model. *)
Fixpoint fresh_units (a : Z) (n : nat) (m : gmap Z Z) : gmap Z Z :=
  match n with O => m | S n' => fresh_units (a + 1) n' (<[a := 0]> m) end.
Definition sbrk (n : Z) : M heap (option Z) :=
  if n <? 0 then stop "sbrk" else
  h ← get;
  let k := n / 8 in
  if grant (brk h + k) then
    put (mk_heap (fresh_units (brk h) (Z.to_nat k) (ptr h)) (fresh_units (brk h) (Z.to_nat k) (size h))
           (freep h) (brk h + k));;
    mret (Some (brk h))
  else mret None.

Definition morecore (nu : Z) : M heap (option Z) :=
  let nu := if nu <? 4096 then 4096 else nu in
  o ← sbrk (s32 (u32 (nu * 8)));
  match o with
  | None => mret None
  | Some hp => set_size hp nu;; free (hp + 1);; p ← get_freep; mret (Some p)
  end.

(** Taking [nunits] from the block [p] that follows [prevp]. *)
Definition take_block (prevp p nunits : Z) : M heap (option Z) :=
  z ← get_size p;
  p ← (if z =? nunits then q ← get_ptr p; set_ptr prevp q;; mret p
       else set_size p (z - nunits);; set_size (p + (z - nunits)) nunits;; mret (p + (z - nunits)));
  set_freep prevp;;
  mret (Some (p + 1)).

Fixpoint malloc_loop (fuel : nat) (nunits prevp p : Z) : M heap (option Z) :=
  match fuel with
  | O => out_of_fuel
  | S fuel' =>
      z ← get_size p;
      if z >=? nunits then take_block prevp p nunits
      else
        f ← get_freep;
        if p =? f then
          o ← morecore nunits;
          match o with
          | None => mret None
          | Some p => q ← get_ptr p; malloc_loop fuel' nunits p q
          end
        else q ← get_ptr p; malloc_loop fuel' nunits p q
  end.

Definition units (nbytes : Z) : Z := u32 (nbytes + 8 - 1) / 8 + 1.

Definition malloc (nbytes : Z) : M heap (option Z) :=
  let nunits := units nbytes in
  h ← get;
  (match freep h with
   | Some _ => skip
   | None => set_ptr base base;; set_freep base;; set_size base 0
   end);;
  prevp ← get_freep;
  p ← get_ptr prevp;
  h ← get;
  malloc_loop (2 * rounds h) nunits prevp p.
End code.

(** ** The free list *)
Abbreviation block := (Z * Z)%type.

(** The nodes [l] from [p] on, linked up to [q]. *)
Fixpoint seg (h : heap) (p : Z) (l : list block) (q : Z) : Prop :=
  match l with
  | [] => p = q
  | (a, s) :: l' => p = a /\ size h !! a = Some s /\ exists n, ptr h !! a = Some n /\ seg h n l' q
  end.
Definition next_of (l : list block) (q : Z) : Z := match l with [] => q | (a, _) :: _ => a end.

Lemma um_seg_app h p l1 l2 q : seg h p (l1 ++ l2) q <-> exists m, seg h p l1 m /\ seg h m l2 q.
Proof.
  revert p. induction l1 as [|[a s] l1 IH]; intros p; simpl; [split; [by exists p|by intros (? & -> & ?)]|].
  setoid_rewrite IH. split.
  - intros (-> & Hs & n & Hn & m & H1 & H2). exists m. split; [|done]. by split_and!; try done; exists n.
  - intros (m & (-> & Hs & n & Hn & H1) & H2). split_and!; try done. exists n. split; [done|]. by exists m.
Qed.
Lemma seg_next h p l q : seg h p l q -> p = next_of l q.
Proof. destruct l as [|[a s] l]; simpl; [done|by intros [? _]]. Qed.
(** Changing the words of other units does not matter. *)
Lemma seg_other h h' p l q :
  (forall a s, In (a, s) l -> ptr h' !! a = ptr h !! a /\ size h' !! a = size h !! a) -> seg h p l q -> seg h' p l q.
Proof.
  revert p. induction l as [|[a s] l IH]; intros p Hsame; simpl; [done|].
  intros (-> & Hs & n & Hn & Hseg). destruct (Hsame a s) as [Hp Hz]; [by left|].
  split; [done|]. split; [congruence|]. exists n. split; [congruence|]. apply IH; [|done]. intros b t Hb. apply (Hsame b t). by right.
Qed.

(** Blocks in address order from [x] on, no two of them adjacent, below [y]. *)
Fixpoint ordered (x : Z) (l : list block) (y : Z) : Prop :=
  match l with
  | [] => x <= y
  | (a, s) :: l' => x < a /\ 1 <= s /\ ordered (a + s) l' y
  end.
Fixpoint end_of (x : Z) (l : list block) : Z := match l with [] => x | (a, s) :: l' => end_of (a + s) l' end.
Lemma ordered_app x l1 l2 y : ordered x (l1 ++ l2) y <-> ordered x l1 (end_of x l1) /\ ordered (end_of x l1) l2 y.
Proof. revert x. induction l1 as [|[a s] l1 IH]; intros x; simpl; [by intuition lia|]. rewrite IH. tauto. Qed.
Lemma end_of_app x l1 l2 : end_of x (l1 ++ l2) = end_of (end_of x l1) l2.
Proof. revert x. by induction l1 as [|[a s] l1 IH]; intros x; simpl. Qed.
Lemma ordered_le x l y : ordered x l y -> x <= y.
Proof. revert x. induction l as [|[a s] l IH]; intros x; simpl; [done|]. intros (? & ? & Ho). apply IH in Ho. lia. Qed.
Lemma ordered_mono x l y y' : ordered x l y -> y <= y' -> ordered x l y'.
Proof. revert x. induction l as [|[a s] l IH]; intros x; simpl; [lia|]. intros (? & ? & Ho) Hy. split_and!; try done. by apply IH. Qed.
Lemma ordered_in x l y a s : ordered x l y -> In (a, s) l -> x < a /\ 1 <= s /\ a + s <= y.
Proof.
  revert x. induction l as [|[b t] l IH]; intros x; simpl; [done|]. intros (Hx & Hs & Ho) [[= -> ->]|Hin].
  - apply ordered_le in Ho. lia.
  - apply (IH _ Ho) in Hin. lia.
Qed.
Lemma ordered_length x l y : ordered x l y -> 2 * Z.of_nat (length l) <= y - x.
Proof. revert x. induction l as [|[a s] l IH]; intros x; simpl length; simpl; [lia|]. intros (? & ? & Ho). apply IH in Ho. lia. Qed.

Definition apart (a s b t : Z) : Prop := a + s <= b \/ b + t <= a.

Lemma seg_head h p a s l q : seg h p ((a, s) :: l) q ->
  p = a /\ size h !! a = Some s /\ ptr h !! a = Some (next_of l q) /\ seg h (next_of l q) l q.
Proof. intros (-> & Hs & n & Hn & Hl). by rewrite <- (seg_next h n l q Hl). Qed.

(** The addresses go up. *)
Fixpoint asc (x : Z) (l : list block) : Prop := match l with [] => True | (a, _) :: l' => x < a /\ asc a l' end.
Lemma ordered_asc x l y : ordered x l y -> asc x l.
Proof.
  revert x. induction l as [|[a s] l IH]; intros x; simpl; [done|]. intros (Hx & Hs & Ho). split; [done|].
  apply IH in Ho. destruct l as [|[b t] l]; simpl in *; [done|]. split; [lia|apply Ho].
Qed.
Lemma asc_weak x x' l : x' <= x -> asc x l -> asc x' l.
Proof. destruct l as [|[a s] l]; simpl; [done|]. intros ? [? ?]. split; [lia|done]. Qed.
Lemma asc_suffix x l p s r : asc x (l ++ (p, s) :: r) -> x < p /\ asc p r.
Proof.
  revert x. induction l as [|[a t] l IH]; intros x; simpl; [done|]. intros [Hx Ha]. apply IH in Ha as [? ?]. split; [lia|done].
Qed.
Lemma asc_in x l a s : asc x l -> In (a, s) l -> x < a.
Proof. intros Ha Hi. apply in_split in Hi as (l1 & l2 & ->). by apply asc_suffix in Ha as [? _]. Qed.

Lemma get_ptr_ok h p q : ptr h !! p = Some q -> get_ptr p h = Ret q h.
Proof. unfold get_ptr. by intros ->. Qed.
Lemma get_size_ok h p z : size h !! p = Some z -> get_size p h = Ret z h.
Proof. unfold get_size. by intros ->. Qed.
Lemma set_ptr_ok h p q : is_Some (ptr h !! p) ->
  set_ptr p q h = Ret tt (mk_heap (<[p := q]> (ptr h)) (size h) (freep h) (brk h)).
Proof. unfold set_ptr. by intros [x ->]. Qed.
Lemma set_size_ok h p z : is_Some (size h !! p) ->
  set_size p z h = Ret tt (mk_heap (ptr h) (<[p := z]> (size h)) (freep h) (brk h)).
Proof. unfold set_size. by intros [x ->]. Qed.

Section inv.
Variables base lo : Z.
Hypothesis base_lo : base < lo.

(** The nodes of the circular list: the static header and the free blocks. *)
Definition nodes (F : list block) : list block := (base, 0) :: F.

Record heap_ok (h : heap) (F : list block) (A : gmap Z Z) : Prop := {
  ho_seg : seg h base (nodes F) base;
  ho_order : ordered (lo - 1) F (brk h);
  ho_brk : lo <= brk h;
  ho_freep : exists p s, freep h = Some p /\ In (p, s) (nodes F);
  ho_mem : forall u, lo <= u < brk h -> is_Some (ptr h !! u) /\ is_Some (size h !! u);
  ho_size : forall a s, A !! a = Some s -> size h !! a = Some s /\ 1 <= s /\ lo <= a /\ a + s <= brk h;
  ho_free : forall a s f t, A !! a = Some s -> In (f, t) F -> apart a s f t;
  ho_used : forall a s b t, A !! a = Some s -> A !! b = Some t -> a <> b -> apart a s b t
}.

(** The words the program stores in its blocks. *)
Definition same_data (A : gmap Z Z) (h h' : heap) : Prop :=
  forall a s u, A !! a = Some s -> a < u < a + s -> ptr h' !! u = ptr h !! u /\ size h' !! u = size h !! u.
(** ** Where a block is put back *)
Definition before (bp : Z) (r : list block) : Prop := match r with [] => True | (q, _) :: _ => bp < q end.

Lemma free_loop_reach h bp p s r fuel : seg h p ((p, s) :: r) base -> asc p r -> base <= p < bp ->
  (forall f t, In (f, t) r -> f <> bp) -> (length r < fuel)%nat ->
  exists l1 p1 s1 r1, (p, s) :: r = l1 ++ (p1, s1) :: r1 /\ p1 < bp /\ before bp r1 /\
  free_loop fuel bp p h = Ret p1 h.
Proof.
  revert p s fuel. induction r as [|[q t] r IH]; intros p s fuel Hseg Ha Hp Hne Hf;
    (destruct fuel as [|fuel]; [simpl in Hf; lia|]); apply seg_head in Hseg as (_ & _ & Hn & Hseg); cbn [free_loop];
    erewrite bind_ret by (by apply get_ptr_ok); cbn [next_of] in *.
  - exists [], p, s, []. split_and!; try done; [lia|].
    destruct (Z.gtb_spec bp p), (Z.ltb_spec bp base); try lia. rewrite Z.geb_leb, (proj2 (Z.leb_le base p)) by lia. done.
  - simpl in Ha. destruct Ha as [Hpq Ha]. assert (q <> bp) by (apply (Hne q t); by left).
    destruct (Z.gtb_spec bp p); [|lia]. destruct (Z.ltb_spec bp q); simpl.
    { by exists [], p, s, ((q, t) :: r). }
    rewrite Z.geb_leb, (proj2 (Z.leb_gt q p)) by lia. simpl.
    destruct (IH q t fuel) as (l1 & p1 & s1 & r1 & E & G1 & G2 & G3); try done; [lia| |simpl in Hf; lia|].
    { intros f u Hi. apply (Hne f u). by right. }
    exists ((p, s) :: l1), p1, s1, r1. split_and!; try done. by rewrite E.
Qed.

(** From a node above the block, the loop comes round to the static header. *)
Lemma free_loop_wrap h bp p s r fuel : seg h p ((p, s) :: r) base -> asc p r -> base < bp < p ->
  free_loop (S (length r) + fuel) bp p h = free_loop fuel bp base h.
Proof.
  revert p s. induction r as [|[q t] r IH]; intros p s Hseg Ha Hp;
    apply seg_head in Hseg as (_ & _ & Hn & Hseg); cbn [free_loop Nat.add length];
    erewrite bind_ret by (by apply get_ptr_ok); cbn [next_of] in *.
  - destruct (Z.gtb_spec bp p); [lia|]. simpl. destruct (Z.ltb_spec bp base); [lia|]. by rewrite andb_false_r.
  - simpl in Ha. destruct Ha as [Hpq Ha]. destruct (Z.gtb_spec bp p); [lia|]. simpl.
    rewrite Z.geb_leb, (proj2 (Z.leb_gt q p)) by lia. simpl. apply (IH q t); [done..|lia].
Qed.

Lemma nodes_split F l p s r : nodes F = l ++ (p, s) :: r ->
  (l = [] /\ p = base /\ s = 0 /\ F = r) \/ exists l', l = (base, 0) :: l' /\ F = l' ++ (p, s) :: r.
Proof. destruct l as [|b l]; intros [= ? ?]; simplify_eq; [by left|right; by exists l]. Qed.

Lemma nodes_asc F y : ordered (lo - 1) F y -> asc base F.
Proof using base_lo. intros Ho. apply ordered_asc in Ho. apply (asc_weak (lo - 1)); [lia|done]. Qed.

Lemma free_loop_ok h F A bp : heap_ok h F A -> lo <= bp -> (forall f t, In (f, t) F -> f <> bp) ->
  exists p l1 p1 s1 r1, freep h = Some p /\ nodes F = l1 ++ (p1, s1) :: r1 /\ p1 < bp /\ before bp r1 /\
  free_loop (rounds lo h) bp p h = Ret p1 h.
Proof using base_lo.
  intros HI Hbp Hne. destruct (ho_freep h F A HI) as (p & s & Hf & Hin). exists p.
  pose proof (nodes_asc F _ (ho_order h F A HI)) as Ha. pose proof (ordered_length _ _ _ (ho_order h F A HI)) as Hlen.
  assert (Hreach : forall fuel, (length F < fuel)%nat -> exists l1 p1 s1 r1, nodes F = l1 ++ (p1, s1) :: r1 /\
    p1 < bp /\ before bp r1 /\ free_loop fuel bp base h = Ret p1 h).
  { intros fuel Hfuel. apply (free_loop_reach h bp base 0 F fuel (ho_seg h F A HI)); try done; lia. }
  apply in_split in Hin as (l & r & Hs). pose proof (ho_seg h F A HI) as Hseg. rewrite Hs in Hseg.
  apply um_seg_app in Hseg as (m & _ & Hseg). assert (m = p) as -> by (by apply seg_head in Hseg as [? _]).
  assert (Hl : length (nodes F) = (length l + S (length r))%nat) by (by rewrite Hs, length_app). simpl in Hl.
  assert (Hpr : asc p r /\ base <= p /\ (p = base \/ In (p, s) F) /\ forall f t, In (f, t) r -> In (f, t) F).
  { destruct (nodes_split F l p s r Hs) as [(-> & -> & -> & ->)|(l' & -> & ->)].
    - split_and!; [done|lia|by left|done].
    - apply asc_suffix in Ha as [? ?]. split_and!; [done|lia|right; apply in_app_iff; right; by left|].
      intros f t Hi. apply in_app_iff. right. by right. }
  destruct Hpr as (Har & Hpb & Hpn & Hin). unfold rounds.
  destruct (Z.lt_trichotomy p bp) as [Hlt|[->|Hgt]].
  - destruct (free_loop_reach h bp p s r (2 * Z.to_nat (brk h - lo) + 4) Hseg Har) as (l1 & p1 & s1 & r1 & E & H1 & H2 & H3);
      [lia|by intros f t Hi; apply (Hne f t), Hin|lia|].
    exists (l ++ l1), p1, s1, r1. split_and!; try done. by rewrite Hs, E, app_assoc.
  - destruct Hpn as [|Hpn]; [lia|]. by destruct (Hne bp s Hpn).
  - destruct (Hreach (2 * Z.to_nat (brk h - lo) + 4 - S (length r))%nat ltac:(lia)) as (l1 & p1 & s1 & r1 & E & H1 & H2 & H3).
    exists l1, p1, s1, r1. split_and!; try done. rewrite <- H3, <- (free_loop_wrap h bp p s r) by (done || lia). f_equal. lia.
Qed.
(** Two heaps that agree except at one unit. *)
Definition agree_off (x : Z) (h h' : heap) : Prop :=
  (forall u, u <> x -> ptr h' !! u = ptr h !! u /\ size h' !! u = size h !! u) /\ freep h' = freep h /\ brk h' = brk h /\
  forall u, is_Some (ptr h !! u) -> is_Some (ptr h' !! u) /\ (is_Some (size h !! u) -> is_Some (size h' !! u)).

Lemma agree_set x p z h : agree_off x h (mk_heap (<[x := p]> (ptr h)) (<[x := z]> (size h)) (freep h) (brk h)).
Proof.
  split_and!; try done; simpl; intros u.
  - intros Hu. by rewrite !lookup_insert_ne.
  - intros Hp. destruct (decide (u = x)) as [->|]; [rewrite !lookup_insert_eq; split; by eexists|by rewrite !lookup_insert_ne].
Qed.
Lemma agree_set_ptr x p h : agree_off x h (mk_heap (<[x := p]> (ptr h)) (size h) (freep h) (brk h)).
Proof.
  split_and!; try done; simpl; intros u.
  - intros Hu. by rewrite lookup_insert_ne.
  - intros Hp. destruct (decide (u = x)) as [->|]; [rewrite lookup_insert_eq; split; [by eexists|done]|by rewrite lookup_insert_ne].
Qed.
Lemma agree_seg x h h' p l q : agree_off x h h' -> (forall a s, In (a, s) l -> a <> x) -> seg h p l q -> seg h' p l q.
Proof. intros [Hu _] Hl. apply seg_other. intros a s Hi. apply Hu. by apply (Hl a s). Qed.

Lemma join_next_ok h bp sz p r1 : size h !! bp = Some sz -> is_Some (ptr h !! bp) -> ptr h !! p = Some (next_of r1 base) ->
  seg h (next_of r1 base) r1 base -> base < bp -> 0 <= sz -> (forall f t, In (f, t) r1 -> f <> bp /\ 0 <= sz + t < 2 ^ 32) ->
  exists h1 r2 sz2, join_next bp p h = Ret tt h1 /\ agree_off bp h h1 /\ ptr h1 !! bp = Some (next_of r2 base) /\
  size h1 !! bp = Some sz2 /\ seg h1 (next_of r2 base) r2 base /\
  ((r2 = r1 /\ sz2 = sz /\ bp + sz <> next_of r1 base) \/ exists t, r1 = (bp + sz, t) :: r2 /\ sz2 = sz + t).
Proof.
  intros Hs Hp Hpn Hseg Hb Hsz Hr. unfold join_next. erewrite bind_ret by (by apply get_size_ok).
  erewrite bind_ret by (by apply get_ptr_ok). destruct (Z.eqb_spec (bp + sz) (next_of r1 base)) as [E|Hne].
  - destruct r1 as [|[f t] r2]; simpl in E; [lia|]. subst f. destruct (Hr (bp + sz) t) as [Hnb Ht]; [by left|].
    apply seg_head in Hseg as (_ & Hz & Hn & Hseg2). cbn [next_of].
    erewrite bind_ret by (by apply get_size_ok). rewrite u32_small by lia.
    erewrite bind_ret by (apply set_size_ok; by eauto). erewrite bind_ret by (by apply get_ptr_ok).
    rewrite set_ptr_ok by done. eexists _, r2, (sz + t). split; [done|]. simpl. split; [apply agree_set|].
    rewrite !lookup_insert_eq. split_and!; [done..| |right; by exists t].
    apply (agree_seg bp h); [apply agree_set| |done]. intros a u Hi. apply (Hr a u). by right.
  - rewrite set_ptr_ok by done. eexists _, r1, sz. split; [done|]. split; [apply agree_set_ptr|]. simpl.
    rewrite lookup_insert_eq. split_and!; [done..| |by left].
    apply (agree_seg bp h); [apply agree_set_ptr| |done]. intros a u Hi. by apply (Hr a u).
Qed.

Lemma join_prev_ok h bp sz p s r : size h !! bp = Some sz -> ptr h !! bp = Some (next_of r base) ->
  size h !! p = Some s -> is_Some (ptr h !! p) -> seg h (next_of r base) r base -> p <> bp -> 0 <= s + sz < 2 ^ 32 ->
  (forall f t, In (f, t) r -> f <> p /\ f <> bp) ->
  exists h1 l, join_prev bp p h = Ret tt h1 /\ agree_off p h h1 /\ seg h1 p (l ++ r) base /\
  ((p + s = bp /\ l = [(p, s + sz)]) \/ (p + s <> bp /\ l = [(p, s); (bp, sz)])).
Proof.
  intros Hs Hn Hps Hpp Hseg Hne Hb Hr. unfold join_prev. erewrite bind_ret by (by apply get_size_ok).
  assert (Hkeep : forall h1, agree_off p h h1 -> seg h1 (next_of r base) r base).
  { intros h1 Ha. apply (agree_seg p h); [done| |done]. intros a u Hi. by apply (Hr a u). }
  destruct (Z.eqb_spec (p + s) bp) as [E|E].
  - erewrite bind_ret by (by apply get_size_ok). rewrite u32_small by lia.
    erewrite bind_ret by (apply set_size_ok; by eauto). erewrite bind_ret by (by apply get_ptr_ok).
    rewrite set_ptr_ok by done. eexists _, [(p, s + sz)]. split; [done|]. cbn [ptr size freep brk]. split; [apply agree_set|]. split; [|by left].
    simpl. rewrite !lookup_insert_eq. split_and!; [done..|]. exists (next_of r base). split; [done|]. apply Hkeep, agree_set.
  - rewrite set_ptr_ok by done. eexists _, [(p, s); (bp, sz)]. split; [done|]. split; [apply agree_set_ptr|]. split; [|by right].
    simpl. rewrite lookup_insert_eq. split_and!; [done..|]. exists bp. split; [done|]. split_and!; [done..|].
    rewrite lookup_insert_ne by done. exists (next_of r base). split; [done|]. apply Hkeep, agree_set_ptr.
Qed.
Lemma order_right bp sz x r1 r2 sz2 y : ordered x r1 y -> 1 <= sz -> bp + sz <= y ->
  (forall f t, In (f, t) r1 -> bp + sz <= f) ->
  (r2 = r1 /\ sz2 = sz /\ bp + sz <> next_of r1 base) \/ (exists t, r1 = (bp + sz, t) :: r2 /\ sz2 = sz + t) ->
  sz <= sz2 /\ ordered (bp + sz2) r2 y /\ incl r2 r1.
Proof.
  intros Ho Hsz Hy Hf [(-> & -> & Hne)|(t & -> & ->)].
  - split_and!; [lia| |apply incl_refl]. destruct r1 as [|[q t] r1]; simpl in *; [lia|].
    pose proof (Hf q t (or_introl eq_refl)). split_and!; try lia; apply Ho.
  - simpl in Ho. split_and!; [lia| |intros b Hb; by right]. rewrite Z.add_assoc. apply Ho.
Qed.

(** What may be given back: a block inside the heap that no other block meets. *)
Record loose (h : heap) (F : list block) (A : gmap Z Z) (bp sz : Z) : Prop := {
  lo_in : lo <= bp /\ 1 <= sz /\ bp + sz <= brk h;
  lo_size : size h !! bp = Some sz;
  lo_free : forall f t, In (f, t) F -> apart bp sz f t;
  lo_used : forall a s, A !! a = Some s -> apart bp sz a s
}.

(** The words that [free] may change: those of the nodes and of the block. *)
Definition untouched (F : list block) (bp : Z) (h h' : heap) : Prop :=
  forall u, u <> bp -> (forall s, ~ In (u, s) (nodes F)) -> ptr h' !! u = ptr h !! u /\ size h' !! u = size h !! u.

(** The place where the block goes, with what is known of its neighbours. *)
Lemma free_place h F A bp sz : heap_ok h F A -> loose h F A bp sz ->
  exists p l1 p1 s1 r1, freep h = Some p /\ free_loop (rounds lo h) bp p h = Ret p1 h /\ nodes F = l1 ++ (p1, s1) :: r1 /\
  p1 + s1 <= bp /\ ((p1 = base /\ s1 = 0) \/ (lo <= p1 /\ 1 <= s1 /\ In (p1, s1) F)) /\
  (forall f t, In (f, t) r1 -> In (f, t) F /\ bp + sz <= f /\ 1 <= t /\ f + t <= brk h) /\
  (forall f t, In (f, t) l1 -> f < p1) /\ exists x, ordered x r1 (brk h).
Proof using base_lo.
  intros HI [(Hbp & Hsz & Hend) Hsize Hfree _]. pose proof (ho_order h F A HI) as Ho.
  destruct (free_loop_ok h F A bp HI Hbp) as (p & l1 & p1 & s1 & r1 & Hf & Hs & Hlt & Hbef & El).
  { intros f t Hi ->. destruct (ordered_in _ _ _ _ _ Ho Hi) as (_ & ? & _). destruct (Hfree bp t Hi); lia. }
  exists p, l1, p1, s1, r1. split; [done|]. split; [done|]. split; [done|].
  assert (Hr : forall f t, In (f, t) r1 -> In (f, t) F -> asc p1 r1 -> In (f, t) F /\ bp + sz <= f /\ 1 <= t /\ f + t <= brk h).
  { intros f t Hi HiF Ha. destruct (ordered_in _ _ _ _ _ Ho HiF) as (_ & ? & ?). split_and!; [done| |lia|lia].
    assert (bp < f). { destruct r1 as [|[q u] r1]; [done|]. simpl in Hbef. destruct Hi as [[= -> ->]|Hi]; [done|].
      simpl in Ha. pose proof (asc_in _ _ _ _ (proj2 Ha) Hi). lia. }
    destruct (Hfree f t HiF); lia. }
  pose proof (nodes_asc F _ Ho) as Ha.
  destruct (nodes_split F l1 p1 s1 r1 Hs) as [(-> & -> & -> & ->)|(l' & -> & ->)].
  - split_and!; try lia; [|done|by exists (lo - 1)]. intros f t Hi. by apply Hr.
  - assert (Hin : In (p1, s1) (l' ++ (p1, s1) :: r1)) by (apply in_app_iff; right; by left).
    destruct (ordered_in _ _ _ _ _ Ho Hin) as (? & ? & _). destruct (asc_suffix _ _ _ _ _ Ha) as [? Ha1].
    split_and!; try lia.
    + destruct (Hfree p1 s1 Hin); lia.
    + right. split_and!; [lia..|done].
    + intros f t Hi. apply Hr; [done| |done]. apply in_app_iff. right. by right.
    + intros f t [[= <- <-]|Hi]; [lia|]. apply in_split in Hi as (x & y & ->).
      rewrite <- app_assoc in Ha. apply asc_suffix in Ha as [_ Ha]. by apply asc_suffix in Ha as [? _].
    + apply ordered_app in Ho as [_ Ho]. exists (p1 + s1). apply Ho.
Qed.

(** The list of free blocks with the block in it. *)
Lemma free_list_ok F l1 p1 s1 r1 bp sz r2 sz2 l y : ordered (lo - 1) F y -> nodes F = l1 ++ (p1, s1) :: r1 ->
  lo <= bp -> 1 <= sz <= sz2 -> p1 + s1 <= bp -> (p1 = base -> p1 + s1 < bp) -> ordered (bp + sz2) r2 y ->
  (p1 + s1 = bp /\ l = [(p1, s1 + sz2)]) \/ (p1 + s1 <> bp /\ l = [(p1, s1); (bp, sz2)]) ->
  exists F', nodes F' = l1 ++ l ++ r2 /\ ordered (lo - 1) F' y /\
  (forall f t, In (f, t) F' -> In (f, t) F \/ In (f, t) r2 \/ (f = bp /\ t = sz2) \/
     (f = p1 /\ t = s1 + sz2 /\ p1 + s1 = bp /\ In (p1, s1) F)).
Proof using base_lo.
  intros Ho Hs Hlo Hsz Hle Hb Hor Hl. destruct (nodes_split F l1 p1 s1 r1 Hs) as [(-> & -> & -> & ->)|(l' & -> & ->)].
  - destruct Hl as [[? _]|[_ ->]]; [lia|]. exists ((bp, sz2) :: r2). split_and!; [done|simpl; split_and!; lia || done|].
    intros f t [[= <- <-]|Hi]; auto.
  - apply ordered_app in Ho as [Ho1 Ho2]. simpl in Ho2. destruct Ho2 as (Hx & Hs1 & _). exists (l' ++ l ++ r2).
    split; [done|]. rewrite !ordered_app. split.
    + split; [done|]. destruct Hl as [[E ->]|[E ->]]; simpl; split_and!; try lia.
      * by replace (p1 + (s1 + sz2)) with (bp + sz2) by lia.
      * done.
    + intros f t Hi. apply in_app_iff in Hi as [Hi|Hi]; [left; apply in_app_iff; by left|].
      apply in_app_iff in Hi as [Hi|Hi]; [|by auto].
      assert (Hp1 : In (p1, s1) (l' ++ (p1, s1) :: r1)) by (apply in_app_iff; right; by left).
      destruct Hl as [[E ->]|[E ->]]; simpl in Hi; destruct Hi as [[= <- <-]|Hi]; try done.
      * right; right; right. done.
      * by left.
      * destruct Hi as [[= <- <-]|[]]. auto.
Qed.

Lemma heap_ok_changed h h' F F' A p1 s1 bp : heap_ok h F A -> brk h' = brk h -> freep h' = Some p1 ->
  In (p1, s1) (nodes F') -> seg h' base (nodes F') base -> ordered (lo - 1) F' (brk h) ->
  (forall u, is_Some (ptr h !! u) -> is_Some (ptr h' !! u) /\ (is_Some (size h !! u) -> is_Some (size h' !! u))) ->
  (forall u, u <> bp -> u <> p1 -> ptr h' !! u = ptr h !! u /\ size h' !! u = size h !! u) ->
  (forall a s, A !! a = Some s -> a <> bp /\ a <> p1) ->
  (forall a s f t, A !! a = Some s -> In (f, t) F' -> apart a s f t) -> heap_ok h' F' A.
Proof.
  intros HI Hbrk Hf Hin Hseg Ho Hmem Hout HA Hap. constructor; try done.
  - by rewrite Hbrk.
  - rewrite Hbrk. apply HI.
  - by exists p1, s1.
  - intros u Hu. rewrite Hbrk in Hu. destruct (ho_mem h F A HI u Hu) as [H1 H2]. destruct (Hmem u H1). auto.
  - intros a s Ea. destruct (HA a s Ea) as [H1 H2]. destruct (Hout a H1 H2) as [_ ->]. rewrite Hbrk. by apply (ho_size h F A HI).
  - apply HI.
Qed.

Lemma free_core h F A bp sz : heap_ok h F A -> loose h F A bp sz -> brk h - lo < 2 ^ 32 ->
  exists h' F' L p s R, free lo (bp + 1) h = Ret tt h' /\ heap_ok h' F' A /\ brk h' = brk h /\ freep h' = Some p /\
  nodes F' = L ++ (p, s) :: R /\ (sz <= s \/ exists q t R', R = (q, t) :: R' /\ sz <= t) /\ untouched F bp h h' /\ (length F' <= S (length F))%nat.
Proof using base_lo.
  intros HI HL Hbrk. pose proof HL as [(Hbp & Hsz & Hend) Hsize Hfree Hused].
  destruct (free_place h F A bp sz HI HL) as (p & l1 & p1 & s1 & r1 & Hf & El & Hs & Hle & Hp1 & Hr1 & Hl1 & x & Hor).
  pose proof (ho_seg h F A HI) as Hseg. rewrite Hs in Hseg. apply um_seg_app in Hseg as (m & Hsl1 & Hseg).
  apply seg_head in Hseg as (-> & Hps & Hpn & Hsr1).
  destruct (ho_mem h F A HI bp) as [Hbptr _]; [lia|].
  destruct (join_next_ok h bp sz p1 r1) as (h1 & r2 & sz2 & E1 & Ha1 & Hn1 & Hz1 & Hseg1 & Hcase); try done; [lia|lia| |].
  { intros f t Hi. apply Hr1 in Hi. lia. }
  destruct (order_right bp sz x r1 r2 sz2 (brk h) Hor) as (Hsz2 & Hor2 & Hincl); try done.
  { intros f t Hi. by apply Hr1 in Hi as (_ & ? & _). }
  destruct (proj1 Ha1 p1) as [Hpp1 Hps1]; [lia|]. pose proof (ordered_le _ _ _ Hor2) as Hend2.
  destruct (join_prev_ok h1 bp sz2 p1 s1 r2) as (h2 & l & E2 & Ha2 & Hseg2 & Hl);
    try done; [congruence|rewrite Hpp1; by eexists|lia|lia| |].
  { intros f t Hi. apply Hincl, Hr1 in Hi. lia. }
  destruct (free_list_ok F l1 p1 s1 r1 bp sz r2 sz2 l (brk h)) as (F' & HF' & Ho' & Hin'); try done; [apply HI|lia|].
  set (h' := mk_heap (ptr h2) (size h2) (Some p1) (brk h2)).
  assert (Hout : forall u, u <> bp -> u <> p1 -> ptr h' !! u = ptr h !! u /\ size h' !! u = size h !! u).
  { intros u Hu1 Hu2. destruct (proj1 Ha1 u Hu1), (proj1 Ha2 u Hu2). simpl. split; congruence. }
  assert (Hbrk' : brk h' = brk h). { simpl. destruct Ha2 as (_ & _ & -> & _), Ha1 as (_ & _ & -> & _). done. }
  assert (HA : forall a s, A !! a = Some s -> 1 <= s /\ lo <= a /\ a <> bp /\ a <> p1).
  { intros a s Ea. destruct (ho_size h F A HI a s Ea) as (_ & ? & ? & _). pose proof (Hused a s Ea) as Hu.
    split_and!; [done..| |]; [destruct Hu; lia|]. destruct Hp1 as [[-> _]|(? & ? & HiF)]; [lia|].
    destruct (ho_free h F A HI a s p1 s1 Ea HiF); lia. }
  assert (exists s' R, nodes F' = l1 ++ (p1, s') :: R /\ (sz <= s' \/ exists q t R', R = (q, t) :: R' /\ sz <= t)) as (s' & R & HN & Hroom).
  { destruct Hl as [[_ ->]|[_ ->]]; rewrite HF'; simpl; [exists (s1 + sz2), r2|exists s1, ((bp, sz2) :: r2)]; (split; [done|]).
    - left. lia.
    - right. by exists bp, sz2, r2. }
  exists h', F', l1, p1, s', R. split_and!; try done.
  - unfold free. rewrite Z.add_simpl_r. cbv zeta. erewrite bind_ret by reflexivity.
    unfold get_freep. erewrite bind_ret by (by rewrite Hf). rewrite (bind_ret _ _ _ _ _ El), (bind_ret _ _ _ _ _ E1).
    by rewrite (bind_ret _ _ _ _ _ E2).
  - apply (heap_ok_changed h h' F F' A p1 s' bp); try done.
    + rewrite HN. apply in_app_iff. right. by left.
    + rewrite HF'. apply um_seg_app. exists p1. split.
      * apply (seg_other h); [|done]. intros a t Hi. apply Hl1 in Hi. apply Hout; lia.
      * by apply (seg_other h2).
    + intros u Hu. destruct Ha1 as (_ & _ & _ & Hm1), Ha2 as (_ & _ & _ & Hm2). destruct (Hm1 u Hu) as [H1 H2].
      destruct (Hm2 u H1) as [H3 H4]. auto.
    + intros a s Ea. by apply HA in Ea as (_ & _ & ? & ?).
    + intros a s f t Ea Hi. destruct (HA a s Ea) as (Hs' & _). pose proof (ho_free h F A HI a s) as Hfa.
      pose proof (Hused a s Ea) as Hu. unfold apart in *.
      assert (Hbig : a + s <= bp \/ bp + sz2 <= a).
      { destruct Hcase as [(_ & -> & _)|(t2 & -> & ->)]; [lia|]. destruct (Hr1 (bp + sz) t2) as (HiF & _); [by left|].
        destruct (Hfa _ _ Ea HiF); lia. }
      destruct (Hin' f t Hi) as [HiF|[Hir|[[-> ->]|(-> & -> & E & HiF)]]]; [by apply Hfa|apply Hfa; [done|by apply Hr1, Hincl]|lia|].
      destruct (Hfa _ _ Ea HiF); lia.
  - intros u Hu Hnode. apply Hout; [done|]. intros ->. apply (Hnode s1). rewrite Hs. apply in_app_iff. right. by left.
  - apply (f_equal length) in HF', Hs. simpl in HF', Hs. rewrite !length_app in HF', Hs. simpl in Hs.
    assert (length r2 <= length r1)%nat by (by destruct Hcase as [(-> & _)|(t & -> & _)]; simpl; lia).
    destruct Hl as [[_ ->]|[_ ->]]; simpl in HF'; lia.
Qed.
(** ** Taking a block from the list *)
Lemma ordered_start x x' l y : ordered x l y -> x' <= x -> ordered x' l y.
Proof. destruct l as [|[a s] l]; simpl; [lia|]. intros (? & ? & ?) ?. split_and!; [lia|done..]. Qed.

Lemma nodes_split2 F l pv spv q sq r : nodes F = l ++ (pv, spv) :: (q, sq) :: r ->
  exists X, F = X ++ (q, sq) :: r /\ nodes X = l ++ [(pv, spv)].
Proof.
  intros Hs. destruct (nodes_split F l pv spv _ Hs) as [(-> & -> & -> & ->)|(l' & -> & ->)]; [by exists []|].
  exists (l' ++ [(pv, spv)]). by rewrite <- app_assoc.
Qed.

(** The list without the last [n] units of the block [q]. *)
Definition rest_of (q sq n : Z) : list block := if sq =? n then [] else [(q, sq - n)].

Lemma rest_order X q sq n r y : ordered (lo - 1) (X ++ (q, sq) :: r) y -> 1 <= n <= sq ->
  ordered (lo - 1) (X ++ rest_of q sq n ++ r) y.
Proof.
  intros Ho Hn. apply ordered_app in Ho as [Ho1 Ho2]. simpl in Ho2. destruct Ho2 as (Hx & _ & Ho2).
  apply ordered_app. split; [done|]. unfold rest_of. destruct (Z.eqb_spec sq n); simpl.
  - apply (ordered_start _ _ _ _ Ho2). lia.
  - split_and!; [done|lia|]. apply (ordered_start _ _ _ _ Ho2). lia.
Qed.

(** The block that is taken meets neither the other blocks in use nor what is
    left of the list. *)
Lemma taken_apart h F A X q sq n r : heap_ok h F A -> F = X ++ (q, sq) :: r -> 1 <= n <= sq ->
  let a := q + (sq - n) in
  lo <= a /\ a + n <= brk h /\ A !! a = None /\ (forall b t, A !! b = Some t -> apart b t a n) /\
  (forall f t, In (f, t) (X ++ rest_of q sq n ++ r) -> apart a n f t) /\
  (forall b t f u, A !! b = Some t -> In (f, u) (X ++ rest_of q sq n ++ r) -> apart b t f u).
Proof using base_lo.
  intros HI EF Hn a. pose proof (ho_order h F A HI) as Ho. rewrite EF in Ho.
  assert (Hq : In (q, sq) F) by (rewrite EF; apply in_app_iff; right; by left).
  pose proof (ordered_in _ _ _ q sq (ho_order h F A HI) Hq) as (? & ? & ?).
  assert (Hb : forall b t, A !! b = Some t -> 1 <= t /\ apart b t q sq).
  { intros b t Eb. split; [by apply (ho_size h F A HI b t)|by apply (ho_free h F A HI)]. }
  assert (Hx : forall f t, In (f, t) (X ++ rest_of q sq n ++ r) -> In (f, t) X \/ In (f, t) r \/ (f = q /\ t = sq - n)).
  { intros f t Hi. apply in_app_iff in Hi as [|Hi]; [by left|]. apply in_app_iff in Hi as [Hi|]; [|auto].
    unfold rest_of in Hi. destruct (sq =? n); [done|]. destruct Hi as [[= <- <-]|[]]. auto. }
  apply ordered_app in Ho as [Ho1 Ho2]. simpl in Ho2. destruct Ho2 as (Hxq & _ & Hor).
  split_and!; [lia|lia| | | |].
  - destruct (A !! a) as [t|] eqn:Ea; [|done]. destruct (Hb a t Ea) as [? [?|?]]; subst a; lia.
  - intros b t Eb. destruct (Hb b t Eb) as [? [?|?]]; unfold apart; subst a; lia.
  - intros f t Hi. unfold apart. subst a. destruct (Hx f t Hi) as [HX|[Hr|[-> ->]]]; [| |lia].
    + apply (ordered_in _ _ _ _ _ Ho1) in HX. lia.
    + apply (ordered_in _ _ _ _ _ Hor) in Hr. lia.
  - intros b t f u Eb Hi. destruct (Hx f u Hi) as [HX|[Hr|[-> ->]]].
    + apply (ho_free h F A HI b t f u Eb). rewrite EF. apply in_app_iff. by left.
    + apply (ho_free h F A HI b t f u Eb). rewrite EF. apply in_app_iff. right. by right.
    + destruct (Hb b t Eb) as [? [?|?]]; unfold apart; lia.
Qed.
(** [take_block] as an update of the maps. *)
Definition taken (h : heap) (pv q sq n nx : Z) : heap :=
  if sq =? n then mk_heap (<[pv := nx]> (ptr h)) (size h) (Some pv) (brk h)
  else mk_heap (ptr h) (<[q + (sq - n) := n]> (<[q := sq - n]> (size h))) (Some pv) (brk h).

Lemma take_block_run h pv q sq n nx : size h !! q = Some sq -> ptr h !! q = Some nx -> is_Some (ptr h !! pv) ->
  is_Some (size h !! (q + (sq - n))) -> take_block pv q n h = Ret (Some (q + (sq - n) + 1)) (taken h pv q sq n nx).
Proof.
  intros Hq Hn Hpv Ha. unfold take_block, taken. erewrite bind_ret by (by apply get_size_ok).
  destruct (Z.eqb_spec sq n) as [->|Hne].
  - erewrite bind_ret.
    2:{ erewrite bind_ret by (by apply get_ptr_ok). erewrite bind_ret by (by apply set_ptr_ok). reflexivity. }
    by replace (q + (n - n)) with q by lia.
  - assert (Ha' : is_Some (<[q := sq - n]> (size h) !! (q + (sq - n)))).
    { destruct (decide (q = q + (sq - n))) as [<-|]; [rewrite lookup_insert_eq; by eexists|by rewrite lookup_insert_ne]. }
    erewrite bind_ret.
    2:{ erewrite bind_ret by (apply set_size_ok; by eexists). erewrite bind_ret by (by apply set_size_ok). reflexivity. }
    done.
Qed.

Lemma taken_seg h F A l pv spv q sq n r : heap_ok h F A -> nodes F = l ++ (pv, spv) :: (q, sq) :: r -> 1 <= n <= sq ->
  seg (taken h pv q sq n (next_of r base)) base ((l ++ [(pv, spv)]) ++ rest_of q sq n ++ r) base.
Proof using base_lo.
  intros HI Hs Hn. pose proof (ho_seg h F A HI) as Hseg. pose proof (ho_order h F A HI) as Ho.
  destruct (nodes_split2 F l pv spv q sq r Hs) as (X & EF & HX). rewrite EF in Ho.
  apply ordered_app in Ho as [Ho1 Ho2]. simpl in Ho2. destruct Ho2 as (Hxq & Hsq & Hor).
  assert (HX' : forall f t, In (f, t) (l ++ [(pv, spv)]) -> f < q).
  { intros f t Hi. rewrite <- HX in Hi. destruct Hi as [[= <- <-]|Hi].
    - pose proof (ordered_le _ _ _ Ho1). lia.
    - apply (ordered_in _ _ _ _ _ Ho1) in Hi. lia. }
  assert (Hr' : forall f t, In (f, t) r -> q + sq < f) by (intros f t Hi; apply (ordered_in _ _ _ _ _ Hor) in Hi; lia).
  assert (Hpvq : pv < q) by (apply (HX' pv spv), in_app_iff; right; by left).
  assert (Hl' : forall f t, In (f, t) l -> f < pv).
  { pose proof (nodes_asc X _ Ho1) as Ha. intros f t Hi. destruct (nodes_split X l pv spv [] HX) as [(-> & _)|(l' & -> & ->)]; [done|].
    apply asc_suffix in Ha as Hb. destruct Hi as [[= <- <-]|Hi]; [lia|]. apply in_split in Hi as (u & w & ->).
    rewrite <- app_assoc in Ha. apply asc_suffix in Ha as [_ Ha]. by apply asc_suffix in Ha as [? _]. }
  rewrite Hs in Hseg. apply um_seg_app in Hseg as (m & Hsl & Hseg). apply seg_head in Hseg as (-> & Hps & Hpn & Hseg).
  simpl in Hpn, Hseg. apply seg_head in Hseg as (_ & Hqs & Hqn & Hsr).
  rewrite <- app_assoc. apply um_seg_app. exists pv. unfold taken, rest_of. destruct (Z.eqb_spec sq n) as [->|Hne].
  - split.
    + apply (seg_other h); [|done]. intros f t Hi. apply Hl' in Hi. simpl. by rewrite lookup_insert_ne by lia.
    + simpl. rewrite lookup_insert_eq. split_and!; [done..|]. exists (next_of r base). split; [done|].
      apply (seg_other h); [|done]. intros f t Hi. apply Hr' in Hi. simpl. by rewrite lookup_insert_ne by lia.
  - assert (Hsize : forall u, u < q \/ q + sq < u -> <[q + (sq - n) := n]> (<[q := sq - n]> (size h)) !! u = size h !! u).
    { intros u Hu. by rewrite !lookup_insert_ne by lia. }
    split.
    + apply (seg_other h); [|done]. intros f t Hi. simpl. split; [done|]. apply Hsize. left. apply (HX' f t), in_app_iff. by left.
    + simpl. rewrite (Hsize pv) by lia. split_and!; [done..|]. exists q. split; [done|].
      rewrite lookup_insert_ne, lookup_insert_eq by lia. split_and!; [done..|]. exists (next_of r base). split; [done|].
      apply (seg_other h); [|done]. intros f t Hi. simpl. split; [done|]. apply Hsize. right. by apply (Hr' f t).
Qed.

Lemma used_not_node h F A b t u x : heap_ok h F A -> A !! b = Some t -> In (u, x) (nodes F) -> b <= u < b + t -> False.
Proof using base_lo.
  intros HI Eb Hi Hu. destruct (ho_size h F A HI b t Eb) as (_ & ? & ? & _). destruct Hi as [[= <- <-]|Hi]; [lia|].
  pose proof (ordered_in _ _ _ _ _ (ho_order h F A HI) Hi). destruct (ho_free h F A HI b t u x Eb Hi); lia.
Qed.

Lemma taken_heap_ok h F A l pv spv q sq n r X : heap_ok h F A -> nodes F = l ++ (pv, spv) :: (q, sq) :: r -> 1 <= n <= sq ->
  F = X ++ (q, sq) :: r -> nodes X = l ++ [(pv, spv)] ->
  size h !! q = Some sq ->
  heap_ok (taken h pv q sq n (next_of r base)) (X ++ rest_of q sq n ++ r) (<[q + (sq - n) := n]> A).
Proof using base_lo.
  intros HI Hs Hn EF HX Hqs. pose proof (taken_seg h F A l pv spv q sq n r HI Hs Hn) as Hseg'.
  destruct (taken_apart h F A X q sq n r HI EF Hn) as (Ha1 & Ha2 & HaA & HAa & HFa & HAF).
  set (a := q + (sq - n)) in *. set (h' := taken _ _ _ _ _ _) in *.
  assert (Hbrk : brk h' = brk h) by (unfold h', taken; by destruct (sq =? n)).
  assert (HqN : In (q, sq) (nodes F)) by (rewrite Hs; apply in_app_iff; right; right; by left).
  constructor.
  - rewrite <- HX in Hseg'. exact Hseg'.
  - rewrite Hbrk. apply rest_order; [|done]. rewrite <- EF. apply HI.
  - rewrite Hbrk. apply HI.
  - exists pv, spv. split; [unfold h', taken; by destruct (sq =? n)|].
    change (nodes (X ++ rest_of q sq n ++ r)) with (nodes X ++ rest_of q sq n ++ r). rewrite HX.
    apply in_app_iff. left. apply in_app_iff. right. by left.
  - rewrite Hbrk. intros u Hu. destruct (ho_mem h F A HI u Hu) as [H1 H2]. unfold h', taken.
    destruct (sq =? n); simpl; (split; [|]); try done; repeat (apply lookup_insert_is_Some'; right); done.
  - intros b t Eb. rewrite Hbrk. destruct (decide (b = a)) as [->|Hba].
    + rewrite lookup_insert_eq in Eb. injection Eb as <-. split_and!; try lia. unfold h', taken.
      destruct (Z.eqb_spec sq n) as [->|]; simpl; [|by rewrite lookup_insert_eq]. unfold a. by replace (q + (n - n)) with q by lia.
    + rewrite lookup_insert_ne in Eb by done. destruct (ho_size h F A HI b t Eb) as (Hb & ? & ? & ?). split_and!; try done.
      assert (b <> q) by (intros ->; eapply (used_not_node h F A q t q sq); try done; lia).
      unfold h', taken. destruct (sq =? n); simpl; [done|]. by rewrite !lookup_insert_ne by done.
  - intros b t f u Eb Hi. destruct (decide (b = a)) as [->|Hba].
    + rewrite lookup_insert_eq in Eb. simplify_eq. by apply HFa.
    + rewrite lookup_insert_ne in Eb by done. by apply HAF.
  - intros b t c u Eb Ec Hbc. destruct (decide (b = a)) as [->|Hba], (decide (c = a)) as [->|Hca]; try done.
    + rewrite lookup_insert_eq in Eb. rewrite lookup_insert_ne in Ec by done. simplify_eq. destruct (HAa c u Ec); unfold apart; lia.
    + rewrite lookup_insert_eq in Ec. rewrite lookup_insert_ne in Eb by done. simplify_eq. by apply HAa.
    + rewrite lookup_insert_ne in Eb, Ec by done. by apply (ho_used h F A HI).
Qed.

Lemma take_block_ok h F A l pv spv q sq n r : heap_ok h F A -> nodes F = l ++ (pv, spv) :: (q, sq) :: r -> 1 <= n <= sq ->
  exists h' F' a, take_block pv q n h = Ret (Some (a + 1)) h' /\ A !! a = None /\ heap_ok h' F' (<[a := n]> A) /\
  brk h' = brk h /\ lo <= a /\ (forall b t, A !! b = Some t -> apart b t a n) /\ untouched F a h h'.
Proof using base_lo.
  intros HI Hs Hn. destruct (nodes_split2 F l pv spv q sq r Hs) as (X & EF & HX).
  destruct (taken_apart h F A X q sq n r HI EF Hn) as (Ha1 & Ha2 & HaA & HAa & _ & _).
  exists (taken h pv q sq n (next_of r base)), (X ++ rest_of q sq n ++ r), (q + (sq - n)).
  pose proof (ho_seg h F A HI) as Hseg. rewrite Hs in Hseg. apply um_seg_app in Hseg as (m & _ & Hseg).
  apply seg_head in Hseg as (-> & _ & Hpn & Hseg). apply seg_head in Hseg as (_ & Hqs & Hqn & _).
  split_and!; try done.
  - apply take_block_run; [done..|by eexists|]. apply (ho_mem h F A HI). lia.
  - by apply (taken_heap_ok h F A l pv spv).
  - unfold taken. by destruct (sq =? n).
  - intros u Hu Hnode. assert (u <> q) by (intros ->; apply (Hnode sq); rewrite Hs; apply in_app_iff; right; right; by left).
    assert (u <> pv) by (intros ->; apply (Hnode spv); rewrite Hs; apply in_app_iff; right; by left).
    unfold taken. destruct (sq =? n); simpl; by rewrite !lookup_insert_ne by done.
Qed.
(** ** Searching the list *)
Section scan.
Variable grant : Z -> bool.
Variables (h : heap) (F : list block) (A : gmap Z Z) (f n : Z).
Hypothesis HI : heap_ok h F A.
Hypothesis Hf : freep h = Some f.
Hypothesis Hn : 1 <= n.

Definition found (m : M heap (option Z)) : Prop :=
  exists l pv spv q sq r, nodes F = l ++ (pv, spv) :: (q, sq) :: r /\ n <= sq /\ m h = take_block pv q n h.
Definition asks (fuel steps : nat) (m : M heap (option Z)) : Prop :=
  exists fuel' sf, (fuel <= fuel' + steps)%nat /\ In (f, sf) (nodes F) /\ sf < n /\
  m h = (o ← morecore lo grant n;
         match o with None => mret None | Some p => q ← get_ptr p; malloc_loop lo grant fuel' n p q end) h.

Lemma asks_more fuel steps fuel2 steps2 m : asks fuel steps m -> (fuel2 + steps <= fuel + steps2)%nat -> asks fuel2 steps2 m.
Proof. intros (fuel' & sf & H1 & H2 & H3 & H4) Hle. exists fuel', sf. split_and!; [lia|done..]. Qed.
Lemma found_ext m1 m2 : m1 h = m2 h -> found m1 -> found m2.
Proof. intros E (l & pv & spv & q & sq & r & H1 & H2 & H3). exists l, pv, spv, q, sq, r. split_and!; [done..|by rewrite <- E]. Qed.
Lemma asks_ext fuel steps m1 m2 : m1 h = m2 h -> asks fuel steps m1 -> asks fuel steps m2.
Proof. intros E (fuel' & sf & H1 & H2 & H3 & H4). exists fuel', sf. split_and!; [done..|by rewrite <- E]. Qed.

(** A node that does not fit and is not the last one of the round. *)
Lemma scan_next fuel pv q t r l : nodes F = l ++ (q, t) :: r -> t < n -> q <> f ->
  malloc_loop lo grant (S fuel) n pv q h = malloc_loop lo grant fuel n q (next_of r base) h.
Proof using HI Hf.
  intros Hs Ht Hq. pose proof (ho_seg h F A HI) as Hseg. rewrite Hs in Hseg. apply um_seg_app in Hseg as (m & _ & Hseg).
  apply seg_head in Hseg as (_ & Hz & Hnx & _). cbn [malloc_loop]. erewrite bind_ret by (by apply get_size_ok).
  rewrite Z.geb_leb, (proj2 (Z.leb_gt n t)) by lia. unfold get_freep. erewrite bind_ret by (by rewrite Hf).
  rewrite (proj2 (Z.eqb_neq q f)) by done. by erewrite bind_ret by (by apply get_ptr_ok).
Qed.
Lemma scan_last fuel pv t r l : nodes F = l ++ (f, t) :: r -> t < n -> asks (S fuel) 1 (malloc_loop lo grant (S fuel) n pv f).
Proof using HI Hf.
  intros Hs Ht. pose proof (ho_seg h F A HI) as Hseg. rewrite Hs in Hseg. apply um_seg_app in Hseg as (m & _ & Hseg).
  apply seg_head in Hseg as (_ & Hz & Hnx & _). exists fuel, t. split_and!; [lia| |done|].
  - rewrite Hs. apply in_app_iff. right. by left.
  - cbn [malloc_loop]. erewrite bind_ret by (by apply get_size_ok).
    rewrite Z.geb_leb, (proj2 (Z.leb_gt n t)) by lia. unfold get_freep at 1. erewrite bind_ret by (by rewrite Hf).
    by rewrite Z.eqb_refl.
Qed.
Lemma scan_fit fuel pv spv q t r l : nodes F = l ++ (pv, spv) :: (q, t) :: r -> n <= t ->
  found (malloc_loop lo grant (S fuel) n pv q).
Proof using HI.
  intros Hs Ht. exists l, pv, spv, q, t, r. split_and!; [done..|]. pose proof (ho_seg h F A HI) as Hseg.
  change ((pv, spv) :: (q, t) :: r) with ([(pv, spv)] ++ (q, t) :: r) in Hs. rewrite app_assoc in Hs.
  rewrite Hs in Hseg. apply um_seg_app in Hseg as (m & _ & Hseg). apply seg_head in Hseg as (_ & Hz & _ & _).
  cbn [malloc_loop]. erewrite bind_ret by (by apply get_size_ok). by rewrite Z.geb_leb, (proj2 (Z.leb_le n t)) by lia.
Qed.

(** From a node towards [freep]. *)
Lemma scan_to r l pv spv fuel : nodes F = l ++ (pv, spv) :: r -> (exists sf, In (f, sf) r) -> (length r < fuel)%nat ->
  found (malloc_loop lo grant fuel n pv (next_of r base)) \/ asks fuel (length r) (malloc_loop lo grant fuel n pv (next_of r base)).
Proof using HI Hf.
  revert l pv spv fuel. induction r as [|[q t] r IH]; intros l pv spv fuel Hs [sf Hi] Hfuel; [done|].
  destruct fuel as [|fuel]; [lia|]. cbn [next_of]. destruct (Z.le_gt_cases n t) as [Hfit|Hno]; [left; by eapply scan_fit|].
  assert (Hs' : nodes F = (l ++ [(pv, spv)]) ++ (q, t) :: r) by (by rewrite <- app_assoc). simpl in Hfuel.
  destruct (decide (q = f)) as [->|Hqf].
  - right. apply (asks_more (S fuel) 1); [by eapply scan_last|simpl; lia].
  - destruct Hi as [[= -> ->]|Hi]; [done|].
    pose proof (scan_next fuel pv q t r _ Hs' ltac:(lia) Hqf) as E. symmetry in E.
    destruct (IH _ q t fuel Hs' (ex_intro _ sf Hi) ltac:(lia)) as [H|H]; [left; by apply (found_ext _ _ E)|].
    right. apply (asks_ext _ _ _ _ E) in H. apply (asks_more _ _ _ _ _ H). simpl. lia.
Qed.

(** Once round, from [freep] on. *)
Lemma scan_round r l pv spv fuel : nodes F = l ++ (pv, spv) :: r -> (forall sf, ~ In (f, sf) r) ->
  (length r + S (length F) < fuel)%nat ->
  found (malloc_loop lo grant fuel n pv (next_of r base)) \/
  asks fuel (length r + S (length F)) (malloc_loop lo grant fuel n pv (next_of r base)).
Proof using HI Hf Hn.
  revert l pv spv fuel. induction r as [|[q t] r IH]; intros l pv spv fuel Hs Hno Hfuel; (destruct fuel as [|fuel]; [lia|]).
  - cbn [next_of]. destruct (decide (base = f)) as [Eb|Hbf].
    + right. apply (asks_more (S fuel) 1); [|simpl; lia]. rewrite Eb. apply (scan_last fuel pv 0 F []); [by rewrite <- Eb|lia].
    + pose proof (scan_next fuel pv base 0 F [] eq_refl ltac:(lia) Hbf) as E. symmetry in E.
      destruct (ho_freep h F A HI) as (f' & sf & Hf' & Hi). assert (f' = f) as -> by congruence.
      destruct Hi as [[= ? _]|Hi]; [done|]. simpl in Hfuel.
      destruct (scan_to F [] base 0 fuel eq_refl (ex_intro _ sf Hi) ltac:(lia)) as [H|H]; [left; by apply (found_ext _ _ E)|].
      right. apply (asks_ext _ _ _ _ E) in H. apply (asks_more _ _ _ _ _ H). simpl. lia.
  - cbn [next_of]. simpl in Hfuel. destruct (Z.le_gt_cases n t) as [Hfit|Hlt]; [left; by eapply scan_fit|].
    assert (Hs' : nodes F = (l ++ [(pv, spv)]) ++ (q, t) :: r) by (by rewrite <- app_assoc).
    assert (Hqf : q <> f) by (intros ->; apply (Hno t); by left).
    pose proof (scan_next fuel pv q t r _ Hs' ltac:(lia) Hqf) as E. symmetry in E.
    destruct (IH _ q t fuel Hs') as [H|H]; [intros sf Hi; apply (Hno sf); by right|lia|left; by apply (found_ext _ _ E)|].
    right. apply (asks_ext _ _ _ _ E) in H. apply (asks_more _ _ _ _ _ H). simpl. lia.
Qed.
End scan.

Lemma seg_size h p l q a s : seg h p l q -> In (a, s) l -> size h !! a = Some s.
Proof.
  revert p. induction l as [|[b t] l IH]; intros p; simpl; [done|]. intros (-> & Hs & n & _ & Hl) [[= -> ->]|Hi]; [done|by eapply IH].
Qed.
Lemma node_after F l p s r y : ordered (lo - 1) F y -> nodes F = l ++ (p, s) :: r -> forall sf, ~ In (p, sf) r.
Proof using base_lo.
  intros Ho Hs sf Hi. pose proof (nodes_asc F y Ho) as Ha.
  destruct (nodes_split F l p s r Hs) as [(-> & -> & -> & ->)|(l' & -> & ->)].
  - apply (asc_in _ _ _ _ Ha) in Hi. lia.
  - apply asc_suffix in Ha as [_ Ha]. apply (asc_in _ _ _ _ Ha) in Hi. lia.
Qed.

(** ** New memory *)
Lemma fresh_units_lookup a n m u : 
  fresh_units a n m !! u = if decide (a <= u < a + Z.of_nat n) then Some 0 else m !! u.
Proof.
  revert a m. induction n as [|n IH]; intros a m; cbn [fresh_units].
  - case_decide; [lia|done].
  - rewrite IH. destruct (decide (u = a)) as [->|Hne].
    + by rewrite decide_False, lookup_insert_eq, decide_True by lia.
    + rewrite lookup_insert_ne by done. repeat case_decide; done || lia.
Qed.

Section more.
Variable grant : Z -> bool.
(** The kernel does not give a process more than the address space. *)
Hypothesis grant_bound : forall b, grant b = true -> b - lo < 2 ^ 32.

Lemma um_grown_ok h F A k : heap_ok h F A -> 1 <= k ->
  let h1 := mk_heap (fresh_units (brk h) (Z.to_nat k) (ptr h))
              (<[brk h := k]> (fresh_units (brk h) (Z.to_nat k) (size h))) (freep h) (brk h + k) in
  heap_ok h1 F A /\ loose h1 F A (brk h) k /\
  forall u, u < brk h -> ptr h1 !! u = ptr h !! u /\ size h1 !! u = size h !! u.
Proof using base_lo.
  intros HI Hk h1. pose proof (ho_brk h F A HI) as Hlo. pose proof (ho_order h F A HI) as Ho.
  assert (Hlow : forall u, u < brk h -> ptr h1 !! u = ptr h !! u /\ size h1 !! u = size h !! u).
  { intros u Hu. simpl. rewrite lookup_insert_ne, !fresh_units_lookup, !decide_False by lia. done. }
  assert (HN : forall a s, In (a, s) (nodes F) -> a < brk h).
  { intros a s [[= <- <-]|Hi]; [lia|]. apply (ordered_in _ _ _ _ _ Ho) in Hi. lia. }
  split_and!; [constructor|constructor|done]; cbn [h1 ptr size freep brk]; try (by apply HI).
  - apply (seg_other h); [|apply HI]. intros a s Hi. by apply Hlow, (HN a s).
  - apply (ordered_mono _ _ _ _ Ho). lia.
  - lia.
  - intros u Hu. destruct (Z.lt_ge_cases u (brk h)) as [Hl|Hge].
    + destruct (Hlow u Hl) as [E1 E2]. simpl in E1, E2. rewrite E1, E2. apply (ho_mem h F A HI). lia.
    + split; [rewrite fresh_units_lookup, decide_True by lia; by eexists|]. apply lookup_insert_is_Some'. right.
      rewrite fresh_units_lookup, decide_True by lia. by eexists.
  - intros a s Ea. destruct (ho_size h F A HI a s Ea) as (Hs & ? & ? & ?). destruct (Hlow a ltac:(lia)) as [_ E]. simpl in E.
    rewrite E. split_and!; [done..|lia].
  - lia.
  - by rewrite lookup_insert_eq.
  - intros f t Hi. apply (ordered_in _ _ _ _ _ Ho) in Hi. right. lia.
  - intros a s Ea. destruct (ho_size h F A HI a s Ea) as (_ & ? & ? & ?). right. lia.
Qed.

Lemma sbrk_run k h : 0 <= k -> sbrk grant (k * 8) h =
  if grant (brk h + k) then
    Ret (Some (brk h)) (mk_heap (fresh_units (brk h) (Z.to_nat k) (ptr h)) (fresh_units (brk h) (Z.to_nat k) (size h))
                          (freep h) (brk h + k))
  else Ret None h.
Proof.
  intros Hk. unfold sbrk. rewrite (proj2 (Z.ltb_ge (k * 8) 0)) by lia. erewrite bind_ret by reflexivity. cbv zeta.
  rewrite Z.div_mul by lia. by destruct (grant (brk h + k)).
Qed.

(** [morecore] asks for a block of at least [n] units and puts it in the list. *)
Lemma morecore_ok h F A n : heap_ok h F A -> 1 <= n < 2 ^ 28 ->
  (morecore lo grant n h = Ret None h /\ grant (brk h + Z.max n 4096) = false) \/
  exists h' F' L p s R, morecore lo grant n h = Ret (Some p) h' /\ heap_ok h' F' A /\ brk h' - lo < 2 ^ 32 /\
  freep h' = Some p /\ nodes F' = L ++ (p, s) :: R /\ (n <= s \/ exists q t R', R = (q, t) :: R' /\ n <= t) /\
  (length F' <= S (length F))%nat /\
  forall u, u < brk h -> (forall s, ~ In (u, s) (nodes F)) -> ptr h' !! u = ptr h !! u /\ size h' !! u = size h !! u.
Proof using base_lo grant_bound.
  intros HI Hn. unfold morecore. cbv zeta.
  replace (if n <? 4096 then 4096 else n) with (Z.max n 4096) by (destruct (Z.ltb_spec n 4096); lia).
  set (k := Z.max n 4096). assert (Hk : n <= k /\ 1 <= k < 2 ^ 28) by lia. clearbody k.
  rewrite u32_small, s32_small by lia. pose proof (sbrk_run k h ltac:(lia)) as Es.
  destruct (grant (brk h + k)) eqn:Hg; [|left; by rewrite (bind_ret _ _ _ _ _ Es)].
  right. destruct (um_grown_ok h F A k HI ltac:(lia)) as (HI1 & HL1 & Hlow).
  pose proof (grant_bound _ Hg) as Hb.
  destruct (free_core _ F A (brk h) k HI1 HL1 Hb) as (h' & F' & L & p & s & R & E & HI' & Hbrk & Hf & HN & Hroom & Hun & Hlen).
  exists h', F', L, p, s, R. split_and!; try done.
  - rewrite (bind_ret _ _ _ _ _ Es). cbv beta iota.
    erewrite bind_ret by (apply set_size_ok; simpl; rewrite fresh_units_lookup, decide_True by lia; by eexists).
    rewrite (bind_ret _ _ _ _ _ E). unfold get_freep. by erewrite bind_ret by (by rewrite Hf).
  - rewrite Hbrk. done.
  - destruct Hroom as [|(q & t & R' & -> & ?)]; [left; lia|right]. exists q, t, R'. split; [done|lia].
  - intros u Hu Hnode. destruct (Hun u ltac:(lia) Hnode) as [-> ->]. by apply Hlow.
Qed.
(** ** [malloc] *)
Lemma second_scan h F A L p s R n fuel : heap_ok h F A -> freep h = Some p -> 1 <= n -> nodes F = L ++ (p, s) :: R ->
  (n <= s \/ exists q t R', R = (q, t) :: R' /\ n <= t) -> (length R + S (length F) < fuel)%nat ->
  found h F n (malloc_loop lo grant fuel n p (next_of R base)).
Proof using base_lo.
  intros HI Hf Hn Hs Hroom Hfuel. destruct fuel as [|fuel]; [lia|]. destruct Hroom as [Hfit|(q & t & R' & -> & Ht)].
  - destruct (scan_round grant h F A p n HI Hf Hn R L p s (S fuel) Hs) as [|(fuel' & sf & _ & Hi & Hlt & _)]; [|lia|done|].
    { by apply (node_after F L p s R (brk h)), Hs; apply HI. }
    exfalso. apply (seg_size _ _ _ _ _ _ (ho_seg h F A HI)) in Hi.
    assert (Hi2 : In (p, s) (nodes F)) by (rewrite Hs; apply in_app_iff; right; by left).
    apply (seg_size _ _ _ _ _ _ (ho_seg h F A HI)) in Hi2. assert (sf = s) by congruence. lia.
  - by apply (scan_fit grant h F A n HI fuel p s q t R' L).
Qed.

(** What a call of [malloc] that returned the block at [a] has done. *)
Definition got (n : Z) (h h' : heap) (A : gmap Z Z) (a : Z) : Prop :=
  A !! a = None /\ lo <= a /\ (forall b t, A !! b = Some t -> apart b t a n) /\
  exists F', heap_ok h' F' (<[a := n]> A) /\ brk h' - lo < 2 ^ 32 /\ same_data A h h'.

Lemma untouched_data h F A a n h' : heap_ok h F A -> lo <= a -> (forall b t, A !! b = Some t -> apart b t a n) -> 1 <= n ->
  untouched F a h h' -> same_data A h h'.
Proof using base_lo.
  intros HI Ha Hap Hn Hun b s u Eb Hu. apply Hun.
  - intros ->. destruct (Hap b s Eb); lia.
  - intros x Hi. eapply (used_not_node h F A b s u x); try done. lia.
Qed.

Lemma malloc_loop_ok h F A L p s R n fuel : heap_ok h F A -> brk h - lo < 2 ^ 32 -> freep h = Some p -> 1 <= n < 2 ^ 28 ->
  nodes F = L ++ (p, s) :: R -> (4 * length F + 8 <= fuel)%nat ->
  (malloc_loop lo grant fuel n p (next_of R base) h = Ret None h /\ grant (brk h + Z.max n 4096) = false) \/
  exists a h', malloc_loop lo grant fuel n p (next_of R base) h = Ret (Some (a + 1)) h' /\ got n h h' A a.
Proof using base_lo grant_bound.
  intros HI Hbrk Hf Hn Hs Hfuel.
  assert (HlR : (length R <= length F)%nat).
  { apply (f_equal length) in Hs. simpl in Hs. rewrite length_app in Hs. simpl in Hs. lia. }
  pose proof (node_after F L p s R (brk h) (ho_order h F A HI) Hs) as Hno.
  destruct (scan_round grant h F A p n HI Hf ltac:(lia) R L p s fuel Hs Hno ltac:(lia))
    as [(l & pv & spv & q & sq & r & Hs' & Hq & E)|(fuel' & sf & Hfu & _ & _ & E)].
  - right. destruct (take_block_ok h F A l pv spv q sq n r HI Hs' ltac:(lia)) as (h' & F' & a & E' & Ha & HI' & Hb' & Hlo & Hap & Hun).
    exists a, h'. rewrite E, E'. split; [done|]. split_and!; [done..|]. exists F'. split_and!; [done|lia|].
    eapply untouched_data; try done. lia.
  - destruct (morecore_ok h F A n HI Hn) as [[E1 Hg]|(h1 & F1 & L1 & p1 & s1 & R1 & E1 & HI1 & Hb1 & Hf1 & Hs1 & Hroom & Hlen & Hun)].
    { left. rewrite E, (bind_ret _ _ _ _ _ E1). done. }
    right. assert (HlR1 : (length R1 <= length F1)%nat).
    { apply (f_equal length) in Hs1. simpl in Hs1. rewrite length_app in Hs1. simpl in Hs1. lia. }
    destruct (second_scan h1 F1 A L1 p1 s1 R1 n fuel' HI1 Hf1 ltac:(lia) Hs1 Hroom ltac:(lia))
      as (l & pv & spv & q & sq & r & Hs' & Hq & E2).
    destruct (take_block_ok h1 F1 A l pv spv q sq n r HI1 Hs' ltac:(lia)) as (h' & F' & a & E' & Ha & HI' & Hb' & Hlo & Hap & Hun').
    exists a, h'. pose proof (ho_seg h1 F1 A HI1) as Hseg. rewrite Hs1 in Hseg. apply um_seg_app in Hseg as (m & _ & Hseg).
    apply seg_head in Hseg as (_ & _ & Hnx & _).
    rewrite E, (bind_ret _ _ _ _ _ E1). erewrite bind_ret by (by apply get_ptr_ok). rewrite E2, E'. split; [done|].
    split_and!; [done..|]. exists F'. split_and!; [done|lia|].
    assert (Hd : same_data A h1 h') by (eapply untouched_data; try done; lia).
    intros b t u Eb Hu. destruct (Hd b t u Eb Hu) as [-> ->]. destruct (ho_size h F A HI b t Eb) as (_ & ? & ? & ?).
    apply Hun; [lia|]. intros x Hi. eapply (used_not_node h F A b t u x); try done. lia.
Qed.

(** The allocator before the first call, or with its list. *)
Definition umalloc_inv (h : heap) (A : gmap Z Z) : Prop :=
  brk h - lo < 2 ^ 32 /\
  ((freep h = None /\ A = ∅ /\ lo <= brk h /\ is_Some (ptr h !! base) /\ is_Some (size h !! base) /\
    forall u, lo <= u < brk h -> is_Some (ptr h !! u) /\ is_Some (size h !! u)) \/
   exists F, heap_ok h F A).

Lemma units_ok nbytes : 0 <= nbytes < 2 ^ 31 - 16 -> 1 <= units nbytes < 2 ^ 28 /\ nbytes <= 8 * (units nbytes - 1).
Proof.
  intros Hn. unfold units. rewrite u32_small by lia. pose proof (Z.div_mod (nbytes + 8 - 1) 8 ltac:(lia)).
  pose proof (Z.mod_pos_bound (nbytes + 8 - 1) 8 ltac:(lia)). lia.
Qed.

Lemma first_call_ok h : freep h = None -> lo <= brk h -> is_Some (ptr h !! base) -> is_Some (size h !! base) ->
  (forall u, lo <= u < brk h -> is_Some (ptr h !! u) /\ is_Some (size h !! u)) ->
  let h1 := mk_heap (<[base := base]> (ptr h)) (<[base := 0]> (size h)) (Some base) (brk h) in
  (set_ptr base base;; set_freep base;; set_size base 0) h = Ret tt h1 /\ heap_ok h1 [] ∅.
Proof using base_lo.
  intros Hf Hlo Hp Hs Hmem h1. split.
  - erewrite bind_ret by (by apply set_ptr_ok). erewrite bind_ret by reflexivity. by rewrite set_size_ok.
  - constructor; simpl; try done; try lia.
    + rewrite !lookup_insert_eq. split_and!; try done. by exists base.
    + exists base, 0. split; [done|by left].
    + intros u Hu. rewrite !lookup_insert_ne by lia. by apply Hmem.
Qed.

Lemma malloc_ok h A nbytes : umalloc_inv h A -> 0 <= nbytes < 2 ^ 31 - 16 ->
  (exists h', malloc base lo grant nbytes h = Ret None h' /\ umalloc_inv h' A /\ same_data A h h' /\
     grant (brk h + Z.max (units nbytes) 4096) = false) \/
  exists a h', malloc base lo grant nbytes h = Ret (Some (a + 1)) h' /\ got (units nbytes) h h' A a.
Proof using base_lo grant_bound.
  intros [Hbrk Hcase] Hn. destruct (units_ok nbytes Hn) as [Hu _].
  assert (exists h1 F, (match freep h with Some _ => skip | None => set_ptr base base;; set_freep base;; set_size base 0 end) h
    = Ret tt h1 /\ heap_ok h1 F A /\ brk h1 = brk h /\ same_data A h h1) as (h1 & F & E1 & HI & Hb1 & Hd1).
  { destruct Hcase as [(Hf & -> & Hlo & Hp & Hs & Hmem)|[F HI]].
    - rewrite Hf. destruct (first_call_ok h Hf Hlo Hp Hs Hmem) as [E HI]. by eexists _, [].
    - destruct (ho_freep h F A HI) as (p & s & -> & _). by exists h, F. }
  destruct (ho_freep h1 F A HI) as (p & s & Hf & Hin). apply in_split in Hin as (L & R & Hs).
  pose proof (ho_seg h1 F A HI) as Hseg. rewrite Hs in Hseg. apply um_seg_app in Hseg as (m & _ & Hseg).
  apply seg_head in Hseg as (_ & _ & Hnx & _). pose proof (ordered_length _ _ _ (ho_order h1 F A HI)) as Hlen.
  assert (Em : malloc base lo grant nbytes h = malloc_loop lo grant (2 * rounds lo h1) (units nbytes) p (next_of R base) h1).
  { unfold malloc. cbv zeta. erewrite bind_ret by reflexivity. rewrite (bind_ret _ _ _ _ _ E1). unfold get_freep.
    erewrite bind_ret by (by rewrite Hf). erewrite bind_ret by (by apply get_ptr_ok). by erewrite bind_ret by reflexivity. }
  rewrite Em. destruct (malloc_loop_ok h1 F A L p s R (units nbytes) (2 * rounds lo h1) HI ltac:(lia) Hf Hu Hs)
    as [[E2 Hg]|(a & h' & E2 & Ha & Hlo & Hap & F' & HI' & Hb' & Hd')].
  - unfold rounds. lia.
  - left. exists h1. rewrite <- Hb1. split_and!; [done| |done|done]. split; [lia|]. right. by exists F.
  - right. exists a, h'. split; [done|]. split_and!; try done. exists F'. split_and!; try done.
    intros b t u Eb Hbu. destruct (Hd' b t u Eb Hbu) as [-> ->]. by apply (Hd1 b t u).
Qed.

Lemma free_ok h A a s : umalloc_inv h A -> A !! a = Some s ->
  exists h', free lo (a + 1) h = Ret tt h' /\ umalloc_inv h' (delete a A) /\ same_data (delete a A) h h'.
Proof using base_lo.
  intros [Hbrk [(_ & -> & _)|[F HI]]] Ea; [done|].
  assert (HI0 : heap_ok h F (delete a A)).
  { constructor; try (by apply HI).
    - intros b t [_ Eb]%lookup_delete_Some. by apply HI.
    - intros b t f u [_ Eb]%lookup_delete_Some. by apply HI.
    - intros b t c u [_ Eb]%lookup_delete_Some [_ Ec]%lookup_delete_Some. by apply HI. }
  destruct (ho_size h F A HI a s Ea) as (Hs & H1 & Hlo & Hend).
  assert (HL : loose h F (delete a A) a s).
  { constructor; [done..| |].
    - intros f t Hi. by apply (ho_free h F A HI).
    - intros b t [Hne Eb]%lookup_delete_Some. apply (ho_used h F A HI a s b t); done. }
  destruct (free_core h F (delete a A) a s HI0 HL Hbrk) as (h' & F' & L & p & s' & R & E & HI' & Hb' & _ & _ & _ & Hun & _).
  exists h'. split; [done|]. split; [split; [lia|right; by exists F']|].
  apply (untouched_data h F (delete a A) a s); try done. intros b t Eb. destruct (lo_used _ _ _ _ _ HL b t Eb); unfold apart; lia.
Qed.

(** The program stores into a unit of one of its blocks. *)
Lemma um_store_ok h A a s u p z : umalloc_inv h A -> A !! a = Some s -> a < u < a + s ->
  umalloc_inv (mk_heap (<[u := p]> (ptr h)) (<[u := z]> (size h)) (freep h) (brk h)) A.
Proof using base_lo.
  intros [Hbrk [(_ & -> & _)|[F HI]]] Ea Hu; [done|]. split; [done|]. right. exists F.
  assert (HN : forall v x, In (v, x) (nodes F) -> v <> u).
  { intros v x Hi ->. apply (used_not_node h F A a s u x HI Ea Hi). lia. }
  constructor; cbn [ptr size freep brk]; try (by apply HI).
  - apply (seg_other h); [|apply HI]. intros v x Hi. simpl. by rewrite !lookup_insert_ne by (apply not_eq_sym, (HN v x Hi)).
  - intros v Hv. destruct (ho_mem h F A HI v Hv). split; apply lookup_insert_is_Some'; by right.
  - intros b t Eb. destruct (ho_size h F A HI b t Eb) as (Hb & ? & ? & ?). split_and!; try done.
    rewrite lookup_insert_ne; [done|]. intros ->. destruct (decide (b = a)) as [->|Hne]; [lia|].
    destruct (ho_used h F A HI b t a s Eb Ea Hne); lia.
Qed.
End more.
End inv.

(** The heap of a program that has just started. *)
Definition heap_start (base lo : Z) : heap := mk_heap {[base := 0]} {[base := 0]} None lo.

(** C37. The allocator of user programs.  Whatever blocks [A] (address and size
    in units) the program holds and whatever it has stored in them: [malloc]
    returns; it gives a block of at least the requested number of bytes that
    meets no block in use, or null when the kernel refuses more memory for a
    list without a fitting block; [free] of a block in use returns and gives
    exactly that block back; neither changes a word of the blocks that stay in
    use.  The free blocks stay in address order, disjoint from the blocks in use
    and joined whenever they touch (the invariant, which also survives every
    store of the program into its own blocks). *)
Theorem user_allocator base lo grant (Hb : base < lo) (Hg : forall b, grant b = true -> b - lo < 2 ^ 32) :
  umalloc_inv base lo (heap_start base lo) ∅ /\
  forall h A, umalloc_inv base lo h A ->
  (forall nbytes, 0 <= nbytes < 2 ^ 31 - 16 ->
     (exists h', malloc base lo grant nbytes h = Ret None h' /\ umalloc_inv base lo h' A /\ same_data A h h' /\
        grant (brk h + Z.max (units nbytes) 4096) = false) \/
     (exists a h', malloc base lo grant nbytes h = Ret (Some (a + 1)) h' /\ nbytes <= 8 * (units nbytes - 1) /\
        A !! a = None /\ (forall b t, A !! b = Some t -> apart b t a (units nbytes)) /\
        umalloc_inv base lo h' (<[a := units nbytes]> A) /\ same_data A h h')) /\
  (forall a s, A !! a = Some s ->
     (exists h', free lo (a + 1) h = Ret tt h' /\ umalloc_inv base lo h' (delete a A) /\ same_data (delete a A) h h') /\
     forall u p z, a < u < a + s ->
       umalloc_inv base lo (mk_heap (<[u := p]> (ptr h)) (<[u := z]> (size h)) (freep h) (brk h)) A).
Proof.
  split.
  - split; [simpl; lia|]. left. simpl. rewrite !lookup_singleton_eq. split_and!; try done; lia.
  - intros h A HI. split.
    + intros nbytes Hn. destruct (malloc_ok base lo Hb grant Hg h A nbytes HI Hn) as [|(a & h' & E & Ha & Hlo & Hap & F & HF & Hbr & Hd)];
        [by left|right]. exists a, h'. split_and!; try done; [by apply units_ok|]. split; [done|]. right. by exists F.
    + intros a s Ea. split; [by apply (free_ok base lo Hb h A a s)|]. intros u p z Hu. by eapply (um_store_ok base lo Hb).
Qed.

(** A block of 100 bytes is taken and given back. *)
Lemma user_allocator_witness :
  exists a h h', malloc 0 1 (fun b => b <? 100000) 100 (heap_start 0 1) = Ret (Some (a + 1)) h /\
  umalloc_inv 0 1 h {[a := 14]} /\ free 1 (a + 1) h = Ret tt h' /\ umalloc_inv 0 1 h' ∅.
Proof.
  assert (Hg : forall b, (b <? 100000) = true -> b - 1 < 2 ^ 32) by (intros b Hb; apply Z.ltb_lt in Hb; lia).
  destruct (user_allocator 0 1 (fun b => b <? 100000) ltac:(lia) Hg) as [H0 H].
  destruct (H _ _ H0) as [Hm _]. destruct (Hm 100 ltac:(lia)) as [(h' & _ & _ & _ & E)|(a & h & E & _ & _ & _ & HI & _)].
  { exfalso. vm_compute in E. discriminate E. }
  change (units 100) with 14 in HI. rewrite insert_empty in HI.
  destruct (H _ _ HI) as [_ Hf]. destruct (Hf a 14) as [(h' & E' & HI' & _) _]; [apply lookup_singleton_eq|].
  exists a, h, h'. split; [exact E|]. split; [exact HI|]. split; [exact E'|]. by rewrite delete_singleton_eq in HI'.
Defined.

(** The computation of the number of units wraps around for requests near the
    end of the address space: a request of 2^32 - 1 bytes is answered with a
    block of one unit, the header, and no room for data. *)
Theorem malloc_size_wraps : units (2 ^ 32 - 1) = 1 /\
  match malloc 0 1 (fun b => b <? 100000) (2 ^ 32 - 1) (heap_start 0 1) with
  | Ret (Some p) h => p = 4097 /\ brk h = 4097
  | _ => False
  end.
Proof. split; [reflexivity|]. vm_compute. split; reflexivity. Qed.
