(* ===== verification/Kbd.v ===== *)
(** * Kbd: project3/xv6-modified/kbd.c and kbd.h, the keyboard

    The controller holds the list of the scan codes that were not read yet; its
    status port shows whether there is one.  [kbdgetc] reads one code, keeps the
    modifiers in [shift] and returns the character, 0 for a key without one or
    -1 when nothing is left.  [kbdintr] hands the characters to the console of
    Console. *)

From Stdlib Require Import ZArith Lia.
From stdpp Require Import base numbers strings option list.
From S2P Require Import Prelude Console.

Local Open Scope Z_scope.

(** ** kbd.h *)
Definition KBS_DIB : Z := 1.
Definition NO : Z := 0.
Definition SHIFT : Z := 1.
Definition CTL : Z := 2.
Definition ALT : Z := 4.
Definition CAPSLOCK : Z := 8.
Definition NUMLOCK : Z := 16.
Definition SCROLLLOCK : Z := 32.
Definition E0ESC : Z := 64.

Definition KEY_HOME : Z := 224.
Definition KEY_END : Z := 225.
Definition KEY_UP : Z := 226.
Definition KEY_DN : Z := 227.
Definition KEY_LF : Z := 228.
Definition KEY_RT : Z := 229.
Definition KEY_PGUP : Z := 230.
Definition KEY_PGDN : Z := 231.
Definition KEY_INS : Z := 232.
Definition KEY_DEL : Z := 233.

(** [C(x)] *)
Definition C (x : Z) : Z := x - 64.

(** An array of 256 bytes with its first elements and designated ones; the rest
    is 0. *)
Definition array (first : list Z) (rest : list (nat * Z)) : list Z :=
  foldl (fun t ix => <[fst ix := u8 (snd ix)]> t) (map u8 first ++ replicate (256 - length first) 0) rest.

Definition shiftcode : list Z :=
  array [] [(29%nat, CTL); (42%nat, SHIFT); (54%nat, SHIFT); (56%nat, ALT); (157%nat, CTL); (184%nat, ALT)].
Definition togglecode : list Z := array [] [(58%nat, CAPSLOCK); (69%nat, NUMLOCK); (70%nat, SCROLLLOCK)].

(** The characters of a string. *)
Definition chars (s : string) : list Z := map (fun a => Z.of_nat (Ascii.nat_of_ascii a)) (String.list_ascii_of_string s).

Definition keypad : list (nat * Z) :=
  [(200%nat, KEY_UP); (208%nat, KEY_DN); (201%nat, KEY_PGUP); (209%nat, KEY_PGDN); (203%nat, KEY_LF); (205%nat, KEY_RT);
   (151%nat, KEY_HOME); (207%nat, KEY_END); (210%nat, KEY_INS); (211%nat, KEY_DEL)].

Definition normalmap : list Z := array
  ([NO; 27] ++ chars "1234567890-=" ++ [8; 9] ++ chars "qwertyuiop[]" ++ [10; NO] ++ chars "asdfghjkl;'`" ++ [NO; 92] ++
   chars "zxcvbnm,./" ++ [NO; 42; NO; 32] ++ replicate 13 NO ++ chars "789-456+1230." ++ replicate 4 NO)
  ([(156%nat, 10); (181%nat, 47)] ++ keypad).
(** The second key of the third row is the double quote. *)
Definition shiftmap : list Z := array
  ([NO; 27] ++ chars "!@#$%^&*()_+" ++ [8; 9] ++ chars "QWERTYUIOP{}" ++ [10; NO] ++ chars "ASDFGHJKL:" ++ [34; 126; NO; 124] ++
   chars "ZXCVBNM<>?" ++ [NO; 42; NO; 32] ++ replicate 13 NO ++ chars "789-456+1230." ++ replicate 4 NO)
  ([(156%nat, 10); (181%nat, 47)] ++ keypad).
Definition ctlmap : list Z := array
  (replicate 16 NO ++ map C (chars "QWERTYUIOP") ++ [NO; NO; 13; NO] ++ map C (chars "ASDFGHJKL") ++ replicate 4 NO ++
   [C 92] ++ map C (chars "ZXCVBNM") ++ [NO; NO; C 47; NO; NO])
  ([(156%nat, 13); (181%nat, C 47)] ++ keypad).

(** ** kbd.c *)
Record kbd := mk_kbd { shift : Z; pending : list Z }.

(** [inb(KBSTATP)] and [inb(KBDATAP)] *)
Definition inb_stat : M kbd Z := gets (fun s => match pending s with [] => 0 | _ => KBS_DIB end).
Definition inb_data : M kbd Z := fun s =>
  match pending s with b :: l => Ret b (mk_kbd (shift s) l) | [] => Stop "no data" end.

(** An entry of a table of 256 bytes; an access outside of it is undefined. *)
Definition table_at (t : list Z) (i : Z) : M kbd Z :=
  if i <? 0 then stop "out of bounds" else from_option "out of bounds" (t !! Z.to_nat i).
Definition set_shift (z : Z) : M kbd unit := modify (fun s => mk_kbd z (pending s)).
Definition get_shift : M kbd Z := gets shift.

Definition charcode : list (list Z) := [normalmap; shiftmap; ctlmap; ctlmap].

(** [c = charcode[shift & (CTL | SHIFT)][data]] and the case of letters. *)
Definition key_char (data : Z) : M kbd Z :=
  shift ← get_shift;
  map ← from_option "out of bounds" (charcode !! Z.to_nat (Z.land shift (Z.lor CTL SHIFT)));
  c ← table_at map data;
  mret (if negb (Z.land shift CAPSLOCK =? 0) then
          (if (97 <=? c) && (c <=? 122) then c + (65 - 97)
           else if (65 <=? c) && (c <=? 90) then c + (97 - 65) else c)
        else c).

(** A key was pressed: the modifiers change, then the character is looked up. *)
Definition key_down (data : Z) : M kbd Z :=
  shift ← get_shift;
  x ← table_at shiftcode data;
  t ← table_at togglecode data;
  set_shift (Z.lxor (Z.lor shift x) t);;
  key_char data.

(** The rest of [kbdgetc] after the code was read. *)
Definition kbd_code (data : Z) : M kbd Z :=
  shift ← get_shift;
  if data =? 224 then
    set_shift (Z.lor shift E0ESC);; mret 0
  else if negb (Z.land data 128 =? 0) then
    let data := if negb (Z.land shift E0ESC =? 0) then data else Z.land data 127 in
    x ← table_at shiftcode data;
    set_shift (Z.ldiff shift (Z.lor x E0ESC));; mret 0
  else if negb (Z.land shift E0ESC =? 0) then
    set_shift (Z.ldiff shift E0ESC);; key_down (Z.lor data 128)
  else key_down data.

Definition kbdgetc : M kbd Z :=
  st ← inb_stat;
  if Z.land st KBS_DIB =? 0 then mret (-1) else
  data ← inb_data;
  kbd_code data.

(** [while((c = getc()) >= 0)] of [consoleintr] with [kbdgetc]: the characters
    it is given.  Each call but the last takes a code from the controller. *)
Fixpoint kbd_drain (fuel : nat) : M kbd (list Z) :=
  match fuel with
  | O => out_of_fuel
  | S fuel =>
      c ← kbdgetc;
      if c <? 0 then mret [] else cs ← kbd_drain fuel; mret (c :: cs)
  end.

(** The keyboard and the console; [kbdintr] returns whether to call [procdump]. *)
Definition kbdintr (k : kbd) (c : console) : outcome (kbd * console) bool :=
  match kbd_drain (S (length (pending k))) k with
  | Ret cs k' => match consoleintr cs c with
                 | Ret b c' => Ret b (k', c')
                 | Stop m => Stop m | Block ch c' => Block ch (k', c') | OutOfFuel => OutOfFuel
                 end
  | Stop m => Stop m | Block ch k' => Block ch (k', c) | OutOfFuel => OutOfFuel
  end.

(** ** What the keys mean *)

(** A key is the number that [kbd.h] gives it: its scan code, and 128 more for
    the keys whose code comes after 0xE0. *)
Inductive kevent := Press (k : nat) | Release (k : nat).
Definition key_of (ev : kevent) : nat := match ev with Press k | Release k => k end.
(** The code 0x60 is not used: its release would read as 0xE0. *)
Definition real_key (k : nat) : bool := (k <? 256)%nat && negb (k mod 128 =? 96)%nat.

Definition codes (ev : kevent) : list Z :=
  match ev with
  | Press k => if (k <? 128)%nat then [Z.of_nat k] else [224; Z.of_nat k - 128]
  | Release k => if (k <? 128)%nat then [Z.of_nat k + 128] else [224; Z.of_nat k]
  end.

Record mods := mk_mods { m_shift : bool; m_ctl : bool; m_alt : bool; m_caps : bool; m_num : bool; m_scroll : bool }.
Definition bit (b : bool) (z : Z) : Z := if b then z else 0.
Definition enc (m : mods) : Z :=
  bit (m_shift m) 1 + bit (m_ctl m) 2 + bit (m_alt m) 4 + bit (m_caps m) 8 + bit (m_num m) 16 + bit (m_scroll m) 32.

(** A modifier key sets its modifier to [b]. *)
Definition hold (b : bool) (k : nat) (m : mods) : mods :=
  match k with
  | 42%nat | 54%nat => mk_mods b (m_ctl m) (m_alt m) (m_caps m) (m_num m) (m_scroll m)
  | 29%nat | 157%nat => mk_mods (m_shift m) b (m_alt m) (m_caps m) (m_num m) (m_scroll m)
  | 56%nat | 184%nat => mk_mods (m_shift m) (m_ctl m) b (m_caps m) (m_num m) (m_scroll m)
  | _ => m
  end.
(** A lock key changes its lock. *)
Definition lock (k : nat) (m : mods) : mods :=
  match k with
  | 58%nat => mk_mods (m_shift m) (m_ctl m) (m_alt m) (negb (m_caps m)) (m_num m) (m_scroll m)
  | 69%nat => mk_mods (m_shift m) (m_ctl m) (m_alt m) (m_caps m) (negb (m_num m)) (m_scroll m)
  | 70%nat => mk_mods (m_shift m) (m_ctl m) (m_alt m) (m_caps m) (m_num m) (negb (m_scroll m))
  | _ => m
  end.
Definition after (ev : kevent) (m : mods) : mods :=
  match ev with Press k => lock k (hold true k m) | Release k => hold false k m end.

Definition swap_case (c : Z) : Z :=
  if (97 <=? c) && (c <=? 122) then c - 32 else if (65 <=? c) && (c <=? 90) then c + 32 else c.
Definition glyph (m : mods) (k : nat) : Z :=
  let c := nth k (if m_ctl m then ctlmap else if m_shift m then shiftmap else normalmap) 0 in
  if m_caps m then swap_case c else c.

Fixpoint typed_text (m : mods) (evs : list kevent) : list Z :=
  match evs with
  | [] => []
  | ev :: evs =>
      match ev with Press k => [glyph (after ev m) k] | Release _ => [] end ++ typed_text (after ev m) evs
  end.
Definition after_all (evs : list kevent) (m : mods) : mods := foldl (fun m ev => after ev m) m evs.

(** The letters of the keyboard: key and character. *)
Definition letters : list (nat * Z) :=
  zip (seq 16 10) (chars "qwertyuiop") ++ zip (seq 30 9) (chars "asdfghjkl") ++ zip (seq 44 7) (chars "zxcvbnm").

(** ** One code *)
Definition with_pending {A : Type} (l : list Z) (o : outcome kbd A) : outcome kbd A :=
  match o with Ret x k => Ret x (mk_kbd (shift k) l) | Stop m => Stop m | Block c k => Block c (mk_kbd (shift k) l) | OutOfFuel => OutOfFuel end.

(** [m] does not look at the codes that are left. *)
Definition blind {A : Type} (m : M kbd A) : Prop := forall sh l l', m (mk_kbd sh l) = with_pending l (m (mk_kbd sh l')).

Lemma blind_bind {A B : Type} (m : M kbd A) (f : A -> M kbd B) : blind m -> (forall x, blind (f x)) -> blind (m ≫= f).
Proof.
  intros Hm Hf sh l l'. unfold mbind, M_bind. rewrite (Hm sh l l'). pose proof (Hm sh l' l') as E.
  destruct (m (mk_kbd sh l')) as [x [sh' p] | | |]; cbn in *; try done.
  injection E as Hp. rewrite (Hf x sh' l p). done.
Qed.

Lemma blind_ret {A : Type} (x : A) : blind (mret x).
Proof. done. Qed.
Lemma blind_table t i : blind (table_at t i).
Proof. intros sh l l'. unfold table_at. destruct (i <? 0); [done |]. by destruct (t !! Z.to_nat i). Qed.
Lemma blind_from {A : Type} msg (o : option A) : blind (from_option msg o).
Proof. by destruct o. Qed.
Lemma blind_set z : blind (set_shift z).
Proof. done. Qed.
Lemma blind_get : blind get_shift.
Proof. done. Qed.
#[local] Hint Resolve blind_ret blind_table blind_from blind_set blind_get : core.

Lemma blind_down data : blind (key_down data).
Proof. unfold key_down, key_char. repeat (apply blind_bind; [by auto | intros]); auto. Qed.

Lemma blind_code data : blind (kbd_code data).
Proof.
  unfold kbd_code. apply blind_bind; [auto |]. intros sh. destruct (data =? 224); [by apply blind_bind |].
  destruct (negb (Z.land data 128 =? 0)).
  - cbv zeta. apply blind_bind; [auto |]. intros x. by apply blind_bind.
  - destruct (negb (Z.land sh E0ESC =? 0)); [| apply blind_down]. apply blind_bind; [auto |]. intros. apply blind_down.
Qed.

(** What a code does, as a function: the modifiers after it and the result. *)
Definition scan1 (sh b : Z) : Z * Z := match kbd_code b (mk_kbd sh []) with Ret c k => (shift k, c) | _ => (-1, -1) end.
Fixpoint scan (sh : Z) (bs : list Z) : Z * list Z :=
  match bs with
  | [] => (sh, [])
  | b :: bs => let r := scan (fst (scan1 sh b)) bs in (fst r, snd (scan1 sh b) :: snd r)
  end.

(** All modifiers and codes, and all modifiers and keys. *)
Definition zrange (n : nat) : list Z := map Z.of_nat (seq 0 n).
Lemma zrange_all (f : Z -> bool) n z : forallb f (zrange n) = true -> 0 <= z < Z.of_nat n -> f z = true.
Proof.
  intros H Hz. rewrite forallb_forall in H. apply H. apply in_map_iff. exists (Z.to_nat z). split; [lia |]. apply in_seq. lia.
Qed.

Definition code_ok (sh b : Z) : bool :=
  match kbd_code b (mk_kbd sh []) with
  | Ret c k => (0 <=? c) && (c <? 256) && (0 <=? shift k) && (shift k <? 128)
  | _ => false
  end.
Lemma code_ok_all sh b : 0 <= sh < 128 -> 0 <= b < 256 -> code_ok sh b = true.
Proof.
  intros Hs Hb. pose proof (zrange_all (fun sh => forallb (code_ok sh) (zrange 256)) 128 sh) as H.
  change 128 with (Z.of_nat 128) in Hs. change 256 with (Z.of_nat 256) in Hb.
  apply (zrange_all (code_ok sh) 256); [| done]. apply H; [vm_compute; reflexivity | done].
Qed.

Lemma kbd_code_scan sh b l : 0 <= sh < 128 -> 0 <= b < 256 ->
  kbd_code b (mk_kbd sh l) = Ret (snd (scan1 sh b)) (mk_kbd (fst (scan1 sh b)) l) /\
  0 <= snd (scan1 sh b) < 256 /\ 0 <= fst (scan1 sh b) < 128.
Proof.
  intros Hs Hb. pose proof (code_ok_all sh b Hs Hb) as H. unfold code_ok in H. unfold scan1. rewrite (blind_code b sh l []).
  destruct (kbd_code b (mk_kbd sh [])) as [c k | | |]; [| done..]. cbn. rewrite !andb_true_iff, !Z.leb_le, !Z.ltb_lt in H. split; [done | lia].
Qed.

Definition all_mods : list mods :=
  let b := [true; false] in
  s ← b; c ← b; a ← b; k ← b; n ← b; l ← b; [mk_mods s c a k n l].
Lemma all_mods_in m : In m all_mods.
Proof. destruct m as [[] [] [] [] [] []]; vm_compute; repeat (first [left; reflexivity | right]). Qed.

(** The codes of an event, read with the modifiers [m]. *)
Definition event_ok (m : mods) (ev : kevent) : bool :=
  negb (real_key (key_of ev)) ||
  (let r := scan (enc m) (codes ev) in
   (fst r =? enc (after ev m)) &&
   bool_decide (filter (fun c => c <> 0) (snd r) = filter (fun c => c <> 0) (typed_text m [ev])) &&
   forallb (fun b => (0 <=? b) && (b <? 256)) (codes ev)).
Lemma event_ok_all m ev : event_ok m ev = true.
Proof.
  assert (H : forallb (fun m => forallb (fun k => event_ok m (Press k) && event_ok m (Release k)) (seq 0 256)) all_mods = true)
    by (vm_compute; reflexivity).
  destruct (decide (key_of ev < 256)%nat) as [Hk | Hk].
  - rewrite forallb_forall in H. specialize (H m (all_mods_in m)). rewrite forallb_forall in H.
    assert (Hin : In (key_of ev) (seq 0 256)) by (apply in_seq; lia). specialize (H _ Hin). apply andb_true_iff in H as [H1 H2]. by destruct ev.
  - assert (E : real_key (key_of ev) = false) by (unfold real_key; rewrite (proj2 (Nat.ltb_ge _ _)) by lia; reflexivity).
    unfold event_ok. rewrite E. reflexivity.
Qed.

(** ** A burst of codes *)
Abbreviation byte_list := (Forall (fun b => 0 <= b < 256)).

Lemma scan_app sh a b : scan sh (a ++ b) = (fst (scan (fst (scan sh a)) b), snd (scan sh a) ++ snd (scan (fst (scan sh a)) b)).
Proof. revert sh. induction a as [| x a IH]; intros sh; cbn; [by destruct (scan sh b) |]. by rewrite IH. Qed.

Lemma drain_ok bs : forall sh, 0 <= sh < 128 -> byte_list bs ->
  kbd_drain (S (length bs)) (mk_kbd sh bs) = Ret (snd (scan sh bs)) (mk_kbd (fst (scan sh bs)) []) /\
  0 <= fst (scan sh bs) < 128 /\ byte_list (snd (scan sh bs)).
Proof.
  induction bs as [| b bs IH]; intros sh Hs Hb; [done |]. apply Forall_cons in Hb as [Hb Hbs].
  destruct (kbd_code_scan sh b bs Hs Hb) as (E & Hc & Hs'). destruct (IH _ Hs' Hbs) as (E2 & Hs2 & Hc2).
  cbn [length]. remember (S (length bs)) as n eqn:En. cbn [kbd_drain scan fst snd]. split_and!; [| lia | lia | by constructor].
  erewrite bind_ret by exact E. destruct (Z.ltb_spec (snd (scan1 sh b)) 0); [lia |]. by rewrite (bind_ret _ _ _ _ _ E2).
Qed.

(** The codes of a burst arrive, then the interrupt is handled. *)
Fixpoint interrupts (bursts : list (list Z)) (k : kbd) (c : console) : outcome (kbd * console) unit :=
  match bursts with
  | [] => Ret tt (k, c)
  | bs :: bursts =>
      match kbdintr (mk_kbd (shift k) (pending k ++ bs)) c with
      | Ret _ (k', c') => interrupts bursts k' c'
      | Stop m => Stop m | Block ch s => Block ch s | OutOfFuel => OutOfFuel
      end
  end.

Lemma keys_app a b ed : keys (a ++ b) ed = keys b (keys a ed).
Proof. apply foldl_app. Qed.

Lemma keys_nonzero cs ed : keys (filter (fun c => c <> 0) cs) ed = keys cs ed.
Proof.
  revert ed. induction cs as [| c cs IH]; intros ed; [done |]. destruct (decide (c = 0)) as [-> | Hc].
  - rewrite filter_cons_False by (intros H; by apply H). exact (IH ed).
  - rewrite filter_cons_True by done. apply (IH (key c ed)).
Qed.

Lemma interrupts_ok bursts : forall sh c ed, 0 <= sh < 128 -> byte_list (concat bursts) -> implements c ed ->
  exists c', interrupts bursts (mk_kbd sh []) c = Ret tt (mk_kbd (fst (scan sh (concat bursts))) [], c') /\
  implements c' (keys (snd (scan sh (concat bursts))) ed).
Proof.
  induction bursts as [| bs bursts IH]; intros sh c ed Hs Hb Hc; [by exists c |].
  cbn [concat] in *. apply Forall_app in Hb as [Hb Hbs]. destruct (drain_ok bs sh Hs Hb) as (E & Hs1 & Hc1).
  destruct (keys_ok (snd (scan sh bs)) false c ed Hc1 Hc) as (c1 & E1 & HI1 & _).
  destruct (IH _ c1 _ Hs1 Hbs HI1) as (c2 & E2 & HI2). exists c2.
  cbn [interrupts shift pending app]. unfold kbdintr. cbn [pending]. rewrite E. unfold consoleintr. rewrite E1, E2.
  rewrite scan_app. cbn [fst snd]. rewrite keys_app. by split.
Qed.

Lemma scan_events evs : forall m, Forall (fun ev => real_key (key_of ev) = true) evs ->
  fst (scan (enc m) (concat (map codes evs))) = enc (after_all evs m) /\
  filter (fun c => c <> 0) (snd (scan (enc m) (concat (map codes evs)))) = filter (fun c => c <> 0) (typed_text m evs) /\
  byte_list (concat (map codes evs)).
Proof.
  induction evs as [| ev evs IH]; intros m He; [by split_and!; try constructor |]. apply Forall_cons in He as [Hk He].
  pose proof (event_ok_all m ev) as Ho. unfold event_ok in Ho. rewrite Hk in Ho. cbn [negb orb] in Ho.
  apply andb_true_iff in Ho as [[H1%Z.eqb_eq H2%bool_decide_eq_true]%andb_true_iff H3].
  destruct (IH (after ev m) He) as (I1 & I2 & I3). cbn [map concat]. rewrite scan_app, H1. cbn [fst snd]. split_and!.
  - exact I1.
  - rewrite filter_app, H2, I2, <- filter_app. cbn [typed_text]. by rewrite app_nil_r.
  - apply Forall_app. split; [| done]. apply Forall_forall. intros b Hb%list_elem_of_In. rewrite forallb_forall in H3.
    specialize (H3 b Hb). rewrite andb_true_iff, Z.leb_le, Z.ltb_lt in H3. done.
Qed.

Lemma enc_range m : 0 <= enc m < 128.
Proof. destruct m as [[] [] [] [] [] []]; vm_compute; split; congruence. Qed.

(** C38. The keyboard driver is well typed: from any state whose modifiers fit
    the seven flags, on any codes, [kbdgetc] reads inside its tables, takes one
    code if there is one, keeps the modifiers within the flags and returns a
    byte, or -1 exactly when no code was left. *)
Theorem kbdgetc_typed (k : kbd) (Hs : 0 <= shift k < 128) (Hp : Forall (fun b => 0 <= b < 256) (pending k)) :
  exists c k', kbdgetc k = Ret c k' /\ 0 <= shift k' < 128 /\ pending k' = drop 1 (pending k) /\
    -1 <= c < 256 /\ (c = -1 <-> pending k = []).
Proof.
  destruct k as [sh [| b bs]]; cbn [shift pending] in *.
  - exists (-1), (mk_kbd sh []). split; [done |]. split; [exact Hs |]. split; [done |]. split; [lia |]. done.
  - apply Forall_cons in Hp as [Hb _]. destruct (kbd_code_scan sh b bs Hs Hb) as (E & Hc & Hs').
    exists (snd (scan1 sh b)), (mk_kbd (fst (scan1 sh b)) bs). split; [exact E |]. split; [exact Hs' |].
    split; [done |]. split; [lia |]. split; [lia | done].
Qed.

(** C17. Typing arrives: whatever keys are pressed and released, in whatever way
    their scan codes are cut into bursts by the interrupts (also between a
    prefix and its code), the driver leaves the console in the state of the line
    editor after the characters that the keys mean, with Shift and Control as
    they were last pressed or released, and Caps Lock exchanging the case of
    letters. *)
Theorem keyboard_types_text (bursts : list (list Z)) (evs : list kevent) (m : mods) (c : console) (ed : editor)
  (Hk : Forall (fun ev => real_key (key_of ev) = true) evs) (Hb : concat bursts = concat (map codes evs))
  (Hc : implements c ed) :
  exists c', interrupts bursts (mk_kbd (enc m) []) c = Ret tt (mk_kbd (enc (after_all evs m)) [], c') /\
    implements c' (keys (typed_text m evs) ed).
Proof.
  destruct (scan_events evs m Hk) as (H1 & H2 & H3). rewrite <- Hb in H1, H2, H3.
  destruct (interrupts_ok bursts (enc m) c ed (enc_range m) H3 Hc) as (c' & E & HI). exists c'. rewrite H1 in E. split; [exact E |].
  by rewrite <- keys_nonzero, <- H2, keys_nonzero.
Qed.

(** The letter keys: upper case when exactly one of Shift and Caps Lock is on,
    the control character with Control. *)
Theorem letter_keys (m : mods) (k : nat) (ch : Z) : In (k, ch) letters ->
  glyph m k = if m_ctl m then ch - 96 else if xorb (m_shift m) (m_caps m) then ch - 32 else ch.
Proof.
  assert (H : forallb (fun m => forallb (fun kc => glyph m (fst kc) =?
    (if m_ctl m then snd kc - 96 else if xorb (m_shift m) (m_caps m) then snd kc - 32 else snd kc)) letters) all_mods = true)
    by (vm_compute; reflexivity).
  intros Hin. rewrite forallb_forall in H. specialize (H m (all_mods_in m)). rewrite forallb_forall in H.
  apply Z.eqb_eq, (H (k, ch) Hin).
Qed.

(** Of two Shift keys held down, releasing one turns Shift off. *)
Theorem released_shift_wins (m : mods) :
  m_shift (after_all [Press 42; Press 54; Release 42] m) = false.
Proof. done. Qed.

(** Control with the slash is not a control character. *)
Theorem control_slash : glyph (mk_mods false true false false false false) 53 = 239.
Proof. vm_compute. reflexivity. Qed.

Lemma kbdgetc_typed_witness : exists c k', kbdgetc (mk_kbd 64 [184]) = Ret c k' /\ 0 <= shift k' < 128 /\
  pending k' = [] /\ -1 <= c < 256 /\ (c = -1 <-> [184] = ([] : list Z)).
Proof. apply (kbdgetc_typed (mk_kbd 64 [184])); [cbn; lia | by repeat constructor]. Defined.

(** Shift, a, release Shift, right Control with u (which kills the line), b: cut
    after the prefix of the right Control key. *)
Definition demo_keys : list kevent := [Press 42; Press 30; Release 42; Press 157; Press 22; Release 157; Press 48].
Lemma keyboard_types_text_witness :
  exists c', interrupts [[42; 30; 170; 224]; [29; 22; 224; 157; 48]] (mk_kbd 0 []) (console_start (replicate 2000 0) 0 0) =
    Ret tt (mk_kbd 0 [], c') /\ implements c' (mk_editor [] [98]).
Proof.
  apply (keyboard_types_text [[42; 30; 170; 224]; [29; 22; 224; 157; 48]] demo_keys (mk_mods false false false false false false)
    (console_start (replicate 2000 0) 0 0) (mk_editor [] [])).
  - repeat constructor.
  - vm_compute. reflexivity.
  - apply console_start_ok; [reflexivity | vm_compute; split; congruence].
Defined.
