(* ===== verification/Uart.v ===== *)
(** * Uart: project3/xv6-modified/uart.c, the serial port

    The port is the list [rx] of the bytes that have arrived and the list of
    the writes to its registers; its status register says whether a byte has
    arrived and, at each poll, whether the transmitter is ready, which is up to
    the hardware ([ready]), as is whether there is a port at all ([attached]). *)

From Stdlib Require Import ZArith Lia.
From stdpp Require Import base numbers strings option list.
From S2P Require Import Prelude Console.

Local Open Scope Z_scope.

Definition COM1 : Z := 1016.
Definition greeting : list Z := [120; 118; 54; 46; 46; 46; 10].

(** [up] is the variable [uart] of the source; [polls] counts the reads of the
    status register. *)
Record port := mk_port { up : bool; rx : list Z; polls : nat; outs : list (Z * Z) }.

Section uart.
Variable attached : bool.
Variable ready : nat -> bool.

Definition write_reg (p v : Z) : M port unit := modify (fun s => mk_port (up s) (rx s) (polls s) (outs s ++ [(p, u8 v)])).
(** [inb(COM1+5)] *)
Definition read_lsr : M port Z := fun s =>
  Ret (if attached then Z.lor (if ready (polls s) then 32 else 0) (match rx s with [] => 0 | _ => 1 end) else 255)
      (mk_port (up s) (rx s) (S (polls s)) (outs s)).
(** [inb(COM1+0)]: a byte that has arrived, or what is left in the register. *)
Definition inb_byte : M port Z := fun s =>
  match rx s with b :: l => Ret b (mk_port (up s) l (polls s) (outs s)) | [] => Ret 0 s end.
Definition set_up : M port unit := modify (fun s => mk_port true (rx s) (polls s) (outs s)).

(** [for(i = 0; i < 128 && !(inb(COM1+5) & 0x20); i++) microdelay(10);] with [i]
    passes left. *)
Fixpoint wait_ready (i : nat) : M port unit :=
  match i with
  | O => skip
  | S i => st ← read_lsr; if negb (Z.land st 32 =? 0) then skip else wait_ready i
  end.

Definition uartputc (c : Z) : M port unit :=
  s ← get;
  if negb (up s) then skip else wait_ready 128;; write_reg (COM1 + 0) c.

Definition uartgetc : M port Z :=
  s ← get;
  if negb (up s) then mret (-1) else
  st ← read_lsr;
  if Z.land st 1 =? 0 then mret (-1) else inb_byte.

Fixpoint put_string (l : list Z) : M port unit :=
  match l with [] => skip | c :: l => uartputc c;; put_string l end.

(** [ioapicenable] is left out. *)
Definition uartinit : M port unit :=
  write_reg (COM1 + 2) 0;;
  write_reg (COM1 + 3) 128;;
  write_reg (COM1 + 0) (115200 / 9600);;
  write_reg (COM1 + 1) 0;;
  write_reg (COM1 + 3) 3;;
  write_reg (COM1 + 4) 0;;
  write_reg (COM1 + 1) 1;;
  st ← read_lsr;
  if st =? 255 then skip else
  set_up;;
  inb_byte;;
  put_string greeting.

(** The characters that the loop of [consoleintr] gets from [uartgetc]. *)
Fixpoint uart_drain (fuel : nat) : M port (list Z) :=
  match fuel with
  | O => out_of_fuel
  | S fuel => c ← uartgetc; if c <? 0 then mret [] else cs ← uart_drain fuel; mret (c :: cs)
  end.
Definition uartintr (p : port) (c : console) : outcome (port * console) bool :=
  match uart_drain (S (length (rx p))) p with
  | Ret cs p' => match consoleintr cs c with
                 | Ret b c' => Ret b (p', c')
                 | Stop m => Stop m | Block ch c' => Block ch (p', c') | OutOfFuel => OutOfFuel
                 end
  | Stop m => Stop m | Block ch p' => Block ch (p', c) | OutOfFuel => OutOfFuel
  end.

Lemma wait_ready_ok i s : exists n, (n <= i)%nat /\ wait_ready i s = Ret tt (mk_port (up s) (rx s) (polls s + n) (outs s)).
Proof.
  revert s. induction i as [| i IH]; intros s.
  - exists 0%nat. split; [lia |]. rewrite Nat.add_0_r. by destruct s.
  - cbn [wait_ready]. erewrite bind_ret by reflexivity. case_match.
    + exists 1%nat. split; [lia |]. by rewrite Nat.add_1_r.
    + destruct (IH (mk_port (up s) (rx s) (S (polls s)) (outs s))) as (n & Hn & E). exists (S n). split; [lia |].
      rewrite E. cbn. do 2 f_equal. lia.
Qed.

(** Output polls the status at most 128 times and then writes the low byte, once,
    whether or not the transmitter was ready; without a port it does nothing. *)
Theorem uartputc_bounded c s : exists n, (n <= 128)%nat /\
  uartputc c s = Ret tt (if up s then mk_port true (rx s) (polls s + n) (outs s ++ [(COM1, u8 c)]) else s).
Proof.
  unfold uartputc. erewrite bind_ret by reflexivity. destruct (up s) eqn:Eu; cbn [negb].
  - destruct (wait_ready_ok 128 s) as (n & Hn & E). exists n. split; [done |]. rewrite (bind_ret _ _ _ _ _ E). by rewrite Eu.
  - exists 0%nat. split; [lia | done].
Qed.

Lemma put_string_ok l s : up s = true -> exists n,
  put_string l s = Ret tt (mk_port true (rx s) n (outs s ++ map (fun c => (COM1, u8 c)) l)).
Proof.
  revert s. induction l as [| c l IH]; intros s Hu.
  - exists (polls s). cbn. rewrite app_nil_r. destruct s. by cbn in Hu; subst.
  - destruct (uartputc_bounded c s) as (n & _ & E). rewrite Hu in E. cbn [put_string]. rewrite (bind_ret _ _ _ _ _ E).
    destruct (IH (mk_port true (rx s) (polls s + n) (outs s ++ [(COM1, u8 c)])) eq_refl) as (n' & E'). exists n'. rewrite E'. cbn.
    by rewrite <- app_assoc.
Qed.

(** Every byte that has arrived is taken, in order. *)
Lemma uart_drain_ok l : attached = true -> forall n o, Forall (fun b => 0 <= b < 256) l -> exists n',
  uart_drain (S (length l)) (mk_port true l n o) = Ret l (mk_port true [] n' o).
Proof.
  intros Ha. induction l as [| b l IH]; intros n o Hl.
  - exists (S n). cbn [length uart_drain].
    assert (Eg : uartgetc (mk_port true [] n o) = Ret (-1) (mk_port true [] (S n) o)).
    { unfold uartgetc, read_lsr, get, mbind, M_bind. rewrite Ha. cbn. by destruct (ready n). }
    by rewrite (bind_ret _ _ _ _ _ Eg).
  - apply Forall_cons in Hl as [Hb Hl]. destruct (IH (S n) o Hl) as (n' & E). exists n'.
    cbn [length]. remember (S (length l)) as f eqn:Ef. cbn [uart_drain].
    assert (Eg : uartgetc (mk_port true (b :: l) n o) = Ret b (mk_port true l (S n) o)).
    { unfold uartgetc, read_lsr, get, mbind, M_bind. rewrite Ha. cbn. by destruct (ready n). }
    rewrite (bind_ret _ _ _ _ _ Eg). destruct (Z.ltb_spec b 0); [lia |]. by rewrite (bind_ret _ _ _ _ _ E).
Qed.
End uart.

(** The port is found exactly when one is attached; it is then set up and the
    greeting is sent. *)
Theorem uartinit_spec attached ready s : up s = false -> exists n, uartinit attached ready s = Ret tt
  (mk_port attached (if attached then drop 1 (rx s) else rx s) n
     (outs s ++ [(COM1 + 2, 0); (COM1 + 3, 128); (COM1, 12); (COM1 + 1, 0); (COM1 + 3, 3); (COM1 + 4, 0); (COM1 + 1, 1)] ++
      if attached then map (fun c => (COM1, u8 c)) greeting else [])).
Proof.
  intros Hu. unfold uartinit. do 7 (erewrite bind_ret by reflexivity). cbn [outs up rx polls].
  erewrite bind_ret by reflexivity. cbn [outs up rx polls].
  rewrite <- !app_assoc. cbn [app]. destruct attached.
  - set (st := Z.lor _ _). assert (Est : (st =? 255) = false) by (unfold st; by destruct (ready _), (rx s)). rewrite Est.
    erewrite bind_ret by reflexivity. cbn [outs up rx polls].
    set (o := outs s ++ _).
    assert (E : inb_byte (mk_port true (rx s) (S (polls s)) o) = Ret (nth 0 (rx s) 0) (mk_port true (drop 1 (rx s)) (S (polls s)) o))
      by (unfold inb_byte; cbn; by destruct (rx s)).
    rewrite (bind_ret _ _ _ _ _ E).
    destruct (put_string_ok true ready greeting (mk_port true (drop 1 (rx s)) (S (polls s)) o) eq_refl) as (n & E2).
    exists n. rewrite E2. unfold o. cbn. by rewrite <- !app_assoc.
  - exists (S (polls s)). rewrite Hu. done.
Qed.

(** Bytes from the serial port reach the console as if they were typed. *)
Theorem serial_types_text ready p c ed : up p = true -> Forall (fun b => 0 <= b < 256) (rx p) -> implements c ed ->
  exists b n c', uartintr true ready p c = Ret b (mk_port true [] n (outs p), c') /\ implements c' (keys (rx p) ed).
Proof.
  destruct p as [u l n o]. cbn. intros -> Hl Hc. destruct (uart_drain_ok true ready l eq_refl n o Hl) as (n' & E).
  destruct (keys_ok l false c ed Hl Hc) as (c' & E' & HI & _). unfold uartintr. cbn [rx]. rewrite E. unfold consoleintr. rewrite E'.
  eauto.
Qed.
