(* ===== verification/Mp.v ===== *)
(** * Mp: project3/xv6-modified/mp.c and mp.h, the multiprocessor tables

    The BIOS describes the processors in memory: a floating pointer structure of
    16 bytes, found by its signature and checksum, leads to a table of entries.
    Memory is the function from virtual addresses to bytes; an address of the
    source is a 32-bit number and [P2V] is that of Kalloc. *)

From Stdlib Require Import ZArith Lia.
From stdpp Require Import base numbers strings option list.
From S2P Require Import Prelude Kalloc.

Local Open Scope Z_scope.

Definition NCPU : Z := 1.
Definition MPPROC : Z := 0.
Definition MPBUS : Z := 1.
Definition MPIOAPIC : Z := 2.
Definition MPIOINTR : Z := 3.
Definition MPLINTR : Z := 4.

(** "_MP_" and "PCMP" *)
Definition mp_sign : list Z := [95; 77; 80; 95].
Definition conf_sign : list Z := [80; 67; 77; 80].

(** Sizes of [struct mp], [struct mpconf], [struct mpproc], [struct mpioapic]. *)
Definition MP_SIZE : Z := 16.
Definition CONF_SIZE : Z := 44.
Definition PROC_SIZE : Z := 20.
Definition IOAPIC_SIZE : Z := 8.

(** What [mpinit] sets: [cpus[i].apicid], [ncpu], [ioapicid], [lapic], and the
    writes to the ports. *)
Record smp := mk_smp { apicids : list Z; ncpu : Z; ioapicid : Z; lapic : Z; mp_outs : list (Z * Z) }.

Section mp.
Variable m : Z -> Z.

Definition rd (a : Z) (n : nat) : list Z := map (fun k => m (a + Z.of_nat k)) (seq 0 n).

Definition mp_sum (addr : Z) (len : nat) : Z := u8 (foldl Z.add 0 (rd addr len)).

(** [for(p = addr; p < e; p += sizeof(struct mp))] *)
Fixpoint mpsearch1_loop (fuel : nat) (p e : Z) : option (option Z) :=
  match fuel with
  | O => None
  | S fuel =>
      if p <? e then
        if bool_decide (rd p 4 = mp_sign) && (mp_sum p 16 =? 0) then Some (Some p)
        else mpsearch1_loop fuel (u32 (p + MP_SIZE)) e
      else Some None
  end.
Definition mpsearch1 (a len : Z) : option (option Z) :=
  let addr := P2V a in
  mpsearch1_loop (S (Z.to_nat len)) addr (u32 (addr + len)).

Definition mpsearch : option (option Z) :=
  let bda := P2V 1024 in
  let p := u32 (Z.shiftl (Z.lor (Z.shiftl (m (bda + 15)) 8) (m (bda + 14))) 4) in
  r ← (if negb (p =? 0) then mpsearch1 p 1024
       else mpsearch1 (u32 (u32 (Z.lor (Z.shiftl (m (bda + 20)) 8) (m (bda + 19)) * 1024) - 1024)) 1024);
  match r with Some mp => Some (Some mp) | None => mpsearch1 983040 65536 end.

(** The fields of the structures. *)
Definition mp_physaddr (mp : Z) : Z := le_val (rd (mp + 4) 4).
Definition mp_imcrp (mp : Z) : Z := m (mp + 12).
Definition conf_length (conf : Z) : Z := le_val (rd (conf + 4) 2).
Definition conf_version (conf : Z) : Z := m (conf + 6).
Definition conf_lapicaddr (conf : Z) : Z := le_val (rd (conf + 36) 4).

(** [mpconfig] returns the configuration and the floating pointer. *)
Definition mpconfig : option (option (Z * Z)) :=
  r ← mpsearch;
  match r with
  | None => Some None
  | Some mp =>
      if mp_physaddr mp =? 0 then Some None else
      let conf := P2V (mp_physaddr mp) in
      if negb (bool_decide (rd conf 4 = conf_sign)) then Some None else
      if negb (conf_version conf =? 1) && negb (conf_version conf =? 4) then Some None else
      if negb (mp_sum conf (Z.to_nat (conf_length conf)) =? 0) then Some None else
      Some (Some (conf, mp))
  end.

Definition add_cpu (id : Z) : M smp unit :=
  s ← get;
  if ncpu s <? NCPU then put (mk_smp (<[Z.to_nat (ncpu s) := id]> (apicids s)) (ncpu s + 1) (ioapicid s) (lapic s) (mp_outs s))
  else skip.

(** The loop over the entries.  In the default case [break] leaves the [switch],
    not the loop.  Addresses are not wrapped at 2^32: a table that would reach
    past the end of memory is read as if memory went on. *)
Fixpoint mp_entries (fuel : nat) (p e : Z) (ismp : bool) : M smp bool :=
  match fuel with
  | O => out_of_fuel
  | S fuel =>
      if p <? e then
        let t := m p in
        if t =? MPPROC then add_cpu (m (p + 1));; mp_entries fuel (p + PROC_SIZE) e ismp
        else if t =? MPIOAPIC then
          modify (fun s => mk_smp (apicids s) (ncpu s) (m (p + 1)) (lapic s) (mp_outs s));;
          mp_entries fuel (p + IOAPIC_SIZE) e ismp
        else if (t =? MPBUS) || (t =? MPIOINTR) || (t =? MPLINTR) then mp_entries fuel (p + 8) e ismp
        else mp_entries fuel p e false
      else mret ismp
  end.

(** [imcr] is what port 0x23 reads. *)
Definition mpinit (imcr : Z) : M smp unit :=
  match mpconfig with
  | None => out_of_fuel
  | Some None => stop "Expect to run on an SMP"
  | Some (Some (conf, mp)) =>
      modify (fun s => mk_smp (apicids s) (ncpu s) (ioapicid s) (conf_lapicaddr conf) (mp_outs s));;
      ismp ← mp_entries (S (Z.to_nat (conf_length conf))) (conf + CONF_SIZE) (conf + conf_length conf) true;
      if negb ismp then stop "Didn't find a suitable machine" else
      if negb (mp_imcrp mp =? 0) then
        modify (fun s => mk_smp (apicids s) (ncpu s) (ioapicid s) (lapic s) (mp_outs s ++ [(34, 112); (35, Z.lor imcr 1)]))
      else skip
  end.
End mp.

(** ** The table *)

(** An entry with the bytes that [mpinit] does not look at. *)
Inductive entry := Cpu (id : Z) (rest : list Z) | IoApic (id : Z) (rest : list Z) | Other (t : Z) (rest : list Z).
Definition entry_bytes (x : entry) : list Z :=
  match x with Cpu id r => MPPROC :: id :: r | IoApic id r => MPIOAPIC :: id :: r | Other t r => t :: r end.
Definition entry_ok (x : entry) : Prop :=
  match x with
  | Cpu _ r => length r = 18%nat
  | IoApic _ r => length r = 6%nat
  | Other t r => length r = 7%nat /\ t ∈ [MPBUS; MPIOINTR; MPLINTR]
  end.
Definition table_bytes (es : list entry) : list Z := concat (map entry_bytes es).

Definition learn (s : smp) (x : entry) : smp :=
  match x with
  | Cpu id _ => if ncpu s <? NCPU then mk_smp (<[Z.to_nat (ncpu s) := id]> (apicids s)) (ncpu s + 1) (ioapicid s) (lapic s) (mp_outs s) else s
  | IoApic id _ => mk_smp (apicids s) (ncpu s) id (lapic s) (mp_outs s)
  | Other _ _ => s
  end.

(** A floating pointer structure. *)
Definition is_mp (m : Z -> Z) (p : Z) : bool := bool_decide (rd m p 4 = mp_sign) && (mp_sum m p 16 =? 0).
(** A table of entries at [conf]. *)
Record is_conf (m : Z -> Z) (conf : Z) (es : list entry) : Prop := {
  ic_sign : rd m conf 4 = conf_sign;
  ic_version : conf_version m conf = 1 \/ conf_version m conf = 4;
  ic_length : conf_length m conf = CONF_SIZE + Z.of_nat (length (table_bytes es));
  ic_sum : mp_sum m conf (Z.to_nat (conf_length m conf)) = 0;
  ic_bytes : rd m (conf + CONF_SIZE) (length (table_bytes es)) = table_bytes es
}.

(** Where the structure may be: [n] places of 16 bytes from a physical address;
    the first KB of the extended BIOS data area or else the last KB of base
    memory; and the upper half of the BIOS ROM. *)
Definition places (a : Z) (n : nat) : list Z := map (fun k => P2V a + MP_SIZE * Z.of_nat k) (seq 0 n).
Definition ebda (m : Z -> Z) : Z := (m (P2V 1024 + 15) * 256 + m (P2V 1024 + 14)) * 16.
Definition base_kb (m : Z -> Z) : Z := m (P2V 1024 + 20) * 256 + m (P2V 1024 + 19).
Definition candidates (m : Z -> Z) : list Z :=
  (if ebda m =? 0 then places (u32 (base_kb m * 1024 - 1024)) 64 else places (ebda m) 64) ++ places 983040 4096.
Fixpoint find_mp (m : Z -> Z) (l : list Z) : option Z :=
  match l with [] => None | p :: l => if is_mp m p then Some p else find_mp m l end.
Definition first_mp (m : Z -> Z) : option Z := find_mp m (candidates m).

Section proofs.
Context (m : Z -> Z).
Hypothesis Hm : forall a, 0 <= m a < 256.

Lemma search_loop_ok n : forall fuel p, (n < fuel)%nat -> 0 <= p -> p + 16 * Z.of_nat n < 2 ^ 32 ->
  mpsearch1_loop m fuel p (p + 16 * Z.of_nat n) =
  Some (find_mp m (map (fun k => p + 16 * Z.of_nat k) (seq 0 n))).
Proof using.
  induction n as [| n IH]; intros fuel p Hf Hp Hb; (destruct fuel as [| fuel]; [lia |]); cbn [mpsearch1_loop].
  - destruct (Z.ltb_spec p (p + 16 * Z.of_nat 0)); [lia | done].
  - destruct (Z.ltb_spec p (p + 16 * Z.of_nat (S n))); [| lia]. fold (is_mp m p). cbn [seq map].
    rewrite Z.mul_0_r, Z.add_0_r. cbn [find_mp]. destruct (is_mp m p) eqn:E; [done |].
    unfold MP_SIZE. rewrite u32_small by lia.
    replace (p + 16 * Z.of_nat (S n)) with (p + 16 + 16 * Z.of_nat n) by lia. rewrite IH by lia. f_equal.
    rewrite <- seq_shift, map_map. f_equal. apply map_ext. intros k. lia.
Qed.

Lemma mpsearch1_ok a n : (0 < n)%nat -> 0 <= P2V a -> P2V a + 16 * Z.of_nat n < 2 ^ 32 ->
  mpsearch1 m a (16 * Z.of_nat n) = Some (find_mp m (places a n)).
Proof using.
  intros Hn Ha Hb. unfold mpsearch1, places, MP_SIZE. cbv zeta. rewrite u32_small by lia. apply search_loop_ok; lia.
Qed.

Lemma P2V_small a : 0 <= a < 2 ^ 31 -> P2V a = a + 2 ^ 31.
Proof using. intros Ha. unfold P2V, KERNBASE. apply u32_small. lia. Qed.

Lemma lor_byte a b : 0 <= a -> 0 <= b < 256 -> Z.lor (Z.shiftl a 8) b = a * 256 + b.
Proof using.
  intros Ha Hb. rewrite Z.shiftl_mul_pow2 by lia. change (2 ^ 8) with 256. rewrite <- Z.lxor_lor, <- Z.add_nocarry_lxor; [done | |];
    (apply Z.bits_inj'; intros i Hi; rewrite Z.land_spec, Z.bits_0;
     change 256 with (2 ^ 8); destruct (Z.ltb_spec i 8);
     [rewrite Z.mul_pow2_bits_low by lia; done |
      rewrite (Z.bits_above_log2 b i); [by rewrite andb_false_r | lia |];
      destruct (decide (b = 0)) as [-> | Hb0]; [cbn; lia |];
      apply Z.log2_lt_pow2; [lia |]; apply Z.lt_le_trans with (2 ^ 8); [lia | apply Z.pow_le_mono_r; lia]]).
Qed.

Lemma find_app_spec l1 l2 : find_mp m (l1 ++ l2) = match find_mp m l1 with Some x => Some x | None => find_mp m l2 end.
Proof using. induction l1 as [| x l1 IH]; [done |]. cbn. by destruct (is_mp m x). Qed.

(** The search finds the first structure among the candidates. *)
Lemma mpsearch_ok : mpsearch m = Some (first_mp m).
Proof using Hm.
  unfold mpsearch. pose proof (Hm (P2V 1024 + 15)). pose proof (Hm (P2V 1024 + 14)). pose proof (Hm (P2V 1024 + 20)). pose proof (Hm (P2V 1024 + 19)).
  rewrite !lor_byte by lia. rewrite Z.shiftl_mul_pow2 by lia. change (2 ^ 4) with 16. fold (ebda m). fold (base_kb m).
  assert (He : 0 <= ebda m < 2 ^ 20) by (unfold ebda; lia). assert (Hk : 0 <= base_kb m < 2 ^ 16) by (unfold base_kb; lia).
  rewrite (u32_small (ebda m)), (u32_small (base_kb m * 1024)) by lia. unfold first_mp, candidates. rewrite find_app_spec.
  assert (Hrom : mpsearch1 m 983040 65536 = Some (find_mp m (places 983040 4096))).
  { change 65536 with (16 * Z.of_nat 4096). apply mpsearch1_ok; rewrite ?P2V_small by lia; lia. }
  assert (Hkb : forall a, P2V a + 1024 < 2 ^ 32 -> mpsearch1 m a 1024 = Some (find_mp m (places a 64))).
  { intros a Ha. change 1024 with (16 * Z.of_nat 64). apply mpsearch1_ok; [lia | unfold P2V; apply u32_range | lia]. }
  destruct (Z.eqb_spec (ebda m) 0) as [E0 | E0]; cbn [negb].
  - rewrite Hkb.
    + cbn [mbind option_bind]. rewrite Hrom. generalize (find_mp m (places 983040 4096)) as y.
      generalize (find_mp m (places (u32 (base_kb m * 1024 - 1024)) 64)) as x. by intros [x |] y.
    + destruct (decide (base_kb m = 0)) as [-> | Hb]; [vm_compute; reflexivity |].
      rewrite u32_small by lia. rewrite P2V_small by lia. lia.
  - rewrite Hkb by (rewrite P2V_small by lia; lia). cbn [mbind option_bind]. rewrite Hrom. generalize (find_mp m (places 983040 4096)) as y.
    generalize (find_mp m (places (ebda m) 64)) as x. by intros [x |] y.
Qed.

(** ** The entries *)
Definition shows (p : Z) (bs : list Z) : Prop := forall k x, bs !! k = Some x -> m (p + Z.of_nat k) = x.

Lemma rd_shows p bs : rd m p (length bs) = bs -> shows p bs.
Proof using.
  intros E k x Hx. unfold rd in E. rewrite <- E in Hx. rewrite list_lookup_fmap in Hx.
  destruct (seq 0 (length bs) !! k) as [i |] eqn:Ei; [| done]. apply lookup_seq in Ei as [-> _]. by injection Hx as <-.
Qed.

Lemma shows_app p a b : shows p (a ++ b) -> shows p a /\ shows (p + Z.of_nat (length a)) b.
Proof using.
  intros H. split; intros k x Hx.
  - apply H. by apply lookup_app_l_Some.
  - replace (p + Z.of_nat (length a) + Z.of_nat k) with (p + Z.of_nat (length a + k)) by lia. apply H. by rewrite lookup_app_r, Nat.add_sub' by lia.
Qed.

Lemma entry_length x : entry_ok x -> length (entry_bytes x) = match x with Cpu _ _ => 20%nat | _ => 8%nat end.
Proof using. destruct x; cbn; intros H; lia. Qed.

Lemma mp_entries_ok es : Forall entry_ok es -> forall fuel p s, (length es < fuel)%nat -> shows p (table_bytes es) ->
  mp_entries m fuel p (p + Z.of_nat (length (table_bytes es))) true s = Ret true (foldl learn s es).
Proof using.
  induction 1 as [| x es Hx Hes IH]; intros fuel p s Hf Hs; (destruct fuel as [| fuel]; [lia |]); cbn [mp_entries].
  - destruct (Z.ltb_spec p (p + Z.of_nat (length (table_bytes [])))); [cbn in *; lia | done].
  - cbn [table_bytes map concat] in *. rewrite length_app. pose proof (entry_length x Hx) as Hl. apply shows_app in Hs as [H1 H2].
    fold (table_bytes es) in *. set (L := length (table_bytes es)) in *. cbn [length] in Hf.
    assert (Hnext : forall s n, (length (entry_bytes x) = n) ->
      mp_entries m fuel (p + Z.of_nat n) (p + Z.of_nat (length (entry_bytes x) + L)) true s = Ret true (foldl learn s es)).
    { intros s' n <-. rewrite Nat2Z.inj_add, Z.add_assoc. apply IH; [lia | exact H2]. }
    destruct (Z.ltb_spec p (p + Z.of_nat (length (entry_bytes x) + L))); [| destruct x; lia].
    destruct x as [id r | id r | t r]; cbn [entry_ok entry_bytes] in *; cbn [foldl learn].
    + assert (E0 : m p = MPPROC) by (rewrite <- (Z.add_0_r p); by apply (H1 0%nat)). rewrite E0. cbn [Z.eqb MPPROC].
      assert (E1 : m (p + 1) = id) by (by apply (H1 1%nat)). rewrite E1. unfold add_cpu. erewrite bind_ret; [| erewrite bind_ret by reflexivity].
      * exact (Hnext _ 20%nat Hl).
      * by destruct (ncpu s <? NCPU).
    + assert (E0 : m p = MPIOAPIC) by (rewrite <- (Z.add_0_r p); by apply (H1 0%nat)). rewrite E0.
      change (MPIOAPIC =? MPPROC) with false. change (MPIOAPIC =? MPIOAPIC) with true. cbv iota.
      assert (E1 : m (p + 1) = id) by (by apply (H1 1%nat)). rewrite E1. erewrite bind_ret by reflexivity. exact (Hnext _ 8%nat Hl).
    + destruct Hx as [Hr Ht]. assert (E0 : m p = t) by (rewrite <- (Z.add_0_r p); by apply (H1 0%nat)). rewrite E0.
      repeat (apply elem_of_cons in Ht as [-> | Ht]; [exact (Hnext s 8%nat Hl) |]). by apply elem_of_nil in Ht.
Qed.

Lemma table_long es : Forall entry_ok es -> (length es <= length (table_bytes es))%nat.
Proof using.
  induction 1 as [| x es Hx _ IH]; [done |]. cbn [table_bytes map concat length]. rewrite length_app, (entry_length x Hx).
  fold (table_bytes es). destruct x; lia.
Qed.

Lemma mpconfig_ok mp es : first_mp m = Some mp -> mp_physaddr m mp <> 0 -> is_conf m (P2V (mp_physaddr m mp)) es ->
  mpconfig m = Some (Some (P2V (mp_physaddr m mp), mp)).
Proof using Hm.
  intros Hmp H0 [H1 H2 H3 H4 H5]. unfold mpconfig. rewrite mpsearch_ok, Hmp. cbn [mbind option_bind].
  destruct (Z.eqb_spec (mp_physaddr m mp) 0); [done |]. rewrite (bool_decide_true _ H1). cbn [negb].
  assert (Hv : negb (conf_version m (P2V (mp_physaddr m mp)) =? 1) && negb (conf_version m (P2V (mp_physaddr m mp)) =? 4) = false)
    by (destruct H2 as [-> | ->]; reflexivity).
  rewrite Hv, H4. reflexivity.
Qed.
End proofs.

(** C18. The kernel learns its processors from the BIOS tables.  Whatever the
    memory holds, if the first floating pointer structure (signature and
    checksum) in the places that are searched leads to a configuration table
    with a good signature, version and checksum, then [mpinit] ends with the
    local APIC of the table, the ids of its processors in order, as many as the
    kernel supports, and the last I/O APIC, and masks external interrupts if the
    machine asks for it.  Without such a structure it panics.  The search and
    the loops end. *)
Theorem mpinit_reads_table (m : Z -> Z) (imcr : Z) (s : smp) (Hm : forall a, 0 <= m a < 256) :
  (first_mp m = None -> mpinit m imcr s = Stop "Expect to run on an SMP") /\
  (forall mp es, first_mp m = Some mp -> mp_physaddr m mp <> 0 -> is_conf m (P2V (mp_physaddr m mp)) es -> Forall entry_ok es ->
   let s' := foldl learn (mk_smp (apicids s) (ncpu s) (ioapicid s) (conf_lapicaddr m (P2V (mp_physaddr m mp))) (mp_outs s)) es in
   mpinit m imcr s = Ret tt (mk_smp (apicids s') (ncpu s') (ioapicid s') (lapic s')
     (mp_outs s' ++ if mp_imcrp m mp =? 0 then [] else [(34, 112); (35, Z.lor imcr 1)]))).
Proof.
  split.
  - intros H. unfold mpinit, mpconfig. by rewrite (mpsearch_ok m Hm), H.
  - intros mp es Hmp H0 Hc Hes s'. unfold mpinit. rewrite (mpconfig_ok m Hm mp es) by done. erewrite bind_ret by reflexivity.
    set (conf := P2V (mp_physaddr m mp)) in *. destruct Hc as [_ _ Hlen _ Hb].
    erewrite bind_ret; [cbn [negb] |].
    2: { rewrite Hlen. rewrite Z.add_assoc. apply mp_entries_ok; [done | pose proof (table_long es Hes); unfold CONF_SIZE; lia | by apply rd_shows]. }
    fold s'. destruct (mp_imcrp m mp =? 0); cbn [negb]; [rewrite app_nil_r; by destruct s' |]. done.
Qed.

(** An entry of an unknown type is not skipped: the loop never ends, and the
    panic after it is not reached. *)
Theorem unknown_entry_hangs (m : Z -> Z) (p e : Z) (ismp : bool) (s : smp) (fuel : nat) :
  p < e -> m p ∉ [MPPROC; MPBUS; MPIOAPIC; MPIOINTR; MPLINTR] -> mp_entries m fuel p e ismp s = OutOfFuel.
Proof.
  intros Hp Ht. revert ismp. induction fuel as [| fuel IH]; intros ismp; [done |]. cbn [mp_entries].
  rewrite !not_elem_of_cons in Ht. destruct Ht as (T0 & T1 & T2 & T3 & T4 & _).
  destruct (Z.ltb_spec p e); [| lia].
  rewrite !(proj2 (Z.eqb_neq _ _)) by done. apply IH.
Qed.

(** A machine with one processor of id 3 and an I/O APIC of id 5; the structure
    is in the second place of the extended BIOS data area at 0x9FC00, the table
    at 0x9F800. *)
Definition demo_mp : list Z := mp_sign ++ [0; 248; 9; 0; 1; 4; 159; 0; 0; 0; 0; 0].
Definition demo_es : list entry := [Cpu 3 (replicate 18 0); IoApic 5 (replicate 6 0)].
Definition demo_conf : list Z :=
  conf_sign ++ [72; 0; 4; 154] ++ replicate 26 0 ++ [2; 0; 0; 0; 224; 254] ++ replicate 4 0 ++ table_bytes demo_es.
Definition demo_segs : list (Z * list Z) :=
  [(P2V 1038, [192; 159]); (P2V 654336 + 16, demo_mp); (P2V 653312, demo_conf)].
Fixpoint demo_mem (segs : list (Z * list Z)) (a : Z) : Z :=
  match segs with
  | [] => 0
  | (b, l) :: segs => if (b <=? a) && (a <? b + Z.of_nat (length l)) then nth (Z.to_nat (a - b)) l 0 else demo_mem segs a
  end.
Lemma demo_mem_bytes a : 0 <= demo_mem demo_segs a < 256.
Proof.
  assert (H : bool_decide (Forall (fun s => Forall (fun x => 0 <= x < 256) (snd s)) demo_segs) = true) by (vm_compute; reflexivity).
  apply bool_decide_eq_true in H. revert H. generalize demo_segs. induction 1 as [| [b l] segs Hl _ IH]; cbn [demo_mem]; [lia |].
  destruct (_ && _); [| exact IH]. cbn in Hl. destruct (nth_in_or_default (Z.to_nat (a - b)) l 0) as [Hin | ->]; [| lia].
  rewrite Forall_forall in Hl. by apply Hl, list_elem_of_In.
Qed.

Lemma mpinit_reads_table_witness :
  mpinit (demo_mem demo_segs) 0 (mk_smp [0] 0 0 0 []) = Ret tt (mk_smp [3] 1 5 4276092928 []).
Proof.
  destruct (mpinit_reads_table (demo_mem demo_segs) 0 (mk_smp [0] 0 0 0 []) demo_mem_bytes) as [_ H].
  etransitivity; [apply (H (P2V 654336 + 16) demo_es) | vm_compute; reflexivity].
  - vm_compute. reflexivity.
  - vm_compute. discriminate.
  - constructor; [vm_compute; reflexivity | right; vm_compute; reflexivity | vm_compute; reflexivity..].
  - repeat constructor.
Defined.
