(* ===== verification/Apic.v ===== *)
(** * Apic: project3/xv6-modified/lapic.c, ioapic.c and picirq.c

    The interrupt controllers and the clock.  The local APIC is the list of the
    writes to its registers, with what a register reads given by [rreg]; the
    wait for the delivery of an interrupt is bounded by [patience], the number
    of polls after which the hardware has delivered it.  The I/O APIC is its
    register file behind an index register.  The clock shows at its [i]-th read
    the value [clock i reg]. *)

From Stdlib Require Import ZArith Lia.
From stdpp Require Import base numbers strings option list.
From S2P Require Import Prelude SysProc.

Local Open Scope Z_scope.

(** ** lapic.c: the local APIC *)
Definition r_ID : Z := 8.
Definition r_VER : Z := 12.
Definition r_TPR : Z := 32.
Definition r_EOI : Z := 44.
Definition r_SVR : Z := 60.
Definition r_ESR : Z := 160.
Definition r_ICRLO : Z := 192.
Definition r_ICRHI : Z := 196.
Definition r_TIMER : Z := 200.
Definition r_PCINT : Z := 208.
Definition r_LINT0 : Z := 212.
Definition r_LINT1 : Z := 216.
Definition r_ERROR : Z := 220.
Definition r_TICR : Z := 224.
Definition r_TDCR : Z := 248.
Definition f_ENABLE : Z := 256.
Definition f_INIT : Z := 1280.
Definition f_STARTUP : Z := 1536.
Definition f_DELIVS : Z := 4096.
Definition f_ASSERT : Z := 16384.
Definition f_LEVEL : Z := 32768.
Definition f_BCAST : Z := 524288.
Definition f_X1 : Z := 11.
Definition f_PERIODIC : Z := 131072.
Definition f_MASKED : Z := 65536.
Definition IRQ_ERROR : Z := 19.
Definition CMOS_PORT : Z := 112.

(** [present] says that [lapic] is not null; ports and memory that are written
    besides the registers are in [lports] and [wrv]. *)
Record lapic_st := mk_lapic { present : bool; lwrites : list (Z * Z); lports : list (Z * Z); wrv : option (Z * Z) }.

Section lapic.
Variable rreg : Z -> Z.
(** Whether the [i]-th poll of [ICRLO] shows the interrupt as not delivered. *)
Variable busy : nat -> bool.

Definition lapicw (index value : Z) : M lapic_st unit :=
  modify (fun s => mk_lapic (present s) (lwrites s ++ [(index, u32 value)]) (lports s) (wrv s)).
Definition lport (p v : Z) : M lapic_st unit :=
  modify (fun s => mk_lapic (present s) (lwrites s) (lports s ++ [(p, v)]) (wrv s)).

(** [while(lapic[ICRLO] & DELIVS);] *)
Fixpoint wait_delivered (fuel i : nat) : M lapic_st unit :=
  match fuel with
  | O => out_of_fuel
  | S fuel => if busy i then wait_delivered fuel (S i) else skip
  end.

Definition lapicinit (patience : nat) : M lapic_st unit :=
  s ← get;
  if negb (present s) then skip else
  lapicw r_SVR (Z.lor f_ENABLE (T_IRQ0 + IRQ_SPURIOUS));;
  lapicw r_TDCR f_X1;;
  lapicw r_TIMER (Z.lor f_PERIODIC (T_IRQ0 + IRQ_TIMER));;
  lapicw r_TICR 10000000;;
  lapicw r_LINT0 f_MASKED;;
  lapicw r_LINT1 f_MASKED;;
  (if 4 <=? Z.land (Z.shiftr (rreg r_VER) 16) 255 then lapicw r_PCINT f_MASKED else skip);;
  lapicw r_ERROR (T_IRQ0 + IRQ_ERROR);;
  lapicw r_ESR 0;;
  lapicw r_ESR 0;;
  lapicw r_EOI 0;;
  lapicw r_ICRHI 0;;
  lapicw r_ICRLO (Z.lor (Z.lor f_BCAST f_INIT) f_LEVEL);;
  wait_delivered (S patience) 0;;
  lapicw r_TPR 0.

Definition lapicid : M lapic_st Z :=
  s ← get; mret (if present s then Z.shiftr (rreg r_ID) 24 else 0).
Definition lapiceoi : M lapic_st unit :=
  s ← get; if present s then lapicw r_EOI 0 else skip.

(** The two writes of the loop that starts a processor. *)
Definition startup_ipi (apicid addr : Z) : M lapic_st unit :=
  lapicw r_ICRHI (Z.shiftl apicid 24);; lapicw r_ICRLO (Z.lor f_STARTUP (Z.shiftr addr 12)).
Definition lapicstartap (apicid addr : Z) : M lapic_st unit :=
  lport CMOS_PORT 15;;
  lport (CMOS_PORT + 1) 10;;
  modify (fun s => mk_lapic (present s) (lwrites s) (lports s) (Some (0, u16 (Z.shiftr addr 4))));;
  lapicw r_ICRHI (Z.shiftl apicid 24);;
  lapicw r_ICRLO (Z.lor (Z.lor f_INIT f_LEVEL) f_ASSERT);;
  lapicw r_ICRLO (Z.lor f_INIT f_LEVEL);;
  startup_ipi apicid addr;;
  startup_ipi apicid addr.
End lapic.

(** ** lapic.c: the clock *)
Record rtcdate := mk_date { second : Z; minute : Z; hour : Z; day : Z; month : Z; year : Z }.
#[export] Instance rtcdate_eq_dec : EqDecision rtcdate.
Proof. solve_decision. Defined.

Definition CMOS_STATA : Z := 10.
Definition CMOS_STATB : Z := 11.
Definition CMOS_UIP : Z := 128.

Section clock.
Variable clock : nat -> Z -> Z.

(** The state is the number of reads. *)
Definition cmos_read (reg : Z) : M nat Z := fun i => Ret (clock i reg) (S i).

Definition fill_rtcdate : M nat rtcdate :=
  s ← cmos_read 0; mi ← cmos_read 2; h ← cmos_read 4; d ← cmos_read 7; mo ← cmos_read 8; y ← cmos_read 9;
  mret (mk_date s mi h d mo y).

Fixpoint cmos_loop (fuel : nat) : M nat rtcdate :=
  match fuel with
  | O => out_of_fuel
  | S fuel =>
      t1 ← fill_rtcdate;
      a ← cmos_read CMOS_STATA;
      if negb (Z.land a CMOS_UIP =? 0) then cmos_loop fuel else
      t2 ← fill_rtcdate;
      if bool_decide (t1 = t2) then mret t1 else cmos_loop fuel
  end.

Definition CONV (x : Z) : Z := Z.shiftr x 4 * 10 + Z.land x 15.
Definition conv_date (t : rtcdate) : rtcdate :=
  mk_date (CONV (second t)) (CONV (minute t)) (CONV (hour t)) (CONV (day t)) (CONV (month t)) (CONV (year t)).

Definition cmostime (fuel : nat) : M nat rtcdate :=
  sb ← cmos_read CMOS_STATB;
  t1 ← cmos_loop fuel;
  let t1 := if Z.land sb 4 =? 0 then conv_date t1 else t1 in
  mret (mk_date (second t1) (minute t1) (hour t1) (day t1) (month t1) (year t1 + 2000)).
End clock.

(** ** ioapic.c *)
Definition REG_ID : Z := 0.
Definition REG_VER : Z := 1.
Definition REG_TABLE : Z := 16.
Definition INT_DISABLED : Z := 65536.

Record ioapic := mk_ioapic { ioreg : Z; iodata : Z -> Z }.
Definition ioapicread (reg : Z) : M ioapic Z := fun s => Ret (iodata s reg) (mk_ioapic reg (iodata s)).
Definition ioapicwrite (reg data : Z) : M ioapic unit :=
  modify (fun s => mk_ioapic reg (fun r => if r =? reg then u32 data else iodata s r)).

(** The loop of [ioapicinit] from [i]. *)
Fixpoint mask_all (n : nat) (i : Z) : M ioapic unit :=
  match n with
  | O => skip
  | S n =>
      ioapicwrite (REG_TABLE + 2 * i) (Z.lor INT_DISABLED (T_IRQ0 + i));;
      ioapicwrite (REG_TABLE + 2 * i + 1) 0;;
      mask_all n (i + 1)
  end.
(** The result says whether the id is the one of the multiprocessor tables. *)
Definition ioapicinit (ioapicid : Z) : M ioapic bool :=
  v ← ioapicread REG_VER;
  let maxintr := Z.land (Z.shiftr v 16) 255 in
  x ← ioapicread REG_ID;
  mask_all (S (Z.to_nat maxintr)) 0;;
  mret (Z.shiftr x 24 =? ioapicid).
Definition ioapicenable (irq cpunum : Z) : M ioapic unit :=
  ioapicwrite (REG_TABLE + 2 * irq) (T_IRQ0 + irq);;
  ioapicwrite (REG_TABLE + 2 * irq + 1) (Z.shiftl cpunum 24).

(** ** picirq.c *)
Definition IO_PIC1 : Z := 32.
Definition IO_PIC2 : Z := 160.
Definition picinit : M (list (Z * Z)) unit :=
  modify (fun o => o ++ [(IO_PIC1 + 1, 255)]);; modify (fun o => o ++ [(IO_PIC2 + 1, 255)]).

(** ** Interrupts reach the vectors that trap.c serves *)

(** The two registers of line [i]: masked, or enabled and sent to a processor. *)
Definition line_regs (s : ioapic) (i : Z) : Z * Z := (iodata s (REG_TABLE + 2 * i), iodata s (REG_TABLE + 2 * i + 1)).
Definition line_off (i : Z) : Z * Z := (Z.lor INT_DISABLED (T_IRQ0 + i), 0).
Definition line_on (i cpu : Z) : Z * Z := (T_IRQ0 + i, cpu * 2 ^ 24).

Fixpoint enable_all (l : list (Z * Z)) : M ioapic unit :=
  match l with [] => skip | (irq, cpu) :: l => ioapicenable irq cpu;; enable_all l end.

Lemma lor_disabled x : 0 <= x < 65536 -> u32 (Z.lor INT_DISABLED x) = Z.lor INT_DISABLED x.
Proof.
  intros Hx. unfold INT_DISABLED. apply u32_small. split; [apply Z.lor_nonneg; lia |].
  destruct (decide (x = 0)) as [-> | H0]; [vm_compute; reflexivity |].
  apply Z.log2_lt_cancel. rewrite Z.log2_lor by lia. apply Z.max_lub_lt; [vm_compute; reflexivity |].
  apply Z.le_lt_trans with (Z.log2 65536); [apply Z.log2_le_mono; lia | vm_compute; reflexivity].
Qed.

(** Writing the registers of line [i] changes that line only. *)
Lemma line_write i lo hi s : exists s',
  (ioapicwrite (REG_TABLE + 2 * i) lo;; ioapicwrite (REG_TABLE + 2 * i + 1) hi) s = Ret tt s' /\
  line_regs s' i = (u32 lo, u32 hi) /\ (forall j, j <> i -> line_regs s' j = line_regs s j).
Proof.
  eexists. split; [unfold ioapicwrite, modify, mbind, M_bind; reflexivity |]. unfold line_regs. cbn [iodata]. split.
  - rewrite Z.eqb_refl. destruct (Z.eqb_spec (REG_TABLE + 2 * i) (REG_TABLE + 2 * i + 1)); [lia |]. by rewrite Z.eqb_refl.
  - intros j Hj. f_equal; repeat (case_match; try lia; try done); rewrite ?Z.eqb_eq in *; lia.
Qed.

Lemma mask_all_ok n : forall i s, 0 <= i -> i + Z.of_nat n <= 256 -> exists s', mask_all n i s = Ret tt s' /\
  (forall j, i <= j < i + Z.of_nat n -> line_regs s' j = line_off j) /\
  (forall j, j < i -> line_regs s' j = line_regs s j).
Proof.
  induction n as [| n IH]; intros i s Hi Hn; cbn [mask_all]; [exists s; split; [done |]; split; [lia | done] |].
  destruct (line_write i (Z.lor INT_DISABLED (T_IRQ0 + i)) 0 s) as (s1 & E1 & H1 & Ho). cbn in E1.
  destruct (IH (i + 1) s1 ltac:(lia) ltac:(lia)) as (s2 & E2 & H2 & Hl). exists s2. split.
  - erewrite bind_ret by reflexivity. erewrite bind_ret by reflexivity. unfold ioapicwrite, modify, mbind, M_bind in E1.
    injection E1 as E1. rewrite <- E1 in E2. exact E2.
  - split; [| intros j Hj; rewrite Hl by lia; apply Ho; lia]. intros j Hj. destruct (decide (j = i)) as [-> | Hne]; [| apply H2; lia].
    rewrite Hl, H1 by lia. unfold line_off, T_IRQ0. by rewrite lor_disabled by lia.
Qed.

Lemma enable_all_ok l : Forall (fun x => 0 <= fst x < 256 /\ 0 <= snd x < 256) l -> NoDup (map fst l) -> forall s,
  exists s', enable_all l s = Ret tt s' /\
  (forall irq cpu, (irq, cpu) ∈ l -> line_regs s' irq = line_on irq cpu) /\
  (forall j, j ∉ map fst l -> line_regs s' j = line_regs s j).
Proof.
  induction 1 as [| [irq cpu] l [Hi Hc] Hl IH]; intros Hd s.
  - exists s. split; [done |]. split; [by intros ? ? ?%elem_of_nil | done].
  - cbn [map fst] in Hd. apply NoDup_cons in Hd as [Hnin Hd].
    destruct (line_write irq (T_IRQ0 + irq) (Z.shiftl cpu 24) s) as (s1 & E1 & H1 & Ho).
    destruct (IH Hd s1) as (s2 & E2 & H2 & Hk). exists s2. cbn [enable_all]. split_and!.
    + unfold ioapicenable. by rewrite (bind_ret _ _ _ _ _ E1).
    + intros j c [[= -> ->] | Hj]%elem_of_cons; [| by apply H2].
      rewrite Hk, H1 by done. unfold line_on, T_IRQ0. cbn [snd fst] in *. rewrite Z.shiftl_mul_pow2 by lia. rewrite !u32_small by lia. done.
    + intros j [Hji Hjl]%not_elem_of_cons. by rewrite Hk, Ho.
Qed.

(** After the start of the I/O APIC and any calls of [ioapicenable] for
    different lines, exactly those lines are unmasked; line [irq] raises the
    vector T_IRQ0 + irq, which is the one that [trap] serves, at the given
    processor. *)
Theorem interrupts_routed (ioapicid : Z) (l : list (Z * Z)) (s : ioapic)
  (Hl : Forall (fun x => 0 <= fst x < 256 /\ 0 <= snd x < 256) l) (Hd : NoDup (map fst l)) :
  exists b s', (b ← ioapicinit ioapicid; enable_all l;; mret b) s = Ret b s' /\
    (forall irq cpu, (irq, cpu) ∈ l -> line_regs s' irq = line_on irq cpu) /\
    (forall i, 0 <= i <= Z.land (Z.shiftr (iodata s REG_VER) 16) 255 -> i ∉ map fst l -> line_regs s' i = line_off i).
Proof.
  assert (Hmax : 0 <= Z.land (Z.shiftr (iodata s REG_VER) 16) 255 < 256).
  { change 255 with (Z.ones 8). rewrite Z.land_ones by lia. apply Z.mod_pos_bound. lia. }
  set (mx := Z.land (Z.shiftr (iodata s REG_VER) 16) 255) in *.
  destruct (mask_all_ok (S (Z.to_nat mx)) 0 (mk_ioapic REG_ID (iodata s)) ltac:(lia) ltac:(lia)) as (s1 & E1 & H1 & _).
  destruct (enable_all_ok l Hl Hd s1) as (s2 & E2 & H2 & H3).
  exists (Z.shiftr (iodata s REG_ID) 24 =? ioapicid), s2. split_and!; [| exact H2 |].
  - erewrite bind_ret; [by rewrite (bind_ret _ _ _ _ _ E2) |]. unfold ioapicinit. do 2 (erewrite bind_ret by reflexivity).
    fold mx. cbn [iodata]. by rewrite (bind_ret _ _ _ _ _ E1).
  - intros i Hi Hn. rewrite H3 by done. apply H1. lia.
Qed.

(** ** The clock *)
Section clock_proofs.
Variable clock : nat -> Z -> Z.

(** The six registers, read from the [i]-th read on. *)
Definition reading (i : nat) : rtcdate :=
  mk_date (clock i 0) (clock (i + 1) 2) (clock (i + 2) 4) (clock (i + 3) 7) (clock (i + 4) 8) (clock (i + 5) 9).
Definition updating (i : nat) : bool := negb (Z.land (clock i CMOS_STATA) CMOS_UIP =? 0).

Lemma fill_ok i : fill_rtcdate clock i = Ret (reading i) (i + 6)%nat.
Proof.
  unfold fill_rtcdate, cmos_read, mbind, M_bind, mret, M_ret, reading. cbn.
  rewrite !Nat.add_succ_r, !Nat.add_0_r. reflexivity.
Qed.

(** The clock shows the same date from the [N]-th read on. *)
Definition settled (N : nat) : Prop :=
  forall j, (N <= j)%nat -> updating j = false /\ forall reg, reg ∈ [0; 2; 4; 7; 8; 9] -> clock j reg = clock N reg.

Lemma settled_reading N i j : settled N -> (N <= i)%nat -> (N <= j)%nat -> reading i = reading j.
Proof.
  intros Hs Hi Hj. unfold reading.
  assert (E : forall a b reg, (N <= a)%nat -> (N <= b)%nat -> reg ∈ [0; 2; 4; 7; 8; 9] -> clock a reg = clock b reg).
  { intros a b reg Ha Hb Hr. by rewrite (proj2 (Hs a Ha) reg Hr), (proj2 (Hs b Hb) reg Hr). }
  f_equal; apply E; try lia; repeat (try (left; fail); (apply elem_of_cons; (by left) || right)).
Qed.

Lemma cmos_loop_ok N fuel : settled N -> forall i, (N < fuel + i)%nat -> (1 <= fuel)%nat -> exists t j k,
  cmos_loop clock fuel i = Ret t j /\ (i <= k)%nat /\ reading k = t /\ reading (k + 7) = t /\ updating (k + 6) = false.
Proof.
  intros Hs. induction fuel as [| fuel IH]; intros i Hi Hf; [lia |]. cbn [cmos_loop].
  rewrite (bind_ret _ _ _ _ _ (fill_ok i)).
  assert (Ec : cmos_read clock CMOS_STATA (i + 6)%nat = Ret (clock (i + 6) CMOS_STATA) (i + 7)%nat)
    by (unfold cmos_read; f_equal; lia).
  rewrite (bind_ret _ _ _ _ _ Ec). fold (updating (i + 6)).
  assert (Hagain : forall i', (i < i')%nat -> (N <= i -> fuel = 0 -> False)%nat -> exists t j k,
    cmos_loop clock fuel i' = Ret t j /\ (i <= k)%nat /\ reading k = t /\ reading (k + 7) = t /\ updating (k + 6) = false).
  { intros i' Hi' Hn. destruct (decide (fuel = 0)%nat) as [-> | Hf0]; [exfalso; apply Hn; lia |].
    destruct (IH i' ltac:(lia) ltac:(lia)) as (t & j & k & E & Hk & H). exists t, j, k. split; [done |]. split; [lia | done]. }
  destruct (updating (i + 6)) eqn:Eu.
  - apply Hagain; [lia |]. intros Hn _. destruct (Hs (i + 6)%nat) as [Hu _]; [lia | congruence].
  - rewrite (bind_ret _ _ _ _ _ (fill_ok (i + 7))). case_bool_decide as Et.
    + exists (reading i), (i + 7 + 6)%nat, i. split_and!; [done | lia | done | by symmetry | done].
    + apply Hagain; [lia |]. intros Hn _. apply Et. apply (settled_reading N); [done | lia | lia].
Qed.
End clock_proofs.

(** A number below 100 in binary coded decimal. *)
Definition bcd (v : Z) : Z := v / 10 * 16 + v mod 10.
Lemma conv_bcd v : 0 <= v < 100 -> CONV (bcd v) = v.
Proof.
  intros Hv. assert (H : forallb (fun k => CONV (bcd (Z.of_nat k)) =? Z.of_nat k) (seq 0 100) = true) by (vm_compute; reflexivity).
  rewrite forallb_forall in H. specialize (H (Z.to_nat v)). rewrite Z2Nat.id in H by lia. apply Z.eqb_eq, H, in_seq. lia.
Qed.

(** Reading the clock: once it no longer changes the loop ends; the date that is
    returned was read twice in a row with no update between, and is converted
    from binary coded decimal exactly when the clock says so. *)
Theorem cmostime_reads_clock (clock : nat -> Z -> Z) (N : nat) (Hs : settled clock N) :
  exists t j k, cmostime clock (S N) 0%nat = Ret t j /\ reading clock k = reading clock (k + 7) /\
    updating clock (k + 6) = false /\
    let d := if Z.land (clock 0%nat CMOS_STATB) 4 =? 0 then conv_date (reading clock k) else reading clock k in
    t = mk_date (second d) (minute d) (hour d) (day d) (month d) (year d + 2000).
Proof.
  destruct (cmos_loop_ok clock N (S N) Hs 1%nat ltac:(lia) ltac:(lia)) as (t & j & k & E & _ & H1 & H2 & H3).
  eexists _, j, k. split_and!; [| by rewrite H1, H2 | exact H3 | rewrite H1; reflexivity].
  unfold cmostime. erewrite bind_ret by reflexivity. by rewrite (bind_ret _ _ _ _ _ E).
Qed.

(** The local APIC is set up if the interrupt that it sends is delivered: the
    timer then raises the vector that [trap] counts as a tick, the local lines
    are masked and the last write lets interrupts in; without a local APIC
    nothing is written. *)
Theorem lapicinit_spec (rreg : Z -> Z) (busy : nat -> bool) (patience : nat) (s : lapic_st) :
  (present s = false -> lapicinit rreg busy patience s = Ret tt s) /\
  (present s = true -> busy patience = false -> exists w,
    lapicinit rreg busy patience s = Ret tt (mk_lapic true (lwrites s ++ w) (lports s) (wrv s)) /\
    (r_TIMER, Z.lor f_PERIODIC (T_IRQ0 + IRQ_TIMER)) ∈ w /\ (r_LINT0, f_MASKED) ∈ w /\ (r_LINT1, f_MASKED) ∈ w /\
    last w = Some (r_TPR, 0)).
Proof.
  assert (Hwait : forall n i s, busy (i + n)%nat = false -> wait_delivered busy (S n) i s = Ret tt s).
  { induction n as [| n IH]; intros i s' Hb; cbn [wait_delivered].
    - by rewrite Nat.add_0_r in Hb; rewrite Hb.
    - destruct (busy i); [| done]. apply IH. by rewrite Nat.add_succ_l, <- Nat.add_succ_r. }
  split.
  - intros Hp. unfold lapicinit. erewrite bind_ret by reflexivity. by rewrite Hp.
  - intros Hp Hb. specialize (Hwait patience 0%nat). unfold lapicinit. erewrite bind_ret by reflexivity. rewrite Hp. cbn [negb].
    do 6 (erewrite bind_ret by reflexivity). cbn [present lwrites lports wrv].
    destruct (4 <=? Z.land (Z.shiftr (rreg r_VER) 16) 255); do 7 (erewrite bind_ret by reflexivity); cbn [present lwrites lports wrv];
      erewrite bind_ret by (by apply Hwait); eexists; (split; [unfold lapicw, modify; cbn [present lwrites lports wrv]; rewrite Hp, <- !app_assoc; reflexivity |]);
      (split_and!; [apply list_elem_of_In; vm_compute; tauto.. | reflexivity]).
Qed.
