(* ===== verification/Progs.v ===== *)
(** * Progs: project3/xv6-modified/cat.c, wc.c and echo.c

    Programs that read files and print.  They see the system calls from their
    side of the descriptors: a descriptor that is read delivers bytes in pieces,
    as a pipe or the console does, and then the end of the file or an error; one
    that is written takes all of what is written, or nothing when it is a pipe
    that nobody reads.  Strings are their characters without the terminator. *)

From Stdlib Require Import ZArith Lia.
From stdpp Require Import base numbers strings option list gmap.
From S2P Require Import Prelude Kernel Console Printf Grep.

Local Open Scope Z_scope.

(** ** System calls as a program sees them *)
Record desc := mk_desc { d_pieces : list (list Z); d_err : bool }.
Definition contents (d : desc) : list Z := concat (d_pieces d).
Record io := mk_io { io_out : list Z; io_alive : bool; io_fds : gmap nat desc; io_dir : list Z -> option desc }.

Definition add_out (l : list Z) (s : io) : io := mk_io (io_out s ++ l) (io_alive s) (io_fds s) (io_dir s).
Definition set_fds (f : gmap nat desc) (s : io) : io := mk_io (io_out s) (io_alive s) f (io_dir s).

(** The lowest free descriptor. *)
Definition free_fd (f : gmap nat desc) : option nat := find (fun k => bool_decide (f !! k = None)) (seq 0 NOFILE).

(** A negative result is [None]. *)
Definition u_open (path : list Z) : M io (option nat) := fun s =>
  match io_dir s path, free_fd (io_fds s) with
  | Some d, Some fd => Ret (Some fd) (set_fds (<[fd := d]> (io_fds s)) s)
  | _, _ => Ret None s
  end.
Definition u_close (fd : nat) : M io unit := fun s => Ret tt (set_fds (delete fd (io_fds s)) s).
Definition u_read (fd max : nat) : M io (option (list Z)) := fun s =>
  match io_fds s !! fd with
  | None => Ret None s
  | Some (mk_desc ps err) =>
      match ps with
      | [] => Ret (if err then None else Some []) s
      | _ => let '(bs, ps) := read_fd max ps in Ret (Some bs) (set_fds (<[fd := mk_desc ps err]> (io_fds s)) s)
      end
  end.
Definition u_write (bs : list Z) : M io (option nat) := fun s =>
  if io_alive s then Ret (Some (length bs)) (add_out bs s) else Ret None s.

(** [printf(1, fmt, ...)] with the strings of [strs] at the addresses from 1 on;
    it ignores what [write] returns. *)
Definition u_printf (strs : list (list Z)) (ap : list Z) (fmt : list Z) : M io unit := fun s =>
  match printf (fun p => nth (Z.to_nat (p - 1)) strs []) (fun k => nth k ap 0) fmt [] with
  | Ret _ l => Ret tt (if io_alive s then add_out l s else s)
  | _ => Stop "printf"
  end.

(** ** cat, wc, echo *)
Definition BUF : nat := 512.

Section pieces_loop.
Context {A : Type} (body : A -> list Z -> M io (option A)).
(** [while((n = read(fd, buf, sizeof(buf))) > 0)]: [None] when the body leaves
    the program, otherwise the variables of the loop and whether [n < 0]. *)
Fixpoint pieces_loop (fuel fd : nat) (a : A) : M io (option (A * bool)) :=
  match fuel with
  | O => out_of_fuel
  | S fuel =>
      n ← u_read fd BUF;
      match n with
      | None => mret (Some (a, true))
      | Some [] => mret (Some (a, false))
      | Some bs =>
          r ← body a bs;
          match r with None => mret None | Some a => pieces_loop fuel fd a end
      end
  end.
(** As often as there are bytes to read, and once more. *)
Definition reads (fd : nat) (a : A) : M io (option (A * bool)) := fun s =>
  pieces_loop (S (length (match io_fds s !! fd with Some d => contents d | None => [] end))) fd a s.
End pieces_loop.

(** "cat: write error\n", "cat: read error\n", "cat: cannot open %s\n" *)
Definition cat_write_error : list Z := [99; 97; 116; 58; 32; 119; 114; 105; 116; 101; 32; 101; 114; 114; 111; 114; 10].
Definition cat_read_error : list Z := [99; 97; 116; 58; 32; 114; 101; 97; 100; 32; 101; 114; 114; 111; 114; 10].
Definition cat_open_error : list Z := [99; 97; 116; 58; 32; 99; 97; 110; 110; 111; 116; 32; 111; 112; 101; 110; 32; 37; 115; 10].
(** "wc: read error\n", "wc: cannot open %s\n", "%d %d %d %s\n" *)
Definition wc_read_error : list Z := [119; 99; 58; 32; 114; 101; 97; 100; 32; 101; 114; 114; 111; 114; 10].
Definition wc_open_error : list Z := [119; 99; 58; 32; 99; 97; 110; 110; 111; 116; 32; 111; 112; 101; 110; 32; 37; 115; 10].
Definition wc_format : list Z := [37; 100; 32; 37; 100; 32; 37; 100; 32; 37; 115; 10].

(** The result says whether the program goes on; [false] is [exit()]. *)
Definition cat_body (_ : unit) (bs : list Z) : M io (option unit) :=
  n ← u_write bs;
  if bool_decide (n = Some (length bs)) then mret (Some tt) else u_printf [] [] cat_write_error;; mret None.
Definition cat (fd : nat) : M io bool :=
  r ← reads cat_body fd tt;
  match r with
  | None => mret false
  | Some (_, true) => u_printf [] [] cat_read_error;; mret false
  | Some (_, false) => mret true
  end.

(** [l], [w], [c] and [inword] *)
Record counts := mk_counts { n_l : Z; n_w : Z; n_c : Z; inword : bool }.
(** [strchr(" \r\t\n\v", b)] is not null. *)
Definition wc_space (b : Z) : bool := existsb (Z.eqb b) [32; 13; 9; 10; 11].
Definition wc_step (k : counts) (b : Z) : counts :=
  let c := s32 (n_c k + 1) in
  let l := if b =? 10 then s32 (n_l k + 1) else n_l k in
  if wc_space b then mk_counts l (n_w k) c false
  else if negb (inword k) then mk_counts l (s32 (n_w k + 1)) c true
  else mk_counts l (n_w k) c (inword k).
Definition wc_body (k : counts) (bs : list Z) : M io (option counts) := mret (Some (foldl wc_step k bs)).
Definition wc (fd : nat) (name : list Z) : M io bool :=
  r ← reads wc_body fd (mk_counts 0 0 0 false);
  match r with
  | None => mret false
  | Some (_, true) => u_printf [] [] wc_read_error;; mret false
  | Some (k, false) => u_printf [name] [n_l k; n_w k; n_c k; 1] wc_format;; mret true
  end.

(** [for(i = 1; i < argc; i++)] over the arguments of [cat] and [wc]. *)
Fixpoint each_file (open_error : list Z) (f : nat -> list Z -> M io bool) (args : list (list Z)) : M io unit :=
  match args with
  | [] => skip
  | a :: args =>
      fd ← u_open a;
      match fd with
      | None => u_printf [a] [1] open_error
      | Some fd =>
          go ← f fd a;
          if negb go then skip else u_close fd;; each_file open_error f args
      end
  end.
Definition cat_main (argv : list (list Z)) : M io unit :=
  if (length argv <=? 1)%nat then cat 0;; skip else each_file cat_open_error (fun fd _ => cat fd) (drop 1 argv).
Definition wc_main (argv : list (list Z)) : M io unit :=
  if (length argv <=? 1)%nat then wc 0 [];; skip else each_file wc_open_error wc (drop 1 argv).

(** "%s%s", " " and "\n" *)
Definition echo_format : list Z := [37; 115; 37; 115].
Fixpoint echo_loop (args : list (list Z)) : M io unit :=
  match args with
  | [] => skip
  | a :: args => u_printf [a; if bool_decide (args = []) then [10] else [32]] [1; 2] echo_format;; echo_loop args
  end.
Definition echo_main (argv : list (list Z)) : M io unit := echo_loop (drop 1 argv).

(** ** What they print *)

(** The maximal runs without blanks, some of them empty. *)
Fixpoint fields (data : list Z) : list Z * list (list Z) :=
  match data with
  | [] => ([], [])
  | b :: data => let '(f, fs) := fields data in if wc_space b then ([], f :: fs) else (b :: f, fs)
  end.
Definition words (data : list Z) : list (list Z) := let '(f, fs) := fields data in filter (fun w => w <> []) (f :: fs).
Definition newlines (data : list Z) : list Z := filter (fun b => b = 10) data.

(** A number as [%d] prints it. *)
Definition dec (n : nat) : list Z := number digits_upper (Z.of_nat n) 10 true.
Definition wc_line (data name : list Z) : list Z :=
  dec (length (newlines data)) ++ [32] ++ dec (length (words data)) ++ [32] ++ dec (length data) ++ [32] ++ name ++ [10].

(** A file that can be read to its end. *)
Definition readable (d : desc) : Prop := Forall (fun p => p <> []) (d_pieces d) /\ d_err d = false.

(** ** The counters of wc *)
(** The words that start in [data], after a character of a word or not. *)
Definition new_words (inw : bool) (data : list Z) : nat :=
  let '(f, fs) := fields data in length (filter (fun w => w <> []) (if inw then fs else f :: fs)).

Lemma wc_steps data : forall l w c inw, 0 <= l <= c -> 0 <= w <= c -> c + Z.of_nat (length data) < 2 ^ 31 -> exists inw',
  foldl wc_step (mk_counts l w c inw) data =
    mk_counts (l + Z.of_nat (length (newlines data))) (w + Z.of_nat (new_words inw data)) (c + Z.of_nat (length data)) inw'.
Proof.
  induction data as [| b data IH]; intros l w c inw Hl Hw Hc.
  { exists inw. replace (new_words inw []) with 0%nat by (by destruct inw). change (newlines []) with (@nil Z). cbn [foldl length].
    f_equal; lia. }
  cbn [foldl length] in *. unfold wc_step at 2. cbn [n_l n_w n_c inword]. rewrite !s32_small by lia.
  assert (Hnl : length (newlines (b :: data)) = ((if (b =? 10)%Z then 1 else 0) + length (newlines data))%nat).
  { unfold newlines. rewrite filter_cons. destruct (Z.eqb_spec b 10); by case_decide. }
  assert (Hnw : new_words inw (b :: data) =
    (if wc_space b then new_words false data else (if inw then 0 else 1) + new_words true data)%nat).
  { unfold new_words. cbn [fields]. destruct (fields data) as [f fs]. destruct (wc_space b), inw; done. }
  rewrite Hnl, Hnw. destruct (wc_space b); [| destruct inw; cbn [negb]].
  - destruct (IH (if b =? 10 then l + 1 else l) w (c + 1) false) as [i E]; [destruct (b =? 10); lia | lia | lia |].
    exists i. rewrite E. f_equal; destruct (b =? 10); lia.
  - destruct (IH (if b =? 10 then l + 1 else l) w (c + 1) true) as [i E]; [destruct (b =? 10); lia | lia | lia |].
    exists i. rewrite E. f_equal; destruct (b =? 10); lia.
  - destruct (IH (if b =? 10 then l + 1 else l) (w + 1) (c + 1) true) as [i E]; [destruct (b =? 10); lia | lia | lia |].
    exists i. rewrite E. f_equal; destruct (b =? 10); lia.
Qed.

Lemma new_words_le inw data : (new_words inw data <= length data)%nat.
Proof.
  revert inw. induction data as [| b data IH]; intros inw; [by destruct inw |]. pose proof (IH false) as H0. pose proof (IH true) as H1.
  unfold new_words in *. cbn [fields length]. destruct (fields data) as [f fs]. rewrite !filter_cons in *.
  destruct (wc_space b), inw; repeat case_decide; cbn [length] in *; rewrite ?filter_cons; repeat case_decide; cbn [length] in *; try done; lia.
Qed.

Lemma words_new data : length (words data) = new_words false data.
Proof. unfold words, new_words. by destruct (fields data). Qed.

(** ** Reading to the end *)
Lemma add_out_add a b s : add_out b (add_out a s) = add_out (a ++ b) s.
Proof. unfold add_out. cbn. by rewrite <- app_assoc. Qed.
Lemma add_out_nil s : add_out [] s = s.
Proof. unfold add_out. rewrite app_nil_r. by destruct s. Qed.

Section reading.
Context {A : Type} (body : A -> list Z -> M io (option A)) (step : A -> Z -> A) (h : list Z -> list Z).
Hypothesis h_nil : h [] = [].
Hypothesis h_app : forall x y, h (x ++ y) = h x ++ h y.
Hypothesis body_ok : forall a bs s, io_alive s = true -> body a bs s = Ret (Some (foldl step a bs)) (add_out (h bs) s).

(** The loop does not depend on the pieces in which the bytes arrive. *)
Lemma pieces_loop_ok fuel : forall ps err fd a s, io_alive s = true -> io_fds s !! fd = Some (mk_desc ps err) ->
  Forall (fun p => p <> []) ps -> (length (concat ps) < fuel)%nat ->
  pieces_loop body fuel fd a s = Ret (Some (foldl step a (concat ps), err)) (set_fds (<[fd := mk_desc [] err]> (io_fds s)) (add_out (h (concat ps)) s)).
Proof using h_nil h_app body_ok.
  induction fuel as [| fuel IH]; intros ps err fd a s Ha Hfd Hne Hlen; [lia |]. cbn [pieces_loop].
  destruct ps as [| p ps].
  - erewrite bind_ret by (unfold u_read; rewrite Hfd; reflexivity). cbn [concat foldl]. rewrite h_nil, add_out_nil, insert_id by done.
    destruct s, err; done.
  - set (ps0 := p :: ps) in *. destruct (read_fd BUF ps0) as [bs ps'] eqn:Er.
    assert (Hr : bs <> [] /\ concat ps0 = bs ++ concat ps' /\ Forall (fun p => p <> []) ps').
    { apply Forall_cons in Hne as [Hp Hps]. unfold ps0, read_fd in Er. destruct (Nat.leb_spec (length p) BUF); injection Er as <- <-; [done |].
      split; [destruct p; [done | cbn; done] |]. split; [cbn [ps0 concat]; by rewrite app_assoc, take_drop |].
      constructor; [| done]. intros E. apply (f_equal length) in E. rewrite length_drop in E. cbn in E. lia. }
    destruct Hr as (Hbs & Ec & Hne'). set (s1 := set_fds (<[fd := mk_desc ps' err]> (io_fds s)) s).
    assert (Eread : u_read fd BUF s = Ret (Some bs) s1) by (unfold u_read; rewrite Hfd; unfold ps0 in *; by rewrite Er).
    rewrite (bind_ret _ _ _ _ _ Eread). destruct bs as [| b bs]; [done |]. rewrite (bind_ret _ _ _ _ _ (body_ok a (b :: bs) s1 Ha)).
    rewrite (IH ps' err); [| done | by apply lookup_insert_eq | done | rewrite Ec, length_app in Hlen; cbn [length] in Hlen; lia].
    rewrite Ec, foldl_app. f_equal. unfold set_fds, add_out. cbn. rewrite insert_insert_eq, <- app_assoc, <- h_app. done.
Qed.

Lemma reads_ok d fd a s : io_alive s = true -> io_fds s !! fd = Some d -> Forall (fun p => p <> []) (d_pieces d) ->
  reads body fd a s = Ret (Some (foldl step a (contents d), d_err d))
    (set_fds (<[fd := mk_desc [] (d_err d)]> (io_fds s)) (add_out (h (contents d)) s)).
Proof using h_nil h_app body_ok.
  intros Ha Hfd Hne. unfold reads. rewrite Hfd. destruct d as [ps err]. apply pieces_loop_ok; [done | done | done | unfold contents; cbn; lia].
Qed.
End reading.

(** ** The programs *)
Lemma u_printf_ok strs ap fmt s : Forall bytes_ok strs -> bytes_ok fmt -> io_alive s = true ->
  u_printf strs ap fmt s =
  Ret tt (add_out (render (fun p => nth (Z.to_nat (p - 1)) strs []) (fun k => nth k ap 0) digits_upper true fmt 0) s).
Proof.
  intros Hs Hf Ha. unfold u_printf, printf.
  rewrite (printf_loop_ok (fun p => nth (Z.to_nat (p - 1)) strs []) _) with (n := length fmt); [by rewrite Ha | | done | done].
  intros p. destruct (decide (Z.to_nat (p - 1) < length strs)%nat) as [Hlt |].
  - destruct (lookup_lt_is_Some_2 strs _ Hlt) as [x Hx]. rewrite (nth_lookup_Some _ _ _ _ Hx). by apply (Forall_lookup_1 _ _ _ _ Hs Hx).
  - rewrite nth_overflow by lia. constructor.
Qed.

Lemma cat_ok d fd s : io_alive s = true -> io_fds s !! fd = Some d -> readable d ->
  cat fd s = Ret true (set_fds (<[fd := mk_desc [] false]> (io_fds s)) (add_out (contents d) s)).
Proof.
  intros Ha Hfd [Hne He]. unfold cat. erewrite bind_ret.
  2: { apply (reads_ok cat_body (fun u _ => u) (fun l => l)); try done. intros [] bs s' Ha'. unfold cat_body.
       erewrite bind_ret by (unfold u_write; rewrite Ha'; reflexivity). rewrite bool_decide_true by done.
       enough (E : foldl (fun u _ => u) tt bs = tt) by (by rewrite E). by destruct (foldl _ _ _). }
  rewrite He. done.
Qed.

Lemma wc_ok d fd name s : io_alive s = true -> io_fds s !! fd = Some d -> readable d -> bytes_ok name ->
  Z.of_nat (length (contents d)) < 2 ^ 31 ->
  wc fd name s = Ret true (set_fds (<[fd := mk_desc [] false]> (io_fds s)) (add_out (wc_line (contents d) name) s)).
Proof.
  intros Ha Hfd [Hne He] Hn Hlen. unfold wc. erewrite bind_ret.
  2: { apply (reads_ok wc_body wc_step (fun _ => [])); try done. intros k bs s' _. by rewrite add_out_nil. }
  rewrite He, add_out_nil. destruct (wc_steps (contents d) 0 0 0 false) as [i E]; [lia.. |]. rewrite E. cbn [n_l n_w n_c].
  erewrite bind_ret by (apply u_printf_ok; [by repeat constructor | repeat constructor; lia | done]).
  pose proof (new_words_le false (contents d)) as Hw. pose proof (length_filter (fun b => b = 10) (contents d)) as Hl.
  fold (newlines (contents d)) in Hl. cbn [wc_format render nth Z.eqb Pos.eqb negb orb andb PERCENT string_arg].
  rewrite !Z.add_0_l, !s32_small by lia.
  rewrite <- (words_new (contents d)). done.
Qed.

Lemma free_fd_free f fd : free_fd f = Some fd -> f !! fd = None.
Proof. intros H. apply find_some in H as [_ H]. by apply bool_decide_eq_true in H. Qed.

Section files.
Context (open_error : list Z) (f : nat -> list Z -> M io bool) (ok : list Z -> desc -> Prop) (text : list Z -> desc -> list Z).
Hypothesis f_ok : forall d fd a s, io_alive s = true -> io_fds s !! fd = Some d -> ok a d ->
  f fd a s = Ret true (set_fds (<[fd := mk_desc [] false]> (io_fds s)) (add_out (text a d) s)).

(** The files one after the other; every descriptor is given back, so that their
    number does not matter.  The first one that is missing ends the program. *)
Lemma each_file_ok args ds rest : forall s, io_alive s = true -> free_fd (io_fds s) <> None ->
  Forall2 (fun a d => io_dir s a = Some d /\ ok a d) args ds ->
  each_file open_error f (args ++ rest) s = each_file open_error f rest (add_out (concat (zip_with text args ds)) s).
Proof using f_ok.
  revert ds. induction args as [| a args IH]; intros ds s Ha Hfree H; inversion H as [| ? d ? ds' [Hd Hok] Hds]; subst.
  { cbn. by rewrite add_out_nil. }
  cbn [app each_file zip_with concat]. destruct (free_fd (io_fds s)) as [fd |] eqn:Efd; [| done].
  erewrite bind_ret by (unfold u_open; rewrite Hd, Efd; reflexivity). cbv iota.
  set (s1 := set_fds (<[fd := d]> (io_fds s)) s). erewrite bind_ret by (apply (f_ok d); [done | by apply lookup_insert_eq | done]).
  cbn [negb]. erewrite bind_ret by reflexivity.
  match goal with |- each_file _ _ _ ?x = _ => replace x with (add_out (text a d) s) end.
  2: { unfold s1, set_fds, add_out. cbn. rewrite insert_insert_eq, delete_insert_id by (by apply free_fd_free). done. }
  rewrite (IH ds'); [by rewrite add_out_add | done | cbn [io_fds add_out]; by rewrite Efd | done].
Qed.
End files.

(** [cat] prints its files one after the other, or its input when it has no
    arguments, whatever the pieces in which [read] delivers the bytes and however
    many files there are, and leaves no descriptor open.  At a file it cannot
    open it prints the message and stops. *)
Theorem cat_concatenates prog args ds s : io_alive s = true -> free_fd (io_fds s) <> None ->
  Forall2 (fun a d => io_dir s a = Some d /\ readable d) args ds ->
  (args <> [] -> cat_main (prog :: args) s = Ret tt (add_out (concat (map contents ds)) s)) /\
  (forall d, io_fds s !! 0%nat = Some d -> readable d ->
     cat_main [prog] s = Ret tt (set_fds (<[0%nat := mk_desc [] false]> (io_fds s)) (add_out (contents d) s))) /\
  (forall a rest, io_dir s a = None -> bytes_ok a ->
     cat_main (prog :: args ++ a :: rest) s =
     Ret tt (add_out (concat (map contents ds) ++ take 17 cat_open_error ++ a ++ [10]) s)).
Proof.
  intros Ha Hfree Hds.
  assert (Hmain : forall l, l <> [] -> cat_main (prog :: l) = each_file cat_open_error (fun fd _ => cat fd) l)
    by (intros [|]; done).
  assert (Hzip : concat (zip_with (fun _ d => contents d) args ds) = concat (map contents ds)).
  { clear - Hds. induction Hds as [| a d args ds _ _ IH]; [done |]. cbn. by rewrite IH. }
  pose proof (fun rest => each_file_ok cat_open_error (fun fd _ => cat fd) (fun _ d => readable d) (fun _ d => contents d)
    (fun d fd _ s Ha Hfd Hd => cat_ok d fd s Ha Hfd Hd) args ds rest s Ha Hfree Hds) as E. rewrite Hzip in E.
  split_and!.
  - intros Hne. rewrite Hmain by done. specialize (E []). rewrite app_nil_r in E. exact E.
  - intros d Hd Hr. unfold cat_main. cbn [length Nat.leb]. by rewrite (bind_ret _ _ _ _ _ (cat_ok d 0 s Ha Hd Hr)).
  - intros a rest Hna Hb. rewrite Hmain by (by destruct args). rewrite E. cbn [each_file].
    erewrite bind_ret by (unfold u_open; cbn [io_dir add_out]; rewrite Hna; reflexivity). cbv iota.
    rewrite u_printf_ok by (done || (by repeat constructor) || (repeat constructor; lia)). by rewrite add_out_add.
Qed.

(** [wc] prints a line for each file with the number of its newlines, of its
    words, which are the maximal runs without blanks, and of its bytes; a word
    that is cut by two reads counts once. *)
Theorem wc_counts prog args ds s : io_alive s = true -> free_fd (io_fds s) <> None ->
  Forall2 (fun a d => io_dir s a = Some d /\ readable d /\ bytes_ok a /\ Z.of_nat (length (contents d)) < 2 ^ 31) args ds ->
  (args <> [] -> wc_main (prog :: args) s = Ret tt (add_out (concat (zip_with (fun a d => wc_line (contents d) a) args ds)) s)) /\
  (forall d, io_fds s !! 0%nat = Some d -> readable d -> Z.of_nat (length (contents d)) < 2 ^ 31 ->
     wc_main [prog] s = Ret tt (set_fds (<[0%nat := mk_desc [] false]> (io_fds s)) (add_out (wc_line (contents d) []) s))).
Proof.
  intros Ha Hfree Hds. split.
  - intros Hne. pose proof (each_file_ok wc_open_error wc
      (fun a d => readable d /\ bytes_ok a /\ Z.of_nat (length (contents d)) < 2 ^ 31) (fun a d => wc_line (contents d) a)
      (fun d fd a s Ha Hfd H => wc_ok d fd a s Ha Hfd (proj1 H) (proj1 (proj2 H)) (proj2 (proj2 H))) args ds [] s Ha Hfree Hds) as E.
    rewrite app_nil_r in E. by destruct args.
  - intros d Hd Hr Hl. unfold wc_main. cbn [length Nat.leb].
    by rewrite (bind_ret _ _ _ _ _ (wc_ok d 0 [] s Ha Hd Hr (Forall_nil_2 _) Hl)).
Qed.

(** The arguments with blanks between them and a newline at the end. *)
Fixpoint echo_text (args : list (list Z)) : list Z :=
  match args with [] => [] | [a] => a ++ [10] | a :: args => a ++ [32] ++ echo_text args end.

(** [echo] prints its arguments on a line, and nothing at all without arguments. *)
Theorem echo_prints prog args s : io_alive s = true -> Forall bytes_ok args ->
  echo_main (prog :: args) s = Ret tt (add_out (echo_text args) s).
Proof.
  intros Ha Hb. unfold echo_main. change (drop 1 (prog :: args)) with args. revert s Ha. induction Hb as [| a args Hba Hb IH]; intros s Ha; [by rewrite add_out_nil |].
  cbn [echo_loop]. erewrite bind_ret.
  2: { apply u_printf_ok; [| repeat constructor; lia | done]. repeat constructor; [done |]. case_bool_decide; repeat constructor; lia. }
  rewrite IH by done. rewrite add_out_add. do 2 f_equal.
  destruct args as [| a' args]; cbn [echo_format render nth Z.eqb Pos.eqb negb orb andb PERCENT string_arg].
  - by rewrite app_nil_r.
  - rewrite bool_decide_false by done. change (nth (Z.to_nat (1 - 1)) [a; [32]] []) with a.
    change (nth (Z.to_nat (2 - 1)) [a; [32]] []) with [32]. by rewrite app_nil_r, <- app_assoc.
Qed.

(** Two pieces that cut a word: "ab c" and "d\n" are one line, two words and
    six bytes; the file has the name "f". *)
Example wc_run : 
  wc_main [[119; 99]; [102]] (mk_io [] true {[0%nat := mk_desc [] false]} (fun _ => Some (mk_desc [[97; 98; 32; 99]; [100; 10]] false))) =
  Ret tt (mk_io [49; 32; 50; 32; 54; 32; 102; 10] true {[0%nat := mk_desc [] false]} (fun _ => Some (mk_desc [[97; 98; 32; 99]; [100; 10]] false))).
Proof. vm_compute. reflexivity. Qed.
