(* ===== verification/Boot.v ===== *)
(** * Boot: project3/xv6-modified/bootmain.c, the boot loader

    Physical memory is the list of its bytes and the disk the list of its
    sectors; the kernel lies in the sectors from 1 on.  Addresses are 32-bit
    numbers.  The waits for the disk are left out. *)

From Stdlib Require Import ZArith Lia.
From stdpp Require Import base numbers strings option list.
From S2P Require Import Prelude KString Exec.

Local Open Scope Z_scope.

Definition SECTSIZE : Z := 512.
(** The scratch space for the header. *)
Definition ELF_AT : Z := 65536.

Section boot.
Variable disk : list (list Z).

(** The sector that the registers 0x1F3 to 0x1F6 of the disk select. *)
Definition lba (r3 r4 r5 r6 : Z) : nat := Z.to_nat (r3 + 256 * r4 + 65536 * r5 + 16777216 * (r6 mod 16)).

(** [insl] of a sector to [dst]. *)
Definition insl_sector (dst : Z) (s : list Z) : M mem unit := fun m =>
  if (0 <=? dst) && (dst + Z.of_nat (length s) <=? Z.of_nat (length m)) then Ret tt (splice (Z.to_nat dst) s m) else Stop "memory".

Definition readsect (dst offset : Z) : M mem unit :=
  let r3 := u8 offset in
  let r4 := u8 (Z.shiftr offset 8) in
  let r5 := u8 (Z.shiftr offset 16) in
  let r6 := u8 (Z.lor (Z.shiftr offset 24) 224) in
  s ← from_option "no such sector" (disk !! lba r3 r4 r5 r6);
  insl_sector dst s.

(** [for(; pa < epa; pa += SECTSIZE, offset++)] *)
Fixpoint readseg_loop (fuel : nat) (pa epa offset : Z) : M mem unit :=
  match fuel with
  | O => out_of_fuel
  | S fuel =>
      if pa <? epa then readsect pa offset;; readseg_loop fuel (u32 (pa + SECTSIZE)) epa (u32 (offset + 1)) else skip
  end.
Definition readseg (pa count offset : Z) : M mem unit :=
  let epa := u32 (pa + count) in
  let pa := u32 (pa - offset mod SECTSIZE) in
  readseg_loop (S (Z.to_nat (epa - pa))) pa epa (u32 (offset / SECTSIZE + 1)).

(** [n] bytes of a structure at [a]. *)
Definition struct_at (a : Z) (n : nat) : M mem (list Z) := fun m =>
  if (0 <=? a) && (a + Z.of_nat n <=? Z.of_nat (length m)) then Ret (slice (Z.to_nat a) n m) m else Stop "memory".

Definition paddr (ph : list Z) : Z := field 12 4 ph.

(** [for(; ph < eph; ph++)] with [n] headers left. *)
Fixpoint load_all (n : nat) (ph : Z) : M mem unit :=
  match n with
  | O => skip
  | S n =>
      h ← struct_at ph 32;
      let pa := paddr h in
      let p := dec_ph h in
      readseg pa (ph_filesz p) (ph_off p);;
      (if ph_memsz p >? ph_filesz p
       then stosb (Z.to_nat (u32 (pa + ph_filesz p))) 0 (Z.to_nat (ph_memsz p - ph_filesz p)) else skip);;
      load_all n (ph + 32)
  end.

(** [None] when the header is not that of a program, the entry point that is
    called otherwise. *)
Definition bootmain : M mem (option Z) :=
  readseg ELF_AT 4096 0;;
  h ← struct_at ELF_AT 52;
  let elf := dec_elf h in
  if negb (e_magic elf =? ELF_MAGIC) then mret None else
  load_all (Z.to_nat (e_phnum elf)) (u32 (ELF_AT + e_phoff elf));;
  h ← struct_at ELF_AT 52;
  mret (Some (e_entry (dec_elf h))).
End boot.

(** ** What is loaded *)

(** The file on the disk, and its program headers. *)
Definition kernel_file (disk : list (list Z)) : list Z := concat (drop 1 disk).
Record seg := mk_seg { s_pa : nat; s_off : nat; s_filesz : nat; s_memsz : nat }.
Definition seg_of (h : list Z) : seg :=
  mk_seg (Z.to_nat (paddr h)) (Z.to_nat (ph_off (dec_ph h))) (Z.to_nat (ph_filesz (dec_ph h))) (Z.to_nat (ph_memsz (dec_ph h))).
Definition segments (file : list Z) : list seg :=
  map (fun k => seg_of (slice (Z.to_nat (e_phoff (dec_elf file)) + 32 * k) 32 file)) (seq 0 (Z.to_nat (e_phnum (dec_elf file)))).

Definition s_end (s : seg) : nat := s_pa s + s_filesz s `max` s_memsz s.
(** The first byte that is written when the segment is loaded. *)
Definition s_first (s : seg) : nat := s_pa s - s_off s mod 512.

(** The segment is in memory: the bytes of the file, then zeros. *)
Definition placed (file : list Z) (s : seg) (m : mem) : Prop :=
  slice (s_pa s) (s_filesz s) m = slice (s_off s) (s_filesz s) file /\
  slice (s_pa s + s_filesz s) (s_memsz s - s_filesz s) m = replicate (s_memsz s - s_filesz s) 0.

(** A segment above the scratch space, inside the memory with room for a whole
    sector more, and inside the file. *)
Definition seg_ok (file : list Z) (size : nat) (s : seg) : Prop :=
  ELF_AT + 4096 <= Z.of_nat (s_first s) /\
  (s_off s mod 512 <= s_pa s /\ s_end s + 512 <= size /\ s_off s + s_filesz s <= length file)%nat.
(** In increasing order, the sectors of each after the bytes of the one before. *)
Inductive increasing : list seg -> Prop :=
| inc_nil : increasing []
| inc_cons s l : Forall (fun t => (s_end s <= s_first t)%nat) l -> increasing l -> increasing (s :: l).

Lemma lba_ok n : 0 <= n < 2 ^ 28 ->
  lba (u8 n) (u8 (Z.shiftr n 8)) (u8 (Z.shiftr n 16)) (u8 (Z.lor (Z.shiftr n 24) 224)) = Z.to_nat n.
Proof.
  intros Hn. unfold lba. f_equal. rewrite !Z.shiftr_div_pow2 by lia.
  assert (Hh : 0 <= n / 2 ^ 24 < 16) by (split; [apply Z.div_pos; lia | apply Z.div_lt_upper_bound; lia]).
  assert (E : u8 (Z.lor (n / 2 ^ 24) 224) mod 16 = n / 2 ^ 24).
  { set (h := n / 2 ^ 24) in *. clearbody h. assert (H : forallb (fun k => u8 (Z.lor (Z.of_nat k) 224) mod 16 =? Z.of_nat k) (seq 0 16) = true)
      by (vm_compute; reflexivity).
    rewrite forallb_forall in H. specialize (H (Z.to_nat h)). rewrite Z2Nat.id in H by lia. apply Z.eqb_eq, H, in_seq. lia. }
  rewrite E. unfold u8. change (2 ^ 8) with 256. change (2 ^ 16) with 65536. change (2 ^ 24) with 16777216 in *.
  clear - Hn. Z.to_euclidean_division_equations. lia.
Qed.

Lemma length_blocks (l : list (list Z)) : Forall (fun s => length s = 512%nat) l -> length (concat l) = (512 * length l)%nat.
Proof. induction 1 as [| s l Hs _ IH]; [done |]. cbn [concat length]. rewrite length_app, IH, Hs. lia. Qed.

Lemma slice_slice {A : Type} (a k i n : nat) (l : list A) : (i + n <= k)%nat -> slice i n (slice a k l) = slice (a + i) n l.
Proof.
  intros H. unfold slice. rewrite skipn_firstn_comm, firstn_firstn, drop_drop. f_equal. lia.
Qed.

Section proofs.
Context (disk : list (list Z)).
Hypothesis Hdisk : Forall (fun s => length s = 512%nat) (drop 1 disk).
Hypothesis Hbig : Z.of_nat (length disk) < 2 ^ 28.
Abbreviation kfile := (kernel_file disk).

Lemma length_file : length kfile = (512 * (length disk - 1))%nat.
Proof using Hdisk. unfold kernel_file. rewrite length_blocks by done. by rewrite length_drop. Qed.

Lemma readsect_ok k dst m : (k < length disk - 1)%nat -> (dst + 512 <= length m)%nat ->
  readsect disk (Z.of_nat dst) (Z.of_nat k + 1) m = Ret tt (splice dst (slice (k * 512) 512 kfile) m).
Proof using Hdisk Hbig.
  intros Hk Hd. unfold readsect. cbv zeta. rewrite lba_ok by lia.
  destruct (lookup_lt_is_Some_2 (drop 1 disk) k) as [sec Hs]; [rewrite length_drop; lia |].
  pose proof (Forall_lookup_1 _ _ _ _ Hdisk Hs) as Hl. cbn in Hl.
  replace (Z.to_nat (Z.of_nat k + 1)) with (1 + k)%nat by lia. rewrite lookup_drop in Hs. rewrite Hs. erewrite bind_ret by reflexivity.
  rewrite <- lookup_drop in Hs. pose proof (slice_concat k 512 0 512 (drop 1 disk) sec Hdisk Hs ltac:(lia)) as E.
  rewrite Nat.add_0_r, slice_all in E by done. fold kfile in E. rewrite E. unfold insl_sector. rewrite Hl.
  rewrite (proj2 (Z.leb_le _ _)), (proj2 (Z.leb_le _ _)) by lia. by rewrite Nat2Z.id.
Qed.

Lemma readseg_loop_ok n : forall fuel k dst epa m, (n < fuel)%nat ->
  Z.of_nat dst + 512 * Z.of_nat n - 512 < epa \/ n = 0%nat -> epa <= Z.of_nat dst + 512 * Z.of_nat n ->
  (k + n <= length disk - 1)%nat -> (dst + 512 * n <= length m)%nat -> Z.of_nat (length m) < 2 ^ 32 ->
  readseg_loop disk fuel (Z.of_nat dst) epa (Z.of_nat k + 1) m = Ret tt (splice dst (slice (k * 512) (512 * n) kfile) m).
Proof using Hdisk Hbig.
  induction n as [| n IH]; intros fuel k dst epa m Hf Hlo Hhi Hk Hd Hm; (destruct fuel as [| fuel]; [lia |]); cbn [readseg_loop].
  - destruct (Z.ltb_spec (Z.of_nat dst) epa); [lia |]. unfold slice. by rewrite Nat.mul_0_r, take_0, splice_nil.
  - destruct (Z.ltb_spec (Z.of_nat dst) epa); [| lia]. rewrite (bind_ret _ _ _ _ _ (readsect_ok k dst m ltac:(lia) ltac:(lia))).
    pose proof length_file as Hlf.
    assert (Hls : length (slice (k * 512) 512 kfile) = 512%nat) by (apply length_slice; lia).
    unfold SECTSIZE. rewrite (u32_small (Z.of_nat dst + 512)), (u32_small (Z.of_nat k + 1 + 1)) by lia.
    replace (Z.of_nat dst + 512) with (Z.of_nat (dst + 512)) by lia. replace (Z.of_nat k + 1 + 1) with (Z.of_nat (S k) + 1) by lia.
    rewrite IH; [| lia | lia | lia | lia | rewrite length_splice; lia | rewrite length_splice; lia].
    rewrite <- Hls at 1. rewrite splice_splice by (rewrite Hls, length_slice; lia). do 2 f_equal.
    rewrite <- (slice_split (k * 512) 512 (512 * S n)) by lia. f_equal. f_equal; lia.
Qed.

(** [readseg] writes whole sectors around the bytes it is asked for. *)
Lemma readseg_ok pa count off m : (off mod 512 <= pa)%nat -> (pa + count + 512 <= length m)%nat -> (off + count <= length kfile)%nat ->
  Z.of_nat (length m) < 2 ^ 32 -> exists n,
  readseg disk (Z.of_nat pa) (Z.of_nat count) (Z.of_nat off) m =
    Ret tt (splice (pa - off mod 512) (slice (off - off mod 512) n kfile) m) /\
  (off mod 512 + count <= n < off mod 512 + count + 512)%nat /\ (off - off mod 512 + n <= length kfile)%nat.
Proof using Hdisk Hbig.
  intros Hd Hm Hf H32. pose proof length_file as Hlf. set (d := (off mod 512)%nat) in *.
  pose proof (Nat.div_mod_eq off 512) as Hdm. fold d in Hdm. assert (Hd512 : (d < 512)%nat) by (apply Nat.mod_upper_bound; lia).
  set (n := ((d + count + 511) / 512)%nat).
  assert (Hn : (512 * n < d + count + 512 /\ d + count <= 512 * n)%nat).
  { pose proof (Nat.div_mod_eq (d + count + 511) 512) as H. fold n in H.
    pose proof (Nat.mod_upper_bound (d + count + 511) 512 ltac:(lia)). lia. }
  exists (512 * n)%nat. split_and!; [| lia | lia |].
  - unfold readseg, SECTSIZE. cbv zeta.
    assert (Emod : Z.of_nat off mod 512 = Z.of_nat d) by (unfold d; rewrite Nat2Z.inj_mod; done).
    assert (Ediv : Z.of_nat off / 512 = Z.of_nat (off / 512)) by (rewrite Nat2Z.inj_div; done).
    rewrite Emod, Ediv, !u32_small by lia.
    replace (Z.of_nat pa - Z.of_nat d) with (Z.of_nat (pa - d)) by lia.
    replace (off - d)%nat with (off / 512 * 512)%nat by lia. apply readseg_loop_ok; lia.
  - enough (512 * (off / 512) + 512 * n <= 512 * (length disk - 1))%nat by lia. rewrite Hlf in Hf.
    assert (off / 512 + n <= length disk - 1)%nat; [| lia].
    enough (512 * (off / 512 + n) < 512 * (length disk - 1 + 1))%nat by lia. lia.
Qed.

Lemma load_seg s m : seg_ok kfile (length m) s -> Z.of_nat (length m) < 2 ^ 32 -> exists m',
  (readseg disk (Z.of_nat (s_pa s)) (Z.of_nat (s_filesz s)) (Z.of_nat (s_off s));;
   (if Z.of_nat (s_memsz s) >? Z.of_nat (s_filesz s)
    then stosb (Z.to_nat (u32 (Z.of_nat (s_pa s) + Z.of_nat (s_filesz s)))) 0 (Z.to_nat (Z.of_nat (s_memsz s) - Z.of_nat (s_filesz s)))
    else skip)) m = Ret tt m' /\
  length m' = length m /\ placed kfile s m' /\ (forall i n, (i + n <= s_first s)%nat -> slice i n m' = slice i n m).
Proof using Hdisk Hbig.
  intros (_ & Hd & Hend & Hf) H32. unfold s_end in Hend.
  destruct (readseg_ok (s_pa s) (s_filesz s) (s_off s) m) as (n & E & Hn & Hnf); [done | lia | done | done |].
  set (X := slice (s_off s - s_off s mod 512) n kfile) in *. assert (HX : length X = n) by (apply length_slice; done).
  set (m1 := splice (s_pa s - s_off s mod 512) X m) in *.
  assert (Hm1 : length m1 = length m) by (apply length_splice; lia).
  assert (Hfile : slice (s_pa s) (s_filesz s) m1 = slice (s_off s) (s_filesz s) kfile).
  { unfold m1. replace (s_pa s) with (s_pa s - s_off s mod 512 + s_off s mod 512)%nat at 1 by lia.
    rewrite slice_splice_in by lia. unfold X. rewrite slice_slice by lia. f_equal. pose proof (Nat.Div0.mod_le (s_off s) 512). lia. }
  assert (Hbelow : forall i k, (i + k <= s_first s)%nat -> slice i k m1 = slice i k m)
    by (intros i k Hk; apply slice_splice_before; unfold s_first in Hk; lia).
  rewrite (bind_ret _ _ _ _ _ E). destruct (Z.gtb_spec (Z.of_nat (s_memsz s)) (Z.of_nat (s_filesz s))) as [Hg | Hg].
  - rewrite u32_small by lia. replace (Z.to_nat (Z.of_nat (s_pa s) + Z.of_nat (s_filesz s))) with (s_pa s + s_filesz s)%nat by lia.
    replace (Z.to_nat (Z.of_nat (s_memsz s) - Z.of_nat (s_filesz s))) with (s_memsz s - s_filesz s)%nat by lia.
    rewrite stosb_ok by lia. change (u8 0) with 0. set (z := replicate (s_memsz s - s_filesz s) 0).
    assert (Hz : length z = (s_memsz s - s_filesz s)%nat) by apply length_replicate.
    eexists. split; [done |]. split; [rewrite length_splice; lia |]. split; [split |].
    + rewrite slice_splice_before by lia. exact Hfile.
    + rewrite <- Hz at 1. apply slice_splice. rewrite length_replicate, Hm1. lia.
    + intros i k Hk. rewrite slice_splice_before by (unfold s_first in Hk; lia). by apply Hbelow.
  - exists m1. split; [done |]. split; [done |]. split; [split; [exact Hfile |] | exact Hbelow].
    replace (s_memsz s - s_filesz s)%nat with 0%nat by lia. done.
Qed.

Lemma placed_keep s m m' : placed kfile s m -> (forall i n, (i + n <= s_end s)%nat -> slice i n m' = slice i n m) -> placed kfile s m'.
Proof using.
  unfold s_end. intros [H1 H2] Hk. split.
  - rewrite Hk by lia. exact H1.
  - destruct (decide (s_memsz s <= s_filesz s)%nat) as [Hle | Hgt]; [by replace (s_memsz s - s_filesz s)%nat with 0%nat by lia |].
    rewrite Hk by lia. exact H2.
Qed.

(** The header is in the scratch space. *)
Definition scratch (m : mem) : Prop := slice (Z.to_nat ELF_AT) 4096 m = slice 0 4096 kfile.

Lemma scratch_struct o n m : scratch m -> (o + n <= 4096)%nat -> (4096 <= length kfile)%nat ->
  ELF_AT + 4096 <= Z.of_nat (length m) -> struct_at (ELF_AT + Z.of_nat o) n m = Ret (slice o n kfile) m.
Proof using.
  intros Hs Ho Hf Hm. unfold struct_at. unfold ELF_AT in *. rewrite (proj2 (Z.leb_le _ _)), (proj2 (Z.leb_le _ _)) by lia. cbn [andb].
  f_equal. change (slice o n kfile) with (slice (0 + o) n kfile). rewrite <- (slice_slice 0 4096 o n kfile) by lia. rewrite <- Hs, slice_slice by lia. f_equal. unfold ELF_AT. lia.
Qed.

Lemma load_all_ok phoff n : forall j m, (phoff + 32 * (j + n) <= 4096)%nat -> (4096 <= length kfile)%nat ->
  Z.of_nat (length m) < 2 ^ 32 -> ELF_AT + 4096 <= Z.of_nat (length m) -> scratch m ->
  let l := map (fun k => seg_of (slice (phoff + 32 * k) 32 kfile)) (seq j n) in
  Forall (seg_ok kfile (length m)) l -> increasing l -> exists m',
  load_all disk n (ELF_AT + Z.of_nat (phoff + 32 * j)) m = Ret tt m' /\ length m' = length m /\ scratch m' /\
  Forall (fun s => placed kfile s m') l /\
  (forall i k, Forall (fun s => (i + k <= s_first s)%nat) l -> slice i k m' = slice i k m).
Proof using Hdisk Hbig.
  induction n as [| n IH]; intros j m Hp Hf H32 Hm Hs l Hok Hinc; [by exists m |].
  cbn [seq map] in l. set (h := slice (phoff + 32 * j) 32 kfile) in *. set (s := seg_of h) in *.
  apply Forall_cons in Hok as [Hsok Hok]. inversion Hinc as [| s' l' Hafter Hinc' E]; subst.
  destruct (load_seg s m Hsok H32) as (m1 & E1 & Hl1 & Hpl1 & Hb1).
  assert (Hs1 : scratch m1). { unfold scratch. rewrite Hb1; [exact Hs |]. destruct Hsok as [Hsc _]. unfold ELF_AT in *. lia. }
  destruct (IH (S j) m1) as (m2 & E2 & Hl2 & Hs2 & Hpl2 & Hb2); [lia | done | lia | lia | done | by rewrite Hl1 | done |].
  exists m2. split_and!; [| lia | done | |].
  - cbn [load_all]. rewrite (bind_ret _ _ _ _ _ (scratch_struct (phoff + 32 * j) 32 m Hs ltac:(lia) Hf Hm)). fold h. cbv zeta.
    assert (E : forall x, 0 <= field x 4 h) by (intros x; unfold field; apply le_val_range).
    assert (Ea : paddr h = Z.of_nat (s_pa s)) by (cbn; unfold paddr; rewrite Z2Nat.id; [done | apply E]).
    assert (Eo : ph_off (dec_ph h) = Z.of_nat (s_off s)) by (cbn; rewrite Z2Nat.id; [done | apply E]).
    assert (Ef : ph_filesz (dec_ph h) = Z.of_nat (s_filesz s)) by (cbn; rewrite Z2Nat.id; [done | apply E]).
    assert (Em : ph_memsz (dec_ph h) = Z.of_nat (s_memsz s)) by (cbn; rewrite Z2Nat.id; [done | apply E]).
    rewrite Ea, Eo, Ef, Em. apply bind_inv in E1 as (u & x & E0 & E1). rewrite (bind_ret _ _ _ _ _ E0), (bind_ret _ _ _ _ _ E1).
    replace (ELF_AT + Z.of_nat (phoff + 32 * j) + 32) with (ELF_AT + Z.of_nat (phoff + 32 * S j)) by lia. exact E2.
  - constructor; [| exact Hpl2]. eapply placed_keep; [exact Hpl1 |]. intros i k Hik. apply Hb2.
    eapply Forall_impl; [exact Hafter |]. intros t Ht. exact (Nat.le_trans _ _ _ Hik Ht).
  - intros i k [Hi Hl]%Forall_cons. rewrite Hb2 by done. by apply Hb1.
Qed.
End proofs.

(** The boot loader loads the kernel.  For a disk whose sectors from the
    second on hold a program, with its headers in the first page, whose segments
    are in increasing order as the comment of the source asks, above the scratch
    space and inside the memory, the loader jumps to the entry point with every
    segment in place: its bytes from the file at its physical address, then
    zeros up to its size in memory.  That it reads whole sectors, and so writes
    before and after each segment, does no harm.  Without the signature of a
    program it returns. *)
Theorem boot_loads_kernel (disk : list (list Z)) (m : mem)
  (Hdisk : Forall (fun s => length s = 512%nat) (drop 1 disk)) (Hbig : Z.of_nat (length disk) < 2 ^ 28)
  (H32 : Z.of_nat (length m) < 2 ^ 32) (Hm : ELF_AT + 4096 + 512 <= Z.of_nat (length m))
  (Hf : (4096 <= length (kernel_file disk))%nat) :
  let elf := dec_elf (kernel_file disk) in
  (e_magic elf <> ELF_MAGIC -> exists m', bootmain disk m = Ret None m') /\
  (e_magic elf = ELF_MAGIC -> e_phoff elf + 32 * e_phnum elf <= 4096 ->
   Forall (seg_ok (kernel_file disk) (length m)) (segments (kernel_file disk)) -> increasing (segments (kernel_file disk)) ->
   exists m', bootmain disk m = Ret (Some (e_entry elf)) m' /\
     Forall (fun s => placed (kernel_file disk) s m') (segments (kernel_file disk))).
Proof.
  intros elf. set (file := kernel_file disk) in *.
  destruct (readseg_ok disk Hdisk Hbig (Z.to_nat ELF_AT) 4096 0 m) as (n & E & Hn & Hnf);
    [cbn; lia | unfold ELF_AT in *; lia | fold file; lia | done |].
  change (0 mod 512)%nat with 0%nat in *. rewrite !Nat.sub_0_r, Nat.add_0_l in *. rewrite Z2Nat.id in E by (unfold ELF_AT; lia).
  fold file in E, Hnf. set (m1 := splice (Z.to_nat ELF_AT) (slice 0 n file) m) in *.
  assert (Hls : length (slice 0 n file) = n) by (apply length_slice; lia).
  assert (Hl1 : length m1 = length m) by (apply length_splice; unfold ELF_AT in *; lia).
  assert (Hs1 : scratch disk m1).
  { unfold scratch. fold file. unfold m1. rewrite <- (Nat.add_0_r (Z.to_nat ELF_AT)) at 1.
    rewrite slice_splice_in by (unfold ELF_AT in *; lia). rewrite slice_slice by lia. done. }
  assert (Hdec : dec_elf (slice 0 52 file) = elf).
  { unfold elf, dec_elf, field. by rewrite !slice_slice by lia. }
  assert (Hhead : forall m', scratch disk m' -> length m' = length m -> struct_at ELF_AT 52 m' = Ret (slice 0 52 file) m').
  { intros m' Hs Hl. rewrite <- (Z.add_0_r ELF_AT). apply (scratch_struct disk 0 52 m' Hs); [lia | done | unfold ELF_AT in *; lia]. }
  assert (Eread : readseg disk ELF_AT 4096 0 m = Ret tt m1) by exact E.
  unfold bootmain. rewrite (bind_ret _ _ _ _ _ Eread), (bind_ret _ _ _ _ _ (Hhead m1 Hs1 Hl1)), Hdec. cbv zeta. split.
  - intros Hmag. rewrite (proj2 (Z.eqb_neq _ _) Hmag). by exists m1.
  - intros Hmag Hph Hok Hinc. rewrite (proj2 (Z.eqb_eq _ _) Hmag). cbn [negb].
    assert (Ep : forall o k, 0 <= field o k file) by (intros o k; unfold field; apply le_val_range).
    assert (Ho : 0 <= e_phoff elf) by apply Ep. assert (Hc : 0 <= e_phnum elf) by apply Ep.
    destruct (load_all_ok disk Hdisk Hbig (Z.to_nat (e_phoff elf)) (Z.to_nat (e_phnum elf)) 0 m1)
      as (m2 & E2 & Hl2 & Hs2 & Hpl & _); [lia | done | lia | lia | done | by rewrite Hl1 | done |].
    replace (u32 (ELF_AT + e_phoff elf)) with (ELF_AT + Z.of_nat (Z.to_nat (e_phoff elf) + 32 * 0))
      by (rewrite u32_small; unfold ELF_AT; lia).
    rewrite (bind_ret _ _ _ _ _ E2), (bind_ret _ _ _ _ _ (Hhead m2 Hs2 ltac:(lia))), Hdec. by exists m2.
Qed.

(** ** A small kernel *)

(** Eight sectors: the headers in the first, the bytes 1 to 4 at offset 4000. *)
Definition small_file : list Z :=
  splice 0 (le_bytes 4 ELF_MAGIC) (splice 24 (le_bytes 4 1048588) (splice 28 (le_bytes 4 52) (splice 44 (le_bytes 2 1)
    (splice 52 (le_bytes 4 1 ++ le_bytes 4 4000 ++ le_bytes 4 0 ++ le_bytes 4 70400 ++ le_bytes 4 4 ++ le_bytes 4 7)
      (splice 4000 [1; 2; 3; 4] (replicate 4096 9)))))).
Definition small_disk : list (list Z) := replicate 512 0 :: map (fun k => slice (512 * k) 512 small_file) (seq 0 8).

(** The theorem applies to it, and gives the bytes and three zeros. *)
Lemma boot_small (m : mem) : length m = Z.to_nat 71000 ->
  exists m', bootmain small_disk m = Ret (Some 1048588) m' /\ slice (Z.to_nat 70400) 7 m' = [1; 2; 3; 4; 0; 0; 0].
Proof.
  intros Hm. assert (Ef : kernel_file small_disk = small_file) by (vm_compute; reflexivity).
  assert (Es : segments small_file = [mk_seg (Z.to_nat 70400) 4000 4 7]).
  { unfold segments, seg_of. replace (dec_elf small_file) with (mk_elf ELF_MAGIC 1048588 52 1) by (vm_compute; reflexivity).
    cbn [e_phnum e_phoff Z.to_nat Pos.to_nat Pos.iter_op seq map]. change (52 + 32 * 0)%nat with 52%nat.
    replace (dec_ph (slice 52 32 small_file)) with (mk_ph 1 4000 0 4 7) by (vm_compute; reflexivity).
    replace (paddr (slice 52 32 small_file)) with 70400 by (vm_compute; reflexivity). reflexivity. }
  destruct (boot_loads_kernel small_disk m) as [_ H].
  1: { unfold small_disk. cbn [drop]. repeat constructor. }
  1-4: rewrite ?Hm, ?Ef; unfold ELF_AT; try lia; vm_compute; (reflexivity || lia).
  rewrite Ef, Es in H. destruct H as (m' & E & Hpl).
  1-2: vm_compute; (reflexivity || discriminate).
  - apply Forall_singleton. unfold seg_ok, s_first, s_end, ELF_AT. rewrite Hm. cbn [s_pa s_off s_filesz s_memsz].
    change (4000 mod 512)%nat with 416%nat. change (length small_file) with 4096%nat. lia.
  - by repeat constructor.
  - exists m'. split; [rewrite E; do 2 f_equal; vm_compute; reflexivity |].
    apply Forall_cons in Hpl as [[H1 H2] _]. cbn [s_pa s_off s_filesz s_memsz] in H1, H2.
    rewrite <- (slice_split (Z.to_nat 70400) 4 7) by lia. rewrite H1. change (7 - 4)%nat with 3%nat in *. rewrite H2.
    vm_compute. reflexivity.
Qed.
