(* ===== verification/MasterWorker.v ===== *)
(** * MasterWorker: project4/1/master-worker.c, producers and consumers

    The master threads, the worker threads and the main thread of the program,
    each at the statement it executes next.  Every statement that touches
    shared state is one step.  The pthread operations have their POSIX meaning:
    a lock is taken when it is free, [pthread_cond_wait] releases the mutex and
    sleeps, a signal wakes a sleeper of the condition, which then contends for
    the mutex, and a sleeper may wake up spuriously.  The arguments of the
    program are taken to be non-negative and the printed lines are the lists
    of produced and consumed numbers. *)

From Stdlib Require Import Lia Permutation.
From stdpp Require Import base numbers strings option relations list.
From S2P Require Import Prelude.

Local Open Scope nat_scope.

(** Statements of [generate_requests_loop] with the loop variable [idx]. *)
Inductive mpc :=
| M_lock (idx : nat)      (* pthread_mutex_lock, for the number idx *)
| M_test (idx : nat)      (* while (curr_buf_size >= max_buf_size) *)
| M_decide (idx : nat)    (* if (item_to_produce != total_items), after the signal *)
| M_asleep (idx : nat)    (* in pthread_cond_wait(&cond_can_produce) *)
| M_relock (idx : nat)
| M_put (idx : nat)       (* buffer[curr_buf_size++] = idx *)
| M_count (idx : nat)     (* item_to_produce++ *)
| M_unlock (idx : nat)
| M_last_lock             (* the signal after the loop *)
| M_last_signal
| M_last_unlock
| M_done.

(** Statements of [generate_responses_loop] with [n] numbers to consume. *)
Inductive wpc :=
| W_lock (n : nat)
| W_test (n : nat)     (* while (curr_buf_size <= 0) *)
| W_wait (n : nat)     (* pthread_cond_wait(&cond_can_consume), after the signal *)
| W_asleep (n : nat)
| W_relock (n : nat)
| W_take (n : nat)     (* consumed = buffer[--curr_buf_size]; buffer[curr_buf_size] = 0 *)
| W_unlock (n : nat)
| W_last_lock
| W_last_signal
| W_last_unlock
| W_done.

(** Statements of [main] after the threads are created. *)
Inductive jpc := J_masters | J_lock | J_signal | J_unlock | J_workers | J_done.

#[export] Instance mpc_eq_dec : EqDecision mpc.
Proof. solve_decision. Defined.
#[export] Instance wpc_eq_dec : EqDecision wpc.
Proof. solve_decision. Defined.
#[export] Instance jpc_eq_dec : EqDecision jpc.
Proof. solve_decision. Defined.

Inductive tid := Master (i : nat) | Worker (j : nat) | Main.
#[export] Instance tid_eq_dec : EqDecision tid.
Proof. solve_decision. Defined.

Record prog := mk_prog {
  item_to_produce : nat;
  curr_buf_size : nat;
  buffer : list nat;
  mutex : option tid;
  masters : list mpc;
  workers : list wpc;
  main : jpc;
  produced : list nat;
  consumed : list nat
}.

Section code.
Variables total_items max_buf_size num_workers num_masters : nat.

(** The numbers of master [i]: from [start] to [end], [end] excluded. *)
Definition m_start (i : nat) : nat := i * (total_items / num_masters).
Definition m_end (i : nat) : nat :=
  Nat.min ((i + 1) * (total_items / num_masters)) total_items +
  (if i =? num_masters - 1 then total_items mod num_masters else 0).
Definition w_quota (j : nat) : nat :=
  Nat.min ((j + 1) * (total_items / num_workers)) total_items +
  (if j =? 0 then total_items mod num_workers else 0) - j * (total_items / num_workers).

(** The loop test before each iteration. *)
Definition m_next (i idx : nat) : mpc := if idx <? m_end i then M_lock idx else M_last_lock.
Definition w_next (n : nat) : wpc := match n with 0 => W_last_lock | S _ => W_lock n end.

Definition prog_init (junk : list nat) : prog :=
  mk_prog 0 0 junk None (map (fun i => m_next i (m_start i)) (seq 0 num_masters))
    (map (fun j => w_next (w_quota j)) (seq 0 num_workers)) J_masters [] [].

Definition set_mutex o p := mk_prog (item_to_produce p) (curr_buf_size p) (buffer p) o (masters p) (workers p) (main p) (produced p) (consumed p).
Definition set_master i c p := mk_prog (item_to_produce p) (curr_buf_size p) (buffer p) (mutex p) (<[i := c]> (masters p)) (workers p) (main p) (produced p) (consumed p).
Definition set_worker j c p := mk_prog (item_to_produce p) (curr_buf_size p) (buffer p) (mutex p) (masters p) (<[j := c]> (workers p)) (main p) (produced p) (consumed p).
Definition set_main c p := mk_prog (item_to_produce p) (curr_buf_size p) (buffer p) (mutex p) (masters p) (workers p) c (produced p) (consumed p).
Definition put_item idx p := mk_prog (item_to_produce p) (S (curr_buf_size p)) (<[curr_buf_size p := idx]> (buffer p)) (mutex p) (masters p) (workers p) (main p) (produced p ++ [idx]) (consumed p).
Definition count_item p := mk_prog (S (item_to_produce p)) (curr_buf_size p) (buffer p) (mutex p) (masters p) (workers p) (main p) (produced p) (consumed p).
Definition take_item p :=
  let k := curr_buf_size p - 1 in
  mk_prog (item_to_produce p) k (<[k := 0]> (buffer p)) (mutex p) (masters p) (workers p) (main p) (produced p)
    (consumed p ++ [nth k (buffer p) 0]).

(** [pthread_cond_signal]: [who] is the sleeper that is woken; nothing happens
    when nobody sleeps on the condition. *)
Definition signal_produce (who : option nat) (p : prog) : option prog :=
  match who with
  | Some i => match masters p !! i with Some (M_asleep idx) => Some (set_master i (M_relock idx) p) | _ => None end
  | None => if existsb (fun c => match c with M_asleep _ => true | _ => false end) (masters p) then None else Some p
  end.
Definition signal_consume (who : option nat) (p : prog) : option prog :=
  match who with
  | Some j => match workers p !! j with Some (W_asleep n) => Some (set_worker j (W_relock n) p) | _ => None end
  | None => if existsb (fun c => match c with W_asleep _ => true | _ => false end) (workers p) then None else Some p
  end.

Definition lock (t : tid) (p : prog) : option prog := match mutex p with None => Some (set_mutex (Some t) p) | Some _ => None end.

(** One statement of [generate_requests_loop], run by master [i]. *)
Definition generate_requests_loop (i : nat) (who : option nat) (p : prog) : option prog :=
  c ← masters p !! i;
  match c with
  | M_lock idx => set_master i (M_test idx) <$> lock (Master i) p
  | M_test idx =>
      if max_buf_size <=? curr_buf_size p then set_master i (M_decide idx) <$> signal_consume who p
      else Some (set_master i (M_put idx) p)
  | M_decide idx =>
      if item_to_produce p =? total_items then Some (set_master i (M_test idx) p)
      else Some (set_master i (M_asleep idx) (set_mutex None p))
  | M_asleep _ => None
  | M_relock idx => set_master i (M_test idx) <$> lock (Master i) p
  | M_put idx => Some (set_master i (M_count idx) (put_item idx p))
  | M_count idx => Some (set_master i (M_unlock idx) (count_item p))
  | M_unlock idx => Some (set_master i (m_next i (S idx)) (set_mutex None p))
  | M_last_lock => set_master i M_last_signal <$> lock (Master i) p
  | M_last_signal =>
      if 1 <=? curr_buf_size p then set_master i M_last_unlock <$> signal_consume who p
      else Some (set_master i M_last_unlock p)
  | M_last_unlock => Some (set_master i M_done (set_mutex None p))
  | M_done => None
  end.

(** One statement of [generate_responses_loop], run by worker [j]. *)
Definition generate_responses_loop (j : nat) (who : option nat) (p : prog) : option prog :=
  c ← workers p !! j;
  match c with
  | W_lock n => set_worker j (W_test n) <$> lock (Worker j) p
  | W_test n =>
      if curr_buf_size p <=? 0 then set_worker j (W_wait n) <$> signal_produce who p
      else Some (set_worker j (W_take n) p)
  | W_wait n => Some (set_worker j (W_asleep n) (set_mutex None p))
  | W_asleep _ => None
  | W_relock n => set_worker j (W_test n) <$> lock (Worker j) p
  | W_take n => Some (set_worker j (W_unlock (n - 1)) (take_item p))
  | W_unlock n => Some (set_worker j (w_next n) (set_mutex None p))
  | W_last_lock => set_worker j W_last_signal <$> lock (Worker j) p
  | W_last_signal => set_worker j W_last_unlock <$> signal_produce who p
  | W_last_unlock => Some (set_worker j W_done (set_mutex None p))
  | W_done => None
  end.

(** One statement of [main]; the joins wait for the threads to end. *)
Definition main_step (who : option nat) (p : prog) : option prog :=
  match main p with
  | J_masters => if forallb (fun c => bool_decide (c = M_done)) (masters p) then Some (set_main J_lock p) else None
  | J_lock => set_main J_signal <$> lock Main p
  | J_signal => if 1 <=? curr_buf_size p then set_main J_unlock <$> signal_consume who p else Some (set_main J_unlock p)
  | J_unlock => Some (set_main J_workers (set_mutex None p))
  | J_workers => if forallb (fun c => bool_decide (c = W_done)) (workers p) then Some (set_main J_done p) else None
  | J_done => None
  end.

(** A step: a thread runs one statement, waking [who] if that is a signal, or a
    sleeper wakes up by itself. *)
Inductive event := Run (t : tid) (who : option nat) | Spurious (t : tid).
Definition exec (e : event) (p : prog) : option prog :=
  match e with
  | Run (Master i) who => generate_requests_loop i who p
  | Run (Worker j) who => generate_responses_loop j who p
  | Run Main who => main_step who p
  | Spurious (Master i) => match masters p !! i with Some (M_asleep idx) => Some (set_master i (M_relock idx) p) | _ => None end
  | Spurious (Worker j) => match workers p !! j with Some (W_asleep n) => Some (set_worker j (W_relock n) p) | _ => None end
  | Spurious Main => None
  end.
Definition step (p p' : prog) : Prop := exists e, exec e p = Some p'.
Definition run (es : list event) (p : prog) : option prog := foldl (fun o e => o ≫= exec e) (Some p) es.
End code.

(** ** Partition of the numbers among the threads *)
Section partition.
Variables total_items n : nat.
Hypothesis some_thread : 1 <= n.

Lemma m_range_inner i : S i < n ->
  m_start total_items n i = i * (total_items / n) /\ m_end total_items n i = S i * (total_items / n).
Proof.
  intros Hi. split; [done|]. unfold m_end. rewrite (proj2 (Nat.eqb_neq i (n - 1))) by lia.
  assert (n * (total_items / n) <= total_items) by (apply Nat.Div0.mul_div_le). rewrite Nat.min_l by nia. lia.
Qed.
Lemma m_range_last i : S i = n -> m_end total_items n i = total_items.
Proof.
  intros Hi. unfold m_end. rewrite (proj2 (Nat.eqb_eq i (n - 1))) by lia.
  pose proof (Nat.div_mod_eq total_items n). rewrite Nat.min_l by nia. nia.
Qed.

Lemma prefix_concat (k q : nat) (f : nat -> list nat) :
  (forall i, i < k -> f i = seq (i * q) q) -> concat (map f (seq 0 k)) = seq 0 (k * q).
Proof.
  induction k as [|k IH]; intros Hf; [done|].
  rewrite seq_S, map_app, concat_app. simpl. rewrite IH by (intros; apply Hf; lia).
  rewrite Hf, app_nil_r by lia. simpl. by rewrite (Nat.add_comm q), seq_app.
Qed.

(** The ranges of the masters are the numbers from 0, each once. *)
Lemma masters_partition :
  concat (map (fun i => seq (m_start total_items n i) (m_end total_items n i - m_start total_items n i)) (seq 0 n))
  = seq 0 total_items.
Proof using some_thread.
  assert (exists k, n = S k) as [k En] by (exists (n - 1); lia).
  replace (seq 0 n) with (seq 0 k ++ [k]) by (by rewrite En, seq_S).
  rewrite map_app, concat_app, (prefix_concat k (total_items / n)).
  2:{ intros i Hi. destruct (m_range_inner i) as [-> ->]; [lia|]. f_equal; lia. }
  simpl. rewrite m_range_last, app_nil_r by lia. unfold m_start.
  pose proof (Nat.div_mod_eq total_items n) as Hd.
  trans (seq 0 (k * (total_items / n) + (total_items - k * (total_items / n)))); [by rewrite seq_app|f_equal; nia].
Qed.

Lemma quota_inner j : 0 < j < n -> w_quota total_items n j = total_items / n.
Proof.
  intros Hj. unfold w_quota. destruct j as [|j]; [lia|]. simpl (_ =? 0).
  assert (n * (total_items / n) <= total_items) by (apply Nat.Div0.mul_div_le). rewrite Nat.min_l by nia. nia.
Qed.
Lemma workers_partition : list_sum (map (w_quota total_items n) (seq 0 n)) = total_items.
Proof using some_thread.
  assert (exists k, n = S k) as [k En] by (exists (n - 1); lia).
  replace (seq 0 n) with (0 :: seq 1 k) by (by rewrite En).
  simpl. assert (Hq : list_sum (map (w_quota total_items n) (seq 1 k)) = k * (total_items / n)).
  { assert (Hk : k < n) by lia. clear En. induction k as [|k' IH]; [done|].
    rewrite seq_S, map_app, list_sum_app, IH by lia. simpl. rewrite quota_inner by lia. lia. }
  rewrite Hq. unfold w_quota. simpl (0 =? 0).
  pose proof (Nat.div_mod_eq total_items n). rewrite Nat.min_l by nia. nia.
Qed.
End partition.

(** ** The invariant *)
Section correct.
Variables total_items max_buf_size num_workers num_masters : nat.
Hypothesis some_master : 1 <= num_masters.
Hypothesis some_worker : 1 <= num_workers.
Abbreviation step := (step total_items max_buf_size num_masters).
Abbreviation m_end := (m_end total_items num_masters).
Abbreviation m_next := (m_next total_items num_masters).

Definition m_crit (c : mpc) : bool :=
  match c with
  | M_test _ | M_decide _ | M_put _ | M_count _ | M_unlock _ | M_last_signal | M_last_unlock => true
  | _ => false
  end.
Definition w_crit (c : wpc) : bool :=
  match c with
  | W_test _ | W_wait _ | W_take _ | W_unlock _ | W_last_signal | W_last_unlock => true
  | _ => false
  end.
Definition j_crit (c : jpc) : bool := match c with J_signal | J_unlock => true | _ => false end.
(** Whether a thread is between taking and giving back the mutex. *)
Definition crit (p : prog) (t : tid) : bool :=
  match t with
  | Master i => match masters p !! i with Some c => m_crit c | None => false end
  | Worker j => match workers p !! j with Some c => w_crit c | None => false end
  | Main => j_crit (main p)
  end.

(** What a master has still to produce and a worker to consume. *)
Definition m_left (i : nat) (c : mpc) : list nat :=
  match c with
  | M_lock x | M_test x | M_decide x | M_asleep x | M_relock x | M_put x => seq x (m_end i - x)
  | M_count x | M_unlock x => seq (S x) (m_end i - S x)
  | _ => []
  end.
Definition w_left (c : wpc) : nat :=
  match c with
  | W_lock n | W_test n | W_wait n | W_asleep n | W_relock n | W_take n | W_unlock n => n
  | _ => 0
  end.

Definition m_ok (size : nat) (i : nat) (c : mpc) : Prop :=
  match c with
  | M_lock x | M_test x | M_decide x | M_asleep x | M_relock x => x < m_end i
  | M_put x => x < m_end i /\ size < max_buf_size
  | _ => True
  end.
Definition w_ok (size : nat) (c : wpc) : Prop :=
  match c with
  | W_lock n | W_test n | W_wait n | W_asleep n | W_relock n => 1 <= n
  | W_take n => 1 <= n /\ 1 <= size
  | _ => True
  end.

Record mw_inv (p : prog) : Prop := {
  mi_mutex : forall t, crit p t = bool_decide (mutex p = Some t);
  mi_buffer : length (buffer p) = max_buf_size;
  mi_size : curr_buf_size p <= max_buf_size;
  mi_stock : consumed p ++ take (curr_buf_size p) (buffer p) ≡ₚ produced p;
  mi_to_produce : produced p ++ concat (imap m_left (masters p)) ≡ₚ seq 0 total_items;
  mi_to_consume : length (consumed p) + list_sum (map w_left (workers p)) = total_items;
  mi_masters : forall i c, masters p !! i = Some c -> m_ok (curr_buf_size p) i c;
  mi_workers : forall j c, workers p !! j = Some c -> w_ok (curr_buf_size p) c;
  mi_joined : main p <> J_masters -> Forall (eq M_done) (masters p);
  mi_end : main p = J_done -> Forall (eq W_done) (workers p)
}.

Lemma concat_imap_insert (f : nat -> mpc -> list nat) l i c : l !! i = Some c ->
  exists R, concat (imap f l) ≡ₚ f i c ++ R /\ forall c', concat (imap f (<[i := c']> l)) ≡ₚ f i c' ++ R.
Proof.
  revert f i. induction l as [|x l IH]; intros f [|i] Hi; simplify_eq/=; [by eexists; split|].
  destruct (IH (f ∘ S) i Hi) as (R & H1 & H2). exists (f 0 x ++ R). unfold compose in *. split.
  - rewrite H1. by rewrite !app_assoc, (Permutation_app_comm (f 0 x)).
  - intros c'. rewrite H2. by rewrite !app_assoc, (Permutation_app_comm (f 0 x)).
Qed.
Lemma list_sum_insert (f : wpc -> nat) l j c : l !! j = Some c ->
  exists R, list_sum (map f l) = f c + R /\ forall c', list_sum (map f (<[j := c']> l)) = f c' + R.
Proof.
  revert j. induction l as [|x l IH]; intros [|j] Hj; simplify_eq/=; [by eexists; split|].
  destruct (IH j Hj) as (R & H1 & H2). exists (f x + R). split; [lia|]. intros c'. rewrite H2. lia.
Qed.

(** Only the owner of the mutex is in its critical section. *)
Lemma crit_owner p t u : mw_inv p -> crit p t = true -> crit p u = true -> t = u.
Proof. intros HI. rewrite !(mi_mutex p HI), !bool_decide_eq_true. congruence. Qed.

(** How the mutex changes with the thread's place. *)
Definition mutex_move (p : prog) (t : tid) (before after : bool) (o : option tid) : Prop :=
  (before = after /\ o = mutex p) \/ (before = false /\ after = true /\ mutex p = None /\ o = Some t) \/
  (before = true /\ after = false /\ o = None).

Lemma mutex_moved p t after o q :
  mw_inv p -> mutex_move p t (crit p t) after o -> mutex q = o -> crit q t = after ->
  (forall u, u <> t -> crit q u = crit p u) -> forall u, crit q u = bool_decide (mutex q = Some u).
Proof.
  intros HI Hm Ho Ha Hu u. pose proof (mi_mutex p HI) as HM. rewrite Ho.
  destruct (decide (u = t)) as [->|Hne].
  - rewrite Ha. destruct Hm as [[<- ->]|[(E & -> & _ & ->)|(E & -> & ->)]]; [apply HM| |].
    + symmetry. by apply bool_decide_eq_true.
    + symmetry. by apply bool_decide_eq_false.
  - rewrite (Hu u Hne), HM. apply bool_decide_ext.
    destruct Hm as [[_ ->]|[(E & _ & -> & ->)|(E & _ & ->)]]; [done|naive_solver|].
    rewrite HM in E. apply bool_decide_eq_true in E. naive_solver.
Qed.

Lemma all_done_lookup p i c : mw_inv p -> masters p !! i = Some c -> c <> M_done -> main p = J_masters.
Proof.
  intros HI Hi Hc. destruct (decide (main p = J_masters)) as [|Hj]; [done|].
  pose proof (proj1 (Forall_lookup _ _) (mi_joined p HI Hj) i c Hi). congruence.
Qed.
Lemma all_done_worker p j c : mw_inv p -> workers p !! j = Some c -> c <> W_done -> main p <> J_done.
Proof.
  intros HI Hj Hc Hm. pose proof (proj1 (Forall_lookup _ _) (mi_end p HI Hm) j c Hj). congruence.
Qed.

Lemma set_mutex_id p : set_mutex (mutex p) p = p.
Proof. by destruct p. Qed.

(** A master moves without changing the counters. *)
Lemma master_moves p i c c' o : mw_inv p -> masters p !! i = Some c -> c <> M_done ->
  mutex_move p (Master i) (m_crit c) (m_crit c') o -> m_left i c' = m_left i c -> m_ok (curr_buf_size p) i c' ->
  mw_inv (set_master i c' (set_mutex o p)).
Proof.
  intros HI Hi Hd Hm Hl Hok. pose proof (all_done_lookup p i c HI Hi Hd) as Hj.
  assert (Hlt : i < length (masters p)) by (by apply lookup_lt_Some in Hi).
  constructor; simpl; try apply HI; try (by rewrite Hj).
  - apply (mutex_moved p (Master i) (m_crit c') o); [done| |done| |].
    + simpl. by rewrite Hi.
    + simpl. by rewrite list_lookup_insert_eq.
    + intros [k|k|] Hk; simpl; [|done..]. rewrite list_lookup_insert_ne by congruence. done.
  - destruct (concat_imap_insert m_left (masters p) i c Hi) as (R & H1 & H2).
    by rewrite H2, Hl, <- H1, (mi_to_produce p HI).
  - intros k d Hk. destruct (decide (k = i)) as [->|Hne].
    + rewrite list_lookup_insert_eq in Hk by done. by simplify_eq.
    + rewrite list_lookup_insert_ne in Hk by done. by apply HI.
Qed.

(** A worker moves without changing the counters. *)
Lemma worker_moves p j c c' o : mw_inv p -> workers p !! j = Some c -> c <> W_done ->
  mutex_move p (Worker j) (w_crit c) (w_crit c') o -> w_left c' = w_left c -> w_ok (curr_buf_size p) c' ->
  mw_inv (set_worker j c' (set_mutex o p)).
Proof.
  intros HI Hj Hd Hm Hl Hok. pose proof (all_done_worker p j c HI Hj Hd) as He.
  assert (Hlt : j < length (workers p)) by (by apply lookup_lt_Some in Hj).
  constructor; simpl; try apply HI; try done.
  - apply (mutex_moved p (Worker j) (w_crit c') o); [done| |done| |].
    + simpl. by rewrite Hj.
    + simpl. by rewrite list_lookup_insert_eq.
    + intros [k|k|] Hk; simpl; [done| |done]. rewrite list_lookup_insert_ne by congruence. done.
  - destruct (list_sum_insert w_left (workers p) j c Hj) as (R & H1 & H2).
    rewrite H2, Hl, <- H1. apply HI.
  - intros k d Hk. destruct (decide (k = j)) as [->|Hne].
    + rewrite list_lookup_insert_eq in Hk by done. by simplify_eq.
    + rewrite list_lookup_insert_ne in Hk by done. by apply (mi_workers p HI k).
Qed.

Lemma main_moves p c' o : mw_inv p -> mutex_move p Main (j_crit (main p)) (j_crit c') o ->
  (c' <> J_masters -> Forall (eq M_done) (masters p)) -> (c' = J_done -> Forall (eq W_done) (workers p)) ->
  mw_inv (set_main c' (set_mutex o p)).
Proof.
  intros HI Hm H1 H2. constructor; simpl; try apply HI; try done.
  apply (mutex_moved p Main (j_crit c') o); [done| |done|done|]; [done|]. by intros [k|k|] Hk.
Qed.

Lemma wake_master p i x : mw_inv p -> masters p !! i = Some (M_asleep x) -> mw_inv (set_master i (M_relock x) p).
Proof.
  intros HI Hi. rewrite <- (set_mutex_id p) at 1. apply (master_moves p i (M_asleep x)); try done; [by left|].
  apply (mi_masters p HI i _ Hi).
Qed.
Lemma wake_worker p j n : mw_inv p -> workers p !! j = Some (W_asleep n) -> mw_inv (set_worker j (W_relock n) p).
Proof.
  intros HI Hj. rewrite <- (set_mutex_id p) at 1. apply (worker_moves p j (W_asleep n)); try done; [by left|].
  apply (mi_workers p HI j _ Hj).
Qed.

(** A signal changes nothing but one thread of the other kind. *)
Lemma signal_consume_ok who p q : mw_inv p -> signal_consume who p = Some q ->
  mw_inv q /\ masters q = masters p /\ mutex q = mutex p /\ main q = main p /\ curr_buf_size q = curr_buf_size p.
Proof.
  intros HI Hs. unfold signal_consume in Hs. destruct who as [j|]; repeat case_match; simplify_eq; [|done].
  split; [by apply wake_worker|done].
Qed.
Lemma signal_produce_ok who p q : mw_inv p -> signal_produce who p = Some q ->
  mw_inv q /\ workers q = workers p /\ mutex q = mutex p /\ main q = main p /\ curr_buf_size q = curr_buf_size p.
Proof.
  intros HI Hs. unfold signal_produce in Hs. destruct who as [i|]; repeat case_match; simplify_eq; [|done].
  split; [by apply wake_master|done].
Qed.

Lemma put_item_ok p i x : mw_inv p -> masters p !! i = Some (M_put x) ->
  mw_inv (set_master i (M_count x) (put_item x p)).
Proof.
  intros HI Hi. pose proof (mi_masters p HI i _ Hi) as [Hx Hs]. pose proof (mi_buffer p HI) as Hb.
  assert (Hlt : i < length (masters p)) by (by apply lookup_lt_Some in Hi).
  assert (Hcr : crit p (Master i) = true) by (simpl; by rewrite Hi).
  assert (Hj : main p = J_masters) by (by apply (all_done_lookup p i _ HI Hi)).
  constructor; simpl; try (by rewrite Hj); try (by apply HI); try lia.
  - apply (mutex_moved p (Master i) true (mutex p) (set_master i (M_count x) (put_item x p))); [done| |done| |].
    + rewrite Hcr. by left.
    + simpl. by rewrite list_lookup_insert_eq.
    + intros [k|k|] Hk; simpl; [|done..]. rewrite list_lookup_insert_ne by congruence. done.
  - by rewrite length_insert.
  - rewrite (take_S_r _ _ x) by (rewrite list_lookup_insert_eq by lia; done).
    rewrite take_insert_ge by lia. by rewrite app_assoc, (mi_stock p HI).
  - destruct (concat_imap_insert m_left (masters p) i _ Hi) as (R & H1 & H2).
    rewrite H2, <- (mi_to_produce p HI), H1. simpl.
    replace (m_end i - x) with (S (m_end i - S x)) by lia. simpl. by rewrite <- app_assoc.
  - intros k d Hk. destruct (decide (k = i)) as [->|Hne].
    + rewrite list_lookup_insert_eq in Hk by done. by simplify_eq.
    + rewrite list_lookup_insert_ne in Hk by done. pose proof (mi_masters p HI k d Hk) as Hd.
      destruct d; try done. exfalso. apply Hne.
      assert (Master k = Master i) by (apply (crit_owner p); [done|simpl; by rewrite Hk|done]). congruence.
  - intros k d Hk. pose proof (mi_workers p HI k d Hk) as Hd. destruct d; try done. simpl in *. lia.
Qed.

Lemma take_item_ok p j n : mw_inv p -> workers p !! j = Some (W_take n) ->
  mw_inv (set_worker j (W_unlock (n - 1)) (take_item p)).
Proof.
  intros HI Hj. pose proof (mi_workers p HI j _ Hj) as [Hn Hs].
  pose proof (mi_buffer p HI) as Hb. pose proof (mi_size p HI) as Hz.
  assert (Hlt : j < length (workers p)) by (by apply lookup_lt_Some in Hj).
  assert (Hcr : crit p (Worker j) = true) by (simpl; by rewrite Hj).
  assert (He : main p <> J_done) by (by apply (all_done_worker p j _ HI Hj)).
  set (k := curr_buf_size p - 1). assert (Hk : curr_buf_size p = S k) by lia.
  constructor; simpl; fold k; try (by apply HI); try done; try lia.
  - apply (mutex_moved p (Worker j) true (mutex p) (set_worker j (W_unlock (n - 1)) (take_item p))); [done| |done| |].
    + rewrite Hcr. by left.
    + simpl. by rewrite list_lookup_insert_eq.
    + intros [u|u|] Hu; simpl; [done| |done]. rewrite list_lookup_insert_ne by congruence. done.
  - by rewrite length_insert.
  - rewrite take_insert_ge by lia. rewrite <- (mi_stock p HI), Hk.
    rewrite (take_S_r _ _ (nth k (buffer p) 0)) by (destruct (nth_lookup_or_length (buffer p) k 0); [done|lia]).
    rewrite <- app_assoc. by rewrite (Permutation_app_comm (take k (buffer p))).
  - destruct (list_sum_insert w_left (workers p) j _ Hj) as (R & H1 & H2).
    rewrite H2, length_app. pose proof (mi_to_consume p HI) as Hc. rewrite H1 in Hc. simpl in *. lia.
  - intros u d Hu. pose proof (mi_masters p HI u d Hu) as Hd. destruct d; try done. simpl in *. lia.
  - intros u d Hu. destruct (decide (u = j)) as [->|Hne].
    + rewrite list_lookup_insert_eq in Hu by done. by simplify_eq.
    + rewrite list_lookup_insert_ne in Hu by done. pose proof (mi_workers p HI u d Hu) as Hd.
      destruct d; try done. exfalso. apply Hne.
      assert (Worker u = Worker j) by (apply (crit_owner p); [done|simpl; by rewrite Hu|done]). congruence.
Qed.

Lemma lock_ok t p q : lock t p = Some q -> mutex p = None /\ q = set_mutex (Some t) p.
Proof. unfold lock. case_match; intros; by simplify_eq. Qed.

Lemma m_next_left i x : m_left i (m_next i x) = seq x (m_end i - x).
Proof.
  unfold m_next. destruct (Nat.ltb_spec x (m_end i)); [done|]. simpl. by replace (m_end i - x) with 0 by lia.
Qed.
Lemma m_next_ok size i x : m_ok size i (m_next i x) /\ m_crit (m_next i x) = false.
Proof. unfold m_next. by destruct (Nat.ltb_spec x (m_end i)). Qed.
Lemma w_next_ok size n : w_left (w_next n) = n /\ w_ok size (w_next n) /\ w_crit (w_next n) = false.
Proof. unfold w_next. destruct n; simpl; auto with lia. Qed.

(** The ways a master moves, with the mutex kept, taken or given back. *)
Lemma master_keeps p i c c' : mw_inv p -> masters p !! i = Some c -> c <> M_done ->
  m_crit c' = m_crit c -> m_left i c' = m_left i c -> m_ok (curr_buf_size p) i c' -> mw_inv (set_master i c' p).
Proof. intros. rewrite <- (set_mutex_id p) at 1. apply (master_moves p i c); try done. by left. Qed.
Lemma worker_keeps p j c c' : mw_inv p -> workers p !! j = Some c -> c <> W_done ->
  w_crit c' = w_crit c -> w_left c' = w_left c -> w_ok (curr_buf_size p) c' -> mw_inv (set_worker j c' p).
Proof. intros. rewrite <- (set_mutex_id p) at 1. apply (worker_moves p j c); try done. by left. Qed.

Ltac opt_cases := repeat match goal with
  | H : _ <$> lock _ _ = Some _ |- _ => apply fmap_Some in H as (? & [? ->]%lock_ok & ->)
  | H : (_ <$> _) = Some _ |- _ => apply fmap_Some in H as (? & ? & ->)
  end.

Lemma master_step_ok i who p q : mw_inv p ->
  generate_requests_loop total_items max_buf_size num_masters i who p = Some q -> mw_inv q.
Proof.
  intros HI Hs. unfold generate_requests_loop in Hs. apply bind_Some in Hs as (c & Hi & Hs).
  pose proof (mi_masters p HI i c Hi) as Hok.
  destruct c as [x|x|x|x|x|x|x|x| | | |]; simplify_eq; opt_cases.
  - apply (master_moves p i (M_lock x)); try done. right; left; done.
  - destruct (Nat.leb_spec max_buf_size (curr_buf_size p)); opt_cases; simplify_eq.
    + destruct (signal_consume_ok who p _ HI ltac:(eassumption)) as (HI' & Em & _ & _ & Es).
      apply (master_keeps _ i (M_test x)); try done. by rewrite Em.
    + apply (master_keeps _ i (M_test x)); try done.
  - case_match; simplify_eq; [by apply (master_keeps _ i (M_decide x))|].
    apply (master_moves p i (M_decide x)); try done. right; right; done.
  - apply (master_moves p i (M_relock x)); try done. right; left; done.
  - by apply put_item_ok.
  - destruct (m_next_ok (curr_buf_size p) i x). apply (master_keeps _ i (M_count x)) with (c' := M_unlock x) in HI; try done.
    destruct HI as [H1 H2 H3 H4 H5 H6 H7 H8 H9 H10]. constructor; try done.
  - destruct (m_next_ok (curr_buf_size p) i (S x)) as [? Hc]. apply (master_moves p i (M_unlock x)); try done.
    + right; right. by rewrite Hc.
    + by rewrite m_next_left.
  - apply (master_moves p i M_last_lock); try done. right; left; done.
  - destruct (Nat.leb_spec 1 (curr_buf_size p)); opt_cases; simplify_eq.
    + destruct (signal_consume_ok who p _ HI ltac:(eassumption)) as (HI' & Em & _ & _ & Es).
      apply (master_keeps _ i M_last_signal); try done. by rewrite Em.
    + by apply (master_keeps _ i M_last_signal).
  - apply (master_moves p i M_last_unlock); try done. right; right; done.
Qed.

Lemma worker_step_ok j who p q : mw_inv p -> generate_responses_loop j who p = Some q -> mw_inv q.
Proof.
  intros HI Hs. unfold generate_responses_loop in Hs. apply bind_Some in Hs as (c & Hj & Hs).
  pose proof (mi_workers p HI j c Hj) as Hok.
  destruct c as [n|n|n|n|n|n|n| | | |]; simplify_eq; opt_cases.
  - apply (worker_moves p j (W_lock n)); try done. right; left; done.
  - destruct (Nat.leb_spec (curr_buf_size p) 0); opt_cases; simplify_eq.
    + destruct (signal_produce_ok who p _ HI ltac:(eassumption)) as (HI' & Em & _ & _ & Es).
      apply (worker_keeps _ j (W_test n)); try done. by rewrite Em.
    + apply (worker_keeps _ j (W_test n)); try done.
  - apply (worker_moves p j (W_wait n)); try done. right; right; done.
  - apply (worker_moves p j (W_relock n)); try done. right; left; done.
  - by apply take_item_ok.
  - destruct (w_next_ok (curr_buf_size p) n) as (? & ? & Hc). apply (worker_moves p j (W_unlock n)); try done.
    right; right. by rewrite Hc.
  - apply (worker_moves p j W_last_lock); try done. right; left; done.
  - destruct (signal_produce_ok who p _ HI ltac:(eassumption)) as (HI' & Em & _ & _ & Es).
    apply (worker_keeps _ j W_last_signal); try done. by rewrite Em.
  - apply (worker_moves p j W_last_unlock); try done. right; right; done.
Qed.

Lemma forallb_all {A} `{EqDecision A} (x : A) l : forallb (fun c => bool_decide (c = x)) l = true -> Forall (eq x) l.
Proof. rewrite forallb_forall, Forall_forall. intros Hf y Hy. symmetry. by eapply bool_decide_eq_true, Hf, list_elem_of_In. Qed.

Lemma main_step_ok who p q : mw_inv p -> main_step who p = Some q -> mw_inv q.
Proof.
  intros HI Hs. unfold main_step in Hs. destruct (main p) eqn:Em; simplify_eq; opt_cases.
  - case_match eqn:Hf; simplify_eq. rewrite <- (set_mutex_id p) at 1. apply main_moves; try done.
    + left. by rewrite Em.
    + intros _. by apply forallb_all.
  - apply main_moves; try done; [right; left; by rewrite Em|]. intros _. apply HI. by rewrite Em.
  - assert (Hmain : forall p', mw_inv p' -> main p' = J_signal -> mw_inv (set_main J_unlock p')).
    { intros p' HI' Em'. rewrite <- (set_mutex_id p') at 1. apply main_moves; try done; [left; by rewrite Em'|].
      intros _. apply HI'. by rewrite Em'. }
    case_match; opt_cases; simplify_eq; [|by apply Hmain].
    destruct (signal_consume_ok who p _ HI ltac:(eassumption)) as (HI' & _ & _ & Ej & _).
    apply Hmain; [done|by rewrite Ej].
  - apply main_moves; try done; [right; right; by rewrite Em|]. intros _. apply HI. by rewrite Em.
  - case_match eqn:Hf; simplify_eq. rewrite <- (set_mutex_id p) at 1. apply main_moves; try done.
    + left. by rewrite Em.
    + intros _. apply HI. by rewrite Em.
    + intros _. by apply forallb_all.
Qed.

Lemma mw_step_ok p q : step p q -> mw_inv p -> mw_inv q.
Proof.
  intros [[[i|j|] who|[i|j|]] He] HI; simpl in He.
  - by eapply master_step_ok.
  - by eapply worker_step_ok.
  - by eapply main_step_ok.
  - repeat case_match; simplify_eq. by apply wake_master.
  - repeat case_match; simplify_eq. by apply wake_worker.
  - done.
Qed.

Lemma init_crit junk t : crit (prog_init total_items num_workers num_masters junk) t = false.
Proof.
  destruct t as [i|j|]; simpl; [| |done]; rewrite list_lookup_fmap; destruct (_ !! _); simpl; try done.
  - apply m_next_ok. exact 0.
  - apply (w_next_ok 0).
Qed.

Lemma mw_init_inv junk : length junk = max_buf_size -> mw_inv (prog_init total_items num_workers num_masters junk).
Proof using some_master some_worker.
  intros Hl. constructor; try done; simpl; try lia.
  - intros t. by rewrite init_crit.
  - rewrite <- (masters_partition total_items num_masters some_master).
    apply Permutation_refl', f_equal, list_eq. intros k. rewrite list_lookup_imap, !list_lookup_fmap. destruct (seq 0 num_masters !! k) as [i|] eqn:Ek; [|done].
    apply lookup_seq in Ek as [-> _]. simpl. by rewrite m_next_left.
  - rewrite map_map, <- (workers_partition total_items num_workers some_worker) at 1. f_equal.
    apply map_ext. intros j. apply (w_next_ok 0).
  - intros i c Hi. apply list_lookup_fmap_Some in Hi as (k & -> & Hk). apply lookup_seq in Hk as [-> _].
    apply m_next_ok.
  - intros j c Hj. apply list_lookup_fmap_Some in Hj as (k & -> & Hk). apply w_next_ok.
Qed.

Lemma mw_reachable_inv junk p : length junk = max_buf_size ->
  rtc step (prog_init total_items num_workers num_masters junk) p -> mw_inv p.
Proof using some_master some_worker.
  intros Hl Hr. assert (HI : mw_inv (prog_init total_items num_workers num_masters junk)) by (by apply mw_init_inv).
  clear Hl. induction Hr as [|x y z Hxy _ IH]; [done|]. by apply IH, (mw_step_ok x).
Qed.

Lemma sum_done l : Forall (eq W_done) l -> list_sum (map w_left l) = 0.
Proof. induction 1 as [|? ? <- _ IH]; simpl; lia. Qed.
Lemma left_done l : Forall (eq M_done) l -> concat (imap m_left l) = [].
Proof.
  intros Hf. rewrite concat_nil_Forall. apply Forall_lookup. intros k x Hk.
  apply list_lookup_imap_Some in Hk as (c & Hc & ->). by rewrite <- (proj1 (Forall_lookup _ _) Hf k c Hc).
Qed.

(** C39. Whatever the numbers of masters and workers, the size of the buffer and
    the interleaving, wake-ups that no signal caused included: the program never
    writes or reads outside its buffer, one thread at most is in its critical
    section, no number is ever lost or duplicated (what was consumed together
    with what is in the buffer is what was produced), and when the program has
    joined all its threads, the workers have consumed every number from 0 to
    total_items - 1 exactly once. *)
Theorem all_items_consumed_once junk p : length junk = max_buf_size ->
  rtc step (prog_init total_items num_workers num_masters junk) p ->
  length (buffer p) = max_buf_size /\ curr_buf_size p <= max_buf_size /\
  (forall i x, masters p !! i = Some (M_put x) -> curr_buf_size p < max_buf_size) /\
  (forall j n, workers p !! j = Some (W_take n) -> 1 <= curr_buf_size p) /\
  (forall t u, crit p t = true -> crit p u = true -> t = u) /\
  consumed p ++ take (curr_buf_size p) (buffer p) ≡ₚ produced p /\ NoDup (produced p) /\
  (main p = J_done -> consumed p ≡ₚ seq 0 total_items).
Proof using some_master some_worker.
  intros Hl Hr. pose proof (mw_reachable_inv junk p Hl Hr) as HI.
  split_and!; try apply HI; [| | | |].
  - intros i x Hi. apply (mi_masters p HI i _ Hi).
  - intros j n Hj. apply (mi_workers p HI j _ Hj).
  - intros t u. by apply crit_owner.
  - pose proof (NoDup_seq 0 total_items) as Hn. rewrite <- (mi_to_produce p HI) in Hn. apply (NoDup_app (produced p)) in Hn. apply Hn.
  - intros Hj. pose proof (mi_to_produce p HI) as Hp. rewrite left_done, app_nil_r in Hp by (apply HI; by rewrite Hj).
    pose proof (mi_to_consume p HI) as Hc. rewrite sum_done in Hc by (by apply HI).
    pose proof (mi_stock p HI) as Hs. rewrite Hp in Hs.
    assert (Ht : take (curr_buf_size p) (buffer p) = []).
    { apply length_zero_iff_nil. apply Permutation_length in Hs. rewrite length_app, length_seq in Hs. lia. }
    by rewrite Ht, app_nil_r in Hs.
Qed.
End correct.

Lemma mw_run_steps total max nm es p q : run total max nm es p = Some q -> rtc (step total max nm) p q.
Proof. apply foldl_steps. Qed.

Definition turns (n : nat) (t : tid) : list event := replicate n (Run t None).

(** A whole run: two numbers through a buffer of one place, in which both the
    master and the worker sleep and are woken. *)
Definition full_run : list event :=
  turns 8 (Master 0) ++ turns 5 (Worker 0) ++ [Run (Worker 0) (Some 0)] ++ turns 1 (Worker 0) ++
  turns 6 (Master 0) ++ [Run (Master 0) (Some 0)] ++ turns 1 (Master 0) ++ turns 7 (Worker 0) ++ turns 5 Main.

Lemma all_items_consumed_once_witness :
  exists p, rtc (step 2 1 1) (prog_init 2 1 1 [7]) p /\ main p = J_done /\ consumed p ≡ₚ seq 0 2.
Proof.
  assert (exists p, run 2 1 1 full_run (prog_init 2 1 1 [7]) = Some p /\ main p = J_done) as (p & Hr & Hm).
  { eexists. split; [vm_compute; reflexivity|reflexivity]. }
  apply mw_run_steps in Hr. exists p. split; [exact Hr|]. split; [exact Hm|].
  by apply (all_items_consumed_once 2 1 1 1 ltac:(lia) ltac:(lia) [7] p eq_refl Hr).
Defined.

(** The run of [./master-worker 6 3 6 1] in which the last three workers find
    the buffer empty before the master fills it again. *)
Definition lost_wakeup_run : list event :=
  turns 18 (Master 0) ++ turns 5 (Worker 0) ++ [Run (Worker 0) (Some 0)] ++ turns 1 (Worker 0) ++
  turns 7 (Worker 1) ++ turns 7 (Worker 2) ++ turns 3 (Worker 3) ++ turns 3 (Worker 4) ++ turns 3 (Worker 5) ++
  turns 16 (Master 0) ++ [Run (Master 0) (Some 3)] ++ turns 1 (Master 0) ++ turns 7 (Worker 3) ++
  turns 2 Main ++ [Run Main (Some 4)] ++ turns 1 Main ++ turns 7 (Worker 4).

(** The program does not always end.  A master signals when the buffer is
    full and once when it has finished, and [main] once more, but a worker that
    has consumed its share wakes no other worker: with 6 numbers, a buffer of 3,
    6 workers and one master there is a run that ends with every master
    finished, a number in the buffer, a worker asleep waiting for it, [main]
    waiting for that worker, and no statement of any thread that can run. *)
Theorem worker_sleeps_forever :
  exists p, rtc (step 6 3 1) (prog_init 6 6 1 [0; 0; 0]) p /\
  masters p = [M_done] /\ curr_buf_size p = 1 /\ workers p !! 5 = Some (W_asleep 1) /\ main p = J_workers /\
  forall t who, exec 6 3 1 (Run t who) p = None.
Proof.
  eexists. split; [apply (mw_run_steps 6 3 1 lost_wakeup_run); vm_compute; reflexivity|].
  do 4 (split; [reflexivity|]).
  intros [[|i]|j|] who; [reflexivity..| |reflexivity]. by do 6 (destruct j as [|j]; [reflexivity|]).
Qed.
