(* ===== verification/RwLock.v ===== *)
(** * RwLock: project4/2, the two reader-writer locks

    [r_lock], [r_unlock], [w_lock] and [w_unlock] of rw_lock-r-test.c and
    rw_lock-w-test.c, as the sequences of their statements, run by any number
    of threads that take and give back the lock as readers or writers (the
    bodies of [Reader] and [Writer] of the tests between the calls do not touch
    the lock).  [pthread_cond_wait] releases its mutex and sleeps, and a woken
    thread takes the mutex again and repeats the loop test.  [mutex_read] is
    never used by the code.  The counters are of type long; the invariant shows
    that they never exceed the number of threads. *)

From Stdlib Require Import ZArith Lia.
From stdpp Require Import base numbers strings option relations list.
From S2P Require Import Prelude.

Local Open Scope Z_scope.

Inductive mtx := cmutex_read | cmutex_write | mutex_write.
(** The two counters, each with its condition and the mutex of the condition. *)
Inductive ctr := num_readers | num_writers.
#[export] Instance mtx_eq_dec : EqDecision mtx.
Proof. solve_decision. Defined.
#[export] Instance ctr_eq_dec : EqDecision ctr.
Proof. solve_decision. Defined.
Definition cmutex (c : ctr) : mtx := match c with num_readers => cmutex_read | num_writers => cmutex_write end.

(** The statements the functions are made of. *)
Inductive ins :=
| Lock (m : mtx)
| Unlock (m : mtx)
| Incr (c : ctr)               (* rw->c ++ *)
| Decr (c : ctr)               (* if (rw->c > 0) rw->c -- *)
| Wait_while (c : ctr)         (* while (rw->c > 0) pthread_cond_wait(cond of c, cmutex of c) *)
| Broadcast_if_zero (c : ctr). (* if (rw->c == 0) pthread_cond_broadcast(cond of c) *)

(** ** rw_lock-r-test.c: readers announce themselves first *)
Definition r_lock_rtest : list ins :=
  [Lock cmutex_read; Incr num_readers; Unlock cmutex_read;
   Lock cmutex_write; Wait_while num_writers; Unlock cmutex_write].
Definition r_unlock_rtest : list ins :=
  [Lock cmutex_read; Decr num_readers; Broadcast_if_zero num_readers; Unlock cmutex_read].
Definition w_lock_rtest : list ins :=
  [Lock cmutex_read; Wait_while num_readers; Unlock cmutex_read;
   Lock cmutex_write; Incr num_writers; Unlock cmutex_write; Lock mutex_write].
Definition w_unlock_rtest : list ins :=
  [Lock cmutex_write; Decr num_writers; Broadcast_if_zero num_writers; Unlock cmutex_write; Unlock mutex_write].

(** ** rw_lock-w-test.c: writers announce themselves first *)
Definition r_lock_wtest : list ins :=
  [Lock cmutex_write; Wait_while num_writers; Unlock cmutex_write;
   Lock cmutex_read; Incr num_readers; Unlock cmutex_read].
Definition r_unlock_wtest : list ins :=
  [Lock cmutex_read; Decr num_readers; Broadcast_if_zero num_readers; Unlock cmutex_read].
Definition w_lock_wtest : list ins :=
  [Lock cmutex_write; Incr num_writers; Unlock cmutex_write;
   Lock cmutex_read; Wait_while num_readers; Unlock cmutex_read; Lock mutex_write].
Definition w_unlock_wtest : list ins :=
  [Lock cmutex_write; Decr num_writers; Broadcast_if_zero num_writers; Unlock cmutex_write; Unlock mutex_write].

Inductive variant := r_test | w_test.
Inductive op := R_lock | R_unlock | W_lock | W_unlock.
Definition code (v : variant) (o : op) : list ins :=
  match v, o with
  | r_test, R_lock => r_lock_rtest
  | r_test, R_unlock => r_unlock_rtest
  | r_test, W_lock => w_lock_rtest
  | r_test, W_unlock => w_unlock_rtest
  | w_test, R_lock => r_lock_wtest
  | w_test, R_unlock => r_unlock_wtest
  | w_test, W_lock => w_lock_wtest
  | w_test, W_unlock => w_unlock_wtest
  end.

(** Where a thread is: outside, at statement [k] of a function, asleep in the
    [pthread_cond_wait] of statement [k], woken but without the mutex yet, or
    inside the section the lock protects. *)
Inductive thread :=
| T_idle
| T_run (o : op) (k : nat)
| T_asleep (o : op) (k : nat)
| T_relock (o : op) (k : nat)
| T_read
| T_write.

Record rw_lock := mk_rw { num : ctr -> Z; owner : mtx -> option nat; threads : list thread }.

Definition init_rwlock (n : nat) : rw_lock := mk_rw (fun _ => 0) (fun _ => None) (replicate n T_idle).

Section code.
Variable v : variant.

Definition set_num c z s := mk_rw (fun c' => if decide (c' = c) then z else num s c') (owner s) (threads s).
Definition set_owner m o s := mk_rw (num s) (fun m' => if decide (m' = m) then o else owner s m') (threads s).
Definition set_thread i t s := mk_rw (num s) (owner s) (<[i := t]> (threads s)).

(** The place after statement [k - 1] of [o]: a statement, or its return. *)
Definition next (o : op) (k : nat) : thread :=
  if (k <? length (code v o))%nat then T_run o k
  else match o with R_lock => T_read | W_lock => T_write | _ => T_idle end.

Definition wake (c : ctr) (t : thread) : thread :=
  match t with
  | T_asleep o k =>
      match code v o !! k with Some (Wait_while c') => if decide (c' = c) then T_relock o k else t | _ => t end
  | _ => t
  end.
Definition broadcast (c : ctr) (s : rw_lock) : rw_lock := mk_rw (num s) (owner s) (map (wake c) (threads s)).

(** One statement of thread [i] at place [k] of [o]. *)
Definition exec_ins (i : nat) (o : op) (k : nat) (x : ins) (s : rw_lock) : option rw_lock :=
  let go := set_thread i (next o (S k)) in
  match x with
  | Lock m => match owner s m with None => Some (go (set_owner m (Some i) s)) | Some _ => None end
  | Unlock m => Some (go (set_owner m None s))
  | Incr c => Some (go (set_num c (num s c + 1) s))
  | Decr c => Some (go (if 0 <? num s c then set_num c (num s c - 1) s else s))
  | Wait_while c =>
      if 0 <? num s c then Some (set_thread i (T_asleep o k) (set_owner (cmutex c) None s)) else Some (go s)
  | Broadcast_if_zero c => Some (go (if num s c =? 0 then broadcast c s else s))
  end.

Definition run_thread (i : nat) (s : rw_lock) : option rw_lock :=
  t ← threads s !! i;
  match t with
  | T_run o k => x ← code v o !! k; exec_ins i o k x s
  | T_relock o k =>
      match code v o !! k with
      | Some (Wait_while c) =>
          match owner s (cmutex c) with
          | None => Some (set_thread i (T_run o k) (set_owner (cmutex c) (Some i) s))
          | Some _ => None
          end
      | _ => None
      end
  | T_read => Some (set_thread i (T_run R_unlock 0) s)
  | T_write => Some (set_thread i (T_run W_unlock 0) s)
  | T_idle | T_asleep _ _ => None
  end.

(** A thread calls [r_lock] or [w_lock], runs a statement, or wakes up without
    a broadcast. *)
Inductive event := Call_r (i : nat) | Call_w (i : nat) | Run (i : nat) | Spurious (i : nat).
Definition exec (e : event) (s : rw_lock) : option rw_lock :=
  match e with
  | Call_r i => match threads s !! i with Some T_idle => Some (set_thread i (T_run R_lock 0) s) | _ => None end
  | Call_w i => match threads s !! i with Some T_idle => Some (set_thread i (T_run W_lock 0) s) | _ => None end
  | Run i => run_thread i s
  | Spurious i => match threads s !! i with Some (T_asleep o k) => Some (set_thread i (T_relock o k) s) | _ => None end
  end.
Definition step (s s' : rw_lock) : Prop := exists e, exec e s = Some s'.
Definition run (es : list event) (s : rw_lock) : option rw_lock := foldl (fun a e => a ≫= exec e) (Some s) es.

(** ** What a thread holds and counts for, read off the code *)
Definition held_after (h : mtx -> bool) (l : list ins) (m : mtx) : bool :=
  foldl (fun b x => match x with
    | Lock m' => b || bool_decide (m' = m) | Unlock m' => b && negb (bool_decide (m' = m)) | _ => b end) (h m) l.
Definition count_after (n : ctr -> Z) (l : list ins) (c : ctr) : Z :=
  foldl (fun z x => match x with
    | Incr c' => if decide (c' = c) then z + 1 else z
    | Decr c' => if decide (c' = c) then z - 1 else z | _ => z end) (n c) l.

Definition held_at (o : op) (k : nat) : mtx -> bool :=
  held_after (fun m => match o with W_unlock => bool_decide (m = mutex_write) | _ => false end) (take k (code v o)).
Definition count_at (o : op) (k : nat) : ctr -> Z :=
  count_after (fun c => match o, c with R_unlock, num_readers | W_unlock, num_writers => 1 | _, _ => 0 end)
    (take k (code v o)).

Definition held (t : thread) (m : mtx) : bool :=
  match t with
  | T_idle | T_read => false
  | T_write => bool_decide (m = mutex_write)
  | T_run o k => held_at o k m
  | T_asleep o k | T_relock o k =>
      match code v o !! k with Some (Wait_while c) => held_at o k m && negb (bool_decide (m = cmutex c)) | _ => false end
  end.
Definition counted (t : thread) (c : ctr) : Z :=
  match t with
  | T_idle => 0
  | T_read => match c with num_readers => 1 | _ => 0 end
  | T_write => match c with num_writers => 1 | _ => 0 end
  | T_run o k | T_asleep o k | T_relock o k => count_at o k c
  end.
End code.

(** ** Facts about the code, statement by statement *)
Ltac by_code v o k :=
  destruct v, o; do 8 (destruct k as [|k]; [let H := fresh in intros H; simpl in H; simplify_eq; try done|]); done.

Lemma code_start v o : exists x, code v o !! 0%nat = Some x.
Proof. destruct v, o; by eexists. Qed.

Lemma code_pre v o k x : code v o !! k = Some x ->
  match x with
  | Lock m => held_at v o k m = false /\ held_at v o k cmutex_read = false /\ held_at v o k cmutex_write = false
  | Unlock m => held_at v o k m = true
  | Incr c => count_at v o k c = 0
  | Decr c => count_at v o k c = 1 /\ code v o !! S k = Some (Broadcast_if_zero c)
  | Wait_while c => held_at v o k (cmutex c) = true
  | Broadcast_if_zero _ => True
  end.
Proof. by_code v o k. Qed.

Lemma held_next v o k x m : code v o !! k = Some x ->
  held v (next v o (S k)) m =
  match x with
  | Lock m' => if decide (m = m') then true else held_at v o k m
  | Unlock m' => if decide (m = m') then false else held_at v o k m
  | _ => held_at v o k m
  end.
Proof. destruct m; by_code v o k. Qed.

Lemma counted_next v o k x c : code v o !! k = Some x ->
  counted v (next v o (S k)) c =
  match x with
  | Incr c' => if decide (c = c') then 1 else count_at v o k c
  | Decr c' => if decide (c = c') then 0 else count_at v o k c
  | _ => count_at v o k c
  end.
Proof. destruct c; by_code v o k. Qed.

(** A counted thread that can sleep: only readers of the first variant and
    writers of the second. *)
Lemma sleeper_counts v o k c : code v o !! k = Some (Wait_while c) ->
  count_at v o k c = 0 /\
  forall c', 0 < count_at v o k c' -> c' = match v with r_test => num_readers | w_test => num_writers end.
Proof.
  intros Hx. split; [revert Hx; by_code v o k|]. intros c'. revert Hx. destruct c'; by_code v o k.
Qed.

Lemma wait_held v o k c m : code v o !! k = Some (Wait_while c) -> held_at v o k m = bool_decide (m = cmutex c).
Proof. destruct m; by_code v o k. Qed.
(** The holder of [mutex_write] only ever takes [cmutex_write]. *)
Lemma write_locks v o k m :
  code v o !! k = Some (Lock m) -> held_at v o k mutex_write = true -> m = cmutex_write.
Proof. by_code v o k. Qed.

Lemma count_range v o k c : 0 <= count_at v o k c <= 1.
Proof.
  do 7 (destruct k as [|k]; [destruct v, o, c; vm_compute; split; by intros|]). unfold count_at. rewrite take_ge.
  - destruct v, o, c; vm_compute; split; by intros.
  - destruct v, o; simpl; lia.
Qed.
Lemma counted_range v t c : 0 <= counted v t c <= 1.
Proof. destruct t, c; simpl; try apply count_range; lia. Qed.

(** ** The invariant *)
Definition zsum {A} (f : A -> Z) (l : list A) : Z := foldr (fun x z => f x + z) 0 l.
Lemma zsum_insert {A} (f : A -> Z) l i x y : l !! i = Some x -> zsum f (<[i := y]> l) = zsum f l + f y - f x.
Proof. revert i. induction l as [|z l IH]; intros [|i] Hi; simplify_eq/=; [lia|]. rewrite (IH i Hi). lia. Qed.
Lemma zsum_bounds {A} (f : A -> Z) l : (forall x, 0 <= f x <= 1) -> 0 <= zsum f l <= Z.of_nat (length l).
Proof. intros Hf. induction l as [|x l IH]; [done|]. pose proof (Hf x). simpl zsum. simpl length. lia. Qed.
Lemma zsum_pos {A} (f : A -> Z) l : 0 < zsum f l -> exists i x, l !! i = Some x /\ 0 < f x.
Proof.
  induction l as [|x l IH]; simpl; [lia|]. intros Hs. destruct (Z.ltb_spec 0 (f x)) as [|Hx].
  - by exists 0%nat, x.
  - destruct IH as (i & y & Hi & Hy); [lia|]. by exists (S i), y.
Qed.
Lemma zsum_ge {A} (f : A -> Z) l i x : (forall y, 0 <= f y) -> l !! i = Some x -> f x <= zsum f l.
Proof.
  intros Hf. revert i. induction l as [|y l IH]; intros [|i] Hi; simplify_eq/=.
  - enough (0 <= zsum f l) by lia. clear IH. induction l as [|z l IH]; simpl; [done|]. pose proof (Hf z). lia.
  - pose proof (IH i Hi). pose proof (Hf y). lia.
Qed.
Lemma zsum_map {A} (f : A -> Z) (g : A -> A) l : (forall x, f (g x) = f x) -> zsum f (map g l) = zsum f l.
Proof. intros Hg. induction l as [|x l IH]; simpl; [done|]. by rewrite Hg, IH. Qed.

Section inv.
Variable v : variant.

Definition waits (t : thread) (c : ctr) : Prop :=
  match t with T_asleep o k | T_relock o k => code v o !! k = Some (Wait_while c) | _ => False end.
Definition thread_ok (t : thread) : Prop :=
  match t with
  | T_run o k => exists x, code v o !! k = Some x
  | T_asleep _ _ | T_relock _ _ => exists c, waits t c
  | _ => True
  end.
Definition asleep_on (c : ctr) (t : thread) : Prop := match t with T_asleep _ _ => waits t c | _ => False end.
Definition broadcasts (c : ctr) (t : thread) : Prop :=
  match t with T_run o k => code v o !! k = Some (Broadcast_if_zero c) | _ => False end.

Record rw_inv (s : rw_lock) : Prop := {
  ri_threads : forall i t, threads s !! i = Some t -> thread_ok t;
  ri_owner : forall m i t, threads s !! i = Some t -> held v t m = bool_decide (owner s m = Some i);
  ri_owned : forall m i, owner s m = Some i -> (i < length (threads s))%nat;
  ri_num : forall c, num s c = zsum (fun t => counted v t c) (threads s)
}.

(** Nobody sleeps through the end of what it waits for. *)
Definition rw_no_lost_wakeup (s : rw_lock) : Prop := forall i t c,
  threads s !! i = Some t -> asleep_on c t ->
  0 < num s c \/ exists j u, threads s !! j = Some u /\ broadcasts c u.

Lemma num_range s c : rw_inv s -> 0 <= num s c <= Z.of_nat (length (threads s)).
Proof. intros HI. rewrite (ri_num s HI). apply zsum_bounds. intros t. apply counted_range. Qed.

Lemma next_ok o k : thread_ok (next v o k).
Proof.
  unfold next. destruct (Nat.ltb_spec k (length (code v o))); [by apply lookup_lt_is_Some|]. by destruct o.
Qed.

(** One thread moves. *)
Lemma thread_moves s i t t' num' own' : rw_inv s -> threads s !! i = Some t -> thread_ok t' ->
  (forall m, own' m = match held v t m, held v t' m with
                      | false, true => Some i | true, false => None | _, _ => owner s m end) ->
  (forall m, held v t m = false -> held v t' m = true -> owner s m = None) ->
  (forall c, num' c = num s c + counted v t' c - counted v t c) ->
  rw_inv (mk_rw num' own' (<[i := t']> (threads s))).
Proof.
  intros HI Hi Hok Ho Hfree Hn. assert (Hlt : (i < length (threads s))%nat) by (by apply lookup_lt_Some in Hi).
  constructor; simpl.
  - intros j u Hj. destruct (decide (j = i)) as [->|Hne].
    + rewrite list_lookup_insert_eq in Hj by done. by simplify_eq.
    + rewrite list_lookup_insert_ne in Hj by done. by apply (ri_threads s HI j).
  - intros m j u Hj. pose proof (ri_owner s HI m i t Hi) as Hm. rewrite Ho. destruct (decide (j = i)) as [->|Hne].
    + rewrite list_lookup_insert_eq in Hj by done. simplify_eq.
      destruct (held v t m), (held v u m); symmetry in Hm |- *;
        first [by apply bool_decide_eq_true|by apply bool_decide_eq_false|by rewrite Hm|done].
    + rewrite list_lookup_insert_ne in Hj by done. rewrite (ri_owner s HI m j u Hj). apply bool_decide_ext.
      destruct (held v t m) eqn:E1, (held v t' m) eqn:E2; symmetry in Hm; try done.
      * apply bool_decide_eq_true in Hm. naive_solver.
      * pose proof (Hfree m E1 E2). naive_solver.
  - intros m j Hj. rewrite length_insert. rewrite Ho in Hj.
    repeat case_match; simplify_eq; try done; by eapply (ri_owned s HI).
  - intros c. rewrite Hn, (ri_num s HI), (zsum_insert _ _ _ _ _ Hi). done.
Qed.

Lemma sleep_moves s i t t' num' own' : rw_no_lost_wakeup s -> threads s !! i = Some t ->
  (forall c, 0 < num s c -> 0 < num' c \/ broadcasts c t') ->
  (forall c, broadcasts c t -> 0 < num' c \/ forall j u, threads s !! j = Some u -> ~ asleep_on c u) ->
  (forall c, asleep_on c t' -> 0 < num' c) ->
  rw_no_lost_wakeup (mk_rw num' own' (<[i := t']> (threads s))).
Proof.
  intros HS Hi Hpos Hb Hsl j u c Hj Ha. simpl in *.
  assert (Hlt : (i < length (threads s))%nat) by (by apply lookup_lt_Some in Hi).
  destruct (decide (j = i)) as [->|Hne].
  { rewrite list_lookup_insert_eq in Hj by done. simplify_eq. left. by apply Hsl. }
  rewrite list_lookup_insert_ne in Hj by done.
  destruct (HS j u c Hj Ha) as [Hp|(l & w & Hl & Hw)].
  - destruct (Hpos c Hp) as [|Hb']; [by left|]. right. exists i, t'. by rewrite list_lookup_insert_eq.
  - destruct (decide (l = i)) as [->|Hli].
    + simplify_eq. destruct (Hb c Hw) as [|Hno]; [by left|]. by destruct (Hno j u Hj).
    + right. exists l, w. by rewrite list_lookup_insert_ne.
Qed.

Lemma wake_held c t m : held v (wake v c t) m = held v t m.
Proof. destruct t; simpl; try done. repeat case_match; simpl; by simplify_option_eq. Qed.
Lemma wake_counted c d t : counted v (wake v c t) d = counted v t d.
Proof. destruct t; simpl; try done. by repeat case_match. Qed.
Lemma wake_ok c t : thread_ok t -> thread_ok (wake v c t).
Proof. destruct t; simpl; try done. intros [d Hd]. rewrite Hd. case_decide; simpl; eauto. Qed.
Lemma wake_asleep c d t : asleep_on d (wake v c t) -> d <> c /\ asleep_on d t.
Proof.
  destruct t as [|o k|o k|o k| |]; simpl; try done. destruct (code v o !! k) as [x|] eqn:E; simpl; [|by rewrite E].
  destruct x; simpl; rewrite ?E; try done. case_decide; simpl; [done|]. rewrite E. intros [= ->]. done.
Qed.
Lemma wake_run c t o k : wake v c t = T_run o k <-> t = T_run o k.
Proof. destruct t; simpl; try done. repeat case_match; done. Qed.

Lemma broadcast_inv c s : rw_inv s -> rw_inv (broadcast v c s).
Proof.
  intros HI. constructor; simpl.
  - intros i t Hi. apply list_lookup_fmap_Some in Hi as (u & -> & Hu). by apply wake_ok, (ri_threads s HI i).
  - intros m i t Hi. apply list_lookup_fmap_Some in Hi as (u & -> & Hu). rewrite wake_held. by apply HI.
  - intros m i Hi. rewrite length_map. by eapply ri_owned.
  - intros d. rewrite zsum_map by (intros; apply wake_counted). apply HI.
Qed.
Lemma broadcast_sleep c s : rw_no_lost_wakeup s -> rw_no_lost_wakeup (broadcast v c s).
Proof.
  intros HS i t d Hi Ha. simpl in *. apply list_lookup_fmap_Some in Hi as (u & -> & Hu).
  apply wake_asleep in Ha as [_ Ha]. destruct (HS i u d Hu Ha) as [|(j & w & Hj & Hw)]; [by left|].
  right. exists j, (wake v c w). split; [by rewrite list_lookup_fmap, Hj|]. by destruct w.
Qed.
Lemma broadcast_wakes c s j u : threads (broadcast v c s) !! j = Some u -> ~ asleep_on c u.
Proof. intros Hj Ha. apply list_lookup_fmap_Some in Hj as (w & -> & _). by apply wake_asleep in Ha as [? _]. Qed.

(** The owner of a mutex after thread [i] has executed a statement. *)
Definition owner_after (s : rw_lock) (i : nat) (x : ins) (m : mtx) : option nat :=
  match x with
  | Lock m' => if decide (m = m') then Some i else owner s m
  | Unlock m' => if decide (m = m') then None else owner s m
  | _ => owner s m
  end.

Lemma moves_next s i o k x num' own' :
  rw_inv s -> threads s !! i = Some (T_run o k) -> code v o !! k = Some x ->
  match x with Lock m => owner s m = None | _ => True end ->
  (forall m, own' m = owner_after s i x m) ->
  (forall c, num' c = num s c + counted v (next v o (S k)) c - count_at v o k c) ->
  rw_inv (mk_rw num' own' (<[i := next v o (S k)]> (threads s))).
Proof.
  intros HI Hi Hx Hfree Ho Hn. pose proof (code_pre v o k x Hx) as Hp.
  apply (thread_moves s i (T_run o k)); try done; [apply next_ok| |].
  - intros m. rewrite Ho, (held_next v o k x m Hx). simpl. unfold owner_after.
    destruct x as [m'|m'|c|c|c|c]; [destruct (decide (m = m')) as [->|]; [by rewrite (proj1 Hp)|]
      |destruct (decide (m = m')) as [->|]; [by rewrite Hp|]|..]; by destruct (held_at v o k m).
  - intros m H1 H2. simpl in H1. rewrite (held_next v o k x m Hx) in H2. destruct x; try case_decide; congruence.
Qed.

Lemma counted_le s i t c : rw_inv s -> threads s !! i = Some t -> counted v t c <= num s c.
Proof.
  intros HI Hi. rewrite (ri_num s HI). apply (zsum_ge (fun t => counted v t c) _ i); [|done].
  intros y. apply counted_range.
Qed.

Lemma exec_ins_inv s i o k x s' : rw_inv s -> threads s !! i = Some (T_run o k) -> code v o !! k = Some x ->
  exec_ins v i o k x s = Some s' -> rw_inv s'.
Proof.
  intros HI Hi Hx He. pose proof (code_pre v o k x Hx) as Hp.
  pose proof (fun c => counted_next v o k x c Hx) as Hc.
  destruct x as [m|m|c|c|c|c]; simpl in He.
  - destruct (owner s m) eqn:Eo; simplify_eq. apply (moves_next s i o k _ _ _ HI Hi Hx); try done. intros c. rewrite Hc. simpl. lia.
  - simplify_eq. apply (moves_next s i o k _ _ _ HI Hi Hx); try done. intros c. rewrite Hc. simpl. lia.
  - simplify_eq. apply (moves_next s i o k _ _ _ HI Hi Hx); try done. intros d. rewrite Hc. simpl. case_decide; subst; lia.
  - destruct Hp as [Hp _]. pose proof (counted_le s i _ c HI Hi) as Hle. simpl in Hle.
    rewrite (proj2 (Z.ltb_lt 0 (num s c))) in He by lia. simplify_eq.
    apply (moves_next s i o k _ _ _ HI Hi Hx); try done. intros d. rewrite Hc. simpl. case_decide; subst; lia.
  - destruct (0 <? num s c); simplify_eq.
    + apply (thread_moves s i (T_run o k)); try done; simpl.
      * by exists c.
      * intros m. rewrite Hx. case_decide; subst; simpl.
        -- rewrite Hp, bool_decide_true by done. done.
        -- rewrite bool_decide_false by done. rewrite andb_true_r. by destruct (held_at v o k m).
      * intros m H1. by rewrite Hx, H1.
      * intros d. lia.
    + apply (moves_next s i o k _ _ _ HI Hi Hx); try done. intros d. rewrite Hc. simpl. lia.
  - destruct (num s c =? 0); simplify_eq.
    + apply (moves_next (broadcast v c s) i o k (Broadcast_if_zero c)); try done; [by apply broadcast_inv| |].
      * simpl. by rewrite list_lookup_fmap, Hi.
      * intros d. rewrite Hc. simpl. lia.
    + apply (moves_next s i o k _ _ _ HI Hi Hx); try done. intros d. rewrite Hc. simpl. lia.
Qed.

Lemma next_wait o k c : ~ asleep_on c (next v o k).
Proof. unfold next. case_match; [by intros []|]. by destruct o; intros []. Qed.

Lemma exec_ins_sleep s i o k x s' : rw_inv s -> rw_no_lost_wakeup s -> threads s !! i = Some (T_run o k) ->
  code v o !! k = Some x -> exec_ins v i o k x s = Some s' -> rw_no_lost_wakeup s'.
Proof.
  intros HI HS Hi Hx He. pose proof (code_pre v o k x Hx) as Hp. pose proof (next_wait o (S k)) as Hnw.
  assert (Hmv : forall num' own', (forall c, 0 < num s c -> 0 < num' c \/ broadcasts c (next v o (S k))) ->
    (forall c, x <> Broadcast_if_zero c) ->
    rw_no_lost_wakeup (mk_rw num' own' (<[i := next v o (S k)]> (threads s)))).
  { intros num' own' Hn Hb. apply (sleep_moves s i (T_run o k)); try done; simpl; [naive_solver|]. intros c Ha. by destruct (Hnw c). }
  destruct x as [m|m|c|c|c|c]; simpl in He.
  - destruct (owner s m) eqn:Eo; simplify_eq. apply Hmv; [by left|done].
  - simplify_eq. apply Hmv; [by left|done].
  - simplify_eq. apply Hmv; [|done]. intros d Hd. left. simpl. case_decide; subst; lia.
  - destruct Hp as [_ Hb]. assert (Hbn : broadcasts c (next v o (S k))).
    { unfold next. pose proof (lookup_lt_Some _ _ _ Hb). destruct (Nat.ltb_spec (S k) (length (code v o))); [done|lia]. }
    destruct (0 <? num s c); simplify_eq; apply Hmv; try done; [|by left].
    intros d Hd. simpl. case_decide; subst; [by right|by left].
  - destruct (Z.ltb_spec 0 (num s c)); simplify_eq; [|apply Hmv; [by left|done]].
    apply (sleep_moves s i (T_run o k)); try done; simpl; [by left|naive_solver|]. intros d. rewrite Hx. intros [= ->]. done.
  - pose proof (num_range s c HI). destruct (Z.eqb_spec (num s c) 0); simplify_eq.
    + apply (sleep_moves (broadcast v c s) i (T_run o k)); simpl.
      * by apply broadcast_sleep.
      * by rewrite list_lookup_fmap, Hi.
      * by left.
      * intros d Hd. right. rewrite Hx in Hd. injection Hd as ->. intros j u. apply broadcast_wakes.
      * intros d Ha. by destruct (Hnw d).
    + apply (sleep_moves s i (T_run o k)); try done; simpl; [by left| |intros d Ha; by destruct (Hnw d)].
      intros d. rewrite Hx. intros [= ->]. left. lia.
Qed.

(** A thread moves to a place where it holds and counts for the same. *)
Lemma same_moves s i t t' : rw_inv s -> rw_no_lost_wakeup s -> threads s !! i = Some t -> thread_ok t' ->
  (forall m, held v t' m = held v t m) -> (forall c, counted v t' c = counted v t c) ->
  (forall c, ~ asleep_on c t') -> (forall c, ~ broadcasts c t) ->
  rw_inv (set_thread i t' s) /\ rw_no_lost_wakeup (set_thread i t' s).
Proof.
  intros HI HS Hi Hok Hh Hc Ha Hb. split.
  - apply (thread_moves s i t); try done.
    + intros m. rewrite Hh. by destruct (held v t m).
    + intros m. rewrite Hh. congruence.
    + intros c. rewrite Hc. lia.
  - apply (sleep_moves s i t); try done; [by left| |]; intros c ?; exfalso; [by apply (Hb c)|by apply (Ha c)].
Qed.

Lemma relock_ok s i o k c : rw_inv s -> rw_no_lost_wakeup s -> threads s !! i = Some (T_relock o k) ->
  code v o !! k = Some (Wait_while c) -> owner s (cmutex c) = None ->
  let s' := set_thread i (T_run o k) (set_owner (cmutex c) (Some i) s) in rw_inv s' /\ rw_no_lost_wakeup s'.
Proof.
  intros HI HS Hi Hx Ho. pose proof (code_pre v o k _ Hx) as Hp. simpl in Hp. split.
  - apply (thread_moves s i (T_relock o k)); try done; simpl; rewrite ?Hx.
    + by eexists.
    + intros m. case_decide; subst.
      * by rewrite Hp, bool_decide_true.
      * rewrite bool_decide_false, andb_true_r by done. by destruct (held_at v o k m).
    + intros m H1 H2. rewrite H2 in H1. simpl in H1. destruct (decide (m = cmutex c)) as [->|]; [done|].
      by rewrite bool_decide_false in H1.
    + intros d. lia.
  - apply (sleep_moves s i (T_relock o k)); try done. by left.
Qed.

Lemma rw_step_ok s s' : step v s s' -> rw_inv s -> rw_no_lost_wakeup s -> rw_inv s' /\ rw_no_lost_wakeup s'.
Proof.
  intros [[i|i|i|i] He] HI HS; unfold exec in He.
  - destruct (threads s !! i) as [[]|] eqn:Hi; simplify_eq. apply (same_moves s i T_idle); try done.
    all: try (by intros ? []); try apply code_start; by intros [].
  - destruct (threads s !! i) as [[]|] eqn:Hi; simplify_eq. apply (same_moves s i T_idle); try done.
    all: try (by intros ? []); try apply code_start; by intros [].
  - unfold run_thread in He. apply bind_Some in He as (t & Hi & He).
    destruct t as [|o k|o k|o k| |]; simplify_eq.
    + apply bind_Some in He as (x & Hx & He). split; [by eapply exec_ins_inv|by eapply exec_ins_sleep].
    + destruct (code v o !! k) as [[]|] eqn:Hx; simplify_eq. destruct (owner s _) eqn:Ho; simplify_eq.
      by apply relock_ok.
    + apply (same_moves s i T_read); try done.
      all: try (by intros ? []); try apply code_start; by intros [].
    + apply (same_moves s i T_write); try done.
      all: try (by intros ? []); try apply code_start; by intros [].
  - destruct (threads s !! i) as [[| |o k| | |]|] eqn:Hi; simplify_eq.
    apply (same_moves s i (T_asleep o k)); try done; [|by intros ? []..].
    apply (ri_threads s HI i _ Hi).
Qed.

Lemma init_ok n : rw_inv (init_rwlock n) /\ rw_no_lost_wakeup (init_rwlock n).
Proof.
  split; [constructor|]; simpl; try done.
  - intros i t [-> _]%lookup_replicate. done.
  - intros m i t [-> _]%lookup_replicate. done.
  - intros c. induction n; simpl; lia.
  - intros i t c [-> _]%lookup_replicate. done.
Qed.
Lemma reachable_ok n s : rtc (step v) (init_rwlock n) s -> rw_inv s /\ rw_no_lost_wakeup s.
Proof.
  intros Hr. destruct (init_ok n) as [HI HS]. induction Hr as [|x y z Hxy _ IH]; [done|].
  destruct (rw_step_ok x y Hxy HI HS). by apply IH.
Qed.
Lemma reachable_length n s : rtc (step v) (init_rwlock n) s -> length (threads s) = n.
Proof.
  assert (Hstep : forall x y, step v x y -> length (threads y) = length (threads x)).
  { intros x y [[i|i|i|i] He]; unfold exec, run_thread, exec_ins in He;
      repeat (case_match || simplify_option_eq); simpl; by rewrite ?length_insert, ?length_map. }
  intros Hr. replace n with (length (threads (init_rwlock n))) by apply length_replicate.
  induction Hr as [|x y z Hxy _ IH]; [done|]. by rewrite IH, (Hstep x y Hxy).
Qed.

(** ** When no thread can run *)
Section stuck.
Variable s : rw_lock.
Hypothesis HI : rw_inv s.
Hypothesis HS : rw_no_lost_wakeup s.
Hypothesis stuck : forall i, run_thread v i s = None.

Lemma stuck_place i t : threads s !! i = Some t ->
  t = T_idle \/ (exists o k m, t = T_run o k /\ code v o !! k = Some (Lock m) /\ owner s m <> None) \/
  (exists o k c, t = T_relock o k /\ code v o !! k = Some (Wait_while c) /\ owner s (cmutex c) <> None) \/
  exists o k c, t = T_asleep o k /\ code v o !! k = Some (Wait_while c).
Proof using HI stuck.
  intros Hi. pose proof (stuck i) as Hn. pose proof (ri_threads s HI i t Hi) as Hok. unfold run_thread in Hn.
  rewrite Hi in Hn. simpl in Hn. destruct t as [|o k|o k|o k| |]; simpl in *; try done; [by left|..]; right.
  - left. destruct Hok as [x Hx]. rewrite Hx in Hn. simpl in Hn. exists o, k.
    destruct x as [m|m|c|c|c|c]; simpl in Hn; repeat case_match; simplify_eq. eexists. split_and!; [done..|]. congruence.
  - right; right. destruct Hok as [c Hc]. by exists o, k, c.
  - right; left. destruct Hok as [c Hc]. rewrite Hc in Hn. exists o, k, c. repeat case_match; simplify_eq.
    split_and!; [done..|]. congruence.
Qed.

Lemma owner_place m i : owner s m = Some i ->
  exists o k m', threads s !! i = Some (T_run o k) /\ code v o !! k = Some (Lock m') /\ owner s m' <> None /\
  held_at v o k m = true.
Proof using HI stuck.
  intros Ho. destruct (lookup_lt_is_Some_2 (threads s) i (ri_owned s HI m i Ho)) as [t Hi].
  pose proof (ri_owner s HI m i t Hi) as Hh. rewrite bool_decide_true in Hh by done.
  destruct (stuck_place i t Hi) as [->|[(o & k & m' & -> & Hx & Hm)|[(o & k & c & -> & Hx & _)|(o & k & c & -> & Hx)]]].
  - done.
  - by exists o, k, m'.
  - simpl in Hh. rewrite Hx, (wait_held v o k c m Hx) in Hh. by destruct (bool_decide _).
  - simpl in Hh. rewrite Hx, (wait_held v o k c m Hx) in Hh. by destruct (bool_decide _).
Qed.

Lemma stuck_mutexes m : owner s m = None.
Proof using HI stuck.
  assert (Hc : forall m, m <> mutex_write -> owner s m = None).
  { intros n Hn. destruct (owner s n) as [i|] eqn:Ho; [|done].
    destruct (owner_place n i Ho) as (o & k & m' & _ & Hx & _ & Hh).
    destruct (code_pre v o k _ Hx) as (_ & H1 & H2). destruct n; congruence. }
  destruct (decide (m = mutex_write)) as [->|]; [|by apply Hc].
  destruct (owner s mutex_write) as [i|] eqn:Ho; [|done].
  destruct (owner_place mutex_write i Ho) as (o & k & m' & _ & Hx & Hm & Hh).
  by rewrite (write_locks v o k m' Hx Hh), Hc in Hm.
Qed.

Lemma stuck_asleep i t : threads s !! i = Some t ->
  t = T_idle \/ exists o k c, t = T_asleep o k /\ code v o !! k = Some (Wait_while c) /\
    exists j o' k' c', threads s !! j = Some (T_asleep o' k') /\ code v o' !! k' = Some (Wait_while c') /\
    0 < count_at v o' k' c.
Proof using HI HS stuck.
  assert (Hpl : forall i t, threads s !! i = Some t -> t = T_idle \/
    exists o k c, t = T_asleep o k /\ code v o !! k = Some (Wait_while c)).
  { intros j u Hj. destruct (stuck_place j u Hj) as [->|[(? & ? & m & _ & _ & H)|[(? & ? & c & _ & _ & H)|H]]].
    - by left.
    - by rewrite stuck_mutexes in H.
    - by rewrite stuck_mutexes in H.
    - by right. }
  intros Hi. destruct (Hpl i t Hi) as [->|(o & k & c & -> & Hx)]; [by left|]. right. exists o, k, c. do 2 (split; [done|]).
  destruct (HS i _ c Hi Hx) as [Hp|(j & u & Hj & Hb)].
  - rewrite (ri_num s HI) in Hp. apply zsum_pos in Hp as (j & u & Hj & Hu).
    destruct (Hpl j u Hj) as [->|(o' & k' & c' & -> & Hx')]; [done|]. by exists j, o', k', c'.
  - by destruct (Hpl j u Hj) as [->|(? & ? & ? & -> & _)].
Qed.

Lemma stuck_idle i t : threads s !! i = Some t -> t = T_idle.
Proof using HI HS stuck.
  intros Hi. destruct (stuck_asleep i t Hi) as [|(o & k & c & -> & Hx & j & o1 & k1 & c1 & Hj & Hx1 & Hp)]; [done|].
  destruct (stuck_asleep j _ Hj) as [|(o2 & k2 & c2 & E & Hx2 & j3 & o3 & k3 & c3 & Hj3 & Hx3 & Hp3)]; [done|].
  injection E as <- <-. rewrite Hx1 in Hx2. injection Hx2 as <-. exfalso.
  destruct (sleeper_counts v o1 k1 c1 Hx1) as [Hz Hc]. destruct (sleeper_counts v o3 k3 c3 Hx3) as [_ Hc3].
  rewrite (Hc c Hp), <- (Hc3 c1 Hp3) in Hp. lia.
Qed.
End stuck.

Lemma progress s : rw_inv s -> rw_no_lost_wakeup s -> (exists i t, threads s !! i = Some t /\ t <> T_idle) ->
  exists i s', run_thread v i s = Some s'.
Proof.
  intros HI HS (i & t & Hi & Ht).
  destruct (decide (Exists (fun j => is_Some (run_thread v j s)) (seq 0 (length (threads s))))) as [He|He].
  - apply Exists_exists in He as (j & _ & [s' Hs]). by exists j, s'.
  - exfalso. apply Ht. apply (stuck_idle s HI HS) with (i := i); [|done]. intros j.
    destruct (run_thread v j s) as [s'|] eqn:E; [|done]. exfalso. apply He, Exists_exists. exists j.
    split; [|by rewrite E]. apply elem_of_seq. split; [lia|]. unfold run_thread in E.
    destruct (threads s !! j) eqn:Hj; [|done]. apply lookup_lt_Some in Hj. lia.
Qed.
End inv.

(** C40. In both variants, for any number of threads and any interleaving: two
    writers are never inside the protected section at once, each mutex is held
    by one thread at most, the counters are exactly the numbers of readers and
    writers that have announced themselves and not yet left (so they stay
    within the number of threads and never wrap around), and the lock never
    deadlocks: as long as some thread is inside a call or the protected
    section, a thread that is not asleep can execute its next statement. *)
Theorem rw_lock_safe_and_live v n s : rtc (step v) (init_rwlock n) s ->
  (forall i j, threads s !! i = Some T_write -> threads s !! j = Some T_write -> i = j) /\
  (forall m i j t u, threads s !! i = Some t -> threads s !! j = Some u ->
    held v t m = true -> held v u m = true -> i = j) /\
  (forall c, num s c = zsum (fun t => counted v t c) (threads s) /\ 0 <= num s c <= Z.of_nat n) /\
  ((exists i t, threads s !! i = Some t /\ t <> T_idle) -> exists i s', run_thread v i s = Some s').
Proof.
  intros Hr. destruct (reachable_ok v n s Hr) as [HI HS].
  assert (Hex : forall m i j t u, threads s !! i = Some t -> threads s !! j = Some u ->
    held v t m = true -> held v u m = true -> i = j).
  { intros m i j t u Hi Hj. rewrite (ri_owner v s HI m i t Hi), (ri_owner v s HI m j u Hj), !bool_decide_eq_true.
    congruence. }
  split_and!; [|done| |by apply progress].
  - intros i j Hi Hj. by apply (Hex mutex_write i j T_write T_write).
  - intros c. split; [apply HI|]. rewrite <- (reachable_length v n s Hr). by apply (num_range v).
Qed.

Lemma rw_run_steps v es s s' : run v es s = Some s' -> rtc (step v) s s'.
Proof. apply foldl_steps. Qed.

Definition turns (n i : nat) : list event := replicate n (Run i).
(** Thread 0 reads, thread 1 writes: the test of the other side's counter and
    the announcement are two critical sections, and the other thread runs
    between them. *)
Definition overlap (v : variant) : list event :=
  match v with
  | r_test => Call_w 1 :: turns 3 1 ++ Call_r 0 :: turns 6 0 ++ turns 4 1
  | w_test => Call_r 0 :: turns 3 0 ++ Call_w 1 :: turns 7 1 ++ turns 3 0
  end.

Lemma rw_lock_safe_and_live_witness :
  exists s, rtc (step r_test) (init_rwlock 2) s /\ threads s = [T_read; T_write] /\
  exists i s', run_thread r_test i s = Some s'.
Proof.
  assert (exists s, run r_test (overlap r_test) (init_rwlock 2) = Some s /\ threads s = [T_read; T_write]) as (s & Hr & Ht).
  { eexists. split; [vm_compute; reflexivity|reflexivity]. }
  apply rw_run_steps in Hr. exists s. split; [exact Hr|]. split; [exact Ht|].
  apply (rw_lock_safe_and_live r_test 2 s Hr). exists 0%nat, T_read. rewrite Ht. split; [reflexivity|discriminate].
Defined.

(** Neither variant excludes readers from writers: two threads, one calling
    [r_lock] and one calling [w_lock], can be inside the protected section at
    the same time. *)
Theorem reader_with_writer v :
  exists s, rtc (step v) (init_rwlock 2) s /\ threads s = [T_read; T_write].
Proof.
  destruct v; eexists.
  - split; [apply (rw_run_steps _ (overlap r_test)); vm_compute; reflexivity|reflexivity].
  - split; [apply (rw_run_steps _ (overlap w_test)); vm_compute; reflexivity|reflexivity].
Qed.

(** ** rw_lock.c: the extreme elements of an array, as offsets from [start] *)
Definition max_element (a : list Z) : nat :=
  foldl (fun max i => if nth max a 0 <? nth i a 0 then i else max) 0%nat (seq 1 (length a - 1)).
Definition min_element (a : list Z) : nat :=
  foldl (fun min i => if nth i a 0 <? nth min a 0 then i else min) 0%nat (seq 1 (length a - 1)).

Lemma extreme_scan (key : nat -> Z) n :
  let r := foldl (fun best i => if key best <? key i then i else best) 0%nat (seq 1 n) in
  (r <= n)%nat /\ (forall i, (i <= n)%nat -> key i <= key r) /\ forall i, (i < r)%nat -> key i < key r.
Proof.
  induction n as [|n (H1 & H2 & H3)]; cbv zeta in *.
  { simpl. split_and!; [lia| |lia]. intros i ?. by replace i with 0%nat by lia. }
  rewrite seq_S, foldl_app. cbn [foldl]. change (1 + n)%nat with (S n).
  set (r := foldl _ _ _) in *. destruct (Z.ltb_spec (key r) (key (S n))) as [Hlt|Hge]; split_and!; try lia; try done.
  - intros i Hi. destruct (decide (i = S n)) as [->|]; [lia|]. pose proof (H2 i ltac:(lia)). lia.
  - intros i Hi. pose proof (H2 i ltac:(lia)). lia.
  - intros i Hi. destruct (decide (i = S n)) as [->|]; [lia|]. apply H2. lia.
Qed.

Lemma min_as_max (l : list Z) n k :
  foldl (fun best i => if - nth best l 0 <? - nth i l 0 then i else best) k n =
  foldl (fun min i => if nth i l 0 <? nth min l 0 then i else min) k n.
Proof.
  revert k. induction n as [|i n IH]; intros k; [done|]. simpl. rewrite IH. f_equal.
  destruct (Z.ltb_spec (- nth k l 0) (- nth i l 0)), (Z.ltb_spec (nth i l 0) (nth k l 0)); done || lia.
Qed.

(** [max_element] returns the first position of the largest element and
    [min_element] the first position of the smallest. *)
Theorem extreme_elements a : a <> [] ->
  (max_element a < length a)%nat /\ (min_element a < length a)%nat /\
  (forall i, (i < length a)%nat -> nth (min_element a) a 0 <= nth i a 0 <= nth (max_element a) a 0) /\
  (forall i, (i < max_element a)%nat -> nth i a 0 < nth (max_element a) a 0) /\
  (forall i, (i < min_element a)%nat -> nth (min_element a) a 0 < nth i a 0).
Proof.
  intros Ha. destruct a as [|x a]; [done|]. clear Ha. set (l := x :: a).
  assert (Hl : (length l - 1)%nat = length a) by (simpl; lia).
  pose proof (extreme_scan (fun i => nth i l 0) (length l - 1)) as (H1 & H2 & H3).
  pose proof (extreme_scan (fun i => - nth i l 0) (length l - 1)) as (G1 & G2 & G3).
  rewrite min_as_max in G1, G2, G3. fold (max_element l) in *. fold (min_element l) in *.
  assert (length l = S (length a)) by done. split_and!; try lia.
  - intros i Hi. pose proof (H2 i ltac:(lia)). pose proof (G2 i ltac:(lia)). lia.
  - intros i Hi. by apply H3.
  - intros i Hi. pose proof (G3 i Hi). lia.
Qed.
